(* ===== verification/_CoqProject ===== *)
-Q . S2P
Prelude.v
Float64.v
Utils.v
Strconv.v
Protocol.v
Ipc.v
Event.v
Stats.v
ClockBase.v
Method.v
BC.v
GM.v
HA.v
TBC.v
Clock.v
Clocks.v
Conditions.v
Process.v
ClockMgr.v
Dpll.v
ExecProcess.v
Processes.v
ProcMgr.v
Config.v
Regex.v
Ts2phc.v
Alias.v
Parser.v
Synce.v
PtpInput.v
PtpProcess.v
Conf.v
PtpConfig.v
Resolver.v
Profile.v
Apply.v
Applied.v
Ublox.v
UbloxCmd.v
Gpsd.v
LeapFile.v
Pmc.v
Leap.v
Attr.v
Netlink.v
HwTypes.v
PinCmd.v
PinMerge.v
HwVendor.v
Paths.v
GnssDevice.v
ClockID.v
HwState.v
HwChain.v
HwBuild.v
HwNames.v
HwApply.v
HwRun.v
HwManager.v
HwGnss.v
HwReached.v
HwController.v
PtpController.v
Json.v
Wire.v
Link.v
PubSub.v
CepStore.v
CepEvents.v
CepApi.v
SharedState.v
Duration.v
LogFilter.v
PhcStep.v
Plugin.v
IntelPins.v
IntelChain.v
IntelPlugins.v
NetUtils.v
