(* ===== verification/Prelude.v ===== *)
(** * linuxptp-daemon: a verification library

    linuxptp-daemon runs on every node of a cluster.  From the PTP profiles of the node
    it writes configuration files, starts the programs of linuxptp (ptp4l, phc2sys,
    ts2phc, synce4l) and of chrony, reads their logs, watches the DPLLs of the network
    cards through netlink, and combines everything into clocks whose state it reports to
    cloud-event-proxy, to Prometheus and, on a grandmaster or a telecom boundary clock,
    back to ptp4l.

    ** How the parts interact

    A log line goes through the parser of its program (Parser.v, patterns over Regex.v)
    and becomes metrics or an event of a port; PtpProcess.v turns those into [Event]s
    (Event.v), for ts2phc by way of its poll cycles (Ts2phc.v), for synce4l of its
    quality levels (Synce.v).  DPLLs (Dpll.v) produce events as well.  Every event is
    given to the clock manager (ClockMgr.v), which routes it to the clock of its
    configuration (GM.v, BC.v, HA.v, TBC.v behind the interface of Clock.v), combines the
    states of all clocks with the one of the OS clock (ClockBase.v), sends messages
    (Ipc.v), sets gauges and keeps a snapshot ([EventStats] of Conditions.v).  Events and
    snapshots reach the process manager (ProcMgr.v) too, which starts, restarts and stops
    processes (ExecProcess.v, Dpll.v behind the interface of Process.v) when their
    conditions (Conditions.v) are met.  Conf.v reads, completes and prints the
    configuration files; Alias.v names the ports of a card; Config.v and PtpInput.v hold
    the interfaces of a profile and the ports a T-BC watches.

    The profiles of the node are chosen by one controller (PtpController.v) and applied by
    Apply.v; hardware configurations come by another (HwController.v) to their manager
    (HwState.v to HwReached.v), which sets DPLL pins.  Plug-ins (Plugin.v, PhcStep.v,
    IntelPlugins.v) are called before and after profiles are applied and for every log
    line.  The messages of the daemon cross a socket (Wire.v, Link.v) to the cloud event
    proxy, which keeps the latest event of each kind (CepEvents.v) and delivers events to
    its subscribers (PubSub.v, CepStore.v, CepApi.v).

    ** The files

    - Prelude.v: record update, machine integers, the option monad for panics, loops over
      lists; Float64.v: float64 with its rounding; Strconv.v: numbers as text; Regex.v:
      regular expressions; Method.v: the monad of clock methods and its weakest
      preconditions.  They model the language and its standard library.
    - Utils.v: pkg/utils/window.go, hysteresis.go.  Protocol.v: pkg/protocol/type.go.
      Ipc.v, Wire.v, Link.v: pkg/ipc/ipc.go and cache.go, the JSON text of messages, link.go
      with pkg/utils/reconnect.go.  Json.v, Duration.v: encoding/json and
      time.ParseDuration.  Event.v, Stats.v: pkg/event.
    - ClockBase.v: pkg/clock/clock.go, baseclock.go, osclock.go.  BC.v, GM.v, HA.v,
      TBC.v: bc.go, gm.go, ha.go, tbc.go.  Clock.v: the interface [Clock] as a class
      with its laws; Clocks.v: its four instances.  ClockMgr.v: pkg/clockmgr, written and
      proved against the class only.
    - Conditions.v: pkg/process/conditions.go.  Process.v: process.go, the interface
      [Process] as a class with its laws.  ExecProcess.v: the life of a process in
      pkg/daemon/ptp_process.go.  Dpll.v: pkg/dpll/dpll.go.  Processes.v: the instances.
      ProcMgr.v: pkg/daemon/process_manager.go, against the class.
    - Config.v: pkg/config/config.go, pkg/parser/model.go and constants.  Parser.v:
      ptp4l_parser.go, phc2sys_parser.go, ts2phc_parser.go, chronyd_parser.go, base.go.
      Alias.v: pkg/alias, GetAliasValue of pkg/utils/utils.go.  Synce.v: pkg/synce and
      processSynceEvents.  Ts2phc.v: pkg/daemon/ts2phc.go.  PtpInput.v:
      pkg/hardwareconfig/ptp_input.go.  PtpProcess.v: log_parsing.go, the maps of
      metrics.go, the log handling of ptp_process.go.  Conf.v: pkg/daemon/config.go.
    - PtpConfig.v: the profile of the operator's API.  Resolver.v: pkg/network/resolve.go.
      Profile.v: what a profile asks for, and Apply.v: the process constructors and the
      application of all profiles of a node (daemon.go, ptp_process.go, chronyd.go), with
      its properties in Applied.v.
    - Ublox.v: the messages of the GNSS receiver (pkg/ublox/parser.go, messages.go);
      UbloxCmd.v: its commands, acknowledgements and subscriptions (command.go,
      init_config.go, broker.go, ublox.go).  Gpsd.v: pkg/daemon/gpsd.go.  LeapFile.v,
      Leap.v: pkg/leap.  Pmc.v: pkg/pmc/pmc.go, pkg/daemon/pmc.go.
    - Attr.v: the attribute encoding of the vendored netlink library; Netlink.v:
      pkg/dpll-netlink over it.  HwTypes.v: the HardwareConfig resource and the vendor
      data.  HwVendor.v: vendor_loader.go, label_remap.go, configmap_loader.go,
      delay_compensation.go.  PinCmd.v, PinMerge.v, ClockID.v: the pins, their commands
      and the clock identifiers of utils.go and hardwareconfig.go (pkg/hardwareconfig).
    - HwState.v: the state of the hardware manager and the monad of its methods.
      HwChain.v: clockchain_resolution.go.  HwBuild.v, HwApply.v, HwManager.v:
      hardwareconfig.go, what is built from a chain, what is applied, and the manager;
      HwRun.v: what every run of its methods keeps.  HwGnss.v: gnss.go.  HwNames.v: the
      interfaces of hardware configurations in pkg/network/resolve.go.  Paths.v:
      path/filepath; GnssDevice.v: pkg/ublox/device.go.  HwReached.v: the states a manager
      reaches under all its methods.
    - HwController.v, PtpController.v: pkg/controller/hardwareconfig_controller.go,
      ptpconfig_controller.go.  SharedState.v: pkg/state.  LogFilter.v: pkg/logfilter.
      NetUtils.v: pkg/network/utils.go, hardware_info.go.
    - PubSub.v, CepStore.v, CepEvents.v, CepApi.v: pkg/cep/pubsub.go, store.go,
      event_cache.go, cep.go; the proxy is written against the interface of a store.
    - Plugin.v: pkg/plugin, addons/generic, addons/mapping.go.  PhcStep.v:
      addons/phcfirststep.  IntelPins.v, IntelChain.v, IntelPlugins.v: addons/intel, its
      pins and commands, the clock chain of E810 cards, the plug-ins e810, e825 and e830.
    A Go method has the name of its definition here.  A struct is a record; its instance
    of [Fields] gives the assignment [r <| f := v |>].  A pointer that is shared is an
    index into a store; one that is not is its value, [None] where it may be nil and that
    matters.  A method that panics on an input returns [None] there.  Effects on the
    outside (messages, gauges, commands, goroutines started) are a list in the order in
    which they happen.  Where a map is ranged over and the order can show, it is an
    argument; where goroutines run, a step relation interleaves them.  A mutex that every
    operation holds throughout makes each of them one step; where the code gives it up in
    between, the operation is as many steps.

    ** What is shown

    - Clocks.  A T-BC refines an abstract state machine, locks only on the evidence it
      is meant to need and never applies a superseded fetch; a BC's holdover is never cut
      short, whatever the timers do; a grandmaster follows the decision table of its
      documentation and announces the class it is in even after failures; the state of a
      high-availability clock is the best of its members.  TBC.v, BC.v, GM.v, HA.v.
    - The clock manager panics on a DPLL event without the offset its clock wants and on no
      other it handles, announces the worst of all states exactly when it changes and always
      has a current snapshot pending.
    - Conditions and processes.  When conditions fire, and that they read no more than
      they requested; the life of a process and of a DPLL under every interleaving of their
      unlocked steps; the process manager moves each process as its deciding condition says
      while nobody else touches it, stops them in dependency order and restarts only what
      died.
    - DPLL.  One holdover goroutine exactly while a holdover is on, never more than two even
      when a stop races with an update; coherent events.
    - Logs.  A T-BC leaves holdover only after a full window of good offsets, its report
      follows its ports, the loss of the source is reported once, and no sink of ts2phc
      is lost sight of.
    - Files and texts.  What the parser of configurations accepts is well formed; what is
      printed is read back unchanged; aliases are idempotent and unambiguous; PTP data
      sets survive a round trip; the matcher of Regex.v is sound and complete for the
      paths through a pattern.
    - Profiles.  The topology is the one the profiles describe; resolved names and
      thresholds are what their documentation promises, or the finding says where not; a
      successful application leaves exactly the processes and clocks the profiles ask for,
      under distinct names, with exactly those started that wait for nothing.
    - GNSS and leap seconds.  What ubxtool prints is read back message by message; each
      response is counted for the batch it answers; a GNSS event is one matching pair of
      an epoch, and a silent receiver is reset; the leap-second file survives its printing
      and the restarts of the daemon, and pmc is told of a leap second once per window.
    - DPLL pins.  A command for a pin is read back from its bytes as it was; merged
      commands hold the last value given for each field; phase adjustments stay within the
      limits of the pin and are the sums of the delays of their routes.
    - Hardware configurations.  Resolving a chain changes nothing that was configured and
      leaves every managed subsystem complete; user and template behaviour are merged by
      name; an update is all or nothing; in every reachable state the caches are coherent
      and no configuration lacks its chain; default and initial conditions are applied
      once each; settings of a profile are only added to; the status of a GNSS source is
      told when it changes; a receiver is picked only when it is the only one.
    - Controllers.  The profiles of a node are those recommended for it with the highest
      priority; the daemon follows the hardware configurations of the cluster, or is left as
      it was.
    - Messages and cloud events.  What is transmitted is received; after a reconnection the
      peer knows the last values; subscriptions refine a map and survive in their store; the
      event cache holds the latest values; requests are answered by their table and events
      delivered once to every subscriber of their source.
    - Plug-ins.  The failover machine follows a view of its log; a clock is stepped by its
      measured offset; no command to a DPLL combines a direction with a priority or state;
      resetting the pins of E810 cards is all or nothing.
    - Network cards.  The image of the product data is read as it was written.
    Every property has a witness, an instance on concrete values, where it has
    hypotheses.  Lemmas named in the findings evaluate the code's behaviour on the input
    that shows a defect.

    ** Bounds and fuel

    Integers are [Z] with the wrap-around of their width where it can occur; generations
    and tokens of timers and fetches are assumed below 2^64, as a counter advanced once
    per event is.  Offsets of magnitude below 2^53 convert to float64 exactly; no theorem
    assumes more.  The printers and parsers of Strconv.v use as much fuel as the number has
    digits, with a lemma that it suffices.  [MustCompile] uses three steps per character
    of the pattern, and every pattern in use is compiled when its file is; a star
    unrolls at most as often as characters remain, since an empty iteration ends it;
    replacing and collecting matches advance by at least one character.  A pass of
    the failover machine ends within its fuel ([failover_loop_ends]), the reader of a VPD
    image within the length of the image ([vpd_total]), and the walk through the PCI
    capabilities, if it ends at all, within as many steps as there are offsets
    ([pci_walk_decided]).  No listed property has fuel in its statement.

    ** Not modelled, and why

    - Input and output as such: sockets, pipes, files, netlink, Prometheus' server, the
      Kubernetes client.  Their results are arguments, their calls are effects.
    - The log of the daemon itself, pkg/debug, and the textual forms only they use.
    - gonum's statistics, which are other people's code; so [Median], [Variance] and
      [StdDev] of a window are left out.
    - extractMetrics of pkg/daemon/metrics.go, which no program the daemon builds reaches.
    - Text beyond ASCII in patterns: linuxptp's logs and interface names are ASCII.
    - pkg/features, pkg/metrics and cmd: versions of packages, the registry of Prometheus
      and the entry points.  pkg/network/dmi_info.go, which copies what a library read, and
      the functions of hardware_info.go that only log.
    - Of pkg/cep: the listener, TLS and the HTTP client; the encoding of CloudEvents, uuids
      and the check of URLs are arguments.  Of addons: files, dumps, the runs of ubxtool,
      ptp4l and phc_ctl, and the parser of configurations, are arguments; ParseVpd and the
      fingerprint of addons/intel are called by nothing.
    - Of pkg/hardwareconfig: the decoding of the embedded YAML files and of the label
      maps, the commands that are run and the RTM_GETLINK query are arguments; deep copies
      and logs leave no trace.  Of pkg/dpll-netlink: sockets, JSON and the table writer.
    - What is left of pkg/daemon: the main loop of Run and gpspipe.  In Apply.v the
      plug-ins, the answers of the hardware configuration, ParseFloat of a setting and the
      decoding of plug-in options are fields of [Env]. *)

From Stdlib Require Export Lia ZArith ZifyBool.
From stdpp Require Export base tactics numbers strings option list list_numbers gmap fin_maps.

#[global] Open Scope Z_scope.

(** ** Functional record update

    [r <| f := v |>] is the Go assignment [r.f = v] on a value record.  A record
    type has one [Fields] instance, its constructor applied to its projections;
    the update of one field is computed from it by the hint below. *)

Class Fields (R : Type) := eta_fields : R -> R.

Class Update {R T : Type} (proj : R -> T) := upd : T -> R -> R.

Ltac derive_update proj :=
  lazymatch type of proj with
  | ?R -> _ =>
      let inst := constr:(_ : Fields R) in
      let fields := eval hnf in inst in
      let v := fresh "v" in
      let r := fresh "r" in
      unfold Update; intros v r;
      let body := eval cbv beta in (fields r) in
      lazymatch eval pattern (proj r) in body with
      | ?f _ => let b := eval cbv beta in (f v) in exact b
      end
  end.

#[export] Hint Extern 1 (Update ?proj) => derive_update proj : typeclass_instances.

Arguments upd {R T} proj {_} v r /.

Declare Scope go_scope.
Delimit Scope go_scope with go.
#[global] Open Scope go_scope.

Notation "r <| f := v |>" := (upd f v r)
  (at level 1, f at level 0, v at level 200, left associativity,
   format "r  <| f  :=  v |>") : go_scope.

(** ** Machine integers

    Go's [int64], [int] (64 bits on every supported target), [uint64], [uint8] and
    [int32] are [Z] values; the conversions and the arithmetic that can leave the
    range wrap around as the language prescribes. *)

Definition wrap_s (w z : Z) : Z := (z + 2 ^ (w - 1)) mod 2 ^ w - 2 ^ (w - 1).
Definition wrap_u (w z : Z) : Z := z mod 2 ^ w.

Definition int64 (z : Z) : Z := wrap_s 64 z.
Definition int32 (z : Z) : Z := wrap_s 32 z.
Definition uint64 (z : Z) : Z := wrap_u 64 z.
Definition uint8 (z : Z) : Z := wrap_u 8 z.

Definition in_int64 (z : Z) : Prop := - 2 ^ 63 <= z < 2 ^ 63.
Definition in_uint64 (z : Z) : Prop := 0 <= z < 2 ^ 64.

Lemma int64_id z : in_int64 z -> int64 z = z.
Proof. unfold in_int64, int64, wrap_s. intros. rewrite Z.mod_small; lia. Qed.

(** ** Strings: the parts of Go's [strings], [strconv] and [fmt] the code uses *)

Definition str_eqb (a b : string) : bool := bool_decide (a = b).

(** [has_prefix p s] is [strings.HasPrefix(s, p)]; [drop_prefix] removes it. *)
Fixpoint drop_prefix (p s : string) : option string :=
  match p, s with
  | EmptyString, _ => Some s
  | String a p', String b s' =>
      if decide (a = b) then drop_prefix p' s' else None
  | String _ _, EmptyString => None
  end.

(** [strings.Replace(s, old, new, 1)] for a non-empty [old]. *)
Fixpoint replace1 (old new s : string) : string :=
  match drop_prefix old s with
  | Some rest => (new +:+ rest)%string
  | None =>
      match s with
      | EmptyString => EmptyString
      | String c s' => String c (replace1 old new s')
      end
  end.

(** [strings.Join(parts, sep)]. *)
Fixpoint join (sep : string) (parts : list string) : string :=
  match parts with
  | [] => EmptyString
  | [p] => p
  | p :: rest => (p +:+ sep +:+ join sep rest)%string
  end.

Lemma str_app_nil (t : string) : ("" +:+ t)%string = t.
Proof. done. Qed.

Lemma str_app_cons a (s t : string) : (String a s +:+ t)%string = String a (s +:+ t)%string.
Proof. done. Qed.

Definition newline : string := String (Ascii.ascii_of_nat 10) EmptyString.

(** ** Run-time panics

    A Go function that can panic (index out of range, nil dereference) is modelled
    as a partial function into [option]; [None] is the panic, and composition is
    stdpp's option monad ([x ← c; k]). *)

(** The update in place, through a pointer found by a linear search, of the first
    element that satisfies [p]. *)
Fixpoint modify_first {A} (p : A -> bool) (f : A -> option A) (l : list A) : option (list A) :=
  match l with
  | [] => Some []
  | x :: l' =>
      if p x then y ← f x; Some (y :: l')
      else l'' ← modify_first p f l'; Some (x :: l'')
  end.

(** The first element that satisfies [p], the loop [for _, x := range l { if p(x) { return x } }]. *)
Fixpoint first_match {A} (p : A -> bool) (l : list A) : option A :=
  match l with
  | [] => None
  | x :: l' => if p x then Some x else first_match p l'
  end.

Lemma first_match_app {A} (p : A -> bool) l k :
  first_match p (l ++ k) = match first_match p l with Some x => Some x | None => first_match p k end.
Proof. induction l as [|x l IH]; cbn; [done|]. by destruct (p x). Qed.

Lemma first_match_Some {A} (p : A -> bool) l x : first_match p l = Some x -> p x = true /\ x ∈ l.
Proof.
  induction l as [|y l IH]; cbn; [done|]. case_match.
  - intros [= ->]. split; [done|left].
  - intros [? ?]%IH. split; [done|by right].
Qed.

Lemma first_match_None {A} (p : A -> bool) l : first_match p l = None <-> Forall (fun x => p x = false) l.
Proof.
  induction l as [|y l IH]; cbn; [by split|]. destruct (p y) eqn:E.
  - split; [done|]. inversion 1; congruence.
  - split; [intros ?%IH; by constructor|]. inversion 1; subst. by apply IH.
Qed.

Lemma first_match_miss {A} (p : A -> bool) l x : first_match p l = None -> x ∈ l -> p x = false.
Proof. rewrite first_match_None, Forall_forall. auto. Qed.

(** When one element at most satisfies the test, the order does not matter. *)
Lemma first_match_unique {A} (p : A -> bool) l l' :
  (forall x y, x ∈ l -> y ∈ l -> p x = true -> p y = true -> x = y) -> l ≡ₚ l' -> first_match p l = first_match p l'.
Proof.
  intros Hu Hp. destruct (first_match p l) as [x|] eqn:E; destruct (first_match p l') as [y|] eqn:E'; try done.
  - apply first_match_Some in E as [? ?], E' as [? Hy]. rewrite <- Hp in Hy. f_equal. by apply Hu.
  - apply first_match_Some in E as [Hpx Hx]. rewrite Hp in Hx. eapply first_match_miss in E'; [|done]. congruence.
  - apply first_match_Some in E' as [Hpx Hx]. rewrite <- Hp in Hx. eapply first_match_miss in E; [|done]. congruence.
Qed.
