(* ===== verification/Float64.v ===== *)
(** * IEEE-754 binary64, as Go's [float64] and the parts of package [math] in use

    A [float64] is a [spec_float] of precision 53 and maximal exponent 1024, the
    executable specification of the format in Rocq's own library, so every
    comparison, conversion and arithmetic operation of the program is computed with
    its rounding, its infinities, its signed zeros and its NaN.  The lemmas state
    that on the integers of magnitude below 2^53 (every offset in nanoseconds up to
    104 days) conversion is exact and comparison is the comparison of integers. *)

From S2P Require Import Prelude.
From Stdlib Require Import SpecFloat.

Abbreviation f64 := spec_float.

Definition prec : Z := 53.
Definition emax : Z := 1024.

(** [float64(z)] of an integer: round to nearest, ties to even. *)
Definition f64_of_Z (z : Z) : f64 := binary_normalize prec emax z 0 false.

Definition f64_zero : f64 := S754_zero false.
Definition f64_add : f64 -> f64 -> f64 := SFadd prec emax.
Definition f64_mul : f64 -> f64 -> f64 := SFmul prec emax.
Definition f64_div : f64 -> f64 -> f64 := SFdiv prec emax.
(** [<=], [<] and [>] of Go, false as soon as one side is NaN. *)
Definition f64_leb : f64 -> f64 -> bool := SFleb.
Definition f64_ltb : f64 -> f64 -> bool := SFltb.
Definition f64_gtb (a b : f64) : bool := SFltb b a.

(** [math.Abs]. *)
Definition f64_abs : f64 -> f64 := SFabs.

Definition f64_is_nan (a : f64) : bool :=
  match a with S754_nan => true | _ => false end.

(** [math.Max]: +Inf wins, then NaN, and +0 is larger than -0. *)
Definition f64_max (x y : f64) : f64 :=
  match x, y with
  | S754_infinity false, _ | _, S754_infinity false => S754_infinity false
  | S754_nan, _ | _, S754_nan => S754_nan
  | S754_zero sx, S754_zero sy => S754_zero (andb sx sy)
  | _, _ => if f64_gtb x y then x else y
  end.

(** [math.Min]: -Inf wins, then NaN, and -0 is smaller than +0. *)
Definition f64_min (x y : f64) : f64 :=
  match x, y with
  | S754_infinity true, _ | _, S754_infinity true => S754_infinity true
  | S754_nan, _ | _, S754_nan => S754_nan
  | S754_zero sx, S754_zero sy => S754_zero (orb sx sy)
  | _, _ => if f64_ltb x y then x else y
  end.

(** The integer part of a finite value, towards zero. *)
Definition f64_trunc (a : f64) : option Z :=
  match a with
  | S754_zero _ => Some 0
  | S754_finite s m e =>
      let v := if 0 <=? e then Z.shiftl (Zpos m) e else Z.shiftr (Zpos m) (- e) in
      Some (if s then - v else v)
  | _ => None
  end.

(** [math.Round]: half away from zero. *)
Definition f64_round (a : f64) : f64 :=
  match a with
  | S754_finite s m e =>
      if 0 <=? e then a
      else
        let v := Z.shiftr (Zpos m + Z.shiftl 1 (- e - 1)) (- e) in
        if v =? 0 then S754_zero s
        else binary_normalize prec emax (if s then - v else v) 0 s
  | _ => a
  end.

(** [int64(a)]: the language leaves NaN and out-of-range values to the
    implementation; amd64's conversion gives the smallest integer. *)
Definition f64_to_int64 (a : f64) : Z :=
  match f64_trunc a with
  | Some z => if (- 2 ^ 63 <=? z) && (z <? 2 ^ 63) then z else - 2 ^ 63
  | None => - 2 ^ 63
  end.

#[global] Arguments f64_of_Z : simpl never.
#[global] Arguments f64_add : simpl never.
#[global] Arguments f64_mul : simpl never.
#[global] Arguments f64_div : simpl never.
#[global] Arguments f64_leb : simpl never.
#[global] Arguments f64_ltb : simpl never.
#[global] Arguments f64_gtb : simpl never.
#[global] Arguments f64_abs : simpl never.
#[global] Arguments f64_max : simpl never.
#[global] Arguments f64_min : simpl never.
#[global] Arguments f64_to_int64 : simpl never.
#[global] Arguments f64_round : simpl never.

(** ** Conversion of small integers *)

Lemma iter_xO (p d : positive) : Zpos (Pos.iter xO p d) = Zpos p * 2 ^ Zpos d.
Proof.
  induction d as [|d IH] using Pos.peano_ind; [cbn; lia|].
  rewrite Pos.iter_succ, Pos2Z.inj_succ, Z.pow_succ_r by lia.
  change (Z.pos (Pos.iter xO p d)~0) with (2 * Z.pos (Pos.iter xO p d)). lia.
Qed.

Lemma digits2_size p : digits2_pos p = Pos.size p.
Proof. induction p; simpl; congruence. Qed.

Lemma size_iter_xO (p d : positive) :
  Zpos (Pos.size (Pos.iter xO p d)) = Zpos (Pos.size p) + Zpos d.
Proof.
  induction d as [|d IH] using Pos.peano_ind; [cbn; lia|].
  rewrite Pos.iter_succ. cbn [Pos.size]. lia.
Qed.

(** The number of binary digits brackets the value. *)
Lemma size_bounds p : 2 ^ (Zpos (Pos.size p) - 1) <= Zpos p < 2 ^ Zpos (Pos.size p).
Proof.
  pose proof (Pos.size_gt p) as Hgt. pose proof (Pos.size_le p) as Hle.
  assert (Zpos (Pos.pow 2 (Pos.size p)) = 2 ^ Zpos (Pos.size p)) as E by apply Pos2Z.inj_pow.
  split; [|lia].
  assert (2 ^ Zpos (Pos.size p) = 2 * 2 ^ (Zpos (Pos.size p) - 1)) as E2.
  { rewrite <- Z.pow_succ_r by lia. f_equal. lia. }
  lia.
Qed.

Lemma size_small p : Zpos p < 2 ^ 53 -> Zpos (Pos.size p) <= 53.
Proof.
  intros H. pose proof (size_bounds p) as [Hlo _].
  destruct (Z.le_gt_cases (Zpos (Pos.size p)) 53) as [|Hgt]; [done|exfalso].
  assert (2 ^ 53 <= 2 ^ (Zpos (Pos.size p) - 1)) by (apply Z.pow_le_mono_r; lia).
  lia.
Qed.

(** The canonical mantissa of a positive integer of at most 53 digits. *)
Definition mantissa (p : positive) : positive :=
  match (53 - Zpos (Pos.size p))%Z with
  | Zpos d => Pos.iter xO p d
  | _ => p
  end.

Lemma mantissa_value p :
  Zpos (Pos.size p) <= 53 ->
  Zpos (mantissa p) = Zpos p * 2 ^ (53 - Zpos (Pos.size p)) /\ Zpos (Pos.size (mantissa p)) = 53.
Proof.
  intros H. unfold mantissa.
  destruct (53 - Zpos (Pos.size p)) as [|d|d] eqn:E; [|..].
  - split; lia.
  - rewrite iter_xO, size_iter_xO. split; lia.
  - lia.
Qed.

Lemma shr_fexp_canonical m e l :
  Zpos (Pos.size m) = 53 -> -1074 <= e ->
  shr_fexp prec emax (Zpos m) e l = (shr_record_of_loc (Zpos m) l, e).
Proof.
  intros Hm He. unfold shr_fexp. cbn [Zdigits2]. rewrite digits2_size, Hm.
  assert (fexp prec emax (53 + e) = e) as ->.
  { unfold fexp, emin, prec, emax. lia. }
  rewrite Z.sub_diag. done.
Qed.

Lemma binary_round_small s p :
  Zpos (Pos.size p) <= 53 ->
  binary_round prec emax s p 0 = S754_finite s (mantissa p) (Zpos (Pos.size p) - 53).
Proof.
  intros H. pose proof (mantissa_value p H) as [_ Hsz].
  unfold binary_round. rewrite digits2_size, Z.add_0_r.
  assert (fexp prec emax (Zpos (Pos.size p)) = Zpos (Pos.size p) - 53) as ->.
  { unfold fexp, emin, prec, emax. lia. }
  assert (shl_align p 0 (Zpos (Pos.size p) - 53) = (mantissa p, Zpos (Pos.size p) - 53)) as ->.
  { unfold shl_align, mantissa. rewrite Z.sub_0_r.
    destruct (Zpos (Pos.size p) - 53) as [|d|d] eqn:E, (53 - Zpos (Pos.size p)) as [|d'|d'] eqn:E';
      try lia; [done|]. assert (d = d') as -> by lia. done. }
  unfold binary_round_aux.
  rewrite shr_fexp_canonical by lia. cbn [shr_record_of_loc shr_m loc_of_shr_record round_nearest_even].
  rewrite shr_fexp_canonical by lia. cbn [shr_record_of_loc shr_m].
  assert (Z.leb (Zpos (Pos.size p) - 53) (Z.sub emax prec) = true) as ->.
  { apply Z.leb_le. unfold emax, prec. lia. }
  done.
Qed.

Lemma f64_of_pos p :
  Zpos p < 2 ^ 53 -> f64_of_Z (Zpos p) = S754_finite false (mantissa p) (Zpos (Pos.size p) - 53).
Proof. intros H. apply binary_round_small, size_small, H. Qed.

Lemma f64_of_neg p :
  Zpos p < 2 ^ 53 -> f64_of_Z (Zneg p) = S754_finite true (mantissa p) (Zpos (Pos.size p) - 53).
Proof. intros H. apply binary_round_small, size_small, H. Qed.

(** ** Comparison of small integers *)

Definition small (z : Z) : Prop := Z.abs z < 2 ^ 53.

Lemma compare_mantissa p q :
  Zpos p < 2 ^ 53 -> Zpos q < 2 ^ 53 ->
  match Z.compare (Zpos (Pos.size p) - 53) (Zpos (Pos.size q) - 53) with
  | Lt => Lt
  | Gt => Gt
  | Eq => Pos.compare_cont Eq (mantissa p) (mantissa q)
  end = Z.compare (Zpos p) (Zpos q).
Proof.
  intros Hp%size_small Hq%size_small.
  pose proof (mantissa_value p Hp) as [Vp _]. pose proof (mantissa_value q Hq) as [Vq _].
  pose proof (size_bounds p) as Bp. pose proof (size_bounds q) as Bq.
  destruct (Z.compare_spec (Zpos (Pos.size p) - 53) (Zpos (Pos.size q) - 53)) as [E|E|E]; symmetry.
  - change (Pos.compare_cont Eq (mantissa p) (mantissa q)) with (Z.compare (Zpos (mantissa p)) (Zpos (mantissa q))).
    rewrite Vp, Vq. replace (Zpos (Pos.size q)) with (Zpos (Pos.size p)) by lia.
    apply Zmult_compare_compat_r. apply Z.lt_gt, Z.pow_pos_nonneg; lia.
  - apply Z.compare_lt_iff.
    assert (2 ^ Zpos (Pos.size p) <= 2 ^ (Zpos (Pos.size q) - 1)) by (apply Z.pow_le_mono_r; lia). lia.
  - apply Z.compare_gt_iff.
    assert (2 ^ Zpos (Pos.size q) <= 2 ^ (Zpos (Pos.size p) - 1)) by (apply Z.pow_le_mono_r; lia). lia.
Qed.

Lemma f64_compare_small a b :
  small a -> small b -> SFcompare (f64_of_Z a) (f64_of_Z b) = Some (Z.compare a b).
Proof.
  unfold small. intros Ha Hb.
  destruct a as [|p|p], b as [|q|q];
    rewrite ?f64_of_pos, ?f64_of_neg by lia; unfold SFcompare; try done.
  - f_equal. apply compare_mantissa; lia.
  - f_equal. pose proof (compare_mantissa p q ltac:(lia) ltac:(lia)) as E.
    change (Zneg p ?= Zneg q) with (CompOpp (Zpos p ?= Zpos q)). rewrite <- E.
    by destruct (Z.compare _ _).
Qed.

Lemma f64_leb_small a b : small a -> small b -> f64_leb (f64_of_Z a) (f64_of_Z b) = (a <=? b).
Proof.
  intros Ha Hb. unfold f64_leb, SFleb. rewrite f64_compare_small by done.
  unfold Z.leb. by destruct (a ?= b).
Qed.

Lemma f64_ltb_small a b : small a -> small b -> f64_ltb (f64_of_Z a) (f64_of_Z b) = (a <? b).
Proof.
  intros Ha Hb. unfold f64_ltb, SFltb. rewrite f64_compare_small by done.
  unfold Z.ltb. by destruct (a ?= b).
Qed.

Lemma f64_gtb_small a b : small a -> small b -> f64_gtb (f64_of_Z a) (f64_of_Z b) = (b <? a).
Proof. intros. by apply f64_ltb_small. Qed.

Lemma f64_abs_small a : small a -> f64_abs (f64_of_Z a) = f64_of_Z (Z.abs a).
Proof.
  unfold small. intros Ha. destruct a as [|p|p]; [done|..]; unfold Z.abs in *;
    rewrite ?f64_of_neg, ?f64_of_pos by lia; done.
Qed.

Lemma small_abs a : small a -> small (Z.abs a).
Proof. unfold small. lia. Qed.

Lemma f64_trunc_small a : small a -> f64_trunc (f64_of_Z a) = Some a.
Proof.
  unfold small. intros Ha.
  assert (forall p, Zpos p < 2 ^ 53 ->
            (if 0 <=? Zpos (Pos.size p) - 53 then Z.shiftl (Zpos (mantissa p)) (Zpos (Pos.size p) - 53)
             else Z.shiftr (Zpos (mantissa p)) (- (Zpos (Pos.size p) - 53))) = Zpos p) as K.
  { intros p Hp%size_small. pose proof (mantissa_value p Hp) as [Vp _].
    case_match eqn:E; [apply Z.leb_le in E|].
    - replace (Zpos (Pos.size p)) with 53 in * by lia. rewrite Z.sub_diag, Z.shiftl_0_r in *. lia.
    - rewrite Z.shiftr_div_pow2 by lia. rewrite Vp.
      replace (- (Zpos (Pos.size p) - 53)) with (53 - Zpos (Pos.size p)) by lia.
      apply Z.div_mul, Z.pow_nonzero; lia. }
  destruct a as [|p|p]; [done|..]; rewrite ?f64_of_neg, ?f64_of_pos by lia; cbn [f64_trunc];
    f_equal; specialize (K p); lia.
Qed.

Lemma f64_to_int64_small a : small a -> f64_to_int64 (f64_of_Z a) = a.
Proof.
  intros H. unfold f64_to_int64. rewrite f64_trunc_small by done. unfold small in H.
  destruct (- 2 ^ 63 <=? a) eqn:E1, (a <? 2 ^ 63) eqn:E2; simpl; lia.
Qed.

Lemma f64_round_small a : small a -> f64_round (f64_of_Z a) = f64_of_Z a.
Proof.
  unfold small. intros Ha.
  assert (forall p, Zpos p < 2 ^ 53 -> 0 <=? Zpos (Pos.size p) - 53 = false ->
            Z.shiftr (Zpos (mantissa p) + Z.shiftl 1 (- (Zpos (Pos.size p) - 53) - 1)) (- (Zpos (Pos.size p) - 53)) = Zpos p) as K.
  { intros p Hp%size_small E%Z.leb_gt. pose proof (mantissa_value p Hp) as [Vp _].
    rewrite Z.shiftr_div_pow2, Z.shiftl_mul_pow2, Vp by lia.
    replace (- (Zpos (Pos.size p) - 53)) with (53 - Zpos (Pos.size p)) by lia.
    set (k := 53 - Zpos (Pos.size p)) in *. assert (0 < k) by lia.
    assert (2 ^ k = 2 * 2 ^ (k - 1)) as E2 by (rewrite <- Z.pow_succ_r by lia; f_equal; lia).
    assert (0 < 2 ^ (k - 1)) by (apply Z.pow_pos_nonneg; lia).
    symmetry. apply (Z.div_unique _ _ _ (2 ^ (k - 1))); lia. }
  destruct a as [|p|p]; [done|..]; rewrite ?f64_of_neg, ?f64_of_pos by lia; unfold f64_round;
    (case_match eqn:E; [done|]); rewrite (K p) by (done || lia).
  - rewrite <- f64_of_pos by lia. done.
  - rewrite <- f64_of_neg by lia. done.
Qed.

Create HintDb f64.
#[export] Hint Resolve small_abs : f64.
Create Rewrite HintDb f64.
#[export] Hint Rewrite f64_leb_small f64_ltb_small f64_gtb_small f64_abs_small f64_to_int64_small f64_round_small
  using solve [eauto with f64] : f64.
