(* ===== verification/Utils.v ===== *)
(** * pkg/utils: the sliding window and the hysteresis filter

    [Window] is the circular buffer of pkg/utils/window.go, [Hysteresis] the
    debouncing filter of pkg/utils/hysteresis.go.  The mutex of a window protects
    single operations, each of which is one atomic function here.  The window is
    refined to the list of its samples, newest first. *)

From S2P Require Import Prelude Float64.

Module Window.

Record Window := mkWindow {
  data : list f64;
  weights : list f64;
  wsize : Z;
  nextIndex : Z;
  full : bool
}.

#[export] Instance Window_fields : Fields Window := fun w =>
  mkWindow (data w) (weights w) (wsize w) (nextIndex w) (full w).

(** [l[i]] on a slice: [None] is the out-of-range panic. *)
Definition slice_get (l : list f64) (i : Z) : option f64 :=
  if 0 <=? i then l !! Z.to_nat i else None.

(** [l[:n]]: [None] is the out-of-range panic (the buffers have no spare capacity). *)
Definition slice_to (l : list f64) (n : Z) : option (list f64) :=
  if (0 <=? n) && (n <=? Z.of_nat (length l)) then Some (take (Z.to_nat n) l) else None.

(** [NewWindow] for a non-negative size ([make] panics on a negative one). *)
Definition NewWindow (sz : Z) : Window :=
  {| data := replicate (Z.to_nat sz) f64_zero;
     weights := replicate (Z.to_nat sz) (f64_of_Z 1);
     wsize := sz; nextIndex := 0; full := false |}.

(** The detached copy: the slices are cloned, so on values it is the identity. *)
Definition Snapshot (w : Window) : Window :=
  {| data := data w; weights := weights w; wsize := wsize w;
     nextIndex := nextIndex w; full := full w |}.

Definition getData (w : Window) : option (list f64) :=
  if full w then Some (data w) else slice_to (data w) (nextIndex w).

Definition getWeights (w : Window) : option (list f64) :=
  if full w then Some (weights w) else slice_to (weights w) (nextIndex w).

Definition AbsMax (w : Window) : option f64 :=
  l ← getData w; Some (foldl (fun m f => f64_max m (f64_abs f)) f64_zero l).

Definition Max (w : Window) : option f64 :=
  l ← getData w; Some (foldl (fun m f => f64_max m f) f64_zero l).

Definition AbsMin (w : Window) : option f64 :=
  l ← getData w; Some (foldl (fun m f => f64_min m (f64_abs f)) f64_zero l).

Definition Min (w : Window) : option f64 :=
  l ← getData w; Some (foldl (fun m f => f64_min m f) f64_zero l).

(** gonum's [stat.Mean] for non-nil weights: weighted sum over sum of weights, in
    the order of the slice; it panics when the lengths differ. *)
Definition stat_Mean (x ws : list f64) : option f64 :=
  if decide (length x = length ws) then
    let '(sv, sw) :=
      foldl (fun '(sv, sw) '(w, xi) => (f64_add sv (f64_mul w xi), f64_add sw w))
        (f64_zero, f64_zero) (zip ws x) in
    Some (f64_div sv sw)
  else None.

Definition AbsMean (w : Window) : option f64 :=
  l ← getData w; ws ← getWeights w; stat_Mean (f64_abs <$> l) ws.

Definition Mean (w : Window) : option f64 :=
  l ← getData w; ws ← getWeights w; stat_Mean l ws.

(** [Insert]: the store panics when [nextIndex] is outside the buffer, which only a
    window of size 0 reaches (its [%] would divide by zero as well). *)
Definition Insert (v : f64) (w : Window) : option Window :=
  if (0 <=? nextIndex w) && (nextIndex w <? Z.of_nat (length (data w))) && negb (wsize w =? 0) then
    let data' := <[Z.to_nat (nextIndex w) := v]> (data w) in
    let next' := Z.rem (nextIndex w + 1) (wsize w) in
    Some (w <| data := data' |> <| nextIndex := next' |>
            <| full := if negb (full w) && (next' =? 0) then true else full w |>)
  else None.

Definition lastInsertedIndex (w : Window) : Z :=
  let lastIndex := nextIndex w - 1 in
  if lastIndex <? 0 then wsize w - 1 else lastIndex.

Definition LastInserted (w : Window) : option f64 := slice_get (data w) (lastInsertedIndex w).

(** The indices [from-1], [from-2], ..., [to]: the two descending loops of [backwardIter]. *)
Definition down (from to : Z) : list Z :=
  (fun i => from - 1 - Z.of_nat i) <$> seq 0 (Z.to_nat (from - to)).

(** The indices [backwardIter] visits, in order. *)
Definition backwardIter (w : Window) : list Z :=
  down (nextIndex w) 0 ++ (if full w then down (wsize w) (nextIndex w) else []).

Fixpoint count_loop (d : list f64) (condition : f64 -> bool) (idxs : list Z) (count : Z) : option Z :=
  match idxs with
  | [] => Some count
  | i :: rest =>
      v ← slice_get d i;
      if condition v then count_loop d condition rest (count + 1) else Some count
  end.

Definition CountSamples (condition : f64 -> bool) (w : Window) : option Z :=
  count_loop (data w) condition (backwardIter w) 0.

Definition IsFull (w : Window) : bool := full w.

Definition IsEmpty (w : Window) : bool := (nextIndex w =? 0) && negb (full w).

(** [SetWeights] for a non-nil slice: [None] is the returned error. *)
Definition SetWeights (ws : list f64) (w : Window) : option Window :=
  if wsize w <? Z.of_nat (length ws) then None else Some (w <| weights := ws |>).

(** ** Representation invariant and abstraction *)

Definition wf (w : Window) : Prop :=
  0 < wsize w /\ Z.of_nat (length (data w)) = wsize w /\ 0 <= nextIndex w < wsize w.

(** The samples held, newest first. *)
Definition contents (w : Window) : list f64 :=
  let k := Z.to_nat (nextIndex w) in
  reverse (take k (data w)) ++ (if full w then reverse (drop k (data w)) else []).

(** The length of the longest prefix whose elements satisfy [p]. *)
Fixpoint run_length (p : f64 -> bool) (l : list f64) : Z :=
  match l with
  | [] => 0
  | x :: l' => if p x then 1 + run_length p l' else 0
  end.

Lemma NewWindow_wf n : 0 < n -> wf (NewWindow n).
Proof. intros Hn. unfold wf, NewWindow; cbn. rewrite length_replicate. lia. Qed.

Lemma NewWindow_contents n : contents (NewWindow n) = [].
Proof. reflexivity. Qed.

Lemma rem_next k n : 0 <= k < n -> Z.rem (k + 1) n = if k + 1 =? n then 0 else k + 1.
Proof.
  intros. case_match eqn:E.
  - apply Z.eqb_eq in E. rewrite E. apply Z.rem_same. lia.
  - apply Z.eqb_neq in E. apply Z.rem_small. lia.
Qed.

(** What [Insert] computes on a well-formed window. *)
Lemma Insert_eq v w :
  wf w ->
  Insert v w = Some {|
    data := <[Z.to_nat (nextIndex w) := v]> (data w);
    weights := weights w; wsize := wsize w;
    nextIndex := if nextIndex w + 1 =? wsize w then 0 else nextIndex w + 1;
    full := full w || (nextIndex w + 1 =? wsize w) |}.
Proof.
  intros (Hs & Hd & Hk). unfold Insert. rewrite rem_next by lia.
  assert ((0 <=? nextIndex w) && (nextIndex w <? Z.of_nat (length (data w))) && negb (wsize w =? 0) = true) as -> by lia.
  cbn. do 2 f_equal. destruct (full w); [done|]. cbn.
  destruct (nextIndex w + 1 =? wsize w); [done|]. case_match; lia.
Qed.

Lemma Insert_wf v w w' : wf w -> Insert v w = Some w' -> wf w' /\ wsize w' = wsize w /\ weights w' = weights w.
Proof.
  intros Hw. rewrite Insert_eq by done. intros [= <-]. destruct Hw as (Hs & Hd & Hk).
  unfold wf; cbn. rewrite length_insert.
  destruct (Z.eqb_spec (nextIndex w + 1) (wsize w)); repeat split; done || lia.
Qed.

Lemma contents_length w :
  wf w -> Z.of_nat (length (contents w)) = if full w then wsize w else nextIndex w.
Proof.
  intros (Hs & Hd & Hk). unfold contents. rewrite length_app, length_reverse, length_take.
  destruct (full w); cbn; rewrite ?length_reverse, ?length_drop; lia.
Qed.

Lemma split_at (l : list f64) (k : nat) x : l !! k = Some x -> l = take k l ++ x :: drop (S k) l.
Proof. intros. symmetry. by apply take_drop_middle. Qed.

Lemma wf_lookup w : wf w -> exists x, data w !! Z.to_nat (nextIndex w) = Some x.
Proof. intros (Hs & Hd & Hk). apply lookup_lt_is_Some. lia. Qed.

(** The refinement: the buffer is the queue of the [wsize] newest samples. *)
Lemma contents_Insert v w w' :
  wf w -> Insert v w = Some w' -> contents w' = take (Z.to_nat (wsize w)) (v :: contents w).
Proof.
  intros Hw. rewrite Insert_eq by done. intros [= <-].
  destruct (wf_lookup w Hw) as [x Hx]. pose proof (split_at _ _ _ Hx) as Hsplit.
  pose proof (contents_length w Hw) as Hlen. destruct Hw as (Hs & Hd & Hk).
  unfold contents in *; cbn in *. set (k := Z.to_nat (nextIndex w)) in *.
  set (A := take k (data w)) in *. set (B := drop (S k) (data w)) in *.
  assert (length A = k) as HA by (unfold A; rewrite length_take; lia).
  assert (drop k (data w) = x :: B) as HB by (by apply drop_S).
  assert (<[k:=v]> (data w) = A ++ v :: B) as ->.
  { rewrite Hsplit, <- HA. by rewrite insert_app_r_alt, Nat.sub_diag by lia. }
  rewrite HB, reverse_cons in *.
  destruct (Z.eqb_spec (nextIndex w + 1) (wsize w)) as [E|E].
  - assert (B = []) as -> by (apply nil_length_inv; unfold B; rewrite length_drop; lia).
    rewrite orb_true_r. change (Z.to_nat 0) with 0%nat. rewrite take_0, drop_0, reverse_app.
    change (reverse [v]) with [v]. change (reverse []) with (@nil f64).
    destruct (Z.to_nat (wsize w)) as [|n] eqn:En; [lia|]. cbn. f_equal.
    symmetry. rewrite take_app_le by (rewrite length_reverse; lia).
    apply take_ge. rewrite length_reverse. lia.
  - rewrite orb_false_r. replace (Z.to_nat (nextIndex w + 1)) with (S k) by lia.
    assert (take (S k) (A ++ v :: B) = A ++ [v]) as ->.
    { rewrite take_app_ge by lia. by replace (S k - length A)%nat with 1%nat by lia. }
    assert (drop (S k) (A ++ v :: B) = B) as ->.
    { rewrite drop_app_ge by lia. by replace (S k - length A)%nat with 1%nat by lia. }
    rewrite reverse_app. change (reverse [v]) with [v].
    destruct (Z.to_nat (wsize w)) as [|n] eqn:En; [lia|]. cbn. f_equal.
    destruct (full w); cbn in *.
    + rewrite app_assoc in *. symmetry. apply take_app_length'.
      rewrite length_app in Hlen. cbn in Hlen. lia.
    + symmetry. apply take_ge. rewrite length_app, length_reverse. cbn. lia.
Qed.

(** ** Reading the window *)

Lemma slice_get_nat l (i : nat) : slice_get l (Z.of_nat i) = l !! i.
Proof. unfold slice_get. case_match; [by rewrite Nat2Z.id|lia]. Qed.

Lemma down_length a b : length (down a b) = Z.to_nat (a - b).
Proof. unfold down. by rewrite length_fmap, length_seq. Qed.

Lemma down_reads l a b :
  0 <= b <= a -> a <= Z.of_nat (length l) ->
  Forall2 (fun i x => slice_get l i = Some x) (down a b)
    (reverse (drop (Z.to_nat b) (take (Z.to_nat a) l))).
Proof.
  intros Hb Ha. apply Forall2_same_length_lookup. split.
  { rewrite down_length, length_reverse, length_drop, length_take. lia. }
  intros j i x Hi Hx. unfold down in Hi.
  apply list_lookup_fmap_Some in Hi as (m & -> & Hm). apply lookup_seq in Hm as [-> Hj].
  apply reverse_lookup_Some in Hx as [Hx Hlt]. rewrite length_drop, length_take in Hlt.
  rewrite lookup_drop, length_drop, length_take in Hx.
  apply lookup_take_Some in Hx as [Hx _].
  replace (a - 1 - Z.of_nat (0 + j)) with (Z.of_nat (Z.to_nat b + ((Z.to_nat a `min` length l - Z.to_nat b) - S j))) by lia.
  by rewrite slice_get_nat.
Qed.

Lemma backwardIter_reads w :
  wf w -> Forall2 (fun i x => slice_get (data w) i = Some x) (backwardIter w) (contents w).
Proof.
  intros (Hs & Hd & Hk). unfold backwardIter, contents. apply Forall2_app.
  - by apply (down_reads _ (nextIndex w) 0); lia.
  - destruct (full w); [|constructor].
    pose proof (down_reads (data w) (wsize w) (nextIndex w) ltac:(lia) ltac:(lia)) as HF.
    by rewrite (take_ge (data w)) in HF by lia.
Qed.

Lemma count_loop_spec d c idxs l n :
  Forall2 (fun i x => slice_get d i = Some x) idxs l ->
  count_loop d c idxs n = Some (n + run_length c l).
Proof.
  intros HF. revert n. induction HF as [|i x idxs l Hi HF IH]; intros n; cbn; [f_equal; lia|].
  rewrite Hi. cbn. case_match; [rewrite IH|]; f_equal; lia.
Qed.

Lemma CountSamples_run c w : wf w -> CountSamples c w = Some (run_length c (contents w)).
Proof. intros Hw. unfold CountSamples. by erewrite count_loop_spec by by apply backwardIter_reads. Qed.

Lemma LastInserted_head w :
  wf w -> contents w <> [] -> LastInserted w = head (contents w).
Proof.
  intros Hw Hne. pose proof (backwardIter_reads w Hw) as HF. pose proof (contents_length w Hw) as Hlen.
  inversion HF as [Hi|i x idxs l Hget _ Hidx Hc]; [congruence|].
  rewrite <- Hc in *. cbn in *. rewrite <- Hget. unfold LastInserted. f_equal.
  destruct Hw as (Hs & Hd & Hk). unfold lastInsertedIndex, backwardIter, down in *.
  destruct (Z.eqb_spec (nextIndex w) 0) as [E|E].
  - rewrite E in *. cbn in Hidx. destruct (full w); [|cbn in Hlen; lia].
    destruct (Z.to_nat (wsize w - 0)) eqn:En; [lia|]. cbn in Hidx. injection Hidx as Hidx _. destruct (Z.ltb_spec (0 - 1) 0); lia.
  - destruct (Z.to_nat (nextIndex w - 0)) eqn:En; [lia|]. cbn in Hidx. injection Hidx as Hidx _.
    destruct (Z.ltb_spec (nextIndex w - 1) 0); lia.
Qed.

Lemma LastInserted_total w : wf w -> is_Some (LastInserted w).
Proof.
  intros (Hs & Hd & Hk). unfold LastInserted, slice_get, lastInsertedIndex.
  destruct (Z.ltb_spec (nextIndex w - 1) 0); (case_match; [|lia]); apply lookup_lt_is_Some; lia.
Qed.

Lemma LastInserted_Insert v w w' : wf w -> Insert v w = Some w' -> LastInserted w' = Some v.
Proof.
  intros Hw HI. pose proof (contents_Insert _ _ _ Hw HI) as HC.
  pose proof (Insert_wf _ _ _ Hw HI) as (Hw' & Hsz & _).
  assert (head (contents w') = Some v) as Hv.
  { rewrite HC. destruct Hw as [? _]. by destruct (Z.to_nat (wsize w)) eqn:E; [lia|]. }
  rewrite LastInserted_head; [done|done|]. by destruct (contents w').
Qed.

Lemma IsEmpty_contents w : wf w -> IsEmpty w = true <-> contents w = [].
Proof.
  intros Hw. pose proof (contents_length w Hw) as Hlen. destruct Hw as (Hs & Hd & Hk). unfold IsEmpty.
  rewrite <- length_zero_iff_nil. destruct (full w); cbn; lia.
Qed.

Lemma IsFull_contents w : wf w -> IsFull w = true <-> Z.of_nat (length (contents w)) = wsize w.
Proof.
  intros Hw. rewrite (contents_length w Hw). destruct Hw as (Hs & Hd & Hk). unfold IsFull.
  destruct (full w); [tauto|]. split; [done|lia].
Qed.

Lemma getData_wf w : wf w -> exists l, getData w = Some l /\ l ≡ₚ contents w.
Proof.
  intros (Hs & Hd & Hk). unfold getData, contents, slice_to. destruct (full w).
  - eexists; split; [done|]. rewrite <- (take_drop (Z.to_nat (nextIndex w)) (data w)) at 1.
    by rewrite !reverse_Permutation.
  - case_match; [|lia]. eexists; split; [done|]. by rewrite app_nil_r, reverse_Permutation.
Qed.

Lemma Mean_total w :
  wf w -> length (weights w) = length (data w) -> is_Some (Mean w).
Proof.
  intros (Hs & Hd & Hk) Hl. unfold Mean, getData, getWeights, slice_to.
  destruct (full w).
  - cbn. unfold stat_Mean. rewrite decide_True by done. by destruct (foldl _ _ _).
  - rewrite Hl. case_match; [|lia]. cbn. unfold stat_Mean.
    rewrite decide_True by (rewrite !length_take; lia). by destruct (foldl _ _ _).
Qed.

(** The minimum starts from 0, so it never exceeds 0. *)
Lemma min_zero_abs f : f64_is_nan f = false -> f64_min f64_zero (f64_abs f) = f64_zero.
Proof. by destruct f as [[]|[]| |[] m e]. Qed.

Lemma AbsMin_always_zero w :
  wf w -> Forall (fun f => f64_is_nan f = false) (data w) -> AbsMin w = Some f64_zero.
Proof.
  intros Hw HF. unfold AbsMin.
  assert (exists l, getData w = Some l /\ Forall (fun f => f64_is_nan f = false) l) as (l & -> & Hl).
  { destruct Hw as (Hs & Hd & Hk). unfold getData, slice_to. destruct (full w); [by eexists|].
    case_match; [|lia]. eexists; split; [done|]. by apply Forall_take. }
  cbn. f_equal. clear -Hl. induction Hl as [|f l Hf Hl IH]; [done|].
  cbn. by rewrite min_zero_abs.
Qed.

(** The largest magnitude of integer samples. *)
Definition zmax_abs (zs : list Z) : Z := foldl (fun m z => Z.max m (Z.abs z)) 0 zs.

Lemma f64_max_small a b : 0 <= a -> 0 <= b -> small a -> small b ->
  f64_max (f64_of_Z a) (f64_of_Z b) = f64_of_Z (Z.max a b).
Proof.
  intros Ha Hb Sa Sb. pose proof (f64_gtb_small a b Sa Sb) as HG. unfold small in *.
  destruct a as [|p|p], b as [|q|q]; try lia; [done|..].
  - rewrite Z.max_r, f64_of_pos by lia. done.
  - rewrite Z.max_l, f64_of_pos by lia. done.
  - destruct (Z.max_spec (Zpos p) (Zpos q)) as [[Hlt ->]|[Hle ->]];
      rewrite !f64_of_pos in * by lia; unfold f64_max; rewrite HG; case_match; lia || done || idtac.
    assert (p = q) as -> by lia. done.
Qed.

Lemma AbsMax_fold zs m :
  Forall small zs -> 0 <= m -> small m ->
  foldl (fun m f => f64_max m (f64_abs f)) (f64_of_Z m) (f64_of_Z <$> zs)
  = f64_of_Z (foldl (fun m z => Z.max m (Z.abs z)) m zs).
Proof.
  intros HF. revert m. induction HF as [|z zs Hz HF IH]; intros m Hm Sm; cbn; [done|].
  pose proof (small_abs _ Hz) as Hz'.
  rewrite f64_abs_small, f64_max_small by (done || lia).
  apply IH; unfold small in *; lia.
Qed.

Lemma AbsMax_integers w zs :
  getData w = Some (f64_of_Z <$> zs) -> Forall small zs -> AbsMax w = Some (f64_of_Z (zmax_abs zs)).
Proof.
  intros Hg HF. unfold AbsMax, zmax_abs. rewrite Hg. cbn. f_equal.
  apply (AbsMax_fold zs 0); [done|lia|unfold small; lia].
Qed.

(** Inserting samples one by one. *)
Fixpoint insert_all (l : list f64) (w : Window) : option Window :=
  match l with
  | [] => Some w
  | x :: l' => w' ← Insert x w; insert_all l' w'
  end.

Lemma take_take_app (n : nat) (x : f64) l k :
  take n (l ++ take n (x :: k)) = take n (l ++ x :: k).
Proof.
  rewrite !list.take_app, !take_take.
  replace ((n - length l) `min` n)%nat with (n - length l)%nat by lia. done.
Qed.

Lemma insert_all_contents l w :
  wf w -> exists w', insert_all l w = Some w' /\ wf w' /\ wsize w' = wsize w /\
    contents w' = take (Z.to_nat (wsize w)) (reverse l ++ contents w).
Proof.
  revert w. induction l as [|x l IH]; intros w Hw; cbn [insert_all].
  - exists w. repeat split; try apply Hw. rewrite reverse_nil. cbn. symmetry. apply take_ge.
    pose proof (contents_length w Hw) as Hl. destruct Hw as (Hs & Hd & Hk). destruct (full w); lia.
  - pose proof (Insert_eq x w Hw) as E. destruct (Insert x w) as [w1|] eqn:Ei; [|done].
    destruct (Insert_wf x w w1 Hw Ei) as (Hw1 & Hs1 & _). cbn [mbind option_bind].
    destruct (IH w1 Hw1) as (w' & -> & Hw' & Hs' & Hc). exists w'. split; [done|]. split; [done|]. split; [congruence|].
    rewrite Hc, Hs1, (contents_Insert x w w1 Hw Ei), reverse_cons, <- app_assoc. apply take_take_app.
Qed.

(** Sliding window.  After any samples, a window of positive size holds exactly the
    newest ones, as many as fit; the newest is the last inserted, and counting samples
    counts the newest consecutive ones that satisfy the condition. *)
Theorem window_keeps_newest n l :
  0 < n ->
  exists w, insert_all l (NewWindow n) = Some w /\ contents w = take (Z.to_nat n) (reverse l) /\
    (forall c, CountSamples c w = Some (run_length c (take (Z.to_nat n) (reverse l)))) /\
    (l <> [] -> LastInserted w = last l) /\ IsFull w = bool_decide (n <= Z.of_nat (length l)).
Proof.
  intros Hn. destruct (insert_all_contents l (NewWindow n) (NewWindow_wf n Hn)) as (w & E & Hw & Hs & Hc).
  rewrite NewWindow_contents, app_nil_r in Hc. cbn in Hs, Hc.
  exists w. split; [done|]. split; [done|]. split; [|split].
  - intros c. by rewrite CountSamples_run, Hc.
  - intros Hl. destruct (Z.to_nat n) as [|k] eqn:Ek; [lia|].
    rewrite LastInserted_head; [|done|]; rewrite Hc; destruct l as [|x l _] using rev_ind; try done;
      rewrite reverse_app; cbn; [by rewrite last_snoc|done].
  - apply eq_true_iff_eq. rewrite IsFull_contents, Hc, length_take, length_reverse, Hs, bool_decide_eq_true by done. lia.
Qed.

Lemma window_keeps_newest_witness :
  exists w, insert_all (f64_of_Z <$> [1; 2; 3]) (NewWindow 2) = Some w /\ contents w = f64_of_Z <$> [3; 2].
Proof.
  destruct (window_keeps_newest 2 (f64_of_Z <$> [1; 2; 3])) as (w & E & Hc & _); [lia|].
  exists w. split; [exact E|exact Hc].
Defined.

End Window.

Module Hysteresis.

(** [HysteresisUnknown], [HysteresisLow], [HysteresisHigh], numbered by [iota]. *)
Inductive HysteresisState := HysteresisUnknown | HysteresisLow | HysteresisHigh.

#[global] Instance HysteresisState_eq_dec : EqDecision HysteresisState.
Proof. solve_decision. Defined.

Record HysteresisFilter := mkFilter {
  inSyncThreshold : f64;
  outOfSyncThreshold : f64;
  inSyncSamplesRequired : Z;
  outOfSyncSamplesRequired : Z;
  lastState : HysteresisState;
  inSyncCount : Z;
  outOfSyncCount : Z
}.

#[export] Instance HysteresisFilter_fields : Fields HysteresisFilter := fun f =>
  mkFilter (inSyncThreshold f) (outOfSyncThreshold f) (inSyncSamplesRequired f)
    (outOfSyncSamplesRequired f) (lastState f) (inSyncCount f) (outOfSyncCount f).

(** The zero value of the struct. *)
Definition zero_filter : HysteresisFilter :=
  mkFilter f64_zero f64_zero 0 0 HysteresisUnknown 0 0.

Definition Config (inTh outTh : f64) (inSamples outSamples : Z) (f : HysteresisFilter) : HysteresisFilter :=
  f <| inSyncThreshold := inTh |> <| outOfSyncThreshold := outTh |>
    <| inSyncSamplesRequired := Z.max inSamples 1 |>
    <| outOfSyncSamplesRequired := Z.max outSamples 1 |>
    <| inSyncCount := 0 |> <| outOfSyncCount := 0 |>.

Definition NewHysteresisFilter (inTh outTh : f64) (inSamples outSamples : Z) : HysteresisFilter :=
  Config inTh outTh inSamples outSamples zero_filter.

Definition Reset (f : HysteresisFilter) : HysteresisFilter :=
  f <| inSyncCount := 0 |> <| outOfSyncCount := 0 |> <| lastState := HysteresisUnknown |>.

(** The three-way classification of one sample in [Update]. *)
Definition count_sample (rawDeviation : f64) (f : HysteresisFilter) : HysteresisFilter :=
  let absValue := f64_abs rawDeviation in
  if f64_leb absValue (inSyncThreshold f) then
    f <| outOfSyncCount := 0 |> <| inSyncCount := int64 (inSyncCount f + 1) |>
  else if f64_gtb absValue (outOfSyncThreshold f) then
    f <| inSyncCount := 0 |> <| outOfSyncCount := int64 (outOfSyncCount f + 1) |>
  else f <| inSyncCount := 0 |> <| outOfSyncCount := 0 |>.

Definition Update (rawDeviation : f64) (f : HysteresisFilter) : HysteresisFilter * (HysteresisState * bool) :=
  let f := count_sample rawDeviation f in
  let next :=
    if inSyncSamplesRequired f <=? inSyncCount f then HysteresisLow
    else if outOfSyncSamplesRequired f <=? outOfSyncCount f then HysteresisHigh
    else lastState f in
  (f <| lastState := next |>, (next, bool_decide (next <> lastState f))).

Definition State (f : HysteresisFilter) : HysteresisState := lastState f.

(** ** Specification over the history of samples *)

Definition in_sync (f : HysteresisFilter) (x : f64) : bool := f64_leb (f64_abs x) (inSyncThreshold f).
Definition out_of_sync (f : HysteresisFilter) (x : f64) : bool :=
  negb (in_sync f x) && f64_gtb (f64_abs x) (outOfSyncThreshold f).

(** The state a filter must report after the samples [l], newest first: the newest
    run that is long enough decides, otherwise the previous state stands. *)
Fixpoint spec_state (f : HysteresisFilter) (l : list f64) : HysteresisState :=
  match l with
  | [] => lastState f
  | _ :: l' =>
      if inSyncSamplesRequired f <=? Window.run_length (in_sync f) l then HysteresisLow
      else if outOfSyncSamplesRequired f <=? Window.run_length (out_of_sync f) l then HysteresisHigh
      else spec_state f l'
  end.

(** Feeding the samples [l] (newest first) one by one. *)
Fixpoint feed (f : HysteresisFilter) (l : list f64) : HysteresisFilter :=
  match l with
  | [] => f
  | x :: l' => fst (Update x (feed f l'))
  end.

Lemma count_sample_config x f :
  inSyncThreshold (count_sample x f) = inSyncThreshold f /\
  outOfSyncThreshold (count_sample x f) = outOfSyncThreshold f /\
  inSyncSamplesRequired (count_sample x f) = inSyncSamplesRequired f /\
  outOfSyncSamplesRequired (count_sample x f) = outOfSyncSamplesRequired f /\
  lastState (count_sample x f) = lastState f.
Proof. unfold count_sample. repeat case_match; done. Qed.

Lemma feed_config f l :
  inSyncThreshold (feed f l) = inSyncThreshold f /\
  outOfSyncThreshold (feed f l) = outOfSyncThreshold f /\
  inSyncSamplesRequired (feed f l) = inSyncSamplesRequired f /\
  outOfSyncSamplesRequired (feed f l) = outOfSyncSamplesRequired f.
Proof.
  induction l as [|x l IH]; [done|]. cbn.
  pose proof (count_sample_config x (feed f l)) as (-> & -> & -> & -> & _). done.
Qed.

Lemma run_length_bounds p l : 0 <= Window.run_length p l <= Z.of_nat (length l).
Proof. induction l as [|x l IH]; cbn; [lia|]. case_match; lia. Qed.

(** The counters are the lengths of the current runs, as long as fewer than 2^63
    samples have been counted. *)
Lemma feed_counts f l :
  inSyncCount f = 0 -> outOfSyncCount f = 0 -> Z.of_nat (length l) < 2 ^ 63 ->
  inSyncCount (feed f l) = Window.run_length (in_sync f) l /\
  outOfSyncCount (feed f l) = Window.run_length (out_of_sync f) l.
Proof.
  intros H1 H2. induction l as [|x l IH]; intros Hl; [done|]. cbn [length] in Hl.
  specialize (IH ltac:(lia)) as [E1 E2].
  pose proof (feed_config f l) as (T1 & T2 & _ & _).
  pose proof (run_length_bounds (in_sync f) l). pose proof (run_length_bounds (out_of_sync f) l).
  cbn. unfold count_sample, out_of_sync, in_sync in *. rewrite T1, T2.
  destruct (f64_leb _ _); cbn; [|destruct (f64_gtb _ _); cbn]; [..|done];
    rewrite ?E1, ?E2, int64_id by (unfold in_int64; lia); lia.
Qed.

Lemma feed_state f l :
  inSyncCount f = 0 -> outOfSyncCount f = 0 -> Z.of_nat (length l) < 2 ^ 63 ->
  State (feed f l) = spec_state f l.
Proof.
  intros H1 H2. induction l as [|x l IH]; intros Hl; [done|].
  pose proof (feed_counts f (x :: l) H1 H2 Hl) as [E1 E2].
  pose proof (feed_config f (x :: l)) as (_ & _ & R1 & R2).
  cbn [length] in Hl. specialize (IH ltac:(lia)).
  pose proof (count_sample_config x (feed f l)) as (_ & _ & _ & _ & L).
  cbn [feed] in *. unfold State in *. cbn [Update fst] in *. cbn in E1, E2, R1, R2 |- *.
  rewrite R1, R2, E1, E2, L, IH. done.
Qed.

(** Debouncing.  A fresh filter reports, after any samples, the level of the newest run
    that is long enough: in sync after the required number of consecutive samples within the
    inner threshold, out of sync after the required number beyond the outer one, and
    otherwise what it reported before. *)
Theorem filter_debounces inTh outTh inSamples outSamples l :
  Z.of_nat (length l) < 2 ^ 63 ->
  State (feed (NewHysteresisFilter inTh outTh inSamples outSamples) l) =
  spec_state (NewHysteresisFilter inTh outTh inSamples outSamples) l.
Proof. intros Hl. by apply feed_state. Qed.

Lemma filter_debounces_witness :
  State (feed (NewHysteresisFilter (f64_of_Z 10) (f64_of_Z 20) 2 1) (f64_of_Z <$> [5; -9; 15; 30])) = HysteresisLow.
Proof.
  rewrite (filter_debounces (f64_of_Z 10) (f64_of_Z 20) 2 1 (f64_of_Z <$> [5; -9; 15; 30])).
  - vm_compute. reflexivity.
  - vm_compute. reflexivity.
Defined.

End Hysteresis.
