(* ===== verification/Strconv.v ===== *)
(** * Number formatting and parsing: the parts of [fmt] and [strconv] in use

    [fmt_uint] is the digit printer behind [%d], [%x], [strconv.Itoa] and
    [strconv.FormatInt]; [ParseUint] and [ParseInt] follow the loops of [strconv],
    including the value they return together with an error (0 on a syntax error, the
    bound of the type on a range error), because the callers ignore the error.
    Printing followed by parsing is the identity on the range of the type. *)

From S2P Require Import Prelude.
From Stdlib Require Import Ascii.

(** The digit [d] (below 16) as a lower-case character. *)
Definition digit_char (d : Z) : ascii :=
  ascii_of_N (Z.to_N (if d <? 10 then 48 + d else 87 + d)).

(** The value of a character as a digit, 16 or more when it is none ([a]-[f] and
    [A]-[F] count; larger letters are out of range for the bases in use). *)
Definition char_digit (c : ascii) : Z :=
  let n := Z.of_N (N_of_ascii c) in
  if (48 <=? n) && (n <=? 57) then n - 48
  else if (97 <=? n) && (n <=? 122) then n - 87
  else if (65 <=? n) && (n <=? 90) then n - 55
  else 99.

Fixpoint fmt_digits (base : Z) (fuel : nat) (n : Z) : string :=
  match fuel with
  | O => EmptyString
  | S fuel' =>
      if n <? base then String (digit_char n) EmptyString
      else (fmt_digits base fuel' (n / base) +:+ String (digit_char (n mod base)) EmptyString)%string
  end.

(** A number has no more digits in base 2 or above than [log2 n + 1]. *)
Definition fmt_uint (base n : Z) : string := fmt_digits base (S (Z.to_nat (Z.log2 n))) n.

(** [%d], [strconv.Itoa], [strconv.FormatInt(_, 10)]. *)
Definition fmt_d (z : Z) : string :=
  if z <? 0 then String "-" (fmt_uint 10 (- z)) else fmt_uint 10 z.

(** [%x] and [%#x] of a non-negative integer, [%t]. *)
Definition fmt_x (n : Z) : string := fmt_uint 16 n.
Definition fmt_hex (n : Z) : string := ("0x" +:+ fmt_x n)%string.
Definition fmt_t (b : bool) : string := if b then "true" else "false".

(** The digit loop of [strconv.ParseUint]: [max] is the largest value of the type. *)
Fixpoint parse_loop (base max n : Z) (s : string) : Z * bool :=
  match s with
  | EmptyString => (n, true)
  | String c s' =>
      let d := char_digit c in
      if base <=? d then (0, false)
      else
        let n1 := n * base + d in
        if max <? n1 then (max, false) else parse_loop base max n1 s'
  end.

(** [strconv.ParseUint(s, base, bits)] for an explicit base: the value, and whether
    the error is nil. *)
Definition ParseUint (s : string) (base bits : Z) : Z * bool :=
  match s with
  | EmptyString => (0, false)
  | _ => parse_loop base (2 ^ bits - 1) 0 s
  end.

(** Base 0: the base is in the prefix and underscores may separate digits. *)
Definition lower (c : ascii) : ascii :=
  let n := N_of_ascii c in if (65 <=? n)%N && (n <=? 90)%N then ascii_of_N (n + 32) else c.

Definition base_prefix (s : string) : Z * string :=
  match s with
  | String "0" (String b ((String _ _) as r)) =>
      if ascii_dec (lower b) "b" then (2, r)
      else if ascii_dec (lower b) "o" then (8, r)
      else if ascii_dec (lower b) "x" then (16, r)
      else (8, String b r)
  | String "0" r => (8, r)
  | _ => (10, s)
  end.

Fixpoint without_underscores (s : string) : string :=
  match s with
  | EmptyString => EmptyString
  | String c s' => if ascii_dec c "_" then without_underscores s' else String c (without_underscores s')
  end.

(** [underscoreOK]: an underscore only between digits, or a prefix and a digit; [saw] is
    the kind of the character before: a digit or prefix, an underscore, something else. *)
Inductive saw := SawDigit | SawUnderscore | SawOther.

Fixpoint underscores_ok (hex : bool) (st : saw) (s : string) : bool :=
  match s with
  | EmptyString => match st with SawUnderscore => false | _ => true end
  | String c s' =>
      let d := char_digit c in
      if (d <? 10) || (hex && (d <? 16)) then underscores_ok hex SawDigit s'
      else if ascii_dec c "_" then match st with SawDigit => underscores_ok hex SawUnderscore s' | _ => false end
      else match st with SawUnderscore => false | _ => underscores_ok hex SawOther s' end
  end.

Definition underscoreOK (s : string) : bool :=
  match s with
  | String "0" (String b r) =>
      if ascii_dec (lower b) "b" then underscores_ok false SawDigit r
      else if ascii_dec (lower b) "o" then underscores_ok false SawDigit r
      else if ascii_dec (lower b) "x" then underscores_ok true SawDigit r
      else underscores_ok false SawOther s
  | _ => underscores_ok false SawOther s
  end.

(** [strconv.ParseUint(s, 0, bits)]: [None] is any error. *)
Definition ParseUint0 (s : string) (bits : Z) : option Z :=
  match s with
  | EmptyString => None
  | _ =>
      let '(base, digits) := base_prefix s in
      let '(n, ok) := parse_loop base (2 ^ bits - 1) 0 (without_underscores digits) in
      if ok && (str_eqb (without_underscores digits) digits || underscoreOK s) then Some n else None
  end.

(** [strconv.ParseInt(s, base, bits)]: it parses the magnitude with [ParseUint]; a
    syntax error returns 0, a magnitude out of range the bound of that sign. *)
Definition ParseInt (s : string) (base bits : Z) : Z * bool :=
  let cutoff := 2 ^ (bits - 1) in
  let '(neg, rest) :=
    match s with
    | String "-" r => (true, r)
    | String "+" r => (false, r)
    | _ => (false, s)
    end in
  let '(un, ok) := ParseUint rest base bits in
  if negb ok && negb (un =? 2 ^ bits - 1) then (0, false)
  else if negb neg && (cutoff <=? un) then (cutoff - 1, false)
  else if neg && (cutoff <? un) then (- cutoff, false)
  else (if neg then - un else un, ok).

(** ** Round trip *)

Lemma char_digit_char d : 0 <= d < 16 -> char_digit (digit_char d) = d.
Proof.
  intros H. assert (exists n : nat, (n < 16)%nat /\ d = Z.of_nat n) as (n & Hn & ->).
  { exists (Z.to_nat d). lia. }
  do 16 (destruct n as [|n]; [reflexivity|]). lia.
Qed.

Lemma parse_loop_app base max n s c n' :
  parse_loop base max n s = (n', true) ->
  0 <= char_digit c < base -> n' * base + char_digit c <= max ->
  parse_loop base max n (s +:+ String c EmptyString)%string = (n' * base + char_digit c, true).
Proof.
  revert n. induction s as [|a s IH]; intros n Hp Hc Hmax; cbn in *.
  - injection Hp as ->. rewrite str_app_nil. cbn. case_match eqn:E; [lia|]. case_match; [lia|]. done.
  - rewrite str_app_cons. cbn. case_match; [done|]. case_match; [done|]. by apply IH.
Qed.

Lemma fmt_digits_parse base max fuel n :
  2 <= base <= 16 -> 0 <= n <= max -> n < 2 ^ Z.of_nat fuel ->
  parse_loop base max 0 (fmt_digits base fuel n) = (n, true) /\ (n = 0 \/ fuel <> O).
Proof.
  intros Hb. revert n. induction fuel as [|fuel IH]; intros n Hn Hf; cbn [fmt_digits].
  { assert (n = 0) as -> by (cbn in Hf; lia). by split; [|left]. }
  split; [|by right]. case_match eqn:E.
  - cbn. rewrite char_digit_char by lia. case_match; [lia|]. case_match; [lia|]. done.
  - assert (0 <= n / base < n) as Hq.
    { split; [apply Z.div_pos; lia|apply Z.div_lt; lia]. }
    assert (n / base < 2 ^ Z.of_nat fuel) as Hlt.
    { apply Z.div_lt_upper_bound; [lia|]. rewrite Nat2Z.inj_succ, Z.pow_succ_r in Hf by lia. nia. }
    destruct (IH (n / base) ltac:(lia) Hlt) as [HP _].
    pose proof (Z.mod_pos_bound n base ltac:(lia)). pose proof (Z.div_mod n base ltac:(lia)).
    rewrite (parse_loop_app _ _ _ _ _ _ HP); rewrite ?char_digit_char by lia; [f_equal; lia|lia|lia].
Qed.

Lemma fmt_digits_nonempty base fuel n : exists c s, fmt_digits base (S fuel) n = String c s.
Proof.
  cbn. case_match; [by eexists _, _|].
  destruct (fmt_digits base fuel (n / base)) as [|c s];
    rewrite ?str_app_nil, ?str_app_cons; by eexists _, _.
Qed.

Lemma log2_fuel n : 0 <= n -> n < 2 ^ Z.of_nat (S (Z.to_nat (Z.log2 n))).
Proof.
  intros H. destruct (decide (n = 0)) as [->|]; [done|].
  pose proof (Z.log2_spec n ltac:(lia)) as [_ Hs]. pose proof (Z.log2_nonneg n).
  by rewrite Nat2Z.inj_succ, Z2Nat.id by lia.
Qed.

Lemma ParseUint_fmt base bits n :
  2 <= base <= 16 -> 0 <= n < 2 ^ bits -> ParseUint (fmt_uint base n) base bits = (n, true).
Proof.
  intros Hb Hn. unfold ParseUint, fmt_uint.
  pose proof (fmt_digits_nonempty base (Z.to_nat (Z.log2 n)) n) as (c & s & E). rewrite E, <- E.
  apply fmt_digits_parse; [lia|lia|apply log2_fuel; lia].
Qed.

(** Decimal digits are neither signs nor letters. *)
Lemma fmt_digits_head fuel n :
  0 <= n -> n < 2 ^ Z.of_nat (S fuel) ->
  exists d s, 0 <= d < 10 /\ fmt_digits 10 (S fuel) n = String (digit_char d) s.
Proof.
  revert n. induction fuel as [|fuel IH]; intros n Hn Hf; cbn [fmt_digits]; case_match eqn:E.
  - exists n, EmptyString. split; [lia|done].
  - cbn in Hf. lia.
  - exists n, EmptyString. split; [lia|done].
  - assert (n / 10 < 2 ^ Z.of_nat (S fuel)) as Hlt.
    { apply Z.div_lt_upper_bound; [lia|].
      rewrite (Nat2Z.inj_succ (S fuel)), Z.pow_succ_r in Hf by lia. lia. }
    destruct (IH (n / 10) ltac:(apply Z.div_pos; lia) Hlt) as (d & s & Hd & Es).
    exists d, (s +:+ String (digit_char (n mod 10)) EmptyString)%string. split; [done|].
    cbn [fmt_digits] in Es. by rewrite Es, str_app_cons.
Qed.

Lemma digit_char_not_sign d : 0 <= d < 10 -> digit_char d <> "-"%char /\ digit_char d <> "+"%char.
Proof.
  intros H. split; intros E; apply (f_equal char_digit) in E;
    rewrite char_digit_char in E by lia; vm_compute in E; subst; lia.
Qed.

Lemma ParseInt_fmt bits z :
  0 < bits -> - 2 ^ (bits - 1) <= z < 2 ^ (bits - 1) -> ParseInt (fmt_d z) 10 bits = (z, true).
Proof.
  intros Hbits Hz.
  assert (2 ^ bits = 2 * 2 ^ (bits - 1)) as Hp.
  { rewrite <- Z.pow_succ_r by lia. f_equal. lia. }
  assert (0 < 2 ^ (bits - 1)) as Hpos2 by (apply Z.pow_pos_nonneg; lia).
  unfold ParseInt, fmt_d. destruct (Z.ltb_spec z 0) as [Hneg|Hpos].
  - cbv beta zeta iota. rewrite ParseUint_fmt by lia. cbn [negb andb]. case_match; [lia|]. f_equal. lia.
  - pose proof (fmt_digits_head (Z.to_nat (Z.log2 z)) z Hpos (log2_fuel z Hpos)) as (d & s & Hd & E).
    change (fmt_digits 10 (S (Z.to_nat (Z.log2 z))) z) with (fmt_uint 10 z) in E.
    assert (ParseUint (fmt_uint 10 z) 10 bits = (z, true)) as HU by (apply ParseUint_fmt; lia).
    pose proof (digit_char_not_sign d Hd) as [N1 N2].
    assert ((match fmt_uint 10 z with
      | String "-" r => (true, r) | String "+" r => (false, r) | _ => (false, fmt_uint 10 z)
      end) = (false, fmt_uint 10 z)) as ->.
    { rewrite E. generalize dependent (digit_char d). intros [[] [] [] [] [] [] [] []] **; done. }
    rewrite HU. cbn [negb andb]. case_match; [lia|]. done.
Qed.
