(* ===== verification/Protocol.v ===== *)
(** * pkg/protocol: the PTP data sets exchanged with [pmc]

    The data sets of pkg/protocol/type.go with their keys, value patterns, textual
    form, field update and equality, behind the Go interface [DataSet] (a class
    here), and [ProcessMessage], which builds a data set from the values a regular
    expression captured.  The regular-expression engine itself is Go's; a match is
    an argument (the list of captured strings).  The integer fields carry their Go
    width; a data set is well formed when every field is in range. *)

From S2P Require Import Prelude Float64 Strconv.

(** Clock classes and accuracies: [uint8] values of the PTP library and the
    extensions of pkg/protocol. *)
Definition ClockClass6 : Z := 6.
Definition ClockClass7 : Z := 7.
Definition ClockClassSlaveOnly : Z := 255.
Definition ClockClassFreerun : Z := 248.
Definition ClockClassUninitialized : Z := 0.
Definition ClockClassOutOfSpec : Z := 140.
Definition ClockAccuracyNanosecond100 : Z := 33.
Definition ClockAccuracyUnknown : Z := 254.
Definition TimeSourceGNSS : Z := 32.
Definition TimeSourceInternalOscillator : Z := 160.

(** [fbprotocol.ClockAccuracyFromOffset] of an offset in nanoseconds; the negation
    of the smallest [int64] wraps to itself. *)
Definition ClockAccuracyFromOffset (offset : Z) : Z :=
  let offset := if offset <? 0 then int64 (- offset) else offset in
  if offset <=? 25 then 32
  else if offset <=? 100 then 33
  else if offset <=? 250 then 34
  else if offset <=? 1000 then 35
  else if offset <=? 2500 then 36
  else if offset <=? 10000 then 37
  else if offset <=? 25000 then 38
  else if offset <=? 100000 then 39
  else if offset <=? 250000 then 40
  else if offset <=? 1000000 then 41
  else if offset <=? 2500000 then 42
  else if offset <=? 10000000 then 43
  else if offset <=? 25000000 then 44
  else if offset <=? 100000000 then 45
  else if offset <=? 250000000 then 46
  else if offset <=? 1000000000 then 47
  else if offset <=? 10000000000 then 48
  else 49.

Record ClockQuality := mkClockQuality {
  ClockClass : Z;
  ClockAccuracy : Z;
  OffsetScaledLogVariance : Z
}.

#[export] Instance ClockQuality_fields : Fields ClockQuality := fun q =>
  mkClockQuality (ClockClass q) (ClockAccuracy q) (OffsetScaledLogVariance q).

Record TimePropertiesDS := mkTimePropertiesDS {
  CurrentUtcOffset : Z;
  CurrentUtcOffsetValid : bool;
  Leap59 : bool;
  Leap61 : bool;
  TimeTraceable : bool;
  FrequencyTraceable : bool;
  PtpTimescale : bool;
  TimeSource : Z
}.

#[export] Instance TimePropertiesDS_fields : Fields TimePropertiesDS := fun t =>
  mkTimePropertiesDS (CurrentUtcOffset t) (CurrentUtcOffsetValid t) (Leap59 t) (Leap61 t)
    (TimeTraceable t) (FrequencyTraceable t) (PtpTimescale t) (TimeSource t).

Record GrandmasterSettings := mkGrandmasterSettings {
  gsClockQuality : ClockQuality;
  gsTimePropertiesDS : TimePropertiesDS
}.

#[export] Instance GrandmasterSettings_fields : Fields GrandmasterSettings := fun g =>
  mkGrandmasterSettings (gsClockQuality g) (gsTimePropertiesDS g).

Record ParentDataSet := mkParentDataSet {
  ParentPortIdentity : string;
  ParentStats : Z;
  ObservedParentOffsetScaledLogVariance : Z;
  ObservedParentClockPhaseChangeRate : Z;
  GrandmasterPriority1 : Z;
  GrandmasterClockClass : Z;
  GrandmasterClockAccuracy : Z;
  GrandmasterOffsetScaledLogVariance : Z;
  GrandmasterPriority2 : Z;
  GrandmasterIdentity : string
}.

#[export] Instance ParentDataSet_fields : Fields ParentDataSet := fun p =>
  mkParentDataSet (ParentPortIdentity p) (ParentStats p) (ObservedParentOffsetScaledLogVariance p)
    (ObservedParentClockPhaseChangeRate p) (GrandmasterPriority1 p) (GrandmasterClockClass p)
    (GrandmasterClockAccuracy p) (GrandmasterOffsetScaledLogVariance p) (GrandmasterPriority2 p)
    (GrandmasterIdentity p).

Record ExternalGrandmasterProperties := mkEGP {
  egpGrandmasterIdentity : string;
  egpStepsRemoved : Z
}.

#[export] Instance EGP_fields : Fields ExternalGrandmasterProperties := fun e =>
  mkEGP (egpGrandmasterIdentity e) (egpStepsRemoved e).

Record CurrentDS := mkCurrentDS {
  StepsRemoved : Z;
  offsetFromMaster : f64;
  meanPathDelay : f64
}.

Record SubscribedEvents := mkSubscribedEvents {
  Duration : Z;
  NotifyPortState : bool;
  NotifyTimeSync : bool;
  NotifyParentDataSet : bool;
  NotifyCmlds : bool
}.

#[export] Instance SubscribedEvents_fields : Fields SubscribedEvents := fun s =>
  mkSubscribedEvents (Duration s) (NotifyPortState s) (NotifyTimeSync s) (NotifyParentDataSet s)
    (NotifyCmlds s).

#[export] Instance ClockQuality_eq_dec : EqDecision ClockQuality.
Proof. solve_decision. Defined.
#[export] Instance TimePropertiesDS_eq_dec : EqDecision TimePropertiesDS.
Proof. solve_decision. Defined.
#[export] Instance GrandmasterSettings_eq_dec : EqDecision GrandmasterSettings.
Proof. solve_decision. Defined.
#[export] Instance ParentDataSet_eq_dec : EqDecision ParentDataSet.
Proof. solve_decision. Defined.

(** The zero values. *)
Definition zero_TimePropertiesDS : TimePropertiesDS :=
  mkTimePropertiesDS 0 false false false false false false 0.
Definition zero_GrandmasterSettings : GrandmasterSettings :=
  mkGrandmasterSettings (mkClockQuality 0 0 0) zero_TimePropertiesDS.
Definition zero_ParentDataSet : ParentDataSet := mkParentDataSet "" 0 0 0 0 0 0 0 0 "".

(** ** Field conversions *)

Definition btoi (b : bool) : Z := if b then 1 else 0.
Definition stob (s : string) : bool := str_eqb s "1".
Definition ootob (s : string) : bool := str_eqb s "on".
Definition btooo (b : bool) : string := if b then "on" else "off".
Definition stou8 (s : string) : Z := fst (ParseUint s 10 8).
Definition stou8h (s : string) : Z := fst (ParseUint (replace1 "0x" "" s) 16 8).
Definition stou16h (s : string) : Z := fst (ParseUint (replace1 "0x" "" s) 16 16).
Definition stou16 (s : string) : Z := fst (ParseUint s 10 16).
Definition stoi32 (s : string) : Z := fst (ParseInt s 10 32).
Definition stou32h (s : string) : Z := fst (ParseUint (replace1 "0x" "" s) 16 32).

(** ** The interface [DataSet] *)

Class DataSet (P : Type) := {
  zero : P;
  Keys : list string;
  Update_field : string -> string -> P -> P;
  ValueRegEx : gmap string string;
  optionalKeys : list string
}.

(** [buildDataSetRegex]; indexing a map with an absent key gives the empty string. *)
Fixpoint buildDataSetRegex (keys : list string) (valuePatterns : gmap string string)
    (capture : bool) (optional : list string) : string :=
  match keys with
  | [] => ""
  | k :: rest =>
      let isOptional := bool_decide (k ∈ optional) in
      ((if isOptional then "(?:" else "") +:+
       "[[:space:]]+" +:+ k +:+ "[[:space:]]+" +:+
       (if capture then "(" else "") +:+
       default "" (valuePatterns !! k) +:+
       (if capture then ")" else "") +:+
       (if isOptional then ")?" else "") +:+
       buildDataSetRegex rest valuePatterns capture optional)%string
  end.

Definition RegEx P `{DataSet P} : string := buildDataSetRegex Keys ValueRegEx true optionalKeys.
Definition MonitorRegEx P `{DataSet P} : string := buildDataSetRegex Keys ValueRegEx false optionalKeys.

(** The loop of [ProcessMessage] over the captured values. *)
Fixpoint update_all {P} `{DataSet P} (keys values : list string) (d : P) : P :=
  match keys, values with
  | k :: ks, v :: vs => update_all ks vs (Update_field k v d)
  | _, _ => d
  end.

(** [ProcessMessage(matches)]: [None] is the "short match" error.  [matches[0]] is
    the whole match. *)
Definition ProcessMessage {P} `{DataSet P} (matches : list string) : option P :=
  if Z.of_nat (length matches) - 1 <? Z.of_nat (length (Keys (P := P))) then None
  else Some (update_all Keys (drop 1 matches) zero).

(** The text of a data set: one line per row. *)
Definition render_rows (rows : list (string * string)) : string :=
  foldr (fun '(label, value) acc => (label +:+ value +:+ newline +:+ acc)%string) "" rows.

(** ** The instances *)

Definition clockIdentityPattern : string := "[0-9a-fA-F]+\.[0-9a-fA-F]+\.[0-9a-fA-F]+".

Module GMSettings.

Definition Keys_ : list string :=
  ["clockClass"; "clockAccuracy"; "offsetScaledLogVariance";
   "currentUtcOffset"; "leap61"; "leap59"; "currentUtcOffsetValid";
   "ptpTimescale"; "timeTraceable"; "frequencyTraceable"; "timeSource"].

Definition ValueRegEx_ : gmap string string := list_to_map [
  ("clockClass", "\d+"); ("clockAccuracy", "0x[\da-f]+");
  ("offsetScaledLogVariance", "0x[\da-f]+"); ("currentUtcOffset", "\d+");
  ("currentUtcOffsetValid", "[01]"); ("leap59", "[01]"); ("leap61", "[01]");
  ("timeTraceable", "[01]"); ("frequencyTraceable", "[01]"); ("ptpTimescale", "[01]");
  ("timeSource", "0x[\da-f]+")].

Definition Update_ (key value : string) (g : GrandmasterSettings) : GrandmasterSettings :=
  let q := gsClockQuality g in
  let t := gsTimePropertiesDS g in
  if str_eqb key "clockClass" then g <| gsClockQuality := q <| ClockClass := stou8 value |> |>
  else if str_eqb key "clockAccuracy" then g <| gsClockQuality := q <| ClockAccuracy := stou8h value |> |>
  else if str_eqb key "offsetScaledLogVariance" then
    g <| gsClockQuality := q <| OffsetScaledLogVariance := stou16h value |> |>
  else if str_eqb key "currentUtcOffset" then
    g <| gsTimePropertiesDS := t <| CurrentUtcOffset := stoi32 value |> |>
  else if str_eqb key "currentUtcOffsetValid" then
    g <| gsTimePropertiesDS := t <| CurrentUtcOffsetValid := stob value |> |>
  else if str_eqb key "leap59" then g <| gsTimePropertiesDS := t <| Leap59 := stob value |> |>
  else if str_eqb key "leap61" then g <| gsTimePropertiesDS := t <| Leap61 := stob value |> |>
  else if str_eqb key "timeTraceable" then
    g <| gsTimePropertiesDS := t <| TimeTraceable := stob value |> |>
  else if str_eqb key "frequencyTraceable" then
    g <| gsTimePropertiesDS := t <| FrequencyTraceable := stob value |> |>
  else if str_eqb key "ptpTimescale" then
    g <| gsTimePropertiesDS := t <| PtpTimescale := stob value |> |>
  else if str_eqb key "timeSource" then
    g <| gsTimePropertiesDS := t <| TimeSource := stou8h value |> |>
  else g.

#[global] Instance DataSet_GrandmasterSettings : DataSet GrandmasterSettings := {|
  zero := zero_GrandmasterSettings; Keys := Keys_; Update_field := Update_;
  ValueRegEx := ValueRegEx_; optionalKeys := [] |}.

Definition rows (g : GrandmasterSettings) : list (string * string) :=
  let q := gsClockQuality g in
  let t := gsTimePropertiesDS g in
  [(" clockClass              ", fmt_d (ClockClass q));
   (" clockAccuracy           ", fmt_hex (ClockAccuracy q));
   (" offsetScaledLogVariance ", fmt_hex (OffsetScaledLogVariance q));
   (" currentUtcOffset        ", fmt_d (CurrentUtcOffset t));
   (" leap61                  ", fmt_d (btoi (Leap61 t)));
   (" leap59                  ", fmt_d (btoi (Leap59 t)));
   (" currentUtcOffsetValid   ", fmt_d (btoi (CurrentUtcOffsetValid t)));
   (" ptpTimescale            ", fmt_d (btoi (PtpTimescale t)));
   (" timeTraceable           ", fmt_d (btoi (TimeTraceable t)));
   (" frequencyTraceable      ", fmt_d (btoi (FrequencyTraceable t)));
   (" timeSource              ", fmt_hex (TimeSource t))].

Definition String_ (g : GrandmasterSettings) : string := render_rows (rows g).

Definition wf (g : GrandmasterSettings) : Prop :=
  let q := gsClockQuality g in
  let t := gsTimePropertiesDS g in
  0 <= ClockClass q < 2 ^ 8 /\ 0 <= ClockAccuracy q < 2 ^ 8 /\
  0 <= OffsetScaledLogVariance q < 2 ^ 16 /\
  - 2 ^ 31 <= CurrentUtcOffset t < 2 ^ 31 /\ 0 <= TimeSource t < 2 ^ 8.

End GMSettings.

Module ParentDS.

Definition Keys_ : list string :=
  ["parentPortIdentity"; "parentStats"; "observedParentOffsetScaledLogVariance";
   "observedParentClockPhaseChangeRate"; "grandmasterPriority1"; "gm.ClockClass";
   "gm.ClockAccuracy"; "gm.OffsetScaledLogVariance"; "grandmasterPriority2";
   "grandmasterIdentity"].

Definition ValueRegEx_ : gmap string string := list_to_map [
  ("parentPortIdentity", (clockIdentityPattern +:+ "-\d+")%string); ("parentStats", "\d+");
  ("observedParentOffsetScaledLogVariance", "0x[\da-f]+");
  ("observedParentClockPhaseChangeRate", "0x[\da-f]+");
  ("grandmasterPriority1", "\d+"); ("gm.ClockClass", "\d+");
  ("gm.ClockAccuracy", "0x[\da-f]+"); ("gm.OffsetScaledLogVariance", "0x[\da-f]+");
  ("grandmasterPriority2", "\d+"); ("grandmasterIdentity", clockIdentityPattern)].

Definition Update_ (key value : string) (p : ParentDataSet) : ParentDataSet :=
  if str_eqb key "parentPortIdentity" then p <| ParentPortIdentity := value |>
  else if str_eqb key "parentStats" then p <| ParentStats := stou8 value |>
  else if str_eqb key "observedParentOffsetScaledLogVariance" then
    p <| ObservedParentOffsetScaledLogVariance := stou16h value |>
  else if str_eqb key "observedParentClockPhaseChangeRate" then
    p <| ObservedParentClockPhaseChangeRate := stou32h value |>
  else if str_eqb key "grandmasterPriority1" then p <| GrandmasterPriority1 := stou8 value |>
  else if str_eqb key "gm.ClockClass" then p <| GrandmasterClockClass := stou8 value |>
  else if str_eqb key "gm.ClockAccuracy" then p <| GrandmasterClockAccuracy := stou8h value |>
  else if str_eqb key "gm.OffsetScaledLogVariance" then
    p <| GrandmasterOffsetScaledLogVariance := stou16h value |>
  else if str_eqb key "grandmasterPriority2" then p <| GrandmasterPriority2 := stou8 value |>
  else if str_eqb key "grandmasterIdentity" then p <| GrandmasterIdentity := value |>
  else p.

#[global] Instance DataSet_ParentDataSet : DataSet ParentDataSet := {|
  zero := zero_ParentDataSet; Keys := Keys_; Update_field := Update_;
  ValueRegEx := ValueRegEx_; optionalKeys := [] |}.

Definition rows (p : ParentDataSet) : list (string * string) :=
  [("parentPortIdentity                    ", ParentPortIdentity p);
   ("parentStats                           ", fmt_d (ParentStats p));
   ("observedParentOffsetScaledLogVariance ", fmt_hex (ObservedParentOffsetScaledLogVariance p));
   ("observedParentClockPhaseChangeRate    ", fmt_hex (ObservedParentClockPhaseChangeRate p));
   ("grandmasterPriority1                  ", fmt_d (GrandmasterPriority1 p));
   ("gm.ClockClass                         ", fmt_d (GrandmasterClockClass p));
   ("gm.ClockAccuracy                      ", fmt_hex (GrandmasterClockAccuracy p));
   ("gm.OffsetScaledLogVariance            ", fmt_hex (GrandmasterOffsetScaledLogVariance p));
   ("grandmasterPriority2                  ", fmt_d (GrandmasterPriority2 p));
   ("grandmasterIdentity                   ", GrandmasterIdentity p)].

Definition String_ (p : ParentDataSet) : string := render_rows (rows p).

(** [Equal] of two pointers, nil included. *)
Definition Equal (p other : option ParentDataSet) : bool :=
  match p, other with
  | None, None => true
  | None, _ | _, None => false
  | Some p, Some o =>
      str_eqb (ParentPortIdentity p) (ParentPortIdentity o) &&
      (ParentStats p =? ParentStats o) &&
      (ObservedParentOffsetScaledLogVariance p =? ObservedParentOffsetScaledLogVariance o) &&
      (ObservedParentClockPhaseChangeRate p =? ObservedParentClockPhaseChangeRate o) &&
      (GrandmasterPriority1 p =? GrandmasterPriority1 o) &&
      (GrandmasterClockClass p =? GrandmasterClockClass o) &&
      (GrandmasterClockAccuracy p =? GrandmasterClockAccuracy o) &&
      (GrandmasterOffsetScaledLogVariance p =? GrandmasterOffsetScaledLogVariance o) &&
      (GrandmasterPriority2 p =? GrandmasterPriority2 o) &&
      str_eqb (GrandmasterIdentity p) (GrandmasterIdentity o)
  end.

Definition wf (p : ParentDataSet) : Prop :=
  0 <= ParentStats p < 2 ^ 8 /\ 0 <= ObservedParentOffsetScaledLogVariance p < 2 ^ 16 /\
  0 <= ObservedParentClockPhaseChangeRate p < 2 ^ 32 /\ 0 <= GrandmasterPriority1 p < 2 ^ 8 /\
  0 <= GrandmasterClockClass p < 2 ^ 8 /\ 0 <= GrandmasterClockAccuracy p < 2 ^ 8 /\
  0 <= GrandmasterOffsetScaledLogVariance p < 2 ^ 16 /\ 0 <= GrandmasterPriority2 p < 2 ^ 8.

End ParentDS.

Module ExternalGM.

Definition Keys_ : list string := ["gmIdentity"; "stepsRemoved"].

Definition ValueRegEx_ : gmap string string :=
  list_to_map [("gmIdentity", clockIdentityPattern); ("stepsRemoved", "\d+")].

Definition Update_ (key value : string) (e : ExternalGrandmasterProperties) : ExternalGrandmasterProperties :=
  if str_eqb key "gmIdentity" then e <| egpGrandmasterIdentity := value |>
  else if str_eqb key "stepsRemoved" then e <| egpStepsRemoved := stou16 value |>
  else e.

#[global] Instance DataSet_EGP : DataSet ExternalGrandmasterProperties := {|
  zero := mkEGP "" 0; Keys := Keys_; Update_field := Update_;
  ValueRegEx := ValueRegEx_; optionalKeys := [] |}.

Definition rows (e : ExternalGrandmasterProperties) : list (string * string) :=
  [(" gmIdentity ", egpGrandmasterIdentity e); (" stepsRemoved        ", fmt_d (egpStepsRemoved e))].

Definition String_ (e : ExternalGrandmasterProperties) : string := render_rows (rows e).

Definition wf (e : ExternalGrandmasterProperties) : Prop := 0 <= egpStepsRemoved e < 2 ^ 16.

End ExternalGM.

Module TimeProps.

Definition Keys_ : list string :=
  ["currentUtcOffset"; "leap61"; "leap59"; "currentUtcOffsetValid"; "ptpTimescale";
   "timeTraceable"; "frequencyTraceable"; "timeSource"].

Definition ValueRegEx_ : gmap string string := list_to_map [
  ("currentUtcOffset", "\d+"); ("currentUtcOffsetValid", "[01]"); ("leap59", "[01]");
  ("leap61", "[01]"); ("timeTraceable", "[01]"); ("frequencyTraceable", "[01]");
  ("ptpTimescale", "[01]"); ("timeSource", "0x[\da-f]+")].

Definition Update_ (key value : string) (t : TimePropertiesDS) : TimePropertiesDS :=
  if str_eqb key "currentUtcOffset" then t <| CurrentUtcOffset := stoi32 value |>
  else if str_eqb key "currentUtcOffsetValid" then t <| CurrentUtcOffsetValid := stob value |>
  else if str_eqb key "leap59" then t <| Leap59 := stob value |>
  else if str_eqb key "leap61" then t <| Leap61 := stob value |>
  else if str_eqb key "timeTraceable" then t <| TimeTraceable := stob value |>
  else if str_eqb key "frequencyTraceable" then t <| FrequencyTraceable := stob value |>
  else if str_eqb key "ptpTimescale" then t <| PtpTimescale := stob value |>
  else if str_eqb key "timeSource" then t <| TimeSource := stou8h value |>
  else t.

#[global] Instance DataSet_TimePropertiesDS : DataSet TimePropertiesDS := {|
  zero := zero_TimePropertiesDS; Keys := Keys_; Update_field := Update_;
  ValueRegEx := ValueRegEx_; optionalKeys := [] |}.

(** [String] prints the fields in an order that is not the one of [Keys]. *)
Definition rows (t : TimePropertiesDS) : list (string * string) :=
  [(" currentUtcOffset        ", fmt_d (CurrentUtcOffset t));
   (" currentUtcOffsetValid   ", fmt_d (btoi (CurrentUtcOffsetValid t)));
   (" leap59                  ", fmt_d (btoi (Leap59 t)));
   (" leap61                  ", fmt_d (btoi (Leap61 t)));
   (" timeTraceable           ", fmt_d (btoi (TimeTraceable t)));
   (" frequencyTraceable      ", fmt_d (btoi (FrequencyTraceable t)));
   (" ptpTimescale            ", fmt_d (btoi (PtpTimescale t)));
   (" timeSource              ", fmt_hex (TimeSource t))].

Definition String_ (t : TimePropertiesDS) : string := render_rows (rows t).

End TimeProps.

Module SubEvents.

Definition Keys_ : list string :=
  ["duration"; "NOTIFY_PORT_STATE"; "NOTIFY_TIME_SYNC"; "NOTIFY_PARENT_DATA_SET"; "NOTIFY_CMLDS"].

Definition ValueRegEx_ : gmap string string := list_to_map [
  ("duration", "-?\d+"); ("NOTIFY_PORT_STATE", "on|off"); ("NOTIFY_TIME_SYNC", "on|off");
  ("NOTIFY_PARENT_DATA_SET", "on|off"); ("NOTIFY_CMLDS", "on|off")].

Definition Update_ (key value : string) (s : SubscribedEvents) : SubscribedEvents :=
  if str_eqb key "duration" then s <| Duration := stoi32 value |>
  else if str_eqb key "NOTIFY_PORT_STATE" then s <| NotifyPortState := ootob value |>
  else if str_eqb key "NOTIFY_TIME_SYNC" then s <| NotifyTimeSync := ootob value |>
  else if str_eqb key "NOTIFY_PARENT_DATA_SET" then s <| NotifyParentDataSet := ootob value |>
  else if str_eqb key "NOTIFY_CMLDS" then s <| NotifyCmlds := ootob value |>
  else s.

#[global] Instance DataSet_SubscribedEvents : DataSet SubscribedEvents := {|
  zero := mkSubscribedEvents 0 false false false false; Keys := Keys_; Update_field := Update_;
  ValueRegEx := ValueRegEx_; optionalKeys := ["NOTIFY_CMLDS"] |}.

Definition rows (s : SubscribedEvents) : list (string * string) :=
  [(" duration               ", fmt_d (Duration s));
   (" NOTIFY_PORT_STATE      ", btooo (NotifyPortState s));
   (" NOTIFY_TIME_SYNC       ", btooo (NotifyTimeSync s));
   (" NOTIFY_PARENT_DATA_SET ", btooo (NotifyParentDataSet s));
   (" NOTIFY_CMLDS           ", btooo (NotifyCmlds s))].

Definition String_ (s : SubscribedEvents) : string := render_rows (rows s).

Definition wf (s : SubscribedEvents) : Prop := - 2 ^ 31 <= Duration s < 2 ^ 31.

End SubEvents.

(** ** Theorems *)

Lemma stob_btoi b : stob (fmt_d (btoi b)) = b.
Proof. by destruct b. Qed.

Lemma ootob_btooo b : ootob (btooo b) = b.
Proof. by destruct b. Qed.

Lemma stou8_fmt n : 0 <= n < 2 ^ 8 -> stou8 (fmt_d n) = n.
Proof.
  intros. unfold stou8, fmt_d. case_match; [lia|]. by rewrite ParseUint_fmt by lia.
Qed.

Lemma stou16_fmt n : 0 <= n < 2 ^ 16 -> stou16 (fmt_d n) = n.
Proof.
  intros. unfold stou16, fmt_d. case_match; [lia|]. by rewrite ParseUint_fmt by lia.
Qed.

Lemma strip_0x s : replace1 "0x" "" ("0x" +:+ s)%string = s.
Proof. by destruct s. Qed.

Lemma hex_fmt bits n : 0 <= n < 2 ^ bits -> fst (ParseUint (replace1 "0x" "" (fmt_hex n)) 16 bits) = n.
Proof. intros. unfold fmt_hex, fmt_x. rewrite strip_0x, ParseUint_fmt; [done|lia|lia]. Qed.

Lemma stoi32_fmt z : - 2 ^ 31 <= z < 2 ^ 31 -> stoi32 (fmt_d z) = z.
Proof. intros. unfold stoi32. by rewrite ParseInt_fmt by lia. Qed.

Create Rewrite HintDb conv.
#[export] Hint Rewrite stob_btoi ootob_btooo : conv.
#[export] Hint Rewrite stou8_fmt stou16_fmt stoi32_fmt using lia : conv.

(** Parsing the printed values of a data set, in the order of its keys, gives the
    data set back. *)
Ltac roundtrip :=
  lazymatch goal with
  | |- ?l = _ =>
      let l' := eval cbv -[fmt_d fmt_hex stou8 stou16 stoi32 stob ootob btooo btoi
                           stou8h stou16h stou32h] in l in
      change l with l'
  end;
  autorewrite with conv; unfold stou8h, stou16h, stou32h; rewrite ?hex_fmt by lia; done.

Lemma GrandmasterSettings_values g :
  GMSettings.wf g -> ProcessMessage ("" :: map snd (GMSettings.rows g)) = Some g.
Proof.
  destruct g as [[cc ca ov] [u v l5 l6 tt ft pt ts]]. unfold GMSettings.wf. cbn -[Z.pow].
  intros (H1 & H2 & H3 & H4 & H5). roundtrip.
Qed.

Lemma ParentDataSet_values p :
  ParentDS.wf p -> ProcessMessage ("" :: map snd (ParentDS.rows p)) = Some p.
Proof.
  destruct p. unfold ParentDS.wf. cbn -[Z.pow].
  intros (H1 & H2 & H3 & H4 & H5 & H6 & H7 & H8). roundtrip.
Qed.

Lemma ExternalGM_values e :
  ExternalGM.wf e -> ProcessMessage ("" :: map snd (ExternalGM.rows e)) = Some e.
Proof. destruct e. unfold ExternalGM.wf. cbn -[Z.pow]. intros H1. roundtrip. Qed.

Lemma SubscribedEvents_values s :
  SubEvents.wf s -> ProcessMessage ("" :: map snd (SubEvents.rows s)) = Some s.
Proof. destruct s. unfold SubEvents.wf. cbn -[Z.pow]. intros H1. roundtrip. Qed.

Lemma ParentDS_Equal_spec p o : ParentDS.Equal (Some p) (Some o) = bool_decide (p = o).
Proof.
  destruct p, o. unfold ParentDS.Equal, str_eqb. cbn.
  apply eq_bool_prop_intro. rewrite !andb_True, !bool_decide_spec, !Is_true_true, !Z.eqb_eq.
  split; [intros (((((((((-> & ->) & ->) & ->) & ->) & ->) & ->) & ->) & ->) & ->); done|].
  by intros [= -> -> -> -> -> -> -> -> -> ->].
Qed.

(** Data sets survive pmc.  The values a data set prints are read back into the same
    data set, field by field and at the fields' widths, for the grandmaster settings, the
    parent data set, the external grandmaster properties and the event subscription. *)
Theorem datasets_roundtrip g p e s :
  GMSettings.wf g -> ParentDS.wf p -> ExternalGM.wf e -> SubEvents.wf s ->
  ProcessMessage ("" :: map snd (GMSettings.rows g)) = Some g /\
  ProcessMessage ("" :: map snd (ParentDS.rows p)) = Some p /\
  ProcessMessage ("" :: map snd (ExternalGM.rows e)) = Some e /\
  ProcessMessage ("" :: map snd (SubEvents.rows s)) = Some s.
Proof.
  intros Hg Hp He Hs. split; [by apply GrandmasterSettings_values|].
  split; [by apply ParentDataSet_values|]. split; [by apply ExternalGM_values|by apply SubscribedEvents_values].
Qed.

Lemma datasets_roundtrip_witness :
  exists g : GrandmasterSettings, TimeSource (gsTimePropertiesDS g) = 160 /\
    ProcessMessage ("" :: map snd (GMSettings.rows g)) = Some g.
Proof.
  set (g := mkGrandmasterSettings (mkClockQuality 6 33 20061) (mkTimePropertiesDS 37 true false false true true true 160)).
  exists g. split; [reflexivity|].
  apply (datasets_roundtrip g (mkParentDataSet "507c6f.fffe.1fb16c-1" 0 65535 0 128 6 33 20061 128 "507c6f.fffe.1fb16c")
    (mkEGP "507c6f.fffe.1fb16c" 1) (mkSubscribedEvents (-1) true false true false)); vm_compute; repeat split; congruence.
Defined.
