(* ===== verification/Ipc.v ===== *)
(** * pkg/ipc: messages to cloud-event-proxy and the outbound cache

    The messages of pkg/ipc/ipc.go and the deduplicating cache of pkg/ipc/cache.go.
    Every operation holds the mutex but the send of [Clear], and all of them are called
    by the goroutine of the clock manager, one after the other; [Snapshot] is taken by
    the link.  The buffered outbound channel is a queue with a capacity whose consumer
    takes messages from the front.  Wire.v has their JSON text, Link.v the consumer. *)

From S2P Require Import Prelude.

Definition Version : Z := 1.

Definition TypePTPState : string := "ptp_state".
Definition TypeOSClockState : string := "os_clock_state".
Definition TypeClockClass : string := "clock_class".
Definition TypeGNSSState : string := "gnss_state".
Definition TypeSyncEState : string := "synce_state".
Definition TypeSyncEClockQuality : string := "synce_clock_quality".
Definition TypeSyncState : string := "sync_state".
Definition TypeCacheClear : string := "cache_clear".
Definition TypeStatusRequest : string := "status_request".

Definition StateLocked : string := "LOCKED".
Definition StateHoldover : string := "HOLDOVER".
Definition StateFreerun : string := "FREERUN".

(** The implementations of the interface [Value]. *)
Inductive Value :=
| StateValue (State : string) (Offset : Z)
| GNSSStateValue (State : string)
| SyncStateValue (State : string)
| SyncEStateValue (State : string)
| ClockClassValue (ClockClass : Z)
| SyncEClockQualityValue (QL ExtendedQL : Z).

#[export] Instance Value_eq_dec : EqDecision Value.
Proof. solve_decision. Defined.

(** [mValues] is [None] when the interface value is nil. *)
Record Message := mkMessage {
  mVersion : Z;
  mType : string;
  mTimestamp : string;
  mProfile : string;
  mIFace : string;
  mValues : option Value
}.

#[export] Instance Message_fields : Fields Message := fun m =>
  mkMessage (mVersion m) (mType m) (mTimestamp m) (mProfile m) (mIFace m) (mValues m).

#[export] Instance Message_eq_dec : EqDecision Message.
Proof. solve_decision. Defined.

(** A composite literal that leaves the version and the timestamp zero. *)
Definition message (ty profile iface : string) (v : Value) : Message :=
  mkMessage 0 ty "" profile iface (Some v).

(** [ValuesEqual]: the dynamic types and the fields agree; a nil value never does. *)
Definition ValuesEqual (m other : Message) : bool :=
  match mValues m, mValues other with
  | Some (StateValue s o), Some (StateValue s' o') => str_eqb s s' && (o =? o')
  | Some (GNSSStateValue s), Some (GNSSStateValue s') => str_eqb s s'
  | Some (SyncStateValue s), Some (SyncStateValue s') => str_eqb s s'
  | Some (SyncEStateValue s), Some (SyncEStateValue s') => str_eqb s s'
  | Some (ClockClassValue c), Some (ClockClassValue c') => c =? c'
  | Some (SyncEClockQualityValue q e), Some (SyncEClockQualityValue q' e') => (q =? q') && (e =? e')
  | _, _ => false
  end.

(** (msgType, profile, iface). *)
Abbreviation cacheKey := (string * string * string)%type.

Definition key_of (m : Message) : cacheKey := (mType m, mProfile m, mIFace m).

Record Cache := mkCache {
  store : gmap cacheKey Message;
  outCh : list Message;
  bufSize : Z
}.

#[export] Instance Cache_fields : Fields Cache := fun c => mkCache (store c) (outCh c) (bufSize c).

Definition NewCache (bufSize : Z) : Cache := mkCache ∅ [] bufSize.

(** The non-blocking send on the buffered channel ([select] with [default]). *)
Definition try_send (m : Message) (c : Cache) : Cache :=
  if Z.of_nat (length (outCh c)) <? bufSize c then c <| outCh := outCh c ++ [m] |> else c.

(** [Send]; [now] is the formatted current time. *)
Definition Send (now : string) (msg : Message) (c : Cache) : Cache * bool :=
  let msg := if mVersion msg =? 0 then msg <| mVersion := Version |> else msg in
  let msg := if str_eqb (mTimestamp msg) "" then msg <| mTimestamp := now |> else msg in
  let key := key_of msg in
  let accept := (try_send msg (c <| store := <[key := msg]> (store c) |>), true) in
  match store c !! key with
  | Some prev => if ValuesEqual prev msg then (c, false) else accept
  | None => accept
  end.

(** [Snapshot] returns the cached messages in the map's iteration order. *)
Definition Snapshot (c : Cache) : list Message := snd <$> map_to_list (store c).

Definition Clear (c : Cache) : Cache :=
  try_send (mkMessage Version TypeCacheClear "" "" "" None) (c <| store := ∅ |>).

(** The peer takes the front of the channel. *)
Definition receive (c : Cache) : option (Message * Cache) :=
  match outCh c with
  | [] => None
  | m :: rest => Some (m, c <| outCh := rest |>)
  end.

(** ** Specification: the latest values per key *)

(** What a peer that saw every accepted message would know. *)
Definition latest (history : list Message) : gmap cacheKey (option Value) :=
  foldl (fun acc m => <[key_of m := mValues m]> acc) ∅ history.

Definition send_all (now : string) (msgs : list Message) (c : Cache) : Cache :=
  foldl (fun c m => fst (Send now m c)) c msgs.

(** ** Theorems *)

Lemma ValuesEqual_true m o :
  ValuesEqual m o = true -> mValues m = mValues o /\ mValues m <> None.
Proof.
  unfold ValuesEqual, str_eqb.
  destruct (mValues m) as [[]|], (mValues o) as [[]|]; rewrite ?andb_true_iff, ?bool_decide_eq_true, ?Z.eqb_eq;
    intros; destruct_and?; by subst.
Qed.

Lemma ValuesEqual_refl m o : mValues m = mValues o -> mValues m <> None -> ValuesEqual m o = true.
Proof.
  unfold ValuesEqual, str_eqb. intros ->.
  destruct (mValues o) as [[]|]; rewrite ?andb_true_iff, ?bool_decide_eq_true, ?Z.eqb_eq; done.
Qed.

Lemma try_send_store m c : store (try_send m c) = store c.
Proof. unfold try_send. by case_match. Qed.

Lemma try_send_bounded m c :
  Z.of_nat (length (outCh c)) <= bufSize c ->
  Z.of_nat (length (outCh (try_send m c))) <= bufSize (try_send m c).
Proof. unfold try_send. case_match; cbn; rewrite ?length_app; cbn; lia. Qed.

(** The completed message: version and timestamp filled in, the rest unchanged. *)
Definition complete (now : string) (msg : Message) : Message :=
  let msg := if mVersion msg =? 0 then msg <| mVersion := Version |> else msg in
  if str_eqb (mTimestamp msg) "" then msg <| mTimestamp := now |> else msg.

Lemma complete_key now m : key_of (complete now m) = key_of m.
Proof. unfold complete. by repeat case_match. Qed.

Lemma complete_values now m : mValues (complete now m) = mValues m.
Proof. unfold complete. by repeat case_match. Qed.

Lemma Send_cases now m c :
  (exists prev, store c !! key_of m = Some prev /\ mValues prev = mValues m /\ mValues m <> None /\
     Send now m c = (c, false)) \/
  ((forall prev, store c !! key_of m = Some prev -> mValues prev <> mValues m \/ mValues m = None) /\
     Send now m c = (try_send (complete now m) (c <| store := <[key_of m := complete now m]> (store c) |>), true)).
Proof.
  unfold Send. fold (complete now m). cbv zeta. fold (complete now m).
  rewrite complete_key. destruct (store c !! key_of m) as [prev|] eqn:E; [|by right].
  destruct (ValuesEqual prev (complete now m)) eqn:EV.
  - apply ValuesEqual_true in EV as [EV Hne]. rewrite complete_values in EV.
    left. exists prev. rewrite EV in Hne. done.
  - right. split; [|done]. intros p [= <-].
    destruct (decide (mValues prev = mValues m)) as [EQ|]; [|by left].
    destruct (decide (mValues m = None)) as [|Hn]; [by right|exfalso].
    rewrite ValuesEqual_refl in EV; [done| |congruence]. by rewrite complete_values.
Qed.

(** The cache refines [latest]. *)
Lemma Send_store_values now m c :
  mValues <$> store (fst (Send now m c)) = <[key_of m := mValues m]> (mValues <$> store c).
Proof.
  destruct (Send_cases now m c) as [(prev & Hl & EV & _ & ->)|[_ ->]]; cbn.
  - symmetry. apply insert_id. by rewrite lookup_fmap, Hl, <- EV.
  - by rewrite try_send_store; cbn; rewrite fmap_insert, complete_values.
Qed.

Lemma send_all_values now msgs c acc :
  mValues <$> store c = acc ->
  mValues <$> store (send_all now msgs c) = foldl (fun acc m => <[key_of m := mValues m]> acc) acc msgs.
Proof.
  revert c acc. induction msgs as [|m msgs IH]; intros c acc Hacc; [done|].
  cbn. apply IH. by rewrite Send_store_values, Hacc.
Qed.

Lemma send_all_bounded now msgs c :
  Z.of_nat (length (outCh c)) <= bufSize c ->
  Z.of_nat (length (outCh (send_all now msgs c))) <= bufSize c /\ bufSize (send_all now msgs c) = bufSize c.
Proof.
  revert c. induction msgs as [|m msgs IH]; intros c Hc; [done|].
  change (send_all now (m :: msgs) c) with (send_all now msgs (fst (Send now m c))).
  assert (Z.of_nat (length (outCh (fst (Send now m c)))) <= bufSize (fst (Send now m c)) /\
          bufSize (fst (Send now m c)) = bufSize c) as [Hb Hs].
  { destruct (Send_cases now m c) as [(prev & _ & _ & _ & ->)|[_ ->]]; [done|]. cbn [fst].
    split; [by apply try_send_bounded|]. unfold try_send. by destruct (_ <? _). }
  destruct (IH _ Hb) as [H1 H2]. rewrite Hs in H1, H2. by split.
Qed.

(** The outbound cache.  After any messages the cache holds the latest values of every
    key; a further message is refused exactly when it repeats the latest values of its key;
    and the queue to the peer never exceeds its capacity, however slow the peer. *)
Theorem cache_refines_latest now n msgs m :
  0 <= n ->
  let c := send_all now msgs (NewCache n) in
  mValues <$> store c = latest msgs /\
  snd (Send now m c) = negb (bool_decide (latest msgs !! key_of m = Some (mValues m) /\ mValues m <> None)) /\
  Z.of_nat (length (outCh c)) <= n.
Proof.
  intros Hn. cbv zeta. assert (mValues <$> store (send_all now msgs (NewCache n)) = latest msgs) as HL.
  { by apply send_all_values. }
  split; [done|]. split; [|by apply send_all_bounded].
  rewrite <- HL, lookup_fmap. destruct (Send_cases now m (send_all now msgs (NewCache n))) as [(prev & E & Hv & Hne & ->)|[H ->]]; cbn [snd].
  - rewrite E. cbn. rewrite bool_decide_eq_true_2; [done|]. by rewrite Hv.
  - rewrite bool_decide_eq_false_2; [done|]. intros [E Hne].
    destruct (store _ !! key_of m) as [prev|]; [|done]. cbn in E. injection E as E.
    by destruct (H prev eq_refl).
Qed.

Lemma cache_refines_latest_witness :
  let m := message TypeSyncState "ptp4l.0.config" "" (SyncStateValue StateLocked) in
  let m' := message TypeSyncState "ptp4l.0.config" "" (SyncStateValue StateFreerun) in
  snd (Send "now" m (send_all "now" [m'; m] (NewCache 1))) = false.
Proof.
  cbv zeta.
  rewrite (proj1 (proj2 (cache_refines_latest "now" 1
    [message TypeSyncState "ptp4l.0.config" "" (SyncStateValue StateFreerun);
     message TypeSyncState "ptp4l.0.config" "" (SyncStateValue StateLocked)]
    (message TypeSyncState "ptp4l.0.config" "" (SyncStateValue StateLocked)) ltac:(lia)))).
  vm_compute. reflexivity.
Defined.
