(* ===== verification/Event.v ===== *)
(** * pkg/event: events and their payloads

    The vocabulary of pkg/event/event.go: sources, states and clock types are Go
    strings; the sealed interface [EventData] is an inductive type with one
    constructor per payload; a pointer field that may be nil is an [option].  The
    textual forms are the log lines the daemon prints. *)

From S2P Require Import Prelude Strconv Protocol Ipc.

Abbreviation PTPState := string.
Abbreviation EventSource := string.
Abbreviation ClockType := string.
Abbreviation ValueType := string.

Definition WindowSize : Z := 10.

Definition OFFSET : ValueType := "offset".
Definition GPS_STATUS : ValueType := "gnss_status".
Definition PHASE_STATUS : ValueType := "phase_status".
Definition FREQUENCY_STATUS : ValueType := "frequency_status".
Definition NMEA_STATUS : ValueType := "nmea_status".
Definition PPS_STATUS : ValueType := "pps_status".
Definition LEADING_INTERFACE_UNKNOWN : string := "unknown".
Definition DEVICE : ValueType := "device".
Definition QL : ValueType := "ql".
Definition EXT_QL : ValueType := "ext_ql".
Definition CLOCK_QUALITY : ValueType := "clock_quality".
Definition NETWORK_OPTION : ValueType := "network_option".
Definition EEC_STATE : ValueType := "eec_state".
Definition ControlledPortsConfigKey : ValueType := "controlled-ports-config".
Definition ClockIDKey : ValueType := "clock-id".

Definition GNSS : EventSource := "gnss".
Definition DPLL : EventSource := "dpll".
Definition TS2PHC : EventSource := "ts2phc".
Definition PTP4l : EventSource := "ptp4l".
Definition PHC2SYS : EventSource := "phc2sys".
Definition PPS : EventSource := "1pps".
Definition SYNCE : EventSource := "synce4l".
Definition CHRONYD : EventSource := "chronyd".
Definition PMC : EventSource := "pmc".

Definition PTP_FREERUN : PTPState := "s0".
Definition PTP_HOLDOVER : PTPState := "s1".
Definition PTP_LOCKED : PTPState := "s2".
Definition PTP_UNKNOWN : PTPState := "-1".
Definition PTP_NOTSET : PTPState := "-2".

Definition GM_type : ClockType := "GM".
Definition BC_type : ClockType := "BC".
Definition TBC_type : ClockType := "T-BC".
Definition OC_type : ClockType := "OC".
Definition HA_type : ClockType := "HA".
Definition ClockUnset : ClockType := "".

(** ** Payloads *)

Record GNSSData := mkGNSSData { gdGPSStatus : Z; gdOffset : Z; gdSourceLost : bool }.

Record OffsetData := mkOffsetData {
  odState : PTPState;
  odOffset : Z;
  odSourceLost : bool;
  odNMEALocked : option bool
}.

#[export] Instance OffsetData_fields : Fields OffsetData := fun d =>
  mkOffsetData (odState d) (odOffset d) (odSourceLost d) (odNMEALocked d).

Record DPLLData := mkDPLLData {
  ddState : PTPState;
  ddOutOfSpec : bool;
  ddSourceLost : bool;
  ddFrequencyTraceable : bool;
  ddLeadingSource : bool;
  ddOffset : option Z;
  ddPhaseStatus : option Z;
  ddFrequencyStatus : option Z;
  ddPPSStatus : Z;
  ddInSyncConditionThreshold : Z;
  ddInSyncConditionTimes : Z;
  ddToFreeRunThreshold : Z;
  ddMaxInSpecOffset : Z;
  ddHoldoverDisabled : bool
}.

Record SyncEData := mkSyncEData {
  seState : PTPState;
  seDevice : string;
  seQL : option Z;
  seExtQL : option Z;
  seClockQuality : string;
  seEECState : string;
  seNetworkOption : Z
}.

Record StateData := mkStateData {
  sdState : PTPState;
  sdSourceLost : bool;
  sdControlledPortsConfig : string;
  sdClockID : string
}.

Record PtpClockThreshold := mkThreshold {
  MaxOffsetThreshold : Z;
  MinOffsetThreshold : Z;
  HoldOverTimeout : Z
}.

(** [pmc.ParentTimeCurrentDS]. *)
Record ParentTimeCurrentDS := mkParentTimeCurrentDS {
  ptcParentDataSet : ParentDataSet;
  ptcTimePropertiesDS : TimePropertiesDS;
  ptcCurrentDS : CurrentDS
}.

(** The sealed interface [EventData] (a non-nil pointer to one of the payloads). *)
Inductive EventData :=
| EGNSS (d : GNSSData)
| EOffset (d : OffsetData)
| EDPLL (d : DPLLData)
| ESyncE (d : SyncEData)
| EState (d : StateData)
| EHoldoverExpired (Generation : Z)
| ESelectedSource (IFace : string)
| EProcessStatus (Status : Z)
| EParentTimeCurrent (ds : ParentTimeCurrentDS) (Generation : Z)
| EParentDS (ds : ParentDataSet)
| EPlugin (EventName : string).

Record Event := mkEvent {
  evSource : EventSource;
  evIFace : string;
  evCfgName : string;
  evClockType : ClockType;
  evTime : Z;
  evWriteToLog : bool;
  evReset : bool;
  evData : option EventData
}.

#[export] Instance Event_fields : Fields Event := fun e =>
  mkEvent (evSource e) (evIFace e) (evCfgName e) (evClockType e) (evTime e) (evWriteToLog e)
    (evReset e) (evData e).

(** ** Textual forms *)

Definition sp (a b : string) : string := (a +:+ " " +:+ b)%string.

(** A part that is present only under a condition, as in
    [if cond { parts = append(parts, s) }]. *)
Definition part (cond : bool) (s : string) : list string := if cond then [s] else [].

Definition part_opt {A} (o : option A) (f : A -> string) : list string :=
  match o with Some a => [f a] | None => [] end.

Definition nonempty (s : string) : bool := negb (str_eqb s "").

Definition GNSSData_String (d : GNSSData) : string :=
  let state := if (3 <=? gdGPSStatus d) && negb (gdSourceLost d) then PTP_LOCKED else PTP_FREERUN in
  sp GPS_STATUS (sp (fmt_d (gdGPSStatus d)) (sp OFFSET (sp (fmt_d (gdOffset d)) state))).

Definition OffsetData_String (d : OffsetData) : string :=
  join " " (part_opt (odNMEALocked d) (fun b => sp NMEA_STATUS (fmt_t b))
    ++ [sp OFFSET (fmt_d (odOffset d)); odState d]).

Definition DPLLData_String (d : DPLLData) : string :=
  join " " (part_opt (ddFrequencyStatus d) (fun z => sp FREQUENCY_STATUS (fmt_d z))
    ++ part_opt (ddOffset d) (fun z => sp OFFSET (fmt_d z))
    ++ part_opt (ddPhaseStatus d) (fun z => sp PHASE_STATUS (fmt_d z))
    ++ [sp PPS_STATUS (fmt_d (ddPPSStatus d)); ddState d]).

Definition SyncEData_String (d : SyncEData) : string :=
  join " " (part (nonempty (seClockQuality d)) (sp CLOCK_QUALITY (seClockQuality d))
    ++ part (nonempty (seDevice d)) (sp DEVICE (seDevice d))
    ++ part (nonempty (seEECState d)) (sp EEC_STATE (seEECState d))
    ++ part_opt (seExtQL d) (fun b => sp EXT_QL (fmt_hex b))
    ++ part (negb (seNetworkOption d =? 0)) (sp NETWORK_OPTION (fmt_d (seNetworkOption d)))
    ++ part_opt (seQL d) (fun b => sp QL (fmt_hex b))
    ++ part (nonempty (seState d) && negb (str_eqb (seState d) PTP_UNKNOWN)) (seState d)).

Definition StateData_String (d : StateData) : string :=
  join " " (part (nonempty (sdClockID d)) (sp ClockIDKey (sdClockID d))
    ++ part (nonempty (sdControlledPortsConfig d)) (sp ControlledPortsConfigKey (sdControlledPortsConfig d))
    ++ [sdState d]).

Definition EventData_String (d : EventData) : string :=
  match d with
  | EGNSS d => GNSSData_String d
  | EOffset d => OffsetData_String d
  | EDPLL d => DPLLData_String d
  | ESyncE d => SyncEData_String d
  | EState d => StateData_String d
  | EHoldoverExpired g => ("Holover Expired: generation=" +:+ fmt_d g)%string
  | ESelectedSource i => ("selected source " +:+ i)%string
  | EProcessStatus s => ("PTP_PROCESS_STATUS:" +:+ fmt_d s)%string
  | EParentTimeCurrent _ _ | EParentDS _ => ""
  | EPlugin n => n
  end.

(** [GetLogData]; [now] is the current Unix time in seconds. *)
Definition GetLogData (now : Z) (e : Event) : string :=
  let prefix := (evSource e +:+ "[" +:+ fmt_d now +:+ "]:[" +:+ evCfgName e +:+ "]")%string in
  (join " " ([prefix] ++ part (nonempty (evIFace e)) (evIFace e)
     ++ match evData e with
        | Some d => part (nonempty (EventData_String d)) (EventData_String d)
        | None => []
        end) +:+ newline)%string.

Definition ProcessStatusEvent (now : Z) (source : EventSource) (cfgName : string) (clockType : ClockType)
    (iface : string) (status : Z) : Event :=
  mkEvent source iface cfgName clockType now true false (Some (EProcessStatus status)).

Definition PluginEvent (now : Z) (source : EventSource) (eventName : string) : Event :=
  mkEvent source "" "" "" now false false (Some (EPlugin eventName)).

Definition PtpStateToIPCState (s : PTPState) : string :=
  if str_eqb s PTP_LOCKED then StateLocked
  else if str_eqb s PTP_HOLDOVER then StateHoldover
  else StateFreerun.

(** ** Case analysis on states *)

(** A string is one of the five named states or none of them. *)
Definition other_state (s : PTPState) : Prop :=
  s <> PTP_FREERUN /\ s <> PTP_HOLDOVER /\ s <> PTP_LOCKED /\ s <> PTP_UNKNOWN /\ s <> PTP_NOTSET.

Lemma ptp_state_cases (s : PTPState) :
  s = PTP_FREERUN \/ s = PTP_HOLDOVER \/ s = PTP_LOCKED \/ s = PTP_UNKNOWN \/ s = PTP_NOTSET \/ other_state s.
Proof.
  unfold other_state.
  destruct (decide (s = PTP_FREERUN)), (decide (s = PTP_HOLDOVER)), (decide (s = PTP_LOCKED)),
    (decide (s = PTP_UNKNOWN)), (decide (s = PTP_NOTSET)); tauto.
Qed.

(** The states a clock reports. *)
Definition real_state (s : PTPState) : Prop :=
  s = PTP_FREERUN \/ s = PTP_HOLDOVER \/ s = PTP_LOCKED.

Lemma str_eqb_refl s : str_eqb s s = true.
Proof. by apply bool_decide_eq_true. Qed.

Lemma str_eqb_eq s t : str_eqb s t = true <-> s = t.
Proof. apply bool_decide_eq_true. Qed.

Lemma str_eqb_neq s t : str_eqb s t = false <-> s <> t.
Proof. apply bool_decide_eq_false. Qed.

Lemma str_eqb_ne s t : s <> t -> str_eqb s t = false.
Proof. apply str_eqb_neq. Qed.

Create Rewrite HintDb str.
#[export] Hint Rewrite str_eqb_refl : str.
#[export] Hint Rewrite str_eqb_ne using assumption : str.

(** Decide the comparisons of closed strings, and turn the others into cases. *)
Ltac str_norm :=
  repeat match goal with
    | |- context [str_eqb ?a ?a] => rewrite (str_eqb_refl a)
    | H : context [str_eqb ?a ?a] |- _ => rewrite (str_eqb_refl a) in H
    | N : ?a <> ?b |- context [str_eqb ?a ?b] => rewrite (str_eqb_ne a b N)
    | N : ?a <> ?b, H : context [str_eqb ?a ?b] |- _ => rewrite (str_eqb_ne a b N) in H
    | |- context [str_eqb ?a ?b] =>
        let r := eval vm_compute in (str_eqb a b) in
        lazymatch r with true => idtac | false => idtac end;
        change (str_eqb a b) with r
    | H : context [str_eqb ?a ?b] |- _ =>
        let r := eval vm_compute in (str_eqb a b) in
        lazymatch r with true => idtac | false => idtac end;
        change (str_eqb a b) with r in H
    end; cbv beta iota in *.

Ltac str_case :=
  match goal with
  | |- context [str_eqb ?a ?b] => destruct (decide (a = b)); [subst|]; str_norm
  | H : context [str_eqb ?a ?b] |- _ => destruct (decide (a = b)); [subst|]; str_norm
  end.

(** Split on a state. *)
Ltac state_cases s :=
  let E := fresh "E" in
  destruct (ptp_state_cases s) as [E|[E|[E|[E|[E|E]]]]];
  [try rewrite E in *; try subst s ..| destruct E as (?&?&?&?&?)]; str_norm.
