(* ===== verification/Stats.v ===== *)
(** * pkg/event/stats.go: per-source measurement data

    A [Data] holds what one source (ts2phc, dpll, ...) has reported: one
    [DataDetails] per interface, the worst state over them, and an optional offset
    window.  The pointers of the Go slice are positions of the list; an update
    through a pointer replaces the element.  The [Metrics] map of a detail is
    created empty and never used, and has no counterpart. *)

From S2P Require Import Prelude Float64 Utils Strconv Event.

Record DataDetails := mkDetails {
  dtIFace : string;
  dtState : PTPState;
  dtClockType : ClockType;
  dtTime : Z;
  dtLogData : string;
  dtSignalSource : EventSource;
  dtSourceLost : bool;
  dtOffset : Z;
  dtHasOffset : bool;
  dtProcessStatus : Z;
  dtHasProcessStatus : bool;
  dtOutOfSpec : bool;
  dtFrequencyTraceable : bool
}.

#[export] Instance DataDetails_fields : Fields DataDetails := fun d =>
  mkDetails (dtIFace d) (dtState d) (dtClockType d) (dtTime d) (dtLogData d) (dtSignalSource d)
    (dtSourceLost d) (dtOffset d) (dtHasOffset d) (dtProcessStatus d) (dtHasProcessStatus d)
    (dtOutOfSpec d) (dtFrequencyTraceable d).

Record Data := mkData {
  daProcessName : EventSource;
  daDetails : list DataDetails;
  daState : PTPState;
  daLogData : string;
  daWindow : option Window.Window
}.

#[export] Instance Data_fields : Fields Data := fun d =>
  mkData (daProcessName d) (daDetails d) (daState d) (daLogData d) (daWindow d).

(** One iteration of the loop of [UpdateState]. *)
Definition update_state_step (state : PTPState) (detail : DataDetails) : PTPState :=
  let s := dtState detail in
  if str_eqb s PTP_FREERUN then s
  else if str_eqb s PTP_HOLDOVER then
    if negb (str_eqb state PTP_FREERUN) then s else state
  else if str_eqb s PTP_LOCKED then
    if negb (str_eqb state PTP_FREERUN) && negb (str_eqb state PTP_HOLDOVER) then s else state
  else state.

Definition UpdateState (d : Data) : Data :=
  d <| daState := foldl update_state_step PTP_UNKNOWN (daDetails d) |>.

Definition GetDataDetails (iface : string) (d : Data) : option DataDetails :=
  first_match (fun dd => str_eqb (dtIFace dd) iface) (daDetails d).

(** The loops that keep the latest populated value: a detail replaces the current
    one when it is populated and not older. *)
Definition latest_step (populated : DataDetails -> bool) (latest : option DataDetails)
    (detail : DataDetails) : option DataDetails :=
  if populated detail &&
     match latest with None => true | Some l => dtTime l <=? dtTime detail end
  then Some detail else latest.

Definition latest (populated : DataDetails -> bool) (details : list DataDetails) : option DataDetails :=
  foldl (latest_step populated) None details.

(** [LatestOffset] on a possibly nil receiver; the outer [option] is the panic. *)
Definition LatestOffset (d : option Data) : option (f64 * bool) :=
  match d with
  | None => Some (f64_zero, false)
  | Some d =>
      match daWindow d with
      | Some w =>
          if Window.IsEmpty w then Some (f64_zero, false)
          else v ← Window.LastInserted w; Some (v, true)
      | None =>
          match latest dtHasOffset (daDetails d) with
          | None => Some (f64_zero, false)
          | Some l => Some (f64_of_Z (dtOffset l), true)
          end
      end
  end.

(** What the type switch of [addEvent] extracts from a payload. *)
Record Sample := mkSample {
  spState : PTPState;
  spSourceLost : bool;
  spOffset : Z;
  spHasOffset : bool;
  spOutOfSpec : bool;
  spFrequencyTraceable : bool;
  spLeading : bool
}.

Definition sample_of (data : option EventData) : Sample :=
  match data with
  | Some (EGNSS d) =>
      mkSample (if (3 <=? gdGPSStatus d) && negb (gdSourceLost d) then PTP_LOCKED else PTP_FREERUN)
        (gdSourceLost d) (gdOffset d) true false false false
  | Some (EOffset d) => mkSample (odState d) (odSourceLost d) (odOffset d) true false false false
  | Some (EDPLL d) =>
      mkSample (ddState d) (ddSourceLost d) (default 0 (ddOffset d))
        (match ddOffset d with Some _ => true | None => false end)
        (ddOutOfSpec d) (ddFrequencyTraceable d) (ddLeadingSource d)
  | Some (EState d) => mkSample (sdState d) (sdSourceLost d) 0 false false false false
  | Some (ESyncE d) => mkSample (seState d) false 0 false false false false
  | _ => mkSample "" false 0 false false false false
  end.

(** The assignments to the detail of a known interface. *)
Definition update_detail (now : Z) (event : Event) (dd : DataDetails) : DataDetails :=
  let s := sample_of (evData event) in
  let dd := dd <| dtState := spState s |> <| dtSourceLost := spSourceLost s |>
               <| dtOutOfSpec := spOutOfSpec s |> <| dtFrequencyTraceable := spFrequencyTraceable s |>
               <| dtClockType := evClockType event |> <| dtTime := evTime event |>
               <| dtLogData := GetLogData now event |> in
  if spHasOffset s then dd <| dtOffset := spOffset s |> <| dtHasOffset := true |> else dd.

(** The detail created for a new interface.  With a window the first offset is not recorded. *)
Definition new_detail (now : Z) (event : Event) (hasWindow : bool) : DataDetails :=
  let s := sample_of (evData event) in
  let keep := negb hasWindow && spHasOffset s in
  {| dtIFace := evIFace event; dtState := spState s; dtClockType := evClockType event;
     dtTime := evTime event; dtLogData := GetLogData now event;
     dtSignalSource := if spLeading s then PTP4l else "";
     dtSourceLost := spSourceLost s;
     dtOffset := if keep then spOffset s else 0; dtHasOffset := keep;
     dtProcessStatus := 0; dtHasProcessStatus := false;
     dtOutOfSpec := spOutOfSpec s; dtFrequencyTraceable := spFrequencyTraceable s |}.

Definition has_window (d : Data) : bool := match daWindow d with Some _ => true | None => false end.

(** [d.Window.Insert(v)] when a window is configured. *)
Definition insert_window (v : f64) (d : Data) : option Data :=
  match daWindow d with
  | Some w => w' ← Window.Insert v w; Some (d <| daWindow := Some w' |>)
  | None => Some d
  end.

Definition same_iface (iface : string) (dd : DataDetails) : bool := str_eqb (dtIFace dd) iface.

(** [addEvent], with [AddEvent] its exported name. *)
Definition AddEvent (now : Z) (event : Event) (d : Data) : option Data :=
  let s := sample_of (evData event) in
  match first_match (same_iface (evIFace event)) (daDetails d) with
  | Some dd =>
      if dtTime dd <=? evTime event then
        details ← modify_first (same_iface (evIFace event))
                    (fun dd => Some (update_detail now event dd)) (daDetails d);
        let d := d <| daDetails := details |> in
        if spHasOffset s then insert_window (f64_of_Z (spOffset s)) d else Some d
      else Some d
  | None =>
      let details := new_detail now event (has_window d) in
      Some (d <| daLogData := dtLogData details |> <| daDetails := daDetails d ++ [details] |>)
  end.

(** ** Textual forms *)

Definition ptpStatePopulated (s : PTPState) : bool :=
  str_eqb s PTP_FREERUN || str_eqb s PTP_HOLDOVER || str_eqb s PTP_LOCKED.

Definition DataDetails_String (dd : DataDetails) : string :=
  join " " (part (nonempty (dtIFace dd)) ("iface=" +:+ dtIFace dd)%string
    ++ part (ptpStatePopulated (dtState dd)) ("state=" +:+ dtState dd)%string
    ++ part (dtHasOffset dd) ("offset=" +:+ fmt_d (dtOffset dd))%string
    ++ part (dtSourceLost dd) "sourceLost=true"
    ++ part (dtHasProcessStatus dd) ("process_status=" +:+ fmt_d (dtProcessStatus dd))%string).

Definition Data_String (d : Data) : string :=
  foldl (fun out dd => (out +:+ " {" +:+ DataDetails_String dd +:+ "}")%string) (daProcessName d) (daDetails d).

(** [Summary]: each field from the latest detail that populates it. *)
Definition Summary (d : option Data) : string :=
  match d with
  | None => ""
  | Some d =>
      let l := daDetails d in
      join " " ([daProcessName d; ("n=" +:+ fmt_d (Z.of_nat (length l)))%string]
        ++ part_opt (latest (fun dd => nonempty (dtIFace dd)) l) (fun dd => ("iface=" +:+ dtIFace dd)%string)
        ++ part_opt (latest (fun dd => ptpStatePopulated (dtState dd)) l) (fun dd => ("state=" +:+ dtState dd)%string)
        ++ part_opt (latest dtHasOffset l) (fun dd => ("offset=" +:+ fmt_d (dtOffset dd))%string)
        ++ match latest (fun dd => ptpStatePopulated (dtState dd) || dtHasOffset dd) l with
           | Some dd => part (dtSourceLost dd) "sourceLost=true"
           | None => []
           end
        ++ part_opt (latest dtHasProcessStatus l) (fun dd => ("process_status=" +:+ fmt_d (dtProcessStatus dd))%string))
  end.

(** ** Specifications and invariants *)

(** The worst of the states present: FREERUN, then HOLDOVER, then LOCKED. *)
Definition worst_state (states : list PTPState) : PTPState :=
  if bool_decide (PTP_FREERUN ∈ states) then PTP_FREERUN
  else if bool_decide (PTP_HOLDOVER ∈ states) then PTP_HOLDOVER
  else if bool_decide (PTP_LOCKED ∈ states) then PTP_LOCKED
  else PTP_UNKNOWN.

Definition ifaces (d : Data) : list string := dtIFace <$> daDetails d.

(** One detail per interface, and a usable window if there is one. *)
Definition wf (d : Data) : Prop :=
  NoDup (ifaces d) /\
  match daWindow d with
  | Some w => Window.wf w /\ length (Window.weights w) = length (Window.data w)
  | None => True
  end.

(** ** Lemmas on searching and updating *)

Lemma modify_first_total {A} (p : A -> bool) (f : A -> A) l :
  exists l', modify_first p (fun x => Some (f x)) l = Some l'.
Proof.
  induction l as [|x l [l' IH]]; cbn; [eauto|]. case_match; cbn; [eauto|]. rewrite IH. cbn. eauto.
Qed.

(** The total update of the first match. *)
Fixpoint map_first {A} (p : A -> bool) (f : A -> A) (l : list A) : list A :=
  match l with
  | [] => []
  | x :: l' => if p x then f x :: l' else x :: map_first p f l'
  end.

Lemma modify_first_pure {A} (p : A -> bool) (f : A -> A) l :
  modify_first p (fun x => Some (f x)) l = Some (map_first p f l).
Proof. induction l as [|x l IH]; cbn; [done|]. case_match; cbn; [done|]. by rewrite IH. Qed.

Lemma map_first_fmap {A B} (p : A -> bool) (f : A -> A) (g : A -> B) l :
  (forall x, p x = true -> g (f x) = g x) -> g <$> map_first p f l = g <$> l.
Proof.
  intros H. induction l as [|x l IH]; cbn; [done|]. case_match; cbn; [by rewrite H|by rewrite IH].
Qed.

Lemma first_match_map_first {A} (p : A -> bool) (f : A -> A) l :
  (forall x, p x = true -> p (f x) = true) ->
  first_match p (map_first p f l) = f <$> first_match p l.
Proof.
  intros H. induction l as [|x l IH]; cbn; [done|]. case_match eqn:E; cbn; [by rewrite H|by rewrite E].
Qed.

Lemma first_match_map_first_ne {A} (p q : A -> bool) (f : A -> A) l :
  (forall x, p x = true -> q x = false /\ q (f x) = false) ->
  first_match q (map_first p f l) = first_match q l.
Proof.
  intros H. induction l as [|x l IH]; cbn; [done|]. case_match eqn:E; cbn.
  - by destruct (H x E) as [-> ->].
  - by rewrite IH.
Qed.

(** ** UpdateState *)

Lemma elem_cons_bool (c a : string) l : bool_decide (c ∈ a :: l) = str_eqb a c || bool_decide (c ∈ l).
Proof.
  destruct (str_eqb a c) eqn:E; cbn.
  - apply str_eqb_eq in E as ->. apply bool_decide_eq_true. left.
  - apply bool_decide_ext. rewrite elem_of_cons. apply str_eqb_neq in E.
    split; [by intros [?|?]; [congruence|]|by right].
Qed.

Lemma update_state_fold details acc :
  acc = PTP_UNKNOWN \/ real_state acc ->
  foldl update_state_step acc details = worst_state (acc :: (dtState <$> details)).
Proof.
  revert acc. induction details as [|dd details IH]; intros acc Hacc; cbn [foldl fmap list_fmap].
  - unfold worst_state. by destruct Hacc as [->|[->|[->| ->]]].
  - rewrite IH; cycle 1.
    { unfold update_state_step, real_state in *. repeat case_match; rewrite ?str_eqb_eq in *; tauto. }
    unfold worst_state, update_state_step. rewrite !elem_cons_bool.
    state_cases (dtState dd); destruct Hacc as [->|[->|[->| ->]]]; str_norm; cbn [negb andb]; str_norm;
      repeat case_bool_decide; done.
Qed.

Lemma UpdateState_worst d : daState (UpdateState d) = worst_state (dtState <$> daDetails d).
Proof. cbn. rewrite update_state_fold by by left. unfold worst_state. by rewrite !elem_cons_bool. Qed.

Lemma worst_state_perm l k : l ≡ₚ k -> worst_state l = worst_state k.
Proof. intros H. unfold worst_state. by rewrite !(bool_decide_ext _ _ (elem_of_Permutation_proper _ _ _ H)). Qed.

(** ** AddEvent *)

Lemma update_detail_iface now ev dd : dtIFace (update_detail now ev dd) = dtIFace dd.
Proof. unfold update_detail. by case_match. Qed.

Lemma update_detail_time now ev dd : dtTime (update_detail now ev dd) = evTime ev.
Proof. unfold update_detail. by case_match. Qed.

Lemma update_detail_state now ev dd : dtState (update_detail now ev dd) = spState (sample_of (evData ev)).
Proof. unfold update_detail. by case_match. Qed.

Lemma insert_window_wf v d :
  wf d -> exists d', insert_window v d = Some d' /\ wf d' /\ daDetails d' = daDetails d /\
    daProcessName d' = daProcessName d /\ daState d' = daState d /\ daLogData d' = daLogData d.
Proof.
  intros [HN HW]. unfold insert_window. destruct (daWindow d) as [w|] eqn:E.
  - destruct HW as [HW Hwt]. pose proof (Window.Insert_eq v w HW) as HI.
    pose proof (Window.Insert_wf _ _ _ HW HI) as [HW' _]. rewrite HI. cbn. eexists; split; [done|].
    repeat split; try done; try apply HW'. cbn. by rewrite length_insert.
  - exists d. unfold wf. rewrite E. done.
Qed.

(** The whole behaviour of [AddEvent] on a well-formed [Data]. *)
Lemma AddEvent_cases now ev d :
  wf d ->
  exists d', AddEvent now ev d = Some d' /\ wf d' /\ daProcessName d' = daProcessName d /\
  match GetDataDetails (evIFace ev) d with
  | Some dd =>
      if dtTime dd <=? evTime ev
      then daDetails d' = map_first (same_iface (evIFace ev)) (update_detail now ev) (daDetails d)
      else d' = d
  | None => daDetails d' = daDetails d ++ [new_detail now ev (has_window d)]
  end.
Proof.
  intros Hwf. unfold AddEvent, GetDataDetails. fold (same_iface (evIFace ev)).
  destruct (first_match (same_iface (evIFace ev)) (daDetails d)) as [dd|] eqn:E.
  - case_match; [|by exists d].
    rewrite modify_first_pure. cbn.
    assert (wf (d <| daDetails := map_first (same_iface (evIFace ev)) (update_detail now ev) (daDetails d) |>)) as Hwf'.
    { destruct Hwf as [HN HW]. split; [|done]. unfold ifaces in *; cbn.
      rewrite map_first_fmap; [done|]. intros. apply update_detail_iface. }
    cbn in Hwf'. case_match; [|by eexists].
    destruct (insert_window_wf (f64_of_Z (spOffset (sample_of (evData ev)))) _ Hwf')
      as (d' & HI & ? & HD & HP & _). cbn in *. exists d'. rewrite HI. done.
  - eexists; split; [done|]. split; [|done]. destruct Hwf as [HN HW]. split; [|done].
    unfold ifaces in *; cbn. rewrite fmap_app. cbn. apply list.NoDup_app. split; [done|].
    split; [|apply list.NoDup_singleton]. intros i Hi ->%list_elem_of_singleton.
    apply list_elem_of_fmap in Hi as (x & Hx1 & Hx2).
    apply first_match_None in E. rewrite Forall_forall in E.
    specialize (E x Hx2). unfold same_iface in E. rewrite str_eqb_neq in E. done.
Qed.

Lemma AddEvent_total now ev d : wf d -> exists d', AddEvent now ev d = Some d' /\ wf d'.
Proof. intros (d' & ? & ? & _)%(AddEvent_cases now ev). eauto. Qed.

(** After an event that is not stale, its interface shows the event's state and time. *)
Lemma AddEvent_records now ev d d' :
  wf d -> AddEvent now ev d = Some d' ->
  (forall dd, GetDataDetails (evIFace ev) d = Some dd -> dtTime dd <= evTime ev) ->
  exists dd, GetDataDetails (evIFace ev) d' = Some dd /\ dtTime dd = evTime ev /\
    dtState dd = spState (sample_of (evData ev)).
Proof.
  intros Hwf HA Hfresh. destruct (AddEvent_cases now ev d Hwf) as (d'' & HA' & _ & _ & HC).
  assert (d'' = d') as -> by congruence. unfold GetDataDetails in *. fold (same_iface (evIFace ev)) in *.
  destruct (first_match (same_iface (evIFace ev)) (daDetails d)) as [dd|] eqn:E.
  - specialize (Hfresh dd eq_refl). case_match; [|lia]. rewrite HC, first_match_map_first, E.
    + cbn. eexists; split; [done|]. by rewrite update_detail_time, update_detail_state.
    + intros x. unfold same_iface. by rewrite update_detail_iface.
  - rewrite HC, first_match_app, E. cbn. unfold same_iface; cbn. rewrite str_eqb_refl.
    eexists; split; [done|]. done.
Qed.

(** Other interfaces keep their detail. *)
Lemma AddEvent_other now ev d d' iface :
  wf d -> AddEvent now ev d = Some d' -> iface <> evIFace ev ->
  GetDataDetails iface d' = GetDataDetails iface d.
Proof.
  intros Hwf HA Hne. destruct (AddEvent_cases now ev d Hwf) as (d'' & HA' & _ & _ & HC).
  assert (d'' = d') as -> by congruence. unfold GetDataDetails in *. fold (same_iface iface).
  fold (same_iface (evIFace ev)) in HC.
  destruct (first_match (same_iface (evIFace ev)) (daDetails d)) as [dd|] eqn:E.
  - case_match; [|by subst]. rewrite HC. apply first_match_map_first_ne.
    unfold same_iface. intros x Hx. rewrite update_detail_iface, str_eqb_neq.
    apply str_eqb_eq in Hx. split; congruence.
  - rewrite HC, first_match_app. cbn. unfold same_iface; cbn.
    rewrite str_eqb_ne by congruence.
    by destruct (first_match (fun dd => str_eqb (dtIFace dd) iface) (daDetails d)).
Qed.

(** ** The latest populated detail *)

Lemma latest_snoc p l x : latest p (l ++ [x]) = latest_step p (latest p l) x.
Proof. unfold latest. by rewrite foldl_app. Qed.

Lemma latest_None p l : latest p l = None -> forall x, x ∈ l -> p x = false.
Proof.
  induction l as [|y l IH] using rev_ind; [by intros _ x ?%elem_of_nil|].
  rewrite latest_snoc. unfold latest_step. intros H x [Hx|Hx%list_elem_of_singleton]%elem_of_app.
  - apply IH; [|done]. by destruct (p y), (latest p l); cbn in H; try case_match.
  - subst y. by destruct (p x), (latest p l); cbn in H; try case_match.
Qed.

Lemma latest_spec p l d :
  latest p l = Some d ->
  p d = true /\ d ∈ l /\ (forall x, x ∈ l -> p x = true -> dtTime x <= dtTime d).
Proof.
  revert d. induction l as [|y l IH] using rev_ind; [done|]. intros d.
  rewrite latest_snoc. unfold latest_step.
  destruct (p y) eqn:Ey, (latest p l) as [k|] eqn:El; cbn [andb].
  - destruct (IH k eq_refl) as (Hk & Hin & Hmax). destruct (Z.leb_spec (dtTime k) (dtTime y)).
    + intros [= <-]. split; [done|]. split; [apply elem_of_app; right; left|].
      intros x [Hx| ->%list_elem_of_singleton]%elem_of_app Hp; [|lia]. specialize (Hmax x Hx Hp). lia.
    + intros [= <-]. split; [done|]. split; [apply elem_of_app; by left|].
      intros x [Hx| ->%list_elem_of_singleton]%elem_of_app Hp; [by apply Hmax|lia].
  - intros [= <-]. split; [done|]. split; [apply elem_of_app; right; left|].
    intros x [Hx| ->%list_elem_of_singleton]%elem_of_app Hp; [|lia].
    rewrite (latest_None _ _ El x Hx) in Hp. done.
  - intros [= <-]. destruct (IH k eq_refl) as (Hk & Hin & Hmax).
    split; [done|]. split; [apply elem_of_app; by left|].
    intros x [Hx| ->%list_elem_of_singleton]%elem_of_app Hp; [by apply Hmax|congruence].
  - done.
Qed.

(** Recording a sample.  An event that is not older than what is known of its interface
    is recorded without a panic: the interface's detail gets the event's time and state, every
    other interface keeps its detail, and the state of the source becomes the worst state of
    its interfaces, whatever their order. *)
Theorem sample_recorded now ev d :
  wf d -> (forall dd, GetDataDetails (evIFace ev) d = Some dd -> dtTime dd <= evTime ev) ->
  exists d', AddEvent now ev d = Some d' /\ wf d' /\
    (exists dd, GetDataDetails (evIFace ev) d' = Some dd /\ dtTime dd = evTime ev /\
       dtState dd = spState (sample_of (evData ev))) /\
    (forall iface, iface <> evIFace ev -> GetDataDetails iface d' = GetDataDetails iface d) /\
    (forall states, states ≡ₚ dtState <$> daDetails d' -> daState (UpdateState d') = worst_state states).
Proof.
  intros Hwf Hf. destruct (AddEvent_total now ev d Hwf) as (d' & E & Hwf'). exists d'. split; [done|]. split; [done|].
  split; [by apply (AddEvent_records now ev d)|]. split; [intros iface Hne; by apply (AddEvent_other now ev d)|].
  intros states Hp. by rewrite UpdateState_worst, (worst_state_perm _ _ Hp).
Qed.

Lemma sample_recorded_witness :
  let ev := mkEvent TS2PHC "ens1f0" "ts2phc.0.config" GM_type 5 false false (Some (EOffset (mkOffsetData PTP_LOCKED 3 false None))) in
  exists d', AddEvent 1 ev (mkData TS2PHC [] PTP_UNKNOWN "" (Some (Window.NewWindow 10))) = Some d' /\ daState (UpdateState d') = PTP_LOCKED.
Proof.
  cbv zeta.
  destruct (sample_recorded 1
    (mkEvent TS2PHC "ens1f0" "ts2phc.0.config" GM_type 5 false false (Some (EOffset (mkOffsetData PTP_LOCKED 3 false None))))
    (mkData TS2PHC [] PTP_UNKNOWN "" (Some (Window.NewWindow 10)))) as (d' & E & _ & _ & _ & Hs).
  - split; [constructor|]. split; [|reflexivity]. apply Window.NewWindow_wf. reflexivity.
  - intros dd. discriminate.
  - exists d'. split; [exact E|]. vm_compute in E. injection E as <-. rewrite (Hs [PTP_LOCKED]); [reflexivity|]. reflexivity.
Defined.
