(* ===== verification/ClockBase.v ===== *)
(** * pkg/clock: what every clock shares

    The composite state [SyncState] and the state orders of clock.go, the data
    holder and base clock of baseclock.go, and the OS clock of osclock.go.

    A method of a Go clock mutates its receiver, sends IPC messages, starts
    goroutines and calls the PMC client.  Here it is a function from the receiver to
    the new receiver together with the list of its [Effect]s in program order.  The
    [OsClock] every clock points to belongs to the clock manager: a method that only
    reads it takes it as an argument, a method that writes it returns the new one. *)

From S2P Require Import Prelude Float64 Utils Strconv Protocol Ipc Event Stats.

(** ** clock.go *)

Record SyncState := mkSyncState {
  ssState : PTPState;
  ssClockClass : Z;
  ssSourceLost : bool;
  ssClkLog : string;
  ssLastLoggedTime : Z;
  ssLeadingIFace : string;
  ssClockAccuracy : Z;
  ssClockOffset : Z;
  ssHAProfileStatus : option (gmap string bool)
}.

#[export] Instance SyncState_fields : Fields SyncState := fun s =>
  mkSyncState (ssState s) (ssClockClass s) (ssSourceLost s) (ssClkLog s) (ssLastLoggedTime s)
    (ssLeadingIFace s) (ssClockAccuracy s) (ssClockOffset s) (ssHAProfileStatus s).

(** [SyncState{}]. *)
Definition zero_SyncState : SyncState := mkSyncState "" 0 false "" 0 "" 0 0 None.

(** An armed holdover timer: the goroutine posts a [HoldoverExpired] event carrying
    the generation after [tmTimeout] seconds, unless its channel is closed first. *)
Record Timer := mkTimer {
  tmCfgName : string;
  tmIFace : string;
  tmClockType : ClockType;
  tmGeneration : Z;
  tmTimeout : Z
}.

(** What a clock method does besides changing its receiver, in program order.  The
    [Go] effects run in a goroutine of their own. *)
Inductive Effect :=
| SendIPC (m : Message)
| ArmTimer (t : Timer)
| CloseTimer (cfgName : string) (Generation : Z)
| GetGMSettings (cfg : string)
| SetGMSettings (cfg : string) (g : GrandmasterSettings)
| SetExternalGM (cfg : string) (e : ExternalGrandmasterProperties)
| GoSetGMSettings (cfg : string) (g : GrandmasterSettings)
| GoSetExternalGM (cfg : string) (e : ExternalGrandmasterProperties)
| GoFetchUpstream (cfg : string) (token : Z)
| PrintLine (s : string).

(** The messages of a type sent, and the timers armed, by a list of effects. *)
Definition sent_of (ty : string) (e : Effect) : option Message :=
  match e with SendIPC m => if str_eqb (mType m) ty then Some m else None | _ => None end.

Definition sent (ty : string) (es : list Effect) : list Message := omap (sent_of ty) es.

Definition armed (es : list Effect) : list Timer :=
  omap (fun e => match e with ArmTimer t => Some t | _ => None end) es.

Arguments sent : simpl never.
Arguments armed : simpl never.

(** [WorstOfState]. *)
Definition WorstOfState (a b : PTPState) : PTPState :=
  if str_eqb a PTP_NOTSET || str_eqb b PTP_NOTSET then PTP_NOTSET
  else if str_eqb a PTP_FREERUN || str_eqb b PTP_FREERUN then PTP_FREERUN
  else if str_eqb a PTP_HOLDOVER || str_eqb b PTP_HOLDOVER then PTP_HOLDOVER
  else PTP_LOCKED.

Definition worst_of_step (worst s : PTPState) : PTPState :=
  if str_eqb s PTP_NOTSET || str_eqb s PTP_UNKNOWN then worst
  else if str_eqb worst PTP_NOTSET then s
  else WorstOfState worst s.

(** [WorstOfPtpStates]. *)
Definition WorstOfPtpStates (states : list PTPState) : PTPState := foldl worst_of_step PTP_NOTSET states.

(** [emitOverallSyncStateIfChanged]: the new value of [*overallSyncState] and the message. *)
Definition emitOverallSyncStateIfChanged (overall clockState osClockState : PTPState) (profile : string) :
    PTPState * list Effect :=
  let next := WorstOfState clockState osClockState in
  if negb (str_eqb next overall) then
    (next, [SendIPC (message TypeSyncState profile "" (SyncStateValue (PtpStateToIPCState next)))])
  else (overall, []).

(** ** baseclock.go *)

Definition is_proc (name : EventSource) (d : Data) : bool := str_eqb (daProcessName d) name.

Definition new_data (name : EventSource) (withWindow : bool) : Data :=
  mkData name [] PTP_UNKNOWN "" (if withWindow then Some (Window.NewWindow WindowSize) else None).

(** [getData]: afterwards the holder has an entry for the source; the pointer the
    method returns is the first entry of that name. *)
Definition getData (name : EventSource) (withWindow : bool) (dh : list Data) : list Data :=
  match first_match (is_proc name) dh with
  | Some _ => dh
  | None => dh ++ [new_data name withWindow]
  end.

Definition find_data (name : EventSource) (dh : list Data) : option Data := first_match (is_proc name) dh.

(** The common prologue [d := GetData(ev.Source); d.AddEvent(ev); d.UpdateState()]. *)
Definition record_event (now : Z) (withWindow : bool) (ev : Event) (dh : list Data) : option (list Data) :=
  modify_first (is_proc (evSource ev)) (fun d => d ← AddEvent now ev d; Some (UpdateState d))
    (getData (evSource ev) withWindow dh).

Record BaseClock := mkBase {
  bsData : list Data;
  bsCfgName : string;
  bsOverall : PTPState;
  bsThreshold : PtpClockThreshold
}.

#[export] Instance BaseClock_fields : Fields BaseClock := fun b =>
  mkBase (bsData b) (bsCfgName b) (bsOverall b) (bsThreshold b).

Definition newBaseClock (cfgName : string) (threshold : PtpClockThreshold) : BaseClock :=
  mkBase [] cfgName PTP_NOTSET threshold.

Definition zero_threshold : PtpClockThreshold := mkThreshold 0 0 0.

(** [ConfigNames]: the config name and its ts2phc alias. *)
Definition ConfigNames (b : BaseClock) : list string :=
  let ts2phc := replace1 "ptp4l." "ts2phc." (bsCfgName b) in
  bsCfgName b :: (if negb (str_eqb ts2phc (bsCfgName b)) then [ts2phc] else []).

(** ** osclock.go *)

Record OSClockFilterConfig := mkFilterConfig {
  fcInSyncThreshold : f64;
  fcOutOfSyncThreshold : f64;
  fcSamples : Z
}.

Record OsClock := mkOsClock {
  osData : list Data;
  osState : PTPState;
  osE3State : PTPState;
  osIFace : string;
  osOffset : Z;
  osFilter : Hysteresis.HysteresisFilter;
  osFilteredState : PTPState;
  osFilterConfigured : bool
}.

#[export] Instance OsClock_fields : Fields OsClock := fun o =>
  mkOsClock (osData o) (osState o) (osE3State o) (osIFace o) (osOffset o) (osFilter o)
    (osFilteredState o) (osFilterConfigured o).

Definition ClockRealTime : string := "CLOCK_REALTIME".

(** The value [clockmgr.Init] builds. *)
Definition init_OsClock : OsClock :=
  mkOsClock [] PTP_FREERUN PTP_NOTSET ClockRealTime 0 Hysteresis.zero_filter "" false.

Definition ConfigureFilter (cfg : OSClockFilterConfig) (o : OsClock) : OsClock :=
  o <| osFilter := Hysteresis.Reset (Hysteresis.Config (fcInSyncThreshold cfg) (fcOutOfSyncThreshold cfg)
                     (fcSamples cfg) (fcSamples cfg) (osFilter o)) |>
    <| osFilteredState := PTP_NOTSET |> <| osFilterConfigured := true |>.

Definition OsClock_Reset (o : OsClock) : OsClock :=
  o <| osState := PTP_FREERUN |> <| osE3State := PTP_NOTSET |> <| osIFace := ClockRealTime |>
    <| osOffset := 0 |> <| osFilteredState := PTP_NOTSET |>
    <| osFilter := Hysteresis.Reset (osFilter o) |> <| osData := [] |>.

(** [updateState] of the OS clock: the filtered state it stores is also its result. *)
Definition OsClock_updateState (offset : f64) (rawState : PTPState) (o : OsClock) : OsClock :=
  if str_eqb rawState PTP_HOLDOVER then
    let o := if negb (str_eqb (osFilteredState o) PTP_HOLDOVER)
             then o <| osFilter := Hysteresis.Reset (osFilter o) |> else o in
    o <| osFilteredState := PTP_HOLDOVER |>
  else
    let '(f, (state, _)) := Hysteresis.Update offset (osFilter o) in
    o <| osFilter := f |>
      <| osFilteredState := match state with
                            | Hysteresis.HysteresisLow => PTP_LOCKED
                            | Hysteresis.HysteresisHigh => PTP_FREERUN
                            | Hysteresis.HysteresisUnknown => PTP_NOTSET
                            end |>.

(** The first CHRONYD detail is created without its offset, which [AddEvent] inserts
    itself; a nil window would panic. *)
Definition insert_first (source : EventSource) (first : bool) (offset : Z) (d : Data) : option Data :=
  if str_eqb source CHRONYD && first then
    match daWindow d with
    | Some w => w' ← Window.Insert (f64_of_Z offset) w; Some (d <| daWindow := Some w' |>)
    | None => None
    end
  else Some d.

(** The evaluation of a sample in [AddEvent]: the state stored with it. *)
Definition OsClock_evaluate (source : EventSource) (ptp : OffsetData) (o : OsClock) : OsClock * PTPState :=
  if str_eqb source PHC2SYS && osFilterConfigured o then
    let o := OsClock_updateState (f64_of_Z (odOffset ptp)) (odState ptp) o in (o, osFilteredState o)
  else (o, odState ptp).

(** The update through the pointer [GetData] returns in [AddEvent]. *)
Definition OsClock_record (now : Z) (ev : Event) (offset : Z) (state : PTPState) (d : Data) : option Data :=
  let first := (length (daDetails d) =? 0)%nat in
  d ← AddEvent now ev d;
  d ← insert_first (evSource ev) first offset d;
  let d := UpdateState d in
  Some (if str_eqb state PTP_NOTSET then d <| daState := PTP_NOTSET |> else d).

(** [AddEvent] of the OS clock: the new clock and whether the event was accepted. *)
Definition OsClock_AddEvent (now : Z) (ev : Event) (o : OsClock) : option (OsClock * bool) :=
  match evData ev with
  | Some (EOffset ptp) =>
      if negb (str_eqb (evSource ev) CHRONYD) && negb (str_eqb (evSource ev) PHC2SYS) then Some (o, false)
      else
        let o := o <| osIFace := evIFace ev |> <| osOffset := odOffset ptp |> in
        let '(o, state) := OsClock_evaluate (evSource ev) ptp o in
        let ev := ev <| evData := Some (EOffset (ptp <| odState := state |>)) |> in
        data ← modify_first (is_proc (evSource ev)) (OsClock_record now ev (odOffset ptp) state)
          (getData (evSource ev) (negb (str_eqb (evSource ev) PHC2SYS)) (osData o));
        let o := o <| osData := data |> in
        Some (if str_eqb state PTP_NOTSET then o else o <| osState := state |>, true)
  | _ => Some (o, false)
  end.

Definition DeriveOSClockState (e1 phc2sys : PTPState) : PTPState := WorstOfState e1 phc2sys.

(** [BaseClock.Reset] also resets the shared OS clock. *)
Definition BaseClock_Reset (b : BaseClock) (o : OsClock) : BaseClock * OsClock :=
  (b <| bsData := [] |> <| bsOverall := PTP_FREERUN |>, OsClock_Reset o).

Definition ProcessData (b : BaseClock) (o : OsClock) : list Data := bsData b ++ osData o.

(** [hasNonLeadingDPLLFault], which gm.go and tbc.go each have: the leading DPLL is
    locked and another one is not. *)
Fixpoint nonLeadingFault_loop (leading : string) (dh : list Data) : bool :=
  match dh with
  | [] => false
  | d :: dh' =>
      if str_eqb (daProcessName d) DPLL then
        match GetDataDetails leading d with
        | Some l =>
            if str_eqb (dtState l) PTP_LOCKED then
              existsb (fun dd => negb (str_eqb (dtIFace dd) leading) && negb (str_eqb (dtState dd) PTP_LOCKED))
                (daDetails d) || nonLeadingFault_loop leading dh'
            else false
        | None => false
        end
      else nonLeadingFault_loop leading dh'
  end.

Definition nonLeadingDPLLFault (leading : string) (dh : list Data) : bool :=
  if str_eqb leading LEADING_INTERFACE_UNKNOWN then false else nonLeadingFault_loop leading dh.

(** ** Invariants *)

(** One well-formed entry per source. *)
Definition holder_wf (dh : list Data) : Prop :=
  NoDup (daProcessName <$> dh) /\ Forall Stats.wf dh.

(** A well-formed entry of the OS clock: only PHC2SYS has no window. *)
Definition os_data_wf (d : Data) : Prop :=
  Stats.wf d /\ (daProcessName d <> PHC2SYS -> has_window d = true).

Definition os_wf (o : OsClock) : Prop :=
  NoDup (daProcessName <$> osData o) /\ Forall os_data_wf (osData o) /\ osState o <> PTP_NOTSET.

(** The offset samples of phc2sys, newest first, fed to a clock. *)
Definition phc2sys_sample (now offset : Z) (state : PTPState) : Event :=
  mkEvent PHC2SYS ClockRealTime "" "" now false false (Some (EOffset (mkOffsetData state offset false None))).

(** Feeding the samples [l] (time, offset, raw state; newest first) one by one. *)
Fixpoint os_feed (o : OsClock) (l : list (Z * Z * PTPState)) : option OsClock :=
  match l with
  | [] => Some o
  | (now, offset, state) :: l' =>
      o' ← os_feed o l';
      fst <$> OsClock_AddEvent now (phc2sys_sample now offset state) o'
  end.

Definition settled (h : Hysteresis.HysteresisState) : PTPState :=
  match h with
  | Hysteresis.HysteresisLow => PTP_LOCKED
  | Hysteresis.HysteresisHigh => PTP_FREERUN
  | Hysteresis.HysteresisUnknown => PTP_NOTSET
  end.

Definition sample_offset (x : Z * Z * PTPState) : f64 := f64_of_Z (snd (fst x)).

(** ** The state orders *)

Lemma WorstOfState_comm a b : WorstOfState a b = WorstOfState b a.
Proof.
  unfold WorstOfState.
  by rewrite (orb_comm (str_eqb a PTP_NOTSET)), (orb_comm (str_eqb a PTP_FREERUN)), (orb_comm (str_eqb a PTP_HOLDOVER)).
Qed.

Lemma WorstOfState_LOCKED_l s : real_state s -> WorstOfState PTP_LOCKED s = s.
Proof. by intros [->|[->| ->]]. Qed.

Lemma WorstOfState_range a b :
  WorstOfState a b = PTP_NOTSET \/ real_state (WorstOfState a b).
Proof. unfold WorstOfState, real_state. repeat case_match; tauto. Qed.

(** Severity order of the states, NOTSET worst: [WorstOfState] is its join. *)
Definition severity (s : PTPState) : Z :=
  if str_eqb s PTP_NOTSET then 3
  else if str_eqb s PTP_FREERUN then 2
  else if str_eqb s PTP_HOLDOVER then 1
  else 0.

Definition of_severity (z : Z) : PTPState :=
  if z =? 3 then PTP_NOTSET else if z =? 2 then PTP_FREERUN else if z =? 1 then PTP_HOLDOVER else PTP_LOCKED.

Lemma WorstOfState_join a b : WorstOfState a b = of_severity (Z.max (severity a) (severity b)).
Proof. unfold WorstOfState, severity. state_cases a; state_cases b; reflexivity. Qed.

Lemma WorstOfState_severity a b : severity (WorstOfState a b) = Z.max (severity a) (severity b).
Proof. unfold WorstOfState, severity. state_cases a; state_cases b; reflexivity. Qed.

Lemma WorstOfState_assoc a b c :
  WorstOfState a (WorstOfState b c) = WorstOfState (WorstOfState a b) c.
Proof.
  by rewrite (WorstOfState_join a), (WorstOfState_join (WorstOfState a b)), !WorstOfState_severity, Z.max_assoc.
Qed.

(** [WorstOfPtpStates] reports the worst real state, whatever the order. *)
Definition worst_real (states : list PTPState) : PTPState :=
  if bool_decide (PTP_FREERUN ∈ states) then PTP_FREERUN
  else if bool_decide (PTP_HOLDOVER ∈ states) then PTP_HOLDOVER
  else if bool_decide (PTP_LOCKED ∈ states) then PTP_LOCKED
  else PTP_NOTSET.

Lemma worst_of_fold states acc :
  Forall (fun s => ~ other_state s) states ->
  acc = PTP_NOTSET \/ real_state acc ->
  foldl worst_of_step acc states = worst_real (acc :: states).
Proof.
  intros HF. revert acc. induction HF as [|s states Hs HF IH]; intros acc Hacc; cbn [foldl].
  - unfold worst_real. by destruct Hacc as [->|[->|[->| ->]]].
  - rewrite IH; cycle 1.
    { unfold worst_of_step. repeat case_match; try done.
      - right. rewrite orb_false_iff, !str_eqb_neq in *. unfold real_state, other_state in *.
        destruct (ptp_state_cases s) as [?|[?|[?|[?|[?|?]]]]]; tauto.
      - apply WorstOfState_range. }
    unfold worst_real, worst_of_step, WorstOfState. rewrite !elem_cons_bool.
    destruct (ptp_state_cases s) as [->|[->|[->|[->|[->|?]]]]]; [..|done];
      destruct Hacc as [->|[->|[->| ->]]]; str_norm; cbn [negb andb orb]; str_norm; cbn [negb andb orb];
      repeat case_bool_decide; done.
Qed.

Lemma WorstOfPtpStates_spec states :
  Forall (fun s => ~ other_state s) states -> WorstOfPtpStates states = worst_real states.
Proof.
  intros HF. unfold WorstOfPtpStates. rewrite worst_of_fold; [|done|by left].
  unfold worst_real. by rewrite !elem_cons_bool.
Qed.

Lemma sent_app ty es es' : sent ty (es ++ es') = sent ty es ++ sent ty es'.
Proof. apply omap_app. Qed.

Lemma armed_app es es' : armed (es ++ es') = armed es ++ armed es'.
Proof. apply omap_app. Qed.

(** Afterwards the overall state is the worst of the two, and a message went out
    exactly when it changed. *)
Lemma emitOverall_spec overall s os profile :
  emitOverallSyncStateIfChanged overall s os profile =
    (WorstOfState s os,
     if str_eqb (WorstOfState s os) overall then []
     else [SendIPC (message TypeSyncState profile "" (SyncStateValue (PtpStateToIPCState (WorstOfState s os))))]).
Proof.
  unfold emitOverallSyncStateIfChanged. destruct (str_eqb _ overall) eqn:E; cbn; [|done].
  by apply str_eqb_eq in E as ->.
Qed.

(** ** The data holder *)

Lemma new_data_wf name w : Stats.wf (new_data name w).
Proof.
  split; [constructor|]. destruct w; cbn; [|done]. split; [by apply Window.NewWindow_wf|done].
Qed.

Lemma holder_getData_wf name w dh : holder_wf dh -> holder_wf (getData name w dh).
Proof.
  intros [HN HF]. unfold getData. destruct (first_match (is_proc name) dh) eqn:E; [done|].
  split.
  - rewrite fmap_app. apply list.NoDup_app. split; [done|]. split; [|apply list.NoDup_singleton].
    intros n Hn Hn'%list_elem_of_singleton. apply list_elem_of_fmap in Hn as (d & Hn & Hd).
    rewrite first_match_None, Forall_forall in E. specialize (E d Hd).
    unfold is_proc in E. apply str_eqb_neq in E. cbn in Hn'. congruence.
  - apply Forall_app. split; [done|]. apply Forall_singleton, new_data_wf.
Qed.

Lemma getData_has name w dh : exists d, find_data name (getData name w dh) = Some d.
Proof.
  unfold getData, find_data. destruct (first_match (is_proc name) dh) eqn:E; [by eexists|].
  rewrite first_match_app, E. cbn. unfold is_proc; cbn. rewrite str_eqb_refl. by eexists.
Qed.

(** A partial update of the first match that succeeds on the entries of an invariant. *)
Lemma modify_first_inv (P : Data -> Prop) (p : Data -> bool) (f : Data -> option Data) dh :
  Forall P dh ->
  (forall d, p d = true -> P d -> exists d', f d = Some d' /\ P d' /\ daProcessName d' = daProcessName d) ->
  exists dh', modify_first p f dh = Some dh' /\ Forall P dh' /\ daProcessName <$> dh' = daProcessName <$> dh.
Proof.
  intros HF Hf. induction HF as [|d dh Hd HF IH]; cbn; [by eexists|]. destruct (p d) eqn:E.
  - destruct (Hf d E Hd) as (d' & -> & Hw & Hn). cbn. eexists. split; [done|].
    split; [by constructor|]. by rewrite <- Hn.
  - destruct IH as (dh' & -> & Hw & Hn). cbn. eexists. split; [done|].
    split; [by constructor|]. cbn. by rewrite Hn.
Qed.

#[export] Instance data_wf_dec d : Decision (Stats.wf d).
Proof. unfold Stats.wf, Window.wf. destruct (daWindow d); apply _. Defined.

#[export] Instance holder_wf_dec dh : Decision (holder_wf dh).
Proof. unfold holder_wf. apply _. Defined.

(** A concrete data holder is well formed. *)
Ltac concrete_wf := apply (bool_decide_eq_true_1 _); vm_compute; reflexivity.

Lemma UpdateState_wf d : Stats.wf d -> Stats.wf (UpdateState d).
Proof. done. Qed.

Lemma record_event_total now w ev dh :
  holder_wf dh -> exists dh', record_event now w ev dh = Some dh' /\ holder_wf dh'.
Proof.
  intros Hwf. apply (holder_getData_wf (evSource ev) w) in Hwf as [HN HF]. unfold record_event.
  destruct (modify_first_inv Stats.wf (is_proc (evSource ev))
    (fun d => d ← AddEvent now ev d; Some (UpdateState d)) _ HF) as (dh' & E & Hw & Hn); [|].
  - intros d _ Hd. destruct (AddEvent_cases now ev d Hd) as (d' & -> & Hd' & Hn & _). cbn.
    eexists. split; [done|]. by split; [apply UpdateState_wf|].
  - exists dh'. split; [done|]. split; [by rewrite Hn|done].
Qed.

#[export] Hint Resolve holder_getData_wf new_data_wf UpdateState_wf : core.

Lemma modify_first_forall {A} (Q : A -> Prop) (p : A -> bool) (f : A -> option A) l l' :
  (forall x y, p x = true -> Q x -> f x = Some y -> Q y) -> Forall Q l ->
  modify_first p f l = Some l' -> Forall Q l'.
Proof.
  intros Hf HQ. revert l'. induction HQ as [|x l Hx HQ IH]; intros l'; cbn; [by intros [= <-]|].
  destruct (p x) eqn:Ep.
  - destruct (f x) as [y|] eqn:Ey; cbn; [|done]. intros [= <-]. constructor; [by eapply Hf|done].
  - destruct (modify_first p f l) as [l0|]; cbn; [|done]. intros [= <-]. constructor; [done|by apply IH].
Qed.

Lemma modify_first_skip {A} (p : A -> bool) (f : A -> option A) l k :
  first_match p l = None -> modify_first p f (l ++ k) = app l <$> modify_first p f k.
Proof.
  induction l as [|x l IH]; cbn; [by destruct (modify_first p f k)|].
  destruct (p x); [done|]. intros H. rewrite (IH H). by destruct (modify_first p f k).
Qed.

(** What holds of every entry after an event, from what the event does to its entry. *)
Lemma record_event_forall (P Q : Data -> Prop) now w ev dh dh' :
  (forall d, Q d -> P d) -> P (new_data (evSource ev) w) ->
  (forall d d', daProcessName d = evSource ev -> P d -> AddEvent now ev d = Some d' -> Q (UpdateState d')) ->
  Forall Q dh -> record_event now w ev dh = Some dh' -> Forall Q dh'.
Proof.
  intros HQP Hnew Hadd HQ. unfold record_event, getData.
  destruct (first_match (is_proc (evSource ev)) dh) eqn:E.
  - apply modify_first_forall; [|done]. intros x y Hp%str_eqb_eq Hx.
    destruct (AddEvent now ev x) eqn:EA; cbn; [|done]. intros [= <-]. eapply Hadd; eauto.
  - rewrite modify_first_skip by done.
    assert (is_proc (evSource ev) (new_data (evSource ev) w) = true) as Hp by apply str_eqb_refl.
    generalize dependent (new_data (evSource ev) w). intros nd Hnew Hp. cbn [modify_first]. rewrite Hp.
    destruct (AddEvent now ev nd) eqn:EA; cbn; [|done]. intros [= <-]. apply Forall_app. split; [done|].
    apply str_eqb_eq in Hp. apply Forall_singleton. by eapply Hadd.
Qed.

(** The details after an event: at least one, each an old one or showing the event's state. *)
Lemma AddEvent_details (R : DataDetails -> Prop) now ev d d' :
  Stats.wf d -> AddEvent now ev d = Some d' -> Forall R (daDetails d) ->
  (forall dd, dtState dd = spState (sample_of (evData ev)) -> R dd) ->
  Forall R (daDetails d') /\ daDetails d' <> [].
Proof.
  intros Hwf HA HR Hev. destruct (AddEvent_cases now ev d Hwf) as (d'' & HA' & _ & _ & HC).
  assert (d'' = d') as -> by congruence. unfold GetDataDetails in HC.
  destruct (first_match _ (daDetails d)) as [dd|] eqn:E.
  - apply first_match_Some in E as [_ Hin].
    assert (daDetails d <> []) as Hne by (intros Hd; rewrite Hd in Hin; by apply elem_of_nil in Hin).
    destruct (_ <=? _); [|by subst]. rewrite HC.
    destruct (daDetails d) as [|x l]; [done|]. split; [|cbn; by destruct (same_iface _ x)].
    pose proof (modify_first_pure (same_iface (evIFace ev)) (update_detail now ev) (x :: l)) as Hm.
    eapply modify_first_forall; [|exact HR|exact Hm]. intros a b _ _ [= <-]. apply Hev, update_detail_state.
  - rewrite HC. split; [|by destruct (daDetails d)]. apply Forall_app. split; [done|].
    apply Forall_singleton. by apply Hev.
Qed.

Lemma record_event_data now w ev dh dh' :
  holder_wf dh -> record_event now w ev dh = Some dh' -> holder_wf dh'.
Proof. intros Hwf E. destruct (record_event_total now w ev dh Hwf) as (x & Ex & Hx). congruence. Qed.

(** ** The OS clock *)

Lemma insert_window_has v d d' : insert_window v d = Some d' -> has_window d' = has_window d.
Proof.
  unfold insert_window, has_window. destruct (daWindow d) as [w|] eqn:E.
  - destruct (Window.Insert v w); intros [= <-]. done.
  - intros [= <-]. by rewrite E.
Qed.

Lemma AddEvent_window now ev d d' : AddEvent now ev d = Some d' -> has_window d' = has_window d.
Proof.
  unfold AddEvent. case_match; [|by intros [= <-]]. case_match; [|by intros [= <-]].
  rewrite modify_first_pure. cbn. case_match; [|by intros [= <-]].
  intros ->%insert_window_has. done.
Qed.

Lemma os_record_step now ev offset state d :
  os_data_wf d -> is_proc (evSource ev) d = true ->
  exists d', OsClock_record now ev offset state d = Some d' /\ os_data_wf d' /\ daProcessName d' = daProcessName d.
Proof.
  intros [Hwf Hwin] Hp%str_eqb_eq. destruct (AddEvent_cases now ev d Hwf) as (d1 & HA & Hwf1 & Hn & _).
  pose proof (AddEvent_window _ _ _ _ HA) as HW. unfold OsClock_record. rewrite HA. cbn [mbind option_bind].
  set (first := (length (daDetails d) =? 0)%nat).
  assert (exists d2, insert_first (evSource ev) first offset d1 = Some d2 /\ os_data_wf d2 /\
    daProcessName d2 = daProcessName d1) as (d2 & -> & [Hwf2 Hwin2] & Hn2).
  { unfold insert_first. destruct (str_eqb (evSource ev) CHRONYD && first) eqn:E; cycle 1.
    { exists d1. split; [done|]. split; [|done]. split; [done|]. rewrite Hn, HW. done. }
    apply andb_true_iff in E as [E%str_eqb_eq _].
    assert (has_window d1 = true) as HT by (rewrite HW; apply Hwin; rewrite Hp, E; done).
    destruct (insert_window_wf (f64_of_Z offset) d1 Hwf1) as (d2 & HI & Hwf2 & _ & Hn2 & _).
    pose proof (insert_window_has _ _ _ HI) as HW2. rewrite HT in HW2.
    unfold insert_window, has_window in HI, HT. destruct (daWindow d1) as [w|]; [|done].
    exists d2. split; [done|]. split; [|done]. by split. }
  cbn. eexists. split; [done|]. split; [|case_match; cbn; congruence].
  case_match; (split; [exact Hwf2|]); cbn; intros; unfold has_window; cbn; by apply Hwin2.
Qed.

Lemma OsClock_updateState_keeps offset raw o :
  osState (OsClock_updateState offset raw o) = osState o /\
  osFilterConfigured (OsClock_updateState offset raw o) = osFilterConfigured o.
Proof. unfold OsClock_updateState. repeat case_match; done. Qed.

Lemma OsClock_evaluate_config source ptp o o' st :
  OsClock_evaluate source ptp o = (o', st) ->
  osData o' = osData o /\ osState o' = osState o /\ osFilterConfigured o' = osFilterConfigured o.
Proof.
  unfold OsClock_evaluate, OsClock_updateState. intros H.
  repeat (case_match; simplify_eq/=; try done).
Qed.

Lemma os_getData_wf source o :
  NoDup (daProcessName <$> osData o) -> Forall os_data_wf (osData o) ->
  NoDup (daProcessName <$> getData source (negb (str_eqb source PHC2SYS)) (osData o)) /\
  Forall os_data_wf (getData source (negb (str_eqb source PHC2SYS)) (osData o)).
Proof.
  intros HN HF. split.
  - apply (holder_getData_wf source (negb (str_eqb source PHC2SYS)) (osData o)). split; [done|].
    eapply Forall_impl; [exact HF|]. by intros ? [].
  - unfold getData. case_match; [done|]. apply Forall_app. split; [done|]. apply Forall_singleton.
    split; [apply new_data_wf|]. cbn. intros Hne. by rewrite str_eqb_ne.
Qed.

(** On a well-formed OS clock [AddEvent] never panics and keeps it well formed; in
    particular the disciplining state never becomes NOTSET. *)
Lemma OsClock_AddEvent_total now ev o :
  os_wf o -> exists o' b, OsClock_AddEvent now ev o = Some (o', b) /\ os_wf o'.
Proof.
  intros (HN & HF & HS). unfold OsClock_AddEvent.
  destruct (evData ev) as [[| ptp | | | | | | | | |]|]; try by eexists _, _.
  case_match; [by eexists _, _|].
  destruct (OsClock_evaluate _ _ _) as [o' st] eqn:E.
  apply OsClock_evaluate_config in E as (ED & ES & _). cbn in ED, ES.
  cbn [evSource upd]. rewrite ED. destruct (os_getData_wf (evSource ev) o HN HF) as [HN' HF'].
  destruct (modify_first_inv os_data_wf (is_proc (evSource ev))
    (OsClock_record now (ev <| evData := Some (EOffset (ptp <| odState := st |>)) |>) (odOffset ptp) st)
    _ HF') as (dh & Hm & HF'' & Hn).
  { intros d Hp Hd. by apply os_record_step. }
  cbn in Hm |- *. rewrite Hm. cbn. eexists _, true. split; [done|].
  destruct (str_eqb st PTP_NOTSET) eqn:En; (split; [cbn; by rewrite Hn|]); (split; [done|]); cbn.
  - by rewrite ES.
  - by apply str_eqb_neq.
Qed.

Lemma OsClock_updateState_sample offset raw o :
  raw <> PTP_HOLDOVER ->
  osFilter (OsClock_updateState offset raw o) = fst (Hysteresis.Update offset (osFilter o)) /\
  osFilteredState (OsClock_updateState offset raw o) =
    settled (Hysteresis.State (fst (Hysteresis.Update offset (osFilter o)))).
Proof.
  intros Hr. unfold OsClock_updateState. rewrite (str_eqb_ne _ _ Hr).
  destruct (Hysteresis.Update offset (osFilter o)) as [f [h ch]] eqn:EU.
  split; [done|]. cbn. unfold Hysteresis.Update in EU. injection EU as <- <- _. done.
Qed.

(** One sample of a configured clock that is not coasting. *)
Lemma os_sample_step now offset state o :
  os_wf o -> osFilterConfigured o = true -> state <> PTP_HOLDOVER ->
  exists o', OsClock_AddEvent now (phc2sys_sample now offset state) o = Some (o', true) /\ os_wf o' /\
    osFilterConfigured o' = true /\
    osFilter o' = fst (Hysteresis.Update (f64_of_Z offset) (osFilter o)) /\
    osFilteredState o' = settled (Hysteresis.State (osFilter o')) /\
    osState o' = (if str_eqb (osFilteredState o') PTP_NOTSET then osState o else osFilteredState o').
Proof.
  intros Hwf Hc Hst.
  destruct (OsClock_AddEvent_total now (phc2sys_sample now offset state) o Hwf) as (o' & b & E & Hwf').
  rewrite E. revert E. unfold OsClock_AddEvent, phc2sys_sample. cbn [evData evSource].
  change (str_eqb PHC2SYS CHRONYD) with false. change (str_eqb PHC2SYS PHC2SYS) with true.
  cbn [negb andb]. unfold OsClock_evaluate. change (str_eqb PHC2SYS PHC2SYS) with true.
  cbv zeta. set (oi := o <| osIFace := _ |> <| osOffset := _ |>).
  assert (osFilterConfigured oi = true /\ osFilter oi = osFilter o /\ osState oi = osState o) as (Hci & Hfi & Hsi)
    by (by subst oi).
  clearbody oi. rewrite Hci, <- Hfi, <- Hsi. cbn [andb odOffset odState].
  destruct (OsClock_updateState_sample (f64_of_Z offset) state oi Hst) as [H1 H2].
  pose proof (OsClock_updateState_keeps (f64_of_Z offset) state oi) as [H3 H4].
  generalize dependent (OsClock_updateState (f64_of_Z offset) state oi). intros o1 H1 H2 H3 H4.
  destruct (modify_first _ _ _) as [dh|]; [|done]. cbn [mbind option_bind].
  intros [= <- <-]. eexists. split; [done|]. split; [done|].
  case_match eqn:En; cbn in *; rewrite ?En, ?H3, ?H4, ?H1, ?H2, ?Hci; done.
Qed.

(** The disciplining state is the debounced history: after any samples the filter of
    a freshly configured clock has processed, the filtered state is the one the
    specification of the hysteresis prescribes, and the published state is the same
    once it has settled, the initial one before. *)
Lemma os_feed_spec cfg o l :
  os_wf o -> Forall (fun x => snd x <> PTP_HOLDOVER) l -> Z.of_nat (length l) < 2 ^ 63 ->
  let o0 := ConfigureFilter cfg o in
  exists o', os_feed o0 l = Some o' /\ os_wf o' /\ osFilterConfigured o' = true /\
    osFilter o' = Hysteresis.feed (osFilter o0) (sample_offset <$> l) /\
    osFilteredState o' = settled (Hysteresis.spec_state (osFilter o0) (sample_offset <$> l)) /\
    osState o' = (if str_eqb (osFilteredState o') PTP_NOTSET then osState o else osFilteredState o').
Proof.
  intros Hwf HF Hlen o0.
  assert (forall k, Z.of_nat (length k) < 2 ^ 63 ->
    Hysteresis.State (Hysteresis.feed (osFilter o0) k) = Hysteresis.spec_state (osFilter o0) k) as Hspec
    by (intros; by apply Hysteresis.feed_state).
  induction HF as [|[[now offset] state] l Hst HF IH]; [by exists o0|].
  cbn [length] in Hlen. destruct IH as (o1 & E1 & Hwf1 & Hc1 & Hf1 & Hfs1 & Hs1); [lia|].
  destruct (os_sample_step now offset state o1 Hwf1 Hc1 Hst) as (o2 & E2 & Hwf2 & Hc2 & Hf2 & Hfs2 & Hs2).
  exists o2. cbn [os_feed]. rewrite E1. cbn [mbind option_bind]. rewrite E2. split; [done|].
  split; [done|]. split; [done|]. rewrite fmap_cons. split; [by rewrite Hf2, Hf1|].
  assert (osFilteredState o2 = settled (Hysteresis.spec_state (osFilter o0)
            (sample_offset (now, offset, state) :: (sample_offset <$> l)))) as Hfs.
  { rewrite <- Hspec by (cbn [length]; rewrite length_fmap; lia). by rewrite Hfs2, Hf2, Hf1. }
  split; [done|]. rewrite Hs2. destruct (str_eqb (osFilteredState o2) PTP_NOTSET) eqn:En; [|done].
  apply str_eqb_eq in En. rewrite Hs1. rewrite Hfs in En. cbn [Hysteresis.spec_state] in En.
  destruct (_ <=? _) in En; [done|]. destruct (_ <=? _) in En; [done|].
  rewrite Hfs1, En. by rewrite str_eqb_refl.
Qed.

Lemma worst_real_perm l k : l ≡ₚ k -> worst_real l = worst_real k.
Proof.
  intros H. unfold worst_real. by rewrite !(bool_decide_ext _ _ (elem_of_Permutation_proper _ _ _ H)).
Qed.

(** Combining states.  The combined state of several clocks is the worst of the real
    states among them, FREERUN before HOLDOVER before LOCKED, and NOTSET without one; it does
    not depend on the order in which the map of clocks is visited; and combining two real
    states is the join of that order. *)
Theorem states_combine_to_worst states states' :
  Forall (fun s => ~ other_state s) states -> states ≡ₚ states' ->
  WorstOfPtpStates states' = worst_real states /\
  (forall a b, WorstOfState a b = of_severity (Z.max (severity a) (severity b))).
Proof.
  intros HF Hp. split; [|exact WorstOfState_join].
  rewrite WorstOfPtpStates_spec by (by rewrite <- Hp). by rewrite (worst_real_perm _ _ Hp).
Qed.

Lemma states_combine_to_worst_witness : WorstOfPtpStates [PTP_NOTSET; PTP_HOLDOVER; PTP_LOCKED] = PTP_HOLDOVER.
Proof.
  apply (states_combine_to_worst [PTP_LOCKED; PTP_NOTSET; PTP_HOLDOVER] [PTP_NOTSET; PTP_HOLDOVER; PTP_LOCKED]).
  - repeat constructor; unfold other_state; vm_compute; intuition congruence.
  - apply (bool_decide_unpack _). vm_compute. exact I.
Defined.

(** The OS clock debounces phc2sys.  Once its filter is configured, any sequence of
    phc2sys samples other than HOLDOVER ones is accepted without a panic; the filtered state
    is LOCKED or FREERUN according to the newest run of samples that is long enough, and the
    disciplining state follows it, keeping its value while the filter is undecided. *)
Theorem os_clock_debounces cfg o l :
  os_wf o -> Forall (fun x => snd x <> PTP_HOLDOVER) l -> Z.of_nat (length l) < 2 ^ 63 ->
  let o0 := ConfigureFilter cfg o in
  let verdict := settled (Hysteresis.spec_state (osFilter o0) (sample_offset <$> l)) in
  exists o', os_feed o0 l = Some o' /\ os_wf o' /\ osFilteredState o' = verdict /\
    osState o' = (if str_eqb verdict PTP_NOTSET then osState o else verdict).
Proof.
  intros Hwf HF Hl o0 verdict. destruct (os_feed_spec cfg o l Hwf HF Hl) as (o' & E & Hwf' & _ & _ & Hf & Hs).
  exists o'. split; [done|]. split; [done|]. split; [done|]. by rewrite Hs, Hf.
Qed.

Lemma os_clock_debounces_witness :
  exists o', os_feed (ConfigureFilter (mkFilterConfig (f64_of_Z 10) (f64_of_Z 20) 2) init_OsClock)
      [(2, 3, PTP_LOCKED); (1, -4, PTP_LOCKED)] = Some o' /\ osState o' = PTP_LOCKED.
Proof.
  destruct (os_clock_debounces (mkFilterConfig (f64_of_Z 10) (f64_of_Z 20) 2) init_OsClock
    [(2, 3, PTP_LOCKED); (1, -4, PTP_LOCKED)]) as (o' & E & _ & _ & Hs).
  - split; [constructor|]. split; [constructor|discriminate].
  - repeat constructor; discriminate.
  - reflexivity.
  - exists o'. split; [exact E|]. rewrite Hs. vm_compute. reflexivity.
Defined.
