(* ===== verification/Method.v ===== *)
(** * The monad of clock methods

    A method of a clock reads and assigns the fields of its receiver, performs
    [Effect]s and may panic.  [M S A] threads the receiver, collects the effects in
    program order and stops at a panic; stdpp's monad notation [x ← m; k] and
    [m ;; k] is the Go statement sequence.  [wp] is the weakest precondition for
    total correctness: the method returns, and the postcondition holds of its result,
    the new receiver and its effects. *)

From S2P Require Import Prelude ClockBase.

Definition M (S A : Type) : Type := S -> option (A * S * list Effect).

#[export] Instance M_ret {S} : MRet (M S) := fun A a s => Some (a, s, []).

#[export] Instance M_bind {S} : MBind (M S) := fun A B k m s =>
  match m s with
  | Some (a, s', e) =>
      match k a s' with
      | Some (b, s'', e') => Some (b, s'', e ++ e')
      | None => None
      end
  | None => None
  end.

Definition get {S} : M S S := fun s => Some (s, s, []).
Definition gets {S A} (f : S -> A) : M S A := fun s => Some (f s, s, []).
Definition modify {S} (f : S -> S) : M S unit := fun s => Some (tt, f s, []).
Definition emit {S} (e : Effect) : M S unit := fun s => Some (tt, s, [e]).
Definition emits {S} (es : list Effect) : M S unit := fun s => Some (tt, s, es).
Definition panic {S A} : M S A := fun _ => None.
Definition lift {S A} (o : option A) : M S A := match o with Some a => mret a | None => panic end.
Definition when {S} (b : bool) (m : M S unit) : M S unit := if b then m else mret tt.

(** A method of an embedded struct, on the field [proj] of the receiver. *)
Definition zoom {S T A} (proj : S -> T) (put : T -> S -> S) (m : M T A) : M S A := fun s =>
  match m (proj s) with
  | Some (a, t, e) => Some (a, put t s, e)
  | None => None
  end.

Definition wp {S A} (m : M S A) (s : S) (Q : A -> S -> list Effect -> Prop) : Prop :=
  exists a s' e, m s = Some (a, s', e) /\ Q a s' e.

Section rules.
  Context {S A B : Type}.
  Implicit Types (s : S) (Q : A -> S -> list Effect -> Prop).

Lemma wp_ret (a : A) s Q : Q a s [] -> wp (mret a) s Q.
Proof. intros. by exists a, s, []. Qed.

Lemma wp_bind (m : M S B) (k : B -> M S A) s Q :
  wp m s (fun b s' e => wp (k b) s' (fun a s'' e' => Q a s'' (e ++ e'))) -> wp (b ← m; k b) s Q.
Proof.
  intros (b & s' & e & Hm & a & s'' & e' & Hk & HQ).
  exists a, s'', (e ++ e'). split; [|done]. unfold mbind, M_bind. by rewrite Hm, Hk.
Qed.

(** A panic of a part is one of the whole. *)
Lemma bind_none_at (m : M S B) (k : B -> M S A) s b s' e :
  m s = Some (b, s', e) -> k b s' = None -> (b ← m; k b) s = None.
Proof. intros Hm Hk. unfold mbind, M_bind. by rewrite Hm, Hk. Qed.

Lemma bind_none (m : M S B) (k : B -> M S A) s :
  m s = None \/ (forall b s', k b s' = None) -> (b ← m; k b) s = None.
Proof.
  unfold mbind, M_bind. intros [->|Hk]; [done|]. destruct (m s) as [[[b s'] e]|]; [|done]. by rewrite Hk.
Qed.

Lemma wp_mono (m : M S A) s Q Q' :
  wp m s Q -> (forall a s' e, Q a s' e -> Q' a s' e) -> wp m s Q'.
Proof. intros (a & s' & e & Hm & HQ) H. exists a, s', e. by eauto. Qed.

Lemma wp_and (m : M S A) s Q Q' : wp m s Q -> wp m s Q' -> wp m s (fun a s' e => Q a s' e /\ Q' a s' e).
Proof.
  intros (a & s' & e & Hm & HQ) (a' & t & e' & Hm' & HQ'). exists a, s', e.
  assert ((a', t, e') = (a, s', e)) as [= -> -> ->] by congruence. done.
Qed.

Lemma wp_elim (m : M S A) s Q a s' e : wp m s Q -> m s = Some (a, s', e) -> Q a s' e.
Proof. intros (a' & t & e' & Hm & HQ) E. assert ((a', t, e') = (a, s', e)) as [= -> -> ->] by congruence. done. Qed.
End rules.

Section prim_rules.
  Context {S A : Type}.
  Implicit Types (s : S).

Lemma wp_get s Q : Q s s [] -> wp get s Q.
Proof. intros. by exists s, s, []. Qed.

Lemma wp_gets (f : S -> A) s Q : Q (f s) s [] -> wp (gets f) s Q.
Proof. intros. by exists (f s), s, []. Qed.

Lemma wp_modify (f : S -> S) s Q : Q tt (f s) [] -> wp (modify f) s Q.
Proof. intros. by exists tt, (f s), []. Qed.

Lemma wp_emit x s Q : Q tt s [x] -> wp (emit x) s Q.
Proof. intros. by exists tt, s, [x]. Qed.

Lemma wp_emits x s Q : Q tt s x -> wp (emits x) s Q.
Proof. intros. by exists tt, s, x. Qed.

Lemma wp_lift (o : option A) a s Q : o = Some a -> Q a s [] -> wp (lift o) s Q.
Proof. intros ->. by apply wp_ret. Qed.

Lemma wp_when (b : bool) (m : M S unit) s Q :
  (if b then wp m s Q else Q tt s []) -> wp (when b m) s Q.
Proof. destruct b; [done|]. by apply wp_ret. Qed.

Lemma wp_if (b : bool) (m m' : M S A) s Q :
  (if b then wp m s Q else wp m' s Q) -> wp (if b then m else m') s Q.
Proof. by destruct b. Qed.
End prim_rules.

(** One symbolic execution step of a method. *)
Ltac wp_step :=
  lazymatch goal with
  | |- wp (mret _) _ _ => apply wp_ret
  | |- wp (mbind _ _) _ _ => apply wp_bind
  | |- wp get _ _ => apply wp_get
  | |- wp (gets _) _ _ => apply wp_gets
  | |- wp (modify _) _ _ => apply wp_modify
  | |- wp (emit _) _ _ => apply wp_emit
  | |- wp (emits _) _ _ => apply wp_emits
  | |- wp (when _ _) _ _ => apply wp_when
  | |- wp (match ?x with _ => _ end) _ _ => lazymatch x with (_, _) => cbv beta iota end
  | |- wp (let _ := _ in _) _ _ => cbv zeta
  end.

Ltac wp_run := repeat (wp_step; cbv beta).
