(* ===== verification/BC.v ===== *)
(** * pkg/clock/bc.go: the boundary and ordinary clock

    The clock follows the ptp4l offset of its slave port.  Its methods are computations
    of the monad of Method.v; the state of the shared OS clock, which they only
    read, is the argument [os].  The holdover timer is a goroutine: arming it is the
    effect [ArmTimer], its event comes back through the event loop, and the second
    half of the file gives the interleavings of the loop, the clock and the timers as
    a step relation. *)

From S2P Require Import Prelude Float64 Utils Strconv Protocol Ipc Event Stats ClockBase Method.

Record BCClock := mkBC {
  bcBase : BaseClock;
  bcClockType : ClockType;
  bcIface : string;
  bcSyncState : PTPState;
  bcClockClass : Z;
  (** the channel, identified by the generation of the timer that listens on it *)
  bcHoldoverCancel : option Z;
  bcHoldoverGen : Z
}.

#[export] Instance BCClock_fields : Fields BCClock := fun c =>
  mkBC (bcBase c) (bcClockType c) (bcIface c) (bcSyncState c) (bcClockClass c) (bcHoldoverCancel c) (bcHoldoverGen c).

Module BC.

Definition NewBC (cfgName : string) (isOC : bool) (threshold : PtpClockThreshold) : BCClock :=
  mkBC (newBaseClock cfgName threshold) (if isOC then OC_type else BC_type) "" PTP_NOTSET 0 None 0.

Definition cfgName (c : BCClock) : string := bsCfgName (bcBase c).
Definition threshold (c : BCClock) : PtpClockThreshold := bsThreshold (bcBase c).

Definition ClockType_ (c : BCClock) : ClockType :=
  if str_eqb (bcClockType c) ClockUnset then BC_type else bcClockType c.

Definition GetState (c : BCClock) : PTPState := bcSyncState c.
Definition ClockClass (c : BCClock) : Z := bcClockClass c.

Definition currentSyncState (c : BCClock) : SyncState :=
  zero_SyncState <| ssState := bcSyncState c |> <| ssClockClass := bcClockClass c |>
    <| ssLeadingIFace := if negb (str_eqb (bcIface c) "") then bcIface c else LEADING_INTERFACE_UNKNOWN |>.

Definition isOffsetInRange (offset maxOffset minOffset : Z) : bool := (offset <? maxOffset) && (minOffset <? offset).

(** The dereference of a nil DPLL offset panics. *)
Definition ptpOffset (ev : Event) : option (Z * bool) :=
  match evData ev with
  | Some (EOffset d) => Some (odOffset d, true)
  | Some (EDPLL d) => o ← ddOffset d; Some (o, true)
  | _ => Some (0, false)
  end.

Definition emitClockClass (clockClass : Z) : M BCClock unit :=
  c ← get;
  emit (SendIPC (message TypeClockClass (cfgName c) (bcIface c) (ClockClassValue (uint8 clockClass)))).

Definition updateClockClass (clockClass : Z) : M BCClock unit :=
  c ← get;
  if clockClass =? bcClockClass c then mret tt
  else
    modify (fun c => c <| bcClockClass := clockClass |>);;
    when (negb (str_eqb (bcIface c) "")) (emitClockClass clockClass).

(** [emitOverallSyncStateIfChanged(c.sendIPC, &c.overallSyncState, c.syncState, ...)]. *)
Definition reconcile (os : PTPState) : M BCClock unit :=
  c ← get;
  let '(overall, es) := emitOverallSyncStateIfChanged (bsOverall (bcBase c)) (bcSyncState c) os (cfgName c) in
  modify (fun c => c <| bcBase := (bcBase c) <| bsOverall := overall |> |>);;
  emits es.

Definition onStateChanged (os prev : PTPState) (iface : string) : M BCClock unit :=
  c ← get;
  when (negb (str_eqb (bcSyncState c) prev))
    (emit (SendIPC (message TypePTPState (cfgName c) iface (StateValue (PtpStateToIPCState (bcSyncState c)) 0))));;
  reconcile os.

Definition SystemClockUpdate (os : PTPState) : M BCClock unit := reconcile os.

Definition cancelHoldoverTimer : M BCClock unit :=
  c ← get;
  match bcHoldoverCancel c with
  | Some g =>
      emit (CloseTimer (cfgName c) g);;
      modify (fun c => c <| bcHoldoverCancel := None |> <| bcHoldoverGen := uint64 (bcHoldoverGen c + 1) |>)
  | None => mret tt
  end.

(** [time.Duration(c.threshold.HoldOverTimeout) * time.Second], in nanoseconds. *)
Definition timeout (c : BCClock) : Z := int64 (HoldOverTimeout (threshold c) * 1000000000).

Definition armHoldoverTimer : M BCClock unit :=
  cancelHoldoverTimer;;
  modify (fun c => c <| bcHoldoverGen := uint64 (bcHoldoverGen c + 1) |>);;
  modify (fun c => c <| bcHoldoverCancel := Some (bcHoldoverGen c) |>);;
  c ← get;
  emit (ArmTimer (mkTimer (cfgName c) (bcIface c) (ClockType_ c) (bcHoldoverGen c) (timeout c))).

Definition handleHoldoverExpired (os : PTPState) (gen : Z) : M BCClock unit :=
  c ← get;
  if negb (str_eqb (bcSyncState c) PTP_HOLDOVER) || negb (gen =? bcHoldoverGen c) then mret tt
  else
    modify (fun c => c <| bcSyncState := PTP_FREERUN |> <| bcHoldoverCancel := None |>);;
    onStateChanged os (bcSyncState c) (bcIface c).

(** The type switch on the payload: [None] is its default branch. *)
Definition source_lost (ev : Event) : option bool :=
  match evData ev with
  | Some (EOffset d) => Some (odSourceLost d)
  | Some (EState d) => Some (sdSourceLost d)
  | Some (EDPLL d) => Some (ddSourceLost d)
  | Some (ESyncE _) => Some false
  | _ => None
  end.

(** Recording the follower interface once it is known. *)
Definition learn_iface (sourceLost : bool) (ev : Event) : M BCClock unit :=
  when (negb sourceLost && negb (str_eqb (evIFace ev) ""))
    (c ← get;
     modify (fun c => c <| bcIface := evIFace ev |>);;
     when (str_eqb (bcIface c) "" && negb (bcClockClass c =? 0)) (emitClockClass (bcClockClass c))).

(** The branch of a lost source. *)
Definition lose_source (os : PTPState) (ev : Event) : M BCClock unit :=
  c ← get;
  when (str_eqb (bcSyncState c) PTP_LOCKED)
    (modify (fun c => c <| bcSyncState := PTP_HOLDOVER |>);; armHoldoverTimer);;
  onStateChanged os (bcSyncState c) (evIFace ev).

(** The branch of an offset. *)
Definition gate_offset (os : PTPState) (ev : Event) (offset : Z) : M BCClock unit :=
  c ← get;
  cancelHoldoverTimer;;
  modify (fun c => c <| bcSyncState :=
    if isOffsetInRange offset (MaxOffsetThreshold (threshold c)) (MinOffsetThreshold (threshold c))
    then PTP_LOCKED else PTP_FREERUN |>);;
  onStateChanged os (bcSyncState c) (evIFace ev).

Definition record (now : Z) (ev : Event) : M BCClock unit :=
  c ← get;
  data ← lift (record_event now true ev (bsData (bcBase c)));
  modify (fun c => c <| bcBase := (bcBase c) <| bsData := data |> |>).

Definition AddEvent (now : Z) (os : PTPState) (ev : Event) : M BCClock SyncState :=
  (if str_eqb (evSource ev) PMC then
     match evData ev with
     | Some (EParentDS ds) =>
         c ← get;
         if str_eqb (bcClockType c) OC_type then updateClockClass ClockClassSlaveOnly
         else updateClockClass (GrandmasterClockClass ds)
     | _ => mret tt
     end
   else
     match evData ev with
     | Some (EHoldoverExpired gen) => handleHoldoverExpired os gen
     | _ =>
         record now ev;;
         match source_lost ev with
         | None => mret tt
         | Some sourceLost =>
             learn_iface sourceLost ev;;
             if sourceLost then lose_source os ev
             else
               '(offset, hasOffset) ← lift (ptpOffset ev);
               when hasOffset (gate_offset os ev offset)
         end
     end);;
  gets currentSyncState.

(** [Reset] also resets the shared OS clock. *)
Definition Reset (o : OsClock) : M BCClock OsClock :=
  cancelHoldoverTimer;;
  c ← get;
  let '(b, o) := BaseClock_Reset (bcBase c) o in
  modify (fun c => c <| bcBase := b |> <| bcSyncState := PTP_FREERUN |>);;
  modify (fun c => c <| bcBase := (bcBase c) <| bsOverall := PTP_FREERUN |> |>);;
  modify (fun c => c <| bcClockClass := 0 |> <| bcIface := "" |>);;
  mret o.

(** ** Specification *)

(** The transition of the header comment: what one event does to the state. *)
Definition gate (c : BCClock) (offset : Z) : PTPState :=
  if isOffsetInRange offset (MaxOffsetThreshold (threshold c)) (MinOffsetThreshold (threshold c))
  then PTP_LOCKED else PTP_FREERUN.

Definition next_state (c : BCClock) (ev : Event) : PTPState :=
  let s := bcSyncState c in
  if str_eqb (evSource ev) PMC then s
  else match evData ev with
       | Some (EHoldoverExpired g) =>
           if str_eqb s PTP_HOLDOVER && (g =? bcHoldoverGen c) then PTP_FREERUN else s
       | _ =>
           if default false (source_lost ev) then if str_eqb s PTP_LOCKED then PTP_HOLDOVER else s
           else match evData ev with
                | Some (EOffset d) => gate c (odOffset d)
                | Some (EDPLL d) => gate c (default 0 (ddOffset d))
                | _ => s
                end
       end.

(** The only payload that makes the clock panic: a DPLL report of a present source
    without an offset. *)
Definition usable (ev : Event) : Prop :=
  match evData ev with
  | Some (EDPLL d) => ddSourceLost d = true \/ ddOffset d <> None
  | _ => True
  end.

(** A timer is armed exactly in HOLDOVER, and it carries the current generation. *)
Definition timer_inv (c : BCClock) : Prop :=
  match bcHoldoverCancel c with
  | Some g => bcSyncState c = PTP_HOLDOVER /\ g = bcHoldoverGen c
  | None => bcSyncState c <> PTP_HOLDOVER
  end.

(** What [cancelHoldoverTimer] does to the clock. *)
Definition cancelled (c : BCClock) : BCClock :=
  match bcHoldoverCancel c with
  | Some _ => c <| bcHoldoverCancel := None |> <| bcHoldoverGen := uint64 (bcHoldoverGen c + 1) |>
  | None => c
  end.

Definition state_msg (c : BCClock) (prev : PTPState) (iface : string) : list Effect :=
  if str_eqb (bcSyncState c) prev then []
  else [SendIPC (message TypePTPState (cfgName c) iface (StateValue (PtpStateToIPCState (bcSyncState c)) 0))].

Definition overall_msg (os : PTPState) (c : BCClock) : list Effect :=
  let next := WorstOfState (bcSyncState c) os in
  if str_eqb next (bsOverall (bcBase c)) then []
  else [SendIPC (message TypeSyncState (cfgName c) "" (SyncStateValue (PtpStateToIPCState next)))].

Definition reconciled (os : PTPState) (c : BCClock) : BCClock :=
  c <| bcBase := (bcBase c) <| bsOverall := WorstOfState (bcSyncState c) os |> |>.

(** ** The methods, symbolically executed once *)

Lemma bc_reconcile_wp os c Q : Q tt (reconciled os c) (overall_msg os c) -> wp (reconcile os) c Q.
Proof. intros H. unfold reconcile. wp_run. rewrite emitOverall_spec. wp_run. exact H. Qed.

Lemma onStateChanged_wp os prev iface c Q :
  Q tt (reconciled os c) (state_msg c prev iface ++ overall_msg os c) -> wp (onStateChanged os prev iface) c Q.
Proof.
  intros H. unfold onStateChanged, state_msg in *. wp_run.
  destruct (str_eqb _ prev); cbn [negb]; wp_run; apply bc_reconcile_wp; exact H.
Qed.

Lemma cancelHoldoverTimer_wp c Q :
  (forall e, sent TypePTPState e = [] -> armed e = [] -> Q tt (cancelled c) e) -> wp cancelHoldoverTimer c Q.
Proof.
  intros H. unfold cancelHoldoverTimer, cancelled in *. wp_run.
  destruct (bcHoldoverCancel c); wp_run; by apply H.
Qed.

Lemma learn_iface_wp lost ev c Q :
  (forall i e, sent TypePTPState e = [] -> armed e = [] -> Q tt (c <| bcIface := i |>) e) ->
  wp (learn_iface lost ev) c Q.
Proof.
  intros H. unfold learn_iface. wp_run. destruct (_ && _).
  - wp_run. destruct (_ && _); unfold emitClockClass; wp_run; by apply H.
  - destruct c. by apply (H bcIface0).
Qed.

Lemma bc_record_wp now ev c Q :
  holder_wf (bsData (bcBase c)) ->
  (forall data, holder_wf data -> Q tt (c <| bcBase := (bcBase c) <| bsData := data |> |>) []) ->
  wp (record now ev) c Q.
Proof.
  intros Hwf H. destruct (record_event_total now true ev _ Hwf) as (data & E & Hd).
  unfold record. wp_run. eapply wp_lift; [exact E|]. wp_run. by apply H.
Qed.

(** What is true of every step of the clock. *)
Record stepped (os : PTPState) (c : BCClock) (next : PTPState) (iface : string) (c' : BCClock) (e : list Effect) : Prop := {
  st_data : holder_wf (bsData (bcBase c'));
  st_cfg : cfgName c' = cfgName c /\ threshold c' = threshold c /\ bcClockType c' = bcClockType c;
  st_state : bcSyncState c' = next;
  st_msg : sent TypePTPState e =
    if str_eqb next (bcSyncState c) then []
    else [message TypePTPState (cfgName c) iface (StateValue (PtpStateToIPCState next) 0)];
  st_timer : timer_inv c -> timer_inv c' /\
    ((bcSyncState c = PTP_LOCKED /\ next = PTP_HOLDOVER /\ bcHoldoverGen c' = uint64 (bcHoldoverGen c + 1) /\
      exists t, armed e = [t] /\ tmGeneration t = bcHoldoverGen c' /\ tmTimeout t = timeout c) \/
     (armed e = [] /\ (next = PTP_HOLDOVER -> bcSyncState c = PTP_HOLDOVER /\ bcHoldoverGen c' = bcHoldoverGen c) /\
      (bcHoldoverGen c' = bcHoldoverGen c \/ bcHoldoverGen c' = uint64 (bcHoldoverGen c + 1))))
}.

Lemma sent_overall os c : sent TypePTPState (overall_msg os c) = [] /\ armed (overall_msg os c) = [].
Proof. unfold overall_msg. by case_match. Qed.

Lemma sent_state c prev iface :
  sent TypePTPState (state_msg c prev iface) =
    (if str_eqb (bcSyncState c) prev then []
     else [message TypePTPState (cfgName c) iface (StateValue (PtpStateToIPCState (bcSyncState c)) 0)]) /\
  armed (state_msg c prev iface) = [].
Proof. unfold state_msg. by case_match. Qed.

(** Joining the effects of consecutive parts. *)
Ltac effects :=
  rewrite ?sent_app, ?armed_app, ?app_nil_r;
  repeat match goal with
    | |- context [sent TypePTPState (overall_msg ?o ?c)] => rewrite (proj1 (sent_overall o c))
    | |- context [armed (overall_msg ?o ?c)] => rewrite (proj2 (sent_overall o c))
    | |- context [sent TypePTPState (state_msg ?c ?p ?i)] => rewrite (proj1 (sent_state c p i))
    | |- context [armed (state_msg ?c ?p ?i)] => rewrite (proj2 (sent_state c p i))
    | H : sent TypePTPState ?e = [] |- context [sent TypePTPState ?e] => rewrite H
    | H : armed ?e = [] |- context [armed ?e] => rewrite H
    end; rewrite ?app_nil_r, ?app_nil_l.

(** Nothing but the data and the interface changes. *)
Lemma stepped_same os c c' iface e :
  holder_wf (bsData (bcBase c')) -> cfgName c' = cfgName c -> threshold c' = threshold c ->
  bcClockType c' = bcClockType c -> bcSyncState c' = bcSyncState c ->
  bcHoldoverCancel c' = bcHoldoverCancel c -> bcHoldoverGen c' = bcHoldoverGen c ->
  sent TypePTPState e = [] -> armed e = [] ->
  stepped os c (bcSyncState c) iface c' e.
Proof.
  intros Hd Hn Ht Hct Hs Hc Hg He Ha. split; try done.
  - by rewrite str_eqb_refl.
  - intros HT. unfold timer_inv in *. rewrite Hc, Hs, Hg. split; [done|]. right. split; [done|]. auto.
Qed.

Lemma updateClockClass_wp cl c Q :
  (forall c' e, bcBase c' = bcBase c -> bcClockType c' = bcClockType c -> bcSyncState c' = bcSyncState c ->
     bcHoldoverCancel c' = bcHoldoverCancel c -> bcHoldoverGen c' = bcHoldoverGen c ->
     sent TypePTPState e = [] -> armed e = [] -> Q tt c' e) ->
  wp (updateClockClass cl) c Q.
Proof.
  intros H. unfold updateClockClass. wp_run. destruct (_ =? _); wp_run; [by apply H|].
  destruct (str_eqb _ _); cbn [negb]; unfold emitClockClass; wp_run; by apply H.
Qed.

Lemma handleHoldoverExpired_wp os gen c Q :
  holder_wf (bsData (bcBase c)) ->
  (forall c' e, stepped os c
     (if str_eqb (bcSyncState c) PTP_HOLDOVER && (gen =? bcHoldoverGen c) then PTP_FREERUN else bcSyncState c)
     (bcIface c) c' e -> Q tt c' e) ->
  wp (handleHoldoverExpired os gen) c Q.
Proof.
  intros Hd H. unfold handleHoldoverExpired. wp_run.
  destruct (str_eqb (bcSyncState c) PTP_HOLDOVER) eqn:Es; cbn [negb orb andb] in *;
    [|wp_run; by apply H, stepped_same].
  apply str_eqb_eq in Es. destruct (gen =? bcHoldoverGen c) eqn:Eg; cbn [negb] in *;
    [|wp_run; by apply H, stepped_same].
  wp_run. apply onStateChanged_wp. apply H. split; try done.
  - effects. rewrite Es. done.
  - intros _. split; [done|]. right. effects. split; [done|]. split; [done|]. by left.
Qed.

(** The two branches that move the state. *)
Lemma lose_source_wp os ev c Q :
  holder_wf (bsData (bcBase c)) ->
  (forall c' e, stepped os c (if str_eqb (bcSyncState c) PTP_LOCKED then PTP_HOLDOVER else bcSyncState c)
     (evIFace ev) c' e -> Q tt c' e) ->
  wp (lose_source os ev) c Q.
Proof.
  intros Hd H. unfold lose_source. wp_run.
  destruct (str_eqb (bcSyncState c) PTP_LOCKED) eqn:Es.
  - apply str_eqb_eq in Es. unfold armHoldoverTimer. wp_run. apply cancelHoldoverTimer_wp.
    intros e0 He0 Ha0. wp_run. apply onStateChanged_wp. apply H.
    unfold cancelled; cbn [bcHoldoverCancel BCClock_fields upd].
    split; try (by destruct (bcHoldoverCancel c)).
    + effects. rewrite Es. by destruct (bcHoldoverCancel c).
    + intros HT. unfold timer_inv in HT. destruct (bcHoldoverCancel c) as [g|]; [by destruct HT as [HT _]; rewrite Es in HT|].
      cbn. split; [done|]. left. split; [done|]. split; [done|]. split; [done|].
      eexists. split; [by effects|]. done.
  - wp_run. apply onStateChanged_wp. apply H, stepped_same; try done; effects; [|done].
    cbn. by rewrite str_eqb_refl.
Qed.

Lemma gate_offset_wp os ev offset c Q :
  holder_wf (bsData (bcBase c)) ->
  (forall c' e, stepped os c (gate c offset) (evIFace ev) c' e -> Q tt c' e) ->
  wp (gate_offset os ev offset) c Q.
Proof.
  intros Hd H. unfold gate_offset. wp_run. apply cancelHoldoverTimer_wp. intros e0 He0 Ha0.
  wp_run. apply onStateChanged_wp. apply H. fold (gate c offset).
  assert (gate c offset <> PTP_HOLDOVER) as Hg by (unfold gate; by case_match).
  unfold cancelled. split; try (by destruct (bcHoldoverCancel c)).
  - effects. by destruct (bcHoldoverCancel c).
  - intros _. unfold timer_inv. effects. destruct (bcHoldoverCancel c) eqn:Ec; cbn; rewrite ?Ec;
      (split; [done|]); right; (split; [done|]); (split; [done|]); auto.
Qed.

(** The interface a state change is reported for. *)
Definition report_iface (c : BCClock) (ev : Event) : string :=
  match evData ev with Some (EHoldoverExpired _) => bcIface c | _ => evIFace ev end.

(** Steps compose with the bookkeeping around them, which touches only the data, the
    interface and the class. *)
Lemma stepped_frame os c c0 next iface c' e e0 :
  bcSyncState c0 = bcSyncState c -> cfgName c0 = cfgName c -> threshold c0 = threshold c ->
  bcClockType c0 = bcClockType c -> bcHoldoverCancel c0 = bcHoldoverCancel c ->
  bcHoldoverGen c0 = bcHoldoverGen c -> sent TypePTPState e0 = [] -> armed e0 = [] ->
  stepped os c0 next iface c' e -> stepped os c next iface c' (e0 ++ e).
Proof.
  intros Hs Hn Ht Hct Hc Hg He Ha [H1 (H2 & H3 & H4) H5 H6 H7].
  split; try done.
  - split; [congruence|]. split; congruence.
  - effects. by rewrite H6, Hs, Hn.
  - intros HT. assert (timer_inv c0) as HT0 by (unfold timer_inv in *; by rewrite Hc, Hs, Hg).
    specialize (H7 HT0). unfold timeout in *. rewrite Hs, Hg, Ht in H7. effects. exact H7.
Qed.

Definition next_default (c : BCClock) (ev : Event) : PTPState :=
  if default false (source_lost ev) then if str_eqb (bcSyncState c) PTP_LOCKED then PTP_HOLDOVER else bcSyncState c
  else match evData ev with
       | Some (EOffset d) => gate c (odOffset d)
       | Some (EDPLL d) => gate c (default 0 (ddOffset d))
       | _ => bcSyncState c
       end.

(** The branch of measurements. *)
Lemma measure_wp os now ev c Q :
  holder_wf (bsData (bcBase c)) -> usable ev ->
  (forall c' e, stepped os c (next_default c ev) (evIFace ev) c' e -> Q tt c' e) ->
  wp (record now ev;;
      match source_lost ev with
      | None => mret tt
      | Some sourceLost =>
          learn_iface sourceLost ev;;
          if sourceLost then lose_source os ev
          else '(offset, hasOffset) ← lift (ptpOffset ev); when hasOffset (gate_offset os ev offset)
      end) c Q.
Proof.
  intros Hd Hu H. wp_run. apply bc_record_wp; [done|]. intros data Hdata.
  set (c0 := c <| bcBase := _ |>). unfold next_default in H. unfold usable in Hu.
  destruct (source_lost ev) as [[|]|] eqn:El; cbn [default] in H.
  - wp_run. apply learn_iface_wp. intros i e He Ha. apply lose_source_wp; [done|].
    intros c' e' Hst. apply H. rewrite app_nil_l. eapply stepped_frame; [..|exact Hst]; done.
  - wp_run. apply learn_iface_wp. intros i e He Ha. wp_run. unfold ptpOffset.
    unfold source_lost in El.
    destruct (evData ev) as [[| d | d | | | | | | | |]|]; try done; cbn [mbind option_bind].
    + eapply wp_lift; [done|]. wp_run. apply gate_offset_wp; [done|]. intros c' e' Hst.
      apply H. rewrite !app_nil_l. eapply stepped_frame; [..|exact Hst]; done.
    + destruct (ddOffset d) as [o|] eqn:Eo; [|by injection El as El; destruct Hu; congruence].
      eapply wp_lift; [done|]. wp_run. apply gate_offset_wp; [done|]. intros c' e' Hst.
      apply H. rewrite !app_nil_l. eapply stepped_frame; [..|exact Hst]; done.
    + eapply wp_lift; [done|]. cbv beta iota. wp_run. apply H. apply stepped_same; try done; by effects.
    + eapply wp_lift; [done|]. cbv beta iota. wp_run. apply H. apply stepped_same; try done; by effects.
  - wp_run. unfold source_lost in El. destruct (evData ev) as [[]|]; try done; apply H, stepped_same; done.
Qed.

Lemma AddEvent_stepped_or now os ev c :
  holder_wf (bsData (bcBase c)) -> evSource ev = PMC \/ usable ev ->
  wp (AddEvent now os ev) c (fun ss c' e =>
    ss = currentSyncState c' /\ stepped os c (next_state c ev) (report_iface c ev) c' e).
Proof.
  intros Hd Hu. unfold AddEvent, next_state, report_iface. cbv zeta. wp_run.
  destruct (str_eqb (evSource ev) PMC) eqn:Es.
  2: assert (usable ev) as Hu' by (destruct Hu as [E|]; [by rewrite E in Es|done]); clear Hu; rename Hu' into Hu.
  { destruct (evData ev) as [[]|]; wp_run; try (split; [done|]; by apply stepped_same).
    destruct (str_eqb (bcClockType c) OC_type); apply updateClockClass_wp; intros c' e E1 E2 E3 E4 E5 E6 E7; wp_run;
      (split; [done|]); effects; apply stepped_same; unfold cfgName, threshold; rewrite ?E1; try done; by effects. }
  destruct (evData ev) as [[]|] eqn:Ed.
  6: { apply handleHoldoverExpired_wp; [done|]. intros c' e Hst. wp_run. effects. by split. }
  all: apply measure_wp; [done|done|]; intros c' e Hst; wp_run; (split; [done|]); effects;
    unfold next_default in Hst; rewrite Ed in Hst; exact Hst.
Qed.

Lemma AddEvent_stepped now os ev c :
  holder_wf (bsData (bcBase c)) -> usable ev ->
  wp (AddEvent now os ev) c (fun ss c' e =>
    ss = currentSyncState c' /\ stepped os c (next_state c ev) (report_iface c ev) c' e).
Proof. intros. apply AddEvent_stepped_or; auto. Qed.

(** The one payload that is not usable panics, whatever the clock. *)
Lemma AddEvent_panics now os ev c : evSource ev <> PMC -> ~ usable ev -> AddEvent now os ev c = None.
Proof.
  intros Hs Hu. unfold AddEvent, usable in *. unfold str_eqb at 1. rewrite bool_decide_eq_false_2 by done.
  destruct (evData ev) as [[| |d| | | | | | | |]|] eqn:Ed; try by destruct Hu.
  assert (ddSourceLost d = false /\ ddOffset d = None) as [E1 E2].
  { destruct (ddSourceLost d) eqn:El; [by destruct Hu; left|]. destruct (ddOffset d) eqn:Eo; [by destruct Hu; right|done]. }
  apply bind_none. left. apply bind_none. right. intros _ c1. unfold source_lost. rewrite Ed, E1.
  apply bind_none. right. intros _ c2. apply bind_none. left. unfold ptpOffset. by rewrite Ed, E2.
Qed.

(** A reset clock is free running, has no timer, and has forgotten what it published. *)
Record was_reset (c c' : BCClock) (e : list Effect) : Prop := {
  rs_state : bcSyncState c' = PTP_FREERUN /\ bsOverall (bcBase c') = PTP_FREERUN;
  rs_data : bsData (bcBase c') = [] /\ bcClockClass c' = 0 /\ bcIface c' = "";
  rs_cfg : cfgName c' = cfgName c /\ threshold c' = threshold c /\ bcClockType c' = bcClockType c;
  rs_timer : bcHoldoverCancel c' = None /\ armed e = [] /\
    (bcHoldoverGen c' = bcHoldoverGen c \/ bcHoldoverGen c' = uint64 (bcHoldoverGen c + 1));
  rs_quiet : sent TypePTPState e = []
}.

Lemma Reset_wp o c : wp (Reset o) c (fun o' c' e => o' = OsClock_Reset o /\ was_reset c c' e).
Proof.
  unfold Reset, BaseClock_Reset. wp_run. apply cancelHoldoverTimer_wp. intros e He Ha. wp_run.
  unfold cancelled. split; [done|]. split; effects; destruct (bcHoldoverCancel c) eqn:Ec; cbn; rewrite ?Ec; auto.
Qed.

(** ** The clock among its timers and the event loop *)

(** The clock, the time, the running timers with the time they were armed, and the
    generations of the expiry events queued on the loop.  [sysSince] is the time of
    the last entry into HOLDOVER; the program does not store it. *)
Record Sys := mkSys {
  sysClock : BCClock;
  sysNow : Z;
  sysTimers : list (Timer * Z);
  sysQueue : list Z;
  sysSince : Z
}.

Definition expired (cfg : string) (gen : Z) : Event :=
  mkEvent PTP4l "" cfg "" 0 false false (Some (EHoldoverExpired gen)).

Definition not_expiry (ev : Event) : Prop := forall g, evData ev <> Some (EHoldoverExpired g).

Definition since (old new : BCClock) (now s : Z) : Z :=
  if str_eqb (bcSyncState new) PTP_HOLDOVER && negb (str_eqb (bcSyncState old) PTP_HOLDOVER) then now else s.

(** A goroutine whose timer fires may have passed its check of the channel before the
    clock closed it, so an armed timer can deliver once at any time from its
    deadline on, whether or not it has been cancelled since. *)
Inductive sys_step : Sys -> Sys -> Prop :=
| step_tick c now now' ts q si :
    now <= now' -> sys_step (mkSys c now ts q si) (mkSys c now' ts q si)
| step_fire c now t at_ ts1 ts2 q si :
    at_ + tmTimeout t <= now ->
    sys_step (mkSys c now (ts1 ++ (t, at_) :: ts2) q si) (mkSys c now (ts1 ++ ts2) (q ++ [tmGeneration t]) si)
| step_cancelled c now t ts1 ts2 q si :
    sys_step (mkSys c now (ts1 ++ t :: ts2) q si) (mkSys c now (ts1 ++ ts2) q si)
| step_event c c' now os ev ss e ts q si :
    not_expiry ev -> usable ev -> AddEvent now os ev c = Some (ss, c', e) ->
    sys_step (mkSys c now ts q si)
      (mkSys c' now (ts ++ ((fun t => (t, now)) <$> armed e)) q (since c c' now si))
| step_expired c c' now os g ss e ts q si :
    AddEvent now os (expired (cfgName c) g) c = Some (ss, c', e) ->
    sys_step (mkSys c now ts (g :: q) si) (mkSys c' now ts q si)
| step_reset c c' now o o' e ts q si :
    Reset o c = Some (o', c', e) -> sys_step (mkSys c now ts q si) (mkSys c' now ts q si).

(** What the clock manager can bring about in [n] steps from a new clock. *)
Inductive reach (c0 : BCClock) : nat -> Sys -> Prop :=
| reach_init now si : reach c0 0 (mkSys c0 now [] [] si)
| reach_step n s s' : reach c0 n s -> sys_step s s' -> reach c0 (S n) s'.

Record sys_inv (to : Z) (n : nat) (s : Sys) : Prop := {
  inv_data : holder_wf (bsData (bcBase (sysClock s)));
  inv_timeout : timeout (sysClock s) = to;
  inv_timer : timer_inv (sysClock s);
  inv_gen : 0 <= bcHoldoverGen (sysClock s) <= Z.of_nat n;
  inv_timers : Forall (fun '(t, at_) => tmTimeout t = to /\ tmGeneration t <= bcHoldoverGen (sysClock s) /\
    (tmGeneration t = bcHoldoverGen (sysClock s) -> bcSyncState (sysClock s) = PTP_HOLDOVER -> at_ = sysSince s))
    (sysTimers s);
  inv_queue : Forall (fun g => g <= bcHoldoverGen (sysClock s) /\
    (g = bcHoldoverGen (sysClock s) -> bcSyncState (sysClock s) = PTP_HOLDOVER -> sysSince s + to <= sysNow s))
    (sysQueue s)
}.

Lemma uint64_small z : 0 <= z < 2 ^ 64 -> uint64 z = z.
Proof. intros. unfold uint64, wrap_u. by apply Z.mod_small. Qed.

Lemma since_stays c c' now si :
  (bcSyncState c' = PTP_HOLDOVER -> bcSyncState c = PTP_HOLDOVER) -> since c c' now si = si.
Proof.
  intros H. unfold since. destruct (str_eqb (bcSyncState c') PTP_HOLDOVER) eqn:E; [|done].
  apply str_eqb_eq in E. rewrite (H E). done.
Qed.

(** One step of the clock, with the timers it arms. *)
Lemma inv_advance to n c c' now ts q si os next iface e :
  sys_inv to n (mkSys c now ts q si) -> stepped os c next iface c' e -> Z.of_nat (S n) < 2 ^ 64 ->
  sys_inv to (S n) (mkSys c' now (ts ++ ((fun t => (t, now)) <$> armed e)) q (since c c' now si)).
Proof.
  intros [Hd Hto HT Hg Hts Hq] [Sd (_ & Sth & _) Ss _ St] Hn. cbn [sysClock sysNow sysTimers sysQueue sysSince] in *.
  assert (timeout c' = to) as Hto' by (unfold timeout in *; by rewrite Sth).
  destruct (St HT) as [HT' [(El & En & Eg & t & Ea & Etg & Ett)|(Ea & Eh & Eg)]]; rewrite Ea; cbn [fmap list_fmap].
  - rewrite uint64_small in Eg by lia.
    assert (since c c' now si = now) as -> by (unfold since; rewrite Ss, En, El; done).
    split; cbn; try done; [lia|..].
    + apply Forall_app. split; [|apply Forall_singleton; split; [congruence|]; split; [lia|done]].
      eapply Forall_impl; [exact Hts|]. intros [t' at_] (? & ? & ?). split; [done|]. split; [lia|]. lia.
    + eapply Forall_impl; [exact Hq|]. intros g [? ?]. split; [lia|]. lia.
  - assert (bcHoldoverGen c <= bcHoldoverGen c' <= Z.of_nat (S n)) as Hle
      by (destruct Eg as [->| ->]; [lia|rewrite uint64_small; lia]).
    rewrite since_stays by (rewrite Ss; intros ?; by apply Eh). rewrite app_nil_r.
    split; cbn; try done; [lia|..].
    + eapply Forall_impl; [exact Hts|]. intros [t' at_] (? & ? & H3). split; [done|]. split; [lia|].
      rewrite Ss. intros E1 E2. destruct (Eh E2) as [E3 E4]. apply H3; [lia|done].
    + eapply Forall_impl; [exact Hq|]. intros g [? H3]. split; [lia|].
      rewrite Ss. intros E1 E2. destruct (Eh E2) as [E3 E4]. apply H3; [lia|done].
Qed.

(** An expiry never arms a timer and never enters HOLDOVER. *)
Lemma expired_step to n c c' now ts g q si os ss e :
  sys_inv to n (mkSys c now ts (g :: q) si) -> AddEvent now os (expired (cfgName c) g) c = Some (ss, c', e) ->
  Z.of_nat (S n) < 2 ^ 64 -> sys_inv to (S n) (mkSys c' now ts q si).
Proof.
  intros Hi HA Hn. pose proof Hi as [Hd _ HT _ _ _].
  assert (usable (expired (cfgName c) g)) as Hu by done.
  destruct (wp_elim _ _ _ _ _ _ (AddEvent_stepped now os _ c Hd Hu) HA) as [_ Hst].
  pose proof (inv_advance _ _ _ _ _ _ _ _ _ _ _ _ Hi Hst Hn) as Hi'.
  pose proof (st_state _ _ _ _ _ _ Hst) as Ss.
  assert (bcSyncState c' = PTP_HOLDOVER -> bcSyncState c = PTP_HOLDOVER) as Hh.
  { rewrite Ss. unfold next_state, expired. cbn. change (str_eqb PTP4l PMC) with false. cbv iota.
    by destruct (_ && _). }
  rewrite since_stays in Hi' by done.
  assert (armed e = []) as Ha.
  { destruct (st_timer _ _ _ _ _ _ Hst HT) as [_ [(El & En & _)|(Ha & _)]]; [|done].
    rewrite <- Ss in En. specialize (Hh En). rewrite El in Hh. done. }
  rewrite Ha, app_nil_r in Hi'. destruct Hi' as [? ? ? ? ? Hq]. split; try done. by inversion Hq.
Qed.

Lemma reset_step to n c c' now ts q si e :
  sys_inv to n (mkSys c now ts q si) -> was_reset c c' e -> Z.of_nat (S n) < 2 ^ 64 ->
  sys_inv to (S n) (mkSys c' now ts q si).
Proof.
  intros [Hd Hto HT Hg Hts Hq] [[Rs _] (Rd & _ & _) (_ & Rt & _) (Rc & _ & Rg) _] Hn. cbn in *.
  assert (bcHoldoverGen c <= bcHoldoverGen c' <= Z.of_nat (S n)) as Hle
    by (destruct Rg as [->| ->]; [lia|rewrite uint64_small; lia]).
  split; cbn; unfold timer_inv, timeout in *; rewrite ?Rd, ?Rt, ?Rc, ?Rs; try done; [by split; constructor|lia|..].
  - eapply Forall_impl; [exact Hts|]. intros [t' at_] (? & ? & H3). split; [done|]. by split; [lia|].
  - eapply Forall_impl; [exact Hq|]. intros g [? H3]. by split; [lia|].
Qed.

Lemma bc_sys_inv_step to n s s' :
  sys_inv to n s -> sys_step s s' -> Z.of_nat (S n) < 2 ^ 64 -> sys_inv to (S n) s'.
Proof.
  intros Hi Hs Hn. destruct Hs as [c now now' ts q si Ht|c now t at_ ts1 ts2 q si Ht|c now t ts1 ts2 q si
    |c c' now os ev ss e ts q si _ Hu HA|c c' now os g ss e ts q si HA|c c' now o o' e ts q si HR].
  - destruct Hi as [? ? ? ? ? Hq]. split; try done; [cbn in *; lia|].
    eapply Forall_impl; [exact Hq|]. intros g [? H]. cbn in *. split; [done|]. intros; specialize (H ltac:(done) ltac:(done)); lia.
  - destruct Hi as [? ? ? ? Hts Hq]. cbn in *. apply Forall_app in Hts as [Hts1 Hts2].
    apply Forall_cons in Hts2 as [(E1 & E2 & E3) Hts3]. split; try done; cbn; [lia|by apply Forall_app|].
    apply Forall_app. split; [done|]. apply Forall_singleton. split; [done|]. intros E4 E5.
    rewrite <- (E3 E4 E5). lia.
  - destruct Hi as [? ? ? ? Hts Hq]. cbn in *. apply Forall_app in Hts as [Hts1 Hts2].
    inversion Hts2; subst. split; try done; cbn; [lia|by apply Forall_app].
  - eapply inv_advance; [exact Hi| |done]. eapply wp_elim in HA; [|by apply AddEvent_stepped; [apply Hi|]]. apply HA.
  - by eapply expired_step.
  - eapply reset_step; [done| |done]. eapply wp_elim in HR; [|by apply Reset_wp]. apply HR.
Qed.

Lemma bc_reach_inv cfg isOC thr n s :
  reach (NewBC cfg isOC thr) n s -> Z.of_nat n < 2 ^ 64 -> sys_inv (timeout (NewBC cfg isOC thr)) n s.
Proof.
  intros Hr. induction Hr as [now si|n s s' Hr IH Hs]; intros Hn.
  - split; cbn; try done; try constructor; constructor.
  - eapply bc_sys_inv_step; [apply IH; lia|done|done].
Qed.

(** ** Properties *)

(** Every event a running boundary clock can receive is handled without a panic: the
    new state is the one the specification gives, the port state is published exactly
    when it changed and with the new value, the holdover timer is armed exactly in
    HOLDOVER, and the reported composite state is that of the new clock. *)
Theorem BC_AddEvent_correct now os ev c :
  holder_wf (bsData (bcBase c)) -> timer_inv c -> usable ev ->
  exists c' e, AddEvent now os ev c = Some (currentSyncState c', c', e) /\
    bcSyncState c' = next_state c ev /\
    sent TypePTPState e =
      (if str_eqb (bcSyncState c') (bcSyncState c) then []
       else [message TypePTPState (cfgName c) (report_iface c ev) (StateValue (PtpStateToIPCState (bcSyncState c')) 0)]) /\
    timer_inv c' /\ holder_wf (bsData (bcBase c')).
Proof.
  intros Hd HT Hu. destruct (AddEvent_stepped now os ev c Hd Hu) as (ss & c' & e & HA & -> & Hst).
  exists c', e. split; [done|]. destruct Hst as [H1 _ H2 H3 H4]. rewrite H2.
  split; [done|]. split; [done|]. split; [by apply H4|done].
Qed.

(** C4. A holdover timer that was superseded or cancelled never cuts a fresh holdover
    short: in every interleaving of events, resets, timers and late expiries, an
    expiry ends a holdover only when the full timeout has passed since that holdover
    was entered. *)
Theorem BC_holdover_never_cut_short cfg isOC thr n s g q os ss c' e :
  Z.of_nat n < 2 ^ 64 -> reach (NewBC cfg isOC thr) n s ->
  sysQueue s = g :: q -> AddEvent (sysNow s) os (expired (cfgName (sysClock s)) g) (sysClock s) = Some (ss, c', e) ->
  bcSyncState (sysClock s) = PTP_HOLDOVER -> bcSyncState c' <> PTP_HOLDOVER ->
  sysSince s + timeout (NewBC cfg isOC thr) <= sysNow s.
Proof.
  intros Hn Hr Eq HA Hh Hne. apply bc_reach_inv in Hr as [Hd _ _ _ _ Hq]; [|done].
  rewrite Eq in Hq. apply Forall_cons in Hq as [[_ Hq] _].
  destruct (wp_elim _ _ _ _ _ _ (AddEvent_stepped (sysNow s) os (expired _ g) (sysClock s) Hd I) HA) as [_ Hst].
  rewrite (st_state _ _ _ _ _ _ Hst) in Hne. unfold next_state, expired in Hne. cbn in Hne.
  change (str_eqb PTP4l PMC) with false in Hne. cbv iota in Hne. rewrite Hh in Hne.
  change (str_eqb PTP_HOLDOVER PTP_HOLDOVER) with true in Hne. cbn [andb] in Hne.
  destruct (Z.eqb_spec g (bcHoldoverGen (sysClock s))) as [->|]; [|done].
  by apply Hq.
Qed.

(** A run: lock on an offset, lose the source, let the timer fire. *)
Definition ex_thr : PtpClockThreshold := mkThreshold 100 (-100) 5.
Definition ex_new : BCClock := NewBC "ptp4l.0.config" false ex_thr.
Definition ex_event (offset : Z) (lost : bool) : Event :=
  mkEvent PTP4l "ens1f0" "ptp4l.0.config" BC_type 1 false false (Some (EOffset (mkOffsetData PTP_LOCKED offset lost None))).
Definition ex_step (ev : Event) (c : BCClock) : BCClock :=
  match AddEvent 0 PTP_LOCKED ev c with Some (_, c', _) => c' | None => c end.
Definition ex_locked : BCClock := ex_step (ex_event 5 false) ex_new.
Definition ex_holdover : BCClock := ex_step (ex_event 5 true) ex_locked.
Definition ex_timer : Timer := mkTimer "ptp4l.0.config" "ens1f0" BC_type 1 5000000000.
Definition ex_sys : Sys := mkSys ex_holdover 5000000000 [] [1] 0.

Lemma step_event_eq c c' now os ev ss e ts q si s' :
  not_expiry ev -> usable ev -> AddEvent now os ev c = Some (ss, c', e) ->
  s' = mkSys c' now (ts ++ ((fun t => (t, now)) <$> armed e)) q (since c c' now si) ->
  sys_step (mkSys c now ts q si) s'.
Proof. intros ? ? ? ->. by eapply step_event. Qed.

Lemma bc_ex_reach : reach ex_new 4 ex_sys.
Proof.
  eapply reach_step; [|apply (step_fire ex_holdover 5000000000 ex_timer 0 [] [] []); vm_compute; discriminate].
  eapply reach_step; [|apply (step_tick ex_holdover 0 5000000000 [(ex_timer, 0)] []); lia].
  eapply reach_step; [|eapply (step_event_eq ex_locked ex_holdover 0 PTP_LOCKED (ex_event 5 true) _ _ [] [] 0);
    [by intros ?|done|vm_compute; reflexivity|vm_compute; reflexivity]].
  eapply reach_step; [apply (reach_init ex_new 0 0)|].
  eapply (step_event_eq ex_new ex_locked 0 PTP_LOCKED (ex_event 5 false) _ _ [] [] 0);
    [by intros ?|done|vm_compute; reflexivity|vm_compute; reflexivity].
Qed.

Lemma BC_AddEvent_correct_witness :
  exists c' e, AddEvent 7 PTP_LOCKED (ex_event 5 true) ex_locked = Some (currentSyncState c', c', e) /\
    bcSyncState c' = PTP_HOLDOVER.
Proof.
  destruct (BC_AddEvent_correct 7 PTP_LOCKED (ex_event 5 true) ex_locked) as (c' & e & H1 & H2 & _);
    [concrete_wf|vm_compute; discriminate|done|].
  exists c', e. split; [exact H1|]. rewrite H2. vm_compute. reflexivity.
Defined.

Lemma BC_holdover_never_cut_short_witness : 0 + timeout ex_new <= 5000000000.
Proof.
  refine (BC_holdover_never_cut_short "ptp4l.0.config" false ex_thr 4 ex_sys 1 [] PTP_LOCKED _ _ _ _ bc_ex_reach _ _ _ _);
    [lia|reflexivity|vm_compute; reflexivity|vm_compute; reflexivity|vm_compute; discriminate].
Defined.

End BC.
