(* ===== verification/GM.v ===== *)
(** * pkg/clock/gm.go: the grandmaster clock

    The state of a grandmaster is decided by the table in the comment of gm.go from
    the states of its DPLL, GNSS and ts2phc sources.  The time, the UTC offset, the
    parser's counter of missing source timestamps and the PMC client are the
    environment of a call.  The PMC client is an interface: its two methods are
    functions from their arguments to the settings or an error ([None]). *)

From S2P Require Import Prelude Float64 Utils Strconv Protocol Ipc Event Stats ClockBase Method.

Record GM := mkGM {
  gmBase : BaseClock;
  gmSyncState : SyncState;
  gmGnssState : PTPState;
  gmAnnouncedClockClass : Z;
  gmAnnouncedClockAccuracy : Z;
  gmLastLoggedState : PTPState
}.

#[export] Instance GM_fields : Fields GM := fun c =>
  mkGM (gmBase c) (gmSyncState c) (gmGnssState c) (gmAnnouncedClockClass c) (gmAnnouncedClockAccuracy c)
    (gmLastLoggedState c).

Module Gm.

Record Env := mkEnv {
  now : Z;
  utcOffset : Z;
  NoSourceTSCount : Z;
  pmcGetGMSettings : string -> option GrandmasterSettings;
  pmcSetGMSettings : string -> GrandmasterSettings -> bool
}.

Definition NewGM (cfgName : string) : GM :=
  mkGM (newBaseClock cfgName zero_threshold)
    (zero_SyncState <| ssState := PTP_NOTSET |> <| ssClockClass := ClockClassUninitialized |>
       <| ssClockAccuracy := ClockAccuracyUnknown |>)
    PTP_NOTSET ClockClassUninitialized ClockAccuracyUnknown "".

Definition ClockClass (c : GM) : Z := ssClockClass (gmSyncState c).
Definition GetState (c : GM) : PTPState := ssState (gmSyncState c).
Definition cfgName (c : GM) : string := bsCfgName (gmBase c).
Definition data (c : GM) : list Data := bsData (gmBase c).

Definition set_sync (f : SyncState -> SyncState) : M GM unit :=
  modify (fun c => c <| gmSyncState := f (gmSyncState c) |>).

(** [Reset] also resets the shared OS clock. *)
Definition Reset (o : OsClock) : M GM OsClock :=
  c ← get;
  let '(b, o) := BaseClock_Reset (gmBase c) o in
  modify (fun c => c <| gmBase := b |>);;
  set_sync (fun _ => zero_SyncState);;
  modify (fun c => c <| gmBase := (gmBase c) <| bsOverall := PTP_FREERUN |> |> <| gmGnssState := PTP_NOTSET |>
    <| gmAnnouncedClockClass := 0 |> <| gmAnnouncedClockAccuracy := 0 |> <| gmLastLoggedState := "" |>);;
  modify (fun c => c <| gmBase := (gmBase c) <| bsData := [] |> |>);;
  mret o.

(** The first GNSS entry with a detail decides. *)
Fixpoint isSourceLost (dh : list Data) : bool :=
  match dh with
  | [] => false
  | d :: dh' =>
      match daDetails d with
      | dd :: _ => if str_eqb (daProcessName d) GNSS then dtSourceLost dd else isSourceLost dh'
      | [] => isSourceLost dh'
      end
  end.

Fixpoint getLeadingInterface (dh : list Data) : string :=
  match dh with
  | [] => LEADING_INTERFACE_UNKNOWN
  | d :: dh' =>
      match daDetails d with
      | [] => getLeadingInterface dh'
      | dd :: _ =>
          if str_eqb (daProcessName d) GNSS then dtIFace dd
          else if str_eqb (daProcessName d) TS2PHC then
            match first_match (fun dd => str_eqb (dtSignalSource dd) GNSS) (daDetails d) with
            | Some dd => dtIFace dd
            | None => getLeadingInterface dh'
            end
          else getLeadingInterface dh'
      end
  end.

(** What the loop over the sources of [updateState] gathers. *)
Record Inputs := mkInputs {
  inDpll : PTPState;
  inGnss : PTPState;
  inTs2phc : PTPState;
  inOutOfSpec : bool;
  inFrequencyTraceable : bool
}.

#[export] Instance Inputs_fields : Fields Inputs := fun i =>
  mkInputs (inDpll i) (inGnss i) (inTs2phc i) (inOutOfSpec i) (inFrequencyTraceable i).

Definition gather_step (noSource : Z) (leading : string) (all : list Data) (i : Inputs) (d : Data) : Inputs :=
  if str_eqb (daProcessName d) DPLL then
    let i := i <| inDpll := if nonLeadingDPLLFault leading all then PTP_FREERUN else daState d |> in
    match GetDataDetails leading d with
    | Some dd => i <| inOutOfSpec := dtOutOfSpec dd |> <| inFrequencyTraceable := dtFrequencyTraceable dd |>
    | None => i
    end
  else if str_eqb (daProcessName d) GNSS then i <| inGnss := daState d |>
  else if str_eqb (daProcessName d) TS2PHC then
    i <| inTs2phc := if noSource =? 2 then PTP_FREERUN else daState d |>
  else i.

Definition gather (noSource : Z) (leading : string) (dh : list Data) : Inputs :=
  foldl (gather_step noSource leading dh) (mkInputs PTP_NOTSET PTP_FREERUN PTP_FREERUN false false) dh.

(** The assignments of the branches of the decision table. *)
Definition free_run (s : SyncState) : SyncState :=
  s <| ssState := PTP_FREERUN |> <| ssClockClass := ClockClassFreerun |> <| ssClockAccuracy := ClockAccuracyUnknown |>.
Definition hold_over (s : SyncState) : SyncState :=
  s <| ssState := PTP_HOLDOVER |> <| ssClockClass := ClockClass7 |>.
Definition locked (s : SyncState) : SyncState :=
  s <| ssState := PTP_LOCKED |> <| ssClockClass := ClockClass6 |> <| ssClockAccuracy := ClockAccuracyNanosecond100 |>.

Definition is_any (s : PTPState) (l : list PTPState) : bool := existsb (str_eqb s) l.

(** [case event.PTP_LOCKED, event.PTP_NOTSET] of the DPLL switch. *)
Definition decide_dpll_ok (gnss ts2phc : PTPState) (srcLost : bool) (s : SyncState) : SyncState :=
  if str_eqb gnss PTP_LOCKED then
    if str_eqb ts2phc PTP_FREERUN then free_run s
    else if str_eqb ts2phc PTP_LOCKED then locked s
    else if str_eqb ts2phc PTP_HOLDOVER then hold_over s
    else s
  else if str_eqb gnss PTP_FREERUN then
    if srcLost then
      if str_eqb ts2phc PTP_LOCKED then s
      else if str_eqb ts2phc PTP_FREERUN then s <| ssState := PTP_FREERUN |>
      else if str_eqb ts2phc PTP_HOLDOVER then hold_over s
      else s
    else if is_any ts2phc [PTP_FREERUN; PTP_LOCKED; PTP_UNKNOWN; PTP_NOTSET] then free_run s
    else s
  else s.

(** Its [default]. *)
Definition decide_dpll_unknown (gnss ts2phc : PTPState) (s : SyncState) : SyncState :=
  if str_eqb gnss PTP_LOCKED then
    if is_any ts2phc [PTP_FREERUN; PTP_UNKNOWN; PTP_NOTSET] then free_run s
    else if str_eqb ts2phc PTP_LOCKED then locked s
    else if str_eqb ts2phc PTP_HOLDOVER then hold_over s
    else s
  else if str_eqb gnss PTP_FREERUN then
    if is_any ts2phc [PTP_FREERUN; PTP_LOCKED; PTP_UNKNOWN; PTP_NOTSET] then free_run s
    else if str_eqb ts2phc PTP_HOLDOVER then hold_over s
    else s
  else
    let s := s <| ssState := ts2phc |> in
    if str_eqb ts2phc PTP_FREERUN then
      s <| ssClockClass := ClockClassFreerun |> <| ssClockAccuracy := ClockAccuracyUnknown |>
    else if str_eqb ts2phc PTP_LOCKED then
      s <| ssClockClass := ClockClass7 |> <| ssClockAccuracy := ClockAccuracyNanosecond100 |>
    else s.

Definition decide_state (i : Inputs) (srcLost : bool) (s : SyncState) : SyncState :=
  if str_eqb (inDpll i) PTP_FREERUN then
    s <| ssState := inDpll i |>
      <| ssClockClass := if inOutOfSpec i && inFrequencyTraceable i then ClockClassOutOfSpec else ClockClassFreerun |>
      <| ssClockAccuracy := ClockAccuracyUnknown |>
  else if str_eqb (inDpll i) PTP_HOLDOVER then
    s <| ssState := inDpll i |> <| ssClockClass := ClockClass7 |>
  else if str_eqb (inDpll i) PTP_LOCKED || str_eqb (inDpll i) PTP_NOTSET then
    decide_dpll_ok (inGnss i) (inTs2phc i) srcLost s
  else decide_dpll_unknown (inGnss i) (inTs2phc i) s.

(** The messages at the end of [updateState]. *)
Definition publish (gnss : PTPState) (leading : string) (prevState : PTPState) (prevClass : Z) : M GM unit :=
  c ← get;
  when (negb (str_eqb gnss (gmGnssState c)))
    (modify (fun c => c <| gmGnssState := gnss |>);;
     emit (SendIPC (message TypeGNSSState (cfgName c) leading (GNSSStateValue (PtpStateToIPCState gnss)))));;
  when (negb (str_eqb (GetState c) prevState) && negb (str_eqb prevState PTP_NOTSET))
    (emit (SendIPC (message TypePTPState (cfgName c) leading (StateValue (PtpStateToIPCState (GetState c)) 0))));;
  when (negb (ClockClass c =? prevClass) && negb (ClockClass c =? ClockClassUninitialized))
    (emit (SendIPC (message TypeClockClass (cfgName c) leading (ClockClassValue (uint8 (ClockClass c)))))).

Definition updateState (env : Env) : M GM SyncState :=
  c ← get;
  let leading := getLeadingInterface (data c) in
  if str_eqb leading LEADING_INTERFACE_UNKNOWN then mret (zero_SyncState <| ssLeadingIFace := leading |>)
  else
    set_sync (fun s => s <| ssSourceLost := isSourceLost (data c) |> <| ssLeadingIFace := leading |>);;
    match data c with
    | [] =>
        set_sync (fun s => free_run s <| ssLastLoggedTime := now env |>);;
        gets gmSyncState
    | _ =>
        let i := gather (NoSourceTSCount env) leading (data c) in
        set_sync (decide_state i (isSourceLost (data c)));;
        publish (inGnss i) leading (GetState c) (ClockClass c);;
        s ← gets gmSyncState;
        set_sync (fun s => if negb (ssLastLoggedTime s =? now env) then s <| ssLastLoggedTime := now env |> else s);;
        mret (zero_SyncState <| ssState := ssState s |> <| ssClockClass := ssClockClass s |>
          <| ssClockAccuracy := ssClockAccuracy s |> <| ssSourceLost := ssSourceLost s |>
          <| ssLeadingIFace := ssLeadingIFace s |>)
    end.

(** The settings [announceClockClass] wants for a class, and when it writes them. *)
Definition with_quality (cls acc variance : Z) (traceable : bool) (source : Z) (g : GrandmasterSettings) : GrandmasterSettings :=
  g <| gsClockQuality := mkClockQuality cls acc variance |>
    <| gsTimePropertiesDS := (gsTimePropertiesDS g) <| TimeTraceable := traceable |> <| TimeSource := source |> |>.

Definition announced_settings (cls acc : Z) (g : GrandmasterSettings) : option (bool * GrandmasterSettings) :=
  let cur := Protocol.ClockClass (gsClockQuality g) in
  if cls =? ClockClass6 then
    Some (negb (cur =? ClockClass6) || negb (TimeTraceable (gsTimePropertiesDS g)),
          with_quality ClockClass6 ClockAccuracyNanosecond100 20061 true TimeSourceGNSS g)
  else if cls =? ClockClassOutOfSpec then
    Some (negb (cur =? ClockClassOutOfSpec),
          with_quality ClockClassOutOfSpec acc 65535 false TimeSourceInternalOscillator g)
  else if cls =? ClockClass7 then
    Some (negb (cur =? ClockClass7), with_quality ClockClass7 acc 65535 true TimeSourceInternalOscillator g)
  else if cls =? ClockClassFreerun then
    Some (negb (cur =? ClockClassFreerun),
          with_quality ClockClassFreerun ClockAccuracyUnknown 65535 false TimeSourceInternalOscillator g)
  else None.

Definition write_settings (env : Env) (cfg : string) (write : bool) (g : GrandmasterSettings) : M GM bool :=
  if write then emit (SetGMSettings cfg g);; mret (pmcSetGMSettings env cfg g) else mret true.

(** The assignments before its switch. *)
Definition traceable_settings (env : Env) (g : GrandmasterSettings) : GrandmasterSettings :=
  g <| gsTimePropertiesDS := (gsTimePropertiesDS g) <| PtpTimescale := true |>
         <| FrequencyTraceable := true |> <| CurrentUtcOffsetValid := true |>
         <| CurrentUtcOffset := int32 (utcOffset env) |> |>.

(** [announceClockClass]: the announced class, or [None] for an error. *)
Definition announceClockClass (env : Env) : M GM (option Z) :=
  c ← get;
  let pmcCfgName := replace1 TS2PHC PTP4l (cfgName c) in
  emit (GetGMSettings pmcCfgName);;
  match pmcGetGMSettings env pmcCfgName with
  | None => mret None
  | Some g =>
      let g := traceable_settings env g in
      match announced_settings (ClockClass c) (ssClockAccuracy (gmSyncState c)) g with
      | None => mret None
      | Some (write, g') =>
          let g := if write then g' else g in
          ok ← write_settings env pmcCfgName write g;
          if (ok : bool) then
            modify (fun c => c <| gmAnnouncedClockClass := Protocol.ClockClass (gsClockQuality g) |>
                               <| gmAnnouncedClockAccuracy := Protocol.ClockAccuracy (gsClockQuality g) |>);;
            mret (Some (Protocol.ClockClass (gsClockQuality g)))
          else mret None
      end
  end.

Definition GetClockClassLogMessage (time : Z) (name configName : string) (clockClass : Z) : string :=
  (name +:+ "[" +:+ fmt_d time +:+ "]:[" +:+ configName +:+ "] CLOCK_CLASS_CHANGE " +:+ fmt_d clockClass +:+ newline)%string.

(** The accuracy [announceClockClassIfChanged] would announce. *)
Definition wanted_accuracy (ev : Event) (clockState : SyncState) (announced : Z) : Z :=
  match evData ev with
  | Some (EDPLL dpll) =>
      if str_eqb (evSource ev) DPLL &&
         ((ssClockClass clockState =? ClockClass7) || (ssClockClass clockState =? ClockClassOutOfSpec))
      then match ddOffset dpll with Some o => ClockAccuracyFromOffset o | None => announced end
      else announced
  | _ => announced
  end.

Definition announceClockClassIfChanged (env : Env) (ev : Event) (clockState : SyncState) : M GM unit :=
  if ssClockClass clockState =? ClockClassUninitialized then mret tt
  else
    c ← get;
    let clockAccuracy := wanted_accuracy ev clockState (gmAnnouncedClockAccuracy c) in
    when (negb (ssClockClass clockState =? gmAnnouncedClockClass c) || negb (clockAccuracy =? gmAnnouncedClockAccuracy c))
      (set_sync (fun s => s <| ssClockAccuracy := clockAccuracy |>);;
       r ← announceClockClass env;
       match r with
       | Some cls => emit (PrintLine (GetClockClassLogMessage (now env) PTP4l (cfgName c) cls))
       | None => mret tt
       end);;
    modify (fun c => c <| gmLastLoggedState := ssState clockState |>).

Definition reconcile (os : PTPState) : M GM unit :=
  c ← get;
  let '(overall, es) := emitOverallSyncStateIfChanged (bsOverall (gmBase c)) (GetState c) os (cfgName c) in
  modify (fun c => c <| gmBase := (gmBase c) <| bsOverall := overall |> |>);;
  emits es.

Definition SystemClockUpdate (os : PTPState) : M GM unit := reconcile os.

Definition record (env : Env) (ev : Event) : M GM unit :=
  c ← get;
  dh ← lift (record_event (now env) true ev (data c));
  modify (fun c => c <| gmBase := (gmBase c) <| bsData := dh |> |>).

(** The payload is shared with the caller: [od.NMEALocked = utils.ToPtr(false)]. *)
Definition zero_nmea (clockState : SyncState) (ev : Event) : Event :=
  match evData ev with
  | Some (EOffset od) =>
      match odNMEALocked od with
      | Some _ =>
          if negb (str_eqb (ssState clockState) PTP_LOCKED)
          then ev <| evData := Some (EOffset (od <| odNMEALocked := Some false |>)) |> else ev
      | None => ev
      end
  | _ => ev
  end.

(** [AddEvent]: the composite state, and the event as the caller sees it afterwards. *)
Definition AddEvent (env : Env) (os : PTPState) (ev : Event) : M GM (SyncState * Event) :=
  if str_eqb (evSource ev) PMC then s ← gets gmSyncState; mret (s, ev)
  else
    record env ev;;
    clockState ← updateState env;
    reconcile os;;
    announceClockClassIfChanged env ev clockState;;
    mret (clockState, zero_nmea clockState ev).

(** ** Specification *)

(** The table of the comment of [getGMState]: the final state and clock class, where the
    table gives one.  NOTSET is the DPLL that is not available; for it the table does
    not look at the source-lost flag, the code does: see [GM_no_dpll_keeps_locked]. *)
Definition gm_table (i : Inputs) (srcLost : bool) : option (PTPState * Z) :=
  let freerun := Some (PTP_FREERUN, ClockClassFreerun) in
  if str_eqb (inDpll i) PTP_FREERUN then
    if inOutOfSpec i && inFrequencyTraceable i then Some (PTP_FREERUN, ClockClassOutOfSpec) else freerun
  else if str_eqb (inDpll i) PTP_HOLDOVER then Some (PTP_HOLDOVER, ClockClass7)
  else if is_any (inDpll i) [PTP_LOCKED; PTP_NOTSET] then
    if str_eqb (inGnss i) PTP_LOCKED then
      if str_eqb (inTs2phc i) PTP_LOCKED then Some (PTP_LOCKED, ClockClass6)
      else if str_eqb (inTs2phc i) PTP_FREERUN then freerun
      else None
    else if str_eqb (inGnss i) PTP_FREERUN && negb srcLost && is_any (inTs2phc i) [PTP_LOCKED; PTP_FREERUN] then freerun
    else None
  else None.

(** What [updateState] decides on the sources [dh]. *)
Definition next_sync (env : Env) (dh : list Data) (s : SyncState) : SyncState :=
  let leading := getLeadingInterface dh in
  decide_state (gather (NoSourceTSCount env) leading dh) (isSourceLost dh)
    (s <| ssSourceLost := isSourceLost dh |> <| ssLeadingIFace := leading |>).

(** The states agree up to the time of the last log line and the accuracy. *)
Definition same_state (s s' : SyncState) : Prop :=
  ssState s' = ssState s /\ ssClockClass s' = ssClockClass s /\ ssSourceLost s' = ssSourceLost s /\
  ssLeadingIFace s' = ssLeadingIFace s.

(** The clock class a published state stands for. *)
Definition class_ok (s : SyncState) : Prop :=
  (ssState s = PTP_LOCKED -> ssClockClass s = ClockClass6) /\
  (ssState s = PTP_HOLDOVER -> ssClockClass s = ClockClass7).

(** GNSS entries hold what the GNSS monitor reports. *)
Definition gnss_detail_ok (dd : DataDetails) : Prop := dtState dd = PTP_FREERUN \/ dtState dd = PTP_LOCKED.

Definition gnss_ok (d : Data) : Prop :=
  daProcessName d = GNSS -> Forall gnss_detail_ok (daDetails d) /\
    (daState d = PTP_FREERUN \/ daState d = PTP_LOCKED \/ daDetails d = []).

(** The GNSS source sends GNSS payloads. *)
Definition gnss_typed (ev : Event) : Prop := evSource ev = GNSS -> exists g, evData ev = Some (EGNSS g).

(** ** The methods, symbolically executed once *)

Definition msgs (c : GM) (gnss : PTPState) (leading : string) (prevState : PTPState) (prevClass : Z) : list Effect :=
  (if str_eqb gnss (gmGnssState c) then []
   else [SendIPC (message TypeGNSSState (cfgName c) leading (GNSSStateValue (PtpStateToIPCState gnss)))]) ++
  (if str_eqb (GetState c) prevState || str_eqb prevState PTP_NOTSET then []
   else [SendIPC (message TypePTPState (cfgName c) leading (StateValue (PtpStateToIPCState (GetState c)) 0))]) ++
  (if (ClockClass c =? prevClass) || (ClockClass c =? ClockClassUninitialized) then []
   else [SendIPC (message TypeClockClass (cfgName c) leading (ClockClassValue (uint8 (ClockClass c))))]).

Lemma gm_publish_wp gnss leading ps pc c Q :
  Q tt (c <| gmGnssState := gnss |>) (msgs c gnss leading ps pc) -> wp (publish gnss leading ps pc) c Q.
Proof.
  intros H. unfold publish, msgs in *. wp_run.
  assert (str_eqb gnss (gmGnssState c) = true -> c <| gmGnssState := gnss |> = c) as Hsame
    by (intros E%str_eqb_eq; destruct c; cbn in *; by subst).
  destruct (str_eqb gnss (gmGnssState c)); [rewrite Hsame in H by done|]; cbn [negb]; wp_run;
    destruct (str_eqb (GetState c) ps), (str_eqb ps PTP_NOTSET); cbn [negb andb orb] in *; wp_run;
    destruct (ClockClass c =? pc), (ClockClass c =? ClockClassUninitialized); cbn [negb andb orb] in *; wp_run; exact H.
Qed.

Lemma getLeadingInterface_nil dh : getLeadingInterface dh <> LEADING_INTERFACE_UNKNOWN -> dh <> [].
Proof. by intros H ->. Qed.

Lemma gm_updateState_wp env c Q :
  let leading := getLeadingInterface (data c) in
  (leading = LEADING_INTERFACE_UNKNOWN -> Q (zero_SyncState <| ssLeadingIFace := leading |>) c []) ->
  (leading <> LEADING_INTERFACE_UNKNOWN -> forall r s', 
     let s := next_sync env (data c) (gmSyncState c) in
     let c' := c <| gmSyncState := s |> in
     same_state s r -> same_state s s' -> ssClockAccuracy s' = ssClockAccuracy s ->
     Q r (c <| gmSyncState := s' |> <| gmGnssState := inGnss (gather (NoSourceTSCount env) leading (data c)) |>)
       (msgs c' (inGnss (gather (NoSourceTSCount env) leading (data c))) leading (GetState c) (ClockClass c))) ->
  wp (updateState env) c Q.
Proof.
  intros leading H1 H2. unfold updateState. wp_run. subst leading.
  destruct (str_eqb (getLeadingInterface (data c)) LEADING_INTERFACE_UNKNOWN) eqn:E.
  - apply str_eqb_eq in E. wp_run. by apply H1.
  - apply str_eqb_neq in E. wp_run. unfold set_sync. wp_run.
    pose proof (getLeadingInterface_nil _ E) as Hne. specialize (H2 E). unfold next_sync in H2.
    destruct (data c) as [|d0 dh0]; [done|].
    wp_run. apply gm_publish_wp. wp_run. rewrite !app_nil_l, !app_nil_r.
    set (i := gather _ _ _) in *. set (dh := d0 :: dh0) in *. clearbody i dh.
    match goal with |- Q ?r ?cc ?e => set (r0 := r) end.
    cbn [upd GM_fields gmSyncState gmBase gmGnssState gmAnnouncedClockClass gmAnnouncedClockAccuracy gmLastLoggedState] in *.
    match goal with |- Q _ (mkGM _ ?s _ _ _ _) _ => apply (H2 r0 s) end; unfold same_state; subst r0; cbn.
    + done.
    + destruct (_ =? now env); done.
    + destruct (_ =? now env); done.
Qed.

Lemma gm_reconcile_wp os c Q :
  (forall overall e, (forall ty, ty <> TypeSyncState -> sent ty e = []) ->
     Q tt (c <| gmBase := (gmBase c) <| bsOverall := overall |> |>) e) ->
  wp (reconcile os) c Q.
Proof.
  intros H. unfold reconcile. wp_run. rewrite emitOverall_spec. wp_run. apply H. intros ty Hty.
  case_match; [done|]. cbn. unfold sent, sent_of; cbn. by rewrite str_eqb_ne by congruence.
Qed.

Lemma write_settings_wp env cfg write g c Q :
  (forall ok, ok = negb write || pmcSetGMSettings env cfg g ->
     Q ok c (if write then [SetGMSettings cfg g] else [])) -> wp (write_settings env cfg write g) c Q.
Proof. intros H. unfold write_settings. destruct write; wp_run; by apply H. Qed.

(** [announceClockClass] asks and writes settings; of the clock it changes what was announced. *)
Lemma announceClockClass_wp env c Q :
  (forall r c' e, gmBase c' = gmBase c -> gmSyncState c' = gmSyncState c -> gmGnssState c' = gmGnssState c ->
     (forall ty, sent ty e = []) -> Q r c' e) ->
  wp (announceClockClass env) c Q.
Proof.
  intros H. unfold announceClockClass. wp_run. destruct (pmcGetGMSettings _ _) as [g|]; [|wp_run; by apply H].
  cbv zeta. destruct (announced_settings _ _ _) as [[write g']|]; [|wp_run; by apply H].
  wp_run. apply write_settings_wp. intros ok _. cbv beta.
  destruct ok; wp_run; apply H; intros; unfold sent; cbn; try done; by destruct write.
Qed.

Lemma announceIfChanged_wp env ev cs c Q :
  (forall c' e, gmBase c' = gmBase c -> same_state (gmSyncState c) (gmSyncState c') ->
     gmGnssState c' = gmGnssState c -> (forall ty, sent ty e = []) -> Q tt c' e) ->
  wp (announceClockClassIfChanged env ev cs) c Q.
Proof.
  intros H. unfold announceClockClassIfChanged. destruct (_ =? _); [by apply wp_ret, H|].
  wp_run. destruct (_ || _); [|wp_run; by apply H].
  unfold set_sync. wp_run. apply announceClockClass_wp. intros r c' e E1 E2 E3 He.
  destruct r; wp_run; apply H; cbn; rewrite ?E1, ?E2, ?E3; try done; intros; rewrite !app_nil_r, ?sent_app, He; done.
Qed.

Lemma gm_record_wp env ev c Q :
  holder_wf (data c) ->
  (forall dh, record_event (now env) true ev (data c) = Some dh -> holder_wf dh ->
     Q tt (c <| gmBase := (gmBase c) <| bsData := dh |> |>) []) ->
  wp (record env ev) c Q.
Proof.
  intros Hwf H. destruct (record_event_total (now env) true ev _ Hwf) as (dh & E & Hd).
  unfold record. wp_run. eapply wp_lift; [exact E|]. wp_run. by apply H.
Qed.

(** What a source event does. *)
Record gm_step (env : Env) (c : GM) (dh : list Data) (r : SyncState) (c' : GM) (e : list Effect) : Prop := {
  gs_data : holder_wf dh /\ data c' = dh;
  gs_cfg : cfgName c' = cfgName c;
  gs_waiting : getLeadingInterface dh = LEADING_INTERFACE_UNKNOWN ->
    r = zero_SyncState <| ssLeadingIFace := LEADING_INTERFACE_UNKNOWN |> /\
    same_state (gmSyncState c) (gmSyncState c') /\ forall ty, ty <> TypeSyncState -> sent ty e = [];
  gs_decided : getLeadingInterface dh <> LEADING_INTERFACE_UNKNOWN ->
    let s := next_sync env dh (gmSyncState c) in
    same_state s r /\ same_state s (gmSyncState c') /\
    sent TypePTPState e =
      (if str_eqb (ssState s) (GetState c) || str_eqb (GetState c) PTP_NOTSET then []
       else [message TypePTPState (cfgName c) (getLeadingInterface dh) (StateValue (PtpStateToIPCState (ssState s)) 0)]) /\
    sent TypeClockClass e =
      (if (ssClockClass s =? ClockClass c) || (ssClockClass s =? ClockClassUninitialized) then []
       else [message TypeClockClass (cfgName c) (getLeadingInterface dh) (ClockClassValue (uint8 (ssClockClass s)))])
}.

Lemma sent_msgs c gnss leading ps pc :
  sent TypePTPState (msgs c gnss leading ps pc) =
    (if str_eqb (GetState c) ps || str_eqb ps PTP_NOTSET then []
     else [message TypePTPState (cfgName c) leading (StateValue (PtpStateToIPCState (GetState c)) 0)]) /\
  sent TypeClockClass (msgs c gnss leading ps pc) =
    (if (ClockClass c =? pc) || (ClockClass c =? ClockClassUninitialized) then []
     else [message TypeClockClass (cfgName c) leading (ClockClassValue (uint8 (ClockClass c)))]).
Proof.
  unfold msgs. rewrite !sent_app. destruct (str_eqb gnss _), (_ || _), (_ || _); done.
Qed.

Lemma same_state_trans a b c : same_state a b -> same_state b c -> same_state a c.
Proof. intros (?&?&?&?) (?&?&?&?). unfold same_state. repeat split; congruence. Qed.

Lemma AddEvent_step env os ev c :
  holder_wf (data c) -> evSource ev <> PMC ->
  exists dh, record_event (now env) true ev (data c) = Some dh /\
  wp (AddEvent env os ev) c (fun a c' e => snd a = zero_nmea (fst a) ev /\ gm_step env c dh (fst a) c' e).
Proof.
  intros Hwf Hs. destruct (record_event_total (now env) true ev _ Hwf) as (dh & E & Hd).
  exists dh. split; [done|]. unfold AddEvent. rewrite (str_eqb_ne _ _ Hs). wp_run.
  apply gm_record_wp; [done|]. intros dh' E' _. assert (dh' = dh) as -> by congruence.
  wp_run. apply gm_updateState_wp; cbn [data gmBase upd GM_fields bsData BaseClock_fields gmSyncState].
  - intros Hl. wp_run. apply gm_reconcile_wp. intros overall e1 He1. wp_run. apply announceIfChanged_wp.
    intros c' e2 E1 E2 _ He2. wp_run. cbn [fst snd]. split; [done|].
    split; unfold data, cfgName; rewrite ?E1; try done.
    intros _. rewrite Hl. split; [done|]. split; [done|]. intros ty Hty.
    by rewrite !app_nil_l, !app_nil_r, sent_app, He1, He2.
  - intros Hl r s' Hr Hs' _. wp_run. apply gm_reconcile_wp. intros overall e1 He1.
    wp_run. apply announceIfChanged_wp. intros c' e2 E1 E2 _ He2. wp_run. cbn [fst snd]. split; [done|].
    split; unfold data, cfgName; rewrite ?E1; try done.
    intros _. split; [done|]. split; [by eapply same_state_trans|].
    rewrite !app_nil_l, !app_nil_r, !sent_app, !He1, !He2, !app_nil_r by done.
    edestruct sent_msgs as [-> ->]. done.
Qed.

(** ** The decision *)

Lemma gm_table_dpll_ok gnss ts2phc lost s st cl :
  (if str_eqb gnss PTP_LOCKED then
     if str_eqb ts2phc PTP_LOCKED then Some (PTP_LOCKED, ClockClass6)
     else if str_eqb ts2phc PTP_FREERUN then Some (PTP_FREERUN, ClockClassFreerun) else None
   else if str_eqb gnss PTP_FREERUN && negb lost && is_any ts2phc [PTP_LOCKED; PTP_FREERUN]
   then Some (PTP_FREERUN, ClockClassFreerun) else None) = Some (st, cl) ->
  ssState (decide_dpll_ok gnss ts2phc lost s) = st /\ ssClockClass (decide_dpll_ok gnss ts2phc lost s) = cl.
Proof.
  unfold decide_dpll_ok, is_any. cbn [existsb].
  state_cases gnss; cbn [andb]; str_norm; try done; state_cases ts2phc; cbn [orb andb]; str_norm; cbn [orb andb];
    rewrite ?andb_false_r; try done; destruct lost; cbn [negb andb]; intros; by simplify_eq/=.
Qed.

Lemma decide_table i lost s st cl :
  gm_table i lost = Some (st, cl) ->
  ssState (decide_state i lost s) = st /\ ssClockClass (decide_state i lost s) = cl.
Proof.
  unfold gm_table, decide_state. destruct (str_eqb (inDpll i) PTP_FREERUN) eqn:E1.
  { apply str_eqb_eq in E1 as ->. destruct (_ && _); intros [= <- <-]; done. }
  destruct (str_eqb (inDpll i) PTP_HOLDOVER) eqn:E2.
  { apply str_eqb_eq in E2 as ->. by intros [= <- <-]. }
  unfold is_any at 1. cbn [existsb]. rewrite orb_false_r.
  destruct (str_eqb (inDpll i) PTP_LOCKED || str_eqb (inDpll i) PTP_NOTSET); [|done].
  apply gm_table_dpll_ok.
Qed.

(** Whatever the inputs, as long as the GNSS state is one the GNSS monitor reports, the
    decision keeps the class consistent with the state. *)
Lemma decide_class_ok i lost s :
  inGnss i = PTP_FREERUN \/ inGnss i = PTP_LOCKED -> class_ok s -> class_ok (decide_state i lost s).
Proof.
  intros HG Hs. unfold class_ok, decide_state in *.
  destruct (str_eqb (inDpll i) PTP_FREERUN) eqn:E1; [apply str_eqb_eq in E1 as ->; by split|].
  destruct (str_eqb (inDpll i) PTP_HOLDOVER) eqn:E2; [apply str_eqb_eq in E2 as ->; by split|].
  unfold decide_dpll_ok, decide_dpll_unknown, free_run, locked, hold_over.
  destruct HG as [->| ->]; str_norm; repeat (case_match; try done); try (by split).
Qed.

(** The GNSS input is the state of a GNSS entry, or the default. *)
Lemma gather_gnss n leading all i dh :
  (inGnss i = PTP_FREERUN \/ inGnss i = PTP_LOCKED) ->
  Forall gnss_ok dh -> Forall (fun d => daProcessName d = GNSS -> daDetails d <> []) dh ->
  inGnss (foldl (gather_step n leading all) i dh) = PTP_FREERUN \/
  inGnss (foldl (gather_step n leading all) i dh) = PTP_LOCKED.
Proof.
  revert i. induction dh as [|d dh IH]; intros i Hi; [done|]. intros [Hd Hdh]%Forall_cons [Hn Hne]%Forall_cons.
  cbn [foldl]. apply IH; [|done|done]. unfold gather_step. cbv zeta.
  destruct (str_eqb (daProcessName d) DPLL); [destruct (GetDataDetails leading d); done|].
  destruct (str_eqb (daProcessName d) GNSS) eqn:E.
  - apply str_eqb_eq in E. cbn. specialize (Hn E). destruct (Hd E) as [_ [?|[?|?]]]; [by left|by right|done].
  - destruct (str_eqb (daProcessName d) TS2PHC); done.
Qed.

(** A follower DPLL that is not locked while the leading one is. *)
Lemma gather_step_fault n leading dh i d :
  nonLeadingDPLLFault leading dh = true ->
  inDpll i = PTP_FREERUN \/ daProcessName d = DPLL -> inDpll (gather_step n leading dh i d) = PTP_FREERUN.
Proof.
  intros HF H. unfold gather_step. cbv zeta. rewrite HF. destruct (str_eqb (daProcessName d) DPLL) eqn:E.
  - by destruct (GetDataDetails leading d).
  - apply str_eqb_neq in E. destruct H as [H|H]; [|done].
    destruct (str_eqb (daProcessName d) GNSS), (str_eqb (daProcessName d) TS2PHC); done.
Qed.

Lemma gather_fault n leading all dh i :
  nonLeadingDPLLFault leading all = true -> inDpll i = PTP_FREERUN \/ Exists (fun d => daProcessName d = DPLL) dh ->
  inDpll (foldl (gather_step n leading all) i dh) = PTP_FREERUN.
Proof.
  intros HF. revert i. induction dh as [|d dh IH]; intros i [H|H]; cbn [foldl]; [done|by inversion H| |].
  - apply IH. left. apply gather_step_fault; auto.
  - apply Exists_cons in H as [H|H]; apply IH; [left; apply gather_step_fault; auto|by right].
Qed.

Lemma fault_has_dpll leading dh :
  nonLeadingDPLLFault leading dh = true -> Exists (fun d => daProcessName d = DPLL) dh.
Proof.
  unfold nonLeadingDPLLFault. case_match; [done|]. induction dh as [|d dh IH]; cbn; [done|].
  destruct (str_eqb (daProcessName d) DPLL) eqn:E; [apply str_eqb_eq in E; by left|]. intros; right; auto.
Qed.

Lemma next_sync_fault env dh s :
  nonLeadingDPLLFault (getLeadingInterface dh) dh = true -> ssState (next_sync env dh s) = PTP_FREERUN.
Proof.
  intros HF. unfold next_sync, decide_state, gather. pose proof (fault_has_dpll _ _ HF) as HE.
  rewrite (gather_fault _ _ _ _ _ HF) by by right. done.
Qed.

(** When a single DPLL entry lists its interfaces once, the fault is what the comment says. *)
Lemma nonLeadingFault_spec leading dh d l f :
  leading <> LEADING_INTERFACE_UNKNOWN -> find_data DPLL dh = Some d ->
  GetDataDetails leading d = Some l -> dtState l = PTP_LOCKED ->
  f ∈ daDetails d -> dtIFace f <> leading -> dtState f <> PTP_LOCKED -> nonLeadingDPLLFault leading dh = true.
Proof.
  intros HL HF Hl Hls Hf Hi Hs. unfold nonLeadingDPLLFault. rewrite (str_eqb_ne _ _ HL).
  induction dh as [|x dh IH]; [done|]. unfold find_data in *. cbn in HF |- *. unfold is_proc in HF at 1.
  destruct (str_eqb (daProcessName x) DPLL); [|by apply IH]. injection HF as ->.
  rewrite Hl, Hls. apply orb_true_iff. left. rewrite existsb_exists. exists f.
  rewrite <- list_elem_of_In. split; [done|]. by rewrite !str_eqb_ne.
Qed.

(** ** The clock class stays consistent *)

Definition gnss_entry (d : Data) : Prop :=
  Stats.wf d /\ (daProcessName d = GNSS -> Forall gnss_detail_ok (daDetails d) /\
    daDetails d <> [] /\ (daState d = PTP_FREERUN \/ daState d = PTP_LOCKED)).

Definition gnss_new (d : Data) : Prop :=
  Stats.wf d /\ (daProcessName d = GNSS -> Forall gnss_detail_ok (daDetails d)).

Lemma gnss_worst l : Forall (fun s => s = PTP_FREERUN \/ s = PTP_LOCKED) l -> l <> [] ->
  worst_state l = PTP_FREERUN \/ worst_state l = PTP_LOCKED.
Proof.
  intros HF Hne. unfold worst_state. case_bool_decide as E1; [by left|]. right.
  destruct l as [|x l]; [done|]. apply Forall_cons in HF as [[->| ->] HF].
  - destruct E1. left.
  - rewrite bool_decide_eq_false_2; [rewrite bool_decide_eq_true_2; [done|left]|].
    intros [H|H]%elem_of_cons; [done|]. rewrite Forall_forall in HF. destruct (HF _ H); done.
Qed.

Lemma gnss_step now0 ev d d' :
  gnss_typed ev -> daProcessName d = evSource ev -> gnss_new d -> Stats.AddEvent now0 ev d = Some d' ->
  gnss_entry (UpdateState d').
Proof.
  intros HT Hn [Hwf HG] HA. destruct (AddEvent_cases now0 ev d Hwf) as (x & HA' & Hwf' & Hn' & _).
  assert (x = d') as -> by congruence. split; [done|]. intros Hg. cbn in Hg. rewrite Hn' in Hg.
  destruct (HT ltac:(congruence)) as [g Hd].
  destruct (AddEvent_details gnss_detail_ok now0 ev d d' Hwf HA (HG Hg)) as [HF Hne].
  { intros dd Hdd. unfold gnss_detail_ok. rewrite Hdd, Hd. cbn. case_match; auto. }
  split; [done|]. split; [done|]. rewrite UpdateState_worst. apply gnss_worst.
  - apply Forall_fmap. eapply Forall_impl; [exact HF|]. done.
  - cbn. by destruct (daDetails d').
Qed.

(** The life of a grandmaster: source events in any environment, resets and OS clock updates. *)
Inductive reach (cfg : string) : GM -> Prop :=
| reach_new : reach cfg (NewGM cfg)
| reach_event c env os ev a c' e :
    reach cfg c -> gnss_typed ev -> AddEvent env os ev c = Some (a, c', e) -> reach cfg c'
| reach_reset c o a c' e : reach cfg c -> Reset o c = Some (a, c', e) -> reach cfg c'
| reach_os c os a c' e : reach cfg c -> SystemClockUpdate os c = Some (a, c', e) -> reach cfg c'.

Record gm_inv (c : GM) : Prop := {
  gi_names : NoDup (daProcessName <$> data c);
  gi_data : Forall gnss_entry (data c);
  gi_class : class_ok (gmSyncState c)
}.

Lemma class_ok_same s s' : same_state s s' -> class_ok s -> class_ok s'.
Proof. intros (H1 & H2 & _) H. unfold class_ok in *. by rewrite H1, H2. Qed.

Lemma gm_inv_wf c : gm_inv c -> holder_wf (data c).
Proof. intros [HN HF _]. split; [done|]. eapply Forall_impl; [exact HF|]. by intros d []. Qed.

Lemma next_sync_class_ok env dh s :
  Forall gnss_entry dh -> class_ok s -> class_ok (next_sync env dh s).
Proof.
  intros HF Hs. unfold next_sync. apply decide_class_ok; [|done]. unfold gather.
  apply gather_gnss; [by left|..]; (eapply Forall_impl; [exact HF|]); intros d [Hw Hd] Hg; destruct (Hd Hg) as (?&?&[?|?]); auto.
Qed.

Lemma gm_inv_event env os ev c a c' e :
  gm_inv c -> gnss_typed ev -> AddEvent env os ev c = Some (a, c', e) -> gm_inv c'.
Proof.
  intros Hi HT HA. destruct (decide (evSource ev = PMC)) as [Hp|Hp].
  { revert HA. unfold AddEvent. rewrite Hp. by intros [= <- <- <-]. }
  destruct (AddEvent_step env os ev c (gm_inv_wf _ Hi) Hp) as (dh & Ed & Hw).
  destruct (wp_elim _ _ _ _ _ _ Hw HA) as [_ [[[HN _] Hdata] _ Hwait Hdec]]. destruct Hi as [HN0 HF Hc].
  assert (Forall gnss_entry dh) as HF'.
  { eapply (record_event_forall gnss_new gnss_entry); [| | |exact HF|exact Ed].
    - intros d [Hd Hg]. split; [done|]. intros H. by apply Hg.
    - split; [apply new_data_wf|]. intros. constructor.
    - intros. by eapply gnss_step. }
  split; [by rewrite Hdata|by rewrite Hdata|].
  destruct (decide (getLeadingInterface dh = LEADING_INTERFACE_UNKNOWN)) as [Hl|Hl].
  - destruct (Hwait Hl) as (_ & Hs & _). by eapply class_ok_same.
  - destruct (Hdec Hl) as (_ & Hs & _). eapply class_ok_same; [exact Hs|]. by apply next_sync_class_ok.
Qed.

Lemma reach_gm_inv cfg c : reach cfg c -> gm_inv c.
Proof.
  induction 1 as [|c env os ev a c' e Hr IH HT HA|c o a c' e Hr IH HR|c os a c' e Hr IH HS].
  - split; cbn; [constructor|constructor|by split].
  - by eapply gm_inv_event.
  - injection HR as <- <- <-. split; cbn; [constructor|constructor|by split].
  - destruct IH. eapply wp_elim in HS.
    2: { apply (gm_reconcile_wp os c (fun _ c' _ => gm_inv c')). intros. by split. }
    done.
Qed.

(** ** The announced class *)

Definition gm_class (cls : Z) : Prop :=
  cls = ClockClass6 \/ cls = ClockClass7 \/ cls = ClockClassOutOfSpec \/ cls = ClockClassFreerun.

Lemma gm_table_class i lost st cl : gm_table i lost = Some (st, cl) -> gm_class cl.
Proof. unfold gm_class, gm_table. intros H. repeat case_match; simplify_eq; auto. Qed.

(** A PMC client that works, whatever its settings are. *)
Definition pmc_works (env : Env) : Prop :=
  (forall cfg, exists g, pmcGetGMSettings env cfg = Some g) /\ forall cfg g, pmcSetGMSettings env cfg g = true.

Lemma announced_settings_class cls acc g :
  gm_class cls -> exists write g', announced_settings cls acc g = Some (write, g') /\
    Protocol.ClockClass (gsClockQuality (if write then g' else g)) = cls.
Proof.
  unfold announced_settings. intros [->|[->|[->| ->]]]; cbn; eexists _, _; (split; [reflexivity|]);
    repeat (case_match; try done); lia.
Qed.

Lemma announceClockClass_announces env c :
  pmc_works env -> gm_class (ClockClass c) ->
  wp (announceClockClass env) c (fun _ c' _ => gmAnnouncedClockClass c' = ClockClass c).
Proof.
  intros [Hget Hset] Hcls. unfold announceClockClass. wp_run.
  destruct (Hget (replace1 TS2PHC PTP4l (cfgName c))) as [g ->]. cbv zeta.
  destruct (announced_settings_class (ClockClass c) (ssClockAccuracy (gmSyncState c)) (traceable_settings env g) Hcls)
    as (w & g' & -> & Hw).
  wp_run. apply write_settings_wp. intros ok ->. rewrite Hset, orb_true_r. wp_run. exact Hw.
Qed.

Lemma announceIfChanged_announces env ev cs c :
  pmc_works env -> gm_class (ssClockClass cs) -> ClockClass c = ssClockClass cs ->
  wp (announceClockClassIfChanged env ev cs) c (fun _ c' _ => gmAnnouncedClockClass c' = ssClockClass cs).
Proof.
  intros Henv Hcls Hc. unfold announceClockClassIfChanged.
  destruct (Z.eqb_spec (ssClockClass cs) ClockClassUninitialized) as [E|_].
  { unfold gm_class in Hcls. rewrite E in Hcls. exfalso. destruct Hcls as [?|[?|[?|?]]]; discriminate. }
  wp_run. destruct (_ || _) eqn:E; cycle 1.
  { wp_run. apply orb_false_iff in E as [E%negb_false_iff _]. apply Z.eqb_eq in E. by symmetry. }
  unfold set_sync. wp_run. rewrite <- Hc.
  eapply wp_mono; [apply announceClockClass_announces; [done|]|].
  - unfold ClockClass in *. cbn. by rewrite Hc.
  - intros r c' e Hr. wp_run. destruct r; wp_run; cbn; exact Hr.
Qed.

(** ptp4l has the class: it answered with it, or a write of it succeeded. *)
Definition confirmed (env : Env) (cfg : string) (e : list Effect) (cls : Z) : Prop :=
  exists g, pmcGetGMSettings env cfg = Some g /\
    (Protocol.ClockClass (gsClockQuality g) = cls \/
     exists g', SetGMSettings cfg g' ∈ e /\ pmcSetGMSettings env cfg g' = true /\ Protocol.ClockClass (gsClockQuality g') = cls).

Definition pmc_config (c : GM) : string := replace1 TS2PHC PTP4l (cfgName c).

(** The announced class is kept, or it is the clock's and ptp4l has it. *)
Definition honest (env : Env) (cfg : string) (old cls : Z) (c' : GM) (e : list Effect) : Prop :=
  gmAnnouncedClockClass c' = old \/ (gmAnnouncedClockClass c' = cls /\ confirmed env cfg e cls).

Lemma honest_more env cfg old cls c' c2 e e' :
  gmAnnouncedClockClass c2 = gmAnnouncedClockClass c' -> (forall x, x ∈ e -> x ∈ e') ->
  honest env cfg old cls c' e -> honest env cfg old cls c2 e'.
Proof.
  intros E He [H|[H (g & Hg & Hc)]]; unfold honest; rewrite E; [by left|right]. split; [done|]. exists g. split; [done|].
  destruct Hc as [?|(g' & ? & ?)]; [by left|right]. exists g'. split; [by apply He|done].
Qed.

Lemma announced_settings_some cls acc g w g' :
  announced_settings cls acc g = Some (w, g') -> Protocol.ClockClass (gsClockQuality (if w then g' else g)) = cls.
Proof.
  unfold announced_settings. intros H. repeat (case_match; simplify_eq/=; try done); try lia.
  all: repeat match goal with E : (_ =? _) = true |- _ => apply Z.eqb_eq in E end; try congruence.
  all: try (destruct (negb _) eqn:E in *; cbn in *; simplify_eq/=; try done).
  all: repeat match goal with E : negb _ = false |- _ => apply negb_false_iff in E | E : (_ =? _) = true |- _ => apply Z.eqb_eq in E end; congruence.
Qed.

Lemma announceClockClass_honest env c :
  wp (announceClockClass env) c (fun _ c' e => honest env (pmc_config c) (gmAnnouncedClockClass c) (ClockClass c) c' e).
Proof.
  unfold announceClockClass. wp_run. fold (pmc_config c). destruct (pmcGetGMSettings env (pmc_config c)) as [g|] eqn:Eg; [|wp_run; by left].
  cbv zeta. destruct (announced_settings _ _ _) as [[w g']|] eqn:Ea; [|wp_run; by left].
  apply announced_settings_some in Ea. wp_run. apply write_settings_wp. intros ok Hok. cbv beta. destruct ok; wp_run; [right|by left].
  cbn. split; [exact Ea|]. exists g. split; [done|]. destruct w; [right|by left]. exists g'. split; [set_solver|]. split; [|done].
  by rewrite Hok.
Qed.

Lemma announceIfChanged_honest env ev cs c :
  ClockClass c = ssClockClass cs ->
  wp (announceClockClassIfChanged env ev cs) c (fun _ c' e => honest env (pmc_config c) (gmAnnouncedClockClass c) (ClockClass c) c' e).
Proof.
  intros Hc. unfold announceClockClassIfChanged. destruct (_ =? _); [apply wp_ret; by left|].
  wp_run. destruct (_ || _); [|wp_run; by left]. unfold set_sync. wp_run.
  eapply wp_mono; [apply announceClockClass_honest|]. intros r c' e Hr. unfold pmc_config, cfgName, ClockClass in *. cbn in Hr.
  destruct r; wp_run; (eapply honest_more; [|..|exact Hr]; [done|]); intros x Hx; set_solver.
Qed.

Lemma decide_gm_class i lost s :
  gm_class (ssClockClass s) -> gm_class (ssClockClass (decide_state i lost s)).
Proof.
  intros Hs. unfold gm_class in *. unfold decide_state, decide_dpll_ok, decide_dpll_unknown, free_run, locked, hold_over.
  repeat (case_match; cbn; try tauto; try done).
Qed.

Lemma AddEvent_announces env os ev c :
  holder_wf (data c) -> evSource ev <> PMC -> pmc_works env ->
  (forall dh, record_event (now env) true ev (data c) = Some dh ->
     getLeadingInterface dh <> LEADING_INTERFACE_UNKNOWN /\ gm_class (ssClockClass (next_sync env dh (gmSyncState c)))) ->
  wp (AddEvent env os ev) c (fun _ c' _ => gmAnnouncedClockClass c' = ClockClass c').
Proof.
  intros Hwf Hs Henv Hdh. unfold AddEvent. rewrite (str_eqb_ne _ _ Hs). wp_run.
  apply gm_record_wp; [done|]. intros dh E _. destruct (Hdh dh E) as [Hl Hcls].
  wp_run. apply gm_updateState_wp; cbn [data gmBase upd GM_fields bsData BaseClock_fields gmSyncState]; [done|].
  intros _ r s' (_ & Hr & _) (_ & Hs' & _) _. wp_run. apply gm_reconcile_wp. intros overall e1 _.
  wp_run. eapply wp_mono.
  - apply wp_and; [apply announceIfChanged_announces; [done|by rewrite Hr|unfold ClockClass; cbn; by rewrite Hs', Hr]|].
    apply (announceIfChanged_wp _ _ _ _ (fun _ c' _ => ClockClass c' = ssClockClass r)).
    intros c' e _ (_ & Hc & _) _ _. unfold ClockClass. rewrite Hc. cbn. by rewrite Hs', Hr.
  - intros _ c' e [Ha Hc]. wp_run. by rewrite Ha, Hc.
Qed.

(** Whatever the PMC client does. *)
Lemma AddEvent_honest env os ev c :
  holder_wf (data c) -> evSource ev <> PMC ->
  (forall dh, record_event (now env) true ev (data c) = Some dh -> getLeadingInterface dh <> LEADING_INTERFACE_UNKNOWN) ->
  wp (AddEvent env os ev) c (fun _ c' e => honest env (pmc_config c) (gmAnnouncedClockClass c) (ClockClass c') c' e).
Proof.
  intros Hwf Hs Hdh. unfold AddEvent. rewrite (str_eqb_ne _ _ Hs). wp_run.
  apply gm_record_wp; [done|]. intros dh E _. pose proof (Hdh dh E) as Hl.
  wp_run. apply gm_updateState_wp; cbn [data gmBase upd GM_fields bsData BaseClock_fields gmSyncState]; [done|].
  intros _ r s' (_ & Hr & _) (_ & Hs' & _) _. wp_run. apply gm_reconcile_wp. intros overall e1 _.
  wp_run. eapply wp_mono.
  - apply wp_and; [apply (announceIfChanged_honest env ev r); unfold ClockClass; cbn; by rewrite Hs', Hr|].
    match goal with |- wp _ ?x _ => apply (announceIfChanged_wp _ _ _ _ (fun _ c' _ => ClockClass c' = ClockClass x)) end.
    intros c' e _ (_ & Hc & _) _ _. unfold ClockClass. by rewrite Hc.
  - intros _ c' e [Ha Hc]. wp_run. rewrite <- Hc in Ha. eapply honest_more; [| |exact Ha]; [done|]. intros x Hx. set_solver.
Qed.

(** ** Properties *)

(** C6. The grandmaster implements its decision table: whenever the leading interface is
    known and the table of the comment gives a row for the states of the sources, an
    event leaves the clock in the state and class of that row, reports them, publishes
    the state exactly when it changed (the very first one excepted) and the class
    exactly when it changed. *)
Theorem GM_decision_table env os ev c dh st cl :
  holder_wf (data c) -> evSource ev <> PMC -> record_event (now env) true ev (data c) = Some dh ->
  getLeadingInterface dh <> LEADING_INTERFACE_UNKNOWN ->
  gm_table (gather (NoSourceTSCount env) (getLeadingInterface dh) dh) (isSourceLost dh) = Some (st, cl) ->
  exists r c' e, AddEvent env os ev c = Some ((r, zero_nmea r ev), c', e) /\
    GetState c' = st /\ ClockClass c' = cl /\ ssState r = st /\ ssClockClass r = cl /\
    sent TypePTPState e =
      (if str_eqb st (GetState c) || str_eqb (GetState c) PTP_NOTSET then []
       else [message TypePTPState (cfgName c) (getLeadingInterface dh) (StateValue (PtpStateToIPCState st) 0)]) /\
    sent TypeClockClass e =
      (if cl =? ClockClass c then []
       else [message TypeClockClass (cfgName c) (getLeadingInterface dh) (ClockClassValue (uint8 cl))]).
Proof.
  intros Hwf Hs E Hl Ht. destruct (AddEvent_step env os ev c Hwf Hs) as (dh' & E' & Hw).
  assert (dh' = dh) as -> by congruence. destruct Hw as ([r ev'] & c' & e & HA & Hev & [_ _ _ Hd]). cbn in Hev, Hd. subst ev'.
  destruct (Hd Hl) as ((R1 & R2 & _) & (S1 & S2 & _) & M1 & M2).
  destruct (decide_table _ _ ((gmSyncState c) <| ssSourceLost := isSourceLost dh |> <| ssLeadingIFace := getLeadingInterface dh |>) _ _ Ht)
    as [T1 T2]. fold (next_sync env dh (gmSyncState c)) in T1, T2.
  exists r, c', e. unfold GetState, ClockClass in *. rewrite S1, S2, R1, R2, M1, M2, T1, T2.
  repeat (split; [done|]). assert ((cl =? ClockClassUninitialized) = false) as ->; [|by rewrite orb_false_r].
  by destruct (gm_table_class _ _ _ _ Ht) as [->|[->|[->| ->]]].
Qed.

(** In every life of a grandmaster (any order of source events, environments, PMC
    failures, resets and OS clock changes) LOCKED goes with clock class 6 and HOLDOVER
    with clock class 7. *)
Theorem GM_class_matches_state cfg c :
  reach cfg c ->
  (GetState c = PTP_LOCKED -> ClockClass c = ClockClass6) /\ (GetState c = PTP_HOLDOVER -> ClockClass c = ClockClass7).
Proof. intros Hr. apply (gi_class _ (reach_gm_inv _ _ Hr)). Qed.

(** A follower DPLL that is not locked while the leading DPLL is forces the
    grandmaster to FREERUN, whatever the other sources say. *)
Theorem GM_follower_fault_freeruns env os ev c dh d l f :
  holder_wf (data c) -> evSource ev <> PMC -> record_event (now env) true ev (data c) = Some dh ->
  getLeadingInterface dh <> LEADING_INTERFACE_UNKNOWN ->
  find_data DPLL dh = Some d -> GetDataDetails (getLeadingInterface dh) d = Some l -> dtState l = PTP_LOCKED ->
  f ∈ daDetails d -> dtIFace f <> getLeadingInterface dh -> dtState f <> PTP_LOCKED ->
  exists a c' e, AddEvent env os ev c = Some (a, c', e) /\ GetState c' = PTP_FREERUN /\ ssState (fst a) = PTP_FREERUN.
Proof.
  intros Hwf Hs E Hl Hd Hld Hls Hf Hi Hfs. destruct (AddEvent_step env os ev c Hwf Hs) as (dh' & E' & Hw).
  assert (dh' = dh) as -> by congruence. destruct Hw as (a & c' & e & HA & _ & [_ _ _ Hdec]).
  destruct (Hdec Hl) as ((R1 & _) & (S1 & _) & _). exists a, c', e. split; [done|]. unfold GetState.
  rewrite R1, S1, next_sync_fault by (by eapply nonLeadingFault_spec). done.
Qed.

(** C38. The announcement to ptp4l.  Every event that decides a state leaves the announced
    class as it was, or makes it the clock's class, and then ptp4l has that class: it
    answered with it, or the write of it succeeded; so a failed announcement is not recorded.
    With a working PMC client the announced class is the clock's after the event, whatever
    failed before: a failed announcement is retried by the next event. *)
Theorem GM_announcement_converges env os ev c dh :
  holder_wf (data c) -> evSource ev <> PMC ->
  record_event (now env) true ev (data c) = Some dh ->
  getLeadingInterface dh <> LEADING_INTERFACE_UNKNOWN ->
  gm_class (ClockClass c) \/ gm_table (gather (NoSourceTSCount env) (getLeadingInterface dh) dh) (isSourceLost dh) <> None ->
  exists a c' e, AddEvent env os ev c = Some (a, c', e) /\
    (gmAnnouncedClockClass c' = gmAnnouncedClockClass c \/
     (gmAnnouncedClockClass c' = ClockClass c' /\ confirmed env (pmc_config c) e (ClockClass c'))) /\
    (pmc_works env -> gmAnnouncedClockClass c' = ClockClass c').
Proof.
  intros Hwf Hs E Hl Hc.
  destruct (AddEvent_honest env os ev c Hwf Hs) as (a & c' & e & HA & Hh); [intros dh' E'; by assert (dh' = dh) as -> by congruence|].
  exists a, c', e. split; [exact HA|]. split; [exact Hh|]. intros Hp.
  destruct (AddEvent_announces env os ev c Hwf Hs Hp) as (a2 & c2 & e2 & HA2 & H2); [|congruence].
  intros dh' E'. assert (dh' = dh) as -> by congruence. split; [done|]. unfold next_sync.
  destruct Hc as [Hc|Hc]; [by apply decide_gm_class|].
  destruct (gm_table _ _) as [[st cl]|] eqn:Et; [|done].
  destruct (decide_table _ _ ((gmSyncState c) <| ssSourceLost := isSourceLost dh |> <| ssLeadingIFace := getLeadingInterface dh |>) _ _ Et)
    as [_ ->]. by eapply gm_table_class.
Qed.

(** Without a DPLL the source-lost flag suppresses the row of the table: the clock keeps
    its state and class, where the table says FREERUN and 248. *)
Lemma GM_no_dpll_keeps_locked i s :
  inDpll i = PTP_NOTSET -> inGnss i = PTP_FREERUN -> inTs2phc i = PTP_LOCKED -> decide_state i true s = s.
Proof. intros E1 E2 E3. unfold decide_state, decide_dpll_ok. by rewrite E1, E2, E3. Qed.

(** While ptp4l already has class 7, a new accuracy is never written. *)
Lemma GM_accuracy_not_pushed acc g :
  Protocol.ClockClass (gsClockQuality g) = ClockClass7 ->
  exists g', announced_settings ClockClass7 acc g = Some (false, g').
Proof. intros E. unfold announced_settings. rewrite E. by eexists. Qed.

(** A run: GNSS, DPLL and ts2phc lock; a second DPLL fails. *)
Definition ex_settings : GrandmasterSettings := zero_GrandmasterSettings.
Definition ex_env : Env := mkEnv 100 37 0 (fun _ => Some ex_settings) (fun _ _ => true).
Definition ex_ev (source iface : string) (d : EventData) : Event :=
  mkEvent source iface "ts2phc.0.config" GM_type 1 false false (Some d).
Definition ex_dpll (iface : string) (st : PTPState) : Event :=
  ex_ev DPLL iface (EDPLL (mkDPLLData st false false true true (Some 5) (Some 3) (Some 3) 1 0 0 0 0 false)).
Definition ex_step (ev : Event) (c : GM) : GM :=
  match AddEvent ex_env PTP_LOCKED ev c with Some (_, c', _) => c' | None => c end.
Definition ex_gnss_ev : Event := ex_ev GNSS "ens1f0" (EGNSS (mkGNSSData 3 0 false)).
Definition ex_gnss : GM := ex_step ex_gnss_ev (NewGM "ts2phc.0.config").
Definition ex_both : GM := ex_step (ex_dpll "ens1f0" PTP_LOCKED) ex_gnss.
Definition ex_ts2phc : Event := ex_ev TS2PHC "ens1f0" (EOffset (mkOffsetData PTP_LOCKED 3 false (Some true))).
Definition ex_locked : GM := ex_step ex_ts2phc ex_both.
Definition ex_data (ev : Event) (c : GM) : list Data := default [] (record_event 100 true ev (data c)).

Lemma gm_ex_reach : reach "ts2phc.0.config" ex_locked.
Proof.
  eapply (reach_event _ ex_both ex_env PTP_LOCKED ex_ts2phc); [|by intros H|vm_compute; reflexivity].
  eapply (reach_event _ ex_gnss ex_env PTP_LOCKED (ex_dpll "ens1f0" PTP_LOCKED)); [|by intros H|vm_compute; reflexivity].
  eapply (reach_event _ (NewGM "ts2phc.0.config") ex_env PTP_LOCKED ex_gnss_ev);
    [apply reach_new|by eexists|vm_compute; reflexivity].
Qed.

Lemma GM_decision_table_witness :
  exists r c' e, AddEvent ex_env PTP_LOCKED ex_ts2phc ex_both = Some ((r, zero_nmea r ex_ts2phc), c', e) /\
    GetState c' = PTP_LOCKED /\ ClockClass c' = ClockClass6.
Proof.
  destruct (GM_decision_table ex_env PTP_LOCKED ex_ts2phc ex_both (ex_data ex_ts2phc ex_both) PTP_LOCKED ClockClass6)
    as (r & c' & e & H1 & H2 & H3 & _);
    [concrete_wf|discriminate|vm_compute; reflexivity|vm_compute; discriminate|vm_compute; reflexivity|].
  exists r, c', e. split; [exact H1|]. split; [exact H2|exact H3].
Defined.

Lemma GM_class_matches_state_witness : ClockClass ex_locked = ClockClass6.
Proof. apply (GM_class_matches_state "ts2phc.0.config" ex_locked gm_ex_reach). vm_compute. reflexivity. Defined.

Lemma GM_follower_fault_freeruns_witness :
  exists a c' e, AddEvent ex_env PTP_LOCKED (ex_dpll "ens2f0" PTP_FREERUN) ex_locked = Some (a, c', e) /\
    GetState c' = PTP_FREERUN.
Proof.
  destruct (GM_follower_fault_freeruns ex_env PTP_LOCKED (ex_dpll "ens2f0" PTP_FREERUN) ex_locked
    (ex_data (ex_dpll "ens2f0" PTP_FREERUN) ex_locked)
    (default (new_data DPLL true) (find_data DPLL (ex_data (ex_dpll "ens2f0" PTP_FREERUN) ex_locked)))
    (new_detail 100 (ex_dpll "ens1f0" PTP_LOCKED) true) (new_detail 100 (ex_dpll "ens2f0" PTP_FREERUN) true))
    as (a & c' & e & H1 & H2 & _);
    [concrete_wf|discriminate|vm_compute; reflexivity|vm_compute; discriminate|vm_compute; reflexivity|
     vm_compute; reflexivity|reflexivity|vm_compute; right; left|vm_compute; discriminate|discriminate|].
  exists a, c', e. split; [exact H1|exact H2].
Defined.

(** A PMC client whose writes fail: the class is decided and not recorded as announced. *)
Definition ex_deaf : Env := mkEnv 100 37 0 (fun _ => Some ex_settings) (fun _ _ => false).

Lemma GM_announcement_converges_witness :
  (exists a c' e, AddEvent ex_env PTP_LOCKED ex_ts2phc ex_both = Some (a, c', e) /\ gmAnnouncedClockClass c' = ClockClass c') /\
  (exists a c' e, AddEvent ex_deaf PTP_LOCKED ex_ts2phc ex_both = Some (a, c', e) /\
     gmAnnouncedClockClass c' = gmAnnouncedClockClass ex_both /\ ClockClass c' = ClockClass6).
Proof.
  split.
  - destruct (GM_announcement_converges ex_env PTP_LOCKED ex_ts2phc ex_both (ex_data ex_ts2phc ex_both)) as (a & c' & e & H & _ & Hp);
      [concrete_wf|discriminate|vm_compute; reflexivity|vm_compute; discriminate|right; vm_compute; discriminate|].
    exists a, c', e. split; [exact H|]. apply Hp. split; [intros; by exists ex_settings|done].
  - destruct (GM_announcement_converges ex_deaf PTP_LOCKED ex_ts2phc ex_both (ex_data ex_ts2phc ex_both)) as (a & c' & e & H & Hh & _);
      [concrete_wf|discriminate|vm_compute; reflexivity|vm_compute; discriminate|right; vm_compute; discriminate|].
    assert (ClockClass c' = ClockClass6) as Hcl by (vm_compute in H; injection H as _ <- _; reflexivity).
    exists a, c', e. split; [exact H|]. split; [|exact Hcl]. destruct Hh as [Hh|[_ (g & Hg & Hcls)]]; [exact Hh|]. exfalso.
    rewrite Hcl in Hcls. vm_compute in Hg. injection Hg as <-. destruct Hcls as [Hcls|(g' & _ & Hset & _)]; [discriminate Hcls|discriminate Hset].
Defined.

End Gm.
