(* ===== verification/HA.v ===== *)
(** * pkg/clock/ha.go: the high-availability clock

    A composite of member boundary clocks.  The members are a Go map: its iteration
    order is unspecified, so every method that ranges over it takes the [order] in
    which this call sees the config names.  Members are pointers that only the
    composite reaches, one per config name, so the map holds their values.  Members
    publish through an interceptor that drops their own [sync_state]. *)

From S2P Require Import Prelude Float64 Utils Strconv Protocol Ipc Event Stats ClockBase Method BC.

Record HAClock := mkHA {
  haBase : BaseClock;
  members : gmap string BCClock;
  memberProfiles : gmap string string;
  haSyncState : PTPState;
  activeCfg : string
}.

#[export] Instance HAClock_fields : Fields HAClock := fun c =>
  mkHA (haBase c) (members c) (memberProfiles c) (haSyncState c) (activeCfg c).

Module Ha.

Record HAMember := mkMember { hmProfile : string; hmClock : BCClock }.

Definition NewHA (cfgName : string) (ms : list HAMember) : HAClock :=
  foldl (fun c m =>
      let cfg := BC.cfgName (hmClock m) in
      c <| members := <[cfg := hmClock m]> (members c) |> <| memberProfiles := <[cfg := hmProfile m]> (memberProfiles c) |>)
    (mkHA (newBaseClock cfgName zero_threshold) ∅ ∅ PTP_NOTSET "") ms.

Definition cfgName (c : HAClock) : string := bsCfgName (haBase c).
Definition GetState (c : HAClock) : PTPState := haSyncState c.

(** [interceptMemberIPC]: what passes of the effects of a member. *)
Definition passes (e : Effect) : bool :=
  match e with SendIPC m => negb (str_eqb (mType m) TypeSyncState) | _ => true end.

Definition interceptMemberIPC (es : list Effect) : list Effect := filter (fun e => passes e = true) es.

(** A method of the member [cfg], its messages intercepted. *)
Definition member {A} (cfg : string) (m : M BCClock A) : M HAClock (option A) := fun c =>
  match members c !! cfg with
  | None => Some (None, c, [])
  | Some bc =>
      match m bc with
      | Some (a, bc', e) => Some (Some a, c <| members := <[cfg := bc']> (members c) |>, interceptMemberIPC e)
      | None => None
      end
  end.

(** [for _, m := range c.members]. *)
Fixpoint each_member {A} (order : list string) (m : M BCClock A) : M HAClock unit :=
  match order with
  | [] => mret tt
  | cfg :: order' => _ ← member cfg m; each_member order' m
  end.

Definition ConfigNames_ (order : list string) (c : HAClock) : list string := ConfigNames (haBase c) ++ order.

Definition activeMember (c : HAClock) : option BCClock :=
  if str_eqb (activeCfg c) "" then None else members c !! activeCfg c.

Definition ClockClass (c : HAClock) : Z :=
  match activeMember c with Some m => BC.ClockClass m | None => 0 end.

(** A member is the active one when it is the same pointer: the same config name. *)
Definition is_active (c : HAClock) (cfg : string) : bool :=
  match activeMember c with Some _ => str_eqb cfg (activeCfg c) | None => false end.

Definition haProfileStatus (order : list string) (c : HAClock) : option (gmap string bool) :=
  if decide (members c = ∅) then None
  else Some (foldl (fun status cfg => <[default "" (memberProfiles c !! cfg) := is_active c cfg]> status) ∅ order).

Definition currentSyncState (order : list string) (c : HAClock) : SyncState :=
  zero_SyncState <| ssState := haSyncState c |> <| ssClockClass := ClockClass c |>
    <| ssLeadingIFace := match activeMember c with
                         | Some m => ssLeadingIFace (BC.currentSyncState m)
                         | None => LEADING_INTERFACE_UNKNOWN
                         end |>
    <| ssHAProfileStatus := haProfileStatus order c |>.

(** [ProcessDataForConfig]: the data of the first member that has the config name. *)
Definition ProcessDataForConfig (order : list string) (o : OsClock) (cfgName : string) (c : HAClock) : list Data :=
  match first_match (fun cfg => match members c !! cfg with
                                | Some m => bool_decide (cfgName ∈ ConfigNames (bcBase m))
                                | None => false
                                end) order with
  | Some cfg => match members c !! cfg with Some m => ProcessData (bcBase m) o | None => [] end
  | None => ProcessData (haBase c) o
  end.

Definition bestOfState (a b : PTPState) : PTPState :=
  if str_eqb a PTP_LOCKED || str_eqb b PTP_LOCKED then PTP_LOCKED
  else if str_eqb a PTP_HOLDOVER || str_eqb b PTP_HOLDOVER then PTP_HOLDOVER
  else if str_eqb a PTP_FREERUN || str_eqb b PTP_FREERUN then PTP_FREERUN
  else a.

Definition member_states (order : list string) (c : HAClock) : list PTPState :=
  omap (fun cfg => BC.GetState <$> members c !! cfg) order.

Definition bestMemberState (order : list string) (c : HAClock) : PTPState :=
  foldl bestOfState PTP_NOTSET (member_states order c).

(** [setActiveByIface]: the first member seen that owns the interface. *)
Definition setActiveByIface (order : list string) (iface : string) (c : HAClock) : HAClock :=
  match first_match (fun cfg => match members c !! cfg with Some m => str_eqb (bcIface m) iface | None => false end) order with
  | Some cfg => c <| activeCfg := cfg |>
  | None => c
  end.

Definition reconcile (os : PTPState) : M HAClock unit :=
  c ← get;
  let '(overall, es) := emitOverallSyncStateIfChanged (bsOverall (haBase c)) (haSyncState c) os (cfgName c) in
  modify (fun c => c <| haBase := (haBase c) <| bsOverall := overall |> |>);;
  emits es.

Definition status_only (order : list string) (c : HAClock) : SyncState :=
  zero_SyncState <| ssState := haSyncState c |> <| ssHAProfileStatus := haProfileStatus order c |>.

Definition AddEvent (now : Z) (os : PTPState) (order : list string) (ev : Event) : M HAClock SyncState :=
  match evData ev with
  | Some (ESelectedSource iface) =>
      modify (setActiveByIface order iface);;
      gets (status_only order)
  | _ =>
      r ← member (evCfgName ev) (BC.AddEvent now os ev);
      match r with
      | None => gets (status_only order)
      | Some ms =>
          modify (fun c => c <| haSyncState := bestMemberState order c |>);;
          reconcile os;;
          c ← get;
          mret (ms <| ssHAProfileStatus := haProfileStatus order c |>)
      end
  end.

Definition SystemClockUpdate (os : PTPState) (order : list string) : M HAClock unit :=
  reconcile os;;
  each_member order (BC.SystemClockUpdate os).

(** [Reset] resets the members, the composite and the shared OS clock. *)
Definition Reset (order : list string) (o : OsClock) : M HAClock OsClock :=
  each_member order (BC.Reset o);;
  c ← get;
  let '(b, o) := BaseClock_Reset (haBase c) o in
  modify (fun c => c <| haBase := b <| bsOverall := PTP_FREERUN |> |> <| haSyncState := PTP_FREERUN |> <| activeCfg := "" |>);;
  mret o.

(** ** Specification *)

(** The healthiest of the states present. *)
Definition best_state (states : list PTPState) : PTPState :=
  if bool_decide (PTP_LOCKED ∈ states) then PTP_LOCKED
  else if bool_decide (PTP_HOLDOVER ∈ states) then PTP_HOLDOVER
  else if bool_decide (PTP_FREERUN ∈ states) then PTP_FREERUN
  else PTP_NOTSET.

(** An iteration order of the members. *)
Definition iterates (order : list string) (c : HAClock) : Prop :=
  NoDup order /\ forall cfg, cfg ∈ order <-> is_Some (members c !! cfg).

Lemma best_fold states acc :
  acc = PTP_NOTSET \/ real_state acc -> foldl bestOfState acc states = best_state (acc :: states).
Proof.
  revert acc. induction states as [|s states IH]; intros acc Hacc; cbn [foldl].
  - unfold best_state. by destruct Hacc as [->|[->|[->| ->]]].
  - rewrite IH; cycle 1.
    { unfold bestOfState, real_state in *. repeat case_match; tauto. }
    unfold best_state, bestOfState. rewrite !elem_cons_bool.
    destruct Hacc as [->|[->|[->| ->]]]; state_cases s; cbn [orb]; str_norm; cbn [orb]; repeat case_bool_decide; done.
Qed.

Lemma bestMemberState_spec order c : bestMemberState order c = best_state (member_states order c).
Proof. unfold bestMemberState. rewrite best_fold by by left. unfold best_state. by rewrite !elem_cons_bool. Qed.

Lemma best_state_perm l k : l ≡ₚ k -> best_state l = best_state k.
Proof. intros H. unfold best_state. by rewrite !(bool_decide_ext _ _ (elem_of_Permutation_proper _ _ _ H)). Qed.

Lemma iterates_perm order order' c : iterates order c -> iterates order' c -> order ≡ₚ order'.
Proof. intros [H1 H2] [H3 H4]. apply NoDup_Permutation; [done..|]. intros x. by rewrite H2, H4. Qed.

Lemma member_states_perm order order' c :
  iterates order c -> iterates order' c -> member_states order c ≡ₚ member_states order' c.
Proof. intros H1 H2. unfold member_states. by rewrite (iterates_perm _ _ _ H1 H2). Qed.

(** Nothing a member publishes about the overall state passes. *)
Lemma intercept_sync es : sent TypeSyncState (interceptMemberIPC es) = [].
Proof.
  unfold sent, interceptMemberIPC. induction es as [|e es IH]; [done|]. rewrite filter_cons.
  case_decide as E; [|done]. cbn. unfold passes in E. destruct e; try done. cbn.
  destruct (str_eqb (mType m) TypeSyncState); done.
Qed.

(** Everything else passes. *)
Lemma intercept_other ty es : ty <> TypeSyncState -> sent ty (interceptMemberIPC es) = sent ty es.
Proof.
  intros Hty. unfold sent, interceptMemberIPC. induction es as [|e es IH]; [done|]. rewrite filter_cons.
  case_decide as E; cbn; [by rewrite IH|]. unfold passes in E. destruct e as [m| | | | | | | | |]; try done. cbn.
  destruct (str_eqb (mType m) TypeSyncState) eqn:Em; [|done]. apply str_eqb_eq in Em. rewrite Em.
  rewrite str_eqb_ne by congruence. by rewrite IH.
Qed.

Lemma ha_reconcile_wp os c Q :
  Q tt (c <| haBase := (haBase c) <| bsOverall := WorstOfState (haSyncState c) os |> |>)
    (if str_eqb (WorstOfState (haSyncState c) os) (bsOverall (haBase c)) then []
     else [SendIPC (message TypeSyncState (cfgName c) ""
             (SyncStateValue (PtpStateToIPCState (WorstOfState (haSyncState c) os))))]) ->
  wp (reconcile os) c Q.
Proof. intros H. unfold reconcile. wp_run. rewrite emitOverall_spec. wp_run. exact H. Qed.

Lemma member_wp {A} cfg (m : M BCClock A) c bc Q :
  members c !! cfg = Some bc ->
  wp m bc (fun a bc' e => Q (Some a) (c <| members := <[cfg := bc']> (members c) |>) (interceptMemberIPC e)) ->
  wp (member cfg m) c Q.
Proof.
  intros E (a & bc' & e & Hm & HQ). unfold member. eexists _, _, _. rewrite E, Hm. by split.
Qed.

(** What an overall-state message adds to the messages sent. *)
Lemma sent_one (b : bool) ty m :
  sent ty (if b then [] else [SendIPC m]) = if b then [] else if str_eqb (mType m) ty then [m] else [].
Proof. destruct b; [done|]. unfold sent; cbn. by destruct (str_eqb _ _). Qed.

Lemma status_fold_other (p : string -> string) (f : string -> bool) order acc k :
  k ∉ (p <$> order) -> foldl (fun (s : gmap string bool) cfg => <[p cfg := f cfg]> s) acc order !! k = acc !! k.
Proof.
  revert acc. induction order as [|x order IH]; intros acc Hk; [done|]. cbn [foldl].
  rewrite fmap_cons in Hk. apply not_elem_of_cons in Hk as [Hx Hk]. rewrite IH by done. by apply lookup_insert_ne.
Qed.

Lemma status_fold (p : string -> string) (f : string -> bool) order acc x :
  NoDup (p <$> order) -> x ∈ order ->
  foldl (fun (s : gmap string bool) cfg => <[p cfg := f cfg]> s) acc order !! p x = Some (f x).
Proof.
  revert acc. induction order as [|y order IH]; intros acc HN Hx; [by apply elem_of_nil in Hx|].
  rewrite fmap_cons in HN. apply NoDup_cons in HN as [Hy HN]. cbn [foldl].
  apply elem_of_cons in Hx as [->|Hx]; [|by apply IH].
  rewrite status_fold_other by done. by rewrite lookup_insert_eq.
Qed.

(** ** Properties *)

(** C36. The composite state of a high-availability clock is the best of its members: after
    an event of one member only that member has moved, as a boundary clock does; the
    composite state is the healthiest member state whatever the order in which the map
    is visited; and the one overall state published for the node, exactly when it
    changes, is the composite's worst-of with the OS clock, never a member's own. *)
Theorem HA_best_of_members now os order ev c m :
  members c !! evCfgName ev = Some m -> iterates order c -> (forall i, evData ev <> Some (ESelectedSource i)) ->
  holder_wf (bsData (bcBase m)) -> BC.usable ev ->
  exists ms c' e m', AddEvent now os order ev c = Some (ms, c', e) /\
    members c' = <[evCfgName ev := m']> (members c) /\ bcSyncState m' = BC.next_state m ev /\
    (forall order', iterates order' c' -> haSyncState c' = best_state (member_states order' c')) /\
    bsOverall (haBase c') = WorstOfState (haSyncState c') os /\
    sent TypeSyncState e =
      (if str_eqb (WorstOfState (haSyncState c') os) (bsOverall (haBase c)) then []
       else [message TypeSyncState (cfgName c) "" (SyncStateValue (PtpStateToIPCState (WorstOfState (haSyncState c') os)))]) /\
    sent TypePTPState e =
      (if str_eqb (bcSyncState m') (bcSyncState m) then []
       else [message TypePTPState (BC.cfgName m) (BC.report_iface m ev) (StateValue (PtpStateToIPCState (bcSyncState m')) 0)]).
Proof.
  intros Hm Hit Hsel Hd Hu.
  assert (wp (AddEvent now os order ev) c (fun _ c' e => exists m',
    members c' = <[evCfgName ev := m']> (members c) /\ bcSyncState m' = BC.next_state m ev /\
    haSyncState c' = bestMemberState order c' /\
    bsOverall (haBase c') = WorstOfState (haSyncState c') os /\
    sent TypeSyncState e = (if str_eqb (WorstOfState (haSyncState c') os) (bsOverall (haBase c)) then []
       else [message TypeSyncState (cfgName c) "" (SyncStateValue (PtpStateToIPCState (WorstOfState (haSyncState c') os)))]) /\
    sent TypePTPState e =
      (if str_eqb (bcSyncState m') (bcSyncState m) then []
       else [message TypePTPState (BC.cfgName m) (BC.report_iface m ev) (StateValue (PtpStateToIPCState (bcSyncState m')) 0)])))
    as (ms & c' & e & HA & m' & H1 & H2 & H3 & H4 & H5 & H6).
  - unfold AddEvent. destruct (evData ev) as [[]|]; try (by destruct (Hsel IFace)).
    all: wp_run; (eapply member_wp; [exact Hm|]); (eapply wp_mono; [by apply BC.AddEvent_stepped|]);
      intros ss m' e (_ & [_ _ Hst Hmsg _]); wp_run; apply ha_reconcile_wp; wp_run; exists m';
      (split; [done|]); (split; [done|]); (split; [done|]); (split; [done|]);
      rewrite ?sent_app, intercept_sync, intercept_other, Hmsg, Hst by done; rewrite ?app_nil_l, ?app_nil_r;
      rewrite !sent_one; (split; [done|]); destruct (str_eqb (WorstOfState _ os) _); by rewrite app_nil_r.
  - exists ms, c', e, m'. repeat (split; [done|]). split; [|done].
    intros order' Ho'. rewrite H3, bestMemberState_spec. apply best_state_perm, member_states_perm; [|done].
    destruct Hit as [HN Hin]. split; [done|]. intros cfg. rewrite Hin, H1.
    destruct (decide (cfg = evCfgName ev)) as [->|Hne]; [rewrite Hm, lookup_insert_eq; by split; eauto|by rewrite lookup_insert_ne].
Qed.

(** When phc2sys selects the interface of a member, that member becomes the active one,
    and the reported status is true for the profile of the active member and false for
    every other member's. *)
Theorem HA_exactly_one_active now os order ev iface c :
  evData ev = Some (ESelectedSource iface) -> iterates order c -> NoDup ((fun cfg => default "" (memberProfiles c !! cfg)) <$> order) ->
  members c !! "" = None -> (exists cfg m, members c !! cfg = Some m /\ bcIface m = iface) ->
  exists r c' e active m status, AddEvent now os order ev c = Some (r, c', e) /\
    members c !! active = Some m /\ bcIface m = iface /\ activeCfg c' = active /\
    ssHAProfileStatus r = Some status /\
    forall cfg, cfg ∈ order -> status !! default "" (memberProfiles c !! cfg) = Some (str_eqb cfg active).
Proof.
  intros Hev [HN Hin] HP Hempty (cfg0 & m0 & Hm0 & Hi0).
  destruct (first_match (fun cfg => match members c !! cfg with Some m => str_eqb (bcIface m) iface | None => false end) order)
    as [active|] eqn:E; cycle 1.
  { apply first_match_None in E. rewrite Forall_forall in E. specialize (E cfg0 (proj2 (Hin _) (mk_is_Some _ _ Hm0))).
    rewrite Hm0, Hi0, str_eqb_refl in E. done. }
  assert (setActiveByIface order iface c = c <| activeCfg := active |>) as Hset by (unfold setActiveByIface; by rewrite E).
  apply first_match_Some in E as [Hact Hao]. destruct (members c !! active) as [m|] eqn:Em; [|done].
  apply str_eqb_eq in Hact. set (c' := setActiveByIface order iface c) in *.
  exists (status_only order c'), c', [], active, m.
  eexists. split; [unfold AddEvent; rewrite Hev; reflexivity|]. split; [done|]. split; [done|]. rewrite Hset. split; [done|].
  cbn. unfold haProfileStatus. cbn [members upd HAClock_fields]. rewrite decide_False by (intros H; rewrite H in Em; done).
  split; [reflexivity|]. intros cfg Hcfg.
  rewrite (status_fold (fun cfg => default "" (memberProfiles c !! cfg)) (is_active _)) by done.
  unfold is_active, activeMember. cbn. rewrite str_eqb_ne by (intros ->; congruence). by rewrite Em.
Qed.

(** Two members, one on each port. *)
Definition ex_member (cfg iface : string) : BCClock :=
  (BC.NewBC cfg false BC.ex_thr) <| bcIface := iface |> <| bcSyncState := PTP_LOCKED |>.
Definition ex_ha : HAClock :=
  NewHA "phc2sys.2.config" [mkMember "profile-a" (ex_member "ptp4l.0.config" "ens1f0");
                            mkMember "profile-b" (ex_member "ptp4l.1.config" "ens2f0")].
Definition ex_order : list string := ["ptp4l.1.config"; "ptp4l.0.config"].
Definition ex_lost : Event :=
  mkEvent PTP4l "ens1f0" "ptp4l.0.config" BC_type 1 false false (Some (EOffset (mkOffsetData PTP_FREERUN 0 true None))).
Definition ex_selected : Event :=
  mkEvent PHC2SYS "" "phc2sys.2.config" HA_type 1 false false (Some (ESelectedSource "ens2f0")).

Lemma ex_iterates : iterates ex_order ex_ha.
Proof.
  split; [apply (bool_decide_eq_true_1 _); vm_compute; reflexivity|]. intros cfg.
  change (members ex_ha) with (<["ptp4l.1.config" := ex_member "ptp4l.1.config" "ens2f0"]>
    (<["ptp4l.0.config" := ex_member "ptp4l.0.config" "ens1f0"]> (∅ : gmap string BCClock))).
  unfold ex_order. rewrite !elem_of_cons, elem_of_nil, !lookup_insert_is_Some, lookup_empty.
  destruct (decide (cfg = "ptp4l.1.config")), (decide (cfg = "ptp4l.0.config")); split; intros H; subst; try tauto;
    try (left; done); try (right; split; [congruence|]; left; done);
    destruct H as [?|[? [?|[? [x Hx]]]]]; try congruence; done.
Qed.

Lemma HA_best_of_members_witness :
  exists ms c' e m', AddEvent 1 PTP_LOCKED ex_order ex_lost ex_ha = Some (ms, c', e) /\
    members c' = <["ptp4l.0.config" := m']> (members ex_ha) /\ bcSyncState m' = PTP_HOLDOVER.
Proof.
  destruct (HA_best_of_members 1 PTP_LOCKED ex_order ex_lost ex_ha (ex_member "ptp4l.0.config" "ens1f0"))
    as (ms & c' & e & m' & H1 & H2 & H3 & _); [reflexivity|exact ex_iterates|discriminate|concrete_wf|done|].
  exists ms, c', e, m'. split; [exact H1|]. split; [exact H2|]. rewrite H3. vm_compute. reflexivity.
Defined.

Lemma HA_exactly_one_active_witness :
  exists r c' e active m status, AddEvent 1 PTP_LOCKED ex_order ex_selected ex_ha = Some (r, c', e) /\
    members ex_ha !! active = Some m /\ bcIface m = "ens2f0" /\ activeCfg c' = active /\
    ssHAProfileStatus r = Some status /\
    forall cfg, cfg ∈ ex_order -> status !! default "" (memberProfiles ex_ha !! cfg) = Some (str_eqb cfg active).
Proof.
  apply (HA_exactly_one_active 1 PTP_LOCKED ex_order ex_selected "ens2f0" ex_ha); [reflexivity|exact ex_iterates| |reflexivity|].
  - apply (bool_decide_eq_true_1 _). vm_compute. reflexivity.
  - exists "ptp4l.1.config", (ex_member "ptp4l.1.config" "ens2f0"). split; reflexivity.
Defined.

End Ha.
