(* ===== verification/TBC.v ===== *)
(** * pkg/clock/tbc.go: the telecom boundary clock

    The state machine of the T-BC with the parameters of its leading clock.  The
    sequence of announce tokens is a process-wide atomic counter, so a method works on
    a [World]: that counter and its receiver.  The pointers of [LeadingClockParams] are
    only ever replaced, never written through, and are never nil: they are values.
    Fetching the upstream data sets and announcing local data run in goroutines: the
    effects [GoFetchUpstream], [GoSetGMSettings] and [GoSetExternalGM]. *)

From S2P Require Import Prelude Float64 Utils Strconv Protocol Ipc Event Stats ClockBase Method.

Definition FaultyPhaseOffset : Z := 99999999999.
Definition StaleEventAfter : Z := 2000.

Record LeadingClockParams := mkLead {
  upstreamTimeProperties : TimePropertiesDS;
  upstreamParentDataSet : ParentDataSet;
  upstreamCurrentDSStepsRemoved : Z;
  downstreamTimeProperties : TimePropertiesDS;
  downstreamParentDataSet : ParentDataSet;
  leadingInterface : string;
  controlledPortsConfig : string;
  inSyncConditionThreshold : Z;
  inSyncConditionTimes : Z;
  toFreeRunThreshold : Z;
  MaxInSpecOffset : Z;
  holdoverDisabled : bool;
  lastInSpec : bool;
  inSyncFilter : Hysteresis.HysteresisFilter;
  clockID : string
}.

#[export] Instance LeadingClockParams_fields : Fields LeadingClockParams := fun l =>
  mkLead (upstreamTimeProperties l) (upstreamParentDataSet l) (upstreamCurrentDSStepsRemoved l)
    (downstreamTimeProperties l) (downstreamParentDataSet l) (leadingInterface l) (controlledPortsConfig l)
    (inSyncConditionThreshold l) (inSyncConditionTimes l) (toFreeRunThreshold l) (MaxInSpecOffset l)
    (holdoverDisabled l) (lastInSpec l) (inSyncFilter l) (clockID l).

Definition newLeadingClockParams : LeadingClockParams :=
  mkLead zero_TimePropertiesDS zero_ParentDataSet 0 zero_TimePropertiesDS zero_ParentDataSet "" "" 0 0 0 0
    false false Hysteresis.zero_filter "".

Record TBC := mkTBC {
  tbBase : BaseClock;
  tbSyncState : SyncState;
  leadingClockData : LeadingClockParams;
  configuredLeadingInterface : string;
  announceToken : Z
}.

#[export] Instance TBC_fields : Fields TBC := fun c =>
  mkTBC (tbBase c) (tbSyncState c) (leadingClockData c) (configuredLeadingInterface c) (announceToken c).

(** The process-wide [announceSeq] and the receiver. *)
Record World := mkWorld {
  announceSeq : Z;
  self : TBC
}.

#[export] Instance World_fields : Fields World := fun w => mkWorld (announceSeq w) (self w).

Module Tbc.

(** [time.Now()] in seconds and in milliseconds, and the UTC offset. *)
Record Env := mkEnv {
  now : Z;
  nowMilli : Z;
  utcOffset : Z
}.

Definition initial_sync : SyncState :=
  zero_SyncState <| ssState := PTP_NOTSET |> <| ssClockClass := ClockClassUninitialized |>
    <| ssClockAccuracy := ClockAccuracyUnknown |>.

(** [nextAnnounceToken]. *)
Definition next_token (seq : Z) : Z := uint64 (seq + 1).

Definition NewTBC (cfgName : string) (seq : Z) : World :=
  mkWorld (next_token seq)
    (mkTBC (newBaseClock cfgName zero_threshold) initial_sync newLeadingClockParams "" (next_token seq)).

Definition nextAnnounceToken : M World Z :=
  modify (fun w => w <| announceSeq := next_token (announceSeq w) |>);;
  gets announceSeq.

Definition this : M World TBC := gets self.
Definition put (f : TBC -> TBC) : M World unit := modify (fun w => w <| self := f (self w) |>).
Definition set_sync (f : SyncState -> SyncState) : M World unit :=
  put (fun c => c <| tbSyncState := f (tbSyncState c) |>).
Definition set_lead (f : LeadingClockParams -> LeadingClockParams) : M World unit :=
  put (fun c => c <| leadingClockData := f (leadingClockData c) |>).

Definition cfgName (c : TBC) : string := bsCfgName (tbBase c).
Definition data (c : TBC) : list Data := bsData (tbBase c).
Definition ClockClass (c : TBC) : Z := ssClockClass (tbSyncState c).
Definition GetState (c : TBC) : PTPState := ssState (tbSyncState c).
Definition profile (c : TBC) : string := replace1 "ts2phc" "ptp4l" (cfgName c).
Definition SetConfiguredLeadingInterface (iface : string) : M World unit :=
  put (fun c => c <| configuredLeadingInterface := iface |>).

Definition getLeadingInterfaceBC (c : TBC) : string :=
  if negb (str_eqb (leadingInterface (leadingClockData c)) "") then leadingInterface (leadingClockData c)
  else if negb (str_eqb (configuredLeadingInterface c) "") then configuredLeadingInterface c
  else LEADING_INTERFACE_UNKNOWN.

Definition hasNonLeadingDPLLFault (c : TBC) : bool := nonLeadingDPLLFault (ssLeadingIFace (tbSyncState c)) (data c).

(** ** Conditions *)

Definition abs_gt (a b : Z) : bool := f64_gtb (f64_abs (f64_of_Z a)) (f64_abs (f64_of_Z b)).

(** [math.Abs(float64(offset)) > float64(threshold)]. *)
Definition exceeds (offset threshold : Z) : bool := f64_gtb (f64_abs (f64_of_Z offset)) (f64_of_Z threshold).

Definition mean_offset (w : Window.Window) : option Z := m ← Window.Mean w; Some (f64_to_int64 m).

Definition isSourceLostBC (c : TBC) : bool :=
  let ptpLost := negb (existsb (fun d => str_eqb (daProcessName d) PTP4l &&
                   existsb (fun dd => str_eqb (dtState dd) PTP_LOCKED) (daDetails d)) (data c)) in
  let dpllLost := existsb (fun d => str_eqb (daProcessName d) DPLL &&
                   existsb (fun dd => negb (str_eqb (dtState dd) PTP_LOCKED)) (daDetails d)) (data c) in
  ptpLost || dpllLost.

(** One source of [freeRunCondition]; [None] is a panic in the mean of the window. *)
Definition free_run_source (lead : string) (threshold : Z) (d : Data) : option bool :=
  if str_eqb (daProcessName d) DPLL then
    Some (existsb (fun dd => str_eqb (dtIFace dd) lead && exceeds (dtOffset dd) threshold) (daDetails d))
  else if str_eqb (daProcessName d) PTP4l then
    match daWindow d with
    | Some w => if Window.IsEmpty w then Some false else avg ← mean_offset w; Some (exceeds avg threshold)
    | None => Some false
    end
  else if str_eqb (daProcessName d) TS2PHC then
    Some (existsb (fun dd => str_eqb (dtState dd) PTP_FREERUN) (daDetails d))
  else Some false.

(** The first source for which it holds ends the loop. *)
Fixpoint any_source (f : Data -> option bool) (dh : list Data) : option bool :=
  match dh with
  | [] => Some false
  | d :: dh' => b ← f d; if (b : bool) then Some true else any_source f dh'
  end.

Definition freeRunCondition (c : TBC) : option bool :=
  let threshold := toFreeRunThreshold (leadingClockData c) in
  if threshold =? 0 then Some true
  else any_source (free_run_source (ssLeadingIFace (tbSyncState c)) threshold) (data c).

Definition inSpecCondition (c : TBC) : bool :=
  let max := MaxInSpecOffset (leadingClockData c) in
  if max =? 0 then false
  else negb (existsb (fun d => str_eqb (daProcessName d) DPLL &&
         existsb (fun dd => str_eqb (dtIFace dd) (ssLeadingIFace (tbSyncState c)) && exceeds (dtOffset dd) max)
           (daDetails d)) (data c)).

(** The loops over the details in [getLargestOffset]. *)
Definition worst_ts2phc (stale : Z) (worst : Z) (dd : DataDetails) : Z :=
  if dtTime dd <? stale then worst
  else if (worst =? FaultyPhaseOffset) || abs_gt (dtOffset dd) worst then dtOffset dd else worst.

Definition worst_windowed (stale : Z) (lead : string) (mean : Z) (worst : Z) (dd : DataDetails) : Z :=
  if dtTime dd <? stale then worst
  else if worst =? FaultyPhaseOffset then if str_eqb (dtIFace dd) lead then mean else dtOffset dd
  else if abs_gt (dtOffset dd) worst then dtOffset dd else worst.

(** The loop over the sources: a window that is neither empty nor full ends it. *)
Fixpoint largest_loop (stale : Z) (lead : string) (worst : Z) (dh : list Data) : option Z :=
  match dh with
  | [] => Some worst
  | d :: dh' =>
      if str_eqb (daProcessName d) TS2PHC then
        largest_loop stale lead (foldl (worst_ts2phc stale) worst (daDetails d)) dh'
      else
        match daWindow d with
        | None => largest_loop stale lead worst dh'
        | Some w =>
            if Window.IsEmpty w then largest_loop stale lead worst dh'
            else if negb (Window.IsFull w) then Some FaultyPhaseOffset
            else
              mean ← mean_offset w;
              largest_loop stale lead (foldl (worst_windowed stale lead mean) worst (daDetails d)) dh'
        end
  end.

Definition getLargestOffset (env : Env) (c : TBC) : option Z :=
  largest_loop (int64 (nowMilli env - StaleEventAfter)) (ssLeadingIFace (tbSyncState c)) FaultyPhaseOffset (data c).

Definition getCalculatedHoldoverOffset (c : TBC) : option Z :=
  match first_match (fun d => str_eqb (daProcessName d) DPLL && has_window d) (data c) with
  | Some d =>
      match daWindow d with
      | Some w => v ← Window.LastInserted w; Some (f64_to_int64 v)
      | None => Some FaultyPhaseOffset
      end
  | None => Some FaultyPhaseOffset
  end.

Definition initInSyncFilter (l : LeadingClockParams) : LeadingClockParams :=
  if negb (Hysteresis.inSyncSamplesRequired (inSyncFilter l) =? 0) then l
  else
    let th := f64_of_Z (inSyncConditionThreshold l) in
    l <| inSyncFilter := Hysteresis.Config th th (Z.max (inSyncConditionTimes l) 1) 1 (inSyncFilter l) |>.

Definition inSyncCondition (env : Env) : M World bool :=
  c ← this;
  if inSyncConditionThreshold (leadingClockData c) =? 0 then mret false
  else
    worst ← lift (getLargestOffset env c);
    let '(f, (state, _)) := Hysteresis.Update (f64_of_Z worst) (inSyncFilter (leadingClockData c)) in
    set_lead (fun l => l <| inSyncFilter := f |>);;
    mret (bool_decide (state = Hysteresis.HysteresisLow)).

(** ** The state machine *)

Definition isTTSC (c : TBC) : bool :=
  negb (str_eqb (clockID (leadingClockData c)) "") && str_eqb (controlledPortsConfig (leadingClockData c)) "".

Definition enter (state : PTPState) : M World unit := set_sync (fun s => s <| ssState := state |>).
Definition enter_class (state : PTPState) (cls : Z) : M World unit :=
  set_sync (fun s => s <| ssState := state |> <| ssClockClass := cls |>).

(** The cases of the switch on the state in [updateState]; each returns [updateDownstreamData]. *)
Definition fsm_unlocked (env : Env) : M World bool :=
  c ← this;
  freeRun ← lift (freeRunCondition c);
  if (freeRun : bool) then mret false
  else if isSourceLostBC c then mret false
  else
    inSync ← inSyncCondition env;
    if (inSync : bool) then
      enter PTP_LOCKED;;
      set_lead (fun l => l <| lastInSpec := true |>);;
      mret true
    else mret false.

(** The last branch of LOCKED: follow the upstream data sets and class. *)
Definition follow_upstream (isTTSC : bool) : M World bool :=
  c ← this;
  let l := leadingClockData c in
  let up1 := negb (bool_decide (upstreamTimeProperties l = downstreamTimeProperties l)) in
  let up2 := negb (bool_decide (upstreamParentDataSet l = downstreamParentDataSet l)) in
  when up1 (set_lead (fun l => l <| downstreamTimeProperties := upstreamTimeProperties l |>));;
  when up2 (set_lead (fun l => l <| downstreamParentDataSet := upstreamParentDataSet l |>));;
  if GrandmasterClockClass (upstreamParentDataSet l) =? ClockClassFreerun then mret false
  else
    when (negb isTTSC)
      (set_sync (fun s => s <| ssClockClass := GrandmasterClockClass (upstreamParentDataSet l) |>
                            <| ssClockAccuracy := GrandmasterClockAccuracy (upstreamParentDataSet l) |>));;
    mret (up1 || up2).

Definition fsm_locked (isTTSC : bool) : M World bool :=
  c ← this;
  freeRun ← lift (freeRunCondition c);
  if freeRun || hasNonLeadingDPLLFault c then
    enter_class PTP_FREERUN ClockClassFreerun;; mret true
  else if isSourceLostBC c then
    (if holdoverDisabled (leadingClockData c) then enter_class PTP_FREERUN ClockClassFreerun
     else enter_class PTP_HOLDOVER 135;; set_lead (fun l => l <| lastInSpec := true |>));;
    mret true
  else follow_upstream isTTSC.

(** The default branch of HOLDOVER: in or out of specification. *)
Definition track_spec : M World bool :=
  c ← this;
  let inSpec := lastInSpec (leadingClockData c) && inSpecCondition c in
  if eqb (lastInSpec (leadingClockData c)) inSpec then mret false
  else
    set_lead (fun l => l <| lastInSpec := inSpec |>);;
    let cls := if inSpec then 135 else 165 in
    if negb (ClockClass c =? cls) then
      set_sync (fun s => s <| ssClockClass := cls |>);; mret true
    else mret false.

Definition fsm_holdover (env : Env) : M World bool :=
  c ← this;
  freeRun ← (if hasNonLeadingDPLLFault c then mret true else lift (freeRunCondition c));
  if (freeRun : bool) then enter_class PTP_FREERUN ClockClassFreerun;; mret true
  else
    inSync ← inSyncCondition env;
    c ← this;
    if inSync && negb (isSourceLostBC c) then enter PTP_LOCKED;; mret true
    else track_spec.

Definition fsm (env : Env) (isTTSC : bool) : M World bool :=
  c ← this;
  if str_eqb (GetState c) PTP_NOTSET || str_eqb (GetState c) PTP_FREERUN then fsm_unlocked env
  else if str_eqb (GetState c) PTP_LOCKED then fsm_locked isTTSC
  else if str_eqb (GetState c) PTP_HOLDOVER then fsm_holdover env
  else mret false.

(** The offset reported for the new state. *)
Definition set_offset (env : Env) : M World unit :=
  c ← this;
  offset ← lift (if str_eqb (GetState c) PTP_FREERUN then Some FaultyPhaseOffset
                 else if str_eqb (GetState c) PTP_HOLDOVER then getCalculatedHoldoverOffset c
                 else getLargestOffset env c);
  set_sync (fun s => s <| ssClockOffset := offset |>).

(** The end of [updateState]. *)
Definition finish_update (env : Env) (ttsc : bool) (leading : string) (updateDownstreamData : bool) : M World bool :=
  set_sync (fun s => s <| ssLeadingIFace := leading |>);;
  set_sync (fun s => if negb (str_eqb (ssState s) PTP_LOCKED)
                     then s <| ssClockAccuracy := ClockAccuracyUnknown |> else s);;
  set_offset env;;
  set_sync (fun s => if ttsc && negb (ssClockClass s =? ClockClassSlaveOnly)
                     then s <| ssClockClass := ClockClassSlaveOnly |> else s);;
  c ← this;
  let needsDownstreamUpdate :=
    updateDownstreamData && negb (ClockClass c =? ClockClassUninitialized) && negb ttsc in
  set_sync (fun s => if negb (ssLastLoggedTime s =? now env) then s <| ssLastLoggedTime := now env |> else s);;
  mret needsDownstreamUpdate.

(** [updateState]: whether downstream data needs updating. *)
Definition updateState (env : Env) : M World bool :=
  c ← this;
  let leading := getLeadingInterfaceBC c in
  if str_eqb leading LEADING_INTERFACE_UNKNOWN then
    set_sync (fun s => s <| ssLeadingIFace := leading |>);; mret false
  else
    set_sync (fun s => s <| ssSourceLost := false |> <| ssLeadingIFace := leading |>);;
    match data c with
    | [] =>
        set_sync (fun s => s <| ssState := PTP_FREERUN |> <| ssClockClass := ClockClassFreerun |>
          <| ssClockAccuracy := ClockAccuracyUnknown |> <| ssLastLoggedTime := now env |>
          <| ssLeadingIFace := leading |>);;
        mret false
    | _ =>
        let ttsc := isTTSC c in
        updateDownstreamData ← fsm env ttsc;
        finish_update env ttsc leading updateDownstreamData
    end.

(** ** Downstream propagation *)

(** The settings of Table VIII.3; the default branch leaves the zero time properties. *)
Definition local_time_properties (utc : Z) (cls : Z) (down : TimePropertiesDS) : TimePropertiesDS :=
  let t := zero_TimePropertiesDS <| TimeSource := TimeSourceInternalOscillator |> in
  if cls =? ClockClassFreerun then
    t <| CurrentUtcOffsetValid := false |> <| Leap59 := false |> <| Leap61 := false |> <| PtpTimescale := true |>
      <| TimeTraceable := false |> <| FrequencyTraceable := false |> <| CurrentUtcOffset := int32 utc |>
  else if (cls =? 165) || (cls =? 135) then
    t <| CurrentUtcOffsetValid := CurrentUtcOffsetValid down |> <| Leap59 := Leap59 down |> <| Leap61 := Leap61 down |>
      <| PtpTimescale := true |> <| TimeTraceable := cls =? 135 |> <| FrequencyTraceable := false |>
      <| CurrentUtcOffset := CurrentUtcOffset down |>
  else t.

Definition announceLocalData (env : Env) (cfg : string) : M World unit :=
  c ← this;
  let l := leadingClockData c in
  emit (GoSetExternalGM (controlledPortsConfig l) (mkEGP (clockID l) 0));;
  let gs := mkGrandmasterSettings (mkClockQuality (ClockClass c) ClockAccuracyUnknown 65535)
              (local_time_properties (utcOffset env) (ClockClass c) (downstreamTimeProperties l)) in
  emit (GoSetGMSettings (controlledPortsConfig l) gs);;
  emit (GoSetGMSettings cfg gs).

Definition updateDownstreamData (env : Env) (cfg : string) : M World unit :=
  c ← this;
  if negb (str_eqb (GetState c) PTP_LOCKED) then announceLocalData env cfg
  else
    token ← nextAnnounceToken;
    put (fun c => c <| announceToken := token |>);;
    emit (GoFetchUpstream cfg token).

Definition reconcile (os : PTPState) (profile : string) : M World unit :=
  c ← this;
  let '(overall, es) := emitOverallSyncStateIfChanged (bsOverall (tbBase c)) (GetState c) os profile in
  put (fun c => c <| tbBase := (tbBase c) <| bsOverall := overall |> |>);;
  emits es.

Definition SystemClockUpdate (os : PTPState) : M World unit := c ← this; reconcile os (profile c).

(** The messages of [evaluateState]. *)
Definition publish (prevState : PTPState) (prevClockClass : Z) : M World unit :=
  c ← this;
  let leading := ssLeadingIFace (tbSyncState c) in
  when (negb (str_eqb (GetState c) prevState))
    (emit (SendIPC (message TypePTPState (profile c) leading (StateValue (PtpStateToIPCState (GetState c)) 0))));;
  when (negb (ClockClass c =? prevClockClass))
    (emit (SendIPC (message TypeClockClass (profile c) leading (ClockClassValue (uint8 (ClockClass c)))))).

Definition evaluateState (env : Env) (os : PTPState) : M World unit :=
  c ← this;
  needsDownstreamUpdate ← updateState env;
  publish (GetState c) (ClockClass c);;
  reconcile os (profile c);;
  when needsDownstreamUpdate (updateDownstreamData env (cfgName c)).

Definition updateUpstreamParentDataSet (parentDS : ParentDataSet) : M World unit :=
  set_lead (fun l =>
    if negb (ParentDS.Equal (Some parentDS) (Some (upstreamParentDataSet l)))
    then l <| upstreamParentDataSet := parentDS |> else l).

(** [handleDownstreamAnnounceIWF]; errors of the PMC client are only logged. *)
Definition handleDownstreamAnnounceIWF (ds : ParentTimeCurrentDS) (generation : Z) : M World unit :=
  c ← this;
  if negb (generation =? announceToken c) then mret tt
  else if negb (str_eqb (GetState c) PTP_LOCKED) then mret tt
  else
    let p := ptcParentDataSet ds in
    let t := ptcTimePropertiesDS ds in
    let steps := StepsRemoved (ptcCurrentDS ds) in
    set_lead (fun l => l <| upstreamParentDataSet := p |> <| upstreamTimeProperties := t |>
                         <| upstreamCurrentDSStepsRemoved := steps |>);;
    let cfg := controlledPortsConfig (leadingClockData c) in
    emit (SetExternalGM cfg (mkEGP (GrandmasterIdentity p) steps));;
    emit (SetGMSettings cfg (mkGrandmasterSettings
      (mkClockQuality (GrandmasterClockClass p) (GrandmasterClockAccuracy p) (GrandmasterOffsetScaledLogVariance p)) t));;
    set_lead (fun l => l <| downstreamParentDataSet := p |> <| downstreamTimeProperties := t |>).

(** [downstreamAnnounceIWF], the goroutine: the event it posts when the fetch succeeds. *)
Definition downstreamAnnounceIWF (env : Env) (fetch : string -> option ParentTimeCurrentDS) (cfg : string) (generation : Z) :
    option Event :=
  ds ← fetch cfg;
  Some (mkEvent PMC "" cfg "" (nowMilli env) false false (Some (EParentTimeCurrent ds generation))).

Definition processSyncE (ev : Event) : M World unit :=
  match evData ev with
  | Some (ESyncE d) =>
      c ← this;
      when (negb (str_eqb (seEECState d) ""))
        (emit (SendIPC (message TypeSyncEState (profile c) (evIFace ev) (SyncEStateValue (seEECState d)))));;
      when (match seQL d, seExtQL d with None, None => false | _, _ => true end)
        (emit (SendIPC (message TypeSyncEClockQuality (profile c) (evIFace ev)
           (SyncEClockQualityValue (default 0 (seQL d)) (default 0 (seExtQL d))))))
  | _ => mret tt
  end.

(** [updateLeadingClockData]: the unsigned thresholds are converted to [int]. *)
Definition unless_zero (v : Z) (old : Z) : Z := if negb (v =? 0) then v else old.

Definition lead_of_state (d : StateData) (l : LeadingClockParams) : LeadingClockParams :=
  l <| controlledPortsConfig := if negb (str_eqb (sdControlledPortsConfig d) "") then sdControlledPortsConfig d
                                else controlledPortsConfig l |>
    <| clockID := if negb (str_eqb (sdClockID d) "") then sdClockID d else clockID l |>.

Definition lead_of_dpll (d : DPLLData) (l : LeadingClockParams) : LeadingClockParams :=
  initInSyncFilter
    (l <| inSyncConditionThreshold := if negb (ddInSyncConditionThreshold d =? 0)
            then int64 (ddInSyncConditionThreshold d) else inSyncConditionThreshold l |>
       <| inSyncConditionTimes := if negb (ddInSyncConditionTimes d =? 0)
            then int64 (ddInSyncConditionTimes d) else inSyncConditionTimes l |>
       <| toFreeRunThreshold := if negb (ddToFreeRunThreshold d =? 0)
            then int64 (ddToFreeRunThreshold d) else toFreeRunThreshold l |>
       <| MaxInSpecOffset := unless_zero (ddMaxInSpecOffset d) (MaxInSpecOffset l) |>).

Definition updateLeadingClockData (ev : Event) : M World unit :=
  match evData ev with
  | Some (EState d) => when (str_eqb (evSource ev) PTP4l) (set_lead (lead_of_state d))
  | Some (EDPLL d) =>
      when (str_eqb (evSource ev) DPLL)
        (when (ddLeadingSource d) (set_lead (fun l => l <| leadingInterface := evIFace ev |>));;
         c ← this;
         when (str_eqb (evIFace ev) (getLeadingInterfaceBC c))
           (set_lead (fun l => l <| holdoverDisabled := ddHoldoverDisabled d |>));;
         set_lead (lead_of_dpll d))
  | _ => mret tt
  end.

Definition record (env : Env) (ev : Event) : M World unit :=
  c ← this;
  dh ← lift (record_event (now env) true ev (data c));
  put (fun c => c <| tbBase := (tbBase c) <| bsData := dh |> |>).

Definition AddEvent (env : Env) (os : PTPState) (ev : Event) : M World SyncState :=
  (if str_eqb (evSource ev) SYNCE then processSyncE ev
   else if str_eqb (evSource ev) PMC then
     match evData ev with
     | Some (EParentDS ds) => updateUpstreamParentDataSet ds;; evaluateState env os
     | Some (EParentTimeCurrent ds generation) => handleDownstreamAnnounceIWF ds generation
     | _ => mret tt
     end
   else
     record env ev;;
     updateLeadingClockData ev;;
     evaluateState env os);;
  c ← this;
  mret (tbSyncState c).

(** [Reset] also resets the shared OS clock. *)
Definition Reset (o : OsClock) : M World OsClock :=
  c ← this;
  let '(b, o) := BaseClock_Reset (tbBase c) o in
  put (fun c => c <| tbBase := b |>);;
  put (fun c => c <| leadingClockData := newLeadingClockParams |> <| tbSyncState := initial_sync |>);;
  put (fun c => c <| tbBase := (tbBase c) <| bsOverall := PTP_FREERUN |> <| bsData := [] |> |>);;
  token ← nextAnnounceToken;
  put (fun c => c <| announceToken := token |>);;
  mret o.

(** ** Specification of the state machine *)

Definition free (c : TBC) : bool := default true (freeRunCondition c).

Definition in_sync (env : Env) (c : TBC) : bool :=
  let l := leadingClockData c in
  negb (inSyncConditionThreshold l =? 0) &&
  match getLargestOffset env c with
  | Some worst => bool_decide (fst (snd (Hysteresis.Update (f64_of_Z worst) (inSyncFilter l))) = Hysteresis.HysteresisLow)
  | None => false
  end.

(** What an evaluation does: the arrows of the state machine. *)
Inductive Move := Stay | Lock | FreeRun | Hold | Follow | Track.

Definition move (env : Env) (c : TBC) : Move :=
  let s := GetState c in
  if str_eqb s PTP_NOTSET || str_eqb s PTP_FREERUN then
    if free c || isSourceLostBC c || negb (in_sync env c) then Stay else Lock
  else if str_eqb s PTP_LOCKED then
    if free c || hasNonLeadingDPLLFault c then FreeRun
    else if isSourceLostBC c then if holdoverDisabled (leadingClockData c) then FreeRun else Hold
    else Follow
  else if str_eqb s PTP_HOLDOVER then
    if free c || hasNonLeadingDPLLFault c then FreeRun
    else if in_sync env c && negb (isSourceLostBC c) then Lock
    else Track
  else Stay.

(** Losing the specification: the only change [Track] makes. *)
Definition leaves_spec (c : TBC) : bool := lastInSpec (leadingClockData c) && negb (inSpecCondition c).

Definition move_state (m : Move) (s : PTPState) : PTPState :=
  match m with Lock => PTP_LOCKED | FreeRun => PTP_FREERUN | Hold => PTP_HOLDOVER | _ => s end.

Definition upstream_class (c : TBC) : Z := GrandmasterClockClass (upstreamParentDataSet (leadingClockData c)).

Definition move_class (ttsc : bool) (m : Move) (c : TBC) : Z :=
  match m with
  | FreeRun => ClockClassFreerun
  | Hold => 135
  | Follow => if (upstream_class c =? ClockClassFreerun) || ttsc then ClockClass c else upstream_class c
  | Track => if leaves_spec c then 165 else ClockClass c
  | _ => ClockClass c
  end.

Definition upstream_changed (l : LeadingClockParams) : bool :=
  negb (bool_decide (upstreamTimeProperties l = downstreamTimeProperties l)) ||
  negb (bool_decide (upstreamParentDataSet l = downstreamParentDataSet l)).

Definition move_update (m : Move) (c : TBC) : bool :=
  match m with
  | Stay => false
  | Follow => negb (upstream_class c =? ClockClassFreerun) && upstream_changed (leadingClockData c)
  | Track => leaves_spec c && negb (ClockClass c =? 165)
  | _ => true
  end.

(** Whether the holdover specification still counts as met. *)
Definition move_spec (m : Move) (c : TBC) : bool :=
  match m with
  | Lock => if str_eqb (GetState c) PTP_HOLDOVER then lastInSpec (leadingClockData c) else true
  | Hold => true
  | Track => lastInSpec (leadingClockData c) && inSpecCondition c
  | _ => lastInSpec (leadingClockData c)
  end.

(** The evaluation changes nothing else that the proofs rely on. *)
Record fsm_frame (c c' : TBC) : Prop := {
  ff_base : tbBase c' = tbBase c;
  ff_token : announceToken c' = announceToken c;
  ff_iface : ssLeadingIFace (tbSyncState c') = ssLeadingIFace (tbSyncState c);
  ff_config : configuredLeadingInterface c' = configuredLeadingInterface c;
  ff_lead : let l := leadingClockData c in let l' := leadingClockData c' in
    controlledPortsConfig l' = controlledPortsConfig l /\ clockID l' = clockID l /\
    leadingInterface l' = leadingInterface l /\ upstreamParentDataSet l' = upstreamParentDataSet l /\
    upstreamTimeProperties l' = upstreamTimeProperties l
}.

Record fsm_post (env : Env) (ttsc : bool) (c : TBC) (update : bool) (c' : TBC) : Prop := {
  fp_frame : fsm_frame c c';
  fp_state : GetState c' = move_state (move env c) (GetState c);
  fp_class : ClockClass c' = move_class ttsc (move env c) c;
  fp_update : update = move_update (move env c) c;
  fp_spec : lastInSpec (leadingClockData c') = move_spec (move env c) c
}.

(** ** The conditions do not panic on well-formed data *)

Lemma mean_offset_total w :
  Window.wf w -> length (Window.weights w) = length (Window.data w) -> exists z, mean_offset w = Some z.
Proof.
  intros Hw Hl. unfold mean_offset. destruct (Window.Mean_total w Hw Hl) as [m ->]. by eexists.
Qed.

Lemma any_source_total f dh :
  Forall (fun d => exists b, f d = Some b) dh -> exists b, any_source f dh = Some b.
Proof.
  induction 1 as [|d dh [b Hb] _ [b' IH]]; cbn; [by eexists|]. rewrite Hb. cbn. destruct b; [by eexists|]. by exists b'.
Qed.

Lemma freeRunCondition_total c : holder_wf (data c) -> exists b, freeRunCondition c = Some b.
Proof.
  intros [_ HF]. unfold freeRunCondition. case_match; [by eexists|]. apply any_source_total.
  eapply Forall_impl; [exact HF|]. intros d [_ Hw]. unfold free_run_source.
  destruct (str_eqb (daProcessName d) DPLL); [by eexists|].
  destruct (str_eqb (daProcessName d) PTP4l); [|by destruct (str_eqb (daProcessName d) TS2PHC); eexists].
  destruct (daWindow d) as [w|]; [|by eexists]. destruct (Window.IsEmpty w); [by eexists|].
  destruct Hw as [Hw Hl]. destruct (mean_offset_total w Hw Hl) as [z ->]. by eexists.
Qed.

Lemma largest_loop_total stale lead worst dh :
  Forall Stats.wf dh -> exists z, largest_loop stale lead worst dh = Some z.
Proof.
  intros HF. revert worst. induction HF as [|d dh [_ Hw] _ IH]; intros worst; cbn; [by eexists|].
  destruct (str_eqb _ _); [apply IH|]. destruct (daWindow d) as [w|]; [|apply IH].
  destruct (Window.IsEmpty w); [apply IH|]. destruct (negb _); [by eexists|]. destruct Hw as [Hw Hl].
  destruct (mean_offset_total w Hw Hl) as [z ->]. cbn. apply IH.
Qed.

Lemma getLargestOffset_total env c : holder_wf (data c) -> exists z, getLargestOffset env c = Some z.
Proof. intros [_ HF]. by apply largest_loop_total. Qed.

Lemma getCalculatedHoldoverOffset_total c : holder_wf (data c) -> exists z, getCalculatedHoldoverOffset c = Some z.
Proof.
  intros [_ HF]. unfold getCalculatedHoldoverOffset.
  destruct (first_match _ (data c)) as [d|] eqn:E; [|by eexists].
  apply first_match_Some in E as [_ Hin]. rewrite Forall_forall in HF. destruct (HF d Hin) as [_ Hw].
  destruct (daWindow d) as [w|]; [|by eexists]. destruct Hw as [Hw _].
  destruct (Window.LastInserted_total w Hw) as [v ->]. by eexists.
Qed.

(** ** The cases of the machine, symbolically executed once *)

Ltac this_step := unfold this, set_sync, set_lead, put, enter, enter_class; wp_run.

Lemma fsm_frame_refl c : fsm_frame c c.
Proof. by split. Qed.

Lemma lift_free c Q (w : World) :
  holder_wf (data c) -> Q (free c) w [] -> wp (lift (freeRunCondition c)) w Q.
Proof.
  intros Hd HQ. destruct (freeRunCondition_total c Hd) as [b Hb]. eapply wp_lift; [exact Hb|].
  unfold free in HQ. by rewrite Hb in HQ.
Qed.

(** The filter is the only field [inSyncCondition] writes. *)
Lemma inSyncCondition_wp env w Q :
  holder_wf (data (self w)) ->
  (forall f, Q (in_sync env (self w))
     (w <| self := (self w) <| leadingClockData := (leadingClockData (self w)) <| inSyncFilter := f |> |> |>) []) ->
  wp (inSyncCondition env) w Q.
Proof.
  intros Hd HQ. unfold inSyncCondition, in_sync in *. this_step.
  destruct (inSyncConditionThreshold _ =? 0); cbn [negb andb] in *.
  - wp_run. specialize (HQ (inSyncFilter (leadingClockData (self w)))).
    destruct w as [seq [b s l cl t]], l. exact HQ.
  - wp_run. destruct (getLargestOffset_total env _ Hd) as [z Hz]. eapply wp_lift; [exact Hz|]. rewrite Hz in HQ.
    destruct (Hysteresis.Update _ _) as [f [st ch]]. wp_run. apply HQ.
Qed.

(** The shape of the three cases: no effects, the counter untouched. *)
Definition fsm_spec (env : Env) (ttsc : bool) (w : World) (Q : bool -> World -> list Effect -> Prop) : Prop :=
  forall b c', fsm_post env ttsc (self w) b c' -> Q b (mkWorld (announceSeq w) c') [].

Lemma fsm_unlocked_wp env ttsc w Q :
  holder_wf (data (self w)) -> GetState (self w) = PTP_NOTSET \/ GetState (self w) = PTP_FREERUN ->
  fsm_spec env ttsc w Q -> wp (fsm_unlocked env) w Q.
Proof.
  intros Hd Hs HQ. unfold fsm_unlocked. this_step. apply lift_free; [done|]. wp_run.
  assert (move env (self w) = if free (self w) || isSourceLostBC (self w) || negb (in_sync env (self w)) then Stay else Lock) as Hm.
  { unfold move. by destruct Hs as [->| ->]. }
  destruct (free (self w)).
  { wp_run. destruct w. apply HQ. split; rewrite ?Hm; try done. }
  destruct (isSourceLostBC (self w)).
  { wp_run. destruct w. apply HQ. split; rewrite ?Hm; try done. }
  wp_run. apply inSyncCondition_wp; [done|]. intros f. destruct (in_sync env (self w)).
  - this_step. apply HQ. split; rewrite ?Hm; try done. cbn. destruct Hs as [Hs|Hs]; unfold GetState in *; by rewrite Hs.
  - this_step. apply HQ. split; rewrite ?Hm; done.
Qed.

Lemma follow_upstream_wp env ttsc w Q :
  move env (self w) = Follow -> fsm_spec env ttsc w Q -> wp (follow_upstream ttsc) w Q.
Proof.
  intros Hm HQ. unfold follow_upstream. this_step.
  unfold fsm_spec in HQ.
  assert (forall d1 d2 cl acc b,
    cl = move_class ttsc Follow (self w) -> b = move_update Follow (self w) ->
    Q b (mkWorld (announceSeq w) ((self w)
          <| leadingClockData := (leadingClockData (self w)) <| downstreamTimeProperties := d1 |> <| downstreamParentDataSet := d2 |> |>
          <| tbSyncState := (tbSyncState (self w)) <| ssClockClass := cl |> <| ssClockAccuracy := acc |> |>)) []) as HF.
  { intros d1 d2 cl acc b -> ->. apply HQ. split; rewrite ?Hm; done. }
  clear HQ Hm. unfold move_class, move_update, upstream_class, upstream_changed, ClockClass in HF.
  destruct w as [seq [base s l conf tok]]. destruct s, l. cbn in *.
  destruct (bool_decide (upstreamTimeProperties0 = _)), (bool_decide (upstreamParentDataSet0 = _)); cbn [negb orb] in *;
    this_step; cbn; destruct (_ =? ClockClassFreerun); cbn [negb andb orb] in *; wp_run; cbn; try (by apply HF);
    destruct ttsc; cbn [negb] in *; this_step; by apply HF.
Qed.

Lemma fsm_locked_wp env ttsc w Q :
  holder_wf (data (self w)) -> GetState (self w) = PTP_LOCKED ->
  fsm_spec env ttsc w Q -> wp (fsm_locked ttsc) w Q.
Proof.
  intros Hd Hs HQ. unfold fsm_locked. this_step. apply lift_free; [done|]. wp_run.
  assert (move env (self w) = if free (self w) || hasNonLeadingDPLLFault (self w) then FreeRun
    else if isSourceLostBC (self w) then if holdoverDisabled (leadingClockData (self w)) then FreeRun else Hold
    else Follow) as Hm by (unfold move; by rewrite Hs).
  destruct (free (self w) || hasNonLeadingDPLLFault (self w)).
  { this_step. apply HQ. split; rewrite ?Hm; done. }
  destruct (isSourceLostBC (self w)).
  - wp_run. destruct (holdoverDisabled _); this_step; apply HQ; split; rewrite ?Hm; done.
  - by apply (follow_upstream_wp env).
Qed.

(** Once the specification is lost it is not regained. *)
Lemma track_spec_wp env ttsc w Q c0 f :
  move env c0 = Track -> self w = c0 <| leadingClockData := (leadingClockData c0) <| inSyncFilter := f |> |> ->
  (forall b c', fsm_post env ttsc c0 b c' -> Q b (mkWorld (announceSeq w) c') []) -> wp track_spec w Q.
Proof.
  intros Hm Hw HQ. unfold track_spec. this_step. rewrite !Hw. cbn [leadingClockData upd TBC_fields lastInSpec LeadingClockParams_fields].
  assert (inSpecCondition (self w) = inSpecCondition c0) as Hi by (rewrite Hw; done).
  rewrite Hw in Hi. unfold inSpecCondition in Hi. cbn in Hi. 
  fold (inSpecCondition c0) in Hi. 
  change (inSpecCondition _) with (inSpecCondition c0).
  destruct w as [seq c]; cbn [self announceSeq] in *. subst c.
  destruct (lastInSpec (leadingClockData c0)) eqn:El; cbn [andb].
  - destruct (inSpecCondition c0) eqn:Ei; cbn [eqb].
    + wp_run. apply HQ. split; rewrite ?Hm; try done; cbn; unfold leaves_spec; by rewrite ?El, ?Ei.
    + this_step. unfold ClockClass in *. cbn. destruct (ssClockClass (tbSyncState c0) =? 165) eqn:E; cbn [negb].
      * wp_run. apply HQ. split; rewrite ?Hm; try done; cbn; unfold leaves_spec, ClockClass; rewrite ?El, ?Ei; try done; cbn;
          [lia|by rewrite E].
      * this_step. apply HQ. split; rewrite ?Hm; try done; cbn; unfold leaves_spec, ClockClass; rewrite ?El, ?Ei; try done; cbn.
        by rewrite E.
  - cbn [eqb]. wp_run. apply HQ. split; rewrite ?Hm; try done; cbn; unfold leaves_spec; by rewrite ?El.
Qed.

Lemma fsm_holdover_wp env ttsc w Q :
  holder_wf (data (self w)) -> GetState (self w) = PTP_HOLDOVER ->
  fsm_spec env ttsc w Q -> wp (fsm_holdover env) w Q.
Proof.
  intros Hd Hs HQ. unfold fsm_holdover. this_step.
  assert (move env (self w) = if hasNonLeadingDPLLFault (self w) || free (self w) then FreeRun
    else if in_sync env (self w) && negb (isSourceLostBC (self w)) then Lock else Track) as Hm
    by (rewrite (orb_comm (hasNonLeadingDPLLFault (self w))); unfold move; rewrite Hs; done).
  assert (forall Q', Q' (hasNonLeadingDPLLFault (self w) || free (self w)) w [] ->
    wp (if hasNonLeadingDPLLFault (self w) then mret true else lift (freeRunCondition (self w))) w Q') as Hc.
  { intros Q' HQ'. destruct (hasNonLeadingDPLLFault (self w)); [by apply wp_ret|by apply lift_free]. }
  apply Hc. clear Hc. destruct (hasNonLeadingDPLLFault (self w) || free (self w)).
  { this_step. apply HQ. split; rewrite ?Hm; done. }
  wp_run. apply inSyncCondition_wp; [done|]. intros f. this_step.
  change (isSourceLostBC _) with (isSourceLostBC (self w)).
  destruct (in_sync env (self w) && negb (isSourceLostBC (self w))) eqn:E.
  - this_step. apply HQ. split; rewrite ?Hm; try done. cbn. unfold GetState in *. by rewrite Hs.
  - eapply track_spec_wp; [exact Hm|done|]. intros b c' Hp. by apply HQ.
Qed.

Lemma fsm_wp env ttsc w Q :
  holder_wf (data (self w)) -> fsm_spec env ttsc w Q -> wp (fsm env ttsc) w Q.
Proof.
  intros Hd HQ. unfold fsm. this_step.
  destruct (str_eqb (GetState (self w)) PTP_NOTSET || str_eqb (GetState (self w)) PTP_FREERUN) eqn:E1.
  { eapply fsm_unlocked_wp; [done| |done]. apply orb_true_iff in E1 as [E%str_eqb_eq|E%str_eqb_eq]; auto. }
  destruct (str_eqb (GetState (self w)) PTP_LOCKED) eqn:E2; [apply str_eqb_eq in E2; by apply (fsm_locked_wp env)|].
  destruct (str_eqb (GetState (self w)) PTP_HOLDOVER) eqn:E3; [apply str_eqb_eq in E3; by eapply fsm_holdover_wp|].
  wp_run. destruct w as [seq c]. apply HQ.
  assert (move env c = Stay) as Hm by (unfold move; cbn [self] in *; by rewrite E1, E2, E3).
  split; cbn [self]; rewrite ?Hm; done.
Qed.

(** ** updateState *)

(** The clock the machine looks at: the leading interface is set. *)
Definition prepared (c : TBC) : TBC :=
  c <| tbSyncState := (tbSyncState c) <| ssSourceLost := false |> <| ssLeadingIFace := getLeadingInterfaceBC c |> |>.

Record updated (env : Env) (c : TBC) (needs : bool) (c' : TBC) : Prop := {
  ud_frame : fsm_frame (prepared c) c';
  ud_state : GetState c' = move_state (move env (prepared c)) (GetState c);
  ud_class : ClockClass c' = if isTTSC c then ClockClassSlaveOnly else move_class false (move env (prepared c)) (prepared c);
  ud_spec : lastInSpec (leadingClockData c') = move_spec (move env (prepared c)) (prepared c);
  ud_offset : GetState c' = PTP_FREERUN -> ssClockOffset (tbSyncState c') = FaultyPhaseOffset;
  ud_accuracy : GetState c' <> PTP_LOCKED -> ssClockAccuracy (tbSyncState c') = ClockAccuracyUnknown;
  ud_needs : needs = move_update (move env (prepared c)) (prepared c) && negb (ClockClass c' =? ClockClassUninitialized)
                     && negb (isTTSC c)
}.

Lemma set_offset_wp env w Q :
  holder_wf (data (self w)) ->
  (forall o, (GetState (self w) = PTP_FREERUN -> o = FaultyPhaseOffset) ->
     Q tt (w <| self := (self w) <| tbSyncState := (tbSyncState (self w)) <| ssClockOffset := o |> |> |>) []) ->
  wp (set_offset env) w Q.
Proof.
  intros Hd HQ. unfold set_offset. this_step.
  destruct (str_eqb (GetState (self w)) PTP_FREERUN) eqn:E.
  - eapply wp_lift; [done|]. this_step. by apply HQ.
  - apply str_eqb_neq in E. destruct (str_eqb (GetState (self w)) PTP_HOLDOVER).
    + destruct (getCalculatedHoldoverOffset_total _ Hd) as [z Hz]. eapply wp_lift; [exact Hz|]. this_step. by apply HQ.
    + destruct (getLargestOffset_total env _ Hd) as [z Hz]. eapply wp_lift; [exact Hz|]. this_step. by apply HQ.
Qed.

Lemma finish_update_wp env (ttsc : bool) leading b w Q :
  let c1 := self w in
  holder_wf (data c1) ->
  (forall s2 : SyncState, let c2 := c1 <| tbSyncState := s2 |> in
     ssState s2 = GetState c1 -> ssClockClass s2 = (if ttsc then ClockClassSlaveOnly else ClockClass c1) ->
     ssLeadingIFace s2 = leading ->
     (ssState s2 = PTP_FREERUN -> ssClockOffset s2 = FaultyPhaseOffset) ->
     (ssState s2 <> PTP_LOCKED -> ssClockAccuracy s2 = ClockAccuracyUnknown) ->
     Q (b && negb (ClockClass c2 =? ClockClassUninitialized) && negb ttsc) (mkWorld (announceSeq w) c2) []) ->
  wp (finish_update env ttsc leading b) w Q.
Proof.
  intros c1 Hd HQ. unfold finish_update. destruct w as [seq [base [st cl sl lg lt li ca co ha] lead conf tok]].
  subst c1. unfold data, GetState, ClockClass in *. cbn in Hd, HQ. this_step. cbn.
  destruct (str_eqb st PTP_LOCKED) eqn:E1; cbn; (apply set_offset_wp; [exact Hd|]);
    intros o Ho; unfold GetState in Ho; cbn in Ho |- *; this_step; cbn;
    destruct ttsc; cbn; destruct (cl =? ClockClassSlaveOnly) eqn:E2; cbn;
    destruct (lt =? now env); cbn;
    (match goal with |- Q _ (mkWorld _ (mkTBC _ ?s2 _ _ _)) _ => apply (HQ s2) end); cbn; try done;
    try (by apply Z.eqb_eq in E2); apply str_eqb_eq in E1; done.
Qed.

Lemma tbc_updateState_wp env w Q :
  let c := self w in
  holder_wf (data c) ->
  (getLeadingInterfaceBC c = LEADING_INTERFACE_UNKNOWN ->
     Q false (w <| self := c <| tbSyncState := (tbSyncState c) <| ssLeadingIFace := LEADING_INTERFACE_UNKNOWN |> |> |>) []) ->
  (getLeadingInterfaceBC c <> LEADING_INTERFACE_UNKNOWN -> data c = [] ->
     forall c', fsm_frame (prepared c) c' -> GetState c' = PTP_FREERUN -> ClockClass c' = ClockClassFreerun ->
       leadingClockData c' = leadingClockData c -> Q false (mkWorld (announceSeq w) c') []) ->
  (getLeadingInterfaceBC c <> LEADING_INTERFACE_UNKNOWN -> data c <> [] ->
     forall b c', updated env c b c' -> Q b (mkWorld (announceSeq w) c') []) ->
  wp (updateState env) w Q.
Proof.
  intros c Hd H1 H2 H3. unfold updateState. this_step. fold c.
  destruct (str_eqb (getLeadingInterfaceBC c) LEADING_INTERFACE_UNKNOWN) eqn:E.
  { apply str_eqb_eq in E. this_step. rewrite E. by apply H1. }
  apply str_eqb_neq in E. specialize (H2 E). specialize (H3 E). this_step.
  change (c <| tbSyncState := _ |>) with (prepared c).
  destruct (data c) as [|d0 dh] eqn:Ed.
  { this_step. by apply H2. }
  clear H1 H2. specialize (H3 ltac:(done)). rewrite <- Ed in Hd. this_step.
  apply (fsm_wp env (isTTSC c)); [exact Hd|]. intros b c1 [F1 S1 C1 U1 P1]. cbn [self upd World_fields] in *.
  this_step. apply finish_update_wp; cbn [self].
  { unfold data. rewrite (ff_base _ _ F1). exact Hd. }
  intros s2 Hs Hc Hl Ho Ha. apply H3. destruct F1 as [f1 f2 f3 f4 f5]. split; try done.
  - etransitivity; [exact Hs|exact S1].
  - etransitivity; [exact Hc|]. rewrite C1. by destruct (isTTSC c).
  - by rewrite U1.
Qed.

(** ** One evaluation *)

Definition fetches (es : list Effect) : list Z :=
  omap (fun e => match e with GoFetchUpstream _ t => Some t | _ => None end) es.
Definition announced (es : list Effect) : list (string * GrandmasterSettings) :=
  omap (fun e => match e with GoSetGMSettings cfg g => Some (cfg, g) | _ => None end) es.
Definition applied (es : list Effect) : list (string * GrandmasterSettings) :=
  omap (fun e => match e with SetGMSettings cfg g => Some (cfg, g) | _ => None end) es.

(** The three ways [updateState] ends. *)
Inductive outcome (env : Env) (c : TBC) : bool -> TBC -> Prop :=
| out_unknown :
    getLeadingInterfaceBC c = LEADING_INTERFACE_UNKNOWN ->
    outcome env c false (c <| tbSyncState := (tbSyncState c) <| ssLeadingIFace := LEADING_INTERFACE_UNKNOWN |> |>)
| out_initial c' :
    getLeadingInterfaceBC c <> LEADING_INTERFACE_UNKNOWN -> data c = [] ->
    fsm_frame (prepared c) c' -> GetState c' = PTP_FREERUN -> ClockClass c' = ClockClassFreerun ->
    leadingClockData c' = leadingClockData c -> outcome env c false c'
| out_updated b c' :
    getLeadingInterfaceBC c <> LEADING_INTERFACE_UNKNOWN -> data c <> [] ->
    updated env c b c' -> outcome env c b c'.

(** The settings announced downstream when the clock is not locked. *)
Definition local_settings (utc : Z) (c : TBC) : GrandmasterSettings :=
  mkGrandmasterSettings (mkClockQuality (ClockClass c) ClockAccuracyUnknown 65535)
    (local_time_properties utc (ClockClass c) (downstreamTimeProperties (leadingClockData c))).

Definition is_locked (c : TBC) : bool := str_eqb (GetState c) PTP_LOCKED.

(** From the clock [c] before an evaluation, [c1] after [updateState], to the world after. *)
Record evaluated (env : Env) (seq : Z) (c : TBC) (needs : bool) (c1 : TBC) (w' : World) (e : list Effect) : Prop := {
  ev_sync : tbSyncState (self w') = tbSyncState c1 /\ leadingClockData (self w') = leadingClockData c1 /\
    data (self w') = data c1 /\ configuredLeadingInterface (self w') = configuredLeadingInterface c1 /\
    cfgName (self w') = cfgName c1;
  ev_fetch : fetches e = if needs && is_locked c1 then [next_token seq] else [];
  ev_token : announceToken (self w') = (if needs && is_locked c1 then next_token seq else announceToken c1) /\
    announceSeq w' = if needs && is_locked c1 then next_token seq else seq;
  ev_announce : announced e =
    if needs && negb (is_locked c1)
    then [(controlledPortsConfig (leadingClockData c1), local_settings (utcOffset env) c1);
          (cfgName c1, local_settings (utcOffset env) c1)] else [];
  ev_applied : applied e = [];
  ev_state_msg : sent TypePTPState e =
    if str_eqb (GetState c1) (GetState c) then []
    else [message TypePTPState (profile c1) (ssLeadingIFace (tbSyncState c1)) (StateValue (PtpStateToIPCState (GetState c1)) 0)];
  ev_class_msg : sent TypeClockClass e =
    if ClockClass c1 =? ClockClass c then []
    else [message TypeClockClass (profile c1) (ssLeadingIFace (tbSyncState c1)) (ClockClassValue (uint8 (ClockClass c1)))]
}.

Lemma outcome_frame env c b c1 : outcome env c b c1 -> fsm_frame (prepared c) c1 \/
  (tbBase c1 = tbBase c /\ announceToken c1 = announceToken c /\ configuredLeadingInterface c1 = configuredLeadingInterface c /\
   leadingClockData c1 = leadingClockData c).
Proof. intros [H|c' ? ? ? ? ? ?|b' c' ? ? []]; [right|left|left]; done. Qed.

Lemma outcome_base env c b c1 : outcome env c b c1 ->
  tbBase c1 = tbBase c /\ announceToken c1 = announceToken c /\ configuredLeadingInterface c1 = configuredLeadingInterface c.
Proof. intros [[H1 H2 _ H3 _]|(?&?&?&?)]%outcome_frame; done. Qed.

(** Effects of the parts of an evaluation, by kind. *)
Definition effects_none (e : list Effect) : Prop :=
  fetches e = [] /\ announced e = [] /\ applied e = [].

Lemma effects_app e e' :
  fetches (e ++ e') = fetches e ++ fetches e' /\ announced (e ++ e') = announced e ++ announced e' /\
  applied (e ++ e') = applied e ++ applied e'.
Proof. unfold fetches, announced, applied. by rewrite !omap_app. Qed.

Lemma tbc_reconcile_wp os p w Q :
  (forall overall e, effects_none e -> (forall ty, ty <> TypeSyncState -> sent ty e = []) ->
     Q tt (w <| self := (self w) <| tbBase := (tbBase (self w)) <| bsOverall := overall |> |> |>) e) ->
  wp (reconcile os p) w Q.
Proof.
  intros H. unfold reconcile. this_step. rewrite emitOverall_spec. this_step. apply H.
  - by case_match.
  - intros ty Hty. case_match; [done|]. unfold sent, sent_of; cbn. by rewrite str_eqb_ne by congruence.
Qed.

Lemma tbc_publish_wp ps pc w Q :
  (forall e, effects_none e ->
     sent TypePTPState e = (if str_eqb (GetState (self w)) ps then []
       else [message TypePTPState (profile (self w)) (ssLeadingIFace (tbSyncState (self w)))
               (StateValue (PtpStateToIPCState (GetState (self w))) 0)]) ->
     sent TypeClockClass e = (if ClockClass (self w) =? pc then []
       else [message TypeClockClass (profile (self w)) (ssLeadingIFace (tbSyncState (self w)))
               (ClockClassValue (uint8 (ClockClass (self w))))]) ->
     Q tt w e) -> wp (publish ps pc) w Q.
Proof.
  intros H. unfold publish. this_step.
  destruct (str_eqb (GetState (self w)) ps), (ClockClass (self w) =? pc); cbn [negb]; this_step; by apply H.
Qed.

Lemma updateDownstreamData_wp env w Q :
  let c := self w in
  (is_locked c = true -> Q tt (mkWorld (next_token (announceSeq w)) (c <| announceToken := next_token (announceSeq w) |>))
     [GoFetchUpstream (cfgName c) (next_token (announceSeq w))]) ->
  (is_locked c = false -> Q tt w
     [GoSetExternalGM (controlledPortsConfig (leadingClockData c)) (mkEGP (clockID (leadingClockData c)) 0);
      GoSetGMSettings (controlledPortsConfig (leadingClockData c)) (local_settings (utcOffset env) c);
      GoSetGMSettings (cfgName c) (local_settings (utcOffset env) c)]) ->
  wp (updateDownstreamData env (cfgName c)) w Q.
Proof.
  intros c H1 H2. unfold updateDownstreamData, is_locked in *. this_step. fold c.
  destruct (str_eqb (GetState c) PTP_LOCKED); cbn [negb].
  - unfold nextAnnounceToken. this_step. by apply H1.
  - unfold announceLocalData. this_step. by apply H2.
Qed.

Lemma evaluateState_wp env os w Q :
  holder_wf (data (self w)) ->
  (forall needs c1 w' e, outcome env (self w) needs c1 ->
     evaluated env (announceSeq w) (self w) needs c1 w' e -> Q tt w' e) ->
  wp (evaluateState env os) w Q.
Proof.
  intros Hd HQ. unfold evaluateState. this_step.
  assert (forall needs c1, outcome env (self w) needs c1 ->
    wp (publish (GetState (self w)) (ClockClass (self w));; reconcile os (profile (self w));;
        when needs (updateDownstreamData env (cfgName (self w)))) (mkWorld (announceSeq w) c1) Q) as Hrest.
  { intros needs c1 Ho. specialize (HQ needs c1). this_step. apply tbc_publish_wp. intros e1 (F1 & A1 & P1) M1 C1.
    this_step. apply tbc_reconcile_wp. intros overall e2 (F2 & A2 & P2) S2. this_step.
    destruct (outcome_base _ _ _ _ Ho) as (Hb & Ht & Hc). cbn [self upd World_fields] in *.
    assert (profile (self w) = profile c1) as Hp by (unfold profile, cfgName; by rewrite Hb).
    destruct needs.
    - unfold cfgName. rewrite <- Hb.
      match goal with |- wp _ ?ww _ => apply (updateDownstreamData_wp env ww) end; cbn; intros Hl;
        apply HQ; try done; split; cbn; unfold is_locked, GetState, data, cfgName, ClockClass in *; cbn in *;
        rewrite ?Hl; cbn; rewrite ?(proj1 (effects_app _ _)); try done;
        repeat (rewrite ?(proj1 (effects_app _ _)), ?(proj1 (proj2 (effects_app _ _))), ?(proj2 (proj2 (effects_app _ _))), ?sent_app,
          ?F1, ?F2, ?A1, ?A2, ?P1, ?P2, ?M1, ?C1, ?S2 by done); rewrite ?app_nil_l, ?app_nil_r; done.
    - apply HQ; [done|]. split; cbn; unfold is_locked, GetState, data, cfgName, ClockClass in *; cbn in *; try done;
        repeat (rewrite ?(proj1 (effects_app _ _)), ?(proj1 (proj2 (effects_app _ _))), ?(proj2 (proj2 (effects_app _ _))), ?sent_app,
          ?F1, ?F2, ?A1, ?A2, ?P1, ?P2, ?M1, ?C1, ?S2 by done); rewrite ?app_nil_l, ?app_nil_r; done. }
  apply tbc_updateState_wp; [done|..].
  - intros Hl. apply (Hrest false). by apply out_unknown.
  - intros Hl Hn c' F G C L. apply (Hrest false). by apply out_initial.
  - intros Hl Hn b c' Hu. apply (Hrest b). by apply out_updated.
Qed.

(** ** Events *)

(** What a source event teaches about the leading clock. *)
Definition learn (ev : Event) (c : TBC) : TBC :=
  match evData ev with
  | Some (EState d) =>
      if str_eqb (evSource ev) PTP4l then c <| leadingClockData := lead_of_state d (leadingClockData c) |> else c
  | Some (EDPLL d) =>
      if str_eqb (evSource ev) DPLL then
        let c := if ddLeadingSource d
                 then c <| leadingClockData := (leadingClockData c) <| leadingInterface := evIFace ev |> |> else c in
        let c := if str_eqb (evIFace ev) (getLeadingInterfaceBC c)
                 then c <| leadingClockData := (leadingClockData c) <| holdoverDisabled := ddHoldoverDisabled d |> |> else c in
        c <| leadingClockData := lead_of_dpll d (leadingClockData c) |>
      else c
  | _ => c
  end.

(** The clock an event evaluates the state machine on, if it does. *)
Definition evaluation_clock (env : Env) (ev : Event) (c : TBC) : option TBC :=
  if str_eqb (evSource ev) SYNCE then None
  else if str_eqb (evSource ev) PMC then
    match evData ev with
    | Some (EParentDS ds) =>
        Some (c <| leadingClockData := (leadingClockData c) <| upstreamParentDataSet := ds |> |>)
    | _ => None
    end
  else
    match record_event (now env) true ev (data c) with
    | Some dh => Some (learn ev (c <| tbBase := (tbBase c) <| bsData := dh |> |>))
    | None => None
    end.

Lemma world_eta w : mkWorld (announceSeq w) (self w) = w.
Proof. by destruct w. Qed.

Lemma updateLeadingClockData_wp ev w Q :
  Q tt (mkWorld (announceSeq w) (learn ev (self w))) [] -> wp (updateLeadingClockData ev) w Q.
Proof.
  intros HQ. unfold updateLeadingClockData, learn in *.
  destruct (evData ev) as [[| | d | | d | | | | | |]|]; try (wp_run; by rewrite <- (world_eta w)).
  - this_step. destruct (str_eqb (evSource ev) DPLL); [|by rewrite <- (world_eta w)].
    this_step. destruct (ddLeadingSource d); this_step;
      destruct (str_eqb (evIFace ev) (getLeadingInterfaceBC _)) eqn:E; cbn [self upd World_fields] in E, HQ; rewrite ?E in HQ;
      this_step; exact HQ.
  - this_step. destruct (str_eqb (evSource ev) PTP4l); this_step; [exact HQ|by rewrite <- (world_eta w)].
Qed.

Lemma learn_keeps ev c :
  tbBase (learn ev c) = tbBase c /\ tbSyncState (learn ev c) = tbSyncState c /\ announceToken (learn ev c) = announceToken c /\
  upstreamParentDataSet (leadingClockData (learn ev c)) = upstreamParentDataSet (leadingClockData c) /\
  configuredLeadingInterface (learn ev c) = configuredLeadingInterface c.
Proof.
  unfold learn, lead_of_dpll, initInSyncFilter. destruct (evData ev) as [[]|]; try done.
  - destruct (str_eqb _ DPLL); [|done]. cbv zeta.
    destruct (ddLeadingSource d); (destruct (str_eqb _ (getLeadingInterfaceBC _)); cbn; destruct (negb _); done).
  - by destruct (str_eqb _ PTP4l).
Qed.

Lemma parent_update l ds :
  (if negb (ParentDS.Equal (Some ds) (Some (upstreamParentDataSet l))) then l <| upstreamParentDataSet := ds |> else l) =
  l <| upstreamParentDataSet := ds |>.
Proof.
  rewrite ParentDS_Equal_spec. case_bool_decide as E; cbn [negb]; [|done]. subst ds. by destruct l.
Qed.

(** Every event that evaluates the machine returns, and what it does. *)
Lemma AddEvent_evaluates env os ev w c0 Q :
  holder_wf (data (self w)) -> evaluation_clock env ev (self w) = Some c0 ->
  (forall needs c1 w' e, holder_wf (data c0) -> outcome env c0 needs c1 ->
     evaluated env (announceSeq w) c0 needs c1 w' e -> Q (tbSyncState (self w')) w' e) ->
  wp (AddEvent env os ev) w Q.
Proof.
  intros Hd Hc HQ. unfold evaluation_clock, AddEvent in *.
  destruct (str_eqb (evSource ev) SYNCE); [done|]. destruct (str_eqb (evSource ev) PMC).
  - destruct (evData ev) as [[| | | | | | | | |ds|]|]; try done. injection Hc as <-.
    unfold updateUpstreamParentDataSet. this_step. rewrite parent_update.
    apply evaluateState_wp; [done|]. intros needs c1 w' e Ho He. this_step. rewrite app_nil_l, app_nil_r. by eapply HQ.
  - destruct (record_event_total (now env) true ev _ Hd) as (dh & E & Hdh). rewrite E in Hc. injection Hc as <-.
    unfold record. this_step. eapply wp_lift; [exact E|]. this_step. apply updateLeadingClockData_wp. this_step.
    assert (holder_wf (data (learn ev ((self w) <| tbBase := (tbBase (self w)) <| bsData := dh |> |>)))) as Hd'.
    { unfold data. destruct (learn_keeps ev ((self w) <| tbBase := (tbBase (self w)) <| bsData := dh |> |>)) as (-> & _). done. }
    apply evaluateState_wp; [exact Hd'|].
    intros needs c1 w' e Ho He. this_step. rewrite !app_nil_l, app_nil_r. by eapply HQ.
Qed.

(** The result of a downstream fetch: dropped, or applied to the controlled ports. *)
Definition applies (c : TBC) (generation : Z) : bool := (generation =? announceToken c) && is_locked c.

Definition adopt (ds : ParentTimeCurrentDS) (c : TBC) : TBC :=
  c <| leadingClockData := (leadingClockData c)
         <| upstreamParentDataSet := ptcParentDataSet ds |> <| upstreamTimeProperties := ptcTimePropertiesDS ds |>
         <| upstreamCurrentDSStepsRemoved := StepsRemoved (ptcCurrentDS ds) |>
         <| downstreamParentDataSet := ptcParentDataSet ds |> <| downstreamTimeProperties := ptcTimePropertiesDS ds |> |>.

Definition upstream_settings (ds : ParentTimeCurrentDS) : GrandmasterSettings :=
  let p := ptcParentDataSet ds in
  mkGrandmasterSettings
    (mkClockQuality (GrandmasterClockClass p) (GrandmasterClockAccuracy p) (GrandmasterOffsetScaledLogVariance p))
    (ptcTimePropertiesDS ds).

Lemma handleDownstream_wp ds g w Q :
  let c := self w in
  (applies c g = false -> Q tt w []) ->
  (applies c g = true -> Q tt (mkWorld (announceSeq w) (adopt ds c))
     [SetExternalGM (controlledPortsConfig (leadingClockData c))
        (mkEGP (GrandmasterIdentity (ptcParentDataSet ds)) (StepsRemoved (ptcCurrentDS ds)));
      SetGMSettings (controlledPortsConfig (leadingClockData c)) (upstream_settings ds)]) ->
  wp (handleDownstreamAnnounceIWF ds g) w Q.
Proof.
  intros c H1 H2. unfold handleDownstreamAnnounceIWF, applies, is_locked in *. this_step. fold c.
  destruct (g =? announceToken c); cbn [negb andb] in *; [|wp_run; by apply H1].
  destruct (str_eqb (GetState c) PTP_LOCKED); cbn [negb] in *; [|wp_run; by apply H1].
  this_step. by apply H2.
Qed.

Lemma processSyncE_wp ev w Q :
  (forall e, effects_none e -> sent TypePTPState e = [] -> Q tt w e) -> wp (processSyncE ev) w Q.
Proof.
  intros H. unfold processSyncE. destruct (evData ev) as [[| | |d| | | | | | |]|]; try (wp_run; by apply H).
  this_step. destruct (negb _); this_step; (destruct (seQL d), (seExtQL d); this_step; by apply H).
Qed.

(** An event that does not evaluate the machine leaves its state alone. *)
Lemma AddEvent_quiet env os ev w :
  holder_wf (data (self w)) -> evaluation_clock env ev (self w) = None ->
  wp (AddEvent env os ev) w (fun _ w' e =>
    tbSyncState (self w') = tbSyncState (self w) /\ data (self w') = data (self w) /\
    announceToken (self w') = announceToken (self w) /\ announceSeq w' = announceSeq w /\ fetches e = []).
Proof.
  intros Hd Hc. unfold evaluation_clock, AddEvent in *.
  destruct (str_eqb (evSource ev) SYNCE).
  { this_step. apply processSyncE_wp. intros e (He & _ & _) _. this_step. rewrite app_nil_r. done. }
  destruct (str_eqb (evSource ev) PMC).
  - destruct (evData ev) as [[| | | | | | | |ds g| |]|]; try done; this_step; try done.
    apply handleDownstream_wp; intros _; this_step; done.
  - destruct (record_event_total (now env) true ev _ Hd) as (dh & E & _). by rewrite E in Hc.
Qed.

(** The life of a T-BC. *)
Inductive reach (cfg : string) (seq : Z) : World -> Prop :=
| reach_new : reach cfg seq (NewTBC cfg seq)
| reach_configured w iface r w' e :
    reach cfg seq w -> SetConfiguredLeadingInterface iface w = Some (r, w', e) -> reach cfg seq w'
| reach_event w env os ev r w' e : reach cfg seq w -> AddEvent env os ev w = Some (r, w', e) -> reach cfg seq w'
| reach_reset w o r w' e : reach cfg seq w -> Reset o w = Some (r, w', e) -> reach cfg seq w'
| reach_os w os r w' e : reach cfg seq w -> SystemClockUpdate os w = Some (r, w', e) -> reach cfg seq w'
| reach_other w s : reach cfg seq w -> reach cfg seq (mkWorld s (self w)).

Definition holdover_class (c : TBC) : Prop :=
  GetState c = PTP_HOLDOVER -> ClockClass c = 135 \/ ClockClass c = 165 \/ ClockClass c = ClockClassSlaveOnly.

Lemma move_holdover_class env c :
  holdover_class c -> move_state (move env c) (GetState c) = PTP_HOLDOVER ->
  move_class false (move env c) c = 135 \/ move_class false (move env c) c = 165 \/
  move_class false (move env c) c = ClockClassSlaveOnly.
Proof.
  intros Hc. unfold move. state_cases (GetState c); cbn [orb]; try done.
  - destruct (_ || _); done.
  - destruct (_ || _); [done|]. destruct (_ && _); [done|]. intros _. cbn [move_class].
    destruct (leaves_spec c); [auto|]. by apply Hc.
  - destruct (_ || _); [done|]. destruct (isSourceLostBC c); [|done]. destruct (holdoverDisabled _); [done|]. by left.
  - destruct (_ || _); done.
Qed.

Record tb_inv (c : TBC) : Prop := {
  ti_data : holder_wf (data c);
  ti_class : holdover_class c
}.

Lemma evaluation_clock_keeps env ev c c0 :
  evaluation_clock env ev c = Some c0 ->
  tbSyncState c0 = tbSyncState c /\ announceToken c0 = announceToken c.
Proof.
  unfold evaluation_clock. destruct (str_eqb _ SYNCE); [done|]. destruct (str_eqb _ PMC).
  - destruct (evData ev) as [[]|]; try done. by intros [= <-].
  - destruct (record_event _ _ _ _) as [dh|]; [|done]. intros [= <-].
    match goal with |- context [learn ev ?x] => destruct (learn_keeps ev x) as (_ & -> & -> & _) end. done.
Qed.

Lemma outcome_class env c needs c1 : outcome env c needs c1 -> holdover_class c -> holdover_class c1.
Proof.
  intros Ho Hc Hs. destruct Ho as [Hl|c' Hl Hn Hf Hst Hcl _|b c' Hl Hn Hu].
  - by apply Hc.
  - rewrite Hst in Hs. done.
  - rewrite (ud_state _ _ _ _ Hu) in Hs. rewrite (ud_class _ _ _ _ Hu).
    destruct (isTTSC c); [auto|]. by apply move_holdover_class.
Qed.

Lemma tb_inv_event env os ev w r w' e : tb_inv (self w) -> AddEvent env os ev w = Some (r, w', e) -> tb_inv (self w').
Proof.
  intros [Hd Hc] HA. destruct (evaluation_clock env ev (self w)) as [c0|] eqn:Ec.
  - refine (wp_elim _ _ (fun _ w' _ => tb_inv (self w')) _ _ _ _ HA).
    eapply AddEvent_evaluates; [done|exact Ec|]. intros needs c1 w1 e1 Hd0 Ho [(S1 & _ & D1 & _) _ _ _ _ _ _].
    destruct (evaluation_clock_keeps _ _ _ _ Ec) as [K1 _]. destruct (outcome_base _ _ _ _ Ho) as (B1 & _).
    split; [rewrite D1; unfold data in *; by rewrite B1|].
    assert (holdover_class c1) as Hc1 by (eapply outcome_class; [exact Ho|]; unfold holdover_class, GetState, ClockClass; by rewrite K1).
    unfold holdover_class, GetState, ClockClass in *. by rewrite S1.
  - destruct (wp_elim _ _ _ _ _ _ (AddEvent_quiet env os ev w Hd Ec) HA) as (H1 & H2 & _).
    split; [by rewrite H2|]. unfold holdover_class, GetState, ClockClass in *. by rewrite H1.
Qed.

Lemma reach_tb_inv cfg seq w : reach cfg seq w -> tb_inv (self w).
Proof.
  induction 1 as [|w i r w' e Hr IH HS|w env os ev r w' e Hr IH HA|w o r w' e Hr IH HR|w os r w' e Hr IH HS|w s Hr IH].
  - split; [split; constructor|done].
  - injection HS as <- <- <-. destruct IH. by split.
  - by eapply tb_inv_event.
  - injection HR as <- <- <-. split; [split; constructor|done].
  - refine (wp_elim _ _ (fun _ w' _ => tb_inv (self w')) _ _ _ _ HS). unfold SystemClockUpdate. this_step.
    apply tbc_reconcile_wp. intros ov e1 _ _. destruct IH. by split.
  - done.
Qed.

(** ** Fetches in flight *)

(** The world and the fetches in flight: the token each carries, and whether nothing has
    superseded it since (no newer request, no reset, no replacement of the clock). *)
Record Sys := mkSys {
  sysWorld : World;
  sysFlight : list (Z * bool)
}.

Definition supersede (flight : list (Z * bool)) : list (Z * bool) := (fun '(t, _) => (t, false)) <$> flight.

Definition request (es : list Effect) (flight : list (Z * bool)) : list (Z * bool) :=
  match fetches es with
  | [] => flight
  | ts => supersede flight ++ ((fun t => (t, true)) <$> ts)
  end.

Definition fetch_result (cfg : string) (ds : ParentTimeCurrentDS) (t : Z) : Event :=
  mkEvent PMC "" cfg "" 0 false false (Some (EParentTimeCurrent ds t)).

Inductive sys_step : Sys -> Sys -> Prop :=
| step_event w env os ev r w' e fl :
    (forall ds t, evData ev <> Some (EParentTimeCurrent ds t)) -> AddEvent env os ev w = Some (r, w', e) ->
    sys_step (mkSys w fl) (mkSys w' (request e fl))
| step_reset w o r w' e fl :
    Reset o w = Some (r, w', e) -> sys_step (mkSys w fl) (mkSys w' (supersede fl))
| step_replace w cfg fl :
    sys_step (mkSys w fl) (mkSys (NewTBC cfg (announceSeq w)) (supersede fl))
| step_other w fl :
    (** another T-BC takes a token *)
    sys_step (mkSys w fl) (mkSys (mkWorld (next_token (announceSeq w)) (self w)) fl)
| step_failed w f1 f f2 : sys_step (mkSys w (f1 ++ f :: f2)) (mkSys w (f1 ++ f2))
| step_result w env os ds t fresh r w' e f1 f2 :
    AddEvent env os (fetch_result (cfgName (self w)) ds t) w = Some (r, w', e) ->
    sys_step (mkSys w (f1 ++ (t, fresh) :: f2)) (mkSys w' (f1 ++ f2)).

Inductive sys_reach (cfg : string) : nat -> Sys -> Prop :=
| sys_new : sys_reach cfg 0 (mkSys (NewTBC cfg 0) [])
| sys_more n s s' : sys_reach cfg n s -> sys_step s s' -> sys_reach cfg (S n) s'.

Definition flight_ok (token : Z) (f : Z * bool) : Prop := if snd f then fst f = token else fst f < token.

Record sys_inv (n : nat) (s : Sys) : Prop := {
  si_data : holder_wf (data (self (sysWorld s)));
  si_seq : announceToken (self (sysWorld s)) <= announceSeq (sysWorld s) <= Z.of_nat n + 1;
  si_pos : 0 < announceToken (self (sysWorld s));
  si_flight : Forall (flight_ok (announceToken (self (sysWorld s)))) (sysFlight s)
}.

Lemma next_token_small z : 0 <= z < 2 ^ 64 - 1 -> next_token z = z + 1.
Proof. intros. unfold next_token, uint64, wrap_u. rewrite Z.mod_small; lia. Qed.

Lemma supersede_ok token token' fl :
  Forall (flight_ok token) fl -> token < token' -> Forall (flight_ok token') (supersede fl).
Proof.
  intros HF Hlt. unfold supersede. rewrite Forall_fmap. eapply Forall_impl; [exact HF|].
  intros [t b] H. unfold flight_ok in *. cbn in *. destruct b; lia.
Qed.

Lemma sys_inv_event n w env os ev r w' e fl :
  sys_inv n (mkSys w fl) -> AddEvent env os ev w = Some (r, w', e) -> Z.of_nat (S n) < 2 ^ 64 - 1 ->
  sys_inv (S n) (mkSys w' (request e fl)).
Proof.
  intros [Hd Hs Hp HF] HA Hn. cbn in *. destruct (evaluation_clock env ev (self w)) as [c0|] eqn:Ec.
  - refine (wp_elim _ _ (fun _ w' e => sys_inv (S n) (mkSys w' (request e fl))) _ _ _ _ HA).
    eapply AddEvent_evaluates; [done|exact Ec|]. intros needs c1 w1 e1 Hd0 Ho [(_ & _ & D1 & _) F [T1 T2] _ _ _ _].
    destruct (evaluation_clock_keeps _ _ _ _ Ec) as [_ K]. destruct (outcome_base _ _ _ _ Ho) as (B1 & B2 & _).
    unfold request. rewrite F. rewrite next_token_small in * by lia.
    assert (holder_wf (data (self w1))) as Hd1 by (rewrite D1; unfold data in *; by rewrite B1).
    destruct (needs && is_locked c1); split; cbn; try done; rewrite ?T1, ?T2; try lia.
    + apply Forall_app. split; [eapply supersede_ok; [exact HF|lia]|]. by apply Forall_singleton.
    + by rewrite B2, K.
  - destruct (wp_elim _ _ _ _ _ _ (AddEvent_quiet env os ev w Hd Ec) HA) as (_ & H2 & H3 & H4 & H5).
    unfold request. rewrite H5. split; cbn; rewrite ?H2, ?H3, ?H4; try done. lia.
Qed.

Lemma tbc_sys_inv_step n s s' :
  sys_inv n s -> sys_step s s' -> Z.of_nat (S n) < 2 ^ 64 - 1 -> sys_inv (S n) s'.
Proof.
  intros Hi Hst Hn. destruct Hst as [w env os ev r w' e fl _ HA|w o r w' e fl HR|w cfg fl|w fl|w f1 f f2
    |w env os ds t fresh r w' e f1 f2 HA].
  - by eapply sys_inv_event.
  - destruct Hi as [Hd Hs Hp HF]. cbn in *. injection HR as <- <- <-. rewrite next_token_small by lia.
    split; cbn; try lia; [split; constructor|]. eapply supersede_ok; [exact HF|lia].
  - destruct Hi as [Hd Hs Hp HF]. cbn in *. unfold NewTBC. rewrite next_token_small by lia.
    split; cbn; try lia; [split; constructor|]. eapply supersede_ok; [exact HF|lia].
  - destruct Hi as [Hd Hs Hp HF]. cbn in *. rewrite next_token_small by lia. split; cbn; try done; lia.
  - destruct Hi as [Hd Hs Hp HF]. cbn in *. apply Forall_app in HF as [? [? ?]%Forall_cons].
    split; cbn; try done; [lia|]. by apply Forall_app.
  - assert (sys_inv n (mkSys w (f1 ++ f2))) as Hi'.
    { destruct Hi as [Hd Hs Hp HF]. cbn in *. apply Forall_app in HF as [? [? ?]%Forall_cons].
      split; cbn; try done. by apply Forall_app. }
    pose proof (sys_inv_event _ _ _ _ _ _ _ _ _ Hi' HA Hn) as H.
    destruct (wp_elim _ _ _ _ _ _ (AddEvent_quiet env os (fetch_result (cfgName (self w)) ds t) w (si_data _ _ Hi) eq_refl) HA)
      as (_ & _ & _ & _ & H5). unfold request in H. by rewrite H5 in H.
Qed.

Lemma sys_reach_inv cfg n s : sys_reach cfg n s -> Z.of_nat n < 2 ^ 64 - 1 -> sys_inv n s.
Proof.
  induction 1 as [|n s s' Hr IH Hs]; intros Hn.
  - split; cbn; rewrite ?next_token_small by lia; try lia; [split; constructor|constructor].
  - eapply tbc_sys_inv_step; [apply IH; lia|done|done].
Qed.

(** ** Reading the conditions *)

Lemma source_not_lost c :
  isSourceLostBC c = false ->
  (exists d dd, d ∈ data c /\ daProcessName d = PTP4l /\ dd ∈ daDetails d /\ dtState dd = PTP_LOCKED) /\
  (forall d dd, d ∈ data c -> daProcessName d = DPLL -> dd ∈ daDetails d -> dtState dd = PTP_LOCKED).
Proof.
  unfold isSourceLostBC. cbv zeta. intros [H1%negb_false_iff H2]%orb_false_iff. split.
  - apply existsb_exists in H1 as (d & Hd & [Hn Hx]%andb_true_iff). apply existsb_exists in Hx as (dd & Hdd & Hs).
    exists d, dd. rewrite !list_elem_of_In. by rewrite <- !str_eqb_eq.
  - intros d dd Hd Hn Hdd. destruct (decide (dtState dd = PTP_LOCKED)) as [|Hne]; [done|].
    assert (true = false) as ?; [|done]. rewrite <- H2 at 1. symmetry. apply existsb_exists. exists d.
    rewrite <- list_elem_of_In. split; [done|]. rewrite Hn. cbn [andb]. apply andb_true_iff. split; [done|].
    apply existsb_exists. exists dd. rewrite <- list_elem_of_In. split; [done|]. by rewrite str_eqb_ne.
Qed.

Lemma free_false c : holder_wf (data c) -> free c = false -> freeRunCondition c = Some false.
Proof. intros Hd. unfold free. destruct (freeRunCondition_total c Hd) as [b ->]. by intros <-. Qed.

Lemma lock_reasons env c :
  GetState c <> PTP_LOCKED -> PTP_LOCKED = move_state (move env c) (GetState c) ->
  isSourceLostBC c = false /\ free c = false /\ in_sync env c = true.
Proof.
  unfold move. intros Hne. rewrite (str_eqb_ne _ _ Hne).
  destruct (str_eqb (GetState c) PTP_NOTSET || str_eqb (GetState c) PTP_FREERUN).
  - destruct (free c); cbn [orb]; [by intros ?|]. destruct (isSourceLostBC c); cbn [orb]; [by intros ?|].
    destruct (in_sync env c); [done|by intros ?].
  - destruct (str_eqb (GetState c) PTP_HOLDOVER); [|by intros ?].
    destruct (free c); cbn [orb]; [done|]. destruct (hasNonLeadingDPLLFault c); [done|].
    destruct (in_sync env c); cbn [andb]; [|by intros ?]. destruct (isSourceLostBC c); [by intros ?|done].
Qed.

(** ** Properties *)

(** C1. Every event of a measuring source and every new parent data set takes the T-BC
    exactly along the arrow of its state machine: the new state, clock class and
    holdover specification are those of the move, the state and the class are published
    exactly when they changed, and a free-running clock reports the faulty offset. *)
Theorem TBC_refines_state_machine env os ev w c0 :
  holder_wf (data (self w)) -> evaluation_clock env ev (self w) = Some c0 ->
  getLeadingInterfaceBC c0 <> LEADING_INTERFACE_UNKNOWN -> data c0 <> [] ->
  exists w' e, AddEvent env os ev w = Some (tbSyncState (self w'), w', e) /\
    let m := move env (prepared c0) in
    GetState (self w') = move_state m (GetState (self w)) /\
    ClockClass (self w') = (if isTTSC c0 then ClockClassSlaveOnly else move_class false m (prepared c0)) /\
    lastInSpec (leadingClockData (self w')) = move_spec m (prepared c0) /\
    (GetState (self w') = PTP_FREERUN -> ssClockOffset (tbSyncState (self w')) = FaultyPhaseOffset) /\
    sent TypePTPState e =
      (if str_eqb (GetState (self w')) (GetState (self w)) then []
       else [message TypePTPState (profile (self w')) (getLeadingInterfaceBC c0)
               (StateValue (PtpStateToIPCState (GetState (self w'))) 0)]) /\
    sent TypeClockClass e =
      (if ClockClass (self w') =? ClockClass (self w) then []
       else [message TypeClockClass (profile (self w')) (getLeadingInterfaceBC c0)
               (ClockClassValue (uint8 (ClockClass (self w'))))]).
Proof.
  intros Hd Hc Hl Hn. destruct (evaluation_clock_keeps _ _ _ _ Hc) as [K _].
  assert (GetState c0 = GetState (self w) /\ ClockClass c0 = ClockClass (self w)) as [K1 K2]
    by (unfold GetState, ClockClass; by rewrite K).
  enough (wp (AddEvent env os ev) w (fun r w' e => r = tbSyncState (self w') /\ exists needs c1, outcome env c0 needs c1 /\
    evaluated env (announceSeq w) c0 needs c1 w' e)) as (r & w' & e & HA & -> & needs & c1 & Ho & [(S1 & S2 & _ & _ & S5) _ _ _ _ M1 M2]).
  - exists w', e. split; [done|]. cbv zeta. destruct Ho as [?|? ? ?|b c1 _ _ [U1 U2 U3 U4 U5 _ _]]; [done|done|].
    unfold GetState, ClockClass, profile in *. rewrite S1, S2, S5, U2, U3, U4, K1, M1, M2, U2, U3, K1, K2, (ff_iface _ _ U1).
    repeat (split; [done|]). split; [|done]. by rewrite U2, K1 in U5.
  - eapply AddEvent_evaluates; [done|exact Hc|]. intros needs c1 w' e _ Ho He. split; [done|]. by exists needs, c1.
Qed.

(** C37. The T-BC never locks without a reason: it enters LOCKED only on an event after
    which some ptp4l port is locked, every DPLL is locked, no free-run condition holds,
    and the in-sync filter has seen enough samples within the threshold. *)
Theorem TBC_lock_is_safe env os ev w r w' e :
  holder_wf (data (self w)) -> AddEvent env os ev w = Some (r, w', e) ->
  GetState (self w) <> PTP_LOCKED -> GetState (self w') = PTP_LOCKED ->
  exists c0, evaluation_clock env ev (self w) = Some c0 /\
    (exists d dd, d ∈ data c0 /\ daProcessName d = PTP4l /\ dd ∈ daDetails d /\ dtState dd = PTP_LOCKED) /\
    (forall d dd, d ∈ data c0 -> daProcessName d = DPLL -> dd ∈ daDetails d -> dtState dd = PTP_LOCKED) /\
    freeRunCondition (prepared c0) = Some false /\ in_sync env (prepared c0) = true.
Proof.
  intros Hd HA Hs Hs'. destruct (evaluation_clock env ev (self w)) as [c0|] eqn:Ec; cycle 1.
  { destruct (wp_elim _ _ _ _ _ _ (AddEvent_quiet env os ev w Hd Ec) HA) as (E & _).
    unfold GetState in *. rewrite E in Hs'. done. }
  exists c0. split; [done|]. destruct (evaluation_clock_keeps _ _ _ _ Ec) as [K _].
  assert (GetState c0 = GetState (self w)) as K1 by (unfold GetState; by rewrite K).
  enough (exists needs c1, outcome env c0 needs c1 /\ GetState c1 = PTP_LOCKED /\ holder_wf (data c0)) as (needs & c1 & Ho & Hc1 & Hd0).
  - destruct Ho as [?|? ? ? ? Hx|b c1 _ _ [_ U2 _ _ _ _ _]]; [by rewrite <- K1 in Hs|by rewrite Hx in Hc1|].
    rewrite Hc1, K1 in U2. destruct (lock_reasons env (prepared c0)) as (L1 & L2 & L3).
    { change (GetState (prepared c0)) with (GetState c0). by rewrite K1. }
    { change (GetState (prepared c0)) with (GetState c0). by rewrite K1. }
    split; [|split; [|split; [|done]]].
    + by apply (proj1 (source_not_lost _ L1)).
    + by apply (proj2 (source_not_lost _ L1)).
    + by apply free_false.
  - refine (wp_elim _ _ (fun _ w' _ => GetState (self w') = PTP_LOCKED -> _) _ _ _ _ HA Hs').
    eapply AddEvent_evaluates; [done|exact Ec|]. intros needs c1 w1 e1 Hd0 Ho [(S1 & _) _ _ _ _ _ _] HL.
    exists needs, c1. split; [done|]. unfold GetState in *. by rewrite <- S1.
Qed.

(** Once a holdover is out of specification it stays out: as long as the clock remains
    in HOLDOVER its class only ever changes to 165 (or to 255 for a time slave clock),
    never back to 135. *)
Theorem TBC_out_of_spec_is_final env os ev w r w' e :
  holder_wf (data (self w)) -> AddEvent env os ev w = Some (r, w', e) ->
  GetState (self w) = PTP_HOLDOVER -> GetState (self w') = PTP_HOLDOVER ->
  ClockClass (self w') = ClockClass (self w) \/ ClockClass (self w') = 165 \/ ClockClass (self w') = ClockClassSlaveOnly.
Proof.
  intros Hd HA Hs HL'. destruct (evaluation_clock env ev (self w)) as [c0|] eqn:Ec.
  - refine (wp_elim _ _ (fun _ w' _ => GetState (self w') = PTP_HOLDOVER -> ClockClass (self w') = ClockClass (self w) \/
      ClockClass (self w') = 165 \/ ClockClass (self w') = ClockClassSlaveOnly) _ _ _ _ HA HL').
    eapply AddEvent_evaluates; [done|exact Ec|]. intros needs c1 w1 e1 Hd0 Ho [(S1 & _) _ _ _ _ _ _] HL.
    destruct (evaluation_clock_keeps _ _ _ _ Ec) as [K _]. unfold GetState, ClockClass in *. rewrite S1 in *. rewrite <- K in *.
    destruct Ho as [?|? ? ? ? Hx|b c1 _ _ [_ U2 U3 _ _ _ _]]; [by left|unfold GetState in Hx; by rewrite HL in Hx|].
    unfold GetState, ClockClass in *. rewrite U3. destruct (isTTSC c0); [auto|].
    rewrite HL in U2. revert U2. unfold move.
    change (GetState (prepared c0)) with (ssState (tbSyncState c0)). rewrite Hs. str_norm. cbn [orb].
    destruct (_ || _); [done|]. destruct (_ && _); [done|]. intros _. cbn [move_class].
    destruct (leaves_spec _); auto.
  - left. destruct (wp_elim _ _ _ _ _ _ (AddEvent_quiet env os ev w Hd Ec) HA) as (E & _).
    unfold ClockClass. by rewrite E.
Qed.

(** In every life of a T-BC, HOLDOVER goes with one of the classes 135, 165 and, for a
    time slave clock, 255. *)
Theorem TBC_holdover_class cfg seq w :
  reach cfg seq w -> GetState (self w) = PTP_HOLDOVER ->
  ClockClass (self w) = 135 \/ ClockClass (self w) = 165 \/ ClockClass (self w) = ClockClassSlaveOnly.
Proof. intros Hr. apply (ti_class _ (reach_tb_inv _ _ _ Hr)). Qed.

(** C2. The result of a downstream fetch reaches the controlled ports only if nothing has
    superseded the request that started it (a newer request, a reset, a replacement
    of the clock, whatever other clocks do with the shared counter) and the clock is
    still LOCKED; otherwise the event changes nothing and calls nothing. *)
Theorem TBC_stale_fetch_never_applied cfg n w fl env os ds t fresh :
  sys_reach cfg n (mkSys w fl) -> Z.of_nat n < 2 ^ 64 - 1 -> (t, fresh) ∈ fl ->
  (fresh = false \/ GetState (self w) <> PTP_LOCKED ->
     AddEvent env os (fetch_result (cfgName (self w)) ds t) w = Some (tbSyncState (self w), w, [])) /\
  (fresh = true -> GetState (self w) = PTP_LOCKED ->
     AddEvent env os (fetch_result (cfgName (self w)) ds t) w =
       Some (tbSyncState (self w), mkWorld (announceSeq w) (adopt ds (self w)),
             [SetExternalGM (controlledPortsConfig (leadingClockData (self w)))
                (mkEGP (GrandmasterIdentity (ptcParentDataSet ds)) (StepsRemoved (ptcCurrentDS ds)));
              SetGMSettings (controlledPortsConfig (leadingClockData (self w))) (upstream_settings ds)])).
Proof.
  intros Hr Hn Hf. destruct (sys_reach_inv _ _ _ Hr Hn) as [_ Hs _ HF]. cbn [sysWorld sysFlight] in *.
  rewrite Forall_forall in HF. specialize (HF _ Hf). unfold flight_ok in HF. cbn in HF.
  assert (applies (self w) t = fresh && is_locked (self w)) as Ha.
  { unfold applies. destruct fresh; [by rewrite (proj2 (Z.eqb_eq _ _) HF)|]. rewrite (proj2 (Z.eqb_neq _ _)); [done|lia]. }
  assert (forall Q, (fresh && is_locked (self w) = false -> Q (tbSyncState (self w)) w []) ->
    (fresh && is_locked (self w) = true -> Q (tbSyncState (self w)) (mkWorld (announceSeq w) (adopt ds (self w)))
       [SetExternalGM (controlledPortsConfig (leadingClockData (self w)))
                (mkEGP (GrandmasterIdentity (ptcParentDataSet ds)) (StepsRemoved (ptcCurrentDS ds)));
              SetGMSettings (controlledPortsConfig (leadingClockData (self w))) (upstream_settings ds)]) ->
    wp (AddEvent env os (fetch_result (cfgName (self w)) ds t)) w Q) as Hwp.
  { intros Q H1 H2. unfold AddEvent, fetch_result. cbn [evSource evData].
    change (str_eqb PMC SYNCE) with false. change (str_eqb PMC PMC) with true. this_step.
    apply handleDownstream_wp; rewrite Ha; intros E; this_step; [by apply H1|by apply H2]. }
  split.
  - intros H. destruct (Hwp (fun r w' e => (r, w', e) = (tbSyncState (self w), w, []))) as (r & w' & e & -> & E); [done| |by rewrite E].
    intros [-> Hl%str_eqb_eq]%andb_true_iff. by destruct H.
  - intros -> Hl. destruct (Hwp (fun r w' e => Some (r, w', e) = Some (tbSyncState (self w), mkWorld (announceSeq w) (adopt ds (self w)),
             [SetExternalGM (controlledPortsConfig (leadingClockData (self w)))
                (mkEGP (GrandmasterIdentity (ptcParentDataSet ds)) (StepsRemoved (ptcCurrentDS ds)));
              SetGMSettings (controlledPortsConfig (leadingClockData (self w))) (upstream_settings ds)])))
      as (r & w' & e & -> & E); [|done|done].
    unfold is_locked. rewrite Hl. done.
Qed.

(** A time slave clock (a clock identity but no controlled ports) always reports class
    255 and never propagates anything downstream. *)
Theorem TBC_slave_only env os ev w c0 :
  holder_wf (data (self w)) -> evaluation_clock env ev (self w) = Some c0 ->
  getLeadingInterfaceBC c0 <> LEADING_INTERFACE_UNKNOWN -> data c0 <> [] -> isTTSC c0 = true ->
  exists r w' e, AddEvent env os ev w = Some (r, w', e) /\ ClockClass (self w') = ClockClassSlaveOnly /\
    fetches e = [] /\ announced e = [] /\ applied e = [].
Proof.
  intros Hd Hc Hl Hn Ht. eapply AddEvent_evaluates; [done|exact Hc|].
  intros needs c1 w' e _ Ho [(S1 & _) F _ A P _ _]. destruct Ho as [?|? ? ?|b c1 _ _ [_ _ U3 _ _ _ U7]]; [done|done|].
  rewrite Ht, andb_false_r in U7. subst b. rewrite Ht in U3. unfold ClockClass in *. rewrite S1, F, A, P. done.
Qed.

(** When a T-BC with controlled ports leaves LOCKED it announces its local data to the
    controlled ports and to itself: its own clock class, an unknown accuracy, and the
    time properties of Table VIII.3 (time traceable exactly within the holdover
    specification, upstream leap and UTC data during holdover). *)
Theorem TBC_announces_local_data env os ev w c0 :
  holder_wf (data (self w)) -> evaluation_clock env ev (self w) = Some c0 ->
  getLeadingInterfaceBC c0 <> LEADING_INTERFACE_UNKNOWN -> data c0 <> [] -> isTTSC c0 = false ->
  GetState (self w) = PTP_LOCKED -> move_state (move env (prepared c0)) PTP_LOCKED <> PTP_LOCKED ->
  exists r w' e, AddEvent env os ev w = Some (r, w', e) /\
    let gs := local_settings (utcOffset env) (self w') in
    announced e = [(controlledPortsConfig (leadingClockData (self w')), gs); (cfgName (self w'), gs)] /\
    ClockClass (self w') = (if str_eqb (GetState (self w')) PTP_HOLDOVER then 135 else ClockClassFreerun) /\
    TimeTraceable (gsTimePropertiesDS gs) = str_eqb (GetState (self w')) PTP_HOLDOVER.
Proof.
  intros Hd Hc Hl Hn Ht Hs Hm. eapply AddEvent_evaluates; [done|exact Hc|].
  intros needs c1 w' e _ Ho [(S1 & S2 & _ & _ & S5) F _ A P _ _].
  destruct Ho as [?|? ? ?|b c1 _ _ [[B1 _ _ _ _] U2 U3 _ _ _ U7]]; [done|done|].
  destruct (evaluation_clock_keeps _ _ _ _ Hc) as [K _].
  assert (GetState c0 = PTP_LOCKED) as K1 by (unfold GetState in *; by rewrite K).
  rewrite Ht in U3, U7. rewrite K1 in U2. cbn [negb] in U7. rewrite andb_true_r in U7.
  assert (move env (prepared c0) = FreeRun \/ move env (prepared c0) = Hold) as [E|E].
  { revert Hm. destruct (move env (prepared c0)); cbn; auto; done. }
  all: rewrite E in U2, U3, U7; cbn [move_state move_class move_update] in U2, U3, U7; rewrite U3 in U7; cbn in U7; subst b;
    unfold is_locked, local_settings, GetState, ClockClass in *; rewrite A, S1, S2, S5, U2, U3; done.
Qed.

(** A run: the leading DPLL, a ptp4l port and ts2phc report; the clock locks, requests the
    upstream data, loses its source and coasts. *)
Definition ex_env : Env := mkEnv 100 100000 37.
Definition ex_ev (source iface : string) (d : EventData) : Event :=
  mkEvent source iface "ts2phc.0.config" TBC_type 100000 false false (Some d).
Definition ex_dpll (st : PTPState) (offset : Z) : Event :=
  ex_ev DPLL "ens1f0" (EDPLL (mkDPLLData st false false true true (Some offset) (Some 3) (Some 3) 1 5 1 1500 100 false)).
Definition ex_ptp4l (st : PTPState) : Event := ex_ev PTP4l "ens1f1" (EOffset (mkOffsetData st 2 false None)).
Definition ex_state (ctrl : string) : Event := ex_ev PTP4l "" (EState (mkStateData PTP_LOCKED false ctrl "clock-id")).
Definition ex_ts2phc : Event := ex_ev TS2PHC "ens1f0" (EOffset (mkOffsetData PTP_LOCKED 3 false None)).
Definition ex_step (ev : Event) (w : World) : World :=
  match AddEvent ex_env PTP_LOCKED ev w with Some (_, w', _) => w' | None => w end.
Definition ex_new : World := NewTBC "ts2phc.0.config" 0.
Definition ex_w1 : World := ex_step (ex_state "ptp4l.1.config") ex_new.
Definition ex_w2 : World := ex_step (ex_dpll PTP_LOCKED 1) ex_w1.
Definition ex_w3 : World := ex_step (ex_ptp4l PTP_LOCKED) ex_w2.
Definition ex_locked : World := ex_step ex_ts2phc ex_w3.
Definition ex_hold : World := ex_step (ex_dpll PTP_HOLDOVER 7) ex_locked.
Definition ex_clock (ev : Event) (w : World) : TBC := default (self w) (evaluation_clock ex_env ev (self w)).

Lemma tbc_ex_reach : reach "ts2phc.0.config" 0 ex_hold.
Proof.
  eapply (reach_event _ _ ex_locked ex_env PTP_LOCKED (ex_dpll PTP_HOLDOVER 7)); [|vm_compute; reflexivity].
  eapply (reach_event _ _ ex_w3 ex_env PTP_LOCKED ex_ts2phc); [|vm_compute; reflexivity].
  eapply (reach_event _ _ ex_w2 ex_env PTP_LOCKED (ex_ptp4l PTP_LOCKED)); [|vm_compute; reflexivity].
  eapply (reach_event _ _ ex_w1 ex_env PTP_LOCKED (ex_dpll PTP_LOCKED 1)); [|vm_compute; reflexivity].
  eapply (reach_event _ _ ex_new ex_env PTP_LOCKED (ex_state "ptp4l.1.config")); [apply reach_new|vm_compute; reflexivity].
Qed.

Lemma TBC_refines_state_machine_witness :
  exists w' e, AddEvent ex_env PTP_LOCKED ex_ts2phc ex_w3 = Some (tbSyncState (self w'), w', e) /\
    GetState (self w') = PTP_LOCKED.
Proof.
  destruct (TBC_refines_state_machine ex_env PTP_LOCKED ex_ts2phc ex_w3 (ex_clock ex_ts2phc ex_w3)) as (w' & e & H1 & H2);
    [concrete_wf|vm_compute; reflexivity|vm_compute; discriminate|vm_compute; discriminate|].
  exists w', e. split; [exact H1|]. destruct H2 as (H2 & _). rewrite H2. vm_compute. reflexivity.
Defined.

Lemma TBC_lock_is_safe_witness :
  freeRunCondition (prepared (ex_clock ex_ts2phc ex_w3)) = Some false.
Proof.
  destruct (TBC_lock_is_safe ex_env PTP_LOCKED ex_ts2phc ex_w3 (tbSyncState (self ex_locked)) ex_locked
    (match AddEvent ex_env PTP_LOCKED ex_ts2phc ex_w3 with Some (_, _, e) => e | None => [] end)) as (c0 & E & _ & _ & H & _);
    [concrete_wf|vm_compute; reflexivity|vm_compute; discriminate|vm_compute; reflexivity|].
  unfold ex_clock. rewrite E. exact H.
Defined.

Lemma TBC_out_of_spec_is_final_witness :
  let w' := ex_step (ex_dpll PTP_HOLDOVER 150) ex_hold in
  ClockClass (self w') = ClockClass (self ex_hold) \/ ClockClass (self w') = 165 \/ ClockClass (self w') = ClockClassSlaveOnly.
Proof.
  refine (TBC_out_of_spec_is_final ex_env PTP_LOCKED (ex_dpll PTP_HOLDOVER 150) ex_hold
    (tbSyncState (self (ex_step (ex_dpll PTP_HOLDOVER 150) ex_hold))) (ex_step (ex_dpll PTP_HOLDOVER 150) ex_hold)
    (match AddEvent ex_env PTP_LOCKED (ex_dpll PTP_HOLDOVER 150) ex_hold with Some (_, _, e) => e | None => [] end) _ _ _ _);
    [concrete_wf|vm_compute; reflexivity|vm_compute; reflexivity|vm_compute; reflexivity].
Defined.

Lemma TBC_holdover_class_witness :
  ClockClass (self ex_hold) = 135 \/ ClockClass (self ex_hold) = 165 \/ ClockClass (self ex_hold) = ClockClassSlaveOnly.
Proof. apply (TBC_holdover_class _ _ _ tbc_ex_reach). vm_compute. reflexivity. Defined.

Definition ex_ds : ParentTimeCurrentDS :=
  mkParentTimeCurrentDS (zero_ParentDataSet <| GrandmasterClockClass := 6 |>) zero_TimePropertiesDS (mkCurrentDS 2 f64_zero f64_zero).

Definition ex_effects (ev : Event) (w : World) : list Effect :=
  match AddEvent ex_env PTP_LOCKED ev w with Some (_, _, e) => e | None => [] end.

Lemma ex_sys_step n w ev fl fl' :
  sys_reach "ts2phc.0.config" n (mkSys w fl) -> (forall ds t, evData ev <> Some (EParentTimeCurrent ds t)) ->
  AddEvent ex_env PTP_LOCKED ev w = Some (tbSyncState (self (ex_step ev w)), ex_step ev w, ex_effects ev w) ->
  request (ex_effects ev w) fl = fl' -> sys_reach "ts2phc.0.config" (S n) (mkSys (ex_step ev w) fl').
Proof. intros Hr Hev HA <-. eapply sys_more; [exact Hr|]. by eapply step_event. Qed.

(** Two requests: the first one is superseded when the upstream data changes again. *)
Definition ex_parent (cls : Z) : Event :=
  mkEvent PMC "" "ts2phc.0.config" TBC_type 100000 false false
    (Some (EParentDS (zero_ParentDataSet <| GrandmasterClockClass := cls |>))).
Definition ex_twice : World := ex_step (ex_parent 6) (ex_step (ex_parent 7) ex_locked).

Lemma ex_sys_reach : sys_reach "ts2phc.0.config" 6 (mkSys ex_twice [(2, false); (3, true)]).
Proof.
  eapply (ex_sys_step 5 (ex_step (ex_parent 7) ex_locked) (ex_parent 6) [(2, true)]);
    [|discriminate|vm_compute; reflexivity|vm_compute; reflexivity].
  eapply (ex_sys_step 4 ex_locked (ex_parent 7) []); [|discriminate|vm_compute; reflexivity|vm_compute; reflexivity].
  eapply (ex_sys_step 3 ex_w3 ex_ts2phc []); [|discriminate|vm_compute; reflexivity|vm_compute; reflexivity].
  eapply (ex_sys_step 2 ex_w2 (ex_ptp4l PTP_LOCKED) []); [|discriminate|vm_compute; reflexivity|vm_compute; reflexivity].
  eapply (ex_sys_step 1 ex_w1 (ex_dpll PTP_LOCKED 1) []); [|discriminate|vm_compute; reflexivity|vm_compute; reflexivity].
  eapply (ex_sys_step 0 ex_new (ex_state "ptp4l.1.config") []); [|discriminate|vm_compute; reflexivity|vm_compute; reflexivity].
  apply sys_new.
Qed.

Lemma TBC_stale_fetch_never_applied_witness :
  AddEvent ex_env PTP_LOCKED (fetch_result (cfgName (self ex_twice)) ex_ds 2) ex_twice =
  Some (tbSyncState (self ex_twice), ex_twice, []).
Proof.
  apply (TBC_stale_fetch_never_applied "ts2phc.0.config" 6 ex_twice _ ex_env PTP_LOCKED ex_ds 2 false ex_sys_reach);
    [lia|left|by left].
Defined.

(** A time slave clock: no controlled ports. *)
Definition ex_slave : World := ex_step (ex_ptp4l PTP_LOCKED) (ex_step (ex_dpll PTP_LOCKED 1) (ex_step (ex_state "") ex_new)).

Lemma TBC_slave_only_witness :
  exists r w' e, AddEvent ex_env PTP_LOCKED ex_ts2phc ex_slave = Some (r, w', e) /\
    ClockClass (self w') = ClockClassSlaveOnly /\ fetches e = [] /\ announced e = [] /\ applied e = [].
Proof.
  apply (TBC_slave_only ex_env PTP_LOCKED ex_ts2phc ex_slave (ex_clock ex_ts2phc ex_slave));
    [concrete_wf|vm_compute; reflexivity|vm_compute; discriminate|vm_compute; discriminate|vm_compute; reflexivity].
Defined.

Lemma TBC_announces_local_data_witness :
  exists r w' e, AddEvent ex_env PTP_LOCKED (ex_dpll PTP_HOLDOVER 7) ex_locked = Some (r, w', e) /\
    announced e = [(controlledPortsConfig (leadingClockData (self w')), local_settings 37 (self w'));
                   (cfgName (self w'), local_settings 37 (self w'))].
Proof.
  destruct (TBC_announces_local_data ex_env PTP_LOCKED (ex_dpll PTP_HOLDOVER 7) ex_locked (ex_clock (ex_dpll PTP_HOLDOVER 7) ex_locked))
    as (r & w' & e & H1 & H2 & _);
    [concrete_wf|vm_compute; reflexivity|vm_compute; discriminate|vm_compute; discriminate|vm_compute; reflexivity|
     vm_compute; reflexivity|vm_compute; discriminate|].
  exists r, w', e. split; [exact H1|exact H2].
Defined.

End Tbc.
