(* ===== verification/Clock.v ===== *)
(** * pkg/clock/clock.go: the interface between the clocks and their manager

    The Go interface [Clock] is the class below; [ClockLaws] is what a clock promises the
    manager that drives it.  The manager is verified against the two classes only; the
    four clock types implement them in Clocks.v.  [never] is the small logic with which
    the implementations show what they do not send. *)

From S2P Require Import Prelude Protocol Ipc Event Stats ClockBase Method.

(** What the surroundings answer during one step of the manager: the times, the UTC
    offset, the NMEA count of ts2phc, the answers of pmc, the iteration orders of the
    maps of clocks and of HA members, and the alias of an interface. *)
Record Env := mkEnv {
  envNow : Z;
  envNowMilli : Z;
  envUtcOffset : Z;
  envNoSourceTSCount : Z;
  envGetGMSettings : string -> option GrandmasterSettings;
  envSetGMSettings : string -> GrandmasterSettings -> bool;
  envMemberOrder : list string;
  envClockOrder : list string;
  envTimestamp : string;
  envGetAlias : string -> string
}.

(** A method runs on its receiver and on the announce sequence all T-BCs share. *)
Abbreviation Shared C := (Z * C)%type.

(** The operations.  [AddEvent] also returns the event: its payload is shared with the
    caller, and the grandmaster clock writes to it. *)
Class Clock (C : Type) := {
  ClockType_ : C -> ClockType;
  ConfigNames_ : list string -> C -> list string;
  GetState : C -> PTPState;
  ProcessDataForConfig : list string -> OsClock -> string -> C -> list Data;
  AddEvent : Env -> PTPState -> Event -> M (Shared C) (SyncState * Event);
  SystemClockUpdate : Env -> PTPState -> M (Shared C) unit;
  Reset : Env -> OsClock -> M (Shared C) OsClock
}.

(** The effects do not include the message type [ty]. *)
Definition quiet (ty : string) (es : list Effect) : Prop := sent ty es = [].

(** [good] is the representation invariant of a clock, [accepts] what an event must
    satisfy for the handler not to panic. *)
Class ClockLaws (C : Type) `{Clock C} := {
  good : C -> Prop;
  accepts : Event -> C -> Prop;
  ProcessData_law order o o' cfg c : osData o = osData o' ->
    ProcessDataForConfig order o cfg c = ProcessDataForConfig order o' cfg c;
  AddEvent_law env os ev seq c : good c -> accepts ev c ->
    wp (AddEvent env os ev) (seq, c) (fun _ s e => good (snd s) /\ quiet TypeOSClockState e);
  SystemClockUpdate_law env os seq c : good c ->
    wp (SystemClockUpdate env os) (seq, c) (fun _ s e =>
      good (snd s) /\ GetState (snd s) = GetState c /\ ClockType_ (snd s) = ClockType_ c /\
      (forall order o cfg, ProcessDataForConfig order o cfg (snd s) = ProcessDataForConfig order o cfg c) /\
      quiet TypeOSClockState e);
  Reset_law env o seq c : good c ->
    wp (Reset env o) (seq, c) (fun o' s e => o' = OsClock_Reset o /\ good (snd s) /\ quiet TypeOSClockState e)
}.

(** ** What a method never sends *)

Definition never {S A} (ty : string) (m : M S A) : Prop :=
  forall s a s' e, m s = Some (a, s', e) -> quiet ty e.

Section never.
  Context {S : Type} (ty : string).

Lemma quiet_app es es' : quiet ty es -> quiet ty es' -> quiet ty (es ++ es').
Proof. unfold quiet. rewrite sent_app. by intros -> ->. Qed.

Lemma never_ret {A} (a : A) : never (S := S) ty (mret a).
Proof. intros s a' s' e [= <- <- <-]. done. Qed.

Lemma never_bind {A B} (m : M S A) (k : A -> M S B) : never ty m -> (forall a, never ty (k a)) -> never ty (a ← m; k a).
Proof.
  intros Hm Hk s b s' e E. unfold mbind, M_bind in E. destruct (m s) as [[[a s1] e1]|] eqn:E1; [|done].
  destruct (k a s1) as [[[b' s2] e2]|] eqn:E2; [|done]. injection E as <- <- <-.
  apply quiet_app; [by eapply Hm|by eapply Hk].
Qed.

Lemma never_get : never (S := S) ty get.
Proof. intros s a s' e [= <- <- <-]. done. Qed.

Lemma never_gets {A} (f : S -> A) : never ty (gets f).
Proof. intros s a s' e [= <- <- <-]. done. Qed.

Lemma never_modify (f : S -> S) : never ty (modify f).
Proof. intros s a s' e [= <- <- <-]. done. Qed.

Lemma never_emits es : quiet ty es -> never (S := S) ty (emits es).
Proof. intros H s a s' e [= <- <- <-]. done. Qed.

Lemma never_emit x : quiet ty [x] -> never (S := S) ty (emit x).
Proof. intros H s a s' e [= <- <- <-]. done. Qed.

Lemma never_lift {A} (o : option A) : never (S := S) ty (lift o).
Proof. destruct o; [apply never_ret|]. intros s a s' e [=]. Qed.

Lemma never_when (b : bool) (m : M S unit) : never ty m -> never ty (when b m).
Proof. destruct b; [done|]. intros _. apply never_ret. Qed.

Lemma never_wp {A} (m : M S A) s (Q : A -> S -> list Effect -> Prop) :
  never ty m -> wp m s Q -> wp m s (fun a s' e => Q a s' e /\ quiet ty e).
Proof. intros Hn (a & s' & e & E & HQ). exists a, s', e. split; [done|]. split; [done|by eapply Hn]. Qed.
End never.

Lemma never_overall {S} ty overall st os profile (k : PTPState -> M S unit) :
  ty <> TypeSyncState -> (forall o, never ty (k o)) ->
  never ty (let '(overall, es) := emitOverallSyncStateIfChanged overall st os profile in k overall;; emits es).
Proof.
  intros Hty Hk. unfold emitOverallSyncStateIfChanged. cbv zeta. destruct (negb _).
  all: apply never_bind; [apply Hk|intros _; apply never_emits].
  2: done.
  unfold quiet, sent; cbn. unfold str_eqb. by rewrite bool_decide_eq_false_2.
Qed.

Create HintDb never.

(** The structural rules, applied to a method's text; the database holds what is known
    of the methods it calls. *)
Ltac never_step :=
  lazymatch goal with
  | |- never _ (mret _) => apply never_ret
  | |- never _ (mbind _ _) => apply never_bind; [|intros ?]
  | |- never _ get => apply never_get
  | |- never _ (gets _) => apply never_gets
  | |- never _ (modify _) => apply never_modify
  | |- never _ (emit _) => apply never_emit; done
  | |- never _ (lift _) => apply never_lift
  | |- never _ (when _ _) => apply never_when
  | |- never _ (let '(_, _) := emitOverallSyncStateIfChanged _ _ _ _ in _) =>
      apply never_overall; [done|intros ?]
  | |- never _ (match ?x with _ => _ end) => destruct x
  | |- never _ (let _ := _ in _) => cbv zeta
  end.

Ltac never_run := repeat first [solve [auto 1 with never nocore] | never_step; cbv beta].
Ltac never_method m := unfold m; never_run.
