(* ===== verification/Clocks.v ===== *)
(** * The four clock types behind the interface

    A value of the Go interface [clock.Clock] is one of the four clock types; this file
    gives the instance of the class of Clock.v and discharges its laws from the theorems
    about each type. *)

From S2P Require Import Prelude Float64 Utils Protocol Ipc Event Stats ClockBase Method BC GM HA TBC Clock.

Inductive AnyClock :=
| CBC (c : BCClock)
| CGM (c : GM)
| CTBC (c : TBC)
| CHA (c : HAClock).

Module Clocks.

(** A method of one type, on the value of the interface. *)
Definition run_on {T A} (wrap : T -> AnyClock) (m : M T A) (t : T) : M (Shared AnyClock) A := fun s =>
  match m t with
  | Some (a, t', e) => Some (a, (fst s, wrap t'), e)
  | None => None
  end.

Definition run_tbc {A} (m : M World A) (t : TBC) : M (Shared AnyClock) A := fun s =>
  match m (mkWorld (fst s) t) with
  | Some (a, w, e) => Some (a, (announceSeq w, CTBC (self w)), e)
  | None => None
  end.

Definition gm_env (env : Clock.Env) : Gm.Env :=
  Gm.mkEnv (envNow env) (envUtcOffset env) (envNoSourceTSCount env) (envGetGMSettings env) (envSetGMSettings env).

Definition tbc_env (env : Clock.Env) : Tbc.Env := Tbc.mkEnv (envNow env) (envNowMilli env) (envUtcOffset env).

(** The methods of all types but the grandmaster leave the event as it is. *)
Definition same_event {S} (ev : Event) (m : M S SyncState) : M S (SyncState * Event) := st ← m; mret (st, ev).

#[global] Instance Clock_AnyClock : Clock AnyClock := {|
  ClockType_ c :=
    match c with
    | CBC c => BC.ClockType_ c | CGM _ => GM_type | CTBC _ => TBC_type | CHA _ => HA_type
    end;
  ConfigNames_ order c :=
    match c with
    | CBC c => ConfigNames (bcBase c) | CGM c => ConfigNames (gmBase c) | CTBC c => ConfigNames (tbBase c)
    | CHA c => Ha.ConfigNames_ order c
    end;
  GetState c :=
    match c with
    | CBC c => BC.GetState c | CGM c => Gm.GetState c | CTBC c => Tbc.GetState c | CHA c => Ha.GetState c
    end;
  ProcessDataForConfig order o cfg c :=
    match c with
    | CBC c => ProcessData (bcBase c) o | CGM c => ProcessData (gmBase c) o | CTBC c => ProcessData (tbBase c) o
    | CHA c => Ha.ProcessDataForConfig order o cfg c
    end;
  AddEvent env os ev := fun s =>
    match snd s with
    | CBC c => run_on CBC (same_event ev (BC.AddEvent (envNow env) os ev)) c s
    | CGM c => run_on CGM (Gm.AddEvent (gm_env env) os ev) c s
    | CTBC c => run_tbc (same_event ev (Tbc.AddEvent (tbc_env env) os ev)) c s
    | CHA c => run_on CHA (same_event ev (Ha.AddEvent (envNow env) os (envMemberOrder env) ev)) c s
    end;
  SystemClockUpdate env os := fun s =>
    match snd s with
    | CBC c => run_on CBC (BC.SystemClockUpdate os) c s
    | CGM c => run_on CGM (Gm.SystemClockUpdate os) c s
    | CTBC c => run_tbc (Tbc.SystemClockUpdate os) c s
    | CHA c => run_on CHA (Ha.SystemClockUpdate os (envMemberOrder env)) c s
    end;
  Reset env o := fun s =>
    match snd s with
    | CBC c => run_on CBC (BC.Reset o) c s
    | CGM c => run_on CGM (Gm.Reset o) c s
    | CTBC c => run_tbc (Tbc.Reset o) c s
    | CHA c => run_on CHA (Ha.Reset (envMemberOrder env) o) c s
    end |}.

(** ** No clock sends the node-wide OS-clock state *)

Abbreviation os_quiet m := (never TypeOSClockState m).

Lemma os_overall {S} overall st os profile (k : PTPState -> M S unit) :
  (forall o, os_quiet (k o)) ->
  os_quiet (let '(overall, es) := emitOverallSyncStateIfChanged overall st os profile in k overall;; emits es).
Proof. by apply never_overall. Qed.

Lemma BC_updateClockClass_quiet cl : os_quiet (BC.updateClockClass cl).
Proof. unfold BC.updateClockClass. never_method @BC.emitClockClass. Qed.

Lemma BC_onStateChanged_quiet os prev iface : os_quiet (BC.onStateChanged os prev iface).
Proof. unfold BC.onStateChanged. never_method @BC.reconcile. Qed.

Lemma BC_cancel_quiet : os_quiet BC.cancelHoldoverTimer.
Proof. never_method @BC.cancelHoldoverTimer. Qed.

#[export] Hint Resolve BC_updateClockClass_quiet BC_onStateChanged_quiet BC_cancel_quiet : never.

Lemma BC_quiet now os ev : os_quiet (BC.AddEvent now os ev).
Proof.
  unfold BC.AddEvent, BC.handleHoldoverExpired, BC.record, BC.learn_iface, BC.emitClockClass,
    BC.lose_source, BC.gate_offset, BC.armHoldoverTimer. never_run.
Qed.

Lemma GM_publish_quiet gnss leading ps pc : os_quiet (Gm.publish gnss leading ps pc).
Proof. never_method @Gm.publish. Qed.

Lemma GM_reconcile_quiet os : os_quiet (Gm.reconcile os).
Proof. never_method @Gm.reconcile. Qed.

#[export] Hint Resolve GM_publish_quiet GM_reconcile_quiet : never.

Lemma GM_quiet env os ev : os_quiet (Gm.AddEvent env os ev).
Proof.
  unfold Gm.AddEvent, Gm.updateState, Gm.announceClockClassIfChanged, Gm.announceClockClass, Gm.write_settings,
    Gm.record, Gm.set_sync. never_run.
Qed.

Lemma TBC_fsm_quiet env ttsc : os_quiet (Tbc.fsm env ttsc).
Proof.
  unfold Tbc.fsm, Tbc.fsm_unlocked, Tbc.fsm_locked, Tbc.fsm_holdover, Tbc.follow_upstream, Tbc.track_spec,
    Tbc.inSyncCondition, Tbc.enter, Tbc.enter_class, Tbc.set_sync, Tbc.set_lead, Tbc.put, Tbc.this. never_run.
Qed.

#[export] Hint Resolve TBC_fsm_quiet : never.

Lemma TBC_updateState_quiet env : os_quiet (Tbc.updateState env).
Proof. unfold Tbc.updateState, Tbc.finish_update, Tbc.set_offset, Tbc.set_sync, Tbc.put, Tbc.this. never_run. Qed.

Lemma TBC_updateDownstream_quiet env cfg : os_quiet (Tbc.updateDownstreamData env cfg).
Proof. unfold Tbc.updateDownstreamData, Tbc.announceLocalData, Tbc.nextAnnounceToken, Tbc.put, Tbc.this. never_run. Qed.

Lemma TBC_reconcile_quiet os profile : os_quiet (Tbc.reconcile os profile).
Proof. unfold Tbc.reconcile, Tbc.put, Tbc.this. never_run. Qed.

#[export] Hint Resolve TBC_updateState_quiet TBC_updateDownstream_quiet TBC_reconcile_quiet : never.

Lemma TBC_evaluate_quiet env os : os_quiet (Tbc.evaluateState env os).
Proof. unfold Tbc.evaluateState, Tbc.publish, Tbc.this. never_run. Qed.

#[export] Hint Resolve TBC_evaluate_quiet : never.

Lemma TBC_quiet env os ev : os_quiet (Tbc.AddEvent env os ev).
Proof.
  unfold Tbc.AddEvent, Tbc.processSyncE, Tbc.updateUpstreamParentDataSet, Tbc.handleDownstreamAnnounceIWF,
    Tbc.updateLeadingClockData, Tbc.record, Tbc.set_lead, Tbc.put, Tbc.this. never_run.
Qed.

Lemma member_quiet {A} cfg (m : M BCClock A) : os_quiet m -> os_quiet (Ha.member cfg m).
Proof.
  intros Hm c a c' e E. unfold Ha.member in E. destruct (members c !! cfg) as [bc|]; [|by injection E as <- <- <-].
  destruct (m bc) as [[[b bc'] e']|] eqn:Em; [|done]. injection E as <- <- <-. unfold quiet.
  rewrite Ha.intercept_other by done. by eapply Hm.
Qed.

Lemma HA_reconcile_quiet os : os_quiet (Ha.reconcile os).
Proof. never_method @Ha.reconcile. Qed.

#[export] Hint Resolve HA_reconcile_quiet : never.

Lemma HA_quiet now os order ev : os_quiet (Ha.AddEvent now os order ev).
Proof.
  pose proof (BC_quiet now os ev) as Hbc. pose proof (member_quiet (evCfgName ev) _ Hbc) as Hm.
  unfold Ha.AddEvent. never_run; exact Hm.
Qed.

Lemma each_member_quiet {A} order (m : M BCClock A) : os_quiet m -> os_quiet (Ha.each_member order m).
Proof.
  intros Hm. induction order as [|cfg order IH]; cbn; [apply never_ret|].
  apply never_bind; [by apply member_quiet|]. intros _. exact IH.
Qed.

(** ** The invariants *)

Definition any_good (c : AnyClock) : Prop :=
  match c with
  | CBC c => holder_wf (bsData (bcBase c))
  | CGM c => holder_wf (Gm.data c)
  | CTBC c => holder_wf (Tbc.data c)
  | CHA c => map_Forall (fun _ m => holder_wf (bsData (bcBase m))) (members c)
  end.

(** The boundary clock dereferences the offset of a DPLL event without a test. *)
Definition tolerated (ev : Event) : Prop := evSource ev = PMC \/ BC.usable ev.

Definition any_accepts (ev : Event) (c : AnyClock) : Prop :=
  match c with
  | CBC _ => tolerated ev
  | CHA c => tolerated ev \/ members c !! evCfgName ev = None
  | _ => True
  end.

#[global] Instance tolerated_dec ev : Decision (tolerated ev).
Proof. unfold tolerated, BC.usable. destruct (evData ev) as [[]|]; apply _. Defined.

Lemma run_on_wp {T A} (wrap : T -> AnyClock) (m : M T A) t seq x (Q : A -> Shared AnyClock -> list Effect -> Prop) :
  wp m t (fun a t' e => Q a (seq, wrap t') e) -> wp (run_on wrap m t) (seq, x) Q.
Proof. intros (a & t' & e & E & HQ). exists a, (seq, wrap t'), e. unfold run_on. by rewrite E. Qed.

Lemma run_tbc_wp {A} (m : M World A) t seq x (Q : A -> Shared AnyClock -> list Effect -> Prop) :
  wp m (mkWorld seq t) (fun a w e => Q a (announceSeq w, CTBC (self w)) e) -> wp (run_tbc m t) (seq, x) Q.
Proof. intros (a & w & e & E & HQ). exists a, (announceSeq w, CTBC (self w)), e. unfold run_tbc; cbn. by rewrite E. Qed.

Lemma same_event_wp {S} ev (m : M S SyncState) s Q :
  wp m s (fun a s' e => Q (a, ev) s' e) -> wp (same_event ev m) s Q.
Proof. intros H. unfold same_event. wp_run. eapply wp_mono; [exact H|]. intros a s' e HQ. wp_run. by rewrite app_nil_r. Qed.

Lemma TBC_good env os ev w :
  holder_wf (Tbc.data (self w)) -> wp (Tbc.AddEvent env os ev) w (fun _ w' _ => holder_wf (Tbc.data (self w'))).
Proof.
  intros Hd. destruct (Tbc.evaluation_clock env ev (self w)) as [c0|] eqn:Ec.
  - eapply Tbc.AddEvent_evaluates; [done|exact Ec|]. intros needs c1 w1 e1 Hd0 Ho [(_ & _ & D1 & _) _ _ _ _ _ _].
    rewrite D1. destruct (Tbc.outcome_base _ _ _ _ Ho) as (B1 & _). unfold Tbc.data in *. by rewrite B1.
  - eapply wp_mono; [by apply Tbc.AddEvent_quiet|]. intros r w' e (_ & -> & _). done.
Qed.

Lemma GM_good env os ev c :
  holder_wf (Gm.data c) -> wp (Gm.AddEvent env os ev) c (fun _ c' _ => holder_wf (Gm.data c')).
Proof.
  intros Hd. destruct (decide (evSource ev = PMC)) as [Hs|Hs].
  - unfold Gm.AddEvent, str_eqb. rewrite bool_decide_eq_true_2 by done. by wp_run.
  - destruct (Gm.AddEvent_step env os ev c Hd Hs) as (dh & _ & H). eapply wp_mono; [exact H|].
    intros a c' e [_ Hst]. destruct (Gm.gs_data _ _ _ _ _ _ Hst) as [H1 H2]. by rewrite H2.
Qed.

Lemma HA_good now os order ev c :
  any_good (CHA c) -> tolerated ev \/ members c !! evCfgName ev = None -> wp (Ha.AddEvent now os order ev) c (fun _ c' _ => any_good (CHA c')).
Proof.
  intros Hd Hu. unfold Ha.AddEvent.
  assert (wp (r ← Ha.member (evCfgName ev) (BC.AddEvent now os ev);
      match r with
      | None => gets (Ha.status_only order)
      | Some ms => modify (fun c => c <| haSyncState := Ha.bestMemberState order c |>);; Ha.reconcile os;;
          c ← get; mret (ms <| ssHAProfileStatus := Ha.haProfileStatus order c |>)
      end) c (fun _ c' _ => any_good (CHA c'))) as H.
  { wp_step. destruct (members c !! evCfgName ev) as [bc|] eqn:E.
    - eapply Ha.member_wp; [exact E|]. eapply wp_mono; [apply BC.AddEvent_stepped_or; [by eapply Hd|by destruct Hu as [|Hu]; [|rewrite Hu in E]]|].
      intros a bc' e [_ Hst]. wp_run. apply Ha.ha_reconcile_wp. wp_run. cbn.
      apply map_Forall_insert_2; [exact (BC.st_data _ _ _ _ _ _ Hst)|exact Hd].
    - eexists None, c, []. split; [unfold Ha.member; by rewrite E|]. by wp_run. }
  destruct (evData ev) as [[]|]; try exact H. wp_run. unfold Ha.setActiveByIface. by destruct (first_match _ _).
Qed.

(** A member map after an operation that keeps the data and the name of each member. *)
Definition same_member (m m' : BCClock) : Prop := bsData (bcBase m') = bsData (bcBase m) /\ BC.cfgName m' = BC.cfgName m.

Definition same_members (c c' : HAClock) : Prop :=
  haBase c' = haBase c /\ haSyncState c' = haSyncState c /\
  forall cfg, option_Forall2 same_member (members c !! cfg) (members c' !! cfg).

#[export] Instance same_member_refl : Reflexive same_member.
Proof. intros m. by split. Qed.

#[export] Instance same_member_trans : Transitive same_member.
Proof. intros m m' m'' [] []. split; congruence. Qed.

#[export] Instance same_members_refl : Reflexive same_members.
Proof. intros c. repeat split. intros cfg. reflexivity. Qed.

#[export] Instance same_members_trans : Transitive same_members.
Proof.
  intros c c' c'' (B & S & H) (B' & S' & H'). split; [congruence|]. split; [congruence|]. intros cfg.
  by transitivity (members c' !! cfg).
Qed.

Lemma each_member_same os order c :
  wp (Ha.each_member order (BC.SystemClockUpdate os)) c (fun _ c' _ => same_members c c').
Proof.
  revert c. induction order as [|cfg order IH]; intros c; cbn [Ha.each_member]; [by wp_run|].
  wp_step. destruct (members c !! cfg) as [bc|] eqn:E.
  - eapply Ha.member_wp; [exact E|]. apply BC.bc_reconcile_wp. eapply wp_mono; [apply IH|]. intros u c' e Hc.
    transitivity (c <| members := <[cfg := BC.reconciled os bc]> (members c) |>); [|exact Hc].
    split; [done|]. split; [done|]. intros cfg'. cbn. destruct (decide (cfg = cfg')) as [<-|Hne].
    + rewrite lookup_insert_eq, E. constructor. by split.
    + rewrite lookup_insert_ne by done. reflexivity.
  - eexists None, c, []. split; [unfold Ha.member; by rewrite E|]. eapply wp_mono; [apply IH|]. done.
Qed.

Lemma first_match_ext {A} (p q : A -> bool) l : (forall x, p x = q x) -> first_match p l = first_match q l.
Proof. intros H. induction l as [|x l IH]; cbn; [done|]. by rewrite H, IH. Qed.

Lemma same_members_data c c' order o cfg :
  same_members c c' -> Ha.ProcessDataForConfig order o cfg c' = Ha.ProcessDataForConfig order o cfg c.
Proof.
  intros (B & _ & H). unfold Ha.ProcessDataForConfig, ProcessData, ConfigNames. rewrite B.
  erewrite (first_match_ext _ (fun x => match members c !! x with
      | Some m => bool_decide (cfg ∈ ConfigNames (bcBase m)) | None => false end)).
  2: { intros x. destruct (H x) as [m m' [_ Hn]|]; [|done]. unfold ConfigNames, BC.cfgName in *. by rewrite Hn. }
  unfold ConfigNames. destruct (first_match _ order) as [x|]; [|done].
  destruct (H x) as [m m' [-> _]|]; done.
Qed.

Lemma each_member_reset o order c :
  any_good (CHA c) -> wp (Ha.each_member order (BC.Reset o)) c (fun _ c' _ => any_good (CHA c') /\ haBase c' = haBase c).
Proof.
  revert c. induction order as [|cfg order IH]; intros c Hc; cbn [Ha.each_member]; [by wp_run|].
  wp_step. destruct (members c !! cfg) as [bc|] eqn:E.
  - eapply Ha.member_wp; [exact E|]. eapply wp_mono; [apply BC.Reset_wp|]. intros o' bc' e [_ Hr].
    eapply wp_mono; [apply IH|done]. cbn. apply map_Forall_insert_2; [|exact Hc].
    destruct (BC.rs_data _ _ _ Hr) as [-> _]. by repeat constructor.
  - eexists None, c, []. split; [unfold Ha.member; by rewrite E|]. eapply wp_mono; [by apply IH|]. done.
Qed.

Lemma any_AddEvent env os ev seq c : any_good c -> any_accepts ev c ->
  wp (AddEvent env os ev) (seq, c) (fun _ s e => any_good (snd s)).
Proof.
  intros Hg Ha. destruct c as [c|c|c|c]; cbn in *.
  - apply run_on_wp, same_event_wp. eapply wp_mono; [by apply BC.AddEvent_stepped_or|]. intros a c' e [_ H]. exact (BC.st_data _ _ _ _ _ _ H).
  - apply run_on_wp. eapply wp_mono; [by apply GM_good|]. done.
  - apply run_tbc_wp, same_event_wp. eapply wp_mono; [by apply TBC_good|]. done.
  - apply run_on_wp, same_event_wp. eapply wp_mono; [by apply HA_good|]. done.
Qed.

(** An event that is not accepted panics. *)
Lemma any_AddEvent_panics env os ev seq c : ~ any_accepts ev c -> AddEvent env os ev (seq, c) = None.
Proof.
  intros Ha. destruct c as [c|c|c|c]; cbn in Ha; try by destruct Ha.
  - assert (evSource ev <> PMC /\ ~ BC.usable ev) as [H1 H2] by (unfold tolerated in Ha; tauto).
    cbn. unfold run_on, same_event, mbind, M_bind. by rewrite (BC.AddEvent_panics _ _ _ _ H1 H2).
  - assert (evSource ev <> PMC /\ ~ BC.usable ev) as [H1 H2] by (unfold tolerated in Ha; tauto).
    destruct (members c !! evCfgName ev) as [bc|] eqn:E; [|by destruct Ha; right].
    assert (exists d, evData ev = Some (EDPLL d)) as [d Ed].
    { unfold BC.usable in H2. destruct (evData ev) as [[| |d| | | | | | | |]|]; try by destruct H2. by exists d. }
    cbn. unfold run_on, same_event, Ha.AddEvent, Ha.member, mbind, M_bind.
    by rewrite Ed, E, (BC.AddEvent_panics _ _ _ _ H1 H2).
Qed.

(** Quiet methods stay quiet behind the interface. *)
Lemma run_on_quiet {T A} (wrap : T -> AnyClock) (m : M T A) t s a s' e :
  os_quiet m -> run_on wrap m t s = Some (a, s', e) -> quiet TypeOSClockState e.
Proof.
  intros Hm E. unfold run_on in E. destruct (m t) as [[[a0 t'] e0]|] eqn:Em; [|done].
  injection E as <- <- <-. by eapply Hm.
Qed.

Lemma run_tbc_quiet {A} (m : M World A) t s a s' e :
  os_quiet m -> run_tbc m t s = Some (a, s', e) -> quiet TypeOSClockState e.
Proof.
  intros Hm E. unfold run_tbc in E. destruct (m _) as [[[a0 t'] e0]|] eqn:Em; [|done].
  injection E as <- <- <-. by eapply Hm.
Qed.

Lemma same_event_quiet {S} ev (m : M S SyncState) : os_quiet m -> os_quiet (same_event ev m).
Proof. intros Hm. unfold same_event. never_run. Qed.

Lemma any_quiet env os ev : os_quiet (AddEvent (C := AnyClock) env os ev).
Proof.
  intros [seq c] a s' e E. destruct c; cbn in E.
  - eapply run_on_quiet; [|exact E]. apply same_event_quiet, BC_quiet.
  - eapply run_on_quiet; [|exact E]. apply GM_quiet.
  - eapply run_tbc_quiet; [|exact E]. apply same_event_quiet, TBC_quiet.
  - eapply run_on_quiet; [|exact E]. apply same_event_quiet, HA_quiet.
Qed.

Lemma any_quiet_os env os : os_quiet (SystemClockUpdate (C := AnyClock) env os).
Proof.
  assert (os_quiet (BC.SystemClockUpdate os)) as Hbc by (unfold BC.SystemClockUpdate; never_method @BC.reconcile).
  intros [seq c] a s' e E. destruct c; cbn in E.
  - eapply run_on_quiet; [|exact E]. exact Hbc.
  - eapply run_on_quiet; [|exact E]. apply GM_reconcile_quiet.
  - eapply run_tbc_quiet; [|exact E]. unfold Tbc.SystemClockUpdate, Tbc.this. never_run.
  - eapply run_on_quiet; [|exact E]. unfold Ha.SystemClockUpdate.
    apply never_bind; [apply HA_reconcile_quiet|]. intros _. by apply each_member_quiet.
Qed.

Lemma any_quiet_reset env o : os_quiet (Reset (C := AnyClock) env o).
Proof.
  assert (os_quiet (BC.Reset o)) as Hbc by (unfold BC.Reset; never_run).
  intros [seq c] a s' e E. destruct c; cbn in E.
  - eapply run_on_quiet; [|exact E]. exact Hbc.
  - eapply run_on_quiet; [|exact E]. unfold Gm.Reset, Gm.set_sync. never_run.
  - eapply run_tbc_quiet; [|exact E]. unfold Tbc.Reset, Tbc.nextAnnounceToken, Tbc.put, Tbc.this. never_run.
  - eapply run_on_quiet; [|exact E]. unfold Ha.Reset. apply never_bind; [by apply each_member_quiet|]. intros _. never_run.
Qed.

Lemma any_SystemClockUpdate env os seq c : any_good c ->
  wp (SystemClockUpdate env os) (seq, c) (fun _ s e =>
    any_good (snd s) /\ GetState (snd s) = GetState c /\ ClockType_ (snd s) = ClockType_ c /\
    (forall order o cfg, ProcessDataForConfig order o cfg (snd s) = ProcessDataForConfig order o cfg c)).
Proof.
  intros Hg. destruct c as [c|c|c|c]; cbn -[Ha.ProcessDataForConfig] in *.
  - by apply run_on_wp, BC.bc_reconcile_wp.
  - by apply run_on_wp, Gm.gm_reconcile_wp.
  - apply run_tbc_wp. unfold Tbc.SystemClockUpdate, Tbc.this. wp_run.
    apply Tbc.tbc_reconcile_wp. intros overall e _ _. done.
  - apply run_on_wp. unfold Ha.SystemClockUpdate. wp_run. apply Ha.ha_reconcile_wp.
    eapply wp_mono; [apply each_member_same|]. cbn -[Ha.ProcessDataForConfig]. intros u c' e Hc. split.
    + intros cfg m Hm. destruct Hc as (_ & _ & H). specialize (H cfg). rewrite Hm in H. cbn in H.
      inversion H as [m0 m' [Hd _] E E'|]; subst. rewrite Hd. by eapply Hg.
    + split; [destruct Hc as (_ & Hs & _); exact Hs|]. split; [done|]. intros order o cfg.
      by rewrite (same_members_data _ _ _ _ _ Hc).
Qed.

Lemma any_Reset env o seq c : any_good c ->
  wp (Reset env o) (seq, c) (fun o' s e => o' = OsClock_Reset o /\ any_good (snd s)).
Proof.
  intros Hg. destruct c as [c|c|c|c]; cbn in *.
  - apply run_on_wp. eapply wp_mono; [apply BC.Reset_wp|]. intros o' c' e [-> Hr]. split; [done|].
    cbn. destruct (BC.rs_data _ _ _ Hr) as [-> _]. by repeat constructor.
  - apply run_on_wp. unfold Gm.Reset, Gm.set_sync, BaseClock_Reset. wp_run. split; [done|]. by repeat constructor.
  - apply run_tbc_wp. unfold Tbc.Reset, Tbc.nextAnnounceToken, Tbc.put, Tbc.this, BaseClock_Reset. wp_run.
    split; [done|]. by repeat constructor.
  - apply run_on_wp. unfold Ha.Reset, BaseClock_Reset. wp_run. eapply wp_mono; [by apply each_member_reset|].
    intros u c' e [H HB]. wp_run. done.
Qed.

#[global] Instance ClockLaws_AnyClock : ClockLaws AnyClock.
Proof.
  refine {| good := any_good; accepts := any_accepts |}; intros.
  - destruct c; cbn; unfold Ha.ProcessDataForConfig, ProcessData; by rewrite H.
  - apply never_wp; [apply any_quiet|by apply any_AddEvent].
  - eapply wp_mono; [apply never_wp; [apply any_quiet_os|by apply any_SystemClockUpdate]|].
    intros u s e [(? & ? & ? & ?) ?]. auto.
  - eapply wp_mono; [apply never_wp; [apply any_quiet_reset|by apply any_Reset]|].
    intros u s e [(? & ?) ?]. auto.
Defined.

End Clocks.
