(* ===== verification/Conditions.v ===== *)
(** * pkg/process: the conditions that start, stop and restart processes

    The predicates of pkg/process/conditions.go.  A condition is evaluated on an event
    ([Met]) or on the current snapshot alone ([MetByCurrentState]); the composite [All]
    remembers which of its children have been met, so both return the condition
    afterwards.  [None] is the panic of a malformed offset window.  The children of a
    composite are pointers that no two parents share: conditions are trees.  The
    textual forms, which only the log uses, are left out, and so is the process
    argument, which only the log uses as well. *)

From S2P Require Import Prelude Float64 Utils Ipc Event.

Module Conditions.

(** [EventStats]: a detached snapshot of the clock manager. *)
Record EventStats := mkStats {
  Windows : gmap string (gmap EventSource Window.Window);
  States : gmap string (gmap EventSource PTPState);
  ClockStates : gmap string PTPState;
  OSClockState : PTPState;
  OSClockE3State : PTPState
}.

#[export] Instance EventStats_fields : Fields EventStats := fun s =>
  mkStats (Windows s) (States s) (ClockStates s) (OSClockState s) (OSClockE3State s).

Record StatsRequest := mkRequest { rqClockID : string; rqSource : EventSource }.

#[export] Instance StatsRequest_eq_dec : EqDecision StatsRequest.
Proof. solve_decision. Defined.

(** The implementations of the interface [Condition]; [None] in a list of children is
    a nil interface, [None] for [met] the nil map of an [All] that was never evaluated. *)
Inductive Condition :=
| Never
| Immediate (ConfigName : string)
| OnStateAndOffsetForCount (ClockID ConfigName : string) (Source : EventSource) (State : PTPState)
    (MaxOffset : f64) (Count : Z)
| OnProcessState (ConfigName : string) (Source : string) (State : PTPState)
| OnProcessUp (ConfigName : string) (Source : EventSource)
| All (Conditions : list (option Condition)) (met : option (gmap nat bool))
| Any (Conditions : list (option Condition))
| OnPluginEvent (EventName : string)
| OnProcessDown (ConfigName : string) (Source : EventSource).

Definition SourceStateQuery : Type := string -> string -> bool.

Definition eventEmpty (ev : Event) : bool :=
  str_eqb (evSource ev) "" && str_eqb (evCfgName ev) "" &&
  (match evData ev with None => true | _ => false end) && negb (evReset ev).

Definition eventHasPTPState (data : option EventData) : bool :=
  match data with
  | Some (EOffset _) | Some (EDPLL _) | Some (EState _) | Some (ESyncE _) => true
  | _ => false
  end.

(** Indexing a map of maps, where an absent outer key is a nil inner map. *)
Definition lookup2 {A} (m : gmap string (gmap string A)) (i j : string) : option A :=
  inner ← m !! i; inner !! j.

(** ** The basic conditions *)

(** [OnStateAndOffsetForCount.MetByCurrentState]. *)
Definition offset_qualified (ClockID ConfigName : string) (Source : EventSource) (State : PTPState)
    (MaxOffset : f64) (Count : Z) (stats : EventStats) : option bool :=
  if str_eqb ConfigName "" || str_eqb ClockID "" then Some false
  else
    match lookup2 (States stats) ClockID Source with
    | None => Some false
    | Some data =>
        if negb (str_eqb State data) then Some false
        else
          match lookup2 (Windows stats) ClockID Source with
          | None => Some false
          | Some w =>
              nSamples ← Window.CountSamples (fun x => f64_ltb (f64_abs x) MaxOffset) w;
              Some (Count <? nSamples)
          end
    end.

(** The early returns of [OnStateAndOffsetForCount.Met]. *)
Definition offset_relevant (ConfigName : string) (Source : EventSource) (ev : Event) : bool :=
  eventHasPTPState (evData ev) && negb (evReset ev) &&
  negb (str_eqb ConfigName "") && str_eqb ConfigName (evCfgName ev) &&
  (str_eqb Source "" || str_eqb Source (evSource ev)).

(** [OnProcessState.MetByCurrentState]: some source of the configuration, the named one
    if there is a name, has the state; the iteration order does not matter. *)
Definition process_state_qualified (ConfigName Source : string) (State : PTPState) (stats : EventStats) : bool :=
  negb (str_eqb ConfigName "") &&
  existsb (fun '(source, state) => (str_eqb Source "" || str_eqb Source source) && str_eqb state State)
    (map_to_list (default ∅ (States stats !! ConfigName))).

(** [OnProcessState.Met]: an empty source becomes the one of the event. *)
Definition process_state_met (ConfigName Source : string) (State : PTPState) (ev : Event) (stats : EventStats) : bool :=
  if negb (eventHasPTPState (evData ev)) || evReset ev then false
  else if negb (str_eqb ConfigName (evCfgName ev)) then false
  else if negb (str_eqb Source "") && negb (str_eqb Source (evSource ev)) then false
  else
    let Source := if str_eqb Source "" then evSource ev else Source in
    process_state_qualified ConfigName Source State stats.

(** [OnProcessUp.Met] and [OnProcessDown.Met] differ in the status they wait for. *)
Definition process_status_met (wanted : Z) (ConfigName : string) (Source : EventSource) (ev : Event) : bool :=
  if eventEmpty ev then false
  else if negb (str_eqb Source "") && negb (str_eqb (evSource ev) Source) then false
  else if negb (str_eqb ConfigName "") && negb (str_eqb (evCfgName ev) ConfigName) then false
  else match evData ev with Some (EProcessStatus status) => status =? wanted | _ => false end.

Definition plugin_event_met (EventName : string) (ev : Event) : bool :=
  if eventEmpty ev then false
  else match evData ev with Some (EPlugin name) => str_eqb name EventName | _ => false end.

(** ** The loops of the composites *)

(** One child: a nil child is never met. *)
Definition child (f : Condition -> option (Condition * bool)) (o : option Condition) :
    option (option Condition * bool) :=
  match o with
  | None => Some (None, false)
  | Some c => '(c', b) ← f c; Some (Some c', b)
  end.

(** A child the composite does not evaluate, nil or of a type without the method, has
    the value [b]. *)
Definition child_unless (skip : Condition -> bool) (b : bool) (f : Condition -> option (Condition * bool))
    (o : option Condition) : option (option Condition * bool) :=
  match o with
  | Some c => if skip c then Some (o, b) else child f o
  | None => Some (o, b)
  end.

(** [if met { c.met[i] = true }]. *)
Definition remember (i : nat) (b : bool) (met : gmap nat bool) : gmap nat bool :=
  if b then <[i := true]> met else met.

(** The loop of [All.Met]: every child is evaluated, those that are met are remembered. *)
Definition all_loop (f : Condition -> option (Condition * bool)) :=
  fix go (i : nat) (l : list (option Condition)) (met : gmap nat bool) :
      option (list (option Condition) * gmap nat bool) :=
    match l with
    | [] => Some ([], met)
    | o :: l' =>
        r ← child f o;
        rest ← go (S i) l' (remember i r.2 met);
        Some (r.1 :: rest.1, rest.2)
    end.

(** The loop of [Any.Met] and of [Any.MetByCurrentState] stops at the first child met. *)
Definition any_loop (skip : Condition -> bool) (f : Condition -> option (Condition * bool)) :=
  fix go (l : list (option Condition)) : option (list (option Condition) * bool) :=
    match l with
    | [] => Some ([], false)
    | o :: l' =>
        r ← child_unless skip false f o;
        if (r.2 : bool) then Some (r.1 :: l', true)
        else rest ← go l'; Some (r.1 :: rest.1, rest.2)
    end.

(** [c.met[i]], on the nil map as well. *)
Definition is_met (met : gmap nat bool) (i : nat) : bool := default false (met !! i).

(** The types that implement [StateAwareCondition]. *)
Definition state_aware (c : Condition) : bool :=
  match c with OnPluginEvent _ | OnProcessDown _ _ => false | _ => true end.

(** The loop of [All.MetByCurrentState] returns at the first child that fails. *)
Definition all_state_loop (f : Condition -> option (Condition * bool)) (met : gmap nat bool) :=
  fix go (i : nat) (l : list (option Condition)) : option (list (option Condition) * bool) :=
    match l with
    | [] => Some ([], true)
    | o :: l' =>
        r ← child_unless (fun c => negb (state_aware c)) (is_met met i) f o;
        if (r.2 : bool) then rest ← go (S i) l'; Some (r.1 :: rest.1, rest.2)
        else Some (r.1 :: l', false)
    end.

(** ** The interface *)

Fixpoint Met (ev : Event) (stats : EventStats) (c : Condition) : option (Condition * bool) :=
  match c with
  | Never => Some (c, false)
  | Immediate _ => Some (c, true)
  | OnStateAndOffsetForCount id cfg source state max count =>
      if offset_relevant cfg source ev then b ← offset_qualified id cfg source state max count stats; Some (c, b)
      else Some (c, false)
  | OnProcessState cfg source state => Some (c, process_state_met cfg source state ev stats)
  | OnProcessUp cfg source => Some (c, process_status_met 1 cfg source ev)
  | All conds met =>
      if evReset ev then Some (All conds (Some ∅), false)
      else
        r ← all_loop (Met ev stats) 0 conds (default ∅ met);
        if (length conds =? 0)%nat then Some (All r.1 (Some r.2), true)
        else if forallb (is_met r.2) (seq 0 (length conds)) then Some (All r.1 (Some ∅), true)
        else Some (All r.1 (Some r.2), false)
  | Any conds => r ← any_loop (fun _ => false) (Met ev stats) conds; Some (Any r.1, r.2)
  | OnPluginEvent name => Some (c, plugin_event_met name ev)
  | OnProcessDown cfg source => Some (c, process_status_met 0 cfg source ev)
  end.

(** For the two event-only types, which have no such method, the value is not used. *)
Fixpoint MetByCurrentState (sourceUp : option SourceStateQuery) (stats : EventStats) (c : Condition) :
    option (Condition * bool) :=
  match c with
  | Never => Some (c, false)
  | Immediate _ => Some (c, true)
  | OnStateAndOffsetForCount id cfg source state max count =>
      b ← offset_qualified id cfg source state max count stats; Some (c, b)
  | OnProcessState cfg source state => Some (c, process_state_qualified cfg source state stats)
  | OnProcessUp cfg source =>
      Some (c, match sourceUp with None => false | Some up => up source cfg end)
  | All conds met =>
      r ← all_state_loop (MetByCurrentState sourceUp stats) (default ∅ met) 0 conds;
      Some (All r.1 (if (r.2 : bool) then None else met), r.2)
  | Any conds =>
      r ← any_loop (fun c => negb (state_aware c)) (MetByCurrentState sourceUp stats) conds;
      Some (Any r.1, r.2)
  | OnPluginEvent _ | OnProcessDown _ _ => Some (c, false)
  end.

(** The elements not yet seen, in order. *)
Definition add_unseen (result : list StatsRequest) (rq : StatsRequest) : list StatsRequest :=
  if decide (rq ∈ result) then result else result ++ [rq].

Definition collect (f : Condition -> list StatsRequest) :=
  fix go (l : list (option Condition)) (result : list StatsRequest) : list StatsRequest :=
    match l with
    | [] => result
    | None :: l' => go l' result
    | Some c :: l' => go l' (foldl add_unseen result (f c))
    end.

Fixpoint GetStatsRequests (c : Condition) : list StatsRequest :=
  match c with
  | OnStateAndOffsetForCount id _ source _ _ _ => [mkRequest id source]
  | OnProcessState cfg source _ => [mkRequest cfg source]
  | All conds _ | Any conds => collect GetStatsRequests conds []
  | _ => []
  end.

(** ** Actions *)

Inductive Action := ActionStart | ActionStop | ActionRestart | ActionEnable | ActionDisable.

#[export] Instance Action_eq_dec : EqDecision Action.
Proof. solve_decision. Defined.

(** [conds[a]] with the test for a nil interface; the map is a list of bindings. *)
Fixpoint configured (a : Action) (conds : list (Action * option Condition)) : option Condition :=
  match conds with
  | [] => None
  | (b, c) :: rest => if decide (a = b) then c else configured a rest
  end.

(** [GetCondition]; [None] is a nil process or one with a nil map. *)
Definition GetCondition (conds : option (list (Action * option Condition))) (a : Action) (fallback : Condition) :
    Condition :=
  match conds with
  | None => fallback
  | Some conds =>
      match configured a conds with
      | Some c => c
      | None =>
          match a, configured ActionStart conds with
          | ActionRestart, Some c => c
          | _, _ => fallback
          end
      end
  end.

(** ** Induction over trees of conditions *)

Definition child_ok (P : Condition -> Prop) (o : option Condition) : Prop :=
  match o with Some c => P c | None => True end.

Definition leaf (c : Condition) : bool := match c with All _ _ | Any _ => false | _ => true end.

Lemma Condition_tree_ind (P : Condition -> Prop) :
  (forall c, leaf c = true -> P c) ->
  (forall conds met, Forall (child_ok P) conds -> P (All conds met)) ->
  (forall conds, Forall (child_ok P) conds -> P (Any conds)) ->
  forall c, P c.
Proof.
  intros Hleaf Hall Hany. fix IH 1. intros c.
  assert (forall l, Forall (child_ok P) l) as Hl.
  { fix IHl 1. intros [|[c'|] l]; constructor; [exact (IH c')|apply IHl|exact I|apply IHl]. }
  destruct c; try (by apply Hleaf).
  - apply Hall, Hl.
  - apply Hany, Hl.
Qed.

(** The composites evaluate their children through the given function only. *)
Lemma child_unless_ext skip b f g o :
  child_ok (fun c => f c = g c) o -> child_unless skip b f o = child_unless skip b g o.
Proof. destruct o as [c|]; cbn; [|done]. intros E. destruct (skip c); [done|]. by rewrite E. Qed.

Lemma all_loop_ext f g l : Forall (child_ok (fun c => f c = g c)) l -> forall i met, all_loop f i l met = all_loop g i l met.
Proof.
  induction 1 as [|o l Ho _ IH]; intros i met; cbn; [done|].
  pose proof (child_unless_ext (fun _ => false) false f g o Ho) as E. destruct o as [c|]; cbn in *.
  - rewrite E. destruct (g c) as [[c' b]|]; cbn; [|done]. by rewrite IH.
  - by rewrite IH.
Qed.

Lemma any_loop_ext skip f g l : Forall (child_ok (fun c => f c = g c)) l -> any_loop skip f l = any_loop skip g l.
Proof.
  induction 1 as [|o l Ho _ IH]; cbn; [done|]. rewrite (child_unless_ext skip false f g o Ho).
  destruct (child_unless skip false g o) as [[o' b]|]; cbn; [|done]. by rewrite IH.
Qed.

Lemma all_state_loop_ext f g met l :
  Forall (child_ok (fun c => f c = g c)) l -> forall i, all_state_loop f met i l = all_state_loop g met i l.
Proof.
  induction 1 as [|o l Ho _ IH]; intros i; cbn; [done|]. rewrite (child_unless_ext _ _ f g o Ho).
  destruct (child_unless _ _ g o) as [[o' b]|]; cbn; [|done]. by rewrite IH.
Qed.

(** ** The requested part of a snapshot *)

Lemma elem_of_add_unseen rq result l : rq ∈ foldl add_unseen result l <-> rq ∈ result \/ rq ∈ l.
Proof.
  revert result. induction l as [|x l IH]; intros result; cbn; [set_solver|].
  rewrite IH. unfold add_unseen. destruct (decide (x ∈ result)); set_solver.
Qed.

Lemma NoDup_add_unseen result l : NoDup result -> NoDup (foldl add_unseen result l).
Proof.
  revert result. induction l as [|x l IH]; intros result H; cbn; [done|].
  apply IH. unfold add_unseen. destruct (decide (x ∈ result)); [done|].
  apply NoDup_app. split; [done|]. split; [set_solver|apply NoDup_singleton].
Qed.

Lemma elem_of_collect f rq l : forall result,
  rq ∈ collect f l result <-> rq ∈ result \/ exists c, Some c ∈ l /\ rq ∈ f c.
Proof.
  induction l as [|[c|] l IH]; intros result; cbn.
  - set_solver.
  - rewrite IH, elem_of_add_unseen. set_solver.
  - rewrite IH. set_solver.
Qed.

Lemma NoDup_collect f l : forall result, NoDup result -> NoDup (collect f l result).
Proof.
  induction l as [|[c|] l IH]; intros result H; cbn; [done| |by apply IH].
  by apply IH, NoDup_add_unseen.
Qed.

(** Two snapshots agree on what a request selects. *)
Definition agree (s s' : EventStats) (rq : StatsRequest) : Prop :=
  (forall source, str_eqb (rqSource rq) "" || str_eqb (rqSource rq) source = true ->
     lookup2 (States s) (rqClockID rq) source = lookup2 (States s') (rqClockID rq) source /\
     lookup2 (Windows s) (rqClockID rq) source = lookup2 (Windows s') (rqClockID rq) source).

Lemma process_state_qualified_spec cfg source state stats :
  process_state_qualified cfg source state stats = true <->
  cfg <> "" /\ exists src, str_eqb source "" || str_eqb source src = true /\
    lookup2 (States stats) cfg src = Some state.
Proof.
  unfold process_state_qualified, lookup2, str_eqb. rewrite andb_true_iff, existsb_exists, negb_true_iff, bool_decide_eq_false.
  apply and_iff_compat_l. split.
  - intros ([src st] & Hin & H). apply andb_true_iff in H as [H E]. apply bool_decide_eq_true in E as ->.
    exists src. split; [done|]. apply list_elem_of_In, elem_of_map_to_list in Hin.
    by destruct (States stats !! cfg).
  - intros (src & H & E). exists (src, state). rewrite H, bool_decide_eq_true_2 by done. split; [|done].
    apply list_elem_of_In, elem_of_map_to_list. by destruct (States stats !! cfg).
Qed.

Lemma process_state_agree cfg source state s s' :
  agree s s' (mkRequest cfg source) ->
  process_state_qualified cfg source state s = process_state_qualified cfg source state s'.
Proof.
  intros H. apply eq_true_iff_eq. rewrite !process_state_qualified_spec.
  apply and_iff_compat_l. split; intros (src & Hs & E); exists src; (split; [done|]); destruct (H src Hs) as [HS _]; cbn in HS; congruence.
Qed.

Lemma agree_source s s' cfg source src :
  agree s s' (mkRequest cfg source) -> str_eqb source "" || str_eqb source src = true -> agree s s' (mkRequest cfg src).
Proof.
  unfold agree, str_eqb; cbn. intros H Hs x Hx. apply H.
  destruct (decide (source = "")) as [->|Hne]; [done|]. rewrite bool_decide_eq_false_2 in * by done. cbn in *.
  apply bool_decide_eq_true in Hs as <-. by rewrite bool_decide_eq_false_2 in Hx by done.
Qed.

Lemma offset_agree id cfg source state max count s s' :
  agree s s' (mkRequest id source) ->
  offset_qualified id cfg source state max count s = offset_qualified id cfg source state max count s'.
Proof.
  intros H. unfold offset_qualified.
  destruct (H source) as [HS HW]; [unfold str_eqb; cbn; by rewrite (bool_decide_eq_true_2 (source = source)), orb_true_r|].
  cbn in HS, HW. by rewrite HS, HW.
Qed.

Lemma process_state_met_agree cfg source state ev s s' :
  agree s s' (mkRequest cfg source) ->
  process_state_met cfg source state ev s = process_state_met cfg source state ev s'.
Proof.
  intros H. unfold process_state_met. destruct (_ || _); [done|]. destruct (negb _); [done|].
  destruct (str_eqb source "") eqn:Es; cbn.
  - apply process_state_agree. apply (agree_source _ _ _ source); [done|]. by rewrite Es.
  - destruct (negb _); [done|]. by apply process_state_agree.
Qed.

Lemma child_ok_impl (P Q : Condition -> Prop) l :
  (forall c, P c -> Q c) -> Forall (child_ok P) l -> Forall (child_ok Q) l.
Proof. intros H HF. eapply Forall_impl; [exact HF|]. intros [c|]; cbn; auto. Qed.

Lemma children_requests (R : StatsRequest -> Prop) (Q : Condition -> Prop) conds :
  Forall (child_ok (fun c => (forall rq, rq ∈ GetStatsRequests c -> R rq) -> Q c)) conds ->
  (forall rq, rq ∈ collect GetStatsRequests conds [] -> R rq) -> Forall (child_ok Q) conds.
Proof.
  intros IH H. apply Forall_forall. intros [c|] Hin; [|done]. eapply Forall_forall in IH; [|exact Hin].
  apply IH. intros rq Hrq. apply H, elem_of_collect. by eauto.
Qed.

(** The evaluation of a condition reads nothing but what it requested. *)
Lemma evaluation_agree ev up s s' c :
  (forall rq, rq ∈ GetStatsRequests c -> agree s s' rq) ->
  Met ev s c = Met ev s' c /\ MetByCurrentState up s c = MetByCurrentState up s' c.
Proof.
  revert c. refine (Condition_tree_ind _ _ _ _).
  - intros c Hc H. destruct c as [|?|id cfg source state max count|cfg source state|cfg source|? ?|?|?|cfg source]; cbn in *; try done.
    + rewrite (offset_agree id cfg source state max count s s') by set_solver. done.
    + rewrite (process_state_agree cfg source state s s'), (process_state_met_agree cfg source state ev s s') by set_solver.
      done.
  - intros conds met IH H. pose proof (children_requests _ _ _ IH H) as HF. cbn.
    rewrite (all_loop_ext (Met ev s) (Met ev s')), (all_state_loop_ext _ (MetByCurrentState up s')); [done| |];
      (eapply child_ok_impl; [|exact HF]); by intros ? [].
  - intros conds IH H. pose proof (children_requests _ _ _ IH H) as HF. cbn.
    rewrite (any_loop_ext _ (Met ev s) (Met ev s')), (any_loop_ext _ (MetByCurrentState up s) (MetByCurrentState up s')); [done| |];
      (eapply child_ok_impl; [|exact HF]); by intros ? [].
Qed.

(** ** Well-formed snapshots *)

Definition stats_ok (s : EventStats) : Prop :=
  forall id source w, lookup2 (Windows s) id source = Some w -> Window.wf w.

(** The value of a child on an event, and on the current state. *)
Definition holds (x : Event * EventStats) (o : option Condition) : bool :=
  match o with Some c => match Met x.1 x.2 c with Some (_, b) => b | None => false end | None => false end.

Definition holds_now (up : option SourceStateQuery) (s : EventStats) (c : Condition) : bool :=
  match MetByCurrentState up s c with Some (_, b) => b | None => false end.

Lemma offset_total id cfg source state max count s :
  stats_ok s -> exists b, offset_qualified id cfg source state max count s = Some b.
Proof.
  intros Hs. unfold offset_qualified. destruct (_ || _); [by eexists|].
  destruct (lookup2 (States s) id source) as [st|]; [|by eexists]. destruct (negb _); [by eexists|].
  destruct (lookup2 (Windows s) id source) as [w|] eqn:Ew; [|by eexists].
  rewrite Window.CountSamples_run by eauto. by eexists.
Qed.

(** A basic condition does not change. *)
Lemma leaf_Met ev s c : leaf c = true -> stats_ok s -> Met ev s c = Some (c, holds (ev, s) (Some c)).
Proof.
  intros Hc Hs. unfold holds; cbn [fst snd]. destruct c; try done. cbn. destruct (offset_relevant _ _ _); [|done].
  destruct (offset_total ClockID ConfigName Source State MaxOffset Count s Hs) as [b ->]. done.
Qed.

Lemma leaf_now up s c : leaf c = true -> stats_ok s -> MetByCurrentState up s c = Some (c, holds_now up s c).
Proof.
  intros Hc Hs. unfold holds_now. destruct c; try done. cbn.
  destruct (offset_total ClockID ConfigName Source State MaxOffset Count s Hs) as [b ->]. done.
Qed.

Lemma child_leaf ev s o :
  child_ok (fun c => leaf c = true) o -> stats_ok s -> child (Met ev s) o = Some (o, holds (ev, s) o).
Proof. destruct o as [c|]; cbn; [|done]. intros Hc Hs. by rewrite leaf_Met. Qed.

(** ** [All] remembers *)

Lemma is_met_remember met i b j : is_met (remember i b met) j = is_met met j || (bool_decide (i = j) && b).
Proof.
  unfold is_met, remember. destruct b; [|by rewrite andb_false_r, orb_false_r].
  destruct (decide (i = j)) as [->|Hne].
  - by rewrite lookup_insert_eq, bool_decide_eq_true_2, orb_true_r by done.
  - by rewrite lookup_insert_ne, bool_decide_eq_false_2, orb_false_r by done.
Qed.

Lemma all_loop_leaf ev s conds : forall i met,
  Forall (child_ok (fun c => leaf c = true)) conds -> stats_ok s ->
  exists met', all_loop (Met ev s) i conds met = Some (conds, met') /\
    forall j, is_met met' j = is_met met j ||
      (bool_decide (i <= j < i + length conds)%nat && holds (ev, s) (default None (conds !! (j - i)%nat))).
Proof.
  induction conds as [|o conds IH]; intros i met Hl Hs; cbn [all_loop].
  { exists met. split; [done|]. intros j. rewrite bool_decide_eq_false_2 by (cbn; lia). by rewrite orb_false_r. }
  inversion_clear Hl as [|? ? Ho Hl']. rewrite child_leaf by done. cbn.
  destruct (IH (S i) (remember i (holds (ev, s) o) met) Hl' Hs) as (met' & -> & Hm). exists met'. split; [done|].
  intros j. rewrite Hm, is_met_remember, <- orb_assoc. f_equal.
  destruct (decide (i = j)) as [<-|Hne].
  - rewrite Nat.sub_diag. rewrite (bool_decide_eq_false_2 (S i <= i < _)%nat) by lia.
    rewrite !bool_decide_eq_true_2 by (lia || done). by rewrite orb_false_r.
  - rewrite (bool_decide_eq_false_2 (i = j)) by done. cbn [andb orb].
    destruct (decide (S i <= j < S i + length conds)%nat) as [Hj|Hj].
    + rewrite !bool_decide_eq_true_2 by lia. by replace (j - i)%nat with (S (j - S i)) by lia.
    + by rewrite !bool_decide_eq_false_2 by lia.
Qed.

(** Each of the children holds on some observation of [h]. *)
Definition complete (conds : list (option Condition)) (h : list (Event * EventStats)) : bool :=
  forallb (fun o => existsb (fun x => holds x o) h) conds.

(** The observations, newest first, since the last reset or completion. *)
Fixpoint cycle (conds : list (option Condition)) (l : list (Event * EventStats)) : list (Event * EventStats) :=
  match l with
  | [] => []
  | x :: l' =>
      if evReset x.1 then []
      else if complete conds (x :: cycle conds l') then [] else x :: cycle conds l'
  end.

(** The condition after the observations [l], newest first. *)
Fixpoint feed (c : Condition) (l : list (Event * EventStats)) : option Condition :=
  match l with
  | [] => Some c
  | x :: l' => c' ← feed c l'; fst <$> Met x.1 x.2 c'
  end.

(** [met] holds the children observed in [h]. *)
Definition remembers (conds : list (option Condition)) (met : option (gmap nat bool)) (h : list (Event * EventStats)) : Prop :=
  forall i o, conds !! i = Some o -> is_met (default ∅ met) i = existsb (fun x => holds x o) h.

Lemma forallb_lookup {A} (f : A -> bool) (g : nat -> bool) (l : list A) : forall k,
  (forall i a, l !! i = Some a -> g (k + i)%nat = f a) -> forallb g (seq k (length l)) = forallb f l.
Proof.
  induction l as [|a l IH]; intros k H; cbn; [done|].
  rewrite <- (H 0%nat a), Nat.add_0_r by done. f_equal. apply IH. intros i b Hb. rewrite <- (H (S i) b) by done. f_equal. lia.
Qed.

(** One evaluation of an [All] of basic conditions. *)
Lemma All_step conds met h ev s :
  Forall (child_ok (fun c => leaf c = true)) conds -> stats_ok s -> remembers conds met h ->
  exists met', Met ev s (All conds met) =
      Some (All conds met', negb (evReset ev) && complete conds ((ev, s) :: h)) /\
    remembers conds met' (if evReset ev then [] else if complete conds ((ev, s) :: h) then [] else (ev, s) :: h).
Proof.
  intros Hl Hs Hm. cbn [Met]. destruct (evReset ev); [by exists (Some ∅)|].
  destruct (all_loop_leaf ev s conds 0 (default ∅ met) Hl Hs) as (met' & E & Hmet). rewrite E. cbn [mbind option_bind fst snd].
  assert (remembers conds (Some met') ((ev, s) :: h)) as Hr.
  { intros i o Ho. cbn. rewrite Hmet, (Hm i o Ho), Nat.sub_0_r, Ho. cbn.
    rewrite bool_decide_eq_true_2 by (apply lookup_lt_Some in Ho; lia). apply orb_comm. }
  assert (forallb (is_met met') (seq 0 (length conds)) = complete conds ((ev, s) :: h)) as ->.
  { apply forallb_lookup. intros i o Ho. exact (Hr i o Ho). }
  destruct conds as [|o conds]; [by exists (Some met')|]. cbn [length Nat.eqb].
  destruct (complete _ _); [by exists (Some ∅)|by exists (Some met')].
Qed.

Definition obs_ok (l : list (Event * EventStats)) : Prop := Forall (fun x => stats_ok x.2) l.

Lemma feed_All conds l :
  Forall (child_ok (fun c => leaf c = true)) conds -> obs_ok l ->
  exists met, feed (All conds None) l = Some (All conds met) /\ remembers conds met (cycle conds l).
Proof.
  intros Hl. induction 1 as [|[ev s] l Hs _ IH]; cbn; [by exists None|].
  destruct IH as (met & -> & Hm). destruct (All_step conds met _ ev s Hl Hs Hm) as (met' & E & Hm').
  exists met'. cbn [mbind option_bind]. by rewrite E.
Qed.

Lemma all_state_leaf up s met conds : forall i,
  Forall (child_ok (fun c => leaf c = true)) conds -> stats_ok s ->
  all_state_loop (MetByCurrentState up s) met i conds =
  Some (conds, forallb (fun io : nat * option Condition =>
      match io.2 with Some c => if state_aware c then holds_now up s c else is_met met io.1 | None => is_met met io.1 end)
    (zip (seq i (length conds)) conds)).
Proof.
  induction conds as [|o conds IH]; intros i Hl Hs; cbn; [done|].
  inversion_clear Hl as [|? ? Ho Hl']. specialize (IH (S i) Hl' Hs).
  assert (child_unless (fun c => negb (state_aware c)) (is_met met i) (MetByCurrentState up s) o =
    Some (o, match o with Some c => if state_aware c then holds_now up s c else is_met met i | None => is_met met i end)) as ->.
  { destruct o as [c|]; cbn in *; [|done]. destruct (state_aware c); cbn; [|done]. by rewrite leaf_now. }
  cbn. destruct (match o with Some _ => _ | None => _ end); cbn; [|done]. by rewrite IH.
Qed.

(** ** The startup gate *)

Lemma run_length_bound p l : Window.run_length p l <= Z.of_nat (length l).
Proof. induction l as [|x l IH]; cbn -[Z.of_nat]; [lia|]. destruct (p x); lia. Qed.

Definition below (max x : f64) : bool := f64_ltb (f64_abs x) max.

Lemma str_eqb_true a b : str_eqb a b = true <-> a = b.
Proof. apply bool_decide_eq_true. Qed.

Lemma offset_qualified_spec id cfg source state max count s :
  stats_ok s ->
  (offset_qualified id cfg source state max count s = Some true <->
   cfg <> "" /\ id <> "" /\ lookup2 (States s) id source = Some state /\
   exists w, lookup2 (Windows s) id source = Some w /\ count < Window.run_length (below max) (Window.contents w)).
Proof.
  intros Hs. unfold offset_qualified, str_eqb.
  destruct (decide (cfg = "")) as [->|Hc]; [by split; [|intros []]|].
  destruct (decide (id = "")) as [->|Hi]; [by rewrite orb_true_r; split; [|intros (? & [] & ?)]|].
  rewrite !bool_decide_eq_false_2 by done. cbn.
  destruct (lookup2 (States s) id source) as [st|]; [|by split; [|intros (? & ? & ? & ?)]].
  destruct (decide (state = st)) as [->|Hne].
  2: { rewrite bool_decide_eq_false_2 by done. split; [done|]. intros (_ & _ & [= ->] & _). done. }
  rewrite bool_decide_eq_true_2 by done. cbn.
  destruct (lookup2 (Windows s) id source) as [w|] eqn:Ew; [|by split; [|intros (? & ? & ? & ? & ? & ?)]].
  rewrite Window.CountSamples_run by eauto. cbn. split.
  - intros [= H%Z.ltb_lt]. eauto 10.
  - intros (_ & _ & _ & w' & [= <-] & H). f_equal. by apply Z.ltb_lt.
Qed.

(** Startup gate.  An offset condition is met on an event exactly when the event is
    a state-carrying sample of the configuration and the source waited for, the evaluated
    state of the source is the one wanted, and more than [Count] of its newest consecutive
    samples are below the limit; a condition that asks for at least as many samples as the
    window holds is never met. *)
Theorem offset_gate id cfg source state max count ev s :
  stats_ok s ->
  (Met ev s (OnStateAndOffsetForCount id cfg source state max count) =
     Some (OnStateAndOffsetForCount id cfg source state max count, true) <->
   offset_relevant cfg source ev = true /\ id <> "" /\ lookup2 (States s) id source = Some state /\
   exists w, lookup2 (Windows s) id source = Some w /\ count < Window.wsize w /\
     count < Window.run_length (below max) (Window.contents w)).
Proof.
  intros Hs. pose proof (offset_qualified_spec id cfg source state max count s Hs) as H. cbn.
  destruct (offset_relevant cfg source ev) eqn:Er; [|by split; [|intros []]].
  assert (cfg <> "") as Hc.
  { intros ->. unfold offset_relevant in Er. change (str_eqb "" "") with true in Er. by rewrite andb_false_r in Er. }
  destruct (offset_qualified _ _ _ _ _ _ _) as [b|] eqn:Eb; cbn.
  - split.
    + intros [= ->]. destruct (proj1 H eq_refl) as (_ & Hi & HS & w & Hw & Hn).
      pose proof (run_length_bound (below max) (Window.contents w)).
      pose proof (Window.contents_length w (Hs _ _ _ Hw)) as Hlen. destruct (Hs _ _ _ Hw) as (? & ? & ?).
      repeat split; try done. exists w. destruct (Window.full w); (repeat split; [done|lia|done]).
    + intros (_ & Hi & HS & w & Hw & _ & Hn). assert (Some b = Some true) as [= ->] by (apply H; eauto 10). done.
  - destruct (offset_total id cfg source state max count s Hs). congruence.
Qed.

(** [All] is a rendezvous.  An [All] of basic conditions is met by an event exactly
    when each child has been met by that event or by an earlier one since the last time
    the condition fired or was reset; a reset event never fires it. *)
Theorem All_fires conds l ev s :
  Forall (child_ok (fun c => leaf c = true)) conds -> obs_ok l -> stats_ok s ->
  exists c c', feed (All conds None) l = Some c /\
    Met ev s c = Some (c', negb (evReset ev) && complete conds ((ev, s) :: cycle conds l)).
Proof.
  intros Hl Hok Hs. destruct (feed_All conds l Hl Hok) as (met & E & Hm).
  destruct (All_step conds met _ ev s Hl Hs Hm) as (met' & E' & _). eauto.
Qed.

(** What the current state says about a child: state-aware children are evaluated anew,
    the others count when they were observed. *)
Definition ready (up : option SourceStateQuery) (s : EventStats) (h : list (Event * EventStats)) (o : option Condition) : bool :=
  match o with
  | Some c => if state_aware c then holds_now up s c else existsb (fun x => holds x o) h
  | None => false
  end.

Lemma holds_nil h : existsb (fun x => holds x None) h = false.
Proof. by induction h as [|x h IH]. Qed.

Lemma forallb_zip {A} (f : nat * A -> bool) (g : A -> bool) (l : list A) : forall k,
  (forall i a, l !! i = Some a -> f ((k + i)%nat, a) = g a) -> forallb f (zip (seq k (length l)) l) = forallb g l.
Proof.
  induction l as [|a l IH]; intros k H; cbn; [done|].
  rewrite <- (H 0%nat a), Nat.add_0_r by done. f_equal. apply IH. intros i b Hb. rewrite <- (H (S i) b) by done.
  do 2 f_equal. lia.
Qed.

(** Readiness is never stale.  After any observations, an [All] of basic conditions is
    met by the current state exactly when every state-aware child holds now, whatever was
    latched before, and every event-only child was observed since the last firing. *)
Theorem All_readiness_is_current conds l up s :
  Forall (child_ok (fun c => leaf c = true)) conds -> obs_ok l -> stats_ok s ->
  exists c c', feed (All conds None) l = Some c /\
    MetByCurrentState up s c = Some (c', forallb (ready up s (cycle conds l)) conds).
Proof.
  intros Hl Hok Hs. destruct (feed_All conds l Hl Hok) as (met & E & Hm). exists (All conds met).
  eexists. split; [exact E|]. cbn. rewrite all_state_leaf by done. cbn. do 2 f_equal.
  apply forallb_zip. intros i [c|] Ho; cbn; rewrite (Hm i _ Ho); [done|apply holds_nil].
Qed.

(** Requests suffice.  The evaluation of any condition, composite or basic, on an event
    or on the current state, depends on nothing in the snapshot but what the condition
    asked for with [GetStatsRequests]; the requests are without duplicates. *)
Theorem requests_suffice ev up s s' c :
  (forall rq, rq ∈ GetStatsRequests c -> agree s s' rq) ->
  Met ev s c = Met ev s' c /\ MetByCurrentState up s c = MetByCurrentState up s' c /\ NoDup (GetStatsRequests c).
Proof.
  intros H. destruct (evaluation_agree ev up s s' c H) as [-> ->]. repeat split.
  destruct c; try apply NoDup_nil_2; try apply NoDup_singleton; apply NoDup_collect, NoDup_nil_2.
Qed.

(** Restart conditions.  The condition of an action is its own when it has a non-nil
    one; a restart without one takes the start condition; everything else takes the
    fallback, and so does every action of a process without conditions. *)
Theorem GetCondition_spec conds a fallback :
  GetCondition conds a fallback =
    match conds with
    | None => fallback
    | Some m => default (if decide (a = ActionRestart) then default fallback (configured ActionStart m) else fallback)
                  (configured a m)
    end.
Proof.
  destruct conds as [m|]; [|done]. cbn. destruct (configured a m); [done|]. cbn.
  by destruct a.
Qed.

(** ** Witnesses *)

(** A window of three samples (5, -7, 900) of the source ts2phc. *)
Definition ex_window (l : list Z) : Window.Window :=
  default (Window.NewWindow 10)
    (foldl (fun w x => w ← w; Window.Insert (f64_of_Z x) w) (Some (Window.NewWindow 10)) l).

Definition ex_stats (l : list Z) : EventStats :=
  mkStats {["ts2phc.0.config" := {[TS2PHC := ex_window l]}]} {["ts2phc.0.config" := {[TS2PHC := PTP_LOCKED]}]}
    ∅ PTP_FREERUN PTP_NOTSET.

Definition ex_sample (source : EventSource) : Event :=
  mkEvent source "ens1f0" "ts2phc.0.config" TBC_type 0 false false (Some (EOffset (mkOffsetData PTP_LOCKED 0 false None))).

Definition ex_up (reset : bool) : Event :=
  mkEvent TS2PHC "ens1f0" "ts2phc.0.config" TBC_type 0 false reset (Some (EProcessStatus 1)).

Definition ex_plugin : Event := PluginEvent 0 "plugin" "gnss_recovered".

Definition ex_gate (count : Z) : Condition :=
  OnStateAndOffsetForCount "ts2phc.0.config" "ts2phc.0.config" TS2PHC PTP_LOCKED (f64_of_Z 100) count.

Definition ex_conds : list (option Condition) := [Some (OnPluginEvent "gnss_recovered"); Some (ex_gate 1)].

Lemma lookup2_singleton {A} i j i' j' (a b : A) :
  lookup2 {[i := {[j := a]}]} i' j' = Some b -> a = b.
Proof.
  unfold lookup2. destruct (decide (i = i')) as [->|Hi]; [|by rewrite lookup_singleton_ne].
  rewrite lookup_singleton_eq. cbn. intros H. by apply lookup_singleton_Some in H as [_ H].
Qed.

Lemma ex_stats_ok l : Window.wf (ex_window l) -> stats_ok (ex_stats l).
Proof. intros H id source w Hw. by apply lookup2_singleton in Hw as <-. Qed.

Lemma offset_gate_witness :
  stats_ok (ex_stats [900; 5; -7]) /\ Met (ex_sample TS2PHC) (ex_stats [900; 5; -7]) (ex_gate 1) = Some (ex_gate 1, true).
Proof.
  assert (stats_ok (ex_stats [900; 5; -7])) as H by (apply ex_stats_ok; vm_compute; repeat split; congruence).
  split; [exact H|]. apply (offset_gate "ts2phc.0.config" "ts2phc.0.config" TS2PHC PTP_LOCKED (f64_of_Z 100) 1); [exact H|].
  split; [reflexivity|]. split; [discriminate|]. split; [reflexivity|]. exists (ex_window [900; 5; -7]).
  split; [reflexivity|]. split; vm_compute; reflexivity.
Defined.

Lemma All_fires_witness :
  complete ex_conds ((ex_sample TS2PHC, ex_stats [5; -7]) :: cycle ex_conds [(ex_plugin, ex_stats [])]) = true /\
  exists c c', feed (All ex_conds None) [(ex_plugin, ex_stats [])] = Some c /\
    Met (ex_sample TS2PHC) (ex_stats [5; -7]) c = Some (c', true).
Proof.
  split; [vm_compute; reflexivity|].
  apply (All_fires ex_conds [(ex_plugin, ex_stats [])] (ex_sample TS2PHC) (ex_stats [5; -7])).
  - repeat constructor.
  - constructor; [|constructor]. apply ex_stats_ok. vm_compute. repeat split; congruence.
  - apply ex_stats_ok. vm_compute. repeat split; congruence.
Defined.

(** The offset child was latched, and does not hold any more. *)
Lemma All_readiness_is_current_witness :
  exists c c', feed (All ex_conds None) [(ex_sample TS2PHC, ex_stats [5; -7])] = Some c /\
    MetByCurrentState None (ex_stats [5; 900]) c = Some (c', false).
Proof.
  apply (All_readiness_is_current ex_conds [(ex_sample TS2PHC, ex_stats [5; -7])] None (ex_stats [5; 900])).
  - repeat constructor.
  - constructor; [|constructor]. apply ex_stats_ok. vm_compute. repeat split; congruence.
  - apply ex_stats_ok. vm_compute. repeat split; congruence.
Defined.

Definition ex_all : Condition := All [Some (ex_gate 1); Some (ex_gate 1); Some (OnPluginEvent "gnss_recovered")] None.

Definition ex_other : EventStats :=
  (ex_stats [5; -7]) <| ClockStates := {["x" := PTP_FREERUN]} |> <| OSClockState := PTP_LOCKED |>.

Lemma requests_suffice_witness :
  GetStatsRequests ex_all = [mkRequest "ts2phc.0.config" TS2PHC] /\
  (Met ex_plugin (ex_stats [5; -7]) ex_all = Met ex_plugin ex_other ex_all /\
   MetByCurrentState None (ex_stats [5; -7]) ex_all = MetByCurrentState None ex_other ex_all /\
   NoDup (GetStatsRequests ex_all)).
Proof.
  split; [vm_compute; reflexivity|].
  apply (requests_suffice ex_plugin None (ex_stats [5; -7]) ex_other ex_all). intros rq _ source _. split; reflexivity.
Defined.

End Conditions.
