(* ===== verification/Process.v ===== *)
(** * pkg/process: processes

    The lifecycle states of pkg/process/process.go with their printed names, and its
    interface [Process] as a type class: a type of processes with the methods the
    process manager calls, and [ProcessLaws], what the manager relies on. *)

From S2P Require Import Prelude Conditions.

Module Process.

Inductive State := Created | Starting | Running | Stopping | Stopped | Dead.

#[export] Instance State_eq_dec : EqDecision State.
Proof. solve_decision. Defined.

Definition State_eqb (a b : State) : bool := bool_decide (a = b).

Definition State_String (s : State) : string :=
  match s with
  | Created => "Created" | Starting => "Starting" | Running => "Running"
  | Stopping => "Stopping" | Stopped => "Stopped" | Dead => "Dead"
  end.

Lemma State_eqb_true a b : State_eqb a b = true <-> a = b.
Proof. apply bool_decide_eq_true. Qed.

End Process.

(** ** The interface *)

Class Process (P : Type) := {
  pName : P -> string;
  pConfigName : P -> string;
  pState : P -> Process.State;
  pConditions : P -> option (list (Conditions.Action * option Conditions.Condition));
  pSetConditions : option (list (Conditions.Action * option Conditions.Condition)) -> P -> P;
  pHasProfile : P -> bool;                 (* Profile() != nil *)
  pIsPtpProcess : P -> bool;               (* the type assertion p.( *ptpProcess ) *)
  pStart : P -> option string * P;
  pStop : P -> option P
}.

Class ProcessLaws (P : Type) `{Process P} := {
  law_start_name p : pName (pStart p).2 = pName p /\ pConfigName (pStart p).2 = pConfigName p;
  law_start_conditions p : pConditions (pStart p).2 = pConditions p;
  law_start p :
    match pState p with
    | Process.Starting | Process.Running => pStart p = (None, p)
    | Process.Stopping => (pStart p).1 <> None /\ (pStart p).2 = p
    | _ => (pStart p).1 = None /\ pState (pStart p).2 = Process.Starting
    end;
  law_stop p p' :
    pStop p = Some p' ->
    pState p' = match pState p with
                | Process.Starting | Process.Running => Process.Stopping
                | st => st
                end;
  law_conditions c p :
    pState (pSetConditions c p) = pState p
    /\ pName (pSetConditions c p) = pName p /\ pConfigName (pSetConditions c p) = pConfigName p
}.
