(* ===== verification/ClockMgr.v ===== *)
(** * pkg/clockmgr: the clock manager

    The state of pkg/clockmgr/clockmgr.go and its operations, each of which runs under
    the manager's lock and is therefore one atomic step.  Clocks live in a heap, and the
    map from config names to clocks holds references into it, since a clock is registered
    under every name its events arrive under.  The manager is written against the class
    of Clock.v.  A Prometheus gauge vector is its map from label values to values; a nil
    gauge is [false].  Only what the debug package records is left out. *)

From S2P Require Import Prelude Float64 Utils Protocol Ipc Event Stats ClockBase Method BC HA Clock Clocks Conditions.
Import Conditions.

(** ** Gauges *)

Inductive Gauge := OffsetGauge | ClockStateGauge | ClockClassGauge | HAGauge | NamedGauge (name : string).

#[export] Instance Gauge_eq_dec : EqDecision Gauge.
Proof. solve_decision. Defined.

#[export] Instance Gauge_countable : Countable Gauge.
Proof.
  refine (inj_countable'
    (fun g => match g with
              | OffsetGauge => inl 0%nat | ClockStateGauge => inl 1%nat | ClockClassGauge => inl 2%nat
              | HAGauge => inl 3%nat | NamedGauge n => inr n end)
    (fun x => match x with
              | inl 0%nat => OffsetGauge | inl 1%nat => ClockStateGauge | inl 2%nat => ClockClassGauge
              | inl _ => HAGauge | inr n => NamedGauge n end) _).
  by intros [].
Defined.

(** [prometheus.Labels], in a fixed order of the label names. *)
Abbreviation Labels := (list (string * string)).

Record metricKey := mkMetricKey { mkCfgName : string; mkProcess : string; mkIface : string; mkDataType : ValueType }.

#[export] Instance metricKey_eq_dec : EqDecision metricKey.
Proof. solve_decision. Defined.

#[export] Instance metricKey_countable : Countable metricKey.
Proof.
  refine (inj_countable' (fun k => (mkCfgName k, mkProcess k, mkIface k, mkDataType k))
    (fun '(a, b, c, d) => mkMetricKey a b c d) _).
  by intros [].
Defined.

Record metricEntry := mkMetricEntry { meGauge : Gauge; meLabels : Labels }.

Record ClockManager (C : Type) := mkManager {
  nodeName : string;
  metricCache : gmap metricKey metricEntry;
  registeredGauges : gset string;
  offsetMetric : bool;
  clockMetric : bool;
  clockClassMetric : bool;
  haMetric : bool;
  gauges : gmap (Gauge * Labels) f64;
  heap : list C;
  clocks : gmap string nat;
  announceSeq : Z;
  osClock : OsClock;
  ipcCache : option Cache;
  applyingProfiles : bool;
  syncStatus : bool;
  statsUpdates : option EventStats;
  osClockConfigs : gset string
}.

Arguments mkManager {C}.
Arguments nodeName {C}.
Arguments metricCache {C}.
Arguments registeredGauges {C}.
Arguments offsetMetric {C}.
Arguments clockMetric {C}.
Arguments clockClassMetric {C}.
Arguments haMetric {C}.
Arguments gauges {C}.
Arguments heap {C}.
Arguments clocks {C}.
Arguments announceSeq {C}.
Arguments osClock {C}.
Arguments ipcCache {C}.
Arguments applyingProfiles {C}.
Arguments syncStatus {C}.
Arguments statsUpdates {C}.
Arguments osClockConfigs {C}.

#[export] Instance ClockManager_fields C : Fields (ClockManager C) := fun m =>
  mkManager (nodeName m) (metricCache m) (registeredGauges m) (offsetMetric m) (clockMetric m) (clockClassMetric m)
    (haMetric m) (gauges m) (heap m) (clocks m) (announceSeq m) (osClock m) (ipcCache m) (applyingProfiles m)
    (syncStatus m) (statsUpdates m) (osClockConfigs m).

Module Mgr.

(** ** Metrics *)

(** The dynamic type of a value handed to [convertToFloat]. *)
Inductive Any := AnyInt64 (z : Z) | AnyFloat64 (x : f64) | AnyBool (b : bool) | AnyOther.

Definition convertToFloat (value : Any) : option f64 :=
  match value with
  | AnyInt64 z => Some (f64_of_Z z)
  | AnyFloat64 x => Some x
  | AnyBool b => Some (f64_of_Z (if b then 1 else 0))
  | AnyOther => None
  end.

(** [strings.HasSuffix(s, suffix)]. *)
Fixpoint has_suffix (suffix s : string) : bool :=
  str_eqb suffix s || match s with EmptyString => false | String _ s' => has_suffix suffix s' end.

Definition getMetricName (valueType : ValueType) : string :=
  if has_suffix OFFSET valueType then (valueType +:+ "_" +:+ "ns")%string else valueType.

Definition CheckMetricSanity (process iface : string) : bool := negb (str_eqb process "" || str_eqb iface "").

(** The numeric fields of a payload; [None] is the default branch of the switch. *)
Definition processData (data : option EventData) : option (list (ValueType * Any)) :=
  match data with
  | Some (EGNSS d) => Some [(GPS_STATUS, AnyInt64 (gdGPSStatus d)); (OFFSET, AnyInt64 (gdOffset d))]
  | Some (EOffset d) =>
      Some ((OFFSET, AnyInt64 (odOffset d)) ::
            match odNMEALocked d with Some b => [(NMEA_STATUS, AnyBool b)] | None => [] end)
  | Some (EDPLL d) =>
      let field ty (v : option Z) := match v with Some z => [(ty, AnyInt64 z)] | None => [] end in
      Some (field OFFSET (ddOffset d) ++ field PHASE_STATUS (ddPhaseStatus d) ++
            field FREQUENCY_STATUS (ddFrequencyStatus d))
  | _ => None
  end.

Section metrics.
  Context {C : Type}.
  Implicit Types (m : ClockManager C).

Definition set_gauge (g : Gauge) (labels : Labels) (v : f64) (m : ClockManager C) : ClockManager C :=
  m <| gauges := <[(g, labels) := v]> (gauges m) |>.

Definition metric_labels (node : string) (iface : string) (ev : Event) (dataType : ValueType) : Labels :=
  let pName := if str_eqb dataType OFFSET && str_eqb (evSource ev) TS2PHC then "master" else evSource ev in
  [("from", pName); ("node", node); ("process", evSource ev); ("iface", iface)].

Definition metric_key (iface : string) (ev : Event) (dataType : ValueType) : metricKey :=
  mkMetricKey (evCfgName ev) (evSource ev) iface dataType.

(** The body of the loop of [updateMetrics]. *)
Definition update_metric (iface : string) (ev : Event) (m : ClockManager C) (tv : ValueType * Any) : ClockManager C :=
  let '(dataType, value) := tv in
  match convertToFloat value with
  | None => m
  | Some dataValue =>
      let key := metric_key iface ev dataType in
      let labels := metric_labels (nodeName m) iface ev dataType in
      match metricCache m !! key with
      | Some entry =>
          let m := set_gauge (meGauge entry) labels dataValue m in
          m <| metricCache := <[key := mkMetricEntry (meGauge entry) labels]> (metricCache m) |>
      | None =>
          let metricName := getMetricName dataType in
          let '(gauge, m) :=
            if str_eqb dataType OFFSET then (OffsetGauge, m)
            else (NamedGauge metricName, m <| registeredGauges := {[metricName]} ∪ registeredGauges m |>) in
          let m := set_gauge gauge labels dataValue m in
          m <| metricCache := <[key := mkMetricEntry gauge labels]> (metricCache m) |>
      end
  end.

(** [updateMetrics]; the fields have distinct types, so the iteration order of the map
    they are collected in does not matter. *)
Definition updateMetrics (getAlias : string -> string) (ev : Event) (m : ClockManager C) : ClockManager C :=
  if negb (offsetMetric m) then m
  else
    match processData (evData ev) with
    | None => m
    | Some fields => foldl (update_metric (getAlias (evIFace ev)) ev) m fields
    end.

Definition unregistered (configName processName : string) (k : metricKey) : bool :=
  str_eqb (mkCfgName k) configName && (str_eqb processName "" || str_eqb (mkProcess k) processName).

(** [unregisterMetrics]: the entries of a configuration, or of one process of it, are
    deleted with their series. *)
Definition unregisterMetrics (configName processName : string) (m : ClockManager C) : ClockManager C :=
  let doomed := filter (fun ke : metricKey * metricEntry => unregistered configName processName ke.1 = true)
                  (map_to_list (metricCache m)) in
  m <| gauges := foldl (fun g ke => delete (meGauge ke.2, meLabels ke.2) g) (gauges m) doomed |>
    <| metricCache := foldl (fun c ke => delete ke.1 c) (metricCache m) doomed |>.

Definition updateClockStateMetrics (state : PTPState) (process iFace : string) (m : ClockManager C) : ClockManager C :=
  if negb (clockMetric m) then m
  else if negb (CheckMetricSanity process iFace) then m
  else
    let labels := [("process", process); ("node", nodeName m); ("iface", iFace)] in
    set_gauge ClockStateGauge labels
      (f64_of_Z (if str_eqb state PTP_LOCKED then 1 else if str_eqb state PTP_HOLDOVER then 2 else 0)) m.

Definition updateHAProfileMetrics (status : option (gmap string bool)) (m : ClockManager C) : ClockManager C :=
  match status with
  | None => m
  | Some status =>
      if negb (haMetric m) then m
      else
        foldl (fun m (pa : string * bool) =>
          set_gauge HAGauge [("process", PHC2SYS); ("node", nodeName m); ("profile", pa.1)]
            (f64_of_Z (if pa.2 then 1 else 0)) m) m (map_to_list status)
  end.

Definition updateClockClassMetrics (cfgName : string) (clockClass : Z) (m : ClockManager C) : ClockManager C :=
  if negb (clockClassMetric m) then m
  else if clockClass =? ClockClassUninitialized then m
  else
    let profile := replace1 "ts2phc" "ptp4l" cfgName in
    set_gauge ClockClassGauge [("process", "ptp4l"); ("node", nodeName m); ("config", profile)] (f64_of_Z clockClass) m.
End metrics.

(** ** The operations *)

Section manager.
  Context {C : Type} `{!Clock C}.
  Implicit Types (m : ClockManager C).

(** [GetClock]. *)
Definition GetClock (cfgName : string) (m : ClockManager C) : option (nat * C) :=
  id ← clocks m !! cfgName; c ← heap m !! id; Some (id, c).

(** One source of a clock in a snapshot. *)
Definition add_data (rq : StatsRequest) (stats : EventStats) (d : Data) : EventStats :=
  if negb (str_eqb (rqSource rq) "") && negb (str_eqb (daProcessName d) (rqSource rq)) then stats
  else
    let put {A} (v : option A) (outer : gmap string (gmap EventSource A)) :=
      let inner := default ∅ (outer !! rqClockID rq) in
      <[rqClockID rq := match v with Some x => <[daProcessName d := x]> inner | None => inner end]> outer in
    stats <| States := put (Some (daState d)) (States stats) |>
          <| Windows := put (Window.Snapshot <$> daWindow d) (Windows stats) |>.

Definition add_request (order : list string) (m : ClockManager C) (stats : EventStats) (rq : StatsRequest) : EventStats :=
  match GetClock (rqClockID rq) m with
  | Some (_, c) =>
      foldl (add_data rq)
        (stats <| ClockStates := <[rqClockID rq := GetState c]> (ClockStates stats) |>)
        (ProcessDataForConfig order (osClock m) (rqClockID rq) c)
  | None => foldl (add_data rq) stats (osData (osClock m))
  end.

(** [snapshotStats]. *)
Definition snapshotStats (order : list string) (requests : list StatsRequest) (m : ClockManager C) : EventStats :=
  foldl (add_request order m) (mkStats ∅ ∅ ∅ (osState (osClock m)) (osE3State (osClock m))) requests.

Definition all_requests (m : ClockManager C) : list StatsRequest :=
  ((fun cfg => mkRequest cfg "") <$> (map_to_list (clocks m)).*1) ++
  ((fun cfg => mkRequest cfg "") <$> filter (fun cfg => clocks m !! cfg = None) (elements (osClockConfigs m))).

(** [publishStats]: a pending snapshot is drained first. *)
Definition publishStats (env : Env) (m : ClockManager C) : ClockManager C :=
  let stats := snapshotStats (envMemberOrder env) (all_requests m) m in
  match statsUpdates m with
  | None => m <| statsUpdates := Some stats |>
  | Some _ => m <| statsUpdates := None |> <| statsUpdates := Some stats |>
  end.

(** [Init]; the gauges and the cache it is given are non-nil or nil. *)
Definition Init (env : Env) (nodeName : string) (offset clock class : bool) (cache : option Cache) (seq : Z) : ClockManager C :=
  publishStats env
    (mkManager nodeName ∅ ∅ offset clock class false ∅ [] ∅ seq init_OsClock cache false false None ∅).

Definition SetHAMetric (m : ClockManager C) : ClockManager C := m <| haMetric := true |>.
Definition SetApplying (v : bool) (m : ClockManager C) : ClockManager C := m <| applyingProfiles := v |>.
Definition signalSyncStatus (m : ClockManager C) : ClockManager C := m <| syncStatus := true |>.

Definition ConfigureOSClockFilter (cfg : OSClockFilterConfig) (m : ClockManager C) : ClockManager C :=
  m <| osClock := ConfigureFilter cfg (osClock m) |>.

Definition AddClock (env : Env) (clk : C) (m : ClockManager C) : ClockManager C :=
  let id := length (heap m) in
  publishStats env
    (m <| heap := heap m ++ [clk] |>
       <| clocks := foldl (fun cs cfg => <[cfg := id]> cs) (clocks m) (ConfigNames_ (envMemberOrder env) clk) |>).

Definition RemoveAllClocks (env : Env) (m : ClockManager C) : ClockManager C :=
  let m := m <| osClock := OsClock_Reset (osClock m) |> in
  let m := foldl (fun m cfg => unregisterMetrics cfg "" m) m (map_to_list (clocks m)).*1 in
  publishStats env (m <| clocks := ∅ |> <| osClockConfigs := ∅ |>).

(** The messages of [es] reach the cache, when there is one. *)
Definition deliver (env : Env) (es : list Effect) (m : ClockManager C) : ClockManager C :=
  m <| ipcCache := (fun c => foldl (fun c e => match e with SendIPC msg => fst (Send (envTimestamp env) msg c) | _ => c end)
                       c es) <$> ipcCache m |>.

(** A method of the clock [id]; what it sends goes to the cache. *)
Definition on_clock {A} (env : Env) (id : nat) (f : M (Shared C) A) : M (ClockManager C) (option A) := fun m =>
  match heap m !! id with
  | None => Some (None, m, [])
  | Some c =>
      match f (announceSeq m, c) with
      | Some (a, (seq, c'), es) =>
          Some (Some a, deliver env es (m <| heap := <[id := c']> (heap m) |> <| announceSeq := seq |>), es)
      | None => None
      end
  end.

(** [sendIPC]. *)
Definition sendIPC (env : Env) (msg : Message) : M (ClockManager C) unit :=
  modify (deliver env [SendIPC msg]);; emit (SendIPC msg).

(** [worstClockState], over the values of the map. *)
Definition clock_states (m : ClockManager C) : list PTPState :=
  omap (fun cfg_id : string * nat => GetState <$> heap m !! cfg_id.2) (map_to_list (clocks m)).

Definition worstClockState (m : ClockManager C) : PTPState := WorstOfPtpStates (clock_states m).

Definition derivedState (m : ClockManager C) : PTPState :=
  if decide (clocks m = ∅) then osState (osClock m)
  else DeriveOSClockState (worstClockState m) (osState (osClock m)).

Definition emitOSClockState (env : Env) : M (ClockManager C) unit :=
  m ← get;
  let derived := derivedState m in
  if str_eqb derived PTP_NOTSET || str_eqb derived (osE3State (osClock m)) then mret tt
  else
    modify (fun m => m <| osClock := (osClock m) <| osE3State := derived |> |>);;
    sendIPC env (message TypeOSClockState "" (osIFace (osClock m))
      (StateValue (PtpStateToIPCState derived) (osOffset (osClock m)))).

(** [for _, clk := range m.clocks]; the order is that of the map iteration. *)
Fixpoint notify_clocks (env : Env) (order : list string) : M (ClockManager C) unit :=
  match order with
  | [] => mret tt
  | cfg :: order' =>
      m ← get;
      match clocks m !! cfg with
      | Some id => _ ← on_clock env id (SystemClockUpdate env (osState (osClock m))); notify_clocks env order'
      | None => notify_clocks env order'
      end
  end.

Definition handleOSClockEvent (env : Env) (ev : Event) : M (ClockManager C) bool :=
  m ← get;
  let previous := osState (osClock m) in
  '(o, accepted) ← lift (OsClock_AddEvent (envNow env) ev (osClock m));
  modify (fun m => m <| osClock := o |>);;
  if negb accepted then mret false
  else
    modify (fun m => m <| osClockConfigs := {[evCfgName ev]} ∪ osClockConfigs m |>);;
    emitOSClockState env;;
    m ← get;
    if str_eqb (osState (osClock m)) previous then mret true
    else
      modify signalSyncStatus;;
      notify_clocks env (envClockOrder env);;
      mret true.

(** [reset]. *)
Definition reset (env : Env) (ev : Event) : M (ClockManager C) unit :=
  modify (fun m => m <| ipcCache := Clear <$> ipcCache m |>);;
  m ← get;
  match GetClock (evCfgName ev) m with
  | Some (id, _) =>
      r ← on_clock env id (Reset env (osClock m));
      match r with
      | Some o => modify (fun m => m <| osClock := o |>)
      | None => mret tt
      end
  | None => mret tt
  end;;
  modify (fun m => m <| osClock := (osClock m) <| osE3State := PTP_NOTSET |> |>);;
  modify (unregisterMetrics (evCfgName ev) (if str_eqb (evSource ev) TS2PHC then "" else evSource ev)).

(** The clock an event is for. *)
Definition lookupName (ev : Event) : string :=
  if str_eqb (evSource ev) SYNCE then replace1 "synce4l" "ptp4l" (evCfgName ev) else evCfgName ev.

Definition is_follower (t : ClockType) : bool := str_eqb t BC_type || str_eqb t OC_type.

(** What [ProcessEvent] does with the state its clock returns. *)
Definition account (env : Env) (ev : Event) (prevState : PTPState) (clockType : ClockType) (clockState : SyncState) :
    M (ClockManager C) unit :=
  when (negb (str_eqb prevState PTP_NOTSET) && negb (str_eqb prevState (ssState clockState)))
    (modify signalSyncStatus);;
  when (negb (str_eqb (ssLeadingIFace clockState) "") && negb (str_eqb (ssLeadingIFace clockState) LEADING_INTERFACE_UNKNOWN))
    (let process := if is_follower clockType || is_follower (evClockType ev) then PTP4l else evClockType ev in
     modify (updateClockStateMetrics (ssState clockState) process (envGetAlias env (ssLeadingIFace clockState))));;
  modify (updateClockClassMetrics (lookupName ev) (ssClockClass clockState));;
  modify (updateHAProfileMetrics (ssHAProfileStatus clockState)).

Definition printLog (env : Env) (ev : Event) : M (ClockManager C) unit :=
  when (evWriteToLog ev && negb (str_eqb (GetLogData (envNow env) ev) ""))
    (emit (PrintLine (GetLogData (envNow env) ev))).

(** [ProcessEvent]. *)
Definition ProcessEvent (env : Env) (ev : Event) : M (ClockManager C) unit :=
  if evReset ev then reset env ev;; modify (publishStats env)
  else
    handled ← handleOSClockEvent env ev;
    if (handled : bool) then modify (publishStats env)
    else
      m ← get;
      match GetClock (lookupName ev) m with
      | None => mret tt
      | Some (id, clk) =>
          if str_eqb (ClockType_ clk) TBC_type && applyingProfiles m then mret tt
          else
            printLog env ev;;
            r ← on_clock env id (Clock.AddEvent env (osState (osClock m)) ev);
            match r with
            | None => mret tt
            | Some (clockState, ev') =>
                m ← get;
                account env ev (GetState clk) (ClockType_ (default clk (heap m !! id))) clockState;;
                modify (updateMetrics (envGetAlias env) ev');;
                emitOSClockState env;;
                modify (publishStats env)
            end
      end.

(** The consumer of the snapshots takes the pending one. *)
Definition take_stats (m : ClockManager C) : ClockManager C := m <| statsUpdates := None |>.

End manager.

(** ** Invariants *)

Definition is_os_event (ev : Event) : bool :=
  match evData ev with
  | Some (EOffset _) => str_eqb (evSource ev) CHRONYD || str_eqb (evSource ev) PHC2SYS
  | _ => false
  end.

Section laws.
  Context {C : Type} `{!Clock C} `{!ClockLaws C}.
  Implicit Types (m : ClockManager C).

Record mgr_ok (m : ClockManager C) : Prop := {
  ok_os : os_wf (osClock m);
  ok_clocks : Forall good (heap m);
  ok_refs : map_Forall (fun _ id => (id < length (heap m))%nat) (clocks m)
}.

(** The snapshot of the present state. *)
Definition current (order : list string) (m : ClockManager C) : EventStats := snapshotStats order (all_requests m) m.

(** The clock of an event can handle it. *)
Definition acceptable (ev : Event) (m : ClockManager C) : Prop :=
  forall id c, GetClock (lookupName ev) m = Some (id, c) -> accepts ev c.

(** An event that reaches neither the OS clock nor a clock. *)
Definition dropped (ev : Event) (m : ClockManager C) : bool :=
  negb (evReset ev) && negb (is_os_event ev) &&
  match GetClock (lookupName ev) m with
  | None => true
  | Some (_, clk) => str_eqb (ClockType_ clk) TBC_type && applyingProfiles m
  end.

(** What a step reports of the node-wide state: the derived state, once, when it changes. *)
Record e3_step (m m' : ClockManager C) (e : list Effect) : Prop := {
  e3_state : osE3State (osClock m') =
    if str_eqb (derivedState m') PTP_NOTSET then osE3State (osClock m) else derivedState m';
  e3_sent : sent TypeOSClockState e =
    if str_eqb (derivedState m') PTP_NOTSET || str_eqb (derivedState m') (osE3State (osClock m)) then []
    else [message TypeOSClockState "" (osIFace (osClock m'))
            (StateValue (PtpStateToIPCState (derivedState m')) (osOffset (osClock m')))]
}.

(** What notifying the clocks changes: their own fields, the announce sequence, the cache. *)
Definition kept (c c' : C) : Prop :=
  GetState c' = GetState c /\ ClockType_ c' = ClockType_ c /\
  forall order o cfg, ProcessDataForConfig order o cfg c' = ProcessDataForConfig order o cfg c.

#[local] Instance kept_refl : Reflexive kept.
Proof. by repeat split. Qed.

#[local] Instance kept_trans : Transitive kept.
Proof. intros c c' c'' (? & ? & H1) (? & ? & H2). repeat split; intros; congruence. Qed.

Record notified (m m' : ClockManager C) : Prop := {
  nt_rest : m' = m <| heap := heap m' |> <| announceSeq := announceSeq m' |> <| ipcCache := ipcCache m' |>;
  nt_heap : Forall2 kept (heap m) (heap m')
}.

Lemma GetClock_good name m id c : mgr_ok m -> GetClock name m = Some (id, c) -> heap m !! id = Some c /\ good c.
Proof.
  intros Hok. unfold GetClock. destruct (clocks m !! name) as [i|]; cbn; [|done].
  destruct (heap m !! i) as [c'|] eqn:E; cbn; [|done]. intros [= <- <-]. split; [done|].
  by eapply Forall_lookup_1; [apply (ok_clocks _ Hok)|].
Qed.

Lemma on_clock_wp {A} env id (f : M (Shared C) A) m c Q :
  heap m !! id = Some c ->
  wp f (announceSeq m, c) (fun a s e =>
    Q (Some a) (deliver env e (m <| heap := <[id := snd s]> (heap m) |> <| announceSeq := fst s |>)) e) ->
  wp (on_clock env id f) m Q.
Proof.
  intros E (a & [seq c'] & e & Hf & HQ). eexists _, _, e. unfold on_clock. rewrite E, Hf. by split.
Qed.

Lemma mgr_ok_put m id c' seq cache :
  mgr_ok m -> good c' ->
  mgr_ok (m <| heap := <[id := c']> (heap m) |> <| announceSeq := seq |> <| ipcCache := cache |>).
Proof.
  intros [H1 H2 H3] Hc. split; cbn; [done|by apply Forall_insert|]. by rewrite length_insert.
Qed.

Lemma derived_ext m m' :
  clocks m' = clocks m -> osState (osClock m') = osState (osClock m) ->
  (forall id, GetState <$> heap m' !! id = GetState <$> heap m !! id) -> derivedState m' = derivedState m.
Proof.
  intros Hc Ho Hs. unfold derivedState, worstClockState, clock_states. rewrite Hc, Ho.
  replace (omap (fun cfg_id : string * nat => GetState <$> heap m' !! cfg_id.2) (map_to_list (clocks m)))
    with (omap (fun cfg_id : string * nat => GetState <$> heap m !! cfg_id.2) (map_to_list (clocks m))); [done|].
  induction (map_to_list (clocks m)) as [|x l IH]; cbn; [done|]. by rewrite Hs, IH.
Qed.

Lemma emitOSClockState_wp env m Q :
  (forall m' e, e3_step m m' e ->
     m' = m <| osClock := (osClock m) <| osE3State := osE3State (osClock m') |> |> <| ipcCache := ipcCache m' |> ->
     Q tt m' e) ->
  wp (emitOSClockState env) m Q.
Proof.
  intros HQ. unfold emitOSClockState. wp_run. cbn [app].
  destruct (str_eqb (derivedState m) PTP_NOTSET || str_eqb (derivedState m) (osE3State (osClock m))) eqn:E; wp_run.
  - apply HQ; [|by destruct m as [? ? ? ? ? ? ? ? ? ? ? []]]. split; [|by rewrite E].
    apply orb_true_iff in E as [->|E]; [done|]. apply bool_decide_eq_true in E as E'.
    destruct (str_eqb (derivedState m) PTP_NOTSET); congruence.
  - unfold sendIPC. wp_run. cbn [app]. apply HQ; [|done].
    apply orb_false_iff in E as [E1 E2].
    assert (derivedState (deliver env [SendIPC (message TypeOSClockState "" (osIFace (osClock m))
              (StateValue (PtpStateToIPCState (derivedState m)) (osOffset (osClock m))))]
            (m <| osClock := (osClock m) <| osE3State := derivedState m |> |>)) = derivedState m) as Hd by by apply derived_ext.
    split; rewrite Hd, E1; [done|]. rewrite E2. done.
Qed.

Lemma OsClock_AddEvent_routing now ev o o' b :
  OsClock_AddEvent now ev o = Some (o', b) ->
  b = is_os_event ev /\ osE3State o' = osE3State o /\ (b = false -> o' = o).
Proof.
  unfold OsClock_AddEvent, is_os_event. destruct (evData ev) as [[| ptp | | | | | | | | |]|]; try by intros [= <- <-].
  rewrite <- negb_orb. destruct (_ || _); cbn [negb]; [|by intros [= <- <-]].
  destruct (OsClock_evaluate _ _ _) as [o1 st] eqn:E. destruct (modify_first _ _ _); cbn [mbind option_bind]; [|done].
  intros [= <- <-]. split; [done|]. split; [|done].
  assert (osE3State o1 = osE3State o) as Hs.
  { unfold OsClock_evaluate in E. destruct (_ && _); [|by injection E as <- <-]. injection E as <- <-.
    unfold OsClock_updateState. destruct (str_eqb _ PTP_HOLDOVER); [by destruct (negb _)|].
    by destruct (Hysteresis.Update _ _) as [? [? ?]]. }
  by destruct (str_eqb st PTP_NOTSET).
Qed.

Lemma quiet_nil ty : quiet ty [].
Proof. done. Qed.

Lemma notified_refl m : notified m m.
Proof. split; [by destruct m|reflexivity]. Qed.

Lemma notified_trans m m' m'' : notified m m' -> notified m' m'' -> notified m m''.
Proof.
  intros [R H] [R' H']. split; [|by transitivity (heap m')].
  etransitivity; [exact R'|]. rewrite R. reflexivity.
Qed.

Lemma Forall2_insert_l (l : list C) i c c' : l !! i = Some c -> kept c c' -> Forall2 kept l (<[i := c']> l).
Proof.
  intros E Hc. rewrite <- (list_insert_id l i c E) at 1. apply Forall2_insert; [reflexivity|exact Hc].
Qed.

Lemma notify_wp env order m :
  mgr_ok m -> wp (notify_clocks env order) m (fun _ m' e => mgr_ok m' /\ notified m m' /\ quiet TypeOSClockState e).
Proof.
  revert m. induction order as [|cfg order IH]; intros m Hok; cbn [notify_clocks].
  { wp_run. split; [done|]. split; [apply notified_refl|done]. }
  wp_run. cbn [app]. destruct (clocks m !! cfg) as [id|] eqn:Eid; [|by apply IH].
  destruct (lookup_lt_is_Some_2 (heap m) id) as [c Ec]; [by eapply (ok_refs _ Hok)|].
  assert (good c) as Hg by (by eapply Forall_lookup_1; [apply (ok_clocks _ Hok)|]).
  wp_step. eapply on_clock_wp; [exact Ec|]. eapply wp_mono; [by apply SystemClockUpdate_law|].
  intros u s e (Hg' & Hs & Ht & Hp & Hq). eapply wp_mono; [apply IH, mgr_ok_put; [exact Hok|exact Hg']|].
  intros u' m' e' (Hok' & Hn & Hq'). split; [exact Hok'|]. split; [|by apply quiet_app].
  eapply notified_trans; [|exact Hn]. split; [done|]. cbn.
  by eapply Forall2_insert_l.
Qed.

Lemma notified_derived m m' : notified m m' -> derivedState m' = derivedState m.
Proof.
  intros [R H]. apply derived_ext; [by rewrite R|by rewrite R|]. intros id.
  destruct (heap m !! id) as [c|] eqn:E.
  - destruct (Forall2_lookup_l _ _ _ _ _ H E) as (c' & -> & Hs & _). cbn. by rewrite Hs.
  - apply lookup_ge_None_1 in E. rewrite (Forall2_length _ _ _ H) in E. by rewrite lookup_ge_None_2.
Qed.

(** What accounting for an event changes: the metrics and the pending status signal. *)
Definition metrics_only (m m' : ClockManager C) : Prop :=
  m' = m <| metricCache := metricCache m' |> <| registeredGauges := registeredGauges m' |> <| gauges := gauges m' |>
         <| syncStatus := syncStatus m' |>.

#[local] Instance metrics_only_refl : Reflexive metrics_only.
Proof. intros m. by destruct m. Qed.

#[local] Instance metrics_only_trans : Transitive metrics_only.
Proof. intros m m' m'' R R'. unfold metrics_only. etransitivity; [exact R'|]. rewrite R. reflexivity. Qed.

Lemma set_gauge_only g l v m : metrics_only m (set_gauge g l v m).
Proof. by destruct m. Qed.

Lemma update_metric_only iface ev m tv : metrics_only m (update_metric iface ev m tv).
Proof.
  destruct tv as [ty v]. unfold update_metric. destruct (convertToFloat v); [|reflexivity].
  destruct (metricCache m !! _); [by destruct m|]. destruct (str_eqb ty OFFSET); by destruct m.
Qed.

Lemma foldl_only {A} (f : ClockManager C -> A -> ClockManager C) l :
  (forall m x, metrics_only m (f m x)) -> forall m, metrics_only m (foldl f m l).
Proof. intros Hf. induction l as [|x l IH]; intros m; cbn; [reflexivity|]. by transitivity (f m x). Qed.

Lemma updateMetrics_only alias ev m : metrics_only m (updateMetrics alias ev m).
Proof.
  unfold updateMetrics. destruct (negb _); [reflexivity|]. destruct (processData _); [|reflexivity].
  apply foldl_only. intros. apply update_metric_only.
Qed.

Lemma unregister_only cfg proc m : metrics_only m (unregisterMetrics cfg proc m).
Proof. by destruct m. Qed.

Lemma updates_only m :
  (forall st p i, metrics_only m (updateClockStateMetrics st p i m)) /\
  (forall status, metrics_only m (updateHAProfileMetrics status m)) /\
  (forall cfg cls, metrics_only m (updateClockClassMetrics cfg cls m)).
Proof.
  repeat split; intros.
  - unfold updateClockStateMetrics. do 2 (destruct (negb _); [reflexivity|]). apply set_gauge_only.
  - unfold updateHAProfileMetrics. destruct status; [|reflexivity]. destruct (negb _); [reflexivity|].
    apply foldl_only. intros. apply set_gauge_only.
  - unfold updateClockClassMetrics. destruct (negb _); [reflexivity|]. destruct (_ =? _); [reflexivity|]. apply set_gauge_only.
Qed.

Lemma account_wp env ev prev ct cs m Q :
  (forall m', metrics_only m m' -> Q tt m' []) -> wp (account env ev prev ct cs) m Q.
Proof.
  intros HQ. unfold account.
  assert (forall (b : bool) (f : ClockManager C -> ClockManager C) m0 (Q' : unit -> ClockManager C -> list Effect -> Prop),
    metrics_only m m0 -> (forall m0, metrics_only m0 (f m0)) -> (forall m', metrics_only m m' -> Q' tt m' []) ->
    wp (when b (modify f)) m0 Q') as Hwhen.
  { intros b f m0 Q' H0 Hf HQ'. destruct b; wp_run; apply HQ'; [|done]. by transitivity m0. }
  wp_step. apply Hwhen; [reflexivity|intros m0; by destruct m0|]. intros m1 H1.
  wp_step. apply Hwhen; [done|intros m0; apply (updates_only m0)|]. intros m2 H2. wp_run. cbn [app]. apply HQ.
  transitivity m2; [done|]. etransitivity; [|apply updates_only]. apply updates_only.
Qed.

(** ** Steps of the manager *)

Lemma publishStats_eq env m : publishStats env m = m <| statsUpdates := Some (current (envMemberOrder env) m) |>.
Proof. unfold publishStats. by destruct (statsUpdates m). Qed.

Lemma e3_step_extend m m1 m2 e e' :
  e3_step m m1 e -> derivedState m2 = derivedState m1 -> osClock m2 = osClock m1 -> quiet TypeOSClockState e' ->
  e3_step m m2 (e ++ e').
Proof.
  intros [H1 H2] Hd Ho Hq. split; rewrite Hd, Ho; [done|]. rewrite sent_app, Hq, app_nil_r. done.
Qed.

Lemma e3_step_from m m0 m1 e e' :
  e3_step m0 m1 e -> osE3State (osClock m0) = osE3State (osClock m) -> quiet TypeOSClockState e' -> e3_step m m1 (e' ++ e).
Proof.
  intros [H1 H2] Ho Hq. split; rewrite <- Ho; [done|]. by rewrite sent_app, Hq, H2.
Qed.

(** The outcome of a step that was not dropped. *)
Record processed (ev : Event) (m m' : ClockManager C) (e : list Effect) : Prop := {
  pe_ok : mgr_ok m';
  pe_clocks : clocks m' = clocks m;
  pe_fresh : exists order, statsUpdates m' = Some (current order m');
  pe_e3 : if evReset ev then osE3State (osClock m') = PTP_NOTSET /\ quiet TypeOSClockState e else e3_step m m' e;
  pe_os : evReset ev = false -> is_os_event ev = true ->
    Forall2 kept (heap m) (heap m') /\
    (osState (osClock m') = osState (osClock m) -> heap m' = heap m)
}.

Lemma handleOS_wp env ev m Q :
  mgr_ok m ->
  (is_os_event ev = false -> Q false m []) ->
  (is_os_event ev = true -> forall m' e, mgr_ok m' -> clocks m' = clocks m -> e3_step m m' e ->
     Forall2 kept (heap m) (heap m') -> (osState (osClock m') = osState (osClock m) -> heap m' = heap m) -> Q true m' e) ->
  wp (handleOSClockEvent env ev) m Q.
Proof.
  intros Hok HF HT. unfold handleOSClockEvent. wp_run. cbn [app].
  destruct (OsClock_AddEvent_total (envNow env) ev _ (ok_os _ Hok)) as (o & b & E & Hwf).
  destruct (OsClock_AddEvent_routing _ _ _ _ _ E) as (Hb & HE3 & Hsame).
  eapply wp_lift; [exact E|]. wp_run. cbn [app]. destruct b; cbn [negb]; wp_run; cbn [app].
  2: { rewrite (Hsame eq_refl). replace (m <| osClock := osClock m |>) with m by (by destruct m). by apply HF. }
  set (m1 := m <| osClock := o |> <| osClockConfigs := {[evCfgName ev]} ∪ osClockConfigs m |>).
  apply emitOSClockState_wp. intros m2 e2 H3 R2. wp_run. cbn [app].
  assert (mgr_ok m2) as Hok2.
  { rewrite R2. destruct Hok as [_ H1 H2]. destruct Hwf as (W1 & W2 & W3). by split; [split; [|split]|..]. }
  assert (e3_step m m2 e2) as He2 by (by apply (e3_step_from m m1 m2 e2 [])).
  assert (heap m2 = heap m) as Hh by (by rewrite R2). assert (clocks m2 = clocks m) as Hc by (by rewrite R2).
  destruct (str_eqb (osState (osClock m2)) (osState (osClock m))) eqn:Est; wp_run; rewrite ?app_nil_r.
  - apply HT; try done. by rewrite Hh.
  - apply (wp_mono _ _ (fun _ m' e => mgr_ok m' /\ notified (signalSyncStatus m2) m' /\ quiet TypeOSClockState e)).
    { apply notify_wp. destruct Hok2 as [O1 O2 O3]. by split. }
    intros u m3 e3 (Hok3 & Hn & Hq). wp_run. rewrite app_nil_r.
    assert (osClock m3 = osClock m2) as Ho by (by rewrite (nt_rest _ _ Hn)). apply HT; [done|exact Hok3|..].
    + by rewrite (nt_rest _ _ Hn).
    + eapply e3_step_extend; [exact He2| |exact Ho|exact Hq]. by rewrite (notified_derived _ _ Hn).
    + rewrite <- Hh. exact (nt_heap _ _ Hn).
    + rewrite Ho. intros E'. rewrite E' in Est. unfold str_eqb in Est. by rewrite bool_decide_eq_true_2 in Est.
Qed.

Lemma OsClock_Reset_wf o : os_wf (OsClock_Reset o).
Proof. split; [constructor|]. split; [constructor|done]. Qed.

Lemma current_publish env m order : current order (publishStats env m) = current order m.
Proof. by rewrite publishStats_eq. Qed.

Lemma publish_fresh env m : exists order, statsUpdates (publishStats env m) = Some (current order (publishStats env m)).
Proof. exists (envMemberOrder env). rewrite current_publish. by rewrite publishStats_eq. Qed.

Lemma publish_ok env m : mgr_ok m -> mgr_ok (publishStats env m).
Proof. intros [H1 H2 H3]. rewrite publishStats_eq. by split. Qed.

Lemma metrics_only_ok m m' : metrics_only m m' -> mgr_ok m -> mgr_ok m'.
Proof. intros -> [H1 H2 H3]. by split. Qed.

Lemma reset_processed env ev m :
  mgr_ok m -> evReset ev = true ->
  wp (reset env ev;; modify (publishStats env)) m (fun _ m' e => processed ev m m' e).
Proof.
  intros Hok Hr. unfold reset. wp_run. cbn [app].
  set (m1 := m <| ipcCache := Clear <$> ipcCache m |>).
  set (finish := fun m2 : ClockManager C => publishStats env
     (unregisterMetrics (evCfgName ev) (if str_eqb (evSource ev) TS2PHC then "" else evSource ev)
       (m2 <| osClock := (osClock m2) <| osE3State := PTP_NOTSET |> |>))).
  assert (forall m2 e, mgr_ok m2 -> clocks m2 = clocks m -> quiet TypeOSClockState e -> processed ev m (finish m2) e) as Hfin.
  { intros m2 e [H1 H2 H3] Hc Hq. unfold finish. split.
    - apply publish_ok. eapply metrics_only_ok; [apply unregister_only|]. by split.
    - rewrite publishStats_eq. exact Hc.
    - apply publish_fresh.
    - rewrite Hr, publishStats_eq. split; [done|exact Hq].
    - congruence. }
  destruct (GetClock (evCfgName ev) m1) as [[id c]|] eqn:Ec.
  - destruct (GetClock_good _ m id c Hok Ec) as [Eh Hg]. wp_run. cbn [app].
    eapply on_clock_wp; [exact Eh|]. eapply wp_mono; [by apply Reset_law|].
    intros o' s e (-> & Hg' & Hq). wp_run. rewrite !app_nil_r. apply Hfin; [|done|exact Hq].
    destruct (mgr_ok_put m id (snd s) (fst s) None Hok Hg') as [H1 H2 H3].
    split; [apply OsClock_Reset_wf|exact H2|exact H3].
  - wp_run. cbn [app]. apply Hfin; [|done|done]. destruct Hok as [H1 H2 H3]. by split.
Qed.

Lemma clock_event_processed env ev m id c :
  mgr_ok m -> evReset ev = false -> is_os_event ev = false -> GetClock (lookupName ev) m = Some (id, c) -> accepts ev c ->
  wp (printLog env ev;;
      r ← on_clock env id (Clock.AddEvent env (osState (osClock m)) ev);
      match r with
      | None => mret tt
      | Some (clockState, ev') =>
          m ← get;
          account env ev (GetState c) (ClockType_ (default c (heap m !! id))) clockState;;
          modify (updateMetrics (envGetAlias env) ev');;
          emitOSClockState env;;
          modify (publishStats env)
      end) m (fun _ m' e => processed ev m m' e).
Proof.
  intros Hok Hr Hos Hc Ha. destruct (GetClock_good _ m id c Hok Hc) as [Eh Hg]. wp_step.
  assert (forall Q, (forall e, quiet TypeOSClockState e -> Q tt m e) -> wp (printLog env ev) m Q) as Hprint.
  { intros Q HQ. unfold printLog. apply wp_when. destruct (_ && _); [wp_run|]; by apply HQ. }
  apply Hprint. intros e0 Hq0. wp_step. eapply on_clock_wp; [exact Eh|].
  eapply wp_mono; [by apply AddEvent_law|]. intros [cs ev'] s e1 (Hg' & Hq1). wp_run.
  set (m1 := deliver env e1 (m <| heap := <[id := snd s]> (heap m) |> <| announceSeq := fst s |>)).
  assert (mgr_ok m1) as Hok1 by exact (mgr_ok_put m id (snd s) (fst s) _ Hok Hg').
  apply account_wp. intros m2 R2. wp_run. set (m3 := updateMetrics (envGetAlias env) ev' m2).
  assert (metrics_only m1 m3) as R3 by (etransitivity; [exact R2|apply updateMetrics_only]). clearbody m3.
  assert (mgr_ok m3) as Hok3 by by eapply metrics_only_ok.
  apply emitOSClockState_wp. intros m4 e4 H4 R4. wp_run. rewrite !app_nil_r, !app_nil_l.
  assert (mgr_ok m4) as Hok4 by (rewrite R4; destruct Hok3 as [(W1 & W2 & W3) H2 H3]; by split; [split; [|split]|..]).
  split.
  - by apply publish_ok.
  - rewrite publishStats_eq. cbn. rewrite R4, R3. done.
  - apply publish_fresh.
  - rewrite Hr, app_assoc. apply (e3_step_from m m3); [|by rewrite R3|by apply quiet_app].
    rewrite <- (app_nil_r e4). eapply e3_step_extend; [exact H4| | |done]; rewrite publishStats_eq; [by apply derived_ext|done].
  - congruence.
Qed.

Lemma ProcessEvent_processed env ev m :
  mgr_ok m -> (evReset ev = false -> acceptable ev m) -> dropped ev m = false ->
  wp (ProcessEvent env ev) m (fun _ m' e => processed ev m m' e).
Proof.
  intros Hok Ha Hd. unfold ProcessEvent, dropped in *. destruct (evReset ev) eqn:Hr; [by apply reset_processed|].
  wp_step. apply handleOS_wp; [done| |].
  - intros Hos. rewrite Hos in Hd. cbn [negb andb] in Hd. wp_run. cbn [app].
    destruct (GetClock (lookupName ev) m) as [[id c]|] eqn:Ec; [|done]. rewrite Hd.
    eapply wp_mono; [by apply clock_event_processed; [..|apply (Ha eq_refl _ _ Ec)]|]. done.
  - intros Hos m' e Hok' Hc H3 Hk Hh. wp_run. rewrite app_nil_r. split.
    + by apply publish_ok.
    + by rewrite publishStats_eq.
    + apply publish_fresh.
    + rewrite Hr, <- (app_nil_r e). eapply e3_step_extend; [exact H3| | |done]; rewrite publishStats_eq; [by apply derived_ext|done].
    + intros _ _. rewrite publishStats_eq. by split.
Qed.

Lemma ProcessEvent_dropped env ev m :
  mgr_ok m -> dropped ev m = true -> ProcessEvent env ev m = Some (tt, m, []).
Proof.
  intros Hok Hd. unfold dropped in Hd. apply andb_true_iff in Hd as [Hd Hg]. apply andb_true_iff in Hd as [Hr Hos].
  apply negb_true_iff in Hr, Hos.
  assert (wp (ProcessEvent env ev) m (fun _ m' e => m' = m /\ e = [])) as ([] & m' & e & E & -> & ->); [|exact E].
  unfold ProcessEvent. rewrite Hr. wp_step. apply handleOS_wp; [done| |by rewrite Hos]. intros _. wp_run.
  destruct (GetClock (lookupName ev) m) as [[id c]|]; [|by wp_run]. rewrite Hg. by wp_run.
Qed.

(** ** The node-wide state *)

(** The worst of the clocks' real states and the OS clock; the OS clock alone without clocks. *)
Definition node_state (m : ClockManager C) : PTPState :=
  if decide (clocks m = ∅) then osState (osClock m)
  else WorstOfState (worst_real (clock_states m)) (osState (osClock m)).

Lemma derived_node_state m : Forall (fun s => ~ other_state s) (clock_states m) -> derivedState m = node_state m.
Proof.
  intros H. unfold derivedState, node_state, DeriveOSClockState, worstClockState. by rewrite WorstOfPtpStates_spec.
Qed.

(** Events without a clock.  An event of an unknown configuration, or of a telecom
    boundary clock while profiles are being applied, changes nothing and sends nothing. *)
Theorem manager_drops env ev m : mgr_ok m -> dropped ev m = true -> ProcessEvent env ev m = Some (tt, m, []).
Proof. apply ProcessEvent_dropped. Qed.

(** OS-clock samples.  A sample of the OS clock is never delivered to a clock: each keeps
    its state and its data whatever the sample, and no clock is touched at all unless the
    disciplining state changed. *)
Theorem os_samples_isolated env ev m :
  mgr_ok m -> evReset ev = false -> is_os_event ev = true ->
  wp (ProcessEvent env ev) m (fun _ m' _ =>
    Forall2 kept (heap m) (heap m') /\ clocks m' = clocks m /\
    (osState (osClock m') = osState (osClock m) -> heap m' = heap m)).
Proof.
  intros Hok Hr Hos.
  assert (wp (ProcessEvent env ev) m (fun _ m' e => processed ev m m' e)) as H.
  { unfold ProcessEvent. rewrite Hr. wp_step. apply handleOS_wp; [done|by rewrite Hos|].
    intros _ m' e Hok' Hc H3 Hk Hh. wp_run. rewrite app_nil_r. split.
    - by apply publish_ok.
    - by rewrite publishStats_eq.
    - apply publish_fresh.
    - rewrite Hr, <- (app_nil_r e). eapply e3_step_extend; [exact H3| | |done]; rewrite publishStats_eq; [by apply derived_ext|done].
    - intros _ _. rewrite publishStats_eq. by split. }
  eapply wp_mono; [exact H|]. intros u m' e [_ H2 _ _ H5]. destruct (H5 Hr Hos). done.
Qed.

(** ** The life of the manager *)

Inductive reach : ClockManager C -> Prop :=
| reach_init env node offset clock class cache seq : reach (Init env node offset clock class cache seq)
| reach_event env ev m u m' e :
    reach m -> acceptable ev m -> ProcessEvent env ev m = Some (u, m', e) -> reach m'
| reach_add env clk m : reach m -> good clk -> reach (AddClock env clk m)
| reach_remove env m : reach m -> reach (RemoveAllClocks env m)
| reach_configure cfg m : reach m -> reach (ConfigureOSClockFilter cfg m)
| reach_applying v m : reach m -> reach (SetApplying v m)
| reach_ha m : reach m -> reach (SetHAMetric m)
| reach_take m : reach m -> reach (take_stats m).

Definition fresh (m : ClockManager C) : Prop :=
  forall s, statsUpdates m = Some s -> exists order, s = current order m.

Lemma publish_is_fresh env m : fresh (publishStats env m).
Proof. intros s Hs. destruct (publish_fresh env m) as [order E]. exists order. congruence. Qed.

Lemma register_refs (l : list string) n : forall cs : gmap string nat,
  map_Forall (fun _ id => (id < S n)%nat) cs -> map_Forall (fun _ id => (id < S n)%nat) (foldl (fun cs cfg => <[cfg := n]> cs) cs l).
Proof.
  induction l as [|x l IH]; intros cs H; cbn; [done|]. apply IH. apply map_Forall_insert_2; [lia|done].
Qed.

Lemma RemoveAllClocks_wf env m : mgr_ok m -> mgr_ok (RemoveAllClocks env m).
Proof.
  intros [H1 H2 H3]. unfold RemoveAllClocks. apply publish_ok.
  pose proof (foldl_only (fun m cfg => unregisterMetrics cfg "" m) (map_to_list (clocks m)).*1
    (fun m x => unregister_only x "" m) (m <| osClock := OsClock_Reset (osClock m) |>)) as R.
  set (m1 := foldl _ _ _) in *. clearbody m1. split; cbn; [rewrite R; apply OsClock_Reset_wf|by rewrite R|apply map_Forall_empty].
Qed.

Lemma foldl_ext {A B} (f g : A -> B -> A) (l : list B) : (forall a b, f a b = g a b) -> forall a, foldl f a l = foldl g a l.
Proof. intros H. induction l as [|b l IH]; intros a; cbn; [done|]. by rewrite H, IH. Qed.

(** The filter configuration is not part of a snapshot. *)
Lemma current_configure order cfg m : current order (ConfigureOSClockFilter cfg m) = current order m.
Proof.
  unfold current, snapshotStats. apply foldl_ext. intros stats rq. unfold add_request.
  change (GetClock (rqClockID rq) (ConfigureOSClockFilter cfg m)) with (GetClock (rqClockID rq) m).
  destruct (GetClock (rqClockID rq) m) as [[id c]|]; [|done].
  by rewrite (ProcessData_law order _ (osClock m) (rqClockID rq) c).
Qed.

Lemma mgr_reach_inv m : reach m -> mgr_ok m /\ fresh m.
Proof.
  induction 1 as [env node offset clock class cache seq|env ev m u m' e _ [Hok Hf] Ha E|env clk m _ [Hok Hf] Hg
                 |env m _ [Hok Hf]|cfg m _ [Hok Hf]|v m _ [Hok Hf]|m _ [Hok Hf]|m _ [Hok Hf]].
  - split; [|apply publish_is_fresh]. apply publish_ok. split; [split; [constructor|by split]|constructor|apply map_Forall_empty].
  - destruct (dropped ev m) eqn:Hd.
    + rewrite (ProcessEvent_dropped env ev m Hok Hd) in E. by injection E as <- <- <-.
    + destruct (wp_elim _ _ _ _ _ _ (ProcessEvent_processed env ev m Hok (fun _ => Ha) Hd) E) as [H1 _ (order & H3) _ _].
      split; [done|]. intros s Hs. exists order. congruence.
  - split; [|apply publish_is_fresh]. apply publish_ok. destruct Hok as [H1 H2 H3]. split; cbn; [done| |].
    + apply Forall_app. by repeat constructor.
    + rewrite length_app, Nat.add_1_r. apply register_refs. eapply map_Forall_impl; [exact H3|]. cbn. lia.
  - split; [by apply RemoveAllClocks_wf|apply publish_is_fresh].
  - split; [destruct Hok as [(W1 & W2 & W3) H2 H3]; split; [split; [|split]|..]; done|].
    intros s Hs. destruct (Hf s Hs) as [order ->]. exists order. by rewrite current_configure.
  - split; [|exact Hf]. by destruct Hok.
  - split; [|exact Hf]. by destruct Hok.
  - split; [by destruct Hok|]. intros s [=].
Qed.

(** The pending snapshot is never stale.  In every reachable state, whatever the
    interleaving with the consumer, a pending snapshot is that of the present state of the
    clocks and the OS clock; and after an event that was not dropped one is pending. *)
Theorem snapshot_always_current m env ev :
  reach m ->
  (forall s, statsUpdates m = Some s -> exists order, s = current order m) /\
  (acceptable ev m -> dropped ev m = false ->
   wp (ProcessEvent env ev) m (fun _ m' _ => exists order, statsUpdates m' = Some (current order m'))).
Proof.
  intros Hr. destruct (mgr_reach_inv m Hr) as [Hok Hf]. split; [exact Hf|]. intros Ha Hd.
  eapply wp_mono; [by apply ProcessEvent_processed|]. intros u m' e [_ _ H3 _ _]. exact H3.
Qed.

End laws.
(** ** Metrics *)

Section metric_theorems.
  Context {C : Type}.
  Implicit Types (m : ClockManager C).

(** The vector a type is exported in, and the series of an event. *)
Definition gauge_for (ty : ValueType) : Gauge :=
  if str_eqb ty OFFSET then OffsetGauge else NamedGauge (getMetricName ty).

Definition cache_ok (m : ClockManager C) : Prop :=
  map_Forall (fun k e => meGauge e = gauge_for (mkDataType k)) (metricCache m).

Definition series (m : ClockManager C) (iface : string) (ev : Event) (ty : ValueType) : Gauge * Labels :=
  (gauge_for ty, metric_labels (nodeName m) iface ev ty).

Lemma update_metric_spec iface ev m ty v x :
  cache_ok m -> convertToFloat v = Some x ->
  let m' := update_metric iface ev m (ty, v) in
  cache_ok m' /\ nodeName m' = nodeName m /\
  gauges m' = <[series m iface ev ty := x]> (gauges m) /\
  metricCache m' = <[metric_key iface ev ty := mkMetricEntry (gauge_for ty) (metric_labels (nodeName m) iface ev ty)]> (metricCache m).
Proof.
  intros Hok Hv. cbn [update_metric]. rewrite Hv. cbv zeta.
  assert (forall g, g = gauge_for ty ->
    map_Forall (fun k e => meGauge e = gauge_for (mkDataType k))
      (<[metric_key iface ev ty := mkMetricEntry g (metric_labels (nodeName m) iface ev ty)]> (metricCache m))) as Hins.
  { intros g ->. by apply map_Forall_insert_2. }
  destruct (metricCache m !! metric_key iface ev ty) as [entry|] eqn:E.
  - pose proof (map_Forall_lookup_1 _ _ _ _ Hok E) as Hg. cbn in Hg. rewrite Hg. split; [by apply Hins|]. done.
  - unfold series, gauge_for in *. destruct (str_eqb ty OFFSET); (split; [by apply Hins|]); done.
Qed.

Lemma update_metrics_fold iface ev l : forall m,
  cache_ok m -> NoDup (gauge_for <$> l.*1) -> Forall (fun tv => convertToFloat tv.2 <> None) l ->
  let m' := foldl (update_metric iface ev) m l in
  cache_ok m' /\ nodeName m' = nodeName m /\
  (forall ty v x, (ty, v) ∈ l -> convertToFloat v = Some x ->
     gauges m' !! series m iface ev ty = Some x /\ is_Some (metricCache m' !! metric_key iface ev ty)) /\
  (forall s, (forall ty, ty ∈ l.*1 -> s <> series m iface ev ty) -> gauges m' !! s = gauges m !! s) /\
  (forall k, is_Some (metricCache m !! k) -> is_Some (metricCache m' !! k)).
Proof.
  induction l as [|[ty v] l IH]; intros m Hok Hnd HF; cbn [foldl].
  { repeat split; try done. all: intros; set_solver. }
  inversion_clear HF as [|? ? Hv HF']. cbn in Hv. destruct (convertToFloat v) as [x|] eqn:Ev; [|done].
  cbn in Hnd. apply NoDup_cons in Hnd as [Hni Hnd].
  destruct (update_metric_spec iface ev m ty v x Hok Ev) as (H1 & H2 & H3 & H4).
  set (m1 := update_metric iface ev m (ty, v)) in *.
  destruct (IH m1 H1 Hnd HF') as (I1 & I2 & I3 & I4 & I5).
  assert (forall t, series m1 iface ev t = series m iface ev t) as Hs by (intros t; unfold series; by rewrite H2).
  split; [exact I1|]. split; [congruence|]. split; [|split].
  - intros ty' v' x' Hin Hx. apply elem_of_cons in Hin as [[= -> ->]|Hin].
    + assert (x' = x) as -> by congruence. rewrite I4.
      * rewrite H3. split; [apply lookup_insert_eq|]. apply I5. rewrite H4, lookup_insert_eq. by eexists.
      * intros t Ht. rewrite Hs. intros [= E]. apply Hni. rewrite E. apply list_elem_of_fmap. by exists t.
    + rewrite <- Hs. by eapply I3.
  - intros s Hns. rewrite I4, H3.
    + apply lookup_insert_ne. intros <-. apply (Hns ty); [cbn; set_solver|done].
    + intros t Ht. rewrite Hs. apply Hns. cbn. set_solver.
  - intros k Hk. apply I5. rewrite H4. destruct (decide (metric_key iface ev ty = k)) as [<-|Hne].
    + rewrite lookup_insert_eq. by eexists.
    + by rewrite lookup_insert_ne.
Qed.

Lemma processData_fields data fields :
  processData data = Some fields ->
  NoDup (gauge_for <$> fields.*1) /\ Forall (fun tv => convertToFloat tv.2 <> None) fields.
Proof.
  intros E. destruct data as [[d|d|d| | | | | | | |]|]; try done; injection E as <-.
  - split; [|by repeat constructor]. by apply (bool_decide_unpack _).
  - destruct (odNMEALocked d); (split; [|by repeat constructor]); by apply (bool_decide_unpack _).
  - destruct (ddOffset d), (ddPhaseStatus d), (ddFrequencyStatus d); (split; [|by repeat constructor]); by apply (bool_decide_unpack _).
Qed.

(** Exported samples.  After an event with numeric fields, each field's series, and no
    other series of any gauge, has the event's value; the entry is cached so that it can be
    deleted with its configuration. *)
Theorem updateMetrics_exports alias ev m fields :
  cache_ok m -> offsetMetric m = true -> processData (evData ev) = Some fields ->
  let m' := updateMetrics alias ev m in
  cache_ok m' /\
  (forall ty v x, (ty, v) ∈ fields -> convertToFloat v = Some x ->
     gauges m' !! series m (alias (evIFace ev)) ev ty = Some x /\
     is_Some (metricCache m' !! metric_key (alias (evIFace ev)) ev ty)) /\
  (forall s, (forall ty, ty ∈ fields.*1 -> s <> series m (alias (evIFace ev)) ev ty) -> gauges m' !! s = gauges m !! s).
Proof.
  intros Hok Ho Hp. unfold updateMetrics. rewrite Ho, Hp. cbn [negb].
  destruct (processData_fields _ _ Hp) as [Hnd HF].
  destruct (update_metrics_fold (alias (evIFace ev)) ev fields m Hok Hnd HF) as (H1 & _ & H2 & H3 & _). auto.
Qed.

Lemma foldl_delete {K A B} `{Countable K} (f : B -> K) (l : list B) : forall (mp : gmap K A) k,
  foldl (fun mp b => delete (f b) mp) mp l !! k = if decide (k ∈ f <$> l) then None else mp !! k.
Proof.
  induction l as [|b l IH]; intros mp k; cbn; [done|]. rewrite IH.
  destruct (decide (k ∈ f <$> l)) as [Hin|Hni].
  - rewrite decide_True; [done|]. cbn. set_solver.
  - destruct (decide (f b = k)) as [<-|Hne].
    + rewrite lookup_delete_eq, decide_True; [done|]. cbn. set_solver.
    + rewrite lookup_delete_ne by done. rewrite decide_False; [done|]. cbn. set_solver.
Qed.

(** Deleting metrics.  Unregistering a configuration, or one process of it, removes from
    the cache exactly the entries of that configuration and process, and deletes exactly the
    series those entries name. *)
Theorem unregisterMetrics_exact cfg proc m :
  let m' := unregisterMetrics cfg proc m in
  (forall k, metricCache m' !! k = if unregistered cfg proc k then None else metricCache m !! k) /\
  (forall s, (exists k e, metricCache m !! k = Some e /\ unregistered cfg proc k = true /\ s = (meGauge e, meLabels e)) ->
     gauges m' !! s = None) /\
  (forall s, (forall k e, metricCache m !! k = Some e -> s = (meGauge e, meLabels e) -> unregistered cfg proc k = false) ->
     gauges m' !! s = gauges m !! s).
Proof.
  cbn. split; [|split].
  - intros k. rewrite (foldl_delete fst). case_decide as Hin.
    + apply list_elem_of_fmap in Hin as ([k' e] & -> & Hin). apply list_elem_of_filter in Hin as [-> _]. done.
    + destruct (unregistered cfg proc k) eqn:Eu; [|done]. destruct (metricCache m !! k) as [e|] eqn:E; [|done].
      destruct Hin. apply list_elem_of_fmap. exists (k, e). split; [done|].
      apply list_elem_of_filter. split; [done|]. by apply elem_of_map_to_list.
  - intros s (k & e & E & Hu & ->). rewrite (foldl_delete (fun ke => (meGauge ke.2, meLabels ke.2))), decide_True; [done|].
    apply list_elem_of_fmap. exists (k, e). split; [done|].
    apply list_elem_of_filter. split; [done|]. by apply elem_of_map_to_list.
  - intros s H. rewrite (foldl_delete (fun ke => (meGauge ke.2, meLabels ke.2))), decide_False; [done|].
    intros Hin. apply list_elem_of_fmap in Hin as ([k e] & -> & Hin). apply list_elem_of_filter in Hin as [Hu Hin].
    apply elem_of_map_to_list in Hin. cbn in Hu. specialize (H k e Hin eq_refl). congruence.
Qed.

Lemma unregister_all (l : list string) : forall m k,
  metricCache (foldl (fun m cfg => unregisterMetrics cfg "" m) m l) !! k =
  if decide (mkCfgName k ∈ l) then None else metricCache m !! k.
Proof.
  induction l as [|cfg l IH]; intros m k; cbn [foldl]; [done|]. rewrite IH. cbn.
  rewrite (foldl_delete fst). destruct (decide (mkCfgName k ∈ l)) as [Hin|Hni].
  { rewrite decide_True; [done|]. set_solver. }
  case_decide as Hin.
  - apply list_elem_of_fmap in Hin as ([k' e] & -> & Hin). apply list_elem_of_filter in Hin as [Hu _].
    cbn in Hu. unfold unregistered, str_eqb in Hu. rewrite andb_true_r in Hu. apply bool_decide_eq_true in Hu.
    cbn [fst] in *. rewrite decide_True; [done|]. set_solver.
  - destruct (decide (mkCfgName k = cfg)) as [E|Hne].
    + rewrite (decide_True (P := mkCfgName k ∈ cfg :: l)) by (rewrite E; set_solver).
      destruct (metricCache m !! k) as [e|] eqn:Ek; [|done]. destruct Hin. apply list_elem_of_fmap. exists (k, e).
      split; [done|]. apply list_elem_of_filter. split; [|by apply elem_of_map_to_list]. cbn.
      unfold unregistered, str_eqb. by rewrite bool_decide_eq_true_2.
    + rewrite decide_False; [done|]. set_solver.
Qed.
End metric_theorems.
Section removal.
  Context {C : Type} `{!Clock C} `{!ClockLaws C}.
  Implicit Types (m : ClockManager C).

(** Teardown.  Removing all clocks leaves no clock, a free-running OS clock that is the
    node-wide state again, an empty snapshot pending, and no cached metric of any
    configuration that had a clock. *)
Theorem RemoveAllClocks_clean env m :
  let m' := RemoveAllClocks env m in
  clocks m' = ∅ /\ node_state m' = PTP_FREERUN /\ osE3State (osClock m') = PTP_NOTSET /\
  statsUpdates m' = Some (mkStats ∅ ∅ ∅ PTP_FREERUN PTP_NOTSET) /\
  (forall k, is_Some (metricCache m' !! k) -> clocks m !! mkCfgName k = None).
Proof.
  cbv zeta. unfold RemoveAllClocks. rewrite publishStats_eq.
  pose proof (foldl_only (fun m cfg => unregisterMetrics cfg "" m) (map_to_list (clocks m)).*1
    (fun m x => unregister_only x "" m) (m <| osClock := OsClock_Reset (osClock m) |>)) as R.
  pose proof (unregister_all (map_to_list (clocks m)).*1 (m <| osClock := OsClock_Reset (osClock m) |>)) as U.
  set (m1 := foldl _ _ _) in *. clearbody m1.
  assert (osClock m1 = OsClock_Reset (osClock m)) as Ho by by rewrite R.
  split; [done|]. split; [|split; [|split]].
  - unfold node_state. cbn. by rewrite Ho.
  - cbn. by rewrite Ho.
  - cbn. do 2 f_equal; unfold snapshotStats, all_requests; cbn; rewrite Ho; reflexivity.
  - intros k [e He]. cbn in He. rewrite U in He. case_decide as Hin; [done|].
    destruct (clocks m !! mkCfgName k) as [id|] eqn:E; [|done]. destruct Hin.
    apply list_elem_of_fmap. exists (mkCfgName k, id). split; [done|]. by apply elem_of_map_to_list.
Qed.
End removal.

(** ** The node-wide state, for the four clock types *)

(** The event that panics: a DPLL event with a present source and no offset, not from
    pmc and not a reset, for a clock that is a boundary clock, or an HA clock with a
    member of its configuration. *)
Definition offset_missing (ev : Event) (m : ClockManager AnyClock) : Prop :=
  evReset ev = false /\ evSource ev <> PMC
  /\ (exists d, evData ev = Some (EDPLL d) /\ ddSourceLost d = false /\ ddOffset d = None)
  /\ exists id c, GetClock (lookupName ev) m = Some (id, c)
     /\ match c with CBC _ => True | CHA h => is_Some (members h !! evCfgName ev) | _ => False end.

Lemma not_missing_acceptable ev m : ~ offset_missing ev m -> evReset ev = false -> acceptable ev m.
Proof.
  intros Hn Hr id c Hc. cbn. unfold Clocks.any_accepts.
  assert (~ Clocks.tolerated ev -> evSource ev <> PMC /\
    exists d, evData ev = Some (EDPLL d) /\ ddSourceLost d = false /\ ddOffset d = None) as Ht.
  { unfold Clocks.tolerated, BC.usable. intros Hd. split; [tauto|].
    destruct (evData ev) as [[| |d| | | | | | | |]|]; try tauto. exists d.
    destruct (ddSourceLost d); [tauto|]. destruct (ddOffset d); [|done]. destruct Hd. by right; right. }
  destruct c as [c|c|c|c]; try done.
  - destruct (decide (Clocks.tolerated ev)) as [|Hd]; [done|]. destruct (Ht Hd) as [H1 H2].
    destruct Hn. by repeat split; [..|exists id, (CBC c)].
  - destruct (decide (Clocks.tolerated ev)) as [|Hd]; [by left|right]. destruct (Ht Hd) as [H1 H2].
    destruct (members c !! evCfgName ev) as [bc|] eqn:E; [|done].
    destruct Hn. repeat split; [done..|]. exists id, (CHA c). rewrite E. by split; [|eexists].
Qed.

Lemma missing_panics env ev m : mgr_ok m -> dropped ev m = false -> offset_missing ev m -> ProcessEvent env ev m = None.
Proof.
  intros Hok Hdrop (Hr & Hs & (d & Ed & El & Eo) & id & c & Hc & Hm).
  assert (is_os_event ev = false) as Hos by (unfold is_os_event; by rewrite Ed).
  assert (handleOSClockEvent env ev m = Some (false, m, [])) as Eh.
  { assert (wp (handleOSClockEvent env ev) m (fun b m' e => b = false /\ m' = m /\ e = [])) as (b & m' & e & E & -> & -> & ->).
    { apply handleOS_wp; [done|done|]. by rewrite Hos. }
    exact E. }
  unfold dropped in Hdrop. rewrite Hr, Hos, Hc in Hdrop. cbn [negb andb] in Hdrop.
  destruct (GetClock_good _ m id c Hok Hc) as [Ec _].
  assert (Clock.AddEvent env (osState (osClock m)) ev (announceSeq m, c) = None) as Ea.
  { apply Clocks.any_AddEvent_panics. unfold Clocks.any_accepts, Clocks.tolerated, BC.usable. rewrite Ed.
    destruct c as [c|c|c|c]; try done.
    - intros [?|[?|?]]; congruence.
    - intros [[?|[?|?]]|E]; try congruence. rewrite E in Hm. by destruct Hm. }
  unfold ProcessEvent. rewrite Hr. apply bind_none_at with (1 := Eh).
  apply bind_none_at with (b := m) (s' := m) (e := []); [done|]. rewrite Hc, Hdrop.
  assert (exists e, printLog env ev m = Some (tt, m, e)) as [e Ep].
  { unfold printLog, when. destruct (evWriteToLog ev && _); eexists; reflexivity. }
  apply bind_none_at with (1 := Ep). apply bind_none. left. unfold on_clock. by rewrite Ec, Ea.
Qed.

(** C7. The node-wide OS-clock state.  Every event that is not dropped is handled: it
    panics if it is a DPLL event whose offset is missing for the clock that gets it, and
    only then.  Otherwise, while every clock is in a state the code knows, the reported
    state is afterwards the worst of the states of all clocks and of the OS clock
    (unchanged while that is undetermined), and exactly one message announces it when it
    has changed, none otherwise; a reset forgets it silently. *)
Theorem node_state_reported env ev (m : ClockManager AnyClock) :
  mgr_ok m -> dropped ev m = false ->
  (offset_missing ev m -> ProcessEvent env ev m = None) /\
  (~ offset_missing ev m -> wp (ProcessEvent env ev) m (fun _ m' e => mgr_ok m' /\
    if evReset ev then osE3State (osClock m') = PTP_NOTSET /\ sent TypeOSClockState e = []
    else Forall (fun s => ~ other_state s) (clock_states m') ->
      osE3State (osClock m') =
        (if str_eqb (node_state m') PTP_NOTSET then osE3State (osClock m) else node_state m') /\
      sent TypeOSClockState e =
        (if str_eqb (node_state m') PTP_NOTSET || str_eqb (node_state m') (osE3State (osClock m)) then []
         else [message TypeOSClockState "" (osIFace (osClock m'))
                 (StateValue (PtpStateToIPCState (node_state m')) (osOffset (osClock m')))]))).
Proof.
  intros Hok Hd. split; [by apply missing_panics|]. intros Hn.
  eapply wp_mono; [apply ProcessEvent_processed; [done|by apply not_missing_acceptable|done]|].
  intros u m' e [H1 _ _ H2 _].
  split; [done|]. destruct (evReset ev); [done|]. intros Hs. rewrite <- (derived_node_state _ Hs).
  by destruct H2.
Qed.


(** ** Witnesses: a manager with a boundary clock *)

Definition ex_env : Env :=
  mkEnv 1000 1000000 37 1 (fun _ => None) (fun _ _ => true) [] ["ptp4l.0.config"; "ts2phc.0.config"] "now" (fun s => s).

Definition ex_clock : AnyClock := CBC (BC.NewBC "ptp4l.0.config" false (mkThreshold 100 (-100) 5)).

Definition ex_init : ClockManager AnyClock := Init ex_env "node" true true true (Some (NewCache 10)) 0.
Definition ex_mgr : ClockManager AnyClock := AddClock ex_env ex_clock ex_init.

Definition ex_offset (source : EventSource) (cfg iface : string) (o : Z) : Event :=
  mkEvent source iface cfg BC_type 5 false false (Some (EOffset (mkOffsetData PTP_LOCKED o false None))).

Definition ex_ptp4l : Event := ex_offset PTP4l "ptp4l.0.config" "ens1f0" 3.
Definition ex_phc2sys : Event := ex_offset PHC2SYS "ptp4l.0.config" ClockRealTime 7.

Lemma mgr_ex_reach : reach ex_mgr.
Proof. apply reach_add; [apply reach_init|]. by repeat constructor. Qed.

Lemma ex_acceptable ev : lookupName ev = "ptp4l.0.config" -> BC.usable ev -> acceptable ev ex_mgr.
Proof. intros E Hu id c. rewrite E. intros [= <- <-]. by right. Qed.

(** A DPLL event of a present source, with and without its offset. *)
Definition ex_dpll (offset : option Z) : Event :=
  mkEvent DPLL "ens1f0" "ptp4l.0.config" BC_type 5 false false
    (Some (EDPLL (mkDPLLData PTP_LOCKED false false false true offset None None 1 10 2 1500 1500 false))).

Lemma ex_missing o : offset_missing (ex_dpll o) ex_mgr <-> o = None.
Proof.
  split.
  - intros (_ & _ & (d & [= <-] & _ & E) & _). exact E.
  - intros ->. split; [done|]. split; [done|]. split; [by eexists|]. by exists 0%nat, ex_clock.
Qed.

Lemma node_state_reported_witness :
  ProcessEvent ex_env (ex_dpll None) ex_mgr = None /\
  exists u m' e, ProcessEvent ex_env (ex_dpll (Some 3)) ex_mgr = Some (u, m', e) /\ mgr_ok m'.
Proof.
  split.
  - apply (node_state_reported ex_env (ex_dpll None) ex_mgr); [apply mgr_reach_inv, mgr_ex_reach|vm_compute; reflexivity|].
    by apply ex_missing.
  - destruct (node_state_reported ex_env (ex_dpll (Some 3)) ex_mgr) as [_ H];
      [apply mgr_reach_inv, mgr_ex_reach|vm_compute; reflexivity|].
    destruct H as (u & m' & e & E & Hok & _); [by intros [=]%ex_missing|].
    exists u, m', e. split; [exact E|exact Hok].
Defined.

Lemma manager_drops_witness :
  ProcessEvent ex_env (ex_offset PTP4l "ptp4l.7.config" "ens1f0" 3) ex_mgr = Some (tt, ex_mgr, []).
Proof.
  apply (manager_drops ex_env (ex_offset PTP4l "ptp4l.7.config" "ens1f0" 3) ex_mgr).
  - apply mgr_reach_inv, mgr_ex_reach.
  - vm_compute. reflexivity.
Defined.

Lemma os_samples_isolated_witness :
  exists u m' e, ProcessEvent ex_env ex_phc2sys ex_mgr = Some (u, m', e) /\ clocks m' = clocks ex_mgr.
Proof.
  destruct (os_samples_isolated ex_env ex_phc2sys ex_mgr) as (u & m' & e & E & _ & Hc & _).
  - apply mgr_reach_inv, mgr_ex_reach.
  - reflexivity.
  - reflexivity.
  - exists u, m', e. split; [exact E|exact Hc].
Defined.

Lemma snapshot_always_current_witness :
  exists u m' e order, ProcessEvent ex_env ex_ptp4l ex_mgr = Some (u, m', e) /\ statsUpdates m' = Some (current order m').
Proof.
  destruct (snapshot_always_current ex_mgr ex_env ex_ptp4l mgr_ex_reach) as [_ H].
  destruct H as (u & m' & e & E & order & Hs).
  - apply ex_acceptable; [reflexivity|exact I].
  - vm_compute. reflexivity.
  - exists u, m', e, order. split; [exact E|exact Hs].
Defined.

Lemma updateMetrics_exports_witness :
  gauges (updateMetrics (fun s => s) ex_ptp4l ex_mgr) !!
    (OffsetGauge, [("from", PTP4l); ("node", "node"); ("process", PTP4l); ("iface", "ens1f0")]) = Some (f64_of_Z 3).
Proof.
  apply (updateMetrics_exports (fun s => s) ex_ptp4l ex_mgr [(OFFSET, AnyInt64 3)]) with (ty := OFFSET) (v := AnyInt64 3) (x := f64_of_Z 3).
  - apply map_Forall_empty.
  - reflexivity.
  - reflexivity.
  - apply list_elem_of_here.
  - reflexivity.
Defined.

(** Two configurations whose interfaces have one alias share a series: deleting the metrics
    of one deletes the series of the other, which keeps its cache entry. *)
Definition ex_shared : ClockManager AnyClock :=
  updateMetrics (fun _ => "ens1fx") (ex_offset PTP4l "ptp4l.1.config" "ens1f1" 4)
    (updateMetrics (fun _ => "ens1fx") ex_ptp4l ex_mgr).

Lemma shared_series_deleted :
  let key := mkMetricKey "ptp4l.1.config" PTP4l "ens1fx" OFFSET in
  let labels := [("from", PTP4l); ("node", "node"); ("process", PTP4l); ("iface", "ens1fx")] in
  gauges ex_shared !! (OffsetGauge, labels) = Some (f64_of_Z 4) /\
  let m := unregisterMetrics "ptp4l.0.config" "" ex_shared in
  metricCache m !! key = Some (mkMetricEntry OffsetGauge labels) /\ gauges m !! (OffsetGauge, labels) = None.
Proof. vm_compute. repeat split. Qed.

End Mgr.
