(* ===== verification/Dpll.v ===== *)
(** * pkg/dpll: the DPLL of a network card

    pkg/dpll/dpll.go watches one digital phase-locked loop: netlink notifications
    update the lock status of its frequency (eec) and phase (pps) halves and the phase
    offset of the pin in use; [stateDecision] turns them into a PTP state and an
    event; when the hardware enters holdover a goroutine extrapolates the offset along
    a slope until it leaves the specification, the timeout expires or it is told to
    close.

    [DpllConfig] is the struct; its methods that touch only the struct are functions
    on it.  [Sys] adds what the methods share with the goroutines they start: the
    channels made for [holdoverCloseCh], the holdover goroutines, the monitoring
    goroutines and the events delivered so far.  [step] interleaves the operations:
    an update holds the lock from [nlUpdateState] to the end of [sendDpllEvent], in
    two steps, because a holdover goroutine runs without the lock between the
    non-blocking send to it and the event; the body of one case of the holdover
    goroutine's [select] is one step.  A monitoring goroutine takes one step for each
    access to the shared state: the end of [MonitorDpllNetlink] holds no lock, so an
    update can come between any two of its reads and writes, and so can a [Start]
    between the last state and the report "down".  [None] is a panic.

    Not modelled: the dialling and redialling of netlink, whose messages are the
    arguments of [StApply]; log lines, among them [GetDpllStatusHR], whose JSON
    encoding of a finite temperature and strings cannot fail. *)

From S2P Require Import Prelude Float64 Strconv Event Process.

Module Dpll.

Import Process.

(** ** Constants *)

Definition DPLL_UNKNOWN : Z := -1.
Definition DPLL_INVALID : Z := 0.
Definition DPLL_FREERUN : Z := 1.
Definition DPLL_LOCKED : Z := 2.
Definition DPLL_LOCKED_HO_ACQ : Z := 3.
Definition DPLL_HOLDOVER : Z := 4.

Definition LocalMaxHoldoverOffSet : Z := 1500.
Definition LocalHoldoverTimeout : Z := 14400.
Definition MaxInSpecOffset : Z := 1500.
Definition LocalMaxHoldoverOffSetStr : string := "LocalMaxHoldoverOffSet".
Definition LocalHoldoverTimeoutStr : string := "LocalHoldoverTimeout".
Definition MaxInSpecOffsetStr : string := "MaxInSpecOffset".
Definition FaultyPhaseOffset : Z := 99999999999.

Definition FlagNoPhaseOffset : Z := 1.
Definition FlagNoPhaseStatus : Z := 2.
Definition FlagNoFreqencyStatus : Z := 4.

(** ** pkg/dpll-netlink: the fields the code reads *)

Definition DpllPhaseOffsetDivider : Z := 1000.
Definition PinStateConnected : Z := 1.
Definition PinOperstateActive : Z := 1.
Definition PinDirectionInput : Z := 1.
Definition DpllTypePPS : Z := 1.
Definition DpllTypeEEC : Z := 2.

Definition GetDpllType (tp : Z) : string :=
  if tp =? DpllTypePPS then "pps" else if tp =? DpllTypeEEC then "eec" else "unknown".

Record DoDeviceGetReply := mkReply { rpID : Z; rpLockStatus : Z; rpClockID : Z; rpType : Z }.

Record PinParentDevice := mkParent {
  ppParentID : Z; ppDirection : Z; ppState : Z; ppPhaseOffset : Z; ppOperstate : Z
}.

Record PinInfo := mkPin { piClockID : Z; piParentDevice : list PinParentDevice }.

(** ** The state *)

Inductive dpllApiType := NETLINK | MOCK | NONE.

Record DpllConfig := mkDpllConfig {
  dcLocalMaxHoldoverOffSet : Z;
  dcLocalHoldoverTimeout : Z;
  dcMaxInSpecOffset : Z;
  dcIface : string;
  dcSlope : f64;
  dcTimer : Z;
  dcInSpec : bool;
  dcFrequencyTraceable : bool;
  dcState : PTPState;
  dcProcessState : State;
  dcOnHoldover : bool;
  dcClosing : bool;
  dcSourceLost : bool;
  dcConfigName : string;
  dcClockType : ClockType;
  dcEventChannel : bool;             (* processConfig.EventChannel != nil *)
  dcDependsOn : list EventSource;
  dcStopCh : option bool;            (* nil, or made: is it closed? *)
  dcHoldoverCloseCh : option nat;    (* nil, or the index of a channel of [Sys] *)
  dcApiType : dpllApiType;
  dcPhaseStatus : Z;
  dcFrequencyStatus : Z;
  dcPhaseOffset : Z;
  dcClockId : Z;
  dcInSyncConditionThreshold : Z;
  dcInSyncConditionTimes : Z;
  dcFlags : Z;
  dcDevices : list DoDeviceGetReply
}.

#[export] Instance DpllConfig_fields : Fields DpllConfig := fun d =>
  mkDpllConfig (dcLocalMaxHoldoverOffSet d) (dcLocalHoldoverTimeout d) (dcMaxInSpecOffset d)
    (dcIface d) (dcSlope d) (dcTimer d) (dcInSpec d) (dcFrequencyTraceable d) (dcState d)
    (dcProcessState d) (dcOnHoldover d) (dcClosing d) (dcSourceLost d) (dcConfigName d)
    (dcClockType d) (dcEventChannel d) (dcDependsOn d) (dcStopCh d) (dcHoldoverCloseCh d)
    (dcApiType d) (dcPhaseStatus d) (dcFrequencyStatus d) (dcPhaseOffset d) (dcClockId d)
    (dcInSyncConditionThreshold d) (dcInSyncConditionTimes d) (dcFlags d) (dcDevices d).

(** ** Methods of [DpllConfig] *)

Definition hasFlag (flag : Z) (d : DpllConfig) : bool := Z.land (dcFlags d) flag =? flag.

(** [d.dependsOn[0]]: out of range on an empty list. *)
Definition source0 (d : DpllConfig) : option EventSource := head (dcDependsOn d).

Definition hasGNSSAsSource (d : DpllConfig) : option bool := str_eqb GNSS <$> source0 d.
Definition hasPPSAsSource (d : DpllConfig) : option bool := str_eqb PPS <$> source0 d.
Definition hasPTPAsSource (d : DpllConfig) : option bool := str_eqb PTP4l <$> source0 d.

Definition hasLeadingSource (d : DpllConfig) : option bool :=
  ptp ← hasPTPAsSource d;
  if (ptp : bool) then Some true else hasGNSSAsSource d.

(** [netlinkPresent] is the answer of [isNetLinkPresent]. *)
Definition NewDpll (clockId localMaxHoldoverOffSet localHoldoverTimeout maxInSpecOffset : Z) (iface : string)
    (dependsOn : list EventSource) (apiType : dpllApiType) (netlinkPresent : bool)
    (inSyncConditionTh inSyncConditionTimes dpllFlags : Z)
    (configName : string) (clockType : ClockType) (eventChannel : bool) : DpllConfig :=
  let slope := f64_div (f64_of_Z localMaxHoldoverOffSet) (f64_of_Z localHoldoverTimeout) in
  mkDpllConfig localMaxHoldoverOffSet localHoldoverTimeout maxInSpecOffset iface slope
    (f64_to_int64 (f64_round (f64_div (f64_of_Z maxInSpecOffset) slope)))
    false false PTP_FREERUN Created false false false configName clockType eventChannel dependsOn
    None None
    (match apiType with MOCK => MOCK | _ => if netlinkPresent then NETLINK else NONE end)
    0 0 FaultyPhaseOffset clockId inSyncConditionTh inSyncConditionTimes dpllFlags [].

(** Picoseconds with three decimal digits, to nanoseconds. *)
Definition ns_of_phase_offset (phaseOffset : Z) : Z :=
  f64_to_int64 (f64_round (f64_of_Z (Z.quot (Z.quot phaseOffset DpllPhaseOffsetDivider) 1000))).

Definition SetPhaseOffset (phaseOffset : Z) (d : DpllConfig) : DpllConfig :=
  d <| dcPhaseOffset := ns_of_phase_offset phaseOffset |>.

(** A parent the pin feeds: connected or active, and an input. *)
Definition parent_active (p : PinParentDevice) : bool :=
  negb ((negb (ppState p =? PinStateConnected) && negb (ppOperstate p =? PinOperstateActive))
        || negb (ppDirection p =? PinDirectionInput)).

Definition is_pps_device (clockId parentID : Z) (dev : DoDeviceGetReply) : bool :=
  (rpID dev =? parentID) && (rpClockID dev =? clockId) && str_eqb (GetDpllType (rpType dev)) "pps".

Fixpoint active_parent (d : DpllConfig) (i : nat) (ps : list PinParentDevice) : Z * bool :=
  match ps with
  | [] => (-1, false)
  | p :: ps' =>
      if parent_active p && existsb (is_pps_device (dcClockId d) (ppParentID p)) (dcDevices d)
      then (Z.of_nat i, true) else active_parent d (S i) ps'
  end.

Definition ActivePhaseOffsetPin (pin : PinInfo) (d : DpllConfig) : Z * bool :=
  if negb (piClockID pin =? dcClockId d) then (-1, false) else active_parent d 0 (piParentDevice pin).

Definition nlUpdateDevice (reply : DoDeviceGetReply) (vd : bool * DpllConfig) : bool * DpllConfig :=
  let '(valid, d) := vd in
  if negb (rpClockID reply =? dcClockId d) then (valid, d)
  else if rpLockStatus reply =? DPLL_INVALID then (valid, d)
  else if str_eqb (GetDpllType (rpType reply)) "eec" then (true, d <| dcFrequencyStatus := rpLockStatus reply |>)
  else if str_eqb (GetDpllType (rpType reply)) "pps" then (true, d <| dcPhaseStatus := rpLockStatus reply |>)
  else (valid, d).

Definition nlUpdatePin (pin : PinInfo) (vd : bool * DpllConfig) : option (bool * DpllConfig) :=
  let '(valid, d) := vd in
  let '(index, ok) := ActivePhaseOffsetPin pin d in
  if (ok : bool) then
    p ← piParentDevice pin !! Z.to_nat index;
    Some (true, SetPhaseOffset (ppPhaseOffset p) d)
  else Some (valid, d).

Fixpoint nlUpdatePins (pins : list PinInfo) (vd : bool * DpllConfig) : option (bool * DpllConfig) :=
  match pins with
  | [] => Some vd
  | pin :: pins' => vd' ← nlUpdatePin pin vd; nlUpdatePins pins' vd'
  end.

Definition nlUpdateState (devices : list DoDeviceGetReply) (pins : list PinInfo) (d : DpllConfig)
    : option (bool * DpllConfig) :=
  nlUpdatePins pins (foldl (fun vd r => nlUpdateDevice r vd) (false, d) devices).

(** A key the table lacks reads as 0. *)
Definition getStateQuality (state : Z) : Z :=
  if state =? DPLL_UNKNOWN then -1
  else if state =? DPLL_INVALID then 0
  else if state =? DPLL_FREERUN then 1
  else if state =? DPLL_HOLDOVER then 2
  else if state =? DPLL_LOCKED then 3
  else if state =? DPLL_LOCKED_HO_ACQ then 4
  else 0.

Definition getWorseState (pstate fstate : Z) : Z :=
  if getStateQuality pstate <? getStateQuality fstate then pstate else fstate.

Definition getDpllState (d : DpllConfig) : option Z :=
  ptp ← hasPTPAsSource d;
  pps ← hasPPSAsSource d;
  Some (if (ptp || pps)%bool then dcPhaseStatus d
        else if hasFlag FlagNoPhaseStatus d then dcFrequencyStatus d
        else if hasFlag FlagNoFreqencyStatus d then dcPhaseStatus d
        else getWorseState (dcPhaseStatus d) (dcFrequencyStatus d)).

Definition isMaxHoldoverOffsetInRange (d : DpllConfig) : bool :=
  hasFlag FlagNoPhaseOffset d || (dcPhaseOffset d <=? int64 (dcLocalMaxHoldoverOffSet d)).

Definition isInSpecOffsetInRange (d : DpllConfig) : bool :=
  hasFlag FlagNoPhaseOffset d || (dcPhaseOffset d <=? int64 (dcMaxInSpecOffset d)).

Definition isOffsetInRange (d : DpllConfig) : bool :=
  hasFlag FlagNoPhaseOffset d
  || f64_leb (f64_abs (f64_of_Z (dcPhaseOffset d))) (f64_of_Z (dcLocalMaxHoldoverOffSet d)).

(** [math.Abs(float64(d.PhaseOffset())) > float64(d.LocalMaxHoldoverOffSet)]. *)
Definition beyondMaxHoldover (d : DpllConfig) : bool :=
  f64_gtb (f64_abs (f64_of_Z (dcPhaseOffset d))) (f64_of_Z (dcLocalMaxHoldoverOffSet d)).

(** The state assigned together with the faulty offset. *)
Definition freerun (d : DpllConfig) : DpllConfig :=
  d <| dcState := PTP_FREERUN |> <| dcPhaseOffset := FaultyPhaseOffset |>.

Definition dpllEvent (now : Z) (leading : bool) (d : DpllConfig) : Event :=
  mkEvent DPLL (dcIface d) (dcConfigName d) (dcClockType d) now true false
    (Some (EDPLL (mkDPLLData
      (dcState d) (negb (dcInSpec d)) (dcSourceLost d) (dcFrequencyTraceable d) leading
      (if hasFlag FlagNoPhaseOffset d then None else Some (dcPhaseOffset d))
      (if hasFlag FlagNoPhaseStatus d then None else Some (dcPhaseStatus d))
      (if hasFlag FlagNoFreqencyStatus d then None else Some (dcFrequencyStatus d))
      (if dcSourceLost d then 0 else 1)
      (dcInSyncConditionThreshold d) (dcInSyncConditionTimes d)
      (dcLocalMaxHoldoverOffSet d) (dcMaxInSpecOffset d) (dcLocalHoldoverTimeout d =? 0)))).

(** ** The struct with its goroutines *)

(** A holdover goroutine: started; blocked in its [select] on the channel it read
    from the struct; past the [select] on its ticker, its timeout or the channel;
    in its deferred function. *)
Inductive Holdover :=
| HSpawned
| HSelect (ch : option nat)
| HTick (elapsed : f64)
| HTimeout
| HClosed
| HDeferred.

(** A monitoring goroutine: started by [run]; marked Running, its report "up" not yet
    sent; in [MonitorDpll]; at the end of [MonitorDpllNetlink], which holds no lock: past
    the reset event, with [onHoldover] read as set, the channel closed, the flag
    cleared; in the deferred function, the state read, the state set. *)
Inductive Monitor :=
| MSpawned
| MUp
| MRunning
| MFound
| MClose
| MClosed
| MCleared
| MExiting
| MLeaving (stopping : bool)
| MDown.

(** The steps that take the lock. *)
Definition locks (m : Monitor) : bool :=
  match m with MSpawned | MExiting | MLeaving _ => true | _ => false end.

(** A goroutine that sets the process state later. *)
Definition active (m : Monitor) : bool := match m with MDown => false | _ => true end.

Record Sys := mkSys {
  syDpll : DpllConfig;
  syChans : list bool;               (* channels made for holdoverCloseCh: closed? *)
  syHoldovers : list Holdover;
  syMonitors : list Monitor;
  syDeciding : bool;                 (* an update holds the lock, its event not yet sent *)
  syEvents : list Event              (* delivered events, in order *)
}.

#[export] Instance Sys_fields : Fields Sys := fun s =>
  mkSys (syDpll s) (syChans s) (syHoldovers s) (syMonitors s) (syDeciding s) (syEvents s).

Definition on_dpll (f : DpllConfig -> DpllConfig) (s : Sys) : Sys := s <| syDpll := f (syDpll s) |>.

Definition initial (d : DpllConfig) : Sys := mkSys d [] [] [] false [].

(** The first goroutine blocked on channel [c] receives. *)
Fixpoint receive (c : nat) (hs : list Holdover) : list Holdover :=
  match hs with
  | [] => []
  | HSelect (Some c') :: hs' => if bool_decide (c' = c) then HClosed :: hs' else HSelect (Some c') :: receive c hs'
  | h :: hs' => h :: receive c hs'
  end.

(** [select { case d.holdoverCloseCh <- true: default: }] on an unbuffered channel: it
    never proceeds on a nil channel, panics on a closed one, and is lost when no
    goroutine is blocked on the channel. *)
Definition trySend (s : Sys) : option Sys :=
  match dcHoldoverCloseCh (syDpll s) with
  | None => Some s
  | Some c =>
      closed ← syChans s !! c;
      if (closed : bool) then None else Some (s <| syHoldovers := receive c (syHoldovers s) |>)
  end.

Definition trySendIf (b : bool) (s : Sys) : option Sys := if b then trySend s else Some s.

(** A delivered or dropped send to the event channel. *)
Definition deliver (accepted : bool) (e : Event) (s : Sys) : Sys :=
  if accepted then s <| syEvents := syEvents s ++ [e] |> else s.

Definition sendDpllEvent (now : Z) (accepted : bool) (s : Sys) : option Sys :=
  if negb (dcEventChannel (syDpll s)) then Some s
  else
    leading ← hasLeadingSource (syDpll s);
    Some (deliver accepted (dpllEvent now leading (syDpll s)) s).

(** The switch of [stateDecision]. *)
Definition decideFreerun (leading : bool) (s : Sys) : option Sys :=
  let s1 := on_dpll (fun d => d <| dcInSpec := false |> <| dcSourceLost := true |>) s in
  s2 ← trySendIf (leading && dcOnHoldover (syDpll s1)) s1;
  Some (on_dpll freerun s2).

Definition startHoldover (s : Sys) : Sys :=
  (on_dpll (fun d => d <| dcHoldoverCloseCh := Some (length (syChans s)) |> <| dcOnHoldover := true |>
                       <| dcState := PTP_HOLDOVER |>) s)
    <| syChans := syChans s ++ [false] |>
    <| syHoldovers := syHoldovers s ++ [HSpawned] |>.

Definition decideHoldover (leading ptp : bool) (s : Sys) : option Sys :=
  let d := syDpll s in
  if negb leading then Some (on_dpll freerun s)
  else if negb (dcInSpec d) || (ptp && beyondMaxHoldover d) then
    trySend (on_dpll (fun d => (freerun d) <| dcSourceLost := true |>) s)
  else if negb (dcOnHoldover d) && negb (dcClosing d) then Some (startHoldover s)
  else Some s.

Definition decideLocked (leading : bool) (s : Sys) : option Sys :=
  if isOffsetInRange (syDpll s) then
    s1 ← trySendIf (leading && dcOnHoldover (syDpll s)) s;
    Some (on_dpll (fun d => d <| dcInSpec := true |> <| dcSourceLost := false |> <| dcState := PTP_LOCKED |>) s1)
  else trySend (on_dpll (fun d => (freerun d) <| dcInSpec := false |>) s).

Definition decide (s : Sys) : option Sys :=
  status ← getDpllState (syDpll s);
  ptp ← hasPTPAsSource (syDpll s);
  leading ← hasLeadingSource (syDpll s);
  if ((status =? DPLL_FREERUN) || (status =? DPLL_INVALID) || (status =? DPLL_UNKNOWN))%bool then decideFreerun leading s
  else if status =? DPLL_HOLDOVER then decideHoldover leading ptp s
  else if ((status =? DPLL_LOCKED_HO_ACQ) || (status =? DPLL_LOCKED))%bool then decideLocked leading s
  else Some s.

(** [stateDecision], undisturbed: the switch, then the event. *)
Definition stateDecision (now : Z) (accepted : bool) (s : Sys) : option Sys :=
  s' ← decide s; sendDpllEvent now accepted s'.

Definition applyStateUpdate (devices : list DoDeviceGetReply) (pins : list PinInfo) (s : Sys) : option Sys :=
  vd ← nlUpdateState devices pins (syDpll s);
  let s1 := on_dpll (fun _ => vd.2) s in
  if (vd.1 : bool) then s2 ← decide s1; Some (s2 <| syDeciding := true |>) else Some s1.

(** ** The holdover goroutine *)

(** The body of the ticker's case: the new state, and whether the goroutine returns. *)
Definition holdoverTick (elapsed : f64) (d : DpllConfig) : option (bool * DpllConfig) :=
  let d := d <| dcPhaseOffset := f64_to_int64 (f64_round (f64_mul (dcSlope d) elapsed)) |> in
  gnss ← hasGNSSAsSource d;
  if (gnss : bool) then
    if negb (dcFrequencyTraceable d) && negb (isInSpecOffsetInRange d)
    then Some (true, freerun (d <| dcInSpec := false |>))
    else Some (false, d)
  else
    let d := if isInSpecOffsetInRange d then d else d <| dcInSpec := false |> in
    Some (false, d <| dcState := PTP_HOLDOVER |>).

Definition holdoverTimeout (d : DpllConfig) : DpllConfig := freerun (d <| dcInSpec := false |>).

Definition set_holdover (i : nat) (h : Holdover) (s : Sys) : Sys :=
  s <| syHoldovers := <[i := h]> (syHoldovers s) |>.

Definition remove_nth {A} (i : nat) (l : list A) : list A := take i l ++ drop (S i) l.

(** One step of goroutine [i], in state [h]; [event] is what happens first in the
    [select]: a tick, the timeout or a receive from a closed channel. *)
Inductive Select := OnTick (elapsed : f64) | OnTimeout | OnClose.

Definition select (e : Select) (ch : option nat) (s : Sys) : option Holdover :=
  match e with
  | OnTick elapsed => Some (HTick elapsed)
  | OnTimeout => Some HTimeout
  | OnClose =>
      c ← ch; closed ← syChans s !! c;
      if (closed : bool) then Some HClosed else None
  end.

Definition runHoldover (i : nat) (now : Z) (accepted : bool) (h : Holdover) (s : Sys) : option Sys :=
  match h with
  | HSpawned =>
      s' ← sendDpllEvent now accepted s;
      Some (set_holdover i (HSelect (dcHoldoverCloseCh (syDpll s'))) s')
  | HSelect _ => Some s
  | HTick elapsed =>
      r ← holdoverTick elapsed (syDpll s);
      s' ← sendDpllEvent now accepted (on_dpll (fun _ => r.2) s);
      Some (set_holdover i (if (r.1 : bool) then HDeferred else HSelect (dcHoldoverCloseCh (syDpll s'))) s')
  | HTimeout =>
      s' ← sendDpllEvent now accepted (on_dpll holdoverTimeout s);
      Some (set_holdover i HDeferred s')
  | HClosed => Some (set_holdover i HDeferred (on_dpll (fun d => d <| dcInSpec := true |>) s))
  | HDeferred =>
      s' ← sendDpllEvent now accepted (on_dpll (fun d => d <| dcOnHoldover := false |>) s);
      Some (s' <| syHoldovers := remove_nth i (syHoldovers s') |>)
  end.

(** ** Lifecycle *)

Definition setProcessState (st : State) (d : DpllConfig) : DpllConfig := d <| dcProcessState := st |>.

(** The result is the error of the Go method. *)
Definition Start (s : Sys) : option string * Sys :=
  match dcProcessState (syDpll s) with
  | Starting | Running => (None, s)
  | Stopping => (Some "dpll is stopping"%string, s)
  | _ =>
      (None, (on_dpll (fun d => d <| dcStopCh := Some false |> <| dcProcessState := Starting |>) s)
               <| syMonitors := syMonitors s ++ [MSpawned] |>)
  end.

(** Up to [wg.Wait()]. *)
Definition Stop (s : Sys) : option Sys :=
  match dcProcessState (syDpll s) with
  | Created | Stopping | Stopped | Dead => Some s
  | _ =>
      match dcStopCh (syDpll s) with
      | Some true => None
      | Some false => Some (on_dpll (fun d => d <| dcProcessState := Stopping |> <| dcStopCh := Some true |>) s)
      | None => Some (on_dpll (fun d => d <| dcProcessState := Stopping |>) s)
      end
  end.

(** A blocking send. *)
Definition emitProcessStatus (now status : Z) (s : Sys) : Sys :=
  let d := syDpll s in
  deliver (dcEventChannel d) (ProcessStatusEvent now DPLL (dcConfigName d) (dcClockType d) (dcIface d) status) s.

Definition resetEvent (now : Z) (d : DpllConfig) : Event :=
  mkEvent DPLL (dcIface d) (dcConfigName d) (dcClockType d) now false true None.

Definition set_monitor (i : nat) (m : Monitor) (s : Sys) : Sys :=
  s <| syMonitors := <[i := m]> (syMonitors s) |>.

(** [MonitorDpll] returns: at once without an API, once [stopCh] is closed with the
    mock; with netlink its loop ends then, and the reset event is sent if there is room. *)
Definition MonitorDpll (i : nat) (now : Z) (accepted : bool) (s : Sys) : Sys :=
  match dcApiType (syDpll s) with
  | NETLINK => set_monitor i MFound (deliver (accepted && dcEventChannel (syDpll s)) (resetEvent now (syDpll s)) s)
  | _ => set_monitor i MExiting s
  end.

Definition monitorReturns (d : DpllConfig) : bool :=
  match dcApiType d with
  | NONE => true
  | MOCK => negb (bool_decide (dcStopCh d = Some false))
  | NETLINK => bool_decide (dcStopCh d = Some true)
  end.

(** [close(d.holdoverCloseCh)]: a nil or closed channel panics. *)
Definition closeHoldover (s : Sys) : option Sys :=
  c ← dcHoldoverCloseCh (syDpll s);
  closed ← syChans s !! c;
  if (closed : bool) then None else Some (s <| syChans := <[c := true]> (syChans s) |>).

Definition runMonitor (i : nat) (now : Z) (accepted : bool) (m : Monitor) (s : Sys) : option Sys :=
  match m with
  | MSpawned => Some (set_monitor i MUp (on_dpll (setProcessState Running) s))
  | MUp => Some (set_monitor i MRunning (emitProcessStatus now 1 s))
  | MRunning => Some (MonitorDpll i now accepted s)
  | MFound => Some (set_monitor i (if dcOnHoldover (syDpll s) then MClose else MExiting) s)
  | MClose => set_monitor i MClosed <$> closeHoldover s
  | MClosed => Some (set_monitor i MCleared (on_dpll (fun d => d <| dcOnHoldover := false |>) s))
  | MCleared => Some (set_monitor i MExiting (on_dpll (fun d => d <| dcClosing := true |>) s))
  | MExiting => Some (set_monitor i (MLeaving (State_eqb (dcProcessState (syDpll s)) Stopping)) s)
  | MLeaving stopping =>
      Some (set_monitor i MDown (on_dpll (setProcessState (if stopping then Stopped else Dead)) s))
  | MDown =>
      let s' := emitProcessStatus now 0 s in
      Some (s' <| syMonitors := remove_nth i (syMonitors s') |>)
  end.

(** ** Interleaving *)

(** [None] is a panic, which ends the program. *)
Inductive step (s : Sys) : option Sys -> Prop :=
| StApply devices pins :
    syDeciding s = false -> step s (applyStateUpdate devices pins s)
| StDump replies : step s (Some (on_dpll (fun d => d <| dcDevices := replies |>) s))
| StEvent now accepted :
    syDeciding s = true -> step s (sendDpllEvent now accepted (s <| syDeciding := false |>))
| StSelect i e ch h :
    syHoldovers s !! i = Some (HSelect ch) -> select e ch s = Some h ->
    step s (Some (set_holdover i h s))
| StHoldover i h now accepted :
    syHoldovers s !! i = Some h -> (h = HDeferred -> syDeciding s = false) ->
    step s (runHoldover i now accepted h s)
| StStart : syDeciding s = false -> step s (Some (Start s).2)
| StStop : syDeciding s = false -> step s (Stop s)
| StMonitor i m now accepted :
    syMonitors s !! i = Some m -> (m = MRunning -> monitorReturns (syDpll s) = true) ->
    (locks m = true -> syDeciding s = false) ->
    step s (runMonitor i now accepted m s).

Inductive reachable (d : DpllConfig) : Sys -> Prop :=
| reachable_init : reachable d (initial d)
| reachable_step s s' : reachable d s -> step s (Some s') -> reachable d s'.

(** ** The parameters of the profile *)

Definition applySetting (kv : string * string) (acc : Z * Z * Z) : Z * Z * Z :=
  let '(maxHo, timeout, inSpec) := acc in
  let '(k, v) := kv in
  let '(i, ok) := ParseUint v 10 64 in
  if negb ok then acc
  else (if str_eqb k LocalMaxHoldoverOffSetStr then i else maxHo,
        if str_eqb k LocalHoldoverTimeoutStr then i else timeout,
        if str_eqb k MaxInSpecOffsetStr then i else inSpec).

(** [settings] is the profile's map in the order the iteration visits it. *)
Definition CalculateTimer (settings : list (string * string)) : Z * Z * Z * Z * bool :=
  let '(maxHo, timeout, inSpec) :=
    foldl (fun acc kv => applySetting kv acc) (LocalMaxHoldoverOffSet, LocalHoldoverTimeout, MaxInSpecOffset) settings in
  let slope := f64_div (f64_of_Z maxHo) (f64_of_Z timeout) in
  let inSpecTimer := f64_to_int64 (f64_round (f64_div (f64_of_Z inSpec) slope)) in
  (int64 inSpec, int64 maxHo, int64 timeout, inSpecTimer, false).

(** A value [NewDpll] returns. *)
Definition created (d : DpllConfig) : Prop :=
  exists clockId maxHo timeout inSpec iface src api nl th times flags cfg ct ch,
    d = NewDpll clockId maxHo timeout inSpec iface src api nl th times flags cfg ct ch.

(** ** The invariant *)

(** The fields that govern the holdover goroutine. *)
Definition core (d : DpllConfig) : bool * bool * option nat * list EventSource :=
  (dcOnHoldover d, dcClosing d, dcHoldoverCloseCh d, dcDependsOn d).

(** What a state claims when it is published. *)
Record honest (d : DpllConfig) : Prop := {
  honest_locked : dcState d = PTP_LOCKED -> dcInSpec d = true /\ dcSourceLost d = false;
  honest_holdover : dcState d = PTP_HOLDOVER -> hasLeadingSource d = Some true
}.

(** What an event claims. *)
Definition event_honest (e : Event) : Prop :=
  match evData e with
  | Some (EDPLL dd) =>
      (ddState dd = PTP_LOCKED -> ddOutOfSpec dd = false /\ ddSourceLost dd = false /\ ddPPSStatus dd = 1)
      /\ (ddState dd = PTP_HOLDOVER -> ddLeadingSource dd = true)
  | _ => True
  end.

(** Neither has a stop ended a holdover for good nor is one about to: it has not
    cleared [onHoldover] with [closing] still to be set. *)
Definition calm (s : Sys) : Prop := dcClosing (syDpll s) = false /\ MCleared ∉ syMonitors s.

Definition open (s : Sys) : Prop :=
  exists c, dcHoldoverCloseCh (syDpll s) = Some c /\ syChans s !! c = Some false.

Record Inv (s : Sys) : Prop := {
  inv_two : (length (syHoldovers s) <= 2)%nat;
  inv_alive : dcOnHoldover (syDpll s) = true -> syHoldovers s <> [];
  inv_calm : calm s -> (length (syHoldovers s) <= if dcOnHoldover (syDpll s) then 1 else 0)%nat;
  inv_window : dcClosing (syDpll s) = false ->
    (length (syHoldovers s) <= if dcOnHoldover (syDpll s) then 2 else 1)%nat;
  inv_chan : dcOnHoldover (syDpll s) = true -> MClosed ∉ syMonitors s -> open s;
  inv_close : MClose ∈ syMonitors s -> open s;
  inv_made : forall c, dcHoldoverCloseCh (syDpll s) = Some c -> is_Some (syChans s !! c);
  inv_open : calm s -> MClosed ∉ syMonitors s -> Forall (eq false) (syChans s);
  inv_leading : syHoldovers s <> [] -> hasLeadingSource (syDpll s) = Some true;
  inv_honest : honest (syDpll s);
  inv_events : Forall event_honest (syEvents s)
}.

Lemma receive_length c hs : length (receive c hs) = length hs.
Proof. induction hs as [|[| [?|] | | | |] hs IH]; simpl; repeat case_match; simpl; congruence. Qed.

Lemma length_nil {A B} (l : list A) (l' : list B) : length l = length l' -> l = [] <-> l' = [].
Proof. destruct l, l'; simpl; split; congruence. Qed.

(** A step that keeps the number of goroutines, the channels, the monitors and the core. *)
Lemma Inv_frame s s' :
  Inv s -> length (syHoldovers s') = length (syHoldovers s) -> syChans s' = syChans s -> syMonitors s' = syMonitors s ->
  core (syDpll s') = core (syDpll s) -> honest (syDpll s') -> Forall event_honest (syEvents s') -> Inv s'.
Proof.
  intros [] HL HC HM [= E1 E2 E3 E4] Hh He. pose proof (length_nil _ _ HL).
  assert (hasLeadingSource (syDpll s') = hasLeadingSource (syDpll s)) as E5.
  { unfold hasLeadingSource, hasPTPAsSource, hasGNSSAsSource, source0. by rewrite E4. }
  unfold calm, open in *.
  split; unfold calm, open; rewrite ?HL, ?HC, ?HM, ?E1, ?E2, ?E3, ?E5; try done; naive_solver.
Qed.

Lemma trySend_spec s s' :
  trySend s = Some s' ->
  exists hs, s' = s <| syHoldovers := hs |> /\ length hs = length (syHoldovers s).
Proof.
  unfold trySend. destruct (dcHoldoverCloseCh _) as [c|].
  - destruct (syChans s !! c) as [[]|]; simpl; [done| |done]. intros [= <-].
    eexists. split; [done|]. apply receive_length.
  - intros [= <-]. exists (syHoldovers s). by destruct s.
Qed.

Lemma trySendIf_spec b s s' :
  trySendIf b s = Some s' ->
  exists hs, s' = s <| syHoldovers := hs |> /\ length hs = length (syHoldovers s).
Proof.
  destruct b; [apply trySend_spec|]. intros [= <-]. exists (syHoldovers s). by destruct s.
Qed.

Lemma honest_freerun d : dcState d = PTP_FREERUN -> honest d.
Proof. intros E. split; rewrite E; done. Qed.

(** The lock taken or released says nothing of the rest. *)
Lemma Inv_deciding b s : Inv s -> Inv (s <| syDeciding := b |>).
Proof. intros []; by split. Qed.

Lemma decideFreerun_Inv leading s s' : Inv s -> decideFreerun leading s = Some s' -> Inv s'.
Proof.
  unfold decideFreerun. intros HI H. destruct (trySendIf _ _) as [s2|] eqn:E; [|done].
  injection H as <-. apply trySendIf_spec in E as (hs & -> & HL).
  apply (Inv_frame s); try done; apply HI.
Qed.

Lemma startHoldover_Inv s :
  Inv s -> hasLeadingSource (syDpll s) = Some true ->
  dcOnHoldover (syDpll s) = false -> dcClosing (syDpll s) = false -> Inv (startHoldover s).
Proof.
  intros [] HL Ho Hc. rewrite Ho, Hc in *.
  assert (open (startHoldover s)) as Hop.
  { eexists. split; [done|]. simpl. by rewrite lookup_app_r, Nat.sub_diag by lia. }
  split; unfold calm in *; simpl; rewrite ?length_app; simpl; rewrite ?Hc; try done.
  - specialize (inv_window0 eq_refl). lia.
  - by destruct (syHoldovers s).
  - intros [_ Hq]. specialize (inv_calm0 (conj Hc Hq)). lia.
  - intros _. specialize (inv_window0 eq_refl). lia.
  - intros c [= <-]. rewrite lookup_app_r, Nat.sub_diag by lia. by eexists.
  - intros [_ Hq] Hm. apply Forall_app. split; [by apply inv_open0|by constructor].
Qed.

Lemma decideHoldover_Inv leading ptp s s' :
  Inv s -> hasLeadingSource (syDpll s) = Some leading -> decideHoldover leading ptp s = Some s' -> Inv s'.
Proof.
  unfold decideHoldover. intros HI HL H. destruct leading; simpl in H.
  - case_match eqn:E1.
    + apply trySend_spec in H as (hs & -> & Hlen).
      apply (Inv_frame s); try done; apply HI.
    + case_match eqn:E2; [|by injection H as <-]. injection H as <-.
      apply andb_true_iff in E2 as [?%negb_true_iff ?%negb_true_iff]. by apply startHoldover_Inv.
  - injection H as <-. apply (Inv_frame s); try done; apply HI.
Qed.

Lemma decideLocked_Inv leading s s' : Inv s -> decideLocked leading s = Some s' -> Inv s'.
Proof.
  unfold decideLocked. intros HI H. case_match eqn:E.
  - destruct (trySendIf _ _) as [s2|] eqn:E2; [|done]. injection H as <-.
    apply trySendIf_spec in E2 as (hs & -> & Hlen).
    apply (Inv_frame s); try done; apply HI.
  - apply trySend_spec in H as (hs & -> & Hlen).
    apply (Inv_frame s); try done; apply HI.
Qed.

Lemma decide_Inv s s' : Inv s -> decide s = Some s' -> Inv s'.
Proof.
  unfold decide. intros HI H.
  destruct (getDpllState _) as [status|]; [|done]. destruct (hasPTPAsSource _) as [ptp|]; [|done].
  destruct (hasLeadingSource _) as [leading|] eqn:EL; [|done]. simpl in H.
  repeat case_match; [by eapply decideFreerun_Inv|by eapply decideHoldover_Inv|by eapply decideLocked_Inv|].
  by injection H as <-.
Qed.

(** Nothing but what a notification carries changes in [nlUpdateState]. *)
Definition unobserved (d : DpllConfig) :
    bool * bool * option nat * list EventSource * (PTPState * bool * bool * Z) :=
  (core d, (dcState d, dcInSpec d, dcSourceLost d, dcClockId d)).

Lemma nlUpdateDevice_unobserved r vd : unobserved (nlUpdateDevice r vd).2 = unobserved vd.2.
Proof. destruct vd. unfold nlUpdateDevice. by repeat case_match. Qed.

Lemma nlUpdatePins_unobserved pins vd vd' :
  nlUpdatePins pins vd = Some vd' -> unobserved vd'.2 = unobserved vd.2.
Proof.
  revert vd. induction pins as [|pin pins IH]; simpl; intros vd H; [by injection H as <-|].
  destruct (nlUpdatePin pin vd) as [vd1|] eqn:E; [|done]. rewrite (IH _ H). clear IH H.
  unfold nlUpdatePin in E. destruct vd as [valid d]. destruct (ActivePhaseOffsetPin pin d) as [index []].
  - destruct (_ !! _); [|done]. by injection E as <-.
  - by injection E as <-.
Qed.

Lemma nlUpdateState_unobserved devices pins d vd :
  nlUpdateState devices pins d = Some vd -> unobserved vd.2 = unobserved d.
Proof.
  unfold nlUpdateState. intros H. rewrite (nlUpdatePins_unobserved _ _ _ H). clear H.
  change (unobserved d) with (unobserved (false, d).2). generalize (false, d).
  induction devices as [|r devices IH]; simpl; intros vd'; [done|].
  rewrite IH. apply nlUpdateDevice_unobserved.
Qed.

Lemma honest_same d d' :
  dcDependsOn d' = dcDependsOn d -> dcState d' = dcState d -> dcInSpec d' = dcInSpec d -> dcSourceLost d' = dcSourceLost d ->
  honest d -> honest d'.
Proof.
  intros E E1 E2 E3 [H1 H2].
  assert (hasLeadingSource d' = hasLeadingSource d) as E5.
  { unfold hasLeadingSource, hasPTPAsSource, hasGNSSAsSource, source0. by rewrite E. }
  split; rewrite ?E1, ?E2, ?E3, ?E5; done.
Qed.

Lemma applyStateUpdate_Inv devices pins s s' :
  Inv s -> applyStateUpdate devices pins s = Some s' -> Inv s'.
Proof.
  unfold applyStateUpdate. intros HI H.
  destruct (nlUpdateState _ _ _) as [[valid d]|] eqn:E; [|done].
  apply nlUpdateState_unobserved in E. simpl in E, H.
  assert (Inv (on_dpll (fun _ => d) s)) as HI'.
  { unfold unobserved in E. injection E as E1 E2 E3 E4 E5 E6 E7 E8.
    assert (core d = core (syDpll s)) as Ec by (unfold core; congruence).
    apply (Inv_frame s); try done; [|apply HI]. eapply honest_same; eauto. apply HI. }
  destruct valid; [|by injection H as <-].
  destruct (decide _) as [s2|] eqn:E2; [|done]. injection H as <-.
  by eapply Inv_deciding, decide_Inv.
Qed.

Lemma dpllEvent_honest now leading d :
  honest d -> hasLeadingSource d = Some leading -> event_honest (dpllEvent now leading d).
Proof.
  intros [H1 H2] HL. unfold event_honest, dpllEvent; simpl. split; intros E.
  - destruct (H1 E) as [-> ->]. done.
  - specialize (H2 E). congruence.
Qed.

(** An event leaves everything else alone. *)
Lemma sendDpllEvent_spec now accepted s s' :
  honest (syDpll s) -> Forall event_honest (syEvents s) -> sendDpllEvent now accepted s = Some s' ->
  exists es, s' = s <| syEvents := es |> /\ Forall event_honest es.
Proof.
  unfold sendDpllEvent, deliver. intros Hh He H.
  assert (exists es, s = s <| syEvents := es |> /\ Forall event_honest es) as Hsame.
  { exists (syEvents s). by destruct s. }
  destruct (negb _); [by injection H as <-|].
  destruct (hasLeadingSource _) as [leading|] eqn:E; [|done]. injection H as <-.
  destruct accepted; [|done]. eexists. split; [done|].
  apply Forall_app. split; [done|]. constructor; [|done]. by apply dpllEvent_honest.
Qed.

Lemma sendDpllEvent_Inv now accepted s s' : Inv s -> sendDpllEvent now accepted s = Some s' -> Inv s'.
Proof.
  intros HI H. apply sendDpllEvent_spec in H as (es & -> & He); [|apply HI..]. by apply (Inv_frame s); try apply HI.
Qed.

(** An event that is not of a DPLL claims nothing. *)
Lemma deliver_Inv accepted e s : Inv s -> event_honest e -> Inv (deliver accepted e s).
Proof.
  unfold deliver. destruct accepted; [|done]. intros HI He.
  apply (Inv_frame s); try apply HI; try done. simpl. apply Forall_app. split; [apply HI|by constructor].
Qed.

(** ** The goroutines preserve the invariant *)

Lemma set_holdover_Inv i h s : Inv s -> Inv (set_holdover i h s).
Proof. intros HI. apply (Inv_frame s); try apply HI; try done. simpl. by rewrite length_insert. Qed.

Lemma holdoverTick_Inv elapsed s r :
  Inv s -> syHoldovers s <> [] -> holdoverTick elapsed (syDpll s) = Some r -> Inv (on_dpll (fun _ => r.2) s).
Proof.
  unfold holdoverTick. intros HI Hne H. destruct (hasGNSSAsSource _) as [[]|]; [| |done]; simpl in H.
  - case_match; injection H as <-; apply (Inv_frame s); try apply HI; try done.
    by eapply honest_same, inv_honest, HI.
  - injection H as <-. pose proof (inv_leading _ HI Hne) as HL.
    apply (Inv_frame s); try apply HI; try done; [by case_match|]. split; simpl; [done|]. intros _. by case_match.
Qed.

Lemma remove_length {A} i (l : list A) x : l !! i = Some x -> length l = S (length (remove_nth i l)).
Proof. intros H%take_drop_middle. rewrite <- H at 1. unfold remove_nth. rewrite !length_app. simpl. lia. Qed.

Lemma elem_of_remove {A} i (l : list A) x : x ∈ remove_nth i l -> x ∈ l.
Proof. unfold remove_nth. intros [H|H]%elem_of_app; [by eapply elem_of_take in H as (? & ? & _); eapply list_elem_of_lookup_2|].
  apply list_elem_of_lookup in H as [j H]. rewrite lookup_drop in H. by eapply list_elem_of_lookup_2. Qed.

(** A goroutine in its deferred function clears the flag and is gone. *)
Lemma removed_Inv i h s es :
  honest ((syDpll s) <| dcOnHoldover := false |>) -> Forall event_honest es -> Inv s -> syHoldovers s !! i = Some h ->
  Inv ((on_dpll (fun d => d <| dcOnHoldover := false |>) s) <| syEvents := es |> <| syHoldovers := remove_nth i (syHoldovers s) |>).
Proof.
  intros Hh He [] Hi. pose proof (remove_length _ _ _ Hi) as HL. unfold calm, open in *.
  split; unfold calm, open; simpl; try done; try lia.
  - intros Hq. specialize (inv_calm0 Hq). case_match; lia.
  - intros _. apply inv_leading0. by intros E; rewrite E in Hi.
Qed.

Lemma runHoldover_Inv i now accepted h s s' :
  Inv s -> syHoldovers s !! i = Some h -> runHoldover i now accepted h s = Some s' -> Inv s'.
Proof.
  intros HI Hi H. assert (syHoldovers s <> []) as Hne by (intros E; by rewrite E in Hi).
  destruct h; simpl in H.
  - destruct (sendDpllEvent _ _ _) as [s1|] eqn:E; [|done]. injection H as <-.
    by eapply set_holdover_Inv, sendDpllEvent_Inv.
  - by injection H as <-.
  - destruct (holdoverTick _ _) as [r|] eqn:E1; [|done]. simpl in H.
    destruct (sendDpllEvent _ _ _) as [s1|] eqn:E; [|done]. injection H as <-.
    by eapply set_holdover_Inv, sendDpllEvent_Inv; [eapply holdoverTick_Inv|].
  - destruct (sendDpllEvent _ _ _) as [s1|] eqn:E; [|done]. injection H as <-.
    eapply set_holdover_Inv, sendDpllEvent_Inv; [|done]. apply (Inv_frame s); try apply HI; done.
  - injection H as <-. apply set_holdover_Inv, (Inv_frame s); try apply HI; try done.
    destruct (inv_honest _ HI) as [H1 H2]. split; simpl; naive_solver.
  - destruct (sendDpllEvent _ _ _) as [s1|] eqn:E; [|done]. injection H as <-.
    apply sendDpllEvent_spec in E as (es & -> & He); [| |apply HI].
    + refine (removed_Inv i HDeferred s es _ He HI Hi). by eapply honest_same, inv_honest, HI.
    + eapply honest_same, inv_honest, HI; done.
Qed.

Lemma select_Inv i e ch h s : Inv s -> select e ch s = Some h -> Inv (set_holdover i h s).
Proof. intros. by apply set_holdover_Inv. Qed.

(** ** Lifecycle *)

Definition life (s : Sys) : State * option bool * list Monitor :=
  (dcProcessState (syDpll s), dcStopCh (syDpll s), syMonitors s).

Definition alive (st : State) : bool :=
  match st with Starting | Running | Stopping => true | _ => false end.

Lemma trySend_life s s' : trySend s = Some s' -> life s' = life s.
Proof. intros (hs & -> & _)%trySend_spec. done. Qed.

Lemma trySendIf_life b s s' : trySendIf b s = Some s' -> life s' = life s.
Proof. intros (hs & -> & _)%trySendIf_spec. done. Qed.

Lemma decide_life s s' : decide s = Some s' -> life s' = life s.
Proof.
  unfold decide, decideFreerun, decideHoldover, decideLocked. intros H.
  destruct (getDpllState _) as [status|]; [|done]. destruct (hasPTPAsSource _) as [ptp|]; [|done].
  destruct (hasLeadingSource _) as [leading|] eqn:EL; [|done]. simpl in H.
  repeat case_match; simplify_eq; try done;
    try (destruct (trySendIf _ _) as [s2|] eqn:E2; [|done]; injection H as <-;
         apply trySendIf_life in E2; transitivity (life s2); [done|by rewrite E2]);
    by apply trySend_life in H.
Qed.

Lemma nlUpdatePins_life pins vd vd' :
  nlUpdatePins pins vd = Some vd' ->
  dcProcessState vd'.2 = dcProcessState vd.2 /\ dcStopCh vd'.2 = dcStopCh vd.2.
Proof.
  revert vd. induction pins as [|pin pins IH]; simpl; intros vd H; [by injection H as <-|].
  destruct (nlUpdatePin pin vd) as [vd1|] eqn:E; [|done]. destruct (IH _ H) as [-> ->]. clear IH H.
  unfold nlUpdatePin in E. destruct vd as [valid d]. destruct (ActivePhaseOffsetPin pin d) as [index []].
  - destruct (_ !! _); [|done]. by injection E as <-.
  - by injection E as <-.
Qed.

Lemma applyStateUpdate_life devices pins s s' : applyStateUpdate devices pins s = Some s' -> life s' = life s.
Proof.
  unfold applyStateUpdate, nlUpdateState. intros H.
  assert (forall vd, dcProcessState (foldl (fun vd r => nlUpdateDevice r vd) vd devices).2 = dcProcessState vd.2
            /\ dcStopCh (foldl (fun vd r => nlUpdateDevice r vd) vd devices).2 = dcStopCh vd.2) as Hd.
  { clear. induction devices as [|r devices IH]; simpl; intros vd; [done|].
    destruct (IH (nlUpdateDevice r vd)) as [-> ->]. destruct vd. unfold nlUpdateDevice. by repeat case_match. }
  destruct (nlUpdatePins _ _) as [[valid d]|] eqn:E; [|done].
  apply nlUpdatePins_life in E. destruct (Hd (false, syDpll s)) as [E1 E2]. rewrite E1, E2 in E.
  destruct E as [E3 E4]. simpl in *.
  assert (life (on_dpll (fun _ => d) s) = life s) as El by (unfold life; simpl; congruence).
  destruct valid; [|by injection H as <-].
  destruct (decide _) as [s2|] eqn:Ed; [|done]. injection H as <-. apply decide_life in Ed.
  change (life s2 = life s). by rewrite Ed.
Qed.

Lemma sendDpllEvent_life now accepted s s' : sendDpllEvent now accepted s = Some s' -> life s' = life s.
Proof.
  unfold sendDpllEvent, deliver. intros H. destruct (negb _); [by injection H as <-|].
  destruct (hasLeadingSource _); [|done]. injection H as <-. by case_match.
Qed.

Lemma holdoverTick_life elapsed s r :
  holdoverTick elapsed (syDpll s) = Some r -> life (on_dpll (fun _ => r.2) s) = life s.
Proof.
  unfold holdoverTick. intros H. destruct (hasGNSSAsSource _) as [[]|]; [| |done]; simpl in H;
    repeat case_match; simplify_eq; done.
Qed.

Lemma runHoldover_life i now accepted h s s' : runHoldover i now accepted h s = Some s' -> life s' = life s.
Proof.
  intros H. destruct h; simpl in H; simplify_eq; try done.
  - destruct (sendDpllEvent _ _ _) as [s1|] eqn:E; [|done]. injection H as <-. by apply sendDpllEvent_life in E.
  - destruct (holdoverTick _ _) as [r|] eqn:E1; [|done]. simpl in H.
    destruct (sendDpllEvent _ _ _) as [s1|] eqn:E; [|done]. injection H as <-.
    apply sendDpllEvent_life in E. apply holdoverTick_life in E1. by rewrite <- E1.
  - destruct (sendDpllEvent _ _ _) as [s1|] eqn:E; [|done]. injection H as <-. by apply sendDpllEvent_life in E.
  - destruct (sendDpllEvent _ _ _) as [s1|] eqn:E; [|done]. injection H as <-. by apply sendDpllEvent_life in E.
Qed.

(** ** The monitoring goroutines *)

Definition actives (ms : list Monitor) : list Monitor := List.filter active ms.

Lemma actives_middle ms i m :
  ms !! i = Some m ->
  actives ms = actives (take i ms) ++ (if active m then [m] else []) ++ actives (drop (S i) ms).
Proof.
  intros H. rewrite <- (take_drop_middle _ _ _ H) at 1. unfold actives. rewrite List.filter_app. simpl.
  by case_match.
Qed.

Lemma actives_insert ms i m m' :
  ms !! i = Some m ->
  actives (<[i := m']> ms) = actives (take i ms) ++ (if active m' then [m'] else []) ++ actives (drop (S i) ms).
Proof.
  intros H. rewrite insert_take_drop by by eapply lookup_lt_Some. unfold actives. rewrite List.filter_app. simpl.
  by case_match.
Qed.

Lemma elem_of_actives m ms : active m = true -> m ∈ ms <-> m ∈ actives ms.
Proof. intros H. unfold actives. rewrite !list_elem_of_In, List.filter_In. naive_solver. Qed.

(** The goroutine that runs is the only one that is not done with the process state. *)
Lemma only_active ms i m :
  (length (actives ms) <= 1)%nat -> ms !! i = Some m -> active m = true ->
  actives ms = [m] /\ forall m', actives (<[i := m']> ms) = if active m' then [m'] else [].
Proof.
  intros HL Hi Hm. pose proof (actives_middle _ _ _ Hi) as E. rewrite Hm in E. rewrite E in HL.
  rewrite !length_app in HL. simpl in HL.
  assert (actives (take i ms) = []) as E1 by (apply nil_length_inv; lia).
  assert (actives (drop (S i) ms) = []) as E2 by (apply nil_length_inv; lia).
  split; [by rewrite E, E1, E2|]. intros m'. rewrite (actives_insert _ _ _ _ Hi), E1, E2, app_nil_r. done.
Qed.

(** At most one monitoring goroutine is active, and the process state says whether
    there is one. *)
Definition life_ok (l : State * option bool * list Monitor) : Prop :=
  (length (actives l.2) <= 1)%nat /\ (actives l.2 <> [] <-> alive l.1.1 = true) /\ (actives l.2 <> [] -> is_Some l.1.2).

(** An active goroutine moves on. *)
Lemma life_move s i m m' st :
  life_ok (life s) -> syMonitors s !! i = Some m -> active m = true -> active m' = alive st ->
  life_ok (st, dcStopCh (syDpll s), <[i := m']> (syMonitors s)).
Proof.
  intros (H1 & H2 & H3) Hi Hm Ha. simpl in *. destruct (only_active _ _ _ H1 Hi Hm) as [E1 E2].
  unfold life_ok. simpl. rewrite E2, Ha, E1 in *. case_match; simpl; (split; [lia|]); split; try done.
  intros _. by apply H3.
Qed.

Lemma removed_actives i ms : ms !! i = Some MDown -> actives (remove_nth i ms) = actives ms.
Proof. intros H. rewrite (actives_middle _ _ _ H). unfold remove_nth, actives. by rewrite List.filter_app. Qed.

Lemma life_alive s i m : life_ok (life s) -> syMonitors s !! i = Some m -> active m = true ->
  alive (dcProcessState (syDpll s)) = true.
Proof.
  intros (H1 & H2 & _) Hi Hm. apply H2. simpl in *. by rewrite (proj1 (only_active _ _ _ H1 Hi Hm)).
Qed.

Lemma Start_life s : life_ok (life s) -> life_ok (life (Start s).2).
Proof.
  unfold life_ok, life, Start. simpl. intros (H1 & H2 & H3).
  destruct (dcProcessState (syDpll s)) eqn:E; simpl; rewrite ?E; try done;
    (assert (actives (syMonitors s) = []) as En by (destruct (actives (syMonitors s)); [done|by assert (false = true) by (by apply H2)]));
    unfold actives in *; rewrite List.filter_app, En; simpl; (split; [lia|]); split; try done; by eexists.
Qed.

Lemma Stop_life s s' : life_ok (life s) -> Stop s = Some s' -> life_ok (life s').
Proof.
  unfold life_ok, life, Stop. simpl. intros (H1 & H2 & H3) H.
  destruct (dcProcessState (syDpll s)) eqn:E; repeat case_match; simplify_eq; simpl; rewrite ?E; try done;
    repeat split; try done; try naive_solver.
Qed.

Lemma deliver_life accepted e s : life (deliver accepted e s) = life s.
Proof. by destruct accepted. Qed.

Lemma set_monitor_life i m s : life (set_monitor i m s) = (dcProcessState (syDpll s), dcStopCh (syDpll s), <[i := m]> (syMonitors s)).
Proof. done. Qed.

Lemma closeHoldover_spec s s' :
  closeHoldover s = Some s' ->
  exists c, s' = s <| syChans := <[c := true]> (syChans s) |> /\ dcHoldoverCloseCh (syDpll s) = Some c.
Proof.
  unfold closeHoldover. destruct (dcHoldoverCloseCh _) as [c|]; [|done]. simpl.
  destruct (syChans s !! c) as [[]|]; simpl; intros; simplify_eq. by eexists.
Qed.

Lemma runMonitor_life i now accepted m s s' :
  life_ok (life s) -> syMonitors s !! i = Some m -> runMonitor i now accepted m s = Some s' -> life_ok (life s').
Proof.
  intros HL Hi H. pose proof (life_alive _ _ _ HL Hi) as Ha.
  assert (forall m' st, active m = true -> active m' = alive st ->
            life_ok (st, dcStopCh (syDpll s), <[i := m']> (syMonitors s))) as Hmove.
  { intros. by eapply life_move. }
  assert (forall m', active m = true -> active m' = true ->
            life_ok (dcProcessState (syDpll s), dcStopCh (syDpll s), <[i := m']> (syMonitors s))) as Hkeep.
  { intros m' Hm Hm'. apply Hmove; [done|]. by rewrite Hm', Ha. }
  destruct m; simpl in H; simplify_eq/=; try by apply Hmove; try by apply Hkeep.
  - unfold emitProcessStatus, deliver. case_match; by apply Hkeep.
  - unfold MonitorDpll, deliver. repeat case_match; by apply Hkeep.
  - apply Hkeep; [done|]. by case_match.
  - destruct (closeHoldover s) as [s1|] eqn:E; [|done]. apply closeHoldover_spec in E as (c & -> & _).
    injection H as <-. by apply Hkeep.
  - by apply (Hkeep MCleared).
  - by apply (Hkeep MExiting).
  - by apply (Hkeep (MLeaving _)).
  - apply (Hmove MDown); [done|]. by case_match.
  - unfold emitProcessStatus, deliver, life_ok, life in *. case_match; simpl in *; by rewrite removed_actives.
Qed.

(** ** Reachable states *)

Lemma Inv_initial d : created d -> Inv (initial d).
Proof.
  intros (? & ? & ? & ? & ? & ? & ? & ? & ? & ? & ? & ? & ? & ? & ->).
  split; simpl; try done; try by constructor; try lia.
  by intros ?%elem_of_nil.
Qed.

Lemma spawn_Inv s : Inv s -> Inv (s <| syMonitors := syMonitors s ++ [MSpawned] |>).
Proof.
  intros []. unfold calm in *.
  assert (forall x, x ∉ syMonitors s ++ [MSpawned] -> x ∉ syMonitors s) as N.
  { intros x Hn Hin. apply Hn, elem_of_app. by left. }
  split; unfold calm; simpl; try done.
  - intros [? ?%N]. by apply inv_calm0.
  - intros ? ?%N. by apply inv_chan0.
  - intros [?|H%list_elem_of_singleton]%elem_of_app; [by apply inv_close0|done].
  - intros [? ?%N] ?%N. by apply inv_open0.
Qed.

Lemma Start_Inv s : Inv s -> Inv (Start s).2.
Proof.
  intros HI. unfold Start.
  assert (Inv (on_dpll (fun d => d <| dcStopCh := Some false |> <| dcProcessState := Starting |>) s)) as HS.
  { apply (Inv_frame s); try apply HI; try done. by eapply honest_same, inv_honest, HI. }
  apply spawn_Inv in HS. case_match; cbn [snd]; try done.
Qed.

Lemma Stop_Inv s s' : Inv s -> Stop s = Some s' -> Inv s'.
Proof.
  intros HI. unfold Stop. intros H. repeat case_match; simplify_eq; try done;
    apply (Inv_frame s); try apply HI; try done; by eapply honest_same, inv_honest, HI.
Qed.

Lemma emitProcessStatus_Inv now status s : Inv s -> Inv (emitProcessStatus now status s).
Proof. intros. by apply deliver_Inv. Qed.

(** What the active goroutine's stage says of the others. *)
Lemma stage_only s i m x :
  life_ok (life s) -> syMonitors s !! i = Some m -> active m = true -> active x = true -> x ∈ syMonitors s -> x = m.
Proof.
  intros (H1 & _) Hi Hm Hx Hin. simpl in H1. destruct (only_active _ _ _ H1 Hi Hm) as [E _].
  apply elem_of_actives in Hin; [|done]. rewrite E in Hin. by apply list_elem_of_singleton in Hin.
Qed.

Lemma stage_next s i m m' x :
  life_ok (life s) -> syMonitors s !! i = Some m -> active m = true -> active x = true -> x ∈ <[i := m']> (syMonitors s) -> x = m'.
Proof.
  intros (H1 & _) Hi Hm Hx Hin. simpl in H1. destruct (only_active _ _ _ H1 Hi Hm) as [_ E].
  apply elem_of_actives in Hin; [|done]. rewrite E in Hin. case_match; [|by apply elem_of_nil in Hin].
  by apply list_elem_of_singleton in Hin.
Qed.

(** A monitoring goroutine moves on outside the steps that end a holdover. *)
Lemma set_monitor_Inv s i m m' :
  Inv s -> life_ok (life s) -> syMonitors s !! i = Some m -> active m = true ->
  m <> MClosed -> m <> MCleared -> (m' = MClose -> open s) -> Inv (set_monitor i m' s).
Proof.
  intros HI HL Hi Ha H1 H2 H3.
  assert (MClosed ∉ syMonitors s) as N1 by (intros Hin; apply H1; by rewrite (stage_only s i m MClosed)).
  assert (MCleared ∉ syMonitors s) as N2 by (intros Hin; apply H2; by rewrite (stage_only s i m MCleared)).
  destruct HI. unfold calm in *. split; unfold calm; simpl; try done.
  - intros [? _]. by apply inv_calm0.
  - intros ? _. by apply inv_chan0.
  - intros Hin. apply H3. symmetry. by eapply (stage_next s i m).
  - intros [? _] _. by apply inv_open0.
Qed.

Lemma remove_monitor_Inv s i :
  Inv s -> syMonitors s !! i = Some MDown -> Inv (s <| syMonitors := remove_nth i (syMonitors s) |>).
Proof.
  intros HI Hi.
  assert (forall x, active x = true -> x ∉ remove_nth i (syMonitors s) -> x ∉ syMonitors s) as N.
  { intros x Hx Hn Hin. apply Hn. apply elem_of_actives; [done|]. rewrite (removed_actives _ _ Hi). by apply elem_of_actives in Hin. }
  destruct HI. unfold calm in *. split; unfold calm; simpl; try done.
  - intros [? ?]. apply inv_calm0. split; [done|]. by apply N.
  - intros Ho ?. apply inv_chan0; [done|]. by apply N.
  - intros ?%elem_of_remove. by apply inv_close0.
  - intros [? ?] ?. apply inv_open0; [split; [done|]|]; by apply N.
Qed.

(** The three unlocked steps that end a holdover for good. *)
Lemma terminate_Inv s i m s' :
  Inv s -> life_ok (life s) -> syMonitors s !! i = Some m ->
  m ∈ [MClose; MClosed; MCleared] -> runMonitor i 0 false m s = Some s' -> Inv s'.
Proof.
  intros HI HL Hi Hm H.
  assert (active m = true) as Ha by (by rewrite !elem_of_cons, elem_of_nil in Hm; destruct Hm as [->|[->|[->|[]]]]).
  assert (forall m', m' <> MClose -> MClose ∉ <[i := m']> (syMonitors s)) as N3.
  { intros m' Hn Hin. apply Hn. symmetry. by eapply (stage_next s i m). }
  assert (forall x, active x = true -> x ∈ syMonitors s -> x = m) as N2 by (intros; by eapply stage_only).
  assert (forall m', m' ∈ <[i := m']> (syMonitors s)) as N4.
  { intros m'. apply list_elem_of_lookup. exists i. rewrite list_lookup_insert_eq; [done|]. by eapply lookup_lt_Some. }
  rewrite !elem_of_cons, elem_of_nil in Hm. destruct Hm as [->|[->|[->|[]]]]; simpl in H.
  - destruct (closeHoldover s) as [s1|] eqn:E; [|done]. apply closeHoldover_spec in E as (c & -> & Ec). injection H as <-.
    destruct HI. unfold calm in *. split; unfold calm; simpl; try done.
    + intros [? _]. apply inv_calm0. split; [done|]. intros Hin. by apply N2 in Hin.
    + intros _ Hn. by destruct Hn.
    + intros Hin. by apply N3 in Hin.
    + intros c' Hc. apply lookup_lt_is_Some. rewrite length_insert. apply lookup_lt_is_Some. by apply inv_made0.
    + intros _ Hn. by destruct Hn.
  - injection H as <-. destruct HI. unfold calm in *. split; unfold calm; simpl; try done.
    + intros [_ Hn]. by destruct Hn.
    + intros Hc. assert (MCleared ∉ syMonitors s) as Hn by (intros Hin; by apply N2 in Hin).
      specialize (inv_calm0 (conj Hc Hn)). by case_match; lia.
    + intros Hin. by apply N3 in Hin.
    + intros [_ Hn]. by destruct Hn.
    + by eapply honest_same, inv_honest0.
  - injection H as <-. destruct HI. unfold calm in *. split; unfold calm; simpl; try done; try by intros [? _].
    + intros Ho _. apply inv_chan0; [done|]. intros Hin. by apply N2 in Hin.
    + intros Hin. by apply N3 in Hin.
    + by eapply honest_same, inv_honest0.
Qed.

Lemma emit_monitors now status s : syMonitors (emitProcessStatus now status s) = syMonitors s.
Proof. unfold emitProcessStatus, deliver. by case_match. Qed.

Lemma setProcessState_Inv st s : Inv s -> Inv (on_dpll (setProcessState st) s).
Proof. intros HI. apply (Inv_frame s); try apply HI; try done. by eapply honest_same, inv_honest, HI. Qed.

Lemma runMonitor_Inv i now accepted m s s' :
  Inv s -> life_ok (life s) -> syMonitors s !! i = Some m -> runMonitor i now accepted m s = Some s' -> Inv s'.
Proof.
  intros HI HL Hi H.
  destruct m; try (eapply (terminate_Inv s i); [done|done|exact Hi|set_solver|exact H]);
    cbn [runMonitor] in H; injection H as <-.
  - apply (setProcessState_Inv _ (set_monitor i MUp s)). by eapply (set_monitor_Inv _ i MSpawned).
  - eapply (set_monitor_Inv _ i MUp); rewrite ?emit_monitors; try done; [by apply emitProcessStatus_Inv|].
    unfold emitProcessStatus. by rewrite deliver_life.
  - unfold MonitorDpll. case_match; try by eapply (set_monitor_Inv _ i MRunning).
    eapply (set_monitor_Inv _ i MRunning); try done; [by apply deliver_Inv|by rewrite deliver_life|].
    unfold deliver. by case_match.
  - eapply (set_monitor_Inv _ i MFound); try done. case_match eqn:E; [|done]. intros _.
    apply (inv_chan _ HI E). intros Hin. by pose proof (stage_only s i MFound MClosed HL Hi eq_refl eq_refl Hin).
  - by eapply (set_monitor_Inv _ i MExiting).
  - apply (setProcessState_Inv _ (set_monitor i MDown s)). by eapply (set_monitor_Inv _ i (MLeaving stopping)).
  - eapply remove_monitor_Inv; [by apply emitProcessStatus_Inv|]. by rewrite emit_monitors.
Qed.

Lemma step_Inv s s' : Inv s -> life_ok (life s) -> step s (Some s') -> Inv s'.
Proof.
  intros HI HL H. inversion H as [devices pins Hd Ho|replies Ho|now acc Hd Ho|i e ch h Hi He Ho|i h now acc Hi Hl Ho|Hd Ho|Hd Ho|
                               i m now acc Hi Hr Hl Ho]; clear H; simplify_eq.
  - by eapply applyStateUpdate_Inv.
  - apply (Inv_frame s); try apply HI; try done; by eapply honest_same, inv_honest, HI.
  - by eapply sendDpllEvent_Inv, Ho; apply Inv_deciding.
  - by apply set_holdover_Inv.
  - by eapply runHoldover_Inv.
  - by apply Start_Inv.
  - by eapply Stop_Inv.
  - by eapply runMonitor_Inv.
Qed.

Lemma step_life s s' : life_ok (life s) -> step s (Some s') -> life_ok (life s').
Proof.
  intros HI H. inversion H as [devices pins Hd Ho|replies Ho|now acc Hd Ho|i e ch h Hi He Ho|i h now acc Hi Hl Ho|Hd Ho|Hd Ho|
                               i m now acc Hi Hr Hl Ho]; clear H; simplify_eq; try done.
  - by rewrite (applyStateUpdate_life devices pins s s').
  - rewrite (sendDpllEvent_life _ _ _ _ Ho). done.
  - by rewrite (runHoldover_life i now acc h s s').
  - by apply Start_life.
  - by eapply Stop_life.
  - by eapply runMonitor_life.
Qed.

Lemma reachable_life d s : created d -> reachable d s -> life_ok (life s).
Proof.
  intros Hc. induction 1 as [|s s' _ IH Hs]; [|by eapply step_life].
  destruct Hc as (? & ? & ? & ? & ? & ? & ? & ? & ? & ? & ? & ? & ? & ? & ->).
  unfold life_ok, life. simpl. repeat split; try done. lia.
Qed.

Lemma reachable_Inv d s : created d -> reachable d s -> Inv s.
Proof.
  intros Hc. induction 1 as [|s s' Hr IH Hs]; [by apply Inv_initial|].
  eapply step_Inv; [done|by eapply reachable_life|done].
Qed.

(** ** No panic before a stop closes a holdover *)

Lemma active_parent_valid d i ps n ok :
  active_parent d i ps = (n, ok) -> ok = true -> exists j p, n = Z.of_nat (i + j) /\ ps !! j = Some p.
Proof.
  revert i. induction ps as [|p ps IH]; simpl; intros i H ->; [done|].
  case_match; [injection H as <-; exists O, p; split; [f_equal; lia|done]|].
  destruct (IH (S i) H eq_refl) as (j & p' & -> & ?). exists (S j), p'. split; [f_equal; lia|done].
Qed.

Lemma nlUpdatePin_total pin vd : is_Some (nlUpdatePin pin vd).
Proof.
  unfold nlUpdatePin. destruct vd as [valid d]. destruct (ActivePhaseOffsetPin pin d) as [n []] eqn:E; [|by eexists].
  unfold ActivePhaseOffsetPin in E. case_match; [done|].
  apply active_parent_valid in E as (j & p & -> & Hj); [|done].
  rewrite Nat2Z.id. simpl. rewrite Hj. by eexists.
Qed.

Lemma nlUpdateState_total devices pins d : is_Some (nlUpdateState devices pins d).
Proof.
  unfold nlUpdateState. generalize (foldl (fun vd r => nlUpdateDevice r vd) (false, d) devices).
  induction pins as [|pin pins IH]; simpl; intros vd; [by eexists|].
  destruct (nlUpdatePin_total pin vd) as [vd' ->]. apply IH.
Qed.

Lemma leading_total d : dcDependsOn d <> [] ->
  is_Some (hasLeadingSource d) /\ is_Some (hasPTPAsSource d) /\ is_Some (hasGNSSAsSource d) /\ is_Some (getDpllState d).
Proof.
  unfold hasLeadingSource, getDpllState, hasPTPAsSource, hasGNSSAsSource, hasPPSAsSource, source0.
  destruct (dcDependsOn d) as [|x l]; [done|]. intros _. simpl. repeat case_match; repeat split; by eexists.
Qed.

Lemma sendDpllEvent_total now accepted s : dcDependsOn (syDpll s) <> [] -> is_Some (sendDpllEvent now accepted s).
Proof.
  intros H%leading_total. destruct H as ([l E] & _). unfold sendDpllEvent. rewrite E. case_match; by eexists.
Qed.

(** Every channel is open. *)
Definition all_open (s : Sys) : Prop :=
  Forall (eq false) (syChans s) /\ forall c, dcHoldoverCloseCh (syDpll s) = Some c -> is_Some (syChans s !! c).

Lemma trySend_total s : all_open s -> is_Some (trySend s).
Proof.
  intros [H1 H2]. unfold trySend. destruct (dcHoldoverCloseCh _) as [c|] eqn:E; [|by eexists].
  destruct (H2 c eq_refl) as [b Hb]. rewrite Hb. rewrite Forall_lookup in H1. rewrite <- (H1 _ _ Hb). by eexists.
Qed.

Lemma trySendIf_total b s : all_open s -> is_Some (trySendIf b s).
Proof. destruct b; [apply trySend_total|by eexists]. Qed.

Lemma decide_total s : all_open s -> dcDependsOn (syDpll s) <> [] -> is_Some (decide s).
Proof.
  intros Hc H%leading_total. destruct H as ([l E1] & [p E2] & _ & [st E3]).
  unfold decide, decideFreerun, decideHoldover, decideLocked. rewrite E1, E2, E3. simpl.
  repeat case_match; try (by eexists); try by apply trySend_total.
  - match goal with |- is_Some (trySendIf ?b ?x ≫= _) => destruct (trySendIf_total b x Hc) as [s' ->] end. by eexists.
  - match goal with |- is_Some (trySendIf ?b ?x ≫= _) => destruct (trySendIf_total b x Hc) as [s' ->] end. by eexists.
Qed.

Lemma applyStateUpdate_total devices pins s :
  all_open s -> dcDependsOn (syDpll s) <> [] -> is_Some (applyStateUpdate devices pins s).
Proof.
  intros [Hc1 Hc2] Hs. unfold applyStateUpdate.
  destruct (nlUpdateState_total devices pins (syDpll s)) as [[valid d] E]. rewrite E. simpl.
  apply nlUpdateState_unobserved in E. injection E as _ _ E1 E2 _ _ _ _. simpl in *.
  destruct valid; [|by eexists].
  destruct (decide_total (on_dpll (fun _ => d) s)) as [s' ->]; [|by simpl; rewrite E2|by eexists].
  split; simpl; [done|]. by rewrite E1.
Qed.

Lemma runHoldover_total i now accepted h s : dcDependsOn (syDpll s) <> [] -> is_Some (runHoldover i now accepted h s).
Proof.
  intros Hs. destruct h; simpl; try (by eexists);
    try (match goal with |- context [sendDpllEvent ?n ?a ?x] =>
           destruct (sendDpllEvent_total n a x Hs) as [s' ->] end; by eexists).
  destruct (leading_total (syDpll s) Hs) as (_ & _ & [g Eg] & _).
  assert (exists r, holdoverTick elapsed (syDpll s) = Some r /\ dcDependsOn r.2 = dcDependsOn (syDpll s)) as (r & -> & Hr).
  { unfold holdoverTick. change (hasGNSSAsSource (_ <| dcPhaseOffset := _ |>)) with (hasGNSSAsSource (syDpll s)).
    rewrite Eg. simpl. repeat case_match; eexists; (split; [done|done]). }
  simpl. match goal with |- context [sendDpllEvent ?n ?a ?x] =>
           destruct (sendDpllEvent_total n a x) as [s' ->]; [by simpl; rewrite Hr|] end. by eexists.
Qed.

Lemma runMonitor_total i now accepted m s : Inv s -> syMonitors s !! i = Some m -> is_Some (runMonitor i now accepted m s).
Proof.
  intros HI Hi. destruct m; try by eexists.
  destruct (inv_close _ HI) as (c & Hc & Ho); [by eapply list_elem_of_lookup_2|].
  simpl. unfold closeHoldover. rewrite Hc. simpl. rewrite Ho. by eexists.
Qed.

(** ** An interpreter of the steps *)

Inductive Act :=
| AApply (devices : list DoDeviceGetReply) (pins : list PinInfo)
| ADump (replies : list DoDeviceGetReply)
| AEvent (now : Z) (accepted : bool)
| ASelect (i : nat) (e : Select)
| AHoldover (i : nat) (now : Z) (accepted : bool)
| AStart
| AStop
| AMonitor (i : nat) (now : Z) (accepted : bool).

(** [None] when the step is not enabled. *)
Definition exec (a : Act) (s : Sys) : option (option Sys) :=
  match a with
  | AApply devices pins => if syDeciding s then None else Some (applyStateUpdate devices pins s)
  | ADump replies => Some (Some (on_dpll (fun d => d <| dcDevices := replies |>) s))
  | AEvent now accepted =>
      if syDeciding s then Some (sendDpllEvent now accepted (s <| syDeciding := false |>)) else None
  | ASelect i e =>
      match syHoldovers s !! i with
      | Some (HSelect ch) => h ← select e ch s; Some (Some (set_holdover i h s))
      | _ => None
      end
  | AHoldover i now accepted =>
      match syHoldovers s !! i with
      | Some HDeferred => if syDeciding s then None else Some (runHoldover i now accepted HDeferred s)
      | Some h => Some (runHoldover i now accepted h s)
      | None => None
      end
  | AStart => if syDeciding s then None else Some (Some (Start s).2)
  | AStop => if syDeciding s then None else Some (Stop s)
  | AMonitor i now accepted =>
      match syMonitors s !! i with
      | Some MRunning => if monitorReturns (syDpll s) then Some (runMonitor i now accepted MRunning s) else None
      | Some m => if locks m && syDeciding s then None else Some (runMonitor i now accepted m s)
      | None => None
      end
  end.

Fixpoint run (acts : list Act) (s : Sys) : option Sys :=
  match acts with
  | [] => Some s
  | a :: acts' => o ← exec a s; s' ← o; run acts' s'
  end.

Lemma exec_step a s o : exec a s = Some o -> step s o.
Proof.
  destruct a; cbn [exec]; intros H.
  - destruct (syDeciding s) eqn:E; [done|]. injection H as <-. by apply StApply.
  - injection H as <-. apply StDump.
  - destruct (syDeciding s) eqn:E; [|done]. injection H as <-. by apply StEvent.
  - destruct (syHoldovers s !! i) as [[]|] eqn:E; try done.
    destruct (select e ch s) as [h|] eqn:E2; [|done]. injection H as <-. by eapply StSelect.
  - destruct (syHoldovers s !! i) as [h|] eqn:E; [|done].
    assert ((h = HDeferred -> syDeciding s = false) /\ runHoldover i now accepted h s = o) as [Hd <-].
    { destruct h; try (injection H as <-; done). by destruct (syDeciding s); simplify_eq. }
    by apply StHoldover.
  - destruct (syDeciding s) eqn:E; [done|]. injection H as <-. by apply StStart.
  - destruct (syDeciding s) eqn:E; [done|]. injection H as <-. by apply StStop.
  - destruct (syMonitors s !! i) as [m|] eqn:E; [|done].
    assert ((m = MRunning -> monitorReturns (syDpll s) = true) /\ (locks m = true -> syDeciding s = false)
            /\ runMonitor i now accepted m s = o) as (Hr & Hd & <-).
    { destruct m; destruct (syDeciding s), (monitorReturns (syDpll s)); cbn [locks andb] in *; simplify_eq; done. }
    by apply StMonitor.
Qed.

Lemma run_reachable acts d s s' : reachable d s -> run acts s = Some s' -> reachable d s'.
Proof.
  revert s. induction acts as [|a acts IH]; simpl; intros s Hs H; [by injection H as <-|].
  destruct (exec a s) as [[s1|]|] eqn:E; try done. simpl in H.
  eapply IH; [|done]. eapply reachable_step; [done|]. by eapply exec_step.
Qed.

(** ** Order of the lock states *)

Definition is_locked (st : Z) : Prop := st = DPLL_LOCKED \/ st = DPLL_LOCKED_HO_ACQ.

Lemma quality_locked st : 3 <= getStateQuality st <-> is_locked st.
Proof.
  unfold getStateQuality, is_locked, DPLL_UNKNOWN, DPLL_INVALID, DPLL_FREERUN, DPLL_HOLDOVER, DPLL_LOCKED, DPLL_LOCKED_HO_ACQ.
  repeat case_match; lia.
Qed.

Lemma getWorseState_min p f :
  getStateQuality (getWorseState p f) = Z.min (getStateQuality p) (getStateQuality f).
Proof. unfold getWorseState. case_match; lia. Qed.

Lemma getWorseState_locked p f : is_locked (getWorseState p f) -> is_locked p /\ is_locked f.
Proof. rewrite <- !quality_locked, getWorseState_min. lia. Qed.

(** The switch leaves the lock state at LOCKED only through its last case. *)
Lemma decide_locked s s' :
  decide s = Some s' -> dcState (syDpll s') = PTP_LOCKED -> dcState (syDpll s) <> PTP_LOCKED ->
  isOffsetInRange (syDpll s) = true /\ (exists st, getDpllState (syDpll s) = Some st /\ is_locked st)
  /\ dcPhaseOffset (syDpll s') = dcPhaseOffset (syDpll s).
Proof.
  unfold decide. intros H HL HN.
  destruct (getDpllState _) as [status|] eqn:Est; [|done]. destruct (hasPTPAsSource _) as [ptp|]; [|done].
  destruct (hasLeadingSource _) as [leading|] eqn:EL; [|done]. simpl in H.
  destruct (_ || (status =? DPLL_UNKNOWN)) eqn:E1;
    [|destruct (status =? DPLL_HOLDOVER) eqn:E2; [|destruct (_ || (status =? DPLL_LOCKED)) eqn:E3]].
  - exfalso. unfold decideFreerun in H. destruct (trySendIf _ _) as [s2|]; [|done]. injection H as <-. done.
  - exfalso. unfold decideHoldover in H. repeat case_match; simplify_eq; try done.
    apply trySend_spec in H as (hs & -> & _). done.
  - unfold decideLocked in H. case_match eqn:ER.
    + destruct (trySendIf _ _) as [s2|] eqn:E4; [|done].  injection H as <-.
      apply trySendIf_spec in E4 as (hs & -> & _). split; [done|]. split; [|done]. exists status. split; [done|]. unfold is_locked. lia.
    + exfalso. apply trySend_spec in H as (hs & -> & _). done.
  - injection H as <-. done.
Qed.

(** ** Phase offsets *)

Lemma ns_of_phase_offset_quot p : in_int64 p -> ns_of_phase_offset p = Z.quot p 1000000.
Proof.
  unfold in_int64, ns_of_phase_offset, DpllPhaseOffsetDivider. intros H. rewrite Z.quot_quot by done.
  change (1000 * 1000) with 1000000.
  assert (small (Z.quot p 1000000)) as Hs.
  { unfold small. rewrite <- Z.quot_abs by done. change (Z.abs 1000000) with 1000000.
    rewrite Z.quot_div_nonneg by lia. apply Z.div_lt_upper_bound; lia. }
  by rewrite f64_round_small, f64_to_int64_small.
Qed.

(** ** Settings *)

(** What one setting comes to, by key. *)
Definition setting (m : gmap string string) (k : string) (dflt : Z) : Z :=
  match m !! k with
  | Some v => let '(i, ok) := ParseUint v 10 64 in if ok then i else dflt
  | None => dflt
  end.

Definition pick1 (k : string) (a : Z) (kv : string * string) : Z :=
  let '(i, ok) := ParseUint kv.2 10 64 in if (ok && str_eqb kv.1 k)%bool then i else a.

Lemma applySetting_pick l a b c :
  foldl (fun acc kv => applySetting kv acc) (a, b, c) l =
  (foldl (pick1 LocalMaxHoldoverOffSetStr) a l, foldl (pick1 LocalHoldoverTimeoutStr) b l,
   foldl (pick1 MaxInSpecOffsetStr) c l).
Proof.
  revert a b c. induction l as [|[k v] l IH]; intros a b c; [done|]. cbn [foldl]. rewrite <- IH. f_equal.
  unfold applySetting, pick1. simpl. destruct (ParseUint v 10 64) as [i []]; done.
Qed.

Lemma pick_absent k a l : k ∉ l.*1 -> foldl (pick1 k) a l = a.
Proof.
  revert a. induction l as [|[k' v] l IH]; simpl; intros a H; [done|]. apply not_elem_of_cons in H as [Hk Hl].
  rewrite IH by done. unfold pick1, str_eqb. simpl. rewrite bool_decide_eq_false_2 by done.
  destruct (ParseUint v 10 64) as [i []]; done.
Qed.

Lemma pick_present k v a l :
  NoDup l.*1 -> (k, v) ∈ l ->
  foldl (pick1 k) a l = (let '(i, ok) := ParseUint v 10 64 in if ok then i else a).
Proof.
  revert a. induction l as [|[k' v'] l IH]; simpl; intros a HN Hin; [by apply elem_of_nil in Hin|].
  apply NoDup_cons in HN as [Hn HN]. apply elem_of_cons in Hin as [[= <- <-]|Hin].
  - rewrite pick_absent by done. unfold pick1, str_eqb. simpl. rewrite bool_decide_eq_true_2 by done.
    destruct (ParseUint v 10 64) as [i []]; done.
  - rewrite IH by done. unfold pick1, str_eqb. simpl.
    rewrite (bool_decide_eq_false_2 (k' = k)).
    + destruct (ParseUint v' 10 64) as [i' []]; done.
    + intros ->. apply Hn. apply (list_elem_of_fmap_2 fst) in Hin. done.
Qed.

Lemma pick_setting k a m l : l ≡ₚ map_to_list m -> foldl (pick1 k) a l = setting m k a.
Proof.
  intros Hl. assert (NoDup l.*1) as HN by (rewrite Hl; apply NoDup_fst_map_to_list).
  unfold setting. destruct (m !! k) as [v|] eqn:E.
  - apply pick_present; [done|]. rewrite Hl. by apply elem_of_map_to_list.
  - apply pick_absent. rewrite Hl. intros ([k' v] & -> & Hin)%list_elem_of_fmap.
    apply elem_of_map_to_list in Hin. simpl in E. congruence.
Qed.

(** ** After the end of a holdover for good *)

Lemma decide_closing s s' :
  decide s = Some s' -> dcClosing (syDpll s) = true ->
  dcClosing (syDpll s') = true /\ length (syHoldovers s') = length (syHoldovers s).
Proof.
  unfold decide, decideFreerun, decideHoldover, decideLocked. intros H Hc.
  destruct (getDpllState _) as [status|]; [|done]. destruct (hasPTPAsSource _) as [ptp|]; [|done].
  destruct (hasLeadingSource _) as [leading|] eqn:EL; [|done]. simpl in H.
  rewrite Hc, andb_false_r in H.
  repeat case_match; simplify_eq; try done;
    try (destruct (trySendIf _ _) as [s2|] eqn:E2; [|done]; injection H as <-;
         apply trySendIf_spec in E2 as (hs & -> & ?); done);
    apply trySend_spec in H as (hs & -> & ?); done.
Qed.

Lemma sendDpllEvent_frame now accepted s s' :
  sendDpllEvent now accepted s = Some s' -> syDpll s' = syDpll s /\ syHoldovers s' = syHoldovers s.
Proof.
  unfold sendDpllEvent, deliver. intros H. destruct (negb _); [by injection H as <-|].
  destruct (hasLeadingSource _); [|done]. injection H as <-. by case_match.
Qed.

Lemma holdoverTick_closing elapsed d r : holdoverTick elapsed d = Some r -> dcClosing r.2 = dcClosing d.
Proof.
  unfold holdoverTick. intros H. destruct (hasGNSSAsSource _) as [[]|]; [| |done]; simpl in H;
    repeat case_match; simplify_eq; done.
Qed.

Lemma runHoldover_closing i now accepted h s s' :
  runHoldover i now accepted h s = Some s' ->
  dcClosing (syDpll s') = dcClosing (syDpll s) /\ (length (syHoldovers s') <= length (syHoldovers s))%nat.
Proof.
  intros H. destruct h; simpl in H; simplify_eq/=; rewrite ?length_insert; try done.
  - destruct (sendDpllEvent _ _ _) as [s1|] eqn:E; [|done]. injection H as <-.
    apply sendDpllEvent_frame in E as [E2 E]. simpl. rewrite length_insert, E, E2. done.
  - destruct (holdoverTick _ _) as [r|] eqn:E1; [|done]. simpl in H.
    destruct (sendDpllEvent _ _ _) as [s1|] eqn:E; [|done]. injection H as <-.
    apply sendDpllEvent_frame in E as [E2 E]. simpl. rewrite length_insert, E, E2. simpl.
    split; [by eapply holdoverTick_closing|done].
  - destruct (sendDpllEvent _ _ _) as [s1|] eqn:E; [|done]. injection H as <-.
    apply sendDpllEvent_frame in E as [E2 E]. simpl. rewrite length_insert, E, E2. done.
  - destruct (sendDpllEvent _ _ _) as [s1|] eqn:E; [|done]. injection H as <-.
    apply sendDpllEvent_frame in E as [E2 E]. simpl. rewrite E, E2. split; [done|].
    unfold remove_nth. rewrite length_app, length_take, length_drop. simpl. lia.
Qed.

Lemma runMonitor_closing i now accepted m s s' :
  runMonitor i now accepted m s = Some s' -> dcClosing (syDpll s) = true ->
  dcClosing (syDpll s') = true /\ syHoldovers s' = syHoldovers s.
Proof.
  intros H Hc. destruct m; simpl in H; simplify_eq/=; try done;
    try (unfold MonitorDpll, emitProcessStatus, deliver; by repeat case_match).
  destruct (closeHoldover s) as [s1|] eqn:E; [|done]. apply closeHoldover_spec in E as (c & -> & _). by injection H as <-.
Qed.

Lemma step_closing s s' :
  step s (Some s') -> dcClosing (syDpll s) = true ->
  dcClosing (syDpll s') = true /\ (length (syHoldovers s') <= length (syHoldovers s))%nat.
Proof.
  intros H Hc. inversion H as [devices pins Hd Ho|replies Ho|now acc Hd Ho|i e ch h Hi He Ho|i h now acc Hi Hl Ho|Hd Ho|Hd Ho|
                               i m now acc Hi Hr Hl Ho]; clear H; simplify_eq; try done.
  - unfold applyStateUpdate in Ho. destruct (nlUpdateState _ _ _) as [[valid d]|] eqn:E; [|done].
    apply nlUpdateState_unobserved in E. injection E as _ E _ _ _ _ _ _. simpl in E, Ho.
    destruct valid; [|injection Ho as <-; simpl; by rewrite E].
    destruct (decide _) as [s2|] eqn:Ed; [|done]. injection Ho as <-.
    apply decide_closing in Ed as [? Ed]; [|by simpl; rewrite E]. simpl in *. by rewrite Ed.
  - apply sendDpllEvent_frame in Ho as [-> ->]. done.
  - simpl. by rewrite length_insert.
  - apply runHoldover_closing in Ho as [-> ?]. done.
  - unfold Start. by case_match.
  - unfold Stop in Ho. by repeat case_match; simplify_eq.
  - apply runMonitor_closing in Ho as [? ->]; done.
Qed.

(** ** Properties *)

(** C39. Whatever the interleaving of updates, ticks, stops and restarts, as long as no
    stop has ended a holdover for good and none is between clearing [onHoldover] and
    setting [closing], a holdover goroutine runs exactly while [onHoldover] is set, and
    then one.  There are never more than two, and once [closing] is set none is started. *)
Theorem one_holdover d s :
  created d -> reachable d s ->
  (calm s -> length (syHoldovers s) = if dcOnHoldover (syDpll s) then 1%nat else 0%nat)
  /\ (length (syHoldovers s) <= 2)%nat
  /\ (dcClosing (syDpll s) = true -> forall s', step s (Some s') ->
      dcClosing (syDpll s') = true /\ (length (syHoldovers s') <= length (syHoldovers s))%nat).
Proof.
  intros Hc Hr. destruct (reachable_Inv _ _ Hc Hr). split; [|split; [done|]].
  - intros Hq. specialize (inv_calm0 Hq). destruct (dcOnHoldover _); [|lia].
    destruct (syHoldovers s); simpl in *; [by destruct inv_alive0|lia].
  - intros Hcl s' Hs. by apply step_closing.
Qed.

(** Every event of a DPLL that was ever delivered is coherent: LOCKED comes with
    a present source, in spec, and a good PPS status; HOLDOVER only from a leading
    DPLL, one disciplined by GNSS or by PTP. *)
Theorem events_coherent d s e dd :
  created d -> reachable d s -> e ∈ syEvents s -> evData e = Some (EDPLL dd) ->
  (ddState dd = PTP_LOCKED -> ddOutOfSpec dd = false /\ ddSourceLost dd = false /\ ddPPSStatus dd = 1)
  /\ (ddState dd = PTP_HOLDOVER -> ddLeadingSource dd = true).
Proof.
  intros Hc Hr He Hd. pose proof (inv_events _ (reachable_Inv _ _ Hc Hr)) as HF.
  rewrite Forall_forall in HF. specialize (HF e He). unfold event_honest in HF. by rewrite Hd in HF.
Qed.

(** Until a stop closes a holdover, no notification, tick, timeout, close or
    termination panics: the one call that can is a second [Stop] of a process whose
    stop channel is closed already. *)
Theorem only_second_stop_panics d s :
  created d -> reachable d s -> dcDependsOn (syDpll s) <> [] -> calm s -> MClosed ∉ syMonitors s ->
  step s None -> Stop s = None /\ dcStopCh (syDpll s) = Some true.
Proof.
  intros Hc Hr Hs Hcl Hn H. pose proof (reachable_Inv _ _ Hc Hr) as HI.
  assert (all_open s) as Ho by (split; [by apply (inv_open _ HI)|apply (inv_made _ HI)]).
  remember None as o eqn:Eo in H. destruct H as [devices pins Hd|replies|now acc Hd|i e ch h Hi He|i h now acc Hi Hl|Hd|Hd|
                                            i m now acc Hi Hm Hl]; try done.
  - destruct (applyStateUpdate_total devices pins s Ho Hs). congruence.
  - match type of Eo with sendDpllEvent ?n ?a ?x = _ => destruct (sendDpllEvent_total n a x Hs) end. congruence.
  - destruct (runHoldover_total i now acc h s Hs). congruence.
  - split; [done|]. unfold Stop in Eo. repeat case_match; done.
  - exfalso. destruct (runMonitor_total i now acc m s HI Hi). congruence.
Qed.

(** The decision reports LOCKED, when it did not before, only if the DPLL's loops
    say so and the offset is in range: both loops locked for a DPLL with every status
    and neither a PTP nor a PPS source, the phase loop for those, and an offset within
    [LocalMaxHoldoverOffSet] on either side unless the device reports none. *)
Theorem locked_needs_lock_and_range now acc s s' :
  stateDecision now acc s = Some s' ->
  small (dcPhaseOffset (syDpll s)) -> small (dcLocalMaxHoldoverOffSet (syDpll s)) ->
  dcState (syDpll s) <> PTP_LOCKED -> dcState (syDpll s') = PTP_LOCKED ->
  (hasFlag FlagNoPhaseOffset (syDpll s) = true
   \/ Z.abs (dcPhaseOffset (syDpll s')) <= dcLocalMaxHoldoverOffSet (syDpll s))
  /\ (hasPTPAsSource (syDpll s) = Some true \/ hasPPSAsSource (syDpll s) = Some true ->
      is_locked (dcPhaseStatus (syDpll s)))
  /\ (hasPTPAsSource (syDpll s) = Some false -> hasPPSAsSource (syDpll s) = Some false ->
      dcFlags (syDpll s) = 0 ->
      is_locked (dcPhaseStatus (syDpll s)) /\ is_locked (dcFrequencyStatus (syDpll s))).
Proof.
  unfold stateDecision. intros H Ho Hm Hn HL. destruct (decide s) as [s1|] eqn:E; [|done]. simpl in H.
  assert (syDpll s' = syDpll s1) as E1.
  { unfold sendDpllEvent, deliver in H. destruct (negb _); [by injection H as <-|].
    destruct (hasLeadingSource _); [|done]. injection H as <-. by case_match. }
  rewrite E1 in HL |- *. destruct (decide_locked _ _ E HL Hn) as (HR & (st & Hst & Hl) & ->).
  unfold getDpllState in Hst. destruct (hasPTPAsSource (syDpll s)) as [ptp|]; [|done].
  destruct (hasPPSAsSource (syDpll s)) as [pps|]; [|done]. simpl in Hst. injection Hst as <-. split; [|split].
  - unfold isOffsetInRange in HR. apply orb_true_iff in HR as [HR|HR]; [by left|right].
    rewrite f64_abs_small, f64_leb_small in HR by auto with f64. lia.
  - intros [[= ->]|[= ->]]; [done|]. by rewrite orb_true_r in Hl.
  - intros [= ->] [= ->] HF. unfold hasFlag in Hl. rewrite HF in Hl. by apply getWorseState_locked.
Qed.

(** There is never a second monitoring goroutine that is not done with the process
    state, and the state tells whether there is one: exactly in Starting, Running and
    Stopping. *)
Theorem one_monitor d s :
  created d -> reachable d s ->
  (length (actives (syMonitors s)) <= 1)%nat
  /\ (actives (syMonitors s) <> [] <-> dcProcessState (syDpll s) ∈ [Starting; Running; Stopping]).
Proof.
  intros Hc Hr. destruct (reachable_life _ _ Hc Hr) as (H1 & H2 & _). split; [done|].
  simpl in H2. rewrite H2. destruct (dcProcessState (syDpll s)); simpl; set_solver.
Qed.

(** A measured phase offset is stored as the nanoseconds it contains, truncated
    towards zero, for every [int64]: neither the conversions through [float64] nor
    [math.Round], which sees an integer, change it. *)
Theorem SetPhaseOffset_truncates p d :
  in_int64 p -> SetPhaseOffset p d = d <| dcPhaseOffset := Z.quot p 1000000 |>.
Proof. intros H. unfold SetPhaseOffset. by rewrite ns_of_phase_offset_quot. Qed.

(** The timer parameters do not depend on the order in which the iteration over
    the settings visits them: each is its own setting when it parses, else its default. *)
Theorem CalculateTimer_order m l :
  l ≡ₚ map_to_list m ->
  let maxHo := setting m LocalMaxHoldoverOffSetStr LocalMaxHoldoverOffSet in
  let timeout := setting m LocalHoldoverTimeoutStr LocalHoldoverTimeout in
  let inSpec := setting m MaxInSpecOffsetStr MaxInSpecOffset in
  CalculateTimer l =
    (int64 inSpec, int64 maxHo, int64 timeout,
     f64_to_int64 (f64_round (f64_div (f64_of_Z inSpec) (f64_div (f64_of_Z maxHo) (f64_of_Z timeout)))), false).
Proof.
  intros Hl. cbv zeta. unfold CalculateTimer. rewrite applySetting_pick, !(pick_setting _ _ m l Hl). done.
Qed.

(** ** Witnesses and concrete runs *)

(** A card disciplined by GNSS or PTP, its notifications, and a pin measurement. *)
Definition card (source : EventSource) : DpllConfig :=
  NewDpll 7 1500 14400 1500 "eth0" [source] NETLINK true 10 2 0 "ptp4l.0.config" "T-BC" true.

Definition both (status : Z) : list DoDeviceGetReply := [mkReply 0 status 7 DpllTypeEEC; mkReply 1 status 7 DpllTypePPS].

Definition measure (ps : Z) : list PinInfo := [mkPin 7 [mkParent 1 PinDirectionInput PinStateConnected ps 0]].

Definition lock : list Act := [ADump (both DPLL_LOCKED); AApply (both DPLL_LOCKED) (measure 5000000); AEvent 1 true].
Definition enter : list Act := [AApply (both DPLL_HOLDOVER) []; AEvent 2 true; AHoldover 0 3 true].

Definition at_end (acts : list Act) (d : DpllConfig) : Sys :=
  match run acts (initial d) with Some s => s | None => initial d end.

Lemma card_created source : created (card source).
Proof. by repeat eexists. Qed.

Lemma at_end_reachable acts d : reachable d (at_end acts d).
Proof.
  unfold at_end. destruct (run acts (initial d)) eqn:E; [|constructor].
  eapply run_reachable, E. constructor.
Qed.

Lemma one_holdover_witness :
  dcOnHoldover (syDpll (at_end (lock ++ enter) (card GNSS))) = true
  /\ length (syHoldovers (at_end (lock ++ enter) (card GNSS))) = 1%nat.
Proof.
  split; [reflexivity|].
  apply (one_holdover (card GNSS) _ (card_created GNSS) (at_end_reachable (lock ++ enter) (card GNSS))).
  split; [reflexivity|]. apply not_elem_of_nil.
Defined.

(** The second event of a GNSS card that locks and enters holdover. *)
Definition entered : DPLLData :=
  mkDPLLData PTP_HOLDOVER false false false true (Some 5) (Some 4) (Some 4) 1 10 2 1500 1500 false.

Lemma events_coherent_witness :
  (ddState entered = PTP_LOCKED -> ddOutOfSpec entered = false /\ ddSourceLost entered = false /\ ddPPSStatus entered = 1)
  /\ (ddState entered = PTP_HOLDOVER -> ddLeadingSource entered = true).
Proof.
  apply (events_coherent (card GNSS) (at_end (lock ++ enter) (card GNSS))
           (mkEvent DPLL "eth0" "ptp4l.0.config" "T-BC" 2 true false (Some (EDPLL entered))) entered
           (card_created GNSS) (at_end_reachable _ _)); [|reflexivity].
  apply (list_elem_of_lookup_2 _ 1). vm_compute. reflexivity.
Defined.

(** The first monitoring goroutine takes [n] steps. *)
Definition monitor (n : nat) : list Act := replicate n (AMonitor 0 4 true).

(** A stop before the goroutine runs, which then marks the process Running again; the
    next stop closes the channel a second time. *)
Definition stop_race : list Act := [AStart; AStop; AMonitor 0 1 true].

Lemma only_second_stop_panics_witness :
  Stop (at_end stop_race (card GNSS)) = None /\ dcStopCh (syDpll (at_end stop_race (card GNSS))) = Some true.
Proof.
  apply (only_second_stop_panics (card GNSS) _ (card_created GNSS) (at_end_reachable stop_race (card GNSS)));
    [vm_compute; discriminate|split; [reflexivity|]|..]; try (vm_compute; set_solver).
  change (@None Sys) with (Stop (at_end stop_race (card GNSS))). apply StStop. reflexivity.
Defined.

Definition before_lock : Sys :=
  on_dpll (fun d => d <| dcPhaseStatus := DPLL_LOCKED |> <| dcFrequencyStatus := DPLL_LOCKED_HO_ACQ |>
                      <| dcPhaseOffset := -5 |>) (initial (card GNSS)).

Lemma locked_needs_lock_and_range_witness :
  exists s', stateDecision 1 true before_lock = Some s' /\ dcState (syDpll s') = PTP_LOCKED
  /\ is_locked (dcPhaseStatus (syDpll before_lock)) /\ is_locked (dcFrequencyStatus (syDpll before_lock)).
Proof.
  eexists. split; [vm_compute; reflexivity|]. split; [reflexivity|].
  refine (proj2 (proj2 (locked_needs_lock_and_range 1 true before_lock _ _ _ _ _ _)) _ _ _);
    [vm_compute; reflexivity|vm_compute; reflexivity|vm_compute; reflexivity|vm_compute; discriminate|reflexivity
    |reflexivity|reflexivity|reflexivity].
Defined.

Lemma one_monitor_witness :
  (length (actives (syMonitors (at_end [AStart] (card GNSS)))) <= 1)%nat
  /\ (actives (syMonitors (at_end [AStart] (card GNSS))) <> []
      <-> dcProcessState (syDpll (at_end [AStart] (card GNSS))) ∈ [Starting; Running; Stopping]).
Proof. apply (one_monitor (card GNSS) _ (card_created GNSS) (at_end_reachable [AStart] (card GNSS))). Defined.

Lemma SetPhaseOffset_truncates_witness :
  SetPhaseOffset (-1999999) (card GNSS) = (card GNSS) <| dcPhaseOffset := -1 |>.
Proof. apply (SetPhaseOffset_truncates (-1999999) (card GNSS)). split; vm_compute; congruence. Defined.

Lemma CalculateTimer_order_witness :
  CalculateTimer [(MaxInSpecOffsetStr, "100"%string); ("x"%string, "y"%string)] = (100, 1500, 14400, 960, false).
Proof.
  pose proof (CalculateTimer_order
    (<["x"%string := "y"%string]> (<[MaxInSpecOffsetStr := "100"%string]> ∅))
    [(MaxInSpecOffsetStr, "100"%string); ("x"%string, "y"%string)]) as H.
  cbv zeta in H. rewrite H; [vm_compute; reflexivity|]. vm_compute map_to_list. reflexivity || apply Permutation_swap.
Defined.

(** *** What the runs show *)

Definition last_data (s : Sys) : option DPLLData :=
  e ← last (syEvents s); match evData e with Some (EDPLL dd) => Some dd | _ => None end.

(** A holdover closed because the offset went out of range ends with [inSpec] set: the
    goroutine's receive overrides the decision, its last event reports FREERUN in
    spec, and the hardware's next holdover is accepted as one. *)
Definition close_out_of_range : list Act :=
  [AApply (both DPLL_LOCKED) (measure 9000000000); AEvent 4 true; AHoldover 0 5 true; AHoldover 0 6 true].

Lemma closing_restores_inSpec :
  let s := at_end (lock ++ enter ++ close_out_of_range) (card GNSS) in
  let s' := at_end (lock ++ enter ++ close_out_of_range ++ enter) (card GNSS) in
  dcState (syDpll s) = PTP_FREERUN /\ (ddOutOfSpec <$> last_data s) = Some false
  /\ dcState (syDpll s') = PTP_HOLDOVER.
Proof. vm_compute. repeat split. Qed.

(** A close the goroutine is too busy to receive is lost: the DPLL locks, and the next
    tick of a card with a PTP source reports HOLDOVER again. *)
Definition lost_close : list Act :=
  [ASelect 0 (OnTick (f64_of_Z 1)); AApply (both DPLL_LOCKED) []; AEvent 4 true; AHoldover 0 5 true].

Lemma close_lost_while_ticking :
  let s := at_end (lock ++ enter ++ lost_close) (card PTP4l) in
  dcPhaseStatus (syDpll s) = DPLL_LOCKED /\ dcState (syDpll s) = PTP_HOLDOVER /\ dcOnHoldover (syDpll s) = true.
Proof. vm_compute. repeat split. Qed.

(** A stop that overtakes the goroutine it stops ends in Dead, the state of a process
    that failed, not in Stopped. *)
Lemma stop_while_starting_dies :
  dcProcessState (syDpll (at_end (stop_race ++ monitor 6) (card GNSS))) = Dead.
Proof. reflexivity. Qed.

(** An update that comes between the clearing of [onHoldover] and the setting of
    [closing] starts a second holdover goroutine while the first has not left yet. *)
Lemma late_update_starts_second :
  let stopped := at_end (lock ++ enter ++ [AStart; AMonitor 0 4 true; AMonitor 0 4 true; AStop] ++ monitor 4) (card GNSS) in
  let s := at_end (lock ++ enter ++ [AStart; AMonitor 0 4 true; AMonitor 0 4 true; AStop] ++ monitor 4
                   ++ [AApply (both DPLL_HOLDOVER) []; AEvent 5 true]) (card GNSS) in
  syMonitors stopped = [MCleared] /\ length (syHoldovers stopped) = 1%nat /\ length (syHoldovers s) = 2%nat.
Proof. vm_compute. repeat split. Qed.

End Dpll.
