(* ===== verification/ExecProcess.v ===== *)
(** * pkg/daemon: the processes of linuxptp

    The lifecycle of a [ptpProcess] of pkg/daemon/ptp_process.go: [Start] and [Stop]
    with the goroutine of [run], which starts the command, waits for it and reports
    the end.  [Start], [Stop] and each section of the goroutine under the mutex is one
    step, and so is each report it sends without it: its deferred function reads the
    state, sets it, reports "down" and resets the GM in four steps, between which
    [Start] and [Stop] may come.  The goroutines are a list, because nothing in the
    data prevents a second one.  [Stop] closes the channel it read under the mutex only
    after the unlock; no step reads that channel and a later [Start] makes another, so
    the close is part of its step.  [run] reads [cmd] and opens its pipe before its
    section under the mutex; only [Start] writes [cmd], so they are part of that step.

    [step] is labelled with whether the operating system may refuse to start the
    command.  When it never does at most one goroutine has not settled the state, the
    state tells where it is, and [Stop] never closes its channel twice; when it does, a
    restart can overtake the goroutine that failed. *)

From S2P Require Import Prelude Event Conditions Process.

Module Exec.

Import Process.

Definition PtpProcessDown : Z := 0.
Definition PtpProcessUp : Z := 1.

Definition ts2phcProcessName : string := "ts2phc".

Record ExecProcess := mkExec {
  epName : string;
  epConfigName : string;
  epClockType : ClockType;
  epEventCh : bool;                                       (* eventCh != nil *)
  epStopCh : option bool;                                 (* nil, or made: is it closed? *)
  epConditions : option (list (Conditions.Action * option Conditions.Condition));
  epState : State;
  epCmd : bool                                            (* cmd != nil *)
}.

#[export] Instance ExecProcess_fields : Fields ExecProcess := fun p =>
  mkExec (epName p) (epConfigName p) (epClockType p) (epEventCh p) (epStopCh p) (epConditions p) (epState p) (epCmd p).

Definition setState (st : State) (p : ExecProcess) : ExecProcess := p <| epState := st |>.

(** [Start], up to the goroutine it spawns when the result says so. *)
Definition Start (p : ExecProcess) : option string * bool * ExecProcess :=
  match epState p with
  | Starting | Running => (None, false, p)
  | Stopping => (Some (epName p +:+ " is stopping")%string, false, p)
  | Created | Stopped | Dead => (None, true, (setState Starting p) <| epStopCh := Some false |>)
  end.

(** [close(stopCh)] of a channel that is not nil; [None] is the panic. *)
Definition close_stop (p : ExecProcess) : option ExecProcess :=
  match epStopCh p with
  | None => Some p
  | Some true => None
  | Some false => Some (p <| epStopCh := Some true |>)
  end.

(** [Stop]: the process, and whether it signals the command. *)
Definition Stop (p : ExecProcess) : option (bool * ExecProcess) :=
  match epState p with
  | Created | Stopping | Stopped | Dead => Some (false, p)
  | Starting => p' ← close_stop (setState Stopping p); Some (false, p')
  | Running => p' ← close_stop (setState Stopping p); Some (epCmd p, p')
  end.

(** [sendProcessStatusEvent]. *)
Definition sendProcessStatusEvent (now : Z) (status : Z) (p : ExecProcess) : list Event :=
  if epEventCh p then [ProcessStatusEvent now (epName p) (epConfigName p) (epClockType p) "" status] else [].

(** [updateGMStatusOnProcessDown]: a non-blocking send. *)
Definition updateGMStatusOnProcessDown (accepted : bool) (p : ExecProcess) : list Event :=
  if (str_eqb (epName p) ts2phcProcessName && epEventCh p && accepted)%bool
  then [mkEvent TS2PHC "" (epConfigName p) "" 0 false true None] else [].

(** The goroutine of [run]: before the command; its report "up" not yet sent; waiting
    for the command; in its deferred function, with what it read of the state, with the
    report "down" not yet sent, with the reset of the GM not yet sent. *)
Inductive Run :=
| RSpawned
| RUp
| RWaiting
| RExit
| RRead (stopping : bool)
| RDown
| RReset.

(** It has still to set the state. *)
Definition active (r : Run) : bool := match r with RDown | RReset => false | _ => true end.

(** It is in its deferred function. *)
Definition exiting (r : Run) : bool := match r with RExit | RRead _ | RDown | RReset => true | _ => false end.

Record Sys := mkSys { syProc : ExecProcess; syRuns : list Run; syEvents : list Event }.

#[export] Instance Sys_fields : Fields Sys := fun s => mkSys (syProc s) (syRuns s) (syEvents s).

(** The part before the command runs: the pipe is there ([piped]), the state is not
    Stopping, and the operating system starts the command ([started]). *)
Definition run_begin (piped started : bool) (p : ExecProcess) : Run * ExecProcess :=
  if negb (epCmd p) then (RExit, p)
  else if negb piped then (RExit, p)
  else if State_eqb (epState p) Stopping then (RExit, p)
  else if negb started then (RExit, setState Dead p)
  else (RUp, setState Running p).

(** The deferred function, step by step: where the goroutine is next, if it goes on. *)
Definition run_exit (now : Z) (accepted : bool) (r : Run) (p : ExecProcess) : option Run * ExecProcess * list Event :=
  match r with
  | RExit => (Some (RRead (State_eqb (epState p) Stopping)), p, [])
  | RRead stopping => (Some RDown, setState (if stopping then Stopped else Dead) p, [])
  | RDown => (Some RReset, p, sendProcessStatusEvent now PtpProcessDown p)
  | RReset => (None, p, updateGMStatusOnProcessDown accepted p)
  | _ => (Some r, p, [])
  end.

Definition remove_nth {A} (i : nat) (l : list A) : list A := take i l ++ drop (S i) l.

Definition do_start (s : Sys) : Sys :=
  let r := Start (syProc s) in
  s <| syProc := r.2 |> <| syRuns := if (r.1.2 : bool) then syRuns s ++ [RSpawned] else syRuns s |>.

Definition do_begin (i : nat) (piped started : bool) (s : Sys) : Sys :=
  let r := run_begin piped started (syProc s) in
  s <| syProc := r.2 |> <| syRuns := <[i := r.1]> (syRuns s) |>.

Definition do_up (i : nat) (now : Z) (s : Sys) : Sys :=
  s <| syRuns := <[i := RWaiting]> (syRuns s) |>
    <| syEvents := syEvents s ++ sendProcessStatusEvent now PtpProcessUp (syProc s) |>.

Definition do_end (i : nat) (s : Sys) : Sys := s <| syRuns := <[i := RExit]> (syRuns s) |>.

Definition do_exit (i : nat) (now : Z) (accepted : bool) (r : Run) (s : Sys) : Sys :=
  let x := run_exit now accepted r (syProc s) in
  s <| syProc := x.1.2 |>
    <| syRuns := match x.1.1 with Some r' => <[i := r']> (syRuns s) | None => remove_nth i (syRuns s) end |>
    <| syEvents := syEvents s ++ x.2 |>.

Definition do_stop (s : Sys) : option Sys := r ← Stop (syProc s); Some (s <| syProc := r.2 |>).

Definition set_conditions (c : option (list (Conditions.Action * option Conditions.Condition))) (s : Sys) : Sys :=
  s <| syProc := (syProc s) <| epConditions := c |> |>.

(** [fails]: may the operating system refuse a command? *)
Inductive step (fails : bool) (s : Sys) : Sys -> Prop :=
| StStart : step fails s (do_start s)
| StStop r : Stop (syProc s) = Some r -> step fails s (s <| syProc := r.2 |>)
| StBegin i piped started :
    syRuns s !! i = Some RSpawned -> (started = false -> fails = true) -> (piped = false -> fails = true) ->
    step fails s (do_begin i piped started s)
| StUp i now : syRuns s !! i = Some RUp -> step fails s (do_up i now s)
| StEnd i : syRuns s !! i = Some RWaiting -> step fails s (do_end i s)
| StExit i now accepted r :
    syRuns s !! i = Some r -> exiting r = true -> step fails s (do_exit i now accepted r s).

Inductive reachable (fails : bool) (p : ExecProcess) : Sys -> Prop :=
| reachable_init : reachable fails p (mkSys p [] [])
| reachable_step s s' : reachable fails p s -> step fails s s' -> reachable fails p s'.

(** A process the daemon has just built. *)
Definition fresh (p : ExecProcess) : Prop := epState p = Created /\ epStopCh p = None.

(** ** The invariant *)

Definition actives (rs : list Run) : list Run := List.filter active rs.

(** Where the goroutine that has not settled the state can be in each state. *)
Definition runs_ok (st : State) (rs : list Run) : Prop :=
  match st with
  | Created | Stopped | Dead => rs = []
  | Starting => exists r, rs = [r] /\ (r = RSpawned \/ r = RExit \/ r = RRead false)
  | Running => exists r, rs = [r] /\ (r = RUp \/ r = RWaiting \/ r = RExit \/ r = RRead false)
  | Stopping => exists r, rs = [r]
  end.

(** The reported statuses. *)
Definition is_status (st : Z) (e : Event) : bool :=
  match evData e with Some (EProcessStatus s) => s =? st | _ => false end.

Definition reports (st : Z) (es : list Event) : nat := length (List.filter (is_status st) es).

(** A goroutine that may have reported "up" and has its "down" still to report. *)
Definition owes (r : Run) : bool := match r with RWaiting | RExit | RRead _ | RDown => true | _ => false end.

Definition owed (rs : list Run) : nat := length (List.filter owes rs).

Record Inv (s : Sys) : Prop := {
  inv_runs : runs_ok (epState (syProc s)) (actives (syRuns s));
  inv_open : epState (syProc s) = Starting \/ epState (syProc s) = Running -> epStopCh (syProc s) = Some false;
  inv_reports : epEventCh (syProc s) = true ->
    (reports PtpProcessUp (syEvents s) <= reports PtpProcessDown (syEvents s) + owed (syRuns s))%nat
}.

(** *** Lists of goroutines *)

Lemma filter_middle {A} (f : A -> bool) rs i r :
  rs !! i = Some r ->
  List.filter f rs = List.filter f (take i rs) ++ (if f r then [r] else []) ++ List.filter f (drop (S i) rs).
Proof.
  intros H. rewrite <- (take_drop_middle _ _ _ H) at 1. rewrite List.filter_app. simpl. by case_match.
Qed.

Lemma filter_insert {A} (f : A -> bool) rs i r r' :
  rs !! i = Some r ->
  List.filter f (<[i := r']> rs)
  = List.filter f (take i rs) ++ (if f r' then [r'] else []) ++ List.filter f (drop (S i) rs).
Proof.
  intros H. rewrite insert_take_drop by by eapply lookup_lt_Some. rewrite List.filter_app. simpl. by case_match.
Qed.

Lemma filter_remove {A} (f : A -> bool) rs i :
  List.filter f (remove_nth i rs) = List.filter f (take i rs) ++ List.filter f (drop (S i) rs).
Proof. apply List.filter_app. Qed.

Lemma owed_insert rs i r r' :
  rs !! i = Some r -> (owed (<[i := r']> rs) + (if owes r then 1 else 0) = owed rs + (if owes r' then 1 else 0))%nat.
Proof.
  intros H. unfold owed. rewrite (filter_insert _ _ _ _ r' H), (filter_middle owes _ _ _ H), !length_app.
  destruct (owes r), (owes r'); simpl; lia.
Qed.

Lemma owed_remove rs i r : rs !! i = Some r -> owes r = false -> owed (remove_nth i rs) = owed rs.
Proof.
  intros H E. unfold owed. rewrite filter_remove, (filter_middle owes _ _ _ H), E, !length_app. done.
Qed.

Lemma reports_app st es es' : reports st (es ++ es') = (reports st es + reports st es')%nat.
Proof. unfold reports. by rewrite List.filter_app, length_app. Qed.

Lemma reset_reports st accepted p : reports st (updateGMStatusOnProcessDown accepted p) = 0%nat.
Proof. unfold updateGMStatusOnProcessDown. by case_match. Qed.

Lemma runs_ok_alive st rs :
  runs_ok st rs -> (length rs <= 1)%nat /\ (rs = [] <-> st ∈ [Created; Stopped; Dead]).
Proof.
  destruct st; simpl; [intros ->|intros (r & -> & _)|intros (r & -> & _)|intros [r ->]|intros ->|intros ->];
    simpl; (split; [lia|]); set_solver.
Qed.

(** The goroutine that runs is the only one that has not settled the state. *)
Lemma only_active_run st rs i r :
  runs_ok st (actives rs) -> rs !! i = Some r -> active r = true ->
  actives rs = [r] /\ forall r', actives (<[i := r']> rs) = if active r' then [r'] else [].
Proof.
  intros HL Hi Hr. apply runs_ok_alive in HL as [HL _]. unfold actives in *.
  pose proof (filter_middle active _ _ _ Hi) as E. rewrite Hr in E. rewrite E in HL.
  rewrite !length_app in HL. simpl in HL.
  assert (List.filter active (take i rs) = []) as E1 by (apply nil_length_inv; lia).
  assert (List.filter active (drop (S i) rs) = []) as E2 by (apply nil_length_inv; lia).
  split; [by rewrite E, E1, E2|]. intros r'. rewrite (filter_insert _ _ _ _ _ Hi), E1, E2, app_nil_r. done.
Qed.

(** One that has is not looked at. *)
Lemma settled_actives rs i r r' :
  rs !! i = Some r -> active r = false -> active r' = false ->
  actives (<[i := r']> rs) = actives rs /\ actives (remove_nth i rs) = actives rs.
Proof.
  intros Hi Hr Hr'. unfold actives.
  by rewrite filter_remove, (filter_insert _ _ _ _ _ Hi), (filter_middle active _ _ _ Hi), Hr, Hr'.
Qed.

(** *** Each step *)

Lemma exec_Start_Inv s : Inv s -> Inv (do_start s).
Proof.
  intros [Hr Ho Hc]. unfold do_start, Start.
  assert (owed (syRuns s ++ [RSpawned]) = owed (syRuns s)) as E1.
  { unfold owed. rewrite List.filter_app, length_app. simpl. lia. }
  destruct (epState (syProc s)) eqn:E; simpl in *; split; simpl; rewrite ?E, ?E1; try done;
    unfold actives in *; rewrite List.filter_app, Hr; simpl; eauto.
Qed.

Lemma close_stop_total p : epStopCh p = Some false -> close_stop p = Some (p <| epStopCh := Some true |>).
Proof. unfold close_stop. by intros ->. Qed.

Lemma Stop_total s : Inv s -> is_Some (Stop (syProc s)).
Proof.
  intros [_ Ho _]. unfold Stop. destruct (epState (syProc s)) eqn:E; try by eexists.
  - rewrite close_stop_total by (simpl; apply Ho; auto). by eexists.
  - rewrite close_stop_total by (simpl; apply Ho; auto). by eexists.
Qed.

Lemma exec_Stop_Inv s r : Inv s -> Stop (syProc s) = Some r -> Inv (s <| syProc := r.2 |>).
Proof.
  intros [Hr Ho Hc] H. unfold Stop in H.
  destruct (epState (syProc s)) eqn:E; simpl in *;
    try (injection H as <-; split; simpl; rewrite ?E; eauto; done);
    rewrite close_stop_total in H by (simpl; apply Ho; auto); injection H as <-; split; simpl; naive_solver.
Qed.

Lemma exec_begin_Inv s i : Inv s -> syRuns s !! i = Some RSpawned -> Inv (do_begin i true true s).
Proof.
  intros [Hr Ho Hc] Hi. destruct (only_active_run _ _ _ _ Hr Hi eq_refl) as [E1 E2]. rewrite E1 in Hr.
  pose proof (owed_insert _ _ _ RExit Hi) as C1. pose proof (owed_insert _ _ _ RUp Hi) as C2. simpl in C1, C2.
  unfold do_begin, run_begin. destruct (epCmd (syProc s)); simpl.
  - unfold State_eqb. case_bool_decide as Es; simpl.
    + split; simpl; rewrite ?E2, ?Es; simpl; [by eexists|naive_solver|intros; specialize (Hc ltac:(done)); lia].
    + split; simpl; rewrite ?E2; simpl; [eauto|intros _; apply Ho|intros; specialize (Hc ltac:(done)); lia].
      destruct (epState (syProc s)); naive_solver.
  - split; simpl; rewrite ?E2; simpl; [|done|intros; specialize (Hc ltac:(done)); lia].
    destruct (epState (syProc s)); naive_solver.
Qed.

Lemma exec_up_Inv s i now : Inv s -> syRuns s !! i = Some RUp -> Inv (do_up i now s).
Proof.
  intros [Hr Ho Hc] Hi. destruct (only_active_run _ _ _ _ Hr Hi eq_refl) as [E1 E2]. rewrite E1 in Hr.
  pose proof (owed_insert _ _ _ RWaiting Hi) as C1. simpl in C1. unfold do_up.
  split; simpl; rewrite ?E2; simpl; [destruct (epState (syProc s)); naive_solver|done|].
  intros He. specialize (Hc He). rewrite !reports_app. unfold sendProcessStatusEvent. rewrite He.
  change (reports PtpProcessUp [_]) with 1%nat. change (reports PtpProcessDown [_]) with 0%nat. lia.
Qed.

Lemma exec_end_Inv s i : Inv s -> syRuns s !! i = Some RWaiting -> Inv (do_end i s).
Proof.
  intros [Hr Ho Hc] Hi. destruct (only_active_run _ _ _ _ Hr Hi eq_refl) as [E1 E2]. rewrite E1 in Hr.
  pose proof (owed_insert _ _ _ RExit Hi) as C1. simpl in C1. unfold do_end.
  split; simpl; rewrite ?E2; simpl; [destruct (epState (syProc s)); naive_solver|done|].
  intros He. specialize (Hc He). lia.
Qed.

Lemma exec_exit_Inv s i now accepted r :
  Inv s -> syRuns s !! i = Some r -> exiting r = true -> Inv (do_exit i now accepted r s).
Proof.
  intros [Hr Ho Hc] Hi He. destruct r as [| | | |stopping| |]; try done; unfold do_exit; simpl.
  - destruct (only_active_run _ _ _ _ Hr Hi eq_refl) as [E1 E2]. rewrite E1 in Hr.
    pose proof (owed_insert _ _ _ (RRead (State_eqb (epState (syProc s)) Stopping)) Hi) as C1. simpl in C1.
    split; simpl; rewrite ?E2; simpl; [|done|intros Hch; specialize (Hc Hch); rewrite !app_nil_r; lia].
    unfold State_eqb. case_bool_decide as Es; [rewrite Es; by eexists|].
    destruct (epState (syProc s)); naive_solver.
  - destruct (only_active_run _ _ _ _ Hr Hi eq_refl) as [E1 E2].
    pose proof (owed_insert _ _ _ RDown Hi) as C1. simpl in C1.
    split; simpl; rewrite ?E2; simpl; [by destruct stopping|destruct stopping; naive_solver|].
    intros Hch; specialize (Hc Hch); rewrite !app_nil_r; lia.
  - destruct (settled_actives _ _ _ RReset Hi eq_refl eq_refl) as [E1 _].
    pose proof (owed_insert _ _ _ RReset Hi) as C1. simpl in C1.
    split; simpl; rewrite ?E1; [done..|]. intros Hch. specialize (Hc Hch).
    rewrite !reports_app. unfold sendProcessStatusEvent. rewrite Hch.
    change (reports PtpProcessUp [_]) with 0%nat. change (reports PtpProcessDown [_]) with 1%nat. lia.
  - destruct (settled_actives _ _ _ RReset Hi eq_refl eq_refl) as [_ E1].
    split; simpl; rewrite ?E1; [done..|]. intros Hch. specialize (Hc Hch).
    rewrite (owed_remove _ _ RReset Hi eq_refl), !reports_app, !reset_reports. lia.
Qed.

Lemma exec_step_Inv s s' : Inv s -> step false s s' -> Inv s'.
Proof.
  intros HI H. destruct H as [|r Hr|i piped started Hi Hs Hp|i now Hi|i Hi|i now accepted r Hi He].
  - by apply exec_Start_Inv.
  - by apply exec_Stop_Inv.
  - destruct piped; [|by specialize (Hp eq_refl)]. destruct started; [|by specialize (Hs eq_refl)].
    by apply exec_begin_Inv.
  - by apply exec_up_Inv.
  - by apply exec_end_Inv.
  - by apply exec_exit_Inv.
Qed.

Lemma exec_reachable_Inv p s : fresh p -> reachable false p s -> Inv s.
Proof.
  intros [H1 H2]. induction 1 as [|s s' _ IH Hs]; [|by eapply exec_step_Inv].
  split; simpl; rewrite ?H1; [done|naive_solver|done].
Qed.

Lemma reachable_channel fails p s : reachable fails p s -> epEventCh (syProc s) = epEventCh p.
Proof.
  induction 1 as [|s s' _ IH Hs]; [done|]. rewrite <- IH. clear IH.
  destruct Hs as [|r Hr|i piped started Hi Hs Hp|i now Hi|i Hi|i now accepted r Hi He]; try done.
  - unfold do_start, Start. by destruct (epState (syProc s)).
  - unfold Stop in Hr. destruct (epState (syProc s)); simplify_eq/=; try done;
      unfold close_stop in Hr; simpl in Hr; repeat case_match; by simplify_eq/=.
  - unfold do_begin, run_begin. by repeat case_match.
  - unfold do_exit, run_exit. by destruct r.
Qed.

(** ** Properties *)

(** C35. In every interleaving of starts, stops and the goroutines they start, for a
    process whose command the operating system never refuses, at most one goroutine has
    not settled the process state, and one exactly in the states Starting, Running and
    Stopping; [Stop] never closes its channel twice; and every "up" is answered: the
    process has not reported more of them than "down"s and goroutines that still owe
    theirs, so when no goroutine is left not more than "down"s. *)
Theorem exec_lifecycle p s :
  fresh p -> reachable false p s ->
  (length (actives (syRuns s)) <= 1)%nat
  /\ (actives (syRuns s) = [] <-> epState (syProc s) ∈ [Created; Stopped; Dead])
  /\ is_Some (Stop (syProc s))
  /\ (epEventCh p = true ->
      (reports PtpProcessUp (syEvents s) <= reports PtpProcessDown (syEvents s) + owed (syRuns s))%nat).
Proof.
  intros Hf Hr. pose proof (exec_reachable_Inv _ _ Hf Hr) as HI.
  destruct (runs_ok_alive _ _ (inv_runs _ HI)) as [H1 H2]. split_and!; try done; [by apply Stop_total|].
  rewrite <- (reachable_channel _ _ _ Hr). apply HI.
Qed.

(** A stop wins over the start it overtakes: in the state Stopping a goroutine
    that has not reached its command ends without running it or reporting "up", and
    the process ends in Stopped. *)
Theorem stop_overtakes_start now piped started accepted p :
  epState p = Stopping ->
  run_begin piped started p = (RExit, p)
  /\ run_exit now accepted RExit p = (Some (RRead true), p, [])
  /\ epState (run_exit now accepted (RRead true) p).1.2 = Stopped.
Proof.
  intros H. unfold run_begin, run_exit, State_eqb. rewrite H. simpl. by destruct (epCmd p), piped.
Qed.

(** ** Witnesses *)

Definition ex_proc : ExecProcess := mkExec "ptp4l" "ptp4l.0.config" "OC" true None None Created true.

(** Started and up. *)
Definition up (i : nat) (s : Sys) : Sys := do_up i 5 (do_begin i true true s).

(** Goroutine [i] has left its command and reads the state, settles it, reports. *)
Definition exit_read (i : nat) (stopping : bool) (s : Sys) : Sys :=
  do_exit i 6 true (RRead stopping) (do_exit i 6 true RExit s).

Definition exit_all (i : nat) (stopping : bool) (s : Sys) : Sys :=
  do_exit i 6 true RReset (do_exit i 6 true RDown (exit_read i stopping s)).

Definition ex_run : Sys := up 0 (do_start (mkSys ex_proc [] [])).

Ltac run_steps := repeat (eapply reachable_step; [|by constructor]); constructor.

Lemma ex_run_reachable fails : reachable fails ex_proc ex_run.
Proof. run_steps. Qed.

Lemma exec_lifecycle_witness :
  (length (actives (syRuns ex_run)) <= 1)%nat /\ is_Some (Stop (syProc ex_run)).
Proof.
  destruct (exec_lifecycle ex_proc ex_run (conj eq_refl eq_refl) (ex_run_reachable false)) as (H1 & _ & H2 & _).
  split; [exact H1|exact H2].
Defined.

Lemma stop_overtakes_start_witness :
  epState (setState Stopping ex_proc) = Stopping
  /\ (run_begin true true (setState Stopping ex_proc)).1 = RExit.
Proof.
  split; [reflexivity|]. rewrite (proj1 (stop_overtakes_start 5 true true true (setState Stopping ex_proc) eq_refl)).
  reflexivity.
Defined.

(** A refused command leaves the process Dead before its goroutine has ended; a start
    that comes in between is marked Dead by that goroutine, and one more start runs
    the command twice. *)
Lemma refused_command_runs_twice :
  exists s, reachable true ex_proc s /\ syRuns s = [RWaiting; RWaiting].
Proof.
  exists (up 1 (up 0 (do_start (exit_all 0 false (do_start (do_begin 0 true false (do_start (mkSys ex_proc [] [])))))))).
  split; [|reflexivity]. run_steps.
Qed.

(** A stop between the goroutine's look at the state and its setting of it is
    overwritten: the process that was stopped is Dead, like one that failed. *)
Lemma stop_overwritten :
  exists s s', reachable false ex_proc s /\ do_stop s = Some s' /\ epState (syProc s') = Stopping
  /\ step false s' (do_exit 0 6 true (RRead false) s') /\ epState (syProc (do_exit 0 6 true (RRead false) s')) = Dead.
Proof.
  exists (do_exit 0 6 true RExit (do_end 0 ex_run)). eexists. split; [run_steps|]. split; [reflexivity|].
  split; [reflexivity|]. split; [by constructor|reflexivity].
Qed.

(** A start between the end of a goroutine and its report: the new goroutine's "up"
    comes before the old one's "down", so the last report of a running process is "down". *)
Lemma down_after_restart :
  exists s, reachable false ex_proc s /\ epState (syProc s) = Running
  /\ syEvents s = [ProcessStatusEvent 5 "ptp4l" "ptp4l.0.config" "OC" "" PtpProcessUp;
                   ProcessStatusEvent 5 "ptp4l" "ptp4l.0.config" "OC" "" PtpProcessUp;
                   ProcessStatusEvent 6 "ptp4l" "ptp4l.0.config" "OC" "" PtpProcessDown].
Proof.
  exists (do_exit 0 6 true RDown (up 1 (do_start (exit_read 0 false (do_end 0 ex_run))))).
  split; [|split; reflexivity]. run_steps.
Qed.

End Exec.
