(* ===== verification/Processes.v ===== *)
(** * pkg/daemon: the processes the manager holds

    [AnyProcess] is the Go interface value: a linuxptp process (ExecProcess.v) or a
    DPLL (Dpll.v), each with the goroutines it started.  Its instances discharge the
    interface of Process.v. *)

From S2P Require Import Prelude Event Conditions Process ExecProcess Dpll.

Inductive AnyProcess :=
| PExec (s : Exec.Sys)
| PDpll (s : Dpll.Sys).

(** The conditions of a DPLL are an empty map, which nothing writes to. *)
#[export] Instance Process_AnyProcess : Process AnyProcess := {
  pName p := match p with PExec s => Exec.epName (Exec.syProc s) | PDpll _ => DPLL end;
  pConfigName p :=
    match p with PExec s => Exec.epConfigName (Exec.syProc s) | PDpll s => Dpll.dcConfigName (Dpll.syDpll s) end;
  pState p :=
    match p with PExec s => Exec.epState (Exec.syProc s) | PDpll s => Dpll.dcProcessState (Dpll.syDpll s) end;
  pConditions p := match p with PExec s => Exec.epConditions (Exec.syProc s) | PDpll _ => Some [] end;
  pSetConditions c p :=
    match p with
    | PExec s => PExec (Exec.set_conditions c s)
    | PDpll s => PDpll s
    end;
  pHasProfile p := true;
  pIsPtpProcess p := match p with PExec _ => true | PDpll _ => false end;
  pStart p :=
    match p with
    | PExec s => ((Exec.Start (Exec.syProc s)).1.1, PExec (Exec.do_start s))
    | PDpll s => ((Dpll.Start s).1, PDpll (Dpll.Start s).2)
    end;
  pStop p :=
    match p with
    | PExec s => PExec <$> Exec.do_stop s
    | PDpll s => PDpll <$> Dpll.Stop s
    end
}.

#[export] Instance ProcessLaws_AnyProcess : ProcessLaws AnyProcess.
Proof.
  split.
  - intros [s|s]; cbn.
    + unfold Exec.Start. by destruct (Exec.epState (Exec.syProc s)).
    + unfold Dpll.Start. by destruct (Dpll.dcProcessState (Dpll.syDpll s)).
  - intros [s|s]; cbn; [|done]. unfold Exec.Start. by destruct (Exec.epState (Exec.syProc s)).
  - intros [s|s]; cbn.
    + unfold Exec.do_start, Exec.Start. destruct (Exec.epState (Exec.syProc s)) eqn:E; cbn; try done;
        destruct s; cbn in *; try done.
    + unfold Dpll.Start. by destruct (Dpll.dcProcessState (Dpll.syDpll s)) eqn:E; cbn; rewrite ?E.
  - intros [s|s] p' H; cbn in *.
    + destruct s as [[? ? ? ? [[]|] ? st ?] ? ?]; destruct st; cbn in *; simplify_eq/=; try done.
    + unfold Dpll.Stop in H. destruct (Dpll.dcProcessState (Dpll.syDpll s)) eqn:E;
        try destruct (Dpll.dcStopCh (Dpll.syDpll s)) as [[]|]; simplify_eq/=; try done; by rewrite E.
  - by intros c [s|s].
Qed.

(** A linuxptp process whose commands the operating system starts, in any reachable
    state, can be stopped, and so can a DPLL whose stop channel is open. *)
Lemma exec_stops p s : Exec.fresh p -> Exec.reachable false p s -> is_Some (pStop (PExec s)).
Proof.
  intros Hf Hr. destruct (Exec.Stop_total s (Exec.exec_reachable_Inv p s Hf Hr)) as [r E]. cbn. unfold Exec.do_stop. rewrite E. by eexists.
Qed.
