(* ===== verification/ProcMgr.v ===== *)
(** * pkg/daemon: the process manager

    pkg/daemon/process_manager.go: the manager starts the processes whose start
    condition is Immediate, and afterwards applies, on every event, every snapshot of
    the clock state and every tick, the action each waiting process's state calls for
    when its condition is met.

    The manager knows processes only through the interface of pkg/process, the class
    [Process] here; [ProcessLaws] is what it relies on, discharged for the linuxptp
    processes and the DPLLs in Processes.v.  Processes are shared by pointer: they live
    in [pmStore], and the list of processes with their dependent processes holds
    indices into it.  A condition is evaluated in place, as a composite keeps what it
    has seen; [None] is a panic.

    [Env] is what happens around a call: whether the context was cancelled, how many
    attempts the start timeout leaves room for, how a process develops during the
    pause between two of them, and what the other goroutines do to a process between
    two looks of the manager at its state, which [evalActions] and [reconcileWaiting]
    read three times before they act. *)

From S2P Require Import Prelude Event Stats Conditions Process ExecProcess Dpll Processes.

Module PM.

Import Process Conditions.

(** ** State *)

Inductive Effect :=
| EStarted (i : nat)
| EAfterRun (i : nat)
| ESyncInitialState (i : nat)
| EStopped (i : nat)
| EDeleteMetrics (i : nat)
| EStatusMetric (i : nat) (status : Z)
| EForward (ev : Event).

(** [statsIn]: nil, or the snapshots waiting in the channel and whether it is closed. *)
Inductive StatsIn := NilChan | Chan (pending : list EventStats) (closed : bool).

Record ProcessManager (P : Type) := mkPM {
  pmStore : list P;
  pmProcess : list (list nat * nat);       (* dependent processes, process *)
  pmWaiting : option (list nat);
  pmLatest : EventStats;
  pmStatsIn : StatsIn;
  pmDaemon : bool;                         (* daemon != nil *)
  pmLog : list Effect
}.

Arguments mkPM {P}.
Arguments pmStore {P}.
Arguments pmProcess {P}.
Arguments pmWaiting {P}.
Arguments pmLatest {P}.
Arguments pmStatsIn {P}.
Arguments pmDaemon {P}.
Arguments pmLog {P}.

#[export] Instance PM_fields {P} : Fields (ProcessManager P) := fun m =>
  mkPM (pmStore m) (pmProcess m) (pmWaiting m) (pmLatest m) (pmStatsIn m) (pmDaemon m) (pmLog m).

Record Env (P : Type) := mkEnv {
  envCancelled : bool;
  envAttempts : nat;
  envSettle : P -> P;
  envOthers : nat -> nat -> P -> P         (* between looks k and k+1 at process i *)
}.

Arguments mkEnv {P}.
Arguments envCancelled {P}.
Arguments envAttempts {P}.
Arguments envSettle {P}.
Arguments envOthers {P}.

Definition empty_stats : EventStats := mkStats ∅ ∅ ∅ "" "".

Section manager.
Context {P : Type} `{Process P}.
Implicit Types (m : ProcessManager P) (p : P).

Definition log (e : Effect) m : ProcessManager P := m <| pmLog := pmLog m ++ [e] |>.
Definition put (i : nat) (p : P) m : ProcessManager P := m <| pmStore := <[i := p]> (pmStore m) |>.

(** The order of [forEachProcess]: the dependent processes first. *)
Definition pointers m : list nat := concat (map (fun dp => dp.1 ++ [dp.2]) (pmProcess m)).

(** ** Conditions of a process *)

Definition condition (p : P) (a : Action) (fallback : Condition) : Condition :=
  GetCondition (pConditions p) a fallback.

(** The action whose entry [GetCondition] returns. *)
Definition condition_key (p : P) (a : Action) : option Action :=
  match pConditions p with
  | None => None
  | Some conds =>
      match configured a conds with
      | Some _ => Some a
      | None =>
          if decide (a = ActionRestart) then
            match configured ActionStart conds with Some _ => Some ActionStart | None => None end
          else None
      end
  end.

Fixpoint put_condition (a : Action) (c : Condition) (conds : list (Action * option Condition)) :
    list (Action * option Condition) :=
  match conds with
  | [] => []
  | (b, o) :: rest => if decide (a = b) then (b, Some c) :: rest else (b, o) :: put_condition a c rest
  end.

(** Evaluation in place. *)
Definition evaluate (f : Condition -> option (Condition * bool)) (a : Action) (fallback : Condition) (p : P) :
    option (P * bool) :=
  r ← f (condition p a fallback);
  Some (match condition_key p a with
        | Some k => pSetConditions (put_condition k r.1 <$> pConditions p) p
        | None => p
        end, r.2).

Definition waitingOnCondition (p : P) : bool :=
  let wanted := match pState p with
                | Created => ActionStart
                | Stopping | Stopped | Dead => ActionRestart
                | Starting | Running => ActionStop
                end in
  match condition_key p wanted with Some _ => true | None => false end.

Definition waits m (i : nat) : bool :=
  match pmStore m !! i with Some p => waitingOnCondition p | None => false end.

Definition getWaitingProcesses m : list nat := List.filter (waits m) (pointers m).

Definition set_waiting m : ProcessManager P := m <| pmWaiting := Some (getWaitingProcesses m) |>.

(** [None] is the panic of the default case. *)
Definition stateTransitionAction (st : State) : option (Action * Condition) :=
  match st with
  | Created => Some (ActionStart, Immediate "")
  | Dead => Some (ActionRestart, Immediate "")
  | Stopped => Some (ActionRestart, Never)
  | Running => Some (ActionStop, Never)
  | Starting | Stopping => None
  end.

(** ** Starting and stopping one process *)

Fixpoint start_attempts (settle : P -> P) (n : nat) (p : P) : option string * P :=
  match n with
  | O => (Some "failed to start"%string, p)
  | S n' =>
      match pStart p with
      | (None, p') => (None, p')
      | (Some _, p') => start_attempts settle n' (settle p')
      end
  end.

(** A cancelled context returns no error without a start. *)
Definition startProcessWithRetry (env : Env P) (p : P) : option string * P :=
  if envCancelled env then (None, p) else start_attempts (envSettle env) (envAttempts env) p.

(** What [startProcess] does to a process and what it logs. *)
Definition start_effects m (env : Env P) (i : nat) (p : P) : list Effect :=
  match (startProcessWithRetry env p).1 with
  | Some _ => []
  | None =>
      (if envCancelled env then [] else [EStarted i])
        ++ (if (pmDaemon m && pHasProfile p)%bool then [EAfterRun i] else []) ++ [ESyncInitialState i]
  end.

Definition startProcess (env : Env P) (i : nat) (p : P) m : ProcessManager P :=
  let m' := put i (startProcessWithRetry env p).2 m in
  m' <| pmLog := pmLog m' ++ start_effects m env i p |>.

Definition stopProcess (i : nat) (p : P) m : option (ProcessManager P) :=
  p' ← pStop p; Some (log (EStopped i) (put i p' m)).

(** ** Lookups *)

Definition findProcessesByName (name : string) m : list nat :=
  List.filter (fun i => match pmStore m !! i with Some p => str_eqb (pName p) name | None => false end)
    (map snd (pmProcess m)).

Definition matches (ev : Event) m (i : nat) : bool :=
  match pmStore m !! i with
  | Some p => str_eqb (pName p) (evSource ev) && str_eqb (pConfigName p) (evCfgName ev)
  | None => false
  end.

(** A process before its dependent processes. *)
Definition findProcess (ev : Event) m : option nat :=
  first_match (matches ev m) (concat (map (fun dp => dp.2 :: dp.1) (pmProcess m))).

Definition up (name cfg : string) (p : P) : bool :=
  str_eqb (pName p) name && (str_eqb cfg "" || str_eqb (pConfigName p) cfg)
  && match pState p with Starting | Running => true | _ => false end.

Definition sourceProcessUp m (name cfg : string) : bool :=
  existsb (fun i => match pmStore m !! i with Some p => up name cfg p | None => false end) (pointers m).

(** ** [StartProcesses] *)

Definition start_immediate (env : Env P) (i : nat) m : ProcessManager P :=
  match pmStore m !! i with
  | None => m
  | Some p =>
      match pState p with
      | Created | Stopped =>
          match condition p ActionStart (Immediate "") with
          | Immediate _ => startProcess env i p m
          | _ => m
          end
      | _ => m
      end
  end.

Definition StartProcesses (env : Env P) m : ProcessManager P :=
  let m1 := set_waiting m in
  set_waiting (foldl (fun m i => start_immediate env i m) m1 (pointers m1)).

(** ** [evalActions] *)

(** [if p.State() == Starting || p.State() == Stopping]: the process when its state is
    read again, and whether it is skipped instead. *)
Definition look (env : Env P) (i : nat) (p : P) : P * bool :=
  if State_eqb (pState p) Starting then (p, true)
  else
    let p1 := envOthers env 0 i p in
    if State_eqb (pState p1) Stopping then (p1, true) else (envOthers env 1 i p1, false).

(** The body of the loop for one waiting process. *)
Definition eval_action (env : Env P) (ev : Event) (i : nat) m : option (ProcessManager P * bool) :=
  match pmStore m !! i with
  | None => Some (m, false)
  | Some p =>
      let l := look env i p in
      let m := put i l.1 m in
      if (l.2 : bool) then Some (m, false)
      else
        af ← stateTransitionAction (pState l.1);
        r ← evaluate (Met ev empty_stats) af.1 af.2 l.1;
        let m1 := put i r.1 m in
        if negb r.2 then Some (m1, false)
        else
          match af.1 with
          | ActionStart | ActionRestart => Some (startProcess env i r.1 m1, true)
          | ActionStop => m2 ← stopProcess i r.1 m1; Some (m2, true)
          | _ => Some (m1, false)
          end
  end.

Fixpoint eval_loop (f : nat -> ProcessManager P -> option (ProcessManager P * bool)) (ws : list nat)
    (changed : bool) m : option (ProcessManager P * bool) :=
  match ws with
  | [] => Some (m, changed)
  | i :: ws' => r ← f i m; eval_loop f ws' (changed || r.2) r.1
  end.

Definition evalActions (env : Env P) (ev : Event) m : option (ProcessManager P) :=
  let m1 := set_waiting m in
  let ws := getWaitingProcesses m in
  if (length ws =? 0)%nat then Some m1
  else
    r ← eval_loop (eval_action env ev) ws false m1;
    Some (if (r.2 : bool) then set_waiting r.1 else r.1).

(** ** [reconcileWaiting] *)

Definition receive_stats m : ProcessManager P :=
  match pmStatsIn m with
  | Chan (s :: rest) closed => m <| pmLatest := s |> <| pmStatsIn := Chan rest closed |>
  | Chan [] true => m <| pmLatest := empty_stats |> <| pmStatsIn := NilChan |>
  | _ => m
  end.

Definition reconcile_one (env : Env P) (i : nat) m : option (ProcessManager P * bool) :=
  match pmStore m !! i with
  | None => Some (m, false)
  | Some p =>
      let l := look env i p in
      let m := put i l.1 m in
      if (l.2 : bool) then Some (m, false)
      else
        af ← stateTransitionAction (pState l.1);
        if negb (state_aware (condition l.1 af.1 af.2)) then Some (m, false)
        else
          r ← evaluate (MetByCurrentState (Some (sourceProcessUp m)) (pmLatest m)) af.1 af.2 l.1;
          let m1 := put i r.1 m in
          if negb r.2 then Some (m1, false)
          else
            match af.1 with
            | ActionStart | ActionRestart => Some (startProcess env i r.1 m1, true)
            | ActionStop => m2 ← stopProcess i r.1 m1; Some (m2, true)
            | _ => Some (m1, true)
            end
  end.

Definition reconcileWaiting (env : Env P) m : option (ProcessManager P) :=
  if envCancelled env then Some m
  else
    let m1 := receive_stats (set_waiting m) in
    r ← eval_loop (reconcile_one env) (getWaitingProcesses m) false m1;
    Some (if (r.2 : bool) then set_waiting r.1 else r.1).

(** ** Events *)

Definition handleProcessDown (env : Env P) (ev : Event) m : ProcessManager P :=
  match findProcess ev m with
  | None => m
  | Some i =>
      match pmStore m !! i with
      | None => m
      | Some p =>
          if negb (State_eqb (pState p) Dead) then m
          else if envCancelled env then m
          else put i (startProcessWithRetry env p).2 m
      end
  end.

(** One event of [processEvents]; [inr] when it ends because the context is cancelled
    and the select that forwards the event picks that case. *)
Definition processEvent (env : Env P) (ctxFirst : bool) (ev : Event) m : option (ProcessManager P + ProcessManager P) :=
  match evData ev with
  | Some (EProcessStatus status) =>
      let m1 := match findProcess ev m with Some i => log (EStatusMetric i status) m | None => m end in
      let m2 := if status =? 0 then handleProcessDown env ev m1 else m1 in
      m3 ← evalActions env ev m2; Some (inl m3)
  | _ =>
      if (ctxFirst && envCancelled env)%bool then Some (inr m)
      else m1 ← evalActions env ev (log (EForward ev) m); Some (inl m1)
  end.

(** A snapshot, or the close of its channel. *)
Definition processStats (env : Env P) m : option (ProcessManager P) :=
  match pmStatsIn m with
  | Chan (s :: rest) closed => reconcileWaiting env (m <| pmLatest := s |> <| pmStatsIn := Chan rest closed |>)
  | Chan [] true => Some (m <| pmStatsIn := NilChan |> <| pmLatest := empty_stats |>)
  | _ => Some m
  end.

(** ** [stopAllProcesses] *)

Definition stop_at (i : nat) m : option (ProcessManager P) :=
  match pmStore m !! i with
  | None => Some m
  | Some p => stopProcess i p m
  end.

Fixpoint stop_list (ws : list nat) m : option (ProcessManager P) :=
  match ws with
  | [] => Some m
  | i :: ws' => m' ← stop_at i m; stop_list ws' m'
  end.

(** A process is stopped after its dependent processes, in reverse order; a
    [*ptpProcess] then forgets them and its metrics. *)
Definition stop_group (k : nat) (dp : list nat * nat) m : option (ProcessManager P) :=
  m1 ← stop_list (rev dp.1 ++ [dp.2]) m;
  match pmStore m1 !! dp.2 with
  | Some p =>
      if pIsPtpProcess p
      then Some (log (EDeleteMetrics dp.2) (m1 <| pmProcess := <[k := ([], dp.2)]> (pmProcess m1) |>))
      else Some m1
  | None => Some m1
  end.

Fixpoint stop_groups (k : nat) (dps : list (list nat * nat)) m : option (ProcessManager P) :=
  match dps with
  | [] => Some m
  | dp :: dps' => m' ← stop_group k dp m; stop_groups (S k) dps' m'
  end.

Definition stopAllProcesses m : option (ProcessManager P) := stop_groups 0 (pmProcess m) m.

Definition pendingDelayedStart (p : P) : bool :=
  match condition p ActionStart (Immediate "") with Immediate _ => false | _ => true end.

(** ** Abstract specification: one process at a time *)

(** No other goroutine touches a process between two looks at it. *)
Definition quiet (env : Env P) : Prop := forall k i p, envOthers env k i p = p.

(** The condition that decides for a process, and the entry that holds it: the start
    condition of one that was never started, the restart condition of one that has
    ended, or else its start condition, and the stop condition of one that runs; none
    while it starts or stops, and none that is not configured. *)
Definition rule (p : P) : option (Action * Condition) :=
  conds ← pConditions p;
  match pState p with
  | Created => c ← configured ActionStart conds; Some (ActionStart, c)
  | Stopped | Dead =>
      match configured ActionRestart conds with
      | Some c => Some (ActionRestart, c)
      | None => c ← configured ActionStart conds; Some (ActionStart, c)
      end
  | Running => c ← configured ActionStop conds; Some (ActionStop, c)
  | Starting | Stopping => None
  end.

(** What an event makes of process [p]: nothing when no condition decides; else the
    condition remembers what it has seen, and when it is met a process that runs is
    stopped, and is Stopping, and any other is Starting under its name. *)
Definition moves (ev : Event) (p p' : P) : Prop :=
  match rule p with
  | None => p' = p
  | Some (a, c) =>
      exists c' met, Met ev empty_stats c = Some (c', met)
      /\ let q := pSetConditions (put_condition a c' <$> pConditions p) p in
         if (met : bool) then
           if decide (pState p = Running) then pStop q = Some p' /\ pState p' = Stopping
           else pState p' = Starting /\ pName p' = pName p /\ pConfigName p' = pConfigName p
         else p' = q
  end.

(** The same, step by step. *)
Definition eval_process (env : Env P) (ev : Event) (p : P) : option P :=
  if negb (waitingOnCondition p) then Some p
  else
    match pState p with
    | Starting | Stopping => Some p
    | st =>
        af ← stateTransitionAction st;
        r ← evaluate (Met ev empty_stats) af.1 af.2 p;
        if negb r.2 then Some r.1
        else
          match af.1 with
          | ActionStart | ActionRestart => Some (startProcessWithRetry env r.1).2
          | ActionStop => pStop r.1
          | _ => Some r.1
          end
    end.

(** Every pointer is to a process, and to its own. *)
Definition wf m : Prop := NoDup (pointers m) /\ forall i, i ∈ pointers m -> is_Some (pmStore m !! i).

(** The parts only [stopAllProcesses] changes. *)
Definition same_shape m m' : Prop := pmProcess m' = pmProcess m /\ length (pmStore m') = length (pmStore m).

Lemma put_shape i p m : same_shape m (put i p m).
Proof. split; [done|]. apply length_insert. Qed.

Lemma put_same i p m : pmStore m !! i = Some p -> pmStore (put i p m) = pmStore m.
Proof. intros Hp. by apply list_insert_id. Qed.

Lemma startProcess_store env i p m : pmStore (startProcess env i p m) = <[i := (startProcessWithRetry env p).2]> (pmStore m).
Proof. done. Qed.

Lemma put_id i p m : pmStore m !! i = Some p -> put i p m = m.
Proof. intros Hp. unfold put. cbn. rewrite list_insert_id by done. by destruct m. Qed.

Lemma look_quiet env i p :
  quiet env -> look env i p = (p, match pState p with Starting | Stopping => true | _ => false end).
Proof.
  intros Hq. unfold look. rewrite !Hq. unfold State_eqb.
  repeat case_bool_decide; by destruct (pState p).
Qed.

Lemma eval_action_spec env ev i m p p' :
  quiet env -> pmStore m !! i = Some p -> waitingOnCondition p = true -> eval_process env ev p = Some p' ->
  exists r, eval_action env ev i m = Some r /\ pmStore r.1 = <[i := p']> (pmStore m) /\ pmProcess r.1 = pmProcess m.
Proof.
  intros Hq Hp Hw He. unfold eval_process in He. rewrite Hw in He. cbn [negb] in He. unfold eval_action.
  rewrite Hp, look_quiet by done. cbn [fst snd]. rewrite put_id by done.
  destruct (pState p) eqn:Est; cbn [stateTransitionAction mbind option_bind fst snd] in *;
    try (injection He as <-; eexists; split; [done|]; by rewrite list_insert_id).
  all: destruct (evaluate _ _ _ p) as [[q b]|]; cbn [mbind option_bind fst snd] in *; [|done];
    destruct b; cbn [negb] in *;
    try (injection He as <-; eexists; split; [done|]; cbn [fst]; rewrite ?startProcess_store; simpl;
         rewrite ?list_insert_insert_eq; done).
  unfold stopProcess. rewrite He. eexists. split; [done|]. simpl. by rewrite list_insert_insert_eq.
Qed.

(** A loop whose body changes only its own process changes each visited one once. *)
Lemma eval_loop_pointwise (f : nat -> ProcessManager P -> option (ProcessManager P * bool)) (g : P -> option P)
    (store : list P) ws :
  NoDup ws ->
  forall m b,
  (forall i, i ∈ ws -> pmStore m !! i = store !! i) ->
  (forall i, i ∈ ws -> exists p p', store !! i = Some p /\ g p = Some p') ->
  (forall i m p p', i ∈ ws -> store !! i = Some p -> pmStore m !! i = Some p -> g p = Some p' ->
     exists r, f i m = Some r /\ pmStore r.1 = <[i := p']> (pmStore m) /\ pmProcess r.1 = pmProcess m) ->
  exists r, eval_loop f ws b m = Some r /\ pmProcess r.1 = pmProcess m
    /\ forall i, pmStore r.1 !! i = if decide (i ∈ ws) then store !! i ≫= g else pmStore m !! i.
Proof.
  induction 1 as [|i ws Hni Hnd IH]; intros m b Hs0 Hg Hf; cbn [eval_loop].
  - exists (m, b). repeat split.
  - destruct (Hg i ltac:(by left)) as (p & p' & Hp & Hp').
    destruct (Hf i m p p' ltac:(by left) Hp) as (r & -> & Hs & Hpr); [by rewrite Hs0 by (by left)|done|].
    cbn [mbind option_bind].
    destruct (IH r.1 (b || r.2)%bool) as (r' & -> & Hpr' & Hst).
    + intros j Hj. rewrite Hs, list_lookup_insert_ne by (intros ->; done). apply Hs0. by right.
    + intros j Hj. apply Hg. by right.
    + intros j n q q' Hj. apply Hf. by right.
    + exists r'. repeat split; [congruence|]. intros j. rewrite Hst, Hs. destruct (decide (j = i)) as [->|Hne].
      * rewrite decide_False by done. rewrite decide_True by (by left).
        rewrite list_lookup_insert_eq; [by rewrite Hp|]. rewrite <- Hs0 in Hp by (by left). by eapply lookup_lt_Some.
      * rewrite list_lookup_insert_ne by done. destruct (decide (j ∈ ws)).
        -- by rewrite decide_True by (by right).
        -- rewrite decide_False; [done|]. by intros [?|?]%elem_of_cons.
Qed.

Lemma elem_of_waiting m i : i ∈ getWaitingProcesses m <-> i ∈ pointers m /\ waits m i = true.
Proof. unfold getWaitingProcesses. rewrite !list_elem_of_In, filter_In. done. Qed.

Lemma NoDup_waiting m : NoDup (pointers m) -> NoDup (getWaitingProcesses m).
Proof. rewrite !NoDup_ListNoDup. apply List.NoDup_filter. Qed.

(** ** Conditions evaluated on events return *)

Lemma empty_stats_ok : stats_ok empty_stats.
Proof. intros id source w. unfold lookup2. simpl. by rewrite lookup_empty. Qed.

Lemma child_total f o : child_ok (fun c => is_Some (f c)) o -> is_Some (child f o).
Proof. destruct o as [c|]; simpl; [|by eexists]. intros [[c' b] ->]. by eexists. Qed.

Lemma all_loop_total f l i met : Forall (child_ok (fun c => is_Some (f c))) l -> is_Some (all_loop f i l met).
Proof.
  intros H1. revert i met. induction H1 as [|o l Ho _ IH]; intros i met; simpl; [by eexists|].
  destruct (child_total f o Ho) as [r ->]. simpl. destruct (IH (S i) (remember i r.2 met)) as [r' ->]. by eexists.
Qed.

Lemma any_loop_total f l : Forall (child_ok (fun c => is_Some (f c))) l -> is_Some (any_loop (fun _ => false) f l).
Proof.
  induction 1 as [|o l Ho _ IH]; simpl; [by eexists|].
  assert (exists r, child_unless (fun _ => false) false f o = Some r) as [r ->].
  { destruct o as [c|]; simpl; [|by eexists]. destruct Ho as [[c' b] ->]. by eexists. }
  simpl. destruct r.2; [by eexists|]. destruct IH as [r' ->]. by eexists.
Qed.

Lemma Met_total ev c : is_Some (Met ev empty_stats c).
Proof.
  induction c as [c Hl|conds met IH|conds IH] using Condition_tree_ind.
  - rewrite (leaf_Met ev _ c Hl empty_stats_ok). by eexists.
  - simpl. destruct (evReset ev); [by eexists|].
    destruct (all_loop_total _ _ 0 (default ∅ met) IH) as [r ->]. simpl. repeat case_match; by eexists.
  - simpl. destruct (any_loop_total _ _ IH) as [r ->]. by eexists.
Qed.

(** A process whose [Stop] returns, whatever its conditions have seen. *)
Definition stoppable (p : P) : Prop := is_Some (pStop p) /\ forall c, is_Some (pStop (pSetConditions c p)).

Lemma eval_process_total env ev p : stoppable p -> is_Some (eval_process env ev p).
Proof.
  intros [H1 H2]. unfold eval_process. destruct (waitingOnCondition p); [|by eexists]. cbn [negb].
  assert (forall a c, exists q b, evaluate (Met ev empty_stats) a c p = Some (q, b) /\ is_Some (pStop q)) as He.
  { intros a c. unfold evaluate. destruct (Met_total ev (condition p a c)) as [r ->]. simpl.
    eexists _, _. split; [done|]. by destruct (condition_key p a). }
  destruct (pState p); simpl; try (by eexists);
    match goal with |- context [evaluate _ ?a ?c p] => destruct (He a c) as (q & [] & -> & Hq) end; simpl; try done; by eexists.
Qed.

(** ** Properties *)

(** *** Starting *)

Definition start_process (env : Env P) (p : P) : P :=
  match pState p with
  | Created | Stopped =>
      match condition p ActionStart (Immediate "") with
      | Immediate _ => (startProcessWithRetry env p).2
      | _ => p
      end
  | _ => p
  end.

Lemma start_immediate_store env i m :
  pmProcess (start_immediate env i m) = pmProcess m
  /\ forall j, pmStore (start_immediate env i m) !! j
       = if decide (j = i) then start_process env <$> pmStore m !! j else pmStore m !! j.
Proof.
  unfold start_immediate. destruct (pmStore m !! i) as [p|] eqn:Hp.
  - assert (forall j, pmStore m !! j = if decide (j = i) then Some p else pmStore m !! j) as Hsame.
    { intros j. by case_decide; subst. }
    unfold start_process.
    destruct (pState p) eqn:Est; try destruct (condition p ActionStart (Immediate "")) eqn:Ec;
      (split; [done|]); intros j; (destruct (decide (j = i)) as [->|]; [|done || simpl; by rewrite list_lookup_insert_ne]);
      rewrite ?Hp; simpl; rewrite ?Est, ?Ec; try done; rewrite list_lookup_insert_eq by (by eapply lookup_lt_Some); done.
  - split; [done|]. intros j. case_decide; subst; [|done]. by rewrite Hp.
Qed.

Lemma start_all_store env ws m :
  NoDup ws ->
  pmProcess (foldl (fun m i => start_immediate env i m) m ws) = pmProcess m
  /\ forall j, pmStore (foldl (fun m i => start_immediate env i m) m ws) !! j
       = if decide (j ∈ ws) then start_process env <$> pmStore m !! j else pmStore m !! j.
Proof.
  intros Hnd. revert m. induction Hnd as [|i ws Hni _ IH]; intros m; cbn [foldl]; [done|].
  destruct (start_immediate_store env i m) as [Hp Hs]. destruct (IH (start_immediate env i m)) as [-> Hst].
  split; [done|]. intros j. rewrite Hst, Hs. destruct (decide (j = i)) as [->|Hne].
  - rewrite decide_False by done. by rewrite decide_True by (by left).
  - destruct (decide (j ∈ ws)); [by rewrite decide_True by (by right)|].
    rewrite decide_False; [done|]. by intros [?|?]%elem_of_cons.
Qed.

(** The initial start starts exactly the processes that are Created or Stopped and
    have no start condition or an immediate one, each once; the others keep their
    state, and afterwards the waiting list is that of the new states. *)
Theorem StartProcesses_pointwise env m :
  NoDup (pointers m) ->
  (forall i, pmStore (StartProcesses env m) !! i
     = if decide (i ∈ pointers m) then start_process env <$> pmStore m !! i else pmStore m !! i)
  /\ pmWaiting (StartProcesses env m) = Some (getWaitingProcesses (StartProcesses env m)).
Proof.
  intros Hnd. destruct (start_all_store env (pointers m) (set_waiting m) Hnd) as [Hp Hs].
  split; [|done]. intros i. unfold StartProcesses. simpl. apply Hs.
Qed.

(** *** Stopping *)

Definition stops (es : list Effect) : list nat := omap (fun e => match e with EStopped i => Some i | _ => None end) es.

(** The order in which [stopAllProcesses] visits the processes. *)
Definition stop_order m : list nat := concat (map (fun dp => rev dp.1 ++ [dp.2]) (pmProcess m)).

Lemma stops_app es es' : stops (es ++ es') = stops es ++ stops es'.
Proof. apply omap_app. Qed.

Lemma stop_list_spec ws m :
  NoDup ws -> (forall i, i ∈ ws -> exists p, pmStore m !! i = Some p /\ is_Some (pStop p)) ->
  exists m', stop_list ws m = Some m' /\ pmProcess m' = pmProcess m
    /\ (forall j, pmStore m' !! j = if decide (j ∈ ws) then pmStore m !! j ≫= pStop else pmStore m !! j)
    /\ stops (pmLog m') = stops (pmLog m) ++ ws.
Proof.
  intros Hnd. revert m. induction Hnd as [|i ws Hni _ IH]; intros m Hg; cbn [stop_list].
  - exists m. rewrite app_nil_r. done.
  - destruct (Hg i ltac:(by left)) as (p & Hp & [p' Hp']). unfold stop_at, stopProcess. rewrite Hp, Hp'. cbn.
    destruct (IH (log (EStopped i) (put i p' m))) as (m' & -> & Hpr & Hst & Hlog).
    { intros j Hj. simpl. rewrite list_lookup_insert_ne by (intros ->; done). apply Hg. by right. }
    exists m'. split; [done|]. split; [done|]. split.
    + intros j. rewrite Hst. simpl. destruct (decide (j = i)) as [->|Hne].
      * rewrite decide_False by done. rewrite decide_True by (by left).
        rewrite list_lookup_insert_eq by (by eapply lookup_lt_Some). by rewrite Hp.
      * rewrite list_lookup_insert_ne by done. destruct (decide (j ∈ ws)).
        -- by rewrite decide_True by (by right).
        -- rewrite decide_False; [done|]. by intros [?|?]%elem_of_cons.
    + rewrite Hlog. simpl. rewrite stops_app, <- app_assoc. done.
Qed.

Lemma stop_groups_spec dps :
  forall k m,
  NoDup (concat (map (fun dp => rev dp.1 ++ [dp.2]) dps)) ->
  (forall i, i ∈ concat (map (fun dp => rev dp.1 ++ [dp.2]) dps) ->
     exists p, pmStore m !! i = Some p /\ is_Some (pStop p)) ->
  exists m', stop_groups k dps m = Some m'
    /\ (forall j, pmStore m' !! j = if decide (j ∈ concat (map (fun dp => rev dp.1 ++ [dp.2]) dps))
                                    then pmStore m !! j ≫= pStop else pmStore m !! j)
    /\ stops (pmLog m') = stops (pmLog m) ++ concat (map (fun dp => rev dp.1 ++ [dp.2]) dps).
Proof.
  induction dps as [|dp dps IH]; intros k m Hnd Hg; cbn [stop_groups map concat] in *.
  - exists m. rewrite app_nil_r. done.
  - apply NoDup_app in Hnd as (Hnd1 & Hdis & Hnd2).
    destruct (stop_list_spec (rev dp.1 ++ [dp.2]) m Hnd1) as (m1 & E1 & Hpr & Hst1 & Hlog1).
    { intros i Hi. apply Hg, elem_of_app. by left. }
    assert (exists m2, stop_group k dp m = Some m2 /\ pmStore m2 = pmStore m1 /\ stops (pmLog m2) = stops (pmLog m1))
      as (m2 & -> & Hs2 & Hl2).
    { unfold stop_group. rewrite E1. simpl. destruct (pmStore m1 !! dp.2) as [p|]; [|by eexists].
      destruct (pIsPtpProcess p); [|by eexists]. eexists. split; [done|]. simpl. by rewrite stops_app, app_nil_r. }
    simpl. destruct (IH (S k) m2) as (m' & -> & Hst & Hlog); [done| |].
    { intros i Hi. rewrite Hs2, Hst1. rewrite decide_False by (intros ?; by eapply Hdis).
      apply Hg, elem_of_app. by right. }
    exists m'. split; [done|]. split.
    + intros j. rewrite Hst, Hs2, Hst1.
      destruct (decide (j ∈ concat _)) as [Hj|Hj], (decide (j ∈ rev dp.1 ++ [dp.2])) as [Hj'|Hj'].
      * exfalso. by eapply Hdis.
      * rewrite decide_True; [done|]. apply elem_of_app. by right.
      * rewrite decide_True; [done|]. apply elem_of_app. by left.
      * rewrite decide_False; [done|]. by intros [?|?]%elem_of_app.
    + rewrite Hlog, Hl2, Hlog1, <- app_assoc. done.
Qed.

Lemma stop_order_pointers m : stop_order m ≡ₚ pointers m.
Proof.
  unfold stop_order, pointers. induction (pmProcess m) as [|dp dps IH]; simpl; [done|].
  by rewrite IH, <- (Permutation_rev dp.1).
Qed.

(** ** What the manager adds to a lawful process *)

Section laws.
Context `{!ProcessLaws P}.

(** Stopping returns, calls [Stop] exactly once on every process, a process after
    its dependent processes and those in reverse order, and leaves none of them
    starting or running: the active ones are Stopping, the others as they were. *)
Theorem stopAllProcesses_stops m :
  NoDup (pointers m) ->
  (forall i, i ∈ pointers m -> exists p, pmStore m !! i = Some p /\ is_Some (pStop p)) ->
  exists m', stopAllProcesses m = Some m' /\ stops (pmLog m') = stops (pmLog m) ++ stop_order m
    /\ forall i p, i ∈ pointers m -> pmStore m !! i = Some p ->
       exists p', pmStore m' !! i = Some p'
         /\ pState p' = match pState p with Starting | Running => Stopping | st => st end.
Proof.
  intros Hnd Hg. pose proof (stop_order_pointers m) as Hperm.
  destruct (stop_groups_spec (pmProcess m) 0 m) as (m' & E & Hst & Hlog).
  - change (NoDup (stop_order m)). by rewrite Hperm.
  - intros i Hi. change (i ∈ stop_order m) in Hi. apply Hg. by rewrite <- Hperm.
  - exists m'. split; [done|]. split; [done|]. intros i p Hi Hp. rewrite Hst.
    rewrite decide_True by (change (i ∈ stop_order m); by rewrite Hperm). rewrite Hp. simpl.
    destruct (Hg i Hi) as (p1 & Hp1 & [p' Hp']). simplify_eq. exists p'. split; [done|]. by apply law_stop.
Qed.

(** Out of a state in which nothing runs the first attempt succeeds. *)
Lemma start_attempts_first settle n p :
  (0 < n)%nat -> pState p ∈ [Created; Stopped; Dead] ->
  pState (start_attempts settle n p).2 = Starting
  /\ pName (start_attempts settle n p).2 = pName p /\ pConfigName (start_attempts settle n p).2 = pConfigName p.
Proof.
  destruct n; [lia|]. intros _ Hd. simpl. pose proof (law_start p) as Hl. pose proof (law_start_name p) as [N1 N2].
  rewrite !elem_of_cons, elem_of_nil in Hd.
  destruct Hd as [E|[E|[E|[]]]]; rewrite E in Hl; destruct (pStart p) as [[e|] q]; naive_solver.
Qed.

Lemma start_attempts_dead settle n p :
  (0 < n)%nat -> pState p = Dead -> pState (start_attempts settle n p).2 = Starting.
Proof. intros Hn Hd. apply start_attempts_first; [done|]. rewrite Hd. set_solver. Qed.

(** *** Events *)

(** A process waits exactly when a condition decides for it, but for one that is
    Starting or Stopping. *)
Lemma rule_key p :
  pState p <> Starting -> pState p <> Stopping ->
  match rule p, stateTransitionAction (pState p) with
  | Some (a, c), Some af => waitingOnCondition p = true /\ condition_key p af.1 = Some a /\ condition p af.1 af.2 = c
  | None, _ => waitingOnCondition p = false
  | _, None => False
  end.
Proof.
  unfold rule, waitingOnCondition, condition_key, condition, GetCondition. intros H1 H2.
  destruct (pConditions p) as [conds|]; [|by destruct (pState p)].
  destruct (pState p) eqn:E; try done; cbn [mbind option_bind stateTransitionAction fst snd];
    repeat (case_match; simplify_eq/=; try done).
Qed.

Lemma eval_process_moves env ev p p' :
  envCancelled env = false -> (0 < envAttempts env)%nat -> eval_process env ev p = Some p' -> moves ev p p'.
Proof.
  intros Hc Hn H1. unfold eval_process in H1.
  destruct (decide (pState p = Starting \/ pState p = Stopping)) as [Hs|Hs].
  { assert (rule p = None) as Er by (unfold rule; destruct (pConditions p); destruct Hs as [->| ->]; done).
    unfold moves. rewrite Er. destruct Hs as [E|E]; rewrite E in H1; by case_match; simplify_eq. }
  pose proof (rule_key p ltac:(naive_solver) ltac:(naive_solver)) as Hk. unfold moves.
  destruct (rule p) as [[a c]|]; [|rewrite Hk in H1; by injection H1 as <-].
  destruct (stateTransitionAction (pState p)) as [af|] eqn:Ea; [|done]. destruct Hk as (Hw & Hk & Hcond).
  rewrite Hw in H1. cbn [negb] in H1.
  assert ((r ← evaluate (Met ev empty_stats) af.1 af.2 p;
           if negb r.2 then Some r.1
           else match af.1 with
                | ActionStart | ActionRestart => Some (startProcessWithRetry env r.1).2
                | ActionStop => pStop r.1
                | _ => Some r.1
                end) = Some p') as H2.
  { destruct (pState p); try (injection Ea as <-; exact H1); by destruct Hs; auto. }
  clear H1. rename H2 into H1. unfold evaluate in H1. rewrite Hcond, Hk in H1.
  destruct (Met ev empty_stats c) as [[c' met]|]; [|done].
  exists c', met. split; [done|]. cbv zeta. cbn [mbind option_bind fst snd] in H1.
  destruct (law_conditions (put_condition a c' <$> pConditions p) p) as (L1 & L2 & L3).
  destruct met; cbn [negb] in H1; [|destruct (pState p); naive_solver].
  destruct (decide (pState p = Running)) as [Er|Er].
  - rewrite Er in *. injection Ea as <-. cbn [fst] in H1. split; [done|]. rewrite (law_stop _ _ H1), L1. done.
  - assert (p' = (startProcessWithRetry env (pSetConditions (put_condition a c' <$> pConditions p) p)).2) as ->.
    { destruct (pState p) eqn:E; simplify_eq/=; try done; by destruct Hs; auto. }
    unfold startProcessWithRetry. rewrite Hc. rewrite <- L2, <- L3. apply start_attempts_first; [done|].
    rewrite L1. destruct (pState p); naive_solver set_solver.
Qed.

(** C8. When the context is not cancelled and no other goroutine touches a process
    between the manager's looks at it, an event moves every process of the manager,
    whose [Stop] returns, exactly as the condition that decides for it says, each once
    and independently of the others and of their order, and no other process.  The
    call returns: no condition panics on an event, and the action of a state is never
    missing. *)
Theorem evalActions_pointwise env ev m :
  wf m -> quiet env -> envCancelled env = false -> (0 < envAttempts env)%nat ->
  (forall i p, i ∈ pointers m -> pmStore m !! i = Some p -> stoppable p) ->
  exists m', evalActions env ev m = Some m' /\ pmProcess m' = pmProcess m
    /\ (forall i, i ∉ pointers m -> pmStore m' !! i = pmStore m !! i)
    /\ forall i p, i ∈ pointers m -> pmStore m !! i = Some p ->
       exists p', pmStore m' !! i = Some p' /\ moves ev p p'.
Proof.
  intros [Hnd Hin] Hquiet Hcan Hatt Hst. unfold evalActions.
  destruct (eval_loop_pointwise (eval_action env ev) (eval_process env ev) (pmStore m) (getWaitingProcesses m)
              (NoDup_waiting m Hnd) (set_waiting m) false) as (r & E & Hpr & Hr).
  - done.
  - intros i [Hi _]%elem_of_waiting. destruct (Hin i Hi) as [p Hp].
    destruct (eval_process_total env ev p (Hst i p Hi Hp)) as [p' Hp']. by exists p, p'.
  - intros i n p p' [_ Hw]%elem_of_waiting Hp. unfold waits in Hw. rewrite Hp in Hw. intros Hn Hp'. by eapply eval_action_spec.
  - assert (forall i, i ∉ pointers m -> pmStore r.1 !! i = pmStore m !! i) as Hout.
    { intros i Hi. rewrite Hr, decide_False; [done|]. by intros [? _]%elem_of_waiting. }
    assert (forall i p, i ∈ pointers m -> pmStore m !! i = Some p ->
              exists p', pmStore r.1 !! i = Some p' /\ moves ev p p') as Hall.
    { intros i p Hi Hp. destruct (eval_process_total env ev p (Hst i p Hi Hp)) as [p' Hp'].
      exists p'. split; [|by eapply eval_process_moves]. rewrite Hr. case_decide as Hw.
      - by rewrite Hp.
      - change (pmStore (set_waiting m)) with (pmStore m). rewrite Hp. f_equal. unfold eval_process in Hp'.
        destruct (waitingOnCondition p) eqn:Ew; [|by injection Hp' as <-].
        destruct Hw. apply elem_of_waiting. split; [done|]. unfold waits. by rewrite Hp. }
    destruct (length (getWaitingProcesses m) =? 0)%nat eqn:El.
    + apply Nat.eqb_eq, nil_length_inv in El. rewrite El in E. cbn in E. injection E as <-.
      by exists (set_waiting m).
    + rewrite E. exists (if (r.2 : bool) then set_waiting r.1 else r.1). split; [done|]. by destruct r.2.
Qed.

(** A process that reports its end is restarted at once only if it is Dead and the
    first one the event names: then it is Starting afterwards; no other process
    changes, and nothing changes when there is no such process. *)
Theorem handleProcessDown_restarts env ev m :
  (0 < envAttempts env)%nat -> envCancelled env = false ->
  forall i, pmStore (handleProcessDown env ev m) !! i = pmStore m !! i
    \/ exists p p', findProcess ev m = Some i /\ pmStore m !! i = Some p /\ pState p = Dead
       /\ pName p = evSource ev /\ pConfigName p = evCfgName ev
       /\ pmStore (handleProcessDown env ev m) !! i = Some p' /\ pState p' = Starting.
Proof.
  intros Hn Hc i. unfold handleProcessDown. destruct (findProcess ev m) as [j|] eqn:Ef; [|by left].
  destruct (pmStore m !! j) as [p|] eqn:Hp; [|by left]. unfold State_eqb. case_bool_decide as Hd; [|by left].
  rewrite Hc. simpl. destruct (decide (i = j)) as [->|Hne]; [right|left; by rewrite list_lookup_insert_ne].
  assert (matches ev m j = true) as Hm.
  { unfold findProcess in Ef. revert Ef. generalize (concat (map (fun dp => dp.2 :: dp.1) (pmProcess m))).
    induction l as [|k l IH]; simpl; [done|]. case_match; [by intros [= ->]|done]. }
  unfold matches in Hm. rewrite Hp in Hm. apply andb_true_iff in Hm as [H1%str_eqb_true H2%str_eqb_true].
  exists p, (startProcessWithRetry env p).2. repeat split; try done.
  - by rewrite list_lookup_insert_eq by (by eapply lookup_lt_Some).
  - unfold startProcessWithRetry. rewrite Hc. by apply start_attempts_dead.
Qed.

(** *** Reconciliation *)

(** Process [p] has become [p'] for a reason: nothing was done, or its condition was
    evaluated, in some state [n] of the manager and on the snapshot [s], and its state
    changed only when the condition was met. *)
Definition justified (s : EventStats) (p p' : P) : Prop :=
  p' = p \/
  exists n af c' b,
    pState p <> Starting /\ pState p <> Stopping /\ stateTransitionAction (pState p) = Some af
    /\ state_aware (condition p af.1 af.2) = true
    /\ MetByCurrentState (Some (sourceProcessUp n)) s (condition p af.1 af.2) = Some (c', b)
    /\ (pState p' <> pState p -> b = true).

Lemma evaluate_state f a fallback p q b :
  evaluate f a fallback p = Some (q, b) ->
  pState q = pState p /\ exists c', f (condition p a fallback) = Some (c', b).
Proof.
  unfold evaluate. destruct (f _) as [[c' b']|]; [|done]. simpl. intros [= <- <-].
  split; [|by exists c']. destruct (condition_key p a); [|done].
  apply (law_conditions (put_condition a0 c' <$> pConditions p) p).
Qed.

Lemma reconcile_one_spec env i m r p :
  quiet env -> pmStore m !! i = Some p -> reconcile_one env i m = Some r ->
  pmLatest r.1 = pmLatest m /\ exists p', pmStore r.1 = <[i := p']> (pmStore m) /\ justified (pmLatest m) p p'.
Proof.
  intros Hquiet Hp H1. unfold reconcile_one in H1. rewrite Hp, look_quiet in H1 by done.
  cbn [fst snd] in H1. rewrite put_id in H1 by done.
  assert (Some (m, false) = Some r -> pmLatest r.1 = pmLatest m
    /\ exists p', pmStore r.1 = <[i := p']> (pmStore m) /\ justified (pmLatest m) p p') as Hidle.
  { intros [= <-]. split; [done|]. exists p. split; [by rewrite list_insert_id|by left]. }
  destruct (stateTransitionAction (pState p)) as [af|] eqn:Ea; [|destruct (pState p) eqn:Est; try discriminate Ea; by apply Hidle].
  assert (pState p <> Starting /\ pState p <> Stopping) as [Hs1 Hs2] by (by destruct (pState p)).
  assert ((if negb (state_aware (condition p af.1 af.2)) then Some (m, false)
           else r0 ← evaluate (MetByCurrentState (Some (sourceProcessUp m)) (pmLatest m)) af.1 af.2 p;
                let m1 := put i r0.1 m in
                if negb r0.2 then Some (m1, false)
                else match af.1 with
                     | ActionStart | ActionRestart => Some (startProcess env i r0.1 m1, true)
                     | ActionStop => m2 ← stopProcess i r0.1 m1; Some (m2, true)
                     | _ => Some (m1, true)
                     end) = Some r) as H2
    by (destruct (pState p); try done; injection Ea as <-; exact H1).
  clear H1. destruct (state_aware _) eqn:Esa; [|by apply Hidle]. cbn [negb] in H2.
  destruct (evaluate _ _ _ p) as [[q b]|] eqn:Ee; [|done].
  apply evaluate_state in Ee as [Hq [c' Hc']]. cbn in H2.
  assert (forall p', (pState p' <> pState p -> b = true) -> justified (pmLatest m) p p') as Hj.
  { intros p' Hb. right. by exists m, af, c', b. }
  destruct b; cbn in H2.
  - destruct af as [[] fb]; cbn in H2; simplify_eq; cbn;
      try (split; [done|]; eexists; split; [by rewrite ?list_insert_insert_eq|by apply Hj]).
    unfold stopProcess in H2. destruct (pStop q) as [q'|]; [|done]. cbn in H2. injection H2 as <-. cbn.
    split; [done|]. exists q'. split; [by rewrite list_insert_insert_eq|by apply Hj].
  - injection H2 as <-. split; [done|]. exists q. split; [done|]. apply Hj. by rewrite Hq.
Qed.

Lemma reconcile_loop_spec env s (store : list P) ws :
  quiet env -> NoDup ws ->
  forall m b r, pmLatest m = s -> (forall i, i ∈ ws -> pmStore m !! i = store !! i) ->
  eval_loop (reconcile_one env) ws b m = Some r ->
  forall i, (i ∉ ws -> pmStore r.1 !! i = pmStore m !! i)
    /\ (i ∈ ws -> forall p, store !! i = Some p -> exists p', pmStore r.1 !! i = Some p' /\ justified s p p').
Proof.
  intros Hquiet. induction 1 as [|i ws Hni Hnd IH]; intros m b r Hs Hst H1 j; cbn [eval_loop] in H1.
  - injection H1 as <-. split; [done|]. by intros ?%elem_of_nil.
  - destruct (reconcile_one env i m) as [r1|] eqn:E1; [|done]. cbn in H1.
    destruct (pmStore m !! i) as [p|] eqn:Hp.
    + destruct (reconcile_one_spec env i m r1 p Hquiet Hp E1) as (Hl & p' & Hs1 & Hj).
      destruct (IH r1.1 (b || r1.2)%bool r) with (i := j) as [IH1 IH2]; [congruence| |done|].
      { intros k Hk. rewrite Hs1, list_lookup_insert_ne by (by intros ->). apply Hst. by right. }
      split.
      * intros Hj'. rewrite IH1 by (intros ?; apply Hj'; by right). rewrite Hs1, list_lookup_insert_ne; [done|].
        intros ->. apply Hj'. by left.
      * intros [->|Hj']%elem_of_cons q Hq; [|by apply IH2]. rewrite IH1 by done.
        rewrite Hs1, list_lookup_insert_eq by (by eapply lookup_lt_Some).
        rewrite <- Hst, Hp in Hq by (by left). injection Hq as <-. exists p'. by subst.
    + assert (r1 = (m, false)) as ->.
      { unfold reconcile_one in E1. rewrite Hp in E1. congruence. }
      destruct (IH m (b || false)%bool r Hs) with (i := j) as [IH1 IH2]; [|done|].
      { intros k Hk. apply Hst. by right. }
      split; [intros Hj'; apply IH1; intros ?; apply Hj'; by right|].
      intros [->|Hj']%elem_of_cons q Hq; [|by apply IH2]. rewrite <- Hst, Hp in Hq by (by left). done.
Qed.

(** The snapshot the reconciliation uses: the one waiting in the channel, if any. *)
Definition newest_stats m : EventStats :=
  match pmStatsIn m with Chan (s :: _) _ => s | Chan [] true => empty_stats | _ => pmLatest m end.

(** Reconciliation acts for a reason only.  It uses the snapshot that waits in the
    channel rather than the one it has, and a process ends in another state than it
    had only if it was waiting, neither Starting nor Stopping, and the condition of
    the action its state calls for is state-aware and was met by that snapshot; a
    process that was not waiting is untouched.  No other goroutine touches a process
    between the manager's looks at it. *)
Theorem reconcile_justified env m m' :
  quiet env -> wf m -> reconcileWaiting env m = Some m' ->
  forall i p, i ∈ pointers m -> pmStore m !! i = Some p ->
  exists p', pmStore m' !! i = Some p' /\ justified (newest_stats m) p p'
    /\ (waitingOnCondition p = false -> p' = p).
Proof.
  intros Hquiet [Hnd Hin] H1 i p Hi Hp. unfold reconcileWaiting in H1.
  destruct (envCancelled env); [injection H1 as <-; exists p; by repeat split; [|left]|].
  destruct (eval_loop _ _ _ _) as [r|] eqn:E; [|done]. cbn in H1. injection H1 as <-.
  assert (pmStore (if (r.2 : bool) then set_waiting r.1 else r.1) = pmStore r.1) as -> by (by destruct r.2).
  assert (pmLatest (receive_stats (set_waiting m)) = newest_stats m
          /\ pmStore (receive_stats (set_waiting m)) = pmStore m) as [Hl Hs].
  { unfold receive_stats, newest_stats. cbn. by destruct (pmStatsIn m) as [|[|? ?] []]. }
  destruct (reconcile_loop_spec env (newest_stats m) (pmStore m) _ Hquiet (NoDup_waiting m Hnd) _ _ _ Hl
              ltac:(intros; by rewrite Hs) E i) as [H2 H3].
  destruct (waitingOnCondition p) eqn:Ew.
  - destruct (H3 ltac:(apply elem_of_waiting; split; [done|]; unfold waits; by rewrite Hp) p Hp) as (p' & ? & ?).
    by exists p'.
  - exists p. split; [|split; [by left|done]]. rewrite H2, Hs; [done|].
    intros [_ Hw]%elem_of_waiting. unfold waits in Hw. rewrite Hp in Hw. congruence.
Qed.

End laws.
End manager.

(** ** Witnesses and concrete runs *)

Definition exec (name : string) (cfg : string) (conds : list (Action * option Condition)) (st : State) : AnyProcess :=
  PExec (Exec.mkSys (Exec.mkExec name cfg "OC" true (Some false) (Some conds) st true) [] []).

Definition card (st : State) (iface : string) : AnyProcess :=
  PDpll (Dpll.initial (Dpll.setProcessState st
           (Dpll.NewDpll 7 1500 14400 1500 iface [GNSS] Dpll.NETLINK true 10 2 0 "ts2phc.0.config" "GM" true))).

Definition no_settle : Env AnyProcess := mkEnv false 1 (fun p => p) (fun _ _ p => p).

(** ptp4l with a DPLL it depends on; phc2sys waits for ptp4l. *)
Definition ex_manager (dpll phc2sys : State) : ProcessManager AnyProcess :=
  mkPM [exec "ptp4l" "ptp4l.0.config" [] Running; card dpll "eth0";
        exec "phc2sys" "phc2sys.0.config" [(ActionStart, Some (OnProcessUp "ptp4l.0.config" "ptp4l"))] phc2sys]
    [([1%nat], 0%nat); ([], 2%nat)] None empty_stats (Chan [empty_stats] false) true [].

Definition waiter : AnyProcess :=
  exec "phc2sys" "phc2sys.0.config" [(ActionStart, Some (OnProcessUp "ptp4l.0.config" "ptp4l"))] Created.

Definition ptp4l_up : Event := ProcessStatusEvent 1 "ptp4l" "ptp4l.0.config" "OC" "" 1.
Definition dpll_down : Event := ProcessStatusEvent 1 DPLL "ts2phc.0.config" "GM" "eth1" 0.

Definition state_of (m : ProcessManager AnyProcess) (i : nat) : option State := pState <$> pmStore m !! i.

Lemma ex_pointers dpll phc2sys i : i ∈ pointers (ex_manager dpll phc2sys) -> i = 1%nat \/ i = 0%nat \/ i = 2%nat.
Proof. unfold pointers, ex_manager. simpl. rewrite !elem_of_cons, elem_of_nil. naive_solver. Qed.

Lemma ex_stops dpll phc2sys i :
  dpll <> Running -> dpll <> Starting -> i ∈ pointers (ex_manager dpll phc2sys) ->
  exists p, pmStore (ex_manager dpll phc2sys) !! i = Some p /\ stoppable p.
Proof.
  intros H1 H2 [->|[->| ->]]%ex_pointers; simpl; eexists; (split; [reflexivity|]); split; intros;
    try (destruct dpll; by eexists); destruct phc2sys; by eexists.
Qed.

Lemma evalActions_pointwise_witness :
  exists m', evalActions no_settle ptp4l_up (ex_manager Stopped Created) = Some m' /\ state_of m' 2 = Some Starting.
Proof.
  destruct (evalActions_pointwise no_settle ptp4l_up (ex_manager Stopped Created)) as (m' & E & _ & _ & Hs).
  - split; [by vm_compute; repeat constructor; set_solver|].
    intros i Hi. destruct (ex_stops Stopped Created i ltac:(done) ltac:(done) Hi) as (p & -> & _). by eexists.
  - done.
  - reflexivity.
  - cbn. lia.
  - intros i p Hi Hp. destruct (ex_stops Stopped Created i ltac:(done) ltac:(done) Hi) as (q & Hq & Hst).
    rewrite Hp in Hq. by injection Hq as <-.
  - exists m'. split; [exact E|]. unfold state_of.
    destruct (Hs 2%nat waiter ltac:(vm_compute; set_solver) eq_refl) as (p' & -> & c' & met & Hm & Hp').
    vm_compute in Hm. injection Hm as <- <-. cbn [fmap option_fmap option_map]. f_equal. apply Hp'.
Defined.

Lemma StartProcesses_pointwise_witness :
  state_of (StartProcesses no_settle (ex_manager Created Created)) 1 = Some Starting
  /\ state_of (StartProcesses no_settle (ex_manager Created Created)) 2 = Some Created.
Proof.
  destruct (StartProcesses_pointwise no_settle (ex_manager Created Created)) as [H _].
  - by vm_compute; repeat constructor; set_solver.
  - unfold state_of. rewrite !H. split; reflexivity.
Defined.

Lemma stopAllProcesses_stops_witness :
  exists m', stopAllProcesses (ex_manager Stopped Running) = Some m' /\ stops (pmLog m') = [1; 0; 2]%nat.
Proof.
  destruct (stopAllProcesses_stops (ex_manager Stopped Running)) as (m' & E & Hl & _).
  - by vm_compute; repeat constructor; set_solver.
  - intros i Hi. destruct (ex_stops Stopped Running i ltac:(done) ltac:(done) Hi) as (p & Hp & [Hs _]). by exists p.
  - exists m'. split; [exact E|exact Hl].
Defined.

Lemma handleProcessDown_restarts_witness :
  state_of (handleProcessDown no_settle dpll_down (ex_manager Dead Created)) 1 = Some Starting.
Proof.
  destruct (handleProcessDown_restarts no_settle dpll_down (ex_manager Dead Created) ltac:(cbn; lia) eq_refl 1)
    as [H|(p & p' & _ & _ & _ & _ & _ & Hp & Hs)].
  - vm_compute in H. discriminate H.
  - unfold state_of. rewrite Hp. cbn [fmap option_fmap option_map]. by rewrite Hs.
Defined.

Definition reconciled : ProcessManager AnyProcess :=
  default (ex_manager Stopped Created) (reconcileWaiting no_settle (ex_manager Stopped Created)).

Lemma reconcile_justified_witness :
  exists p', pmStore reconciled !! 2%nat = Some p' /\ pState p' = Starting /\ justified empty_stats waiter p'.
Proof.
  destruct (reconcile_justified no_settle (ex_manager Stopped Created) reconciled) with (i := 2%nat) (p := waiter)
    as (p' & Hp' & Hj & _).
  - done.
  - split; [by vm_compute; repeat constructor; set_solver|].
    intros i Hi. destruct (ex_stops Stopped Created i ltac:(done) ltac:(done) Hi) as (p & -> & _). by eexists.
  - reflexivity.
  - vm_compute. set_solver.
  - reflexivity.
  - exists p'. split; [exact Hp'|]. split; [|exact Hj].
    assert (state_of reconciled 2 = Some Starting) as Hs by reflexivity.
    unfold state_of in Hs. rewrite Hp' in Hs. by injection Hs.
Defined.

(** The DPLLs of one ts2phc share its configuration and their name: a second one that
    dies is never found, the first is. *)
Lemma second_dpll_not_restarted :
  let m := mkPM [exec "ts2phc" "ts2phc.0.config" [] Running; card Running "eth0"; card Dead "eth1"]
             [([1%nat; 2%nat], 0%nat)] None empty_stats NilChan true [] in
  handleProcessDown no_settle dpll_down m = m
  /\ (m' ← processEvent no_settle false dpll_down m; match m' with inl m' => state_of m' 2 | inr _ => None end) = Some Dead.
Proof. split; [reflexivity|]. vm_compute. reflexivity. Qed.

(** The state is read again between the check and the choice of an action: a stop by
    another goroutine in between reaches the panic of the default case. *)
Definition stop_between : Env AnyProcess :=
  mkEnv false 1 (fun p => p) (fun k _ p => if Nat.eqb k 1 then default p (pStop p) else p).

Lemma stop_between_reads_panics :
  let runs := exec "phc2sys" "phc2sys.0.config" [(ActionStop, Some (OnProcessDown "ptp4l.0.config" "ptp4l"))] Running in
  let m := mkPM [runs] [([], 0%nat)] None empty_stats NilChan true [] in
  evalActions stop_between ptp4l_up m = None /\ evalActions no_settle ptp4l_up m <> None.
Proof. vm_compute. split; [reflexivity|discriminate]. Qed.

(** Without the netlink interface a DPLL's monitoring returns at once; every "down"
    starts it again, with no pause and no limit. *)
Lemma dpll_without_netlink_restarts :
  let d := Dpll.NewDpll 7 1500 14400 1500 "eth0" [GNSS] Dpll.NONE false 10 2 0 "ts2phc.0.config" "GM" true in
  let life s := Dpll.run (Dpll.AStart :: Dpll.monitor 6) s in
  (s ← life (Dpll.initial d); Some (Dpll.dcProcessState (Dpll.syDpll s))) = Some Dead
  /\ (s ← life (Dpll.initial d); s' ← life s; Some (Dpll.dcProcessState (Dpll.syDpll s'))) = Some Dead.
Proof. split; vm_compute; reflexivity. Qed.

End PM.
