(* ===== verification/Config.v ===== *)
(** * pkg/config: the interfaces of a profile; pkg/parser: what a log line says

    [IFaces] of pkg/config/config.go with its lookups, and the records pkg/parser
    fills from a log line (model.go and constants/). *)

From S2P Require Import Prelude Float64 Strconv Event.

Module Config.

Record Iface := mkIface { ifName : string; ifIsMaster : bool; ifSource : EventSource; ifPhcId : string }.

#[export] Instance Iface_fields : Fields Iface := fun i => mkIface (ifName i) (ifIsMaster i) (ifSource i) (ifPhcId i).

Abbreviation IFaces := (list Iface).

Definition no_iface : Iface := mkIface "" false "" "".

Definition GetLeadingInterface (ifs : IFaces) : Iface :=
  default no_iface (first_match (fun i => str_eqb (ifSource i) GNSS || str_eqb (ifSource i) PTP4l) ifs).

Definition Add (i : Iface) (ifs : IFaces) : IFaces := ifs ++ [i].

Definition GetEventSource (name : string) (ifs : IFaces) : EventSource :=
  match first_match (fun i => str_eqb (ifName i) name) ifs with Some i => ifSource i | None => PTP4l end.

Definition GetPhcID2IFace (phcId : string) (ifs : IFaces) : string :=
  match first_match (fun i => str_eqb (ifPhcId i) phcId) ifs with Some i => ifName i | None => phcId end.

Definition Iface_String (i : Iface) : string :=
  ("name :" +:+ ifName i +:+ newline +:+ "source " +:+ ifSource i +:+ newline
    +:+ "IsMaster " +:+ fmt_t (ifIsMaster i) +:+ newline +:+ "phcid " +:+ ifPhcId i +:+ newline)%string.

Definition IFaces_String (ifs : IFaces) : string := fold_right (fun i s => (Iface_String i +:+ s)%string) EmptyString ifs.

Definition GetIfNamesGroupedByPhc (ifs : IFaces) : gmap string (list string) :=
  foldl (fun m i => <[ifPhcId i := default [] (m !! ifPhcId i) ++ [ifName i]]> m) ∅ ifs.

(** ** pkg/parser *)

Definition Master : string := "master".

Definition ClockStateLocked : string := "LOCKED".
Definition ClockStateFreeRun : string := "FREERUN".
Definition ClockStateHoldover : string := "HOLDOVER".

Inductive PTPPortRole :=
| PortRolePassive | PortRoleSlave | PortRoleMaster | PortRoleFaulty | PortRoleUnknown | PortRoleListening.

#[export] Instance PTPPortRole_eq_dec : EqDecision PTPPortRole.
Proof. solve_decision. Defined.

Definition PTPPortRole_String (pr : PTPPortRole) : string :=
  match pr with
  | PortRoleSlave => "SLAVE" | PortRoleMaster => "MASTER" | PortRolePassive => "PASSIVE"
  | PortRoleFaulty => "FAULTY" | PortRoleListening => "LISTENING" | PortRoleUnknown => "UNKNOWN"
  end.

Definition ClockRealTime : string := "CLOCK_REALTIME".
Definition NmeaStatus : string := "nmea_status".

Definition clockStateFromServo (s : string) : string :=
  if str_eqb s "s2" || str_eqb s "s3" then ClockStateLocked else ClockStateFreeRun.

Definition TS2PHCSink : string := "sink".
Definition TS2PHCSource : string := "source".
Definition TS2PHCUnmanaged : string := "unmanaged".

Record PHCTimestamp := mkPHCTimestamp { phcSeconds : Z; phcNanoseconds : Z }.

Record Ts2PhcEvent := mkTs2PhcEvent {
  teTimestamp : string;
  tePHCDevice : string;
  tePHCTstamp : option PHCTimestamp;
  tePollTimeout : bool;
  tePollSuccessful : bool;
  teRole : string
}.

Record PTPEvent := mkPTPEvent {
  pePortID : Z;
  peIface : string;
  peRole : PTPPortRole;
  peClockState : string;
  peRaw : string;
  peTs2Phc : option Ts2PhcEvent
}.

Record Metrics := mkMetrics {
  mtFrom : string;
  mtIface : string;
  mtOffset : f64;
  mtMaxOffset : f64;
  mtFreqAdj : f64;
  mtDelay : f64;
  mtClockState : string;
  mtServoState : string;
  mtSource : string;
  mtStatus : list (string * f64)                        (* subtype and value *)
}.

#[export] Instance Metrics_fields : Fields Metrics := fun m =>
  mkMetrics (mtFrom m) (mtIface m) (mtOffset m) (mtMaxOffset m) (mtFreqAdj m) (mtDelay m) (mtClockState m)
    (mtServoState m) (mtSource m) (mtStatus m).

(** Grouping by PHC keeps every name under its own PHC, in order. *)
Lemma GetIfNamesGroupedByPhc_lookup ifs phc :
  default [] (GetIfNamesGroupedByPhc ifs !! phc) = map ifName (List.filter (fun i => str_eqb (ifPhcId i) phc) ifs).
Proof.
  unfold GetIfNamesGroupedByPhc.
  assert (forall m : gmap string (list string), default [] (foldl (fun m i => <[ifPhcId i := default [] (m !! ifPhcId i) ++ [ifName i]]> m) m ifs !! phc)
            = default [] (m !! phc) ++ map ifName (List.filter (fun i => str_eqb (ifPhcId i) phc) ifs)) as H.
  { induction ifs as [|i ifs IH]; intros m; simpl; [by rewrite app_nil_r|]. rewrite IH. unfold str_eqb.
    case_bool_decide as E.
    - rewrite E, lookup_insert_eq. simpl. by rewrite <- app_assoc.
    - by rewrite lookup_insert_ne. }
  apply H.
Qed.

End Config.
