(* ===== verification/Regex.v ===== *)
(** * Regular expressions: the part of Go's package [regexp] in use

    [MustCompile] parses the syntax the program's patterns are written in (literals,
    escapes, classes, groups with and without names, alternation, greedy and lazy
    quantifiers, the two anchors); [rmatch] is the backtracking matcher that defines
    leftmost-first matching, which package [regexp] promises to agree with: among the
    matches that begin leftmost it takes the one a backtracking search finds first.
    Texts are byte strings, as log lines and interface names are; on ASCII bytes and
    runes are the same. *)

From S2P Require Import Prelude.
From Stdlib Require Import Ascii.

Module Regex.

(** ** Syntax *)

(** A character class: its ranges of codes, or their complement. *)
Record cset := mkSet { negated : bool; ranges : list (N * N) }.

Inductive regex :=
| REps
| RSet (c : cset)
| RCat (a b : regex)
| RAlt (a b : regex)                       (* leftmost first *)
| RStar (greedy : bool) (a : regex)
| RGroup (i : nat) (a : regex)
| RBegin
| REnd.

Definition in_set (c : cset) (a : ascii) : bool :=
  xorb (negated c) (existsb (fun '(lo, hi) => (lo <=? N_of_ascii a)%N && (N_of_ascii a <=? hi)%N) (ranges c)).

Definition RPlus (greedy : bool) (a : regex) : regex := RCat a (RStar greedy a).
Definition ROpt (greedy : bool) (a : regex) : regex := if greedy then RAlt a REps else RAlt REps a.

(** [a{n}]. *)
Fixpoint RRepeat (n : nat) (a : regex) : regex := match n with O => REps | S n' => RCat a (RRepeat n' a) end.

(** ** Matching *)

(** A position in the text, the text from there on, and the groups closed so far. *)
Record mstate := mkM { m_pos : nat; m_rest : string; m_caps : list (nat * (nat * nat)) }.

Definition orelse {A} (o : option A) (o' : unit -> option A) : option A :=
  match o with Some _ => o | None => o' tt end.

(** The loop of a star: another round that makes progress, and the rest of the pattern. *)
Fixpoint star_loop (greedy : bool) (body : (mstate -> option mstate) -> mstate -> option mstate)
    (k : mstate -> option mstate) (n : nat) (s : mstate) : option mstate :=
  match n with
  | O => k s
  | S n' =>
      let more (_ : unit) := body (fun s' => if (m_pos s' =? m_pos s)%nat then None else star_loop greedy body k n' s') s in
      if greedy then orelse (more tt) (fun _ => k s) else orelse (k s) more
  end.

Fixpoint rmatch (r : regex) (k : mstate -> option mstate) (s : mstate) {struct r} : option mstate :=
  match r with
  | REps => k s
  | RSet c =>
      match m_rest s with
      | String a rest => if in_set c a then k (mkM (S (m_pos s)) rest (m_caps s)) else None
      | EmptyString => None
      end
  | RCat a b => rmatch a (rmatch b k) s
  | RAlt a b => orelse (rmatch a k s) (fun _ => rmatch b k s)
  | RStar greedy a => star_loop greedy (rmatch a) k (S (String.length (m_rest s))) s
  | RGroup i a => rmatch a (fun s' => k (mkM (m_pos s') (m_rest s') ((i, (m_pos s, m_pos s')) :: m_caps s'))) s
  | RBegin => if (m_pos s =? 0)%nat then k s else None
  | REnd => match m_rest s with EmptyString => k s | _ => None end
  end.

(** The search: the first position from which the pattern matches. *)
Fixpoint search (r : regex) (pos : nat) (rest : string) : option (nat * mstate) :=
  match rmatch r Some (mkM pos rest []) with
  | Some s => Some (pos, s)
  | None =>
      match rest with
      | EmptyString => None
      | String _ rest' => search r (S pos) rest'
      end
  end.

(** ** Patterns *)

Record Regexp := mkRegexp { re_expr : regex; re_names : list string }.

Fixpoint assoc_nat {A} (i : nat) (l : list (nat * A)) : option A :=
  match l with
  | [] => None
  | (j, x) :: l' => if (i =? j)%nat then Some x else assoc_nat i l'
  end.

Definition group_text (text : string) (caps : list (nat * (nat * nat))) (i : nat) : string :=
  match assoc_nat i caps with
  | Some (a, b) => String.substring a (b - a) text
  | None => ""
  end.

Definition SubexpNames (re : Regexp) : list string := re_names re.

(** [FindStringSubmatch]: the match and its groups, empty where a group took no part. *)
Definition FindStringSubmatch (re : Regexp) (text : string) : option (list string) :=
  match search (re_expr re) 0 text with
  | None => None
  | Some (start, s) =>
      Some (group_text text ((0%nat, (start, m_pos s)) :: m_caps s) <$> seq 0 (length (re_names re)))
  end.

Definition MatchString (re : Regexp) (text : string) : bool :=
  match search (re_expr re) 0 text with Some _ => true | None => false end.

(** [ReplaceAllString] with a replacement that refers to no group: matches from left
    to right; every pattern in use takes at least one character.  The fuel is the
    length of the text, which every round shortens. *)
Fixpoint replace_all (re : Regexp) (repl : string) (fuel : nat) (text : string) : string :=
  match fuel with
  | O => text
  | S fuel' =>
      match search (re_expr re) 0 text with
      | None => text
      | Some (start, s) =>
          (String.substring 0 start text +:+ repl +:+ replace_all re repl fuel' (m_rest s))%string
      end
  end.

Definition ReplaceAllString (re : Regexp) (text repl : string) : string := replace_all re repl (String.length text) text.

(** [FindAllStringSubmatch(text, -1)] for a pattern that takes at least one character:
    the matches from left to right, none overlapping the one before. *)
Fixpoint find_all (re : Regexp) (text : string) (fuel pos : nat) (rest : string) : list (list string) :=
  match fuel with
  | O => []
  | S fuel' =>
      match search (re_expr re) pos rest with
      | None => []
      | Some (start, s) =>
          (group_text text ((0%nat, (start, m_pos s)) :: m_caps s) <$> seq 0 (length (re_names re)))
          :: find_all re text fuel' (m_pos s) (m_rest s)
      end
  end.

Definition FindAllStringSubmatch (re : Regexp) (text : string) : list (list string) :=
  find_all re text (S (String.length text)) 0 text.

(** ** Parsing a pattern *)

Definition digit_set : list (N * N) := [(48, 57)]%N.
Definition space_set : list (N * N) := [(9, 10); (12, 13); (32, 32)]%N.
Definition word_set : list (N * N) := [(48, 57); (65, 90); (95, 95); (97, 122)]%N.

Definition char_set (a : ascii) : list (N * N) := [(N_of_ascii a, N_of_ascii a)].
Definition lit (a : ascii) : regex := RSet (mkSet false (char_set a)).
Definition any_char : regex := RSet (mkSet true [(10, 10)%N]).

(** An escape: a class, its complement, or the character itself. *)
Definition escape (a : ascii) : cset :=
  if ascii_dec a "d" then mkSet false digit_set
  else if ascii_dec a "s" then mkSet false space_set
  else if ascii_dec a "w" then mkSet false word_set
  else if ascii_dec a "D" then mkSet true digit_set
  else if ascii_dec a "S" then mkSet true space_set
  else if ascii_dec a "W" then mkSet true word_set
  else mkSet false (char_set a).

(** The items of a class up to its bracket. *)
Fixpoint parse_class (fuel : nat) (s : string) : option (list (N * N) * string) :=
  match fuel with
  | O => None
  | S fuel' =>
      match s with
      | EmptyString => None
      | String "]" s' => Some ([], s')
      | String "\" (String a s') =>
          r ← parse_class fuel' s'; Some (ranges (escape a) ++ r.1, r.2)
      | String a (String "-" (String b s')) =>
          if ascii_dec b "]" then r ← parse_class fuel' (String "-" (String b s')); Some (char_set a ++ r.1, r.2)
          else r ← parse_class fuel' s'; Some ((N_of_ascii a, N_of_ascii b) :: r.1, r.2)
      | String a s' => r ← parse_class fuel' s'; Some (char_set a ++ r.1, r.2)
      end
  end.

(** A group name up to its bracket. *)
Fixpoint parse_name (s : string) : option (string * string) :=
  match s with
  | EmptyString => None
  | String ">" s' => Some (EmptyString, s')
  | String a s' => r ← parse_name s'; Some (String a r.1, r.2)
  end.

(** The quantifiers that follow an atom. *)
Definition parse_quantifier (r : regex) (s : string) : regex * string :=
  match s with
  | String "*" (String "?" s') => (RStar false r, s')
  | String "*" s' => (RStar true r, s')
  | String "+" (String "?" s') => (RPlus false r, s')
  | String "+" s' => (RPlus true r, s')
  | String "?" (String "?" s') => (ROpt false r, s')
  | String "?" s' => (ROpt true r, s')
  | String "{" (String d (String "}" s')) => (RRepeat (N.to_nat (N_of_ascii d - 48)) r, s')
  | _ => (r, s)
  end.

(** A sequence without an empty tail. *)
Definition seq2 (a b : regex) : regex := match b with REps => a | _ => RCat a b end.

(** The result of a parser: the expression, the names of the groups so far, the rest. *)
Abbreviation parsed := (option (regex * list string * string)).

(** An alternation, up to the end or the closing bracket ([names] are the groups so far). *)
Fixpoint parse_alt (fuel : nat) (names : list string) (s : string) {struct fuel} : parsed :=
  match fuel with
  | O => None
  | S fuel' =>
      '(r, names, s) ← parse_cat fuel' names s;
      match s with
      | String "|" s' => '(r', names, s) ← parse_alt fuel' names s'; Some (RAlt r r', names, s)
      | _ => Some (r, names, s)
      end
  end
with parse_cat (fuel : nat) (names : list string) (s : string) {struct fuel} : parsed :=
  match fuel with
  | O => None
  | S fuel' =>
      match s with
      | EmptyString | String "|" _ | String ")" _ => Some (REps, names, s)
      | _ =>
          '(r, names, s) ← parse_atom fuel' names s;
          let '(r, s) := parse_quantifier r s in
          '(r', names, s) ← parse_cat fuel' names s; Some (seq2 r r', names, s)
      end
  end
with parse_atom (fuel : nat) (names : list string) (s : string) {struct fuel} : parsed :=
  match fuel with
  | O => None
  | S fuel' =>
      let close (o : parsed) : parsed :=
        '(r, names, s) ← o; match s with String ")" s' => Some (r, names, s') | _ => None end in
      let group (name s' : string) : parsed :=
        '(r, names', s) ← close (parse_alt fuel' (names ++ [name]) s'); Some (RGroup (length names) r, names', s) in
      match s with
      | String "(" (String "?" (String ":" s')) => close (parse_alt fuel' names s')
      | String "(" (String "?" (String "P" (String "<" s'))) => '(name, s') ← parse_name s'; group name s'
      | String "(" s' => group "" s'
      | String "[" (String "^" s') => '(c, s') ← parse_class fuel' s'; Some (RSet (mkSet true c), names, s')
      | String "[" s' => '(c, s') ← parse_class fuel' s'; Some (RSet (mkSet false c), names, s')
      | String "\" (String a s') => Some (RSet (escape a), names, s')
      | String "." s' => Some (any_char, names, s')
      | String "^" s' => Some (RBegin, names, s')
      | String "$" s' => Some (REnd, names, s')
      | String a s' => Some (lit a, names, s')
      | EmptyString => None
      end
  end.

(** [None] is the panic.  Three steps per character are enough. *)
Definition MustCompile (pattern : string) : option Regexp :=
  match parse_alt (3 * String.length pattern + 3) [""%string] pattern with
  | Some (r, names, EmptyString) => Some (mkRegexp r names)
  | _ => None
  end.

(** [strings.Contains]. *)
Fixpoint contains (sub s : string) : bool :=
  match drop_prefix sub s with
  | Some _ => true
  | None => match s with EmptyString => false | String _ s' => contains sub s' end
  end.

(** [strings.ReplaceAll] for a non-empty [old]. *)
Fixpoint replace_every (old new : string) (fuel : nat) (s : string) : string :=
  match fuel, s with
  | S fuel', String a s' =>
      match drop_prefix old s with
      | Some rest => (new +:+ replace_every old new fuel' rest)%string
      | None => String a (replace_every old new fuel' s')
      end
  | _, _ => s
  end.

Definition ReplaceAll (s old new : string) : string := replace_every old new (String.length s) s.

(** [strings.Split(s, sep)[0]] and the first part of [strings.Cut(s, sep)], for a
    separator of one character. *)
Fixpoint str_before (sep : ascii) (s : string) : string :=
  match s with
  | EmptyString => EmptyString
  | String a s' => if ascii_dec a sep then EmptyString else String a (str_before sep s')
  end.

(** ** The language of a pattern

    [path r x y]: from the state [x] the pattern can take the text up to [y], closing
    groups on the way.  The matcher finds a match exactly when there is one, and the
    groups it reports are those of a path. *)

Inductive path : regex -> mstate -> mstate -> Prop :=
| PEps x : path REps x x
| PSet c a pos rest caps : in_set c a = true -> path (RSet c) (mkM pos (String a rest) caps) (mkM (S pos) rest caps)
| PCat a b x y z : path a x y -> path b y z -> path (RCat a b) x z
| PAltL a b x y : path a x y -> path (RAlt a b) x y
| PAltR a b x y : path b x y -> path (RAlt a b) x y
| PStop g a x : path (RStar g a) x x
| PMore g a x y z : path a x y -> m_pos y <> m_pos x -> path (RStar g a) y z -> path (RStar g a) x z
| PGroup i a x y : path a x y -> path (RGroup i a) x (mkM (m_pos y) (m_rest y) ((i, (m_pos x, m_pos y)) :: m_caps y))
| PBegin rest caps : path RBegin (mkM 0 rest caps) (mkM 0 rest caps)
| PEnd pos caps : path REnd (mkM pos EmptyString caps) (mkM pos EmptyString caps).

#[export] Hint Constructors path : regex.

Definition with_caps (s : mstate) (caps : list (nat * (nat * nat))) : mstate := mkM (m_pos s) (m_rest s) caps.

Lemma orelse_Some {A} (o : option A) f x : orelse o f = Some x -> o = Some x \/ f tt = Some x.
Proof. destruct o; simpl; auto. Qed.

Lemma orelse_is_Some {A} (o : option A) f : is_Some o \/ is_Some (f tt) -> is_Some (orelse o f).
Proof. destruct o; simpl; [eauto|]. intros [[]|]; done. Qed.

(** A pattern only moves forward. *)
Lemma path_length r x y :
  path r x y -> (m_pos x + String.length (m_rest x) = m_pos y + String.length (m_rest y) /\ m_pos x <= m_pos y)%nat.
Proof. induction 1; simpl in *; lia. Qed.

Definition sound (r : regex) : Prop :=
  forall k s f, rmatch r k s = Some f -> exists s', path r s s' /\ k s' = Some f.

Lemma star_sound g a k n s f :
  sound a -> star_loop g (rmatch a) k n s = Some f -> exists s', path (RStar g a) s s' /\ k s' = Some f.
Proof.
  intros Ha. revert s. induction n as [|n IH]; intros s H; simpl in H; [eauto with regex|].
  assert (forall s, rmatch a (fun s' => if (m_pos s' =? m_pos s)%nat then None else star_loop g (rmatch a) k n s') s = Some f ->
    exists s', path (RStar g a) s s' /\ k s' = Some f) as Hmore.
  { intros s0 (s1 & Hp & H1)%Ha. destruct (Nat.eqb_spec (m_pos s1) (m_pos s0)) as [|Hn]; [done|].
    apply IH in H1 as (s2 & ? & ?). exists s2. split; [|done]. by eapply PMore. }
  destruct g; apply orelse_Some in H as [H|H]; eauto with regex.
Qed.

Lemma rmatch_sound r : sound r.
Proof.
  induction r as [|c|a IHa b IHb|a IHa b IHb|g a IHa|i a IHa| |]; intros k [pos rest caps] f H.
  - eauto with regex.
  - simpl in H. destruct rest as [|x rest]; [done|]. destruct (in_set c x) eqn:E; [|done]. eauto with regex.
  - apply IHa in H as (s1 & ? & H). apply IHb in H as (s2 & ? & H). eauto with regex.
  - apply orelse_Some in H as [H|H]; [apply IHa in H|apply IHb in H]; destruct H as (s1 & ? & ?); eauto with regex.
  - by eapply star_sound.
  - simpl in H. apply IHa in H as (s1 & Hp & H). eauto with regex.
  - simpl in H. destruct (Nat.eqb_spec pos 0) as [->|]; [|done]. eauto with regex.
  - simpl in H. destruct rest; [|done]. eauto with regex.
Qed.

(** The continuation accepts the position, whatever the groups are. *)
Definition accepts (k : mstate -> option mstate) (y : mstate) : Prop := forall caps, is_Some (k (with_caps y caps)).

Definition complete (r : regex) : Prop :=
  forall x y k, path r x y -> accepts k y -> accepts (rmatch r k) x.

Lemma star_complete g a x z k :
  complete a -> path (RStar g a) x z -> accepts k z ->
  forall n, (String.length (m_rest x) <= n)%nat -> accepts (star_loop g (rmatch a) k n) x.
Proof.
  intros Ha Hp. remember (RStar g a) as r eqn:Er. revert Er.
  induction Hp as [| | | | |g' a' x|g' a' x y z Hxy _ Hne Hyz IH| | |]; intros [= -> ->] Hk n Hn; simpl in Hn.
  - intros caps. destruct n; simpl; [apply Hk|]. destruct g; apply orelse_is_Some; eauto.
  - pose proof (path_length _ _ _ Hxy). destruct n as [|n]; [lia|]. intros caps. simpl.
    assert (is_Some (rmatch a (fun s' => if (m_pos s' =? m_pos x)%nat then None else star_loop g (rmatch a) k n s') (with_caps x caps))).
    { apply (Ha x y); [done|]. intros caps'. simpl. destruct (Nat.eqb_spec (m_pos y) (m_pos x)); [done|].
      apply (IH eq_refl Hk). lia. }
    destruct g; apply orelse_is_Some; auto.
Qed.

Lemma rmatch_complete r : complete r.
Proof.
  induction r as [|c|a IHa b IHb|a IHa b IHb|g a IHa|i a IHa| |]; intros x y k Hp Hk caps.
  - inversion Hp; subst. apply Hk.
  - inversion Hp as [|? ? ? ? ? E| | | | | | | |]; subst. simpl. rewrite E. apply Hk.
  - inversion Hp; subst. simpl. eapply IHa; [done|]. eapply IHb; done.
  - simpl. apply orelse_is_Some. inversion Hp; subst; [left; by eapply IHa|right; by eapply IHb].
  - change (is_Some (star_loop g (rmatch a) k (S (String.length (m_rest x))) (with_caps x caps))).
    eapply star_complete; [done|done|done|lia].
  - inversion Hp; subst. simpl. eapply IHa; [done|]. intros caps'. apply (Hk (_ :: caps')).
  - inversion Hp; subst. apply Hk.
  - inversion Hp; subst. apply Hk.
Qed.

(** The suffix of a text from a position on. *)
Fixpoint str_drop (n : nat) (s : string) : string :=
  match n, s with
  | S n', String _ s' => str_drop n' s'
  | _, _ => s
  end.

Lemma search_sound r pos rest start s :
  search r pos rest = Some (start, s) ->
  exists n, start = (pos + n)%nat /\ (n <= String.length rest)%nat /\ path r (mkM start (str_drop n rest) []) s.
Proof.
  revert pos. induction rest as [|c rest IH]; intros pos H; simpl in H.
  all: destruct (rmatch r Some _) as [s0|] eqn:E;
    [injection H as <- <-; apply rmatch_sound in E as (s1 & Hp & [= ->]); exists 0%nat; rewrite Nat.add_0_r;
     split; [done|split; [simpl; lia|exact Hp]]|try done].
  apply IH in H as (n & -> & Hn & Hp). exists (S n). split; [lia|]. split; [simpl; lia|].
  by replace (pos + S n)%nat with (S pos + n)%nat by lia.
Qed.

Lemma rmatch_here r pos rest y : path r (mkM pos rest []) y -> is_Some (rmatch r Some (mkM pos rest [])).
Proof. intros Hp. apply (rmatch_complete r _ _ Some Hp ltac:(intros ?; eauto) []). Qed.

Lemma search_complete r pos rest n y :
  (n <= String.length rest)%nat -> path r (mkM (pos + n) (str_drop n rest) []) y -> is_Some (search r pos rest).
Proof.
  revert pos n. induction rest as [|c rest IH]; intros pos n Hn Hp; simpl.
  - destruct n; [|simpl in Hn; lia]. rewrite Nat.add_0_r in Hp. cbn [str_drop] in Hp.
    destruct (rmatch_here _ _ _ _ Hp) as [s ->]. eauto.
  - destruct (rmatch r Some _) eqn:E; [eauto|]. destruct n as [|n].
    + rewrite Nat.add_0_r in Hp. cbn [str_drop] in Hp. destruct (rmatch_here _ _ _ _ Hp) as [s Hs]. by rewrite Hs in E.
    + apply (IH _ n); [simpl in Hn; lia|]. by replace (S pos + n)%nat with (pos + S n)%nat by lia.
Qed.

(** [MatchString] decides whether the pattern has a match anywhere in the text. *)
Lemma MatchString_path re text :
  MatchString re text = true <->
  exists n y, (n <= String.length text)%nat /\ path (re_expr re) (mkM n (str_drop n text) []) y.
Proof.
  unfold MatchString. destruct (search _ _ _) as [[start s]|] eqn:E; split; try done.
  - intros _. apply search_sound in E as (n & -> & Hn & Hp). eauto.
  - intros (n & y & Hn & Hp). destruct (search_complete _ 0 _ _ _ Hn Hp) as [? Hx]. by rewrite E in Hx.
Qed.

Lemma FindStringSubmatch_None re text : FindStringSubmatch re text = None <-> MatchString re text = false.
Proof. unfold FindStringSubmatch, MatchString. by destruct (search _ _ _) as [[]|]. Qed.

(** Every group has an entry, so indexing a match by the position of a group name
    cannot fail. *)
Lemma FindStringSubmatch_length re text m : FindStringSubmatch re text = Some m -> length m = length (re_names re).
Proof.
  unfold FindStringSubmatch. destruct (search _ _ _) as [[]|]; [|done]. intros [= <-].
  by rewrite length_fmap, length_seq.
Qed.

(** ** Texts *)

(** All characters are in the class. *)
Fixpoint all_in (c : cset) (s : string) : Prop :=
  match s with EmptyString => True | String a s' => in_set c a = true /\ all_in c s' end.

Lemma all_in_app c s t : all_in c (s +:+ t)%string <-> all_in c s /\ all_in c t.
Proof. induction s as [|a s IH]; simpl; [tauto|]. rewrite IH. tauto. Qed.

Lemma str_app_length (s t : string) : String.length (s +:+ t)%string = (String.length s + String.length t)%nat.
Proof. induction s as [|a s IH]; [done|]. rewrite str_app_cons. simpl. by rewrite IH. Qed.

Lemma str_app_assoc (s t u : string) : ((s +:+ t) +:+ u)%string = (s +:+ (t +:+ u))%string.
Proof. induction s as [|a s IH]; [done|]. by rewrite !str_app_cons, IH. Qed.

Lemma str_app_empty (s : string) : (s +:+ "")%string = s.
Proof. induction s as [|a s IH]; [done|]. by rewrite str_app_cons, IH. Qed.

Lemma substring_app pre w post : String.substring (String.length pre) (String.length w) (pre +:+ w +:+ post)%string = w.
Proof.
  induction pre as [|a pre IH]; simpl; [|done]. induction w as [|a w IH]; simpl; [by destruct post|]. by f_equal.
Qed.

(** A run of characters of the class, taken by a star. *)
Lemma path_star_run g c w pos rest caps :
  all_in c w -> path (RStar g (RSet c)) (mkM pos (w +:+ rest)%string caps) (mkM (pos + String.length w) rest caps).
Proof.
  revert pos. induction w as [|a w IH]; intros pos Hw; simpl; [rewrite Nat.add_0_r; constructor|].
  destruct Hw as [Ha Hw]. eapply PMore; [by constructor|simpl; lia|].
  replace (pos + S (String.length w))%nat with (S pos + String.length w)%nat by lia. by apply IH.
Qed.

(** What a star of a class has taken. *)
Lemma path_star_inv g c x y :
  path (RStar g (RSet c)) x y ->
  exists w, m_rest x = (w +:+ m_rest y)%string /\ all_in c w /\ m_pos y = (m_pos x + String.length w)%nat /\ m_caps y = m_caps x.
Proof.
  intros Hp. remember (RStar g (RSet c)) as r eqn:Er. revert Er.
  induction Hp as [| | | | |g' a' x|g' a' x y z Hxy _ Hne Hyz IH| | |]; intros [= -> ->].
  - exists EmptyString. simpl. repeat split; lia.
  - destruct (IH eq_refl) as (w & H1 & H2 & H3 & H4). inversion Hxy as [|? a ? ? ? E| | | | | | | |]; subst. simpl in *.
    exists (String a w). rewrite H1. simpl. repeat split; [done|done|lia|done].
Qed.

Lemma path_plus_run g c w pos rest caps :
  all_in c w -> w <> EmptyString ->
  path (RPlus g (RSet c)) (mkM pos (w +:+ rest)%string caps) (mkM (pos + String.length w) rest caps).
Proof.
  destruct w as [|a w]; [done|]. intros [Ha Hw] _. eapply PCat; [by constructor|]. simpl.
  replace (pos + S (String.length w))%nat with (S pos + String.length w)%nat by lia. by apply path_star_run.
Qed.

Lemma path_plus_inv g c x y :
  path (RPlus g (RSet c)) x y ->
  exists w, m_rest x = (w +:+ m_rest y)%string /\ all_in c w /\ w <> EmptyString /\
    m_pos y = (m_pos x + String.length w)%nat /\ m_caps y = m_caps x.
Proof.
  intros Hp. inversion Hp as [| |? ? ? z ? H1 H2| | | | | | |]; subst.
  inversion H1 as [|? a ? ? ? E| | | | | | | |]; subst. apply path_star_inv in H2 as (w & H2 & Hw & H3 & H4). simpl in *.
  exists (String a w). rewrite H2, str_app_cons. simpl. repeat split; [done|done|done|lia|done].
Qed.

(** Whatever a pattern takes is a piece of the text. *)
Lemma path_piece r x y :
  path r x y -> exists w, m_rest x = (w +:+ m_rest y)%string /\ m_pos y = (m_pos x + String.length w)%nat.
Proof.
  induction 1 as [x|c a pos rest caps|a b x y z _ (w1 & H1 & H2) _ (w2 & H3 & H4)|a b x y _ IH|a b x y _ IH|g a x
    |g a x y z _ (w1 & H1 & H2) _ _ (w2 & H3 & H4)|i a x y _ IH|rest caps|pos caps]; simpl; try done.
  1,4,6,7: by exists EmptyString; simpl; split; [|lia].
  - exists (String a ""). simpl. split; [done|lia].
  - exists (w1 +:+ w2)%string. rewrite str_app_length, str_app_assoc, <- H3. split; [done|lia].
  - exists (w1 +:+ w2)%string. rewrite str_app_length, str_app_assoc, <- H3. split; [done|lia].
Qed.

(** Inversion of the paths of the basic patterns. *)
Lemma path_cat_inv a b x z : path (RCat a b) x z -> exists y, path a x y /\ path b y z.
Proof. inversion 1; eauto. Qed.

Lemma path_alt_inv a b x y : path (RAlt a b) x y -> path a x y \/ path b x y.
Proof. inversion 1; eauto. Qed.

Lemma path_group_inv i a x y :
  path (RGroup i a) x y ->
  exists z, path a x z /\ y = mkM (m_pos z) (m_rest z) ((i, (m_pos x, m_pos z)) :: m_caps z).
Proof. inversion 1; eauto. Qed.

Lemma path_set_inv c x y :
  path (RSet c) x y ->
  exists a, m_rest x = String a (m_rest y) /\ in_set c a = true /\ m_pos y = S (m_pos x) /\ m_caps y = m_caps x.
Proof. inversion 1; subst. eauto 10. Qed.

Lemma path_end_inv x y : path REnd x y -> y = x /\ m_rest x = EmptyString.
Proof. by inversion 1. Qed.

Lemma path_begin_inv x y : path RBegin x y -> y = x /\ m_pos x = 0%nat.
Proof. by inversion 1. Qed.

Lemma path_eps_inv x y : path REps x y -> y = x.
Proof. by inversion 1. Qed.

Lemma in_single a b : in_set (mkSet false [(N_of_ascii a, N_of_ascii a)]) b = true -> b = a.
Proof.
  unfold in_set. cbn [negated ranges existsb]. rewrite orb_false_r. cbn [xorb]. intros [H1 H2]%andb_prop.
  apply N.leb_le in H1, H2. rewrite <- (ascii_N_embedding a), <- (ascii_N_embedding b). f_equal. lia.
Qed.

End Regex.
