(* ===== verification/Ts2phc.v ===== *)
(** * pkg/daemon: the poll cycles of ts2phc

    pkg/daemon/ts2phc.go follows ts2phc through its log: every PPS edge is a batch of
    hardware timestamps, one per PHC.  A PHC whose offset is reported was handled; what
    a batch leaves unhandled or missing when it ends, or when ts2phc times out, is
    reported as FREERUN.

    [pollState] is [ts2phcPollState] with the mutex left out, since every operation
    holds it throughout; a function that changes the batch in place returns it. *)

From Stdlib Require Import Ascii.
From S2P Require Import Prelude Float64 Strconv Event Config Regex.

Module Ts2phc.

Import Config.
Import Regex (str_before).

Record tstamp := mkTstamp {
  tsSeconds : Z;
  tsNanoseconds : Z;
  tsDevice : string;
  tsIface : string;
  tsRole : string;
  tsHandled : bool
}.

#[export] Instance tstamp_fields : Fields tstamp := fun t =>
  mkTstamp (tsSeconds t) (tsNanoseconds t) (tsDevice t) (tsIface t) (tsRole t) (tsHandled t).

Record pollCycle := mkCycle { pcGroup : Z; pcLastSampleGroup : Z; pcTstamps : list tstamp; pcCounted : bool }.

#[export] Instance pollCycle_fields : Fields pollCycle := fun c =>
  mkCycle (pcGroup c) (pcLastSampleGroup c) (pcTstamps c) (pcCounted c).

Record pollState := mkState {
  psCycle : option pollCycle;
  psTimeoutCount : Z;
  psTimeoutGroup : Z;
  psRoles : gmap string string
}.

#[export] Instance pollState_fields : Fields pollState := fun s =>
  mkState (psCycle s) (psTimeoutCount s) (psTimeoutGroup s) (psRoles s).

Definition role_of (roles : gmap string string) (device : string) : string := default "" (roles !! device).

(** [None] is the error. *)
Definition pollGroupFromTimestamp (timestamp : string) : option Z :=
  let '(n, ok) := ParseInt (str_before "." timestamp) 10 64 in if ok then Some n else None.

(** [None] is the error: the PHC of no configured interface. *)
Definition phcToIface (device : string) (ifs : IFaces) : option string :=
  let iface := GetPhcID2IFace device ifs in
  if str_eqb iface "" || str_eqb iface device then None else Some iface.

(** ** Offsets *)

Definition absInt64 (value : Z) : Z :=
  if value <? 0 then uint64 (uint64 (int64 (- int64 (value + 1))) + 1) else uint64 value.

Definition delta (other ts : tstamp) : Z :=
  int64 (int64 (int64 (tsSeconds other - tsSeconds ts) * 1000000000) + int64 (tsNanoseconds other - tsNanoseconds ts)).

(** The loop of [maxOffset]: the offset so far, [None] before the first. *)
Definition max_step (ts : tstamp) (acc : option Z) (other : tstamp) : option Z :=
  if str_eqb (tsDevice ts) (tsDevice other) then acc
  else
    match acc with
    | None => Some (delta other ts)
    | Some offset => if absInt64 offset <? absInt64 (delta other ts) then Some (delta other ts) else acc
    end.

Definition ts2phcOffsetUnmeasured : f64 := SpecFloat.S754_nan.

Definition maxOffset (ts : tstamp) (tslist : list tstamp) : f64 :=
  match foldl (max_step ts) None tslist with
  | Some offset => f64_of_Z offset
  | None => ts2phcOffsetUnmeasured
  end.

Definition sourceTimestamps (c : pollCycle) : list tstamp :=
  List.filter (fun ts => str_eqb (tsRole ts) TS2PHCSource) (pcTstamps c).

Definition computeTSOffset (ts : tstamp) (c : pollCycle) : f64 :=
  let offset := maxOffset ts (sourceTimestamps c) in
  if negb (f64_is_nan offset) then offset else f64_abs (maxOffset ts (pcTstamps c)).

(** ** Reports *)

Definition freerun_metric (iface : string) (offset : f64) : Metrics :=
  mkMetrics TS2PHC iface offset offset f64_zero f64_zero ClockStateFreeRun "" Master [].

(** A sample that is still to be reported. *)
Definition pending (ts : tstamp) : bool := negb (tsHandled ts) && str_eqb (tsRole ts) TS2PHCSink.

(** The reports, and the batch with the reported samples marked as handled. *)
Definition unhandledMetrics (c : pollCycle) : list Metrics * pollCycle :=
  (map (fun ts => freerun_metric (tsIface ts) (computeTSOffset ts c)) (List.filter pending (pcTstamps c)),
   c <| pcTstamps := map (fun ts => if pending ts then ts <| tsHandled := true |> else ts) (pcTstamps c) |>).

Definition recorded (phc : string) (c : pollCycle) : bool := existsb (fun ts => str_eqb (tsDevice ts) phc) (pcTstamps c).

Definition missing (roles : gmap string string) (c : pollCycle) (i : Iface) : bool :=
  str_eqb (role_of roles (ifPhcId i)) TS2PHCSink && negb (recorded (ifPhcId i) c).

Definition missingMetrics (ifs : IFaces) (roles : gmap string string) (c : pollCycle) : list Metrics :=
  map (fun i => freerun_metric (ifName i) ts2phcOffsetUnmeasured) (List.filter (missing roles c) ifs).

Definition sink_handled (roles : gmap string string) (c : pollCycle) (i : Iface) : bool :=
  negb (str_eqb (role_of roles (ifPhcId i)) TS2PHCSink)
  || existsb (fun ts => str_eqb (tsDevice ts) (ifPhcId i) && tsHandled ts) (pcTstamps c).

Definition allSinksHandled (ifs : IFaces) (roles : gmap string string) (c : pollCycle) : bool :=
  forallb (sink_handled roles c) ifs.

Fixpoint append_once (reported : gset string) (missing : list Metrics) : list Metrics :=
  match missing with
  | [] => []
  | m :: rest =>
      if decide (mtIface m ∈ reported) then append_once reported rest
      else m :: append_once ({[mtIface m]} ∪ reported) rest
  end.

Definition appendMissingMetricsOnce (metrics missing : list Metrics) : list Metrics :=
  metrics ++ append_once (list_to_set (map mtIface metrics)) missing.

(** ** The events *)

Definition resetPollCycle (ifs : IFaces) : pollState :=
  mkState None 0 0
    (foldl (fun m i => if str_eqb (ifPhcId i) "" then m else <[ifPhcId i := TS2PHCSink]> m) ∅ ifs).

Definition set_role (device role : string) (ts : tstamp) : tstamp :=
  if str_eqb (tsDevice ts) device
  then (ts <| tsRole := role |>) <| tsHandled := tsHandled ts || negb (str_eqb role TS2PHCSink) |>
  else ts.

Definition handlePHCSelection (device role : string) (s : pollState) : pollState :=
  if negb (str_eqb role TS2PHCSink) && negb (str_eqb role TS2PHCSource) && negb (str_eqb role TS2PHCUnmanaged) then s
  else
    match psRoles s !! device with
    | None => s
    | Some _ =>
        (s <| psRoles := <[device := role]> (psRoles s) |>)
          <| psCycle := (fun c => c <| pcTstamps := map (set_role device role) (pcTstamps c) |>) <$> psCycle s |>
    end.

Definition shouldContain (c : pollCycle) (ts : tstamp) (group : Z) : bool :=
  negb (existsb (fun previous =>
          str_eqb (tsDevice previous) (tsDevice ts) &&
          (negb (tsSeconds previous =? tsSeconds ts) || negb (tsNanoseconds previous =? tsNanoseconds ts))) (pcTstamps c))
  && ((length (pcTstamps c) =? 0)%nat || (int64 (group - pcLastSampleGroup c) <=? 1)).

(** [newTstamp] is the sample [handleAddedTstamp] builds. *)
Definition newTstamp (t : PHCTimestamp) (device : string) (ifs : IFaces) (roles : gmap string string) : tstamp :=
  let '(iface, role) :=
    match phcToIface device ifs with
    | None => (""%string, TS2PHCUnmanaged)
    | Some iface => (iface, role_of roles device)
    end in
  mkTstamp (phcSeconds t) (phcNanoseconds t) device iface role (negb (str_eqb role TS2PHCSink)).

(** [None] is the error, which leaves the state alone. *)
Definition handleAddedTstamp (ifs : IFaces) (data : Ts2PhcEvent) (s : pollState) : option (list Metrics * pollState) :=
  group ← pollGroupFromTimestamp (teTimestamp data);
  t ← tePHCTstamp data;
  if str_eqb (tePHCDevice data) "" then None
  else
    let ts := newTstamp t (tePHCDevice data) ifs (psRoles s) in
    let fresh := mkCycle group group [ts] false in
    match psCycle s with
    | None => Some ([], s <| psCycle := Some fresh |>)
    | Some cycle =>
        if shouldContain cycle ts group then
          Some ([], s <| psCycle := Some ((cycle <| pcTstamps := pcTstamps cycle ++ [ts] |>) <| pcLastSampleGroup := group |>) |>)
        else
          let r := unhandledMetrics cycle in
          Some (r.1 ++ missingMetrics ifs (psRoles s) r.2, s <| psCycle := Some fresh |>)
    end.

(** The first sample of the device. *)
Fixpoint mark_handled (device : string) (l : list tstamp) : list tstamp :=
  match l with
  | [] => []
  | ts :: l' => if str_eqb (tsDevice ts) device then ts <| tsHandled := true |> :: l' else ts :: mark_handled device l'
  end.

Definition device_of (iface : string) (ifs : IFaces) : string :=
  match first_match (fun i => str_eqb (ifName i) iface && negb (str_eqb (ifPhcId i) "")) ifs with
  | Some i => ifPhcId i
  | None => iface
  end.

Definition handleSuccessfulPollFor (ifs : IFaces) (iface : string) (s : pollState) : pollState :=
  (s <| psTimeoutCount := 0 |>)
    <| psCycle := (fun c => c <| pcTstamps := mark_handled (device_of iface ifs) (pcTstamps c) |>) <$> psCycle s |>.

(** Whether a timeout of [group] ends the batch. *)
Definition timeout_closes (ifs : IFaces) (s : pollState) (cycle : pollCycle) (group : Z) : bool :=
  negb (group =? pcGroup cycle)
  && ((length (pcTstamps cycle) =? 0)%nat
      || (pcLastSampleGroup cycle <? group)
         && (pcCounted cycle && negb (psTimeoutGroup s =? group) || allSinksHandled ifs (psRoles s) cycle)).

Definition count_timeout (group : Z) (cycle : pollCycle) (s : pollState) : pollState :=
  if negb (pcCounted cycle) || negb (psTimeoutGroup s =? group) then
    ((s <| psTimeoutCount := int64 (psTimeoutCount s + 1) |>) <| psTimeoutGroup := group |>)
      <| psCycle := Some (cycle <| pcCounted := true |>) |>
  else s <| psCycle := Some cycle |>.

(** [timeout_at] is [handlePollTimeout] for a parsed group. *)
Definition timeout_at (ifs : IFaces) (group : Z) (s : pollState) : list Metrics * pollState :=
  match psCycle s with
  | None => ([], s)
  | Some cycle0 =>
      let r := unhandledMetrics cycle0 in
      let cycle := r.2 in
      if timeout_closes ifs s cycle group then
        let ms := if (0 <? length (pcTstamps cycle))%nat then r.1 ++ missingMetrics ifs (psRoles s) cycle else r.1 in
        let next := mkCycle group 0 [] true in
        (appendMissingMetricsOnce ms (missingMetrics ifs (psRoles s) next), count_timeout group next s)
      else (r.1, count_timeout group cycle s)
  end.

Definition handlePollTimeout (ifs : IFaces) (data : Ts2PhcEvent) (s : pollState) : option (list Metrics * pollState) :=
  group ← pollGroupFromTimestamp (teTimestamp data); Some (timeout_at ifs group s).

Definition TS2phcHasTimeouts (s : pollState) : bool := 0 <? psTimeoutCount s.

(** [processTS2PhcEvent]: the metrics it publishes; an error publishes none. *)
Definition processTS2PhcEvent (ifs : IFaces) (ev : PTPEvent) (s : pollState) : list Metrics * pollState :=
  match peTs2Phc ev with
  | None => ([], s)
  | Some e =>
      if negb (str_eqb (teRole e) "") then ([], handlePHCSelection (tePHCDevice e) (teRole e) s)
      else if tePollSuccessful e then ([], handleSuccessfulPollFor ifs (peIface ev) s)
      else default ([], s) (if tePollTimeout e then handlePollTimeout ifs e s else handleAddedTstamp ifs e s)
  end.

(** The metrics a sequence of events publishes and the state it leads to. *)
Fixpoint run (ifs : IFaces) (evs : list PTPEvent) (s : pollState) : list Metrics * pollState :=
  match evs with
  | [] => ([], s)
  | e :: evs' => let r := processTS2PhcEvent ifs e s in let r' := run ifs evs' r.2 in (r.1 ++ r'.1, r'.2)
  end.

(** * Properties *)

(** ** Offsets *)

Lemma int64_range z : in_int64 (int64 z).
Proof.
  unfold in_int64, int64, wrap_s. change (64 - 1) with 63.
  pose proof (Z.mod_pos_bound (z + 2 ^ 63) (2 ^ 64) ltac:(lia)). lia.
Qed.

(** Also at the smallest value, whose absolute value is no [int64]. *)
Lemma absInt64_spec z : in_int64 z -> absInt64 z = Z.abs z.
Proof.
  unfold in_int64. intros H. unfold absInt64. destruct (Z.ltb_spec z 0).
  - rewrite (int64_id (z + 1)) by (unfold in_int64; lia). rewrite int64_id by (unfold in_int64; lia).
    unfold uint64, wrap_u. rewrite (Z.mod_small (- (z + 1))), Z.mod_small; lia.
  - unfold uint64, wrap_u. rewrite Z.mod_small; lia.
Qed.

Lemma delta_range other ts : in_int64 (delta other ts).
Proof. apply int64_range. Qed.

(** What the loop has found among the samples it has seen. *)
Definition furthest (ts : tstamp) (seen : list tstamp) (acc : option Z) : Prop :=
  match acc with
  | None => forall o, o ∈ seen -> tsDevice o = tsDevice ts
  | Some m =>
      (exists o, o ∈ seen /\ tsDevice o <> tsDevice ts /\ m = delta o ts) /\
      (forall o, o ∈ seen -> tsDevice o <> tsDevice ts -> Z.abs (delta o ts) <= Z.abs m)
  end.

Lemma max_step_furthest ts seen acc o : furthest ts seen acc -> furthest ts (seen ++ [o]) (max_step ts acc o).
Proof.
  intros H. unfold max_step. destruct (str_eqb (tsDevice ts) (tsDevice o)) eqn:E.
  - apply str_eqb_eq in E. destruct acc as [m|]; simpl in *.
    + destruct H as [(o' & ? & ?) H]. split; [exists o'; set_solver|].
      intros o2 [?| ->%list_elem_of_singleton]%elem_of_app ?; [by apply H|congruence].
    + set_solver.
  - apply str_eqb_neq in E. destruct acc as [m|]; simpl in *.
    + destruct H as [(o' & ? & ? & ->) H]. rewrite !absInt64_spec by apply delta_range.
      destruct (Z.ltb_spec (Z.abs (delta o' ts)) (Z.abs (delta o ts))); (split; [set_solver|]);
        intros o2 [Ho| ->%list_elem_of_singleton]%elem_of_app ?; try lia; specialize (H o2 Ho); auto with lia.
      specialize (H ltac:(done)). lia.
    + split; [set_solver|]. intros o2 [Ho| ->%list_elem_of_singleton]%elem_of_app ?; [|lia]. by apply H in Ho.
Qed.

Lemma max_loop_furthest ts l seen acc : furthest ts seen acc -> furthest ts (seen ++ l) (foldl (max_step ts) acc l).
Proof.
  revert seen acc. induction l as [|o l IH]; intros seen acc H; simpl; [by rewrite app_nil_r|].
  rewrite (cons_middle o seen l), app_assoc. by apply IH, max_step_furthest.
Qed.

(** The reported offset of a sample is the difference to the sample of another
    PHC that lies furthest from zero, in nanoseconds, computed without overflow also
    where the difference is the smallest 64-bit integer; it is NaN exactly when no
    other PHC was sampled. *)
Theorem maxOffset_furthest ts l :
  (exists o, o ∈ l /\ tsDevice o <> tsDevice ts /\ maxOffset ts l = f64_of_Z (delta o ts) /\
     forall o', o' ∈ l -> tsDevice o' <> tsDevice ts -> Z.abs (delta o' ts) <= Z.abs (delta o ts)) \/
  (maxOffset ts l = ts2phcOffsetUnmeasured /\ forall o, o ∈ l -> tsDevice o = tsDevice ts).
Proof.
  assert (furthest ts [] None) as H0 by (intros o Ho; set_solver).
  pose proof (max_loop_furthest ts l [] None H0) as H. simpl in H. unfold maxOffset.
  destruct (foldl _ _ _) as [m|]; simpl in H; [|by right].
  destruct H as [(o & ? & ? & ->) H]. left. by exists o.
Qed.

(** ** Timeouts *)

Lemma nothing_pending l : List.filter pending (map (fun ts => if pending ts then ts <| tsHandled := true |> else ts) l) = [].
Proof.
  induction l as [|ts l IH]; [done|]. simpl. destruct (pending ts) eqn:E; simpl; [done|]. by rewrite E.
Qed.

Lemma mark_idle l : List.filter pending l = [] -> map (fun ts => if pending ts then ts <| tsHandled := true |> else ts) l = l.
Proof. induction l as [|ts l IH]; [done|]. cbn [List.filter map]. destruct (pending ts); [done|]. intros H. by rewrite IH. Qed.

Lemma unhandledMetrics_idle c : List.filter pending (pcTstamps c) = [] -> unhandledMetrics c = ([], c).
Proof. intros H. unfold unhandledMetrics. rewrite H, mark_idle by done. by destruct c. Qed.

Lemma unhandledMetrics_twice c : unhandledMetrics (unhandledMetrics c).2 = ([], (unhandledMetrics c).2).
Proof. apply unhandledMetrics_idle, nothing_pending. Qed.

Lemma timeout_idle ifs group s c :
  psCycle s = Some c -> List.filter pending (pcTstamps c) = [] -> timeout_closes ifs s c group = false ->
  pcCounted c = true -> psTimeoutGroup s = group -> timeout_at ifs group s = ([], s).
Proof.
  intros Hc Hp Hn Hk Hg. unfold timeout_at. rewrite Hc, unhandledMetrics_idle by done. cbn [fst snd]. rewrite Hn.
  unfold count_timeout. rewrite Hk, Hg, Z.eqb_refl. simpl. destruct s; simpl in *. by subst.
Qed.

Lemma count_timeout_cycle group c s :
  exists c', psCycle (count_timeout group c s) = Some c' /\ pcCounted c' = true /\
    pcGroup c' = pcGroup c /\ pcLastSampleGroup c' = pcLastSampleGroup c /\ pcTstamps c' = pcTstamps c /\
    psTimeoutGroup (count_timeout group c s) = group /\ psRoles (count_timeout group c s) = psRoles s.
Proof.
  unfold count_timeout. destruct (pcCounted c) eqn:Ec; cbn [negb orb]; [|eexists; split; [reflexivity|]; simpl; auto 10].
  destruct (Z.eqb_spec (psTimeoutGroup s) group) as [<-|]; cbn [negb];
    (eexists; split; [reflexivity|]); simpl; auto 10.
Qed.

(** ts2phc may print one timeout line per clock: once a timeout of a log second has
    been processed, another one of the same second publishes nothing and leaves the
    state, hence the count of timed out cycles, as it is. *)
Theorem timeout_repeated_silent ifs group s :
  timeout_at ifs group (timeout_at ifs group s).2 = ([], (timeout_at ifs group s).2).
Proof.
  unfold timeout_at at 2 3. destruct (psCycle s) as [c|] eqn:Hc; cbv zeta.
  2: { cbn [snd]. unfold timeout_at. by rewrite Hc. }
  set (c1 := (unhandledMetrics c).2). destruct (timeout_closes ifs s c1 group) eqn:Ht; cbn [snd].
  - destruct (count_timeout_cycle group (mkCycle group 0 [] true) s) as (c' & ? & ? & Hg & ? & Hts & ? & ?).
    apply (timeout_idle _ _ _ c'); try done; [by rewrite Hts|].
    unfold timeout_closes. rewrite Hg. cbn [pcGroup]. by rewrite Z.eqb_refl.
  - destruct (count_timeout_cycle group c1 s) as (c' & ? & Hk & Hg & Hl & Hts & Htg & Hr).
    apply (timeout_idle _ _ _ c'); try done; [rewrite Hts; apply nothing_pending|].
    unfold timeout_closes, allSinksHandled, sink_handled in *. rewrite Hg, Hl, Hts, Htg, Hr, Hk, Z.eqb_refl.
    destruct (negb (group =? pcGroup c1)), (length (pcTstamps c1) =? 0)%nat, (pcLastSampleGroup c1 <? group),
      (pcCounted c1 && negb (psTimeoutGroup s =? group)); simpl in *; done.
Qed.

(** ** Every sink is accounted for *)

Section accounts.
Context (ifs : IFaces).
(** Interfaces have names, which are not those of their PHCs ([/dev/ptp0], a clock index). *)
Hypothesis named : Forall (fun i => ifName i <> ""%string /\ ifName i <> ifPhcId i) ifs.

(** A sample of a known PHC carries the current role and its interface; what is no
    sink needs no report. *)
Definition sample_ok (roles : gmap string string) (ts : tstamp) : Prop :=
  (str_eqb (tsRole ts) TS2PHCSink = false -> tsHandled ts = true) /\
  (is_Some (roles !! tsDevice ts) ->
   tsRole ts = role_of roles (tsDevice ts) /\ tsIface ts = GetPhcID2IFace (tsDevice ts) ifs).

Record Inv (s : pollState) : Prop := {
  inv_roles : forall d, is_Some (psRoles s !! d) -> exists i, i ∈ ifs /\ ifPhcId i = d;
  inv_samples : forall c, psCycle s = Some c -> Forall (sample_ok (psRoles s)) (pcTstamps c)
}.

Lemma phcToIface_known i : i ∈ ifs -> phcToIface (ifPhcId i) ifs = Some (GetPhcID2IFace (ifPhcId i) ifs).
Proof.
  intros Hi. unfold phcToIface. unfold GetPhcID2IFace.
  destruct (first_match _ ifs) as [j|] eqn:E.
  - apply first_match_Some in E as [->%str_eqb_eq%eq_sym Hj]. rewrite Forall_forall in named.
    destruct (named j Hj) as [H1 H2]. by rewrite !str_eqb_ne.
  - eapply first_match_miss in E; [|exact Hi]. by rewrite str_eqb_refl in E.
Qed.

Lemma newTstamp_ok t device roles :
  (forall d, is_Some (roles !! d) -> exists i, i ∈ ifs /\ ifPhcId i = d) ->
  sample_ok roles (newTstamp t device ifs roles).
Proof.
  intros Hr. unfold newTstamp. destruct (phcToIface device ifs) as [iface|] eqn:E; (split; cbn; [intros H; by rewrite H|]); simpl.
  - unfold phcToIface in E. destruct (_ || _); [done|]. by injection E as <-.
  - intros (i & Hi & <-)%Hr. by rewrite phcToIface_known in E.
Qed.

Lemma Inv_reset : Inv (resetPollCycle ifs).
Proof.
  split; [|done]. unfold resetPollCycle. cbn [psRoles].
  assert (forall l (m : gmap string string),
    (forall i, i ∈ l -> i ∈ ifs) -> (forall d, is_Some (m !! d) -> exists i, i ∈ ifs /\ ifPhcId i = d) ->
    forall d, is_Some (foldl (fun m i => if str_eqb (ifPhcId i) "" then m else <[ifPhcId i := TS2PHCSink]> m) m l !! d) ->
    exists i, i ∈ ifs /\ ifPhcId i = d) as H.
  { induction l as [|i l IH]; intros m Hl Hm d; simpl; [by apply Hm|]. apply IH; [set_solver|].
    destruct (str_eqb _ _); [done|]. intros d' Hd'. destruct (decide (d' = ifPhcId i)) as [->|?]; [exists i; set_solver|].
    rewrite lookup_insert_ne in Hd' by done. by apply Hm. }
  apply H; [done|]. by intros d [? ?%lookup_empty_Some].
Qed.

Lemma sample_ok_handled roles ts : sample_ok roles ts -> sample_ok roles (ts <| tsHandled := true |>).
Proof. by intros [? ?]. Qed.

Lemma unhandledMetrics_ok roles c :
  Forall (sample_ok roles) (pcTstamps c) -> Forall (sample_ok roles) (pcTstamps (unhandledMetrics c).2).
Proof. intros H. simpl. apply Forall_map. eapply Forall_impl; [exact H|]. intros ts ?. cbn. destruct (pending ts); [by apply sample_ok_handled|done]. Qed.

Lemma Inv_timeout group s : Inv s -> Inv (timeout_at ifs group s).2.
Proof.
  intros [Hr Hs]. unfold timeout_at. destruct (psCycle s) as [c|] eqn:Hc; [|by split; cbn; rewrite ?Hc].
  cbv zeta. destruct (timeout_closes _ _ _ _); cbn [snd].
  all: match goal with |- Inv (count_timeout ?g ?cy ?st) =>
         destruct (count_timeout_cycle g cy st) as (c' & Hc' & _ & _ & _ & Hts & _ & Hro) end.
  all: split; rewrite Hro; [done|]; intros c2; rewrite Hc'; intros [= <-]; rewrite Hts.
  { by constructor. }
  by apply unhandledMetrics_ok, Hs.  
Qed.

Lemma Inv_added data s ms s' : handleAddedTstamp ifs data s = Some (ms, s') -> Inv s -> Inv s'.
Proof.
  intros H [Hr Hs]. unfold handleAddedTstamp in H.
  destruct (pollGroupFromTimestamp _) as [group|]; [|done]. destruct (tePHCTstamp data) as [t|]; [|done].
  cbn [mbind option_bind] in H. destruct (str_eqb _ _); [done|].
  pose proof (newTstamp_ok t (tePHCDevice data) _ Hr) as Hn.
  destruct (psCycle s) as [c|] eqn:Hc; [destruct (shouldContain _ _ _)|]; injection H as <- <-.
  all: split; cbn; [done|]; intros c' [= <-]; cbn [pcTstamps].
  2,3: by apply Forall_singleton.
  apply Forall_app; split; [by apply Hs|by apply Forall_singleton].
Qed.

Lemma mark_handled_ok roles device l : Forall (sample_ok roles) l -> Forall (sample_ok roles) (mark_handled device l).
Proof. induction 1 as [|ts l H Hl IH]; [constructor|]. cbn. destruct (str_eqb _ _); apply Forall_cons; (split; [|done]); [by apply sample_ok_handled|done]. Qed.

Lemma Inv_success iface s : Inv s -> Inv (handleSuccessfulPollFor ifs iface s).
Proof.
  intros [Hr Hs]. split; [done|]. cbn. intros c' (c & Hc & ->)%fmap_Some. cbn. by apply mark_handled_ok, Hs.
Qed.

Lemma Inv_selection device role s : Inv s -> Inv (handlePHCSelection device role s).
Proof.
  intros HI. unfold handlePHCSelection. case_match; [done|]. destruct (psRoles s !! device) as [old|] eqn:Ed; [|done].
  destruct HI as [Hr Hs]. split; cbn.
  - intros d Hd. apply Hr. destruct (decide (d = device)) as [->|?]; [by rewrite Ed|]. by rewrite lookup_insert_ne in Hd.
  - intros c' (c & Hc & ->)%fmap_Some. cbn. apply Forall_map. eapply Forall_impl; [by apply Hs|].
    intros ts [H1 H2]. unfold set_role, role_of. destruct (str_eqb (tsDevice ts) device) eqn:E.
    + apply str_eqb_eq in E. split; cbn; [intros ->; by rewrite orb_true_r|]. rewrite E. intros _.
      split; [by unfold role_of; rewrite lookup_insert_eq|]. rewrite <- E. apply H2. by rewrite E, Ed.
    + apply str_eqb_neq in E. split; cbn; [done|]. unfold role_of. by rewrite !lookup_insert_ne by done.
Qed.

Lemma Inv_event ev s : Inv s -> Inv (processTS2PhcEvent ifs ev s).2.
Proof.
  intros HI. unfold processTS2PhcEvent. destruct (peTs2Phc ev) as [e|]; [|done].
  repeat case_match; [by apply Inv_selection|by apply Inv_success| |].
  - unfold handlePollTimeout. destruct (pollGroupFromTimestamp _); [by apply Inv_timeout|done].
  - destruct (handleAddedTstamp ifs e s) as [[ms s']|] eqn:Ha; [by eapply Inv_added|done].
Qed.

Lemma Inv_run evs s : Inv s -> Inv (run ifs evs s).2.
Proof. revert s. induction evs as [|e evs IH]; intros s H; [done|]. by apply IH, Inv_event. Qed.

Lemma recorded_unhandled phc c : recorded phc (unhandledMetrics c).2 = recorded phc c.
Proof.
  unfold recorded. simpl. induction (pcTstamps c) as [|ts l IH]; [done|]. simpl. rewrite IH. by destruct (pending ts).
Qed.

(** What the end of a batch says about a sink: a handled sample, or a report under
    the interface of its PHC. *)
Lemma batch_report s c i :
  Inv s -> psCycle s = Some c -> i ∈ ifs -> role_of (psRoles s) (ifPhcId i) = TS2PHCSink ->
  (exists ts, ts ∈ pcTstamps c /\ tsDevice ts = ifPhcId i /\ tsHandled ts = true) \/
  exists m, m ∈ (unhandledMetrics c).1 ++ missingMetrics ifs (psRoles s) (unhandledMetrics c).2 /\
    mtClockState m = ClockStateFreeRun /\ mtIface m ∈ [GetPhcID2IFace (ifPhcId i) ifs; ifName i].
Proof.
  intros [Hr Hs] Hc Hi Hrole. destruct (recorded (ifPhcId i) c) eqn:Erec.
  - apply existsb_exists in Erec as (ts & Hts & Hd%str_eqb_eq). apply list_elem_of_In in Hts.
    destruct (tsHandled ts) eqn:Eh; [left; by exists ts|right].
    specialize (Hs c Hc). rewrite Forall_forall in Hs. destruct (Hs ts Hts) as [H1 H2].
    rewrite Hd in H2. destruct H2 as [H2 H3].
    { unfold role_of in Hrole. destruct (_ !! _) eqn:E; [by eexists|done]. }
    exists (freerun_metric (tsIface ts) (computeTSOffset ts c)).
    split; [apply elem_of_app; left|split; [done|]].
    + simpl. apply list_elem_of_In, in_map_iff. exists ts. split; [reflexivity|].
      apply filter_In. split; [by apply list_elem_of_In|]. unfold pending. by rewrite Eh, H2, Hrole.
    + simpl. rewrite H3. by left.
  - right. exists (freerun_metric (ifName i) ts2phcOffsetUnmeasured).
    split; [apply elem_of_app; right|split; [done|by right; left]].
    + apply list_elem_of_In, in_map_iff. exists i. split; [reflexivity|].
      apply filter_In. split; [by apply list_elem_of_In|]. unfold missing. by rewrite Hrole, recorded_unhandled, Erec.
Qed.
(** *** Why a sample counts as handled *)

Lemma run_snoc evs ev s :
  run ifs (evs ++ [ev]) s = let r := run ifs evs s in let r' := processTS2PhcEvent ifs ev r.2 in (r.1 ++ r'.1, r'.2).
Proof.
  revert s. induction evs as [|e evs IH]; intros s; cbn [app run]; [by rewrite app_nil_r|]. rewrite IH. cbn. by rewrite app_assoc.
Qed.

(** The line of a sample. *)
Definition sample_of (ev : PTPEvent) (ts : tstamp) : Prop :=
  exists e t, peTs2Phc ev = Some e /\ teRole e = ""%string /\ tePollSuccessful e = false /\ tePollTimeout e = false /\
    tePHCTstamp e = Some t /\ tePHCDevice e = tsDevice ts /\ phcSeconds t = tsSeconds ts /\ phcNanoseconds t = tsNanoseconds ts.

(** A later line that settles a sample: an offset of its PHC, a role of it that is not that
    of a sink, or a timeout that reports its interface. *)
Definition settles (s : pollState) (ev : PTPEvent) (ts : tstamp) : Prop :=
  exists e, peTs2Phc ev = Some e /\
  ((teRole e = ""%string /\ tePollSuccessful e = true /\ device_of (peIface ev) ifs = tsDevice ts) \/
   (tePHCDevice e = tsDevice ts /\ teRole e <> ""%string /\ teRole e <> TS2PHCSink) \/
   (teRole e = ""%string /\ tePollSuccessful e = false /\ tePollTimeout e = true /\
    exists m, m ∈ (processTS2PhcEvent ifs ev s).1 /\ mtClockState m = ClockStateFreeRun /\ mtIface m = tsIface ts)).

(** The log [evs], read from [s0], settles the sample: its line is there, and its PHC was no
    sink then or a later line settles it. *)
Definition came_at (evs pre post : list PTPEvent) (ts : tstamp) : Prop :=
  exists ev, evs = pre ++ ev :: post /\ sample_of ev ts.

Definition settled_by (s0 : pollState) (pre evs post : list PTPEvent) (ts : tstamp) : Prop :=
  role_of (psRoles (run ifs pre s0).2) (tsDevice ts) <> TS2PHCSink \/
  exists mid ev rest, post = mid ++ ev :: rest /\ (exists lead, evs = lead ++ ev :: rest /\ settles (run ifs lead s0).2 ev ts).

Definition settled (s0 : pollState) (evs : list PTPEvent) (ts : tstamp) : Prop :=
  exists pre post, came_at evs pre post ts /\ settled_by s0 pre evs post ts.

(** What holds of every sample of the batch. *)
Definition tracked (s0 : pollState) (evs : list PTPEvent) (ts : tstamp) : Prop :=
  exists pre post, came_at evs pre post ts /\ (tsHandled ts = true -> settled_by s0 pre evs post ts).

Lemma came_snoc evs pre post ev ts : came_at evs pre post ts -> came_at (evs ++ [ev]) pre (post ++ [ev]) ts.
Proof. intros (e & -> & H). exists e. split; [by rewrite <- app_assoc|done]. Qed.

Lemma settled_by_snoc s0 evs pre post ev ts : settled_by s0 pre evs post ts -> settled_by s0 pre (evs ++ [ev]) (post ++ [ev]) ts.
Proof.
  intros [H|(mid & e & rest & -> & lead & -> & H)]; [by left|right]. exists mid, e, (rest ++ [ev]). split; [by rewrite <- app_assoc|].
  exists lead. split; [by rewrite <- app_assoc|done].
Qed.

(** Two samples of the same line. *)
Definition same_sample (ts ts' : tstamp) : Prop :=
  tsDevice ts' = tsDevice ts /\ tsSeconds ts' = tsSeconds ts /\ tsNanoseconds ts' = tsNanoseconds ts /\ tsIface ts' = tsIface ts.

(** A sample of the old batch, after the event [ev]. *)
Lemma tracked_step s0 evs ev ts ts' :
  same_sample ts ts' -> tracked s0 evs ts ->
  (tsHandled ts' = true -> tsHandled ts = true \/ settles (run ifs evs s0).2 ev ts) -> tracked s0 (evs ++ [ev]) ts'.
Proof.
  intros (E1 & E2 & E3 & E4) (pre & post & Hc & Hs) Hstep. exists pre, (post ++ [ev]). split.
  - apply (came_snoc _ _ _ ev) in Hc as (e & He & d & t & ?). exists e. split; [done|]. exists d, t. by rewrite E1, E2, E3.
  - intros Hh. destruct (Hstep Hh) as [Hold|Hnew].
    + pose proof (settled_by_snoc _ _ _ _ ev _ (Hs Hold)) as Hb. unfold settled_by, settles in *. by rewrite E1, E4.
    + right. exists post, ev, []. split; [done|]. exists evs. split; [done|]. unfold settles in *. by rewrite E1, E4.
Qed.

Definition all_tracked (s0 : pollState) (evs : list PTPEvent) (s : pollState) : Prop :=
  forall c, psCycle s = Some c -> Forall (tracked s0 evs) (pcTstamps c).

(** An event that changes the samples of the batch one by one. *)
Lemma tracked_map s0 evs ev (f : tstamp -> tstamp) l :
  (forall ts, ts ∈ l -> same_sample ts (f ts)) ->
  (forall ts, ts ∈ l -> tsHandled (f ts) = true -> tsHandled ts = true \/ settles (run ifs evs s0).2 ev ts) ->
  Forall (tracked s0 evs) l -> Forall (tracked s0 (evs ++ [ev])) (map f l).
Proof.
  intros Hsame Hstep HF. rewrite Forall_forall in HF. apply Forall_forall. intros ts' (ts & -> & Hts)%list_elem_of_fmap.
  eapply tracked_step; [by apply Hsame|by apply HF|by apply Hstep].
Qed.

Lemma tracked_same s0 evs ev s : all_tracked s0 evs s -> all_tracked s0 (evs ++ [ev]) s.
Proof.
  intros H c Hc. specialize (H c Hc). rewrite <- (map_id (pcTstamps c)). apply tracked_map; [by intros|by left|exact H].
Qed.

(** The new sample. *)
Lemma tracked_new s0 evs ev e t :
  Inv (run ifs evs s0).2 -> peTs2Phc ev = Some e -> teRole e = ""%string -> tePollSuccessful e = false -> tePollTimeout e = false ->
  tePHCTstamp e = Some t -> tracked s0 (evs ++ [ev]) (newTstamp t (tePHCDevice e) ifs (psRoles (run ifs evs s0).2)).
Proof.
  intros [Hr _] He H1 H2 H3 Ht. exists evs, []. unfold newTstamp.
  destruct (phcToIface (tePHCDevice e) ifs) as [iface|] eqn:E.
  - split; [exists ev; split; [done|]; by exists e, t|]. cbn. intros Hh%negb_true_iff%str_eqb_neq. by left.
  - split; [exists ev; split; [done|]; by exists e, t|]. intros _. left. cbn.
    unfold role_of. destruct (psRoles (run ifs evs s0).2 !! tePHCDevice e) eqn:El; [|discriminate].
    destruct (Hr (tePHCDevice e)) as (i & Hi & Hd); [by eexists|]. rewrite <- Hd, phcToIface_known in E by done. discriminate.
Qed.

Lemma mark_handled_tracked s0 evs ev device l :
  (forall ts, ts ∈ l -> tsDevice ts = device -> settles (run ifs evs s0).2 ev ts) ->
  Forall (tracked s0 evs) l -> Forall (tracked s0 (evs ++ [ev])) (mark_handled device l).
Proof.
  intros Hset HF. induction HF as [|ts l H HF IH]; cbn [mark_handled]; [constructor|].
  assert (Forall (tracked s0 (evs ++ [ev])) l) as Hl.
  { rewrite <- (map_id l). apply tracked_map; [by intros|by left|exact HF]. }
  destruct (str_eqb (tsDevice ts) device) eqn:E; (constructor; [|]); [|exact Hl| |apply IH; intros; apply Hset; [by right|done]].
  - apply str_eqb_eq in E. eapply (tracked_step _ _ _ ts); [by split_and!|exact H|]. intros _. right. apply Hset; [by left|done].
  - eapply (tracked_step _ _ _ ts); [by split_and!|exact H|]. by left.
Qed.

Lemma tracked_timeout s0 evs ev e group :
  all_tracked s0 evs (run ifs evs s0).2 -> peTs2Phc ev = Some e -> teRole e = ""%string -> tePollSuccessful e = false ->
  tePollTimeout e = true -> pollGroupFromTimestamp (teTimestamp e) = Some group ->
  all_tracked s0 (evs ++ [ev]) (timeout_at ifs group (run ifs evs s0).2).2.
Proof.
  intros HI He H1 H2 H3 Hg. remember (timeout_at ifs group (run ifs evs s0).2) as r eqn:Er.
  assert (processTS2PhcEvent ifs ev (run ifs evs s0).2 = r) as Hp.
  { unfold processTS2PhcEvent. rewrite He, H1, H2, H3. unfold handlePollTimeout. rewrite Hg. cbn. by rewrite Er. }
  unfold timeout_at in Er. destruct (psCycle (run ifs evs s0).2) as [c|] eqn:Hc; [|subst r; cbn; by apply tracked_same].
  cbv zeta in Er. destruct (timeout_closes _ _ _ _).
  - subst r. cbn [snd]. destruct (count_timeout_cycle group (mkCycle group 0 [] true) (run ifs evs s0).2) as (c' & Hc' & _ & _ & _ & Hts & _).
    intros c2 Hc2. rewrite Hc' in Hc2. injection Hc2 as <-. rewrite Hts. constructor.
  - pose proof (f_equal fst Er) as Er1. pose proof (f_equal snd Er) as Er2. cbn [fst snd] in Er1, Er2. rewrite Er2.
    destruct (count_timeout_cycle group (unhandledMetrics c).2 (run ifs evs s0).2) as (c' & Hc' & _ & _ & _ & Hts & _).
    intros c2 Hc2. rewrite Hc' in Hc2. injection Hc2 as <-. rewrite Hts. cbn [unhandledMetrics snd pcTstamps upd pollCycle_fields].
    apply tracked_map; [| |by apply HI].
    + intros ts _. by destruct (pending ts).
    + intros ts Hin. destruct (pending ts) eqn:Ep; [|by left]. intros _. right. exists e. split; [done|]. right; right.
      split_and!; [done..|]. exists (freerun_metric (tsIface ts) (computeTSOffset ts c)). rewrite Hp, Er1.
      split; [|done]. apply list_elem_of_In, in_map_iff. exists ts. split; [done|]. apply filter_In. split; [by apply list_elem_of_In|done].
Qed.

Lemma tracked_event s0 evs ev : Inv (run ifs evs s0).2 ->
  all_tracked s0 evs (run ifs evs s0).2 -> all_tracked s0 (evs ++ [ev]) (processTS2PhcEvent ifs ev (run ifs evs s0).2).2.
Proof.
  intros HI HT. unfold processTS2PhcEvent. destruct (peTs2Phc ev) as [e|] eqn:He; [|by apply tracked_same].
  destruct (negb (str_eqb (teRole e) "")) eqn:Er.
  { apply negb_true_iff, str_eqb_neq in Er. cbn [snd]. unfold handlePHCSelection. case_match; [by apply tracked_same|].
    destruct (psRoles _ !! tePHCDevice e); [|by apply tracked_same]. intros c' Hc'. cbn in Hc'. apply fmap_Some in Hc' as (c & Hc & ->).
    cbn. apply tracked_map; [| |by apply HT]; intros ts _; unfold set_role; destruct (str_eqb (tsDevice ts) (tePHCDevice e)) eqn:Ed; try done; [|by left].
    cbn. intros [?|Hr%negb_true_iff%str_eqb_neq]%orb_true_iff; [by left|right]. apply str_eqb_eq in Ed. exists e. split; [done|]. by right; left. }
  apply negb_false_iff, str_eqb_eq in Er. destruct (tePollSuccessful e) eqn:Es.
  { intros c' Hc'. cbn in Hc'. apply fmap_Some in Hc' as (c & Hc & ->). cbn. apply mark_handled_tracked; [|by apply HT].
    intros ts _ Hd. exists e. split; [done|]. by left. }
  destruct (tePollTimeout e) eqn:Et.
  { unfold handlePollTimeout. destruct (pollGroupFromTimestamp (teTimestamp e)) as [group|] eqn:Eg; [|by apply tracked_same].
    cbn [mbind option_bind default from_option]. by eapply tracked_timeout. }
  unfold handleAddedTstamp. destruct (pollGroupFromTimestamp _) as [group|]; [|by apply tracked_same].
  destruct (tePHCTstamp e) as [t|] eqn:Ets; [|by apply tracked_same]. cbn [mbind option_bind]. destruct (str_eqb _ _); [by apply tracked_same|].
  pose proof (tracked_new s0 evs ev e t HI He Er Es Et Ets) as Hnew.
  destruct (psCycle (run ifs evs s0).2) as [c|] eqn:Hc; [destruct (shouldContain _ _ _)|];
    cbn [snd default from_option]; intros c' Hc'; cbn in Hc'; injection Hc' as <-; cbn [pcTstamps upd pollCycle_fields].
  2,3: by apply Forall_singleton.
  apply Forall_app. split; [|by apply Forall_singleton]. exact (tracked_same _ _ ev _ HT _ Hc).
Qed.

Lemma tracked_run s0 evs : Inv s0 -> psCycle s0 = None -> all_tracked s0 evs (run ifs evs s0).2.
Proof.
  intros HI Hn. induction evs as [|ev evs IH] using rev_ind; [intros c Hc; cbn in Hc; congruence|].
  rewrite run_snoc. cbn. apply tracked_event; [by apply Inv_run|done].
Qed.

Lemma append_once_covers reported ms m : m ∈ ms -> mtIface m ∈ reported \/ exists m', m' ∈ append_once reported ms /\ m' ∈ ms /\ mtIface m' = mtIface m.
Proof.
  revert reported. induction ms as [|x ms IH]; intros reported; [by intros ?%elem_of_nil|]. cbn [append_once].
  intros [->|Hm]%elem_of_cons.
  - case_decide as Hin; [by left|right]. exists x. split_and!; [by left|by left|done].
  - case_decide as Hin.
    + destruct (IH reported Hm) as [?|(m' & ? & ? & ?)]; [by left|right]. exists m'. split_and!; [done|by right|done].
    + destruct (IH ({[mtIface x]} ∪ reported) Hm) as [[Hx%elem_of_singleton|?]%elem_of_union|(m' & ? & ? & ?)].
      * right. exists x. split_and!; [by left|by left|done].
      * by left.
      * right. exists m'. split_and!; [by right|by right|done].
Qed.

(** When a timeout closes a batch, every sink is reported. *)
Lemma timeout_report group s c ms s' c' i :
  psCycle s = Some c -> pcTstamps c <> [] -> timeout_at ifs group s = (ms, s') -> psCycle s' = Some c' -> pcTstamps c' = [] ->
  i ∈ ifs -> role_of (psRoles s) (ifPhcId i) = TS2PHCSink ->
  exists m, m ∈ ms /\ mtClockState m = ClockStateFreeRun /\ mtIface m = ifName i.
Proof.
  intros Hc Hne H Hc' He Hi Hrole. unfold timeout_at in H. rewrite Hc in H. cbv zeta in H. destruct (timeout_closes _ _ _ _).
  2: { apply (f_equal snd) in H. cbn [snd] in H. subst s'. destruct (count_timeout_cycle group (unhandledMetrics c).2 s) as (c2 & Hc2 & _ & _ & _ & Hts & _).
       rewrite Hc2 in Hc'. injection Hc' as <-. rewrite Hts in He. cbn in He. by destruct (pcTstamps c). }
  apply (f_equal fst) in H. cbn [fst] in H. subst ms. unfold appendMissingMetricsOnce.
  match goal with |- context [append_once ?rep _] => set (reported := rep) end.
  match goal with |- exists m, m ∈ ?base ++ _ /\ _ => set (ms := base) in * end.
  assert (forall m, m ∈ ms -> mtClockState m = ClockStateFreeRun) as Hfree.
  { intros m Hm. assert (m ∈ (unhandledMetrics c).1 ++ missingMetrics ifs (psRoles s) (unhandledMetrics c).2) as Hin.
    { unfold ms in Hm. destruct (0 <? length _)%nat; [done|]. apply elem_of_app. by left. }
    apply elem_of_app in Hin as [Hin|Hin]; apply list_elem_of_In, in_map_iff in Hin as (? & <- & _); done. }
  assert (freerun_metric (ifName i) ts2phcOffsetUnmeasured ∈ missingMetrics ifs (psRoles s) (mkCycle group 0 [] true)) as Hm.
  { apply list_elem_of_In, in_map_iff. exists i. split; [done|]. apply filter_In. split; [by apply list_elem_of_In|].
    unfold missing. by rewrite Hrole. }
  destruct (append_once_covers reported _ _ Hm) as [Hr|(m' & Hm' & Hin & Hn)].
  - unfold reported in Hr. apply elem_of_list_to_set, list_elem_of_In, in_map_iff in Hr as (m & Hn & Hin%list_elem_of_In).
    exists m. split; [apply elem_of_app; by left|]. split; [by apply Hfree|done].
  - exists m'. split; [apply elem_of_app; by right|]. split; [|done].
    apply list_elem_of_In, in_map_iff in Hin as (? & <- & _). done.
Qed.
End accounts.

(** A batch of samples ends: a sample begins the next one, or a timeout closes it. *)
Definition ends (ifs : IFaces) (data : Ts2PhcEvent) (s : pollState) (ms : list Metrics) (s' : pollState) (c' : pollCycle) : Prop :=
  psCycle s' = Some c' /\
  ((handleAddedTstamp ifs data s = Some (ms, s') /\ length (pcTstamps c') = 1%nat) \/
   (handlePollTimeout ifs data s = Some (ms, s') /\ pcTstamps c' = [])).

(** C34. No edge passes in silence.  Every interface has a name, which is not that of its PHC.
    After any log since the start of ts2phc, when a batch of samples ends, by the sample
    that begins the next one or by a timeout that closes it, every PHC that is a sink has a
    sample in the batch that the log has settled (its line is in the log, and the PHC was no
    sink then, or a later line gave its offset, or a role of it that is not that of a sink,
    or was a timeout that published a FREERUN report for its interface), or a FREERUN report
    is published for its interface now; and a timeout that closes a batch publishes one for
    every sink. *)
Theorem batch_accounts_for_sinks ifs evs data ms s' s c c' i :
  Forall (fun i => ifName i <> ""%string /\ ifName i <> ifPhcId i) ifs ->
  s = (run ifs evs (resetPollCycle ifs)).2 ->
  psCycle s = Some c -> pcTstamps c <> [] ->
  ends ifs data s ms s' c' ->
  i ∈ ifs -> role_of (psRoles s) (ifPhcId i) = TS2PHCSink ->
  ((exists ts, ts ∈ pcTstamps c /\ tsDevice ts = ifPhcId i /\ settled ifs (resetPollCycle ifs) evs ts) \/
   (exists m, m ∈ ms /\ mtClockState m = ClockStateFreeRun /\ mtIface m ∈ [GetPhcID2IFace (ifPhcId i) ifs; ifName i])) /\
  (pcTstamps c' = [] -> exists m, m ∈ ms /\ mtClockState m = ClockStateFreeRun /\ mtIface m = ifName i).
Proof.
  intros Hn Hs Hc Hne [Hc' Hend] Hi Hrole.
  assert (Inv ifs s) as HI by (subst s; by apply Inv_run, Inv_reset).
  destruct Hend as [[Ha Hlen]|[Ht He]].
  - split; [|intros He; by rewrite He in Hlen]. unfold handleAddedTstamp in Ha.
    destruct (pollGroupFromTimestamp _) as [group|]; [|done].
    destruct (tePHCTstamp data) as [t|]; [|done]. cbn [mbind option_bind] in Ha. destruct (str_eqb _ _); [done|].
    rewrite Hc in Ha. destruct (shouldContain _ _ _); injection Ha as <- <-.
    + exfalso. injection Hc' as <-. cbn in Hlen. rewrite length_app in Hlen. simpl in Hlen. destruct (pcTstamps c); simpl in *; [done|lia].
    + destruct (batch_report _ _ _ _ HI Hc Hi Hrole) as [(ts & Hts & Hd & Hh)|H]; [left|by right].
      assert (tracked ifs (resetPollCycle ifs) evs ts) as (pre & post & H1 & H2).
      { pose proof (tracked_run ifs Hn (resetPollCycle ifs) evs ltac:(by apply Inv_reset) eq_refl c) as HT.
        rewrite <- Hs in HT. specialize (HT Hc). rewrite Forall_forall in HT. by apply HT. }
      exists ts. split_and!; [done..|]. exists pre, post. split; [exact H1|by apply H2].
  - unfold handlePollTimeout in Ht. destruct (pollGroupFromTimestamp _) as [group|]; [|done]. cbn in Ht. injection Ht as Ht.
    destruct (timeout_report ifs group s c ms s' c' i Hc Hne Ht Hc' He Hi Hrole) as (m & Hm & Hf & Hname).
    split; [|intros _; by exists m]. right. exists m. split_and!; [done..|]. rewrite Hname. by right; left.
Qed.

(** ** A concrete log *)

Definition two_cards : IFaces :=
  [mkIface "ens1f0" false GNSS "/dev/ptp0"; mkIface "ens2f0" false TS2PHC "/dev/ptp1"].

Definition sample_line (timestamp device : string) (sec nsec : Z) : PTPEvent :=
  mkPTPEvent 0 "" PortRoleUnknown "" "" (Some (mkTs2PhcEvent timestamp device (Some (mkPHCTimestamp sec nsec)) false false "")).

Definition offset_line (iface : string) : PTPEvent :=
  mkPTPEvent 0 iface PortRoleUnknown "" "" (Some (mkTs2PhcEvent "" "" None false true "")).

Definition one_edge : list PTPEvent :=
  [sample_line "10.1" "/dev/ptp0" 1000 5; sample_line "10.2" "/dev/ptp1" 1000 9; offset_line "ens1f0"].

Definition next_edge : Ts2PhcEvent := mkTs2PhcEvent "11.1" "/dev/ptp0" (Some (mkPHCTimestamp 1001 5)) false false "".

(** The offset of [ens2f0] never came: the next edge reports it, 4 ns from the other clock. *)
Example next_edge_reports :
  option_map fst (handleAddedTstamp two_cards next_edge (run two_cards one_edge (resetPollCycle two_cards)).2)
  = Some [freerun_metric "ens2f0" (f64_of_Z 4)].
Proof. vm_compute. reflexivity. Qed.

(** A timeout marks the samples it reports as handled before it asks whether every sink
    was handled: one failed clock makes the batch look complete, and the clock whose
    offset did arrive is reported as missing by the same timeout. *)
Lemma timeout_reports_healthy_sink :
  map mtIface (timeout_at two_cards 11 (run two_cards one_edge (resetPollCycle two_cards)).2).1 = ["ens2f0"; "ens1f0"]%string.
Proof. vm_compute. reflexivity. Qed.

(** [ens1f0] is settled by the line with its offset, [ens2f0] is reported. *)
Lemma batch_accounts_for_sinks_witness :
  exists ms s' c' c, ends two_cards next_edge (run two_cards one_edge (resetPollCycle two_cards)).2 ms s' c' /\
  psCycle (run two_cards one_edge (resetPollCycle two_cards)).2 = Some c /\
  ((exists ts, ts ∈ pcTstamps c /\ tsDevice ts = "/dev/ptp1"%string /\ settled two_cards (resetPollCycle two_cards) one_edge ts) \/
  (exists m, m ∈ ms /\ mtClockState m = ClockStateFreeRun /\ mtIface m ∈ ["ens2f0"; "ens2f0"]%string)).
Proof.
  eexists _, _, _, _. split; [|split; [vm_compute; reflexivity|]].
  - split; [|left; split; [vm_compute; reflexivity|]]; vm_compute; reflexivity.
  - refine (proj1 (batch_accounts_for_sinks two_cards one_edge next_edge _ _ (run two_cards one_edge (resetPollCycle two_cards)).2 _ _
      (mkIface "ens2f0" false TS2PHC "/dev/ptp1") _ eq_refl _ _ _ _ _)).
    + repeat (apply Forall_cons; split; [split; discriminate|]). apply Forall_nil. exact I.
    + vm_compute. reflexivity.
    + discriminate.
    + split; [|left; split; [vm_compute; reflexivity|]]; vm_compute; reflexivity.
    + right. left.
    + vm_compute. reflexivity.
Defined.

End Ts2phc.
