(* ===== verification/Alias.v ===== *)
(** * pkg/alias: one name for the ports of a clock

    [GetAliasValue] of pkg/utils/utils.go and the store of pkg/alias/manager.go.  The
    store is one record; every operation of the code holds its lock throughout.
    [calculateAliases] ranges over a Go map, so it takes the order of the iteration as
    an argument; the second pass only writes an interface under its own name, in any
    order. *)

From S2P Require Import Prelude Regex Event.
From Stdlib Require Import Ascii.

Module Alias.

Import Regex.

Definition no_regexp : Regexp := mkRegexp REps [].

Definition alreadyAliasedPattern : Regexp :=
  Eval vm_compute in default no_regexp (MustCompile "^(.+?)x(\..+)?$").

Definition namePattern : Regexp :=
  Eval vm_compute in default no_regexp (MustCompile "^(.+?)(\d+)(?:np\d+)?(\..+)?$").

Definition GetAliasValue (ifname : string) : string :=
  if str_eqb ifname "" then ""
  else if MatchString alreadyAliasedPattern ifname then ifname
  else
    match FindStringSubmatch namePattern ifname with
    | Some [_; prefix; _; vlan] => (prefix +:+ "x" +:+ (if str_eqb vlan "" then "" else vlan))%string
    | _ => ifname
    end.

Record store := mkStore {
  interfacesByPhc : gmap string (list string);
  phcByIface : gmap string string;
  aliases : gmap string string
}.

#[export] Instance store_fields : Fields store := fun m =>
  mkStore (interfacesByPhc m) (phcByIface m) (aliases m).

Definition addInterface (phc ifName : string) (m : store) : store :=
  (m <| interfacesByPhc := <[phc := default [] (interfacesByPhc m !! phc) ++ [ifName]]> (interfacesByPhc m) |>)
    <| phcByIface := <[ifName := phc]> (phcByIface m) |>.

Definition getPhcGroup (ifName : string) (m : store) : string := default "" (phcByIface m !! ifName).
Definition getAlias (ifName : string) (m : store) : string := default ifName (aliases m !! ifName).
Definition setAlias (ifName alias : string) (m : store) : store := m <| aliases := <[ifName := alias]> (aliases m) |>.
Definition clear (_ : store) : store := mkStore ∅ ∅ ∅.
Definition getAllAliases (m : store) : gmap string string := aliases m.

(** The inner loop over [group[1:]]: the aliases so far, and [ungroup]. *)
Fixpoint group_loop (first : string) (l : list string) (al : gmap string string) : gmap string string * bool :=
  match l with
  | [] => (al, false)
  | i :: l' =>
      let al := <[i := GetAliasValue i]> al in
      if str_eqb first (GetAliasValue i) then group_loop first l' al else (al, true)
  end.

(** [for _, i := range group { m.aliases[i] = i }]. *)
Definition set_self (group : list string) (al : gmap string string) : gmap string string :=
  foldl (fun al i => <[i := i]> al) al group.

(** One group; [None] is the panic of [group[0]]. *)
Definition group_step (al : gmap string string) (seen : gmap string (list string)) (phcID : string) (group : list string) :
    option (gmap string string * gmap string (list string)) :=
  match group with
  | [] => None
  | i0 :: rest =>
      let first := GetAliasValue i0 in
      let r := group_loop first rest (<[i0 := first]> al) in
      Some (if r.2 then (set_self group r.1, seen)
            else (r.1, <[first := default [] (seen !! first) ++ [phcID]]> seen))
  end.

Fixpoint first_pass (order : list (string * list string)) (al : gmap string string) (seen : gmap string (list string)) :
    option (gmap string string * gmap string (list string)) :=
  match order with
  | [] => Some (al, seen)
  | (phcID, group) :: order' => r ← group_step al seen phcID group; first_pass order' r.1 r.2
  end.

(** The clocks that share an alias fall back to the names of their interfaces. *)
Definition fall_back (byPhc : gmap string (list string)) (al : gmap string string) (phcIDs : list string) : gmap string string :=
  if (1 <? length phcIDs)%nat
  then foldl (fun al pid => match byPhc !! pid with Some group => set_self group al | None => al end) al phcIDs
  else al.

Definition calculateAliases (order : list (string * list string)) (m : store) : option store :=
  r ← first_pass order ∅ ∅;
  Some (m <| aliases := foldl (fun al p => fall_back (interfacesByPhc m) al p.2) r.1 (map_to_list r.2) |>).

(** * Properties *)

(** ** Aliases are their own alias *)

Definition any_set : cset := mkSet true [(10, 10)%N].

Lemma path_plus_end g c w pos caps :
  all_in c w -> w <> EmptyString ->
  path (RPlus g (RSet c)) (mkM pos w caps) (mkM (pos + String.length w) EmptyString caps).
Proof. intros H1 H2. pose proof (path_plus_run g c w pos EmptyString caps H1 H2) as H. by rewrite str_app_empty in H. Qed.

(** A name that ends in [x], before an optional VLAN. *)
Lemma aliased w vlan :
  all_in any_set w -> w <> EmptyString ->
  vlan = EmptyString \/ (exists v, vlan = String "." v /\ all_in any_set v /\ v <> EmptyString) ->
  MatchString alreadyAliasedPattern (w +:+ "x" +:+ vlan)%string = true.
Proof.
  intros Hw Hne Hv. apply MatchString_path. exists 0%nat.
  destruct Hv as [->|(v & -> & Hv & Hvn)]; (eexists; split; [lia|]); simpl;
    (eapply PCat; [constructor|]); (eapply PCat; [apply PGroup, path_plus_run; done|]); simpl;
    (eapply PCat; [by apply PSet|]).
  - eapply PCat; [apply PAltR|]; constructor.
  - eapply PCat; [apply PAltL, PGroup; eapply PCat; [by apply PSet|by apply path_plus_end]|apply PEnd].
Qed.

(** The shape of a name the pattern splits. *)
Lemma namePattern_split text m :
  FindStringSubmatch namePattern text = Some m ->
  exists whole w digits vlan, m = [whole; w; digits; vlan] /\ all_in any_set w /\ w <> EmptyString /\
    (vlan = EmptyString \/ (exists v, vlan = String "." v /\ all_in any_set v /\ v <> EmptyString)).
Proof.
  unfold FindStringSubmatch. destruct (search _ _ _) as [[start s]|] eqn:E; [|done]. intros [= <-].
  apply search_sound in E as (n & -> & Hn & Hp). cbn [namePattern re_expr re_names length seq fmap list_fmap] in *.
  apply path_cat_inv in Hp as (x1 & [-> H0]%path_begin_inv & Hp). simpl in H0. subst n. simpl in Hp.
  apply path_cat_inv in Hp as (x2 & (z1 & Hw & ->)%path_group_inv & Hp).
  apply path_plus_inv in Hw as (w & Ht & Hw & Hwn & Hp1 & Hc1). simpl in *.
  apply path_cat_inv in Hp as (x3 & (z2 & Hd & ->)%path_group_inv & Hp).
  apply path_piece in Hd as Hd'. destruct Hd' as (d & Hd' & Hp2).
  apply path_plus_inv in Hd as (_ & _ & _ & _ & _ & Hc2). simpl in *.
  apply path_cat_inv in Hp as (x4 & Hnp & Hp).
  assert (m_caps x4 = m_caps (mkM (m_pos z2) (m_rest z2) ((2%nat, (m_pos z1, m_pos z2)) :: m_caps z2))) as Hc4.
  { apply path_alt_inv in Hnp as [Hnp|Hnp]; [|by apply path_eps_inv in Hnp as ->].
    apply path_cat_inv in Hnp as (u1 & (? & _ & _ & _ & <-)%path_set_inv & Hnp).
    apply path_cat_inv in Hnp as (u2 & (? & _ & _ & _ & <-)%path_set_inv & Hnp).
    by apply path_plus_inv in Hnp as (_ & _ & _ & _ & _ & ->). }
  apply path_piece in Hnp as (np & Hnp & Hp3). simpl in *.
  apply path_cat_inv in Hp as (x5 & Hv & [-> Hend]%path_end_inv).
  assert (String.substring 0 (String.length w - 0) text = w) as Gw.
  { rewrite Nat.sub_0_r, Ht. apply (substring_app EmptyString). }
  assert (text = (w +:+ d +:+ np) +:+ m_rest x4)%string as Htext by (by rewrite Ht, Hd', Hnp, !str_app_assoc).
  assert (m_pos x4 = String.length (w +:+ d +:+ np)%string) as Hpos by (rewrite !str_app_length; lia).
  apply path_alt_inv in Hv as [(z3 & Hv & ->)%path_group_inv| ->%path_eps_inv]; simpl in *.
  - apply path_cat_inv in Hv as (u & (a & Hr & Ha & Hpu & Hcu)%path_set_inv & Hv). apply (in_single ".") in Ha as ->.
    apply path_plus_inv in Hv as (v & Hv & Hvs & Hvn & Hp5 & Hc5). rewrite Hend, str_app_empty in Hv.
    rewrite Hc5, Hcu, Hc4, Hc2, Hc1. unfold group_text. simpl. rewrite Hp1, Gw.
    eexists _, w, _, _. split; [reflexivity|]. split; [done|split; [done|right; exists v; split; [|done]]].
    rewrite Hp5, Hpu, Hpos, Htext, Hr, Hv.
    replace (_ - _)%nat with (String.length (String "." v)) by (simpl; lia).
    pose proof (substring_app (w +:+ d +:+ np) (String "." v) EmptyString) as Hsub. by rewrite str_app_empty in Hsub.
  - rewrite Hc4, Hc2, Hc1. unfold group_text. simpl. rewrite Hp1, Gw. eexists _, w, _, _. auto.
Qed.

(** The alias of an alias is the alias itself, so aliasing a name that is already
    one changes nothing. *)
Theorem GetAliasValue_idempotent ifname : GetAliasValue (GetAliasValue ifname) = GetAliasValue ifname.
Proof.
  assert (forall s, MatchString alreadyAliasedPattern s = true -> GetAliasValue s = s) as Hfix.
  { intros s H. unfold GetAliasValue. rewrite H. destruct (str_eqb s "") eqn:E; [|done]. by apply str_eqb_eq in E. }
  assert (GetAliasValue ifname = ifname \/ MatchString alreadyAliasedPattern (GetAliasValue ifname) = true) as [H|H];
    [|by rewrite !H|by apply Hfix].
  unfold GetAliasValue. destruct (str_eqb ifname "") eqn:E; [apply str_eqb_eq in E; by left|].
  destruct (MatchString _ _); [by left|]. destruct (FindStringSubmatch _ _) as [m|] eqn:Em; [|by left].
  apply namePattern_split in Em as (whole & w & digits & vlan & -> & Hw & Hne & Hv). right.
  assert ((if str_eqb vlan "" then "" else vlan) = vlan) as ->.
  { destruct (str_eqb vlan "") eqn:Ev; [|done]. by apply str_eqb_eq in Ev. }
  by apply aliased.
Qed.

(** ** The aliases of a store *)

Definition uniform (group : list string) : bool :=
  match group with [] => true | i0 :: rest => forallb (fun i => str_eqb (GetAliasValue i0) (GetAliasValue i)) rest end.

Definition group_alias (group : list string) : string := match group with [] => "" | i0 :: _ => GetAliasValue i0 end.

Lemma uniform_alias group i : uniform group = true -> i ∈ group -> GetAliasValue i = group_alias group.
Proof.
  destruct group as [|i0 rest]; [by intros _ ?%elem_of_nil|]. simpl. intros H [->|Hi]%elem_of_cons; [done|].
  rewrite forallb_forall in H. symmetry. apply str_eqb_eq, H. by apply list_elem_of_In.
Qed.

Lemma set_self_lookup group al j : set_self group al !! j = if decide (j ∈ group) then Some j else al !! j.
Proof.
  unfold set_self. revert al. induction group as [|i group IH]; intros al; simpl; [done|]. rewrite IH.
  destruct (decide (j ∈ group)), (decide (j ∈ i :: group)); try done; try set_solver.
  - assert (j = i) as -> by set_solver. by rewrite lookup_insert_eq.
  - rewrite lookup_insert_ne; [done|set_solver].
Qed.

Lemma group_loop_spec first l al :
  (group_loop first l al).2 = negb (forallb (fun i => str_eqb first (GetAliasValue i)) l) /\
  (forall j, j ∉ l -> (group_loop first l al).1 !! j = al !! j) /\
  (forallb (fun i => str_eqb first (GetAliasValue i)) l = true ->
   forall j, j ∈ l -> (group_loop first l al).1 !! j = Some first).
Proof.
  revert al. induction l as [|i l IH]; intros al; simpl; [split; [done|split; [done|set_solver]]|].
  destruct (str_eqb first (GetAliasValue i)) eqn:E; simpl.
  - apply str_eqb_eq in E. destruct (IH (<[i := GetAliasValue i]> al)) as (H1 & H2 & H3). split; [done|]. split.
    + intros j Hj. rewrite H2 by set_solver. rewrite lookup_insert_ne; [done|set_solver].
    + intros H j Hj. destruct (decide (j ∈ l)); [by apply H3|]. assert (j = i) as -> by set_solver.
      rewrite H2 by done. by rewrite lookup_insert_eq, E.
  - split; [done|]. split; [|done]. intros j Hj. rewrite lookup_insert_ne; [done|set_solver].
Qed.

Lemma group_step_spec al seen phc group :
  group <> [] ->
  exists al', group_step al seen phc group
    = Some (al', if uniform group then <[group_alias group := default [] (seen !! group_alias group) ++ [phc]]> seen else seen) /\
  forall j, al' !! j = if decide (j ∈ group) then Some (if uniform group then group_alias group else j) else al !! j.
Proof.
  destruct group as [|i0 rest]; [done|]. intros _. cbn [group_step uniform group_alias].
  set (first := GetAliasValue i0).
  destruct (group_loop_spec first rest (<[i0 := first]> al)) as (H1 & H2 & H3). rewrite H1.
  destruct (forallb _ rest) eqn:E; cbn [negb]; (eexists; split; [reflexivity|]); intros j.
  - destruct (decide (j ∈ rest)) as [Hj|Hj].
    + rewrite H3 by done. destruct (decide _); [done|set_solver].
    + rewrite H2 by done. destruct (decide (j = i0)) as [->|Hn].
      * rewrite lookup_insert_eq. destruct (decide _); [done|set_solver].
      * rewrite lookup_insert_ne by done. destruct (decide _); [set_solver|done].
  - rewrite set_self_lookup. destruct (decide (j ∈ i0 :: rest)); [done|].
    rewrite H2 by set_solver. rewrite lookup_insert_ne; [done|set_solver].
Qed.

(** Groups of different clocks have no interface in common. *)
Definition disjoint_groups (order : list (string * list string)) : Prop :=
  forall p q i, p ∈ order -> q ∈ order -> i ∈ p.2 -> i ∈ q.2 -> p = q.

(** The clocks of [order] whose interfaces agree on the alias [v]. *)
Definition with_alias (v : string) (order : list (string * list string)) : list string :=
  (List.filter (fun p => uniform p.2 && str_eqb (group_alias p.2) v) order).*1.

Lemma with_alias_cons v p order :
  with_alias v (p :: order) = (if uniform p.2 && str_eqb (group_alias p.2) v then [p.1] else []) ++ with_alias v order.
Proof. unfold with_alias. simpl. by destruct (_ && _). Qed.

Lemma first_pass_spec order al seen :
  Forall (fun p => p.2 <> []) order -> disjoint_groups order ->
  exists al' seen', first_pass order al seen = Some (al', seen') /\
    (forall p i, p ∈ order -> i ∈ p.2 -> al' !! i = Some (if uniform p.2 then group_alias p.2 else i)) /\
    (forall i, (forall p, p ∈ order -> i ∉ p.2) -> al' !! i = al !! i) /\
    (forall v, default [] (seen' !! v) = default [] (seen !! v) ++ with_alias v order).
Proof.
  revert al seen. induction order as [|[phc group] order IH]; intros al seen Hne Hd; simpl.
  - exists al, seen. repeat split; [set_solver|]. intros v. unfold with_alias. simpl. by rewrite app_nil_r.
  - apply Forall_cons in Hne as [Hg Hne]. destruct (group_step_spec al seen phc group Hg) as (al1 & -> & Hal1). simpl.
    set (seen1 := if uniform group then _ else seen).
    destruct (IH al1 seen1 Hne) as (al' & seen' & -> & H1 & H2 & H3).
    { intros p q i Hp Hq. apply Hd; set_solver. }
    exists al', seen'. split; [done|]. split; [|split].
    + intros p i [->|Hp]%elem_of_cons Hi; [|by apply H1]. simpl in *.
      destruct (decide (Exists (fun q => i ∈ q.2) order)) as [(q & Hq & Hiq)%Exists_exists|Hn].
      * assert ((phc, group) = q) as <- by (apply (Hd _ _ i); set_solver). by rewrite (H1 _ i Hq Hi).
      * rewrite H2 by (intros q Hq Hiq; apply Hn, Exists_exists; eauto). rewrite Hal1. by destruct (decide (i ∈ group)).
    + intros i Hi. rewrite H2 by (intros q Hq; apply Hi; by right). rewrite Hal1.
      destruct (decide (i ∈ group)); [|done]. by destruct (Hi (phc, group) ltac:(by left)).
    + intros v. rewrite H3, with_alias_cons. unfold seen1. simpl. destruct (uniform group); simpl; [|done].
      destruct (str_eqb (group_alias group) v) eqn:E; simpl.
      * apply str_eqb_eq in E as <-. rewrite lookup_insert_eq. simpl. by rewrite <- app_assoc.
      * apply str_eqb_neq in E. by rewrite lookup_insert_ne.
Qed.

Definition in_group (byPhc : gmap string (list string)) (j pid : string) : bool :=
  match byPhc !! pid with Some group => bool_decide (j ∈ group) | None => false end.

(** The second pass gives the interfaces of the clocks that share an alias their own names. *)
Lemma fall_back_lookup byPhc al ids j :
  fall_back byPhc al ids !! j = if existsb (in_group byPhc j) ids && (1 <? length ids)%nat then Some j else al !! j.
Proof.
  unfold fall_back. destruct (1 <? length ids)%nat; [|by rewrite andb_false_r]. rewrite andb_true_r.
  revert al. induction ids as [|pid ids IH]; intros al; simpl; [done|]. rewrite IH. unfold in_group at 2.
  destruct (byPhc !! pid) as [g|]; simpl; [|done]. rewrite set_self_lookup.
  destruct (existsb _ ids); [by rewrite orb_true_r|]. rewrite orb_false_r.
  by destruct (decide (j ∈ g)) as [H|H]; [rewrite bool_decide_true|rewrite bool_decide_false].
Qed.

Lemma second_pass_lookup byPhc al (l : list (string * list string)) j :
  foldl (fun al p => fall_back byPhc al p.2) al l !! j
  = if existsb (fun p => existsb (in_group byPhc j) p.2 && (1 <? length p.2)%nat) l then Some j else al !! j.
Proof.
  revert al. induction l as [|p l IH]; intros al; simpl; [done|]. rewrite IH, fall_back_lookup.
  by destruct (existsb _ l), (existsb _ p.2 && _).
Qed.

(** Whether another clock of the list claims the alias. *)
Definition contested (v : string) (order : list (string * list string)) : bool := (1 <? length (with_alias v order))%nat.

Lemma with_alias_length v l l' : l ≡ₚ l' -> length (with_alias v l) = length (with_alias v l').
Proof.
  induction 1 as [|p l l' _ IH|p q l|l1 l2 l3 _ IH1 _ IH2]; rewrite ?with_alias_cons, ?length_app; [done|lia|lia|congruence].
Qed.

(** Whatever order the map is ranged over in, the aliases of a store are computed
    without a panic, and an interface gets the alias of its clock exactly when all the
    interfaces of that clock agree on it and no other clock claims it; otherwise it
    keeps its own name. *)
Theorem calculateAliases_spec m order :
  order ≡ₚ map_to_list (interfacesByPhc m) ->
  Forall (fun p => p.2 <> []) order -> disjoint_groups order ->
  exists m', calculateAliases order m = Some m' /\
    forall phc group i, (phc, group) ∈ order -> i ∈ group ->
      aliases m' !! i
      = Some (if uniform group && negb (contested (group_alias group) (map_to_list (interfacesByPhc m)))
              then group_alias group else i).
Proof.
  intros Hperm Hne Hd. destruct (first_pass_spec order ∅ ∅ Hne Hd) as (al & seen & Hf & H1 & _ & H3).
  unfold calculateAliases. rewrite Hf. eexists. split; [reflexivity|]. intros phc group i Hp Hi. simpl.
  rewrite second_pass_lookup, (H1 _ i Hp Hi). simpl.
  assert (forall pid g, (pid, g) ∈ order <-> interfacesByPhc m !! pid = Some g) as Hin
    by (intros pid g; rewrite Hperm; apply elem_of_map_to_list).
  assert (forall v, default [] (seen !! v) = with_alias v order) as Hseen.
  { intros v. rewrite H3. by rewrite lookup_empty. }
  assert (forall pid, in_group (interfacesByPhc m) i pid = true <-> pid = phc) as Hig.
  { intros pid. unfold in_group. destruct (interfacesByPhc m !! pid) as [g|] eqn:Eg; [rewrite bool_decide_eq_true|].
    - split; [intros Hg; apply Hin in Eg; by injection (Hd _ _ i Eg Hp Hg Hi)|]. intros ->. apply Hin in Hp. congruence.
    - split; [done|]. intros ->. apply Hin in Hp. congruence. }
  assert (length (with_alias (group_alias group) order) = length (with_alias (group_alias group) (map_to_list (interfacesByPhc m)))) as Hlen.
  { apply with_alias_length, Hperm. }
  match goal with |- (if ?b then _ else _) = _ =>
    assert (b = uniform group && contested (group_alias group) (map_to_list (interfacesByPhc m))) as -> end.
  { apply eq_true_iff_eq. rewrite existsb_exists, andb_true_iff. unfold contested. rewrite <- Hlen. split.
    - intros ([v ids] & Hvi & [(pid & Hpid & ->%Hig)%existsb_exists Hl]%andb_prop). simpl in *.
      apply list_elem_of_In, elem_of_map_to_list in Hvi. specialize (Hseen v). rewrite Hvi in Hseen. simpl in Hseen. subst ids.
      unfold with_alias in Hpid. apply in_map_iff in Hpid as ([? g] & Heq & [Hg [Hu Hv%str_eqb_eq]%andb_prop]%filter_In).
      simpl in *. subst. apply list_elem_of_In, Hin in Hg. apply Hin in Hp. rewrite Hp in Hg. injection Hg as <-. done.
    - intros [Hu Hl]. exists (group_alias group, with_alias (group_alias group) order). simpl.
      assert (phc ∈ with_alias (group_alias group) order) as Hmem.
      { apply list_elem_of_In, in_map_iff. exists (phc, group). split; [done|]. apply filter_In.
        split; [by apply list_elem_of_In|]. simpl. by rewrite Hu, str_eqb_refl. }
      split; [|rewrite Hl, andb_true_r; apply existsb_exists; exists phc; split; [by apply list_elem_of_In|by apply Hig]].
      apply list_elem_of_In, elem_of_map_to_list. specialize (Hseen (group_alias group)).
      destruct (seen !! group_alias group) as [l|]; simpl in Hseen; [by subst|]. rewrite <- Hseen in Hmem. set_solver. }
  by destruct (uniform group), (contested _ _).
Qed.

(** Two clocks: four ports of two cards, whose aliases differ. *)
Definition two_clocks : store :=
  addInterface "1" "ens2f1" (addInterface "0" "ens1f1" (addInterface "1" "ens2f0" (addInterface "0" "ens1f0" (clear (mkStore ∅ ∅ ∅))))).

Definition two_groups : list (string * list string) := [("1", ["ens2f0"; "ens2f1"]); ("0", ["ens1f0"; "ens1f1"])]%string.

Lemma calculateAliases_spec_witness :
  exists m', calculateAliases two_groups two_clocks = Some m' /\
    getAlias "ens1f1" m' = "ens1fx"%string /\ getAlias "ens2f1" m' = "ens2fx"%string.
Proof.
  assert (map_to_list (interfacesByPhc two_clocks) = two_groups) as E by (vm_compute; reflexivity).
  destruct (calculateAliases_spec two_clocks two_groups) as (m' & H1 & H2).
  - rewrite E. reflexivity.
  - repeat (apply Forall_cons; split; [discriminate|]). by apply Forall_nil.
  - intros p q i. unfold two_groups. rewrite !elem_of_cons.
    intros [->|[->|?%elem_of_nil]] [->|[->|?%elem_of_nil]]; simpl;
      intros Hi Hj; try reflexivity; exfalso; set_solver.
  - exists m'. split; [exact H1|]. unfold getAlias. rewrite E in H2.
    rewrite (H2 "0" ["ens1f0"; "ens1f1"] "ens1f1")%string by (first [by left|by right; left]).
    rewrite (H2 "1" ["ens2f0"; "ens2f1"] "ens2f1")%string by (first [by left|by right; left]). by vm_compute.
Defined.

End Alias.
