(* ===== verification/Parser.v ===== *)
(** * pkg/parser: the log lines of the linuxptp programs

    An extractor tries its patterns in order; the first one that matches fills a record
    from the named groups and turns it into metrics or an event.  [None] is the error
    of [Extract]. *)

From S2P Require Import Prelude Float64 Strconv Event Config Regex Alias.
From Stdlib Require Import Ascii.

Module Parser.

Import Config Regex.

(** ** Strings *)

Definition is_space (a : ascii) : bool := in_set (mkSet false [(9, 13); (32, 32)]%N) a.

Fixpoint trim_left (s : string) : string :=
  match s with
  | String a s' => if is_space a then trim_left s' else s
  | EmptyString => EmptyString
  end.

Fixpoint trim_right (s : string) : string :=
  match s with
  | EmptyString => EmptyString
  | String a s' =>
      match trim_right s' with
      | EmptyString => if is_space a then EmptyString else String a EmptyString
      | t => String a t
      end
  end.

(** [strings.TrimSpace] on ASCII. *)
Definition TrimSpace (s : string) : string := trim_right (trim_left s).

(** [strconv.ParseFloat(s, 64)] on what the patterns let through: a sign and decimal
    digits, or the bar that [[0|1]] also takes.  [None] is the error, also of a number
    beyond the range of the type. *)
Definition parse_decimal (s : string) : option Z :=
  let '(n, ok) := parse_loop 10 (10 ^ Z.of_nat (String.length s)) 0 s in
  if ok && negb (str_eqb s "") then Some n else None.

Definition finite_or_error (f : f64) : option f64 := match f with SpecFloat.S754_infinity _ => None | _ => Some f end.

Definition ParseFloat (s : string) : option f64 :=
  match s with
  | String "-" s' =>
      n ← parse_decimal s'; finite_or_error (if n =? 0 then SpecFloat.S754_zero true else f64_of_Z (- n))
  | String "+" s' => n ← parse_decimal s'; finite_or_error (f64_of_Z n)
  | _ => n ← parse_decimal s; finite_or_error (f64_of_Z n)
  end.

Definition Atoi (s : string) : option Z := let '(n, ok) := ParseInt s 10 64 in if ok then Some n else None.

(** ** Extraction *)

(** Metrics and event. *)
Abbreviation result := (option Metrics * option PTPEvent)%type.

(** The loop over the group names of a [Populate] method. *)
Fixpoint populate {P} (field : string -> string -> P -> option P) (names matched : list string) (p : P) : option P :=
  match names, matched with
  | name :: names', v :: matched' => p' ← field name v p; populate field names' matched' p'
  | _, _ => Some p
  end.

(** [parseLine]: no match, or the record, or the error. *)
Definition parseLine {P} (logLine : string) (regex : Regexp) (field : string -> string -> P -> option P) (fresh : string -> P) :
    option (option P) :=
  match FindStringSubmatch regex logLine with
  | None => Some None
  | Some m => p ← populate field (SubexpNames regex) m (fresh logLine); Some (Some p)
  end.

Fixpoint try_pairs {P R} (field : string -> string -> P -> option P) (fresh : string -> P)
    (pairs : list (Regexp * (P -> option R))) (logLine : string) : option (option R) :=
  match pairs with
  | [] => Some None
  | (regex, extractor) :: pairs' =>
      o ← parseLine logLine regex field fresh;
      match o with
      | None => try_pairs field fresh pairs' logLine
      | Some p => r ← extractor p; Some (Some r)
      end
  end.

(** [BaseMetricsExtractor.Extract]; [None] inside is a line no pattern matches. *)
Definition extract_with {P R} (field : string -> string -> P -> option P) (fresh : string -> P)
    (pairs : list (Regexp * (P -> option R))) (logLine : string) : option (option R) :=
  let logLine := TrimSpace logLine in
  if str_eqb logLine "" then Some None else try_pairs field fresh pairs logLine.

Definition no_result : result := (None, None).

Definition pattern (p : string) : Regexp := default Alias.no_regexp (MustCompile p).

(** ** ptp4l *)

Definition ptp4lEventRegex : Regexp := Eval vm_compute in
  pattern ("^ptp4l\[(?P<timestamp>\d+\.?\d*)\]:" +:+
    "\s+\[(?P<config_name>.*\.\d+\.config):?(?P<serverity>\d*)\]" +:+
    "\s+port\s+(?P<port_id>\d+)(?:\s+\((?P<port_name>[\d\w]+)\))?:" +:+
    "\s+(?P<event>.+)")%string.

Definition summaryPTP4LRegex : Regexp := Eval vm_compute in
  pattern ("^ptp4l\[(?P<timestamp>\d+\.?\d*)\]:" +:+
    "\s+\[(?P<config_name>.*\.\d+\.config):?(?P<serverity>\d*)\]" +:+
    "\s*(?P<interface>\w+)?" +:+
    "\s+rms\s+(?P<offset>-?\d+)" +:+
    "\s+max\s+(?P<max>-?\d+)" +:+
    "\s+freq\s+(?P<freq_adj>[-+]?\d+)\s+\+/-\s+\d+" +:+
    "\s*(?:delay\s+(?P<delay>\d+)\s+\+/-\s+\d+)?" +:+
    "$")%string.

Definition regularPTP4LRegex : Regexp := Eval vm_compute in
  pattern ("^ptp4l\[(?P<timestamp>\d+\.?\d*)\]:" +:+
    "\s+\[(?P<config_name>.*\.\d+\.config):?(?P<serverity>\d*)\]" +:+
    "\s*(?P<interface>\w+)?" +:+
    "\s+offset\s+(?P<offset>-?\d+)" +:+
    "\s+(?P<servo_state>s\d)" +:+
    "\s+freq\s+(?P<freq_adj>[-+]?\d+)" +:+
    "\s*(?:path\s+delay\s+(?P<delay>\d+))?" +:+
    "$")%string.

Record ptp4lParsed := mkPtp4l {
  p4Raw : string;
  p4Timestamp : string;
  p4ConfigName : string;
  p4ServerityLevel : option Z;
  p4Interface : string;
  p4Offset : option f64;
  p4MaxOffset : option f64;
  p4FreqAdj : option f64;
  p4Delay : option f64;
  p4ServoState : string;
  p4PortID : option Z;
  p4PortName : string;
  p4Event : string
}.

#[export] Instance ptp4lParsed_fields : Fields ptp4lParsed := fun p =>
  mkPtp4l (p4Raw p) (p4Timestamp p) (p4ConfigName p) (p4ServerityLevel p) (p4Interface p) (p4Offset p) (p4MaxOffset p)
    (p4FreqAdj p) (p4Delay p) (p4ServoState p) (p4PortID p) (p4PortName p) (p4Event p).

(** A number that may not be empty, and one that may. *)
Definition required {A} (parse : string -> option A) (v : string) : option A := if str_eqb v "" then None else parse v.

Definition ptp4l_field (name v : string) (p : ptp4lParsed) : option ptp4lParsed :=
  if str_eqb name "timestamp" then Some (p <| p4Timestamp := v |>)
  else if str_eqb name "config_name" then Some (p <| p4ConfigName := v |>)
  else if str_eqb name "serverity" then
    if str_eqb v "" then Some p else n ← Atoi v; Some (p <| p4ServerityLevel := Some n |>)
  else if str_eqb name "interface" then Some (p <| p4Interface := v |>)
  else if str_eqb name "offset" then f ← required ParseFloat v; Some (p <| p4Offset := Some f |>)
  else if str_eqb name "max" then f ← required ParseFloat v; Some (p <| p4MaxOffset := Some f |>)
  else if str_eqb name "freq_adj" then f ← required ParseFloat v; Some (p <| p4FreqAdj := Some f |>)
  else if str_eqb name "delay" then
    if str_eqb v "" then Some p else f ← ParseFloat v; Some (p <| p4Delay := Some f |>)
  else if str_eqb name "servo_state" then Some (p <| p4ServoState := v |>)
  else if str_eqb name "port_id" then n ← Atoi v; Some (p <| p4PortID := Some n |>)
  else if str_eqb name "port_name" then Some (p <| p4PortName := v |>)
  else if str_eqb name "event" then Some (p <| p4Event := v |>)
  else Some p.

Definition fresh_ptp4l (line : string) : ptp4lParsed := mkPtp4l line "" "" None "" None None None None "" None "" "".

Definition any_contains (subs : list string) (s : string) : bool := existsb (fun sub => contains sub s) subs.

Definition determineRole (event : string) : PTPPortRole * string :=
  if any_contains ["UNCALIBRATED to SLAVE"; "LISTENING to SLAVE"] event then (PortRoleSlave, ClockStateFreeRun)
  else if any_contains ["UNCALIBRATED to PASSIVE"; "MASTER to PASSIVE"; "SLAVE to PASSIVE"; "LISTENING to PASSIVE"] event
  then (PortRolePassive, ClockStateFreeRun)
  else if any_contains ["UNCALIBRATED to MASTER"; "LISTENING to MASTER"; "to PRE_MASTER"; "PRE_MASTER to MASTER"] event
  then (PortRoleMaster, ClockStateFreeRun)
  else if any_contains ["FAULT_DETECTED"; "SYNCHRONIZATION_FAULT"] event then (PortRoleFaulty, ClockStateHoldover)
  else if any_contains ["SLAVE to UNCALIBRATED"; "MASTER to UNCALIBRATED"; "LISTENING to UNCALIBRATED"] event
  then (PortRoleListening, ClockStateHoldover)
  else if any_contains ["SLAVE to MASTER"; "SLAVE to GRAND_MASTER"] event then (PortRoleMaster, ClockStateHoldover)
  else if any_contains ["SLAVE to LISTENING"] event then (PortRoleListening, ClockStateHoldover)
  else if any_contains ["FAULTY to LISTENING"; "UNCALIBRATED to LISTENING"; "INITIALIZING to LISTENING"] event
  then (PortRoleListening, ClockStateFreeRun)
  else (PortRoleUnknown, ClockStateFreeRun).

Definition extractEventPTP4l (p : ptp4lParsed) : option result :=
  portID ← p4PortID p;
  let '(role, clockState) := determineRole (p4Event p) in
  Some (None, Some (mkPTPEvent (if decide (role = PortRoleUnknown) then 0 else portID) "" role clockState (p4Raw p) None)).

Definition extractSummaryPTP4l (p : ptp4lParsed) : option result :=
  let iface := if str_eqb (p4Interface p) "" then Master else p4Interface p in
  offset ← p4Offset p;
  maxOffset ← p4MaxOffset p;
  freqAdj ← p4FreqAdj p;
  Some (Some (mkMetrics "" iface offset maxOffset freqAdj (default f64_zero (p4Delay p)) "" "" Master []), None).

Definition extractRegularPTP4l (p : ptp4lParsed) : option result :=
  offset ← p4Offset p;
  freqAdj ← p4FreqAdj p;
  if str_eqb (p4ServoState p) "" then None
  else Some (Some (mkMetrics "" (p4Interface p) offset offset freqAdj (default f64_zero (p4Delay p))
                     (clockStateFromServo (p4ServoState p)) (p4ServoState p) Master []), None).

Definition NewPTP4LExtractor : string -> option (option result) :=
  extract_with ptp4l_field fresh_ptp4l
    [(ptp4lEventRegex, extractEventPTP4l); (summaryPTP4LRegex, extractSummaryPTP4l); (regularPTP4LRegex, extractRegularPTP4l)].

(** The group of the name, empty without a match. *)
Fixpoint named_group (name : string) (names matched : list string) : string :=
  match names, matched with
  | n :: names', v :: matched' => if str_eqb n name then v else named_group name names' matched'
  | _, _ => ""
  end.

Definition ExtractPortName (logLine : string) : string :=
  match FindStringSubmatch ptp4lEventRegex logLine with
  | None => ""
  | Some m => named_group "port_name" (SubexpNames ptp4lEventRegex) m
  end.

(** ** phc2sys *)

Definition summaryPhc2SysRegex : Regexp := Eval vm_compute in
  pattern ("^phc2sys\[(?P<timestamp>\d+\.?\d*)\]:" +:+
    "\s+\[(?P<config_name>.*\.\d+\.config):?(?P<serverity>\d*)\]" +:+
    "\s+(?P<clock_name>CLOCK_REALTIME)" +:+
    "\s+rms\s+(?P<offset>-?\d+)" +:+
    "\s+max\s+(?P<max>-?\d+)" +:+
    "\s+freq\s+(?P<freq_adj>[-+]?\d+)\s+(?:\+/-\s+\d+)" +:+
    "\s*(?:delay\s+(?P<delay>\d+)\s+\+/-\s+\d+)?$")%string.

Definition regularPhc2SysRegex : Regexp := Eval vm_compute in
  pattern ("^phc2sys\[(?P<timestamp>\d+\.?\d*)\]:" +:+
    "\s+\[(?P<config_name>.*\.\d+\.config):?(?P<serverity>\d*)\]" +:+
    "\s+(?P<clock_name>CLOCK_REALTIME)" +:+
    "\s+(?P<source>phc|sys)" +:+
    "\s+offset\s+(?P<offset>-?\d+)" +:+
    "\s+(?P<servo_state>s\d)" +:+
    "\s+freq\s+(?P<freq_adj>[-+]?\d+)" +:+
    "\s*(?:delay\s+(?P<delay>[-+]?\d+))?$")%string.

Definition selectingPhc2SysRegex : Regexp := Eval vm_compute in
  pattern ("^phc2sys\[(?P<timestamp>\d+\.?\d*)\]:" +:+
    "\s+\[(?P<config_name>.*\.\d+\.config):?(?P<serverity>\d*)\]" +:+
    "\s+selecting\s+(?P<selected_iface>\S+)\s+as\s+[\w-]+\s+source\s+clock$")%string.

Record phc2sysParsed := mkPhc2sys {
  psRaw : string;
  psTimestamp : string;
  psConfigName : string;
  psServerityLevel : option Z;
  psClockName : string;
  psOffset : option f64;
  psMaxOffset : option f64;
  psFreqAdj : option f64;
  psDelay : option f64;
  psServoState : string;
  psSource : string;
  psSelectedIface : string
}.

#[export] Instance phc2sysParsed_fields : Fields phc2sysParsed := fun p =>
  mkPhc2sys (psRaw p) (psTimestamp p) (psConfigName p) (psServerityLevel p) (psClockName p) (psOffset p) (psMaxOffset p)
    (psFreqAdj p) (psDelay p) (psServoState p) (psSource p) (psSelectedIface p).

Definition phc2sys_field (name v : string) (p : phc2sysParsed) : option phc2sysParsed :=
  if str_eqb name "timestamp" then Some (p <| psTimestamp := v |>)
  else if str_eqb name "config_name" then Some (p <| psConfigName := v |>)
  else if str_eqb name "serverity" then
    if str_eqb v "" then Some p else n ← Atoi v; Some (p <| psServerityLevel := Some n |>)
  else if str_eqb name "clock_name" then Some (p <| psClockName := v |>)
  else if str_eqb name "offset" then f ← required ParseFloat v; Some (p <| psOffset := Some f |>)
  else if str_eqb name "max" then f ← required ParseFloat v; Some (p <| psMaxOffset := Some f |>)
  else if str_eqb name "freq_adj" then f ← required ParseFloat v; Some (p <| psFreqAdj := Some f |>)
  else if str_eqb name "delay" then
    if str_eqb v "" then Some p else f ← ParseFloat v; Some (p <| psDelay := Some f |>)
  else if str_eqb name "servo_state" then Some (p <| psServoState := v |>)
  else if str_eqb name "source" then Some (p <| psSource := v |>)
  else if str_eqb name "selected_iface" then Some (p <| psSelectedIface := v |>)
  else Some p.

Definition fresh_phc2sys (line : string) : phc2sysParsed := mkPhc2sys line "" "" None "" None None None None "" "" "".

Definition extractSummaryPhc2Sys (p : phc2sysParsed) : option result :=
  offset ← psOffset p;
  maxOffset ← psMaxOffset p;
  freqAdj ← psFreqAdj p;
  Some (Some (mkMetrics "" ClockRealTime offset maxOffset freqAdj (default f64_zero (psDelay p)) "" "" Master []), None).

Definition extractRegularPhc2Sys (p : phc2sysParsed) : option result :=
  offset ← psOffset p;
  freqAdj ← psFreqAdj p;
  if str_eqb (psSource p) "" then None
  else Some (Some (mkMetrics "" ClockRealTime offset offset freqAdj (default f64_zero (psDelay p))
                     (clockStateFromServo (psServoState p)) "" (psSource p) []), None).

Definition extractSelecting (p : phc2sysParsed) : option result :=
  if str_eqb (psSelectedIface p) "" then None
  else Some (None, Some (mkPTPEvent 0 (psSelectedIface p) PortRolePassive "" (psRaw p) None)).

Definition NewPhc2SysExtractor : string -> option (option result) :=
  extract_with phc2sys_field fresh_phc2sys
    [(summaryPhc2SysRegex, extractSummaryPhc2Sys); (regularPhc2SysRegex, extractRegularPhc2Sys);
     (selectingPhc2SysRegex, extractSelecting)].

(** ** chronyd *)

Definition chronydSelectedSourceRegex : Regexp := Eval vm_compute in
  pattern "chronyd\[\d+\]\[(?P<config_name>.*\.\d+\.config)\]:\s+Selected source\s+".

Definition chronydNoSelectableSourcesRegex : Regexp := Eval vm_compute in
  pattern "chronyd\[\d+\]\[(?P<config_name>.*\.\d+\.config)\]:\s+.*no selectable sources".

(** [chronydParsed]: the config name, and a flag nothing sets. *)
Definition chronyd_field (name v : string) (p : string * bool) : option (string * bool) :=
  Some (if str_eqb name "config_name" then (v, p.2) else p).

Definition chronyd_metrics (state : string) : Metrics :=
  mkMetrics "" ClockRealTime f64_zero f64_zero f64_zero f64_zero state "" CHRONYD [].

Definition NewChronydExtractor : string -> option (option result) :=
  extract_with chronyd_field (fun _ => (""%string, false))
    [(chronydSelectedSourceRegex, fun _ => Some (Some (chronyd_metrics ClockStateLocked), None));
     (chronydNoSelectableSourcesRegex, fun _ => Some (Some (chronyd_metrics ClockStateFreeRun), None))].

(** ** ts2phc *)

Definition regularTS2PhcRegex : Regexp := Eval vm_compute in
  pattern ("^ts2phc\[(?P<timestamp>\d+\.?\d*)\]:" +:+
    "\s+\[(?P<config_name>.*\.\d+\.c.*g):?(?P<severity>\d*)\]" +:+
    "\s+(?P<interface>[\w|\/]+)" +:+
    "\s*(?P<clock_name>master)?" +:+
    "\s+offset\s+(?P<offset>-?\d+)" +:+
    "\s+(?P<servo_state>s\d+)?" +:+
    "\s+freq\s+(?P<freq>[-+]?\d+)" +:+
    "(?:\s*(?P<holdover>holdover))?$")%string.

Definition nmeaStatusTS2PhcRegex : Regexp := Eval vm_compute in
  pattern ("^ts2phc\[(?P<timestamp>\d+\.?\d*)\]:" +:+
    "\s*\[(?P<config_name>.*\.\d+\.c.*g):?(?P<severity>\d*)\]" +:+
    "\s+(?P<interface>[\w|\/]+)" +:+
    "\s+nmea_status\s+(?P<status>[0|1])" +:+
    "\s+offset\s+(?P<offset>-?\d+)" +:+
    "\s+(?P<servo_state>s\d+)?")%string.

Definition noSourceTSRegex : Regexp := Eval vm_compute in
  pattern ("^ts2phc\[(?P<timestamp>\d+\.?\d*)\]:" +:+
    "\s*\[(?P<config_name>.*\.\d+\.c.*g):?(?P<severity>\d*)\]" +:+
    "\s*source ts not valid$")%string.

Definition tstampEventTS2PHCRegex : Regexp := Eval vm_compute in
  pattern ("^ts2phc\[(?P<timestamp>\d+\.?\d*)\]:" +:+
    "\s+\[(?P<config_name>.*\.\d+\.c.*g):?(?P<severity>\d*)\]" +:+
    "\s+adding tstamp\s+(?P<tstamp>\d+\.\d+)" +:+
    "\s+to clock\s+(?P<phc>\S+)$")%string.

Definition selectionTS2PHCRegex : Regexp := Eval vm_compute in
  pattern ("^ts2phc\[(?P<timestamp>\d+\.?\d*)\]:" +:+
    "\s*\[(?P<config_name>.*\.\d+\.c.*g):?(?P<severity>\d*)\]" +:+
    "\s+(?P<selection>selecting|unselecting)\s+(?P<phc>/dev/ptp\d+)\s+for synchronization$")%string.

Definition referenceTS2PHCRegex : Regexp := Eval vm_compute in
  pattern ("^ts2phc\[(?P<timestamp>\d+\.?\d*)\]:" +:+
    "\s*\[(?P<config_name>.*\.\d+\.c.*g):?(?P<severity>\d*)\]" +:+
    "\s+selecting\s+(?P<phc>/dev/ptp\d+)\s+as the reference clock$")%string.

Definition defaultReferenceTS2PHCRegex : Regexp := Eval vm_compute in
  pattern ("^ts2phc\[(?P<timestamp>\d+\.?\d*)\]:" +:+
    "\s*\[(?P<config_name>.*\.\d+\.c.*g):?(?P<severity>\d*)\]" +:+
    "\s+no reference clock, selecting\s+(?P<phc>/dev/ptp\d+)\s+by default$")%string.

Definition tstampTimeoutTS2PHCRegex : Regexp := Eval vm_compute in
  pattern ("^ts2phc\[(?P<timestamp>\d+\.?\d*)\]:" +:+
    "\s+\[(?P<config_name>.*\.\d+\.c.*g):?(?P<severity>\d*)\]" +:+
    "\s+(?P<pollTimeout>poll returns zero, no events)$")%string.

Record ts2phcParsed := mkTs2phc {
  tpRaw : string;
  tpTimestamp : string;
  tpConfigName : string;
  tpSeverityLevel : option Z;
  tpInterface : string;
  tpClockName : string;
  tpStatus : option f64;
  tpOffset : option f64;
  tpServoState : string;
  tpFreqAdj : option f64;
  tpHoldover : string;
  tpPHCTstamp : option PHCTimestamp;
  tpPHCDevice : string;
  tpPollTimeout : bool;
  tpRole : string
}.

#[export] Instance ts2phcParsed_fields : Fields ts2phcParsed := fun p =>
  mkTs2phc (tpRaw p) (tpTimestamp p) (tpConfigName p) (tpSeverityLevel p) (tpInterface p) (tpClockName p) (tpStatus p)
    (tpOffset p) (tpServoState p) (tpFreqAdj p) (tpHoldover p) (tpPHCTstamp p) (tpPHCDevice p) (tpPollTimeout p) (tpRole p).

(** [strings.Cut(s, ".")]. *)
Fixpoint cut_dot (s : string) : string * string * bool :=
  match s with
  | EmptyString => (EmptyString, EmptyString, false)
  | String "." s' => (EmptyString, s', true)
  | String a s' => let r := cut_dot s' in (String a r.1.1, r.1.2, r.2)
  end.

Fixpoint zeros (n : nat) : string := match n with O => EmptyString | S n' => String "0" (zeros n') end.

Definition parsePHCTimestamp (value : string) : option PHCTimestamp :=
  let '(secondsText, fraction, hasFraction) := cut_dot value in
  seconds ← Atoi secondsText;
  if negb hasFraction then Some (mkPHCTimestamp seconds 0)
  else if (str_eqb fraction "" || (9 <? String.length fraction)%nat)%bool then None
  else
    nanoseconds ← Atoi (fraction +:+ zeros (9 - String.length fraction))%string;
    Some (mkPHCTimestamp seconds nanoseconds).

Definition ts2phc_field (name v : string) (p : ts2phcParsed) : option ts2phcParsed :=
  if str_eqb name "timestamp" then Some (p <| tpTimestamp := v |>)
  else if str_eqb name "config_name" then Some (p <| tpConfigName := v |>)
  else if str_eqb name "severity" then
    if str_eqb v "" then Some p else n ← Atoi v; Some (p <| tpSeverityLevel := Some n |>)
  else if str_eqb name "interface" then Some (p <| tpInterface := v |>)
  else if str_eqb name "clock_name" then Some (p <| tpClockName := v |>)
  else if str_eqb name "status" then
    if str_eqb v "" then Some p else f ← ParseFloat v; Some (p <| tpStatus := Some f |>)
  else if str_eqb name "offset" then f ← ParseFloat v; Some (p <| tpOffset := Some f |>)
  else if str_eqb name "servo_state" then Some (p <| tpServoState := v |>)
  else if str_eqb name "freq" then f ← ParseFloat v; Some (p <| tpFreqAdj := Some f |>)
  else if str_eqb name "holdover" then Some (p <| tpHoldover := v |>)
  else if str_eqb name "tstamp" then t ← parsePHCTimestamp v; Some (p <| tpPHCTstamp := Some t |>)
  else if str_eqb name "phc" then Some (p <| tpPHCDevice := v |>)
  else if str_eqb name "pollTimeout" then Some (p <| tpPollTimeout := true |>)
  else if str_eqb name "selection" then
    Some (p <| tpRole := if str_eqb v "selecting" then TS2PHCSink else TS2PHCUnmanaged |>)
  else Some p.

Definition fresh_ts2phc (line : string) : ts2phcParsed := mkTs2phc line "" "" None "" "" None None "" None "" None "" false "".

(** What an extractor does to the package variable [NoSourceTSCount]. *)
Definition Counter : Type := Z -> Z.
Definition keep : Counter := id.

Definition extractTS2PHCOffset (p : ts2phcParsed) : option (result * Counter) :=
  if str_eqb (tpInterface p) "" then None
  else
    offset ← tpOffset p;
    freqAdj ← tpFreqAdj p;
    let clockState := if str_eqb (tpHoldover p) "" then clockStateFromServo (tpServoState p) else ClockStateHoldover in
    Some ((Some (mkMetrics TS2PHC (tpInterface p) offset offset freqAdj f64_zero clockState "" Master []),
           Some (mkPTPEvent 0 (tpInterface p) PortRolePassive "" (tpRaw p)
                   (Some (mkTs2PhcEvent (tpTimestamp p) "" None false true "")))), fun _ => 0).

Definition extractTS2PHCnmeaStatus (p : ts2phcParsed) : option (result * Counter) :=
  if str_eqb (tpInterface p) "" then None
  else
    offset ← tpOffset p;
    Some ((Some (mkMetrics TS2PHC (tpInterface p) offset offset f64_zero f64_zero (clockStateFromServo (tpServoState p)) ""
                   NmeaStatus (match tpStatus p with Some s => [(NmeaStatus, s)] | None => [] end)), None), keep).

Definition extractNoSourceTS : Counter := fun count => if count <? 2 then count + 1 else count.

Definition extractTS2PHCPollEvent (p : ts2phcParsed) : option (result * Counter) :=
  Some ((None, Some (mkPTPEvent 0 "" PortRolePassive "" (tpRaw p)
     (Some (mkTs2PhcEvent (tpTimestamp p) (tpPHCDevice p) (tpPHCTstamp p) (tpPollTimeout p) false (tpRole p))))), keep).

Definition extractTS2PHCReferenceEvent (p : ts2phcParsed) : option (result * Counter) :=
  extractTS2PHCPollEvent (p <| tpRole := TS2PHCSource |>).

Definition NewTS2PHCExtractor : string -> option (option (result * Counter)) :=
  extract_with ts2phc_field fresh_ts2phc
    [(regularTS2PhcRegex, extractTS2PHCOffset);
     (nmeaStatusTS2PhcRegex, extractTS2PHCnmeaStatus);
     (noSourceTSRegex, fun _ => Some (no_result, extractNoSourceTS));
     (tstampEventTS2PHCRegex, extractTS2PHCPollEvent);
     (tstampTimeoutTS2PHCRegex, extractTS2PHCPollEvent);
     (selectionTS2PHCRegex, extractTS2PHCPollEvent);
     (referenceTS2PHCRegex, extractTS2PHCReferenceEvent);
     (defaultReferenceTS2PHCRegex, extractTS2PHCReferenceEvent)].

End Parser.
