(* ===== verification/Synce.v ===== *)
(** * pkg/synce: SyncE devices, states and quality levels

    pkg/synce/synce.go, and [processSynceEvents] of pkg/daemon/ptp_process.go, which
    turns a log entry of synce4l into metrics and an event.  The devices of a
    [Relations] are shared by pointer and never copied after they are built, so they
    are a list that is updated by index. *)

From S2P Require Import Prelude Float64 Strconv Event Config Regex Alias Parser.
From Stdlib Require Import Ascii.

Module Synce.

Import Regex.

Definition QL_DEFAULT_SSM : Z := 3.
Definition QL_DEFAULT_ENHSSM : Z := 255.
Definition QL_DNU_SSM : Z := 15.
Definition QL_DUS_SSM : Z := 15.
Definition QL_DNU_ENHSSM : Z := 255.
Definition QL_DUS_ENHSSM : Z := 255.
Definition SYNCE_NETWORK_OPT_1 : Z := 1.
Definition SYNCE_NETWORK_OPT_2 : Z := 2.
Definition ExtendedTLV_ENABLED : Z := 1.
Definition ExtendedTLV_DISABLED : Z := 0.

(** ** States *)

Inductive EECState := EEC_UNKNOWN | EEC_INVALID | EEC_FREERUN | EEC_LOCKED | EEC_LOCKED_HO_ACQ | EEC_HOLDOVER.

Definition EECState_String (e : EECState) : string :=
  match e with
  | EEC_UNKNOWN => "EEC_UNKNOWN" | EEC_INVALID => "EEC_INVALID" | EEC_FREERUN => "EEC_FREERUN"
  | EEC_LOCKED => "EEC_LOCKED" | EEC_LOCKED_HO_ACQ => "EEC_LOCKED_HO_ACQ" | EEC_HOLDOVER => "EEC_HOLDOVER"
  end.

Definition ToPTPState (e : EECState) : PTPState :=
  match e with
  | EEC_UNKNOWN | EEC_INVALID => PTP_UNKNOWN
  | EEC_FREERUN => PTP_FREERUN
  | EEC_LOCKED | EEC_LOCKED_HO_ACQ => PTP_LOCKED
  | EEC_HOLDOVER => PTP_HOLDOVER
  end.

Definition StringToEECState (str : string) : EECState :=
  if str_eqb str "EEC_FREERUN" then EEC_FREERUN
  else if str_eqb str "EEC_LOCKED" then EEC_LOCKED
  else if str_eqb str "EEC_INVALID" then EEC_INVALID
  else if str_eqb str "EEC_LOCKED_HO_ACQ" then EEC_LOCKED_HO_ACQ
  else if str_eqb str "EEC_HOLDOVER" then EEC_HOLDOVER
  else EEC_UNKNOWN.

(** ** Quality levels *)

Inductive QualityLevel :=
| EPRTC | PRTC | PRC | SSUA | SSUB | EEC1 | PRS | STU | ST2 | TNC | ST3E | EEC2 | PROV | DNU | DUS.

#[export] Instance QualityLevel_eq_dec : EqDecision QualityLevel.
Proof. solve_decision. Defined.

(** [String] has no case for [TNC]. *)
Definition QualityLevel_String (q : QualityLevel) : string :=
  match q with
  | EPRTC => "EPRTC" | PRTC => "PRTC" | PRC => "PRC" | SSUA => "SSUA" | SSUB => "SSUB" | EEC1 => "EEC1"
  | PRS => "PRS" | STU => "STU" | ST2 => "ST2" | ST3E => "ST3E" | EEC2 => "EEC2" | PROV => "PROV"
  | DNU => "DNU" | DUS => "DUS"
  | TNC => "UNKNOWN"
  end.

Record QualityLevelInfo := mkQL { qlPriority : Z; qlSSM : Z; qlExtendedSSM : Z }.

#[export] Instance QualityLevelInfo_fields : Fields QualityLevelInfo := fun q =>
  mkQL (qlPriority q) (qlSSM q) (qlExtendedSSM q).

Definition qualityLevelInfoOption1 : list (QualityLevel * QualityLevelInfo) :=
  [(EPRTC, mkQL 0 2 33); (PRTC, mkQL 1 2 32); (PRC, mkQL 2 2 255); (SSUA, mkQL 3 4 255); (SSUB, mkQL 4 8 255);
   (EEC1, mkQL 5 11 255); (DNU, mkQL 6 15 255)].

Definition qualityLevelInfoOption2 : list (QualityLevel * QualityLevelInfo) :=
  [(EPRTC, mkQL 0 1 33); (PRTC, mkQL 1 1 32); (PRS, mkQL 2 1 255); (STU, mkQL 3 0 255); (ST2, mkQL 4 7 255);
   (TNC, mkQL 5 4 255); (ST3E, mkQL 6 13 255); (EEC2, mkQL 7 10 255); (PROV, mkQL 8 14 255); (DUS, mkQL 9 15 255)].

Definition Compare (q other : QualityLevelInfo) : bool :=
  (qlSSM q =? qlSSM other) && ((qlExtendedSSM other =? QL_DEFAULT_SSM) || (qlExtendedSSM q =? qlExtendedSSM other)).

(** ** Devices *)

Record Config := mkConfig {
  scName : string;
  scIfaces : list string;
  scClockId : string;
  scNetworkOption : Z;
  scExtendedTlv : Z;
  scExternalSource : string;
  scLastQLState : gmap string QualityLevelInfo;
  scLastClockState : PTPState
}.

#[export] Instance Config_fields : Fields Config := fun c =>
  mkConfig (scName c) (scIfaces c) (scClockId c) (scNetworkOption c) (scExtendedTlv c) (scExternalSource c)
    (scLastQLState c) (scLastClockState c).

Definition set_ifaces (ifaces : list string) (c : Config) : Config := c <| scIfaces := ifaces |>.
Definition set_external (source : string) (c : Config) : Config := c <| scExternalSource := source |>.

Abbreviation Relations := (list Config).

Definition AddDeviceConfig (config : Config) (r : Relations) : Relations := r ++ [config].

Definition AppendDeviceConfig (ifaces : list string) (devName : string) (networkOption extendedTlv : Z) (r : Relations) : Relations :=
  if (0 <? length ifaces)%nat then r ++ [mkConfig devName ifaces "" networkOption extendedTlv "" ∅ ""] else r.

(** One key of the settings: whether the loops return, and the devices. *)
Fixpoint set_clock_id (iface v : string) (r : Relations) : bool * Relations :=
  match r with
  | [] => (false, [])
  | d :: r' =>
      if existsb (fun i => str_eqb i iface) (scIfaces d) then (true, d <| scClockId := v |> :: r')
      else let x := set_clock_id iface v r' in (x.1, d :: x.2)
  end.

Definition setting_iface (k : string) : string := ReplaceAll (ReplaceAll k "clockId[" "") "]" "".

(** [AddClockIds], in the order in which the map is ranged over. *)
Fixpoint AddClockIds (ptpSettings : list (string * string)) (r : Relations) : Relations :=
  match ptpSettings with
  | [] => r
  | (k, v) :: rest =>
      match drop_prefix "clockId" k with
      | None => AddClockIds rest r
      | Some _ => let x := set_clock_id (setting_iface k) v r in if (x.1 : bool) then x.2 else AddClockIds rest x.2
      end
  end.

(** [GetSyncERelation]: the last device that matches by name, external source or port. *)
Definition relation_matches (deviceName extSourceName iface : string) (v : Config) : bool :=
  str_eqb (scName v) deviceName || str_eqb (scExternalSource v) extSourceName
  || existsb (fun i => str_eqb i iface) (scIfaces v).

Definition GetSyncERelation (r : Relations) (deviceName extSourceName iface : string) : Z * Z * string * string * list string :=
  foldl (fun acc v =>
    if relation_matches deviceName extSourceName iface v
    then (scNetworkOption v, scExtendedTlv v, scName v, scExternalSource v, scIfaces v) else acc)
    (0, 0, ""%string, ""%string, []) r.

(** [ClockQuality]; [opt1] and [opt2] are the two tables in the order in which the maps
    are ranged over. *)
Definition ClockQuality_in (opt1 opt2 : list (QualityLevel * QualityLevelInfo)) (c : Config) (qualityInfo : QualityLevelInfo) :
    string * QualityLevelInfo :=
  let found qi table fallback :=
    match first_match (fun p => Compare p.2 qi) table with
    | Some p => (QualityLevel_String p.1, p.2)
    | None => fallback
    end in
  let tables qi :=
    if scNetworkOption c =? SYNCE_NETWORK_OPT_1 then found qi opt1 (QualityLevel_String DNU, mkQL 0 QL_DNU_SSM QL_DNU_ENHSSM)
    else if scNetworkOption c =? SYNCE_NETWORK_OPT_2 then found qi opt2 (QualityLevel_String DUS, mkQL 0 QL_DUS_SSM QL_DUS_ENHSSM)
    else (""%string, mkQL 0 0 0) in
  if scExtendedTlv c =? ExtendedTLV_DISABLED then tables (qualityInfo <| qlExtendedSSM := QL_DEFAULT_ENHSSM |>)
  else if (scExtendedTlv c =? ExtendedTLV_ENABLED) && (qlExtendedSSM qualityInfo =? QL_DEFAULT_SSM) then (""%string, qualityInfo)
  else tables qualityInfo.

Definition ClockQuality : Config -> QualityLevelInfo -> string * QualityLevelInfo :=
  ClockQuality_in qualityLevelInfoOption1 qualityLevelInfoOption2.

(** ** Log lines *)

Inductive LogType := SYNCE_STATE | QL_STATE | EXT_QL_STATE.

Record LogEntry := mkEntry {
  leState : option string;
  leQL : Z;
  leExtQl : Z;
  leExtSource : option string;
  leDevice : option string;
  leSource : option string;
  leLogType : LogType
}.

Definition stateRegexpOf : Regexp := Eval vm_compute in
  Parser.pattern "(EEC_FREERUN|EEC_INVALID|EEC_LOCKED|EEC_HOLDOVER|EEC_LOCKED_HO_ACQ) on ([\w/]+) of ([\w/]+)".
Definition stateRegexpOn : Regexp := Eval vm_compute in
  Parser.pattern "(EEC_FREERUN|EEC_INVALID|EEC_LOCKED|EEC_HOLDOVER|EEC_LOCKED_HO_ACQ) on ([\w/]+)".
Definition stateRegexpFor : Regexp := Eval vm_compute in
  Parser.pattern "(EEC_FREERUN|EEC_INVALID|EEC_LOCKED|EEC_HOLDOVER|EEC_LOCKED_HO_ACQ) for ([\w/]+)".
Definition qlRegexp : Regexp := Eval vm_compute in Parser.pattern " QL=0x([0-9a-fA-F]+) on (\w+)".
Definition extQLRegexp : Regexp := Eval vm_compute in Parser.pattern "EXT_QL=0x([0-9a-fA-F]+) on (\w+)".

(** The first match of a hexadecimal byte. *)
Fixpoint first_byte (l : list (list string)) : option (Z * string) :=
  match l with
  | [] => None
  | m :: l' =>
      match m with
      | [_; hex; dev] => let '(v, ok) := ParseUint hex 16 8 in if ok then Some (v, dev) else first_byte l'
      | _ => first_byte l'
      end
  end.

Definition ParseLog (output : string) : LogEntry :=
  match FindAllStringSubmatch stateRegexpOf output with
  | [_; st; ext; dev] :: _ => mkEntry (Some st) 0 0 (Some ext) (Some dev) None SYNCE_STATE
  | _ =>
  match FindAllStringSubmatch stateRegexpOn output with
  | [_; st; dev] :: _ => mkEntry (Some st) 0 0 None (Some dev) None SYNCE_STATE
  | _ =>
  match FindAllStringSubmatch stateRegexpFor output with
  | [_; st; src] :: _ => mkEntry (Some st) 0 0 None None (Some src) SYNCE_STATE
  | _ =>
  match first_byte (FindAllStringSubmatch extQLRegexp output) with
  | Some (v, src) => mkEntry None 0 v None None (Some src) EXT_QL_STATE
  | None =>
  match first_byte (FindAllStringSubmatch qlRegexp output) with
  | Some (v, src) => mkEntry None v QL_DEFAULT_SSM None None (Some src) QL_STATE
  | None => mkEntry None QL_DEFAULT_SSM QL_DEFAULT_SSM None None None SYNCE_STATE
  end end end end end.

(** ** Events *)

(** What a log entry makes the daemon do. *)
Inductive SynceOut :=
| SQL (iface : string) (networkOption : Z) (device qlType : string) (value : Z)
| SClockQL (iface : string) (networkOption : Z) (device : string) (value : Z)
| SEvent (iface : string) (data : SyncEData).

Definition SyncEDeviceByInterface (iface : string) (r : Relations) : option Config :=
  first_match (fun c => existsb (fun name => str_eqb name iface) (scIfaces c)) r.

(** The update of the device [SyncEDeviceByInterface] returns, in place. *)
Fixpoint update_device (iface : string) (f : Config -> Config) (r : Relations) : Relations :=
  match r with
  | [] => []
  | c :: r' => if existsb (fun name => str_eqb name iface) (scIfaces c) then f c :: r' else c :: update_device iface f r'
  end.

Definition SyncEDeviceByName (name : string) (r : Relations) : option Config :=
  first_match (fun c => str_eqb (scName c) name) r.

Definition set_ql (source : string) (q : QualityLevelInfo) (c : Config) : Config :=
  c <| scLastQLState := <[source := q]> (scLastQLState c) |>.

(** [UpdateSynceQLMetrics] twice and [UpdateSynceClockQlMetrics]; none without an interface. *)
Definition ql_metrics (iface : string) (c : Config) (ssm ext : Z) : list SynceOut :=
  if str_eqb iface "" then [] else
  [SQL iface (scNetworkOption c) (scName c) "SSM" ssm; SQL iface (scNetworkOption c) (scName c) "Extended SSM" ext;
   SClockQL iface (scNetworkOption c) (scName c) (ssm + ext)].

(** The state branch. *)
Definition synce_state (state source : string) (c : Config) : Config * list SynceOut :=
  let st := ToPTPState (StringToEECState (ReplaceAll state "EEC_LOCKED_HO_ACQ" "EEC_LOCKED")) in
  (c <| scLastClockState := st |>,
   [SEvent source (mkSyncEData st (scName c) None None "" state (scNetworkOption c))]).

(** The quality branch, by the setting of the extended TLV. *)
Definition synce_quality (e : LogEntry) (source : string) (c : Config) : Config * list SynceOut :=
  if (scExtendedTlv c =? ExtendedTLV_DISABLED) && negb (leQL e =? QL_DEFAULT_SSM) then
    let clockQuality := (ClockQuality c (mkQL 0 (leQL e) 0)).1 in
    (set_ql source (mkQL 0 (leQL e) QL_DEFAULT_ENHSSM) c,
     ql_metrics source c (leQL e) QL_DEFAULT_ENHSSM ++
     [SEvent source (mkSyncEData (scLastClockState c) (scName c) (Some (leQL e)) None clockQuality "" (scNetworkOption c))])
  else if scExtendedTlv c =? ExtendedTLV_ENABLED then
    let last := default (mkQL 0 (leQL e) (leExtQl e)) (scLastQLState c !! source) in
    if negb (qlSSM last =? QL_DEFAULT_SSM) && negb (leExtQl e =? QL_DEFAULT_SSM) then
      let last := last <| qlExtendedSSM := leExtQl e |> in
      let clockQuality := (ClockQuality c (mkQL 0 (qlSSM last) (qlExtendedSSM last))).1 in
      (set_ql source last c,
       ql_metrics source c (qlSSM last) (leExtQl e) ++
       [SEvent source (mkSyncEData (scLastClockState c) (scName c) (Some (qlSSM last)) (Some (leExtQl e)) clockQuality ""
          (scNetworkOption c))])
    else if negb (leQL e =? QL_DEFAULT_SSM) then (set_ql source (last <| qlSSM := leQL e |>) c, [])
    else (set_ql source last c, [])
  else (c, []).

Definition on_device (source : string) (f : Config -> Config * list SynceOut) (r : Relations) : Relations * list SynceOut :=
  match SyncEDeviceByInterface source r with
  | None => (r, [])
  | Some c => (update_device source (fun c => (f c).1) r, (f c).2)
  end.

Definition processSynceEvents (e : LogEntry) (r : Relations) : Relations * list SynceOut :=
  match leState e, leSource e with
  | Some state, Some source => on_device source (synce_state state source) r
  | None, Some source =>
      if negb (leQL e =? QL_DEFAULT_SSM) || negb (leExtQl e =? QL_DEFAULT_SSM)
      then on_device source (synce_quality e source) r else (r, [])
  | _, None => (r, [])
  end.

(** * Properties *)

Definition same_key (x y : QualityLevel * QualityLevelInfo) : bool :=
  (qlSSM x.2 =? qlSSM y.2) && (qlExtendedSSM x.2 =? qlExtendedSSM y.2).

Definition keys_unique (t : list (QualityLevel * QualityLevelInfo)) : bool :=
  forallb (fun x => forallb (fun y => implb (same_key x y) (bool_decide (x.1 = y.1))) t) t.

Definition ql_unique (t : list (QualityLevel * QualityLevelInfo)) : bool :=
  forallb (fun x => forallb (fun y => implb (bool_decide (x.1 = y.1)) (qlPriority x.2 =? qlPriority y.2)) t) t.

Lemma tables_unique :
  keys_unique qualityLevelInfoOption1 && keys_unique qualityLevelInfoOption2
  && ql_unique qualityLevelInfoOption1 && ql_unique qualityLevelInfoOption2 = true.
Proof. vm_compute. reflexivity. Qed.

Lemma table_match_unique t qi x y :
  keys_unique t = true -> ql_unique t = true -> qlExtendedSSM qi <> QL_DEFAULT_SSM ->
  x ∈ t -> y ∈ t -> Compare x.2 qi = true -> Compare y.2 qi = true -> x = y.
Proof.
  intros Hk Hq Hd Hx Hy. unfold Compare. apply Z.eqb_neq in Hd. rewrite Hd. simpl.
  intros [Hx1%Z.eqb_eq Hx2%Z.eqb_eq]%andb_prop [Hy1%Z.eqb_eq Hy2%Z.eqb_eq]%andb_prop.
  unfold keys_unique, ql_unique in *. rewrite forallb_forall in Hk, Hq.
  apply list_elem_of_In in Hx, Hy. specialize (Hk x Hx). specialize (Hq x Hx). rewrite forallb_forall in Hk, Hq.
  specialize (Hk y Hy). specialize (Hq y Hy). unfold same_key in Hk.
  rewrite Hx1, Hx2, Hy1, Hy2, !Z.eqb_refl in Hk. simpl in Hk. rewrite Hk in Hq. simpl in Hq.
  apply bool_decide_eq_true in Hk. apply Z.eqb_eq in Hq. destruct x as [qx [px sx ex]], y as [qy [py sy ey]]. simpl in *. congruence.
Qed.

(** The tables of quality levels are maps, ranged over in an order the language
    leaves open: as long as the extended TLV is switched on or off, the clock quality
    and the level found do not depend on it. *)
Theorem ClockQuality_deterministic opt1 opt2 c qi :
  opt1 ≡ₚ qualityLevelInfoOption1 -> opt2 ≡ₚ qualityLevelInfoOption2 ->
  scExtendedTlv c = ExtendedTLV_DISABLED \/ scExtendedTlv c = ExtendedTLV_ENABLED ->
  ClockQuality_in opt1 opt2 c qi = ClockQuality c qi.
Proof.
  intros H1 H2 Ht. pose proof tables_unique as Hu. rewrite !andb_true_iff in Hu. destruct Hu as [[[K1 K2] Q1] Q2].
  assert (forall qi, qlExtendedSSM qi <> QL_DEFAULT_SSM ->
    first_match (fun p => Compare p.2 qi) opt1 = first_match (fun p => Compare p.2 qi) qualityLevelInfoOption1 /\
    first_match (fun p => Compare p.2 qi) opt2 = first_match (fun p => Compare p.2 qi) qualityLevelInfoOption2) as Hm.
  { intros q Hq. split; symmetry; (apply first_match_unique; [|by symmetry]); intros x y; by apply table_match_unique. }
  unfold ClockQuality, ClockQuality_in. destruct Ht as [-> | ->].
  - change (ExtendedTLV_DISABLED =? ExtendedTLV_DISABLED) with true. cbv iota.
    destruct (Hm (qi <| qlExtendedSSM := QL_DEFAULT_ENHSSM |>)) as [-> ->]; [|done].
    intros H. vm_compute in H. discriminate H.
  - change (ExtendedTLV_ENABLED =? ExtendedTLV_DISABLED) with false.
    change (ExtendedTLV_ENABLED =? ExtendedTLV_ENABLED) with true. cbn [andb]. cbv iota.
    destruct (Z.eqb_spec (qlExtendedSSM qi) QL_DEFAULT_SSM); [done|]. by destruct (Hm qi ltac:(done)) as [-> ->].
Qed.

Definition gnss_device : Config := mkConfig "synce1" ["ens7f0"] "" 2 1 "GNSS" ∅ PTP_LOCKED.

Lemma ClockQuality_deterministic_witness :
  ClockQuality_in (rev qualityLevelInfoOption1) (rev qualityLevelInfoOption2) gnss_device (mkQL 0 1 32) = ("PRTC"%string, mkQL 1 1 32).
Proof.
  rewrite (ClockQuality_deterministic (rev qualityLevelInfoOption1) (rev qualityLevelInfoOption2)).
  - vm_compute. reflexivity.
  - symmetry. apply Permutation_rev.
  - symmetry. apply Permutation_rev.
  - right. reflexivity.
Defined.

(** With the extended TLV, a port that has reported its quality level and then its
    extended level is published with both, the quality of the two, and the device's
    last state; the quality level alone publishes nothing. *)
Theorem quality_published_once_complete r source c q x :
  SyncEDeviceByInterface source r = Some c -> scExtendedTlv c = ExtendedTLV_ENABLED ->
  q <> QL_DEFAULT_SSM -> x <> QL_DEFAULT_SSM ->
  let r1 := processSynceEvents (mkEntry None q QL_DEFAULT_SSM None None (Some source) QL_STATE) r in
  r1.2 = [] /\
  SEvent source (mkSyncEData (scLastClockState c) (scName c) (Some q) (Some x) (ClockQuality c (mkQL 0 q x)).1 "" (scNetworkOption c))
    ∈ (processSynceEvents (mkEntry None 0 x None None (Some source) EXT_QL_STATE) r1.1).2.
Proof.
  intros Hd Ht Hq Hx. apply Z.eqb_neq in Hq, Hx.
  assert (forall f, (forall d, scIfaces (f d) = scIfaces d) -> SyncEDeviceByInterface source (update_device source f r) = Some (f c)) as Hup.
  { intros f Hf. revert Hd. unfold SyncEDeviceByInterface. induction r as [|d r IH]; [done|]. simpl.
    destruct (existsb _ (scIfaces d)) eqn:E; [intros [= ->]|intros Hd]; simpl; rewrite ?Hf, E; [done|by apply IH]. }
  assert (forall d, scExtendedTlv d =? ExtendedTLV_DISABLED = false -> scExtendedTlv d =? ExtendedTLV_ENABLED = true ->
    (synce_quality (mkEntry None q QL_DEFAULT_SSM None None (Some source) QL_STATE) source d)
    = (set_ql source ((default (mkQL 0 q QL_DEFAULT_SSM) (scLastQLState d !! source)) <| qlSSM := q |>) d, [])) as Hql.
  { intros d Hd0 Hd1. unfold synce_quality. cbn [leQL leExtQl]. rewrite Hd0, Hd1, Hq. simpl. by rewrite andb_false_r. }
  assert (scExtendedTlv c =? ExtendedTLV_DISABLED = false /\ scExtendedTlv c =? ExtendedTLV_ENABLED = true) as [T0 T1] by (by rewrite Ht).
  set (e1 := mkEntry None q QL_DEFAULT_SSM None None (Some source) QL_STATE) in *.
  assert (processSynceEvents e1 r = (update_device source (fun d => (synce_quality e1 source d).1) r, [])) as ->.
  { unfold processSynceEvents, on_device. cbn [e1 leState leSource leQL leExtQl]. rewrite Hq, Hd. cbn [negb orb].
    f_equal. fold e1. by rewrite Hql. }
  cbn [fst snd]. split; [done|].
  unfold processSynceEvents, on_device. cbn [leState leSource leQL leExtQl]. rewrite Hx.
  change (negb (0 =? QL_DEFAULT_SSM) || negb false) with true. cbv iota. rewrite Hup.
  2: { intros d. unfold synce_quality. repeat (case_match; try done). }
  cbn [snd]. rewrite Hql by done. cbn [fst]. unfold synce_quality, set_ql. cbn [leQL leExtQl upd scExtendedTlv scLastQLState].
  rewrite T0, T1. cbn [andb negb]. rewrite lookup_insert_eq. simpl qlSSM. rewrite Hq, Hx. cbn [negb andb snd].
  apply elem_of_app. right. by left.
Qed.

Lemma quality_published_once_complete_witness :
  SEvent "ens7f0" (mkSyncEData PTP_LOCKED "synce1" (Some 1) (Some 32) "PRTC" "" 2)
    ∈ (processSynceEvents (mkEntry None 0 32 None None (Some "ens7f0"%string) EXT_QL_STATE)
        (processSynceEvents (mkEntry None 1 QL_DEFAULT_SSM None None (Some "ens7f0"%string) QL_STATE) [gnss_device]).1).2.
Proof.
  refine (proj2 (quality_published_once_complete [gnss_device] "ens7f0" gnss_device 1 32 _ _ _ _)).
  - reflexivity.
  - reflexivity.
  - discriminate.
  - discriminate.
Defined.

(** ** What the code does beyond its intent *)

(** The entry of an extended level carries 0 as its quality level, not the default that
    stands for none: a device without the extended TLV publishes it as its quality. *)
Lemma extended_level_published_as_level :
  (processSynceEvents (ParseLog "synce4l[1.5]: [synce4l.0.config] tx_rebuild_tlv: attached new extended TLV, EXT_QL=0xff on ens7f0")
     [gnss_device <| scExtendedTlv := ExtendedTLV_DISABLED |>]).2
  = ql_metrics "ens7f0" gnss_device 0 255 ++ [SEvent "ens7f0" (mkSyncEData PTP_LOCKED "synce1" (Some 0) None "STU" "" 2)].
Proof. vm_compute. reflexivity. Qed.

(** With the extended TLV, an extended level that comes first is published with it too. *)
Lemma extended_level_first_invents_level :
  (processSynceEvents (ParseLog "synce4l[1.5]: [synce4l.0.config] tx_rebuild_tlv: attached new extended TLV, EXT_QL=0xff on ens7f0")
     [gnss_device]).2
  = ql_metrics "ens7f0" gnss_device 0 255 ++ [SEvent "ens7f0" (mkSyncEData PTP_LOCKED "synce1" (Some 0) (Some 255) "STU" "" 2)].
Proof. vm_compute. reflexivity. Qed.

Lemma TNC_has_no_name : (ClockQuality gnss_device (mkQL 0 4 255)).1 = "UNKNOWN"%string.
Proof. vm_compute. reflexivity. Qed.

(** [AddClockIds] returns after the first device it finds. *)
Lemma only_one_device_gets_its_clock_id :
  map scClockId (AddClockIds [("clockId[ens7f0]", "1"); ("clockId[ens8f0]", "2")]%string
    [mkConfig "synce1" ["ens7f0"] "" 1 0 "" ∅ ""; mkConfig "synce2" ["ens8f0"] "" 1 0 "" ∅ ""])
  = ["1"; ""]%string.
Proof. vm_compute. reflexivity. Qed.

End Synce.
