(* ===== verification/PtpInput.v ===== *)
(** * pkg/hardwareconfig: the detector of PTP state changes

    pkg/hardwareconfig/ptp_input.go: from the hardware configurations, the ports whose
    state matters; from a line of ptp4l, the port that became a follower or ceased to be
    one.  Of a hardware configuration the detector reads the sources and conditions of
    its behaviour, which are kept here; the condition type is any type. *)

From S2P Require Import Prelude Event Config Regex Parser.

Module PtpInput.

Import Config Regex Parser.

Definition ConditionTypeInit : string := "init".
Definition ConditionTypeLocked : string := "locked".
Definition ConditionTypeLost : string := "lost".

Record SourceConfig := mkSource { srcName : string; srcType : string; srcPTPTimeReceivers : list string }.

Record Behavior (K : Type) := mkBehavior { bhSources : list SourceConfig; bhConditions : list K }.
Arguments mkBehavior {K}.
Arguments bhSources {K}.
Arguments bhConditions {K}.

(** The behaviour of the clock chain of each configuration; [None] is nil. *)
Definition hardwareConfigs (K : Type) : Type := list (option (Behavior K)).

Record PTPStateDetector := mkDetector { portToSources : gmap string (list string); monitoredPorts : gset string }.

Definition add_port (name : string) (psd : PTPStateDetector) (port : string) : PTPStateDetector :=
  mkDetector (<[port := default [] (portToSources psd !! port) ++ [name]]> (portToSources psd)) ({[port]} ∪ monitoredPorts psd).

Definition add_source (psd : PTPStateDetector) (source : SourceConfig) : PTPStateDetector :=
  if str_eqb (srcType source) "ptpTimeReceiver" then foldl (add_port (srcName source)) psd (srcPTPTimeReceivers source) else psd.

Definition add_config {K} (psd : PTPStateDetector) (hw : option (Behavior K)) : PTPStateDetector :=
  match hw with Some b => foldl add_source psd (bhSources b) | None => psd end.

Definition buildCaches {K} (hcs : hardwareConfigs K) : PTPStateDetector := foldl add_config (mkDetector ∅ ∅) hcs.

Definition GetSourcesForPort (portName : string) (psd : PTPStateDetector) : list string := default [] (portToSources psd !! portName).

Definition GetMonitoredPorts (psd : PTPStateDetector) : list string := elements (monitoredPorts psd).

Definition GetBehaviorRules {K} (hcs : hardwareConfigs K) : list K :=
  concat (map (fun hw => match hw with Some b => bhConditions b | None => [] end) hcs).

Definition no_change : string * string := ("", "")%string.

Definition DetectStateChange (logLine : string) (psd : PTPStateDetector) : string * string :=
  match NewPTP4LExtractor logLine with
  | Some (Some (_, Some event)) =>
      let portName := ExtractPortName logLine in
      if str_eqb portName "" then no_change
      else if negb (bool_decide (portName ∈ monitoredPorts psd)) then no_change
      else if decide (peRole event = PortRoleSlave) then (portName, ConditionTypeLocked)
      else if contains "SLAVE to " (peRaw event) then (portName, ConditionTypeLost)
      else no_change
  | _ => no_change
  end.

(** * Properties *)

(** The ports the time receivers of the configurations name, with the source, in order. *)
Definition receivers {K} (hcs : hardwareConfigs K) : list (string * string) :=
  concat (map (fun hw =>
    match hw with
    | Some b => concat (map (fun s => if str_eqb (srcType s) "ptpTimeReceiver" then map (fun p => (p, srcName s)) (srcPTPTimeReceivers s) else [])
                          (bhSources b))
    | None => []
    end) hcs).

Definition names_of (port : string) (l : list (string * string)) : list string :=
  map snd (List.filter (fun p => str_eqb p.1 port) l).

(** The detector holds exactly what a list of ports and sources says. *)
Definition holds (l : list (string * string)) (psd : PTPStateDetector) : Prop :=
  (forall port, GetSourcesForPort port psd = names_of port l) /\ (forall port, port ∈ monitoredPorts psd <-> port ∈ l.*1).

Lemma holds_add l psd name port : holds l psd -> holds (l ++ [(port, name)]) (add_port name psd port).
Proof.
  intros [H1 H2]. split; intros p.
  - unfold names_of. rewrite List.filter_app, map_app. unfold GetSourcesForPort, add_port; simpl.
    destruct (decide (p = port)) as [->|Hn].
    + rewrite lookup_insert_eq. simpl. rewrite str_eqb_refl. simpl. f_equal. apply (H1 port).
    + rewrite lookup_insert_ne by done. rewrite (str_eqb_ne port p) by done. simpl. rewrite app_nil_r. apply H1.
  - unfold add_port; simpl. rewrite fmap_app, elem_of_app, elem_of_union, (H2 p). simpl. set_solver.
Qed.

Lemma holds_ports l psd name ports :
  holds l psd -> holds (l ++ map (fun p => (p, name)) ports) (foldl (add_port name) psd ports).
Proof.
  revert l psd. induction ports as [|p ports IH]; intros l psd H; simpl; [by rewrite app_nil_r|].
  rewrite (cons_middle (p, name)), app_assoc. by apply IH, holds_add.
Qed.

Lemma holds_fold {A} (f : PTPStateDetector -> A -> PTPStateDetector) (g : A -> list (string * string)) (xs : list A) l psd :
  (forall x l psd, holds l psd -> holds (l ++ g x) (f psd x)) -> holds l psd -> holds (l ++ concat (map g xs)) (foldl f psd xs).
Proof.
  intros Hf. revert l psd. induction xs as [|x xs IH]; intros l psd H; simpl; [by rewrite app_nil_r|].
  rewrite app_assoc. apply IH. by apply Hf.
Qed.

Lemma buildCaches_holds {K} (hcs : hardwareConfigs K) : holds (receivers hcs) (buildCaches hcs).
Proof.
  unfold receivers, buildCaches. rewrite <- (app_nil_l (concat _)). apply holds_fold; [|split; [done|set_solver]].
  intros [b|] l psd H; simpl; [|by rewrite app_nil_r]. apply holds_fold; [|done]. clear.
  intros s l psd H. unfold add_source. destruct (str_eqb _ _); [by apply holds_ports|by rewrite app_nil_r].
Qed.

End PtpInput.
