(* ===== verification/PtpProcess.v ===== *)
(** * pkg/daemon: what a process makes of its log

    pkg/daemon/log_parsing.go and the log handling of pkg/daemon/ptp_process.go, with
    the maps of pkg/daemon/metrics.go that all processes share: each line of a program
    becomes metrics, events for the clocks and, on a telecom boundary clock, the
    transitions in and out of holdover.

    An action ([M]) takes the process and the shared maps to their next values and the
    list of what it did to the outside, in order; [None] is a run-time panic.  An event
    is offered to the channel without waiting, so [OEvent] is an offer. *)

From S2P Require Import Prelude Float64 Utils Strconv Event Config Regex Alias Parser PtpInput Synce Ts2phc.
From Stdlib Require Import Ascii.

Module PtpProcess.

Import Config.

Definition ptp4lProcessName : string := "ptp4l".
Definition phc2sysProcessName : string := "phc2sys".
Definition ts2phcProcessName : string := "ts2phc".
Definition syncEProcessName : string := "synce4l".
Definition chronydProcessName : string := "chronyd".
Definition clockRealTime : string := "CLOCK_REALTIME".
Definition master : string := "master".
Definition phc : string := "phc".
Definition faultyOffset : f64 := f64_of_Z 999999.
Definition offsetFilterSize : Z := 64.
Definition TBC_profile : string := "T-BC".

(** ** State *)

Record tBCProcessAttributes := mkTbc {
  ttPortsConfigFile : string;
  trPortsConfigFile : string;
  trIfaceNames : list string;
  perPortState : gmap string PTPState;
  activePort : string;
  lastReportedState : PTPState;
  lastAppliedState : PTPState;
  offsetFilter : option Window.Window;
  offsetThreshold : f64;
  offsetEventWindow : option Window.Window;
  lastOffsetEventSec : Z
}.

#[export] Instance tBCProcessAttributes_fields : Fields tBCProcessAttributes := fun t =>
  mkTbc (ttPortsConfigFile t) (trPortsConfigFile t) (trIfaceNames t) (perPortState t) (activePort t) (lastReportedState t)
    (lastAppliedState t) (offsetFilter t) (offsetThreshold t) (offsetEventWindow t) (lastOffsetEventSec t).

(** The fields of [ptpProcess] its log handling reads and writes; the profile is its
    settings. *)
Record ptpProcess := mkProc {
  name : string;
  configName : string;
  messageTag : string;
  pid : Z;
  ifaces : IFaces;
  ptpSettings : gmap string string;
  clockType : ClockType;
  maxOffsetThreshold : Z;
  hasCollectedMetrics : bool;
  offset : f64;
  ts2phcPoll : Ts2phc.pollState;
  syncERelations : list Synce.Config;
  tBCAttributes : tBCProcessAttributes;
  tbcStateDetector : option PtpInput.PTPStateDetector
}.

#[export] Instance ptpProcess_fields : Fields ptpProcess := fun p =>
  mkProc (name p) (configName p) (messageTag p) (pid p) (ifaces p) (ptpSettings p) (clockType p) (maxOffsetThreshold p)
    (hasCollectedMetrics p) (offset p) (ts2phcPoll p) (syncERelations p) (tBCAttributes p) (tbcStateDetector p).

Definition set_poll (s : Ts2phc.pollState) (p : ptpProcess) : ptpProcess := p <| ts2phcPoll := s |>.
Definition set_log_ifaces (ifs : IFaces) (p : ptpProcess) : ptpProcess := p <| ifaces := ifs |>.
Definition set_relations (r : list Synce.Config) (p : ptpProcess) : ptpProcess := p <| syncERelations := r |>.
Definition set_detector (d : option PtpInput.PTPStateDetector) (p : ptpProcess) : ptpProcess := p <| tbcStateDetector := d |>.
Definition set_attributes (t : tBCProcessAttributes) (p : ptpProcess) : ptpProcess := p <| tBCAttributes := t |>.

(** A [ptpInterface]. *)
Record ptpInterface := mkPtpIface { piName : string; piAlias : string }.

(** What all processes share: the maps of metrics.go, the aliases, and the flag of
    daemon.go. *)
Record shared := mkShared {
  masterOffsetIface : gmap string ptpInterface;
  slaveIface : gmap string string;
  masterOffsetSource : gmap string string;
  aliasStore : Alias.store;
  vTbcHasHardwareConfig : bool
}.

#[export] Instance shared_fields : Fields shared := fun g =>
  mkShared (masterOffsetIface g) (slaveIface g) (masterOffsetSource g) (aliasStore g) (vTbcHasHardwareConfig g).

(** ** Actions *)

Inductive Out :=
| OPtp (from process iface : string) (offset maxOffset freqAdj delay : f64)
| OClockState (process iface : string) (value : Z)
| ORole (process iface : string) (role : PTPPortRole)
| OEvent (e : Event)
| OPlugin (command : string)            (* pm.AfterRunPTPCommand *)
| OHardware (conditionType : string)    (* ApplyConditionForProfile *)
| OSynce (o : Synce.SynceOut).

Definition St : Type := ptpProcess * shared.
Definition M : Type := St -> option (St * list Out).

Definition skip : M := fun s => Some (s, []).
Definition out (o : Out) : M := fun s => Some (s, [o]).
Definition modify (f : ptpProcess -> ptpProcess) : M := fun s => Some ((f s.1, s.2), []).
Definition modify_shared (f : shared -> shared) : M := fun s => Some ((s.1, f s.2), []).
Definition andThen (a b : M) : M := fun s => '(s, o) ← a s; '(s, o') ← b s; Some (s, o ++ o').
Definition read (k : ptpProcess -> shared -> M) : M := fun s => k s.1 s.2 s.
Definition must {A} (o : option A) (k : A -> M) : M := match o with Some x => k x | None => fun _ => None end.
Definition when (b : bool) (a : M) : M := if b then a else skip.
Fixpoint each {A} (f : A -> M) (l : list A) : M :=
  match l with [] => skip | x :: l' => andThen (f x) (each f l') end.

#[local] Notation "a ;> b" := (andThen a b) (at level 95, right associativity) : go_scope.

(** ** The shared maps *)

Definition masterOffsetIface_get (configName : string) (g : shared) : ptpInterface :=
  default (mkPtpIface "" "") (masterOffsetIface g !! configName).

Definition masterOffsetIface_getByAlias (configName alias : string) (g : shared) : ptpInterface :=
  match masterOffsetIface g !! configName with
  | Some s => if str_eqb (piAlias s) alias then s else mkPtpIface alias alias
  | None => mkPtpIface alias alias
  end.

Definition masterOffsetIface_set (configName value : string) (g : shared) : shared :=
  g <| masterOffsetIface := <[configName := mkPtpIface value (Alias.getAlias value (aliasStore g))]> (masterOffsetIface g) |>.

Definition slaveIface_set (configName value : string) (g : shared) : shared :=
  g <| slaveIface := <[configName := value]> (slaveIface g) |>.

Definition slaveIface_get (configName : string) (g : shared) : string := default "" (slaveIface g !! configName).

Definition isFollowerIface (configName iface : string) (g : shared) : bool :=
  match slaveIface g !! configName with Some si => str_eqb si iface | None => false end.

Definition masterOffsetSource_set (configName value : string) (g : shared) : shared :=
  g <| masterOffsetSource := <[configName := value]> (masterOffsetSource g) |>.

Definition masterOffsetSource_get (configName : string) (g : shared) : string :=
  default ptp4lProcessName (masterOffsetSource g !! configName).

(** ** Metrics *)

Definition CheckMetricSanity (process iface : string) : bool := negb (str_eqb process "" || str_eqb iface "").

Definition updatePTPMetrics (from process iface : string) (ptpOffset maxPtpOffset frequencyAdjustment delay : f64) : M :=
  when (CheckMetricSanity process iface) (out (OPtp from process iface ptpOffset maxPtpOffset frequencyAdjustment delay)).

Definition updateClockStateMetrics (process iface state : string) : M :=
  when (CheckMetricSanity process iface)
    (out (OClockState process iface
       (if str_eqb state ClockStateLocked then 1 else if str_eqb state ClockStateHoldover then 2 else 0))).

Definition UpdateInterfaceRoleMetrics (process iface : string) (role : PTPPortRole) : M :=
  when (CheckMetricSanity process iface) (out (ORole process iface role)).

(** [cfgNameFromMessageTag] and [configNameFromMessageTag]: the tag without its brackets
    and suffix. *)
Definition cfgNameFromMessageTag (messageTag : string) : string :=
  Regex.str_before ":" (replace1 "[" "" (replace1 "]" "" messageTag)).

(** ** log_parsing.go *)

Definition convertParserClockStateEventPTPState (clockState : string) : PTPState :=
  if str_eqb clockState ClockStateFreeRun then PTP_FREERUN
  else if str_eqb clockState ClockStateLocked then PTP_LOCKED
  else if str_eqb clockState ClockStateHoldover then PTP_HOLDOVER
  else PTP_NOTSET.

Definition shouldFreeRun (currentState : PTPState) (rawOffset : f64) (maxOffsetThreshold : Z) : bool :=
  if str_eqb currentState PTP_HOLDOVER || str_eqb currentState PTP_FREERUN then false
  else f64_leb (f64_of_Z maxOffsetThreshold) (f64_abs rawOffset).

Definition send (e : Event) : M := out (OEvent e).

(** [activeTRPort]. *)
Definition activeTRPort (t : tBCProcessAttributes) : string :=
  if negb (str_eqb (activePort t) "") then activePort t
  else match trIfaceNames t with n :: _ => n | [] => "" end.

Definition set_tbc (f : tBCProcessAttributes -> tBCProcessAttributes) (p : ptpProcess) : ptpProcess :=
  p <| tBCAttributes := f (tBCAttributes p) |>.

(** [sendPtp4lOffsetEvent] at the time [now] in milliseconds. *)
Definition sendPtp4lOffsetEvent (now : Z) : M := read (fun p g =>
  let t := tBCAttributes p in
  if negb (str_eqb (configName p) (trPortsConfigFile t)) then skip
  else
    match offsetEventWindow t with
    | None => skip
    | Some w =>
        must (Window.Insert (offset p) w) (fun w =>
          modify (set_tbc (fun t => t <| offsetEventWindow := Some w |>));>
          (let nowSec := now / 1000 in
           if nowSec =? lastOffsetEventSec t then skip
           else
             modify (set_tbc (fun t => t <| lastOffsetEventSec := nowSec |>));>
             must (Window.Mean w) (fun m =>
               send (mkEvent PTP4l (activeTRPort t) (configName p) (clockType p) now false false
                       (Some (EOffset (mkOffsetData (lastReportedState t) (f64_to_int64 m) false None)))))))
    end).

(** The event a process sends for its metrics. *)
Definition metrics_event (source : EventSource) (cfgName iface : string) (ct : ClockType) (now : Z) (log : bool)
    (data : EventData) : Event :=
  mkEvent source iface cfgName ct now log false (Some data).

Definition offset_data (state : PTPState) (m : Metrics) (nmea : option bool) : EventData :=
  EOffset (mkOffsetData state (f64_to_int64 (mtOffset m)) false nmea).

(** The part of [processParsedMetrics] that is specific to the program; [m] has its
    interface resolved and [cfgName] is the one of the tag. *)
Definition process_specific (now : Z) (cfgName : string) (state : PTPState) (m : Metrics) : M := read (fun p _ =>
  if str_eqb (name p) ptp4lProcessName then
    when (negb (str_eqb (mtIface m) "") && negb (str_eqb cfgName "")) (modify_shared (masterOffsetIface_set cfgName (mtIface m)));>
    sendPtp4lOffsetEvent now;>
    when ((str_eqb (clockType p) BC_type || str_eqb (clockType p) OC_type) && negb (str_eqb (mtIface m) master))
      (send (metrics_event PTP4l cfgName (mtIface m) (clockType p) now false (offset_data state m None)))
  else if str_eqb (name p) ts2phcProcessName then
    let eventSource := GetEventSource (GetPhcID2IFace (mtIface m) (ifaces p)) (ifaces p) in
    let gnss := str_eqb eventSource GNSS in
    let data := if f64_is_nan (mtOffset m) then EState (mkStateData state false "" "")
                else offset_data state m (if gnss then Some true else None) in
    send (metrics_event TS2PHC cfgName (mtIface m) (clockType p) now gnss data)
  else if str_eqb (name p) phc2sysProcessName then
    send (metrics_event PHC2SYS cfgName (mtIface m) (clockType p) now false (offset_data state m None))
  else if str_eqb (name p) chronydProcessName then
    send (metrics_event CHRONYD cfgName (mtIface m) (clockType p) now false (offset_data state m None))
  else skip).

(** The interface of ptp4l's "master offset" is the follower port, once it is known. *)
Definition resolve_master (cfgName : string) (g : shared) (m : Metrics) : Metrics :=
  if str_eqb (mtIface m) master then
    let follower := slaveIface_get cfgName g in
    if str_eqb follower "" then m else m <| mtIface := follower |>
  else m.

Definition reported_state (p : ptpProcess) (m : Metrics) : PTPState :=
  let state := convertParserClockStateEventPTPState (mtClockState m) in
  if negb (str_eqb (name p) phc2sysProcessName) && shouldFreeRun state (mtOffset m) (maxOffsetThreshold p)
  then PTP_FREERUN else state.

Definition processParsedMetrics (now : Z) (m : Metrics) : M := read (fun p g =>
  let cfgName := cfgNameFromMessageTag (messageTag p) in
  let m := resolve_master cfgName g m in
  let iface := GetPhcID2IFace (mtIface m) (ifaces p) in
  let iface := if str_eqb iface clockRealTime then iface else Alias.getAlias iface (aliasStore g) in
  updatePTPMetrics (mtSource m) (name p) iface (mtOffset m) (mtMaxOffset m) (mtFreqAdj m) (mtDelay m);>
  when (negb (str_eqb (mtClockState m) "") && negb (str_eqb (clockType p) BC_type) && negb (str_eqb (clockType p) OC_type))
    (updateClockStateMetrics (name p) iface (mtClockState m));>
  when (str_eqb (mtSource m) master && negb (str_eqb cfgName ""))
    (modify_shared (masterOffsetSource_set cfgName (name p)));>
  process_specific now cfgName (reported_state p m) m).

(** [process.ifaces[PortID-1]] under the guard of [processPtp4lEvent], which lets the
    index one past the end through: [must] is the panic. *)
Definition processPtp4lEvent (now : Z) (ev : PTPEvent) : M := read (fun p _ =>
  if (0 <? pePortID ev) && (pePortID ev - 1 <=? Z.of_nat (length (ifaces p))) then
    let cfgName := cfgNameFromMessageTag (messageTag p) in
    must (ifaces p !! Z.to_nat (pePortID ev - 1)) (fun i =>
      let interfaceName := ifName i in
      UpdateInterfaceRoleMetrics (name p) interfaceName (peRole ev);>
      if str_eqb cfgName "" then skip
      else
        match peRole ev with
        | PortRoleSlave =>
            modify_shared (masterOffsetIface_set cfgName interfaceName);>
            modify_shared (slaveIface_set cfgName interfaceName)
        | PortRoleFaulty | PortRoleListening => read (fun p g =>
            when (isFollowerIface cfgName interfaceName g && str_eqb (masterOffsetSource_get cfgName g) ptp4lProcessName)
              (updatePTPMetrics master (name p) (piAlias (masterOffsetIface_get cfgName g)) faultyOffset faultyOffset f64_zero f64_zero;>
               updatePTPMetrics phc phc2sysProcessName clockRealTime faultyOffset faultyOffset f64_zero f64_zero;>
               (if str_eqb (clockType p) BC_type || str_eqb (clockType p) OC_type
                then send (metrics_event PTP4l cfgName interfaceName (clockType p) now false
                             (EOffset (mkOffsetData "" 0 true None)))
                else updateClockStateMetrics (name p) (piAlias (masterOffsetIface_get cfgName g)) ClockStateFreeRun);>
               modify_shared (masterOffsetIface_set cfgName "");>
               modify_shared (slaveIface_set cfgName "")))
        | _ => skip
        end)
  else skip).

Definition processPhc2sysSelectedSource (now : Z) (ev : PTPEvent) : M := read (fun p _ =>
  let cfgName := cfgNameFromMessageTag (messageTag p) in
  if str_eqb (peIface ev) "" || str_eqb cfgName "" then skip
  else send (metrics_event PHC2SYS cfgName (peIface ev) (clockType p) now false (ESelectedSource (peIface ev)))).

(** [processTS2PhcEvent]. *)
Definition processTS2PhcEvent (now : Z) (ev : PTPEvent) : M := read (fun p _ =>
  let r := Ts2phc.processTS2PhcEvent (ifaces p) ev (ts2phcPoll p) in
  modify (fun p => p <| ts2phcPoll := r.2 |>);>
  each (fun m => modify (fun p => p <| offset := mtOffset m |>);> processParsedMetrics now m) r.1).

Definition processParsedEvent (now : Z) (ev : PTPEvent) : M := read (fun p _ =>
  if str_eqb (name p) phc2sysProcessName then processPhc2sysSelectedSource now ev
  else if str_eqb (name p) ptp4lProcessName then processPtp4lEvent now ev
  else if str_eqb (name p) ts2phcProcessName then processTS2PhcEvent now ev
  else skip).

(** The extractor of [getParser]; the counter of the ts2phc parser is left out, as no
    part of the daemon reads it. *)
Definition getParser (processName : string) : option (string -> option (option Parser.result)) :=
  if str_eqb processName ptp4lProcessName then Some Parser.NewPTP4LExtractor
  else if str_eqb processName phc2sysProcessName then Some Parser.NewPhc2SysExtractor
  else if str_eqb processName ts2phcProcessName then Some (fun l => (option_map fst) <$> Parser.NewTS2PHCExtractor l)
  else if str_eqb processName chronydProcessName then Some Parser.NewChronydExtractor
  else None.

(** What is done with the metrics and the event of a line. *)
Definition handle_parsed (now : Z) (metrics : option Metrics) (ptpEvent : option PTPEvent) : M :=
  modify (fun p => p <| hasCollectedMetrics := true |>);>
  match metrics with
  | Some m => modify (fun p => p <| offset := mtOffset m |>);> processParsedMetrics now m
  | None => skip
  end;>
  match ptpEvent with Some ev => processParsedEvent now ev | None => skip end.

Definition processWithParser (now : Z) (extract : string -> option (option Parser.result)) (output : string) : M :=
  match extract output with
  | None => skip
  | Some r => let r := default (None, None) r in handle_parsed now r.1 r.2
  end.

(** ** ptp_process.go *)

(** [getPTPClockID]: [None] is the error. *)
Fixpoint pad_zeros (width : nat) (s : string) : string :=
  match width with
  | O => s
  | S w => if (String.length s <=? w)%nat then String "0" (pad_zeros w s) else s
  end.

Definition fmt_06x (n : Z) : string := pad_zeros 6 (fmt_x n).

Definition getPTPClockID (settings : gmap string string) : option string :=
  leadingNic ← settings !! "leadingInterface"%string;
  leadingClockID ← settings !! ("clockId[" +:+ leadingNic +:+ "]")%string;
  let '(id, ok) := ParseUint leadingClockID 10 64 in
  if negb ok then None
  else
    let low := Z.land id 16777215 in
    let high :=
      if bool_decide (settings !! ("clockIdFormat[" +:+ leadingNic +:+ "]")%string = Some "EUI-48"%string)
      then Z.shiftr (Z.land id 281474959933440) 24
      else Z.shiftr (Z.land id 18446742974197923840) 40 in
    Some (fmt_06x high +:+ ".fffe." +:+ fmt_06x low)%string.

Definition sendPtp4lStateEvent (now : Z) : M := read (fun p _ =>
  let t := tBCAttributes p in
  send (mkEvent PTP4l (activeTRPort t) (configName p) (clockType p) now false false
    (Some (EState (mkStateData (lastReportedState t) (negb (str_eqb (lastReportedState t) PTP_LOCKED)) (ttPortsConfigFile t)
                     (default "" (getPTPClockID (ptpSettings p)))))))).

(** [checkOffsetFilterAndTransition]. *)
Definition checkOffsetFilterAndTransition (transitionAction : M) : M := read (fun p _ =>
  let t := tBCAttributes p in
  if negb (str_eqb (configName p) (trPortsConfigFile t)) then skip
  else
    match offsetFilter t with
    | None => skip
    | Some w =>
        must (Window.Insert (f64_abs (offset p)) w) (fun w =>
          modify (set_tbc (fun t => t <| offsetFilter := Some w |>));>
          when (str_eqb (lastReportedState t) PTP_LOCKED && negb (str_eqb (lastAppliedState t) PTP_LOCKED) && Window.IsFull w)
            (must (Window.Mean w) (fun tempOffset =>
               when (f64_ltb tempOffset (offsetThreshold t))
                 (transitionAction;> modify (set_tbc (fun t => t <| lastAppliedState := PTP_LOCKED |>))))))
    end).

Definition allPortsLost (t : tBCProcessAttributes) : bool :=
  forallb (fun p => negb (str_eqb p.2 PTP_LOCKED)) (map_to_list (perPortState t)).

(** The two state changes of [processTBCTransitionHardwareConfig]. *)
Definition port_locked (portName : string) (t : tBCProcessAttributes) : tBCProcessAttributes :=
  t <| perPortState := <[portName := PTP_LOCKED]> (perPortState t) |> <| activePort := portName |>
    <| lastReportedState := PTP_LOCKED |> <| offsetFilter := Some (Window.NewWindow offsetFilterSize) |>.

Definition port_lost (portName : string) (t : tBCProcessAttributes) : tBCProcessAttributes :=
  t <| perPortState := <[portName := PTP_FREERUN]> (perPortState t) |>.

Definition all_lost (t : tBCProcessAttributes) : tBCProcessAttributes :=
  t <| lastReportedState := PTP_FREERUN |> <| activePort := "" |> <| offsetFilter := None |>.

Definition detected (now : Z) (portName conditionType : string) : M :=
  if str_eqb conditionType PtpInput.ConditionTypeLocked then modify (set_tbc (port_locked portName))
  else if str_eqb conditionType PtpInput.ConditionTypeLost then
    modify (set_tbc (port_lost portName));>
    read (fun p _ =>
      when (allPortsLost (tBCAttributes p))
        (out (OHardware PtpInput.ConditionTypeLost);>
         modify (set_tbc all_lost);>
         sendPtp4lStateEvent now;>
         modify (set_tbc (fun t => t <| lastAppliedState := PTP_HOLDOVER |>))))
  else skip.

Definition processTBCTransitionHardwareConfig (now : Z) (psd : PtpInput.PTPStateDetector) (output : string) : M :=
  let '(portName, conditionType) := PtpInput.DetectStateChange output psd in
  detected now portName conditionType;>
  checkOffsetFilterAndTransition (out (OHardware PtpInput.ConditionTypeLocked);> sendPtp4lStateEvent now).

Definition legacy_locked (output : string) (t : tBCProcessAttributes) : tBCProcessAttributes :=
  let portName := Parser.ExtractPortName output in
  let t :=
    if str_eqb portName "" then t
    else if (1 <? length (trIfaceNames t))%nat && negb (bool_decide (portName ∈ trIfaceNames t)) then t
    else t <| activePort := portName |> in
  t <| lastReportedState := PTP_LOCKED |> <| offsetFilter := Some (Window.NewWindow offsetFilterSize) |>.

Definition processTBCTransitionLegacy (now : Z) (output : string) : M :=
  read (fun p _ =>
    when (existsb (fun iface => Regex.contains iface output) (trIfaceNames (tBCAttributes p)))
      (if Regex.contains "to SLAVE on MASTER_CLOCK_SELECTED" output then modify (set_tbc (legacy_locked output))
       else when (Regex.contains "to MASTER on ANNOUNCE_RECEIPT_TIMEOUT_EXPIRES" output || Regex.contains "SLAVE to" output)
         (out (OPlugin "tbc-ho-entry");>
          modify (set_tbc (fun t => t <| lastReportedState := PTP_FREERUN |>));>
          sendPtp4lStateEvent now;>
          modify (set_tbc (fun t => t <| lastAppliedState := PTP_HOLDOVER |> <| offsetFilter := None |>)))));>
  checkOffsetFilterAndTransition (out (OPlugin "tbc-ho-exit");> sendPtp4lStateEvent now).

Definition tBCTransitionCheck (now : Z) (output : string) : M := read (fun p g =>
  match vTbcHasHardwareConfig g, tbcStateDetector p with
  | true, Some psd => processTBCTransitionHardwareConfig now psd output
  | _, _ => processTBCTransitionLegacy now output
  end).

Definition clockIDRegEx : Regex.Regexp := Eval vm_compute in Parser.pattern "\/dev\/ptp\d+".

Definition set_phc_id (dev phcId : string) (ifs : IFaces) : IFaces :=
  (fix go l :=
     match l with
     | [] => [mkIface dev false "" phcId]
     | i :: l' => if str_eqb (ifName i) dev then i <| ifPhcId := phcId |> :: l' else i :: go l'
     end) ifs.

(** [replaceClockID]: [nics] is what the discovery of the network cards finds, each with
    its PHC ([None] when it fails). *)
Definition replaceClockID (nics : option (list (string * string))) (input : string) (p : ptpProcess) : string * ptpProcess :=
  if negb (str_eqb (name p) ts2phcProcessName) then (input, p)
  else if negb (Regex.contains "offset" input) then (input, p)
  else
    match Regex.FindStringSubmatch clockIDRegEx input with
    | Some (id :: _) =>
        let iface := GetPhcID2IFace id (ifaces p) in
        let '(iface, p) :=
          if str_eqb iface id || str_eqb iface "" then
            match first_match (fun d => str_eqb d.2 id) (default [] nics) with
            | Some d => (d.1, p <| ifaces := set_phc_id d.1 id (ifaces p) |>)
            | None => (iface, p)
            end
          else (iface, p) in
        if str_eqb iface "" || (match drop_prefix "/dev/ptp" iface with Some _ => true | None => false end) then (input, p)
        else (Regex.ReplaceAllString clockIDRegEx input iface, p)
    | _ => (input, p)
    end.

(** [processPTPMetrics] of the programs the daemon runs. *)
Definition processPTPMetrics (now : Z) (output : string) : M := read (fun p _ =>
  match getParser (name p) with
  | Some extract => processWithParser now extract output
  | None =>
      if str_eqb (name p) syncEProcessName then
        if str_eqb (replace1 "[" "" (replace1 "]" "" (messageTag p))) "" then skip
        else
          let r := Synce.processSynceEvents (Synce.ParseLog output) (syncERelations p) in
          modify (fun p => p <| syncERelations := r.1 |>);> each (fun o => out (OSynce o)) r.2
      else skip
  end).

(** [processOutput]: [ProcessLog] is the plugins' hook, [nics] the discovered cards. *)
Definition processOutput (now : Z) (ProcessLog : string -> string -> string) (nics : option (list (string * string)))
    (output : string) : M := read (fun p _ =>
  let output := if str_eqb (name p) chronydProcessName
                then (chronydProcessName +:+ "[" +:+ fmt_d (pid p) +:+ "]" +:+ messageTag p +:+ ": " +:+ output)%string else output in
  let output := ProcessLog (name p) output in
  let r := replaceClockID nics output p in
  modify (fun _ => r.2);>
  processPTPMetrics now r.1;>
  when (str_eqb (name p) ptp4lProcessName && str_eqb (default "" (ptpSettings p !! "clockType"%string)) TBC_profile)
    (tBCTransitionCheck now r.1)).

(** * Properties *)

(** ** Running actions *)

Lemma andThen_inv a b s s' o :
  andThen a b s = Some (s', o) -> exists s1 o1 o2, a s = Some (s1, o1) /\ b s1 = Some (s', o2) /\ o = o1 ++ o2.
Proof.
  unfold andThen. destruct (a s) as [[s1 o1]|]; [|done]. simpl. destruct (b s1) as [[s2 o2]|] eqn:E; [|done].
  simpl. intros [= <- <-]. eauto 10.
Qed.

Lemma when_inv b a s s' o : when b a s = Some (s', o) -> (b = true /\ a s = Some (s', o)) \/ (b = false /\ s' = s /\ o = []).
Proof. destruct b; simpl; [auto|]. intros [= <- <-]. auto. Qed.

Lemma must_inv {A} (x : option A) k s r : must x k s = Some r -> exists v, x = Some v /\ k v s = Some r.
Proof. destruct x; simpl; [eauto|done]. Qed.

Ltac act_inv :=
  repeat match goal with
    | H : andThen _ _ _ = Some (_, _) |- _ => apply andThen_inv in H as (? & ? & ? & H & ? & ->)
    | H : when _ _ _ = Some (_, _) |- _ => apply when_inv in H as [[? H]|(? & -> & ->)]
    | H : must _ _ _ = Some _ |- _ => apply must_inv in H as (? & ? & H)
    | H : modify _ _ = Some (_, _) |- _ => injection H as <- <-
    | H : modify_shared _ _ = Some (_, _) |- _ => injection H as <- <-
    | H : out _ _ = Some (_, _) |- _ => injection H as <- <-
    | H : send _ _ = Some (_, _) |- _ => injection H as <- <-
    | H : skip _ = Some (_, _) |- _ => injection H as <- <-
    | H : read _ _ = Some (_, _) |- _ => unfold read in H
    | H : sendPtp4lStateEvent _ _ = Some (_, _) |- _ => unfold sendPtp4lStateEvent in H
    end.

(** ** The telecom boundary clock in and out of holdover *)

Section tbc.
Context (now : Z) (psd : PtpInput.PTPStateDetector).

(** A line, once the offset it may carry has been recorded. *)
Definition tbc_line (x : f64 * string) : M :=
  andThen (modify (fun p => p <| offset := x.1 |>)) (processTBCTransitionHardwareConfig now psd x.2).

(** A log, line by line: what each line made the process do. *)
Fixpoint tbc_run (xs : list (f64 * string)) (s : St) : option (St * list (list Out)) :=
  match xs with
  | [] => Some (s, [])
  | x :: xs' => '(s, o) ← tbc_line x s; '(s, os) ← tbc_run xs' s; Some (s, o :: os)
  end.

Definition locks (output : string) : bool := str_eqb (PtpInput.DetectStateChange output psd).2 PtpInput.ConditionTypeLocked.

(** The magnitudes of the offsets since a port last became a follower, newest first;
    the history is newest first as well. *)
Fixpoint since_lock (hist : list (f64 * string)) : list f64 :=
  match hist with
  | [] => []
  | (o, output) :: h => f64_abs o :: (if locks output then [] else since_lock h)
  end.

(** The filter holds the newest of them. *)
Definition filter_ok (hist : list (f64 * string)) (t : tBCProcessAttributes) : Prop :=
  match offsetFilter t with
  | None => True
  | Some w => Window.wf w /\ Window.wsize w = offsetFilterSize /\ Window.contents w = take 64 (since_lock hist)
  end.
(** What the filter demands before the clock leaves holdover. *)
Definition quiet (hist : list (f64 * string)) (threshold : f64) : Prop :=
  (64 <= length (since_lock hist))%nat /\
  exists w m, Window.contents w = take 64 (since_lock hist) /\ Window.Mean w = Some m /\ f64_ltb m threshold = true.

(** The parts of the state no line changes. *)
Definition same_config (p p' : ptpProcess) : Prop :=
  configName p' = configName p /\ trPortsConfigFile (tBCAttributes p') = trPortsConfigFile (tBCAttributes p) /\
  offsetThreshold (tBCAttributes p') = offsetThreshold (tBCAttributes p).

Definition is_locking (o : Out) : Prop := o = OHardware PtpInput.ConditionTypeLocked.

(** The state after a detection. *)
Definition after_detection (port cond : string) (t : tBCProcessAttributes) : tBCProcessAttributes :=
  if str_eqb cond PtpInput.ConditionTypeLocked then port_locked port t
  else if str_eqb cond PtpInput.ConditionTypeLost then
    if allPortsLost (port_lost port t) then all_lost (port_lost port t) <| lastAppliedState := PTP_HOLDOVER |> else port_lost port t
  else t.

Lemma detected_spec port cond s s' o :
  detected now port cond s = Some (s', o) ->
  s' = (set_tbc (after_detection port cond) s.1, s.2) /\ Forall (fun x => ~ is_locking x) o.
Proof.
  unfold detected, after_detection, set_tbc. destruct s as [p g]. intros H.
  destruct (str_eqb cond PtpInput.ConditionTypeLocked); [act_inv; by split|].
  destruct (str_eqb cond PtpInput.ConditionTypeLost); [|act_inv; split; [by destruct p|done]].
  act_inv; cbn in *; act_inv; cbn in *.
  - unfold set_tbc in *. cbn in *. match goal with H : allPortsLost _ = true |- _ => rewrite H end.
    split; [done|]. repeat (apply Forall_cons; split; [by unfold is_locking|]). by apply Forall_nil.
  - unfold set_tbc in *. cbn in *. match goal with H : allPortsLost _ = false |- _ => rewrite H end. by split.
Qed.

Lemma filter_after_detection x hist t :
  filter_ok hist t ->
  let d := PtpInput.DetectStateChange x.2 psd in
  match offsetFilter (after_detection d.1 d.2 t) with
  | None => True
  | Some w => Window.wf w /\ Window.wsize w = offsetFilterSize /\
      take 64 (f64_abs x.1 :: Window.contents w) = take 64 (since_lock (x :: hist))
  end.
Proof.
  destruct x as [off output]. intros H. cbn [since_lock fst snd]. unfold locks, after_detection.
  set (d := PtpInput.DetectStateChange output psd). cbv zeta.
  destruct (str_eqb d.2 PtpInput.ConditionTypeLocked).
  - unfold port_locked. cbn [offsetFilter upd]. split; [by apply Window.NewWindow_wf|done].
  - assert (forall t', offsetFilter t' = offsetFilter t ->
      match offsetFilter t' with None => True | Some w => Window.wf w /\ Window.wsize w = offsetFilterSize /\
        take 64 (f64_abs off :: Window.contents w) = take 64 (f64_abs off :: since_lock hist) end) as Hkeep.
    { intros t' ->. unfold filter_ok in H. destruct (offsetFilter t) as [w|]; [|done]. destruct H as (? & ? & ->).
      split; [done|]. split; [done|]. by rewrite !firstn_cons, take_take. }
    destruct (str_eqb d.2 PtpInput.ConditionTypeLost); [|by apply Hkeep]. destruct (allPortsLost _); [done|by apply Hkeep].
Qed.

Lemma check_spec act x hist s s' o :
  (forall s s' o, act s = Some (s', o) -> s' = s) ->
  configName s.1 = trPortsConfigFile (tBCAttributes s.1) -> offset s.1 = x.1 ->
  match offsetFilter (tBCAttributes s.1) with
  | None => True
  | Some w => Window.wf w /\ Window.wsize w = offsetFilterSize /\
      take 64 (f64_abs x.1 :: Window.contents w) = take 64 (since_lock (x :: hist))
  end ->
  checkOffsetFilterAndTransition act s = Some (s', o) ->
  same_config s.1 s'.1 /\ filter_ok (x :: hist) (tBCAttributes s'.1) /\
  (o <> [] -> quiet (x :: hist) (offsetThreshold (tBCAttributes s.1))).
Proof.
  intros Hact Hcfg Hoff Hf. unfold checkOffsetFilterAndTransition. intros H. act_inv. rewrite Hcfg, str_eqb_refl in H.
  cbn [negb] in H. destruct (offsetFilter (tBCAttributes s.1)) as [w|] eqn:Ew.
  2: { act_inv. split; [done|]. split; [unfold filter_ok; by rewrite Ew|done]. }
  destruct Hf as (Hw & Hs & Hc). rewrite Hoff in H. apply must_inv in H as (w' & Hi & H).
  pose proof (Window.Insert_wf _ _ _ Hw Hi) as (Hw' & Hs' & _).
  pose proof (Window.contents_Insert _ _ _ Hw Hi) as Hc'. rewrite Hs in Hc'. change (Z.to_nat offsetFilterSize) with 64%nat in Hc'.
  rewrite Hc in Hc'. act_inv.
  - rename select (act _ = _) into Ha. apply Hact in Ha as ->. cbn. split; [done|]. unfold filter_ok. cbn.
    split; [split; [done|]; split; [congruence|done]|]. intros _.
    match goal with H : _ && Window.IsFull w' = true |- _ => apply andb_prop in H as [_ Hfull] end.
    apply (Window.IsFull_contents w' Hw') in Hfull. rewrite Hc', length_take, Hs', Hs in Hfull.
    unfold offsetFilterSize in Hfull. split; [lia|]. eauto.
  - cbn. split; [done|]. split; [|done]. unfold filter_ok. cbn. split; [done|]. split; [congruence|done].
  - cbn. split; [done|]. split; [|done]. unfold filter_ok. cbn. split; [done|]. split; [congruence|done].
Qed.

Lemma tbc_line_spec x hist s s' o :
  configName s.1 = trPortsConfigFile (tBCAttributes s.1) -> filter_ok hist (tBCAttributes s.1) ->
  tbc_line x s = Some (s', o) ->
  same_config s.1 s'.1 /\ filter_ok (x :: hist) (tBCAttributes s'.1) /\
  (OHardware PtpInput.ConditionTypeLocked ∈ o -> quiet (x :: hist) (offsetThreshold (tBCAttributes s.1))).
Proof.
  intros Hcfg Hf H. unfold tbc_line in H. act_inv. rename select (processTBCTransitionHardwareConfig _ _ _ _ = _) into Hp.
  unfold processTBCTransitionHardwareConfig in Hp.
  pose proof (filter_after_detection x hist _ Hf) as Hfd. cbv zeta in Hfd.
  destruct (PtpInput.DetectStateChange x.2 psd) as [port cond]. cbn [fst snd] in Hfd.
  apply andThen_inv in Hp as (s1 & o1 & o2 & Hd & Hc & ->). apply detected_spec in Hd as [-> Ho1].
  assert (forall t, trPortsConfigFile (after_detection port cond t) = trPortsConfigFile t /\
    offsetThreshold (after_detection port cond t) = offsetThreshold t) as Hkeep.
  { intros t. unfold after_detection. by repeat case_match. }
  apply (check_spec _ x hist) in Hc as (Hsame & Hok & Hq).
  - destruct Hsame as (H1 & H2 & H3). cbn in *. destruct (Hkeep (tBCAttributes s.1)) as [K1 K2].
    split; [by unfold same_config; rewrite H1, H2, H3, K1, K2|]. split; [done|]. rewrite <- K2. intros [Hin|Hin]%elem_of_app.
    + by rewrite Forall_forall in Ho1; apply Ho1 in Hin.
    + apply Hq. by intros ->; apply elem_of_nil in Hin.
  - intros t t' o' Ha. by act_inv.
  - cbn. by rewrite Hcfg, (proj1 (Hkeep _)).
  - done.
  - done.
Qed.

Lemma tbc_run_spec xs hist s s' os :
  configName s.1 = trPortsConfigFile (tBCAttributes s.1) -> filter_ok hist (tBCAttributes s.1) ->
  tbc_run xs s = Some (s', os) ->
  forall n o, os !! n = Some o -> OHardware PtpInput.ConditionTypeLocked ∈ o ->
    quiet (reverse (take (S n) xs) ++ hist) (offsetThreshold (tBCAttributes s.1)).
Proof.
  revert hist s os. induction xs as [|x xs IH]; intros hist s os Hcfg Hf H n o Hn Hin; cbn [tbc_run] in H.
  - injection H as <- <-. done.
  - destruct (tbc_line x s) as [[s1 o1]|] eqn:E1; [|done]. cbn [mbind option_bind] in H.
    destruct (tbc_run xs s1) as [[s2 os2]|] eqn:E2; [|done]. injection H as <- <-.
    apply (tbc_line_spec _ hist) in E1 as ((H1 & H2 & H3) & Hf1 & Hq); [|done..]. destruct n as [|n].
    + injection Hn as ->. rewrite firstn_cons, firstn_O, reverse_singleton. by apply Hq.
    + rewrite firstn_cons, reverse_cons, <- app_assoc, <- H3. cbn [app].
      eapply (IH (x :: hist) s1); [congruence|done|done|done|done].
Qed.

(** C3. A telecom boundary clock leaves holdover only on evidence: whenever, reading its
    log, ptp4l's process applies the settings of the locked state to the hardware, at
    least 64 lines have been read since a port last became a follower, and the mean of
    the magnitudes of the last 64 offsets is below the threshold. *)
Theorem holdover_left_on_evidence xs s s' os n o :
  configName s.1 = trPortsConfigFile (tBCAttributes s.1) -> offsetFilter (tBCAttributes s.1) = None ->
  tbc_run xs s = Some (s', os) ->
  os !! n = Some o -> OHardware PtpInput.ConditionTypeLocked ∈ o ->
  let hist := reverse (take (S n) xs) in
  (64 <= length (since_lock hist))%nat /\
  exists w m, Window.contents w = take 64 (since_lock hist) /\ Window.Mean w = Some m /\
    f64_ltb m (offsetThreshold (tBCAttributes s.1)) = true.
Proof.
  intros Hcfg Hf H Hn Hin. rewrite <- (app_nil_r (reverse (take (S n) xs))).
  eapply (tbc_run_spec xs []); try done. unfold filter_ok. by rewrite Hf.
Qed.

(** ** The state of the ports *)

(** The reported state follows the ports, the applied one follows the reported one. *)
Record coherent (t : tBCProcessAttributes) : Prop := {
  co_reported : lastReportedState t = PTP_LOCKED <-> exists port, perPortState t !! port = Some PTP_LOCKED;
  co_applied : lastAppliedState t = PTP_LOCKED -> lastReportedState t = PTP_LOCKED;
  co_filter : lastReportedState t = PTP_FREERUN -> offsetFilter t = None /\ lastAppliedState t = PTP_HOLDOVER;
  co_values : lastReportedState t = PTP_NOTSET \/ lastReportedState t = PTP_LOCKED \/ lastReportedState t = PTP_FREERUN
}.

Lemma allPortsLost_spec t : allPortsLost t = true <-> ~ exists port, perPortState t !! port = Some PTP_LOCKED.
Proof.
  unfold allPortsLost. rewrite forallb_forall. split.
  - intros H [port Hp]. apply elem_of_map_to_list, list_elem_of_In, H in Hp. by simpl in Hp.
  - intros H [port st] Hp. apply list_elem_of_In, elem_of_map_to_list in Hp. simpl. apply negb_true_iff, str_eqb_neq.
    intros ->. apply H. eauto.
Qed.

Lemma coherent_detection port cond t : coherent t -> coherent (after_detection port cond t).
Proof.
  intros [H1 H2 H3 H4]. unfold after_detection. destruct (str_eqb cond PtpInput.ConditionTypeLocked).
  - unfold port_locked. split; cbn; [|done..|auto]. split; [|done]. intros _. exists port. by rewrite lookup_insert_eq.
  - destruct (str_eqb cond PtpInput.ConditionTypeLost); [|done].
    destruct (allPortsLost (port_lost port t)) eqn:E.
    + apply allPortsLost_spec in E. split; cbn; [|done..|auto]. split; [done|]. intros Hex. by destruct E.
    + assert (exists q, perPortState (port_lost port t) !! q = Some PTP_LOCKED) as (q & Hq).
      { destruct (decide (map_Exists (fun _ st => st = PTP_LOCKED) (perPortState (port_lost port t)))) as [(q & st & Hq & ->)|Hn]; [eauto|].
        exfalso. apply not_true_iff_false in E. apply E, allPortsLost_spec. intros [q Hq]. apply Hn. by exists q, PTP_LOCKED. }
      assert (perPortState t !! q = Some PTP_LOCKED) as Hq'.
      { unfold port_lost in Hq. cbn in Hq. destruct (decide (q = port)) as [->|]; [by rewrite lookup_insert_eq in Hq|].
        by rewrite lookup_insert_ne in Hq. }
      assert (lastReportedState t = PTP_LOCKED) as Hr by (apply H1; eauto).
      split; cbn; rewrite ?Hr; [|done..|auto]. split; [|done]. intros _. by exists q.
Qed.

(** What a line decides about a port: it became a follower, or it no longer is one. *)
Definition decisive (x : f64 * string) : option (string * bool) :=
  let '(port, cond) := PtpInput.DetectStateChange x.2 psd in
  if str_eqb cond PtpInput.ConditionTypeLocked then Some (port, true)
  else if str_eqb cond PtpInput.ConditionTypeLost then Some (port, false) else None.

Definition decisions (xs : list (f64 * string)) : list (string * bool) := omap decisive xs.

(** The last decision about a port. *)
Definition verdict (port : string) (ds : list (string * bool)) : option bool :=
  foldl (fun v d => if str_eqb d.1 port then Some d.2 else v) None ds.

Definition has_follower (ds : list (string * bool)) : Prop := exists port, verdict port ds = Some true.

(** What the decisions make of the attributes [t0] of a new process. *)
Record follows (t0 : tBCProcessAttributes) (ds : list (string * bool)) (t : tBCProcessAttributes) : Prop := {
  fo_ports : forall port, perPortState t !! port =
    match verdict port ds with Some true => Some PTP_LOCKED | Some false => Some PTP_FREERUN | None => perPortState t0 !! port end;
  fo_none : ds = [] -> lastReportedState t = PTP_NOTSET;
  fo_locked : has_follower ds -> lastReportedState t = PTP_LOCKED;
  fo_lost : ds <> [] -> ~ has_follower ds -> lastReportedState t = PTP_FREERUN /\ lastAppliedState t = PTP_HOLDOVER /\ offsetFilter t = None;
  fo_applied : lastAppliedState t = PTP_LOCKED -> has_follower ds
}.

(** A process as its constructor leaves it. *)
Definition fresh (t : tBCProcessAttributes) : Prop :=
  (forall port st, perPortState t !! port = Some st -> st = PTP_NOTSET) /\
  lastReportedState t = PTP_NOTSET /\ lastAppliedState t = PTP_NOTSET /\ offsetFilter t = None.

Lemma verdict_snoc port ds d : verdict port (ds ++ [d]) = if str_eqb d.1 port then Some d.2 else verdict port ds.
Proof. unfold verdict. by rewrite foldl_app. Qed.

(** The parts of [follows] that a line keeps. *)
Record tracks (t0 : tBCProcessAttributes) (ds : list (string * bool)) (t : tBCProcessAttributes) : Prop := {
  tr_coherent : coherent t;
  tr_ports : forall port, perPortState t !! port =
    match verdict port ds with Some true => Some PTP_LOCKED | Some false => Some PTP_FREERUN | None => perPortState t0 !! port end;
  tr_unset : lastReportedState t = PTP_NOTSET <-> ds = []
}.

Lemma tracks_following t0 ds t : fresh t0 -> tracks t0 ds t -> has_follower ds <-> exists port, perPortState t !! port = Some PTP_LOCKED.
Proof.
  intros [Hf _] [_ Hp _]. split; intros [port H]; exists port.
  - by rewrite Hp, H.
  - rewrite Hp in H. destruct (verdict port ds) as [[|]|]; [done|done|]. by apply Hf in H.
Qed.

Lemma tracks_follows t0 ds t : fresh t0 -> tracks t0 ds t -> follows t0 ds t.
Proof.
  intros Hf Ht. pose proof (tracks_following _ _ _ Hf Ht) as Hw. destruct Ht as [[H1 H2 H3 H4] Hp Hu]. split.
  - exact Hp.
  - by intros ->%Hu.
  - by intros ?%Hw%H1.
  - intros Hne Hn. assert (lastReportedState t = PTP_FREERUN) as Hr.
    { destruct H4 as [H4%Hu|[H4%H1|H4]]; [done|by apply Hw in H4|done]. }
    by destruct (H3 Hr).
  - by intros ?%H2%H1%Hw.
Qed.

Lemma tracks_fresh t0 : fresh t0 -> tracks t0 [] t0.
Proof.
  intros (Hf & Hr & Ha & Hw). split; [|done|by rewrite Hr]. split; rewrite ?Hr, ?Ha; [|done|done|by left].
  split; [done|]. by intros [port ?%Hf].
Qed.

Lemma tracks_detection t0 x ds t : fresh t0 -> tracks t0 ds t ->
  let d := PtpInput.DetectStateChange x.2 psd in tracks t0 (ds ++ option_list (decisive x)) (after_detection d.1 d.2 t).
Proof.
  intros Hf Ht. pose proof (tracks_following _ _ _ Hf Ht) as Hw. destruct Ht as [Hc Hp Hu]. cbv zeta. unfold decisive.
  destruct (PtpInput.DetectStateChange x.2 psd) as [port cond]. cbn [fst snd].
  pose proof (coherent_detection port cond t Hc) as Hc'. split; [exact Hc'| |]; revert Hc'; unfold after_detection.
  - intros _ q. destruct (str_eqb cond PtpInput.ConditionTypeLocked); [|destruct (str_eqb cond PtpInput.ConditionTypeLost)];
      unfold option_list; cbn [option_rect from_option]; rewrite ?app_nil_r, ?verdict_snoc; cbn [fst snd].
    + unfold port_locked. cbn. destruct (str_eqb port q) eqn:E; [apply str_eqb_eq in E as ->; by rewrite lookup_insert_eq|].
      apply str_eqb_neq in E. by rewrite lookup_insert_ne.
    + assert (perPortState (port_lost port t) !! q =
        match (if str_eqb port q then Some false else verdict q ds) with
        | Some true => Some PTP_LOCKED | Some false => Some PTP_FREERUN | None => perPortState t0 !! q end) as H.
      { unfold port_lost. cbn. destruct (str_eqb port q) eqn:E; [apply str_eqb_eq in E as ->; by rewrite lookup_insert_eq|].
        apply str_eqb_neq in E. by rewrite lookup_insert_ne. }
      by destruct (allPortsLost (port_lost port t)).
    + apply Hp.
  - destruct (str_eqb cond PtpInput.ConditionTypeLocked); [|destruct (str_eqb cond PtpInput.ConditionTypeLost)]; unfold option_list; cbn [option_rect from_option];
      rewrite ?app_nil_r; [| |done].
    + intros _. by split; [discriminate|intros [_ [=]]%app_eq_nil].
    + destruct (allPortsLost (port_lost port t)) eqn:El; intros Hc'; (split; [|by intros [_ [=]]%app_eq_nil]); [discriminate|].
      intros Hr. exfalso. destruct Hc' as [H1' _ _ _].
      assert (~ ~ exists q, perPortState (port_lost port t) !! q = Some PTP_LOCKED) as Hex.
      { intros Hno%allPortsLost_spec. congruence. }
      apply Hex. intros Hq%H1'. rewrite Hr in Hq. discriminate Hq.
Qed.

(** The filter neither moves a port nor the report. *)
Lemma check_tracks act t0 ds s s' o :
  (forall s s' o, act s = Some (s', o) -> s' = s) -> tracks t0 ds (tBCAttributes s.1) ->
  checkOffsetFilterAndTransition act s = Some (s', o) -> tracks t0 ds (tBCAttributes s'.1).
Proof.
  intros Hact Ht. unfold checkOffsetFilterAndTransition, set_tbc. intros H. act_inv.
  destruct (negb _) in H; [by act_inv|]. destruct (offsetFilter (tBCAttributes s.1)) as [w|] eqn:Ew; [|by act_inv].
  apply must_inv in H as (w' & Hi & H). destruct Ht as [[H1 H2 H3 H4] Hp Hu].
  assert (lastReportedState (tBCAttributes s.1) <> PTP_FREERUN) as Hnf by (intros Hr; destruct (H3 Hr); congruence).
  act_inv; [rename select (act _ = _) into Ha; apply Hact in Ha as ->|..]; cbn in *.
  1: rename select (_ && _ = true) into Hb; apply andb_prop in Hb as [[Hb%str_eqb_eq _]%andb_prop _].
  all: split; [|done|done]; by split; cbn.
Qed.

Lemma check_no_loss act s s' o :
  (forall s s' o, act s = Some (s', o) -> OHardware PtpInput.ConditionTypeLost ∉ o) ->
  checkOffsetFilterAndTransition act s = Some (s', o) -> OHardware PtpInput.ConditionTypeLost ∉ o.
Proof.
  intros Hact. unfold checkOffsetFilterAndTransition. intros H. act_inv. destruct (negb _) in H; [act_inv; set_solver|].
  destruct (offsetFilter _); [|act_inv; set_solver]. apply must_inv in H as (w' & Hi & H). act_inv; [|set_solver..].
  rename select (act _ = _) into Ha. apply Hact in Ha. set_solver.
Qed.

Lemma detected_loss port cond s s' o :
  detected now port cond s = Some (s', o) ->
  OHardware PtpInput.ConditionTypeLost ∈ o <->
  str_eqb cond PtpInput.ConditionTypeLocked = false /\ str_eqb cond PtpInput.ConditionTypeLost = true /\
  allPortsLost (port_lost port (tBCAttributes s.1)) = true.
Proof.
  unfold detected, set_tbc. destruct s as [p g]. intros H.
  destruct (str_eqb cond PtpInput.ConditionTypeLocked); [act_inv; set_solver|].
  destruct (str_eqb cond PtpInput.ConditionTypeLost); [|act_inv; set_solver].
  act_inv; cbn in *; act_inv; cbn in *; match goal with H : allPortsLost _ = _ |- _ => rewrite H end; set_solver.
Qed.

(** One line, read at once by the process and by the reference. *)
Lemma line_tracks t0 x ds s s' o : fresh t0 -> tracks t0 ds (tBCAttributes s.1) -> tbc_line x s = Some (s', o) ->
  let ds' := ds ++ option_list (decisive x) in
  tracks t0 ds' (tBCAttributes s'.1) /\
  (OHardware PtpInput.ConditionTypeLost ∈ o <-> (exists port, decisive x = Some (port, false)) /\ ~ has_follower ds').
Proof.
  intros Hf Ht H. cbv zeta. unfold tbc_line in H. act_inv. rename select (processTBCTransitionHardwareConfig _ _ _ _ = _) into Hp.
  unfold processTBCTransitionHardwareConfig in Hp. pose proof (tracks_detection t0 x ds _ Hf Ht) as Hd'. cbv zeta in Hd'.
  pose proof (tracks_following _ _ _ Hf Hd') as Hw.
  assert (decisive x = let d := PtpInput.DetectStateChange x.2 psd in
    if str_eqb d.2 PtpInput.ConditionTypeLocked then Some (d.1, true)
    else if str_eqb d.2 PtpInput.ConditionTypeLost then Some (d.1, false) else None) as Edec by (unfold decisive; by destruct (PtpInput.DetectStateChange x.2 psd)).
  destruct (PtpInput.DetectStateChange x.2 psd) as [port cond]. cbn [fst snd] in *. cbv zeta in Edec.
  apply andThen_inv in Hp as (s1 & o1 & o2 & Hd & Hc & ->). pose proof (detected_loss _ _ _ _ _ Hd) as Hl.
  apply detected_spec in Hd as [-> _]. split.
  { refine (check_tracks _ t0 _ (_, _) _ _ _ _ Hc); [|exact Hd']. intros u u' o' Ha. by act_inv. }
  apply check_no_loss in Hc; [|intros u u' o' Ha; act_inv; set_solver].
  rewrite app_nil_l, elem_of_app, Hl, Hw, Edec. unfold after_detection. cbn.
  destruct (str_eqb cond PtpInput.ConditionTypeLocked); [naive_solver|].
  destruct (str_eqb cond PtpInput.ConditionTypeLost); [|naive_solver].
  destruct (allPortsLost (port_lost port (tBCAttributes s.1))) eqn:El.
  - apply allPortsLost_spec in El. unfold all_lost. cbn. naive_solver.
  - assert (~ ~ exists q, perPortState (port_lost port (tBCAttributes s.1)) !! q = Some PTP_LOCKED) as Hex.
    { intros Hno%allPortsLost_spec. congruence. }
    naive_solver.
Qed.

Lemma run_tracks t0 xs : fresh t0 -> forall ds s s' os, tracks t0 ds (tBCAttributes s.1) -> tbc_run xs s = Some (s', os) ->
  tracks t0 (ds ++ decisions xs) (tBCAttributes s'.1) /\
  forall n x o, xs !! n = Some x -> os !! n = Some o ->
    (OHardware PtpInput.ConditionTypeLost ∈ o <->
     (exists port, decisive x = Some (port, false)) /\ ~ has_follower (ds ++ decisions (take (S n) xs))).
Proof.
  intros Hf. induction xs as [|x xs IH]; intros ds s s' os Ht H; cbn [tbc_run] in H.
  - injection H as <- <-. cbn. rewrite app_nil_r. by split.
  - destruct (tbc_line x s) as [[s1 o1]|] eqn:E1; [|done]. cbn [mbind option_bind] in H.
    destruct (tbc_run xs s1) as [[s2 os2]|] eqn:E2; [|done]. injection H as <- <-.
    destruct (line_tracks _ _ _ _ _ _ Hf Ht E1) as [Ht1 Ho1]. destruct (IH _ _ _ _ Ht1 E2) as [Ht2 Ho2].
    assert (forall ys, decisions (x :: ys) = option_list (decisive x) ++ decisions ys) as Hcons.
    { intros ys. unfold decisions. cbn. by destruct (decisive x). }
    rewrite Hcons, app_assoc. split; [exact Ht2|]. intros [|n] y o Hx Ho; cbn in Hx, Ho; simplify_eq.
    + cbn [take]. rewrite Hcons. cbn [decisions omap list_omap]. rewrite app_nil_r. exact Ho1.
    + rewrite firstn_cons, Hcons, app_assoc. by apply Ho2.
Qed.

(** C32. What a boundary clock with a hardware configuration reports upstream follows its
    ports.  From a process as its constructor leaves it, after any log the state of each port
    is what the last line about it says; the reported state is unset while no line was about
    a port, locked while some port is a follower, and freerun otherwise, and then the
    hardware is in holdover and no offset is collected; the hardware is in the locked state
    only while some port is a follower; and the hardware is told of the loss by exactly the
    lines that take a port away and leave no follower. *)
Theorem reported_state_follows_ports xs s s' os :
  fresh (tBCAttributes s.1) -> tbc_run xs s = Some (s', os) ->
  follows (tBCAttributes s.1) (decisions xs) (tBCAttributes s'.1) /\
  forall n x o, xs !! n = Some x -> os !! n = Some o ->
    (OHardware PtpInput.ConditionTypeLost ∈ o <->
     (exists port, decisive x = Some (port, false)) /\ ~ has_follower (decisions (take (S n) xs))).
Proof.
  intros Hf H. destruct (run_tracks _ xs Hf [] s s' os (tracks_fresh _ Hf) H) as [Ht Ho].
  split; [by apply tracks_follows|exact Ho].
Qed.
End tbc.

(** ** The follower port of a boundary or ordinary clock *)

(** The events ptp4l's parser finds in a log, handled one by one. *)
Fixpoint ptp4l_events (now : Z) (evs : list PTPEvent) (s : St) : option (St * list Out) :=
  match evs with
  | [] => Some (s, [])
  | ev :: evs' => '(s, o) ← processPtp4lEvent now ev s; '(s, o') ← ptp4l_events now evs' s; Some (s, o ++ o')
  end.

Definition reports_loss (o : Out) : bool :=
  match o with OEvent e => match evData e with Some (EOffset d) => odSourceLost d | _ => false end | _ => false end.

Definition losses (o : list Out) : nat := length (List.filter reports_loss o).

Lemma losses_app o o' : losses (o ++ o') = (losses o + losses o')%nat.
Proof. unfold losses. by rewrite List.filter_app, length_app. Qed.

Lemma metrics_no_loss o : match o with OEvent _ => false | _ => true end = true -> losses [o] = 0%nat.
Proof. by destruct o. Qed.

(** An action that only publishes metrics. *)
Definition quiet_action (a : M) : Prop := forall s s' o, a s = Some (s', o) -> s' = s /\ losses o = 0%nat.

Lemma updatePTPMetrics_quiet f p i a b c d : quiet_action (updatePTPMetrics f p i a b c d).
Proof. intros s s' o H. unfold updatePTPMetrics in H. by act_inv. Qed.

Lemma updateClockStateMetrics_quiet p i st : quiet_action (updateClockStateMetrics p i st).
Proof. intros s s' o H. unfold updateClockStateMetrics in H. by act_inv. Qed.

Lemma UpdateInterfaceRoleMetrics_quiet p i r : quiet_action (UpdateInterfaceRoleMetrics p i r).
Proof. intros s s' o H. unfold UpdateInterfaceRoleMetrics in H. by act_inv. Qed.

Ltac quiet_inv :=
  repeat match goal with
    | H : updatePTPMetrics _ _ _ _ _ _ _ _ = Some _ |- _ => apply updatePTPMetrics_quiet in H as [-> H]
    | H : updateClockStateMetrics _ _ _ _ = Some _ |- _ => apply updateClockStateMetrics_quiet in H as [-> H]
    | H : UpdateInterfaceRoleMetrics _ _ _ _ = Some _ |- _ => apply UpdateInterfaceRoleMetrics_quiet in H as [-> H]
    end.

(** An event that makes no port a follower: the follower is kept and no loss reported, or
    it is forgotten and its loss reported at most once. *)
Lemma ptp4l_event_loss now ev s s' o :
  Forall (fun i => ifName i <> ""%string) (ifaces s.1) -> peRole ev <> PortRoleSlave ->
  processPtp4lEvent now ev s = Some (s', o) ->
  let cfg := cfgNameFromMessageTag (messageTag s.1) in
  s'.1 = s.1 /\
  ((losses o = 0%nat /\ slaveIface_get cfg s'.2 = slaveIface_get cfg s.2) \/
   ((losses o <= 1)%nat /\ slaveIface_get cfg s.2 <> ""%string /\ slaveIface_get cfg s'.2 = ""%string)).
Proof.
  intros Hn Hr H cfg. unfold processPtp4lEvent in H. act_inv. destruct (_ && _); [|act_inv; auto].
  apply must_inv in H as (i & Hi & H). apply andThen_inv in H as (s1 & o1 & o2 & Ho1 & H & ->). fold cfg in H.
  quiet_inv. rewrite losses_app, Ho1. assert (s.1 = s.1) as Heq by done.
  destruct (str_eqb cfg ""); [act_inv; auto|].
  assert (ifName i <> ""%string) as Hin by (rewrite Forall_forall in Hn; apply Hn; by eapply list_elem_of_lookup_2).
  assert (forall b k, when (isFollowerIface cfg (ifName i) s.2 && b) k s = Some (s', o2) ->
    (forall s2 o2, k s = Some (s2, o2) -> s2.1 = s.1 /\ (losses o2 <= 1)%nat /\ slaveIface_get cfg s2.2 = ""%string) ->
    s'.1 = s.1 /\ ((0 + losses o2 = 0 /\ slaveIface_get cfg s'.2 = slaveIface_get cfg s.2) \/
      (0 + losses o2 <= 1 /\ slaveIface_get cfg s.2 <> "" /\ slaveIface_get cfg s'.2 = ""))%nat) as Hwhen.
  { intros b k Hk Hs. apply when_inv in Hk as [[Hb Hk]|(_ & -> & ->)]; [|auto]. apply Hs in Hk as (? & ? & ?). split; [done|].
    right. split; [done|]. split; [|done]. apply andb_prop in Hb as [Hb _]. unfold isFollowerIface in Hb. unfold slaveIface_get.
    destruct (slaveIface s.2 !! cfg) as [si|]; [|done]. apply str_eqb_eq in Hb. by subst. }
  destruct (peRole ev); try done; try (act_inv; by auto); unfold read in H; apply Hwhen in H; try done.
  all: clear; intros s2 o2 H; act_inv; quiet_inv; act_inv; quiet_inv; rewrite ?losses_app.
  all: repeat match goal with H : losses _ = _ |- _ => rewrite H; clear H end.
  all: match goal with H : (if ?b then _ else _) _ = Some _ |- _ => destruct b; act_inv; quiet_inv | _ => idtac end.
  all: repeat match goal with H : losses _ = _ |- _ => rewrite H; clear H end.
  all: cbn; unfold slaveIface_get; cbn; rewrite lookup_insert_eq; by auto.
Qed.
(** The loss of the source is reported once: in any stretch of ptp4l's log in which
    no port becomes a follower, however many ports fault or lose their master, at most
    one lost source is reported to the clock. *)
Theorem source_loss_reported_once now evs s s' o :
  Forall (fun i => ifName i <> ""%string) (ifaces s.1) -> Forall (fun ev => peRole ev <> PortRoleSlave) evs ->
  ptp4l_events now evs s = Some (s', o) ->
  (losses o <= 1)%nat /\
  (slaveIface_get (cfgNameFromMessageTag (messageTag s.1)) s.2 = ""%string -> losses o = 0%nat).
Proof.
  intros Hn Hr. revert s o Hn. induction Hr as [|ev evs Hev Hr IH]; intros s o Hn H; cbn [ptp4l_events] in H;
    [injection H as <- <-; split; [cbn; lia|done]|].
  destruct (processPtp4lEvent now ev s) as [[s1 o1]|] eqn:E1; [|done]. cbn [mbind option_bind] in H.
  destruct (ptp4l_events now evs s1) as [[s2 o2]|] eqn:E2; [|done]. injection H as <- <-.
  apply ptp4l_event_loss in E1 as (Hs & [[H0 Hk]|(H1 & Hne & Hk)]); [| |done..];
    (apply IH in E2 as [E2 E2']; [|by rewrite Hs]); rewrite Hs in E2'; rewrite losses_app.
  - rewrite H0, <- Hk. split; [lia|]. intros He. by rewrite E2'.
  - rewrite E2' by done. split; [lia|done].
Qed.

(** ** Concrete processes *)

Definition no_tbc : tBCProcessAttributes := mkTbc "" "" [] ∅ "" PTP_NOTSET PTP_NOTSET None f64_zero None 0.

Definition bc_ptp4l : ptpProcess :=
  mkProc "ptp4l" "ptp4l.0.config" "[ptp4l.0.config:{level}]" 1
    [mkIface "ens1f0" false PTP4l ""; mkIface "ens1f1" true "" ""] ∅ BC_type 100 false f64_zero (Ts2phc.resetPollCycle []) [] no_tbc None.

Definition no_shared : shared := mkShared ∅ ∅ ∅ (Alias.clear (Alias.mkStore ∅ ∅ ∅)) false.

Definition port_event (port : Z) (role : PTPPortRole) : PTPEvent := mkPTPEvent port "" role "" "" None.

Definition following : St := (bc_ptp4l, slaveIface_set "ptp4l.0.config" "ens1f0" no_shared).

Lemma source_loss_reported_once_witness :
  exists s' o, ptp4l_events 0 [port_event 1 PortRoleListening; port_event 1 PortRoleFaulty; port_event 2 PortRoleFaulty] following = Some (s', o)
    /\ losses o = 1%nat /\ (losses o <= 1)%nat.
Proof.
  eexists _, _. split; [vm_compute; reflexivity|]. split; [vm_compute; reflexivity|].
  refine (proj1 (source_loss_reported_once 0
    [port_event 1 PortRoleListening; port_event 1 PortRoleFaulty; port_event 2 PortRoleFaulty] following _ _ _ _ _)).
  - repeat (apply Forall_cons; split; [discriminate|]). by apply Forall_nil.
  - repeat (apply Forall_cons; split; [discriminate|]). by apply Forall_nil.
  - vm_compute. reflexivity.
Defined.

(** The guard of [processPtp4lEvent] admits the port number one past the interfaces. *)
Lemma port_past_the_end_panics : processPtp4lEvent 0 (port_event 3 PortRoleMaster) following = None.
Proof. vm_compute. reflexivity. Qed.

Definition detector : PtpInput.PTPStateDetector :=
  PtpInput.buildCaches (K := unit) [Some (PtpInput.mkBehavior [PtpInput.mkSource "PTP" "ptpTimeReceiver" ["ens1f0"]] [])].

Definition tbc_ptp4l : ptpProcess :=
  bc_ptp4l <| clockType := TBC_type |>
    <| tBCAttributes := mkTbc "ptp4l.1.config" "ptp4l.0.config" ["ens1f0"] {["ens1f0"%string := PTP_NOTSET]} "" PTP_NOTSET PTP_NOTSET
         None (f64_of_Z 100) (Some (Window.NewWindow 16)) 0 |>.

Definition slave_line : string :=
  "ptp4l[10.5]: [ptp4l.0.config:5] port 1 (ens1f0): UNCALIBRATED to SLAVE on MASTER_CLOCK_SELECTED".

Definition follow_log : list (f64 * string) := (f64_zero, slave_line) :: replicate 63 (f64_of_Z (-5), "ptp4l[11.5]: x"%string).

Lemma holdover_left_on_evidence_witness :
  exists s' os, tbc_run 0 detector follow_log (tbc_ptp4l, no_shared) = Some (s', os) /\
  exists o, os !! 63%nat = Some o /\
  (64 <= length (since_lock detector (reverse (take 64 follow_log))))%nat.
Proof.
  eexists _, _. split; [vm_compute; reflexivity|]. eexists. split; [vm_compute; reflexivity|].
  refine (proj1 (holdover_left_on_evidence 0 detector follow_log (tbc_ptp4l, no_shared) _ _ 63 _ _ _ _ _ _)).
  - reflexivity.
  - reflexivity.
  - vm_compute. reflexivity.
  - vm_compute. reflexivity.
  - left.
Defined.

(** A port that is lost again. *)
Definition loss_line : string := "ptp4l[20.5]: [ptp4l.0.config:5] port 1 (ens1f0): SLAVE to FAULTY on FAULT_DETECTED".

Lemma reported_state_follows_ports_witness :
  exists s' os, tbc_run 0 detector (follow_log ++ [(f64_zero, loss_line)]) (tbc_ptp4l, no_shared) = Some (s', os) /\
    follows (tBCAttributes tbc_ptp4l) [("ens1f0", true); ("ens1f0", false)]%string (tBCAttributes s'.1) /\
    lastReportedState (tBCAttributes s'.1) = PTP_FREERUN.
Proof.
  eexists _, _. split; [vm_compute; reflexivity|]. split; [|vm_compute; reflexivity].
  refine (proj1 (reported_state_follows_ports 0 detector (follow_log ++ [(f64_zero, loss_line)]) (tbc_ptp4l, no_shared) _ _ _ _)).
  - split; [|by split]. intros port st Hp. unfold tbc_ptp4l in Hp. cbn in Hp. by apply lookup_singleton_Some in Hp as [_ <-].
  - vm_compute. reflexivity.
Defined.

End PtpProcess.
