(* ===== verification/Conf.v ===== *)
(** * pkg/daemon: configuration files

    pkg/daemon/config.go: [Ptp4lConf], the parsed form of a linuxptp configuration, its
    parser and its printer, and the settings the daemon adds.  A name resolver is the
    function [Resolve] of Resolver.v; the PHC of an interface and the node's name are
    arguments, since the code asks the system for them. *)

From S2P Require Import Prelude Strconv Event Config Regex Alias Parser Synce.
From Stdlib Require Import Ascii.

Module Conf.

Import Config.

Definition GlobalSectionName : string := "[global]".
Definition NmeaSectionName : string := "[nmea]".
Definition UnicastSectionName : string := "[unicast_master_table]".
Definition GPSPIPE_SERIALPORT : string := "/gpsd/data".
Definition DefaultLeapConfigPath : string := "/etc/leap".

(** A [ptp4lConfOption] is a key and its value. *)
Record ptp4lConfSection := mkSection { sectionName : string; options : list (string * string) }.

#[export] Instance ptp4lConfSection_fields : Fields ptp4lConfSection := fun s => mkSection (sectionName s) (options s).

Record Ptp4lConf := mkConf {
  sections : list ptp4lConfSection;
  profile_name : string;
  clock_type : ClockType;
  gnss_serial_port : string
}.

#[export] Instance Ptp4lConf_fields : Fields Ptp4lConf := fun c =>
  mkConf (sections c) (profile_name c) (clock_type c) (gnss_serial_port c).

Definition set_profile_name (name : string) (conf : Ptp4lConf) : Ptp4lConf := conf <| profile_name := name |>.

Definition empty_conf : Ptp4lConf := mkConf [] "" "" "".

(** ** Options *)

Definition find_option (key : string) (opts : list (string * string)) : option string :=
  option_map snd (first_match (fun o => str_eqb o.1 key) opts).

(** The loop of [getPtp4lConfOptionOrEmptyString]: the first such option of any section
    of the name. *)
Fixpoint get_option (section key : string) (l : list ptp4lConfSection) : option string :=
  match l with
  | [] => None
  | s :: l' =>
      if str_eqb (sectionName s) section then
        match find_option key (options s) with Some v => Some v | None => get_option section key l' end
      else get_option section key l'
  end.

Definition getPtp4lConfOptionOrEmptyString (section key : string) (conf : Ptp4lConf) : option string :=
  get_option section key (sections conf).

(** The index of the last section of the name. *)
Fixpoint last_index (section : string) (i : nat) (l : list ptp4lConfSection) : option nat :=
  match l with
  | [] => None
  | s :: l' =>
      match last_index section (S i) l' with
      | Some j => Some j
      | None => if str_eqb (sectionName s) section then Some i else None
      end
  end.

(** The options after setting one. *)
Definition set_option (key value : string) (overwrite : bool) (opts : list (string * string)) : list (string * string) :=
  if overwrite && existsb (fun o => str_eqb o.1 key) opts
  then map (fun o => if str_eqb o.1 key then (key, value) else o) opts
  else opts ++ [(key, value)].

Definition set_section (section key value : string) (overwrite : bool) (l : list ptp4lConfSection) : list ptp4lConfSection :=
  let '(index, l) := match last_index section 0 l with
                     | Some i => (i, l)
                     | None => (length l, l ++ [mkSection section []])
                     end in
  if str_eqb key "" then l
  else alter (fun s => s <| options := set_option key value overwrite (options s) |>) index l.

Definition setPtp4lConfOption (section key value : string) (overwrite : bool) (conf : Ptp4lConf) : Ptp4lConf :=
  conf <| sections := set_section section key value overwrite (sections conf) |>.

(** ** Parsing *)

(** [strings.Split(s, c)] for a separator of one character: never empty. *)
Fixpoint split_on (c : ascii) (s : string) : list string :=
  match s with
  | EmptyString => [EmptyString]
  | String a s' =>
      if ascii_dec a c then EmptyString :: split_on c s'
      else match split_on c s' with h :: t => String a h :: t | [] => [String a EmptyString] end
  end.

(** [strings.Fields] on ASCII: the words between the spaces. *)
Fixpoint fields_aux (s word : string) : list string :=
  match s with
  | EmptyString => if str_eqb word "" then [] else [word]
  | String a s' =>
      if Parser.is_space a then (if str_eqb word "" then fields_aux s' "" else word :: fields_aux s' "")
      else fields_aux s' (word +:+ String a EmptyString)%string
  end.
Definition Fields (s : string) : list string := fields_aux s "".

(** [line[:i]] and [line[i:]] at the first space, when it is not at the start. *)
Fixpoint cut_space (s : string) : option (string * string) :=
  match s with
  | EmptyString => None
  | String a s' =>
      if ascii_dec a " " then Some (EmptyString, s)
      else r ← cut_space s'; Some (String a r.1, r.2)
  end.

Definition is_special (section : string) : bool :=
  str_eqb section GlobalSectionName || str_eqb section NmeaSectionName || str_eqb section UnicastSectionName.

Definition slave_option (section key value : string) : bool :=
  (str_eqb key "masterOnly" && str_eqb value "0" && negb (str_eqb section GlobalSectionName))
  || (str_eqb key "serverOnly" && str_eqb value "0")
  || (str_eqb key "slaveOnly" && str_eqb value "1")
  || (str_eqb key "clientOnly" && str_eqb value "1").

(** What the parser carries from line to line. *)
Record pstate := mkP { p_sections : list ptp4lConfSection; p_current : string; p_ifaces : Z; p_slave : bool }.

Definition starts_with (c : ascii) (s : string) : bool := match s with String a _ => bool_decide (a = c) | EmptyString => false end.

(** One line; [None] is the error of a section without a closing bracket. *)
Definition parse_line (st : pstate) (line : string) : option pstate :=
  let line := Parser.TrimSpace line in
  if str_eqb line "" || starts_with "#" line then Some st
  else if starts_with "[" line then
    match split_on "]" line with
    | head :: _ :: _ =>
        let current := (head +:+ "]")%string in
        Some (mkP (set_section current "" "" false (p_sections st)) current
                (if is_special current then p_ifaces st else p_ifaces st + 1) (p_slave st))
    | _ => None
    end
  else
    match cut_space line with
    | Some (key, rest) =>
        if str_eqb key "" then Some st
        else
          let value := Parser.TrimSpace rest in
          Some (mkP (set_section (p_current st) key value false (p_sections st)) (p_current st) (p_ifaces st)
                  (p_slave st || slave_option (p_current st) key value))
    | None => Some st
    end.

Fixpoint parse_lines (st : pstate) (lines : list string) : option pstate :=
  match lines with
  | [] => Some st
  | line :: rest => st' ← parse_line st line; parse_lines st' rest
  end.

Definition cliArgsSlaveFlagsRegex : Regex.Regexp := Eval vm_compute in
  Parser.pattern "--(slaveOnly|clientOnly)(\s+1|=1)(\s|$)".

Definition cli_slave (cliArgs : option string) : bool :=
  match cliArgs with
  | None => false
  | Some args => existsb (fun arg => str_eqb arg "-s") (Fields args) || Regex.MatchString cliArgsSlaveFlagsRegex args
  end.

Definition newline_char : ascii := ascii_of_nat 10.

(** [PopulatePtp4lConf]; [None] is the error. *)
Definition PopulatePtp4lConf (config cliArgs : option string) (conf : Ptp4lConf) : option Ptp4lConf :=
  st ← parse_lines (mkP [] "" 0 (cli_slave cliArgs)) (match config with Some c => split_on newline_char c | None => [] end);
  Some ((conf <| sections := p_sections st |>)
    <| clock_type := if negb (p_slave st) then GM_type else if 1 <? p_ifaces st then BC_type else OC_type |>).

(** ** Settings the daemon adds *)

Definition ts2phcProcessName : string := "ts2phc".

Definition ExtendGlobalSection (nodeName profileName messageTag socketPath pProcess : string) (conf : Ptp4lConf) : Ptp4lConf :=
  let conf := setPtp4lConfOption GlobalSectionName "message_tag" messageTag true (conf <| profile_name := profileName |>) in
  let conf := if str_eqb socketPath "" then conf else setPtp4lConfOption GlobalSectionName "uds_address" socketPath true conf in
  let conf :=
    match getPtp4lConfOptionOrEmptyString GlobalSectionName "ts2phc.nmea_serialport" conf with
    | Some port =>
        setPtp4lConfOption GlobalSectionName "ts2phc.nmea_serialport" GPSPIPE_SERIALPORT true
          (conf <| gnss_serial_port := Parser.TrimSpace port |>)
    | None => conf
    end in
  if match getPtp4lConfOptionOrEmptyString GlobalSectionName "leapfile" conf with Some _ => true | None => false end
     || str_eqb pProcess ts2phcProcessName
  then setPtp4lConfOption GlobalSectionName "leapfile" (DefaultLeapConfigPath +:+ "/" +:+ nodeName)%string true conf
  else conf.

Definition bracket (s : string) : string := ("[" +:+ s +:+ "]")%string.

Definition AddInterfaceSection (iface : string) (conf : Ptp4lConf) : Ptp4lConf :=
  setPtp4lConfOption (bracket iface) "" "" false conf.

(** [addFlagsForMonitor] of metrics.go: the options string and the configuration. *)
Definition addFlagsForMonitor (process : string) (configOpts : option string) (conf : Ptp4lConf) : option string * Ptp4lConf :=
  if str_eqb process "ptp4l" then
    match configOpts with
    | None => (None, conf)
    | Some opts =>
        let opts := if Regex.contains "-m" opts then opts else (opts +:+ " -m")%string in
        (Some opts,
         if Regex.contains "--summary_interval" opts then conf
         else match getPtp4lConfOptionOrEmptyString GlobalSectionName "summary_interval" conf with
              | Some _ => conf
              | None => setPtp4lConfOption GlobalSectionName "summary_interval" "1" true conf
              end)
    end
  else if str_eqb process "phc2sys" then
    match configOpts with
    | Some opts => (Some (if str_eqb opts "" || Regex.contains "-m" opts then opts else (opts +:+ " -m")%string), conf)
    | None => (None, conf)
    end
  else (configOpts, conf).

Definition getSectionName (name : string) : string := Regex.ReplaceAll (Regex.ReplaceAll name "[" "") "]" "".

(** A resolver: the resolved name, whether it differs, and the resolver afterwards. *)
Section resolve.
Context {R : Type} (Resolve : string -> R -> string * bool * R).

Fixpoint resolve_sections (l : list ptp4lConfSection) (r : R) : list ptp4lConfSection * R :=
  match l with
  | [] => ([], r)
  | s :: l' =>
      let name := sectionName s in
      let inner := getSectionName name in
      if is_special name || starts_with "<" inner || starts_with "{" inner
      then let x := resolve_sections l' r in (s :: x.1, x.2)
      else
        let '(resolved, remapped, r) := Resolve inner r in
        let x := resolve_sections l' r in
        ((if remapped then s <| sectionName := bracket resolved |> else s) :: x.1, x.2)
  end.

Definition ResolveInterfaceNames (conf : Ptp4lConf) (r : R) : Ptp4lConf * R :=
  let x := resolve_sections (sections conf) r in (conf <| sections := x.1 |>, x.2).

(** The value of one option of chronyd. *)
Definition chronyd_value (key value : string) (r : R) : string * R :=
  if str_eqb key "binddevice" || str_eqb key "bindacqdevice" then
    let '(resolved, remapped, r) := Resolve value r in (if remapped then resolved else value, r)
  else if str_eqb key "hwtimestamp" then
    match Fields value with
    | dev :: rest =>
        if str_eqb dev "*" then (value, r)
        else let '(resolved, remapped, r) := Resolve dev r in (if remapped then join " " (resolved :: rest) else value, r)
    | [] => (value, r)
    end
  else (value, r).

Definition ts2phc_value (key value : string) (r : R) : string * R :=
  if str_eqb key "ts2phc.tod_source" && negb (str_eqb value "generic") && negb (str_eqb value "nmea") && negb (starts_with "/" value)
  then let '(resolved, remapped, r) := Resolve value r in (if remapped then resolved else value, r)
  else (value, r).

Fixpoint map_options (f : string -> string -> R -> string * R) (opts : list (string * string)) (r : R) : list (string * string) * R :=
  match opts with
  | [] => ([], r)
  | (k, v) :: opts' => let y := f k v r in let x := map_options f opts' y.2 in ((k, y.1) :: x.1, x.2)
  end.

Fixpoint map_sections (f : string -> string -> R -> string * R) (l : list ptp4lConfSection) (r : R) : list ptp4lConfSection * R :=
  match l with
  | [] => ([], r)
  | s :: l' =>
      let y := map_options f (options s) r in
      let x := map_sections f l' y.2 in (s <| options := y.1 |> :: x.1, x.2)
  end.

Definition ResolveChronydInterfaceNames (conf : Ptp4lConf) (r : R) : Ptp4lConf * R :=
  let x := map_sections chronyd_value (sections conf) r in (conf <| sections := x.1 |>, x.2).

Definition ResolveTs2PhcInterfaceNames (conf : Ptp4lConf) (r : R) : Ptp4lConf * R :=
  let x := map_sections ts2phc_value (sections conf) r in (conf <| sections := x.1 |>, x.2).
End resolve.

(** ** Printing *)

(** [strconv.ParseBool]. *)
Definition ParseBool (s : string) : option bool :=
  if existsb (str_eqb s) ["1"; "t"; "T"; "true"; "TRUE"; "True"] then Some true
  else if existsb (str_eqb s) ["0"; "f"; "F"; "false"; "FALSE"; "False"] then Some false
  else None.

Definition getSource (isTs2phcMaster : string) : EventSource :=
  if bool_decide (ParseBool (Parser.TrimSpace isTs2phcMaster) = Some true) then GNSS else PPS.

Definition option_line (o : string * string) : string := (newline +:+ o.1 +:+ " " +:+ o.2)%string.
Definition section_text (s : ptp4lConfSection) : string :=
  (newline +:+ sectionName s +:+ String.concat "" (map option_line (options s)))%string.
Definition render (conf : Ptp4lConf) (l : list ptp4lConfSection) : string :=
  ("#profile: " +:+ profile_name conf +:+ newline +:+ String.concat "" (map section_text l))%string.

Definition nmea_source_of (conf : Ptp4lConf) (name : string) (nmea_source : EventSource) : EventSource :=
  if str_eqb name NmeaSectionName then
    match getPtp4lConfOptionOrEmptyString name "ts2phc.master" conf with Some s => getSource s | None => nmea_source end
  else nmea_source.

(** The interface of a section. *)
Definition section_iface (GetPhcId : string -> string) (conf : Ptp4lConf) (name : string) (nmea_source : EventSource) : Iface :=
  let iface := getSectionName name in
  let source :=
    match getPtp4lConfOptionOrEmptyString name "ts2phc.master" conf with
    | Some s => let source := getSource s in if str_eqb source PPS && str_eqb nmea_source GNSS then GNSS else source
    | None => nmea_source
    end in
  let isMaster :=
    match getPtp4lConfOptionOrEmptyString name "masterOnly" conf with
    | Some s => default false (ParseBool (Parser.TrimSpace s))
    | None => false
    end in
  mkIface iface isMaster source (GetPhcId iface).

(** The loop of [RenderPtp4lConf] over the sections: the interfaces and the aliases. *)
Fixpoint render_ifaces (GetPhcId : string -> string) (conf : Ptp4lConf) (nmea_source : EventSource) (l : list ptp4lConfSection)
    (al : Alias.store) : IFaces * Alias.store :=
  match l with
  | [] => ([], al)
  | s :: l' =>
      let nmea_source := nmea_source_of conf (sectionName s) nmea_source in
      if is_special (sectionName s) then render_ifaces GetPhcId conf nmea_source l' al
      else
        let i := section_iface GetPhcId conf (sectionName s) nmea_source in
        let r := render_ifaces GetPhcId conf nmea_source l' (Alias.addInterface (ifPhcId i) (ifName i) al) in
        (i :: r.1, r.2)
  end.

(** [RenderPtp4lConf]: the text, the interfaces, and the aliases recalculated ([None]
    would be the panic of an empty group). *)
Definition RenderPtp4lConf (GetPhcId : string -> string) (conf : Ptp4lConf) (al : Alias.store) : string * IFaces * option Alias.store :=
  let r := render_ifaces GetPhcId conf "" (sections conf) al in
  (render conf (sections conf), r.1, Alias.calculateAliases (map_to_list (Alias.interfacesByPhc r.2)) r.2).

(** *** SyncE *)

Definition braces : Regex.Regexp := Eval vm_compute in Parser.pattern "[{}<>\[\] ]+".

Definition bare (s : string) : string := Regex.ReplaceAllString braces s "".

Definition device_option (conf : Ptp4lConf) (section key : string) (dflt : Z) : Z :=
  match getPtp4lConfOptionOrEmptyString section key conf with
  | Some s => fst (ParseInt (Parser.TrimSpace s) 10 64)
  | None => dflt
  end.

(** The device being read, the ports so far, and the devices finished. *)
Definition finish (info : Synce.Config) (ifaces : list string) (r : list Synce.Config) : list Synce.Config :=
  if str_eqb (Synce.scName info) "" then r
  else Synce.AddDeviceConfig (if (0 <? length ifaces)%nat then Synce.set_ifaces ifaces info else info) r.

Fixpoint synce_loop (conf : Ptp4lConf) (l : list ptp4lConfSection) (info : Synce.Config) (ifaces : list string) (r : list Synce.Config) :
    list Synce.Config :=
  match l with
  | [] => finish info ifaces r
  | s :: l' =>
      let name := sectionName s in
      match drop_prefix "[<" name, drop_prefix "[{" name, starts_with "[" name with
      | Some _, _, _ =>
          synce_loop conf l'
            (Synce.mkConfig (bare name) [] "" (device_option conf name "network_option" Synce.SYNCE_NETWORK_OPT_1)
               (device_option conf name "extended_tlv" Synce.ExtendedTLV_DISABLED) "" ∅ "")
            ifaces (finish info ifaces r)
      | _, Some _, _ => synce_loop conf l' (Synce.set_external (bare name) info) ifaces r
      | _, _, true =>
          if str_eqb name GlobalSectionName then synce_loop conf l' info ifaces r
          else synce_loop conf l' info (ifaces ++ [bare name]) r
      | _, _, _ => synce_loop conf l' info ifaces r
      end
  end.

Definition extractSynceRelations (conf : Ptp4lConf) : list Synce.Config :=
  synce_loop conf (sections conf) (Synce.mkConfig "" [] "" 0 0 "" ∅ "") [] [].

(** The clock identifiers added to the device sections without one; [None] is the panic
    of an index past the devices.  The loop ranges over the sections as they were, and
    prints their options as they are. *)
Fixpoint synce_ids (relations : list Synce.Config) (names : list string) (deviceIdx : nat) (conf : Ptp4lConf) : option Ptp4lConf :=
  match names with
  | [] => Some conf
  | name :: names' =>
      match drop_prefix "[<" name, getPtp4lConfOptionOrEmptyString name "clock_id" conf with
      | Some _, None =>
          d ← relations !! deviceIdx;
          synce_ids relations names' (S deviceIdx) (setPtp4lConfOption name "clock_id" (Synce.scClockId d) true conf)
      | _, _ => synce_ids relations names' deviceIdx conf
      end
  end.

Definition RenderSyncE4lConf (ptpSettings : list (string * string)) (conf : Ptp4lConf) : option (string * list Synce.Config * Ptp4lConf) :=
  let relations := Synce.AddClockIds ptpSettings (extractSynceRelations conf) in
  conf' ← synce_ids relations (map sectionName (sections conf)) 0 conf;
  Some (render conf' (sections conf'), relations, conf').

(** ** Updates of the configuration *)

(** [LinuxPTPConfUpdate]: the profiles in force, by the text they came from. *)
Record LinuxPTPConfUpdate (P : Type) := mkUpdate { appliedNodeProfileJSON : string; NodeProfiles : list P }.
Arguments mkUpdate {P}.
Arguments appliedNodeProfileJSON {P}.
Arguments NodeProfiles {P}.

Inductive update_result := Unchanged | Signalled | Skipped | LoadError.

(** [UpdateConfig]: [load] and [load_old] decode the list of profiles and the old single
    profile (package encoding/json); [usable] tells whether a profile has a name and an
    interface. *)
Definition UpdateConfig {P} (load : string -> option (list P)) (load_old : string -> option P) (usable : P -> bool)
    (nodeProfilesJSON : string) (ptpAuthUpdated : bool) (l : LinuxPTPConfUpdate P) : update_result * LinuxPTPConfUpdate P :=
  if str_eqb (appliedNodeProfileJSON l) nodeProfilesJSON && negb ptpAuthUpdated then (Unchanged, l)
  else
    match load nodeProfilesJSON with
    | Some profiles => (Signalled, mkUpdate nodeProfilesJSON profiles)
    | None =>
        match load_old nodeProfilesJSON with
        | Some p => if usable p then (Signalled, mkUpdate nodeProfilesJSON [p]) else (Skipped, l)
        | None => (LoadError, l)
        end
    end.

(** [GetCurrentPTPProfiles]. *)
Definition GetCurrentPTPProfiles {P} (name : P -> option string) (l : LinuxPTPConfUpdate P) : list string :=
  omap name (NodeProfiles l).

(** * Properties *)

(** ** Trimming and splitting *)

Import Regex (all_in, mkSet, in_set, all_in_app, str_app_assoc, str_app_length, str_app_empty).

Definition without (c : ascii) : Regex.cset := mkSet true [(N_of_ascii c, N_of_ascii c)].
Definition not_nl : Regex.cset := without newline_char.
Definition not_nl_space : Regex.cset := mkSet true [(10, 10); (32, 32)]%N.
Definition not_nl_bracket : Regex.cset := mkSet true [(10, 10); (93, 93)]%N.

Lemma all_in_weaken c c' s : (forall a, in_set c a = true -> in_set c' a = true) -> all_in c s -> all_in c' s.
Proof. intros H. induction s as [|a s IH]; simpl; [done|]. intros [? ?]. auto. Qed.

Lemma trim_left_suffix s : exists w, s = (w +:+ Parser.trim_left s)%string.
Proof.
  induction s as [|a s [w IH]]; [by exists EmptyString|]. simpl. destruct (Parser.is_space a); [|by exists EmptyString].
  exists (String a w). by rewrite str_app_cons, <- IH.
Qed.

Lemma trim_right_cons a s :
  Parser.trim_right (String a s)
  = if str_eqb (Parser.trim_right s) "" then (if Parser.is_space a then EmptyString else String a EmptyString)
    else String a (Parser.trim_right s).
Proof. simpl. by destruct (Parser.trim_right s). Qed.

Lemma trim_right_prefix s : exists w, s = (Parser.trim_right s +:+ w)%string.
Proof.
  induction s as [|a s [w IH]]; [by exists EmptyString|]. rewrite trim_right_cons. destruct (str_eqb _ _) eqn:E.
  - apply str_eqb_eq in E. rewrite E in IH. destruct (Parser.is_space a); [by exists (String a s)|]. by exists s.
  - exists w. by rewrite str_app_cons, <- IH.
Qed.

Lemma trim_right_app s t : Parser.trim_right t <> "" -> Parser.trim_right (s +:+ t)%string = (s +:+ Parser.trim_right t)%string.
Proof.
  intros Ht. induction s as [|a s IH]; [done|]. rewrite !str_app_cons, trim_right_cons, IH.
  assert (str_eqb (s +:+ Parser.trim_right t)%string "" = false) as ->; [|done].
  apply str_eqb_neq. destruct s; [|by rewrite str_app_cons]. done.
Qed.

Lemma trim_right_idem s : Parser.trim_right (Parser.trim_right s) = Parser.trim_right s.
Proof.
  induction s as [|a s IH]; [done|]. rewrite trim_right_cons. destruct (str_eqb (Parser.trim_right s) "") eqn:E.
  - destruct (Parser.is_space a) eqn:Ea; [done|]. simpl. by rewrite Ea.
  - by rewrite trim_right_cons, IH, E.
Qed.

(** A text without a space at either end. *)
Definition trimmed (s : string) : Prop := Parser.TrimSpace s = s.

Lemma trimmed_TrimSpace s : trimmed (Parser.TrimSpace s).
Proof.
  unfold trimmed, Parser.TrimSpace. assert (Parser.trim_left (Parser.trim_right (Parser.trim_left s)) = Parser.trim_right (Parser.trim_left s)) as ->;
    [|apply trim_right_idem].
  induction s as [|a s IH]; [done|]. simpl Parser.trim_left. destruct (Parser.is_space a) eqn:Ea; [done|].
  rewrite trim_right_cons. rewrite Ea. by destruct (str_eqb _ _); simpl; rewrite Ea.
Qed.

Lemma trimmed_parts s : trimmed s -> Parser.trim_left s = s /\ Parser.trim_right s = s.
Proof.
  unfold trimmed, Parser.TrimSpace. intros H.
  assert (String.length (Parser.trim_left s) = String.length s) as Hl.
  { destruct (trim_left_suffix s) as [w Hw]. destruct (trim_right_prefix (Parser.trim_left s)) as [w' Hw'].
    apply (f_equal String.length) in Hw, Hw'. rewrite str_app_length in Hw, Hw'. rewrite H in Hw'. lia. }
  assert (Parser.trim_left s = s) as E; [|by rewrite E in H].
  destruct (trim_left_suffix s) as [w Hw]. destruct w; [by rewrite Hw at 2|]. rewrite Hw in Hl at 2.
  rewrite str_app_cons in Hl. simpl in Hl. rewrite str_app_length in Hl. lia.
Qed.

Lemma all_in_TrimSpace c s : all_in c s -> all_in c (Parser.TrimSpace s).
Proof.
  intros H. destruct (trim_left_suffix s) as [w Hw]. rewrite Hw in H. apply all_in_app in H as [_ H].
  unfold Parser.TrimSpace. destruct (trim_right_prefix (Parser.trim_left s)) as [w' Hw']. rewrite Hw' in H. by apply all_in_app in H as [H _].
Qed.

Lemma without_spec c a : in_set (without c) a = true <-> a <> c.
Proof.
  unfold in_set, without. cbn [Regex.negated Regex.ranges existsb]. rewrite orb_false_r, xorb_true_l, negb_true_iff, andb_false_iff, !N.leb_gt.
  split; [intros H ->; lia|]. intros H. assert (N_of_ascii a <> N_of_ascii c); [|lia]. intros E. apply H.
  by rewrite <- (ascii_N_embedding a), <- (ascii_N_embedding c), E.
Qed.

Lemma in_two a lo : in_set (mkSet true [(10, 10)%N; (lo, lo)]) a = true -> a <> newline_char /\ N_of_ascii a <> lo.
Proof.
  unfold in_set. cbn [Regex.negated Regex.ranges existsb]. rewrite orb_false_r, xorb_true_l, negb_true_iff, orb_false_iff, !andb_false_iff, !N.leb_gt.
  intros [H1 H2]. split; [intros ->; vm_compute in H1; by destruct H1|lia].
Qed.

Lemma in_two_iff a lo : a <> newline_char /\ N_of_ascii a <> lo -> in_set (mkSet true [(10, 10)%N; (lo, lo)]) a = true.
Proof.
  unfold in_set. cbn [Regex.negated Regex.ranges existsb]. rewrite orb_false_r, xorb_true_l, negb_true_iff, orb_false_iff, !andb_false_iff, !N.leb_gt.
  intros [H1 H2]. split; [|lia]. assert (N_of_ascii a <> 10%N); [|lia]. intros E. apply H1.
  by rewrite <- (ascii_N_embedding a), E.
Qed.

Lemma split_on_hit c s t : all_in (without c) s -> split_on c (s +:+ String c t)%string = s :: split_on c t.
Proof.
  induction s as [|a s IH]; simpl; [by destruct (ascii_dec c c)|]. intros [Ha%without_spec Hs]. rewrite IH by done.
  by destruct (ascii_dec a c).
Qed.

Lemma split_on_none c s : all_in (without c) s -> split_on c s = [s].
Proof.
  induction s as [|a s IH]; simpl; [done|]. intros [Ha%without_spec Hs]. rewrite IH by done. by destruct (ascii_dec a c).
Qed.

Lemma split_on_all c s : Forall (all_in (without c)) (split_on c s).
Proof.
  induction s as [|a s IH]; simpl; [by apply Forall_singleton|].
  destruct (ascii_dec a c) as [->|Hn]; [by apply Forall_cons|].
  destruct (split_on c s) as [|h t].
  - apply Forall_singleton. split; [by apply without_spec|done].
  - apply Forall_cons in IH as [Hh Ht]. apply Forall_cons. split; [|done]. split; [by apply without_spec|done].
Qed.

Definition lines_text (xs : list string) : string := String.concat "" (map (fun x => newline +:+ x)%string xs).

Lemma concat_cons x l : String.concat "" (x :: l) = (x +:+ String.concat "" l)%string.
Proof. destruct l; simpl; [by rewrite str_app_empty|done]. Qed.

Lemma concat_app l l' : String.concat "" (l ++ l') = (String.concat "" l +:+ String.concat "" l')%string.
Proof. induction l as [|x l IH]; [done|]. cbn [app]. by rewrite !concat_cons, IH, str_app_assoc. Qed.

Lemma split_lines a xs :
  all_in not_nl a -> Forall (all_in not_nl) xs -> split_on newline_char (a +:+ lines_text xs)%string = a :: xs.
Proof.
  intros Ha Hxs. revert a Ha. induction Hxs as [|x xs Hx Hxs IH]; intros a Ha.
  - unfold lines_text. simpl. rewrite str_app_empty. by apply split_on_none.
  - unfold lines_text in *. cbn [map]. rewrite concat_cons. unfold newline. rewrite str_app_assoc, !str_app_cons, str_app_nil.
    rewrite split_on_hit by done. f_equal. by apply IH.
Qed.

(** ** The well-formed configurations *)

Definition plain_start (s : string) : Prop :=
  match s with String a _ => Parser.is_space a = false /\ a <> "#"%char /\ a <> "["%char | EmptyString => False end.

(** A key without a blank that does not look like a comment or a section; a value
    without blanks around it. *)
Definition wf_option (o : string * string) : Prop :=
  plain_start o.1 /\ all_in not_nl_space o.1 /\ o.2 <> ""%string /\ trimmed o.2 /\ all_in not_nl o.2.

Definition wf_name (name : string) : Prop := exists inner, name = bracket inner /\ all_in not_nl_bracket inner.

Definition wf_section (s : ptp4lConfSection) : Prop := wf_name (sectionName s) /\ Forall wf_option (options s).

(** Options before the first section are kept in a section without a name. *)
Definition headless (s : ptp4lConfSection) : Prop := sectionName s = ""%string /\ options s <> [] /\ Forall wf_option (options s).

Definition wf_sections (l : list ptp4lConfSection) : Prop :=
  NoDup (map sectionName l) /\
  match l with
  | [] => True
  | s :: l' => (headless s \/ wf_section s) /\ Forall wf_section l'
  end.

(** ** Setting options *)

Lemma last_index_None section i l : section ∉ map sectionName l -> last_index section i l = None.
Proof.
  revert i. induction l as [|s l IH]; intros i H; simpl; [done|]. simpl in H. rewrite IH by set_solver.
  rewrite str_eqb_ne; [done|set_solver].
Qed.

Lemma last_index_Some section i pre s post :
  sectionName s = section -> section ∉ map sectionName post -> last_index section i (pre ++ s :: post) = Some (i + length pre)%nat.
Proof.
  intros Hs Hp. revert i. induction pre as [|s' pre IH]; intros i; simpl.
  - rewrite last_index_None by done. rewrite Hs, str_eqb_refl. f_equal. lia.
  - rewrite IH. f_equal. lia.
Qed.

Lemma set_section_new section key v ow l :
  section ∉ map sectionName l ->
  set_section section key v ow l = l ++ [mkSection section (if str_eqb key "" then [] else [(key, v)])].
Proof.
  intros H. unfold set_section. rewrite last_index_None by done. destruct (str_eqb key ""); [done|].
  rewrite list.alter_app_r_alt by lia. rewrite Nat.sub_diag. simpl. unfold set_option. by rewrite andb_false_r.
Qed.

Lemma set_section_old section key v ow pre s post :
  sectionName s = section -> section ∉ map sectionName post ->
  set_section section key v ow (pre ++ s :: post)
  = pre ++ (if str_eqb key "" then s else s <| options := set_option key v ow (options s) |>) :: post.
Proof.
  intros Hs Hp. unfold set_section. rewrite (last_index_Some section 0 pre s post) by done. simpl.
  destruct (str_eqb key ""); [done|]. by rewrite list.alter_app_r_alt, Nat.sub_diag by lia.
Qed.
(** ** Reading the lines the printer writes *)

Definition option_text (o : string * string) : string := (o.1 +:+ " " +:+ o.2)%string.
Definition section_lines (s : ptp4lConfSection) : list string := sectionName s :: map option_text (options s).

Lemma trim_ends a s b :
  Parser.is_space a = false -> Parser.is_space b = false ->
  Parser.TrimSpace (String a (s +:+ String b EmptyString)) = String a (s +:+ String b EmptyString).
Proof.
  intros Ha Hb. unfold Parser.TrimSpace. cbn [Parser.trim_left]. rewrite Ha.
  change (String a (s +:+ String b EmptyString)) with (String a s +:+ String b EmptyString)%string.
  assert (Parser.trim_right (String b EmptyString) = String b EmptyString) as E by (simpl; by rewrite Hb).
  rewrite trim_right_app; rewrite E; done.
Qed.

Lemma parse_section_line st name :
  wf_name name ->
  parse_line st name = Some (mkP (set_section name "" "" false (p_sections st)) name
    (if is_special name then p_ifaces st else p_ifaces st + 1) (p_slave st)).
Proof.
  intros (inner & -> & Hi). unfold parse_line, bracket. rewrite str_app_cons, str_app_nil, trim_ends by done.
  cbn [str_eqb]. rewrite str_eqb_ne by done. cbn [orb starts_with]. rewrite bool_decide_false by done. rewrite bool_decide_true by done.
  change (String "[" (inner +:+ "]"))%string with (String "[" inner +:+ "]")%string. rewrite split_on_hit; [done|].
  split; [done|]. eapply all_in_weaken; [|exact Hi]. intros a [_ H]%in_two. apply without_spec. by intros ->.
Qed.

Lemma cut_space_spec k rest : all_in not_nl_space k -> cut_space (k +:+ String " " rest)%string = Some (k, String " " rest).
Proof.
  induction k as [|a k IH]; simpl; [done|]. intros [[_ Ha]%in_two Hk]. destruct (ascii_dec a " ") as [->|]; [done|]. by rewrite IH.
Qed.

Lemma parse_option_line st k v :
  wf_option (k, v) ->
  parse_line st (option_text (k, v))
  = Some (mkP (set_section (p_current st) k v false (p_sections st)) (p_current st) (p_ifaces st)
      (p_slave st || slave_option (p_current st) k v)).
Proof.
  intros (Hs & Hk & Hv & Ht & _). cbn [fst snd] in *. unfold option_text. cbn [fst snd].
  destruct (trimmed_parts v Ht) as [Hl Hr]. destruct k as [|a k]; [done|]. destruct Hs as (Ha & Hh & Hb).
  unfold parse_line.
  assert (Parser.TrimSpace (String a k +:+ " " +:+ v)%string = (String a k +:+ " " +:+ v)%string) as ->.
  { unfold Parser.TrimSpace. rewrite str_app_cons. cbn [Parser.trim_left]. rewrite Ha.
    change (String a (k +:+ " " +:+ v))%string with (String a k +:+ " " +:+ v)%string. rewrite <- !str_app_assoc.
    rewrite trim_right_app; rewrite Hr; done. }
  rewrite str_app_cons. rewrite str_eqb_ne by done. cbn [orb starts_with]. rewrite !bool_decide_false by done.
  change (String a (k +:+ " " +:+ v))%string with (String a k +:+ String " " v)%string. rewrite cut_space_spec by done.
  rewrite str_eqb_ne by done. assert (Parser.TrimSpace (String " " v) = v) as ->; [|done].
  unfold Parser.TrimSpace. simpl. by rewrite Hl.
Qed.

Lemma parse_lines_app st l l' : parse_lines st (l ++ l') = st' ← parse_lines st l; parse_lines st' l'.
Proof. revert st. induction l as [|x l IH]; intros st; simpl; [done|]. destruct (parse_line st x); simpl; [apply IH|done]. Qed.

Lemma wf_key k v : wf_option (k, v) -> str_eqb k "" = false.
Proof. intros (H & _). apply str_eqb_neq. by intros ->. Qed.

Lemma parse_options pre name o0 opts n b :
  Forall wf_option opts ->
  exists b', parse_lines (mkP (pre ++ [mkSection name o0]) name n b) (map option_text opts)
  = Some (mkP (pre ++ [mkSection name (o0 ++ opts)]) name n b').
Proof.
  intros H. revert o0 b. induction H as [|[k v] opts Ho H IH]; intros o0 b; cbn [map parse_lines].
  - exists b. by rewrite app_nil_r.
  - rewrite parse_option_line by done. cbn [mbind option_bind p_sections p_current p_ifaces p_slave].
    rewrite (set_section_old _ k v false pre (mkSection name o0) []) by first [done|simpl; set_solver].
    rewrite (wf_key k v) by done.
    destruct (IH (o0 ++ [(k, v)]) (b || slave_option name k v)) as [b' Hb]. exists b'.
    replace (o0 ++ (k, v) :: opts) with ((o0 ++ [(k, v)]) ++ opts) by (by rewrite <- app_assoc). exact Hb.
Qed.

Lemma parse_sections pre l cur n b :
  Forall wf_section l -> NoDup (map sectionName (pre ++ l)) ->
  exists st, parse_lines (mkP pre cur n b) (concat (map section_lines l)) = Some st /\ p_sections st = pre ++ l.
Proof.
  intros Hl. revert pre cur n b. induction Hl as [|[name opts] l [Hn Ho] Hl IH]; intros pre cur n b Hd; cbn [map concat].
  - eexists. split; [reflexivity|]. by rewrite app_nil_r.
  - unfold section_lines at 1. cbn [sectionName options app parse_lines]. rewrite parse_section_line by done.
    cbn [mbind option_bind p_sections p_ifaces p_slave]. rewrite map_app in Hd. cbn [map sectionName] in Hd.
    rewrite set_section_new.
    2: { apply NoDup_app in Hd as (_ & Hd & _). intros Hin. by apply (Hd name Hin); left. }
    change (str_eqb "" "") with true. cbv iota. rewrite parse_lines_app.
    destruct (parse_options pre name [] opts (if is_special name then n else n + 1) b Ho) as [b' ->]. cbn [mbind option_bind].
    destruct (IH (pre ++ [mkSection name opts]) name (if is_special name then n else n + 1) b') as (st & Hst & Hs).
    { rewrite <- app_assoc. by rewrite map_app. }
    exists st. split; [exact Hst|]. by rewrite Hs, <- app_assoc.
Qed.

Lemma section_text_lines s : section_text s = lines_text (section_lines s).
Proof.
  unfold section_text, lines_text, section_lines. cbn [map]. rewrite concat_cons, str_app_assoc, map_map. do 3 f_equal.
Qed.

Lemma lines_text_app l l' : lines_text (l ++ l') = (lines_text l +:+ lines_text l')%string.
Proof. unfold lines_text. by rewrite map_app, concat_app. Qed.

Lemma sections_text l : String.concat "" (map section_text l) = lines_text (concat (map section_lines l)).
Proof.
  induction l as [|s l IH]; [done|]. cbn [map concat]. by rewrite concat_cons, lines_text_app, section_text_lines, IH.
Qed.

Lemma render_lines conf l :
  render conf l = (("#profile: " +:+ profile_name conf) +:+ lines_text ("" :: concat (map section_lines l)))%string.
Proof.
  unfold render. rewrite sections_text, str_app_assoc. do 2 f_equal.
  symmetry. apply (lines_text_app [""]).
Qed.

Lemma option_lines opts : Forall wf_option opts -> Forall (all_in not_nl) (map option_text opts).
Proof.
  intros Ho. apply Forall_map. eapply Forall_impl; [exact Ho|]. intros [k v] (_ & Hk & _ & _ & Hv). unfold option_text. simpl in *.
  apply all_in_app. split; [|by split]. eapply all_in_weaken; [|exact Hk]. intros a [H _]%in_two. by apply without_spec.
Qed.

Lemma wf_lines s : wf_section s -> Forall (all_in not_nl) (section_lines s).
Proof.
  intros [(inner & Hn & Hi) Ho]. unfold section_lines. apply Forall_cons. split.
  - rewrite Hn. unfold bracket. rewrite str_app_cons, str_app_nil. split; [done|]. apply all_in_app. split; [|by repeat split].
    eapply all_in_weaken; [|exact Hi]. intros a [H _]%in_two. by apply without_spec.
  - by apply option_lines.
Qed.

Lemma wf_sections_lines l : wf_sections l -> Forall (all_in not_nl) (concat (map section_lines l)).
Proof.
  assert (forall l, Forall wf_section l -> Forall (all_in not_nl) (concat (map section_lines l))) as Hall.
  { intros k Hk. induction Hk as [|s k Hs Hk IH]; [by apply Forall_nil|]. cbn [map concat]. apply Forall_app. split; [by apply wf_lines|done]. }
  intros [_ H]. destruct l as [|[name opts] l]; [by apply Forall_nil|]. destruct H as [[(Hn & _ & Ho)|Hs] Hl].
  - cbn [map concat]. apply Forall_app. split; [|by apply Hall]. unfold section_lines. simpl in *. apply Forall_cons.
    split; [by rewrite Hn|]. by apply option_lines.
  - apply (Hall (mkSection name opts :: l)). by apply Forall_cons.
Qed.

Lemma parse_headless n b s l :
  headless s -> Forall wf_section l -> NoDup (map sectionName (s :: l)) ->
  exists st, parse_lines (mkP [] "" n b) (concat (map section_lines (s :: l))) = Some st /\ p_sections st = s :: l.
Proof.
  intros (Hn & Hne & Ho) Hl Hd. destruct s as [name opts]. simpl in Hn, Hne, Ho. subst name.
  destruct opts as [|[k v] opts]; [done|]. apply Forall_cons in Ho as [Ho Hos].
  cbn [map concat]. unfold section_lines at 1. cbn [sectionName options map app]. cbn [parse_lines].
  change (parse_line ?st "") with (Some st). cbn [mbind option_bind]. rewrite parse_option_line by done.
  cbn [p_sections p_current p_ifaces p_slave mbind option_bind]. rewrite set_section_new by (by apply not_elem_of_nil).
  rewrite (wf_key k v) by done. cbn [app]. rewrite parse_lines_app.
  destruct (parse_options [] "" [(k, v)] opts n (b || slave_option "" k v) Hos) as [b' Hb]. cbn [app] in Hb. rewrite Hb.
  cbn [mbind option_bind]. by apply (parse_sections [mkSection "" ((k, v) :: opts)] l).
Qed.

Lemma parse_wf n b l :
  wf_sections l -> exists st, parse_lines (mkP [] "" n b) (concat (map section_lines l)) = Some st /\ p_sections st = l.
Proof.
  intros [Hd H]. destruct l as [|s l]; [by eexists|]. destruct H as [[Hs|Hs] Hl]; [by apply parse_headless|].
  by apply (parse_sections [] (s :: l)); [apply Forall_cons|].
Qed.

Lemma profile_line st name : parse_line st ("#profile: " +:+ name)%string = Some st.
Proof.
  unfold parse_line. assert (exists t, Parser.TrimSpace ("#profile: " +:+ name)%string = String "#" t) as [t ->]; [|done].
  unfold Parser.TrimSpace. change ("#profile: " +:+ name)%string with (String "#" ("profile: " +:+ name)).
  cbn [Parser.trim_left]. change (Parser.is_space "#") with false. cbv iota. rewrite trim_right_cons.
  destruct (str_eqb _ _); [by exists EmptyString|eauto].
Qed.

(** *** What is read is well formed *)

Lemma split_on_head c s h t : split_on c s = h :: t -> all_in (without c) h /\ exists rest, s = (h +:+ rest)%string.
Proof.
  intros H. pose proof (split_on_all c s) as Ha. rewrite H in Ha. apply Forall_cons in Ha as [Ha _]. split; [done|].
  clear Ha. revert h t H. induction s as [|a s IH]; intros h t H; simpl in H.
  - simplify_eq. by exists "".
  - destruct (ascii_dec a c); [injection H as <- _; by exists (String a s)|].
    destruct (split_on c s) as [|h' t'] eqn:E; injection H as <- _; [by eexists|].
    destruct (IH h' t' eq_refl) as [rest ->]. by exists rest.
Qed.

Lemma cut_space_inv s k rest :
  cut_space s = Some (k, rest) -> all_in (without " ") k /\ s = (k +:+ rest)%string /\ exists rest', rest = String " " rest'.
Proof.
  revert k rest. induction s as [|a s IH]; intros k rest H; simpl in H; [done|].
  destruct (ascii_dec a " ") as [->|Hn]; [injection H as <- <-; split; [done|]; split; [done|by exists s]|].
  destruct (cut_space s) as [[k' r']|] eqn:E; simplify_eq/=. destruct (IH k' rest eq_refl) as (Hk & -> & Hr).
  split; [|by split; [rewrite str_app_cons|]]. split; [by apply without_spec|done].
Qed.

Lemma all_in_both s : all_in not_nl s -> all_in (without " ") s -> all_in not_nl_space s.
Proof.
  induction s as [|a s IH]; simpl; [done|]. intros [H1%without_spec H2] [H3%without_spec H4]. split; [|by apply IH].
  apply in_two_iff. split; [done|]. intros E. apply H3. by rewrite <- (ascii_N_embedding a), E.
Qed.

Lemma all_in_both_bracket s : all_in not_nl s -> all_in (without "]") s -> all_in not_nl_bracket s.
Proof.
  induction s as [|a s IH]; simpl; [done|]. intros [H1%without_spec H2] [H3%without_spec H4]. split; [|by apply IH].
  apply in_two_iff. split; [done|]. intros E. apply H3. by rewrite <- (ascii_N_embedding a), E.
Qed.

Lemma trim_nonempty s a t : trimmed s -> s = (t +:+ String " " a)%string -> Parser.TrimSpace (String " " a) <> ""%string.
Proof.
  intros [_ H]%trimmed_parts E He. unfold Parser.TrimSpace in He.
  assert (Parser.trim_right (String " " a) = "") as Hr.
  { clear -He. simpl in He. assert (forall u, Parser.trim_right (Parser.trim_left u) = "" -> Parser.trim_right u = "") as Hu; [|].
    - intros u. induction u as [|b u IH]; [done|]. simpl Parser.trim_left. destruct (Parser.is_space b) eqn:Eb; [|done].
      intros Hu. rewrite trim_right_cons, IH, Eb by done. done.
    - by apply Hu. }
  assert (Parser.trim_right s <> s) as Hs; [|done]. rewrite E. intros Hs. apply (f_equal String.length) in Hs.
  assert (String.length (Parser.trim_right (t +:+ String " " a)%string) <= String.length t)%nat as Hle; [|rewrite Hs, str_app_length in Hle; simpl in Hle; lia].
  clear -Hr. induction t as [|b t IH]; [by rewrite str_app_nil, Hr|]. rewrite str_app_cons, trim_right_cons.
  destruct (str_eqb _ _); [destruct (Parser.is_space b)|]; simpl; lia.
Qed.

Lemma wf_sections_snoc l s : wf_sections l -> wf_section s -> sectionName s ∉ map sectionName l -> wf_sections (l ++ [s]).
Proof.
  intros [Hd H] Hs Hn. split.
  - rewrite map_app. apply NoDup_app. split; [done|]. split; [|apply NoDup_singleton]. intros x Hx ->%list_elem_of_singleton. done.
  - destruct l as [|s0 l]; simpl; [split; [by right|by apply Forall_nil]|]. destruct H as [H0 Hl].
    split; [done|]. apply Forall_app. split; [done|by apply Forall_singleton].
Qed.

Lemma wf_sections_update pre s s' post :
  sectionName s' = sectionName s -> (wf_section s -> wf_section s') -> (headless s -> headless s') ->
  wf_sections (pre ++ s :: post) -> wf_sections (pre ++ s' :: post).
Proof.
  intros Hn Hw Hh [Hd H]. split; [by rewrite map_app in *; cbn [map] in *; rewrite Hn|].
  destruct pre as [|s0 pre]; simpl in *; [tauto|]. destruct H as [H0 Hl]. split; [done|].
  apply Forall_app in Hl as [H1 H2]. apply Forall_cons in H2 as [H2 H3]. apply Forall_app. split; [done|]. apply Forall_cons. tauto.
Qed.

Lemma named_section name l :
  NoDup (map sectionName l) -> name ∈ map sectionName l ->
  exists pre s post, l = pre ++ s :: post /\ sectionName s = name /\ name ∉ map sectionName post.
Proof.
  intros Hd Hin. apply list_elem_of_fmap in Hin as (s & Hs & Hin). apply list_elem_of_split in Hin as (pre & post & ->).
  exists pre, s, post. split; [done|]. split; [done|]. rewrite map_app in Hd. apply NoDup_app in Hd as (_ & _ & Hd).
  apply NoDup_cons in Hd as [Hd _]. by rewrite Hs.
Qed.

Lemma set_option_wf k v s : wf_option (k, v) -> wf_section s -> wf_section (s <| options := set_option k v false (options s) |>).
Proof. intros Ho [Hn Hs]. split; [done|]. simpl. apply Forall_app. split; [done|by apply Forall_singleton]. Qed.

Lemma set_option_headless k v s : wf_option (k, v) -> headless s -> headless (s <| options := set_option k v false (options s) |>).
Proof.
  intros Ho (Hn & Hne & Hs). unfold headless, set_option. simpl. split; [done|]. split; [by destruct (options s)|].
  apply Forall_app. split; [done|by apply Forall_singleton].
Qed.

(** Where the options go: the current section exists, unless no section was seen. *)
Definition parsing (st : pstate) : Prop :=
  wf_sections (p_sections st) /\
  (p_current st = ""%string /\ p_sections st = [] \/ p_current st ∈ map sectionName (p_sections st)).

Lemma set_name_wf name st n b :
  wf_name name -> parsing st -> parsing (mkP (set_section name "" "" false (p_sections st)) name n b).
Proof.
  intros Hn [Hw _]. destruct (decide (name ∈ map sectionName (p_sections st))) as [Hin|Hin].
  - destruct (named_section name (p_sections st)) as (pre & s & post & E & Hs & Hp); [apply Hw|done|].
    unfold parsing. cbn [p_sections p_current]. rewrite E, set_section_old by done. change (str_eqb "" "") with true. cbv iota. rewrite <- E. by split; [|right].
  - unfold parsing. cbn [p_sections p_current]. rewrite set_section_new by done. split.
    + apply wf_sections_snoc; [done| |done]. split; [done|by apply Forall_nil].
    + right. rewrite map_app. apply elem_of_app. right. by left.
Qed.

Lemma set_key_wf k v st n b :
  wf_option (k, v) -> parsing st -> parsing (mkP (set_section (p_current st) k v false (p_sections st)) (p_current st) n b).
Proof.
  intros Ho [Hw [[Hc Hs]|Hin]]; unfold parsing; cbn [p_sections p_current].
  - rewrite Hc, Hs, set_section_new by apply not_elem_of_nil. rewrite (wf_key k v) by done. split; [|right; by left].
    split; [apply NoDup_singleton|]. split; [|by apply Forall_nil]. left. split; [done|]. split; [done|by apply Forall_singleton].
  - destruct (named_section (p_current st) (p_sections st)) as (pre & s & post & E & Hs & Hp); [apply Hw|done|].
    rewrite E in Hw |- *. rewrite set_section_old, (wf_key k v) by done. split.
    + eapply wf_sections_update; [..|exact Hw]; [done|by apply set_option_wf|by apply set_option_headless].
    + right. rewrite map_app. cbn [map sectionName]. apply elem_of_app. right. apply elem_of_cons. left. by rewrite <- Hs.
Qed.

Lemma trimmed_start s a t : trimmed s -> s = String a t -> Parser.is_space a = false.
Proof.
  intros [H _]%trimmed_parts ->. simpl in H. destruct (Parser.is_space a) eqn:E; [|done].
  destruct (trim_left_suffix t) as [w Hw]. apply (f_equal String.length) in Hw, H. rewrite str_app_length in Hw. simpl in H. lia.
Qed.

Lemma bracket_line_wf line head next rest :
  all_in not_nl line -> starts_with "[" line = true -> split_on "]" line = head :: next :: rest -> wf_name (head +:+ "]").
Proof.
  intros Hl Hs Hsp. destruct line as [|a line]; [done|]. apply bool_decide_eq_true in Hs. subst a.
  pose proof Hsp as [Hh [r Hr]]%split_on_head. rewrite Hr in Hl. apply all_in_app in Hl as [Hl _].
  destruct head as [|a head].
  { exfalso. simpl in Hsp. by destruct (split_on "]" line). }
  rewrite str_app_cons in Hr. injection Hr as <- _. destruct Hl as [_ Hl]. destruct Hh as [_ Hh].
  exists head. split; [by unfold bracket; rewrite !str_app_cons, str_app_nil|]. by apply all_in_both_bracket.
Qed.

Lemma option_line_wf line key rest :
  trimmed line -> all_in not_nl line -> starts_with "#" line = false -> starts_with "[" line = false ->
  cut_space line = Some (key, rest) -> str_eqb key "" = false -> wf_option (key, Parser.TrimSpace rest).
Proof.
  intros Ht Hl Hh Hb Hc Hk. apply cut_space_inv in Hc as (Hs & E & [r ->]). subst line.
  pose proof Hl as [Hlk Hlr]%all_in_app. unfold wf_option. cbn [fst snd]. split; [|split; [by apply all_in_both|]].
  - destruct key as [|a key]; [done|]. rewrite str_app_cons in Ht, Hh, Hb. split; [by eapply trimmed_start|].
    apply bool_decide_eq_false in Hh, Hb. done.
  - split; [by eapply trim_nonempty|]. split; [apply trimmed_TrimSpace|by apply all_in_TrimSpace].
Qed.

Lemma parse_line_parsing st line st' : all_in not_nl line -> parsing st -> parse_line st line = Some st' -> parsing st'.
Proof.
  intros Hl Hp. unfold parse_line. apply all_in_TrimSpace in Hl. pose proof (trimmed_TrimSpace line) as Ht.
  destruct (str_eqb (Parser.TrimSpace line) "" || starts_with "#" (Parser.TrimSpace line)) eqn:E1; [by intros [= <-]|].
  apply orb_false_iff in E1 as [_ E1]. destruct (starts_with "[" (Parser.TrimSpace line)) eqn:E2.
  - destruct (split_on "]" (Parser.TrimSpace line)) as [|head [|next rest]] eqn:E3; [done|done|].
    intros [= <-]. apply set_name_wf; [|done]. by eapply bracket_line_wf.
  - destruct (cut_space (Parser.TrimSpace line)) as [[key rest]|] eqn:E3; [|by intros [= <-]].
    destruct (str_eqb key "") eqn:E4; [by intros [= <-]|]. intros [= <-]. apply set_key_wf; [|done]. by eapply option_line_wf.
Qed.

Lemma parse_lines_parsing lines st st' : Forall (all_in not_nl) lines -> parsing st -> parse_lines st lines = Some st' -> parsing st'.
Proof.
  intros H. revert st. induction H as [|x lines Hx H IH]; intros st Hp; simpl; [by intros [= <-]|].
  destruct (parse_line st x) as [st1|] eqn:E; [|done]. simpl. apply IH. by eapply parse_line_parsing.
Qed.

Lemma populated_parsing config cliArgs conf conf' :
  PopulatePtp4lConf config cliArgs conf = Some conf' -> exists st, parsing st /\ sections conf' = p_sections st.
Proof.
  unfold PopulatePtp4lConf. destruct (parse_lines _ _) as [st|] eqn:E; [|done]. intros [= <-]. exists st. split; [|done].
  apply parse_lines_parsing in E; [exact E| |].
  - destruct config; [apply split_on_all|by apply Forall_nil].
  - split; [split; [apply NoDup_nil; done|done]|by left].
Qed.

(** C33. What the parser accepts is well formed, whatever the text: section names in
    brackets and distinct, options with a key of one word and a trimmed value that is not
    empty, and only options before the first section in a section without a name. *)
Theorem parsed_wf config cliArgs conf conf' :
  PopulatePtp4lConf config cliArgs conf = Some conf' -> wf_sections (sections conf').
Proof. intros H. apply populated_parsing in H as (st & [Hw _] & ->). exact Hw. Qed.

(** C5. What the daemon writes for a program is what it read: the text of any
    well-formed configuration (sections of distinct names whatever their options, and
    options before the first section) is parsed back into the same sections with the same
    options in the same order. *)
Theorem render_parse_roundtrip conf cliArgs c0 :
  wf_sections (sections conf) -> all_in not_nl (profile_name conf) ->
  exists conf', PopulatePtp4lConf (Some (render conf (sections conf))) cliArgs c0 = Some conf' /\ sections conf' = sections conf.
Proof.
  intros Hw Hp. unfold PopulatePtp4lConf. rewrite render_lines, split_lines.
  2: { apply all_in_app. split; [|done]. vm_compute. tauto. }
  2: { apply Forall_cons. split; [done|]. by apply wf_sections_lines. }
  cbn [parse_lines]. rewrite profile_line. cbn [mbind option_bind]. change (parse_line ?st "") with (Some st). cbn [mbind option_bind].
  destruct (parse_wf 0 (cli_slave cliArgs) (sections conf) Hw) as (st & -> & Hst).
  cbn [mbind option_bind]. eexists. split; [reflexivity|]. exact Hst.
Qed.

Definition sample_text : string :=
  join newline ["# a comment"; "verbosity 1"; "[global]"; "  slaveOnly   1  "; "message_tag [ptp4l.0.config]"; ""; "[ens1f0]"; "masterOnly 0";
    "[ens1f1]"; "masterOnly 1"; "[ens1f0]"; "delay_mechanism E2E"].

Definition sample_conf : Ptp4lConf := default empty_conf (PopulatePtp4lConf (Some sample_text) None empty_conf).

Lemma parsed_wf_witness :
  PopulatePtp4lConf (Some sample_text) None empty_conf = Some sample_conf /\ wf_sections (sections sample_conf).
Proof.
  assert (PopulatePtp4lConf (Some sample_text) None empty_conf = Some sample_conf) as H by (vm_compute; reflexivity).
  split; [exact H|]. exact (parsed_wf _ _ _ _ H).
Defined.

Lemma sample_wf : wf_sections (sections sample_conf).
Proof.
  assert (PopulatePtp4lConf (Some sample_text) None empty_conf = Some sample_conf) as E by (vm_compute; reflexivity).
  apply populated_parsing in E as (st & [Hw _] & ->). exact Hw.
Qed.

Lemma render_parse_roundtrip_witness :
  exists conf', PopulatePtp4lConf (Some (render sample_conf (sections sample_conf))) None empty_conf = Some conf'
    /\ sections conf' = sections sample_conf.
Proof. apply render_parse_roundtrip; [exact sample_wf|vm_compute; exact I]. Defined.

Example sample_sections :
  (map (fun s => (sectionName s, options s)) (sections sample_conf), clock_type sample_conf)
  = ([("", [("verbosity", "1")]);
      ("[global]", [("slaveOnly", "1"); ("message_tag", "[ptp4l.0.config]")]);
      ("[ens1f0]", [("masterOnly", "0"); ("delay_mechanism", "E2E")]);
      ("[ens1f1]", [("masterOnly", "1")])], BC_type).
Proof. vm_compute. reflexivity. Qed.

(** ** Findings *)

Definition conf_of (lines : list string) : Ptp4lConf := default empty_conf (PopulatePtp4lConf (Some (join newline lines)) None empty_conf).

(** An option separated from its value by a tab is dropped without a word. *)
Lemma tab_separated_option_lost :
  sections (conf_of ["[global]"; "slaveOnly" +:+ String (ascii_of_nat 9) "1"]%string) = [mkSection "[global]" []].
Proof. vm_compute. reflexivity. Qed.

(** The ports of a SyncE device stay with the devices after it. *)
Lemma ports_kept_for_next_device :
  map (fun d => (Synce.scName d, Synce.scIfaces d)) (extractSynceRelations (conf_of ["[<dev1>]"; "[eth0]"; "[<dev2>]"; "[eth1]"]))
  = [("dev1", ["eth0"]); ("dev2", ["eth0"; "eth1"])].
Proof. vm_compute. reflexivity. Qed.

(** A network option that is not a number is taken as 0, not as the default 1. *)
Lemma bad_network_option_is_zero :
  map Synce.scNetworkOption (extractSynceRelations (conf_of ["[<dev1>]"; "network_option two"])) = [0].
Proof. vm_compute. reflexivity. Qed.

(** A device whose section names its own identifier shifts the identifiers of the
    devices after it: the second device is given the first one's. *)
Lemma clock_id_of_another_device :
  option_map (fun r => map (fun s => find_option "clock_id" (options s)) (sections r.2))
    (RenderSyncE4lConf [("clockId[eth0]", "7")] (conf_of ["[<dev1>]"; "clock_id 5"; "[eth0]"; "[<dev2>]"; "[eth1]"]))
  = Some [Some "5"; None; Some "7"; None].
Proof. vm_compute. reflexivity. Qed.

End Conf.
