(* ===== verification/PtpConfig.v ===== *)
(** * The profiles of a node

    The types of the PtpConfig resource (package api/v1 of ptp-operator) that the daemon
    is configured with.  A pointer field is an [option]; a map that may be nil is one as
    well, since writing to it panics.  The options of a plugin are the raw text. *)

From S2P Require Import Prelude.

Module PtpConfig.

(** [PtpClockThreshold] of the resource. *)
Record ApiThreshold := mkApiThreshold {
  atHoldOverTimeout : Z;
  atMaxOffsetThreshold : Z;
  atMinOffsetThreshold : Z;
  atSysOffsetInSyncThreshold : option Z;
  atSysOffsetOutOfSyncThreshold : option Z;
  atSysOffsetSamples : option Z
}.

Record PtpProfile := mkProfile {
  Name : option string;
  Interface : option string;
  Ptp4lOpts : option string;
  Phc2sysOpts : option string;
  Ts2PhcOpts : option string;
  Synce4lOpts : option string;
  ChronydOpts : option string;
  Ptp4lConf : option string;
  Phc2sysConf : option string;
  Ts2PhcConf : option string;
  Synce4lConf : option string;
  ChronydConf : option string;
  PtpSchedulingPolicy : option string;
  PtpSchedulingPriority : option Z;
  PtpClockThreshold : option ApiThreshold;
  PtpSettings : option (gmap string string);
  Plugins : option (gmap string (option string))
}.

#[export] Instance PtpProfile_fields : Fields PtpProfile := fun p =>
  mkProfile (Name p) (Interface p) (Ptp4lOpts p) (Phc2sysOpts p) (Ts2PhcOpts p) (Synce4lOpts p) (ChronydOpts p)
    (Ptp4lConf p) (Phc2sysConf p) (Ts2PhcConf p) (Synce4lConf p) (ChronydConf p)
    (PtpSchedulingPolicy p) (PtpSchedulingPriority p) (PtpClockThreshold p) (PtpSettings p) (Plugins p).

(** Reading from a nil map gives the zero value. *)
Definition setting (key : string) (p : PtpProfile) : option string := m ← PtpSettings p; m !! key.

Definition setting_or_empty (key : string) (p : PtpProfile) : string := default "" (setting key p).

Definition no_profile : PtpProfile :=
  mkProfile None None None None None None None None None None None None None None None None None.

End PtpConfig.
