(* ===== verification/Resolver.v ===== *)
(** * pkg/network: the names of interfaces

    pkg/network/resolve.go: since RHEL 10 the kernel may append npN to the name of a
    port, so a configured name that does not exist is looked up with that suffix.  The
    known interfaces are a Go map that is only ranged over: they are the list of its keys
    in the order in which they are seen.  Package encoding/json decodes the options of
    plugins; its two functions are arguments. *)

From S2P Require Import Prelude Strconv Event Regex Parser Conf PtpConfig.
From Stdlib Require Import Ascii Sorted.
From stdpp Require Import sorting.

#[local] Open Scope Z_scope.

Module Resolver.

Import Regex PtpConfig.

Record InterfaceResolver := mkResolver { knownInterfaces : list string; remapCache : gmap string string }.

#[export] Instance InterfaceResolver_fields : Fields InterfaceResolver := fun r =>
  mkResolver (knownInterfaces r) (remapCache r).

Definition NewInterfaceResolverWithInterfaces (interfaces : list string) : InterfaceResolver := mkResolver interfaces ∅.

(** [Refresh]; [entries] is what /sys/class/net holds, [None] the error of reading it. *)
Definition Refresh (entries : option (list string)) (r : InterfaceResolver) : bool * InterfaceResolver :=
  match entries with Some l => (true, mkResolver l ∅) | None => (false, r) end.

(** What follows the last "np": [iface[strings.LastIndex(iface, "np")+2:]]. *)
Fixpoint after_last (sub s : string) : option string :=
  match s with
  | EmptyString => None
  | String _ s' => match after_last sub s' with Some r => Some r | None => drop_prefix sub s end
  end.

Definition npSuffix (iface : string) : Z :=
  match after_last "np" iface with
  | Some rest => default (-1) (Parser.Atoi rest)
  | None => -1
  end.

(** [regexp.QuoteMeta(s)] as an expression: it matches exactly the text. *)
Fixpoint literal (s : string) (k : regex) : regex :=
  match s with EmptyString => k | String a s' => RCat (lit a) (literal s' k) end.

Definition digit : cset := mkSet false digit_set.

Definition npPattern (configuredName : string) : Regexp :=
  mkRegexp (RCat RBegin (literal configuredName (literal "np" (RCat (RPlus true (RSet digit)) REnd)))) [""%string].

Definition candidates (configuredName : string) (known : list string) : list string :=
  List.filter (MatchString (npPattern configuredName)) known.

(** The first after sorting by the number of the suffix. *)
Definition suffix_le (a b : string) : Prop := (npSuffix a <= npSuffix b)%Z.
#[export] Instance suffix_le_dec a b : Decision (suffix_le a b) := Z.le_dec (npSuffix a) (npSuffix b).

Definition lowest (l : list string) : option string := head (merge_sort suffix_le l).

Definition remember (name resolved : string) (r : InterfaceResolver) : InterfaceResolver :=
  r <| remapCache := <[name := resolved]> (remapCache r) |>.

(** [Resolve]: the name, whether it differs, and the resolver with its cache. *)
Definition Resolve (configuredName : string) (r : InterfaceResolver) : string * bool * InterfaceResolver :=
  if str_eqb configuredName "" then (configuredName, false, r)
  else
    match remapCache r !! configuredName with
    | Some cached => (cached, negb (str_eqb cached configuredName), r)
    | None =>
        if existsb (str_eqb configuredName) (knownInterfaces r)
        then (configuredName, false, remember configuredName configuredName r)
        else
          match lowest (candidates configuredName (knownInterfaces r)) with
          | Some resolved => (resolved, true, remember configuredName resolved r)
          | None => (configuredName, false, remember configuredName configuredName r)
          end
    end.

(** ** Options of the programs *)

Definition has_prefix (p s : string) : bool := match drop_prefix p s with Some _ => true | None => false end.

(** [strings.Cut(s, "=")]. *)
Fixpoint cut_equals (s : string) : option (string * string) :=
  match s with
  | EmptyString => None
  | String a s' => if ascii_dec a "=" then Some (EmptyString, s') else r ← cut_equals s'; Some (String a r.1, r.2)
  end.

Definition isNonInterfaceProcessArg (fieldName flag value : string) : bool :=
  has_prefix "/" value
  || (str_eqb fieldName "Phc2sysOpts" && has_prefix "CLOCK_" value)
  || (str_eqb fieldName "Ts2PhcOpts" && (str_eqb flag "-s" || str_eqb flag "--ts2phc.tod_source")
      && (str_eqb value "generic" || str_eqb value "nmea")).

Definition mem (x : string) (l : list string) : bool := existsb (str_eqb x) l.

(** A flag with its value in one argument; [None] when [arg] is none such. *)
Definition inline_arg (fieldName : string) (flags : list string) (arg : string) (r : InterfaceResolver) : option (string * bool * InterfaceResolver) :=
  match cut_equals arg with
  | Some (flag, value) =>
      if has_prefix "--" flag && mem flag flags then
        if isNonInterfaceProcessArg fieldName flag value then Some (arg, false, r)
        else
          let '(resolved, remapped, r) := Resolve value r in
          Some (if remapped then ((flag +:+ "=" +:+ resolved)%string, true, r) else (arg, false, r))
      else None
  | None => None
  end.

(** The loop of [resolveProcessOpts] from the argument [arg] on: the value of a flag is
    looked at as an argument itself afterwards. *)
Fixpoint resolve_args (fieldName : string) (flags : list string) (arg : string) (rest : list string) (r : InterfaceResolver) :
    list string * bool * InterfaceResolver :=
  match inline_arg fieldName flags arg r with
  | Some (arg, changed, r) =>
      match rest with
      | [] => ([arg], changed, r)
      | next :: rest' =>
          let '(l, changed', r) := resolve_args fieldName flags next rest' r in (arg :: l, changed || changed', r)
      end
  | None =>
      match rest with
      | [] => ([arg], false, r)
      | value :: rest' =>
          let '(value, changed, r) :=
            if mem arg flags && negb (isNonInterfaceProcessArg fieldName arg value)
            then let '(resolved, remapped, r) := Resolve value r in (if remapped then resolved else value, remapped, r)
            else (value, false, r) in
          let '(l, changed', r) := resolve_args fieldName flags value rest' r in (arg :: l, changed || changed', r)
      end
  end.

Definition resolveProcessOpts (opts fieldName : string) (flags : list string) (r : InterfaceResolver) : string * InterfaceResolver :=
  match Conf.Fields opts with
  | [] => (opts, r)
  | arg :: rest =>
      let '(args, changed, r) := resolve_args fieldName flags arg rest r in
      ((if changed then Prelude.join " " args else opts), r)
  end.

(** ** Settings *)

Definition dpllKeyRegex : Regexp := Eval vm_compute in Parser.pattern "^dpll\.(.+)\.(ignore|flags)$".
Definition clockIDKeyRegex : Regexp := Eval vm_compute in Parser.pattern "^(clockId|clockIdFormat)\[(.+)\]$".

(** The key under the resolved name; [None] is the empty result. *)
Definition resolveDpllKey (key : string) (r : InterfaceResolver) : option string * InterfaceResolver :=
  match FindStringSubmatch dpllKeyRegex key with
  | Some [_; iface; what] =>
      let '(resolved, remapped, r) := Resolve iface r in
      ((if remapped then Some ("dpll." +:+ resolved +:+ "." +:+ what)%string else None), r)
  | _ => (None, r)
  end.

Definition resolveClockIDKey (key : string) (r : InterfaceResolver) : option string * InterfaceResolver :=
  match FindStringSubmatch clockIDKeyRegex key with
  | Some [_; what; iface] =>
      let '(resolved, remapped, r) := Resolve iface r in
      ((if remapped then Some (what +:+ "[" +:+ resolved +:+ "]")%string else None), r)
  | _ => (None, r)
  end.

Definition resolve_key (key : string) (r : InterfaceResolver) : option string * InterfaceResolver :=
  match resolveDpllKey key r with
  | (Some k, r) => (Some k, r)
  | (None, r) => resolveClockIDKey key r
  end.

Fixpoint key_renames (keys : list string) (r : InterfaceResolver) : list (string * string) * InterfaceResolver :=
  match keys with
  | [] => ([], r)
  | key :: keys' =>
      let '(k, r) := resolve_key key r in
      let '(l, r) := key_renames keys' r in
      (match k with Some k => (key, k) :: l | None => l end, r)
  end.

(** The loop over [renames]: a key that exists is kept. *)
Definition rename {A} (m : gmap string A) (o : string * string) : gmap string A :=
  match m !! o.2 with
  | Some _ => m
  | None => match m !! o.1 with Some v => delete o.1 (<[o.2 := v]> m) | None => m end
  end.

(** The ports of a list separated by commas. *)
Fixpoint resolve_ports (ports : list string) (r : InterfaceResolver) : list string * bool * InterfaceResolver :=
  match ports with
  | [] => ([], false, r)
  | port :: ports' =>
      let '(resolved, remapped, r) := Resolve (Parser.TrimSpace port) r in
      let '(l, changed, r) := resolve_ports ports' r in
      ((if remapped then resolved else port) :: l, remapped || changed, r)
  end.

Definition resolve_port_list (val : string) (r : InterfaceResolver) : string * bool * InterfaceResolver :=
  let '(ports, changed, r) := resolve_ports (Conf.split_on "," val) r in
  ((if changed then Prelude.join "," ports else val), changed, r).

(** The value of a setting that is present and not empty. *)
Definition on_setting (key : string) (f : string -> InterfaceResolver -> string * InterfaceResolver)
    (settings : gmap string string) (r : InterfaceResolver) : gmap string string * InterfaceResolver :=
  match settings !! key with
  | Some val => if str_eqb val "" then (settings, r) else let '(v, r) := f val r in (<[key := v]> settings, r)
  | None => (settings, r)
  end.

Definition resolve_value (val : string) (r : InterfaceResolver) : string * InterfaceResolver :=
  let '(resolved, remapped, r) := Resolve val r in (if remapped then resolved else val, r).

Definition resolvePtpSettings (settings : gmap string string) (r : InterfaceResolver) : gmap string string * InterfaceResolver :=
  let '(settings, r) := on_setting "leadingInterface" resolve_value settings r in
  let '(settings, r) := on_setting "upstreamPort" (fun val r => let '(v, _, r) := resolve_port_list val r in (v, r)) settings r in
  let '(renames, r) := key_renames (map_to_list settings).*1 r in
  (foldl rename settings renames, r).

(** ** Plugins *)

(** A decoded value; what is neither is kept as it is. *)
Inductive json :=
| JString (s : string)
| JArray (l : list json)
| JObject (m : list (string * json))
| JOther (raw : string).

Definition field (key : string) (m : list (string * json)) : option json :=
  option_map snd (first_match (fun p => str_eqb p.1 key) m).

(** The assignment to an entry that exists. *)
Definition set_field (key : string) (v : json) (m : list (string * json)) : list (string * json) :=
  map (fun p => if str_eqb p.1 key then (key, v) else p) m.

(** The loops thread whether anything changed. *)
Abbreviation St := (bool * InterfaceResolver)%type.

Fixpoint map_st {A} (f : A -> St -> A * St) (l : list A) (s : St) : list A * St :=
  match l with
  | [] => ([], s)
  | x :: l' => let '(x, s) := f x s in let '(l', s) := map_st f l' s in (x :: l', s)
  end.

Definition resolve_device (d : json) (s : St) : json * St :=
  match d with
  | JString name => let '(resolved, remapped, r) := Resolve name s.2 in (if remapped then JString resolved else d, (s.1 || remapped, r))
  | _ => (d, s)
  end.

Definition resolve_devices (m : list (string * json)) (s : St) : list (string * json) * St :=
  match field "devices" m with
  | Some (JArray l) => let '(l, s) := map_st resolve_device l s in (set_field "devices" (JArray l) m, s)
  | _ => (m, s)
  end.

Fixpoint device_renames (names : list string) (s : St) : list (string * string) * St :=
  match names with
  | [] => ([], s)
  | name :: names' =>
      let '(resolved, remapped, r) := Resolve name s.2 in
      let '(l, s) := device_renames names' (s.1 || remapped, r) in
      ((if remapped then (name, resolved) :: l else l), s)
  end.

Definition rename_field (m : list (string * json)) (o : string * string) : list (string * json) :=
  match field o.2 m with
  | Some _ => m
  | None => map (fun p => if str_eqb p.1 o.1 then (o.2, p.2) else p) m
  end.

Definition resolve_map_keys (m : list (string * json)) (mapKey : string) (s : St) : list (string * json) * St :=
  match field mapKey m with
  | Some (JObject inner) =>
      let '(renames, s) := device_renames inner.*1 s in
      (set_field mapKey (JObject (foldl rename_field inner renames)) m, s)
  | _ => (m, s)
  end.

Definition resolve_interconnection (ic : json) (s : St) : json * St :=
  match ic with
  | JObject elem =>
      let '(elem, s) :=
        match field "id" elem with
        | Some (JString id) =>
            if str_eqb id "" then (elem, s)
            else let '(resolved, remapped, r) := Resolve id s.2 in
                 (if remapped then set_field "id" (JString resolved) elem else elem, (s.1 || remapped, r))
        | _ => (elem, s)
        end in
      match field "upstreamPort" elem with
      | Some (JString val) =>
          if str_eqb val "" then (JObject elem, s)
          else let '(v, changed, r) := resolve_port_list val s.2 in
               (JObject (if changed then set_field "upstreamPort" (JString v) elem else elem), (s.1 || changed, r))
      | _ => (JObject elem, s)
      end
  | _ => (ic, s)
  end.

Definition resolve_interconnections (m : list (string * json)) (s : St) : list (string * json) * St :=
  match field "interconnections" m with
  | Some (JArray l) => let '(l, s) := map_st resolve_interconnection l s in (set_field "interconnections" (JArray l) m, s)
  | _ => (m, s)
  end.

(** What the options of one plugin become. *)
Definition resolve_options (m : list (string * json)) (r : InterfaceResolver) : list (string * json) * St :=
  let '(m, s) := resolve_devices m (false, r) in
  let '(m, s) := resolve_map_keys m "pins" s in
  let '(m, s) := resolve_map_keys m "frequencies" s in
  let '(m, s) := resolve_map_keys m "phaseOffsetPins" s in
  resolve_interconnections m s.

(** [Unmarshal] and [Marshal] of package encoding/json. *)
Section profile.
Context (Unmarshal : string -> option (list (string * json))) (Marshal : list (string * json) -> option string).

Definition resolve_plugin (opts : option string) (r : InterfaceResolver) : option string * InterfaceResolver :=
  match opts with
  | None => (None, r)
  | Some raw =>
      match Unmarshal raw with
      | None => (Some raw, r)
      | Some m =>
          let '(m, (changed, r)) := resolve_options m r in
          ((if changed then Some (default raw (Marshal m)) else Some raw), r)
      end
  end.

Fixpoint resolve_plugins (l : list (string * option string)) (r : InterfaceResolver) : list (string * option string) * InterfaceResolver :=
  match l with
  | [] => ([], r)
  | (name, opts) :: l' =>
      let '(opts, r) := resolve_plugin opts r in
      let '(l', r) := resolve_plugins l' r in ((name, opts) :: l', r)
  end.

Definition resolvePluginDevices (plugins : option (gmap string (option string))) (r : InterfaceResolver) :
    option (gmap string (option string)) * InterfaceResolver :=
  match plugins with
  | None => (None, r)
  | Some m => let '(l, r) := resolve_plugins (map_to_list m) r in (Some (list_to_map l), r)
  end.

Definition on_opts (fieldName : string) (flags : list string) (opts : option string) (r : InterfaceResolver) : option string * InterfaceResolver :=
  match opts with
  | None => (None, r)
  | Some o => let '(o, r) := resolveProcessOpts o fieldName flags r in (Some o, r)
  end.

Definition ResolveProfileInterfaces (profile : PtpProfile) (r : InterfaceResolver) : PtpProfile * InterfaceResolver :=
  let '(iface, r) :=
    match Interface profile with
    | Some i => if str_eqb i "" then (Some i, r) else let '(i, r) := resolve_value i r in (Some i, r)
    | None => (None, r)
    end in
  let '(phc2sys, r) := on_opts "Phc2sysOpts" ["-s"; "-i"; "-c"] (Phc2sysOpts profile) r in
  let '(ptp4l, r) := on_opts "Ptp4lOpts" ["-i"] (Ptp4lOpts profile) r in
  let '(ts2phc, r) := on_opts "Ts2PhcOpts" ["-s"; "-c"; "--ts2phc.tod_source"] (Ts2PhcOpts profile) r in
  let '(settings, r) :=
    match PtpSettings profile with
    | Some m => let '(m, r) := resolvePtpSettings m r in (Some m, r)
    | None => (None, r)
    end in
  let '(plugins, r) := resolvePluginDevices (Plugins profile) r in
  (profile <| Interface := iface |> <| Phc2sysOpts := phc2sys |> <| Ptp4lOpts := ptp4l |> <| Ts2PhcOpts := ts2phc |>
     <| PtpSettings := settings |> <| Plugins := plugins |>, r).
End profile.

(** * Properties *)

(** ** The pattern of a suffixed name *)

Lemma path_literal s k pos rest caps y :
  path k (mkM (pos + String.length s) rest caps) y -> path (literal s k) (mkM pos (s +:+ rest)%string caps) y.
Proof.
  revert pos. induction s as [|a s IH]; intros pos H; simpl in *; [by rewrite Nat.add_0_r in H|].
  eapply PCat; [apply PSet|apply IH; by replace (S pos + String.length s)%nat with (pos + S (String.length s))%nat by lia].
  unfold in_set. cbn [negated ranges existsb char_set]. by rewrite !N.leb_refl.
Qed.

Lemma path_literal_inv s k x y :
  path (literal s k) x y -> exists rest, m_rest x = (s +:+ rest)%string /\ path k (mkM (m_pos x + String.length s) rest (m_caps x)) y.
Proof.
  revert x. induction s as [|a s IH]; intros x H; simpl in *.
  - exists (m_rest x). rewrite Nat.add_0_r. split; [done|]. by destruct x.
  - apply path_cat_inv in H as (z & (b & Hr & Hb & Hp & Hc)%path_set_inv & H). apply in_single in Hb as ->.
    apply IH in H as (rest & Hz & H). exists rest. rewrite Hr, Hz. split; [done|].
    rewrite Hp, Hc in H. by replace (m_pos x + S (String.length s))%nat with (S (m_pos x) + String.length s)%nat by lia.
Qed.

(** The names [npPattern] matches. *)
Definition suffixed (name d : string) : string := (name +:+ "np" +:+ d)%string.
Definition number (d : string) : Prop := all_in digit d /\ d <> ""%string.

Lemma npPattern_matches name s : MatchString (npPattern name) s = true <-> exists d, s = suffixed name d /\ number d.
Proof.
  rewrite MatchString_path. cbn [npPattern re_expr]. split.
  - intros (n & y & _ & (x1 & [-> H0]%path_begin_inv & H)%path_cat_inv). simpl in H0. subst n. cbn [str_drop] in H.
    apply path_literal_inv in H as (r1 & Hs & H). apply path_literal_inv in H as (r2 & Hs' & H). cbn [m_rest m_pos m_caps] in *.
    apply path_cat_inv in H as (z & (w & Hw & Hd & Hne & Hp & _)%path_plus_inv & [-> He]%path_end_inv). cbn [m_rest] in *.
    exists w. rewrite He, str_app_empty in Hw. subst. done.
  - intros (d & -> & Hd & Hne). eexists 0%nat, _. split; [lia|]. cbn [str_drop]. eapply PCat; [apply PBegin|].
    apply path_literal, path_literal. eapply PCat; [|apply PEnd].
    rewrite <- (str_app_empty d) at 1. by apply path_plus_run.
Qed.

Lemma after_last_digits d : all_in digit d -> after_last "np" d = None.
Proof.
  induction d as [|a d IH]; [done|]. intros [Ha Hd]. cbn [after_last]. rewrite IH by done.
  cbn [drop_prefix]. destruct (ascii_dec a "n") as [->|]; [by vm_compute in Ha|]. by case_match.
Qed.

Lemma after_last_suffixed name d : all_in digit d -> after_last "np" (suffixed name d) = Some d.
Proof.
  intros Hd. unfold suffixed. induction name as [|a name IH]; [|rewrite str_app_cons; cbn [after_last]; by rewrite IH].
  change (after_last "np" (String "n" (String "p" d)) = Some d). cbn [after_last]. by rewrite after_last_digits.
Qed.

(** The number of a suffix as the code reads it: -1 when it does not fit an [int]. *)
Lemma npSuffix_suffixed name d : all_in digit d -> npSuffix (suffixed name d) = default (-1) (Parser.Atoi d).
Proof. intros H. unfold npSuffix. by rewrite after_last_suffixed. Qed.

(** ** Resolution *)

Definition resolution (known : list string) (name : string) : string :=
  if str_eqb name "" || existsb (str_eqb name) known then name else default name (lowest (candidates name known)).

Lemma lowest_spec l x : lowest l = Some x -> x ∈ l /\ forall y, y ∈ l -> npSuffix x <= npSuffix y.
Proof.
  unfold lowest. intros H. destruct (merge_sort suffix_le l) as [|z l'] eqn:E; [done|]. injection H as ->.
  assert (merge_sort suffix_le l ≡ₚ l) as Hp by apply merge_sort_Permutation. rewrite E in Hp.
  split; [rewrite <- Hp; by left|]. intros y Hy. rewrite <- Hp in Hy. apply elem_of_cons in Hy as [->|Hy]; [lia|].
  assert (Sorted suffix_le (merge_sort suffix_le l)) as Hs by (apply Sorted_merge_sort; intros a b; unfold suffix_le; lia).
  apply Sorted_StronglySorted in Hs; [|intros a b c; unfold suffix_le; lia]. rewrite E in Hs.
  inversion_clear Hs as [|? ? _ Hf]. rewrite Forall_forall in Hf. by apply Hf.
Qed.

Lemma lowest_None l : lowest l = None -> l = [].
Proof.
  unfold lowest. intros H. destruct (merge_sort suffix_le l) eqn:E; [|done].
  apply Permutation_nil. rewrite <- E. apply merge_sort_Permutation.
Qed.

Lemma elem_of_candidates name known s : s ∈ candidates name known <-> s ∈ known /\ exists d, s = suffixed name d /\ number d.
Proof. unfold candidates. by rewrite list_elem_of_In, filter_In, npPattern_matches, list_elem_of_In. Qed.

Lemma suffixed_neq name d : suffixed name d <> name.
Proof. intros H. apply (f_equal String.length) in H. unfold suffixed in H. rewrite !str_app_length in H. simpl in H. lia. Qed.

Lemma mem_spec x l : existsb (str_eqb x) l = true <-> x ∈ l.
Proof.
  rewrite existsb_exists. split; [intros (y & Hy & ->%str_eqb_eq); by apply list_elem_of_In|].
  intros H. exists x. split; [by apply list_elem_of_In|apply str_eqb_refl].
Qed.

(** The cache holds answers. *)
Definition cache_ok (r : InterfaceResolver) : Prop :=
  forall k v, remapCache r !! k = Some v -> v = resolution (knownInterfaces r) k.

Lemma Resolve_resolution name r :
  cache_ok r ->
  let x := resolution (knownInterfaces r) name in
  exists r', Resolve name r = (x, negb (str_eqb x name), r') /\ knownInterfaces r' = knownInterfaces r /\ cache_ok r'.
Proof.
  intros Hc x. unfold Resolve. destruct (str_eqb name "") eqn:E0.
  { exists r. subst x. unfold resolution. rewrite E0. by rewrite str_eqb_refl. }
  assert (forall v, v = resolution (knownInterfaces r) name -> cache_ok (remember name v r)) as Hr.
  { intros v Hv k w Hk. unfold remember in *. simpl in *. apply lookup_insert_Some in Hk as [[<- <-]|[_ Hk]]; [done|by apply Hc]. }
  destruct (remapCache r !! name) as [v|] eqn:Ek; [exists r; subst x; by rewrite <- (Hc name v Ek)|].
  subst x. unfold resolution in *. rewrite E0 in *. cbn [orb] in *. destruct (existsb _ _) eqn:Em.
  - exists (remember name name r). split; [by rewrite str_eqb_refl|]. split; [done|]. exact (Hr _ eq_refl).
  - destruct (lowest _) as [v|] eqn:El; cbn [default from_option].
    + exists (remember name v r). split; [|split; [done|exact (Hr _ eq_refl)]].
      apply lowest_spec in El as [(_ & d & -> & _)%elem_of_candidates _]. rewrite str_eqb_ne; [done|apply suffixed_neq].
    + exists (remember name name r). split; [by rewrite str_eqb_refl|]. split; [done|]. exact (Hr _ eq_refl).
Qed.

(** A resolver after any resolutions since it was filled. *)
Definition used (known names : list string) : InterfaceResolver :=
  foldl (fun r n => (Resolve n r).2) (NewInterfaceResolverWithInterfaces known) names.

Lemma used_ok known names : knownInterfaces (used known names) = known /\ cache_ok (used known names).
Proof.
  unfold used. set (r := NewInterfaceResolverWithInterfaces known).
  assert (knownInterfaces r = known /\ cache_ok r) as H by (split; [done|intros k v Hk; subst r; cbn in Hk; by apply lookup_empty_Some in Hk]).
  revert H. generalize r. clear r. induction names as [|n names IH]; intros r [Hk Hc]; [done|]. simpl. apply IH.
  destruct (Resolve_resolution n r Hc) as (r' & -> & Hk' & Hc'). simpl. by rewrite Hk'.
Qed.

Lemma resolution_cases known name :
  name <> ""%string -> name ∉ known ->
  (exists d, resolution known name = suffixed name d /\ number d /\ suffixed name d ∈ known
     /\ forall d', number d' -> suffixed name d' ∈ known -> npSuffix (suffixed name d) <= npSuffix (suffixed name d'))
  \/ (resolution known name = name /\ forall d', number d' -> suffixed name d' ∉ known).
Proof.
  intros Hn Hk. unfold resolution. rewrite str_eqb_ne by done. cbn [orb].
  assert (existsb (str_eqb name) known = false) as -> by (destruct (existsb _ _) eqn:E; [by apply mem_spec in E|done]).
  destruct (lowest _) as [v|] eqn:El; cbn [default from_option].
  - left. apply lowest_spec in El as [(Hv & d & -> & Hd)%elem_of_candidates Hmin]. exists d. repeat split; try apply Hd; [done|].
    intros d' Hd' Hin. apply Hmin, elem_of_candidates. eauto.
  - right. split; [done|]. intros d' Hd' Hin. apply lowest_None in El.
    assert (suffixed name d' ∈ candidates name known) as H by (apply elem_of_candidates; eauto). rewrite El in H. by apply elem_of_nil in H.
Qed.

Lemma resolution_known known name : name = ""%string \/ name ∈ known -> resolution known name = name.
Proof. intros [->|H]; unfold resolution; [done|]. apply mem_spec in H. by rewrite H, orb_true_r. Qed.

Lemma resolution_stable known name : resolution known (resolution known name) = resolution known name.
Proof.
  destruct (decide (name = ""%string \/ name ∈ known)) as [H|H]; [by rewrite !(resolution_known known name)|].
  destruct (resolution_cases known name) as [(d & E & _ & Hd & _)|[E _]]; [tauto|tauto| |by rewrite !E].
  rewrite E. apply resolution_known. by right.
Qed.

(** Whatever was resolved before, a configured name that exists stays as it is; one
    that does not becomes the existing name with the lowest npN suffix, if there is any,
    and stays as it is otherwise; the flag tells exactly whether it changed; and a
    resolved name is a fixed point. *)
Theorem Resolve_spec known names name :
  let x := Resolve name (used known names) in
  x.1.2 = negb (str_eqb x.1.1 name) /\
  (name = ""%string \/ name ∈ known -> x.1.1 = name) /\
  (name <> ""%string -> name ∉ known ->
   (exists d, x.1.1 = suffixed name d /\ number d /\ suffixed name d ∈ known
      /\ forall d', number d' -> suffixed name d' ∈ known -> npSuffix (suffixed name d) <= npSuffix (suffixed name d'))
   \/ (x.1.1 = name /\ forall d', number d' -> suffixed name d' ∉ known)) /\
  (Resolve x.1.1 x.2).1 = (x.1.1, false).
Proof.
  intros x. destruct (used_ok known names) as [Hk Hc]. subst x.
  destruct (Resolve_resolution name _ Hc) as (r' & -> & Hk' & Hc'). cbn [fst snd]. rewrite Hk in *.
  split; [done|]. split; [apply resolution_known|]. split; [apply resolution_cases|].
  destruct (Resolve_resolution (resolution known name) r' Hc') as (r'' & -> & _). rewrite Hk', resolution_stable.
  cbn [fst]. by rewrite str_eqb_refl.
Qed.

End Resolver.
