(* ===== verification/Profile.v ===== *)
(** * pkg/daemon: what a profile asks for

    The functions of pkg/daemon/daemon.go and pkg/daemon/ptp_process.go that read the
    profiles of a node: which programs they need, how they relate to each other, the
    thresholds, command lines and start conditions.  [gnssFailover] decodes the options
    of the plug-in ntpfailover (package encoding/json). *)

From S2P Require Import Prelude Float64 Strconv Event ClockBase Conditions Config Regex Parser Conf PtpConfig.
From Stdlib Require Import Ascii.

#[local] Open Scope Z_scope.

Module Profile.

Import Config PtpConfig Conditions.

Definition ptp4lProcessName : string := "ptp4l".
Definition phc2sysProcessName : string := "phc2sys".
Definition ts2phcProcessName : string := "ts2phc".
Definition syncEProcessName : string := "synce4l".
Definition chronydProcessName : string := "chronyd".

Definition TBC : string := "T-BC".
Definition TGM : string := "T-GM".
Definition PTP_HA_IDENTIFIER : string := "haProfiles".

Definition ptpProcesses : list string :=
  [chronydProcessName; ts2phcProcessName; syncEProcessName; ptp4lProcessName; phc2sysProcessName].

(** ** Options and configurations of the programs *)

Definition optsFor (name : string) (profile : PtpProfile) : option string :=
  if str_eqb name ptp4lProcessName then match Ptp4lOpts profile with None => Some " " | o => o end
  else if str_eqb name phc2sysProcessName then Phc2sysOpts profile
  else if str_eqb name ts2phcProcessName then Ts2PhcOpts profile
  else if str_eqb name syncEProcessName then Synce4lOpts profile
  else if str_eqb name chronydProcessName then ChronydOpts profile
  else None.

Definition confFor (name : string) (profile : PtpProfile) : option string :=
  if str_eqb name ptp4lProcessName then Ptp4lConf profile
  else if str_eqb name phc2sysProcessName then Phc2sysConf profile
  else if str_eqb name ts2phcProcessName then Ts2PhcConf profile
  else if str_eqb name syncEProcessName then Synce4lConf profile
  else if str_eqb name chronydProcessName then ChronydConf profile
  else None.

(** The assignments through the pointers [optsFor] and [confFor] return: the options a
    profile without ptp4l options gets are not its own. *)
Definition set_opts (name opts : string) (profile : PtpProfile) : PtpProfile :=
  if str_eqb name ptp4lProcessName then match Ptp4lOpts profile with None => profile | _ => profile <| Ptp4lOpts := Some opts |> end
  else if str_eqb name phc2sysProcessName then profile <| Phc2sysOpts := Some opts |>
  else if str_eqb name ts2phcProcessName then profile <| Ts2PhcOpts := Some opts |>
  else if str_eqb name syncEProcessName then profile <| Synce4lOpts := Some opts |>
  else if str_eqb name chronydProcessName then profile <| ChronydOpts := Some opts |>
  else profile.

Definition set_conf (name conf : string) (profile : PtpProfile) : PtpProfile :=
  match confFor name profile with
  | None => profile
  | Some _ =>
      if str_eqb name ptp4lProcessName then profile <| Ptp4lConf := Some conf |>
      else if str_eqb name phc2sysProcessName then profile <| Phc2sysConf := Some conf |>
      else if str_eqb name ts2phcProcessName then profile <| Ts2PhcConf := Some conf |>
      else if str_eqb name syncEProcessName then profile <| Synce4lConf := Some conf |>
      else profile <| ChronydConf := Some conf |>
  end.

Definition given (o : option string) : bool := match o with Some s => negb (str_eqb s "") | None => false end.

Definition processShouldRun (profile : PtpProfile) (processName : string) : bool :=
  if str_eqb processName ptp4lProcessName then true
  else if str_eqb processName phc2sysProcessName then given (Phc2sysOpts profile) || given (Phc2sysConf profile)
  else if str_eqb processName ts2phcProcessName then given (Ts2PhcOpts profile) && given (Ts2PhcConf profile)
  else if str_eqb processName syncEProcessName then given (Synce4lOpts profile) && given (Synce4lConf profile)
  else if str_eqb processName chronydProcessName then given (ChronydOpts profile) && given (ChronydConf profile)
  else false.

Definition profileClockType (p : PtpProfile) : string := setting_or_empty "clockType" p.

Definition getProfileName (p : PtpProfile) : string := default "<nil>"%string (Name p).

(** ** Topology *)

Definition listHAMemberProfiles (p : PtpProfile) : list string :=
  match setting PTP_HA_IDENTIFIER p with
  | Some profiles => map Parser.TrimSpace (Conf.split_on "," profiles)
  | None => []
  end.

Record ProfileTopology := mkTopology {
  phc2sysProfiles : list string;
  ntpFailOverProfileNames : list string;
  profileRunID : gmap string Z;
  haProfile : string;
  haMembers : list string
}.

#[export] Instance ProfileTopology_fields : Fields ProfileTopology := fun t =>
  mkTopology (phc2sysProfiles t) (ntpFailOverProfileNames t) (profileRunID t) (haProfile t) (haMembers t).

Definition no_topology : ProfileTopology := mkTopology [] [] ∅ "" [].

Definition isHAProfile (profileName : string) (t : ProfileTopology) : bool := str_eqb (haProfile t) profileName.
Definition isHAMember (profileName : string) (t : ProfileTopology) : bool := existsb (str_eqb profileName) (haMembers t).
Definition haMemberNames (t : ProfileTopology) : list string := haMembers t.

Definition has_plugin (name : string) (p : PtpProfile) : bool :=
  match Plugins p with
  | Some m => match m !! name with Some (Some _) => true | _ => false end
  | None => false
  end.

Inductive topology_error := MultipleHA (first second : string) | MissingMember (haProfile member : string).

(** One round of the first loop of [NewProfileTopology]. *)
Definition topology_step (runID : Z) (p : PtpProfile) (t : ProfileTopology) : topology_error + ProfileTopology :=
  let name := getProfileName p in
  let t := t <| profileRunID := <[name := runID]> (profileRunID t) |> in
  if processShouldRun p phc2sysProcessName then
    let t := t <| phc2sysProfiles := phc2sysProfiles t ++ [name] |> in
    let failover t :=
      if has_plugin "ntpfailover" p then t <| ntpFailOverProfileNames := ntpFailOverProfileNames t ++ [name] |> else t in
    match listHAMemberProfiles p with
    | [] => inr (failover t)
    | members =>
        if negb (str_eqb (haProfile t) "") then inl (MultipleHA (haProfile t) name)
        else inr (failover (t <| haProfile := name |> <| haMembers := members |>))
    end
  else inr t.

Fixpoint topology_loop (runID : Z) (ps : list PtpProfile) (t : ProfileTopology) : topology_error + ProfileTopology :=
  match ps with
  | [] => inr t
  | p :: ps' => match topology_step runID p t with inl e => inl e | inr t => topology_loop (runID + 1) ps' t end
  end.

Definition missing_member (t : ProfileTopology) : option string :=
  first_match (fun m => match profileRunID t !! m with Some _ => false | None => true end) (haMembers t).

Definition NewProfileTopology (nodeProfiles : list PtpProfile) : topology_error + ProfileTopology :=
  match topology_loop 0 nodeProfiles no_topology with
  | inl e => inl e
  | inr t => match missing_member t with Some m => inl (MissingMember (haProfile t) m) | None => inr t end
  end.

(** [reconcileRelatedProfiles]: the run of the profile each controlling profile controls.
    The names have been read before, so they are there. *)
Definition named (name : string) (p : PtpProfile) : bool := match Name p with Some n => str_eqb n name | None => false end.

Definition dependent_profiles (ps : list PtpProfile) : gmap string string :=
  foldl (fun m p =>
    let c := setting_or_empty "controllingProfile" p in
    if str_eqb c "" then m else <[c := default ""%string (Name p)]> m) ∅ ps.

Fixpoint last_run (name : string) (i : Z) (ps : list PtpProfile) : option Z :=
  match ps with
  | [] => None
  | p :: ps' => match last_run name (i + 1) ps' with Some j => Some j | None => if named name p then Some i else None end
  end.

Definition reconcileRelatedProfiles (ps : list PtpProfile) : gmap string Z :=
  map_imap (fun controlling controlled => if existsb (named controlling) ps then last_run controlled 0 ps else None)
    (dependent_profiles ps).

(** The order of the profiles: those with phc2sys last, by name otherwise. *)
Definition profile_compare (a b : PtpProfile) : Z :=
  let aHas := processShouldRun a phc2sysProcessName in
  let bHas := processShouldRun b phc2sysProcessName in
  if negb aHas && bHas then -1
  else if aHas && negb bHas then 1
  else match String.compare (default "" (Name a)) (default "" (Name b)) with Eq => 0 | Lt => -1 | Gt => 1 end.

Fixpoint insert_sorted (p : PtpProfile) (l : list PtpProfile) : list PtpProfile :=
  match l with
  | [] => [p]
  | q :: l' => if profile_compare p q <=? 0 then p :: l else q :: insert_sorted p l'
  end.

(** [slices.SortFunc]: profiles that compare equal have one name, and the code does not
    depend on their order. *)
Definition sort_profiles (l : list PtpProfile) : list PtpProfile := foldr insert_sorted [] l.

(** ** Thresholds *)

Section failover.
Context (gnssFailover : string -> option bool).

Definition isNtpFailoverEnabled (p : PtpProfile) : bool :=
  match Plugins p with
  | Some m => match m !! "ntpfailover"%string with Some (Some raw) => default false (gnssFailover raw) | _ => false end
  | None => false
  end.

Definition getPTPThreshold (p : PtpProfile) : Event.PtpClockThreshold :=
  match PtpConfig.PtpClockThreshold p with
  | Some t => mkThreshold (atMaxOffsetThreshold t) 0 (atHoldOverTimeout t)
  | None => if isNtpFailoverEnabled p then mkThreshold 1000 0 5 else mkThreshold 100 0 5
  end.

Definition resolvePTPThreshold (p : PtpProfile) : Event.PtpClockThreshold :=
  match PtpConfig.PtpClockThreshold p with
  | Some t =>
      let maxOffset := if 0 <? atMaxOffsetThreshold t then atMaxOffsetThreshold t else 100 in
      let minOffset := if maxOffset <? atMinOffsetThreshold t then maxOffset - 1 else atMinOffsetThreshold t in
      mkThreshold maxOffset minOffset (if 0 <? atHoldOverTimeout t then atHoldOverTimeout t else 5)
  | None => if isNtpFailoverEnabled p then mkThreshold 1000 (-1000) 5 else mkThreshold 100 (-100) 5
  end.

Definition defaultSysOffsetSamples : Z := 10.

Definition osClockFilterConfig (p : PtpProfile) : OSClockFilterConfig :=
  let threshold := f64_of_Z (MaxOffsetThreshold (getPTPThreshold p)) in
  match PtpConfig.PtpClockThreshold p with
  | None => mkFilterConfig threshold threshold defaultSysOffsetSamples
  | Some t =>
      mkFilterConfig
        (match atSysOffsetInSyncThreshold t with Some x => f64_of_Z x | None => threshold end)
        (match atSysOffsetOutOfSyncThreshold t with Some x => f64_of_Z x | None => threshold end)
        (match atSysOffsetSamples t with Some n => if 0 <? n then n else defaultSysOffsetSamples | None => defaultSysOffsetSamples end)
  end.
End failover.

(** ** Command lines *)

Definition configPrefix : string := "/var/run".

Definition addScheduling (p : PtpProfile) (cmdLine : string) : string :=
  if match PtpSchedulingPolicy p with Some policy => str_eqb policy "SCHED_FIFO" | None => false end then
    match PtpSchedulingPriority p with
    | None => cmdLine
    | Some priority =>
        if (priority <? 1) || (65 <? priority) then cmdLine
        else ("/bin/chrt -f " +:+ fmt_d priority +:+ " " +:+ cmdLine)%string
    end
  else cmdLine.

Definition buildPtpCmdLine (name configPath : string) (opts : option string) (p : PtpProfile) : string :=
  addScheduling p ("/usr/sbin/" +:+ name +:+ " -f " +:+ configPath +:+ " " +:+ default "" opts)%string.

(** [buildCmd]: the program and its arguments. *)
Definition buildCmd (cmdLine : string) : list string := Conf.split_on " " cmdLine.

Definition config_of (name : string) (runID : Z) : string := (name +:+ "." +:+ fmt_d runID +:+ ".config")%string.

Definition getPtp4lConfig (runID : Z) : string := config_of "ptp4l" runID.
Definition clockCfgName (runID : Z) : string := getPtp4lConfig runID.
Definition getPtp4lSocket (prefix : string) (runID : Z) : string := (prefix +:+ "/ptp4l." +:+ fmt_d runID +:+ ".socket")%string.

Definition haSocketOpts (prefix : string) (t : ProfileTopology) : string :=
  join " " (omap (fun m => runID ← profileRunID t !! m; Some ("-z " +:+ getPtp4lSocket prefix runID)%string) (haMemberNames t)).

(** ** Start conditions *)

Definition haPtp4lConfigs (t : ProfileTopology) : list string :=
  omap (fun m => getPtp4lConfig <$> (profileRunID t !! m)) (haMemberNames t).

Definition offset_condition (source : EventSource) (cfg : string) : Condition :=
  OnStateAndOffsetForCount cfg cfg source PTP_LOCKED (f64_of_Z 1000000000) 3.

Definition phc2sysOffsetStartCondition (runID : Z) (p : PtpProfile) (clockType : ClockType) (t : ProfileTopology) : Condition :=
  if str_eqb clockType GM_type || str_eqb (profileClockType p) TGM
  then offset_condition TS2PHC (config_of "ts2phc" runID)
  else
    match haPtp4lConfigs t with
    | [] => offset_condition PTP4l (getPtp4lConfig runID)
    | [cfg] => offset_condition PTP4l cfg
    | cfgs => Any (map (fun cfg => Some (offset_condition PTP4l cfg)) cfgs)
    end.

Definition shouldWaitForPhc2sys (p : PtpProfile) (haProfile : option (gmap string (list string))) : bool :=
  match Name p with
  | None => false
  | Some name =>
      match Phc2sysConf p, Phc2sysOpts p with
      | None, None => match haProfile with Some m => (0 <? length (default [] (m !! name)))%nat | None => false end
      | _, _ => true
      end
  end.

Definition ts2phcConditionsForTBC (runID : Z) (p : PtpProfile) (procHaProfile : option (gmap string (list string)))
    (t : ProfileTopology) : list (Action * option Condition) :=
  let start := [Some (offset_condition PTP4l (getPtp4lConfig runID))] in
  let start :=
    if shouldWaitForPhc2sys p procHaProfile then
      let cfgName := if negb (str_eqb (haProfile t) "") then config_of "phc2sys" runID else getPtp4lConfig runID in
      start ++ [Some (OnProcessState cfgName PHC2SYS PTP_LOCKED)]
    else start in
  [(ActionStart, Some (All start None))].

Definition GnssRecoveredEventName : string := "gnss_recovered".
Definition GnssFailoverEventName : string := "gnss_failover".

(** The conditions of phc2sys. *)
Definition phc2sysConditions (runID : Z) (p : PtpProfile) (clockType : ClockType) (hasFailover : bool) (t : ProfileTopology) :
    list (Action * option Condition) :=
  if str_eqb clockType GM_type || str_eqb clockType TBC_type then
    let start := phc2sysOffsetStartCondition runID p clockType t in
    if str_eqb clockType GM_type && hasFailover
    then [(ActionStop, Some (OnPluginEvent GnssFailoverEventName));
          (ActionStart, Some (Any [Some start; Some (OnPluginEvent GnssRecoveredEventName)]))]
    else [(ActionStart, Some start)]
  else [].

(** ** The clock of a profile *)

(** [inspectProfile]: the type of the clock, its leading card and its upstream ports;
    [None] is the error of the configuration. *)
Definition inspectProfile (p : PtpProfile) : option (ClockType * string * list string) :=
  let '(clockType, leadingNic, upstreamPorts) :=
    match setting "clockType" p with
    | Some ct =>
        if str_eqb ct TGM then (GM_type, ""%string, [])
        else if str_eqb ct TBC then
          (TBC_type, setting_or_empty "leadingInterface" p,
           match setting "upstreamPort" p with Some ports => Conf.split_on "," ports | None => [] end)
        else (ClockUnset, ""%string, [])
    | None => (ClockUnset, ""%string, [])
    end in
  if str_eqb clockType ClockUnset then
    conf ← Conf.PopulatePtp4lConf (Ptp4lConf p) (Ptp4lOpts p) Conf.empty_conf;
    Some (Conf.clock_type conf, leadingNic, upstreamPorts)
  else Some (clockType, leadingNic, upstreamPorts).

(** [GetPhaseOffsetPinFilter], in the order in which the settings are ranged over; [None]
    is the panic of a key without a dot. *)
Definition GetPhaseOffsetPinFilter (settings : list (string * string)) : option (gmap string (gmap string string)) :=
  foldl (fun acc kv =>
    m ← acc;
    if Regex.contains "phaseOffsetFilter" kv.1 then
      match rev (Conf.split_on "." kv.1) with
      | property :: clockID :: _ => Some (<[clockID := <[property := kv.2]> (default ∅ (m !! clockID))]> m)
      | _ => None
      end
    else Some m) (Some ∅) settings.

(** * Properties *)

(** ** Thresholds *)

(** The offsets a boundary clock accepts as locked, under the thresholds of a profile
    (BC.v: strictly between the two bounds). *)
Definition accepts (th : Event.PtpClockThreshold) (offset : Z) : Prop := MinOffsetThreshold th < offset < MaxOffsetThreshold th.

(** Whatever a profile says, the resolved thresholds are usable: the maximum and the
    holdover timeout are positive and the minimum is not above the maximum; a positive
    setting is taken as it is; and a clock with a minimum that differs from the maximum by
    more than one nanosecond can lock. *)
Theorem threshold_bounds failover p :
  let th := resolvePTPThreshold failover p in
  0 < MaxOffsetThreshold th /\ 0 < HoldOverTimeout th /\ MinOffsetThreshold th <= MaxOffsetThreshold th /\
  (forall t, PtpConfig.PtpClockThreshold p = Some t ->
     (0 < atMaxOffsetThreshold t -> MaxOffsetThreshold th = atMaxOffsetThreshold t) /\
     (0 < atHoldOverTimeout t -> HoldOverTimeout th = atHoldOverTimeout t) /\
     (atMinOffsetThreshold t <= MaxOffsetThreshold th -> MinOffsetThreshold th = atMinOffsetThreshold t)) /\
  (MinOffsetThreshold th + 1 < MaxOffsetThreshold th <-> exists offset, accepts th offset).
Proof.
  intros th. unfold accepts.
  assert (forall a b, a + 1 < b <-> exists x, a < x < b) as Hx.
  { intros a b. split; [intros H; exists (a + 1); lia|intros [x Hx]; lia]. }
  rewrite <- Hx. subst th. unfold resolvePTPThreshold. destruct (PtpConfig.PtpClockThreshold p) as [t|]; cbn.
  - destruct (Z.ltb_spec 0 (atMaxOffsetThreshold t)), (Z.ltb_spec 0 (atHoldOverTimeout t)); cbn;
      (match goal with |- context [if ?a <? ?b then _ else _] => destruct (Z.ltb_spec a b) end; cbn;
       split_and!; try lia; intros t' [= <-]; split_and!; lia).
  - destruct (isNtpFailoverEnabled failover p); cbn; split_and!; try lia; done.
Qed.

(** A threshold without a minimum accepts no offset below one nanosecond, whatever the
    API says about its deprecation. *)
Lemma omitted_minimum_rejects_negative failover p t offset :
  PtpConfig.PtpClockThreshold p = Some t -> atMinOffsetThreshold t = 0 -> accepts (resolvePTPThreshold failover p) offset -> 0 < offset.
Proof.
  unfold accepts, resolvePTPThreshold. intros -> Hm. rewrite Hm.
  destruct (Z.ltb_spec 0 (atMaxOffsetThreshold t)) as [H|_]; [|cbn; lia].
  destruct (Z.ltb_spec (atMaxOffsetThreshold t) 0); [lia|cbn; lia].
Qed.

(** ** Topology *)

(** The last profile of the name is the run. *)
Definition run_of (ps : list PtpProfile) (name : string) (i : Z) : Prop :=
  0 <= i /\ (exists p, ps !! Z.to_nat i = Some p /\ getProfileName p = name) /\
  forall j q, (Z.to_nat i < j)%nat -> ps !! j = Some q -> getProfileName q <> name.

(** A profile that makes an HA clock of the others. *)
Definition makes_ha (p : PtpProfile) : Prop := processShouldRun p phc2sysProcessName = true /\ listHAMemberProfiles p <> [].

(** What the loop has seen: [seen] are the profiles so far. *)
Record loop_ok (seen : list PtpProfile) (t : ProfileTopology) : Prop := {
  lo_runs : forall name i, profileRunID t !! name = Some i <-> run_of seen name i;
  lo_none : haMembers t = [] -> Forall (fun p => ~ makes_ha p) seen;
  lo_some : haMembers t <> [] -> exists p, p ∈ seen /\ makes_ha p /\ getProfileName p = haProfile t /\ listHAMemberProfiles p = haMembers t;
  lo_name : haMembers t = [] -> haProfile t = ""%string
}.

Lemma run_of_snoc seen p name i :
  run_of (seen ++ [p]) name i <->
  (if decide (getProfileName p = name) then i = Z.of_nat (length seen) else run_of seen name i).
Proof.
  unfold run_of. case_decide as Hp.
  - split.
    + intros (H0 & (q & Hq & Hn) & Hlast). destruct (decide (Z.to_nat i = length seen)) as [E|E]; [lia|].
      apply lookup_lt_Some in Hq as Hl. rewrite length_app in Hl. simpl in Hl.
      exfalso. apply (Hlast (length seen) p); [lia|by apply list_lookup_middle|done].
    + intros ->. rewrite Nat2Z.id. split; [lia|]. split; [exists p; split; [by apply list_lookup_middle|done]|].
      intros j q Hj Hq. apply lookup_lt_Some in Hq. rewrite length_app in Hq. simpl in Hq. lia.
  - split.
    + intros (H0 & (q & Hq & Hn) & Hlast). split; [done|].
      assert (Z.to_nat i < length seen)%nat as Hl.
      { apply lookup_lt_Some in Hq as Hl. rewrite length_app in Hl. simpl in Hl.
        destruct (decide (Z.to_nat i = length seen)) as [E|E]; [|lia].
        rewrite E, list_lookup_middle in Hq by done. by simplify_eq. }
      rewrite lookup_app_l in Hq by done. split; [by exists q|]. intros j r Hj Hr. apply (Hlast j r Hj).
      rewrite lookup_app_l; [done|by eapply lookup_lt_Some].
    + intros (H0 & (q & Hq & Hn) & Hlast). split; [done|]. split.
      * exists q. split; [|done]. rewrite lookup_app_l; [done|by eapply lookup_lt_Some].
      * intros j r Hj Hr. apply lookup_app_Some in Hr as [Hr|[Hl Hr]]; [by eapply Hlast|].
        apply list_lookup_singleton_Some in Hr as [_ <-]. done.
Qed.

Lemma topology_step_ok seen p t t' :
  Name p <> Some ""%string -> loop_ok seen t -> topology_step (Z.of_nat (length seen)) p t = inr t' -> loop_ok (seen ++ [p]) t'.
Proof.
  intros Hne [H1 H2 H3 H4] H. unfold topology_step in H. set (name := getProfileName p) in *.
  set (t1 := t <| profileRunID := <[name := Z.of_nat (length seen)]> (profileRunID t) |>) in *.
  assert (forall n i, profileRunID t1 !! n = Some i <-> run_of (seen ++ [p]) n i) as Hr.
  { intros n i. rewrite run_of_snoc. subst t1. simpl. fold name. case_decide as E.
    - subst n. rewrite lookup_insert_eq. split; [by intros [= <-]|by intros ->].
    - by rewrite lookup_insert_ne. }
  assert (~ makes_ha p -> loop_ok (seen ++ [p]) t1) as Hsame.
  { intros Hm. constructor; [done| | |exact H4].
    - intros Hn. apply Forall_app. split; [by apply H2|by apply Forall_singleton].
    - intros Hn. destruct (H3 Hn) as (q & Hq & Hrest). exists q. split; [set_solver|done]. }
  destruct (processShouldRun p phc2sysProcessName) eqn:Erun; [|injection H as <-; apply Hsame; intros [? _]; congruence].
  destruct (listHAMemberProfiles p) as [|m ms] eqn:Em.
  - destruct (Hsame ltac:(by intros [_ ?])) as [? ? ? ?].
    destruct (has_plugin "ntpfailover" p); injection H as <-; by constructor.
  - destruct (negb (str_eqb _ _)) eqn:Eh; [done|].
    assert (loop_ok (seen ++ [p]) (t1 <| haProfile := name |> <| haMembers := m :: ms |>)) as [? ? ? ?].
    { constructor; [exact Hr|done| |done].
      intros _. exists p. simpl. split; [set_solver|]. split; [split; [done|by rewrite Em]|done]. }
    destruct (has_plugin "ntpfailover" p); injection H as <-; by constructor.
Qed.

Lemma topology_loop_ok ps : forall seen t t',
  Forall (fun p => Name p <> Some ""%string) ps -> loop_ok seen t ->
  topology_loop (Z.of_nat (length seen)) ps t = inr t' -> loop_ok (seen ++ ps) t'.
Proof.
  induction ps as [|p ps IH]; simpl; intros seen t t' Hne Hok H.
  - injection H as <-. by rewrite app_nil_r.
  - apply Forall_cons in Hne as [Hp Hne]. destruct (topology_step _ p t) as [e|u] eqn:E; [done|].
    rewrite (assoc_L app seen [p] ps : seen ++ p :: ps = (seen ++ [p]) ++ ps).
    apply (IH (seen ++ [p]) u); [done|by eapply topology_step_ok|].
    rewrite length_app. simpl. rewrite <- H. f_equal. lia.
Qed.

Lemma no_topology_ok : loop_ok [] no_topology.
Proof.
  constructor; simpl; [|by constructor|done|done].
  intros name i. rewrite lookup_empty. split; [done|]. intros (_ & (p & Hp & _) & _). done.
Qed.

Lemma missing_member_None t m : missing_member t = None -> m ∈ haMembers t -> is_Some (profileRunID t !! m).
Proof.
  intros H Hm. apply first_match_None in H. rewrite Forall_forall in H. specialize (H m Hm). simpl in H.
  by destruct (profileRunID t !! m).
Qed.

Lemma NewProfileTopology_ok ps t :
  Forall (fun p => Name p <> Some ""%string) ps -> NewProfileTopology ps = inr t -> loop_ok ps t /\ missing_member t = None.
Proof.
  intros Hne H. unfold NewProfileTopology in H. destruct (topology_loop 0 ps no_topology) as [e|u] eqn:E; [done|].
  destruct (missing_member u) as [m|] eqn:Em; [done|]. injection H as ->.
  split; [exact (topology_loop_ok ps [] no_topology t Hne no_topology_ok E)|done].
Qed.

(** C16. When the topology of the profiles is built, it is the one the profiles describe:
    the run of a name is the index of the last profile of that name; a profile makes an HA
    clock exactly when the topology has one, which is then the clock of one of these
    profiles with the members it lists; and every member has a run, with a profile of
    that name. *)
Theorem topology_sound ps t :
  Forall (fun p => Name p <> Some ""%string) ps -> NewProfileTopology ps = inr t ->
  (forall name i, profileRunID t !! name = Some i <-> run_of ps name i) /\
  (haMembers t <> [] <-> Exists makes_ha ps) /\
  (haMembers t <> [] -> exists p, p ∈ ps /\ makes_ha p /\ getProfileName p = haProfile t /\ listHAMemberProfiles p = haMembers t) /\
  (forall m, m ∈ haMembers t -> exists p, p ∈ ps /\ getProfileName p = m).
Proof.
  intros Hne Htop. destruct (NewProfileTopology_ok ps t Hne Htop) as [[H1 H2 H3 _] Em].
  split_and!; [done| |done|].
  - rewrite Exists_exists. split; [intros H; destruct (H3 H) as (p & ? & ? & _); by exists p|].
    intros (p & Hp & Hha) Hn. pose proof (H2 Hn) as HF. rewrite Forall_forall in HF. by apply (HF p Hp).
  - intros m Hm. destruct (missing_member_None t m Em Hm) as [i Hi]. apply H1 in Hi as (_ & (p & Hp & Hn) & _).
    exists p. split; [by eapply list_elem_of_lookup_2|done].
Qed.

Definition member_profile : PtpProfile := no_profile <| Name := Some "nic1" |>.
Definition ha_profile : PtpProfile :=
  no_profile <| Name := Some "ha" |> <| Phc2sysOpts := Some "-a -r" |> <| PtpSettings := Some {[ "haProfiles" := "nic1" ]} |>.

Lemma topology_sound_witness : exists t, NewProfileTopology [member_profile; ha_profile] = inr t /\
  haMembers t = ["nic1"]%string /\ (forall m, m ∈ haMembers t -> exists p, p ∈ [member_profile; ha_profile] /\ getProfileName p = m).
Proof.
  eexists. split; [reflexivity|]. split; [vm_compute; reflexivity|].
  apply topology_sound; [repeat constructor; discriminate|reflexivity].
Defined.

End Profile.
