(* ===== verification/Apply.v ===== *)
(** * pkg/daemon: applying the profiles of a node

    The process constructors of pkg/daemon/ptp_process.go and the application of all
    profiles in pkg/daemon/daemon.go, down to [StartProcesses] of process_manager.go: what
    is asked of the processes then is recorded in [wCalls], and what they make of it is in
    ExecProcess.v and ProcMgr.v.  A computation takes the [World], what the
    application builds and changes, to a result: a value, an error together with the
    world it leaves behind, or a panic.  [Env] is what the code asks of the system, of
    the hardware configuration and of the plug-ins; the resolver of interface names is
    the one of Resolver.v. *)

From S2P Require Import Prelude Float64 Utils Strconv Event ClockBase BC GM HA TBC Clocks Conditions Process Dpll ExecProcess Config Regex Ts2phc Alias Parser.
From S2P Require Import Synce PtpInput PtpProcess Conf PtpConfig Resolver Profile.

#[local] Open Scope Z_scope.

Module Apply.

Import Config PtpConfig Profile Conditions.

(** ** Processes *)

(** A dependent process. *)
Inductive Dep :=
| DPmc (configName : string) (start : Condition)
| DGpsd (serialPort gmInterface : string)
| DGpsPipe (configName : string)
| DDpll (d : Dpll.DpllConfig).

(** A [ptpProcess]: the parts that live (ExecProcess.v), read the log (PtpProcess.v),
    and are only looked at by the daemon.  [pcProfile] is the position of its profile. *)
Record Proc := mkProcess {
  pcExec : Exec.ExecProcess;
  pcLog : PtpProcess.ptpProcess;
  pcConfigPath : string;
  pcSocketPath : string;
  pcProfile : nat;
  pcThreshold : Event.PtpClockThreshold;
  pcCmd : list string;
  pcGnssSerialPort : string;
  pcHaProfile : option (gmap string (list string));
  pcDeps : list Dep
}.

#[export] Instance Proc_fields : Fields Proc := fun p =>
  mkProcess (pcExec p) (pcLog p) (pcConfigPath p) (pcSocketPath p) (pcProfile p) (pcThreshold p) (pcCmd p)
    (pcGnssSerialPort p) (pcHaProfile p) (pcDeps p).

Definition pcName (p : Proc) : string := Exec.epName (pcExec p).
Definition pcConfigName (p : Proc) : string := Exec.epConfigName (pcExec p).
Definition pcIfaces (p : Proc) : IFaces := PtpProcess.ifaces (pcLog p).

(** ** The environment and the world *)

Record Env := mkEnv {
  envNodeName : string;
  envGetPhcId : string -> string;
  envInterfaces : option (list string);                  (* /sys/class/net *)
  envWriteFile : string -> bool;                         (* does the write succeed? *)
  envFailover : string -> option bool;                   (* the options of ntpfailover *)
  envUnmarshal : string -> option (list (string * Resolver.json));
  envMarshal : list (string * Resolver.json) -> option string;
  envParseFloat : string -> option f64;                  (* strconv.ParseFloat *)
  envPlugins : PtpProfile -> option (gmap string string) * string;  (* settings and ts2phc configuration
                                                           the plug-ins and the hardware configuration leave *)
  envReady : PtpProfile -> bool;                         (* ReadyHardwareConfigForProfile *)
  envHasHardware : PtpProfile -> bool;                   (* HasHardwareConfigForProfile *)
  envDetector : option PtpInput.PTPStateDetector;
  envSubsystems : PtpProfile -> list (option string * bool);  (* network interface, has phase inputs *)
  envGnssPort : PtpProfile -> option string;             (* GetGNSSSerialPort *)
  envExplicitGnss : PtpProfile -> bool;
  envHoldover : string -> Z -> option (Z * Z * Z);       (* max in spec, max holdover offset, timeout *)
  envFlags : string -> Z -> option Z;
  envNetlink : bool;                                     (* is there DPLL netlink? *)
  envLeap : bool;                                        (* LeapMgr != nil *)
  envCancelled : bool                                    (* has the context been cancelled? *)
}.

(** What the daemon asks of the processes, the plug-ins, the hardware configuration and the
    node around the building of the processes.  A process is meant by the name of its configuration, a dependent one by itself
    as well. *)
Inductive Call :=
| CInitializeOffsetMaps
| CClearHwConfig
| CSetPtpConfig (profiles : list PtpProfile)
| CSetEventChannel
| CStart (configName : string) (d : option Dep)
| CAfterRun (profile : nat) (name : string)
| CSyncInitialState (configName : string) (d : option Dep)
| CPopulateHwConfig
| CRefreshNodePtpDevice
| CSyncStatusUpdate.

Record World := mkWorld {
  wProfiles : list PtpProfile;
  wResolver : Resolver.InterfaceResolver;
  wAliases : Alias.store;
  wHardwareFlag : bool;                                  (* vTbcHasHardwareConfig *)
  wPrefix : string;                                      (* configPrefix *)
  wFiles : list (string * string);
  wProcs : list Proc;
  wClocks : list AnyClock;                               (* AddClock, in order *)
  wSeq : Z;                                              (* the announce sequence of NewTBC *)
  wFilters : list OSClockFilterConfig;                   (* ConfigureOSClockFilter, in order *)
  wLeapPath : string;
  wReady : bool;
  wCalls : list Call                                     (* of this application, in order *)
}.

#[export] Instance World_fields : Fields World := fun w =>
  mkWorld (wProfiles w) (wResolver w) (wAliases w) (wHardwareFlag w) (wPrefix w) (wFiles w) (wProcs w) (wClocks w)
    (wSeq w) (wFilters w) (wLeapPath w) (wReady w) (wCalls w).

Inductive res (A : Type) :=
| Ok (a : A) (w : World)
| Err (w : World)
| Panic.
Arguments Ok {A}.
Arguments Err {A}.
Arguments Panic {A}.

Definition M (A : Type) : Type := World -> res A.

#[export] Instance M_ret : MRet M := fun A a w => Ok a w.
#[export] Instance M_bind : MBind M := fun A B k m w =>
  match m w with Ok a w' => k a w' | Err w' => Err w' | Panic => Panic end.

Definition fail {A} : M A := fun w => Err w.
Definition panic {A} : M A := fun _ => Panic.
Definition gets {A} (f : World -> A) : M A := fun w => Ok (f w) w.
Definition modify (f : World -> World) : M unit := fun w => Ok tt (f w).
Definition must {A} (o : option A) : M A := match o with Some a => mret a | None => panic end.
Definition or_fail {A} (o : option A) : M A := match o with Some a => mret a | None => fail end.

(** The results of a constructor that the caller has not looked at yet. *)
Definition attempt {A} (m : M A) : M (option A) := fun w =>
  match m w with Ok a w' => Ok (Some a) w' | Err w' => Ok None w' | Panic => Panic end.

Fixpoint each {A} (f : A -> M unit) (l : list A) : M unit :=
  match l with [] => mret tt | x :: l' => _ ← f x; each f l' end.

Definition profile_at (i : nat) : M PtpProfile := w ← gets wProfiles; must (w !! i).
Definition set_profile (i : nat) (p : PtpProfile) : M unit := modify (fun w => w <| wProfiles := <[i := p]> (wProfiles w) |>).

(** ** Building a process *)

(** [newPtpProcess]. *)
Definition newPtpProcess (env : Env) (name configFile configPath socketPath messageTag : string) (i : nat) (p : PtpProfile)
    (clockType : ClockType) : Proc :=
  let th := getPTPThreshold (envFailover env) p in
  mkProcess
    (Exec.mkExec name configFile clockType true None None Process.Created false)
    (PtpProcess.mkProc name configFile messageTag 0 [] (default ∅ (PtpSettings p)) clockType (MaxOffsetThreshold th) false f64_zero
       (Ts2phc.mkState None 0 0 ∅) [] (PtpProcess.mkTbc "" "" [] ∅ "" "" "" None f64_zero None 0) None)
    configPath socketPath i th [] "" None [].

Definition on_log (f : PtpProcess.ptpProcess -> PtpProcess.ptpProcess) (p : Proc) : Proc := p <| pcLog := f (pcLog p) |>.
Definition on_exec (f : Exec.ExecProcess -> Exec.ExecProcess) (p : Proc) : Proc := p <| pcExec := f (pcExec p) |>.

Definition set_conditions (c : list (Action * option Condition)) (p : Proc) : Proc :=
  on_exec (fun e => Exec.mkExec (Exec.epName e) (Exec.epConfigName e) (Exec.epClockType e) (Exec.epEventCh e) (Exec.epStopCh e)
                      (Some c) (Exec.epState e) (Exec.epCmd e)) p.

Definition set_cmd (cmdLine : string) (p : Proc) : Proc :=
  on_exec (fun e => Exec.mkExec (Exec.epName e) (Exec.epConfigName e) (Exec.epClockType e) (Exec.epEventCh e) (Exec.epStopCh e)
                      (Exec.epConditions e) (Exec.epState e) true) (p <| pcCmd := buildCmd cmdLine |>).

(** A method of the resolver. *)
Definition resolving {A} (f : Resolver.InterfaceResolver -> A * Resolver.InterfaceResolver) : M A :=
  r ← gets wResolver;
  let x := f r in
  _ ← modify (fun w => w <| wResolver := x.2 |>);
  mret x.1.

(** [loadProcessConf]: the parsed configuration and the options. *)
Definition loadProcessConf (name : string) (p : PtpProfile) : M (Conf.Ptp4lConf * option string) :=
  conf ← or_fail (Conf.PopulatePtp4lConf (confFor name p) None Conf.empty_conf);
  conf ← resolving (Conf.ResolveInterfaceNames Resolver.Resolve conf);
  conf ← (if str_eqb name chronydProcessName then resolving (Conf.ResolveChronydInterfaceNames Resolver.Resolve conf)
          else if str_eqb name ts2phcProcessName then resolving (Conf.ResolveTs2PhcInterfaceNames Resolver.Resolve conf)
          else mret conf);
  mret (match Interface p with
        | Some i => if str_eqb i "" then conf else Conf.AddInterfaceSection i conf
        | None => conf
        end, optsFor name p).

(** [addMonitorFlags], through the pointer to the options. *)
Definition addMonitorFlags (name : string) (i : nat) (opts : option string) (conf : Conf.Ptp4lConf) : M (option string * Conf.Ptp4lConf) :=
  let x := Conf.addFlagsForMonitor name opts conf in
  p ← profile_at i;
  _ ← match x.1 with Some o => set_profile i (set_opts name o p) | None => mret tt end;
  mret x.

(** [writeProcessConf]: the serial port, and the file. *)
Definition writeProcessConf (env : Env) (name configPath : string) (i : nat) (conf : Conf.Ptp4lConf) (text : string) : M string :=
  p ← profile_at i;
  _ ← set_profile i (set_conf name text p);
  if envWriteFile env configPath
  then _ ← modify (fun w => w <| wFiles := wFiles w ++ [(configPath, text)] |>); mret (Conf.gnss_serial_port conf)
  else fail.

(** [RenderPtp4lConf] with the aliases it adds. *)
Definition render (env : Env) (conf : Conf.Ptp4lConf) : M (string * IFaces) :=
  al ← gets wAliases;
  let '(text, ifs, al) := Conf.RenderPtp4lConf (envGetPhcId env) conf al in
  al ← must al;
  _ ← modify (fun w => w <| wAliases := al |>);
  mret (text, ifs).

(** [renderPtp4lConf]: the process with its interfaces and the options as they are now. *)
Definition renderPtp4lConf (env : Env) (conf : Conf.Ptp4lConf) (opts : option string) (proc : Proc) : M (Proc * option string) :=
  let name := pcName proc in
  p ← profile_at (pcProfile proc);
  profileName ← must (Name p);
  let conf := Conf.ExtendGlobalSection (envNodeName env) profileName (PtpProcess.messageTag (pcLog proc)) (pcSocketPath proc) name conf in
  '(opts, conf) ← addMonitorFlags name (pcProfile proc) opts conf;
  '(text, ifs) ← render env conf;
  port ← writeProcessConf env name (pcConfigPath proc) (pcProfile proc) conf text;
  let proc := on_log (PtpProcess.set_log_ifaces ifs) proc in
  let proc := if str_eqb name ts2phcProcessName
              then on_log (PtpProcess.set_poll (Ts2phc.resetPollCycle ifs)) proc else proc in
  mret ((proc <| pcGnssSerialPort := port |>), opts).

Definition command (name : string) (opts : option string) (p : PtpProfile) (proc : Proc) : Proc :=
  set_cmd (buildPtpCmdLine name (pcConfigPath proc) opts p) proc.

Definition message_tag (name : string) (runID : Z) : string := ("[" +:+ config_of name runID +:+ ":{level}]")%string.

(** [ptpProcessEnv]; the profile is the one at [peIndex]. *)
Record ptpProcessEnv := mkPEnv {
  peRunID : Z;
  peIndex : nat;
  peClockType : ClockType;
  peLeadingNic : string;
  peUpstreamPorts : list string;
  peHasFailover : bool;
  peTopology : ProfileTopology
}.

Definition configPath (prefix configFile : string) : string := (prefix +:+ "/" +:+ configFile)%string.

Definition ptp4l_source (pe : ptpProcessEnv) (i : Iface) : Iface :=
  if (0 <? length (peUpstreamPorts pe))%nat && str_eqb (peLeadingNic pe) (ifName i)
  then mkIface (ifName i) (ifIsMaster i) PTP4l (ifPhcId i) else i.

Definition defaultPtp4lOffsetEventWindowSize : Z := 16.

Definition event_window_size (p : PtpProfile) : Z :=
  match setting "ptp4lOffsetEventWindowSize" p with
  | Some s => match Parser.Atoi s with Some ws => if 0 <? ws then ws else defaultPtp4lOffsetEventWindowSize
                                     | None => defaultPtp4lOffsetEventWindowSize end
  | None => defaultPtp4lOffsetEventWindowSize
  end.

(** The attributes of a T-BC at the start; [None] is the error of the threshold. *)
Definition tbc_attributes (env : Env) (pe : ptpProcessEnv) (configFile : string) (p : PtpProfile) : option PtpProcess.tBCProcessAttributes :=
  let tt := match setting "controlledId" p with Some id => ("ptp4l." +:+ id +:+ ".config")%string | None => ""%string end in
  if (0 <? length (peUpstreamPorts pe))%nat && str_eqb (peClockType pe) TBC_type then
    th ← match setting "inSyncConditionThreshold" p with
         | Some s => envParseFloat env s
         | None => Some (f64_of_Z (MaxOffsetThreshold (getPTPThreshold (envFailover env) p)))
         end;
    Some (PtpProcess.mkTbc tt configFile (peUpstreamPorts pe)
            (foldl (fun m port => <[port := PTP_NOTSET]> m) ∅ (peUpstreamPorts pe)) "" PTP_NOTSET PTP_NOTSET None th
            (Some (Window.NewWindow (event_window_size p))) 0)
  else Some (PtpProcess.mkTbc tt configFile [] ∅ "" PTP_NOTSET PTP_NOTSET None f64_zero None 0).

(** [prepareTBCResources]. *)
Definition prepareTBCResources (env : Env) (p : PtpProfile) (proc : Proc) : M Proc :=
  _ ← modify (fun w => w <| wHardwareFlag := envHasHardware env p |>);
  mret (if envHasHardware env p then on_log (PtpProcess.set_detector (envDetector env)) proc else proc).

Definition NewPtp4lProcess (env : Env) (pe : ptpProcessEnv) : M Proc :=
  let configFile := getPtp4lConfig (peRunID pe) in
  prefix ← gets wPrefix;
  p ← profile_at (peIndex pe);
  let proc := newPtpProcess env ptp4lProcessName configFile (configPath prefix configFile) (getPtp4lSocket prefix (peRunID pe))
                (message_tag "ptp4l" (peRunID pe)) (peIndex pe) p (peClockType pe) in
  '(conf, opts) ← loadProcessConf ptp4lProcessName p;
  '(proc, opts) ← renderPtp4lConf env conf opts proc;
  let proc := on_log (PtpProcess.set_log_ifaces (map (ptp4l_source pe) (pcIfaces proc))) proc in
  p ← profile_at (peIndex pe);
  let proc := command ptp4lProcessName opts p proc in
  t ← or_fail (tbc_attributes env pe configFile p);
  let proc := on_log (PtpProcess.set_attributes t) proc in
  if (0 <? length (peUpstreamPorts pe))%nat && str_eqb (peClockType pe) TBC_type
  then prepareTBCResources env p proc else mret proc.

Definition NewPhc2sysProcess (env : Env) (pe : ptpProcessEnv) : M Proc :=
  let runID := peRunID pe in
  let configFile := config_of "phc2sys" runID in
  prefix ← gets wPrefix;
  p ← profile_at (peIndex pe);
  let ha := (0 <? length (listHAMemberProfiles p))%nat in
  let proc := (newPtpProcess env phc2sysProcessName configFile (configPath prefix configFile)
                (if ha then "" else getPtp4lSocket prefix runID)
                (if ha then message_tag "phc2sys" runID else message_tag "ptp4l" runID) (peIndex pe) p (peClockType pe))
              <| pcHaProfile := Some ∅ |> in
  '(conf, opts) ← loadProcessConf phc2sysProcessName p;
  '(proc, opts) ← renderPtp4lConf env conf opts proc;
  p ← profile_at (peIndex pe);
  opts ← (if isHAProfile (getProfileName p) (peTopology pe) then
            o ← must opts;
            let o := (o +:+ " " +:+ haSocketOpts prefix (peTopology pe))%string in
            _ ← set_profile (peIndex pe) (set_opts phc2sysProcessName o p); mret (Some o)
          else mret opts);
  let proc := command phc2sysProcessName opts p proc in
  mret (set_conditions (phc2sysConditions runID p (peClockType pe) (peHasFailover pe) (peTopology pe)) proc).

(** The options a grandmaster's ts2phc gets. *)
Definition holdover_opts (p : PtpProfile) (opts : string) : string :=
  let '(maxInSpecOffset, maxHoldoverOffSet, maxHoldoverTimeout, inSpecTimer, frequencyTraceable) :=
    Dpll.CalculateTimer (map_to_list (default ∅ (PtpSettings p))) in
  let opts :=
    if Regex.contains "--ts2phc.holdover" opts then opts
    else (opts +:+ " --ts2phc.holdover " +:+
          fmt_d (if frequencyTraceable then maxHoldoverTimeout else Z.min inSpecTimer maxHoldoverTimeout))%string in
  let opts :=
    if Regex.contains "--servo_offset_threshold" opts then opts
    else (opts +:+ " --servo_offset_threshold " +:+
          fmt_d (if frequencyTraceable then maxHoldoverOffSet else Z.min maxInSpecOffset maxHoldoverOffSet))%string in
  if Regex.contains "--servo_num_offset_values" opts then opts else (opts +:+ " --servo_num_offset_values 10")%string.

Definition NewTs2phcProcess (env : Env) (pe : ptpProcessEnv) : M Proc :=
  let runID := peRunID pe in
  let configFile := config_of "ts2phc" runID in
  prefix ← gets wPrefix;
  p ← profile_at (peIndex pe);
  let proc := newPtpProcess env ts2phcProcessName configFile (configPath prefix configFile) (getPtp4lSocket prefix runID)
                (message_tag "ts2phc" runID) (peIndex pe) p (peClockType pe) in
  _ ← (if str_eqb (peClockType pe) GM_type then
         match Ts2PhcOpts p with
         | Some o => if str_eqb o "" then mret tt else set_profile (peIndex pe) (p <| Ts2PhcOpts := Some (holdover_opts p o) |>)
         | None => mret tt
         end
       else mret tt);
  p ← profile_at (peIndex pe);
  '(conf, opts) ← loadProcessConf ts2phcProcessName p;
  '(proc, opts) ← renderPtp4lConf env conf opts proc;
  p ← profile_at (peIndex pe);
  let proc := command ts2phcProcessName opts p proc in
  mret (if str_eqb (profileClockType p) Profile.TBC
        then set_conditions (ts2phcConditionsForTBC runID p (pcHaProfile proc) (peTopology pe)) proc else proc).

Definition NewSyncEProcess (env : Env) (pe : ptpProcessEnv) : M Proc :=
  let configFile := config_of "synce4l" (peRunID pe) in
  prefix ← gets wPrefix;
  p ← profile_at (peIndex pe);
  let proc := newPtpProcess env syncEProcessName configFile (configPath prefix configFile) ""
                ("[" +:+ configFile +:+ "]")%string (peIndex pe) p (peClockType pe) in
  '(conf, opts) ← loadProcessConf syncEProcessName p;
  name ← must (Name p);
  let conf := Conf.ExtendGlobalSection (envNodeName env) name (PtpProcess.messageTag (pcLog proc)) "" syncEProcessName conf in
  '(opts, conf) ← addMonitorFlags syncEProcessName (peIndex pe) opts conf;
  '(text, relations, conf) ← must (Conf.RenderSyncE4lConf (map_to_list (default ∅ (PtpSettings p))) conf);
  port ← writeProcessConf env syncEProcessName (pcConfigPath proc) (peIndex pe) conf text;
  let proc := on_log (PtpProcess.set_relations relations) (proc <| pcGnssSerialPort := port |>) in
  mret (command syncEProcessName opts p proc).

Definition ChronydSocketPath : string := "/tmp/chrony/chronyd.sock".

Definition NewChronydProcess (env : Env) (pe : ptpProcessEnv) : M Proc :=
  if negb (peHasFailover pe) then fail
  else
    let configFile := config_of "chronyd" (peRunID pe) in
    prefix ← gets wPrefix;
    p ← profile_at (peIndex pe);
    let proc := newPtpProcess env chronydProcessName configFile (configPath prefix configFile) ""
                  ("[" +:+ configFile +:+ "]")%string (peIndex pe) p (peClockType pe) in
    '(conf, opts) ← loadProcessConf chronydProcessName p;
    let conf := Conf.setPtp4lConfOption "" "bindcmdaddress" ChronydSocketPath true conf in
    name ← must (Name p);
    let conf := Conf.set_profile_name name conf in
    '(opts, conf) ← addMonitorFlags chronydProcessName (peIndex pe) opts conf;
    '(text, ifs) ← render env conf;
    port ← writeProcessConf env chronydProcessName (pcConfigPath proc) (peIndex pe) conf text;
    let proc := on_log (PtpProcess.set_log_ifaces ifs) (proc <| pcGnssSerialPort := port |>) in
    mret (set_conditions [(ActionStart, Some (OnPluginEvent GnssFailoverEventName)); (ActionStop, Some (OnPluginEvent GnssRecoveredEventName))]
            (command chronydProcessName opts p proc)).

(** ** Dependent processes *)

Definition GPSD : EventSource := "gpsd".
Definition GPSPIPE : EventSource := "gpspipe".
Definition GPSDDefaultGNSSSerialPort : string := "/dev/gnss0".

Definition add_dep (d : Dep) (proc : Proc) : Proc := proc <| pcDeps := pcDeps proc ++ [d] |>.

(** The port the hardware configuration finds; [None] is the error that ends the setup. *)
Definition detected_port (env : Env) (p : PtpProfile) : option string :=
  match Name p with
  | Some _ =>
      if envReady env p then
        match envGnssPort env p with
        | None => if envExplicitGnss env p then None else Some ""
        | Some port => Some port
        end
      else Some ""
  | None => Some ""
  end.

(** [setupGPSDAndGPSPipe]; the process may be the nil of a failed constructor. *)
Definition setupGPSDAndGPSPipe (env : Env) (p : PtpProfile) (proc : option Proc) : M Proc :=
  port ← or_fail (detected_port env p);
  proc ← must proc;
  let proc := if str_eqb port "" then proc else proc <| pcGnssSerialPort := port |> in
  let proc := if str_eqb (pcGnssSerialPort proc) "" then proc <| pcGnssSerialPort := GPSDDefaultGNSSSerialPort |> else proc in
  let proc := add_dep (DGpsd (pcGnssSerialPort proc) (ifName (GetLeadingInterface (pcIfaces proc)))) proc in
  let proc := add_dep (DGpsPipe (pcConfigName proc)) proc in
  mret (set_conditions [(ActionStart, Some (OnProcessUp (pcConfigName proc) GPSPIPE))] proc).

(** [getInterfacesFromHardwareConfig]: a subsystem without an interface is passed over. *)
Fixpoint hardware_ifaces (env : Env) (l : list (option string * bool)) : M IFaces :=
  match l with
  | [] => mret []
  | (None, _) :: l' => hardware_ifaces env l'
  | (Some iface, phaseInputs) :: l' =>
      if str_eqb iface "" then hardware_ifaces env l'
      else
        let phcID := envGetPhcId env iface in
        _ ← (if str_eqb phcID "" then mret tt else modify (fun w => w <| wAliases := Alias.addInterface phcID iface (wAliases w) |>));
        rest ← hardware_ifaces env l';
        mret (mkIface iface false (if (phaseInputs : bool) then PTP4l else PPS) phcID :: rest)
  end.

(** What the loop of [setupDPLL] keeps from one interface to the next. *)
Record dpll_params := mkParams { dpMaxHoldover : Z; dpTimeout : Z; dpMaxInSpec : Z; dpClockID : Z }.

Definition PtpSettingsDpllIgnoreKey (iface : string) : string := ("dpll." +:+ iface +:+ ".ignore")%string.
Definition PtpSettingsDpllFlagsKey (iface : string) : string := ("dpll." +:+ iface +:+ ".flags")%string.

(** One setting of the profile. *)
Definition dpll_setting (iface : string) (acc : dpll_params * Z) (kv : string * string) : dpll_params * Z :=
  let '(d, flags) := acc in
  let '(k, v) := kv in
  if Regex.contains (iface +:+ ".phaseOffset")%string k then acc
  else
    let '(i, ok) := ParseUint v 10 64 in
    if negb ok then acc
    else (mkParams (if str_eqb k Dpll.LocalMaxHoldoverOffSetStr then i else dpMaxHoldover d)
            (if str_eqb k Dpll.LocalHoldoverTimeoutStr then i else dpTimeout d)
            (if str_eqb k Dpll.MaxInSpecOffsetStr then i else dpMaxInSpec d)
            (if str_eqb k ("clockId[" +:+ iface +:+ "]")%string then i else dpClockID d),
          if str_eqb k (PtpSettingsDpllFlagsKey iface) then i else flags).

(** The flag bits of a DPLL that only reports its phase. *)
Definition FlagOnlyPhaseStatus : Z := 5.

(** The parameters of one interface: settings, then the hardware configuration, then the
    reset of a hardware-slaved DPLL. *)
Definition dpll_params_for (env : Env) (p : PtpProfile) (iface : string) (d : dpll_params) : dpll_params * Z :=
  let '(d, flags) := foldl (dpll_setting iface) (d, 0) (map_to_list (default ∅ (PtpSettings p))) in
  let profileName := default "" (Name p) in
  let d := match envHoldover env profileName (dpClockID d) with
           | Some (inSpec, maxHo, timeout) => mkParams maxHo timeout inSpec (dpClockID d)
           | None => d
           end in
  let flags := default flags (envFlags env profileName (dpClockID d)) in
  (if Z.land flags FlagOnlyPhaseStatus =? FlagOnlyPhaseStatus then mkParams 0 1 0 (dpClockID d) else d, flags).

Definition wants_dpll (p : PtpProfile) (i : Iface) : bool :=
  str_eqb (ifSource i) GNSS || str_eqb (ifSource i) PPS
  || (str_eqb (ifSource i) PTP4l && str_eqb (profileClockType p) Profile.TBC).

Fixpoint dpll_loop (env : Env) (p : PtpProfile) (clockType : ClockType) (th times : Z) (ifs : IFaces) (d : dpll_params)
    (proc : option Proc) : M (option Proc) :=
  match ifs with
  | [] => mret proc
  | i :: ifs' =>
      if negb (wants_dpll p i) || str_eqb (setting_or_empty (PtpSettingsDpllIgnoreKey (ifName i)) p) "true"
      then dpll_loop env p clockType th times ifs' d proc
      else
        let '(d, flags) := dpll_params_for env p (ifName i) d in
        _ ← must (GetPhaseOffsetPinFilter (map_to_list (default ∅ (PtpSettings p))));
        proc ← must proc;
        let dpll := Dpll.NewDpll (dpClockID d) (dpMaxHoldover d) (dpTimeout d) (dpMaxInSpec d) (ifName i) [ifSource i] Dpll.NONE
                      (envNetlink env) th times flags (pcConfigName proc) clockType true in
        dpll_loop env p clockType th times ifs' d (Some (add_dep (DDpll dpll) proc))
  end.

(** [setupDPLL]; its error, which leaves the process as it is, is ignored by the caller. *)
Definition setupDPLL (env : Env) (p : PtpProfile) (clockType : ClockType) (proc : option Proc) : M (option Proc) :=
  let th := match setting "inSyncConditionThreshold" p with Some s => ParseUint0 s 64 | None => Some Dpll.MaxInSpecOffset end in
  let times := match setting "inSyncConditionTimes" p with Some s => ParseUint0 s 64 | None => Some 1 end in
  match th, times with
  | Some th, Some times =>
      ifs ← (if str_eqb (profileClockType p) Profile.TBC then
               _ ← must (Name p);
               if envReady env p then
                 ifs ← hardware_ifaces env (envSubsystems env p);
                 if (0 <? length ifs)%nat then mret ifs else proc ← must proc; mret (pcIfaces proc)
               else proc ← must proc; mret (pcIfaces proc)
             else proc ← must proc; mret (pcIfaces proc));
      dpll_loop env p clockType th times ifs
        (mkParams Dpll.LocalMaxHoldoverOffSet Dpll.LocalHoldoverTimeout Dpll.MaxInSpecOffset 0) proc
  | _, _ => mret proc
  end.

(** ** The processes of a profile *)

Definition add_proc (proc : Proc) : M unit := modify (fun w => w <| wProcs := wProcs w ++ [proc] |>).

Definition NewPMCProcess (runID : Z) : Dep := DPmc (getPtp4lConfig runID) (OnProcessUp (getPtp4lConfig runID) PTP4l).

Definition controlled (p : PtpProfile) : bool := negb (str_eqb (setting_or_empty "controllingProfile" p) "").

(** One program of [createProcesses]. *)
Definition create_process (env : Env) (pe : ptpProcessEnv) (name : string) : M unit :=
  p ← profile_at (peIndex pe);
  if negb (given (optsFor name p)) then mret tt
  else if str_eqb name ptp4lProcessName then
    proc ← attempt (NewPtp4lProcess env pe);
    p ← profile_at (peIndex pe);
    proc ← (if controlled p || str_eqb (peClockType pe) GM_type then or_fail proc
            else proc ← must proc; mret (add_dep (NewPMCProcess (peRunID pe)) proc));
    add_proc proc
  else if str_eqb name phc2sysProcessName then
    _ ← modify (fun w => w <| wFilters := wFilters w ++ [osClockFilterConfig (envFailover env) p] |>);
    proc ← NewPhc2sysProcess env pe;
    add_proc proc
  else if str_eqb name ts2phcProcessName then
    _ ← (if envLeap env then modify (fun w => w <| wLeapPath := clockCfgName (peRunID pe) |>) else mret tt);
    proc ← attempt (NewTs2phcProcess env pe);
    p ← profile_at (peIndex pe);
    proc ← (if str_eqb (peClockType pe) GM_type then proc ← setupGPSDAndGPSPipe env p proc; mret (Some proc) else mret proc);
    proc ← setupDPLL env p (peClockType pe) proc;
    proc ← or_fail proc;
    add_proc proc
  else if str_eqb name syncEProcessName then
    proc ← NewSyncEProcess env pe;
    add_proc proc
  else
    proc ← NewChronydProcess env pe;
    add_proc proc.

Definition createProcesses (env : Env) (runID : Z) (i : nat) (t : ProfileTopology) (clockType : ClockType) (leadingNic : string)
    (upstreamPorts : list string) : M unit :=
  each (create_process env (mkPEnv runID i clockType leadingNic upstreamPorts (0 <? length (ntpFailOverProfileNames t))%nat t)) ptpProcesses.

(** ** Clocks *)

Definition add_clock (c : AnyClock) : M unit := modify (fun w => w <| wClocks := wClocks w ++ [c] |>).

(** [checkPlugins] and [initHardware]: the plug-ins and the hardware configuration write to
    the settings, and to the ts2phc configuration where there is one. *)
Definition initHardware (env : Env) (p : PtpProfile) : PtpProfile :=
  let '(settings, conf) := envPlugins env p in
  p <| PtpSettings := settings |> <| Ts2PhcConf := (fun _ => conf) <$> Ts2PhcConf p |>.

(** [prepareProfile]: the thresholds, after the plug-ins have set what they set. *)
Definition prepareProfile (env : Env) (i : nat) : M Event.PtpClockThreshold :=
  p ← profile_at i;
  _ ← match setting "unitTest" p with Some dir => modify (fun w => w <| wPrefix := dir |>) | None => mret tt end;
  _ ← must (Name p);
  let p := initHardware env p in
  _ ← set_profile i p;
  mret (resolvePTPThreshold (envFailover env) p).

Definition new_tbc (cfg leadingNic : string) : M AnyClock := fun w =>
  let t := TBC.Tbc.NewTBC cfg (wSeq w) in
  let t := if str_eqb leadingNic "" then Some t
           else match TBC.Tbc.SetConfiguredLeadingInterface leadingNic t with Some (_, t, _) => Some t | None => None end in
  match t with
  | Some t => Ok (CTBC (TBC.self t)) (w <| wSeq := TBC.announceSeq t |>)
  | None => Panic
  end.

Definition new_clock (clockType : ClockType) (cfg leadingNic : string) (th : Event.PtpClockThreshold) : M AnyClock :=
  if str_eqb clockType GM_type then mret (CGM (GM.Gm.NewGM cfg))
  else if str_eqb clockType TBC_type then new_tbc cfg leadingNic
  else if str_eqb clockType BC_type then mret (CBC (BC.BC.NewBC cfg false th))
  else if str_eqb clockType OC_type then mret (CBC (BC.BC.NewBC cfg true th))
  else fail.

Definition applyNodePtpProfile (env : Env) (runID : Z) (i : nat) (t : ProfileTopology) : M unit :=
  th ← prepareProfile env i;
  p ← profile_at i;
  '(clockType, leadingNic, upstreamPorts) ← or_fail (inspectProfile p);
  c ← new_clock clockType (clockCfgName runID) leadingNic th;
  _ ← add_clock c;
  createProcesses env runID i t clockType leadingNic upstreamPorts.

(** [findProfile]: the position of the first profile of the name. *)
Fixpoint find_profile (name : string) (i : nat) (l : list PtpProfile) : option nat :=
  match l with
  | [] => None
  | p :: l' => if str_eqb (getProfileName p) name then Some i else find_profile name (S i) l'
  end.

Definition SysClock : ClockType := "SysClock".

(** The members of [assembleHAClock], those that are applied. *)
Fixpoint ha_members (env : Env) (t : ProfileTopology) (names : list string) : M (list HA.Ha.HAMember) :=
  match names with
  | [] => mret []
  | name :: names' =>
      profiles ← gets wProfiles;
      match find_profile name 0 profiles, profileRunID t !! name with
      | Some i, Some runID =>
          th ← prepareProfile env i;
          let bc := BC.BC.NewBC (clockCfgName runID) false th in
          _ ← createProcesses env runID i t BC_type "" [];
          rest ← ha_members env t names';
          mret (HA.Ha.mkMember name bc :: rest)
      | _, _ => ha_members env t names'
      end
  end.

Definition assembleHAClock (env : Env) (t : ProfileTopology) : M unit :=
  profiles ← gets wProfiles;
  i ← or_fail (find_profile (haProfile t) 0 profiles);
  runID ← or_fail (profileRunID t !! haProfile t);
  members ← ha_members env t (haMembers t);
  if (length members =? 0)%nat then fail
  else
    _ ← prepareProfile env i;
    _ ← createProcesses env runID i t SysClock "" [];
    add_clock (CHA (HA.Ha.NewHA (config_of "phc2sys" runID) members)).

(** [populateHAInterfaces]: what the HA phc2sys learns of its members' ports; only
    processes that are a [ptpProcess] themselves count, which chronyd is not. *)
Definition add_ha_ifaces (names : list string) (t : ProfileTopology) (ptp4ls : list Proc) (proc : Proc) : M Proc :=
  foldl (fun m q =>
    proc ← m;
    let name := default "<nil>"%string (names !! pcProfile q) in
    if isHAMember name t then
      h ← must (pcHaProfile proc);
      mret (proc <| pcHaProfile := Some (<[name := map ifName (pcIfaces q)]> h) |>)
    else mret proc) (mret proc) ptp4ls.

Fixpoint populate_all (names : list string) (t : ProfileTopology) (ptp4ls procs : list Proc) : M (list Proc) :=
  match procs with
  | [] => mret []
  | proc :: procs' =>
      proc ← (if str_eqb (pcName proc) phc2sysProcessName && isHAProfile (default "<nil>"%string (names !! pcProfile proc)) t
              then add_ha_ifaces names t ptp4ls proc else mret proc);
      rest ← populate_all names t ptp4ls procs';
      mret (proc :: rest)
  end.

Definition populateHAInterfaces (t : ProfileTopology) : M unit :=
  names ← gets (fun w => map getProfileName (wProfiles w));
  procs ← gets wProcs;
  procs ← populate_all names t (List.filter (fun q => str_eqb (pcName q) ptp4lProcessName) procs) procs;
  modify (fun w => w <| wProcs := procs |>).

(** ** Starting what was built *)

Definition note (calls : list Call) : M unit := modify (fun w => w <| wCalls := wCalls w ++ calls |>).

(** [Name] and [Conditions] of the dependent processes. *)
Definition dep_name (d : Dep) : string :=
  match d with DPmc _ _ => Event.PMC | DGpsd _ _ => GPSD | DGpsPipe _ => GPSPIPE | DDpll _ => Event.DPLL end.

Definition dep_conditions (d : Dep) : list (Action * option Condition) :=
  match d with
  | DPmc _ start => [(ActionStart, Some start)]
  | DGpsPipe configName => [(ActionStart, Some (OnProcessUp configName GPSD))]
  | DGpsd _ _ | DDpll _ => []
  end.

(** Is the start condition [Immediate]? *)
Definition immediate (conds : option (list (Action * option Condition))) : bool :=
  match GetCondition conds ActionStart (Immediate "") with Immediate _ => true | _ => false end.

(** [startProcess]: a cancelled context starts nothing, which is no error. *)
Definition start_calls (env : Env) (proc : Proc) (name : string) (d : option Dep) : list Call :=
  (if envCancelled env then [] else [CStart (pcConfigName proc) d]) ++ [CAfterRun (pcProfile proc) name; CSyncInitialState (pcConfigName proc) d].

(** A dependent process; it was created by this application. *)
Definition start_dep (env : Env) (proc : Proc) (d : Dep) : M unit :=
  if immediate (Some (dep_conditions d)) then note (start_calls env proc (dep_name d) (Some d)) else mret tt.

(** One turn of [forEachProcess]: the dependent processes, then the process.  The process
    that started goes on by itself from here (ExecProcess.v). *)
Definition start_proc (env : Env) (proc : Proc) : M Proc :=
  _ ← each (start_dep env proc) (pcDeps proc);
  match Exec.epState (pcExec proc) with
  | Process.Created | Process.Stopped =>
      if immediate (Exec.epConditions (pcExec proc)) then
        _ ← note (start_calls env proc (pcName proc) None);
        mret (if envCancelled env then proc else on_exec (fun e => (Exec.Start e).2) proc)
      else mret proc
  | _ => mret proc
  end.

Fixpoint start_all (env : Env) (procs : list Proc) : M (list Proc) :=
  match procs with
  | [] => mret []
  | proc :: procs' => proc ← start_proc env proc; rest ← start_all env procs'; mret (proc :: rest)
  end.

(** [StartProcesses]; who is left waiting is the process manager's (ProcMgr.v). *)
Definition StartProcesses (env : Env) : M unit :=
  procs ← gets wProcs;
  procs ← start_all env procs;
  modify (fun w => w <| wProcs := procs |>).

(** ** All profiles *)

(** One profile of the loop that resolves names: writing to a map that is nil panics. *)
Definition mutate_profile (env : Env) (relations : gmap string Z) (i : nat) : M unit :=
  p ← profile_at i;
  name ← must (Name p);
  p ← match relations !! name with
      | Some controlledID =>
          m ← must (PtpSettings p);
          mret (p <| PtpSettings := Some (<["controlledId" := fmt_d controlledID]> m) |>)
      | None => mret p
      end;
  p ← resolving (Resolver.ResolveProfileInterfaces (envUnmarshal env) (envMarshal env) p);
  set_profile i p.

(** A profile that is no part of the HA clock. *)
Definition apply_standalone (env : Env) (t : ProfileTopology) (i : nat) : M unit :=
  p ← profile_at i;
  let name := getProfileName p in
  if isHAProfile name t || isHAMember name t then mret tt
  else applyNodePtpProfile env (default 0 (profileRunID t !! name)) i t.

(** What is left of the last application: [stopAllProcesses] is the process manager's. *)
Definition clear_world (w : World) : World :=
  w <| wReady := false |> <| wCalls := [CInitializeOffsetMaps; CClearHwConfig] |> <| wProcs := [] |> <| wClocks := [] |> <| wAliases := Alias.clear (wAliases w) |>
    <| wFiles := [] |>.

(** [applyNodePTPProfiles]. *)
Definition applyNodePTPProfiles (env : Env) : M unit :=
  _ ← modify clear_world;
  _ ← modify (fun w => w <| wProfiles := sort_profiles (wProfiles w) |>);
  profiles ← gets wProfiles;
  let relations := reconcileRelatedProfiles profiles in
  _ ← (if (0 <? length profiles)%nat then note [CSetPtpConfig profiles] else mret tt);
  _ ← modify (fun w => w <| wResolver := (Resolver.Refresh (envInterfaces env) (wResolver w)).2 |>);
  t ← match NewProfileTopology profiles with inr t => mret t | inl _ => fail end;
  let all := seq 0 (length profiles) in
  _ ← each (mutate_profile env relations) all;
  _ ← each (apply_standalone env t) all;
  _ ← (if str_eqb (haProfile t) "" then mret tt else assembleHAClock env t);
  _ ← populateHAInterfaces t;
  _ ← note [CSetEventChannel];
  _ ← StartProcesses env;
  _ ← note [CPopulateHwConfig; CRefreshNodePtpDevice];
  _ ← modify (fun w => w <| wReady := true |>);
  note [CSyncStatusUpdate].

End Apply.
