(* ===== verification/Applied.v ===== *)
(** * pkg/daemon: what an application of the profiles leaves behind

    The properties of Apply.v: which processes and clocks a successful application has
    built, from which profile, and under which names, and which processes it has started.
    The computations are followed with a
    calculus of weakest preconditions in which every step keeps the names of the profiles
    and the programs they ask for. *)

From S2P Require Import Prelude Float64 Utils Strconv Event ClockBase BC GM HA TBC Clocks Conditions Process Dpll ExecProcess Config Regex Ts2phc Alias Parser.
From S2P Require Import Synce PtpInput PtpProcess Conf PtpConfig Resolver Profile Apply.

#[local] Open Scope Z_scope.

Module Applied.

Import Config PtpConfig Profile Conditions Apply.

(** ** What a profile asks for *)

(** The programs of a profile, in the order in which they are built. *)
Definition programs (p : PtpProfile) : list string := List.filter (fun n => given (optsFor n p)) ptpProcesses.

(** What the application keeps of a profile: its name and its programs. *)
Definition signature (p : PtpProfile) : option string * list string := (Name p, programs p).

Definition sigs (w : World) : list (option string * list string) := map signature (wProfiles w).

(** The names of the process and of its configuration. *)
Definition ident (proc : Proc) : string * string := (pcName proc, pcConfigName proc).

(** ** A calculus for the computations *)

(** What a step leaves alone. *)
Record frame (w w' : World) : Prop := {
  fr_sigs : sigs w' = sigs w;
  fr_procs : wProcs w' = wProcs w;
  fr_clocks : wClocks w' = wClocks w;
  fr_calls : wCalls w' = wCalls w;
  fr_files : incl (wFiles w) (wFiles w')
}.

#[export] Instance frame_preorder : PreOrder frame.
Proof.
  split.
  - intros w. split; [done..|by intros x].
  - intros a b c [? ? ? ? ?] [? ? ? ? ?]. split; [congruence..|by eapply incl_tran].
Qed.

Definition wp {A} (w : World) (m : M A) (U : A -> World -> Prop) : Prop :=
  match m w with Ok a w' => frame w w' /\ U a w' | Err w' => frame w w' | Panic => True end.

Lemma awp_bind {A B} w (m : M A) (k : A -> M B) U :
  wp w m (fun a w1 => wp w1 (k a) U) -> wp w (m ≫= k) U.
Proof.
  unfold wp, mbind, M_bind. destruct (m w) as [a w1|w1|]; [|done|done].
  intros [Hf H]. destruct (k a w1) as [b w2|w2|]; [|by etrans|done]. destruct H. split; [by etrans|done].
Qed.

Lemma awp_mono {A} w (m : M A) (V U : A -> World -> Prop) :
  wp w m V -> (forall a w', frame w w' -> V a w' -> U a w') -> wp w m U.
Proof. unfold wp. intros H HU. destruct (m w) as [a w1|w1|]; [|done|done]. destruct H. eauto. Qed.

Lemma wp_seq {A B} w (m : M A) (k : A -> M B) (V : A -> World -> Prop) U :
  wp w m V -> (forall a w1, frame w w1 -> V a w1 -> wp w1 (k a) U) -> wp w (m ≫= k) U.
Proof. intros H HU. apply awp_bind. by eapply awp_mono. Qed.

Lemma awp_ret {A} w (a : A) (U : A -> World -> Prop) : U a w -> wp w (mret a) U.
Proof. by split. Qed.

Lemma wp_fail {A} w (U : A -> World -> Prop) : wp w fail U.
Proof. unfold wp, fail. reflexivity. Qed.

Lemma wp_panic {A} w (U : A -> World -> Prop) : wp w panic U.
Proof. done. Qed.

Lemma awp_gets {A} w (f : World -> A) (U : A -> World -> Prop) : U (f w) w -> wp w (gets f) U.
Proof. by split. Qed.

Lemma awp_modify w f (U : unit -> World -> Prop) : frame w (f w) -> U tt (f w) -> wp w (modify f) U.
Proof. by split. Qed.

Lemma wp_must {A} w (o : option A) (U : A -> World -> Prop) : (forall a, o = Some a -> U a w) -> wp w (must o) U.
Proof. destruct o; intros H; [apply awp_ret; auto|done]. Qed.

Lemma wp_or_fail {A} w (o : option A) (U : A -> World -> Prop) : (forall a, o = Some a -> U a w) -> wp w (or_fail o) U.
Proof. destruct o; intros H; [apply awp_ret; auto|apply wp_fail]. Qed.

Lemma wp_profile_at w i (U : PtpProfile -> World -> Prop) :
  (forall p, wProfiles w !! i = Some p -> U p w) -> wp w (profile_at i) U.
Proof. intros H. apply awp_bind, awp_gets, wp_must. auto. Qed.

Lemma wp_set_profile w i p q (U : unit -> World -> Prop) :
  wProfiles w !! i = Some q -> signature p = signature q ->
  (forall w', frame w w' -> wProfiles w' !! i = Some p -> U tt w') -> wp w (set_profile i p) U.
Proof.
  intros Hq Hs HU.
  assert (frame w (w <| wProfiles := <[i := p]> (wProfiles w) |>)) as Hf.
  { split; try done; [|by intros x]. unfold sigs. simpl. rewrite list_fmap_insert, list_insert_id; [done|].
    by rewrite list_lookup_fmap, Hq, Hs. }
  apply awp_modify; [exact Hf|]. apply HU; [exact Hf|]. simpl. apply list_lookup_insert_eq. by eapply lookup_lt_Some.
Qed.

Lemma wp_attempt {A} w (m : M A) (U : option A -> World -> Prop) :
  wp w m (fun a w' => U (Some a) w') -> (forall w', frame w w' -> U None w') -> wp w (attempt m) U.
Proof. unfold wp, attempt. intros H HN. destruct (m w) as [a w1|w1|]; [done|by split; [|apply HN]|done]. Qed.

Lemma wp_resolving {A} w (f : Resolver.InterfaceResolver -> A * Resolver.InterfaceResolver) (U : A -> World -> Prop) :
  (forall a w', frame w w' -> wProfiles w' = wProfiles w -> U a w') -> wp w (resolving f) U.
Proof.
  intros H. unfold resolving. apply awp_bind, awp_gets. cbv zeta.
  assert (frame w (w <| wResolver := (f (wResolver w)).2 |>)) by (split; [done..|by intros x]).
  apply awp_bind, awp_modify; [done|]. apply awp_ret. by apply H.
Qed.

(** ** The profile the constructors write to *)

Lemma signature_eq p q : Name p = Name q -> (forall n, given (optsFor n p) = given (optsFor n q)) -> signature p = signature q.
Proof. intros Hn Hg. unfold signature, programs. f_equal; [done|]. by apply List.filter_ext. Qed.

(** Case analysis on the name of a program. *)
Ltac by_name := repeat match goal with |- context [str_eqb ?n ?m] => destruct (str_eqb n m) end.

Lemma signature_set_conf name c p : signature (set_conf name c p) = signature p.
Proof. unfold set_conf. destruct (confFor name p); [|done]. by_name; done. Qed.

Lemma signature_set_opts name o p :
  given (optsFor name p) = true -> given (Some o) = true -> signature (set_opts name o p) = signature p.
Proof.
  intros Hg Ho.
  assert (forall n, given (optsFor n (set_opts name o p)) = given (optsFor n p)) as H.
  { intros n. revert Hg. unfold set_opts.
    destruct (str_eqb name ptp4lProcessName) eqn:E1; [apply str_eqb_eq in E1 as ->|].
    { unfold optsFor at 1. rewrite str_eqb_refl. destruct (Ptp4lOpts p) eqn:E; [|done]. intros Hg.
      unfold optsFor. simpl. rewrite E. by_name; congruence. }
    unfold optsFor. rewrite E1.
    repeat (match goal with |- context [str_eqb name ?m] => destruct (str_eqb name m) eqn:? end; [intros Hg; simpl|]).
    all: by_name; congruence. }
  apply signature_eq; [|done]. unfold set_opts. destruct (Ptp4lOpts p); by_name; done.
Qed.

Lemma programs_spec n p : n ∈ programs p <-> n ∈ ptpProcesses /\ given (optsFor n p) = true.
Proof. unfold programs. by rewrite !list_elem_of_In, filter_In. Qed.

Lemma given_app s t : given (Some s) = true -> given (Some (s +:+ t)%string) = true.
Proof. simpl. rewrite !negb_true_iff, !str_eqb_neq. by destruct s. Qed.

Lemma addFlagsForMonitor_given name opts conf :
  given opts = true -> given (Conf.addFlagsForMonitor name opts conf).1 = true.
Proof.
  intros H. unfold Conf.addFlagsForMonitor. destruct opts as [o|]; [|done].
  by_name; cbn [fst]; repeat case_match; try done; by apply given_app.
Qed.

(** ** The steps of a constructor *)

Lemma wp_loadProcessConf w name p (U : Conf.Ptp4lConf * option string -> World -> Prop) :
  (forall conf w', frame w w' -> wProfiles w' = wProfiles w -> U (conf, optsFor name p) w') -> wp w (loadProcessConf name p) U.
Proof.
  intros H. unfold loadProcessConf. apply awp_bind, wp_or_fail. intros conf _.
  apply awp_bind, wp_resolving. intros conf1 w1 Hf1 Hp1. apply awp_bind.
  assert (forall c w2, frame w1 w2 -> wProfiles w2 = wProfiles w1 ->
    wp w2 (mret (match Interface p with Some i => if str_eqb i "" then c else Conf.AddInterfaceSection i c | None => c end,
                 optsFor name p) : M _) U) as Hend.
  { intros c w2 Hf2 Hp2. apply awp_ret, H; [by etrans|congruence]. }
  destruct (str_eqb name chronydProcessName); [apply wp_resolving; auto|].
  destruct (str_eqb name ts2phcProcessName); [apply wp_resolving; auto|].
  apply awp_ret. by apply Hend.
Qed.

Lemma wp_addMonitorFlags w name i opts conf p (U : option string * Conf.Ptp4lConf -> World -> Prop) :
  wProfiles w !! i = Some p -> given opts = true -> given (optsFor name p) = true ->
  (forall opts' conf' w', frame w w' -> given opts' = true -> U (opts', conf') w') ->
  wp w (addMonitorFlags name i opts conf) U.
Proof.
  intros Hp Ho Hg H. unfold addMonitorFlags. cbv zeta. apply awp_bind, wp_profile_at. intros q Hq. simplify_eq.
  pose proof (addFlagsForMonitor_given name opts conf Ho) as Hx.
  destruct (Conf.addFlagsForMonitor name opts conf) as [[o|] conf']; simpl in Hx |- *; [|done].
  apply awp_bind. eapply wp_set_profile; [done|by apply signature_set_opts|].
  intros w' Hf _. apply awp_ret. by apply H.
Qed.

(** A file that was written. *)
Definition written (path : string) (w : World) : Prop := exists text, (path, text) ∈ wFiles w.

Lemma written_frame path w w' : frame w w' -> written path w -> written path w'.
Proof. intros Hf [text H]. exists text. apply list_elem_of_In, (fr_files _ _ Hf), list_elem_of_In, H. Qed.

Lemma wp_writeProcessConf env w name path i conf text p (U : string -> World -> Prop) :
  wProfiles w !! i = Some p ->
  (forall port w', frame w w' -> written path w' -> U port w') ->
  wp w (writeProcessConf env name path i conf text) U.
Proof.
  intros Hp H. unfold writeProcessConf. apply awp_bind, wp_profile_at. intros q Hq. simplify_eq.
  apply awp_bind. eapply wp_set_profile; [done|apply signature_set_conf|]. intros w1 Hf1 _.
  destruct (envWriteFile env path); [|apply wp_fail].
  assert (frame w1 (w1 <| wFiles := wFiles w1 ++ [(path, text)] |>)) as Hf2.
  { split; [done..|]. simpl. by apply incl_appl, incl_refl. }
  apply awp_bind, awp_modify; [done|]. apply awp_ret, H; [by etrans|]. exists text. simpl. set_solver.
Qed.

Lemma wp_render env w conf (U : string * IFaces -> World -> Prop) :
  (forall x w', frame w w' -> wProfiles w' = wProfiles w -> U x w') -> wp w (render env conf) U.
Proof.
  intros H. unfold render. apply awp_bind, awp_gets.
  destruct (Conf.RenderPtp4lConf (envGetPhcId env) conf (wAliases w)) as [[text ifs] al].
  apply awp_bind, wp_must. intros al' _.
  assert (frame w (w <| wAliases := al' |>)) by (split; [done..|by intros x]).
  apply awp_bind, awp_modify; [done|]. apply awp_ret. by apply H.
Qed.

(** What rendering keeps of a process. *)
Record same_process (p q : Proc) : Prop := {
  sp_exec : pcExec q = pcExec p;
  sp_path : pcConfigPath q = pcConfigPath p;
  sp_profile : pcProfile q = pcProfile p;
  sp_config : PtpProcess.configName (pcLog q) = PtpProcess.configName (pcLog p)
}.

#[export] Instance same_process_refl : Reflexive same_process.
Proof. by split. Qed.

Lemma wp_renderPtp4lConf env w conf opts proc p (U : Proc * option string -> World -> Prop) :
  wProfiles w !! pcProfile proc = Some p -> given opts = true -> given (optsFor (pcName proc) p) = true ->
  pcName proc ∈ ptpProcesses ->
  (forall proc' opts' w', frame w w' -> same_process proc proc' -> given opts' = true -> written (pcConfigPath proc) w' ->
    U (proc', opts') w') ->
  wp w (renderPtp4lConf env conf opts proc) U.
Proof.
  intros Hp Ho Hg Hn H. unfold renderPtp4lConf. cbv zeta. apply awp_bind, wp_profile_at. intros q Hq. simplify_eq.
  apply awp_bind, wp_must. intros name _.
  apply awp_bind. eapply wp_addMonitorFlags; [done..|]. intros opts1 conf1 w1 Hf1 Ho1. cbv beta.
  apply awp_bind, wp_render. intros [text ifs] w2 Hf2 Hp2. cbv beta.
  apply awp_bind.
  assert (is_Some (wProfiles w2 !! pcProfile proc)) as [q2 Hq2].
  { rewrite Hp2. assert (sigs w1 !! pcProfile proc = sigs w !! pcProfile proc) as E by (by rewrite (fr_sigs _ _ Hf1)).
    unfold sigs in E. rewrite !list_lookup_fmap, Hp in E. destruct (wProfiles w1 !! pcProfile proc); [by eexists|done]. }
  eapply wp_writeProcessConf; [done|]. intros port w3 Hf3 Hw. apply awp_ret, H; [by do 2 etrans|..|done|done].
  by_name; by split.
Qed.

(** What a constructor returns. *)
Record built (name : string) (runID : Z) (proc : Proc) (w : World) : Prop := {
  bu_ident : ident proc = (name, config_of name runID);
  bu_created : Exec.epState (pcExec proc) = Process.Created;
  bu_written : written (pcConfigPath proc) w
}.

Lemma built_frame name runID proc w w' : frame w w' -> built name runID proc w -> built name runID proc w'.
Proof. intros Hf [? ? ?]. split; [done..|by eapply written_frame]. Qed.

(** The environment of a constructor whose program the profile asks for. *)
Definition wants (pe : ptpProcessEnv) (name : string) (w : World) : Prop :=
  exists p, wProfiles w !! peIndex pe = Some p /\ name ∈ programs p.

Lemma wants_frame pe name w w' : frame w w' -> wants pe name w -> wants pe name w'.
Proof.
  intros Hf (p & Hp & Hn). assert (sigs w' !! peIndex pe = sigs w !! peIndex pe) as E by (by rewrite (fr_sigs _ _ Hf)).
  unfold sigs in E. rewrite !list_lookup_fmap, Hp in E. destruct (wProfiles w' !! peIndex pe) as [q|] eqn:Hq; [|done].
  injection E as _ E. exists q. split; [done|by rewrite E].
Qed.

Lemma wants_given pe name w p : wants pe name w -> wProfiles w !! peIndex pe = Some p -> given (optsFor name p) = true.
Proof. intros (q & Hq & Hn) Hp. simplify_eq. by apply programs_spec in Hn as [_ ?]. Qed.

Lemma wants_known pe name w : wants pe name w -> name ∈ ptpProcesses.
Proof. intros (q & Hq & Hn). by apply programs_spec in Hn as [? _]. Qed.

Lemma built_command w name opts p proc proc' runID :
  same_process proc proc' -> pcName proc = name -> pcConfigName proc = config_of name runID ->
  Exec.epState (pcExec proc) = Process.Created -> written (pcConfigPath proc) w ->
  built name runID (command name opts p proc') w.
Proof.
  intros [He Hp _ _] Hn Hc Hs Hw. unfold command, set_cmd, pcName, pcConfigName in *.
  split; unfold ident, pcName, pcConfigName; simpl; rewrite ?He, ?Hn, ?Hc, ?Hp; done.
Qed.

Lemma wp_NewPhc2sysProcess env pe w :
  wants pe phc2sysProcessName w ->
  wp w (NewPhc2sysProcess env pe) (fun proc w' => built phc2sysProcessName (peRunID pe) proc w').
Proof.
  intros Hw. unfold NewPhc2sysProcess. cbv zeta. apply awp_bind, awp_gets. apply awp_bind, wp_profile_at. intros p Hp.
  apply awp_bind, wp_loadProcessConf. intros conf w1 Hf1 Hp1. cbv beta. apply awp_bind.
  pose proof (wants_given _ _ _ _ Hw Hp) as Hg.
  eapply wp_renderPtp4lConf; [by rewrite Hp1|done|done|by eapply wants_known|].
  intros proc' opts' w2 Hf2 Hs Ho Hwr. cbv beta. apply awp_bind, wp_profile_at. intros q Hq.
  assert (wants pe phc2sysProcessName w2) as Hw2 by (eapply wants_frame, Hw; by etrans).
  apply awp_bind.
  assert (forall opts w3, frame w2 w3 ->
    wp w3 (mret (set_conditions (phc2sysConditions (peRunID pe) q (peClockType pe) (peHasFailover pe) (peTopology pe))
             (command phc2sysProcessName opts q proc'))) (fun proc w' => built phc2sysProcessName (peRunID pe) proc w')) as Hend.
  { intros opts w3 Hf3. apply awp_ret.
    destruct (built_command w3 phc2sysProcessName opts q _ _ (peRunID pe) Hs eq_refl eq_refl eq_refl) as [? ? ?];
      [by eapply written_frame|by split]. }
  destruct (isHAProfile (getProfileName q) (peTopology pe)); [|by apply awp_ret, Hend].
  apply awp_bind, wp_must. intros o ->. apply awp_bind. eapply wp_set_profile; [done| |].
  - apply signature_set_opts; [by eapply wants_given|by apply given_app].
  - intros w3 Hf3 _. by apply awp_ret, Hend.
Qed.

(** The attributes of a T-BC start without a report, a port or an offset. *)
Lemma tbc_attributes_fresh env pe configFile p t : tbc_attributes env pe configFile p = Some t -> PtpProcess.fresh t.
Proof.
  unfold tbc_attributes. cbv zeta. intros H.
  assert (forall (ports : list string) (m : gmap string PTPState), (forall port st, m !! port = Some st -> st = PTP_NOTSET) ->
    forall port st, foldl (fun m port => <[port := PTP_NOTSET]> m) m ports !! port = Some st -> st = PTP_NOTSET) as Hp.
  { induction ports as [|q ports IH]; intros m Hm; [done|]. apply IH. intros port st Hl.
    apply lookup_insert_Some in Hl as [[_ <-]|[_ Hl]]; [done|by eapply Hm]. }
  destruct (_ && _) in H.
  - match type of H with (_ ← ?x; _) = _ => destruct x as [th|]; [|done] end. injection H as <-.
    split; [|by split]. cbn. apply Hp. by intros ? ? ?%lookup_empty_Some.
  - injection H as <-. split; [|by split]. cbn. by intros ? ? ?%lookup_empty_Some.
Qed.

(** What the later steps of a constructor do to what it returns. *)
Lemma built_on_log name runID f proc w : built name runID proc w -> built name runID (on_log f proc) w.
Proof. intros [? ? ?]. by split. Qed.

Lemma built_set_conditions name runID c proc w : built name runID proc w -> built name runID (set_conditions c proc) w.
Proof. intros [? ? ?]. by split. Qed.

Lemma built_set_port name runID port proc w : built name runID proc w -> built name runID (proc <| pcGnssSerialPort := port |>) w.
Proof. intros [? ? ?]. by split. Qed.

Lemma built_add_dep name runID d proc w : built name runID proc w -> built name runID (add_dep d proc) w.
Proof. intros [? ? ?]. by split. Qed.

Lemma wp_NewPtp4lProcess env pe w :
  wants pe ptp4lProcessName w ->
  wp w (NewPtp4lProcess env pe) (fun proc w' => built ptp4lProcessName (peRunID pe) proc w').
Proof.
  intros Hw. unfold NewPtp4lProcess. cbv zeta. apply awp_bind, awp_gets. apply awp_bind, wp_profile_at. intros p Hp.
  apply awp_bind, wp_loadProcessConf. intros conf w1 Hf1 Hp1. cbv beta. apply awp_bind.
  pose proof (wants_given _ _ _ _ Hw Hp) as Hg.
  eapply wp_renderPtp4lConf; [by rewrite Hp1|done|done|by eapply wants_known|].
  intros proc' opts' w2 Hf2 Hs Ho Hwr. cbv beta. apply awp_bind, wp_profile_at. intros q Hq.
  apply awp_bind, wp_or_fail. intros t _.
  set (proc := on_log (PtpProcess.set_log_ifaces (map (ptp4l_source pe) (pcIfaces proc'))) proc').
  assert (built ptp4lProcessName (peRunID pe) (on_log (PtpProcess.set_attributes t) (command ptp4lProcessName opts' q proc)) w2) as Hb.
  { apply built_on_log. eapply (built_command w2 ptp4lProcessName opts' q _ proc (peRunID pe)); [destruct Hs; split; eassumption|done..].
    }
  destruct (_ && _); [|by apply awp_ret].
  unfold prepareTBCResources.
  assert (frame w2 (w2 <| wHardwareFlag := envHasHardware env q |>)) as Hf3 by (split; [done..|by intros x]).
  apply awp_bind, awp_modify; [done|]. apply awp_ret. eapply built_frame; [done|].
  destruct (envHasHardware env q); [by apply built_on_log|done].
Qed.

Lemma wp_NewTs2phcProcess env pe w :
  wants pe ts2phcProcessName w ->
  wp w (NewTs2phcProcess env pe) (fun proc w' => built ts2phcProcessName (peRunID pe) proc w').
Proof.
  intros Hw. unfold NewTs2phcProcess. cbv zeta. apply awp_bind, awp_gets. apply awp_bind, wp_profile_at. intros p Hp.
  eapply wp_seq with (V := fun _ _ => True).
  { destruct (str_eqb (peClockType pe) GM_type); [|by apply awp_ret].
    destruct (Ts2PhcOpts p) as [o|] eqn:Eo; [|by apply awp_ret].
    destruct (str_eqb o ""); [by apply awp_ret|].
    eapply wp_set_profile; [done| |done].
    apply (signature_set_opts ts2phcProcessName); [by eapply wants_given|].
    pose proof (wants_given _ _ _ _ Hw Hp) as Hg. unfold optsFor in Hg. simpl in Hg. rewrite Eo in Hg.
    unfold holdover_opts. destruct (Dpll.CalculateTimer _) as [[[[a b] c] d] e].
    repeat match goal with |- context [if Regex.contains ?x ?y then _ else _] => destruct (Regex.contains x y) end;
      repeat apply given_app; exact Hg. }
  intros _ w1 Hf1 _. apply awp_bind, wp_profile_at. intros q Hq. apply wants_frame with (1 := Hf1) in Hw.
  apply awp_bind, wp_loadProcessConf. intros conf w2 Hf2 Hp2. cbv beta. apply awp_bind.
  pose proof (wants_given _ _ _ _ Hw Hq) as Hg.
  eapply wp_renderPtp4lConf; [by rewrite Hp2|done|done|by eapply wants_known|].
  intros proc' opts' w3 Hf3 Hs Ho Hwr. cbv beta. apply awp_bind, wp_profile_at. intros r _. apply awp_ret.
  assert (built ts2phcProcessName (peRunID pe) (command ts2phcProcessName opts' r proc') w3) as Hb by
    (by eapply (built_command w3 ts2phcProcessName opts' r _ proc' (peRunID pe))).
  destruct (str_eqb _ _); [by apply built_set_conditions|done].
Qed.

Lemma wp_NewSyncEProcess env pe w :
  wants pe syncEProcessName w ->
  wp w (NewSyncEProcess env pe) (fun proc w' => built syncEProcessName (peRunID pe) proc w').
Proof.
  intros Hw. unfold NewSyncEProcess. cbv zeta. apply awp_bind, awp_gets. apply awp_bind, wp_profile_at. intros p Hp.
  pose proof (wants_given _ _ _ _ Hw Hp) as Hg.
  apply awp_bind, wp_loadProcessConf. intros conf w1 Hf1 Hp1. cbv beta. apply awp_bind, wp_must. intros name _.
  apply awp_bind. eapply wp_addMonitorFlags; [by rewrite Hp1|done|done|]. intros opts1 conf1 w2 Hf2 Ho. cbv beta.
  apply awp_bind, wp_must. intros [[text relations] conf2] _. apply awp_bind.
  destruct (wants_frame pe _ w w2 ltac:(by etrans) Hw) as (q & Hq & _).
  eapply wp_writeProcessConf; [done|]. intros port w3 Hf3 Hwr. apply awp_ret.
  by eapply (built_command w3 syncEProcessName opts1 p).
Qed.

Lemma wp_NewChronydProcess env pe w :
  wants pe chronydProcessName w ->
  wp w (NewChronydProcess env pe) (fun proc w' => built chronydProcessName (peRunID pe) proc w').
Proof.
  intros Hw. unfold NewChronydProcess. cbv zeta. destruct (negb _); [apply wp_fail|].
  apply awp_bind, awp_gets. apply awp_bind, wp_profile_at. intros p Hp.
  pose proof (wants_given _ _ _ _ Hw Hp) as Hg.
  apply awp_bind, wp_loadProcessConf. intros conf w1 Hf1 Hp1. cbv beta. apply awp_bind, wp_must. intros name _.
  apply awp_bind. eapply wp_addMonitorFlags; [by rewrite Hp1|done|done|]. intros opts1 conf1 w2 Hf2 Ho. cbv beta.
  apply awp_bind, wp_render. intros [text ifs] w3 Hf3 Hp3. cbv beta. apply awp_bind.
  destruct (wants_frame pe _ w w3 ltac:(by do 2 etrans) Hw) as (q & Hq & _).
  eapply wp_writeProcessConf; [done|]. intros port w4 Hf4 Hwr. apply awp_ret, built_set_conditions.
  by eapply (built_command w4 chronydProcessName opts1 p).
Qed.

(** ** The programs around ts2phc *)

Lemma wp_setupGPSDAndGPSPipe env p proc name runID w (U : Proc -> World -> Prop) :
  (forall proc0 proc', proc = Some proc0 -> (built name runID proc0 w -> built name runID proc' w) -> U proc' w) ->
  wp w (setupGPSDAndGPSPipe env p proc) U.
Proof.
  intros H. unfold setupGPSDAndGPSPipe. cbv zeta. apply awp_bind, wp_or_fail. intros port _. apply awp_bind, wp_must.
  intros proc0 ->. apply awp_ret. eapply H; [done|]. intros Hb.
  apply built_set_conditions, built_add_dep, built_add_dep. by_name; try apply built_set_port; try apply built_set_port; done.
Qed.

Lemma wp_hardware_ifaces env l : forall w (U : IFaces -> World -> Prop),
  (forall ifs w', frame w w' -> U ifs w') -> wp w (hardware_ifaces env l) U.
Proof.
  induction l as [|[[iface|] ph] l IH]; intros w U H; cbn [hardware_ifaces].
  - by apply awp_ret, H.
  - destruct (str_eqb iface ""); [by apply IH|]. cbv zeta.
    eapply wp_seq with (V := fun _ _ => True).
    { destruct (str_eqb (envGetPhcId env iface) ""); [by apply awp_ret|]. apply awp_modify; [|done]. split; [done..|by intros x]. }
    intros _ w1 Hf1 _. apply awp_bind, IH. intros rest w2 Hf2. apply awp_ret, H. by etrans.
  - by apply IH.
Qed.

(** What [setupDPLL] returns for what it was given. *)
Definition dpll_result (name : string) (runID : Z) (proc : option Proc) (o : option Proc) (w w' : World) : Prop :=
  match proc with
  | Some p => built name runID p w -> exists p', o = Some p' /\ built name runID p' w'
  | None => o = None
  end.

Lemma wp_dpll_loop env p clockType th times name runID ifs : forall d proc w,
  wp w (dpll_loop env p clockType th times ifs d proc) (fun o w' => dpll_result name runID proc o w w').
Proof.
  induction ifs as [|i ifs IH]; intros d proc w; cbn [dpll_loop].
  - apply awp_ret. destruct proc as [q|]; [|done]. intros Hb. by exists q.
  - destruct (_ || _); [apply IH|]. destruct (dpll_params_for env p (ifName i) d) as [d' flags].
    apply awp_bind, wp_must. intros _ _. apply awp_bind, wp_must. intros q ->. cbv zeta.
    eapply awp_mono; [apply IH|]. intros o w' Hf Ho. simpl in *. intros Hb. by apply Ho, built_add_dep.
Qed.

Lemma wp_setupDPLL env p clockType proc name runID w :
  wp w (setupDPLL env p clockType proc) (fun o w' => exists w1, frame w w1 /\ dpll_result name runID proc o w1 w').
Proof.
  unfold setupDPLL. cbv zeta.
  assert (wp w (mret proc : M _) (fun o w' => exists w1, frame w w1 /\ dpll_result name runID proc o w1 w')) as Hret.
  { apply awp_ret. exists w. split; [done|]. destruct proc as [q|]; [|done]. intros Hb. by exists q. }
  match goal with |- wp _ (match ?x with _ => _ end) _ => destruct x as [th|] end; [|exact Hret].
  match goal with |- wp _ (match ?x with _ => _ end) _ => destruct x as [times|] end; [|exact Hret].
  eapply wp_seq with (V := fun _ _ => True).
  - assert (forall w1, wp w1 (proc ← must proc; mret (pcIfaces proc)) (fun _ _ => True)) as Hown.
    { intros w1. apply awp_bind, wp_must. intros q _. by apply awp_ret. }
    destruct (str_eqb _ _); [|apply Hown]. apply awp_bind, wp_must. intros _ _. destruct (envReady env p); [|apply Hown].
    apply awp_bind, wp_hardware_ifaces. intros ifs w1 Hf1. destruct (_ <? _)%nat; [by apply awp_ret|apply Hown].
  - intros ifs w1 Hf1 _. eapply awp_mono; [apply (wp_dpll_loop env p clockType th times name runID)|].
    intros o w2 Hf2 Ho. by exists w1.
Qed.

(** ** What an application adds *)

(** [ConfigName] of a clock. *)
Definition clock_name (c : AnyClock) : string :=
  match c with
  | CBC c => bsCfgName (bcBase c) | CGM c => bsCfgName (gmBase c) | CTBC c => bsCfgName (tbBase c) | CHA c => bsCfgName (haBase c)
  end.

(** From a world to a later one: the processes and the clocks that came, and that the
    profiles still ask for the same. *)
Record grows (ids : list (string * string)) (clocks : list string) (w w' : World) : Prop := {
  gr_sigs : sigs w' = sigs w;
  gr_procs : exists procs, wProcs w' = wProcs w ++ procs /\ map ident procs = ids /\
    Forall (fun q => Exec.epState (pcExec q) = Process.Created /\ written (pcConfigPath q) w') procs;
  gr_clocks : exists cs, wClocks w' = wClocks w ++ cs /\ map clock_name cs = clocks;
  gr_calls : wCalls w' = wCalls w;
  gr_files : incl (wFiles w) (wFiles w')
}.

Lemma bind_Ok {A B} (m : M A) (k : A -> M B) w b w' :
  (m ≫= k) w = Ok b w' -> exists a w1, m w = Ok a w1 /\ k a w1 = Ok b w'.
Proof. unfold mbind, M_bind. destruct (m w) as [a w1|w1|]; [|done|done]. eauto. Qed.

Lemma wp_Ok {A} w (m : M A) U a w' : wp w m U -> m w = Ok a w' -> frame w w' /\ U a w'.
Proof. unfold wp. intros H E. by rewrite E in H. Qed.

Lemma frame_grows w w' : frame w w' -> grows [] [] w w'.
Proof. intros [? Hp Hc ? ?]. split; [done|exists []; by rewrite app_nil_r|exists []; by rewrite app_nil_r|done|done]. Qed.

Lemma grows_trans ids1 ids2 cs1 cs2 w1 w2 w3 :
  grows ids1 cs1 w1 w2 -> grows ids2 cs2 w2 w3 -> grows (ids1 ++ ids2) (cs1 ++ cs2) w1 w3.
Proof.
  intros [Hs1 (p1 & Hp1 & Hi1 & Hg1) (c1 & Hc1 & Hn1) Hl1 Hf1] [Hs2 (p2 & Hp2 & Hi2 & Hg2) (c2 & Hc2 & Hn2) Hl2 Hf2]. split.
  - congruence.
  - exists (p1 ++ p2). rewrite Hp2, Hp1, map_app, Hi1, Hi2, app_assoc. split_and!; [done..|]. apply Forall_app. split; [|done].
    eapply Forall_impl; [exact Hg1|]. intros q (Hcr & text & Ht). split; [done|]. exists text.
    by apply list_elem_of_In, Hf2, list_elem_of_In.
  - exists (c1 ++ c2). by rewrite Hc2, Hc1, map_app, Hn1, Hn2, app_assoc.
  - congruence.
  - by eapply incl_tran.
Qed.

Lemma add_built name runID w w1 proc w' :
  frame w w1 -> built name runID proc w1 -> add_proc proc w1 = Ok tt w' -> grows [(name, config_of name runID)] [] w w'.
Proof.
  intros Hf [Hi Hs Hw] [= <-]. apply (grows_trans [] _ [] _ _ w1); [by apply frame_grows|]. split; simpl.
  - done.
  - exists [proc]. simpl. rewrite Hi. split_and!; [done..|]. by apply Forall_singleton.
  - exists []. by rewrite app_nil_r.
  - done.
  - apply incl_refl.
Qed.

Lemma must_Ok {A} (o : option A) w a w' : must o w = Ok a w' -> w' = w /\ o = Some a.
Proof. destruct o; [|done]. by intros [= -> <-]. Qed.

Lemma or_fail_Ok {A} (o : option A) w a w' : or_fail o w = Ok a w' -> w' = w /\ o = Some a.
Proof. destruct o; [|done]. by intros [= -> <-]. Qed.

Lemma profile_at_Ok i w p w' : profile_at i w = Ok p w' -> w' = w /\ wProfiles w !! i = Some p.
Proof. intros H. apply bind_Ok in H as (ps & w1 & [= -> <-] & H). by apply must_Ok in H. Qed.

(** A constructor followed by the process it returns. *)
Lemma constructed name runID (m : M Proc) w w1 w' :
  frame w w1 -> wp w1 m (fun proc w2 => built name runID proc w2) -> (m ≫= add_proc) w1 = Ok tt w' ->
  grows [(name, config_of name runID)] [] w w'.
Proof.
  intros Hf Hm H. apply bind_Ok in H as (proc & w2 & Hp & H). destruct (wp_Ok _ _ _ _ _ Hm Hp) as [Hf2 Hb].
  eapply add_built; [|done|exact H]. by etrans.
Qed.

(** What the caller of a constructor holds before it looks at the error. *)
Definition maybe_built (name : string) (runID : Z) (o : option Proc) (w : World) : Prop :=
  match o with Some proc => built name runID proc w | None => True end.

Lemma wp_attempt_built name runID (m : M Proc) w :
  wp w m (fun proc w' => built name runID proc w') -> wp w (attempt m) (maybe_built name runID).
Proof. intros H. by apply wp_attempt. Qed.

Lemma create_ptp4l env pe w w' :
  wants pe ptp4lProcessName w ->
  (proc ← attempt (NewPtp4lProcess env pe);
   p ← profile_at (peIndex pe);
   proc ← (if controlled p || str_eqb (peClockType pe) GM_type then or_fail proc
           else proc ← must proc; mret (add_dep (NewPMCProcess (peRunID pe)) proc));
   add_proc proc) w = Ok tt w' ->
  grows [(ptp4lProcessName, config_of ptp4lProcessName (peRunID pe))] [] w w'.
Proof.
  intros Hw H. apply bind_Ok in H as (o & w1 & Ho & H).
  destruct (wp_Ok _ _ _ _ _ (wp_attempt_built _ _ _ _ (wp_NewPtp4lProcess env pe w Hw)) Ho) as [Hf Hb].
  apply bind_Ok in H as (p & w2 & Hp & H). apply profile_at_Ok in Hp as [-> _].
  eapply constructed; [exact Hf| |exact H]. destruct (_ || _).
  - apply wp_or_fail. by intros proc ->.
  - apply awp_bind, wp_must. intros proc ->. by apply awp_ret, built_add_dep.
Qed.

Lemma create_ts2phc env pe w w' :
  wants pe ts2phcProcessName w ->
  (proc ← attempt (NewTs2phcProcess env pe);
   p ← profile_at (peIndex pe);
   proc ← (if str_eqb (peClockType pe) GM_type then proc ← setupGPSDAndGPSPipe env p proc; mret (Some proc) else mret proc);
   proc ← setupDPLL env p (peClockType pe) proc;
   proc ← or_fail proc;
   add_proc proc) w = Ok tt w' ->
  grows [(ts2phcProcessName, config_of ts2phcProcessName (peRunID pe))] [] w w'.
Proof.
  intros Hw H. apply bind_Ok in H as (o & w1 & Ho & H).
  destruct (wp_Ok _ _ _ _ _ (wp_attempt_built _ _ _ _ (wp_NewTs2phcProcess env pe w Hw)) Ho) as [Hf Hb].
  apply bind_Ok in H as (p & w2 & Hp & H). apply profile_at_Ok in Hp as [-> _].
  apply bind_Ok in H as (o1 & w2 & Hg & H).
  assert (frame w1 w2 /\ maybe_built ts2phcProcessName (peRunID pe) o1 w2) as [Hf1 Hb1].
  { eapply wp_Ok, Hg. destruct (str_eqb _ _); [|by apply awp_ret].
    apply awp_bind, (wp_setupGPSDAndGPSPipe _ _ _ ts2phcProcessName (peRunID pe)). intros q q' -> Hq.
    apply awp_ret. by apply Hq. }
  apply bind_Ok in H as (o2 & w3 & Hd & H).
  destruct (wp_Ok _ _ _ _ _ (wp_setupDPLL env p (peClockType pe) o1 ts2phcProcessName (peRunID pe) w2) Hd) as [Hf2 (wd & Hfd & Hr)].
  eapply (constructed _ _ _ w w3); [transitivity w1; [done|by transitivity w2]| |exact H]. apply wp_or_fail. intros proc ->.
  destruct o1 as [q|]; [|done]. destruct (Hr (built_frame _ _ _ _ _ Hfd Hb1)) as (q' & [= ->] & ?). done.
Qed.

(** One program. *)
Lemma create_process_Ok env pe name w w' p :
  create_process env pe name w = Ok tt w' -> wProfiles w !! peIndex pe = Some p -> name ∈ ptpProcesses ->
  grows (if given (optsFor name p) then [(name, config_of name (peRunID pe))] else []) [] w w'.
Proof.
  intros H Hp Hn. apply bind_Ok in H as (q & w1 & Hq & H). apply profile_at_Ok in Hq as [-> Hq]. simplify_eq.
  destruct (given (optsFor name q)) eqn:Hg; [|injection H as <-; by apply frame_grows].
  assert (wants pe name w) as Hw by (exists q; by rewrite programs_spec).
  cbn [negb] in H.
  destruct (str_eqb name ptp4lProcessName) eqn:E1; [apply str_eqb_eq in E1 as ->; by eapply create_ptp4l|].
  destruct (str_eqb name phc2sysProcessName) eqn:E2.
  { apply str_eqb_eq in E2 as ->. apply bind_Ok in H as ([] & w1 & [= <-] & H).
    match type of H with _ ?w1 = _ => assert (frame w w1) as Hf by (split; [done..|by intros x]) end.
    eapply constructed; [exact Hf| |exact H]. apply wp_NewPhc2sysProcess. by eapply wants_frame. }
  destruct (str_eqb name ts2phcProcessName) eqn:E3.
  { apply str_eqb_eq in E3 as ->. apply bind_Ok in H as ([] & w1 & Hl & H).
    assert (frame w w1) as Hf by (destruct (envLeap env); injection Hl as <-; [split; [done..|by intros x]|done]).
    apply (grows_trans [] _ [] _ _ w1); [by apply frame_grows|]. eapply create_ts2phc; [by eapply wants_frame|exact H]. }
  destruct (str_eqb name syncEProcessName) eqn:E4.
  { apply str_eqb_eq in E4 as ->. eapply constructed; [done| |exact H]. by apply wp_NewSyncEProcess. }
  assert (name = chronydProcessName) as -> by (apply str_eqb_neq in E1, E2, E3, E4; set_solver).
  eapply constructed; [done| |exact H]. by apply wp_NewChronydProcess.
Qed.

Lemma programs_kept ids cs w w' i p q :
  grows ids cs w w' -> wProfiles w !! i = Some p -> wProfiles w' !! i = Some q -> programs q = programs p.
Proof.
  intros Hg Hp Hq. assert (sigs w' !! i = sigs w !! i) as E by (by rewrite (gr_sigs _ _ _ _ Hg)).
  unfold sigs in E. rewrite !list_lookup_fmap, Hp, Hq in E. simpl in E. by injection E.
Qed.

(** ** The processes of a profile *)

(** What a profile asks for under a run. *)
Definition asked (ps : list (option string * list string)) (x : nat * Z) : list (string * string) :=
  match ps !! x.1 with Some (_, names) => map (fun n => (n, config_of n x.2)) names | None => [] end.

Lemma create_each env pe p ns : forall w w',
  each (create_process env pe) ns w = Ok tt w' -> (wProfiles w !! peIndex pe = Some p) -> incl ns ptpProcesses ->
  grows (map (fun n => (n, config_of n (peRunID pe))) (List.filter (fun n => given (optsFor n p)) ns)) [] w w'.
Proof.
  assert (forall ns q q', programs q' = programs q -> incl ns ptpProcesses ->
    List.filter (fun n => given (optsFor n q)) ns = List.filter (fun n => given (optsFor n q')) ns) as Hsame.
  { intros ms q q' E Hi. apply filter_ext_in. intros n Hn. apply eq_bool_prop_intro.
    assert (forall r, Is_true (given (optsFor n r)) <-> n ∈ programs r) as Hr.
    { intros r. rewrite programs_spec, Is_true_true, (list_elem_of_In ptpProcesses). split; [|tauto]. auto. }
    by rewrite !Hr, E. }
  revert p. induction ns as [|n ns IH]; intros p w w' H Hp Hi; cbn [each] in H.
  - injection H as <-. by apply frame_grows.
  - apply bind_Ok in H as ([] & w1 & H1 & H2).
    assert (n ∈ ptpProcesses) as Hn by (apply list_elem_of_In, Hi; by left).
    pose proof (create_process_Ok _ _ _ _ _ _ H1 Hp Hn) as Hg.
    assert (is_Some (wProfiles w1 !! peIndex pe)) as [q Hq].
    { assert (sigs w1 !! peIndex pe = sigs w !! peIndex pe) as E by (by rewrite (gr_sigs _ _ _ _ Hg)).
      unfold sigs in E. rewrite !list_lookup_fmap, Hp in E. destruct (wProfiles w1 !! peIndex pe); [by eexists|done]. }
    assert (incl ns ptpProcesses) as Hi' by (intros x Hx; apply Hi; by right).
    pose proof (grows_trans _ _ _ _ _ _ _ Hg (IH q w1 w' H2 Hq Hi')) as Ht.
    rewrite (Hsame ns q p) in Ht; [|symmetry; by eapply programs_kept; [exact Hg|..]|done].
    simpl in *. destruct (given (optsFor n p)); exact Ht.
Qed.

Lemma createProcesses_Ok env runID i t clockType leadingNic upstreamPorts w w' :
  createProcesses env runID i t clockType leadingNic upstreamPorts w = Ok tt w' -> is_Some (wProfiles w !! i) ->
  grows (asked (sigs w) (i, runID)) [] w w'.
Proof.
  intros H [p Hp]. unfold asked, sigs. simpl. rewrite list_lookup_fmap, Hp. simpl.
  by apply (create_each env _ p ptpProcesses w w' H Hp), incl_refl.
Qed.

Lemma wp_prepareProfile env i w (U : Event.PtpClockThreshold -> World -> Prop) :
  (forall th w', frame w w' -> is_Some (wProfiles w' !! i) -> U th w') -> wp w (prepareProfile env i) U.
Proof.
  intros H. unfold prepareProfile. apply awp_bind, wp_profile_at. intros p Hp.
  eapply wp_seq with (V := fun _ w' => wProfiles w' !! i = Some p).
  { destruct (setting "unitTest" p); [|by apply awp_ret]. apply awp_modify; [|done]. split; [done..|by intros x]. }
  intros _ w1 Hf1 Hp1. apply awp_bind, wp_must. intros name _. cbv zeta.
  apply awp_bind. eapply wp_set_profile; [done| |].
  - unfold initHardware. destruct (envPlugins env p) as [settings conf].
    apply signature_eq; [done|]. intros n. unfold optsFor. done.
  - intros w2 Hf2 Hp2. apply awp_ret, H; [by transitivity w1|by eexists].
Qed.

Lemma prepareProfile_Ok env i w th w' : prepareProfile env i w = Ok th w' -> frame w w' /\ is_Some (wProfiles w' !! i).
Proof.
  intros H. apply (wp_Ok w (prepareProfile env i) (fun _ w' => is_Some (wProfiles w' !! i)) th w'); [|done].
  by apply wp_prepareProfile.
Qed.

Lemma wp_new_clock clockType cfg leadingNic th w :
  wp w (new_clock clockType cfg leadingNic th) (fun c _ => clock_name c = cfg).
Proof.
  unfold new_clock. destruct (str_eqb clockType GM_type); [by apply awp_ret|].
  destruct (str_eqb clockType TBC_type).
  { unfold wp, new_tbc. destruct (str_eqb leadingNic "").
    - split; [split; [done..|by intros x]|done].
    - destruct (TBC.Tbc.SetConfiguredLeadingInterface leadingNic (TBC.Tbc.NewTBC cfg (wSeq w))) as [[[x t] y]|] eqn:E; [|done].
      injection E as _ <- _. split; [split; [done..|by intros z]|done]. }
  destruct (str_eqb clockType BC_type); [by apply awp_ret|].
  destruct (str_eqb clockType OC_type); [by apply awp_ret|apply wp_fail].
Qed.

(** ** The profiles, in their order *)

Definition sig_name (s : option string * list string) : string := default "<nil>"%string s.1.

(** The profiles that are no part of an HA clock, with their runs. *)
Definition standalone_at (t : ProfileTopology) (S : list (option string * list string)) (i : nat) : option (nat * Z) :=
  s ← S !! i;
  if isHAProfile (sig_name s) t || isHAMember (sig_name s) t then None
  else Some (i, default 0 (profileRunID t !! sig_name s)).

Definition standalone (t : ProfileTopology) (S : list (option string * list string)) : list (nat * Z) :=
  omap (standalone_at t S) (seq 0 (length S)).

(** The position of the first profile of a name. *)
Fixpoint position (name : string) (i : nat) (S : list (option string * list string)) : option nat :=
  match S with
  | [] => None
  | s :: S' => if str_eqb (sig_name s) name then Some i else position name (Datatypes.S i) S'
  end.

(** The profiles of a list of names that are applied for an HA clock, with their runs. *)
Definition ha_run (t : ProfileTopology) (S : list (option string * list string)) (name : string) : option (nat * Z) :=
  i ← position name 0 S; run ← profileRunID t !! name; Some (i, run).

Lemma find_profile_position name ps : forall i, find_profile name i ps = position name i (map signature ps).
Proof. induction ps as [|p ps IH]; intros i; simpl; [done|]. by rewrite IH. Qed.

Lemma position_lookup name S : forall i j, position name i S = Some j -> (i <= j)%nat /\ exists s, S !! (j - i)%nat = Some s /\ sig_name s = name.
Proof.
  induction S as [|s S IH]; intros i j H; simpl in H; [done|].
  destruct (str_eqb (sig_name s) name) eqn:E.
  - injection H as <-. split; [lia|]. rewrite Nat.sub_diag. exists s. split; [done|by apply str_eqb_eq].
  - apply IH in H as (Hle & r & Hr & Hn). split; [lia|]. exists r. replace (j - i)%nat with (Datatypes.S (j - Datatypes.S i)) by lia. done.
Qed.

Lemma sigs_lookup w i s : sigs w !! i = Some s -> is_Some (wProfiles w !! i).
Proof. unfold sigs. rewrite list_lookup_fmap. destruct (wProfiles w !! i); [by eexists|done]. Qed.

(** Inversion of a run of steps. *)
Ltac step H x w := apply bind_Ok in H as (x & w & ? & H).

Lemma applyNodePtpProfile_Ok env runID i t w w' :
  applyNodePtpProfile env runID i t w = Ok tt w' -> grows (asked (sigs w) (i, runID)) [clockCfgName runID] w w'.
Proof.
  intros H. apply bind_Ok in H as (th & w1 & H1 & H).
  apply prepareProfile_Ok in H1 as [Hf1 Hp1].
  apply bind_Ok in H as (p & w2 & Hp & H). apply profile_at_Ok in Hp as [-> _].
  apply bind_Ok in H as ([[clockType leadingNic] upstreamPorts] & w2 & Hi & H). apply or_fail_Ok in Hi as [-> _].
  apply bind_Ok in H as (c & w2 & Hc & H). destruct (wp_Ok _ _ _ _ _ (wp_new_clock _ _ _ _ w1) Hc) as [Hf2 Hn].
  apply bind_Ok in H as ([] & w3 & [= <-] & H). apply createProcesses_Ok in H.
  2: { simpl. assert (sigs w2 !! i = sigs w1 !! i) as E by (by rewrite (fr_sigs _ _ Hf2)). destruct Hp1 as [q Hq].
       unfold sigs in E. rewrite !list_lookup_fmap, Hq in E. destruct (wProfiles w2 !! i); [by eexists|done]. }
  assert (frame w w2) as Hf by by etrans. rewrite <- (fr_sigs _ _ Hf).
  refine (grows_trans [] _ [clockCfgName runID] [] _ _ _ _ H).
  refine (grows_trans [] [] [] _ _ _ _ (frame_grows _ _ Hf) _).
  split; [done|exists []; by rewrite app_nil_r|exists [c]; simpl; by rewrite Hn|done|apply incl_refl].
Qed.

Lemma apply_standalone_Ok env t i w w' :
  apply_standalone env t i w = Ok tt w' ->
  grows (flat_map (asked (sigs w)) (option_list (standalone_at t (sigs w) i)))
    (map (fun x => clockCfgName x.2) (option_list (standalone_at t (sigs w) i))) w w'.
Proof.
  intros H. apply bind_Ok in H as (p & w1 & Hp & H). apply profile_at_Ok in Hp as [-> Hp]. cbv zeta in H.
  assert (sigs w !! i = Some (signature p)) as Hs by (unfold sigs; by rewrite list_lookup_fmap, Hp).
  unfold standalone_at. rewrite Hs. cbn [mbind option_bind].
  change (sig_name (signature p)) with (getProfileName p).
  destruct (isHAProfile (getProfileName p) t || isHAMember (getProfileName p) t); simpl.
  - injection H as <-. by apply frame_grows.
  - rewrite app_nil_r. by eapply applyNodePtpProfile_Ok.
Qed.

Lemma each_standalone env t l : forall w w',
  each (apply_standalone env t) l w = Ok tt w' ->
  grows (flat_map (asked (sigs w)) (omap (standalone_at t (sigs w)) l)) (map (fun x => clockCfgName x.2) (omap (standalone_at t (sigs w)) l)) w w'.
Proof.
  induction l as [|i l IH]; intros w w' H; cbn [each] in H; [injection H as <-; by apply frame_grows|].
  apply bind_Ok in H as ([] & w1 & H1 & H2). apply apply_standalone_Ok in H1. apply IH in H2.
  rewrite (gr_sigs _ _ _ _ H1) in H2. pose proof (grows_trans _ _ _ _ _ _ _ H1 H2) as Ht.
  rewrite <- flat_map_app, <- map_app in Ht. simpl. by destruct (standalone_at t (sigs w) i).
Qed.

Lemma ha_members_Ok env t names : forall w ms w',
  ha_members env t names w = Ok ms w' -> grows (flat_map (asked (sigs w)) (omap (ha_run t (sigs w)) names)) [] w w'.
Proof.
  induction names as [|name names IH]; intros w ms w' H; cbn [ha_members] in H; [injection H as <- <-; by apply frame_grows|].
  apply bind_Ok in H as (ps & w1 & [= <- <-] & H). cbn [omap list_omap]. unfold ha_run at 1.
  rewrite find_profile_position in H. change (map signature (wProfiles w)) with (sigs w) in H.
  destruct (position name 0 (sigs w)) as [i|]; [|by eapply IH]. cbn [mbind option_bind].
  destruct (profileRunID t !! name) as [runID|]; [|by eapply IH]. cbn [mbind option_bind].
  apply bind_Ok in H as (th & w1 & H1 & H).
  apply prepareProfile_Ok in H1 as [Hf1 Hp1].
  apply bind_Ok in H as ([] & w2 & H2 & H). apply createProcesses_Ok in H2; [|done].
  apply bind_Ok in H as (rest & w3 & H3 & H). injection H as <- <-. apply IH in H3.
  pose proof (grows_trans _ _ _ _ _ _ _ (frame_grows _ _ Hf1) H2) as Hg. simpl in Hg. rewrite (fr_sigs _ _ Hf1) in Hg.
  rewrite (gr_sigs _ _ _ _ Hg) in H3. exact (grows_trans _ _ _ _ _ _ _ Hg H3).
Qed.

Lemma NewHA_name cfg ms : clock_name (CHA (HA.Ha.NewHA cfg ms)) = cfg.
Proof.
  unfold HA.Ha.NewHA, clock_name. set (c := mkHA _ _ _ _ _). transitivity (bsCfgName (haBase c)); [|done]. generalize c. clear c.
  induction ms as [|m ms IH]; intros c; [done|]. cbn [foldl]. rewrite IH. done.
Qed.

Lemma assembleHAClock_Ok env t w w' :
  assembleHAClock env t w = Ok tt w' ->
  let ha := omap (ha_run t (sigs w)) [haProfile t] in
  grows (flat_map (asked (sigs w)) (omap (ha_run t (sigs w)) (haMembers t) ++ ha)) (map (fun x => config_of "phc2sys" x.2) ha) w w'.
Proof.
  intros H. cbv zeta. apply bind_Ok in H as (ps & w1 & [= <- <-] & H). cbn [omap list_omap]. unfold ha_run at 2 3.
  rewrite find_profile_position in H. change (map signature (wProfiles w)) with (sigs w) in H.
  destruct (position (haProfile t) 0 (sigs w)) as [i|]; [|done]. cbn [mbind option_bind].
  apply bind_Ok in H as (i' & w1 & [= <- <-] & H).
  destruct (profileRunID t !! haProfile t) as [runID|]; [|done]. cbn [mbind option_bind].
  apply bind_Ok in H as (r' & w1 & [= <- <-] & H).
  apply bind_Ok in H as (ms & w1 & Hm & H). apply ha_members_Ok in Hm.
  destruct (length ms =? 0)%nat; [done|].
  apply bind_Ok in H as (th & w2 & H1 & H).
  apply prepareProfile_Ok in H1 as [Hf2 Hp2].
  apply bind_Ok in H as ([] & w3 & H3 & H). apply createProcesses_Ok in H3; [|done].
  rewrite (fr_sigs _ _ Hf2), (gr_sigs _ _ _ _ Hm) in H3. injection H as <-.
  rewrite flat_map_app. simpl. rewrite app_nil_r.
  refine (grows_trans _ _ [] _ _ _ _ Hm _).
  refine (grows_trans [] _ [] _ _ _ _ (frame_grows _ _ Hf2) _).
  rewrite <- (app_nil_r (asked (sigs w) (i, runID))).
  refine (grows_trans _ [] [] _ _ _ _ H3 _).
  split; [done|exists []; by rewrite app_nil_r|eexists [_]; split; [reflexivity|]; cbn [map]; by rewrite NewHA_name|done|apply incl_refl].
Qed.

(** ** Before and after the processes *)

(** What the renaming of interfaces leaves alone. *)
Record prelude (w w' : World) : Prop := {
  pr_names : map Name (wProfiles w') = map Name (wProfiles w);
  pr_procs : wProcs w' = wProcs w;
  pr_clocks : wClocks w' = wClocks w;
  pr_calls : wCalls w' = wCalls w
}.

#[export] Instance prelude_preorder : PreOrder prelude.
Proof. split; [by split|]. intros a b c [? ? ? ?] [? ? ? ?]. split; congruence. Qed.

Lemma ResolveProfileInterfaces_name unmarshal marshal p r : Name (Resolver.ResolveProfileInterfaces unmarshal marshal p r).1 = Name p.
Proof. unfold Resolver.ResolveProfileInterfaces. repeat case_match; reflexivity. Qed.

Lemma mutate_profile_Ok env relations i w w' : mutate_profile env relations i w = Ok tt w' -> prelude w w'.
Proof.
  intros H. apply bind_Ok in H as (p & w1 & Hp & H). apply profile_at_Ok in Hp as [-> Hp].
  apply bind_Ok in H as (name & w1 & Hn & H). apply must_Ok in Hn as [-> Hn].
  apply bind_Ok in H as (q & w1 & Hq & H).
  assert (w1 = w /\ Name q = Name p) as [-> Hqn].
  { destruct (relations !! name); [|by injection Hq as <- <-].
    apply bind_Ok in Hq as (m & w2 & Hm & Hq). apply must_Ok in Hm as [-> _]. by injection Hq as <- <-. }
  apply bind_Ok in H as (r & w1 & Hr & H).
  assert (wProfiles w1 = wProfiles w /\ wProcs w1 = wProcs w /\ wClocks w1 = wClocks w /\ wCalls w1 = wCalls w /\ Name r = Name q)
    as (Hp1 & Hpr & Hcl & Hca & Hrn).
  { apply bind_Ok in Hr as (x & w2 & [= <- <-] & Hr). cbv zeta in Hr. apply bind_Ok in Hr as ([] & w2 & [= <-] & Hr).
    injection Hr as <- <-. by rewrite ResolveProfileInterfaces_name. }
  injection H as <-. split; simpl; [|done..].
  rewrite Hp1. change (Name <$> <[i := r]> (wProfiles w) = Name <$> wProfiles w). rewrite list_fmap_insert, list_insert_id; [done|].
  by rewrite list_lookup_fmap, Hp, Hrn, Hqn.
Qed.

Lemma each_mutate env relations l : forall w w', each (mutate_profile env relations) l w = Ok tt w' -> prelude w w'.
Proof.
  induction l as [|i l IH]; intros w w' H; cbn [each] in H; [by injection H as <-|].
  apply bind_Ok in H as ([] & w1 & H1 & H2). etrans; [by eapply mutate_profile_Ok|by apply IH].
Qed.

(** What the HA phc2sys is told leaves the processes what they are. *)
Definition told (q' q : Proc) : Prop := exists h, q' = q <| pcHaProfile := h |>.

Lemma told_refl q : told q q.
Proof. exists (pcHaProfile q). by destruct q. Qed.

Lemma told_again q q' q'' h : told q' q -> q'' = q' <| pcHaProfile := h |> -> told q'' q.
Proof. intros [h' ->] ->. exists h. by destruct q. Qed.

Lemma add_ha_ifaces_Ok names t ptp4ls proc w proc' w' :
  add_ha_ifaces names t ptp4ls proc w = Ok proc' w' ->
  w' = w /\ told proc' proc.
Proof.
  unfold add_ha_ifaces. set (P := fun m : M Proc => forall q w', m w = Ok q w' -> w' = w /\ told q proc).
  match goal with |- foldl ?f ?m0 ptp4ls w = _ -> _ => assert (forall m, P m -> P (foldl f m ptp4ls)) as HP; [|assert (P m0) as H0] end.
  - induction ptp4ls as [|q qs IH]; intros m Hm; [done|]. cbn [foldl]. apply IH. intros r w1 Hr.
    apply bind_Ok in Hr as (r0 & w2 & Hr0 & Hr). apply Hm in Hr0 as (-> & Ht). cbv zeta in Hr.
    destruct (isHAMember _ t); [|by injection Hr as <- <-].
    apply bind_Ok in Hr as (h & w2 & Hh & Hr). apply must_Ok in Hh as [-> _]. injection Hr as <- <-.
    split; [done|]. by eapply told_again.
  - intros q w1 H. injection H as <- <-. split; [done|apply told_refl].
  - by apply (HP _ H0).
Qed.

Lemma populate_all_Ok names t ptp4ls procs : forall w procs' w',
  populate_all names t ptp4ls procs w = Ok procs' w' ->
  w' = w /\ Forall2 told procs' procs.
Proof.
  induction procs as [|q qs IH]; intros w procs' w' H; cbn [populate_all] in H; [injection H as <- <-; by split|].
  apply bind_Ok in H as (q' & w1 & Hq & H).
  assert (w1 = w /\ told q' q) as (-> & Ht).
  { destruct (_ && _); [by eapply add_ha_ifaces_Ok|injection Hq as <- <-; split; [done|apply told_refl]]. }
  apply bind_Ok in H as (rest & w1 & Hr & H). injection H as <- <-. apply IH in Hr as (-> & Hrest).
  split; [done|by constructor].
Qed.

(** * Properties *)

(** The profiles and the runs of an application: those on their own, the members of the HA
    clock in the order in which it lists them, and the HA profile. *)
Definition alone (t : ProfileTopology) (w : World) : list (nat * Z) := standalone t (sigs w).
Definition ha_member_runs (t : ProfileTopology) (w : World) : list (nat * Z) :=
  if str_eqb (haProfile t) "" then [] else omap (ha_run t (sigs w)) (haMembers t).
Definition ha_runs (t : ProfileTopology) (w : World) : list (nat * Z) :=
  if str_eqb (haProfile t) "" then [] else omap (ha_run t (sigs w)) [haProfile t].

Lemma bind_modify {B} f (k : unit -> M B) w : (modify f ≫= k) w = k tt (f w).
Proof. done. Qed.

Lemma bind_gets {A B} (f : World -> A) (k : A -> M B) w : (gets f ≫= k) w = k (f w) w.
Proof. done. Qed.

Lemma insert_sorted_perm p l : insert_sorted p l ≡ₚ p :: l.
Proof. induction l as [|q l IH]; simpl; [done|]. destruct (_ <=? _); [done|]. rewrite IH. apply Permutation_swap. Qed.

Lemma sort_profiles_perm l : sort_profiles l ≡ₚ l.
Proof. induction l as [|p l IH]; simpl; [done|]. rewrite insert_sorted_perm. by constructor. Qed.

Definition ready_proc (w : World) (q : Proc) : Prop := Exec.epState (pcExec q) = Process.Created /\ written (pcConfigPath q) w.

Lemma same_idents procs' procs w :
  Forall2 told procs' procs -> Forall (ready_proc w) procs -> map ident procs' = map ident procs /\ Forall (ready_proc w) procs'.
Proof.
  induction 1 as [|q' q qs' qs [h ->] _ IH]; [done|]. intros [[Hs Hw] HF]%Forall_cons. destruct (IH HF) as [IH1 IH2].
  split; [simpl; by rewrite IH1|]. by constructor.
Qed.

Lemma names_of_sigs a b : sigs a = sigs b -> map Name (wProfiles a) = map Name (wProfiles b).
Proof.
  intros E. assert (forall c, map Name (wProfiles c) = map fst (sigs c)) as Hn by (intros c; unfold sigs; by rewrite map_map).
  by rewrite !Hn, E.
Qed.

(** ** Starting *)

(** A process starts at once when nothing is written about its start, or [Immediate]. *)
Definition starts (conds : option (list (Action * option Condition))) : bool :=
  match conds with
  | Some l => match configured ActionStart l with Some (Immediate _) | None => true | Some _ => false end
  | None => true
  end.

Lemma immediate_starts conds : immediate conds = starts conds.
Proof. destruct conds as [l|]; [|done]. unfold immediate, GetCondition, starts. by destruct (configured ActionStart l). Qed.

(** The state in which the application leaves a process. *)
Definition launched (env : Env) (q : Proc) : Prop :=
  Exec.epState (pcExec q) = if starts (Exec.epConditions (pcExec q)) && negb (envCancelled env) then Process.Starting else Process.Created.

(** What is asked for a process: for its dependent ones that start at once, then for itself. *)
Definition launch_dep (env : Env) (q : Proc) (d : Dep) : list Call :=
  if starts (Some (dep_conditions d)) then start_calls env q (dep_name d) (Some d) else [].

Definition launch (env : Env) (q : Proc) : list Call :=
  flat_map (launch_dep env q) (pcDeps q) ++ (if starts (Exec.epConditions (pcExec q)) then start_calls env q (pcName q) None else []).

Definition noted (calls : list Call) (w : World) : World := w <| wCalls := wCalls w ++ calls |>.

Lemma bind_note {B} calls (k : unit -> M B) w : (note calls ≫= k) w = k tt (noted calls w).
Proof. done. Qed.

Lemma noted_nil w : noted [] w = w.
Proof. unfold noted. rewrite app_nil_r. by destruct w. Qed.

Lemma noted_app a b w : noted b (noted a w) = noted (a ++ b) w.
Proof. unfold noted. simpl. by rewrite app_assoc. Qed.

(** The process after [start_proc]. *)
Definition begun (env : Env) (q : Proc) : Proc :=
  if starts (Exec.epConditions (pcExec q)) && negb (envCancelled env) then on_exec (fun e => (Exec.Start e).2) q else q.

Lemma begun_spec env q :
  Exec.epState (pcExec q) = Process.Created ->
  ident (begun env q) = ident q /\ pcConfigPath (begun env q) = pcConfigPath q /\
  launch env (begun env q) = launch env q /\ launched env (begun env q).
Proof.
  intros Hs. unfold launched, begun.
  destruct (starts (Exec.epConditions (pcExec q)) && negb (envCancelled env)) eqn:E; [|by rewrite E].
  destruct q as [[n c k e ch conds st cmd] lg path sock pr th cl port ha deps]. simpl in Hs, E. subst st.
  split_and!; [done..|]. change (Process.Starting = if starts conds && negb (envCancelled env) then Process.Starting else Process.Created).
  by rewrite E.
Qed.

Lemma each_dep env q ds : forall w, each (start_dep env q) ds w = Ok tt (noted (flat_map (launch_dep env q) ds) w).
Proof.
  induction ds as [|d ds IH]; intros w; cbn [each flat_map]; [by rewrite noted_nil|].
  unfold start_dep, launch_dep at 1. rewrite immediate_starts. destruct (starts _).
  - rewrite <- noted_app, bind_note. apply IH.
  - apply IH.
Qed.

Lemma start_proc_eq env q w :
  Exec.epState (pcExec q) = Process.Created -> start_proc env q w = Ok (begun env q) (noted (launch env q) w).
Proof.
  intros Hs. unfold start_proc. unfold mbind at 1, M_bind. rewrite each_dep, Hs, immediate_starts.
  unfold begun, launch. destruct (starts (Exec.epConditions (pcExec q))).
  - rewrite <- noted_app, bind_note. by destruct (envCancelled env).
  - by rewrite app_nil_r.
Qed.

Lemma start_all_eq env procs : forall w,
  Forall (fun q => Exec.epState (pcExec q) = Process.Created) procs ->
  start_all env procs w = Ok (map (begun env) procs) (noted (flat_map (launch env) procs) w).
Proof.
  induction procs as [|q qs IH]; intros w HF; cbn [start_all flat_map map]; [by rewrite noted_nil|].
  apply Forall_cons in HF as [Hq HF]. unfold mbind at 1, M_bind at 1. rewrite start_proc_eq by done.
  unfold mbind, M_bind. rewrite IH by done. by rewrite <- noted_app.
Qed.

Lemma all_begun env w procs :
  Forall (ready_proc w) procs ->
  map ident (map (begun env) procs) = map ident procs /\
  flat_map (launch env) (map (begun env) procs) = flat_map (launch env) procs /\
  Forall (fun q => launched env q /\ written (pcConfigPath q) w) (map (begun env) procs).
Proof.
  induction 1 as [|q qs [Hs Hw] _ IH]; [done|]. destruct IH as (IH1 & IH2 & IH3), (begun_spec env q Hs) as (H1 & H2 & H3 & H4).
  cbn [map flat_map]. rewrite H1, H3, IH1, IH2. split_and!; [done..|]. constructor; [|done]. by rewrite H2.
Qed.

(** What a successful application from [w] has led to. *)
Definition applied (env : Env) (w w' : World) : Prop :=
  exists t, NewProfileTopology (sort_profiles (wProfiles w)) = inr t /\
    map Name (wProfiles w') = map Name (sort_profiles (wProfiles w)) /\
    map ident (wProcs w') = flat_map (asked (sigs w')) (alone t w' ++ ha_member_runs t w' ++ ha_runs t w') /\
    Forall (fun q => launched env q /\ written (pcConfigPath q) w') (wProcs w') /\
    map clock_name (wClocks w') =
      map (fun x => clockCfgName x.2) (alone t w') ++ map (fun x => config_of "phc2sys" x.2) (ha_runs t w') /\
    wCalls w' =
      [CInitializeOffsetMaps; CClearHwConfig] ++
      (if (0 <? length (wProfiles w))%nat then [CSetPtpConfig (sort_profiles (wProfiles w))] else []) ++
      [CSetEventChannel] ++ flat_map (launch env) (wProcs w') ++ [CPopulateHwConfig; CRefreshNodePtpDevice; CSyncStatusUpdate] /\
    wReady w' = true.

(** What the first steps ask for. *)
Definition first_calls (ps : list PtpProfile) : list Call :=
  [CInitializeOffsetMaps; CClearHwConfig] ++ (if (0 <? length ps)%nat then [CSetPtpConfig ps] else []).

(** The first steps: the sorted profiles, with nothing built. *)
Lemma application_start env w w' :
  applyNodePTPProfiles env w = Ok tt w' ->
  exists w1 t, wProfiles w1 = sort_profiles (wProfiles w) /\ wProcs w1 = [] /\ wClocks w1 = [] /\
    wCalls w1 = first_calls (wProfiles w1) /\
    NewProfileTopology (wProfiles w1) = inr t /\
    (_ ← each (mutate_profile env (reconcileRelatedProfiles (wProfiles w1))) (seq 0 (length (wProfiles w1)));
     _ ← each (apply_standalone env t) (seq 0 (length (wProfiles w1)));
     _ ← (if str_eqb (haProfile t) "" then mret tt else assembleHAClock env t);
     _ ← populateHAInterfaces t;
     _ ← note [CSetEventChannel];
     _ ← StartProcesses env;
     _ ← note [CPopulateHwConfig; CRefreshNodePtpDevice];
     _ ← modify (fun w => w <| wReady := true |>);
     note [CSyncStatusUpdate]) w1 = Ok tt w'.
Proof.
  unfold applyNodePTPProfiles. rewrite !bind_modify, bind_gets. intros H. apply bind_Ok in H as ([] & w0 & H0 & H).
  rewrite bind_modify in H. revert H. set (w1 := w0 <| wResolver := _ |>).
  assert (wProfiles w0 = sort_profiles (wProfiles w) /\ wProcs w0 = [] /\ wClocks w0 = [] /\ wCalls w0 = first_calls (wProfiles w0))
    as (Hs & Hp & Hc & Hl).
  { unfold first_calls. simpl in H0. destruct (0 <? length (sort_profiles (wProfiles w)))%nat eqn:E; injection H0 as <-; simpl; by rewrite E. }
  match goal with |- context [NewProfileTopology ?ps] => change ps with (wProfiles (clear_world w <| wProfiles := sort_profiles (wProfiles w) |>)) end.
  replace (wProfiles (clear_world w <| wProfiles := sort_profiles (wProfiles w) |>)) with (wProfiles w1) by (by simpl).
  assert (wProfiles w1 = sort_profiles (wProfiles w) /\ wProcs w1 = [] /\ wClocks w1 = [] /\ wCalls w1 = first_calls (wProfiles w1))
    as (Hs1 & Hp1 & Hc1 & Hl1) by done.
  clearbody w1. intros H. apply bind_Ok in H as (t & w2 & Ht & H). exists w1, t.
  destruct (NewProfileTopology (wProfiles w1)) as [e|t'] eqn:E; [done|]. by injection Ht as <- <-.
Qed.

Lemma populateHAInterfaces_Ok t w w' :
  populateHAInterfaces t w = Ok tt w' -> exists procs, w' = w <| wProcs := procs |> /\ Forall2 told procs (wProcs w).
Proof.
  intros H. apply bind_Ok in H as (names & w1 & [= <- <-] & H). apply bind_Ok in H as (ps & w1 & [= <- <-] & H).
  apply bind_Ok in H as (procs & w1 & Hall & H). apply populate_all_Ok in Hall as [-> Hall]. exists procs. by injection H as <-.
Qed.

(** The last steps, when all processes are built and none has started. *)
Lemma application_end env w w' :
  (_ ← note [CSetEventChannel];
   _ ← StartProcesses env;
   _ ← note [CPopulateHwConfig; CRefreshNodePtpDevice];
   _ ← modify (fun w => w <| wReady := true |>);
   note [CSyncStatusUpdate]) w = Ok tt w' ->
  Forall (ready_proc w) (wProcs w) ->
  w' = w <| wProcs := map (begun env) (wProcs w) |>
         <| wCalls := wCalls w ++ [CSetEventChannel] ++ flat_map (launch env) (wProcs w) ++ [CPopulateHwConfig; CRefreshNodePtpDevice; CSyncStatusUpdate] |>
         <| wReady := true |>.
Proof.
  intros H HF. rewrite bind_note in H.
  apply bind_Ok in H as ([] & w1 & Hst & H). unfold StartProcesses in Hst. rewrite bind_gets in Hst.
  apply bind_Ok in Hst as (procs & w2 & Hall & Hst).
  rewrite start_all_eq in Hall by (eapply Forall_impl; [exact HF|]; by intros q [? _]).
  injection Hall as <- <-. injection Hst as <-. injection H as <-. unfold noted. simpl. by rewrite <- !app_assoc.
Qed.

Lemma ha_part env t w w' :
  (if str_eqb (haProfile t) "" then mret tt else assembleHAClock env t) w = Ok tt w' ->
  grows (flat_map (asked (sigs w)) (ha_member_runs t w ++ ha_runs t w)) (map (fun x => config_of "phc2sys" x.2) (ha_runs t w)) w w'.
Proof.
  unfold ha_runs, ha_member_runs. destruct (str_eqb (haProfile t) "").
  - intros H. injection H as <-. by apply frame_grows.
  - by apply (assembleHAClock_Ok env).
Qed.

Lemma application_Ok env w w' : applyNodePTPProfiles env w = Ok tt w' -> applied env w w'.
Proof.
  intros H. apply application_start in H as (w0 & t & Hsort & Hp0 & Hc0 & Hl0 & Ht & H).
  apply bind_Ok in H as ([] & w1 & Hm & H). apply each_mutate in Hm as [Hnames Hp1 Hc1 Hl1].
  apply bind_Ok in H as ([] & w2 & Ha & H). apply each_standalone in Ha.
  apply bind_Ok in H as ([] & w3 & Hh & H). apply ha_part in Hh.
  apply bind_Ok in H as ([] & w4 & Hpop & H). apply populateHAInterfaces_Ok in Hpop as (procs4 & -> & Hall).
  unfold ha_runs, ha_member_runs in Hh. rewrite (gr_sigs _ _ _ _ Ha) in Hh.
  destruct (grows_trans _ _ _ _ _ _ _ Ha Hh) as [Hs (procs & Hp & Hi & Hready) (cs & Hc & Hn) Hl _].
  rewrite Hp1, Hp0 in Hp. rewrite Hc1, Hc0 in Hc. simpl in Hp, Hc. subst procs cs.
  assert (length (sigs w1) = length (wProfiles w0)) as Hlen.
  { unfold sigs. apply (f_equal length) in Hnames. rewrite !length_map in Hnames. rewrite length_map. exact Hnames. }
  destruct (same_idents _ _ w3 Hall Hready) as [Hids Hready'].
  apply application_end in H; [|done]. destruct (all_begun env w3 procs4 Hready') as (Hb1 & Hb2 & Hb3).
  assert (sigs w' = sigs w1) as Hsw by (by subst w').
  exists t. rewrite <- Hsort. unfold alone, ha_member_runs, ha_runs, standalone. rewrite Hsw, Hlen.
  assert (length (wProfiles w) = length (wProfiles w0)) as Hlw.
  { rewrite Hsort. symmetry. apply Permutation_length, sort_profiles_perm. }
  subst w'. cbn [wProcs wProfiles wClocks wCalls wReady]. split_and!.
  - done.
  - rewrite <- Hnames. exact (names_of_sigs w3 w1 Hs).
  - simpl. rewrite Hb1, Hids, Hi. by rewrite <- flat_map_app.
  - exact Hb3.
  - exact Hn.
  - simpl. rewrite Hb2, Hl, Hl1, Hl0, Hlw. unfold first_calls. by rewrite <- !app_assoc.
  - done.
Qed.

(** ** Names of configurations *)

Lemma app_cancel_r u : forall s t, (s +:+ u)%string = (t +:+ u)%string -> s = t.
Proof.
  induction s as [|a s IH]; intros [|b t] H; [done| | |].
  - apply (f_equal String.length) in H. rewrite !Regex.str_app_length in H. simpl in H. lia.
  - apply (f_equal String.length) in H. rewrite !Regex.str_app_length in H. simpl in H. lia.
  - rewrite !str_app_cons in H. injection H as -> H. f_equal. by apply IH.
Qed.

Lemma fmt_d_inj x y : 0 <= x -> 0 <= y -> fmt_d x = fmt_d y -> x = y.
Proof.
  intros Hx Hy H. assert (forall z, 0 <= z <= x + y -> ParseInt (fmt_d z) 10 (x + y + 2) = (z, true)) as HP.
  { intros z Hz. apply ParseInt_fmt; [lia|]. pose proof (Z.pow_gt_lin_r 2 (x + y + 2 - 1) ltac:(lia) ltac:(lia)). lia. }
  pose proof (HP x ltac:(lia)) as H1. rewrite H, (HP y ltac:(lia)) in H1. congruence.
Qed.

Lemma config_of_inj n m x y :
  n ∈ ptpProcesses -> m ∈ ptpProcesses -> 0 <= x -> 0 <= y -> config_of n x = config_of m y -> n = m /\ x = y.
Proof.
  intros Hn Hm Hx Hy H. assert (n = m) as <-.
  { unfold ptpProcesses in *. rewrite !list_elem_of_In in Hn, Hm. simpl in Hn, Hm.
    destruct Hn as [<-|[<-|[<-|[<-|[<-|[]]]]]], Hm as [<-|[<-|[<-|[<-|[<-|[]]]]]]; first [reflexivity|discriminate H]. }
  split; [done|]. unfold config_of in H. apply (inj (String.append n)), (inj (String.append ".")), app_cancel_r in H.
  by apply fmt_d_inj.
Qed.

(** ** Every run is a position *)

Lemma NoDup_omap_back {A B C} (f : A -> option B) (g : B -> C) (back : C -> option A) l :
  (forall a b, f a = Some b -> back (g b) = Some a) -> NoDup l -> NoDup (map g (omap f l)).
Proof.
  intros Hback. induction 1 as [|a l Ha _ IH]; [constructor|]. cbn [omap list_omap].
  destruct (f a) as [b|] eqn:E; [|done]. constructor; [|done]. intros Hin. apply list_elem_of_fmap in Hin as (b' & Hg & Hb').
  apply list_elem_of_omap in Hb' as (a' & Ha' & Hf). apply Hback in E, Hf. rewrite Hg in E. congruence.
Qed.

Section distinct.
Context (ps : list PtpProfile) (t : ProfileTopology).
Hypothesis names_unique : NoDup (map getProfileName ps).
Hypothesis named_all : Forall (fun p => Name p <> Some ""%string) ps.
Hypothesis topology : NewProfileTopology ps = inr t.
Hypothesis listed_once : forall p, p ∈ ps -> NoDup (getProfileName p :: listHAMemberProfiles p).

Context (S : list (option string * list string)).
Hypothesis same_names : map fst S = map Name ps.

#[local] Notation name_at i := (sig_name <$> S !! i).

Lemma name_at_profile i n : name_at i = Some n <-> exists p, ps !! i = Some p /\ getProfileName p = n.
Proof.
  assert ((fst <$> S) !! i = (Name <$> ps) !! i) as E by (change (map fst S !! i = map Name ps !! i); by rewrite same_names).
  rewrite !list_lookup_fmap in E. unfold sig_name, getProfileName. destruct (S !! i) as [[a b]|], (ps !! i) as [p|]; simpl in *; simplify_eq.
  - split; [intros [= <-]; by eexists|]. intros (q & [= <-] & <-). done.
  - split; [done|]. by intros (q & ? & _).
Qed.

Lemma name_at_inj i j n : name_at i = Some n -> name_at j = Some n -> i = j.
Proof.
  rewrite !name_at_profile. intros (p & Hp & Hn) (q & Hq & Hm). apply (NoDup_lookup (getProfileName <$> ps) i j n names_unique).
  - by rewrite list_lookup_fmap, Hp, <- Hn.
  - by rewrite list_lookup_fmap, Hq, <- Hm.
Qed.

Lemma run_is_position i n : name_at i = Some n -> profileRunID t !! n = Some (Z.of_nat i).
Proof.
  intros Hi. destruct (NewProfileTopology_ok _ _ named_all topology) as [[Hr _ _ _] _]. apply Hr.
  pose proof Hi as (p & Hp & Hn)%name_at_profile. split; [lia|]. rewrite Nat2Z.id. split; [by exists p|].
  intros j q Hj Hq Hm. assert (i = j); [|lia]. eapply name_at_inj; [exact Hi|]. apply name_at_profile. by exists q.
Qed.

Lemma standalone_run i x : standalone_at t S i = Some x ->
  x = (i, Z.of_nat i) /\ exists n, name_at i = Some n /\ isHAProfile n t = false /\ isHAMember n t = false.
Proof.
  unfold standalone_at. destruct (S !! i) as [s|] eqn:E; [|done]. cbn [mbind option_bind].
  assert (name_at i = Some (sig_name s)) as Hn by (by rewrite E).
  rewrite (run_is_position i (sig_name s) Hn). destruct (isHAProfile (sig_name s) t) eqn:E1, (isHAMember (sig_name s) t) eqn:E2; try done.
  intros [= <-]. split; [done|]. exists (sig_name s). by rewrite <- E.
Qed.

Lemma ha_run_position n x : ha_run t S n = Some x -> x = (x.1, Z.of_nat x.1) /\ name_at x.1 = Some n.
Proof.
  unfold ha_run. destruct (position n 0 S) as [i|] eqn:E; [|done]. apply position_lookup in E as (_ & s & Hs & Hn).
  rewrite Nat.sub_0_r in Hs. assert (name_at i = Some n) as Hi by (rewrite Hs; simpl; by rewrite Hn).
  cbn [mbind option_bind]. rewrite (run_is_position i n Hi). intros [= <-]. done.
Qed.

Lemma ha_listed_once : haMembers t <> [] -> NoDup (haProfile t :: haMembers t).
Proof.
  intros H. destruct (NewProfileTopology_ok _ _ named_all topology) as [[_ _ Hs _] _].
  destruct (Hs H) as (p & Hp & _ & <- & <-). by apply listed_once.
Qed.

(** The positions that are applied, each once and under its own run. *)
Lemma applied_positions (b : bool) :
  let runs := standalone t S ++ (if b then [] else omap (ha_run t S) (haMembers t)) ++ (if b then [] else omap (ha_run t S) [haProfile t]) in
  Forall (fun x => x.2 = Z.of_nat x.1) runs /\ NoDup (map fst runs).
Proof.
  assert (forall names, Forall (fun x => x.2 = Z.of_nat x.1) (omap (ha_run t S) names)) as Hha.
  { intros names. apply Forall_forall. intros x Hx. apply list_elem_of_omap in Hx as (n & _ & Hx).
    apply ha_run_position in Hx as [Hx _]. by rewrite Hx. }
  assert (forall names, NoDup names -> NoDup (map fst (omap (ha_run t S) names))) as Hnd.
  { intros names. apply (NoDup_omap_back _ fst (fun i => name_at i)). intros n x Hx. by apply ha_run_position in Hx as [_ ?]. }
  assert (Forall (fun x => x.2 = Z.of_nat x.1) (standalone t S)) as Ha.
  { apply Forall_forall. intros x Hx. apply list_elem_of_omap in Hx as (i & _ & Hx). by apply standalone_run in Hx as [-> _]. }
  assert (NoDup (map fst (standalone t S))) as Hand.
  { apply (NoDup_omap_back _ fst Some); [|apply NoDup_ListNoDup, seq_NoDup]. intros i x Hx. by apply standalone_run in Hx as [-> _]. }
  destruct b; cbv zeta; [by rewrite !app_nil_r|].
  rewrite <- omap_app. split; [by apply Forall_app|]. rewrite map_app. apply NoDup_app. split_and!; [done| |].
  - intros i Hi Hj. apply list_elem_of_fmap in Hi as (x & -> & Hx). apply list_elem_of_omap in Hx as (i & _ & Hx).
    apply standalone_run in Hx as (-> & n & Hn & H1 & H2). simpl in Hj.
    apply list_elem_of_fmap in Hj as (y & Ey & Hy). apply list_elem_of_omap in Hy as (m & Hm & Hy).
    apply ha_run_position in Hy as [_ Hy]. rewrite <- Ey, Hn in Hy. injection Hy as <-.
    apply elem_of_app in Hm as [Hm|Hm%list_elem_of_singleton].
    + unfold isHAMember in H2. apply not_true_iff_false in H2. apply H2, existsb_exists. exists n.
      split; [by apply list_elem_of_In|apply str_eqb_refl].
    + unfold isHAProfile in H1. apply str_eqb_neq in H1. done.
  - apply Hnd. destruct (haMembers t) as [|m ms] eqn:E; [simpl; apply NoDup_singleton|].
    rewrite Permutation_app_comm. rewrite <- E. apply ha_listed_once. by rewrite E.
Qed.
End distinct.

Lemma asked_config S x c : c ∈ map snd (asked S x) -> exists n, n ∈ map snd S ≫= (fun l => l) /\ c = config_of n x.2.
Proof.
  unfold asked. destruct (S !! x.1) as [[a names]|] eqn:E; [|by intros ?%list_elem_of_In]. rewrite map_map. simpl.
  intros (n & -> & Hn)%list_elem_of_fmap. exists n. split; [|done]. apply list_elem_of_bind. exists names. split; [done|].
  apply list_elem_of_fmap. exists (a, names). split; [done|by eapply list_elem_of_lookup_2].
Qed.

(** The programs of the profiles are known ones, each once. *)
Definition known_programs (S : list (option string * list string)) : Prop :=
  Forall (fun s => incl s.2 ptpProcesses /\ NoDup s.2) S.

Lemma sigs_known w : known_programs (sigs w).
Proof.
  unfold known_programs, sigs. apply Forall_map, Forall_forall. intros p _. simpl. unfold programs. split.
  - intros n Hn. by apply filter_In in Hn as [? _].
  - apply NoDup_ListNoDup, List.NoDup_filter, NoDup_ListNoDup. unfold ptpProcesses. apply (bool_decide_unpack _). by vm_compute.
Qed.

Lemma asked_known S x c : known_programs S -> c ∈ map snd (asked S x) -> exists n, n ∈ ptpProcesses /\ c = config_of n x.2.
Proof.
  intros HS (n & (l & Hn & Hl)%list_elem_of_bind & ->)%asked_config. exists n. split; [|done].
  apply list_elem_of_fmap in Hl as (s & -> & Hs). unfold known_programs in HS. rewrite Forall_forall in HS.
  apply list_elem_of_In, (HS s Hs), list_elem_of_In, Hn.
Qed.

Lemma asked_distinct S runs :
  known_programs S -> Forall (fun x => x.2 = Z.of_nat x.1) runs -> NoDup (map fst runs) ->
  NoDup (map snd (flat_map (asked S) runs)).
Proof.
  intros HS. induction runs as [|x runs IH]; intros Hx Hnd; [constructor|]. apply Forall_cons in Hx as [Hx Hrest].
  cbn [map] in Hnd. apply NoDup_cons in Hnd as [Hnew Hnd]. cbn [flat_map]. rewrite map_app. apply NoDup_app.
  split_and!; [| |by apply IH].
  - unfold asked. destruct (S !! x.1) as [[a names]|] eqn:E; [|constructor]. rewrite map_map. simpl.
    unfold known_programs in HS. rewrite Forall_forall in HS. destruct (HS (a, names)) as [Hi Hn]; [by eapply list_elem_of_lookup_2|].
    simpl in *. clear -Hi Hn Hx. induction Hn as [|n names Hnew _ IH]; [constructor|]. cbn [map]. constructor.
    + intros (m & Hm & Hin)%list_elem_of_fmap. apply config_of_inj in Hm as [-> _]; [done| | |lia|lia].
      * apply list_elem_of_In, Hi. by left.
      * apply list_elem_of_In, Hi. right. by apply list_elem_of_In.
    + apply IH. intros m Hm. apply Hi. by right.
  - intros c (n & Hn & ->)%asked_known Hc; [|done]. apply list_elem_of_fmap in Hc as (q & Hq & Hc).
    apply list_elem_of_In, in_flat_map in Hc as (y & Hy & Hc).
    assert (config_of n x.2 ∈ map snd (asked S y)) as Hin
      by (rewrite Hq; apply list_elem_of_fmap; exists q; split; [done|by apply list_elem_of_In]).
    apply asked_known in Hin as (m & Hm & Hc'); [|done]. rewrite Forall_forall in Hrest.
    pose proof (Hrest y ltac:(by apply list_elem_of_In)) as Hy2.
    apply config_of_inj in Hc' as [_ Exy]; [|done|done|lia|lia]. apply Hnew. apply list_elem_of_fmap. exists y.
    split; [lia|by apply list_elem_of_In].
Qed.

Lemma configs_distinct n runs :
  n ∈ ptpProcesses -> Forall (fun x => x.2 = Z.of_nat x.1) runs -> NoDup (map fst runs) ->
  NoDup (map (fun x : nat * Z => config_of n x.2) runs).
Proof.
  intros Hn. induction runs as [|x runs IH]; intros Hx Hnd; [constructor|]. apply Forall_cons in Hx as [Hx Hrest].
  cbn [map] in *. apply NoDup_cons in Hnd as [Hnew Hnd]. constructor; [|by apply IH].
  intros (y & Hy & Hin)%list_elem_of_fmap. rewrite Forall_forall in Hrest. pose proof (Hrest y Hin).
  apply config_of_inj in Hy as [_ Hxy]; [|done|done|lia|lia]. apply Hnew, list_elem_of_fmap. exists y. split; [lia|done].
Qed.

Lemma clocks_distinct l ms ha :
  Forall (fun x => x.2 = Z.of_nat x.1) (l ++ ms ++ ha) -> NoDup (map fst (l ++ ms ++ ha)) ->
  NoDup (map (fun x : nat * Z => clockCfgName x.2) l ++ map (fun x : nat * Z => config_of "phc2sys" x.2) ha).
Proof.
  rewrite !Forall_app, !map_app. intros (Hl & _ & Hha) (Hnl & _ & Hnha)%NoDup_app. apply NoDup_app in Hnha as (_ & _ & Hnha).
  assert (ptp4lProcessName ∈ ptpProcesses /\ phc2sysProcessName ∈ ptpProcesses) as [Hp4 Hp2] by (split; set_solver).
  apply NoDup_app. split_and!; [by apply (configs_distinct ptp4lProcessName)| |by apply (configs_distinct phc2sysProcessName)].
  intros c (x & -> & Hx)%list_elem_of_fmap (y & Hy & Hyin)%list_elem_of_fmap. rewrite Forall_forall in Hl, Hha.
  pose proof (Hl x Hx). pose proof (Hha y Hyin).
  apply (config_of_inj ptp4lProcessName phc2sysProcessName) in Hy as [Hy _]; [discriminate Hy|done|done|lia|lia].
Qed.

(** When the profiles of a node have distinct names, none lists itself or another one
    twice as a member of its HA clock, then after a successful application no two processes
    share a configuration and no two clocks share a name: what the events of a process
    say by its configuration name concerns that process. *)
Theorem applied_names_distinct env w w' :
  NoDup (map getProfileName (wProfiles w)) ->
  Forall (fun p => Name p <> Some ""%string) (wProfiles w) ->
  (forall p, p ∈ wProfiles w -> NoDup (getProfileName p :: listHAMemberProfiles p)) ->
  applyNodePTPProfiles env w = Ok tt w' ->
  NoDup (map pcConfigName (wProcs w')) /\ NoDup (map clock_name (wClocks w')).
Proof.
  intros Hnd Hne Hlist H. destruct (application_Ok _ _ _ H) as (t & Ht & Hn & Hi & _ & Hc & _).
  set (ps := sort_profiles (wProfiles w)) in *. pose proof (sort_profiles_perm (wProfiles w)) as Hperm. fold ps in Hperm.
  assert (map fst (sigs w') = map Name ps) as Hs by (rewrite <- Hn; unfold sigs; by rewrite map_map).
  destruct (applied_positions ps t) with (S := sigs w') (b := str_eqb (haProfile t) "") as [Hpos Hdis]; try done.
  - change (NoDup (getProfileName <$> ps)). by rewrite Hperm.
  - by rewrite Hperm.
  - intros p Hp. apply Hlist. by rewrite <- Hperm.
  - split.
    + replace (map pcConfigName (wProcs w')) with (map snd (map ident (wProcs w'))) by (by rewrite map_map).
      rewrite Hi. apply asked_distinct; [apply sigs_known|exact Hpos|exact Hdis].
    + rewrite Hc. exact (clocks_distinct _ _ _ Hpos Hdis).
Qed.

(** C15. A successful application of the profiles of a node leaves exactly the programs they
    ask for: the topology was accepted, the profiles are the node's in their order, and the
    processes are, in this order, those of the profiles on their own, of the members of the
    HA clock and of the HA profile, each profile's programs under the configurations of its
    run, each with its configuration file written; the clocks are one for each profile on
    its own and the HA clock.  A process without a start condition, or with [Immediate],
    has been started (unless the context was cancelled), after its dependent processes of
    that kind and with the plug-ins and its initial state told; every other one waits as it
    was created; nothing else was asked of the processes, and the daemon is ready. *)
Theorem applied_programs env w w' : applyNodePTPProfiles env w = Ok tt w' -> applied env w w'.
Proof. apply application_Ok. Qed.

(** ** A node with two members, their HA clock and an ordinary clock *)

Definition nl : string := String (Ascii.ascii_of_nat 10) EmptyString.

Definition quiet_env : Env :=
  mkEnv "node" (fun i => i) (Some ["ens1f0"; "ens2f0"; "ens3f0"]%string) (fun _ => true) (fun _ => None) (fun _ => None) (fun _ => None)
    (fun _ => None) (fun p => (PtpSettings p, default "" (Ts2PhcConf p)))%string (fun _ => false) (fun _ => false) None (fun _ => []) (fun _ => None)
    (fun _ => false) (fun _ _ => None) (fun _ _ => None) false false false.

Definition port_conf (port : string) : string := ("[global]" +:+ nl +:+ "[" +:+ port +:+ "]" +:+ nl +:+ "masterOnly 0" +:+ nl)%string.

Definition port_profile (name port : string) : PtpProfile :=
  no_profile <| Name := Some name |> <| Ptp4lOpts := Some "-2"%string |> <| Ptp4lConf := Some (port_conf port) |>.

Definition ha_node : World :=
  mkWorld
    [no_profile <| Name := Some "ha"%string |> <| Phc2sysOpts := Some "-a -r"%string |>
       <| PtpSettings := Some {[ "haProfiles" := "nic1, nic2" ]}%string |>;
     port_profile "nic2" "ens2f0"; port_profile "oc" "ens3f0"; port_profile "nic1" "ens1f0"]
    (Resolver.mkResolver [] ∅) (Alias.mkStore ∅ ∅ ∅) false configPrefix [] [] [] 0 [] "" false [].

Definition ha_node' : World := match applyNodePTPProfiles quiet_env ha_node with Ok _ w' => w' | _ => ha_node end.

Lemma ha_node_applied : applyNodePTPProfiles quiet_env ha_node = Ok tt ha_node'.
Proof. vm_compute. reflexivity. Qed.

Example ha_node_commands : map pcCmd (wProcs ha_node') =
  [["/usr/sbin/ptp4l"; "-f"; "/var/run/ptp4l.2.config"; "-2"; "-m"];
   ["/usr/sbin/ptp4l"; "-f"; "/var/run/ptp4l.0.config"; "-2"; "-m"];
   ["/usr/sbin/ptp4l"; "-f"; "/var/run/ptp4l.1.config"; "-2"; "-m"];
   ["/usr/sbin/ptp4l"; "-f"; "/var/run/ptp4l.3.config"; ""; ""; "-m"];
   ["/usr/sbin/phc2sys"; "-f"; "/var/run/phc2sys.3.config"; "-a"; "-r"; "-m"; "-z"; "/var/run/ptp4l.0.socket"; "-z"; "/var/run/ptp4l.1.socket"]]%string.
Proof. vm_compute. reflexivity. Qed.

Lemma applied_programs_witness :
  applyNodePTPProfiles quiet_env ha_node = Ok tt ha_node' /\ applied quiet_env ha_node ha_node'.
Proof. split; [vm_compute; reflexivity|]. apply (applied_programs quiet_env). vm_compute. reflexivity. Defined.

Lemma applied_names_distinct_witness :
  map pcConfigName (wProcs ha_node') =
    ["ptp4l.2.config"; "ptp4l.0.config"; "ptp4l.1.config"; "ptp4l.3.config"; "phc2sys.3.config"]%string /\
  NoDup (map pcConfigName (wProcs ha_node')) /\ NoDup (map clock_name (wClocks ha_node')).
Proof.
  split; [vm_compute; reflexivity|]. apply (applied_names_distinct quiet_env ha_node).
  - apply (bool_decide_unpack _). vm_compute. exact I.
  - repeat constructor; discriminate.
  - apply Forall_forall. repeat constructor; apply (bool_decide_unpack _); vm_compute; exact I.
  - vm_compute. reflexivity.
Defined.

(** On a telecom boundary clock ts2phc waits for ptp4l, and the pmc of each ptp4l for its
    process; everything else starts. *)
Definition tbc_settings : gmap string string := {[ "clockType" := "T-BC"; "leadingInterface" := "ens1f0" ]}%string.

Definition tbc_node : World :=
  ha_node <| wProfiles := [(port_profile "tbc" "ens1f0") <| PtpSettings := Some tbc_settings |> <| Ts2PhcOpts := Some "-s generic"%string |>
    <| Ts2PhcConf := Some (port_conf "ens1f0") |>] |>.

Example tbc_node_starts :
  match applyNodePTPProfiles quiet_env tbc_node with
  | Ok _ w => Some (map (fun q => (pcName q, Exec.epState (pcExec q))) (wProcs w), skipn 3 (wCalls w))
  | _ => None
  end
  = Some ([("ts2phc", Process.Created); ("ptp4l", Process.Starting)]%string,
          [CSetEventChannel; CStart "ptp4l.0.config" None; CAfterRun 0 "ptp4l"; CSyncInitialState "ptp4l.0.config" None;
           CPopulateHwConfig; CRefreshNodePtpDevice; CSyncStatusUpdate]%string).
Proof. vm_compute. reflexivity. Qed.

(** ** Where the application goes wrong *)

Definition node (ps : list PtpProfile) : World :=
  mkWorld ps (Resolver.mkResolver [] ∅) (Alias.mkStore ∅ ∅ ∅) false configPrefix [] [] [] 0 [] "" false [].

(** A second application of the same profiles, as after a change of the hardware
    configuration, gives the HA phc2sys the sockets of its members twice. *)
Lemma ha_sockets_appended_again :
  match applyNodePTPProfiles quiet_env ha_node' with
  | Ok _ w => pcCmd <$> last (wProcs w)
  | _ => None
  end = Some ["/usr/sbin/phc2sys"; "-f"; "/var/run/phc2sys.3.config"; "-a"; "-r"; "-m"; "-z"; "/var/run/ptp4l.0.socket"; "-z"; "/var/run/ptp4l.1.socket";
              "-z"; "/var/run/ptp4l.0.socket"; "-z"; "/var/run/ptp4l.1.socket"]%string.
Proof. vm_compute. reflexivity. Qed.

(** A ptp4l configuration that does not parse panics the daemon when the profile is a
    telecom boundary clock: the process that was not built is given a PMC process. *)
Lemma bad_configuration_panics :
  applyNodePTPProfiles quiet_env
    (node [(port_profile "tbc" "ens1f0") <| PtpSettings := Some tbc_settings |> <| Ptp4lConf := Some "[global"%string |>]) = Panic.
Proof. vm_compute. reflexivity. Qed.

(** A profile that controls another one and has no settings panics the daemon: the run of
    the other is written to a map that is nil. *)
Lemma controlling_without_settings_panics :
  applyNodePTPProfiles quiet_env
    (node [port_profile "a" "ens1f0"; (port_profile "b" "ens2f0") <| PtpSettings := Some {[ "controllingProfile" := "a" ]}%string |>]) = Panic.
Proof. vm_compute. reflexivity. Qed.

End Applied.
