(* ===== verification/Ublox.v ===== *)
(** * pkg/ublox: what the GNSS receiver says

    pkg/ublox/parser.go, messages.go and the extractors of ublox.go: from the lines
    ubxtool prints to typed UBX messages.  The time at which a message is complete is an
    argument.  Text is ASCII. *)

From S2P Require Import Prelude Strconv Event Regex Parser Conf.
From Stdlib Require Import Ascii.

#[local] Open Scope Z_scope.

Module Ublox.

(** ** Message types and payloads *)

Definition NavClockType : string := "UBX-NAV-CLOCK".
Definition NavStatusType : string := "UBX-NAV-STATUS".
Definition NavTimeLsType : string := "UBX-NAV-TIMELS".
Definition NavSvinType : string := "UBX-TIM-SVIN".
Definition AckAckType : string := "UBX-ACK-ACK".
Definition AckNakType : string := "UBX-ACK-NAK".
Definition MonHWType : string := "UBX-MON-HW".

Record NavClock := mkNavClock { ncITOW : Z; ncClkB : Z; ncClkD : Z; ncTAcc : Z; ncFAcc : Z; ncOffset : Z }.

Record NavStatus := mkNavStatus {
  nsITOW : Z; nsGPSFix : Z; nsFlags : Z; nsFixStat : Z; nsFlags2 : Z; nsTTFF : Z; nsMSSS : Z
}.

Record SurveyIn := mkSurveyIn {
  svDuration : Z; svMeanX : Z; svMeanY : Z; svMeanZ : Z; svMeanV : Z; svMeanAccuracy : Z; svObservations : Z;
  svValid : bool; svActive : bool
}.

Record TimeLs := mkTimeLs {
  SrcOfCurrLs : Z; CurrLs : Z; SrcOfLsChange : Z; LsChange : Z; TimeToLsEvent : Z; DateOfLsGpsWn : Z; DateOfLsGpsDn : Z; Valid : Z
}.

#[export] Instance TimeLs_fields : Fields TimeLs := fun t =>
  mkTimeLs (SrcOfCurrLs t) (CurrLs t) (SrcOfLsChange t) (LsChange t) (TimeToLsEvent t) (DateOfLsGpsWn t) (DateOfLsGpsDn t) (Valid t).

Inductive Payload :=
| PNavClock (c : NavClock)
| PNavStatus (s : NavStatus)
| PTimeLs (t : TimeLs)
| PSurveyIn (s : SurveyIn)
| PAckAck (ClassID MessageID : Z)
| PAckNak (ClassID MessageID : Z)
| PRaw (type : string) (lines : list string).

(** [messageType] of the payloads. *)
Definition messageType (p : Payload) : string :=
  match p with
  | PNavClock _ => NavClockType
  | PNavStatus _ => NavStatusType
  | PTimeLs _ => NavTimeLsType
  | PSurveyIn _ => NavSvinType
  | PAckAck _ _ => AckAckType
  | PAckNak _ _ => AckNakType
  | PRaw t _ => t
  end.

(** A time is the nanoseconds since the epoch, [None] the zero time. *)
Record Message := mkMessage {
  mgType : string;
  mgTimestamp : option Z;
  mgReceived : Z;
  mgPayload : Payload;
  mgRaw : list string
}.

Definition SpoofDetectionSpoofing : Z := 16.
Definition SpoofDetectionMultiple : Z := 24.
Definition spoofDetectionMask : Z := 24.

Definition SpoofingDetected (s : NavStatus) : bool :=
  let state := Z.land (nsFlags2 s) spoofDetectionMask in
  (state =? SpoofDetectionSpoofing) || (state =? SpoofDetectionMultiple).

(** ** Numbers *)

Definition has_prefix (p s : string) : bool := match drop_prefix p s with Some _ => true | None => false end.

(** [strings.TrimSuffix(s, ":")]. *)
Fixpoint trim_colon (s : string) : string :=
  match s with
  | EmptyString => EmptyString
  | String ":" EmptyString => EmptyString
  | String a s' => String a (trim_colon s')
  end.

(** [strings.TrimRight(value, ",")]. *)
Fixpoint cleanNumber (value : string) : string :=
  match value with
  | EmptyString => EmptyString
  | String a s => match cleanNumber s with
                  | EmptyString => if ascii_dec a "," then EmptyString else String a EmptyString
                  | t => String a t
                  end
  end.

Definition normalizeNumber (value : string) : string :=
  match value with
  | String "x" _ | String "X" _ => String "0" value
  | String "-" ((String "x" _ | String "X" _) as rest) => String "-" (String "0" rest)
  | _ => value
  end.

Definition numberBase (value : string) : Z :=
  let value := normalizeNumber value in
  let value := default value (drop_prefix "-" value) in
  if has_prefix "0x" value || has_prefix "0X" value then 0 else 10.

(** [strconv.ParseUint] with a base of 0 or 10. *)
Definition parse_uint (value : string) (base bits : Z) : option Z :=
  if base =? 0 then ParseUint0 value bits
  else let '(n, ok) := ParseUint value base bits in if ok then Some n else None.

Definition parseUint (value : string) (bits : Z) : option Z :=
  let value := cleanNumber value in parse_uint (normalizeNumber value) (numberBase value) bits.

(** [strconv.ParseInt]: the sign, the magnitude, and the bound of that sign. *)
Definition parseInt (value : string) (bits : Z) : option Z :=
  let value := cleanNumber value in
  let base := numberBase value in
  let value := normalizeNumber value in
  let '(neg, rest) :=
    match value with String "-" r => (true, r) | String "+" r => (false, r) | _ => (false, value) end in
  un ← parse_uint rest base bits;
  let cutoff := 2 ^ (bits - 1) in
  if (negb neg && (cutoff <=? un)) || (neg && (cutoff <? un)) then None else Some (if neg then - un else un).

(** [strconv.ParseUint(s, 0, bits)] with the value it returns along with an error. *)
Definition ParseUint0_value (s : string) (bits : Z) : Z :=
  match s with
  | EmptyString => 0
  | _ =>
      let '(base, digits) := base_prefix s in
      let '(n, ok) := parse_loop base (2 ^ bits - 1) 0 (without_underscores digits) in
      if ok && negb (str_eqb (without_underscores digits) digits || underscoreOK s) then 0 else n
  end.

(** ** Fields *)

(** The word after [name] in the words of a line. *)
Fixpoint field_in (name : string) (fields : list string) : option string :=
  match fields with
  | f :: ((v :: _) as rest) => if str_eqb f name then Some v else field_in name rest
  | _ => None
  end.

Fixpoint fieldValue (lines : list string) (name : string) : option string :=
  match lines with
  | [] => None
  | l :: lines' => match field_in name (Conf.Fields l) with Some v => Some v | None => fieldValue lines' name end
  end.

Definition fieldInt64 (lines : list string) (name : string) (fallback : Z) : Z :=
  default fallback (v ← fieldValue lines name; parseInt v 64).
Definition fieldUint8 (lines : list string) (name : string) : Z := default 0 (v ← fieldValue lines name; parseUint v 8).
Definition fieldUint32 (lines : list string) (name : string) : Z := default 0 (v ← fieldValue lines name; parseUint v 32).
Definition fieldUint64Value (lines : list string) (name : string) : option Z := v ← fieldValue lines name; parseUint v 64.
Definition fieldUint64 (lines : list string) (name : string) : Z := default 0 (fieldUint64Value lines name).

(** [strings.EqualFold(s, "true")]. *)
Fixpoint to_lower (s : string) : string :=
  match s with EmptyString => EmptyString | String a s' => String (lower a) (to_lower s') end.

Definition fieldBool (lines : list string) (name : string) : bool :=
  match fieldValue lines name with Some v => str_eqb v "1" || str_eqb (to_lower v) "true" | None => false end.

(** One field of [ExtractLeapSec]: the errors of the numbers are ignored. *)
Definition leap_field (name v : string) (data : TimeLs) : TimeLs :=
  if str_eqb name "srcOfCurrLs" then data <| SrcOfCurrLs := (ParseUint v 10 8).1 |>
  else if str_eqb name "currLs" then data <| CurrLs := (ParseInt v 10 8).1 |>
  else if str_eqb name "srcOfLsChange" then data <| SrcOfLsChange := (ParseUint v 10 8).1 |>
  else if str_eqb name "lsChange" then data <| LsChange := (ParseInt v 10 8).1 |>
  else if str_eqb name "timeToLsEvent" then data <| TimeToLsEvent := (ParseInt v 10 32).1 |>
  else if str_eqb name "dateOfLsGpsWn" then data <| DateOfLsGpsWn := (ParseUint v 10 16).1 |>
  else if str_eqb name "dateOfLsGpsDn" then data <| DateOfLsGpsDn := uint8 (ParseUint v 10 16).1 |>
  else if str_eqb name "valid" then data <| Valid := ParseUint0_value (String "0" v) 8 |>
  else data.

Fixpoint leap_fields (fields : list string) (data : TimeLs) : TimeLs :=
  match fields with
  | f :: ((v :: _) as rest) => leap_fields rest (leap_field f v data)
  | _ => data
  end.

Definition ExtractLeapSec (output : list string) : TimeLs :=
  foldl (fun data line => leap_fields (Conf.Fields line) data) (mkTimeLs 0 0 0 0 0 0 0 0) output.

(** [ExtractOffset] and [ExtractNavStatus]: the decimal after the first such field. *)
Fixpoint decimal_after (name : string) (fields : list string) : Z :=
  match fields with
  | f :: rest =>
      if str_eqb f name then
        match rest with v :: _ => let '(n, ok) := ParseInt v 10 64 in if ok then n else -1 | [] => -1 end
      else decimal_after name rest
  | [] => -1
  end.

Definition ExtractOffset (line : string) : Z := if Regex.contains "tAcc" line then decimal_after "tAcc" (Conf.Fields line) else -1.
Definition ExtractNavStatus (line : string) : Z := if Regex.contains "gpsFix" line then decimal_after "gpsFix" (Conf.Fields line) else -1.

Definition unknownOffset : Z := 99999999.

Definition decodePayload (typ : string) (lines : list string) : Payload :=
  if str_eqb typ NavClockType then
    let tAcc := fieldUint64Value lines "tAcc" in
    PNavClock (mkNavClock (fieldUint32 lines "iTOW") (fieldInt64 lines "clkB" 0) (fieldInt64 lines "clkD" 0) (default 0 tAcc)
      (fieldUint64 lines "fAcc") (match tAcc with Some t => int64 t | None => unknownOffset end))
  else if str_eqb typ NavStatusType then
    PNavStatus (mkNavStatus (fieldUint32 lines "iTOW") (fieldInt64 lines "gpsFix" (-1)) (fieldUint8 lines "flags")
      (fieldUint8 lines "fixStat") (fieldUint8 lines "flags2") (fieldUint32 lines "ttff") (fieldUint32 lines "msss"))
  else if str_eqb typ NavTimeLsType then PTimeLs (ExtractLeapSec lines)
  else if str_eqb typ NavSvinType then
    PSurveyIn (mkSurveyIn (fieldUint64 lines "dur") (fieldInt64 lines "meanX" 0) (fieldInt64 lines "meanY" 0)
      (fieldInt64 lines "meanZ" 0) (fieldInt64 lines "meanV" 0) (fieldUint64 lines "meanAcc") (fieldUint64 lines "obs")
      (fieldBool lines "valid") (fieldBool lines "active"))
  else if str_eqb typ AckAckType then PAckAck (fieldUint8 lines "clsID") (fieldUint8 lines "msgID")
  else if str_eqb typ AckNakType then PAckNak (fieldUint8 lines "clsID") (fieldUint8 lines "msgID")
  else PRaw typ lines.

(** ** The parser *)

Record parser := mkParser {
  currentType : string;
  currentHeader : string;
  currentTimestamp : option Z;
  pendingTimestamp : option Z;
  lines : list string
}.

#[export] Instance parser_fields : Fields parser := fun p =>
  mkParser (currentType p) (currentHeader p) (currentTimestamp p) (pendingTimestamp p) (lines p).

Definition newParser : parser := mkParser "" "" None None [].

Definition messageTypeFromLine (line : string) : option string :=
  match first_match (has_prefix "UBX-") (Conf.Fields line) with Some f => Some (trim_colon f) | None => None end.

(** [fraction[:9]], filled with zeros. *)
Fixpoint str_take (n : nat) (s : string) : string :=
  match n, s with S n', String a s' => String a (str_take n' s') | _, _ => EmptyString end.

Definition nanoseconds_of (fraction : string) : option Z :=
  if str_eqb fraction "" then None
  else
    let fraction := str_take 9 fraction in
    let '(n, ok) := ParseInt (fraction +:+ Parser.zeros (9 - String.length fraction))%string 10 64 in
    if ok then Some n else None.

Definition parseUnixTimestamp (value : string) : option Z :=
  let '(whole, fraction, hasFraction) := Parser.cut_dot value in
  let '(seconds, ok) := ParseInt whole 10 64 in
  if negb ok || (seconds <? 0) then None
  else
    nanoseconds ← (if hasFraction then nanoseconds_of fraction else Some 0);
    Some (seconds * 10 ^ 9 + nanoseconds).

Definition timestampOnlyLine (line : string) : option Z :=
  match Conf.Fields line with [f] => parseUnixTimestamp f | _ => None end.

Definition messageComplete (p : parser) : bool :=
  if str_eqb (currentType p) AckAckType || str_eqb (currentType p) AckNakType then
    match fieldValue (lines p) "clsID", fieldValue (lines p) "msgID" with Some _, Some _ => true | _, _ => false end
  else false.

Definition finish (now : Z) (p : parser) : list Message * parser :=
  if str_eqb (currentType p) "" then ([], p)
  else
    ([mkMessage (currentType p) (currentTimestamp p) now (decodePayload (currentType p) (lines p)) (currentHeader p :: lines p)],
     p <| currentType := ""%string |> <| currentHeader := ""%string |> <| currentTimestamp := None |> <| lines := [] |>).

Definition feed (now : Z) (line : string) (p : parser) : list Message * parser :=
  match messageTypeFromLine line with
  | Some typ =>
      let '(messages, p) := finish now p in
      (messages, mkParser typ (Parser.TrimSpace line) (pendingTimestamp p) None [])
  | None =>
      match timestampOnlyLine line with
      | Some timestamp =>
          let '(messages, p) := finish now p in (messages, p <| pendingTimestamp := Some timestamp |>)
      | None =>
          if str_eqb (currentType p) "" then ([], p)
          else
            let p := p <| lines := lines p ++ [line] |> in
            if messageComplete p then finish now p else ([], p)
      end
  end.

Definition flush (now : Z) (p : parser) : list Message * parser := finish now p.

Fixpoint feed_all (now : Z) (ls : list string) (p : parser) : list Message * parser :=
  match ls with
  | [] => ([], p)
  | l :: ls' => let '(ms, p) := feed now l p in let '(ms', p) := feed_all now ls' p in (ms ++ ms', p)
  end.

Definition ParseMessages (now : Z) (ls : list string) : list Message :=
  let '(ms, p) := feed_all now ls newParser in ms ++ (flush now p).1.

(** * Properties *)

Lemma trim_colon_nonempty s : has_prefix "UBX-" s = true -> trim_colon s <> ""%string.
Proof.
  unfold has_prefix. destruct s as [|a [|b s]]; [done| |].
  - cbn. by repeat case_match.
  - intros _. cbn. by repeat case_match.
Qed.

Lemma type_nonempty line typ : messageTypeFromLine line = Some typ -> typ <> ""%string.
Proof.
  unfold messageTypeFromLine. destruct (first_match _ _) as [f|] eqn:E; [|done]. intros [= <-].
  apply first_match_Some in E as [E _]. by apply trim_colon_nonempty.
Qed.

(** ** What a stream of messages means *)

(** A line that is neither a header nor a time. *)
Definition quiet (line : string) : Prop := messageTypeFromLine line = None /\ timestampOnlyLine line = None.

(** Whether the body of a message of this type is known to be complete. *)
Definition complete (typ : string) (body : list string) : bool := messageComplete (mkParser typ "" None None body).

(** A message as ubxtool prints it: with -t the time comes first, then the header and the
    body; what follows a body that is known to be complete is not part of it. *)
Record block := mkBlock {
  bkStamp : option (string * Z);
  bkHeader : string;
  bkType : string;
  bkBody : list string;
  bkRest : list string
}.

Record block_ok (b : block) : Prop := {
  ok_stamp : forall l t, bkStamp b = Some (l, t) -> messageTypeFromLine l = None /\ timestampOnlyLine l = Some t;
  ok_header : messageTypeFromLine (bkHeader b) = Some (bkType b);
  ok_body : Forall quiet (bkBody b);
  ok_rest : Forall quiet (bkRest b);
  ok_early : forall k, (0 < k < length (bkBody b))%nat -> complete (bkType b) (take k (bkBody b)) = false;
  ok_tail : bkRest b <> [] -> bkBody b <> [] /\ complete (bkType b) (bkBody b) = true
}.

(** The same, by computation. *)
Definition quietb (line : string) : bool :=
  match messageTypeFromLine line, timestampOnlyLine line with None, None => true | _, _ => false end.

Definition block_okb (b : block) : bool :=
  match bkStamp b with
  | Some (l, t) => bool_decide (messageTypeFromLine l = None /\ timestampOnlyLine l = Some t)
  | None => true
  end
  && bool_decide (messageTypeFromLine (bkHeader b) = Some (bkType b))
  && forallb quietb (bkBody b) && forallb quietb (bkRest b)
  && forallb (fun k => negb (complete (bkType b) (take k (bkBody b)))) (seq 1 (length (bkBody b) - 1))
  && match bkRest b, bkBody b with [], _ => true | _, [] => false | _, _ => complete (bkType b) (bkBody b) end.

Lemma quietb_ok ls : forallb quietb ls = true -> Forall quiet ls.
Proof.
  rewrite forallb_forall, Forall_forall. intros H l Hl. apply list_elem_of_In, H in Hl. unfold quietb, quiet in *.
  by destruct (messageTypeFromLine l), (timestampOnlyLine l).
Qed.

Lemma block_okb_ok b : block_okb b = true -> block_ok b.
Proof.
  unfold block_okb. rewrite !andb_true_iff. intros (((((Hs & Hh) & Hb) & Hr) & He) & Ht). split.
  - intros l t E. rewrite E in Hs. by apply bool_decide_eq_true in Hs.
  - by apply bool_decide_eq_true in Hh.
  - by apply quietb_ok.
  - by apply quietb_ok.
  - intros k Hk. rewrite forallb_forall in He. apply negb_true_iff, He, in_seq. lia.
  - intros Hne. destruct (bkRest b), (bkBody b); try done.
Qed.

Definition print_block (b : block) : list string :=
  (match bkStamp b with Some (l, _) => [l] | None => [] end) ++ bkHeader b :: bkBody b ++ bkRest b.

Definition block_message (now : Z) (b : block) : Message :=
  mkMessage (bkType b) (snd <$> bkStamp b) now (decodePayload (bkType b) (bkBody b)) (Parser.TrimSpace (bkHeader b) :: bkBody b).

(** ** Feeding *)

Lemma feed_all_app now l1 l2 p :
  feed_all now (l1 ++ l2) p =
  ((feed_all now l1 p).1 ++ (feed_all now l2 (feed_all now l1 p).2).1, (feed_all now l2 (feed_all now l1 p).2).2).
Proof.
  revert p. induction l1 as [|l l1 IH]; intros p; simpl; [by destruct (feed_all now l2 p)|].
  destruct (feed now l p) as [ms p1]. rewrite IH. destruct (feed_all now l1 p1) as [ms1 p2]. simpl.
  by rewrite app_assoc.
Qed.

Lemma finish_idle now p : currentType p = ""%string -> finish now p = ([], p).
Proof. unfold finish. intros ->. done. Qed.

(** Between messages nothing is kept of a quiet line. *)
Lemma feed_quiet_idle now ls p : currentType p = ""%string -> Forall quiet ls -> feed_all now ls p = ([], p).
Proof.
  intros Hp. induction 1 as [|l ls [H1 H2] _ IH]; [done|]. cbn [feed_all]. unfold feed. by rewrite H1, H2, Hp, str_eqb_refl, IH.
Qed.

Definition in_message (b : block) (k : nat) : parser :=
  mkParser (bkType b) (Parser.TrimSpace (bkHeader b)) (snd <$> bkStamp b) None (take k (bkBody b)).

Definition idle : parser := mkParser "" "" None None [].

(** The body of a block, from line [k] on. *)
Lemma feed_body now b k :
  block_ok b -> (k <= length (bkBody b))%nat ->
  exists ms p, feed_all now (drop k (bkBody b)) (in_message b k) = (ms, p) /\
    ((ms = [] /\ p = in_message b (length (bkBody b)) /\ (k < length (bkBody b) -> complete (bkType b) (bkBody b) = false)%nat) \/
     (ms = [block_message now b] /\ p = idle)).
Proof.
  intros [_ Hh Hb _ He _]. pose proof (type_nonempty _ _ Hh) as Ht. remember (length (bkBody b) - k)%nat as n eqn:En.
  revert k En. induction n as [|n IH]; intros k En Hk.
  - assert (k = length (bkBody b)) as -> by lia. rewrite drop_all. exists [], (in_message b (length (bkBody b))).
    split; [done|left]. split_and!; [done..|lia].
  - destruct (lookup_lt_is_Some_2 (bkBody b) k) as [l Hl]; [lia|]. rewrite (drop_S _ _ _ Hl). cbn [feed_all].
    rewrite Forall_lookup in Hb. destruct (Hb k l Hl) as [Hq1 Hq2]. unfold feed. rewrite Hq1, Hq2.
    change (currentType (in_message b k)) with (bkType b). rewrite (proj2 (str_eqb_neq _ _) Ht).
    assert ((in_message b k) <| lines := lines (in_message b k) ++ [l] |> = in_message b (S k)) as E
      by (unfold in_message; simpl; by rewrite (take_S_r _ _ _ Hl)).
    rewrite E. change (messageComplete (in_message b (S k))) with (complete (bkType b) (take (S k) (bkBody b))).
    destruct (decide (S k = length (bkBody b))) as [Eq|Ne].
    + rewrite Eq, drop_all, firstn_all. destruct (complete (bkType b) (bkBody b)) eqn:Ec.
      * unfold finish. cbn [currentType in_message]. rewrite (proj2 (str_eqb_neq _ _) Ht).
        eexists _, _. split; [reflexivity|right]. unfold in_message, block_message, idle. cbn. by rewrite firstn_all.
      * eexists _, _. split; [reflexivity|left]. by rewrite app_nil_r.
    + rewrite He by lia. destruct (IH (S k)) as (ms & p & -> & Hr); [lia|lia|]. exists ms, p. split; [done|].
      destruct Hr as [(-> & -> & Hc)|?]; [left|by right]. split_and!; [done|done|]. intros _. apply Hc. lia.
Qed.

(** A whole block: it ends the message before it, and its own message comes by the end of
    it or with the next one. *)
Lemma feed_block now b p :
  block_ok b -> pendingTimestamp p = None ->
  exists ms p', feed_all now (print_block b) p = (ms, p') /\ pendingTimestamp p' = None /\
    ms ++ (finish now p').1 = (finish now p).1 ++ [block_message now b].
Proof.
  intros Hb Hp. pose proof Hb as [Hs Hh Hbody Hrest _ Htail]. pose proof (type_nonempty _ _ Hh) as Ht.
  (* the time *)
  assert (exists ms0 p0, feed_all now (match bkStamp b with Some (l, _) => [l] | None => [] end) p = (ms0, p0) /\
    pendingTimestamp p0 = snd <$> bkStamp b /\ ms0 ++ (finish now p0).1 = (finish now p).1) as (ms0 & p0 & E0 & Hp0 & Hm0).
  { destruct (bkStamp b) as [[l t]|]; [|by exists [], p].
    destruct (Hs l t eq_refl) as [H1 H2]. cbn [feed_all]. unfold feed. rewrite H1, H2. 
    assert (currentType (finish now p).2 = ""%string) as Hi.
    { unfold finish. destruct (str_eqb (currentType p) "") eqn:E; [by apply str_eqb_eq in E|done]. }
    destruct (finish now p) as [m q]. eexists _, _. split; [reflexivity|]. split; [done|]. simpl in *.
    rewrite finish_idle by done. by rewrite !app_nil_r. }
  (* the header *)
  assert (feed now (bkHeader b) p0 = ((finish now p0).1, in_message b 0)) as E1.
  { unfold feed. rewrite Hh. assert (pendingTimestamp (finish now p0).2 = pendingTimestamp p0) as Hpe
      by (unfold finish; by destruct (str_eqb _ _)).
    destruct (finish now p0) as [m q]. simpl in *. by rewrite Hpe, Hp0. }
  destruct (feed_body now b 0 Hb) as (ms2 & p2 & E2 & Hr); [lia|]. rewrite drop_0 in E2.
  unfold print_block. rewrite feed_all_app, E0. cbn [fst snd feed_all]. rewrite E1, feed_all_app, E2. cbn [fst snd].
  destruct Hr as [(-> & -> & Hc)|[-> ->]].
  - assert (bkRest b = []) as ->.
    { destruct (bkRest b) eqn:Er; [done|]. destruct Htail as [Hne Hco]; [done|].
      rewrite Hc in Hco; [done|]. destruct (bkBody b); [done|simpl; lia]. }
    cbn [feed_all fst snd]. eexists _, _. split; [reflexivity|]. split; [done|]. rewrite !app_nil_r.
    rewrite Hm0. f_equal. unfold finish. cbn [currentType in_message]. rewrite (proj2 (str_eqb_neq _ _) Ht).
    unfold block_message, in_message. cbn. by rewrite firstn_all.
  - rewrite (feed_quiet_idle now (bkRest b) idle) by done. eexists _, _. split; [reflexivity|]. split; [done|].
    cbn [fst snd]. rewrite (finish_idle now idle) by done. rewrite !app_nil_r, app_assoc, Hm0. done.
Qed.

Lemma feed_blocks now bs : forall p,
  Forall block_ok bs -> pendingTimestamp p = None ->
  exists ms p', feed_all now (concat (map print_block bs)) p = (ms, p') /\
    ms ++ (finish now p').1 = (finish now p).1 ++ map (block_message now) bs.
Proof.
  induction bs as [|b bs IH]; intros p Hbs Hp.
  - exists [], p. cbn. by rewrite app_nil_r.
  - apply Forall_cons in Hbs as [Hb Hbs]. destruct (feed_block now b p Hb Hp) as (ms & p1 & E1 & Hp1 & Hm1).
    destruct (IH p1 Hbs Hp1) as (ms2 & p2 & E2 & Hm2). cbn [map concat]. rewrite feed_all_app, E1. cbn [fst snd]. rewrite E2.
    eexists _, _. split; [reflexivity|]. cbn [fst snd]. by rewrite <- app_assoc, Hm2, app_assoc, Hm1, <- app_assoc.
Qed.

(** Whatever ubxtool prints before the first message, the messages it prints after
    that, with or without times, are read back one for one and in order, each with its
    time and exactly the lines of its body; what follows a complete acknowledgement
    belongs to no message. *)
Theorem stream_roundtrip now noise bs :
  Forall quiet noise -> Forall block_ok bs ->
  ParseMessages now (noise ++ concat (map print_block bs)) = map (block_message now) bs.
Proof.
  intros Hn Hbs. unfold ParseMessages. rewrite feed_all_app, (feed_quiet_idle now noise newParser) by done. cbn [fst snd app].
  destruct (feed_blocks now bs newParser Hbs eq_refl) as (ms & p & -> & Hm). exact Hm.
Qed.

(** A clock, an acknowledgement followed by a blank line, and a status. *)
Definition stream_blocks : list block :=
  [mkBlock (Some ("1713370000.5", 1713370000500000000)) "UBX-NAV-CLOCK:" "UBX-NAV-CLOCK" ["  iTOW 331000 clkB 61594 clkD 56"; "  tAcc 5 fAcc 164"] [];
   mkBlock None "UBX-ACK-ACK:" "UBX-ACK-ACK" [" ACK to Class x06 (CFG)"; "  clsID 6 msgID x8a"] [""];
   mkBlock (Some ("1713370001", 1713370001000000000)) "UBX-NAV-STATUS:" "UBX-NAV-STATUS" ["  iTOW 331000 gpsFix 5 flags xdd"; "  flags2 x8"] []]%string.

Lemma stream_roundtrip_witness :
  ParseMessages 7 ("ubxtool: ready"%string :: concat (map print_block stream_blocks)) = map (block_message 7) stream_blocks /\
  map mgPayload (map (block_message 7) stream_blocks) =
    [PNavClock (mkNavClock 331000 61594 56 5 164 5); PAckAck 6 138; PNavStatus (mkNavStatus 331000 5 221 0 8 0 0)].
Proof.
  split; [|vm_compute; reflexivity].
  apply (stream_roundtrip 7 ["ubxtool: ready"%string] stream_blocks).
  - apply quietb_ok. vm_compute. reflexivity.
  - repeat (apply Forall_cons_2; [apply block_okb_ok; vm_compute; reflexivity|]). constructor.
Defined.

End Ublox.
