(* ===== verification/UbloxCmd.v ===== *)
(** * pkg/ublox: commands, acknowledgements and subscriptions

    pkg/ublox/command.go, init_config.go, broker.go and the commands of ublox.go: the
    arguments the daemon gives ubxtool, how it attributes the acknowledgements that come
    back, and how messages reach their subscribers.  The run of ubxtool itself and the
    clock are the environment's: what they produce is a sequence of events. *)

From S2P Require Import Prelude Strconv Event Regex Parser Conf Ublox.
From Stdlib Require Import Ascii.

#[local] Open Scope Z_scope.

Module UbloxCmd.

Import Ublox.

(** ** Commands *)

Record Command := mkCommand { ReportOutput : bool; Args : list string }.

Definition args (l : list string) : Command := mkCommand false l.

Definition DefaultWait : string := "0.1".
Definition QueryTimeout : string := "0.5".
Definition timeLSRateSeconds : Z := 60.

Definition disableBinary : Command := args ["-d"; "BINARY"]%string.
Definition enableNMEA : Command := args ["-e"; "NMEA"]%string.
Definition monHW : Command := mkCommand true ["-w"; QueryTimeout; "-p"; "MON-HW"]%string.
Definition SaveCommand : Command := args ["-p"; "SAVE"]%string.

Definition navEnableMsg : list string := ["CLOCK"; "STATUS"]%string.
Definition navSlowEnableMsg : list string := ["TIMELS"]%string.
Definition nmeaDisableMsg : list string := ["VTG"; "GST"; "ZDA"; "GBS"; "GSA"; "GSV"]%string.
Definition ublxBusTypes : list string := ["I2C"; "UART1"; "UART2"; "USB"; "SPI"]%string.

Definition batchMsgoutAllBusses (prefix : string) (msgs : list string) (val : Z) : Command :=
  args (flat_map (fun msg => flat_map (fun bus =>
    ["-z"; "CFG-MSGOUT-" +:+ prefix +:+ "_" +:+ msg +:+ "_" +:+ bus +:+ "," +:+ fmt_d val]%string) ublxBusTypes) msgs).

Definition batchDisableNmeaMsgs (msgs : list string) : Command := batchMsgoutAllBusses "NMEA_ID" msgs 0.
Definition batchEnableNavMsgs (msgs : list string) : Command := batchMsgoutAllBusses "UBX_NAV" msgs 1.
Definition batchEnableNavMsgsAtRate (msgs : list string) (rate : Z) : Command := batchMsgoutAllBusses "UBX_NAV" msgs rate.

Definition defaultUblxCmds : list Command :=
  [disableBinary; batchEnableNavMsgs navEnableMsg; batchEnableNavMsgsAtRate navSlowEnableMsg timeLSRateSeconds;
   enableNMEA; batchDisableNmeaMsgs nmeaDisableMsg].

(** ** The initial configuration *)

Record SurveyInConfig := mkSurvey { ObservationTime : Z; AccuracyMeters : Z }.

Record InitConfig := mkInit {
  AntennaVoltage : bool;
  Constellations : list string;
  SurveyInCfg : option SurveyInConfig;
  ExtraCommands : list Command
}.

Definition ProtoVersion29dot25 : string := "29.25".
Definition ProtoVersion29dot20 : string := "29.20".

Definition defaultConstellations : list string := ["GPS"; "QZSS"; "GAL"]%string.

Definition allowedConstellations (protoVersion : string) : option (list string) :=
  if str_eqb protoVersion ProtoVersion29dot20 then Some ["GPS"; "QZSS"; "GAL"; "GLO"; "BDS"; "SBAS"; "NAVIC"]%string
  else if str_eqb protoVersion ProtoVersion29dot25 then Some ["GPS"; "QZSS"; "GAL"; "BDS"; "SBAS"; "NAVIC"]%string
  else None.

Definition mem (x : string) (l : list string) : bool := existsb (str_eqb x) l.

Definition enableConstellation (constellation : string) (enable : bool) : string :=
  ("CFG-SIGNAL-" +:+ constellation +:+ "_ENA," +:+ fmt_d (if enable then 1 else 0))%string.

(** [buildConstellationCommand]: the constellations to enable, none when there is no command. *)
Definition enabled_constellations (all wanted : list string) : list string :=
  match List.filter (fun c => mem c wanted) all with
  | [] => if (length wanted =? 0)%nat then defaultConstellations else []
  | enable => enable
  end.

(** The settings of all constellations of the receiver. *)
Definition constellation_command (all enable : list string) : Command :=
  match enable with
  | [] => args []
  | _ =>
      let disable := List.filter (fun c => negb (mem c enable)) all in
      args (flat_map (fun c => ["-z"; enableConstellation c true]%string) enable
            ++ flat_map (fun c => ["-z"; enableConstellation c false]%string) disable)
  end.

Definition buildConstellationCommand (protoVersion : string) (config : InitConfig) : Command :=
  match allowedConstellations protoVersion with
  | None => args []
  | Some all => constellation_command all (enabled_constellations all (Constellations config))
  end.

Definition BuildInitCommands (protoVersion : string) (config : option InitConfig) : list Command :=
  match config with
  | None => []
  | Some config =>
      let cmd := buildConstellationCommand protoVersion config in
      args ["-z"; "CFG-HW-ANT_CFG_VOLTCTRL," +:+ (if AntennaVoltage config then "1" else "0")]%string
      :: (match Args cmd with [] => [] | _ => [cmd] end)
      ++ match SurveyInCfg config with
         | Some sv =>
             if 0 <? ObservationTime sv then
               [args ["-z"; "CFG-TMODE-SVIN_MIN_DUR," +:+ fmt_d (ObservationTime sv);
                      "-z"; "CFG-TMODE-SVIN_ACC_LIMIT," +:+ fmt_d (int64 (AccuracyMeters sv * 10000));
                      "-z"; "CFG-TMODE-MODE,1"]%string;
                mkCommand true ["-p"; "TIM-SVIN"]%string]
             else []
         | None => []
         end
      ++ ExtraCommands config
  end.

(** ** Classifying the arguments *)

Definition isPollCommand (a : list string) : bool := mem "-p" a.

Fixpoint pollResponseType (a : list string) : option string :=
  match a with
  | "-p"%string :: name :: _ => Some (if has_prefix "UBX-" name then name else ("UBX-" +:+ name)%string)
  | _ :: a' => pollResponseType a'
  | [] => None
  end.

Fixpoint isSaveCommand (a : list string) : bool :=
  match a with
  | x :: ((y :: _) as a') => (str_eqb x "-p" && str_eqb y "SAVE") || isSaveCommand a'
  | _ => false
  end.

(** One operation and the number of its responses, [None] when it is not known. *)
Record ackCommandGroup := mkGroup { logString : string; expected : option Z }.

Definition ackResponseCount (name : string) : option Z :=
  if str_eqb name "GPS" then Some 2
  else if str_eqb name "GALILEO" || str_eqb name "GLONASS" || str_eqb name "BEIDOU" || str_eqb name "SBAS" then Some 1
  else None.

(** A run of [-z] arguments, and what follows it. *)
Fixpoint z_run (a : list string) : list string * list string :=
  match a with
  | z :: a' =>
      if str_eqb z "-z" then
        match a' with
        | v :: a'' => let '(taken, rest) := z_run a'' in (z :: v :: taken, rest)
        | [] => ([z], [])
        end
      else ([], a)
  | [] => ([], [])
  end.

(** The loop of [ackCommandGroups]; every round takes an argument at least. *)
Fixpoint groups_loop (fuel : nat) (a : list string) : list ackCommandGroup :=
  match fuel, a with
  | S fuel', x :: rest =>
      if str_eqb x "-z" then
        let '(taken, rest') := z_run a in mkGroup (join " " taken) (Some 1) :: groups_loop fuel' rest'
      else if str_eqb x "-e" || str_eqb x "-d" then
        match rest with
        | name :: rest' => mkGroup (join " " [x; name]) (ackResponseCount name) :: groups_loop fuel' rest'
        | [] => [mkGroup x None]
        end
      else groups_loop fuel' rest
  | _, _ => []
  end.

Definition ackCommandGroups (a : list string) : list ackCommandGroup :=
  match groups_loop (length a) a with
  | [] => if isSaveCommand a then [mkGroup "-p SAVE" (Some 1)] else []
  | l => l
  end.

Definition isAckCommand (a : list string) : bool := (0 <? length (ackCommandGroups a))%nat.

Definition indeterminate (c : ackCommandGroup) : bool := match expected c with None => true | Some _ => false end.

(** [validateAckCommandBatch]: is the batch accepted? *)
Definition validateAckCommandBatch (a : list string) (commands : list ackCommandGroup) : bool :=
  match first_match indeterminate commands with
  | None => true
  | Some c =>
      (* an empty description counts as no such operation *)
      str_eqb (logString c) ""
      || (length commands + (if isSaveCommand a || isPollCommand a then 1 else 0) <=? 1)%nat
  end.

Fixpoint ackBatchExpectation (commands : list ackCommandGroup) : Z * bool :=
  match commands with
  | [] => (0, false)
  | c :: cs =>
      let '(n, ind) := ackBatchExpectation cs in
      match expected c with None => (1 + n, true) | Some e => (e + n, ind) end
  end.

(** ** Collecting the responses *)

(** What the loop waits for: a message, the end of the subscription, the end of the
    command and whether it failed, the end of the time. *)
Inductive wake := WMessage (m : Message) | WClosed | WProcess (failed : bool) | WTimeout.

Inductive collected := CDone (responses : list Message) | CError (responses : list Message) | CWaiting.

Definition is_response (m : Message) : bool := str_eqb (mgType m) AckAckType || str_eqb (mgType m) AckNakType.

(** [collectAckResponses] over the events in the order in which they are chosen; it goes on
    waiting when they end. *)
Fixpoint collectAckResponses (n : Z) (ind : bool) (seen failed : bool) (responses : list Message) (ws : list wake) : collected :=
  match ws with
  | [] => CWaiting
  | WMessage m :: ws' =>
      let responses := if is_response m then responses ++ [m] else responses in
      let seen := seen || negb (is_response m) in
      if (n <=? Z.of_nat (length responses)) && negb (ind && negb seen) then CDone responses
      else collectAckResponses n ind seen failed responses ws'
  | WClosed :: _ => match responses with [] => CError [] | _ => CDone responses end
  | WProcess f :: ws' =>
      if f && (length responses =? 0)%nat then CError []
      else collectAckResponses n ind seen (failed || f) responses ws'
  | WTimeout :: _ =>
      match responses with [] => CError [] | _ => if (failed : bool) then CError responses else CDone responses end
  end.

(** [countAckResponses]: positive and negative. *)
Definition is_nak (m : Message) : bool := str_eqb (mgType m) AckNakType.
Definition nak_count (l : list Message) : nat := length (List.filter is_nak l).
Definition ack_count (l : list Message) : nat := length (List.filter (fun m => negb (is_nak m)) l).
Definition countAckResponses (l : list Message) : nat * nat := (ack_count l, nak_count l).

Inductive batch_error := NAK (count : nat) | Missing (received : nat) (of_ : Z) (what : string).

Fixpoint ackBatchError (commands : list ackCommandGroup) (responses : list Message) : option batch_error :=
  match commands with
  | [] => None
  | c :: cs =>
      match expected c with
      | None => if (ack_count responses =? 0)%nat && (0 <? nak_count responses)%nat then Some (NAK (nak_count responses)) else None
      | Some e =>
          if Z.of_nat (length responses) <? e then Some (Missing (length responses) e (logString c))
          else
            let mine := take (Z.to_nat e) responses in
            if (0 <? nak_count mine)%nat then Some (NAK (nak_count mine)) else ackBatchError cs (drop (Z.to_nat e) responses)
      end
  end.

(** [buildArgs]. *)
Definition buildArgs (protoVersion : string) (a : list string) : list string :=
  (if negb (str_eqb protoVersion "") && negb (mem "-P" a) then ["-P"; protoVersion]%string else [])
  ++ (if mem "-w" a then [] else ["-w"; DefaultWait]%string) ++ a.

(** ** Running commands *)

(** The result of a command: its output, or an error. *)
Inductive run_error := ENotAttributable | EIssue | EBatch (e : batch_error) | EOther.

Inductive run_result := ROutput (lines : list string) | RError (e : run_error).

(** [Run]: [issue] is the receiver, if there is one, and gives, for a command that could be
    issued, the events that follow; [direct] runs ubxtool and gives its output.  [None]
    when the events end while it waits. *)
Definition Run (direct : list string -> option (list string)) (issue : option (Command -> option (list wake))) (protoVersion : string)
    (cmd : Command) : option run_result :=
  let commands := ackCommandGroups (Args cmd) in
  if negb (validateAckCommandBatch (Args cmd) commands) then Some (RError ENotAttributable)
  else
    match commands, issue with
    | _ :: _, Some issue =>
        match issue cmd with
        | None => Some (RError EIssue)
        | Some ws =>
            let '(n, ind) := ackBatchExpectation commands in
            match collectAckResponses n ind false false [] ws with
            | CWaiting => None
            | CError _ => Some (RError EOther)
            | CDone responses =>
                Some (match ackBatchError commands responses with
                      | Some e => RError (EBatch e)
                      | None => ROutput (if ReportOutput cmd then flat_map mgRaw responses else [])
                      end)
            end
        end
    | _, _ => Some (match direct (buildArgs protoVersion (Args cmd)) with Some out => ROutput out | None => RError EOther end)
    end.

(** [RunAll]: the recorded outputs, errors too; [run] is [Run]. *)
Definition RunAll (run : Command -> run_result) (show : run_error -> string) (cmds : list Command) (withSave : bool) :
    list string * list Command :=
  (omap (fun cmd => if ReportOutput cmd
                    then Some (match run cmd with ROutput out => join newline out | RError e => show e end) else None) cmds,
   cmds ++ (if withSave then [SaveCommand] else [])).

(** [normalizeReportedOutput]: without blank lines. *)
Definition normalize_newlines (s : string) : string :=
  let cr := String (ascii_of_nat 13) EmptyString in
  Regex.ReplaceAll (Regex.ReplaceAll s (cr +:+ newline)%string newline) cr newline.

Definition normalizeReportedOutput (output : string) : string :=
  join newline (List.filter (fun l => negb (str_eqb (Parser.TrimSpace l) "")) (Conf.split_on (ascii_of_nat 10) (normalize_newlines output))).

(** The commands of [Init], and what it makes of their results: a rejected command is not
    an error. *)
Definition init_commands (protoVersion : string) (config : option InitConfig) : list Command :=
  defaultUblxCmds ++ BuildInitCommands protoVersion config ++ [monHW; SaveCommand].

Definition is_nak_error (e : run_error) : bool := match e with EBatch (NAK _) => true | _ => false end.

(** How [Init] runs a command: polls by their response, the others by [Run]. *)
Definition init_run (poll : string -> Command -> run_result) (run : Command -> run_result) (cmd : Command) : run_result :=
  if isPollCommand (Args cmd) && negb (isAckCommand (Args cmd)) then
    match pollResponseType (Args cmd) with Some t => poll t cmd | None => RError EOther end
  else run cmd.

(** The results of [Init], in order, and whether it fails. *)
Fixpoint init_results (exec : Command -> run_result) (show : run_error -> string) (cmds : list Command) : list string * bool :=
  match cmds with
  | [] => ([], false)
  | cmd :: cmds' =>
      let '(results, failed) := init_results exec show cmds' in
      match exec cmd with
      | ROutput out => ((if ReportOutput cmd then [normalizeReportedOutput (join newline out)] else []) ++ results, failed)
      | RError e =>
          if is_nak_error e then (results, failed)
          else ((if ReportOutput cmd then [show e] else []) ++ results, true)
      end
  end.

(** ** Subscriptions *)

Definition subscriptionBufferSize : nat := 32.

(** A subscription, and what its consumer has received so far.  [sbPending] is the message
    that [deliver] is at, with the number of its steps left. *)
Record messageSubscription := mkSub {
  sbTypes : list string;
  sbQueue : list Message;
  sbClosed : bool;
  sbReceived : list Message;
  sbPending : option (Message * nat)
}.

Definition newSubscription (types : list string) : messageSubscription := mkSub types [] false [] None.

(** Does [Publish] deliver to it? *)
Definition wants (s : messageSubscription) (m : Message) : bool := (length (sbTypes s) =? 0)%nat || mem (mgType m) (sbTypes s).

(** [s.ch <- m] without blocking. *)
Definition try_send (m : Message) (s : messageSubscription) : option messageSubscription :=
  if (length (sbQueue s) <? subscriptionBufferSize)%nat
  then Some (mkSub (sbTypes s) (sbQueue s ++ [m]) (sbClosed s) (sbReceived s) None) else None.

(** The steps of a subscription: [deliver] tries to send, takes the oldest message out if
    it could not, and tries again; the consumer takes messages at any time. *)
Inductive sub_step := SPublish (m : Message) | SDeliver | STake | SCancel.

Definition sub_run (x : sub_step) (s : messageSubscription) : messageSubscription :=
  match x with
  | SPublish m =>
      match sbPending s with
      | None => if sbClosed s || negb (wants s m) then s
                else mkSub (sbTypes s) (sbQueue s) (sbClosed s) (sbReceived s) (Some (m, 3%nat))
      | Some _ => s
      end
  | SDeliver =>
      match sbPending s with
      | Some (m, 3%nat) =>
          match try_send m s with
          | Some s' => s'
          | None => mkSub (sbTypes s) (sbQueue s) (sbClosed s) (sbReceived s) (Some (m, 2%nat))
          end
      | Some (m, 2%nat) => mkSub (sbTypes s) (tail (sbQueue s)) (sbClosed s) (sbReceived s) (Some (m, 1%nat))
      | Some (m, _) =>
          match try_send m s with
          | Some s' => s'
          | None => mkSub (sbTypes s) (sbQueue s) (sbClosed s) (sbReceived s) None
          end
      | None => s
      end
  | STake =>
      match sbQueue s with
      | m :: q => mkSub (sbTypes s) q (sbClosed s) (sbReceived s ++ [m]) (sbPending s)
      | [] => s
      end
  | SCancel =>
      (* [unsubscribe] waits for [deliver], which holds the lock *)
      match sbPending s with
      | None => mkSub (sbTypes s) (sbQueue s) true (sbReceived s) None
      | Some _ => s
      end
  end.

Definition sub_runs (xs : list sub_step) (s : messageSubscription) : messageSubscription := foldl (fun s x => sub_run x s) s xs.

(** * Properties *)

(** ** Acknowledgements *)

(** The messages that came before the loop ended. *)
Definition messages_of (ws : list wake) : list Message := omap (fun w => match w with WMessage m => Some m | _ => None end) ws.

Lemma collect_prefix n ind ws : forall seen failed rs rs',
  collectAckResponses n ind seen failed rs ws = CDone rs' ->
  exists k, rs' = rs ++ List.filter is_response (messages_of (take k ws)).
Proof.
  induction ws as [|w ws IH]; intros seen failed rs rs' H; [done|]. destruct w as [m| |f|]; cbn [collectAckResponses] in H.
  - destruct (_ && _).
    + injection H as <-. exists 1%nat. cbn. destruct (is_response m); [done|by rewrite app_nil_r].
    + apply IH in H as (k & ->). exists (S k). cbn. destruct (is_response m); [by rewrite <- app_assoc|done].
  - exists 0%nat. cbn. rewrite app_nil_r. destruct rs; [done|by injection H as <-].
  - destruct (f && _); [done|]. apply IH in H as (k & ->). by exists (S k).
  - exists 0%nat. cbn. rewrite app_nil_r. destruct rs; [done|]. destruct failed; [done|by injection H as <-].
Qed.

Lemma collect_length n ws : forall seen failed rs rs',
  (0 < n)%nat -> (length rs < n)%nat ->
  collectAckResponses (Z.of_nat n) false seen failed rs ws = CDone rs' -> (length rs' <= n)%nat.
Proof.
  induction ws as [|w ws IH]; intros seen failed rs rs' Hn Hl H; [done|]. destruct w as [m| |f|]; cbn [collectAckResponses] in H.
  - rewrite andb_true_r in H. destruct (Z.leb_spec (Z.of_nat n) (Z.of_nat (length (if is_response m then rs ++ [m] else rs)))).
    + injection H as <-. destruct (is_response m); rewrite ?length_app in *; simpl in *; lia.
    + eapply IH; [done| |exact H]. lia.
  - destruct rs; [done|]. injection H as <-. lia.
  - destruct (f && _); [done|]. by eapply IH.
  - destruct rs; [done|]. destruct failed; [done|]. injection H as <-. lia.
Qed.

Definition determinate (commands : list ackCommandGroup) : Prop := Forall (fun c => exists e, expected c = Some (Z.of_nat (S e))) commands.

Lemma expectation_determinate commands :
  determinate commands -> exists n, ackBatchExpectation commands = (Z.of_nat n, false) /\ (length commands <= n)%nat.
Proof.
  induction 1 as [|c cs [e He] _ (n & IH & Hl)]; [by exists 0%nat|]. cbn [ackBatchExpectation]. rewrite IH, He.
  exists (S e + n)%nat. split; [f_equal; lia|cbn; lia].
Qed.

Lemma nak_count_app l1 l2 : nak_count (l1 ++ l2) = (nak_count l1 + nak_count l2)%nat.
Proof. unfold nak_count. by rewrite List.filter_app, length_app. Qed.

Lemma batch_error_determinate commands : forall n rs,
  determinate commands -> ackBatchExpectation commands = (Z.of_nat n, false) -> (length rs <= n)%nat ->
  (ackBatchError commands rs = None <-> length rs = n /\ nak_count rs = 0%nat).
Proof.
  induction commands as [|c cs IH]; intros n rs Hd Hn Hl.
  - injection Hn as Hn. assert (n = 0)%nat as -> by lia. destruct rs; [done|simpl in Hl; lia].
  - apply Forall_cons in Hd as [[e He] Hd]. cbn [ackBatchExpectation ackBatchError] in *. rewrite He in *.
    destruct (expectation_determinate cs Hd) as (m & Hm & _). rewrite Hm in Hn. injection Hn as Hn.
    assert (n = S e + m)%nat as -> by lia. rewrite Nat2Z.id.
    destruct (Z.ltb_spec (Z.of_nat (length rs)) (Z.of_nat (S e))) as [Hlt|Hge]; [split; [done|intros [? _]; lia]|].
    assert (nak_count rs = nak_count (take (S e) rs) + nak_count (drop (S e) rs))%nat as Hc
      by (rewrite <- nak_count_app; by rewrite take_drop).
    destruct (0 <? nak_count (take (S e) rs))%nat eqn:En.
    + apply Nat.ltb_lt in En. split; [done|]. intros [_ ?]. lia.
    + apply Nat.ltb_ge in En. rewrite (IH m (drop (S e) rs) Hd Hm) by (rewrite length_drop; lia).
      rewrite length_drop. lia.
Qed.

(** A batch of operations whose numbers of responses are known succeeds exactly when as
    many responses as they need came, in the order in which the receiver sent them, and
    none of them is negative; a response of another batch is never counted, since no more
    responses are taken than the batch needs. *)
Theorem ack_batch_succeeds direct issue protoVersion cmd ws rs n :
  let commands := ackCommandGroups (Args cmd) in
  determinate commands -> commands <> [] -> issue cmd = Some ws ->
  ackBatchExpectation commands = (Z.of_nat n, false) ->
  collectAckResponses (Z.of_nat n) false false false [] ws = CDone rs ->
  (exists k, rs = List.filter is_response (messages_of (take k ws))) /\ (length rs <= n)%nat /\
  (Run direct (Some issue) protoVersion cmd = Some (ROutput (if ReportOutput cmd then flat_map mgRaw rs else [])) <->
   length rs = n /\ nak_count rs = 0%nat).
Proof.
  intros commands Hd Hne Hi Hn Hc.
  assert (first_match indeterminate commands = None) as Hv.
  { apply first_match_None. eapply Forall_impl; [exact Hd|]. intros c [e He]. unfold indeterminate. by rewrite He. }
  destruct (expectation_determinate commands Hd) as (m & Hm & Hl). rewrite Hm in Hn. injection Hn as Hn.
  assert (m = n) as -> by lia. assert (0 < n)%nat as Hpos by (assert (length commands <> 0)%nat by (by intros ?%nil_length_inv); lia).
  assert (length rs <= n)%nat as Hlen by (apply (collect_length n ws false false [] rs Hpos Hpos Hc)).
  split; [by apply collect_prefix in Hc|]. split; [done|].
  rewrite <- (batch_error_determinate commands n rs Hd Hm Hlen).
  unfold Run. fold commands. unfold validateAckCommandBatch. rewrite Hv. cbn [negb].
  destruct commands as [|c cs] eqn:Ecs; [done|]. rewrite Hi, Hm, Hc.
  destruct (ackBatchError (c :: cs) rs); split; done.
Qed.

(** A configuration of one constellation, acknowledged, with telemetry in between. *)
Definition ack (id : Z) : Message := mkMessage AckAckType None 0 (PAckAck 6 id) ["UBX-ACK-ACK:"%string].
Definition telemetry : Message := mkMessage NavStatusType None 0 (PNavStatus (mkNavStatus 0 5 0 0 8 0 0)) [].
Definition gps_cmd : Command := args ["-e"; "GPS"; "-e"; "SBAS"]%string.
Definition gps_wakes : list wake := [WProcess false; WMessage (ack 1); WMessage telemetry; WMessage (ack 2); WMessage (ack 3); WTimeout].

Lemma ack_batch_succeeds_witness :
  Run (fun _ => None) (Some (fun _ => Some gps_wakes)) "29.20" gps_cmd = Some (ROutput []).
Proof.
  refine (proj2 (proj2 (proj2 (ack_batch_succeeds (fun _ => None) (fun _ => Some gps_wakes) "29.20" gps_cmd gps_wakes
    [ack 1; ack 2; ack 3] 3 _ _ _ _ _))) _).
  - repeat constructor; [exists 1%nat|exists 0%nat]; vm_compute; reflexivity.
  - vm_compute. discriminate.
  - reflexivity.
  - vm_compute. reflexivity.
  - vm_compute. reflexivity.
  - split; vm_compute; reflexivity.
Defined.

(** ** Constellations *)

Lemma filter_split_perm {A} (p : A -> bool) l : List.filter p l ++ List.filter (fun x => negb (p x)) l ≡ₚ l.
Proof.
  induction l as [|x l IH]; [done|]. cbn. destruct (p x); cbn; [by constructor|].
  rewrite <- Permutation_middle. by constructor.
Qed.

Lemma constellation_mem_spec x l : mem x l = true <-> x ∈ l.
Proof. unfold mem. rewrite existsb_exists, list_elem_of_In. split; [intros (y & Hy & ->%str_eqb_eq); done|]. exists x. by rewrite str_eqb_refl. Qed.

Lemma mem_filter all wanted c : c ∈ all -> mem c (List.filter (fun c => mem c wanted) all) = mem c wanted.
Proof.
  intros Hc. apply eq_bool_prop_intro. rewrite !Is_true_true, !constellation_mem_spec, !list_elem_of_In, filter_In, <- !list_elem_of_In, constellation_mem_spec. tauto.
Qed.

Lemma flat_map_pairs {A} (f : A -> string) l : flat_map (fun c => ["-z"%string; f c]) l = flat_map (fun s => ["-z"%string; s]) (map f l).
Proof. induction l as [|x l IH]; [done|]. cbn. by rewrite IH. Qed.

Lemma map_perm_ext {A B} (f g : A -> B) l : (forall x, In x l -> f x = g x) -> map f l ≡ₚ map g l.
Proof. intros H. by rewrite (map_ext_in f g l H). Qed.

(** The settings of a command that enables [enable], a part of [all] in its order. *)
Lemma settings_perm all enable :
  List.filter (fun c => mem c enable) all = enable ->
  map (fun c => enableConstellation c true) enable ++ map (fun c => enableConstellation c false) (List.filter (fun c => negb (mem c enable)) all)
  ≡ₚ map (fun c => enableConstellation c (mem c enable)) all.
Proof.
  intros He. rewrite <- (filter_split_perm (fun c => mem c enable) all) at 2. rewrite map_app, He. f_equiv.
  - apply map_perm_ext. intros c Hc. by rewrite (proj2 (constellation_mem_spec c enable) (proj2 (list_elem_of_In _ _) Hc)).
  - apply map_perm_ext. intros c Hc. apply filter_In in Hc as [_ Hc]. apply negb_true_iff in Hc. by rewrite Hc.
Qed.

Lemma command_settings all enable : enable <> [] ->
  Args (constellation_command all enable) =
  flat_map (fun s => ["-z"%string; s]) (map (fun c => enableConstellation c true) enable
    ++ map (fun c => enableConstellation c false) (List.filter (fun c => negb (mem c enable)) all)).
Proof. intros H. unfold constellation_command. rewrite flat_map_app, <- !flat_map_pairs. by destruct enable. Qed.

Lemma filter_mem_nil all wanted : List.filter (fun c => mem c wanted) all = [] <-> Forall (fun c => c ∉ wanted) all.
Proof.
  induction all as [|c all IH]; [by split|]. cbn. rewrite Forall_cons, <- constellation_mem_spec, <- IH.
  destruct (mem c wanted); split; try done; try tauto; intros H; by split.
Qed.

Lemma enabled_none all wanted :
  enabled_constellations all wanted = [] <-> wanted <> [] /\ Forall (fun c => c ∉ wanted) all.
Proof.
  rewrite <- filter_mem_nil. unfold enabled_constellations. destruct (List.filter _ all); [|split; [done|by intros [_ ?]]].
  destruct wanted; split; try done. by intros [? _].
Qed.

(** The defaults are constellations of every receiver. *)
Lemma enabled_filter protoVersion all wanted :
  allowedConstellations protoVersion = Some all -> enabled_constellations all wanted <> [] ->
  List.filter (fun c => mem c (enabled_constellations all wanted)) all = enabled_constellations all wanted.
Proof.
  unfold enabled_constellations. intros Hall.
  destruct (List.filter (fun c => mem c wanted) all) as [|c cs] eqn:Ef.
  - destruct (length wanted =? 0)%nat; [|done]. intros _. unfold allowedConstellations in Hall.
    destruct (str_eqb protoVersion ProtoVersion29dot20); [injection Hall as <-; vm_compute; reflexivity|].
    destruct (str_eqb protoVersion ProtoVersion29dot25); [injection Hall as <-; vm_compute; reflexivity|done].
  - intros _. rewrite <- Ef. apply filter_ext_in. intros d Hd. apply mem_filter. by apply list_elem_of_In.
Qed.

(** For a receiver whose protocol is known, the constellation command sets every
    constellation the receiver has exactly once: on if it is among the requested ones the
    receiver has, or, when none is requested, among the default ones, and off otherwise; a
    request of which the receiver has nothing gives no command, so no command switches
    every constellation off. *)
Theorem constellations_set_once protoVersion config all :
  allowedConstellations protoVersion = Some all ->
  let enable := enabled_constellations all (Constellations config) in
  (Args (buildConstellationCommand protoVersion config) = [] <-> enable = []) /\
  (enable = [] <-> Constellations config <> [] /\ Forall (fun c => c ∉ Constellations config) all) /\
  (enable <> [] -> exists settings,
     Args (buildConstellationCommand protoVersion config) = flat_map (fun s => ["-z"%string; s]) settings /\
     settings ≡ₚ map (fun c => enableConstellation c (mem c enable)) all).
Proof.
  intros Hall enable. unfold buildConstellationCommand. rewrite Hall. fold enable.
  pose proof (enabled_none all (Constellations config)) as Hnone. fold enable in Hnone.
  pose proof (enabled_filter protoVersion all (Constellations config) Hall) as Hfilter. fold enable in Hfilter.
  clearbody enable. split_and!; [|exact Hnone|].
  - destruct enable; split; done.
  - intros Hne. rewrite command_settings by done. eexists. split; [reflexivity|]. by apply settings_perm, Hfilter.
Qed.

Lemma constellations_set_once_witness :
  let config := mkInit false ["GLO"; "BDS"]%string None [] in
  exists settings, Args (buildConstellationCommand "29.25" config) = flat_map (fun s => ["-z"%string; s]) settings /\
    settings ≡ₚ ["CFG-SIGNAL-GPS_ENA,0"; "CFG-SIGNAL-QZSS_ENA,0"; "CFG-SIGNAL-GAL_ENA,0"; "CFG-SIGNAL-BDS_ENA,1";
                 "CFG-SIGNAL-SBAS_ENA,0"; "CFG-SIGNAL-NAVIC_ENA,0"]%string.
Proof.
  intros config.
  exact (proj2 (proj2 (constellations_set_once "29.25" config ["GPS"; "QZSS"; "GAL"; "BDS"; "SBAS"; "NAVIC"]%string eq_refl)) ltac:(vm_compute; discriminate)).
Defined.

(** ** Subscriptions *)

(** The messages [deliver] was called with while the subscription was open. *)
Fixpoint accepted (xs : list sub_step) (s : messageSubscription) : list Message :=
  match xs with
  | [] => []
  | x :: xs' =>
      match x, sbPending s with
      | SPublish m, None => if sbClosed s || negb (wants s m) then [] else [m]
      | _, _ => []
      end ++ accepted xs' (sub_run x s)
  end.

Definition in_delivery (s : messageSubscription) : list Message := match sbPending s with Some (m, _) => [m] | None => [] end.

(** All the subscription still has, and has given to its consumer. *)
Definition kept (s : messageSubscription) : list Message := sbReceived s ++ sbQueue s ++ in_delivery s.

Record sub_ok (acc : list Message) (s : messageSubscription) : Prop := {
  so_bound : (length (sbQueue s) <= subscriptionBufferSize)%nat;
  so_room : forall m k, sbPending s = Some (m, k) -> (1 <= k <= 3)%nat /\ (k = 1%nat -> length (sbQueue s) < subscriptionBufferSize)%nat;
  so_sub : sublist (kept s) acc;
  so_last : last (kept s) = last acc
}.

Lemma try_send_room m s : (length (sbQueue s) < subscriptionBufferSize)%nat ->
  try_send m s = Some (mkSub (sbTypes s) (sbQueue s ++ [m]) (sbClosed s) (sbReceived s) None).
Proof. intros H. unfold try_send. by rewrite (proj2 (Nat.ltb_lt _ _) H). Qed.

Lemma sub_step_ok x acc s :
  sub_ok acc s ->
  sub_ok (acc ++ match x, sbPending s with SPublish m, None => if sbClosed s || negb (wants s m) then [] else [m] | _, _ => [] end) (sub_run x s).
Proof.
  intros [Hb Hr Hs Hl].
  assert (forall s', kept s' = kept s -> (length (sbQueue s') <= subscriptionBufferSize)%nat ->
    (forall m k, sbPending s' = Some (m, k) -> (1 <= k <= 3)%nat /\ (k = 1%nat -> length (sbQueue s') < subscriptionBufferSize)%nat) ->
    sub_ok (acc ++ []) s') as Hsame.
  { intros s' Hk Hb' Hr'. rewrite app_nil_r. split; [done..| |]; by rewrite Hk. }
  pose proof (Hsame s eq_refl Hb Hr) as Hid. rewrite app_nil_r in Hid.
  destruct x as [m| | |]; cbn [sub_run].
  - destruct (sbPending s) as [[m' k]|] eqn:Ep; [by rewrite app_nil_r|].
    destruct (_ || _) eqn:Ec; [by rewrite app_nil_r|].
    assert (kept (mkSub (sbTypes s) (sbQueue s) (sbClosed s) (sbReceived s) (Some (m, 3%nat))) = kept s ++ [m]) as Hk.
    { unfold kept, in_delivery. rewrite Ep. cbn. by rewrite app_nil_r, app_assoc. }
    split; [done| | |].
    + intros m0 k0 [= <- <-]. split; [lia|lia].
    + rewrite Hk. by apply sublist_app.
    + by rewrite Hk, !last_snoc.
  - rewrite app_nil_r. clear Hsame. destruct (sbPending s) as [[m k]|] eqn:Ep; [|done].
    destruct (Hr m k eq_refl) as [Hk H1].
    assert (kept s = sbReceived s ++ sbQueue s ++ [m]) as Hkept by (unfold kept, in_delivery; by rewrite Ep).
    assert (forall b, (length (sbQueue s) < subscriptionBufferSize)%nat ->
      sub_ok acc (mkSub (sbTypes s) (sbQueue s ++ [m]) b (sbReceived s) None)) as Hsent.
    { intros b Hq. split; [cbn; rewrite length_app; cbn; lia|done| |];
        unfold kept, in_delivery; cbn; rewrite app_nil_r, <- Hkept; done. }
    destruct k as [|[|[|[|k]]]]; try lia.
    + rewrite try_send_room by auto. by apply Hsent; auto.
    + split; cbn.
      * destruct (sbQueue s); cbn in *; lia.
      * intros m0 k0 [= <- <-]. split; [lia|]. intros _. destruct (sbQueue s); cbn in *; unfold subscriptionBufferSize in *; lia.
      * etrans; [|exact Hs]. rewrite Hkept. unfold kept, in_delivery. cbn. apply sublist_app; [done|].
        apply sublist_app; [|done]. destruct (sbQueue s); [done|]. by apply sublist_cons.
      * rewrite <- Hl, Hkept. unfold kept, in_delivery. cbn. by rewrite !app_assoc, !last_snoc.
    + unfold try_send. destruct (_ <? _)%nat eqn:El; [apply Nat.ltb_lt in El; by apply Hsent|].
      split; cbn; [done|intros m0 k0 [= <- <-]; lia| |]; unfold kept, in_delivery in *; rewrite Ep in *; done.
  - destruct (sbQueue s) as [|m q] eqn:Eq; [by rewrite app_nil_r|]. apply Hsame.
    + unfold kept, in_delivery. cbn. by rewrite Eq, <- app_assoc.
    + cbn in *. lia.
    + intros m0 k0 Hp. destruct (Hr m0 k0 Hp) as [? Hlt]. split; [done|]. intros ->. specialize (Hlt eq_refl). cbn in *. lia.
  - destruct (sbPending s) as [[m k]|] eqn:Ep; [by rewrite app_nil_r|].
    apply Hsame; [|done..]. unfold kept, in_delivery. cbn. by rewrite Ep.
Qed.

Lemma sub_runs_ok xs : forall acc s, sub_ok acc s -> sub_ok (acc ++ accepted xs s) (sub_runs xs s).
Proof.
  induction xs as [|x xs IH]; intros acc s H; [cbn; by rewrite app_nil_r|].
  cbn [accepted sub_runs foldl]. rewrite app_assoc. by apply IH, sub_step_ok.
Qed.

(** However the consumer is scheduled against the receiver, a subscription never holds
    more messages than its buffer; its consumer gets the messages in the order in which
    they were published, without duplicates; only older ones are lost: the newest message
    delivered is always still on its way, waiting, or the last one received. *)
Theorem newest_message_kept types xs :
  let s := sub_runs xs (newSubscription types) in
  let published := accepted xs (newSubscription types) in
  (length (sbQueue s) <= subscriptionBufferSize)%nat /\
  sublist (sbReceived s ++ sbQueue s ++ in_delivery s) published /\
  last (sbReceived s ++ sbQueue s ++ in_delivery s) = last published.
Proof.
  intros s published.
  destruct (sub_runs_ok xs [] (newSubscription types)) as [? _ ? ?]; [|done].
  split; cbn; [unfold subscriptionBufferSize; lia|done|done|done].
Qed.

End UbloxCmd.
