(* ===== verification/Gpsd.v ===== *)
(** * pkg/daemon: gpsd and the monitoring of the GNSS receiver

    pkg/daemon/gpsd.go: the correlation of NAV-CLOCK and NAV-STATUS by their time of week,
    the poll loop with its reset, and the lifecycle of the process and of its monitor.
    What the loop waits for is a sequence of inputs, what it does to the receiver and to
    its channels a sequence of outputs. *)

From S2P Require Import Prelude Float64 Event Process Ublox.

#[local] Open Scope Z_scope.

Module Gpsd.

Import Process Ublox.

Definition GPSD_PROCESSNAME : string := "gpsd".

(** ** Correlation *)

(** The configuration of the process, and what it remembers of the receiver. *)
Record Config := mkConfig { cfConfigName : string; cfInterface : string; cfClockType : ClockType; cfThresholdMax : Z }.

Record GPSD := mkGPSD {
  goffset : Z;
  lastNavStatus : option NavStatus;
  lastNavClock : option NavClock;
  gsourceLost : bool
}.

#[export] Instance GPSD_fields : Fields GPSD := fun g => mkGPSD (goffset g) (lastNavStatus g) (lastNavClock g) (gsourceLost g).

Definition gnssClockType (c : Config) : ClockType := if str_eqb (cfClockType c) "" then GM_type else cfClockType c.

Definition resetiTOWMatch (g : GPSD) : GPSD := g <| lastNavStatus := None |> <| lastNavClock := None |>.

Definition isOffsetInRange (c : Config) (offset : Z) : bool := f64_ltb (f64_abs (f64_of_Z offset)) (f64_of_Z (cfThresholdMax c)).

Definition gnss_event (c : Config) (now : Z) (gpsStatus offset : Z) (sourceLost : bool) : Event :=
  mkEvent GNSS (cfInterface c) (cfConfigName c) (gnssClockType c) now true false (Some (EGNSS (mkGNSSData gpsStatus offset sourceLost))).

(** [checkForiTOWCorrelation]: the event it sends, if the two messages match. *)
Definition checkForiTOWCorrelation (c : Config) (now : Z) (g : GPSD) : option Event * GPSD :=
  match lastNavStatus g, lastNavClock g with
  | Some status, Some clock =>
      if nsITOW status =? ncITOW clock then
        let g := resetiTOWMatch g <| goffset := ncOffset clock |> in
        let lost := (nsGPSFix status <? 3) || SpoofingDetected status || negb (isOffsetInRange c (goffset g)) in
        let g := g <| gsourceLost := lost |> in
        (Some (gnss_event c now (nsGPSFix status) (goffset g) (gsourceLost g)), g)
      else (None, g)
  | _, _ => (None, g)
  end.

(** [processGNSSMessage]: the event, and the leap-second data for the leap manager. *)
Definition processGNSSMessage (c : Config) (now : Z) (message : Message) (g : GPSD) : option Event * option TimeLs * GPSD :=
  match mgPayload message with
  | PNavStatus s => let '(e, g) := checkForiTOWCorrelation c now (g <| lastNavStatus := Some s |>) in (e, None, g)
  | PNavClock k => let '(e, g) := checkForiTOWCorrelation c now (g <| lastNavClock := Some k |>) in (e, None, g)
  | PTimeLs t => (None, Some t, g)
  | _ => (None, None, g)
  end.

(** ** The poll loop *)

Inductive input := ITick | IMessage (now : Z) (m : Message) | IClosed | IDone.

Inductive output := OEvent (e : Event) | OTimeLs (t : TimeLs) | OPollInit | OPollReset.

Record loop := mkLoop { lpGPSD : GPSD; lpMissed : nat; lpEvent : bool }.

(** The loop is over with an error, without one, or goes on. *)
Inductive next := Go (l : loop) | Return (failed : bool) (l : loop).

Definition pollStart (g : GPSD) : list output * loop := ([OPollInit], mkLoop (resetiTOWMatch g) 0 false).

Definition poll_step (c : Config) (x : input) (l : loop) : list output * next :=
  match x with
  | ITick =>
      if lpEvent l then ([OPollInit], Go (mkLoop (lpGPSD l) 0 false))
      else if (3 <? S (lpMissed l))%nat then ([OPollReset; OPollInit], Go (mkLoop (resetiTOWMatch (lpGPSD l)) 0 false))
      else ([OPollInit], Go (mkLoop (lpGPSD l) (S (lpMissed l)) false))
  | IMessage now m =>
      let '(e, t, g) := processGNSSMessage c now m (lpGPSD l) in
      ((match e with Some e => [OEvent e] | None => [] end) ++ (match t with Some t => [OTimeLs t] | None => [] end),
       Go (mkLoop g (lpMissed l) (match e with Some _ => true | None => lpEvent l end)))
  | IClosed => ([], Return true l)
  | IDone => ([], Return false l)
  end.

(** [pollForMessages]: the trace of inputs and outputs, newest first, and where it is. *)
Fixpoint poll (c : Config) (xs : list input) (trace : list (input * list output)) (l : loop) : list (input * list output) * next :=
  match xs with
  | [] => (trace, Go l)
  | x :: xs' =>
      match poll_step c x l with
      | (out, Go l') => poll c xs' ((x, out) :: trace) l'
      | (out, Return failed l') => ((x, out) :: trace, Return failed l')
      end
  end.

Definition pollForMessages (c : Config) (xs : list input) (g : GPSD) : list (input * list output) * next :=
  poll c xs [] (pollStart g).2.

(** [monitorGNSSEventsWithUblox] between two polls: the event of its deferred function. *)
Definition monitor_exit_event (c : Config) (now : Z) : Event :=
  mkEvent GNSS "" (cfConfigName c) (gnssClockType c) now false true None.

(** ** Lifecycle *)

(** The goroutine of [run]: before the command, waiting for it, in its deferred function
    before and after it has read the state. *)
Inductive Run := RSpawned | RWaiting | RExit | RSet (final : State).

(** The goroutine of the monitor: initialising the receiver, or polling with the stop
    channel it found when it began. *)
Inductive Mon := MInit | MPoll (ch : option nat).

(** A stop channel is its number; the context is the current one of the process. *)
Record Life := mkLife {
  lfState : State;
  lfCmd : bool;
  lfStopCh : option nat;
  lfClosed : list nat;
  lfCancelled : bool;
  lfRuns : list Run;
  lfMons : list Mon;
  lfStatus : list Z
}.

#[export] Instance Life_fields : Fields Life := fun l =>
  mkLife (lfState l) (lfCmd l) (lfStopCh l) (lfClosed l) (lfCancelled l) (lfRuns l) (lfMons l) (lfStatus l).

Definition NewGpsdProcess : Life := mkLife Created true None [] false [] [] [].

(** [Start]: false when it is an error. *)
Definition Start (l : Life) : bool * Life :=
  match lfState l with
  | Starting | Running => (true, l)
  | Stopping => (false, l)
  | Created | Stopped | Dead =>
      let st := lfState l in
      let l := l <| lfStopCh := Some (match lfStopCh l with Some n => S n | None => 0%nat end) |> in
      let l := if State_eqb st Stopped then l <| lfCancelled := false |> else l in
      let l := l <| lfState := Starting |> <| lfRuns := lfRuns l ++ [RSpawned] |> in
      (true, if State_eqb st Created || State_eqb st Stopped then l <| lfMons := lfMons l ++ [MInit] |> else l)
  end.

(** [close(stopCh)] of a channel that is not nil; [None] is the panic. *)
Definition close_stop (l : Life) : option Life :=
  match lfStopCh l with
  | None => Some l
  | Some n => if bool_decide (n ∈ lfClosed l) then None else Some (l <| lfClosed := n :: lfClosed l |>)
  end.

(** [Stop] up to its wait for the goroutines: whether it signals the command and waits. *)
Definition Stop (l : Life) : option (bool * Life) :=
  match lfState l with
  | Created | Stopping | Stopped | Dead => Some (false, l)
  | Starting | Running =>
      l ← close_stop (l <| lfState := Stopping |>);
      Some (true, l <| lfCancelled := true |>)
  end.

(** The phases of [run]. *)
Definition run_begin (started : bool) (l : Life) : Run * Life :=
  if negb (lfCmd l && started) then (RExit, l)
  else if State_eqb (lfState l) Stopping then (RWaiting, l)
  else (RWaiting, l <| lfState := Running |> <| lfStatus := lfStatus l ++ [1] |>).

Definition run_read (l : Life) : Run := RSet (if State_eqb (lfState l) Stopping then Stopped else Dead).

Definition run_set (st : State) (l : Life) : Life := l <| lfState := st |> <| lfStatus := lfStatus l ++ [0] |>.

Definition remove_nth {A} (i : nat) (l : list A) : list A := take i l ++ drop (S i) l.

(** What makes a monitor return: its context, or its channel. *)
Definition mon_done (ch : option nat) (l : Life) : Prop := lfCancelled l = true \/ exists n, ch = Some n /\ n ∈ lfClosed l.

Definition set_run (i : nat) (r : Run) (l : Life) : Life := l <| lfRuns := <[i := r]> (lfRuns l) |>.
Definition drop_run (i : nat) (l : Life) : Life := l <| lfRuns := remove_nth i (lfRuns l) |>.
Definition set_mon (i : nat) (m : Mon) (l : Life) : Life := l <| lfMons := <[i := m]> (lfMons l) |>.
Definition drop_mon (i : nat) (l : Life) : Life := l <| lfMons := remove_nth i (lfMons l) |>.

Inductive step (l : Life) : Life -> Prop :=
| StStart : step l (Start l).2
| StStop r : Stop l = Some r -> step l r.2
| StBegin i started : lfRuns l !! i = Some RSpawned -> step l (set_run i (run_begin started l).1 (run_begin started l).2)
| StEnd i : lfRuns l !! i = Some RWaiting -> step l (set_run i RExit l)
| StRead i : lfRuns l !! i = Some RExit -> step l (set_run i (run_read l) l)
| StSet i st : lfRuns l !! i = Some (RSet st) -> step l (drop_run i (run_set st l))
| StMonInit i : lfMons l !! i = Some MInit -> step l (set_mon i (MPoll (lfStopCh l)) l)
| StMonGiveUp i : lfMons l !! i = Some MInit -> mon_done (lfStopCh l) l -> step l (drop_mon i l)
| StMonRetry i ch : lfMons l !! i = Some (MPoll ch) -> step l (set_mon i MInit l)
| StMonDone i ch : lfMons l !! i = Some (MPoll ch) -> mon_done ch l -> step l (drop_mon i l).

Inductive reachable : Life -> Prop :=
| reachable_init : reachable NewGpsdProcess
| reachable_step l l' : reachable l -> step l l' -> reachable l'.

(** * Properties *)

(** ** What a trace says *)

Definition is_event (o : output) : bool := match o with OEvent _ => true | _ => false end.
Definition is_reset (o : output) : bool := match o with OPollReset => true | _ => false end.

(** A message after an event or a reset starts from nothing. *)
Definition boundary (s : input * list output) : bool := existsb is_event s.2 || existsb is_reset s.2.

(** The inputs since the newest boundary, newest first. *)
Fixpoint since_boundary (trace : list (input * list output)) : list input :=
  match trace with
  | [] => []
  | s :: trace' => if boundary s then [] else s.1 :: since_boundary trace'
  end.

Definition as_status (x : input) : option NavStatus :=
  match x with IMessage _ m => match mgPayload m with PNavStatus s => Some s | _ => None end | _ => None end.
Definition as_clock (x : input) : option NavClock :=
  match x with IMessage _ m => match mgPayload m with PNavClock k => Some k | _ => None end | _ => None end.

Definition newest {A} (f : input -> option A) (xs : list input) : option A := head (omap f xs).

(** The ticks since the newest reset or the start, or the ticks after the one that follows
    the newest event. *)
Fixpoint quiet_ticks (trace : list (input * list output)) : nat * bool :=
  match trace with
  | [] => (0%nat, false)
  | (x, out) :: trace' =>
      let '(n, fresh) := quiet_ticks trace' in
      if existsb is_event out then (n, true)
      else if existsb is_reset out then (0%nat, false)
      else match x with ITick => if fresh then (0%nat, false) else (S n, false) | _ => (n, fresh) end
  end.

(** The event a status and a clock of the same epoch give. *)
Definition pair_event (c : Config) (now : Z) (s : NavStatus) (k : NavClock) : Event :=
  gnss_event c now (nsGPSFix s) (ncOffset k)
    ((nsGPSFix s <? 3) || SpoofingDetected s || negb (isOffsetInRange c (ncOffset k))).

(** What the loop must do with an input, after a trace. *)
Definition expected (c : Config) (trace : list (input * list output)) (x : input) : list output :=
  match x with
  | ITick => if negb (quiet_ticks trace).2 && (3 <=? (quiet_ticks trace).1)%nat then [OPollReset; OPollInit] else [OPollInit]
  | IMessage now m =>
      match mgPayload m with
      | PTimeLs t => [OTimeLs t]
      | PNavStatus s =>
          match newest as_clock (since_boundary trace) with
          | Some k => if nsITOW s =? ncITOW k then [OEvent (pair_event c now s k)] else []
          | None => []
          end
      | PNavClock k =>
          match newest as_status (since_boundary trace) with
          | Some s => if nsITOW s =? ncITOW k then [OEvent (pair_event c now s k)] else []
          | None => []
          end
      | _ => []
      end
  | _ => []
  end.

(** Every input of the trace had the outputs it must have. *)
Fixpoint conforms (c : Config) (trace : list (input * list output)) : Prop :=
  match trace with
  | [] => True
  | (x, out) :: trace' => out = expected c trace' x /\ conforms c trace'
  end.

Record loop_ok (trace : list (input * list output)) (l : loop) : Prop := {
  lo_status : lastNavStatus (lpGPSD l) = newest as_status (since_boundary trace);
  lo_clock : lastNavClock (lpGPSD l) = newest as_clock (since_boundary trace);
  lo_ticks : quiet_ticks trace = (lpMissed l, lpEvent l)
}.

Lemma newest_cons {A} (f : input -> option A) x xs : newest f (x :: xs) = match f x with Some a => Some a | None => newest f xs end.
Proof. unfold newest. simpl. by destruct (f x). Qed.

(** A step after which the same candidates are left, but for the new one. *)
Lemma quiet_step_ok trace l x l' :
  loop_ok trace l -> x <> ITick ->
  lastNavStatus (lpGPSD l') = match as_status x with Some s => Some s | None => lastNavStatus (lpGPSD l) end ->
  lastNavClock (lpGPSD l') = match as_clock x with Some k => Some k | None => lastNavClock (lpGPSD l) end ->
  lpMissed l' = lpMissed l -> lpEvent l' = lpEvent l ->
  forall out, boundary (x, out) = false -> loop_ok ((x, out) :: trace) l'.
Proof.
  intros [Hs Hk Ht] Hx Hs' Hk' Hm He out Hb. split.
  - cbn [since_boundary]. rewrite Hb, newest_cons, Hs', Hs. done.
  - cbn [since_boundary]. rewrite Hb, newest_cons, Hk', Hk. done.
  - cbn [quiet_ticks]. unfold boundary in Hb. apply orb_false_iff in Hb as [Hb1 Hb2]. cbn [snd] in Hb1, Hb2.
    rewrite Ht, Hb1, Hb2, Hm, He. by destruct x.
Qed.

(** An event clears the candidates. *)
Lemma event_step_ok trace l x e l' :
  loop_ok trace l -> lastNavStatus (lpGPSD l') = None -> lastNavClock (lpGPSD l') = None ->
  lpMissed l' = lpMissed l -> lpEvent l' = true -> loop_ok ((x, [OEvent e]) :: trace) l'.
Proof. intros [Hs Hk Ht] Hs' Hk' Hm He. split; cbn; [done..|]. by rewrite Ht, Hm, He. Qed.

Lemma poll_step_ok c trace x l :
  loop_ok trace l ->
  let r := poll_step c x l in
  r.1 = expected c trace x /\ match r.2 with Go l' => loop_ok ((x, r.1) :: trace) l' | Return _ _ => True end.
Proof.
  intros Hl r. subst r. pose proof Hl as [Hs Hk Ht]. destruct x as [|now m| |]; [| |by split..].
  - cbn [poll_step expected]. rewrite Ht. cbn [fst snd].
    destruct (lpEvent l) eqn:Ee; cbn [negb andb]; [split; [done|]; split; cbn; rewrite ?Ht; done|].
    destruct (3 <? S (lpMissed l))%nat eqn:El.
    + apply Nat.ltb_lt in El. rewrite (proj2 (Nat.leb_le _ _)) by lia. split; [done|]. split; cbn; by rewrite ?Ht.
    + apply Nat.ltb_ge in El. rewrite (proj2 (Nat.leb_gt _ _)) by lia. split; [done|]. split; cbn; by rewrite ?Ht.
  - cbn [poll_step expected]. unfold processGNSSMessage.
    destruct (mgPayload m) as [k|s|t| | | |] eqn:Em.
    1: unfold checkForiTOWCorrelation; cbn; rewrite ?Hs; destruct (newest as_status _) eqn:En.
    3: unfold checkForiTOWCorrelation; cbn; rewrite ?Hk; destruct (newest as_clock _) eqn:En.
    1,3: destruct (_ =? _) eqn:Ei; (split; [done|]); [by eapply event_step_ok|].
    1,2,3,4: try (split; [done|]); (eapply quiet_step_ok; [exact Hl|done|..]); cbn; rewrite ?Em; cbn; congruence.
    all: (split; [done|]); (eapply quiet_step_ok; [exact Hl|done|..]); cbn; by rewrite ?Em.
Qed.

Lemma poll_conforms c xs : forall trace l,
  loop_ok trace l -> conforms c trace -> conforms c (poll c xs trace l).1.
Proof.
  induction xs as [|x xs IH]; intros trace l Hl Hc; [done|]. cbn [poll].
  destruct (poll_step_ok c trace x l Hl) as [He Hn]. destruct (poll_step c x l) as [out [l'|failed l']]; cbn in *.
  - apply IH; [done|]. by split.
  - by split.
Qed.

(** C30. Whatever the receiver says and whenever the ticker fires, each input has exactly the
    outputs that the trace before it calls for: a NAV-STATUS or NAV-CLOCK gives an event
    exactly when the newest message of the other kind since the last event or reset is of
    the same time of week, and the event is that pair's, the source lost without a 3D fix,
    when spoofing is detected or when the offset is out of range; every tick restarts the
    receiver's process if needed, and resets it exactly when it is the fourth one in a row
    for which no event came. *)
Theorem gnss_epochs_matched c xs g : conforms c (pollForMessages c xs g).1.
Proof. apply poll_conforms; [|done]. by split. Qed.

(** ** The lifecycle *)

(** Where the goroutine of [run] can be in each state. *)
Definition runs_ok (st : State) (runs : list Run) : Prop :=
  match st with
  | Created | Stopped | Dead => runs = []
  | Starting => runs = [RSpawned] \/ runs = [RExit] \/ runs = [RSet Dead]
  | Running => runs = [RWaiting] \/ runs = [RExit] \/ runs = [RSet Dead]
  | Stopping => exists r, runs = [r] /\ (forall st, r = RSet st -> st = Stopped \/ st = Dead)
  end.

Record Inv (l : Life) : Prop := {
  inv_runs : runs_ok (lfState l) (lfRuns l);
  inv_fresh : forall n, n ∈ lfClosed l -> exists m, lfStopCh l = Some m /\ (n <= m)%nat;
  inv_open : lfState l = Starting \/ lfState l = Running -> forall n, lfStopCh l = Some n -> n ∉ lfClosed l;
  inv_cancelled : lfState l = Stopping -> lfCancelled l = true
}.

Lemma gpsd_runs_single st runs i r : runs_ok st runs -> runs !! i = Some r -> i = 0%nat /\ runs = [r].
Proof. destruct st, i as [|[|i]]; naive_solver. Qed.

Lemma runs_ok_spawned st : runs_ok st [RSpawned] -> st = Starting \/ st = Stopping.
Proof. destruct st; cbn; intros H; try done; auto; by destruct H as [?|[?|?]]. Qed.

(** A goroutine may end in every state in which it runs. *)
Lemma gpsd_runs_ok_exit st r : runs_ok st [r] -> runs_ok st [RExit].
Proof. destruct st; cbn; intros H; try done; auto. eexists. split; [done|]. naive_solver. Qed.

Lemma runs_ok_read l : runs_ok (lfState l) [RExit] -> runs_ok (lfState l) [run_read l].
Proof.
  unfold run_read, State_eqb. destruct (lfState l); cbn; intros H; try done; auto.
  eexists. split; [done|]. intros st [= <-]. auto.
Qed.

Lemma gpsd_runs_ok_alive st runs : runs_ok st runs -> (length runs <= 1)%nat /\ (runs = [] <-> st ∈ [Created; Stopped; Dead]).
Proof.
  destruct st; cbn; [intros ->|intros [->|[->| ->]]|intros [->|[->| ->]]|intros (r & -> & _)|intros ->|intros ->];
    cbn; (split; [lia|]); set_solver.
Qed.

Lemma runs_ok_set st final : runs_ok st [RSet final] -> final = Stopped \/ final = Dead.
Proof.
  destruct st; cbn; intros H; try done.
  1,2: destruct H as [H|[H|H]]; try done; injection H; auto.
  destruct H as (r & [= <-] & H). by apply H.
Qed.

Lemma gpsd_close_stop_total l : Inv l -> lfState l = Starting \/ lfState l = Running ->
  forall l', lfStopCh l' = lfStopCh l -> lfClosed l' = lfClosed l -> is_Some (close_stop l').
Proof.
  intros HI Hst l' H1 H2. unfold close_stop. rewrite H1, H2. destruct (lfStopCh l) as [n|] eqn:E; [|by eexists].
  rewrite bool_decide_false by (by eapply inv_open). by eexists.
Qed.

Lemma close_stop_fields l l' : close_stop l = Some l' ->
  lfState l' = lfState l /\ lfRuns l' = lfRuns l /\ lfStopCh l' = lfStopCh l /\
  (forall n, n ∈ lfClosed l' -> n ∈ lfClosed l \/ lfStopCh l = Some n) /\ lfMons l' = lfMons l.
Proof.
  unfold close_stop. destruct (lfStopCh l) as [n|] eqn:E; [|intros [= <-]; naive_solver].
  destruct (bool_decide _); [done|]. intros [= <-]. cbn. split_and!; try done. intros m Hm. set_solver.
Qed.

Lemma gpsd_Start_Inv l : Inv l -> Inv (Start l).2.
Proof.
  intros HI. pose proof HI as [Hr Hf Ho Hc]. unfold Start.
  destruct (lfState l) eqn:E; try done; cbn in *; rewrite Hr in *.
  all: split; cbn; [by left| | |done].
  all: try (intros n Hn; destruct (Hf n Hn) as (m & -> & ?); eexists; split; [done|lia]).
  all: intros _ n [= <-] Hn; destruct (Hf _ Hn) as (m & Hm & ?); rewrite Hm in *; lia.
Qed.

Lemma gpsd_Stop_Inv l r : Inv l -> Stop l = Some r -> Inv r.2.
Proof.
  intros HI H. pose proof HI as [Hr Hf Ho Hc]. unfold Stop in H.
  destruct (lfState l) eqn:E; try (injection H as <-; done).
  all: destruct (close_stop _) as [l'|] eqn:Ec; [|done]; injection H as <-; cbn.
  all: destruct (close_stop_fields _ _ Ec) as (E1 & E2 & E3 & E4 & _); cbn in *.
  all: split; cbn; rewrite ?E1, ?E2, ?E3; [|intros n Hn; destruct (E4 n Hn) as [?|E5]; [by apply Hf|by eexists]|naive_solver|done].
  all: destruct Hr as [-> |[-> | ->]]; eexists; (split; [done|]); naive_solver.
Qed.

Lemma gpsd_step_Inv l l' : Inv l -> step l l' -> Inv l'.
Proof.
  intros HI H. destruct H as [|r Hr|i started Hi|i Hi|i Hi|i st Hi| | | |]; [by apply gpsd_Start_Inv|by eapply gpsd_Stop_Inv| | | | |..];
    pose proof HI as [Hr Hf Ho Hc]; [| | | |by split..]; destruct (gpsd_runs_single _ _ _ _ Hr Hi) as [-> Er].
  - unfold run_begin, State_eqb. destruct (lfCmd l && started); cbn.
    + assert (lfState l = Starting \/ lfState l = Stopping) as Hst by (rewrite Er in Hr; by apply runs_ok_spawned).
      rewrite Er in *. case_bool_decide as Es; split; cbn; rewrite ?Er, ?Es in *; try done.
      * eexists. split; [done|by intros ? [=]].
      * by left.
      * intros _. apply Ho. destruct Hst as [?|?]; [by left|done].
    + split; cbn; [rewrite Er in *; by eapply gpsd_runs_ok_exit|done..].
  - split; cbn; [rewrite Er in *; by eapply gpsd_runs_ok_exit|done..].
  - split; cbn; [rewrite Er in *; by apply runs_ok_read|done..].
  - assert (st = Stopped \/ st = Dead) as Hst by (rewrite Er in Hr; by eapply runs_ok_set).
    split; cbn; [rewrite Er; by destruct Hst as [-> | ->]|done|by destruct Hst as [-> | ->]; naive_solver|by destruct Hst as [-> | ->]].
Qed.

Lemma gpsd_reachable_Inv l : reachable l -> Inv l.
Proof.
  induction 1 as [|l l' _ IH Hs]; [|by eapply gpsd_step_Inv]. split; cbn; [done|intros n Hn; set_solver|naive_solver|done].
Qed.

(** In every interleaving of starts, stops and its goroutines, the process has at most one
    goroutine that runs the command, exactly while it is Starting, Running or Stopping; a
    stop closes each channel at most once; and while it is Stopping every monitor may
    return. *)
Theorem gpsd_lifecycle l :
  reachable l ->
  (length (lfRuns l) <= 1)%nat /\ (lfRuns l = [] <-> lfState l ∈ [Created; Stopped; Dead]) /\
  is_Some (Stop l) /\ (lfState l = Stopping -> forall ch, mon_done ch l).
Proof.
  intros Hr. apply gpsd_reachable_Inv in Hr as HI. pose proof HI as [H _ _ Hc].
  apply gpsd_runs_ok_alive in H as [H1 H2]. split; [done|split; [done|split]].
  - assert (lfState l = Starting \/ lfState l = Running -> is_Some (close_stop (l <| lfState := Stopping |>))) as Hclose
      by (intros Hst; by apply (gpsd_close_stop_total l HI Hst)).
    unfold Stop. destruct (lfState l); try by eexists.
    all: destruct (Hclose ltac:(auto)) as [l' E]; rewrite E; by eexists.
  - intros Hs ch. left. by apply Hc.
Qed.

(** A process that ended by itself is Dead, and stopping it does nothing: its monitor goes
    on, with the old configuration, and nothing is left that could end it but a new start. *)
Lemma dead_stop_leaves_monitor :
  exists l, reachable l /\ lfState l = Dead /\ Stop l = Some (false, l) /\ lfMons l = [MPoll (Some 0%nat)] /\ ~ mon_done (Some 0%nat) l.
Proof.
  pose (l1 := (Start NewGpsdProcess).2). pose (l2 := set_mon 0 (MPoll (lfStopCh l1)) l1).
  pose (l3 := set_run 0 (run_begin true l2).1 (run_begin true l2).2). pose (l4 := set_run 0 RExit l3).
  pose (l5 := set_run 0 (run_read l4) l4). exists (drop_run 0 (run_set Dead l5)). split_and!; try reflexivity.
  - eapply (reachable_step l5); [|by constructor]. eapply (reachable_step l4); [|by constructor].
    eapply (reachable_step l3); [|by constructor]. eapply (reachable_step l2); [|by apply (StBegin l2 0 true)].
    eapply (reachable_step l1); [|by apply (StMonInit l1 0)]. eapply reachable_step; [constructor|by constructor].
  - intros [H|(n & [= <-] & H)]; [done|set_solver].
Qed.

(** The end of the command overtaken by a stop between the two accesses to the state leaves
    Dead, and a start from Dead begins no monitor: gpsd runs unmonitored. *)
Lemma late_death_loses_monitor :
  exists l, reachable l /\ lfState l = Running /\ lfMons l = [].
Proof.
  pose (l1 := (Start NewGpsdProcess).2).
  pose (l3 := set_run 0 (run_begin true l1).1 (run_begin true l1).2). pose (l4 := set_run 0 RExit l3).
  pose (l5 := set_run 0 (run_read l4) l4).
  pose (l6 := default (false, l5) (Stop l5)). pose (l7 := drop_mon 0 l6.2). pose (l8 := drop_run 0 (run_set Dead l7)).
  pose (l9 := (Start l8).2). exists (set_run 0 (run_begin true l9).1 (run_begin true l9).2). split_and!; try reflexivity.
  eapply (reachable_step l9); [|by apply (StBegin l9 0 true)]. eapply (reachable_step l8); [|by constructor].
  eapply (reachable_step l7); [|by constructor]. eapply (reachable_step l6.2).
  2:{ apply (StMonGiveUp l6.2 0); [done|by left]. }
  eapply (reachable_step l5); [|by apply (StStop l5 l6)]. eapply (reachable_step l4); [|by constructor].
  eapply (reachable_step l3); [|by constructor]. eapply (reachable_step l1); [|by apply (StBegin l1 0 true)].
  eapply reachable_step; [constructor|by constructor].
Qed.

End Gpsd.
