(* ===== verification/LeapFile.v ===== *)
(** * pkg/leap: the leap-seconds file

    The data of pkg/leap/leap-file.go and its text: parsing, the html/template that prints
    it, and the checksum, for which SHA-1 is modelled as crypto/sha1 computes it.  A time is
    the nanoseconds since 1900-01-01, the epoch of the file.  Text is ASCII. *)

From S2P Require Import Prelude Float64 Strconv Event Regex Parser Conf.
From Stdlib Require Import Ascii.

#[local] Open Scope Z_scope.

Module LeapFile.

(** A call that returns, returns an error, or panics. *)
Inductive outcome (A : Type) := Ok (a : A) | Err | Panic.
Arguments Ok {A} a.
Arguments Err {A}.
Arguments Panic {A}.

Definition obind {A B} (o : outcome A) (k : A -> outcome B) : outcome B :=
  match o with Ok a => k a | Err => Err | Panic => Panic end.

Record LeapEvent := mkLeapEvent { LeapTime : string; LeapSec : Z; Comment : string }.

Record LeapFile := mkLeapFile { ExpirationTime : string; UpdateTime : string; LeapEvents : list LeapEvent; Hash : string }.

#[export] Instance LeapFile_fields : Fields LeapFile := fun l =>
  mkLeapFile (ExpirationTime l) (UpdateTime l) (LeapEvents l) (Hash l).

Definition empty_file : LeapFile := mkLeapFile "" "" [] "".

(** ** Parsing *)

Definition has_prefix (p s : string) : bool := match drop_prefix p s with Some _ => true | None => false end.

(** A line of the file; [fields[1]] of a line that has no second field panics. *)
Definition parse_line (l : LeapFile) (line : string) : outcome LeapFile :=
  let fields := Conf.Fields line in
  if has_prefix "#$" line then match fields with _ :: f :: _ => Ok (l <| UpdateTime := f |>) | _ => Panic end
  else if has_prefix "#@" line then match fields with _ :: f :: _ => Ok (l <| ExpirationTime := f |>) | _ => Panic end
  else if has_prefix "#h" line then match fields with _ :: rest => Ok (l <| Hash := join " " rest |>) | [] => Panic end
  else if has_prefix "#" line then Ok l
  else
    match fields with
    | f0 :: f1 :: rest =>
        let '(sec, ok) := ParseInt f1 10 8 in
        if negb ok then Err
        else if negb (ParseInt f0 10 64).2 then Err
        else Ok (l <| LeapEvents := LeapEvents l ++ [mkLeapEvent f0 sec (join " " rest)] |>)
    | _ => Ok l
    end.

Fixpoint parse_lines (l : LeapFile) (lines : list string) : outcome LeapFile :=
  match lines with
  | [] => Ok l
  | line :: lines' => obind (parse_line l line) (fun l => parse_lines l lines')
  end.

Definition parseLeapFile (content : string) : outcome LeapFile := parse_lines empty_file (Conf.split_on Conf.newline_char content).

(** ** Printing *)

(** What html/template makes of a character in text. *)
Definition html_escape_char (a : ascii) : string :=
  match N_of_ascii a with
  | 34 => "&#34;" | 38 => "&amp;" | 39 => "&#39;" | 43 => "&#43;" | 60 => "&lt;" | 62 => "&gt;"
  | _ => String a EmptyString
  end%N%string.

Fixpoint html_escape (s : string) : string :=
  match s with EmptyString => EmptyString | String a s' => (html_escape_char a +:+ html_escape s')%string end.

Definition tab : string := String (ascii_of_nat 9) EmptyString.

Definition event_line (e : LeapEvent) : string :=
  (html_escape (LeapTime e) +:+ "     " +:+ html_escape (fmt_d (LeapSec e)) +:+ "    " +:+ html_escape (Comment e))%string.

(** The template: every event is a line, and so is each other part; the last has no end. *)
Definition renderLeapData (l : LeapFile) : string :=
  ("# Do not edit" +:+ newline
   +:+ "# This file is generated automatically by linuxptp-daemon" +:+ newline
   +:+ "#$" +:+ tab +:+ html_escape (UpdateTime l) +:+ newline
   +:+ "#@" +:+ tab +:+ html_escape (ExpirationTime l) +:+ newline
   +:+ String.concat "" (map (fun e => event_line e +:+ newline)%string (LeapEvents l))
   +:+ newline +:+ "#h" +:+ tab +:+ html_escape (Hash l))%string.

(** ** SHA-1 *)

Definition word (z : Z) : Z := wrap_u 32 z.
Definition rotl (n x : Z) : Z := Z.lor (word (Z.shiftl x n)) (Z.shiftr x (32 - n)).

Fixpoint bytes_of (s : string) : list Z :=
  match s with EmptyString => [] | String a s' => Z.of_N (N_of_ascii a) :: bytes_of s' end.

(** The [n] lowest bytes of [z], the highest first. *)
Fixpoint big_endian (n : nat) (z : Z) : list Z :=
  match n with O => [] | S n' => big_endian n' (Z.shiftr z 8) ++ [Z.land z 255] end.

Definition pad (msg : list Z) : list Z :=
  let len := Z.of_nat (length msg) in
  msg ++ [128] ++ repeat 0 (Z.to_nat ((55 - len) mod 64)) ++ big_endian 8 (8 * len).

Fixpoint words_of (bs : list Z) : list Z :=
  match bs with
  | a :: b :: c :: d :: bs' => (Z.lor (Z.shiftl a 24) (Z.lor (Z.shiftl b 16) (Z.lor (Z.shiftl c 8) d))) :: words_of bs'
  | _ => []
  end.

(** The message schedule, newest word first. *)
Fixpoint expand (n : nat) (ws : list Z) : list Z :=
  match n with
  | O => ws
  | S n' => expand n' (rotl 1 (Z.lxor (Z.lxor (nth 2 ws 0) (nth 7 ws 0)) (Z.lxor (nth 13 ws 0) (nth 15 ws 0))) :: ws)
  end.

Definition sha_state : Type := Z * Z * Z * Z * Z.

Definition sha_round (t : nat) (w : Z) (s : sha_state) : sha_state :=
  let '(a, b, c, d, e) := s in
  let '(f, k) :=
    if (t <? 20)%nat then (Z.lor (Z.land b c) (Z.land (Z.lxor b (2 ^ 32 - 1)) d), 1518500249)
    else if (t <? 40)%nat then (Z.lxor b (Z.lxor c d), 1859775393)
    else if (t <? 60)%nat then (Z.lor (Z.land b c) (Z.lor (Z.land b d) (Z.land c d)), 2400959708)
    else (Z.lxor b (Z.lxor c d), 3395469782) in
  (word (rotl 5 a + f + e + k + w), a, rotl 30 b, c, d).

Fixpoint sha_rounds (t : nat) (ws : list Z) (s : sha_state) : sha_state :=
  match ws with [] => s | w :: ws' => sha_rounds (S t) ws' (sha_round t w s) end.

Definition sha_block (s : sha_state) (block : list Z) : sha_state :=
  let '(a, b, c, d, e) := s in
  let '(a', b', c', d', e') := sha_rounds 0 (rev (expand 64 (rev block))) s in
  (word (a + a'), word (b + b'), word (c + c'), word (d + d'), word (e + e')).

Fixpoint sha_blocks (n : nat) (ws : list Z) (s : sha_state) : sha_state :=
  match n with O => s | S n' => sha_blocks n' (drop 16 ws) (sha_block s (take 16 ws)) end.

Definition sha1 (msg : list Z) : list Z :=
  let ws := words_of (pad msg) in
  let '(a, b, c, d, e) := sha_blocks (Nat.div (length ws) 16) ws (1732584193, 4023233417, 2562383102, 271733878, 3285377520) in
  [a; b; c; d; e].

(** [%x] of a 32-bit word within a checksum: eight digits. *)
Fixpoint hex_digits (n : nat) (z : Z) : string :=
  match n with O => EmptyString | S n' => (hex_digits n' (Z.shiftr z 4) +:+ String (digit_char (Z.land z 15)) EmptyString)%string end.

(** ** The checksum of a file *)

Definition hashed_text (l : LeapFile) : string :=
  (UpdateTime l +:+ ExpirationTime l +:+ String.concat "" (map (fun e => LeapTime e +:+ fmt_d (LeapSec e))%string (LeapEvents l)))%string.

(** [rehashLeapData]: the digits in groups of eight. *)
Definition rehashLeapData (l : LeapFile) : LeapFile :=
  l <| Hash := join " " (map (hex_digits 8) (sha1 (bytes_of (hashed_text l)))) |>.

(** ** Time *)

Definition second : Z := 10 ^ 9.

(** [t.Sub(u)]: a duration, the furthest one when it does not fit. *)
Definition time_sub (t u : Z) : Z := Z.max (- 2 ^ 63) (Z.min (2 ^ 63 - 1) (t - u)).

(** [int(d.Seconds())]. *)
Definition seconds_int (d : Z) : Z :=
  f64_to_int64 (f64_add (f64_of_Z (Z.quot d second)) (f64_div (f64_of_Z (Z.rem d second)) (f64_of_Z second))).

(** Year, month and day of a day after 1900-01-01. *)
Definition civil (days : Z) : Z * Z * Z :=
  let z := days - 25567 + 719468 in
  let era := z / 146097 in
  let doe := z mod 146097 in
  let yoe := (doe - doe / 1460 + doe / 36524 - doe / 146096) / 365 in
  let doy := doe - (365 * yoe + yoe / 4 - yoe / 100) in
  let mp := (5 * doy + 2) / 153 in
  let d := doy - (153 * mp + 2) / 5 + 1 in
  let m := if mp <? 10 then mp + 3 else mp - 9 in
  (yoe + era * 400 + (if m <=? 2 then 1 else 0), m, d).

Definition month_names : list string := ["Jan"; "Feb"; "Mar"; "Apr"; "May"; "Jun"; "Jul"; "Aug"; "Sep"; "Oct"; "Nov"; "Dec"]%string.

(** [fmt.Sprintf("# %v %v %v", ...)] of a time. *)
Definition date_comment (t : Z) : string :=
  let '(y, m, d) := civil (t / (86400 * second)) in
  ("# " +:+ fmt_d d +:+ " " +:+ nth (Z.to_nat (m - 1)) month_names "" +:+ " " +:+ fmt_d y)%string.

(** * Properties *)

(** ** The calendar and the checksum *)

Definition leap_year (y : Z) : bool := (y mod 4 =? 0) && (negb (y mod 100 =? 0) || (y mod 400 =? 0)).

Definition month_length (y m : Z) : Z :=
  if m =? 2 then (if leap_year y then 29 else 28) else if existsb (Z.eqb m) [4; 6; 9; 11] then 30 else 31.


Definition next_day (date : Z * Z * Z) : Z * Z * Z :=
  let '(y, m, d) := date in
  if d <? month_length y m then (y, m, d + 1) else if m <? 12 then (y, m + 1, 1) else (y + 1, 1, 1).

Fixpoint civil_steps (n : nat) (days : Z) : bool :=
  match n with O => true | S n' => bool_decide (civil (days + 1) = next_day (civil days)) && civil_steps n' (days + 1) end.

Lemma civil_steps_ok n : forall days, civil_steps n days = true ->
  forall k, days <= k < days + Z.of_nat n -> civil (k + 1) = next_day (civil k).
Proof.
  induction n as [|n IH]; intros days H k Hk; [lia|]. cbn [civil_steps] in H. apply andb_true_iff in H as [H1 H2].
  destruct (decide (k = days)) as [->|]; [by apply bool_decide_eq_true in H1|]. apply (IH (days + 1)); [done|lia].
Qed.

(** For three centuries the dates are those of the calendar. *)
Lemma civil_calendar : civil 0 = (1900, 1, 1) /\ forall k, 0 <= k < 110000 -> civil (k + 1) = next_day (civil k).
Proof. split; [done|]. apply (civil_steps_ok (N.to_nat 110000) 0). by vm_compute. Qed.

(** The checksums of the standard. *)
Lemma sha1_vectors :
  map (fun s => join " " (map (hex_digits 8) (sha1 (bytes_of s)))) [""; "abc"; "abcdbcdecdefdefgefghfghighijhijkijkljklmklmnlmnomnopnopq"]%string =
  ["da39a3ee 5e6b4b0d 3255bfef 95601890 afd80709"; "a9993e36 4706816a ba3e2571 7850c26c 9cd0d89d";
   "84983e44 1c3bd26e baae4aa1 f95129e5 e54670f1"]%string.
Proof. by vm_compute. Qed.

Lemma seconds_int_range d : - 2 ^ 63 <= seconds_int d < 2 ^ 63.
Proof.
  unfold seconds_int, f64_to_int64. destruct (f64_trunc _); [|lia].
  destruct (_ && _) eqn:E; [|lia]. apply andb_true_iff in E as [E1 E2]. lia.
Qed.

(** ** Words *)

Import Regex (all_in, mkSet, in_set, all_in_app, str_app_assoc, str_app_length, str_app_empty).

(** A character that neither ends a word nor is changed by the template. *)
Definition plain_char (a : ascii) : bool := negb (Parser.is_space a) && str_eqb (html_escape_char a) (String a EmptyString).

Fixpoint plain (s : string) : bool := match s with EmptyString => true | String a s' => plain_char a && plain s' end.

Definition wordy (s : string) : Prop := s <> ""%string /\ plain s = true.

(** Words with single blanks between them. *)
Definition phrase (s : string) : Prop := exists ws, s = join " " ws /\ Forall wordy ws.

Lemma plain_app s t : plain (s +:+ t)%string = plain s && plain t.
Proof. induction s as [|a s IH]; [done|]. rewrite str_app_cons. cbn [plain]. by rewrite IH, andb_assoc. Qed.

Lemma html_escape_app s t : html_escape (s +:+ t)%string = (html_escape s +:+ html_escape t)%string.
Proof. induction s as [|a s IH]; [done|]. rewrite str_app_cons. cbn [html_escape]. by rewrite IH, str_app_assoc. Qed.

Lemma html_escape_plain s : plain s = true -> html_escape s = s.
Proof.
  induction s as [|a s IH]; [done|]. cbn. intros [H1 H2]%andb_true_iff. unfold plain_char in H1.
  apply andb_true_iff in H1 as [_ H1]. apply str_eqb_eq in H1. by rewrite H1, IH.
Qed.

Lemma html_escape_join ws : Forall wordy ws -> html_escape (join " " ws) = join " " ws.
Proof.
  induction 1 as [|w ws [_ Hw] Hws IH]; [done|]. destruct ws as [|w' ws]; [by apply html_escape_plain|].
  cbn [join] in *. by rewrite !html_escape_app, IH, html_escape_plain.
Qed.

Lemma html_escape_phrase s : phrase s -> html_escape s = s.
Proof. intros (ws & -> & H). by apply html_escape_join. Qed.

Lemma fields_aux_word s : forall word rest, plain s = true ->
  Conf.fields_aux (s +:+ rest)%string word = Conf.fields_aux rest (word +:+ s)%string.
Proof.
  induction s as [|a s IH]; intros word rest H; [by rewrite str_app_empty|]. rewrite str_app_cons.
  cbn [plain Conf.fields_aux] in *. apply andb_true_iff in H as [Ha Hs]. unfold plain_char in Ha. apply andb_true_iff in Ha as [Ha _]. apply negb_true_iff in Ha.
  rewrite Ha, IH by done. by rewrite str_app_assoc.
Qed.

Lemma Fields_word w : wordy w -> Conf.Fields w = [w].
Proof.
  intros [Hn Hp]. unfold Conf.Fields. rewrite <- (str_app_empty w) at 1. rewrite fields_aux_word by done.
  cbn [Conf.fields_aux]. rewrite str_app_nil. by rewrite str_eqb_ne.
Qed.

Lemma Fields_space a s : Parser.is_space a = true -> Conf.Fields (String a s) = Conf.Fields s.
Proof. intros Ha. unfold Conf.Fields. cbn [Conf.fields_aux]. by rewrite Ha. Qed.

Lemma Fields_cons w a s : wordy w -> Parser.is_space a = true -> Conf.Fields (w +:+ String a s)%string = w :: Conf.Fields s.
Proof.
  intros [Hn Hp] Ha. unfold Conf.Fields. rewrite fields_aux_word by done. cbn [Conf.fields_aux]. rewrite Ha, str_app_nil.
  by rewrite str_eqb_ne.
Qed.

Lemma Fields_join ws : Forall wordy ws -> Conf.Fields (join " " ws) = ws.
Proof.
  induction 1 as [|w ws Hw Hws IH]; [done|]. destruct ws as [|w' ws]; [by apply Fields_word|].
  cbn [join] in *. change (" " +:+ ?x)%string with (String " " x). by rewrite Fields_cons, IH.
Qed.

Lemma join_words ws : Forall wordy ws -> all_in (Conf.without Conf.newline_char) (join " " ws).
Proof.
  assert (forall w, plain w = true -> all_in (Conf.without Conf.newline_char) w) as Hp.
  { induction w as [|a w IH]; [done|]. cbn. intros [Ha Hw]%andb_true_iff. split; [|auto]. apply Conf.without_spec. intros ->. done. }
  induction 1 as [|w ws [_ Hw] Hws IH]; [done|]. destruct ws as [|w' ws]; [by apply Hp|].
  cbn [join] in *. rewrite !all_in_app. split; [by apply Hp|]. split; [done|]. exact IH.
Qed.

(** ** Printing and parsing *)

Lemma digit_plain d : 0 <= d < 10 -> plain_char (digit_char d) = true.
Proof.
  intros H. assert (exists n : nat, (n < 10)%nat /\ d = Z.of_nat n) as (n & Hn & ->) by (exists (Z.to_nat d); lia).
  do 10 (destruct n as [|n]; [reflexivity|]). lia.
Qed.

Lemma fmt_digits_plain fuel : forall n, 0 <= n -> plain (fmt_digits 10 fuel n) = true.
Proof.
  induction fuel as [|fuel IH]; intros n Hn; [done|]. cbn [fmt_digits].
  assert (plain (String (digit_char (n mod 10)) EmptyString) = true) as Hd.
  { cbn [plain]. rewrite digit_plain by (apply Z.mod_pos_bound; lia). done. }
  destruct (n <? 10) eqn:E; [|rewrite plain_app, IH by (apply Z.div_pos; lia); exact Hd].
  apply Z.ltb_lt in E. cbn [plain]. by rewrite digit_plain.
Qed.

Lemma fmt_d_wordy z : wordy (fmt_d z).
Proof.
  unfold fmt_d, fmt_uint. destruct (Z.ltb_spec z 0).
  - split; [done|]. change ("-" +:+ ?x)%string with (String "-" x). cbn [plain]. by rewrite fmt_digits_plain by lia.
  - split; [|by apply fmt_digits_plain]. destruct (fmt_digits_nonempty 10 (Z.to_nat (Z.log2 z)) z) as (c & s & E). by rewrite E.
Qed.

(** A file whose fields the text can carry: times and seconds in range, words that the
    template leaves alone. *)
Record wf_event (e : LeapEvent) : Prop := {
  we_time : wordy (LeapTime e);
  we_number : (ParseInt (LeapTime e) 10 64).2 = true;
  we_sec : - 128 <= LeapSec e < 128;
  we_comment : phrase (Comment e)
}.

Record wf_file (l : LeapFile) : Prop := {
  wl_update : wordy (UpdateTime l);
  wl_expiration : wordy (ExpirationTime l);
  wl_hash : phrase (Hash l);
  wl_events : Forall wf_event (LeapEvents l)
}.

Lemma number_start s : (ParseInt s 10 64).2 = true -> has_prefix "#" s = false.
Proof. destruct s as [|[[] [] [] [] [] [] [] []] s]; done. Qed.

Lemma has_prefix_longer a p s : has_prefix (String a EmptyString) s = false -> has_prefix (String a p) s = false.
Proof. unfold has_prefix. destruct s as [|b s]; [done|]. cbn. by repeat case_match. Qed.

Lemma has_prefix_app p s t : has_prefix (String p EmptyString) s = false -> s <> ""%string -> has_prefix (String p EmptyString) (s +:+ t)%string = false.
Proof. unfold has_prefix. destruct s as [|b s]; [done|]. rewrite str_app_cons. cbn. by repeat case_match. Qed.

Lemma event_line_plain e : wf_event e -> event_line e = (LeapTime e +:+ "     " +:+ fmt_d (LeapSec e) +:+ "    " +:+ Comment e)%string.
Proof.
  intros [[_ Ht] _ _ Hc]. unfold event_line. destruct (fmt_d_wordy (LeapSec e)) as [_ Hd].
  by rewrite (html_escape_plain (LeapTime e)), (html_escape_plain (fmt_d _)), html_escape_phrase.
Qed.

Lemma parse_event_line e l : wf_event e -> parse_line l (event_line e) = Ok (l <| LeapEvents := LeapEvents l ++ [e] |>).
Proof.
  intros He. rewrite event_line_plain by done. pose proof He as [Ht Hn Hs (ws & Hc & Hws)].
  unfold parse_line. pose proof (number_start _ Hn) as Hh. destruct Ht as [Hne Hp].
  assert (forall p, has_prefix (String "#" p) (LeapTime e +:+ "     " +:+ fmt_d (LeapSec e) +:+ "    " +:+ Comment e)%string = false) as Hpre.
  { intros p. by apply has_prefix_longer, has_prefix_app. }
  rewrite !Hpre.
  assert (Conf.Fields (LeapTime e +:+ "     " +:+ fmt_d (LeapSec e) +:+ "    " +:+ Comment e)%string = LeapTime e :: fmt_d (LeapSec e) :: ws) as ->.
  { change ("     " +:+ ?x)%string with (String " " (String " " (String " " (String " " (String " " x))))).
    rewrite Fields_cons, !Fields_space by done. f_equal.
    change ("    " +:+ ?x)%string with (String " " (String " " (String " " (String " " x)))).
    rewrite Fields_cons, !Fields_space by (done || apply fmt_d_wordy). f_equal. rewrite Hc. by apply Fields_join. }
  rewrite ParseInt_fmt by (change (2 ^ (8 - 1)) with 128; lia). cbn [negb fst snd]. rewrite Hn. cbn [negb]. f_equal. f_equal. f_equal.
  destruct e; cbn in *; by subst.
Qed.

Lemma leap_parse_lines_app l xs ys : parse_lines l (xs ++ ys) = obind (parse_lines l xs) (fun l => parse_lines l ys).
Proof. revert l. induction xs as [|x xs IH]; intros l; [done|]. cbn. destruct (parse_line l x); [apply IH|done|done]. Qed.

Lemma parse_event_lines es : forall l, Forall wf_event es ->
  parse_lines l (map event_line es) = Ok (l <| LeapEvents := LeapEvents l ++ es |>).
Proof.
  induction es as [|e es IH]; intros l H; [by destruct l; cbn; rewrite app_nil_r|].
  apply Forall_cons in H as [He H]. cbn [map parse_lines]. rewrite parse_event_line by done. cbn [obind].
  rewrite IH by done. cbn. by rewrite <- app_assoc.
Qed.

(** The lines of the text. *)
Definition tagged (tag value : string) : string := (tag +:+ tab +:+ value)%string.

Definition file_lines (l : LeapFile) : list string :=
  ["# This file is generated automatically by linuxptp-daemon"; tagged "#$" (html_escape (UpdateTime l));
   tagged "#@" (html_escape (ExpirationTime l))]%string
  ++ map event_line (LeapEvents l) ++ [""; tagged "#h" (html_escape (Hash l))]%string.

Lemma terminated_lines xs rest :
  (newline +:+ String.concat "" (map (fun x => x +:+ newline)%string xs) +:+ rest)%string = (Conf.lines_text xs +:+ newline +:+ rest)%string.
Proof.
  induction xs as [|x xs IH]; [done|]. unfold Conf.lines_text in *. cbn [map]. rewrite !Conf.concat_cons, !str_app_assoc. by rewrite <- IH.
Qed.

Lemma leap_render_lines l : renderLeapData l = ("# Do not edit" +:+ Conf.lines_text (file_lines l))%string.
Proof.
  unfold renderLeapData, file_lines, tagged. rewrite <- (map_map event_line (fun x => x +:+ newline)%string).
  rewrite !Conf.lines_text_app. f_equal.
  rewrite terminated_lines. unfold Conf.lines_text at 2 4. cbn [map]. rewrite !Conf.concat_cons. cbn [String.concat].
  rewrite !str_app_assoc, !str_app_empty. done.
Qed.

Lemma tagged_ok tag v : all_in Conf.not_nl tag -> all_in Conf.not_nl v -> all_in Conf.not_nl (tagged tag v).
Proof. intros Ht Hv. unfold tagged. rewrite !all_in_app. by split. Qed.

Lemma wordy_line w : wordy w -> all_in Conf.not_nl w.
Proof. intros H. apply (join_words [w]). by apply Forall_singleton. Qed.

Lemma phrase_line w : phrase w -> all_in Conf.not_nl w.
Proof. intros (ws & -> & H). by apply join_words. Qed.

Lemma file_lines_ok l : wf_file l -> Forall (all_in Conf.not_nl) (file_lines l).
Proof.
  intros [Hu He Hh Hev]. unfold file_lines.
  rewrite (html_escape_plain (UpdateTime l)), (html_escape_plain (ExpirationTime l)), (html_escape_phrase (Hash l))
    by (done || apply Hu || apply He).
  rewrite !Forall_app, !Forall_cons. split_and!; try done.
  - apply tagged_ok; [done|by apply wordy_line].
  - apply tagged_ok; [done|by apply wordy_line].
  - apply Forall_map. eapply Forall_impl; [exact Hev|]. intros e Hw. rewrite event_line_plain by done. destruct Hw as [Ht _ _ Hc].
    rewrite !all_in_app. split_and!; try done; [by apply wordy_line|apply wordy_line, fmt_d_wordy|by apply phrase_line].
  - apply tagged_ok; [done|by apply phrase_line].
Qed.

Lemma tagged_fields a b v : plain_char a = true -> plain_char b = true ->
  Conf.Fields (tagged (String a (String b EmptyString)) v) = String a (String b EmptyString) :: Conf.Fields v.
Proof. intros Ha Hb. apply Fields_cons; [|done]. split; [done|]. cbn [plain]. by rewrite Ha, Hb. Qed.

Lemma parse_update_line l v : wordy v -> parse_line l (tagged "#$" v) = Ok (l <| UpdateTime := v |>).
Proof. intros Hv. unfold parse_line. rewrite tagged_fields, Fields_word by done. reflexivity. Qed.

Lemma parse_expiration_line l v : wordy v -> parse_line l (tagged "#@" v) = Ok (l <| ExpirationTime := v |>).
Proof. intros Hv. unfold parse_line. rewrite tagged_fields, Fields_word by done. reflexivity. Qed.

Lemma parse_hash_line l v : phrase v -> parse_line l (tagged "#h" v) = Ok (l <| Hash := v |>).
Proof. intros (ws & -> & Hws). unfold parse_line. rewrite tagged_fields, Fields_join by done. reflexivity. Qed.

Lemma parse_comment_line l s : parse_line l ("# " +:+ s)%string = Ok l.
Proof. reflexivity. Qed.

Lemma leap_file_parsed l : wf_file l -> parseLeapFile (renderLeapData l) = Ok l.
Proof.
  intros Hl. unfold parseLeapFile. rewrite leap_render_lines, Conf.split_lines by (done || by apply file_lines_ok).
  destruct Hl as [Hu He Hh Hev]. unfold file_lines.
  rewrite (html_escape_plain (UpdateTime l)), (html_escape_plain (ExpirationTime l)), html_escape_phrase
    by (done || apply Hu || apply He).
  cbn [parse_lines app]. rewrite (parse_comment_line _ "Do not edit"). cbn [obind].
  rewrite (parse_comment_line _ "This file is generated automatically by linuxptp-daemon"). cbn [obind].
  rewrite parse_update_line by done. cbn [obind]. rewrite parse_expiration_line by done. cbn [obind].
  rewrite leap_parse_lines_app, parse_event_lines by done. cbn [obind parse_lines].
  change (parse_line ?x "") with (Ok x). cbn [obind].
  rewrite parse_hash_line by done. cbn [obind]. by destruct l.
Qed.

(** The text printed for a leap-seconds file, all whose fields the text can carry, is
    parsed back into the same file. *)
Theorem leap_file_roundtrip l : wf_file l -> parseLeapFile (renderLeapData l) = Ok l.
Proof. apply leap_file_parsed. Qed.

Definition ex_file : LeapFile :=
  mkLeapFile "4291747200" "3927775672" [mkLeapEvent "3644697600" 36 "# 1 Jul 2015"; mkLeapEvent "3692217600" 37 "# 1 Jan 2017"]
    "40ee7e0c 8a5d9b2e ab3f7dd1 7ef3aeba 1a6c1a2a".

Lemma ex_phrase s : forallb (fun w => negb (str_eqb w "") && plain w) (Conf.split_on " " s) = true -> join " " (Conf.split_on " " s) = s -> phrase s.
Proof.
  intros H E. exists (Conf.split_on " " s). split; [done|]. rewrite forallb_forall in H. apply Forall_forall. intros w Hw.
  apply list_elem_of_In, H, andb_true_iff in Hw as [H1 H2]. split; [|done]. intros ->. done.
Qed.

Lemma ex_file_wf : wf_file ex_file.
Proof.
  split; [by split|by split|by apply ex_phrase|]. repeat apply Forall_cons_2; [| |apply Forall_nil_2].
  all: split; [by split|done|cbn; lia|by apply ex_phrase].
Qed.

Lemma leap_file_roundtrip_witness : parseLeapFile (renderLeapData ex_file) = Ok ex_file.
Proof. apply (leap_file_roundtrip ex_file). exact ex_file_wf. Defined.

(** A file without an update time is printed as a line that the parser panics on. *)
Lemma missing_update_time_panics :
  exists content l, parseLeapFile content = Ok l /\ parseLeapFile (renderLeapData l) = Panic.
Proof. exists "3692217600     37    # 1 Jan 2017"%string. eexists. split; by vm_compute. Qed.

(** A comment with a character of HTML grows each time it is printed. *)
Lemma comment_escaped_again :
  exists l l', parseLeapFile (renderLeapData l) = Ok l' /\ map Comment (LeapEvents l) = ["# bulletin C&D"]%string /\
    map Comment (LeapEvents l') = ["# bulletin C&amp;D"]%string.
Proof. exists (mkLeapFile "1" "1" [mkLeapEvent "1" 1 "# bulletin C&D"] ""). eexists. split; [by vm_compute|done]. Qed.

End LeapFile.
