(* ===== verification/Pmc.v ===== *)
(** * pkg/pmc: the PTP management client

    pkg/pmc/pmc.go and pkg/daemon/pmc.go.  The program pmc and the library that drives it
    are the environment's: a session is what each attempt to talk to it ends with.  A data
    set comes back as the values its regular expression captured, the whole match first. *)

From S2P Require Import Prelude Float64 Strconv Protocol Event Regex Parser Process.

#[local] Open Scope Z_scope.

Module Pmc.

(** ** CURRENT_DATA_SET *)

Definition stof64 (s : string) : f64 := default f64_zero (Parser.ParseFloat s).

Definition CurrentDS_Keys : list string := ["stepsRemoved"; "offsetFromMaster"; "meanPathDelay"]%string.

Definition CurrentDS_ValueRegEx : gmap string string :=
  list_to_map [("stepsRemoved", "\d+"); ("offsetFromMaster", "-?\d+\.\d+"); ("meanPathDelay", "\d+\.\d+")]%string.

Definition CurrentDS_Update (key value : string) (c : CurrentDS) : CurrentDS :=
  if str_eqb key "stepsRemoved" then mkCurrentDS (stou16 value) (offsetFromMaster c) (meanPathDelay c)
  else if str_eqb key "offsetFromMaster" then mkCurrentDS (StepsRemoved c) (stof64 value) (meanPathDelay c)
  else if str_eqb key "meanPathDelay" then mkCurrentDS (StepsRemoved c) (offsetFromMaster c) (stof64 value)
  else c.

#[export] Instance DataSet_CurrentDS : DataSet CurrentDS := {|
  zero := mkCurrentDS 0 f64_zero f64_zero; Keys := CurrentDS_Keys; Update_field := CurrentDS_Update;
  ValueRegEx := CurrentDS_ValueRegEx; optionalKeys := [] |}.

(** ** Sessions *)

Definition numRetry : nat := 6.

(** How one exchange ends: the command cannot be sent, no answer comes in time, reading
    fails otherwise, or the answer matches. *)
Inductive attempt := ASendFails | ATimeout | AFails | AMatch (matches : list string).

(** The loop of the getters, from attempt [i] on with [n] left: the data set and whether
    there is an error; [failed] is the error of the attempt before. *)
Fixpoint get_loop {P} `{DataSet P} (attempts : nat -> attempt) (i n : nat) (failed : bool) (g : P) : P * bool :=
  match n with
  | O => (g, failed)
  | S n' =>
      match attempts i with
      | ASendFails => get_loop attempts (S i) n' true g
      | ATimeout => get_loop attempts (S i) n' false g
      | AFails => (g, true)
      | AMatch matches => (update_all Keys (drop 1 matches) g, false)
      end
  end.

(** [RunPMCExpGetGMSettings], [RunPMCExpGetParentDS], [RunPMCExpGetExternalGMPropertiesNP],
    [RunPMCExpGetTimePropertiesDS] and [RunPMCExpGetCurrentDS]. *)
Definition RunPMCExpGet {P} `{DataSet P} (spawned : bool) (attempts : nat -> attempt) : P * bool :=
  if spawned then get_loop attempts 0 numRetry false zero else (zero, true).

Definition RunPMCExpGetGMSettings : bool -> (nat -> attempt) -> GrandmasterSettings * bool := RunPMCExpGet.
Definition RunPMCExpGetParentDS : bool -> (nat -> attempt) -> ParentDataSet * bool := RunPMCExpGet.
Definition RunPMCExpGetExternalGMPropertiesNP : bool -> (nat -> attempt) -> ExternalGrandmasterProperties * bool := RunPMCExpGet.
Definition RunPMCExpGetTimePropertiesDS : bool -> (nat -> attempt) -> TimePropertiesDS * bool := RunPMCExpGet.
Definition RunPMCExpGetCurrentDS : bool -> (nat -> attempt) -> CurrentDS * bool := RunPMCExpGet.

(** [RunPMCExp]: one exchange. *)
Definition RunPMCExp (spawned : bool) (a : attempt) : option (list string) :=
  if spawned then match a with AMatch m => Some m | _ => None end else None.

Definition pmcCmdConstPart : string := "pmc -u -b 0 -f /var/run/".
Definition cmdSetGMSettings : string := "SET GRANDMASTER_SETTINGS_NP".
Definition cmdSetExternalGMPropertiesNP : string := "SET EXTERNAL_GRANDMASTER_PROPERTIES_NP".

Definition one_line (s : string) : string := Regex.ReplaceAll s newline " ".

(** The commands that set. *)
Definition set_gm_command (g : GrandmasterSettings) : string := (cmdSetGMSettings +:+ one_line (GMSettings.String_ g))%string.
Definition set_external_command (e : ExternalGrandmasterProperties) : string :=
  (cmdSetExternalGMPropertiesNP +:+ one_line (ExternalGM.String_ e))%string.

(** [RunPMCExpSetGMSettings]: a process per attempt, [None] one that cannot be spawned. The
    commands sent, and whether it fails. *)
Fixpoint set_loop (command : string) (attempts : nat -> option attempt) (i n : nat) : list string * bool :=
  match n with
  | O => ([], true)
  | S n' =>
      match attempts i with
      | Some (AMatch _) => ([command], false)
      | Some ASendFails | None => set_loop command attempts (S i) n'
      | Some _ => let '(sent, failed) := set_loop command attempts (S i) n' in (command :: sent, failed)
      end
  end.

Definition RunPMCExpSetGMSettings (attempts : nat -> option attempt) (g : GrandmasterSettings) : list string * bool :=
  set_loop (set_gm_command g) attempts 0 numRetry.

(** [RunPMCExpSetExternalGMPropertiesNP]. *)
Definition RunPMCExpSetExternalGMPropertiesNP (a : option attempt) (e : ExternalGrandmasterProperties) : list string * bool :=
  match a with
  | None | Some ASendFails => ([], true)
  | Some (AMatch _) => ([set_external_command e], false)
  | Some _ => ([set_external_command e], true)
  end.

(** [RunPMCGetParentDS]: pmc run once; [output] is [None] when it fails, else the values its
    output gives, none when it does not match. *)
Definition RunPMCGetParentDS (output : option (list string)) : option ParentDataSet :=
  matches ← output;
  if (length matches <? 2)%nat then None else Some (update_all Keys (drop 1 matches) zero).

(** [getParentDS], [getTimePropertiesDS], [getCurrentDS] and [getSubcribeEvents]. *)
Definition get_once {P} `{DataSet P} (a : attempt) : option P := match a with AMatch m => ProcessMessage m | _ => None end.

(** [RunPMCExpGetParentTimeAndCurrentDataSets]: each exchange only after the one before. *)
Definition RunPMCExpGetParentTimeAndCurrentDataSets (spawned : bool) (a : nat -> attempt) : option ParentTimeCurrentDS :=
  if spawned then
    p ← get_once (a 0%nat); t ← get_once (a 1%nat); c ← get_once (a 2%nat);
    Some (mkParentTimeCurrentDS p t c)
  else None.

(** [RunPMCExpGetTimeAndCurrentDataSets]: the parent stays zero. *)
Definition RunPMCExpGetTimeAndCurrentDataSets (spawned : bool) (a : nat -> attempt) : option ParentTimeCurrentDS :=
  if spawned then
    t ← get_once (a 0%nat); c ← get_once (a 1%nat);
    Some (mkParentTimeCurrentDS zero_ParentDataSet t c)
  else None.

(** ** The monitor of pmc *)

(** One round of [GetPMCMontior]: pmc cannot be spawned, ten minutes have passed, it ended,
    or it answers the subscription or not. *)
Inductive monitor_round := MSpawnFails | MTimeout | MExited | MAnswers (ok : bool).

(** The rounds; [None] while it still tries.  Each one that could spawn is followed, before
    the next, by a close and a pause: their number. *)
Fixpoint GetPMCMontior (rounds : list monitor_round) (spawned : bool) (pauses : nat) : option bool * nat :=
  match rounds with
  | [] => (None, pauses)
  | r :: rounds' =>
      let pauses := if spawned then S pauses else pauses in
      match r with
      | MSpawnFails => GetPMCMontior rounds' false pauses
      | MTimeout | MExited => (Some false, pauses)
      | MAnswers true => (Some true, pauses)
      | MAnswers false => GetPMCMontior rounds' true pauses
      end
  end.

Definition GetMonitorRegex (monitorParentData : bool) : string :=
  ("(?m).* seq \d+ RESPONSE MANAGEMENT .*\s*" +:+ join "|" (if monitorParentData then [RegEx ParentDataSet] else []))%string.

(** ** The process *)

Definition btof (b : bool) : string := if b then "on" else "off".

Definition getMonitorSubcribeCommand (portState timeSync parentData cmlds : bool) : string :=
  ("SET SUBSCRIBE_EVENTS_NP duration -1 NOTIFY_PORT_STATE " +:+ btof portState +:+ " NOTIFY_TIME_SYNC " +:+ btof timeSync
   +:+ " NOTIFY_PARENT_DATA_SET " +:+ btof parentData +:+ " NOTIFY_CMLDS " +:+ btof cmlds)%string.

(** [handleParentDS]: [accepted] tells whether the event channel has room. *)
Definition handleParentDS (cfgName : string) (clockType : ClockType) (now : Z) (accepted : bool) (ds : ParentDataSet)
    (parentDS : option ParentDataSet) : list Event * option ParentDataSet :=
  if match parentDS with Some _ => ParentDS.Equal parentDS (Some ds) | None => false end then ([], parentDS)
  else
    (if accepted then [mkEvent PMC "" cfgName clockType now false false (Some (EParentDS ds))] else [], Some ds).

Fixpoint handle_all (cfgName : string) (clockType : ClockType) (l : list (Z * bool * ParentDataSet)) (parentDS : option ParentDataSet) :
    list Event * option ParentDataSet :=
  match l with
  | [] => ([], parentDS)
  | (now, accepted, ds) :: l' =>
      let '(es, parentDS) := handleParentDS cfgName clockType now accepted ds parentDS in
      let '(es', parentDS) := handle_all cfgName clockType l' parentDS in
      (es ++ es', parentDS)
  end.

(** What [expectWorker] makes of what [Expect] returns. *)
Inductive expected := EMatched (matches : list string) | ETimedOut | EEnded | EOtherError.
Inductive worker_output := WParent (ds : ParentDataSet) | WRestart | WNothing.

Definition expect_result (e : expected) : worker_output :=
  match e with
  | EMatched (m0 :: ms) =>
      if Regex.contains "PARENT_DATA_SET" m0 then
        match ProcessMessage (m0 :: ms) with Some ds => WParent ds | None => WNothing end
      else WNothing
  | EMatched [] | ETimedOut | EOtherError => WNothing
  | EEnded => WRestart
  end.

(** [Poll]: the data set for the channel, unless the process is stopped or the query fails. *)
Definition Poll (stopped : bool) (answer : ParentDataSet * bool) : option ParentDataSet :=
  if stopped then None else if (answer.2 : bool) then None else Some answer.1.

Definition defaultMonitorWaitInterval : Z := 30 * 10 ^ 9.
Definition expectTimeout (waitInterval : Z) : Z := if waitInterval <=? 0 then defaultMonitorWaitInterval else waitInterval.

(** ** The lifecycle *)

Import Process.

(** The goroutine of [run]: before it has set Running, in [Monitor], and in its deferred
    function before and after it has read the state. *)
Inductive Run := RSpawned | RMonitor | RExit | RSet (final : State).

(** [plStopCh] is the current stop channel: is it closed? *)
Record Life := mkLife { plState : State; plStopCh : option bool; plRuns : list Run; plStatus : list Z }.

#[export] Instance Life_fields : Fields Life := fun l => mkLife (plState l) (plStopCh l) (plRuns l) (plStatus l).

Definition NewPMCProcess : Life := mkLife Created None [] [].

(** [Start]: false when it is an error. *)
Definition Start (l : Life) : bool * Life :=
  match plState l with
  | Starting | Running => (true, l)
  | Stopping => (false, l)
  | Created | Stopped | Dead => (true, l <| plState := Starting |> <| plStopCh := Some false |> <| plRuns := plRuns l ++ [RSpawned] |>)
  end.

(** [Stop] up to its wait; [None] is the panic of a channel closed twice. *)
Definition Stop (l : Life) : option Life :=
  match plState l with
  | Created | Stopping | Stopped | Dead => Some l
  | Starting | Running =>
      let l := l <| plState := Stopping |> in
      match plStopCh l with
      | None => Some l
      | Some true => None
      | Some false => Some (l <| plStopCh := Some true |>)
      end
  end.

Definition set_run (i : nat) (r : Run) (l : Life) : Life := l <| plRuns := <[i := r]> (plRuns l) |>.
Definition remove_nth {A} (i : nat) (l : list A) : list A := take i l ++ drop (S i) l.

(** The goroutine begins whatever the state is. *)
Definition run_begin (i : nat) (l : Life) : Life := set_run i RMonitor (l <| plState := Running |> <| plStatus := plStatus l ++ [1] |>).
Definition run_read (i : nat) (l : Life) : Life := set_run i (RSet (if State_eqb (plState l) Stopping then Stopped else Dead)) l.
Definition run_set (i : nat) (st : State) (l : Life) : Life :=
  l <| plState := st |> <| plStatus := plStatus l ++ [0] |> <| plRuns := remove_nth i (plRuns l) |>.

Inductive step (l : Life) : Life -> Prop :=
| StStart : step l (Start l).2
| StStop l' : Stop l = Some l' -> step l l'
| StBegin i : plRuns l !! i = Some RSpawned -> step l (run_begin i l)
| StMonitor i : plRuns l !! i = Some RMonitor -> step l (set_run i RExit l)
| StRead i : plRuns l !! i = Some RExit -> step l (run_read i l)
| StSet i st : plRuns l !! i = Some (RSet st) -> step l (run_set i st l).

Inductive reachable : Life -> Prop :=
| reachable_init : reachable NewPMCProcess
| reachable_step l l' : reachable l -> step l l' -> reachable l'.

(** * Properties *)

(** ** The queries *)

(** No attempt before [i] ended the query. *)
Definition only_retries (attempts : nat -> attempt) (i : nat) : Prop :=
  forall j, (j < i)%nat -> attempts j = ASendFails \/ attempts j = ATimeout.

Lemma get_loop_S {P} `{DataSet P} attempts i n failed (g : P) :
  get_loop attempts i (S n) failed g =
  match attempts i with
  | ASendFails => get_loop attempts (S i) n true g
  | ATimeout => get_loop attempts (S i) n false g
  | AFails => (g, true)
  | AMatch matches => (update_all Keys (drop 1 matches) g, false)
  end.
Proof. done. Qed.

Lemma get_loop_spec {P} `{DataSet P} attempts n : forall i failed g,
  (exists k, (k < n)%nat /\ (forall j, (j < k)%nat -> attempts (i + j)%nat = ASendFails \/ attempts (i + j)%nat = ATimeout) /\
     match attempts (i + k)%nat with
     | AMatch m => get_loop attempts i n failed g = (update_all Keys (drop 1 m) g, false)
     | AFails => get_loop attempts i n failed g = (g, true)
     | _ => False
     end)
  \/ ((forall j, (j < n)%nat -> attempts (i + j)%nat = ASendFails \/ attempts (i + j)%nat = ATimeout) /\
      get_loop attempts i n failed g = (g, match n with O => failed | S n' => match attempts (i + n')%nat with ASendFails => true | _ => false end end)).
Proof.
  induction n as [|n IH]; intros i failed g; [right; split; [lia|done]|].
  assert (forall f, (attempts i = ASendFails \/ attempts i = ATimeout) ->
    get_loop attempts i (S n) failed g = get_loop attempts (S i) n f g ->
    f = match attempts i with ASendFails => true | _ => false end ->
    (exists k, (k < S n)%nat /\ (forall j, (j < k)%nat -> attempts (i + j)%nat = ASendFails \/ attempts (i + j)%nat = ATimeout) /\
     match attempts (i + k)%nat with
     | AMatch m => get_loop attempts i (S n) failed g = (update_all Keys (drop 1 m) g, false)
     | AFails => get_loop attempts i (S n) failed g = (g, true)
     | _ => False
     end)
    \/ ((forall j, (j < S n)%nat -> attempts (i + j)%nat = ASendFails \/ attempts (i + j)%nat = ATimeout) /\
        get_loop attempts i (S n) failed g = (g, match attempts (i + n)%nat with ASendFails => true | _ => false end))) as Hstep.
  { intros f Ha Hl Hf. rewrite Hl. destruct (IH (S i) f g) as [(k & Hk & Hj & Hm)|[Hj Hm]].
    - left. exists (S k). split; [lia|]. rewrite <- !Nat.add_succ_comm. split; [|done].
      intros [|j] Hlt; [by rewrite Nat.add_0_r|]. rewrite <- Nat.add_succ_comm. apply Hj. lia.
    - right. split; [intros [|j] Hlt; [by rewrite Nat.add_0_r|]; rewrite <- Nat.add_succ_comm; apply Hj; lia|].
      rewrite Hm. destruct n as [|n]; [by rewrite Nat.add_0_r, Hf|]. by rewrite <- Nat.add_succ_comm. }
  destruct (attempts i) as [| | |m] eqn:Ea.
  - apply (Hstep true); [auto|by rewrite get_loop_S, ?Ea|by rewrite ?Ea].
  - apply (Hstep false); [auto|by rewrite get_loop_S, ?Ea|by rewrite ?Ea].
  - left. exists 0%nat. split; [lia|]. rewrite Nat.add_0_r, Ea. split; [lia|]. by rewrite get_loop_S, Ea.
  - left. exists 0%nat. split; [lia|]. rewrite Nat.add_0_r, Ea. split; [lia|]. by rewrite get_loop_S, Ea.
Qed.

(** A query that reports no error gives the values of the first answer among its six
    attempts, all those before it unsent or unanswered; or there was no answer at all and
    it gives the zero data set: an error is reported only if pmc cannot be run, reading
    fails, or the last of six attempts could not be sent. *)
Theorem pmc_get_spec {P} `{DataSet P} spawned attempts (g : P) :
  RunPMCExpGet spawned attempts = (g, false) <->
  spawned = true /\
  ((exists k m, (k < numRetry)%nat /\ only_retries attempts k /\ attempts k = AMatch m /\ g = update_all Keys (drop 1 m) zero)
   \/ (only_retries attempts numRetry /\ attempts 5%nat = ATimeout /\ g = zero)).
Proof.
  unfold RunPMCExpGet. destruct spawned; [|split; [done|by intros [? _]]].
  destruct (get_loop_spec attempts numRetry 0 false zero) as [(k & Hk & Hj & Hm)|[Hj Hm]].
  - assert (Huniq : forall k', only_retries attempts k' -> ~ (k < k')%nat).
    { intros k' Hk' Hlt. specialize (Hk' k Hlt). cbn in Hm. by destruct Hk' as [E|E]; rewrite E in Hm. }
    assert (Hfirst : forall k' m, only_retries attempts k' -> attempts k' = AMatch m -> k' = k).
    { intros k' m Hr E. destruct (Nat.lt_trichotomy k k') as [H1|[H1|H1]]; [by apply Huniq in Hr|done|].
      destruct (Hj k' H1) as [E'|E']; cbn in E'; congruence. }
    cbn [Nat.add] in *. destruct (attempts k) as [| | |m] eqn:Ea; try done; rewrite Hm.
    + split; [done|]. intros [_ [(k' & m & _ & Hr & E & _)|[Hr _]]].
      * rewrite (Hfirst _ _ Hr E) in E. congruence.
      * by apply Huniq in Hr.
    + split; [intros [= <-]; split; [done|left; by exists k, m]|]. intros [_ [(k' & m' & _ & Hr & E & ->)|[Hr _]]].
      * rewrite (Hfirst _ _ Hr E), Ea in E. by injection E as <-.
      * by apply Huniq in Hr.
  - rewrite Hm. unfold numRetry in *. cbn [Nat.add] in *. split.
    + intros [= <- Hf]. split; [done|]. right. split; [done|]. split; [|done].
      destruct (Hj 5%nat ltac:(lia)) as [E|E]; rewrite E in *; done.
    + intros [_ [(k & m & Hk & _ & E & _)|(_ & -> & ->)]]; [|done]. destruct (Hj k Hk) as [E'|E']; congruence.
Qed.

(** ** The parent data set *)

(** The events of a sequence of data sets, if none is lost: one per change. *)
Fixpoint changes (last : option ParentDataSet) (l : list ParentDataSet) : list ParentDataSet :=
  match l with
  | [] => []
  | ds :: l' => if bool_decide (last = Some ds) then changes last l' else ds :: changes (Some ds) l'
  end.

Definition parent_of (e : Event) : option ParentDataSet := match evData e with Some (EParentDS ds) => Some ds | _ => None end.

Lemma handleParentDS_eq cfg ct now accepted ds parentDS :
  handleParentDS cfg ct now accepted ds parentDS =
  if bool_decide (parentDS = Some ds) then ([], parentDS)
  else (if accepted then [mkEvent PMC "" cfg ct now false false (Some (EParentDS ds))] else [], Some ds).
Proof.
  unfold handleParentDS. destruct parentDS as [p|]; [|done]. rewrite ParentDS_Equal_spec.
  by repeat case_bool_decide; congruence.
Qed.

(** While the event channel has room, the handled data sets are published once per
    change, and the one published last is the one handled last. *)
Theorem parent_changes_published cfg ct l last :
  Forall (fun x => x.1.2 = true) l ->
  let r := handle_all cfg ct l last in
  omap parent_of r.1 = changes last (map snd l) /\
  r.2 = match List.rev (map snd l) with ds :: _ => Some ds | [] => last end.
Proof.
  intros H. revert last. induction H as [|[[now accepted] ds] l Ha _ IH]; intros last; [done|]. cbn in Ha. subst accepted.
  cbn [handle_all map fst snd changes]. rewrite handleParentDS_eq. cbn [rev].
  assert (forall x : option ParentDataSet, match List.rev (map snd l) ++ [ds] with d :: _ => Some d | [] => x end =
    match List.rev (map snd l) with d :: _ => Some d | [] => Some ds end) as Hr by (intros x; by destruct (List.rev (map snd l))).
  rewrite Hr. case_bool_decide as E.
  - destruct (IH last) as [H1 H2]. destruct (handle_all cfg ct l last) as [es p]. cbn in *. by rewrite H1, H2, E.
  - destruct (IH (Some ds)) as [H1 H2]. destruct (handle_all cfg ct l (Some ds)) as [es p]. cbn in *. by rewrite H1, H2.
Qed.

Definition ex_parent (class : Z) : ParentDataSet := mkParentDataSet "a.b.c-1" 0 65535 0 128 class 33 65535 128 "a.b.c".

Lemma parent_changes_published_witness :
  omap parent_of (handle_all "ptp4l.0.config" "BC" [(1, true, ex_parent 6); (2, true, ex_parent 6); (3, true, ex_parent 248)] None).1
  = [ex_parent 6; ex_parent 248].
Proof.
  exact (proj1 (parent_changes_published "ptp4l.0.config" "BC" [(1, true, ex_parent 6); (2, true, ex_parent 6); (3, true, ex_parent 248)] None
    ltac:(repeat constructor))).
Defined.

(** A change that finds the event channel full is never sent: its repetitions are unchanged. *)
Lemma dropped_update_not_repeated cfg ct now ds last n :
  bool_decide (last = Some ds) = false -> (handle_all cfg ct ((now, false, ds) :: repeat (now, true, ds) n) last).1 = [].
Proof.
  intros H. cbn [handle_all]. rewrite handleParentDS_eq, H.
  assert (handle_all cfg ct (repeat (now, true, ds) n) (Some ds) = ([], Some ds)) as ->; [|done].
  induction n as [|n IH]; [done|]. cbn [repeat handle_all]. by rewrite handleParentDS_eq, bool_decide_true, IH.
Qed.

(** Unanswered queries are published as the zero data set: clock class 0. *)
Lemma unanswered_poll_published :
  exists es, handleParentDS "ptp4l.0.config" "BC" 1 true (default (ex_parent 6) (Poll false (RunPMCExpGetParentDS true (fun _ => ATimeout)))) (Some (ex_parent 6))
  = (es, Some zero_ParentDataSet) /\ map evData es = [Some (EParentDS zero_ParentDataSet)].
Proof. eexists. split; vm_compute; reflexivity. Qed.

(** While pmc cannot be spawned the monitor neither ends nor pauses. *)
Lemma monitor_spins n pauses : GetPMCMontior (repeat MSpawnFails n) false pauses = (None, pauses).
Proof. revert pauses. induction n as [|n IH]; intros pauses; [done|]. cbn. apply IH. Qed.

(** A stop that comes before the goroutine begins is overwritten by it: a second stop then
    closes the channel again and panics, and without one the process ends Dead. *)
Lemma early_stop_lost :
  exists l, reachable l /\ plState l = Running /\ Stop l = None /\
  exists l', reachable l' /\ plState l' = Dead /\ plStopCh l' = Some true.
Proof.
  pose (l1 := (Start NewPMCProcess).2). pose (l2 := default l1 (Stop l1)). pose (l3 := run_begin 0 l2).
  assert (reachable l3) as Hr.
  { eapply (reachable_step l2); [|by apply (StBegin l2 0)]. eapply (reachable_step l1); [|by apply (StStop l1 l2)].
    eapply reachable_step; [constructor|by constructor]. }
  exists l3. split_and!; try reflexivity; [exact Hr|].
  pose (l4 := set_run 0 RExit l3). pose (l5 := run_read 0 l4). exists (run_set 0 Dead l5). split_and!; try reflexivity.
  eapply (reachable_step l5); [|by apply (StSet l5 0)]. eapply (reachable_step l4); [|by apply (StRead l4 0)].
  eapply (reachable_step l3); [exact Hr|by apply (StMonitor l3 0)].
Qed.

End Pmc.
