(* ===== verification/Leap.v ===== *)
(** * pkg/leap: the leap-second manager

    pkg/leap/leap-file.go but for the text of the file: loading it, the UTC offset, the
    indications of the receiver, and the loop with its window in which pmc is told.  Kept
    outside are the clock, the configuration map, of which only this node's entry matters,
    and pmc: they are arguments of the steps.  A time is the nanoseconds since 1900. *)

From S2P Require Import Prelude Float64 Strconv Protocol Event Regex Parser Conf Ublox LeapFile Pmc.

#[local] Open Scope Z_scope.

Module Leap.

Import LeapFile.

Definition gpsToTaiDiff : Z := 19.
Definition curreLsValidMask : Z := 1.
Definition timeToLsEventValidMask : Z := 2.
Definition pmcWindowStartHours : Z := 12.
Definition pmcWindowEndSeconds : Z := 60.

(** 1980-01-06, and 2036-01-01 as [populateLeapData] writes it. *)
Definition gpsStartTime : Z := 2524953600 * second.
Definition expirationSeconds : Z := 4291747200.

Record LeapManager := mkManager {
  leapFile : LeapFile;
  retryUpdate : bool;
  utcOffset : Z;
  utcOffsetTime : Z;
  pmcLeapSent : bool;
  allowedLeapSources : list Z
}.

#[export] Instance LeapManager_fields : Fields LeapManager := fun l =>
  mkManager (leapFile l) (retryUpdate l) (utcOffset l) (utcOffsetTime l) (pmcLeapSent l) (allowedLeapSources l).

Definition LeapSourceGPS : Z := 2.

(** The zero [time.Time] is the year 1. *)
Definition zero_time : Z := - 59926608000 * second.

Definition new_manager : LeapManager := mkManager empty_file false 0 zero_time false [LeapSourceGPS].

Definition lastLeap (l : LeapManager) : option LeapEvent := last (LeapEvents (leapFile l)).

(** [strconv.Atoi]. *)
Definition Atoi (s : string) : option Z := let '(n, ok) := ParseInt s 10 64 in if ok then Some n else None.

(** [time.Second * time.Duration(n)]. *)
Definition seconds (n : Z) : Z := int64 (second * n).

(** [setUtcOffset]; its error is ignored by both callers. *)
Definition setUtcOffset (l : LeapManager) : outcome LeapManager :=
  match lastLeap l with
  | None => Panic
  | Some ev =>
      match Atoi (LeapTime ev) with
      | None => Err
      | Some t => Ok (l <| utcOffsetTime := seconds t |> <| utcOffset := LeapSec ev |>)
      end
  end.

Definition try_setUtcOffset (l : LeapManager) : outcome LeapManager :=
  match setUtcOffset l with Err => Ok l | o => o end.

(** [GetUtcOffset]: [None] is the exit of the process. *)
Definition GetUtcOffset (now : Z) (mgr : option LeapManager) : option Z :=
  l ← mgr;
  if utcOffsetTime l <? now then Some (utcOffset l)
  else
    match rev (LeapEvents (leapFile l)) with
    | _ :: ev :: _ => Some (LeapSec ev)
    | _ => None
    end.

(** [populateLeapData]: [entry] is the node's entry of the configuration map, [None] outside
    when the map cannot be read; [file] the installed file; [updated] whether the map can be
    written.  The manager, and the entry then. *)
Definition populateLeapData (entry : option (option string)) (file : option string) (updated : bool) : outcome (LeapManager * option string) :=
  match entry with
  | None => Err
  | Some (Some text) =>
      obind (parseLeapFile text) (fun lf => obind (try_setUtcOffset (new_manager <| leapFile := lf |>)) (fun l => Ok (l, Some text)))
  | Some None =>
      match file with
      | None => Err
      | Some text =>
          obind (parseLeapFile text) (fun lf =>
            let lf := rehashLeapData (lf <| ExpirationTime := fmt_d expirationSeconds |>) in
            if updated then
              obind (try_setUtcOffset (new_manager <| leapFile := lf |>)) (fun l => Ok (l, Some (renderLeapData lf)))
            else Err)
      end
  end.

(** [updateLeapFile]. *)
Definition updateLeapFile (leapTime leapSec currentTime : Z) (l : LeapManager) : outcome LeapManager :=
  let lf := leapFile l in
  let lf :=
    if leapSec =? 0 then lf
    else lf <| LeapEvents := LeapEvents lf ++ [mkLeapEvent (fmt_d (seconds_int (time_sub leapTime 0))) leapSec (date_comment leapTime)] |> in
  let lf := lf <| UpdateTime := fmt_d (seconds_int (time_sub currentTime 0)) |> in
  try_setUtcOffset (l <| leapFile := rehashLeapData lf |>).

(** [updateLeapConfigmap]: whether the map can be read, and written. *)
Definition updateLeapConfigmap (readable writable : bool) (entry : option string) (l : LeapManager) : option string * LeapManager :=
  if (readable && writable)%bool then (Some (renderLeapData (leapFile l)), l <| retryUpdate := false |>)
  else (entry, l <| retryUpdate := true |>).

Record leapIndResult := mkResult { rsLeapTime : Z; rsLeapSec : Z; rsUpdateTime : Z }.

Definition hour : Z := 3600 * second.

(** [time.ParseDuration(fmt.Sprintf("%dh", hours))]: an error when it does not fit. *)
Definition parse_hours (hours : Z) : option Z := if hours <=? 2 ^ 63 / hour then Some (hours * hour) else None.

(** [processLeapIndication]. *)
Definition processLeapIndication (currentTime : Z) (data : Ublox.TimeLs) (l : LeapManager) : outcome (option leapIndResult) :=
  if negb (bool_decide (Ublox.SrcOfCurrLs data ∈ allowedLeapSources l)) then Ok None
  else
    match lastLeap l with
    | None => Panic
    | Some ev =>
        match Atoi (LeapTime ev) with
        | None => Err
        | Some sec =>
            let fileLsPassed := seconds sec <? currentTime in
            let validCurrLs := 0 <? Z.land (Ublox.Valid data) curreLsValidMask in
            let validTimeToLsEvent := 0 <? Z.land (Ublox.Valid data) timeToLsEventValidMask in
            if validTimeToLsEvent && validCurrLs then
              let leapSec := Ublox.CurrLs data + gpsToTaiDiff + Ublox.LsChange data in
              if negb (leapSec =? LeapSec ev) && fileLsPassed then
                match parse_hours (uint64 (Ublox.DateOfLsGpsWn data * 7 * 24 + Ublox.DateOfLsGpsDn data * 24)) with
                | None => Err
                | Some deltaHours =>
                    let leapTime :=
                      if (Ublox.LsChange data =? 0) && (0 <=? Ublox.TimeToLsEvent data)
                      then currentTime - pmcWindowEndSeconds * second else gpsStartTime + deltaHours in
                    Ok (Some (mkResult leapTime leapSec currentTime))
                end
              else Ok None
            else Ok None
        end
    end.

(** [IsLeapInWindow]. *)
Definition IsLeapInWindow (now startOffset endOffset : Z) (l : LeapManager) : outcome bool :=
  match lastLeap l with
  | None => Panic
  | Some ev =>
      match Atoi (LeapTime ev) with
      | None => Ok false
      | Some t => Ok ((seconds t + startOffset <? now) && (now <? seconds t + endOffset))
      end
  end.

Definition in_pmc_window (now : Z) (l : LeapManager) : outcome bool :=
  IsLeapInWindow now (- pmcWindowStartHours * hour) (- pmcWindowEndSeconds * second) l.

(** What wakes the loop of [Run]: an indication, or the ticker; with the environment. *)
Inductive input :=
| IIndication (now : Z) (data : Ublox.TimeLs) (readable writable : bool)
| ITick (now : Z) (readable writable : bool) (gm : option GrandmasterSettings) (set_ok : bool).

(** The settings pmc is given. *)
Definition leap_flags (leapDiff : Z) (g : GrandmasterSettings) : GrandmasterSettings :=
  g <| gsTimePropertiesDS := (gsTimePropertiesDS g) <| Leap59 := leapDiff <? 0 |> <| Leap61 := 0 <? leapDiff |> |>.

(** A round: the settings sent to pmc and whether it took them, if any. *)
Definition round (x : input) (l : LeapManager) (entry : option string) :
    outcome (option (GrandmasterSettings * bool) * LeapManager * option string) :=
  match x with
  | IIndication now data readable writable =>
      match processLeapIndication now data l with
      | Ok (Some r) =>
          obind (updateLeapFile (rsLeapTime r) (rsLeapSec r) (rsUpdateTime r) l) (fun l =>
            let '(entry, l) := updateLeapConfigmap readable writable entry l in Ok (None, l, entry))
      | Ok None | Err => Ok (None, l, entry)
      | Panic => Panic
      end
  | ITick now readable writable gm set_ok =>
      let '(entry, l) := if retryUpdate l then updateLeapConfigmap readable writable entry l else (entry, l) in
      obind (in_pmc_window now l) (fun inside : bool =>
        if inside then
          if pmcLeapSent l then Ok (None, l, entry)
          else
            match gm with
            | None => Ok (None, l, entry)
            | Some g =>
                match lastLeap l with
                | None => Panic
                | Some ev =>
                    let leapDiff := LeapSec ev - CurrentUtcOffset (gsTimePropertiesDS g) in
                    if leapDiff =? 0 then Ok (None, l <| pmcLeapSent := true |>, entry)
                    else
                      let g := leap_flags leapDiff g in
                      if set_ok then Ok (Some (g, true), l <| pmcLeapSent := true |>, entry)
                      else Ok (Some (g, false), l, entry)
                end
            end
        else Ok (None, l <| pmcLeapSent := false |>, entry))
  end.

(** The rounds of [Run]: what pmc was given, in order. *)
Fixpoint Run (xs : list input) (l : LeapManager) (entry : option string) :
    outcome (list (GrandmasterSettings * bool) * LeapManager * option string) :=
  match xs with
  | [] => Ok ([], l, entry)
  | x :: xs' =>
      obind (round x l entry) (fun '(o, l, entry) =>
        obind (Run xs' l entry) (fun '(os, l, entry) => Ok (match o with Some o => o :: os | None => os end, l, entry)))
  end.

Definition SetAllowedLeapSources (sources : list Z) (l : LeapManager) : LeapManager := l <| allowedLeapSources := sources |>.

(** * Properties *)

(** ** The text the manager writes *)

Lemma hex_plain d : 0 <= d < 16 -> plain_char (digit_char d) = true.
Proof.
  intros H. assert (exists n : nat, (n < 16)%nat /\ d = Z.of_nat n) as (n & Hn & ->) by (exists (Z.to_nat d); lia).
  do 16 (destruct n as [|n]; [reflexivity|]). lia.
Qed.

Lemma hex_digits_plain n : forall z, plain (hex_digits n z) = true.
Proof.
  induction n as [|n IH]; intros z; [done|]. cbn [hex_digits]. rewrite plain_app, IH. cbn [plain]. rewrite hex_plain; [done|].
  change 15 with (Z.ones 4). rewrite Z.land_ones by lia. apply Z.mod_pos_bound. lia.
Qed.

Lemma hex_digits_wordy n z : wordy (hex_digits (S n) z).
Proof.
  split; [|apply hex_digits_plain]. cbn [hex_digits]. destruct (hex_digits n _); done.
Qed.

Lemma rehash_phrase lf : phrase (Hash (rehashLeapData lf)).
Proof.
  exists (map (hex_digits 8) (sha1 (bytes_of (hashed_text lf)))). split; [done|].
  apply Forall_map, Forall_forall. intros z _. apply hex_digits_wordy.
Qed.

(** The month within a cycle of four centuries. *)
Definition month_of (doe : Z) : Z :=
  let yoe := (doe - doe / 1460 + doe / 36524 - doe / 146096) / 365 in
  let doy := doe - (365 * yoe + yoe / 4 - yoe / 100) in
  let mp := (5 * doy + 2) / 153 in if mp <? 10 then mp + 3 else mp - 9.

Lemma doy_bounds doe : 0 <= doe < 146097 -> let yoe := (doe - doe / 1460 + doe / 36524 - doe / 146096) / 365 in
  -61 <= doe - (365 * yoe + yoe / 4 - yoe / 100) <= 672.
Proof. intros H. cbv zeta. Z.to_euclidean_division_equations. lia. Qed.

Lemma month_bounds doe : 0 <= doe < 146097 -> 1 <= month_of doe <= 12.
Proof.
  intros H%doy_bounds. unfold month_of. cbv zeta in *. set (doy := doe - _) in *. clearbody doy.
  destruct (Z.ltb_spec ((5 * doy + 2) / 153) 10); Z.to_euclidean_division_equations; lia.
Qed.

Lemma civil_month days : 1 <= (civil days).1.2 <= 12.
Proof.
  change ((civil days).1.2) with (month_of ((days - 25567 + 719468) mod 146097)). apply month_bounds, Z.mod_pos_bound. lia.
Qed.

Lemma month_wordy m : 1 <= m <= 12 -> wordy (nth (Z.to_nat (m - 1)) month_names "").
Proof.
  intros H. assert (exists n : nat, (n < 12)%nat /\ Z.to_nat (m - 1) = n) as (n & Hn & ->) by (exists (Z.to_nat (m - 1)); lia).
  do 12 (destruct n as [|n]; [by split|]). lia.
Qed.

Lemma date_comment_phrase t : phrase (date_comment t).
Proof.
  unfold date_comment. pose proof (civil_month (t / (86400 * second))) as Hm.
  destruct (civil (t / (86400 * second))) as [[y m] d]. cbn in Hm.
  exists ["#"; fmt_d d; nth (Z.to_nat (m - 1)) month_names ""; fmt_d y]%string. split; [done|].
  repeat apply Forall_cons_2; [by split|apply fmt_d_wordy|by apply month_wordy|apply fmt_d_wordy|apply Forall_nil_2].
Qed.

(** ** The manager's file *)

Record Inv (l : LeapManager) (entry : option string) : Prop := {
  iv_file : wf_file (leapFile l);
  iv_last : exists ev t, lastLeap l = Some ev /\ Atoi (LeapTime ev) = Some t /\ utcOffset l = LeapSec ev /\ utcOffsetTime l = seconds t;
  iv_entry : retryUpdate l = true \/ exists text, entry = Some text /\ parseLeapFile text = Ok (leapFile l)
}.

Lemma wf_Atoi ev : wf_event ev -> exists t, Atoi (LeapTime ev) = Some t.
Proof. intros [_ H _ _]. unfold Atoi. destruct (ParseInt _ _ _) as [t ok]. cbn in H. subst ok. by eexists. Qed.

Lemma last_wf l ev : wf_file (leapFile l) -> lastLeap l = Some ev -> wf_event ev.
Proof.
  intros [_ _ _ H] Hl. unfold lastLeap in Hl. apply last_Some_elem_of in Hl. rewrite Forall_forall in H. by apply H.
Qed.

Lemma setUtcOffset_ok l ev t : lastLeap l = Some ev -> Atoi (LeapTime ev) = Some t ->
  try_setUtcOffset l = Ok (l <| utcOffsetTime := seconds t |> <| utcOffset := LeapSec ev |>).
Proof. intros H1 H2. unfold try_setUtcOffset, setUtcOffset. by rewrite H1, H2. Qed.

(** An update in range leaves a file the text can carry, and the offset of its last event. *)
Lemma updateLeapFile_ok leapTime leapSec now l :
  wf_file (leapFile l) -> (exists ev, lastLeap l = Some ev) -> - 128 <= leapSec < 128 ->
  exists l', updateLeapFile leapTime leapSec now l = Ok l' /\ wf_file (leapFile l') /\
    (exists ev t, lastLeap l' = Some ev /\ Atoi (LeapTime ev) = Some t /\ utcOffset l' = LeapSec ev /\ utcOffsetTime l' = seconds t /\
       (leapSec <> 0 -> LeapSec ev = leapSec)) /\
    Hash (leapFile l') = Hash (rehashLeapData (leapFile l')) /\
    pmcLeapSent l' = pmcLeapSent l /\ retryUpdate l' = retryUpdate l /\ allowedLeapSources l' = allowedLeapSources l.
Proof.
  intros Hwf [ev Hev] Hr. pose proof Hwf as [Hu He Hh Hevs]. unfold updateLeapFile.
  set (lf := if leapSec =? 0 then leapFile l else _).
  assert (Forall wf_event (LeapEvents lf) /\ ExpirationTime lf = ExpirationTime (leapFile l) /\
    exists ev, last (LeapEvents lf) = Some ev /\ (leapSec <> 0 -> LeapSec ev = leapSec)) as (H1 & H2 & (ev' & H3 & H4)).
  { subst lf. destruct (Z.eqb_spec leapSec 0); [split_and!; [done..|by exists ev]|]. cbn. split_and!; [|done|].
    - apply Forall_app. split; [done|]. apply Forall_singleton. split; cbn; [apply fmt_d_wordy| |done|apply date_comment_phrase].
      pose proof (seconds_int_range (time_sub leapTime 0)). by rewrite ParseInt_fmt by lia.
    - eexists. split; [apply last_snoc|done]. }
  clearbody lf. assert (wf_event ev') as Hwf'.
  { apply last_Some_elem_of in H3. rewrite Forall_forall in H1. by apply H1. }
  destruct (wf_Atoi ev' Hwf') as [t Ht].
  rewrite (setUtcOffset_ok _ ev' t) by done. eexists. split; [reflexivity|]. cbn [leapFile upd]. split_and!; try done.
  - split; cbn; [apply fmt_d_wordy|by rewrite H2| |done]. apply rehash_phrase.
  - by exists ev', t.
Qed.

(** An announcement whose number of leap seconds fits the file. *)
Definition in_range (x : input) : Prop :=
  match x with
  | IIndication _ data _ _ => - 128 <= Ublox.CurrLs data + gpsToTaiDiff + Ublox.LsChange data < 128
  | ITick _ _ _ _ _ => True
  end.

Lemma updateLeapConfigmap_Inv readable writable entry l ev t :
  wf_file (leapFile l) -> lastLeap l = Some ev -> Atoi (LeapTime ev) = Some t -> utcOffset l = LeapSec ev -> utcOffsetTime l = seconds t ->
  Inv (updateLeapConfigmap readable writable entry l).2 (updateLeapConfigmap readable writable entry l).1.
Proof.
  intros Hwf Hev Ht Hu Hut. unfold updateLeapConfigmap. destruct (readable && writable); split; cbn; try done.
  - by exists ev, t.
  - right. eexists. split; [done|]. by apply leap_file_parsed.
  - by exists ev, t.
  - by left.
Qed.


Lemma processLeapIndication_Inv now data l entry : Inv l entry ->
  exists ev t, lastLeap l = Some ev /\ Atoi (LeapTime ev) = Some t /\
  (processLeapIndication now data l = Err \/
   exists r, processLeapIndication now data l = Ok r /\
     match r with
     | Some r => rsLeapSec r = Ublox.CurrLs data + gpsToTaiDiff + Ublox.LsChange data /\ rsLeapSec r <> LeapSec ev
     | None => True
     end).
Proof.
  intros [_ (ev & t & Hev & Ht & _) _]. exists ev, t. split; [done|]. split; [done|]. unfold processLeapIndication.
  destruct (negb _); [right; by exists None|]. rewrite Hev, Ht.
  destruct (_ && _); [|right; by exists None]. destruct (negb (_ =? _) && _) eqn:E; [|right; by exists None].
  apply andb_true_iff in E as [E%negb_true_iff%Z.eqb_neq _].
  destruct (parse_hours _); [|by left]. right. eexists. split; [reflexivity|]. by split.
Qed.

Lemma Inv_sent l entry b : Inv l entry -> Inv (l <| pmcLeapSent := b |>) entry.
Proof. intros [H1 H2 H3]. by split. Qed.

Lemma in_pmc_window_total now l entry : Inv l entry -> exists b, in_pmc_window now l = Ok b.
Proof. intros [_ (ev & t & Hev & Ht & _) _]. unfold in_pmc_window, IsLeapInWindow. rewrite Hev, Ht. by eexists. Qed.

(** The ticker's retry of the write. *)
Definition retried (readable writable : bool) (entry : option string) (l : LeapManager) : option string * LeapManager :=
  if retryUpdate l then updateLeapConfigmap readable writable entry l else (entry, l).

Lemma retried_Inv readable writable entry l : Inv l entry -> Inv (retried readable writable entry l).2 (retried readable writable entry l).1.
Proof.
  intros HI. unfold retried. destruct (retryUpdate l); [|done]. destruct HI as [H1 (ev & t & H2 & H3 & H4 & H5) _].
  by eapply updateLeapConfigmap_Inv.
Qed.

Lemma retried_fields readable writable entry l :
  let l' := (retried readable writable entry l).2 in
  leapFile l' = leapFile l /\ pmcLeapSent l' = pmcLeapSent l /\ allowedLeapSources l' = allowedLeapSources l.
Proof. unfold retried, updateLeapConfigmap. destruct (retryUpdate l); [|done]. by destruct (_ && _). Qed.

Lemma round_Inv x l entry : Inv l entry -> in_range x ->
  exists o l' entry', round x l entry = Ok (o, l', entry') /\ Inv l' entry'.
Proof.
  intros HI Hx. destruct x as [now data readable writable|now readable writable gm set_ok].
  - destruct (processLeapIndication_Inv now data l entry HI) as (ev & t & Hev & Ht & [E|(r & E & Hr)]); cbn [round]; rewrite E;
      [by eexists _, _, _|]. destruct r as [r|]; [|by eexists _, _, _]. destruct Hr as [Hr _]. cbn [in_range] in Hx. rewrite <- Hr in Hx.
    destruct (updateLeapFile_ok (rsLeapTime r) (rsLeapSec r) (rsUpdateTime r) l (iv_file _ _ HI) (ex_intro _ ev Hev) Hx)
      as (l' & -> & Hwf & (ev' & t' & H1 & H2 & H3 & H4 & _) & _).
    cbn [obind]. pose proof (updateLeapConfigmap_Inv readable writable entry l' ev' t' Hwf H1 H2 H3 H4) as HI'.
    destruct (updateLeapConfigmap _ _ _ _) as [e' l'']. by eexists _, _, _.
  - cbn [round]. fold (retried readable writable entry l). pose proof (retried_Inv readable writable entry l HI) as HI'.
    destruct (retried _ _ _ _) as [e' l']. cbn [fst snd] in HI'.
    destruct (in_pmc_window_total now l' e' HI') as [b Hb]. rewrite Hb. cbn [obind].
    destruct b; [|eexists _, _, _; split; [reflexivity|by apply Inv_sent]].
    destruct (pmcLeapSent l'); [by eexists _, _, _|]. destruct gm as [g|]; [|by eexists _, _, _].
    destruct (iv_last _ _ HI') as (ev & t & -> & _).
    destruct (_ =? 0); [eexists _, _, _; split; [reflexivity|by apply Inv_sent]|].
    destruct set_ok; [eexists _, _, _; split; [reflexivity|by apply Inv_sent]|by eexists _, _, _].
Qed.

Lemma Run_Inv xs : forall l entry, Inv l entry -> Forall in_range xs ->
  exists os l' entry', Run xs l entry = Ok (os, l', entry') /\ Inv l' entry'.
Proof.
  induction xs as [|x xs IH]; intros l entry HI Hx; [by eexists _, _, _|]. apply Forall_cons in Hx as [Hx Hxs].
  destruct (round_Inv x l entry HI Hx) as (o & l' & e' & E & HI'). cbn [Run]. rewrite E. cbn [obind].
  destruct (IH l' e' HI' Hxs) as (os & l'' & e'' & -> & HI''). cbn [obind]. by eexists _, _, _.
Qed.

(** A manager that was loaded, from a file all whose fields the text can carry. *)
Lemma populate_Inv entry file updated l entry' :
  populateLeapData entry file updated = Ok (l, entry') -> wf_file (leapFile l) -> Inv l entry'.
Proof.
  assert (forall lf l', try_setUtcOffset (new_manager <| leapFile := lf |>) = Ok l' -> wf_file (leapFile l') -> leapFile l' = lf ->
    exists ev t, lastLeap l' = Some ev /\ Atoi (LeapTime ev) = Some t /\ utcOffset l' = LeapSec ev /\ utcOffsetTime l' = seconds t) as Hset.
  { intros lf l' H Hwf Hlf. unfold try_setUtcOffset, setUtcOffset in H.
    destruct (lastLeap (new_manager <| leapFile := lf |>)) as [ev|] eqn:Ev; [|done].
    assert (lastLeap l' = Some ev) as Hev by (unfold lastLeap in *; by rewrite Hlf).
    destruct (wf_Atoi ev (last_wf _ _ Hwf Hev)) as [t Ht]. rewrite Ht in H. injection H as <-. by exists ev, t. }
  assert (forall lf l', try_setUtcOffset (new_manager <| leapFile := lf |>) = Ok l' -> leapFile l' = lf) as Hfile.
  { intros lf l' H. unfold try_setUtcOffset, setUtcOffset in H. destruct (lastLeap _); [|done].
    destruct (Atoi _); by injection H as <-. }
  unfold populateLeapData. intros H Hwf. destruct entry as [[text|]|]; [| |done].
  - destruct (parseLeapFile text) as [lf| |] eqn:Ep; [|done|done]. cbn [obind] in H.
    destruct (try_setUtcOffset _) as [l'| |] eqn:Es; [|done|done]. injection H as <- <-.
    split; [done|by eapply Hset, Hfile|]. right. exists text. split; [done|]. by rewrite (Hfile _ _ Es).
  - destruct file as [text|]; [|done]. destruct (parseLeapFile text) as [lf| |]; [|done|done]. cbn [obind] in H.
    destruct updated; [|done]. destruct (try_setUtcOffset _) as [l'| |] eqn:Es; [|done|done]. injection H as <- <-.
    split; [done|by eapply Hset, Hfile|]. right. eexists. split; [done|]. rewrite (Hfile _ _ Es) in *. by apply leap_file_parsed.
Qed.

(** C31. A manager loaded from a file whose fields the text can carry goes on without an error
    or a panic, whatever failures of the configuration map and answers of pmc come and
    whatever is indicated, as long as the TAI offset an indication announces (the current
    leap seconds, the 19 of GPS and the change) fits eight bits; and unless a write is still
    to be retried, a daemon that starts anew loads from the map exactly its leap events and
    its UTC offset.  Beyond eight bits the map cannot be loaded ([large_leap_unloadable]). *)
Theorem leap_restart_loses_nothing entry file updated l entry0 xs :
  populateLeapData entry file updated = Ok (l, entry0) -> wf_file (leapFile l) -> Forall in_range xs ->
  exists os l' entry', Run xs l entry0 = Ok (os, l', entry') /\ wf_file (leapFile l') /\
    (retryUpdate l' = false -> forall file' updated', exists l'',
       populateLeapData (Some entry') file' updated' = Ok (l'', entry') /\
       leapFile l'' = leapFile l' /\ utcOffset l'' = utcOffset l' /\ utcOffsetTime l'' = utcOffsetTime l').
Proof.
  intros Hp Hwf Hxs. destruct (Run_Inv xs l entry0 (populate_Inv _ _ _ _ _ Hp Hwf) Hxs) as (os & l' & e' & HR & HI).
  exists os, l', e'. split; [done|]. split; [apply HI|]. intros Hretry file' updated'.
  destruct HI as [_ (ev & t & Hev & Ht & Hu & Hut) [E|(text & -> & Hparse)]]; [congruence|].
  cbn [populateLeapData]. rewrite Hparse. cbn [obind]. rewrite (setUtcOffset_ok _ ev t) by done. cbn [obind].
  eexists. split; [reflexivity|]. by rewrite Hu, Hut.
Qed.

Definition ex_text : string := renderLeapData ex_file.
Definition ex_data : Ublox.TimeLs := Ublox.mkTimeLs 2 18 2 1 0 2400 7 3.
Definition ex_now : Z := 3976128000 * second.

Definition ex_loaded : LeapManager * option string :=
  match populateLeapData (Some None) (Some ex_text) true with Ok r => r | _ => (new_manager, None) end.
Definition ex_inputs : list input := [IIndication ex_now ex_data true false; ITick (ex_now + second) true true None true].

Lemma ex_loaded_ok : populateLeapData (Some None) (Some ex_text) true = Ok (ex_loaded.1, ex_loaded.2).
Proof. by vm_compute. Qed.

Lemma ex_loaded_wf : wf_file (leapFile ex_loaded.1).
Proof.
  assert (leapFile ex_loaded.1 = rehashLeapData ex_file) as -> by (by vm_compute).
  destruct ex_file_wf as [H1 H2 _ H4]. split; [done|done|apply rehash_phrase|done].
Qed.

(** The run of the example ends with three leap events and nothing to retry. *)
Definition ex_check (o : outcome (list (GrandmasterSettings * bool) * LeapManager * option string)) : bool :=
  match o with
  | Ok (_, l, _) => bool_decide (map LeapSec (LeapEvents (leapFile l)) = [36; 37; 38]) && negb (retryUpdate l)
  | _ => false
  end.

Lemma leap_restart_loses_nothing_witness :
  exists os l' e', Run ex_inputs ex_loaded.1 ex_loaded.2 = Ok (os, l', e') /\
    map LeapSec (LeapEvents (leapFile l')) = [36; 37; 38] /\
    exists l'', populateLeapData (Some e') None false = Ok (l'', e') /\ leapFile l'' = leapFile l'.
Proof.
  destruct (leap_restart_loses_nothing (Some None) (Some ex_text) true ex_loaded.1 ex_loaded.2 ex_inputs
    ex_loaded_ok ex_loaded_wf) as (os & l' & e' & HR & _ & Hre).
  { repeat apply Forall_cons_2; [by vm_compute|done|apply Forall_nil_2]. }
  assert (ex_check (Run ex_inputs ex_loaded.1 ex_loaded.2) = true) as Hc by (vm_compute; reflexivity).
  exists os, l', e'. split; [exact HR|]. rewrite HR in Hc. unfold ex_check in Hc.
  apply andb_true_iff in Hc as [Hc1 Hc2]. split; [exact (proj1 (bool_decide_eq_true _) Hc1)|].
  destruct (Hre (proj1 (negb_true_iff _) Hc2) None false) as (l'' & H1 & H2 & _). exists l''. split; [exact H1|exact H2].
Defined.

(** ** Indications *)

Lemma updateLeapConfigmap_file readable writable entry l : leapFile (updateLeapConfigmap readable writable entry l).2 = leapFile l /\
  allowedLeapSources (updateLeapConfigmap readable writable entry l).2 = allowedLeapSources l.
Proof. unfold updateLeapConfigmap. by destruct (_ && _). Qed.

(** The number on file is the announced one: nothing to do. *)
Lemma known_leap_ignored now data l ev t :
  lastLeap l = Some ev -> Atoi (LeapTime ev) = Some t -> LeapSec ev = Ublox.CurrLs data + gpsToTaiDiff + Ublox.LsChange data ->
  processLeapIndication now data l = Ok None.
Proof.
  intros H1 H2 H3. unfold processLeapIndication. destruct (negb _); [done|]. rewrite H1, H2, <- H3, Z.eqb_refl. by destruct (_ && _).
Qed.

(** An announcement that calls for an update makes the announced number, counted from
    TAI, the one on file, with the UTC offset it implies and a checksum that is that of the
    file; repeated at any later time, to whatever the configuration map answered, the same
    announcement changes nothing. *)
Theorem indication_applied_once entry l now data readable writable r :
  Inv l entry -> in_range (IIndication now data readable writable) ->
  Ublox.CurrLs data + gpsToTaiDiff + Ublox.LsChange data <> 0 ->
  processLeapIndication now data l = Ok (Some r) ->
  exists l' entry' ev t, round (IIndication now data readable writable) l entry = Ok (None, l', entry') /\
    lastLeap l' = Some ev /\ LeapSec ev = Ublox.CurrLs data + gpsToTaiDiff + Ublox.LsChange data /\
    Atoi (LeapTime ev) = Some t /\ utcOffset l' = LeapSec ev /\ utcOffsetTime l' = seconds t /\
    Hash (leapFile l') = Hash (rehashLeapData (leapFile l')) /\
    forall now' readable' writable', round (IIndication now' data readable' writable') l' entry' = Ok (None, l', entry').
Proof.
  intros HI Hx Hne Hp.
  destruct (processLeapIndication_Inv now data l entry HI) as (ev & t & Hev & Ht & [E|(r' & E & Hr)]); [congruence|].
  rewrite Hp in E. injection E as <-. destruct Hr as [Hr _]. cbn [in_range] in Hx. rewrite <- Hr in Hx, Hne |- *.
  destruct (updateLeapFile_ok (rsLeapTime r) (rsLeapSec r) (rsUpdateTime r) l (iv_file _ _ HI) (ex_intro _ ev Hev) Hx)
    as (l' & Hl' & Hwf & (ev' & t' & H1 & H2 & H3 & H4 & H5) & Hh & _). cbn [round]. rewrite Hp, Hl'. cbn [obind].
  pose proof (updateLeapConfigmap_Inv readable writable entry l' ev' t' Hwf H1 H2 H3 H4) as HI'.
  pose proof (updateLeapConfigmap_file readable writable entry l') as [Hf _].
  destruct (updateLeapConfigmap _ _ _ _) as [e' l'']. cbn [fst snd] in *. exists l'', e'.
  destruct (iv_last _ _ HI') as (ev'' & t'' & Hev'' & Ht'' & Hu & Hut). exists ev'', t''.
  assert (ev'' = ev') as -> by (unfold lastLeap in *; rewrite Hf in Hev''; congruence).
  split_and!; try done; [by apply H5|by rewrite Hf|].
  intros now' readable' writable'. rewrite (known_leap_ignored now' data l'' ev' t'') by (done || rewrite H5, Hr; done). done.
Qed.

Lemma ex_loaded_Inv : Inv ex_loaded.1 ex_loaded.2.
Proof. eapply populate_Inv; [apply ex_loaded_ok|apply ex_loaded_wf]. Qed.

Definition ex_result : leapIndResult :=
  match processLeapIndication ex_now ex_data ex_loaded.1 with Ok (Some r) => r | _ => mkResult 0 0 0 end.

Lemma indication_applied_once_witness :
  exists l' entry' ev, round (IIndication ex_now ex_data true true) ex_loaded.1 ex_loaded.2 = Ok (None, l', entry') /\
    lastLeap l' = Some ev /\ LeapSec ev = 38.
Proof.
  destruct (indication_applied_once ex_loaded.2 ex_loaded.1 ex_now ex_data true true ex_result ex_loaded_Inv
    ltac:(by vm_compute) ltac:(by vm_compute) ltac:(vm_compute; reflexivity)) as (l' & e' & ev & t & H1 & H2 & H3 & _).
  exists l', e', ev. split; [exact H1|]. split; [exact H2|]. rewrite H3. vm_compute. reflexivity.
Defined.

(** ** The window *)

(** Every tick finds the last leap second in the window. *)
Fixpoint inside_throughout (xs : list input) (l : LeapManager) (entry : option string) : Prop :=
  match xs with
  | [] => True
  | x :: xs' =>
      match x with ITick now _ _ _ _ => in_pmc_window now l = Ok true | IIndication _ _ _ _ => True end /\
      match round x l entry with Ok (_, l', entry') => inside_throughout xs' l' entry' | _ => True end
  end.

(** What pmc took, and the flags of what it was given. *)
Definition taken (os : list (GrandmasterSettings * bool)) : list (GrandmasterSettings * bool) := List.filter snd os.
Definition one_flag (o : GrandmasterSettings * bool) : Prop :=
  Leap61 (gsTimePropertiesDS o.1) = negb (Leap59 (gsTimePropertiesDS o.1)).

Lemma one_flag_diff d g b : d <> 0 -> one_flag (leap_flags d g, b).
Proof. intros H. unfold one_flag, leap_flags. cbn. destruct (Z.ltb_spec d 0), (Z.ltb_spec 0 d); (done || lia). Qed.

(** A round while in the window: pmc takes settings at most when none were taken before. *)
Lemma round_inside x l entry o l' entry' :
  round x l entry = Ok (o, l', entry') ->
  match x with ITick now _ _ _ _ => in_pmc_window now l = Ok true | IIndication _ _ _ _ => True end ->
  (pmcLeapSent l = true -> o = None /\ pmcLeapSent l' = true) /\
  match o with Some (g, took) => one_flag (g, took) /\ (took = true -> pmcLeapSent l' = true) | None => True end.
Proof.
  intros H Hin. destruct x as [now data readable writable|now readable writable gm set_ok].
  - cbn [round] in H. destruct (processLeapIndication now data l) as [[r|]| |]; [|by injection H as <- <- <-|by injection H as <- <- <-|done].
    destruct (updateLeapFile _ _ _ l) as [l1| |] eqn:Eu; [|done|done]. cbn [obind] in H.
    assert (pmcLeapSent l1 = pmcLeapSent l) as Hs.
    { unfold updateLeapFile, try_setUtcOffset, setUtcOffset in Eu. revert Eu. destruct (lastLeap _); [|done].
      destruct (Atoi _); by intros [= <-]. }
    unfold updateLeapConfigmap in H. destruct (readable && writable); injection H as <- <- <-; cbn; by rewrite Hs.
  - cbn [round] in H. fold (retried readable writable entry l) in H.
    destruct (retried_fields readable writable entry l) as (Hf & Hs & _).
    destruct (retried readable writable entry l) as [e1 l1]. cbn [fst snd] in *.
    assert (in_pmc_window now l1 = Ok true) as Hin1 by (unfold in_pmc_window, IsLeapInWindow, lastLeap in *; by rewrite Hf).
    rewrite Hin1 in H. cbn [obind] in H. rewrite Hs in H. destruct (pmcLeapSent l) eqn:Es; [injection H as <- <- <-; by rewrite Hs|].
    destruct gm as [g|]; [|by injection H as <- <- <-]. destruct (lastLeap l1) as [ev|]; [|done].
    destruct (Z.eqb_spec (LeapSec ev - CurrentUtcOffset (gsTimePropertiesDS g)) 0) as [|Hd]; [by injection H as <- <- <-|].
    destruct set_ok; injection H as <- <- <-; (split; [by rewrite ?Es|]); (split; [by apply one_flag_diff|done]).
Qed.

(** Between two ticks out of the window pmc takes the announcement of a leap second at
    most once, and whatever it is given announces exactly one of a 61 and a 59 second
    minute. *)
Theorem leap_told_once xs l entry os l' entry' :
  Run xs l entry = Ok (os, l', entry') -> inside_throughout xs l entry ->
  (length (taken os) <= 1)%nat /\ Forall one_flag os /\ (pmcLeapSent l = true -> os = []).
Proof.
  revert l entry os. induction xs as [|x xs IH]; intros l entry os H Hin; [injection H as <- <- <-; split_and!; [cbn; lia|by apply Forall_nil_2|done]|].
  cbn [Run] in H. destruct Hin as [Hx Hin]. destruct (round x l entry) as [[[o l1] e1]| |] eqn:Er; [|done|done]. cbn [obind] in H.
  destruct (Run xs l1 e1) as [[[os1 l2] e2]| |] eqn:ER; [|done|done]. cbn [obind] in H. injection H as <- <- <-.
  destruct (round_inside _ _ _ _ _ _ Er Hx) as [Hsent Ho]. destruct (IH _ _ _ ER Hin) as (H1 & H2 & H3).
  destruct o as [[g took]|].
  - destruct Ho as [Hf Ht]. split_and!; [|by apply Forall_cons|intros E; by destruct (Hsent E)].
    destruct took; cbn; [|exact H1]. rewrite (H3 (Ht eq_refl)). cbn. lia.
  - split_and!; [done|done|]. intros E. by apply H3, Hsent.
Qed.

(** Six hours before the leap second of the example, told by GNSS. *)
Definition ex_before : LeapManager * option string :=
  match Run [IIndication ex_now (Ublox.mkTimeLs 2 18 2 1 86400 2400 7 3) true true] ex_loaded.1 ex_loaded.2 with
  | Ok (_, l, e) => (l, e) | _ => (new_manager, None) end.
Definition ex_settings : GrandmasterSettings :=
  zero_GrandmasterSettings <| gsTimePropertiesDS := zero_TimePropertiesDS <| CurrentUtcOffset := 37 |> |>.
Definition ex_tick (k : Z) (ok : bool) : input := ITick (utcOffsetTime ex_before.1 - 6 * hour + k * 60 * second) true true (Some ex_settings) ok.
Definition ex_ticks : list input := [ex_tick 0 false; ex_tick 1 true; ex_tick 2 true].
Definition ex_told : list (GrandmasterSettings * bool) :=
  match Run ex_ticks ex_before.1 ex_before.2 with Ok (os, _, _) => os | _ => [] end.

Lemma leap_told_once_witness :
  (length (taken ex_told) <= 1)%nat /\ Forall one_flag ex_told /\ map snd ex_told = [false; true].
Proof.
  assert (exists l' e', Run ex_ticks ex_before.1 ex_before.2 = Ok (ex_told, l', e')) as (l' & e' & HR)
    by (eexists _, _; vm_compute; reflexivity).
  destruct (leap_told_once ex_ticks ex_before.1 ex_before.2 ex_told l' e' HR ltac:(vm_compute; repeat split; reflexivity)) as (H1 & H2 & _).
  split; [exact H1|]. split; [exact H2|]. vm_compute. reflexivity.
Defined.

(** In the window, a pmc that answers none of the six queries has the manager announce a leap
    second, with all other settings zero. *)
Lemma unanswered_query_announces :
  exists l' e', round (ITick (utcOffsetTime ex_before.1 - 6 * hour) true true (Some (Pmc.RunPMCExpGetGMSettings true (fun _ => Pmc.ATimeout)).1) true)
    ex_before.1 ex_before.2 = Ok (Some (leap_flags 1 zero_GrandmasterSettings, true), l', e').
Proof. eexists _, _. vm_compute. reflexivity. Qed.

(** A number of seconds that the file cannot carry is written all the same, and the next
    daemon cannot load it. *)
Lemma large_leap_unloadable :
  match round (IIndication ex_now (Ublox.mkTimeLs 2 109 2 0 0 2400 7 3) true true) ex_loaded.1 ex_loaded.2 with
  | Ok (None, _, Some text) => parseLeapFile text = Err
  | _ => False
  end.
Proof. vm_compute. reflexivity. Qed.

End Leap.
