(* ===== verification/Attr.v ===== *)
(** * Netlink attributes

    The part of github.com/mdlayher/netlink (attribute.go, under src/vendor) that
    pkg/dpll-netlink builds on: an attribute is a length, a type and its data, padded to
    four bytes.  A byte is an integer from 0 to 255; the byte order of the supported
    machines is little endian.  An error is [None]: the callers give up a message at the
    first one, so where the decoder stops does not matter. *)

From S2P Require Import Prelude.
From Stdlib Require Import Ascii.

#[local] Open Scope Z_scope.

Module Attr.

(** ** Integers in memory *)

Fixpoint le_bytes (n : nat) (z : Z) : list Z :=
  match n with O => [] | S n' => z mod 256 :: le_bytes n' (z / 256) end.

Fixpoint le_value (b : list Z) : Z := match b with [] => 0 | x :: b' => x + 256 * le_value b' end.

(** ** Attributes *)

Record Attribute := mkAttribute { atType : Z; atData : list Z }.

Definition nlaHeaderLen : nat := 4.
Definition nlaAlign (n : nat) : nat := ((n + 3) / 4 * 4)%nat.
Definition Nested : Z := 32768.
Definition attrTypeMask : Z := 16383.
Definition max_data : Z := 65531.

Definition marshal (a : Attribute) : option (list Z) :=
  let len := length (atData a) in
  if wrap_u 16 (Z.of_nat (nlaHeaderLen + len)) <? Z.of_nat nlaHeaderLen then None
  else Some (le_bytes 2 (Z.of_nat (nlaHeaderLen + len)) ++ le_bytes 2 (atType a) ++ atData a ++ replicate (nlaAlign len - len) 0).

Fixpoint MarshalAttributes (attrs : list Attribute) : option (list Z) :=
  match attrs with
  | [] => Some []
  | a :: attrs' => b ← marshal a; b' ← MarshalAttributes attrs'; Some (b ++ b')
  end.

(** The attributes the decoder walks through; [fuel] is the number of bytes, of which each
    attribute takes four at least. *)
Fixpoint attributes (fuel : nat) (b : list Z) : option (list Attribute) :=
  match fuel, b with
  | _, [] => Some []
  | O, _ => None
  | S fuel', _ =>
      if (length b <? nlaHeaderLen)%nat then None
      else
        let len := Z.to_nat (le_value (take 2 b)) in
        let type := le_value (take 2 (drop 2 b)) in
        if (length b <? len)%nat then None
        else if (len =? 0)%nat then cons (mkAttribute type []) <$> attributes fuel' (drop nlaHeaderLen b)
        else if (len <? nlaHeaderLen)%nat then None
        else cons (mkAttribute type (take (len - nlaHeaderLen) (drop nlaHeaderLen b))) <$> attributes fuel' (drop (nlaAlign len) b)
  end.

Definition NewAttributeDecoder (b : list Z) : option (list Attribute) := attributes (length b) b.

Definition Type_ (a : Attribute) : Z := Z.land (atType a) attrTypeMask.

(** ** Values *)

Definition Uint (n : nat) (a : Attribute) : option Z := if (length (atData a) =? n)%nat then Some (le_value (atData a)) else None.
Definition Uint32 : Attribute -> option Z := Uint 4.
Definition Uint64 : Attribute -> option Z := Uint 8.
Definition Int32 (a : Attribute) : option Z := int32 <$> Uint32 a.
Definition Int64 (a : Attribute) : option Z := int64 <$> Uint64 a.

Fixpoint text (b : list Z) : string := match b with [] => EmptyString | x :: b' => String (ascii_of_N (Z.to_N x)) (text b') end.

(** [bytes.TrimRight(b, "\x00")]. *)
Fixpoint trim_zeros (b : list Z) : list Z :=
  match b with [] => [] | x :: b' => match trim_zeros b' with [] => if x =? 0 then [] else [x] | t => x :: t end end.

Definition String_ (a : Attribute) : string := text (trim_zeros (atData a)).

Definition put_uint (n : nat) (type v : Z) : Attribute := mkAttribute type (le_bytes n v).
Definition put_uint32 : Z -> Z -> Attribute := put_uint 4.
Definition put_uint64 : Z -> Z -> Attribute := put_uint 8.
Definition put_int32 (type v : Z) : Attribute := put_uint32 type (wrap_u 32 v).
Definition put_uint8 : Z -> Z -> Attribute := put_uint 1.

Definition put_nested (type : Z) (attrs : list Attribute) : option Attribute :=
  b ← MarshalAttributes attrs; if max_data <? Z.of_nat (length b) then None else Some (mkAttribute (Z.lor Nested type) b).

(** ** Lemmas *)

Definition is_byte (x : Z) : Prop := 0 <= x < 256.

Lemma length_le_bytes n z : length (le_bytes n z) = n.
Proof. revert z. induction n; intros z; cbn; [done|by rewrite IHn]. Qed.

Lemma le_bytes_byte n z : Forall is_byte (le_bytes n z).
Proof. revert z. induction n; intros z; cbn; [done|]. constructor; [|done]. unfold is_byte. pose proof (Z.mod_pos_bound z 256). lia. Qed.

Lemma le_value_bytes n z : le_value (le_bytes n z) = z mod 2 ^ (8 * Z.of_nat n).
Proof.
  revert z. induction n as [|n IH]; intros z; cbn [le_bytes le_value]; [by rewrite Z.mod_1_r|].
  rewrite IH. replace (8 * Z.of_nat (S n)) with (8 + 8 * Z.of_nat n) by lia. rewrite Z.pow_add_r by lia.
  change (2 ^ 8) with 256. rewrite Z.rem_mul_r by (try apply Z.pow_pos_nonneg; lia). done.
Qed.

Lemma le_value_id n z : 0 <= z < 2 ^ (8 * Z.of_nat n) -> le_value (le_bytes n z) = z.
Proof. intros H. rewrite le_value_bytes. by apply Z.mod_small. Qed.

Definition small (a : Attribute) : Prop := Z.of_nat (length (atData a)) <= max_data /\ 0 <= atType a < 65536.

Definition bytes_of (a : Attribute) : list Z :=
  le_bytes 2 (Z.of_nat (nlaHeaderLen + length (atData a))) ++ le_bytes 2 (atType a) ++ atData a
  ++ replicate (nlaAlign (length (atData a)) - length (atData a)) 0.

Lemma marshal_small a : small a -> marshal a = Some (bytes_of a).
Proof.
  intros [Hl _]. unfold marshal, wrap_u. unfold max_data, nlaHeaderLen in *.
  rewrite Z.mod_small by lia. by destruct (Z.ltb_spec (Z.of_nat (4 + length (atData a))) (Z.of_nat 4)); [lia|].
Qed.

Lemma MarshalAttributes_small l : Forall small l -> MarshalAttributes l = Some (concat (map bytes_of l)).
Proof. induction 1 as [|a l Ha _ IH]; cbn; [done|]. by rewrite (marshal_small a Ha), IH. Qed.

Lemma nlaAlign_spec n : (n <= nlaAlign n < n + 4)%nat /\ nlaAlign (4 + n) = (4 + nlaAlign n)%nat.
Proof.
  unfold nlaAlign. pose proof (Nat.div_mod_eq (n + 3) 4). pose proof (Nat.mod_upper_bound (n + 3) 4 ltac:(lia)).
  replace (4 + n + 3)%nat with (n + 3 + 1 * 4)%nat by lia. rewrite Nat.div_add by lia. lia.
Qed.

(** Reading one attribute consumes exactly the bytes it was written to. *)
Lemma attributes_cons a fuel rest : small a -> attributes (S fuel) (bytes_of a ++ rest) = cons a <$> attributes fuel rest.
Proof.
  intros [Hl Ht]. destruct a as [ty d]. unfold bytes_of, max_data in *. cbn [atType atData] in *.
  pose proof (nlaAlign_spec (length d)) as [Ha Ha4]. unfold nlaHeaderLen.
  set (pad := replicate (nlaAlign (length d) - length d) 0).
  assert (length pad = nlaAlign (length d) - length d)%nat as Hp by apply length_replicate.
  set (h := le_bytes 2 (Z.of_nat (4 + length d))). set (k := le_bytes 2 ty).
  assert (length h = 2%nat) as Hh by apply length_le_bytes. assert (length k = 2%nat) as Hk by apply length_le_bytes.
  assert (le_value h = Z.of_nat (4 + length d)) as Ev by (apply le_value_id; cbn; lia).
  assert (le_value k = ty) as Et by (apply le_value_id; cbn; lia).
  clearbody h k pad. destruct h as [|h0 [|h1 [|]]]; try done. destruct k as [|k0 [|k1 [|]]]; try done.
  set (all := (([h0; h1] ++ [k0; k1] ++ d ++ pad) ++ rest)).
  assert (take 2 all = [h0; h1]) as E1 by done. assert (take 2 (drop 2 all) = [k0; k1]) as E2 by done.
  assert (drop 4 all = d ++ pad ++ rest) as E3 by (unfold all; cbn; by rewrite <- app_assoc).
  assert (length all = 4 + length d + length pad + length rest)%nat as El
    by (unfold all; cbn; rewrite !length_app; lia).
  assert (drop (nlaAlign (4 + length d)) all = rest) as E4.
  { rewrite Ha4, <- drop_drop, E3, app_assoc. apply drop_app_length'. rewrite length_app. lia. }
  change (attributes (S fuel) all = cons (mkAttribute ty d) <$> attributes fuel rest).
  assert (exists x l, all = x :: l) as (x & l & Ex) by (unfold all; cbn; eauto).
  unfold attributes at 1; fold attributes. rewrite Ex, <- Ex, E1, E2, Ev, Et, Nat2Z.id, E4.
  unfold nlaHeaderLen. rewrite E3, El.
  destruct (Nat.ltb_spec (4 + length d + length pad + length rest) 4); [lia|].
  destruct (Nat.ltb_spec (4 + length d + length pad + length rest) (4 + length d)); [lia|].
  destruct (Nat.eqb_spec (4 + length d) 0); [lia|]. destruct (Nat.ltb_spec (4 + length d) 4); [lia|].
  replace (4 + length d - 4)%nat with (length d) by lia. by rewrite take_app_length.
Qed.

Lemma attributes_marshal l : Forall small l -> forall fuel, (length l <= fuel)%nat -> attributes fuel (concat (map bytes_of l)) = Some l.
Proof.
  induction 1 as [|a l Ha _ IH]; intros fuel Hf; cbn [map concat]; [by destruct fuel|]. destruct fuel as [|fuel]; cbn in Hf; [lia|].
  rewrite (attributes_cons a fuel _ Ha), (IH fuel) by lia. done.
Qed.

Lemma length_bytes_of a : (4 <= length (bytes_of a))%nat /\ (length (atData a) <= 16 -> length (bytes_of a) <= 24)%nat.
Proof.
  unfold bytes_of. rewrite !length_app, !length_le_bytes, length_replicate. pose proof (nlaAlign_spec (length (atData a))). lia.
Qed.

(** What was encoded is decoded again. *)
Lemma decode_encode l b : Forall small l -> MarshalAttributes l = Some b -> NewAttributeDecoder b = Some l.
Proof.
  intros Hs. rewrite (MarshalAttributes_small l Hs). intros [= <-]. unfold NewAttributeDecoder. apply attributes_marshal; [done|].
  clear Hs. induction l as [|a l IH]; cbn [map concat length]; [lia|]. rewrite length_app. pose proof (length_bytes_of a). lia.
Qed.

Lemma Uint_put n type v : Uint n (put_uint n type v) = Some (v mod 2 ^ (8 * Z.of_nat n)).
Proof. unfold Uint, put_uint. cbn. by rewrite length_le_bytes, Nat.eqb_refl, le_value_bytes. Qed.

Lemma small_put n type v : (n <= 8)%nat -> 0 <= type < 65536 -> small (put_uint n type v).
Proof. intros ? ?. unfold small, put_uint, max_data. cbn [atData atType]. rewrite length_le_bytes. lia. Qed.

Lemma in_uint32_id v : 0 <= v < 2 ^ 32 -> v mod 2 ^ 32 = v.
Proof. apply Z.mod_small. Qed.

Lemma int32_of_uint32 v : - 2 ^ 31 <= v < 2 ^ 31 -> int32 (wrap_u 32 v mod 2 ^ 32) = v.
Proof.
  intros H. unfold int32, wrap_s, wrap_u. change (2 ^ (32 - 1)) with (2 ^ 31). rewrite Z.mod_mod by done.
  rewrite Z.add_mod_idemp_l by done. rewrite Z.mod_small; lia.
Qed.

End Attr.
