(* ===== verification/Netlink.v ===== *)
(** * pkg/dpll-netlink: the DPLL subsystem of the kernel

    dpll-uapi.go, dpll.go and pin_table.go: the names of the values, the replies about
    devices and pins decoded from netlink attributes, the commands encoded into them, and
    the rows of the table of pins.  The socket is an argument: a function from a command
    and its payload to the payloads of the replies. *)

From S2P Require Import Prelude Float64 Strconv Ublox Attr.

#[local] Open Scope Z_scope.

Module Netlink.

Import Attr.

(** ** dpll-uapi.go: constants *)

Definition DpllPhaseOffsetDivider : Z := 1000.
Definition DpllTemperatureDivider : Z := 1000.
Definition DpllPinMeasuredFrequencyDivider : Z := 1000.

(** The attributes of a device. *)
Definition DpllID : Z := 1.
Definition DpllModuleName : Z := 2.
Definition DpllClockID : Z := 4.
Definition DpllMode : Z := 5.
Definition DpllModeSupported : Z := 6.
Definition DpllLockStatus : Z := 7.
Definition DpllTemp : Z := 8.
Definition DpllType : Z := 9.
Definition DpllLockStatusError : Z := 10.
Definition DpllClockQualityLevel : Z := 11.
Definition DpllPhaseOffsetMonitor : Z := 12.
Definition DpllPhaseOffsetAverageFactor : Z := 13.
Definition DpllFrequencyMonitor : Z := 14.

(** The attributes of a pin. *)
Definition DpllPinID : Z := 1.
Definition DpllPinParentID : Z := 2.
Definition DpllPinModuleName : Z := 3.
Definition DpllPinClockID : Z := 5.
Definition DpllPinBoardLabel : Z := 6.
Definition DpllPinPanelLabel : Z := 7.
Definition DpllPinPackageLabel : Z := 8.
Definition DpllPinType : Z := 9.
Definition DpllPinDirection : Z := 10.
Definition DpllPinFrequency : Z := 11.
Definition DpllPinFrequencySupported : Z := 12.
Definition DpllPinFrequencyMin : Z := 13.
Definition DpllPinFrequencyMax : Z := 14.
Definition DpllPinPrio : Z := 15.
Definition DpllPinState : Z := 16.
Definition DpllPinCapabilities : Z := 17.
Definition DpllPinParentDevice : Z := 18.
Definition DpllPinParentPin : Z := 19.
Definition DpllPinPhaseAdjustMin : Z := 20.
Definition DpllPinPhaseAdjustMax : Z := 21.
Definition DpllPinPhaseAdjust : Z := 22.
Definition DpllPinPhaseOffset : Z := 23.
Definition DpllPinFractionalFrequencyOffset : Z := 24.
Definition DpllPinEsyncFrequency : Z := 25.
Definition DpllPinEsyncFrequencySupported : Z := 26.
Definition DpllPinEsyncPulse : Z := 27.
Definition DpllPinReferenceSync : Z := 28.
Definition DpllPinPhaseAdjustGran : Z := 29.
Definition DpllPinFractionalFrequencyOffsetPPT : Z := 30.
Definition DpllPinMeasuredFrequency : Z := 31.
Definition DpllPinOperstate : Z := 32.

Definition DpllCmdDeviceIDGet : Z := 1.
Definition DpllCmdDeviceGet : Z := 2.
Definition DpllCmdPinGet : Z := 8.
Definition DpllCmdPinSet : Z := 9.

Definition DpllLockStatusUnlocked : Z := 1.
Definition DpllLockStatusLocked : Z := 2.
Definition DpllLockStatusLockedHoldoverAcquired : Z := 3.
Definition DpllLockStatusHoldover : Z := 4.

Definition DpllTypePPS : Z := 1.
Definition DpllTypeEEC : Z := 2.

Definition PinStateConnected : Z := 1.
Definition PinStateDisconnected : Z := 2.
Definition PinStateSelectable : Z := 3.
Definition PinOperstateActive : Z := 1.

Definition PinDirectionInput : Z := 1.
Definition PinDirectionOutput : Z := 2.

Definition PinCapDir : Z := 1.
Definition PinCapPrio : Z := 2.
Definition PinCapState : Z := 4.

(** ** dpll-uapi.go: names of values

    The maps of the functions are the lists of their entries. *)

Definition unknownStr : string := "unknown".

Definition name_in (table : list (Z * string)) (v : Z) : option string := snd <$> first_match (fun e => e.1 =? v) table.

Definition lock_status_errors : list (Z * string) := [(1, "none"); (2, "undefined"); (3, "media-down"); (4, "fto-too-high")]%string.
Definition GetLockStatusError (le : Z) : string := default "" (name_in lock_status_errors le).

Definition feature_states : list (Z * string) := [(1, "enabled"); (2, "disabled")]%string.
Definition GetPhaseOffsetMonitor (po : Z) : string := default "" (name_in feature_states po).
Definition GetFrequencyMonitor (s : Z) : string := GetPhaseOffsetMonitor s.

Definition operstates : list (Z * string) := [(1, "active"); (2, "standby"); (3, "no-signal"); (4, "qual-failed")]%string.
Definition GetPinOperstate (s : Z) : string := default unknownStr (name_in operstates s).

Definition quality_levels : list (Z * string) :=
  [(0, "itu-opt1-prc"); (1, "itu-opt1-prc"); (2, "itu-opt1-ssua"); (3, "itu-opt1-ssub"); (4, "itu-opt1-eec1");
   (5, "itu-opt1-prtc"); (6, "itu-opt1-eprtc"); (7, "itu-opt1-eeec"); (8, "itu-opt1-eprc")]%string.
Definition GetClockQualityLevel (cq : Z) : string := default unknownStr (name_in quality_levels cq).
Definition GetClockQualityLevels (cqs : list Z) : string := join "," (map GetClockQualityLevel cqs).

Definition lock_statuses : list (Z * string) := [(1, "unlocked"); (2, "locked"); (3, "locked-ho-acquired"); (4, "holdover")]%string.
Definition GetLockStatus (ls : Z) : string := default unknownStr (name_in lock_statuses ls).

Definition types : list (Z * string) := [(1, "pps"); (2, "eec")]%string.
Definition GetDpllType (tp : Z) : string := default unknownStr (name_in types tp).

Definition modes : list (Z * string) := [(1, "manual"); (2, "automatic")]%string.
Definition GetMode (md : Z) : string := default unknownStr (name_in modes md).

Definition pin_states : list (Z * string) := [(1, "connected"); (2, "disconnected"); (3, "selectable")]%string.
Definition GetPinState (s : Z) : string := default unknownStr (name_in pin_states s).

Definition pin_types : list (Z * string) := [(1, "mux"); (2, "ext"); (3, "synce-eth-port"); (4, "int-oscillator"); (5, "gnss")]%string.
Definition GetPinType (tp : Z) : string := default unknownStr (name_in pin_types tp).

Definition pin_directions : list (Z * string) := [(1, "input"); (2, "output")]%string.
Definition GetPinDirection (d : Z) : string := default unknownStr (name_in pin_directions d).

Definition code_in (table : list (Z * string)) (s : string) : Z :=
  match first_match (fun e => str_eqb e.2 (Ublox.to_lower s)) table with Some e => e.1 | None => 0 end.

Definition ParsePinType (tp : string) : Z := code_in pin_types tp.
Definition ParsePinDirection (d : string) : Z := code_in pin_directions d.
Definition ParsePinState (s : string) : Z := code_in pin_states s.

Definition GetPinCapabilities (c : Z) : string :=
  join "," ((if Z.land c PinCapState =? 0 then [] else ["state-can-change"%string])
            ++ (if Z.land c PinCapDir =? 0 then [] else ["direction-can-change"%string])
            ++ (if Z.land c PinCapPrio =? 0 then [] else ["priority-can-change"%string])).

(** ** dpll.go: the data *)

Record DoDeviceGetReply := mkReply {
  rpID : Z; rpModuleName : string; rpMode : Z; rpModeSupported : list Z; rpLockStatus : Z; rpTemp : Z; rpClockID : Z;
  rpType : Z; rpLockStatusError : Z; rpClockQualityLevel : list Z; rpPhaseOffsetMonitor : Z;
  rpPhaseOffsetAverageFactor : Z; rpFrequencyMonitor : Z
}.

#[export] Instance DoDeviceGetReply_fields : Fields DoDeviceGetReply := fun r =>
  mkReply (rpID r) (rpModuleName r) (rpMode r) (rpModeSupported r) (rpLockStatus r) (rpTemp r) (rpClockID r) (rpType r)
    (rpLockStatusError r) (rpClockQualityLevel r) (rpPhaseOffsetMonitor r) (rpPhaseOffsetAverageFactor r) (rpFrequencyMonitor r).

Definition empty_reply : DoDeviceGetReply := mkReply 0 "" 0 [] 0 0 0 0 0 [] 0 0 0.

Record FrequencyRange := mkRange { FrequencyMin : Z; FrequencyMax : Z }.
#[export] Instance FrequencyRange_fields : Fields FrequencyRange := fun r => mkRange (FrequencyMin r) (FrequencyMax r).

Record ReferenceSync := mkRefSync { rsID : Z; rsState : Z }.
#[export] Instance ReferenceSync_fields : Fields ReferenceSync := fun r => mkRefSync (rsID r) (rsState r).

Record PinParentDevice := mkParent {
  ppParentID : Z; ppDirection : Z; ppPrio : option Z; ppState : Z; ppPhaseOffset : Z; ppOperstate : Z;
  ppFractionalFrequencyOffset : Z; ppFractionalFrequencyOffsetPPT : Z
}.
#[export] Instance PinParentDevice_fields : Fields PinParentDevice := fun p =>
  mkParent (ppParentID p) (ppDirection p) (ppPrio p) (ppState p) (ppPhaseOffset p) (ppOperstate p)
    (ppFractionalFrequencyOffset p) (ppFractionalFrequencyOffsetPPT p).

Record PinParentPin := mkParentPin { pnParentID : Z; pnState : Z }.
#[export] Instance PinParentPin_fields : Fields PinParentPin := fun p => mkParentPin (pnParentID p) (pnState p).

(** The fields Direction, FrequencyMin, FrequencyMax, Prio and State are never written. *)
Record PinInfo := mkPin {
  piID : Z; piParentID : Z; piModuleName : string; piClockID : Z; piBoardLabel : string; piPanelLabel : string;
  piPackageLabel : string; piType : Z; piFrequency : Z; piFrequencySupported : list FrequencyRange; piCapabilities : Z;
  piParentDevice : list PinParentDevice; piParentPin : list PinParentPin; piPhaseAdjustMin : Z; piPhaseAdjustMax : Z;
  piPhaseAdjust : Z; piPhaseOffset : Z; piFractionalFrequencyOffset : Z; piFractionalFrequencyOffsetPPT : Z;
  piEsyncFrequency : Z; piEsyncFrequencySupported : list FrequencyRange; piEsyncPulse : Z;
  piReferenceSync : list ReferenceSync; piPhaseAdjustGran : Z; piMeasuredFrequency : Z; piOperstate : Z
}.
#[export] Instance PinInfo_fields : Fields PinInfo := fun p =>
  mkPin (piID p) (piParentID p) (piModuleName p) (piClockID p) (piBoardLabel p) (piPanelLabel p) (piPackageLabel p) (piType p)
    (piFrequency p) (piFrequencySupported p) (piCapabilities p) (piParentDevice p) (piParentPin p) (piPhaseAdjustMin p)
    (piPhaseAdjustMax p) (piPhaseAdjust p) (piPhaseOffset p) (piFractionalFrequencyOffset p)
    (piFractionalFrequencyOffsetPPT p) (piEsyncFrequency p) (piEsyncFrequencySupported p) (piEsyncPulse p)
    (piReferenceSync p) (piPhaseAdjustGran p) (piMeasuredFrequency p) (piOperstate p).

Definition empty_pin : PinInfo := mkPin 0 0 "" 0 "" "" "" 0 0 [] 0 [] [] 0 0 0 0 0 0 0 [] 0 [] 0 0 0.

(** [nil] is told from an empty list of parents, as [mergePinCommandsByID] does. *)
Record PinControl := mkControl { pcPinParentID : Z; pcDirection : option Z; pcPrio : option Z; pcState : option Z }.
#[export] Instance PinControl_fields : Fields PinControl := fun p => mkControl (pcPinParentID p) (pcDirection p) (pcPrio p) (pcState p).

Record PinParentDeviceCtl := mkCtl {
  ctID : Z; ctFrequency : option Z; ctPhaseAdjust : option Z; ctEsyncFrequency : option Z; ctPinParentCtl : option (list PinControl)
}.
#[export] Instance PinParentDeviceCtl_fields : Fields PinParentDeviceCtl := fun c =>
  mkCtl (ctID c) (ctFrequency c) (ctPhaseAdjust c) (ctEsyncFrequency c) (ctPinParentCtl c).

Definition parents_of (c : PinParentDeviceCtl) : list PinControl := default [] (ctPinParentCtl c).

(** ** dpll-uapi.go: readable records

    What is printed as JSON; the time stamp is left out.  The divisions are in float64. *)

Definition per (v divider : Z) : f64 := f64_div (f64_of_Z v) (f64_of_Z divider).

Record DpllStatusHR := mkStatusHR {
  shID : Z; shModuleName : string; shMode : string; shModeSupported : string; shLockStatus : string; shClockID : string;
  shType : string; shTemp : f64; shLockStatusError : string; shClockQualityLevel : string; shPhaseOffsetMonitor : string;
  shPhaseOffsetAverageFactor : Z; shFrequencyMonitor : string
}.

Definition GetDpllStatusHR (r : DoDeviceGetReply) : DpllStatusHR :=
  mkStatusHR (rpID r) (rpModuleName r) (GetMode (rpMode r)) (join "," (map GetMode (rpModeSupported r)))
    (GetLockStatus (rpLockStatus r)) (fmt_hex (rpClockID r)) (GetDpllType (rpType r)) (per (rpTemp r) DpllTemperatureDivider)
    (GetLockStatusError (rpLockStatusError r)) (GetClockQualityLevels (rpClockQualityLevel r))
    (GetPhaseOffsetMonitor (rpPhaseOffsetMonitor r)) (rpPhaseOffsetAverageFactor r) (GetFrequencyMonitor (rpFrequencyMonitor r)).

Record PinParentDeviceHR := mkParentHR {
  phParentID : Z; phDirection : string; phPrio : option Z; phState : string; phPhaseOffsetPs : f64; phOperstate : string;
  phFractionalFrequencyOffset : Z; phFractionalFrequencyOffsetPPT : Z
}.

Definition parent_device_hr (p : PinParentDevice) : PinParentDeviceHR :=
  mkParentHR (ppParentID p) (GetPinDirection (ppDirection p)) (ppPrio p) (GetPinState (ppState p))
    (per (ppPhaseOffset p) DpllPhaseOffsetDivider) (GetPinOperstate (ppOperstate p)) (ppFractionalFrequencyOffset p)
    (ppFractionalFrequencyOffsetPPT p).

Record PinInfoHR := mkPinHR {
  ihID : Z; ihModuleName : string; ihClockID : string; ihBoardLabel : string; ihPanelLabel : string; ihPackageLabel : string;
  ihType : string; ihFrequency : Z; ihFrequencySupported : list FrequencyRange; ihCapabilities : string;
  ihParentDevice : list PinParentDeviceHR; ihParentPin : list (Z * string); ihPhaseAdjustMin : Z; ihPhaseAdjustMax : Z;
  ihPhaseAdjust : Z; ihFractionalFrequencyOffset : Z; ihEsyncFrequency : Z; ihEsyncFrequencySupported : list FrequencyRange;
  ihEsyncPulse : Z; ihReferenceSync : list ReferenceSync; ihPhaseAdjustGran : Z; ihFractionalFrequencyOffsetPPT : Z;
  ihMeasuredFrequencyHz : f64; ihOperstate : string
}.

Definition GetPinInfoHR (r : PinInfo) : PinInfoHR :=
  mkPinHR (piID r) (piModuleName r) (fmt_hex (piClockID r)) (piBoardLabel r) (piPanelLabel r) (piPackageLabel r)
    (GetPinType (piType r)) (piFrequency r) (piFrequencySupported r) (GetPinCapabilities (piCapabilities r))
    (map parent_device_hr (piParentDevice r)) (map (fun p => (pnParentID p, GetPinState (pnState p))) (piParentPin r))
    (piPhaseAdjustMin r) (piPhaseAdjustMax r) (piPhaseAdjust r) (piFractionalFrequencyOffset r) (piEsyncFrequency r)
    (piEsyncFrequencySupported r) (piEsyncPulse r) (piReferenceSync r) (piPhaseAdjustGran r) (piFractionalFrequencyOffsetPPT r)
    (per (piMeasuredFrequency r) DpllPinMeasuredFrequencyDivider) (GetPinOperstate (piOperstate r)).

(** ** dpll.go: decoding

    The loop over the attributes of a message; an unknown attribute is logged. *)

Fixpoint decode {R} (field : R -> Attribute -> option R) (attrs : list Attribute) (r : R) : option R :=
  match attrs with [] => Some r | a :: attrs' => r' ← field r a; decode field attrs' r' end.

Definition decode_bytes {R} (field : R -> Attribute -> option R) (r : R) (b : list Z) : option R :=
  attrs ← NewAttributeDecoder b; decode field attrs r.

Definition decodeSint (a : Attribute) : option Z :=
  if (length (atData a) =? 4)%nat then Some (int32 (le_value (atData a)))
  else if (length (atData a) =? 8)%nat then Some (int64 (le_value (atData a)))
  else None.

Definition device_field (r : DoDeviceGetReply) (a : Attribute) : option DoDeviceGetReply :=
  let type := Type_ a in
  if type =? DpllID then v ← Uint32 a; Some (r <| rpID := v |>)
  else if type =? DpllModuleName then Some (r <| rpModuleName := String_ a |>)
  else if type =? DpllMode then v ← Uint32 a; Some (r <| rpMode := v |>)
  else if type =? DpllModeSupported then v ← Uint32 a; Some (r <| rpModeSupported := rpModeSupported r ++ [v] |>)
  else if type =? DpllLockStatus then v ← Uint32 a; Some (r <| rpLockStatus := v |>)
  else if type =? DpllTemp then v ← Int32 a; Some (r <| rpTemp := v |>)
  else if type =? DpllClockID then v ← Uint64 a; Some (r <| rpClockID := v |>)
  else if type =? DpllType then v ← Uint32 a; Some (r <| rpType := v |>)
  else if type =? DpllLockStatusError then v ← Uint32 a; Some (r <| rpLockStatusError := v |>)
  else if type =? DpllClockQualityLevel then v ← Uint32 a; Some (r <| rpClockQualityLevel := rpClockQualityLevel r ++ [v] |>)
  else if type =? DpllPhaseOffsetMonitor then v ← Uint32 a; Some (r <| rpPhaseOffsetMonitor := v |>)
  else if type =? DpllPhaseOffsetAverageFactor then v ← Uint32 a; Some (r <| rpPhaseOffsetAverageFactor := v |>)
  else if type =? DpllFrequencyMonitor then v ← Uint32 a; Some (r <| rpFrequencyMonitor := v |>)
  else Some r.

Definition ParseDeviceReplies (msgs : list (list Z)) : option (list DoDeviceGetReply) :=
  mapM (decode_bytes device_field empty_reply) msgs.

Definition range_field (r : FrequencyRange) (a : Attribute) : option FrequencyRange :=
  let type := Type_ a in
  if type =? DpllPinFrequencyMin then v ← Uint64 a; Some (r <| FrequencyMin := v |>)
  else if type =? DpllPinFrequencyMax then v ← Uint64 a; Some (r <| FrequencyMax := v |>)
  else Some r.

Definition max_int64 : Z := 2 ^ 63 - 1.

Definition fresh_parent : PinParentDevice := mkParent 0 0 None 0 max_int64 0 0 0.

Definition parent_device_field (p : PinParentDevice) (a : Attribute) : option PinParentDevice :=
  let type := Type_ a in
  if type =? DpllPinParentID then v ← Uint32 a; Some (p <| ppParentID := v |>)
  else if type =? DpllPinDirection then v ← Uint32 a; Some (p <| ppDirection := v |>)
  else if type =? DpllPinPrio then v ← Uint32 a; Some (p <| ppPrio := Some v |>)
  else if type =? DpllPinState then v ← Uint32 a; Some (p <| ppState := v |>)
  else if type =? DpllPinPhaseOffset then v ← Int64 a; Some (p <| ppPhaseOffset := v |>)
  else if type =? DpllPinOperstate then v ← Uint32 a; Some (p <| ppOperstate := v |>)
  else if type =? DpllPinFractionalFrequencyOffset then v ← decodeSint a; Some (p <| ppFractionalFrequencyOffset := v |>)
  else if type =? DpllPinFractionalFrequencyOffsetPPT then v ← decodeSint a; Some (p <| ppFractionalFrequencyOffsetPPT := v |>)
  else Some p.

Definition parent_pin_field (p : PinParentPin) (a : Attribute) : option PinParentPin :=
  let type := Type_ a in
  if type =? DpllPinParentID then v ← Uint32 a; Some (p <| pnParentID := v |>)
  else if type =? DpllPinState then v ← Uint32 a; Some (p <| pnState := v |>)
  else Some p.

Definition ref_sync_field (r : ReferenceSync) (a : Attribute) : option ReferenceSync :=
  if Type_ a =? DpllPinID then v ← Uint32 a; Some (r <| rsID := v |>) else Some r.

Definition nested {R} (field : R -> Attribute -> option R) (r : R) (a : Attribute) : option R := decode_bytes field r (atData a).

Definition pin_field (p : PinInfo) (a : Attribute) : option PinInfo :=
  let type := Type_ a in
  if type =? DpllPinID then v ← Uint32 a; Some (p <| piID := v |>)
  else if type =? DpllPinParentID then v ← Uint32 a; Some (p <| piParentID := v |>)
  else if type =? DpllPinModuleName then Some (p <| piModuleName := String_ a |>)
  else if type =? DpllPinClockID then v ← Uint64 a; Some (p <| piClockID := v |>)
  else if type =? DpllPinBoardLabel then Some (p <| piBoardLabel := String_ a |>)
  else if type =? DpllPinPanelLabel then Some (p <| piPanelLabel := String_ a |>)
  else if type =? DpllPinPackageLabel then Some (p <| piPackageLabel := String_ a |>)
  else if type =? DpllPinType then v ← Uint32 a; Some (p <| piType := v |>)
  else if type =? DpllPinFrequency then v ← Uint64 a; Some (p <| piFrequency := v |>)
  else if type =? DpllPinFrequencySupported then
    v ← nested range_field (mkRange 0 0) a; Some (p <| piFrequencySupported := piFrequencySupported p ++ [v] |>)
  else if type =? DpllPinCapabilities then v ← Uint32 a; Some (p <| piCapabilities := v |>)
  else if type =? DpllPinParentDevice then
    v ← nested parent_device_field fresh_parent a; Some (p <| piParentDevice := piParentDevice p ++ [v] |>)
  else if type =? DpllPinParentPin then
    v ← nested parent_pin_field (mkParentPin 0 0) a; Some (p <| piParentPin := piParentPin p ++ [v] |>)
  else if type =? DpllPinPhaseAdjustMin then v ← Int32 a; Some (p <| piPhaseAdjustMin := v |>)
  else if type =? DpllPinPhaseAdjustMax then v ← Int32 a; Some (p <| piPhaseAdjustMax := v |>)
  else if type =? DpllPinPhaseAdjust then v ← Int32 a; Some (p <| piPhaseAdjust := v |>)
  else if type =? DpllPinPhaseOffset then v ← Int64 a; Some (p <| piPhaseOffset := v |>)
  else if type =? DpllPinFractionalFrequencyOffset then v ← decodeSint a; Some (p <| piFractionalFrequencyOffset := v |>)
  else if type =? DpllPinEsyncFrequency then v ← Int64 a; Some (p <| piEsyncFrequency := v |>)
  else if type =? DpllPinEsyncFrequencySupported then
    v ← nested range_field (mkRange 0 0) a; Some (p <| piEsyncFrequencySupported := piEsyncFrequencySupported p ++ [v] |>)
  else if type =? DpllPinEsyncPulse then v ← Uint32 a; Some (p <| piEsyncPulse := v |>)
  else if type =? DpllPinReferenceSync then
    v ← nested ref_sync_field (mkRefSync 0 0) a; Some (p <| piReferenceSync := piReferenceSync p ++ [v] |>)
  else if type =? DpllPinPhaseAdjustGran then v ← Uint32 a; Some (p <| piPhaseAdjustGran := v |>)
  else if type =? DpllPinFractionalFrequencyOffsetPPT then v ← decodeSint a; Some (p <| piFractionalFrequencyOffsetPPT := v |>)
  else if type =? DpllPinMeasuredFrequency then v ← Uint64 a; Some (p <| piMeasuredFrequency := v |>)
  else if type =? DpllPinOperstate then v ← Uint32 a; Some (p <| piOperstate := v |>)
  else Some p.

Definition ParsePinReplies (msgs : list (list Z)) : option (list PinInfo) := mapM (decode_bytes pin_field empty_pin) msgs.

(** ** dpll.go: requests

    A connection executes a command with a payload and, for a dump, the flag of one. *)

Definition Conn : Type := Z -> list Z -> bool -> option (list (list Z)).

Definition exactly_one {A} (replies : list A) : option A := match replies with [r] => Some r | _ => None end.

Definition DoDeviceIDGet (c : Conn) (clockID type : Z) : option Z :=
  b ← MarshalAttributes ((if clockID =? 0 then [] else [put_uint64 DpllClockID clockID])
                         ++ (if type =? 0 then [] else [put_uint8 DpllType type]));
  msgs ← c DpllCmdDeviceIDGet b false;
  replies ← mapM (decode_bytes (fun id a => if Type_ a =? DpllID then Uint32 a else Some id) 0) msgs;
  exactly_one replies.

Definition DoDeviceGet (c : Conn) (id : Z) : option DoDeviceGetReply :=
  b ← MarshalAttributes (if id =? 0 then [] else [put_uint32 DpllID id]);
  msgs ← c DpllCmdDeviceGet b false;
  replies ← ParseDeviceReplies msgs;
  exactly_one replies.

Definition DumpDeviceGet (c : Conn) : option (list DoDeviceGetReply) := msgs ← c DpllCmdDeviceGet [] true; ParseDeviceReplies msgs.

Definition DoPinGet (c : Conn) (id : Z) : option PinInfo :=
  b ← MarshalAttributes [put_uint32 DpllPinID id];
  msgs ← c DpllCmdPinGet b false;
  replies ← ParsePinReplies msgs;
  exactly_one replies.

Definition DumpPinGet (c : Conn) : option (list PinInfo) := msgs ← c DpllCmdPinGet [] true; ParsePinReplies msgs.

(** The payload [PinPhaseAdjust] sends. *)
Definition PinPhaseAdjust (id phaseAdjust : Z) : option (list Z) :=
  MarshalAttributes [put_uint32 DpllPinID id; put_int32 DpllPinPhaseAdjust phaseAdjust].

Definition GetMcastGroupID (groups : list (string * Z)) (mcGroup : string) : option Z :=
  snd <$> first_match (fun g => str_eqb g.1 mcGroup) groups.

(** ** dpll.go: commands *)

Definition opt_attr (put : Z -> Z -> Attribute) (type : Z) (v : option Z) : list Attribute :=
  match v with Some v => [put type v] | None => [] end.

Definition control_attrs (pp : PinControl) : list Attribute :=
  put_uint32 DpllPinParentID (pcPinParentID pp) :: opt_attr put_uint32 DpllPinState (pcState pp)
    ++ opt_attr put_uint32 DpllPinPrio (pcPrio pp) ++ opt_attr put_uint32 DpllPinDirection (pcDirection pp).

Definition EncodePinControl (req : PinParentDeviceCtl) : option (list Z) :=
  parents ← mapM (fun pp => put_nested DpllPinParentDevice (control_attrs pp)) (parents_of req);
  MarshalAttributes
    (put_uint32 DpllPinID (ctID req) :: opt_attr put_int32 DpllPinPhaseAdjust (ctPhaseAdjust req)
       ++ opt_attr put_uint64 DpllPinEsyncFrequency (ctEsyncFrequency req)
       ++ opt_attr put_uint64 DpllPinFrequency (ctFrequency req) ++ parents).

(** ** dpll-uapi.go: text of the commands *)

Definition opt_text (label : string) (show : Z -> string) (v : option Z) : string :=
  match v with Some v => (label +:+ show v)%string | None => "" end.

(** The names are never empty, so the branches that print a number are never taken. *)
Definition name_or_number (name : Z -> string) (v : Z) : string := if str_eqb (name v) "" then fmt_d v else name v.

Definition control_string (p : PinControl) : string :=
  ("parentID=" +:+ fmt_d (pcPinParentID p) +:+ opt_text " direction=" (name_or_number GetPinDirection) (pcDirection p)
   +:+ opt_text " prio=" fmt_d (pcPrio p) +:+ opt_text " state=" (name_or_number GetPinState) (pcState p))%string.

Definition ctl_string (p : PinParentDeviceCtl) : string :=
  ("PinParentDeviceCtl{id=" +:+ fmt_d (ctID p) +:+ opt_text " frequency=" fmt_d (ctFrequency p)
   +:+ opt_text " phaseAdjust=" fmt_d (ctPhaseAdjust p) +:+ opt_text " esyncFrequency=" fmt_d (ctEsyncFrequency p)
   +:+ (match parents_of p with [] => "" | l => " pinParent=[" +:+ join ", " (map control_string l) +:+ "]" end) +:+ "}")%string.

(** ** pin_table.go *)

Definition isLockedState (lockStatus : Z) : bool := (lockStatus =? DpllLockStatusLocked) || (lockStatus =? DpllLockStatusLockedHoldoverAcquired).
Definition isEnabledParent (pd : PinParentDevice) : bool := (ppState pd =? PinStateSelectable) || (ppState pd =? PinStateConnected).
Definition isActiveParent (pd : PinParentDevice) : bool := (ppState pd =? PinStateConnected) || (ppOperstate pd =? PinOperstateActive).

Record pinRow := mkRow { rwId : Z; rwBoardLabel : string; rwPackageLabel : string; rwPrio : string; rwAdmin : string; rwOper : string }.

Definition columns (r : pinRow) : list string := [fmt_d (rwId r); rwBoardLabel r; rwPackageLabel r; rwPrio r; rwAdmin r; rwOper r].
Definition pinRowsToColumns (rows : list pinRow) : list (list string) := map columns rows.

Definition prio_text (p : option Z) : string := match p with Some v => fmt_d v | None => "n/a" end.

(** The rows [LogPins] prints: one for each parent of each pin. *)
Definition LogPins (pins : list PinInfo) : list (list string) :=
  pins ≫= fun pin => map (fun pd => [fmt_d (piID pin); piBoardLabel pin; piPackageLabel pin; GetPinDirection (ppDirection pd);
                                     prio_text (ppPrio pd); GetPinState (ppState pd); GetPinOperstate (ppOperstate pd)]) (piParentDevice pin).

Definition row_wanted (deviceID lockStatus : Z) (pd : PinParentDevice) : bool :=
  (ppParentID pd =? deviceID) && (ppDirection pd =? PinDirectionInput)
  && (if isLockedState lockStatus then isActiveParent pd else isEnabledParent pd).

Definition pin_row (pin : PinInfo) (pd : PinParentDevice) : pinRow :=
  mkRow (piID pin) (piBoardLabel pin) (piPackageLabel pin) (prio_text (ppPrio pd)) (GetPinState (ppState pd)) (GetPinOperstate (ppOperstate pd)).

Definition buildPinRows (pins : list PinInfo) (clockID deviceID lockStatus : Z) : list pinRow :=
  omap (fun pin => if piClockID pin =? clockID then pin_row pin <$> first_match (row_wanted deviceID lockStatus) (piParentDevice pin)
                   else None) pins.

(** ** Lemmas *)

Lemma decode_app {R} (field : R -> Attribute -> option R) l l' r :
  decode field (l ++ l') r = r' ← decode field l r; decode field l' r'.
Proof. revert r. induction l as [|a l IH]; intros r; cbn; [done|]. destruct (field r a); cbn; [apply IH|done]. Qed.

Definition u32 (v : Z) : Prop := 0 <= v < 2 ^ 32.
Definition u64 (v : Z) : Prop := 0 <= v < 2 ^ 64.
Definition i32 (v : Z) : Prop := - 2 ^ 31 <= v < 2 ^ 31.
Definition opt_in (P : Z -> Prop) (v : option Z) : Prop := match v with Some v => P v | None => True end.

Lemma small_put_uint32 type v : 0 <= type < 65536 -> small (put_uint32 type v).
Proof. apply small_put. lia. Qed.
Lemma small_put_uint64 type v : 0 <= type < 65536 -> small (put_uint64 type v).
Proof. apply small_put. lia. Qed.

Lemma small_opt_attr put type v : (forall v, small (put type v)) -> Forall small (opt_attr put type v).
Proof. intros H. destruct v; cbn; auto. Qed.

Lemma Uint32_put type v : u32 v -> Uint32 (put_uint32 type v) = Some v.
Proof. intros H. unfold Uint32, put_uint32. rewrite Uint_put. cbn. f_equal. by apply Z.mod_small. Qed.
Lemma Uint64_put type v : u64 v -> Uint64 (put_uint64 type v) = Some v.
Proof. intros H. unfold Uint64, put_uint64. rewrite Uint_put. cbn. f_equal. by apply Z.mod_small. Qed.
Lemma Int32_put type v : i32 v -> Int32 (put_int32 type v) = Some v.
Proof. intros H. unfold Int32, Uint32, put_int32, put_uint32. rewrite Uint_put. cbn. f_equal. by apply int32_of_uint32. Qed.
Lemma Int64_put type v : u64 v -> Int64 (put_uint64 type v) = Some (int64 v).
Proof. intros H. unfold Int64. by rewrite Uint64_put. Qed.

(** ** What a command says, as the pin it would be read back as *)

Definition wf_control (pp : PinControl) : Prop :=
  u32 (pcPinParentID pp) /\ opt_in u32 (pcDirection pp) /\ opt_in u32 (pcPrio pp) /\ opt_in u32 (pcState pp).

Definition wf_ctl (c : PinParentDeviceCtl) : Prop :=
  u32 (ctID c) /\ opt_in u64 (ctFrequency c) /\ opt_in i32 (ctPhaseAdjust c) /\ opt_in u64 (ctEsyncFrequency c)
  /\ Forall wf_control (parents_of c).

Definition parent_of (pp : PinControl) : PinParentDevice :=
  mkParent (pcPinParentID pp) (default 0 (pcDirection pp)) (pcPrio pp) (default 0 (pcState pp)) max_int64 0 0 0.

Definition pin_of (c : PinParentDeviceCtl) : PinInfo :=
  empty_pin <| piID := ctID c |> <| piPhaseAdjust := default 0 (ctPhaseAdjust c) |>
    <| piEsyncFrequency := int64 (default 0 (ctEsyncFrequency c)) |> <| piFrequency := default 0 (ctFrequency c) |>
    <| piParentDevice := map parent_of (parents_of c) |>.

Lemma control_small pp : Forall small (control_attrs pp).
Proof.
  unfold control_attrs. constructor; [by apply small_put_uint32|].
  rewrite !Forall_app. split_and!; apply small_opt_attr; intros; by apply small_put_uint32.
Qed.

(** A field sees the number that was written. *)
Lemma parent_id_field p v : u32 v -> parent_device_field p (put_uint32 DpllPinParentID v) = Some (p <| ppParentID := v |>).
Proof. intros H. change (Uint32 (put_uint32 DpllPinParentID v) ≫= (fun v => Some (p <| ppParentID := v |>)) = Some (p <| ppParentID := v |>)). by rewrite Uint32_put. Qed.
Lemma parent_state_field p v : u32 v -> parent_device_field p (put_uint32 DpllPinState v) = Some (p <| ppState := v |>).
Proof. intros H. change (Uint32 (put_uint32 DpllPinState v) ≫= (fun v => Some (p <| ppState := v |>)) = Some (p <| ppState := v |>)). by rewrite Uint32_put. Qed.
Lemma parent_prio_field p v : u32 v -> parent_device_field p (put_uint32 DpllPinPrio v) = Some (p <| ppPrio := Some v |>).
Proof. intros H. change (Uint32 (put_uint32 DpllPinPrio v) ≫= (fun v => Some (p <| ppPrio := Some v |>)) = Some (p <| ppPrio := Some v |>)). by rewrite Uint32_put. Qed.
Lemma parent_direction_field p v : u32 v -> parent_device_field p (put_uint32 DpllPinDirection v) = Some (p <| ppDirection := v |>).
Proof. intros H. change (Uint32 (put_uint32 DpllPinDirection v) ≫= (fun v => Some (p <| ppDirection := v |>)) = Some (p <| ppDirection := v |>)). by rewrite Uint32_put. Qed.

Lemma control_decoded pp : wf_control pp -> decode parent_device_field (control_attrs pp) fresh_parent = Some (parent_of pp).
Proof.
  destruct pp as [id dir prio state]. intros (Hid & Hd & Hp & Hs). unfold control_attrs. cbn [pcPinParentID pcDirection pcPrio pcState] in *.
  destruct state as [s|], prio as [p|], dir as [d|]; cbn [opt_attr app decode opt_in] in *;
    rewrite ?parent_id_field, ?parent_state_field, ?parent_prio_field, ?parent_direction_field by done; cbn [mbind option_bind];
    repeat (rewrite ?parent_state_field, ?parent_prio_field, ?parent_direction_field by done; cbn [mbind option_bind]); done.
Qed.

Lemma length_concat_bytes l :
  Forall (fun a => length (atData a) <= 16)%nat l -> (length (concat (map bytes_of l)) <= 24 * length l)%nat.
Proof.
  induction 1 as [|a l Ha _ IH]; cbn [map concat length]; [lia|]. rewrite length_app. pose proof (proj2 (length_bytes_of a) Ha). lia.
Qed.

Lemma control_short pp : Forall (fun a => length (atData a) <= 16)%nat (control_attrs pp) /\ (length (control_attrs pp) <= 4)%nat.
Proof. destruct pp as [id [d|] [p|] [s|]]; split; repeat constructor. Qed.

(** The attribute a parent is sent in, and how it is read. *)
Definition parent_attr (pp : PinControl) : Attribute :=
  mkAttribute (Z.lor Nested DpllPinParentDevice) (concat (map bytes_of (control_attrs pp))).

Lemma put_parent pp : put_nested DpllPinParentDevice (control_attrs pp) = Some (parent_attr pp) /\ small (parent_attr pp).
Proof.
  pose proof (control_short pp) as [Hs Hl]. pose proof (length_concat_bytes _ Hs) as Hb.
  unfold put_nested. rewrite (MarshalAttributes_small _ (control_small pp)). cbn [mbind option_bind].
  split; [destruct (Z.ltb_spec max_data (Z.of_nat (length (concat (map bytes_of (control_attrs pp)))))); [unfold max_data in *; lia|done]|].
  unfold small, parent_attr. cbn [atData atType]. split; [unfold max_data; lia|]. done.
Qed.

Lemma parent_attr_field p pp : wf_control pp ->
  pin_field p (parent_attr pp) = Some (p <| piParentDevice := piParentDevice p ++ [parent_of pp] |>).
Proof.
  intros H.
  change (nested parent_device_field fresh_parent (parent_attr pp) ≫= (fun v => Some (p <| piParentDevice := piParentDevice p ++ [v] |>))
          = Some (p <| piParentDevice := piParentDevice p ++ [parent_of pp] |>)).
  unfold nested, decode_bytes, parent_attr. cbn [atData].
  rewrite (decode_encode (control_attrs pp) _ (control_small pp) (MarshalAttributes_small _ (control_small pp))). cbn [mbind option_bind].
  by rewrite (control_decoded pp H).
Qed.

Lemma parents_decoded l : Forall wf_control l -> forall p,
  decode pin_field (map parent_attr l) p = Some (p <| piParentDevice := piParentDevice p ++ map parent_of l |>).
Proof.
  induction 1 as [|pp l Hp _ IH]; intros p; cbn [map decode]; [destruct p; cbn; by rewrite app_nil_r|].
  rewrite (parent_attr_field p pp Hp). cbn [mbind option_bind]. rewrite IH. cbn. by rewrite <- app_assoc.
Qed.

Lemma encode_parents l : mapM (fun pp => put_nested DpllPinParentDevice (control_attrs pp)) l = Some (map parent_attr l).
Proof. induction l as [|pp l IH]; cbn [mapM map]; [done|]. by rewrite (proj1 (put_parent pp)), IH. Qed.

(** The attributes of the pin itself. *)
Definition ctl_attrs (c : PinParentDeviceCtl) : list Attribute :=
  put_uint32 DpllPinID (ctID c) :: opt_attr put_int32 DpllPinPhaseAdjust (ctPhaseAdjust c)
    ++ opt_attr put_uint64 DpllPinEsyncFrequency (ctEsyncFrequency c) ++ opt_attr put_uint64 DpllPinFrequency (ctFrequency c).

Lemma pin_id_field p v : u32 v -> pin_field p (put_uint32 DpllPinID v) = Some (p <| piID := v |>).
Proof. intros H. change (Uint32 (put_uint32 DpllPinID v) ≫= (fun v => Some (p <| piID := v |>)) = Some (p <| piID := v |>)). by rewrite Uint32_put. Qed.
Lemma pin_phase_field p v : i32 v -> pin_field p (put_int32 DpllPinPhaseAdjust v) = Some (p <| piPhaseAdjust := v |>).
Proof. intros H. change (Int32 (put_int32 DpllPinPhaseAdjust v) ≫= (fun v => Some (p <| piPhaseAdjust := v |>)) = Some (p <| piPhaseAdjust := v |>)). by rewrite Int32_put. Qed.
Lemma pin_esync_field p v : u64 v -> pin_field p (put_uint64 DpllPinEsyncFrequency v) = Some (p <| piEsyncFrequency := int64 v |>).
Proof.
  intros H. change (Int64 (put_uint64 DpllPinEsyncFrequency v) ≫= (fun v => Some (p <| piEsyncFrequency := v |>)) = Some (p <| piEsyncFrequency := int64 v |>)).
  by rewrite Int64_put.
Qed.
Lemma pin_frequency_field p v : u64 v -> pin_field p (put_uint64 DpllPinFrequency v) = Some (p <| piFrequency := v |>).
Proof. intros H. change (Uint64 (put_uint64 DpllPinFrequency v) ≫= (fun v => Some (p <| piFrequency := v |>)) = Some (p <| piFrequency := v |>)). by rewrite Uint64_put. Qed.

Lemma ctl_attrs_decoded c : wf_ctl c ->
  decode pin_field (ctl_attrs c) empty_pin = Some ((pin_of c) <| piParentDevice := [] |>).
Proof.
  destruct c as [id f ph es ps]. intros (Hid & Hf & Hph & Hes & _). unfold ctl_attrs. cbn [ctID ctFrequency ctPhaseAdjust ctEsyncFrequency] in *.
  destruct ph as [v|], es as [w|], f as [x|]; cbn [opt_attr app decode opt_in] in *;
    rewrite ?pin_id_field by done; cbn [mbind option_bind];
    repeat (rewrite ?pin_phase_field, ?pin_esync_field, ?pin_frequency_field by done; cbn [mbind option_bind]); done.
Qed.

Lemma ctl_attrs_small c : Forall small (ctl_attrs c).
Proof.
  unfold ctl_attrs. constructor; [by apply small_put_uint32|].
  rewrite !Forall_app. split_and!; apply small_opt_attr; intros; (by apply small_put_uint32) || by apply small_put_uint64.
Qed.

(** C13. Round trip of pin commands.  Encoding a command never fails, and what the kernel is
    sent, read by the decoder of pin replies, has the identifier, frequency, embedded
    frequency and phase adjustment of the command and exactly its parents, in order, each
    with the direction, priority and state it sets and nothing it does not. *)
Theorem pin_command_roundtrip (c : PinParentDeviceCtl) (Hwf : wf_ctl c) :
  exists b, EncodePinControl c = Some b /\ ParsePinReplies [b] = Some [pin_of c].
Proof.
  pose proof Hwf as (_ & _ & _ & _ & Hp).
  assert (Forall small (ctl_attrs c ++ map parent_attr (parents_of c))) as Hs.
  { apply Forall_app; split; [apply ctl_attrs_small|]. apply Forall_map, Forall_forall. intros pp _. apply put_parent. }
  exists (concat (map bytes_of (ctl_attrs c ++ map parent_attr (parents_of c)))).
  assert (EncodePinControl c = MarshalAttributes (ctl_attrs c ++ map parent_attr (parents_of c))) as ->.
  { unfold EncodePinControl, ctl_attrs. rewrite encode_parents. cbn [mbind option_bind app]. by rewrite <- !app_assoc. }
  rewrite (MarshalAttributes_small _ Hs). split; [done|].
  unfold ParsePinReplies, decode_bytes. cbn [mapM].
  rewrite (decode_encode _ _ Hs (MarshalAttributes_small _ Hs)). cbn [mbind option_bind].
  rewrite decode_app, (ctl_attrs_decoded c Hwf). cbn [mbind option_bind]. by rewrite (parents_decoded _ Hp).
Qed.

Definition sample_ctl : PinParentDeviceCtl :=
  mkCtl 13 (Some 10000000) (Some (-7658)) (Some 1) (Some [mkControl 0 None (Some 5) (Some 3); mkControl 1 (Some 1) None None]).

Theorem pin_command_roundtrip_witness :
  wf_ctl sample_ctl /\ exists b, EncodePinControl sample_ctl = Some b /\ ParsePinReplies [b] = Some [pin_of sample_ctl].
Proof.
  assert (wf_ctl sample_ctl) as H.
  { unfold wf_ctl, sample_ctl, parents_of. cbn. unfold u32, u64, i32. split_and!; try lia.
    apply Forall_cons. split; [|apply Forall_cons; split; [|apply Forall_nil]]; unfold wf_control, u32; cbn; lia. }
  split; [exact H|]. exact (pin_command_roundtrip sample_ctl H).
Defined.

(** The kernel writes a signed number in four bytes when it fits. *)
Lemma decodeSint_short type v : i32 v -> decodeSint (put_int32 type v) = Some v.
Proof.
  intros H. unfold decodeSint, put_int32, put_uint32, put_uint. cbn [atData]. rewrite length_le_bytes, le_value_bytes. cbn [Nat.eqb].
  f_equal. by apply int32_of_uint32.
Qed.

(** A state, direction or type printed and parsed again is the same. *)
Lemma names_parsed v : (1 <= v <= 3 -> ParsePinState (GetPinState v) = v) /\ (1 <= v <= 2 -> ParsePinDirection (GetPinDirection v) = v)
  /\ (1 <= v <= 5 -> ParsePinType (GetPinType v) = v).
Proof.
  split_and!; intros H.
  - assert (v = 1 \/ v = 2 \/ v = 3) as [-> | [-> | ->]] by lia; reflexivity.
  - assert (v = 1 \/ v = 2) as [-> | ->] by lia; reflexivity.
  - assert (v = 1 \/ v = 2 \/ v = 3 \/ v = 4 \/ v = 5) as [-> | [-> | [-> | [-> | ->]]]] by lia; reflexivity.
Qed.

(** The pin table has at most one row for a pin; the pin belongs to the clock, and the row is
    that of an input of the device, the active one once the device is locked. *)
Lemma pin_rows_relevant pins clockID deviceID lockStatus row : row ∈ buildPinRows pins clockID deviceID lockStatus ->
  exists pin pd, pin ∈ pins /\ pd ∈ piParentDevice pin /\ row = pin_row pin pd /\ piClockID pin = clockID /\ ppParentID pd = deviceID
    /\ ppDirection pd = PinDirectionInput /\ (isLockedState lockStatus = true -> isActiveParent pd = true).
Proof.
  unfold buildPinRows. rewrite list_elem_of_omap. intros (pin & Hin & He). case_match eqn:Ec; [|done].
  destruct (first_match _ _) as [pd|] eqn:Ef; cbn in He; [|done]. injection He as <-.
  apply first_match_Some in Ef as [Hw Hpd]. unfold row_wanted in Hw. rewrite !andb_true_iff in Hw. destruct Hw as [[? ?] Hl].
  exists pin, pd. split_and!; [done|done|done|lia|lia|lia|]. intros E. by rewrite E in Hl.
Qed.

(** An unknown direction or state is printed by its name too: the numbers are never shown. *)
Lemma numbers_never_shown v : name_or_number GetPinState v = GetPinState v /\ name_or_number GetPinDirection v = GetPinDirection v.
Proof.
  assert (forall table, Forall (fun e : Z * string => e.2 <> ""%string) table ->
            name_or_number (fun v => default unknownStr (name_in table v)) v = default unknownStr (name_in table v)) as H.
  { intros table Ht. unfold name_or_number, str_eqb. case_bool_decide as E; [|done]. unfold name_in in *.
    destruct (first_match _ table) as [e|] eqn:Ef; cbn in *; [|done].
    apply first_match_Some in Ef as [_ Hin]. rewrite Forall_forall in Ht. by destruct (Ht e Hin). }
  split; apply H; repeat constructor; done.
Qed.

End Netlink.
