(* ===== verification/HwTypes.v ===== *)
(** * The hardware configuration of a node

    The HardwareConfig resource (package api/v2alpha1 of ptp-operator) and the vendor
    definitions of pkg/hardwareconfig/vendor_loader.go.  Go maps are finite maps; a nil map
    behaves as an empty one in all the code modelled here.  Descriptions that are only
    logged, and the reference-sync definitions, which nothing reads, are left out. *)

From S2P Require Import Prelude.

Module Hw.

(** ** The clock chain *)

Record HoldoverParameters := mkHoldover { MaxInSpecOffset : Z; LocalMaxHoldoverOffset : Z; LocalHoldoverTimeout : Z }.

#[export] Instance HoldoverParameters_fields : Fields HoldoverParameters := fun h =>
  mkHoldover (MaxInSpecOffset h) (LocalMaxHoldoverOffset h) (LocalHoldoverTimeout h).

Record PinConfig := mkPinConfig {
  Connector : string; PhaseAdjustment : option Z; Frequency : option Z; ESyncConfigName : string; pcDescription : string
}.

#[export] Instance PinConfig_fields : Fields PinConfig := fun p =>
  mkPinConfig (Connector p) (PhaseAdjustment p) (Frequency p) (ESyncConfigName p) (pcDescription p).

Definition no_pin_config : PinConfig := mkPinConfig "" None None "" "".

Record DPLL := mkDPLL {
  NetworkInterface : string;
  dpHoldoverParameters : option HoldoverParameters;
  PhaseInputs : gmap string PinConfig;
  PhaseOutputs : gmap string PinConfig;
  FrequencyInputs : gmap string PinConfig;
  FrequencyOutputs : gmap string PinConfig
}.

#[export] Instance DPLL_fields : Fields DPLL := fun d =>
  mkDPLL (NetworkInterface d) (dpHoldoverParameters d) (PhaseInputs d) (PhaseOutputs d) (FrequencyInputs d) (FrequencyOutputs d).

(** [Ethernet] is the list of the ports of each entry. *)
Record Subsystem := mkSubsystem {
  sbName : string; HardwareSpecificDefinitions : string; sbDPLL : DPLL; Ethernet : list (list string)
}.

#[export] Instance Subsystem_fields : Fields Subsystem := fun s =>
  mkSubsystem (sbName s) (HardwareSpecificDefinitions s) (sbDPLL s) (Ethernet s).

Record ESyncDefinition := mkESync { esName : string; TransferFrequency : Z; EmbeddedSyncFrequency : Z; DutyCyclePct : Z }.

Record PinState := mkPinState { psPriority : option Z; psState : string }.

Record DPLLDesiredState := mkDPLLDesired { ddSubsystem : string; ddBoardLabel : string; ddEEC : option PinState; ddPPS : option PinState }.

#[export] Instance DPLLDesiredState_fields : Fields DPLLDesiredState := fun d =>
  mkDPLLDesired (ddSubsystem d) (ddBoardLabel d) (ddEEC d) (ddPPS d).

Record PTPTimeSpec := mkTimeSpec { Sec : Z; Nsec : Z }.

Record PTPPinDesiredState := mkPTPPin { ppName : string; ppFunc : Z; ppChan : Z; ppSourceName : string }.

Record PTPPeriodDesiredState := mkPTPPeriod { peIndex : Z; peStart : option PTPTimeSpec; pePeriod : option PTPTimeSpec; peSourceName : string }.

Record DesiredState := mkDesired { dsDPLL : option DPLLDesiredState; dsPTPPin : option PTPPinDesiredState; dsPTPPeriod : option PTPPeriodDesiredState }.

#[export] Instance DesiredState_fields : Fields DesiredState := fun d => mkDesired (dsDPLL d) (dsPTPPin d) (dsPTPPeriod d).

Record SourceState := mkSourceState { ssSourceName : string; ssConditionType : string }.

Record Condition := mkCondition { cdName : string; cdTriggers : list SourceState; cdDesiredStates : list DesiredState }.

#[export] Instance Condition_fields : Fields Condition := fun c => mkCondition (cdName c) (cdTriggers c) (cdDesiredStates c).

(** ** Sources *)

Record EthernetDevice := mkEthernetDevice {
  edName : string; edPCIAddress : string; edPermanentMACAddress : string; edSlot : string; edVendorID : string; edDeviceID : string
}.

Record USBDevice := mkUSB { usbVendor : string; usbProduct : string; usbPath : string }.
Record ACPIDevice := mkACPI { acHID : string; acUID : string }.

(** [SerialDevice] is a pointer to a record of one pointer. *)
Record GNSSMatcher := mkMatcher {
  gmTTYDevice : string; gmSerialDevice : option (option ACPIDevice); gmEthernetDevice : option EthernetDevice; gmUSBDevice : option USBDevice
}.

#[export] Instance GNSSMatcher_fields : Fields GNSSMatcher := fun m =>
  mkMatcher (gmTTYDevice m) (gmSerialDevice m) (gmEthernetDevice m) (gmUSBDevice m).

Record GNSSInit := mkGNSSInit {
  giAntennaVoltage : bool; giConstellations : list string; giObservationTime : Z; giAccuracy : Z; giExtraCommands : list (list string * bool)
}.

Record GNSSConfig := mkGNSS { gcInit : GNSSInit; gcMatch : option GNSSMatcher }.

#[export] Instance GNSSConfig_fields : Fields GNSSConfig := fun g => mkGNSS (gcInit g) (gcMatch g).

Definition SourceTypePTP : string := "ptpTimeReceiver".
Definition SourceTypeGNSS : string := "gnss".
Definition SourceTypeDPLL : string := "dpllPhaseLocked".

Record SourceConfig := mkSource {
  srName : string; srSubsystem : string; srSourceType : string; srBoardLabel : string;
  PTPTimeReceivers : list string; srGNSSConfig : option GNSSConfig
}.

#[export] Instance SourceConfig_fields : Fields SourceConfig := fun s =>
  mkSource (srName s) (srSubsystem s) (srSourceType s) (srBoardLabel s) (PTPTimeReceivers s) (srGNSSConfig s).

Record Behavior := mkBehavior { Sources : list SourceConfig; Conditions : list Condition }.

#[export] Instance Behavior_fields : Fields Behavior := fun b => mkBehavior (Sources b) (Conditions b).

(** ** The resource *)

Record ClockChain := mkChain {
  CommonDefinitions : option (list ESyncDefinition); Structure_ : list Subsystem; ccBehavior : option Behavior
}.

#[export] Instance ClockChain_fields : Fields ClockChain := fun c => mkChain (CommonDefinitions c) (Structure_ c) (ccBehavior c).

Record HardwareProfile := mkHwProfile { hpName : option string; ClockType : option string; hpClockChain : option ClockChain }.

#[export] Instance HardwareProfile_fields : Fields HardwareProfile := fun p => mkHwProfile (hpName p) (ClockType p) (hpClockChain p).

Record GNSSStatus := mkStatus { stTTYDevice : string; stMatchResult : string }.

Record SourceStatus := mkSourceStatus { ssName : string; ssGnss : option GNSSStatus }.

Record HardwareConfig := mkConfig {
  hwName : string; hwProfile : HardwareProfile; RelatedPtpProfileName : string; StatusSources : list SourceStatus
}.

#[export] Instance HardwareConfig_fields : Fields HardwareConfig := fun h =>
  mkConfig (hwName h) (hwProfile h) (RelatedPtpProfileName h) (StatusSources h).

#[export] Instance GNSSStatus_dec : EqDecision GNSSStatus.
Proof. solve_decision. Defined.

(** ** Vendor definitions *)

Record PinDefaultEntry := mkEntry { pePriority : option Z; peState : string }.
Record PinDefault := mkPinDefault { pdEEC : option PinDefaultEntry; pdPPS : option PinDefaultEntry }.

Record ConnectorCommand := mkConnectorCommand { ccType : string; ccPath : string; ccValue : string; ccDescription : string }.

(** A map of actions may be nil, and is then told from an empty one. *)
Record ConnectorCommands := mkConnectorCommands {
  ccOutputs : option (gmap string (list ConnectorCommand));
  ccInputs : option (gmap string (list ConnectorCommand));
  ccDisable : option (gmap string (list ConnectorCommand))
}.

Record PinESyncCommand := mkESyncCommand { ecType : string; ecArguments : list string; ecPinParentDevices : list (string * string) }.
Record PinESyncCommands := mkESyncCommands { ecOutputs : list PinESyncCommand; ecInputs : list PinESyncCommand }.

Record CompensationPoint := mkPoint { cpName : string; cpType : string }.
#[export] Instance CompensationPoint_fields : Fields CompensationPoint := fun p => mkPoint (cpName p) (cpType p).
Record Component := mkComponent { cmID : string; cmCompensationPoint : option CompensationPoint }.
#[export] Instance Component_fields : Fields Component := fun c => mkComponent (cmID c) (cmCompensationPoint c).

(** [cnGetter] is the path of the FSRead getter, when there is one. *)
Record Connection := mkConnection { cnFrom : string; cnTo : string; cnGetter : option string; cnDelayPs : Z }.
Record Route := mkRoute { rtName : string; rtSequence : list string; rtCompensator : string }.
Record DelayCompensationModel := mkModel { Components : list Component; Connections : list Connection; Routes : list Route }.
#[export] Instance DelayCompensationModel_fields : Fields DelayCompensationModel := fun m => mkModel (Components m) (Connections m) (Routes m).

(** [ClockIDTransformation] is its method; the internal delays are read by nothing here. *)
Record HardwareDefaults := mkDefaults {
  ClockIDTransformation : option string;
  PinDefaults : gmap string PinDefault;
  hdConnectorCommands : option ConnectorCommands;
  PinEsyncCommands : option PinESyncCommands;
  DelayCompensation : option DelayCompensationModel;
  DPLLFlags : list string
}.
#[export] Instance HardwareDefaults_fields : Fields HardwareDefaults := fun h =>
  mkDefaults (ClockIDTransformation h) (PinDefaults h) (hdConnectorCommands h) (PinEsyncCommands h) (DelayCompensation h) (DPLLFlags h).

Definition no_defaults : HardwareDefaults := mkDefaults None ∅ None None None [].

Record BehaviorProfileTemplate := mkTemplate { PinRoles : gmap string string; tpSources : list SourceConfig; tpConditions : list Condition }.
#[export] Instance BehaviorProfileTemplate_fields : Fields BehaviorProfileTemplate := fun t =>
  mkTemplate (PinRoles t) (tpSources t) (tpConditions t).

(** ** Outcomes and the order of maps

    A call returns a value, fails with an error (whose text is not modelled), or panics. *)

Inductive outcome (A : Type) := Ok (a : A) | Err | Panic.
Arguments Ok {A}.
Arguments Err {A}.
Arguments Panic {A}.

Definition obind {A B} (o : outcome A) (k : A -> outcome B) : outcome B :=
  match o with Ok a => k a | Err => Err | Panic => Panic end.

Definition returned {A} (o : outcome A) : option A := match o with Ok a => Some a | _ => None end.

(** Dereferencing a pointer. *)
Definition deref {A} (p : option A) : outcome A := match p with Some a => Ok a | None => Panic end.
(** A failure reported as an error. *)
Definition or_err {A} (p : option A) : outcome A := match p with Some a => Ok a | None => Err end.

Declare Scope outcome_scope.
Delimit Scope outcome_scope with out.
Notation "x <-! e ; k" := (obind e (fun x => k)) (at level 100, e at next level, k at level 200, right associativity) : outcome_scope.
Notation "' p <-! e ; k" := (obind e (fun p => k)) (at level 100, p strict pattern, e at next level, k at level 200, right associativity) : outcome_scope.

Fixpoint omapM {A B} (f : A -> outcome B) (l : list A) : outcome (list B) :=
  match l with [] => Ok [] | x :: l' => obind (f x) (fun y => obind (omapM f l') (fun ys => Ok (y :: ys))) end.

(** Go ranges over a map in an order of its own. *)
Class MapOrder := {
  range : forall {K A : Type} `{Countable K}, gmap K A -> list (K * A);
  range_perm : forall {K A : Type} `{Countable K} (m : gmap K A), range m ≡ₚ map_to_list m
}.

#[export, refine] Instance some_order : MapOrder := {| range K A _ _ m := map_to_list m |}.
Proof. done. Defined.

Lemma elem_of_range `{MapOrder} {K A : Type} `{Countable K} (m : gmap K A) k x : (k, x) ∈ range m <-> m !! k = Some x.
Proof. rewrite range_perm. apply elem_of_map_to_list. Qed.

Lemma NoDup_range `{MapOrder} {K A : Type} `{Countable K} (m : gmap K A) : NoDup (range m).*1.
Proof. rewrite range_perm. apply NoDup_fst_map_to_list. Qed.

(** ** The last one stands *)

(** A new value if there is one, the old one otherwise. *)
Definition over {A} (new old : option A) : option A := match new with Some _ => new | None => old end.

(** The last value that is given, starting from an older one. *)
Definition last_from {A B} (f : A -> option B) (old : option B) (l : list A) : option B := foldl (fun o x => over (f x) o) old l.
Definition last_some {A B} (f : A -> option B) (l : list A) : option B := last_from f None l.

Lemma last_some_snoc {A B} (f : A -> option B) l x : last_some f (l ++ [x]) = over (f x) (last_some f l).
Proof. unfold last_some, last_from. by rewrite foldl_snoc. Qed.

Lemma last_some_app {A B} (f : A -> option B) l l' : last_some f (l ++ l') = last_from f (last_some f l) l'.
Proof. unfold last_some, last_from. by rewrite foldl_app. Qed.

(** The last element that satisfies the test. *)
Definition last_match {A} (p : A -> bool) (l : list A) : option A := first_match p (rev l).

Lemma last_match_snoc {A} (p : A -> bool) l x : last_match p (l ++ [x]) = if p x then Some x else last_match p l.
Proof. unfold last_match. rewrite rev_app_distr. cbn. by destruct (p x). Qed.

(** ** The interface of a subsystem *)

(** [subsystem.Ethernet[0].Ports[0]], when there is one. *)
Definition first_port (s : Subsystem) : string := match Ethernet s with (p :: _) :: _ => p | _ => "" end.

(** The interface of the DPLL, or else the first port: every use of a subsystem does this. *)
Definition subsystem_interface (s : Subsystem) : string :=
  if str_eqb (NetworkInterface (sbDPLL s)) "" then first_port s else NetworkInterface (sbDPLL s).

Definition find_subsystem (c : ClockChain) (name : string) : option Subsystem := first_match (fun s => str_eqb (sbName s) name) (Structure_ c).

Definition GetSubsystemNetworkInterface (c : ClockChain) (name : string) : option string :=
  s ← find_subsystem c name; let i := subsystem_interface s in if str_eqb i "" then None else Some i.

End Hw.
