(* ===== verification/PinCmd.v ===== *)
(** * pkg/hardwareconfig: commands for DPLL pins

    The cache of pins of utils.go, and from hardwareconfig.go the commands that set
    priorities, states, frequencies and phase adjustments of pins, with the merge of
    commands for the same pin.  The clock of a subsystem is an argument here; how it is
    found is in ClockID.  In [mergePinCommandsByID] pointers into a slice are kept while it
    is appended to, so a slice is its elements with its capacity, and a pointer remembers
    which array it points into. *)

From S2P Require Import Prelude Strconv Ublox Netlink HwTypes.

#[local] Open Scope Z_scope.

Module PinCmd.

Import Netlink Hw.

(** ** utils.go: the cache of pins *)

Record PinCache := mkCache {
  BoardLabelPins : gmap Z (gmap string PinInfo);
  PackageLabelPins : gmap Z (gmap string PinInfo);
  parentDeviceTypes : option (gmap Z Z)
}.

Definition ParentDeviceType (pc : PinCache) (parentID : Z) : option Z := m ← parentDeviceTypes pc; m !! parentID.

Definition device_types (devices : list DoDeviceGetReply) : gmap Z Z :=
  foldl (fun m d => <[rpID d := rpType d]> m) ∅ devices.

Definition add_label (clockID : Z) (label : string) (pin : PinInfo) (m : gmap Z (gmap string PinInfo)) : gmap Z (gmap string PinInfo) :=
  if str_eqb label "" then m else <[clockID := <[label := pin]> (default ∅ (m !! clockID))]> m.

Definition add_pin (pc : PinCache) (pin : PinInfo) : PinCache :=
  mkCache (add_label (piClockID pin) (piBoardLabel pin) pin (BoardLabelPins pc))
    (add_label (piClockID pin) (piPackageLabel pin) pin (PackageLabelPins pc)) (parentDeviceTypes pc).

Definition buildPinCacheFromPins (pins : list PinInfo) (devices : list DoDeviceGetReply) : PinCache :=
  foldl add_pin (mkCache ∅ ∅ (match devices with [] => None | _ => Some (device_types devices) end)) pins.

(** [getRealDpllPins] over a connection. *)
Definition getRealDpllPins (conn : option Conn) : option PinCache :=
  c ← conn; pins ← DumpPinGet c; devices ← DumpDeviceGet c; Some (buildPinCacheFromPins pins devices).

Definition Count (pc : PinCache) : nat := sum_list (map (fun e => size e.2) (map_to_list (BoardLabelPins pc))).

Definition label_in (m : gmap Z (gmap string PinInfo)) (clockID : Z) (label : string) : option PinInfo := pins ← m !! clockID; pins !! label.

Definition GetPin (pc : PinCache) (clockID : Z) (label : string) : option PinInfo :=
  match label_in (BoardLabelPins pc) clockID label with
  | Some pin => Some pin
  | None => label_in (PackageLabelPins pc) clockID label
  end.

Definition GetPinStateUint32 (s : string) : option Z :=
  if str_eqb s "connected" then Some PinStateConnected
  else if str_eqb s "disconnected" then Some PinStateDisconnected
  else if str_eqb s "selectable" then Some PinStateSelectable
  else None.

(** ** Phase adjustment *)

Definition roundToGranularity (value gran : Z) : Z :=
  if gran <=? 1 then value
  else
    let granInt32 := int32 gran in
    let half := Z.quot granInt32 2 in
    if 0 <=? value then int32 (Z.quot (int32 (value + half)) granInt32 * granInt32)
    else int32 (Z.quot (int32 (value - half)) granInt32 * granInt32).

Definition clamp_low (limit v : Z) : Z := if negb (limit =? 0) && (v <? limit) then limit else v.
Definition clamp_high (limit v : Z) : Z := if negb (limit =? 0) && (limit <? v) then limit else v.

(** The adjustment a pin is set to when [total] is asked for. *)
Definition pin_adjustment (pin : PinInfo) (total : Z) : Z :=
  clamp_high (piPhaseAdjustMax pin) (clamp_low (piPhaseAdjustMin pin) (roundToGranularity (int32 total) (piPhaseAdjustGran pin))).

Definition adjustment_command (pc : PinCache) (clockID : Z) (e : string * PinConfig) : option PinParentDeviceCtl :=
  total ← PhaseAdjustment e.2;
  pin ← GetPin pc clockID e.1;
  Some (mkCtl (piID pin) None (Some (pin_adjustment pin total)) None None).

(** The loops of [buildPhaseAdjustmentCommands]. *)
Definition adjustment_commands `{MapOrder} (pc : PinCache) (clockID : Z) (s : Subsystem) : list PinParentDeviceCtl :=
  omap (adjustment_command pc clockID) (range (PhaseInputs (sbDPLL s))) ++ omap (adjustment_command pc clockID) (range (PhaseOutputs (sbDPLL s))).

(** ** Frequencies *)

(** The frequency, the embedded frequency and the duty cycle; [None] without a configuration. *)
Definition resolvePinFrequency (pinCfg : PinConfig) (clockChain : ClockChain) : option (Z * Z * Z) :=
  if negb (str_eqb (ESyncConfigName pinCfg) "") then
    defs ← CommonDefinitions clockChain;
    d ← first_match (fun d => str_eqb (esName d) (ESyncConfigName pinCfg)) defs;
    let esyncFreq := uint64 (EmbeddedSyncFrequency d) in
    Some (uint64 (TransferFrequency d), if esyncFreq =? 0 then 1 else esyncFreq, if DutyCyclePct d =? 0 then 25 else DutyCyclePct d)
  else
    match Frequency pinCfg with
    | Some f => if 0 <? f then Some (uint64 f, 0, 0) else None
    | None => None
    end.

Definition set_argument (frequency esyncFreq : Z) (cmd : PinParentDeviceCtl) (arg : string) : PinParentDeviceCtl :=
  if str_eqb arg "frequency" then cmd <| ctFrequency := Some frequency |>
  else if str_eqb arg "eSyncFrequency" then cmd <| ctEsyncFrequency := Some esyncFreq |>
  else cmd.

Definition equal_fold (a b : string) : bool := str_eqb (Ublox.to_lower a) (Ublox.to_lower b).

(** The name of the device a parent of an output is; the empty string otherwise. *)
Definition device_name (pc : PinCache) (parent : PinParentDevice) : string :=
  if ppDirection parent =? PinDirectionOutput then
    match ParentDeviceType pc (ppParentID parent) with
    | None => ""
    | Some t => if t =? DpllTypeEEC then "EEC" else if t =? DpllTypePPS then "PPS" else ""
    end
  else "".

(** The controls of one [pinParentDevices] entry. *)
Definition parent_controls (pc : PinCache) (pin : PinInfo) (cfg : string * string) : list PinControl :=
  omap (fun parent =>
          if equal_fold (device_name pc parent) cfg.1 then
            state ← GetPinStateUint32 cfg.2; Some (mkControl (ppParentID parent) None None (Some state))
          else None) (piParentDevice pin).

Definition esync_command (pc : PinCache) (pin : PinInfo) (frequency esyncFreq : Z) (def : PinESyncCommand) : option PinParentDeviceCtl :=
  if negb (str_eqb (ecType def) "DPLLWrite") then None
  else
    let cmd := foldl (set_argument frequency esyncFreq) (mkCtl (piID pin) None None None None) (ecArguments def) in
    Some (match ecPinParentDevices def with [] => cmd | cfgs => cmd <| ctPinParentCtl := Some (cfgs ≫= parent_controls pc pin) |> end).

Definition buildPinFrequencyCommands (pc : PinCache) (clockID : Z) (boardLabel : string) (pinCfg : PinConfig) (clockChain : ClockChain)
    (hwSpec : option HardwareDefaults) (isInput : bool) : list PinParentDeviceCtl :=
  match GetPin pc clockID boardLabel, resolvePinFrequency pinCfg clockChain with
  | Some pin, Some (frequency, esyncFreq, _) =>
      if esyncFreq =? 0 then if 0 <? frequency then [mkCtl (piID pin) (Some frequency) None None None] else []
      else
        let fallback := [mkCtl (piID pin) (Some frequency) None (Some esyncFreq) None] in
        match h ← hwSpec; PinEsyncCommands h with
        | None => fallback
        | Some cmds =>
            match (if isInput then ecInputs cmds else ecOutputs cmds) with
            | [] => fallback
            | l => omap (esync_command pc pin frequency esyncFreq) l
            end
        end
  | _, _ => []
  end.

(** The loops of [buildESyncPinCommands]. *)
Definition esync_commands `{MapOrder} (pc : PinCache) (clockID : Z) (clockChain : ClockChain) (hwSpec : option HardwareDefaults) (s : Subsystem) :
    list PinParentDeviceCtl :=
  let group (isInput : bool) (pins : gmap string PinConfig) :=
    range pins ≫= fun e => buildPinFrequencyCommands pc clockID e.1 e.2 clockChain hwSpec isInput in
  group true (PhaseInputs (sbDPLL s)) ++ group false (PhaseOutputs (sbDPLL s))
  ++ group true (FrequencyInputs (sbDPLL s)) ++ group false (FrequencyOutputs (sbDPLL s)).

(** ** Priorities and states *)

Definition is_type (pc : PinCache) (parent type : Z) : bool :=
  match ParentDeviceType pc parent with Some t => t =? type | None => false end.

Definition priority_control (pc : PinCache) (eecPrio ppsPrio : option Z) (parent : PinParentDevice) : PinControl :=
  let id := ppParentID parent in
  mkControl id None
    (if ppDirection parent =? PinDirectionInput then
       if is_type pc id DpllTypeEEC then eecPrio else if is_type pc id DpllTypePPS then ppsPrio else None
     else None) None.

Definition buildPinPriorityCommand (cache : option PinCache) (clockID : Z) (boardLabel : string) (eecPrio ppsPrio : option Z) :
    option PinParentDeviceCtl :=
  pc ← cache;
  pin ← GetPin pc clockID boardLabel;
  Some (mkCtl (piID pin) None None None (Some (map (priority_control pc eecPrio ppsPrio) (piParentDevice pin)))).

(** The directions of the parents; the last entry of an identifier stands. *)
Definition parent_directions (pin : PinInfo) : gmap Z Z := foldl (fun m pd => <[ppParentID pd := ppDirection pd]> m) ∅ (piParentDevice pin).

Definition entry_state (e : option PinDefaultEntry) : string := match e with Some e => peState e | None => "" end.

Definition override_state (pc : PinCache) (directions : gmap Z Z) (overrides : PinDefault) (parent : PinControl) : PinControl :=
  let id := pcPinParentID parent in
  if default 0 (directions !! id) =? PinDirectionOutput then
    let stateStr := if is_type pc id DpllTypeEEC then entry_state (pdEEC overrides)
                    else if is_type pc id DpllTypePPS then entry_state (pdPPS overrides) else ""%string in
    if str_eqb stateStr "" then parent
    else match GetPinStateUint32 stateStr with Some v => parent <| pcState := Some v |> | None => parent end
  else parent.

Definition uint32_opt (e : option PinDefaultEntry) : option Z := e ← e; p ← pePriority e; Some (wrap_u 32 p).

(** [buildPinCommandFromDefaults] with the priorities [resolveSubsystemStructure] takes from the entry. *)
Definition command_from_defaults (cache : option PinCache) (clockID : Z) (label : string) (overrides : PinDefault) : option PinParentDeviceCtl :=
  cmd ← buildPinPriorityCommand cache clockID label (uint32_opt (pdEEC overrides)) (uint32_opt (pdPPS overrides));
  pc ← cache;
  match GetPin pc clockID label with
  | Some pin => Some (cmd <| ctPinParentCtl := Some (map (override_state pc (parent_directions pin) overrides) (parents_of cmd)) |>)
  | None => Some cmd
  end.

(** ** Desired states *)

(** What a desired state sets on a parent; [None] is an unknown state, an error. *)
Definition apply_pin_state (prio : bool) (s : PinState) (pc : PinControl) : option PinControl :=
  let pc := if prio then match psPriority s with Some p => pc <| pcPrio := Some (wrap_u 32 p) |> | None => pc end else pc in
  if str_eqb (psState s) "" then Some pc else v ← GetPinStateUint32 (psState s); Some (pc <| pcState := Some v |>).

Definition apply_opt (on prio : bool) (s : option PinState) (pc : PinControl) : option PinControl :=
  match s with Some s => if on then apply_pin_state prio s pc else Some pc | None => Some pc end.

Definition desired_control (cache : PinCache) (d : DPLLDesiredState) (parent : PinParentDevice) : option PinControl :=
  let id := ppParentID parent in
  let prio := ppDirection parent =? PinDirectionInput in
  pc ← apply_opt (is_type cache id DpllTypeEEC) prio (ddEEC d) (mkControl id None None None);
  apply_opt (is_type cache id DpllTypePPS) prio (ddPPS d) pc.

(** The end of [createPinCommandForDPLLDesiredState], once the clock is known. *)
Definition desired_command (cache : PinCache) (clockID : Z) (d : DPLLDesiredState) : option PinParentDeviceCtl :=
  pin ← GetPin cache clockID (ddBoardLabel d);
  parents ← mapM (desired_control cache d) (piParentDevice pin);
  Some (mkCtl (piID pin) None None None (Some parents)).

(** ** Lemmas *)

Lemma int32_id v : - 2 ^ 31 <= v < 2 ^ 31 -> int32 v = v.
Proof. intros H. unfold int32, wrap_s. change (2 ^ (32 - 1)) with (2 ^ 31). rewrite Z.mod_small; lia. Qed.

(** Rounding half away from zero, by truncated division. *)
Lemma quot_nearest v g : 0 <= v -> 1 < g -> let q := Z.quot (v + Z.quot g 2) g in 0 <= q /\ 2 * Z.abs (q * g - v) <= g /\ q * g <= v + g / 2.
Proof.
  intros Hv Hg. cbn zeta. assert (0 <= g / 2) as H2 by (apply Z.div_pos; lia).
  rewrite (Z.quot_div_nonneg g 2) by lia. rewrite (Z.quot_div_nonneg (v + g / 2) g) by lia.
  pose proof (Z.div_mod g 2 ltac:(lia)). pose proof (Z.mod_pos_bound g 2 ltac:(lia)).
  pose proof (Z.div_mod (v + g / 2) g ltac:(lia)). pose proof (Z.mod_pos_bound (v + g / 2) g ltac:(lia)).
  assert (0 <= (v + g / 2) / g) by (apply Z.div_pos; lia).
  set (q := (v + g / 2) / g) in *. clearbody q. set (h := g / 2) in *. clearbody h. split_and!; lia.
Qed.

Lemma round_nearest v g : 1 < g < 2 ^ 31 -> Z.abs v + g / 2 < 2 ^ 31 ->
  (g | roundToGranularity v g) /\ 2 * Z.abs (roundToGranularity v g - v) <= g.
Proof.
  intros Hg Hv. unfold roundToGranularity. destruct (Z.leb_spec g 1); [lia|]. rewrite (int32_id g) by lia.
  assert (0 <= g / 2) as H2 by (apply Z.div_pos; lia).
  assert (Z.quot g 2 = g / 2) as Eh by (apply Z.quot_div_nonneg; lia).
  destruct (Z.leb_spec 0 v) as [Hp|Hn].
  - pose proof (quot_nearest v g Hp ltac:(lia)) as (Hq & Hd & Hu). cbn zeta in *. rewrite Eh in *.
    rewrite (int32_id (v + g / 2)) by lia. rewrite int32_id by nia. split; [by eexists|done].
  - pose proof (quot_nearest (- v) g ltac:(lia) ltac:(lia)) as (Hq & Hd & Hu). cbn zeta in *. rewrite Eh in *.
    rewrite (int32_id (v - g / 2)) by lia. replace (v - g / 2) with (- (- v + g / 2)) by lia. rewrite Z.quot_opp_l by lia.
    rewrite int32_id by nia. split; [by eexists|]. lia.
Qed.

(** C14. Bounds of a phase adjustment.  When the limits of a pin are in order, or one of them
    is 0, which the code takes for none, whatever total is asked for the adjustment sent is
    within the limits that are set, and it is the rounded total whenever that is within
    them.  For a granularity of more than 1 and a total that fits an int32 with half the
    granularity to spare, rounding gives a multiple of the granularity at most half of it
    away; without a granularity a total that fits an int32 is left as it is. *)
Theorem adjustment_bounds (pin : PinInfo) (total : Z)
    (Hl : piPhaseAdjustMin pin <> 0 -> piPhaseAdjustMax pin <> 0 -> piPhaseAdjustMin pin <= piPhaseAdjustMax pin) :
  let g := piPhaseAdjustGran pin in
  let r := roundToGranularity (int32 total) g in
  let a := pin_adjustment pin total in
  (piPhaseAdjustMin pin <> 0 -> piPhaseAdjustMin pin <= a) /\ (piPhaseAdjustMax pin <> 0 -> a <= piPhaseAdjustMax pin)
  /\ ((piPhaseAdjustMin pin <> 0 -> piPhaseAdjustMin pin <= r) -> (piPhaseAdjustMax pin <> 0 -> r <= piPhaseAdjustMax pin) -> a = r)
  /\ (1 < g < 2 ^ 31 -> Z.abs total + g / 2 < 2 ^ 31 -> (g | r) /\ 2 * Z.abs (r - total) <= g)
  /\ (g <= 1 -> - 2 ^ 31 <= total < 2 ^ 31 -> r = total).
Proof.
  cbn zeta. set (g := piPhaseAdjustGran pin). split; [|split; [|split; [|split]]].
  4: { intros Hg Ht. assert (int32 total = total) as -> by (apply int32_id; pose proof (Z.div_pos g 2); lia). by apply round_nearest. }
  4: { intros Hg Ht. unfold roundToGranularity. destruct (Z.leb_spec g 1); [|lia]. by apply int32_id. }
  all: unfold pin_adjustment; fold g; unfold clamp_high, clamp_low; set (r := roundToGranularity (int32 total) g) in *; clearbody r;
    destruct (Z.eqb_spec (piPhaseAdjustMin pin) 0) as [E1|E1], (Z.eqb_spec (piPhaseAdjustMax pin) 0) as [E2|E2],
      (Z.ltb_spec r (piPhaseAdjustMin pin)); cbn [negb andb];
    repeat match goal with |- context [?x <? ?y] => destruct (Z.ltb_spec x y) end; intros; lia.
Qed.

Definition sample_parents : list PinParentDevice :=
  [mkParent 0 PinDirectionInput (Some 0) PinStateSelectable 0 0 0 0; mkParent 1 PinDirectionInput (Some 0) PinStateSelectable 0 0 0 0].

Definition sample_pin : PinInfo :=
  empty_pin <| piID := 13 |> <| piClockID := 7 |> <| piBoardLabel := "SMA1"%string |> <| piParentDevice := sample_parents |>
    <| piPhaseAdjustMin := -16723 |> <| piPhaseAdjustMax := 16723 |> <| piPhaseAdjustGran := 500 |>.

Theorem adjustment_bounds_witness :
  pin_adjustment sample_pin 7658 = 7500 /\ Z.abs (roundToGranularity 7658 500 - 7658) * 2 <= 500 /\ pin_adjustment sample_pin 20000 <= 16723.
Proof.
  split; [reflexivity|].
  pose proof (adjustment_bounds sample_pin 7658 ltac:(intros _ _; discriminate)) as (_ & _ & _ & H & _).
  destruct (H ltac:(split; reflexivity) ltac:(reflexivity)) as [_ H'].
  pose proof (adjustment_bounds sample_pin 20000 ltac:(intros _ _; discriminate)) as (_ & H2 & _).
  split; [rewrite Z.mul_comm; exact H'|]. apply H2. discriminate.
Defined.

(** The limits are not rounded: a clamped adjustment is no multiple of the granularity. *)
Lemma clamped_off_grid : pin_adjustment sample_pin 20000 = 16723 /\ ~ (500 | 16723).
Proof. split; [reflexivity|]. intros [k Hk]. lia. Qed.

(** The 64-bit total is cut to 32 bits before it is compared with the limits: 2^32 ps, far out
    of range, sets the pin to 0 where the maximum is 16723. *)
Lemma total_truncated : pin_adjustment sample_pin (2 ^ 32) = 0.
Proof. reflexivity. Qed.

(** A limit of 0 is taken for no limit. *)
Lemma zero_limit_ignored : pin_adjustment (sample_pin <| piPhaseAdjustMax := 0 |>) 20000 = 20000.
Proof. reflexivity. Qed.

(** *** The cache *)

Definition has_label (proj : PinInfo -> string) (clockID : Z) (label : string) (pin : PinInfo) : bool :=
  (piClockID pin =? clockID) && str_eqb (proj pin) label.

Lemma label_in_add m clockID label c l pin :
  l <> ""%string -> label_in (add_label clockID label pin m) c l = if (clockID =? c) && str_eqb label l then Some pin else label_in m c l.
Proof.
  intros Hl. unfold add_label, label_in, str_eqb. case_bool_decide as E0; subst.
  - rewrite bool_decide_false by done. by rewrite andb_false_r.
  - destruct (Z.eqb_spec clockID c) as [->|Hc]; cbn [andb].
    + rewrite lookup_insert_eq. cbn. case_bool_decide as E; [subst; by rewrite lookup_insert_eq|].
      rewrite lookup_insert_ne by done. destruct (m !! c); cbn; [done|]. by rewrite lookup_empty.
    + by rewrite lookup_insert_ne.
Qed.

Lemma built_labels pins pc c l : l <> ""%string ->
  label_in (BoardLabelPins (foldl add_pin pc pins)) c l
    = match last_match (has_label piBoardLabel c l) pins with Some p => Some p | None => label_in (BoardLabelPins pc) c l end
  /\ label_in (PackageLabelPins (foldl add_pin pc pins)) c l
    = match last_match (has_label piPackageLabel c l) pins with Some p => Some p | None => label_in (PackageLabelPins pc) c l end.
Proof.
  intros Hl. induction pins as [|p pins IH] using rev_ind; [done|]. rewrite foldl_snoc, !last_match_snoc. destruct IH as [IH1 IH2].
  unfold has_label at 1 3. cbn [add_pin BoardLabelPins PackageLabelPins]. rewrite !label_in_add by done. rewrite IH1, IH2.
  split; by destruct (_ && _).
Qed.

(** The cache of pins.  A pin is found under a clock and a label exactly when the dump has
    one: the last pin of that clock with that board label or, if no pin has it as its board
    label, the last one with that package label. *)
Theorem GetPin_built (pins : list PinInfo) (devices : list DoDeviceGetReply) (clockID : Z) (label : string) (Hl : label <> ""%string) :
  GetPin (buildPinCacheFromPins pins devices) clockID label
  = match last_match (has_label piBoardLabel clockID label) pins with
    | Some p => Some p
    | None => last_match (has_label piPackageLabel clockID label) pins
    end.
Proof.
  unfold GetPin, buildPinCacheFromPins. destruct (built_labels pins (mkCache ∅ ∅ (match devices with [] => None | _ => Some (device_types devices) end))
    clockID label Hl) as [-> ->]. unfold label_in. cbn. rewrite lookup_empty. cbn.
  destruct (last_match _ _); [done|]. by destruct (last_match _ _).
Qed.

(** The devices of the dump give the types; an identifier that is listed twice has the last. *)
Lemma device_type_built pins devices id :
  ParentDeviceType (buildPinCacheFromPins pins devices) id = rpType <$> last_match (fun d => rpID d =? id) devices.
Proof.
  unfold buildPinCacheFromPins, ParentDeviceType.
  assert (forall pc, parentDeviceTypes (foldl add_pin pc pins) = parentDeviceTypes pc) as ->.
  { induction pins as [|p l IH] using rev_ind; intros pc; [done|]. rewrite foldl_snoc. cbn. apply IH. }
  cbn. assert (forall l, device_types l !! id = rpType <$> last_match (fun d => rpID d =? id) l) as H.
  { intros l. unfold device_types. induction l as [|d l IH] using rev_ind; [done|]. rewrite foldl_snoc, last_match_snoc.
    destruct (Z.eqb_spec (rpID d) id) as [<-|]; [by rewrite lookup_insert_eq|by rewrite lookup_insert_ne]. }
  destruct devices as [|d l]; [done|]. cbn [mbind option_bind]. apply H.
Qed.

(** *** Commands *)

Lemma apply_pin_state_keeps prio s pc pc' : apply_pin_state prio s pc = Some pc' ->
  pcPinParentID pc' = pcPinParentID pc /\ pcDirection pc' = pcDirection pc /\ (prio = false -> pcPrio pc' = pcPrio pc).
Proof.
  unfold apply_pin_state. intros H. destruct prio, (psPriority s), (str_eqb (psState s) "");
    (destruct (GetPinStateUint32 (psState s)) eqn:E || idtac); cbn in *; simplify_eq; try done.
Qed.

Lemma apply_opt_keeps on prio s pc pc' : apply_opt on prio s pc = Some pc' ->
  pcPinParentID pc' = pcPinParentID pc /\ pcDirection pc' = pcDirection pc /\ (prio = false -> pcPrio pc' = pcPrio pc)
  /\ (on = false -> pc' = pc).
Proof.
  unfold apply_opt. destruct s as [s|]; [|intros [= <-]; done]. destruct on; [|intros [= <-]; done].
  intros (? & ? & ?)%apply_pin_state_keeps. done.
Qed.

(** A desired state addresses every parent of the pin once, in order; it never changes a
    direction, and sets a priority only on an input. *)
Lemma desired_command_shape cache clockID d cmd : desired_command cache clockID d = Some cmd ->
  exists pin, GetPin cache clockID (ddBoardLabel d) = Some pin /\ ctID cmd = piID pin
    /\ ctFrequency cmd = None /\ ctPhaseAdjust cmd = None /\ ctEsyncFrequency cmd = None
    /\ Forall2 (fun parent pc => pcPinParentID pc = ppParentID parent /\ pcDirection pc = None
                  /\ (ppDirection parent <> PinDirectionInput -> pcPrio pc = None)) (piParentDevice pin) (parents_of cmd).
Proof.
  unfold desired_command. destruct (GetPin _ _ _) as [pin|] eqn:Ep; cbn; [|done].
  destruct (mapM _ _) as [parents|] eqn:Em; cbn; [|done]. intros [= <-]. exists pin. split_and!; try done.
  unfold parents_of. cbn. apply mapM_Some_1 in Em. eapply Forall2_impl; [exact Em|]. cbn. intros parent pc H.
  unfold desired_control in H. destruct (apply_opt (is_type cache (ppParentID parent) DpllTypeEEC) _ _ _) as [pc1|] eqn:E1; cbn in H; [|done].
  apply apply_opt_keeps in E1 as (I1 & D1 & P1 & _). apply apply_opt_keeps in H as (I2 & D2 & P2 & _).
  split_and!; [by rewrite I2, I1|by rewrite D2, D1|].
  intros Hn. destruct (Z.eqb_spec (ppDirection parent) PinDirectionInput); [done|]. by rewrite P2, P1.
Qed.

(** The default states of a pin are written to outputs only: the states that e825 declares
    for its inputs have no effect. *)
Lemma input_state_ignored pc directions overrides parent :
  directions !! pcPinParentID parent = Some PinDirectionInput -> override_state pc directions overrides parent = parent.
Proof. intros H. unfold override_state. by rewrite H. Qed.

End PinCmd.
