(* ===== verification/PinMerge.v ===== *)
(** * pkg/hardwareconfig: merging the commands for one pin

    [mergePinCommandsByID] of hardwareconfig.go.  It keeps pointers to the elements of a
    slice while it appends to the slice: an append that exceeds the capacity moves the slice
    to a new array, and what is written through the older pointers afterwards is lost.  So a
    slice is its elements, its capacity and the number of its present array, and a pointer is
    an array and an index.  How much a slice grows is up to the run-time system. *)

From S2P Require Import Prelude Attr Netlink HwTypes.

#[local] Open Scope Z_scope.

Module PinMerge.

Import Netlink Hw.

(** The capacity after an append that did not fit. *)
Class Growth := { grow : nat -> nat; grow_more n : (n < grow n)%nat }.

#[export, refine] Instance doubling : Growth := {| grow n := (2 * n + 1)%nat |}.
Proof. lia. Defined.

Section Merge.
Context `{Growth}.

Record slice := mkSlice { sl_elems : list PinControl; sl_cap : nat; sl_array : nat }.

Definition append (pc : PinControl) (s : slice) : slice :=
  if (length (sl_elems s) <? sl_cap s)%nat then mkSlice (sl_elems s ++ [pc]) (sl_cap s) (sl_array s)
  else mkSlice (sl_elems s ++ [pc]) (grow (sl_cap s)) (S (sl_array s)).

Definition update_control (pc existing : PinControl) : PinControl :=
  mkControl (pcPinParentID existing) (over (pcDirection pc) (pcDirection existing)) (over (pcPrio pc) (pcPrio existing))
    (over (pcState pc) (pcState existing)).

#[local] Notation parent_map := (gmap Z (nat * nat)).

Fixpoint index_parents (array j : nat) (l : list PinControl) (pm : parent_map) : parent_map :=
  match l with [] => pm | pc :: l' => index_parents array (S j) l' (<[pcPinParentID pc := (array, j)]> pm) end.

Definition merge_control (st : slice * parent_map) (pc : PinControl) : slice * parent_map :=
  let '(s, pm) := st in
  match pm !! pcPinParentID pc with
  | Some (array, j) =>
      (if (array =? sl_array s)%nat then mkSlice (alter (update_control pc) j (sl_elems s)) (sl_cap s) (sl_array s) else s, pm)
  | None => let s' := append pc s in (s', <[pcPinParentID pc := (sl_array s', length (sl_elems s))]> pm)
  end.

Definition merge_parents (existing : list PinControl) (cap : nat) (cmd : list PinControl) : slice :=
  (foldl merge_control (mkSlice existing cap 0, index_parents 0 0 existing ∅) cmd).1.

(** A merged command with the capacity of its slice. *)
Definition merge_into (e : PinParentDeviceCtl * nat) (cmd : PinParentDeviceCtl) : PinParentDeviceCtl * nat :=
  let existing := mkCtl (ctID e.1) (over (ctFrequency cmd) (ctFrequency e.1)) (over (ctPhaseAdjust cmd) (ctPhaseAdjust e.1))
                    (over (ctEsyncFrequency cmd) (ctEsyncFrequency e.1)) (ctPinParentCtl e.1) in
  match parents_of cmd with
  | [] => (existing, e.2)
  | ps =>
      let cap := match ctPinParentCtl e.1 with Some _ => e.2 | None => length ps end in
      let s := merge_parents (parents_of existing) cap ps in
      (existing <| ctPinParentCtl := Some (sl_elems s) |>, sl_cap s)
  end.

Definition merge_step (m : gmap Z (PinParentDeviceCtl * nat)) (cmd : PinParentDeviceCtl) : gmap Z (PinParentDeviceCtl * nat) :=
  match m !! ctID cmd with
  | None => <[ctID cmd := (cmd, length (parents_of cmd))]> m
  | Some e => <[ctID cmd := merge_into e cmd]> m
  end.

Definition merged (commands : list PinParentDeviceCtl) : gmap Z (PinParentDeviceCtl * nat) := foldl merge_step ∅ commands.

Definition mergePinCommandsByID `{MapOrder} (commands : list PinParentDeviceCtl) : list PinParentDeviceCtl :=
  map (fun e => e.2.1) (range (merged commands)).

(** ** One command *)

Definition ids (l : list PinControl) : list Z := map pcPinParentID l.

Definition update_in (pc : PinControl) (l : list PinControl) : list PinControl :=
  map (fun e => if pcPinParentID e =? pcPinParentID pc then update_control pc e else e) l.

Lemma ids_update_in pc l : ids (update_in pc l) = ids l.
Proof. unfold ids, update_in. rewrite map_map. apply map_ext. intros e. by destruct (_ =? _). Qed.

Lemma alter_update pc l j e : NoDup (ids l) -> l !! j = Some e -> pcPinParentID e = pcPinParentID pc -> alter (update_control pc) j l = update_in pc l.
Proof.
  revert j. induction l as [|x l IH]; intros j Hn Hj He; [done|]. cbn in Hn. apply NoDup_cons in Hn as [Hx Hn]. destruct j as [|j].
  - injection Hj as ->. cbn. rewrite He, Z.eqb_refl. f_equal. symmetry. unfold update_in.
    rewrite <- (map_id l) at 2. apply map_ext_in. intros y Hy%list_elem_of_In. destruct (Z.eqb_spec (pcPinParentID y) (pcPinParentID pc)) as [E|]; [|done].
    exfalso. apply Hx. rewrite He, <- E. by apply (list_elem_of_fmap_2 pcPinParentID).
  - cbn in Hj. cbn. rewrite (IH j Hn Hj He). destruct (Z.eqb_spec (pcPinParentID x) (pcPinParentID pc)) as [E|]; [|done].
    exfalso. apply Hx. rewrite E, <- He. apply (list_elem_of_fmap_2 pcPinParentID). by eapply list_elem_of_lookup_2.
Qed.

Lemma index_parents_out l : forall array j pm id, id ∉ ids l -> index_parents array j l pm !! id = pm !! id.
Proof.
  induction l as [|pc l IH]; intros array j pm id Hi; cbn; [done|]. cbn in Hi. apply not_elem_of_cons in Hi as [Hne Hi].
  rewrite IH by done. by rewrite lookup_insert_ne.
Qed.

Lemma index_parents_in l : forall array j pm k id, NoDup (ids l) -> ids l !! k = Some id -> index_parents array j l pm !! id = Some (array, (j + k)%nat).
Proof.
  induction l as [|pc l IH]; intros array j pm k id Hn Hk; [done|]. cbn in Hn. apply NoDup_cons in Hn as [Hx Hn]. destruct k as [|k]; cbn [index_parents].
  - injection Hk as <-. rewrite index_parents_out by done. rewrite lookup_insert_eq. do 2 f_equal. lia.
  - change (ids l !! k = Some id) in Hk. rewrite (IH array (S j) _ k id Hn Hk). do 2 f_equal. lia.
Qed.

(** Parents that are known are updated in place. *)
Lemma merge_known l1 : forall s pm,
  sl_array s = 0%nat -> NoDup (ids (sl_elems s)) -> (forall k id, ids (sl_elems s) !! k = Some id -> pm !! id = Some (0%nat, k)) ->
  Forall (fun pc => pcPinParentID pc ∈ ids (sl_elems s)) l1 ->
  foldl merge_control (s, pm) l1 = (mkSlice (foldl (fun es pc => update_in pc es) (sl_elems s) l1) (sl_cap s) 0, pm).
Proof.
  induction l1 as [|pc l1 IH]; intros s pm Ha Hn Hp Hl; cbn [foldl]; [destruct s; cbn in *; by subst|].
  apply Forall_cons in Hl as [Hi Hl]. apply list_elem_of_lookup_1 in Hi as [k Hk].
  assert (exists e, sl_elems s !! k = Some e /\ pcPinParentID e = pcPinParentID pc) as (e & He & Ee).
  { unfold ids in Hk. rewrite list_lookup_fmap in Hk. destruct (sl_elems s !! k) as [e|]; [|done]. injection Hk as Hk. eauto. }
  unfold merge_control at 2. rewrite (Hp k _ Hk), Ha. cbn [Nat.eqb]. rewrite (alter_update pc _ k e) by done.
  rewrite IH; cbn [sl_elems sl_cap sl_array]; rewrite ?ids_update_in; done.
Qed.

(** Parents that are new, and different, are appended. *)
Lemma merge_new l2 : forall s pm,
  NoDup (ids l2) -> (forall id, id ∈ ids l2 -> pm !! id = None) ->
  sl_elems (foldl merge_control (s, pm) l2).1 = sl_elems s ++ l2.
Proof.
  induction l2 as [|pc l2 IH]; intros s pm Hn Hp; cbn [foldl]; [by rewrite app_nil_r|]. cbn in Hn. apply NoDup_cons in Hn as [Hx Hn].
  unfold merge_control at 2. rewrite (Hp (pcPinParentID pc)) by (cbn; left). rewrite IH; [|done|].
  - unfold append. destruct (_ <? _)%nat; cbn [sl_elems]; by rewrite <- app_assoc.
  - intros id Hi. rewrite lookup_insert_ne by (intros <-; done). apply Hp. cbn. by right.
Qed.

(** A command that names the parents it shares with the earlier ones first. *)
Definition known_first (known : list Z) (cmd : list PinControl) : Prop :=
  exists l1 l2, cmd = l1 ++ l2 /\ Forall (fun pc => pcPinParentID pc ∈ known) l1 /\ NoDup (ids l2) /\ Forall (fun pc => pcPinParentID pc ∉ known) l2.

Lemma merge_parents_known_first existing cap l1 l2 : NoDup (ids existing) ->
  Forall (fun pc => pcPinParentID pc ∈ ids existing) l1 -> NoDup (ids l2) -> Forall (fun pc => pcPinParentID pc ∉ ids existing) l2 ->
  sl_elems (merge_parents existing cap (l1 ++ l2)) = foldl (fun es pc => update_in pc es) existing l1 ++ l2.
Proof.
  intros Hn H1 Hn2 H2. unfold merge_parents. rewrite foldl_app, merge_known; cbn [sl_elems sl_array sl_cap]; [|done|done| |done].
  - rewrite merge_new; [done|done|]. intros id Hi. rewrite index_parents_out; [by rewrite lookup_empty|].
    rewrite Forall_forall in H2. unfold ids in Hi. apply list_elem_of_fmap in Hi as (pc & -> & Hpc). by apply H2.
  - intros k id Hk. by rewrite (index_parents_in _ 0 0 _ k).
Qed.

(** ** All commands *)

Definition commands_of (id : Z) (commands : list PinParentDeviceCtl) : list PinParentDeviceCtl :=
  List.filter (fun c => ctID c =? id) commands.

Definition writes_of (q : Z) (l : list PinControl) : list PinControl := List.filter (fun pc => pcPinParentID pc =? q) l.

(** What the commands of a pin say about its parents, in order. *)
Definition controls_of (id : Z) (commands : list PinParentDeviceCtl) : list PinControl := commands_of id commands ≫= parents_of.

Definition orderly (commands : list PinParentDeviceCtl) : Prop :=
  forall l c l', commands = l ++ c :: l' ->
    match commands_of (ctID c) l with
    | [] => NoDup (ids (parents_of c))
    | _ => known_first (ids (controls_of (ctID c) l)) (parents_of c)
    end.

(** The control [pc] is what the writes [l] to its parent say. *)
Definition told (l : list PinControl) (pc : PinControl) : Prop :=
  let w := writes_of (pcPinParentID pc) l in
  pcDirection pc = last_some pcDirection w /\ pcPrio pc = last_some pcPrio w /\ pcState pc = last_some pcState w.

Definition parents_told (l : list PinControl) (ps : list PinControl) : Prop :=
  NoDup (ids ps) /\ (forall q, q ∈ ids ps <-> q ∈ ids l) /\ Forall (told l) ps.

Definition command_told (mine : list PinParentDeviceCtl) (c : PinParentDeviceCtl) : Prop :=
  ctFrequency c = last_some ctFrequency mine /\ ctPhaseAdjust c = last_some ctPhaseAdjust mine
  /\ ctEsyncFrequency c = last_some ctEsyncFrequency mine /\ parents_told (mine ≫= parents_of) (parents_of c).

Lemma commands_of_snoc id l c : commands_of id (l ++ [c]) = commands_of id l ++ (if ctID c =? id then [c] else []).
Proof. unfold commands_of. rewrite List.filter_app. done. Qed.

Lemma writes_of_app q l l' : writes_of q (l ++ l') = writes_of q l ++ writes_of q l'.
Proof. apply List.filter_app. Qed.

Lemma writes_of_none q l : q ∉ ids l -> writes_of q l = [].
Proof.
  induction l as [|pc l IH]; cbn; [done|]. intros [Hne Hi]%not_elem_of_cons. destruct (Z.eqb_spec (pcPinParentID pc) q) as [E|]; [by destruct Hne|].
  by apply IH.
Qed.

(** A list without duplicates tells about itself. *)
Lemma self_told l : NoDup (ids l) -> parents_told l l.
Proof.
  intros Hn. split_and!; [done|done|]. apply Forall_forall. intros pc Hpc. unfold told.
  assert (writes_of (pcPinParentID pc) l = [pc]) as ->; [|cbn; unfold over; by destruct pc as [? [|] [|] [|]]].
  apply list_elem_of_split in Hpc as (l1 & l2 & ->). unfold ids in Hn. rewrite map_app in Hn. cbn in Hn.
  apply NoDup_app in Hn as (_ & Hd & [Hx _]%NoDup_cons). rewrite writes_of_app, writes_of_none.
  - cbn. rewrite Z.eqb_refl. f_equal. by apply writes_of_none.
  - intros Hi. apply (Hd _ Hi). left.
Qed.

(** Updating all elements by the controls of a command. *)
Lemma updates_told pre l1 : forall ps, parents_told pre ps -> Forall (fun pc => pcPinParentID pc ∈ ids ps) l1 ->
  parents_told (pre ++ l1) (foldl (fun es pc => update_in pc es) ps l1).
Proof.
  induction l1 as [|pc l1 IH] in pre |- *; intros ps Ht Hl; cbn [foldl]; [by rewrite app_nil_r|]. apply Forall_cons in Hl as [Hi Hl].
  replace (pre ++ pc :: l1) with ((pre ++ [pc]) ++ l1) by by rewrite <- app_assoc. apply IH; [|by rewrite ids_update_in].
  destruct Ht as (Hn & Hq & Hf). split_and!; [by rewrite ids_update_in| |].
  - intros q. rewrite ids_update_in. unfold ids at 2. rewrite map_app, elem_of_app, Hq. cbn. rewrite list_elem_of_singleton.
    split; [by left|]. intros [?| ->]; [done|]. by apply Hq.
  - unfold update_in. apply Forall_map, Forall_forall. intros e He. rewrite Forall_forall in Hf. specialize (Hf e He). cbn.
    destruct (Z.eqb_spec (pcPinParentID e) (pcPinParentID pc)) as [E|E]; unfold told in *; cbn [update_control pcPinParentID pcDirection pcPrio pcState].
    + rewrite writes_of_app. cbn. rewrite E, Z.eqb_refl, !last_some_snoc. rewrite E in Hf. destruct Hf as (-> & -> & ->). done.
    + rewrite writes_of_app. cbn. destruct (Z.eqb_spec (pcPinParentID pc) (pcPinParentID e)); [congruence|]. by rewrite app_nil_r.
Qed.

Lemma ids_updates l1 ps : ids (foldl (fun es pc => update_in pc es) ps l1) = ids ps.
Proof. revert ps. induction l1 as [|x l1 IH]; intros ps; cbn [foldl]; [done|]. by rewrite IH, ids_update_in. Qed.

Lemma news_told pre ps l2 : parents_told pre ps -> NoDup (ids l2) -> Forall (fun pc => pcPinParentID pc ∉ ids ps) l2 ->
  parents_told (pre ++ l2) (ps ++ l2).
Proof.
  intros (Hn & Hq & Hf) Hn2 H2.
  assert (forall q, q ∈ ids l2 -> q ∉ ids ps) as Hd.
  { intros q Hi. unfold ids in Hi. apply list_elem_of_fmap in Hi as (pc & -> & Hpc). rewrite Forall_forall in H2. by apply H2. }
  split_and!.
  - unfold ids. rewrite map_app. apply NoDup_app. split_and!; [done| |done]. intros q H1 H3. by apply (Hd q).
  - intros q. unfold ids. rewrite !map_app, !elem_of_app. unfold ids in Hq. by rewrite Hq.
  - apply Forall_app. split; apply Forall_forall; intros e He; unfold told; rewrite writes_of_app.
    + rewrite (writes_of_none (pcPinParentID e) l2); [rewrite app_nil_r; rewrite Forall_forall in Hf; by apply Hf|].
      intros Hi. apply (Hd _ Hi). by apply (list_elem_of_fmap_2 pcPinParentID).
    + rewrite (writes_of_none (pcPinParentID e) pre); [|rewrite <- Hq; apply Hd; by apply (list_elem_of_fmap_2 pcPinParentID)].
      destruct (self_told l2 Hn2) as (_ & _ & Hs). rewrite Forall_forall in Hs. by apply Hs.
Qed.

Lemma merge_into_told mine e cap cmd : command_told mine e -> known_first (ids (mine ≫= parents_of)) (parents_of cmd) ->
  command_told (mine ++ [cmd]) (merge_into (e, cap) cmd).1 /\ ctID (merge_into (e, cap) cmd).1 = ctID e.
Proof.
  intros (Hf & Hp & He & Ht) Hk. unfold merge_into. cbn [fst snd].
  assert (forall x ps, ctFrequency x = over (ctFrequency cmd) (ctFrequency e) -> ctPhaseAdjust x = over (ctPhaseAdjust cmd) (ctPhaseAdjust e) ->
            ctEsyncFrequency x = over (ctEsyncFrequency cmd) (ctEsyncFrequency e) -> parents_of x = ps ->
            parents_told ((mine ≫= parents_of) ++ parents_of cmd) ps -> command_told (mine ++ [cmd]) x) as Hall.
  { intros x ps E1 E2 E3 E4 H5. unfold command_told. rewrite !last_some_snoc, E1, E2, E3, Hf, Hp, He, E4, bind_app. cbn. by rewrite app_nil_r. }
  destruct (parents_of cmd) as [|p ps'] eqn:Ec.
  - split; [|done]. eapply Hall; try reflexivity. by rewrite app_nil_r.
  - split; [|done]. eapply Hall; try reflexivity. destruct Hk as (l1 & l2 & Hs & H1 & Hn2 & H2). rewrite Hs.
    pose proof Ht as (Hn & Hq & _). unfold parents_of at 2. cbn.
    rewrite merge_parents_known_first; [|done|eapply Forall_impl; [exact H1|]; cbn; intros pc Hi; by apply Hq|done
      |eapply Forall_impl; [exact H2|]; cbn; intros pc Hi Hj; by apply Hi, Hq].
    rewrite app_assoc. apply news_told; [apply updates_told; [done|]|done|].
    + eapply Forall_impl; [exact H1|]. cbn. intros pc Hi. by apply Hq.
    + eapply Forall_impl; [exact H2|]. cbn. intros pc Hi Hj. rewrite ids_updates in Hj. by apply Hi, Hq.
Qed.

Lemma merged_told commands : orderly commands -> forall id,
  match merged commands !! id with
  | Some e => ctID e.1 = id /\ commands_of id commands <> [] /\ command_told (commands_of id commands) e.1
  | None => commands_of id commands = []
  end.
Proof.
  induction commands as [|c l IH] using rev_ind; intros Ho id; [done|].
  assert (orderly l) as Hl by (intros l1 x l2 ->; apply (Ho l1 x (l2 ++ [c])); by rewrite <- app_assoc).
  specialize (IH Hl). specialize (Ho l c [] eq_refl). unfold merged. rewrite foldl_snoc. fold (merged l).
  rewrite commands_of_snoc. unfold merge_step. pose proof (IH (ctID c)) as Hc.
  destruct (Z.eqb_spec (ctID c) id) as [<-|Hne].
  - destruct (merged l !! ctID c) as [[e cap]|]; rewrite lookup_insert_eq; cbn [fst].
    + destruct Hc as (Hi & Hx & Ht). unfold controls_of in Ho. destruct (commands_of (ctID c) l) as [|x xs] eqn:Ex; [done|].
      destruct (merge_into_told (x :: xs) e cap c Ht Ho) as [H1 H2]. cbn [fst] in Hi. split_and!; [by rewrite H2|done|done].
    + rewrite Hc in *. split_and!; [done|done|]. unfold command_told. cbn [app]. unfold last_some, last_from. cbn.
      rewrite app_nil_r. split_and!; try (by destruct (ctFrequency c)); try (by destruct (ctPhaseAdjust c)); try (by destruct (ctEsyncFrequency c)).
      by apply self_told.
  - rewrite app_nil_r. specialize (IH id). destruct (merged l !! ctID c) as [e|]; rewrite lookup_insert_ne by done; exact IH.
Qed.

(** C12. Merging the commands of a pin.  When every command names the parents it shares with
    earlier commands for the same pin before any new one, merging leaves one command for each
    pin that has any; each of its fields is the last value a command gives, its parents are
    exactly those the commands name, once each, and the direction, priority and state of each
    are the last ones given. *)
Theorem merge_last_writer `{MapOrder} (commands : list PinParentDeviceCtl) (Ho : orderly commands) :
  let result := mergePinCommandsByID commands in
  NoDup (map ctID result) /\ (forall id, id ∈ map ctID result <-> id ∈ map ctID commands)
  /\ Forall (fun c => command_told (commands_of (ctID c) commands) c) result.
Proof.
  cbn zeta. pose proof (merged_told commands Ho) as Hm. unfold mergePinCommandsByID.
  assert (map ctID (map (fun e => e.2.1) (range (merged commands))) = (range (merged commands)).*1) as Ei.
  { rewrite map_map. apply map_ext_in. intros [id e] Hin%list_elem_of_In. apply elem_of_range in Hin. specialize (Hm id). rewrite Hin in Hm. by destruct Hm. }
  rewrite Ei. split_and!; [apply NoDup_range| |].
  - intros id. assert (id ∈ map ctID commands <-> commands_of id commands <> []) as ->.
    { rewrite list_elem_of_In, in_map_iff. split.
      - intros (c & <- & Hc) Hn. assert (In c (commands_of (ctID c) commands)) as Hx by (apply filter_In; split; [done|apply Z.eqb_refl]). by rewrite Hn in Hx.
      - intros Hn. destruct (commands_of id commands) as [|c cs] eqn:E; [done|]. assert (In c (commands_of id commands)) as Hc by (rewrite E; by left).
        apply filter_In in Hc as [Hc He]. exists c. split; [lia|done]. }
    specialize (Hm id). split.
    + intros ([id' e] & -> & Hin)%list_elem_of_fmap. cbn in *. apply elem_of_range in Hin. rewrite Hin in Hm. by destruct Hm as (_ & ? & _).
    + intros Hn. destruct (merged commands !! id) as [e|] eqn:E; [|done]. apply list_elem_of_fmap. exists (id, e). split; [done|]. by apply elem_of_range.
  - apply Forall_map, Forall_forall. intros [id e] Hin. apply elem_of_range in Hin. specialize (Hm id). rewrite Hin in Hm. cbn. by destruct Hm as (-> & _ & ?).
Qed.

Lemma orderly_snoc l c : orderly l ->
  match commands_of (ctID c) l with [] => NoDup (ids (parents_of c)) | _ => known_first (ids (controls_of (ctID c) l)) (parents_of c) end ->
  orderly (l ++ [c]).
Proof.
  intros Hl Hc l1 x l2 E. destruct l2 as [|y l2 _] using rev_ind.
  - apply app_inj_tail in E as [<- <-]. done.
  - rewrite app_comm_cons, app_assoc in E. apply app_inj_tail in E as [-> <-]. by apply (Hl l1 x l2).
Qed.

Lemma orderly_nil : orderly [].
Proof. intros [|] ? ? ?; done. Qed.

(** A new parent before a known one: what the command says about the known one is lost, as
    soon as the slice has to move. *)
Lemma update_lost (state : Z) :
  let first := mkCtl 13 None None None (Some [mkControl 0 None None (Some PinStateConnected)]) in
  let second := mkCtl 13 None None None (Some [mkControl 1 None None (Some PinStateConnected); mkControl 0 None None (Some state)]) in
  exists cap, merged [first; second]
    = {[ 13 := (mkCtl 13 None None None (Some [mkControl 0 None None (Some PinStateConnected); mkControl 1 None None (Some PinStateConnected)]), cap) ]}.
Proof. eexists. reflexivity. Qed.

End Merge.

(** The commands for an output with embedded synchronisation: its defaults, and the three
    steps of the vendor definition of e810. *)
Definition both (state : Z) : option (list PinControl) := Some [mkControl 0 None None (Some state); mkControl 1 None None (Some state)].
Definition esync_sequence : list PinParentDeviceCtl :=
  [mkCtl 21 None None None (both PinStateDisconnected); mkCtl 21 (Some 10000000) None None None; mkCtl 21 None None (Some 1) None;
   mkCtl 21 None None None (both PinStateConnected)].

Theorem merge_last_writer_witness :
  let result := mergePinCommandsByID esync_sequence in
  orderly esync_sequence /\ NoDup (map ctID result) /\ result = [mkCtl 21 (Some 10000000) None (Some 1) (both PinStateConnected)].
Proof.
  assert (orderly esync_sequence) as Ho.
  { apply (orderly_snoc [_; _; _] _); [apply (orderly_snoc [_; _] _); [apply (orderly_snoc [_] _); [apply (orderly_snoc [] _); [apply orderly_nil|]|]|]|]; cbn.
    - apply NoDup_cons; split; [intros [?|?%not_elem_of_nil]%elem_of_cons; done|apply NoDup_singleton].
    - exists [], []. split_and!; done || constructor.
    - exists [], []. split_and!; done || constructor.
    - exists (parents_of (mkCtl 21 None None None (both PinStateConnected))), []. split_and!; [done| |constructor|constructor].
      repeat constructor. }
  split; [exact Ho|]. split; [exact (proj1 (merge_last_writer esync_sequence Ho))|]. reflexivity.
Defined.

(** The three steps become one command, in whose payload the embedded frequency comes before
    the frequency: the opposite of the order the vendor definition asks for. *)
Lemma sequence_reversed :
  exists b, map EncodePinControl (mergePinCommandsByID esync_sequence) = [Some b]
    /\ match Attr.NewAttributeDecoder b with
       | Some l => map Attr.Type_ l = [DpllPinID; DpllPinEsyncFrequency; DpllPinFrequency; DpllPinParentDevice; DpllPinParentDevice]
       | None => False
       end.
Proof. eexists. split; [reflexivity|]. vm_compute. reflexivity. Qed.

End PinMerge.
