(* ===== verification/HwVendor.v ===== *)
(** * pkg/hardwareconfig: vendor definitions and delay compensation

    vendor_loader.go, configmap_loader.go, label_remap.go and delay_compensation.go.  The
    embedded files, decoded by the YAML library, and the configuration map with the new board
    labels are arguments. *)

From S2P Require Import Prelude Regex Ublox Dpll HwTypes.

#[local] Open Scope Z_scope.
#[local] Open Scope outcome_scope.

Module HwVendor.

Import Hw.

(** ** vendor_loader.go: flags *)

Definition dpllFlagNames (name : string) : option Z :=
  if str_eqb name "noPhaseOffset" then Some Dpll.FlagNoPhaseOffset
  else if str_eqb name "noPhaseStatus" then Some Dpll.FlagNoPhaseStatus
  else if str_eqb name "noFrequencyStatus" then Some Dpll.FlagNoFreqencyStatus
  else None.

Fixpoint or_flags (flags : Z) (names : list string) : option Z :=
  match names with [] => Some flags | name :: names' => flag ← dpllFlagNames name; or_flags (Z.lor flags flag) names' end.

Definition ParseDPLLFlags (hd : HardwareDefaults) : option Z := or_flags 0 (DPLLFlags hd).

(** ** label_remap.go *)

Definition BoardLabelMap : Type := gmap string string.

Definition applyLabelRemap (s : string) (labelMap : gmap string string) : string := default s (labelMap !! s).

(** When two labels get the same new one, the one seen last stands. *)
Definition RemapPinDefaults `{MapOrder} (hd : HardwareDefaults) (labelMap : gmap string string) : HardwareDefaults :=
  hd <| PinDefaults := foldl (fun m e => <[applyLabelRemap e.1 labelMap := e.2]> m) ∅ (range (PinDefaults hd)) |>.

Definition remap_component (labelMap : gmap string string) (c : Component) : Component :=
  match cmCompensationPoint c with
  | Some p => c <| cmCompensationPoint := Some (p <| cpName := applyLabelRemap (cpName p) labelMap |>) |>
  | None => c
  end.

Definition RemapDelayCompensation (hd : HardwareDefaults) (labelMap : gmap string string) : HardwareDefaults :=
  match DelayCompensation hd with
  | Some m => hd <| DelayCompensation := Some (m <| Components := map (remap_component labelMap) (Components m) |>) |>
  | None => hd
  end.

Definition RemapDefaultProfileLabels `{MapOrder} (hd : HardwareDefaults) (labelMap : gmap string string) : HardwareDefaults :=
  RemapDelayCompensation (RemapPinDefaults hd labelMap) labelMap.

Definition RemapBehaviorProfileLabels (t : BehaviorProfileTemplate) (labelMap : gmap string string) : BehaviorProfileTemplate :=
  t <| PinRoles := (fun label => applyLabelRemap label labelMap) <$> PinRoles t |>.

(** ** configmap_loader.go *)

(** A loader reads the data of the configuration map ([None] when it is not there) and
    decodes an entry: [None] is malformed text, [Some None] text without a label map. *)
Record BoardLabelMapLoader := mkLoader { ldData : option (gmap string string); ldDecode : string -> option (option (gmap string string)) }.

(** The map; [None] is nil.  Its error is always nil. *)
Definition LoadBoardLabelMap (l : BoardLabelMapLoader) (hwDefPath : string) : option (gmap string string) :=
  data ← ldData l;
  text ← data !! Regex.ReplaceAll hwDefPath "/" "-";
  decoded ← ldDecode l text;
  Some (default ∅ decoded).

Definition no_labels (m : option (gmap string string)) : bool := match m with Some m => bool_decide (m = ∅) | None => true end.

(** ** vendor_loader.go: loading

    The files embedded for a definition: [None] when there is none, [Some None] when the text
    is malformed. *)
Record VendorFiles := mkFiles {
  embeddedDefaults : string -> option (option HardwareDefaults);
  embeddedDelays : string -> option (option DelayCompensationModel);
  embeddedBehaviorProfiles : string -> option (option (gmap string BehaviorProfileTemplate))
}.

Definition LoadHardwareDefaults `{MapOrder} (files : VendorFiles) (hwDefPath : string) (labelMap : option (gmap string string)) :
    outcome (option HardwareDefaults) :=
  if str_eqb hwDefPath "" then Ok None
  else
    hd <-! match embeddedDefaults files hwDefPath with Some data => or_err data | None => Ok no_defaults end;
    hd <-! match embeddedDelays files hwDefPath with
           | Some data => m <-! or_err data; Ok (hd <| DelayCompensation := Some m |>)
           | None => Ok hd
           end;
    Ok (Some (if no_labels labelMap then hd else RemapDefaultProfileLabels hd (default ∅ labelMap))).

(** The method of the loader is called on it even when it is nil, which panics. *)
Definition LoadBehaviorProfile (files : VendorFiles) (hwDefPath clockType : string) (loader : option BoardLabelMapLoader) :
    outcome (option BehaviorProfileTemplate) :=
  loader <-! deref loader;
  let labelMap := LoadBoardLabelMap loader hwDefPath in
  match embeddedBehaviorProfiles files hwDefPath with
  | Some data =>
      profiles <-! or_err data;
      Ok ((fun t => if no_labels labelMap then t else RemapBehaviorProfileLabels t (default ∅ labelMap)) <$> (profiles !! Ublox.to_lower clockType))
  | None => Ok None
  end.

(** ** delay_compensation.go *)

Definition findComponentByID (components : list Component) (id : string) : option Component :=
  first_match (fun c => str_eqb (cmID c) id) components.

(** Reading a delay from a file is not implemented: it always fails. *)
Definition readDelayFromFS (path networkInterface : string) : option Z := None.

Definition getConnectionDelay (model : DelayCompensationModel) (from to networkInterface : string) : option Z :=
  conn ← first_match (fun c => str_eqb (cnFrom c) from && str_eqb (cnTo c) to) (Connections model);
  match path ← cnGetter conn; readDelayFromFS path networkInterface with
  | Some delay => Some delay
  | None => Some (cnDelayPs conn)
  end.

Fixpoint route_delay (model : DelayCompensationModel) (networkInterface : string) (total : Z) (from : string) (rest : list string) : option Z :=
  match rest with
  | [] => Some total
  | to :: rest' => delay ← getConnectionDelay model from to networkInterface; route_delay model networkInterface (int64 (total + delay)) to rest'
  end.

Definition calculateRouteDelay (model : DelayCompensationModel) (sequence : list string) (networkInterface : string) : option Z :=
  match sequence with from :: (_ :: _) as rest => route_delay model networkInterface 0 from rest | _ => None end.

(** The pin a route is compensated at, when it is one of a DPLL. *)
Definition compensated_pin (model : DelayCompensationModel) (route : Route) : option string :=
  comp ← findComponentByID (Components model) (rtCompensator route);
  point ← cmCompensationPoint comp;
  if str_eqb (cpType point) "dpll" && negb (str_eqb (cpName point) "") then Some (cpName point) else None.

Definition add_route (model : DelayCompensationModel) (networkInterface : string) (adjustments : gmap string Z) (route : Route) : gmap string Z :=
  match compensated_pin model route, calculateRouteDelay model (rtSequence route) networkInterface with
  | Some pinLabel, Some totalDelay => <[pinLabel := totalDelay]> adjustments
  | _, _ => adjustments
  end.

Definition ResolvePhaseAdjustments (hwDefaults : option HardwareDefaults) (networkInterface : string) : gmap string Z :=
  match h ← hwDefaults; DelayCompensation h with
  | Some model => foldl (add_route model networkInterface) ∅ (Routes model)
  | None => ∅
  end.

Definition adjust_pin (adjustments : gmap string Z) (label : string) (pin : PinConfig) : PinConfig :=
  match adjustments !! label with
  | Some internal => pin <| PhaseAdjustment := Some (int64 (internal + default 0 (PhaseAdjustment pin))) |>
  | None => pin
  end.

Definition adjust_pins (adjustments : gmap string Z) (pins : gmap string PinConfig) : gmap string PinConfig :=
  map_imap (fun label pin => Some (adjust_pin adjustments label pin)) pins.

Definition adjust_subsystem (adjustments : gmap string Z) (s : Subsystem) : Subsystem :=
  let d := sbDPLL s in
  s <| sbDPLL := d <| PhaseInputs := adjust_pins adjustments (PhaseInputs d) |> <| PhaseOutputs := adjust_pins adjustments (PhaseOutputs d) |> |>.

(** Every subsystem of the chain is adjusted. *)
Definition PopulatePhaseAdjustmentsFromDelays (hwDefaults : option HardwareDefaults) (networkInterface : string) (cc : ClockChain) : ClockChain :=
  cc <| Structure_ := map (adjust_subsystem (ResolvePhaseAdjustments hwDefaults networkInterface)) (Structure_ cc) |>.

(** ** Lemmas *)

Lemma lookup_adjust_pins adj pins label : adjust_pins adj pins !! label = adjust_pin adj label <$> pins !! label.
Proof. unfold adjust_pins. rewrite map_lookup_imap. by destruct (pins !! label). Qed.

(** A flag is set exactly when it is named. *)
Lemma or_flags_spec names : forall flags r, or_flags flags names = Some r ->
  forall i, Z.testbit r i = Z.testbit flags i || existsb (fun n => match dpllFlagNames n with Some f => Z.testbit f i | None => false end) names.
Proof.
  induction names as [|n names IH]; intros flags r H i; cbn in *; [injection H as ->; by rewrite orb_false_r|].
  destruct (dpllFlagNames n) as [f|]; cbn in H; [|done]. rewrite (IH _ _ H). by rewrite Z.lor_spec, orb_assoc.
Qed.

(** The sum of the delays of the connections along a route. *)
Fixpoint path_delay (model : DelayCompensationModel) (from : string) (rest : list string) : option Z :=
  match rest with
  | [] => Some 0
  | to :: rest' =>
      conn ← first_match (fun c => str_eqb (cnFrom c) from && str_eqb (cnTo c) to) (Connections model);
      d ← path_delay model to rest'; Some (cnDelayPs conn + d)
  end.

Lemma connection_delay model from to i :
  getConnectionDelay model from to i = cnDelayPs <$> first_match (fun c => str_eqb (cnFrom c) from && str_eqb (cnTo c) to) (Connections model).
Proof.
  unfold getConnectionDelay. destruct (first_match _ _) as [c|]; cbn; [|done]. by destruct (cnGetter c).
Qed.


Lemma int64_add_l a b : int64 (int64 a + b) = int64 (a + b).
Proof.
  unfold int64, wrap_s. change (2 ^ (64 - 1)) with (2 ^ 63).
  replace ((a + 2 ^ 63) mod 2 ^ 64 - 2 ^ 63 + b + 2 ^ 63) with ((a + 2 ^ 63) mod 2 ^ 64 + b) by lia.
  rewrite Z.add_mod_idemp_l by done. do 2 f_equal. lia.
Qed.

Lemma route_delay_sum model i rest : forall t from,
  route_delay model i (int64 t) from rest = (fun d => int64 (t + d)) <$> path_delay model from rest.
Proof.
  induction rest as [|to rest IH]; intros t from; cbn [route_delay path_delay]; [cbn; by rewrite Z.add_0_r|].
  rewrite connection_delay. destruct (first_match _ _) as [c|]; cbn; [|done]. rewrite int64_add_l, IH.
  destruct (path_delay model to rest) as [d|]; cbn; [|done]. do 2 f_equal. lia.
Qed.

(** The internal delays.  A pin has an adjustment exactly when a route is compensated at
    it whose consecutive components are all connected; its value is the sum of the delays of
    the connections of the last such route, in 64 bits. *)
Theorem internal_adjustments (h : HardwareDefaults) (model : DelayCompensationModel) (i label : string) (Hm : DelayCompensation h = Some model) :
  ResolvePhaseAdjustments (Some h) i !! label
  = last_some (fun r => match compensated_pin model r, rtSequence r with
                        | Some l, from :: (_ :: _) as rest => if decide (l = label) then int64 <$> path_delay model from rest else None
                        | _, _ => None
                        end) (Routes model).
Proof.
  unfold ResolvePhaseAdjustments. cbn [mbind option_bind]. rewrite Hm. induction (Routes model) as [|r l IH] using rev_ind; [done|].
  rewrite foldl_snoc, last_some_snoc, <- IH. unfold add_route at 1, calculateRouteDelay.
  destruct (compensated_pin model r) as [p|]; [|done]. destruct (rtSequence r) as [|from [|to rest]]; [done|done|].
  pose proof (route_delay_sum model i (to :: rest) 0 from) as E. change (int64 0) with 0 in E. rewrite E.
  destruct (path_delay model from (to :: rest)) as [d|]; cbn [fmap option_fmap option_map].
  - case_decide as Ed; [subst; by rewrite lookup_insert_eq|by rewrite lookup_insert_ne].
  - by case_decide.
Qed.

(** The part of e825 that leads from the network adapter to the DPLL. *)
Definition e825_model : DelayCompensationModel :=
  mkModel
    [mkComponent "NAC0 PTP phase output" None; mkComponent "DPLL 1kHz input" (Some (mkPoint "GNR-D_SDP2" "dpll"));
     mkComponent "DPLL ESync output 1" (Some (mkPoint "OCP1_CLK" "dpll")); mkComponent "CF1 ESync input" None]
    [mkConnection "NAC0 PTP phase output" "DPLL 1kHz input" None 750; mkConnection "DPLL ESync output 1" "CF1 ESync input" None 37500]
    [mkRoute "NAC PTP to DPLL" ["NAC0 PTP phase output"; "DPLL 1kHz input"] "DPLL 1kHz input";
     mkRoute "DPLL to CF1" ["DPLL ESync output 1"; "CF1 ESync input"] "DPLL ESync output 1"]%string.

Definition e825_defaults : HardwareDefaults := no_defaults <| DelayCompensation := Some e825_model |>.

Theorem internal_adjustments_witness :
  ResolvePhaseAdjustments (Some e825_defaults) "eno5" !! "OCP1_CLK"%string = Some 37500.
Proof. rewrite (internal_adjustments e825_defaults e825_model "eno5" "OCP1_CLK" eq_refl). reflexivity. Defined.

(** Only the board labels of the pin roles are mapped: a label that a template spells out
    stays the old one, as GNSS_1PPS_IN in the T-GM template of e825. *)
Lemma template_labels_stay t labelMap :
  tpSources (RemapBehaviorProfileLabels t labelMap) = tpSources t /\ tpConditions (RemapBehaviorProfileLabels t labelMap) = tpConditions t.
Proof. done. Qed.

(** Without a loader a behaviour profile cannot be asked for. *)
Lemma nil_loader_panics files hwDefPath clockType : LoadBehaviorProfile files hwDefPath clockType None = Panic.
Proof. done. Qed.

(** When no two labels get the same new one, every default is found under its new label. *)
Lemma remapped_default `{MapOrder} hd labelMap label d :
  (forall k k' x x', PinDefaults hd !! k = Some x -> PinDefaults hd !! k' = Some x' ->
     applyLabelRemap k labelMap = applyLabelRemap k' labelMap -> k = k') ->
  PinDefaults hd !! label = Some d -> PinDefaults (RemapPinDefaults hd labelMap) !! applyLabelRemap label labelMap = Some d.
Proof.
  intros Hinj Hl. cbn. rewrite <- elem_of_range in Hl.
  assert (forall l, (label, d) ∈ l -> (forall e, e ∈ l -> e ∈ range (PinDefaults hd)) -> forall m : gmap string PinDefault,
    foldl (fun m e => <[applyLabelRemap e.1 labelMap := e.2]> m) m l !! applyLabelRemap label labelMap = Some d) as Hf; [|by apply Hf].
  induction l as [|e l IH] using rev_ind; intros Hin Hsub m; [by apply not_elem_of_nil in Hin|].
  rewrite foldl_snoc. destruct e as [k x]. cbn [fst snd].
  destruct (decide (applyLabelRemap k labelMap = applyLabelRemap label labelMap)) as [E|E].
  - assert ((k, x) ∈ range (PinDefaults hd)) as Hk by (apply Hsub, elem_of_app; right; by apply list_elem_of_singleton).
    apply elem_of_range in Hk, Hl. rewrite E, lookup_insert_eq. rewrite (Hinj _ _ _ _ Hk Hl E) in Hk. congruence.
  - rewrite lookup_insert_ne by done. apply IH; [|intros e He; apply Hsub, elem_of_app; by left].
    apply elem_of_app in Hin as [?|[= -> ->]%list_elem_of_singleton]; done.
Qed.

End HwVendor.
