(* ===== verification/Paths.v ===== *)
(** * path/filepath on slash-separated paths

    Package path/filepath of the Go standard library, as pkg/hardwareconfig/utils.go and
    pkg/ublox/device.go use it, with the walk from a path to the root. *)

From S2P Require Import Prelude Regex Conf.
From Stdlib Require Import Ascii.

Module Paths.

Definition slash : ascii := "/"%char.

Definition clean_step (rooted : bool) (acc : list string) (e : string) : list string :=
  if str_eqb e "" || str_eqb e "." then acc
  else if str_eqb e ".." then
    match acc with
    | [] => if rooted then [] else [e]
    | x :: acc' => if str_eqb x ".." then e :: acc else acc'
    end
  else e :: acc.

Definition is_rooted (path : string) : bool := match path with String a _ => if ascii_dec a slash then true else false | _ => false end.

Definition Clean (path : string) : string :=
  let elems := join "/" (rev (foldl (clean_step (is_rooted path)) [] (Conf.split_on slash path))) in
  if is_rooted path then ("/" +:+ elems)%string else if str_eqb elems "" then "." else elems.

(** All but the last element. *)
Definition Dir (path : string) : string :=
  let parts := Conf.split_on slash path in
  match removelast parts with
  | [] => "."
  | l => Clean (join "/" l +:+ "/")%string
  end.

(** [filepath.Join]: the empty elements at the front are ignored. *)
Fixpoint Join (l : list string) : string :=
  match l with [] => "" | e :: l' => if str_eqb e "" then Join l' else Clean (join "/" l) end.

(** The last element, after the slashes at the end are removed. *)
Fixpoint last_nonempty (l : list string) (dflt : string) : string :=
  match l with [] => dflt | e :: l' => last_nonempty l' (if str_eqb e "" then dflt else e) end.

Definition Base (path : string) : string :=
  if str_eqb path "" then "." else last_nonempty (Conf.split_on slash path) "/".

(** ** The walk to the root

    [for path := p; path != "." && path != "/"; path = filepath.Dir(path)]: the paths the
    body of the loop sees. *)

Definition top (path : string) : bool := str_eqb path "." || str_eqb path "/".

Fixpoint walk (fuel : nat) (path : string) : option (list string) :=
  if top path then Some []
  else match fuel with O => None | S fuel' => l ← walk fuel' (Dir path); Some (path :: l) end.

(** The fuel is enough: the parent of a path is shorter, or the end ([walk_ends]). *)
Definition ancestors (path : string) : list string := default [] (walk (S (S (String.length path))) path).

(** ** Lengths *)

Lemma length_append (s t : string) : String.length (s +:+ t) = (String.length s + String.length t)%nat.
Proof. induction s as [|a s IH]; [done|]. change (S (String.length (s +:+ t)) = S (String.length s + String.length t)). by rewrite IH. Qed.

(** The characters of the elements, with a slash for each. *)
Fixpoint weight (l : list string) : nat := match l with [] => 0 | e :: l' => S (String.length e + weight l') end.

Lemma weight_app l l' : weight (l ++ l') = (weight l + weight l')%nat.
Proof. induction l as [|x l IH]; [done|]. cbn. rewrite IH. lia. Qed.

Lemma weight_rev l : weight (rev l) = weight l.
Proof. induction l as [|x l IH]; [done|]. cbn [rev]. rewrite weight_app, IH. cbn. lia. Qed.

Lemma split_cons c s : exists e l, Conf.split_on c s = e :: l.
Proof. destruct s as [|a s]; cbn; [by eauto|]. destruct (ascii_dec a c); [by eauto|]. destruct (Conf.split_on c s); by eauto. Qed.

Lemma weight_split c s : weight (Conf.split_on c s) = S (String.length s).
Proof.
  induction s as [|a s IH]; [done|]. cbn. destruct (ascii_dec a c); [cbn in *; lia|].
  destruct (Conf.split_on c s) as [|h t]; cbn in *; lia.
Qed.

Lemma join_cons e e' l : join "/" (e :: e' :: l) = (e +:+ String slash (join "/" (e' :: l)))%string.
Proof. done. Qed.

Lemma length_join e l : S (String.length (join "/" (e :: l))) = weight (e :: l).
Proof.
  revert e. induction l as [|e' l IH]; intros e; [cbn; lia|]. rewrite join_cons, length_append.
  specialize (IH e'). change (weight (e :: e' :: l)) with (S (String.length e + weight (e' :: l))). rewrite <- IH. cbn [String.length]. lia.
Qed.

(** Splitting what was joined to a last element. *)
Lemma split_snoc s : exists l e, Conf.split_on slash s = l ++ [e] /\ removelast (Conf.split_on slash s) = l /\
  s = match l with [] => e | _ => join "/" l +:+ String slash e end%string.
Proof.
  induction s as [|a s (l & e & E & R & Es)]; [by exists [], ""%string|]. cbn.
  destruct (ascii_dec a slash) as [->|Ha].
  - exists (""%string :: l), e. rewrite E. split; [done|]. rewrite E in R.
    split; [|destruct l; rewrite Es at 1; done].
    destruct (l ++ [e]) eqn:El; [by destruct l|]. by rewrite <- R.
  - rewrite E in R |- *. destruct l as [|h t]; cbn [app] in *.
    + exists [], (String a e). by rewrite Es.
    + exists (String a h :: t), e. split; [done|]. split.
      * destruct (t ++ [e]) eqn:El; [by destruct t|]. cbn in *. by injection R as ->.
      * rewrite Es. destruct t as [|t0 t]; [done|]. by rewrite !join_cons.
Qed.

(** ** The walk ends *)

Lemma clean_step_weight rooted acc e :
  (weight (clean_step rooted acc e) <= weight acc + S (String.length e))%nat /\ (e = ""%string -> clean_step rooted acc e = acc).
Proof.
  unfold clean_step, str_eqb. split; [|by intros ->]. case_bool_decide; cbn [orb]; [lia|]. case_bool_decide; [lia|].
  case_bool_decide as He; [|cbn; lia]. destruct acc as [|x acc]; [destruct rooted; cbn; lia|].
  case_bool_decide; cbn; lia.
Qed.

Lemma clean_weight rooted l acc : (weight (foldl (clean_step rooted) acc l) <= weight acc + weight l)%nat.
Proof.
  revert acc. induction l as [|e l IH]; intros acc; cbn [foldl]; [cbn; lia|].
  etransitivity; [apply IH|]. pose proof (proj1 (clean_step_weight rooted acc e)). cbn. lia.
Qed.

(** The elements that are left of a path that ends with a slash. *)
Lemma clean_elems rooted t : (weight (rev (foldl (clean_step rooted) [] (Conf.split_on slash (t +:+ "/")))) <= S (String.length t))%nat.
Proof.
  rewrite weight_rev. assert (Conf.split_on slash (t +:+ "/") = Conf.split_on slash t ++ [""%string]) as ->.
  - induction t as [|a t IH]; [done|]. change (String a t +:+ "/")%string with (String a (t +:+ "/")). cbn. destruct (ascii_dec a slash); [by rewrite IH|].
    rewrite IH. by destruct (split_cons slash t) as (e & l & ->).
  - rewrite foldl_app. cbn [foldl]. rewrite (proj2 (clean_step_weight _ _ _) eq_refl).
    etransitivity; [apply clean_weight|]. by rewrite weight_split.
Qed.

Lemma clean_short t : top (Clean (t +:+ "/")) = true \/ (String.length (Clean (t +:+ "/")) <= String.length t)%nat.
Proof.
  pose proof (clean_elems (is_rooted (t +:+ "/")) t) as Hw. unfold Clean. destruct (is_rooted (t +:+ "/")) eqn:Hr.
  - destruct t as [|a t]; [by left|]. change ((if ascii_dec a slash then true else false) = true) in Hr. destruct (ascii_dec a slash) as [->|]; [|done]. clear Hr.
    assert (weight (rev (foldl (clean_step true) [] (Conf.split_on slash (String slash t +:+ "/")))) <= S (String.length t))%nat as Hw'.
    { change (Conf.split_on slash (String slash t +:+ "/")) with (""%string :: Conf.split_on slash (t +:+ "/")). apply clean_elems. }
    destruct (rev _) as [|e l]; [by left|]. right. rewrite <- length_join in Hw'. change (S (String.length (join "/" (e :: l))) <= S (String.length t))%nat. exact Hw'.
  - destruct (rev _) as [|e l]; [by left|]. unfold str_eqb. case_bool_decide; [by left|]. right. rewrite <- length_join in Hw. lia.
Qed.

(** The parent of a path is the end of the walk, or shorter. *)
Lemma dir_short path : top (Dir path) = true \/ (String.length (Dir path) < String.length path)%nat.
Proof.
  unfold Dir. destruct (split_snoc path) as (l & e & _ & -> & E). destruct l as [|h t]; [by left|].
  destruct (clean_short (join "/" (h :: t))) as [?|H]; [by left|right].
  eapply Nat.le_lt_trans; [exact H|]. rewrite E at 1. rewrite length_append. cbn [String.length]. lia.
Qed.

Lemma walk_more fuel path : top path = true \/ (String.length path < fuel)%nat -> is_Some (walk fuel path).
Proof.
  revert path. induction fuel as [|fuel IH]; intros path [Ht|H]; cbn; try (rewrite Ht; by eauto); [lia|].
  destruct (top path) eqn:Ht; [by eauto|]. destruct (IH (Dir path)) as [l ->]; [|by eauto].
  destruct (dir_short path) as [?|?]; [by left|right; lia].
Qed.

(** The walk ends whatever the path: [ancestors] is all of it. *)
Lemma walk_ends path : walk (S (S (String.length path))) path = Some (ancestors path).
Proof. unfold ancestors. destruct (walk_more (S (S (String.length path))) path) as [l ->]; [right; lia|done]. Qed.

Lemma walk_fuel fuel path l : walk fuel path = Some l -> forall fuel', (fuel <= fuel')%nat -> walk fuel' path = Some l.
Proof.
  revert path l. induction fuel as [|fuel IH]; intros path l E fuel' Hle; cbn in E.
  - destruct fuel'; cbn; destruct (top path); done.
  - destruct fuel' as [|fuel']; [lia|]. cbn. destruct (top path); [done|].
    destruct (walk fuel (Dir path)) as [l'|] eqn:E'; [|done]. rewrite (IH _ _ E' fuel') by lia. exact E.
Qed.

Lemma walk_S fuel path : walk (S fuel) path = if top path then Some [] else l ← walk fuel (Dir path); Some (path :: l).
Proof. done. Qed.

(** The equation of the loop. *)
Lemma ancestors_eq path : ancestors path = if top path then [] else path :: ancestors (Dir path).
Proof.
  pose proof (walk_ends path) as H. rewrite walk_S in H. destruct (top path); [congruence|].
  destruct (walk (S (String.length path)) (Dir path)) as [l|] eqn:E; [|done]. injection H as H. rewrite <- H. f_equal. clear H.
  pose proof (walk_ends (Dir path)) as H'. set (k := S (S (String.length (Dir path)))) in *.
  destruct (Nat.le_ge_cases (S (String.length path)) k) as [Hle|Hle].
  - pose proof (walk_fuel _ _ _ E _ Hle). congruence.
  - pose proof (walk_fuel _ _ _ H' _ Hle). congruence.
Qed.

Example ancestors_tty : ancestors "/sys/devices/pci0000:00/tty/ttyS0" =
  ["/sys/devices/pci0000:00/tty/ttyS0"; "/sys/devices/pci0000:00/tty"; "/sys/devices/pci0000:00"; "/sys/devices"; "/sys"]%string.
Proof. reflexivity. Qed.

End Paths.
