(* ===== verification/GnssDevice.v ===== *)
(** * pkg/ublox: the device of a GNSS receiver

    pkg/ublox/device.go: which tty a receiver has, found below /sys from a network interface,
    a PCI or USB device, or an ACPI serial device.  The files, the links and the output of
    ethtool are the environment's; text is ASCII. *)

From S2P Require Import Prelude Strconv Regex Parser Conf Ublox Paths.
From Stdlib Require Import Ascii Permutation.
From stdpp Require Import sorting.

#[local] Open Scope Z_scope.

Module GnssDevice.

Import Paths.

(** A value or the text of an error. *)
Definition result (A : Type) : Type := A + string.

Record Sysfs := mkSysfs {
  ReadDir : string -> list string + string;
  readFile : string -> option string;
  evalSymlinks : string -> option string;
  commandOutput : string -> list string -> option string
}.

(** ** Text *)

(** [%q] of a string. *)
Definition quote_char (a : ascii) : string :=
  let n := N_of_ascii a in
  if (n =? 34)%N then String "\" (String a "")
  else if (n =? 92)%N then "\\"
  else if (n =? 7)%N then "\a" else if (n =? 8)%N then "\b" else if (n =? 9)%N then "\t" else if (n =? 10)%N then "\n"
  else if (n =? 11)%N then "\v" else if (n =? 12)%N then "\f" else if (n =? 13)%N then "\r"
  else if (n <? 32)%N || (n =? 127)%N then ("\x" +:+ (if (n <? 16)%N then "0" else "") +:+ fmt_x (Z.of_N n))%string
  else String a "".

Fixpoint quote_chars (s : string) : string := match s with EmptyString => "" | String a s' => (quote_char a +:+ quote_chars s')%string end.
Definition dquote : string := String (ascii_of_N 34) "".
Definition Quote (s : string) : string := (dquote +:+ quote_chars s +:+ dquote)%string.

Definition equal_fold (a b : string) : bool := str_eqb (Ublox.to_lower a) (Ublox.to_lower b).

Fixpoint count_char (c : ascii) (s : string) : nat :=
  match s with EmptyString => 0 | String a s' => (if ascii_dec a c then 1 else 0) + count_char c s' end%nat.

(** [strings.SplitN(s, c, 2)] when it has two parts. *)
Fixpoint cut_at (c : ascii) (s : string) : option (string * string) :=
  match s with
  | EmptyString => None
  | String a s' => if ascii_dec a c then Some (""%string, s') else match cut_at c s' with Some (x, y) => Some (String a x, y) | None => None end
  end.

Definition str_le (a b : string) : Prop := String.leb a b = true.
#[export] Instance str_le_dec a b : Decision (str_le a b) := bool_eq_dec (String.leb a b) true.
Definition sort_strings (l : list string) : list string := merge_sort str_le l.

Definition trim_prefix (p s : string) : string := default s (drop_prefix p s).
Definition has_prefix (p s : string) : bool := bool_decide (is_Some (drop_prefix p s)).

Definition colon : ascii := ":"%char.
Definition dot : ascii := "."%char.

(** ** Selectors *)

Definition pciAddressPattern : Regex.Regexp := Eval vm_compute in Parser.pattern "^[0-9a-fA-F]{4}:[0-9a-fA-F]{2}:[0-9a-fA-F]{2}\.[0-7]$".

Definition normalizePCIAddress (address : string) : string + string :=
  let address := Parser.TrimSpace address in
  let invalid (a : string) : string := ("invalid PCI address " +:+ Quote a)%string in
  if negb (str_eqb (Base address) address) || str_eqb address "." || str_eqb address ".." then inr (invalid address)
  else
    let address := if (count_char colon address =? 1)%nat then ("0000:" +:+ address)%string else address in
    if Regex.MatchString pciAddressPattern address then inl address else inr (invalid address).

(** [%04x]. *)
Definition fmt_04x (n : Z) : string :=
  let s := fmt_x n in (String.concat "" (replicate (4 - String.length s) "0"%string) +:+ s)%string.

Definition normalizePCIID (id : string) : string + string :=
  let id := Parser.TrimSpace (trim_prefix "0x" (Ublox.to_lower id)) in
  if str_eqb id "" || (4 <? String.length id)%nat then inr "must be one to four hexadecimal digits"%string
  else
    let '(value, ok) := ParseUint id 16 16 in
    if ok then inl (fmt_04x value) else inr ("must be hexadecimal: strconv.ParseUint: parsing " +:+ Quote id +:+ ": invalid syntax")%string.

Definition normalizeUSBID (id : string) : string + string := normalizePCIID id.

Definition normalizePCIPosition (position : string) : string + string :=
  let '(value, ok) := ParseUint (Parser.TrimSpace position) 10 32 in
  if ok then inl (fmt_uint 10 value) else inr "must be a non-negative decimal number"%string.

(** [net.ParseMAC] of an address of six bytes, written back in lower case with colons. *)
Definition hex_digit (a : ascii) : bool := char_digit a <? 16.

Fixpoint hex_text (s : string) : bool := match s with EmptyString => true | String a s' => hex_digit a && hex_text s' end.

Definition hex_part (n : nat) (s : string) : bool := (String.length s =? n)%nat && hex_text s.

Definition hex_bytes (c : ascii) (count size : nat) (s : string) : option (list string) :=
  let parts := Conf.split_on c s in
  if (length parts =? count)%nat && forallb (hex_part size) parts then Some parts else None.

Definition halves (s : string) : list string := match s with String a (String b rest) => [String a (String b ""); rest] | _ => [s] end.

Definition ParseMAC (s : string) : option string :=
  match hex_bytes colon 6 2 s with
  | Some l => Some (Ublox.to_lower (Prelude.join ":" l))
  | None =>
      match hex_bytes "-"%char 6 2 s with
      | Some l => Some (Ublox.to_lower (Prelude.join ":" l))
      | None => l ← hex_bytes dot 3 4 s; Some (Ublox.to_lower (Prelude.join ":" (flat_map halves l)))
      end
  end.

Definition decimalUSBPathComponent (value : string) : bool :=
  negb (str_eqb value "") && forallb (fun a => (48 <=? Z.of_N (N_of_ascii a)) && (Z.of_N (N_of_ascii a) <=? 57)) (String.list_ascii_of_string value).

Definition validUSBTopologyPath (path : string) : bool :=
  match Conf.split_on "-"%char path with
  | [bus; ports] => decimalUSBPathComponent bus && forallb decimalUSBPathComponent (Conf.split_on dot ports)
  | _ => false
  end.

Section Sysfs.
Context (sys : Sysfs).

Definition ttyClassSysfsPath : string := "/sys/class/tty".
Definition netClassSysfsPath : string := "/sys/class/net".
Definition pciSlotsSysfsPath : string := "/sys/bus/pci/slots".

(** ** Network interfaces *)

Definition GNSSDeviceFromInterface (iface : string) : string + string :=
  let gnssDir := ("/sys/class/net/" +:+ iface +:+ "/device/gnss")%string in
  match ReadDir sys gnssDir with
  | inr err => inr ("no GNSS device found for interface " +:+ iface +:+ ": " +:+ err)%string
  | inl entries =>
      match sort_strings entries with
      | [] => inr ("GNSS sysfs directory " +:+ gnssDir +:+ " is empty")%string
      | entry :: _ => inl ("/dev/" +:+ entry)%string
      end
  end.

Definition mac_line (line : string) : option string := drop_prefix "Permanent address:" (Parser.TrimSpace line).

Definition readPermanentMACAddress (iface : string) : option string :=
  output ← commandOutput sys "ethtool" ["-P"%string; iface];
  value ← head (omap mac_line (Conf.split_on Conf.newline_char output));
  ParseMAC (Parser.TrimSpace value).

Definition pciIDMatches (devicePath attribute expected : string) : bool :=
  match readFile sys (Join [devicePath; attribute]) with
  | Some actual => equal_fold (Parser.TrimSpace actual) ("0x" +:+ expected)%string
  | None => false
  end.

Definition position (text : option string) : option string :=
  t ← text; match normalizePCIPosition t with inl slot => Some slot | inr _ => None end.

(** One entry of the slots: its number, when its address is the beginning of that of the device. *)
Definition slot_entry (pciAddress entry : string) : option string :=
  address ← readFile sys (Join [pciSlotsSysfsPath; entry; "address"%string]);
  let slotAddress := Parser.TrimSpace address in
  let slotAddress := if (count_char colon slotAddress =? 1)%nat then ("0000:" +:+ slotAddress)%string else slotAddress in
  if negb (str_eqb slotAddress "") && has_prefix slotAddress pciAddress then position (Some entry) else None.

(** The slot found at one directory of the walk. *)
Definition slot_at (path : string) : option string :=
  match position (readFile sys (Join [path; "firmware_node"; "sun"]%string)) with
  | Some slot => Some slot
  | None =>
      let pciAddress := Base path in
      if negb (Regex.contains ":" pciAddress) || negb (Regex.contains "." pciAddress) then None
      else match ReadDir sys pciSlotsSysfsPath with inl entries => head (omap (slot_entry pciAddress) (sort_strings entries)) | inr _ => None end
  end.

Definition pciSlotID (devicePath : string) : option string := head (omap slot_at (ancestors devicePath)).

Definition is_set (s : string) : bool := negb (str_eqb s "").
Definition device_link (iface : string) : option string := evalSymlinks sys (Join [netClassSysfsPath; iface; "device"%string]).

(** A selector that is given and does not match. *)
Definition rejects (selector : string) (matching : bool) : bool := is_set selector && negb matching.

Definition same_text (actual : option string) (expected : string) : bool := match actual with Some a => str_eqb a expected | None => false end.

Definition ethernetInterfaceMatches (iface name pciAddress permanentMAC slot vendorID deviceID : string) : bool :=
  if is_set name && negb (str_eqb iface name) then false
  else if negb (existsb is_set [pciAddress; permanentMAC; slot; vendorID; deviceID]) then true
  else
    match device_link iface with
    | None => false
    | Some devicePath =>
        negb (rejects pciAddress (equal_fold (Base devicePath) pciAddress)
              || rejects permanentMAC (match readPermanentMACAddress iface with Some a => equal_fold a permanentMAC | None => false end)
              || rejects slot (same_text (pciSlotID devicePath) slot)
              || rejects vendorID (pciIDMatches devicePath "vendor" vendorID)
              || rejects deviceID (pciIDMatches devicePath "device" deviceID))
    end.

Record ethernetGNSSCandidate := mkCandidate { cdIface : string; cdDevice : string; cdSlot : string }.

Definition candidate (iface : string) : option ethernetGNSSCandidate :=
  match GNSSDeviceFromInterface iface with
  | inl device => Some (mkCandidate iface device (default "unknown"%string (devicePath ← device_link iface; pciSlotID devicePath)))
  | inr _ => None
  end.

Definition candidate_text (c : ethernetGNSSCandidate) : string :=
  (cdDevice c +:+ " (interface " +:+ cdIface c +:+ ", slot " +:+ cdSlot c +:+ ")")%string.

Definition gnssDeviceFromEthernetInterfaces (interfaces : list string) : string + string :=
  match omap candidate (sort_strings interfaces) with
  | [] => inr "no GNSS device found for EthernetDevice"%string
  | [c] => inl (cdDevice c)
  | cs => inr ("multiple GNSS devices found for EthernetDevice: " +:+ Prelude.join ", " (map candidate_text cs) +:+ "; specify slot to disambiguate")%string
  end.

(** A selector that is not given stays empty; an error is wrapped. *)
Definition normalized (normalize : string -> string + string) (wrap : string -> string -> string) (s : string) : string + string :=
  if str_eqb s "" then inl s else match normalize s with inl v => inl v | inr err => inr (wrap s err) end.

Definition invalid (what : string) (raw err : string) : string := ("invalid " +:+ what +:+ " " +:+ Quote raw +:+ ": " +:+ err)%string.

Definition normalize_mac (s : string) : string + string :=
  match ParseMAC (Parser.TrimSpace s) with Some a => inl a | None => inr ("invalid permanent MAC address " +:+ Quote s)%string end.

Definition rbind {A B} (r : A + string) (k : A -> B + string) : B + string := match r with inl a => k a | inr err => inr err end.

Definition GNSSDeviceFromEthernetDevice (name pciAddress permanentMAC slot vendorID deviceID : string) : string + string :=
  if negb (existsb is_set [name; pciAddress; permanentMAC; slot; vendorID; deviceID]) then inr "EthernetDevice has no selection criteria"%string
  else
    rbind (normalized normalizePCIAddress (fun _ err => err) pciAddress) (fun pciAddress =>
    rbind (normalized normalize_mac (fun _ err => err) permanentMAC) (fun permanentMAC =>
    rbind (normalized normalizePCIPosition (invalid "PCI slot ID") slot) (fun slot =>
    rbind (normalized normalizePCIID (invalid "PCI vendor ID") vendorID) (fun vendorID =>
    rbind (normalized normalizePCIID (invalid "PCI device ID") deviceID) (fun deviceID =>
    if is_set name && negb (existsb is_set [pciAddress; permanentMAC; slot; vendorID; deviceID]) then GNSSDeviceFromInterface name
    else
      match ReadDir sys netClassSysfsPath with
      | inr err => inr ("cannot enumerate Ethernet devices: " +:+ err)%string
      | inl entries =>
          gnssDeviceFromEthernetInterfaces
            (List.filter (fun i => ethernetInterfaceMatches i name pciAddress permanentMAC slot vendorID deviceID) entries)
      end))))).

(** ** Terminals *)

(** The ttys whose device satisfies a test, with what the test found. *)
Definition tty_match {A} (matches : string -> option A) (ttyClassPath entry : string) : option (string * A) :=
  device ← evalSymlinks sys (Join [ttyClassPath; entry; "device"%string]);
  found ← matches device;
  Some (Join ["/dev"%string; entry], found).

Definition acpi_at (hid uid path : string) : bool :=
  match cut_at colon (Base path) with
  | Some (h, u) => equal_fold h hid && (str_eqb uid "" || equal_fold u uid)
  | None => false
  end.

Definition acpiDeviceMatches (devicePath hid uid : string) : bool := existsb (acpi_at hid uid) (ancestors devicePath).

(** The one candidate, or the error for none or for many. *)
Definition only (none : string) (many : list string -> string) (candidates : list string) : string + string :=
  match sort_strings candidates with [] => inr none | [c] => inl c | cs => inr (many cs) end.

Definition findTTYFromACPIDevice (ttyClassPath hid uid : string) : string + string :=
  let selector := (hid +:+ if str_eqb uid "" then "" else ":" +:+ uid)%string in
  match ReadDir sys ttyClassPath with
  | inr err => inr ("cannot enumerate tty devices: " +:+ err)%string
  | inl entries =>
      only ("no tty device found for ACPI serial device " +:+ selector)%string
        (fun cs => "multiple tty devices found for ACPI serial device " +:+ selector +:+ ": " +:+ Prelude.join ", " cs)%string
        (omap (tty_match (fun device => if acpiDeviceMatches device hid uid then Some tt else None) ttyClassPath) entries).*1
  end.

Definition GNSSDeviceFromACPIDevice (hid uid : string) : string + string :=
  let hid := Parser.TrimSpace hid in
  if str_eqb hid "" then inr "invalid ACPI hardware ID: must not be empty"%string
  else findTTYFromACPIDevice ttyClassSysfsPath hid (Parser.TrimSpace uid).

Definition usb_id (sysfsPath name expected : string) : bool :=
  match readFile sys (Join [sysfsPath; name]) with Some actual => equal_fold (Parser.TrimSpace actual) expected | None => false end.

Definition usb_at (vendor product topologyPath sysfsPath : string) : option string :=
  subsystemPath ← evalSymlinks sys (Join [sysfsPath; "subsystem"%string]);
  if str_eqb (Base subsystemPath) "usb" then
    let matchedPath := Base sysfsPath in
    if negb (str_eqb topologyPath "") && negb (str_eqb matchedPath topologyPath) then None
    else if usb_id sysfsPath "idVendor" vendor && usb_id sysfsPath "idProduct" product then Some matchedPath else None
  else None.

Definition usbDeviceMatchPath (devicePath vendor product topologyPath : string) : option string :=
  head (omap (usb_at vendor product topologyPath) (ancestors devicePath)).

Definition findTTYFromUSBDevice (ttyClassPath vendor product topologyPath : string) : string + string :=
  let device := (vendor +:+ ":" +:+ product +:+ " at path " +:+ Quote topologyPath)%string in
  match ReadDir sys ttyClassPath with
  | inr err => inr ("cannot enumerate tty devices: " +:+ err)%string
  | inl entries =>
      let found := omap (tty_match (fun d => usbDeviceMatchPath d vendor product topologyPath) ttyClassPath) entries in
      only ("no tty device found for USB device " +:+ device)%string
        (fun cs => "multiple tty devices found for USB device " +:+ device +:+ ": " +:+ Prelude.join ", " cs +:+ "; matched USB paths: "
                   +:+ Prelude.join ", " (sort_strings (elements (list_to_set found.*2 : gset string))))%string
        found.*1
  end.

Definition GNSSDeviceFromUSB (vendor product topologyPath : string) : string + string :=
  rbind (match normalizeUSBID vendor with inl v => inl v | inr err => inr (invalid "USB vendor ID" vendor err) end) (fun v =>
  rbind (match normalizeUSBID product with inl p => inl p | inr err => inr (invalid "USB product ID" product err) end) (fun p =>
  let topology := Parser.TrimSpace topologyPath in
  if negb (str_eqb topology "") && negb (validUSBTopologyPath topology) then inr ("invalid USB topology path " +:+ Quote topology)%string
  else findTTYFromUSBDevice ttyClassSysfsPath v p topology)).

End Sysfs.

(** * Properties *)

Lemma sort_strings_perm l : sort_strings l ≡ₚ l.
Proof. apply merge_sort_Permutation. Qed.

Lemma sort_strings_one l x : sort_strings l = [x] <-> l = [x].
Proof.
  split; [|by intros ->]. intros E. pose proof (sort_strings_perm l) as Hp. rewrite E in Hp. by apply Permutation_length_1_inv in Hp.
Qed.

Lemma only_inl none many candidates c : only none many candidates = inl c <-> candidates = [c].
Proof.
  unfold only. rewrite <- sort_strings_one. destruct (sort_strings candidates) as [|x [|y l]]; split; intros H; try done; by injection H as ->.
Qed.

(** Looking for the one element that is found is looking for the one that satisfies the test. *)
Lemma omap_one {A B} (f : A -> option B) (p : A -> bool) (l : list A) b : (forall x, p x = true <-> is_Some (f x)) ->
  omap f l = [b] <-> exists x, List.filter p l = [x] /\ f x = Some b.
Proof.
  intros Hp. assert (forall l, omap f l = [] <-> List.filter p l = []) as Hnil.
  { induction l0 as [|x l0 IH]; cbn; [done|]. specialize (Hp x). destruct (f x) as [y|]; destruct (p x); try done.
    - assert (false = true) by (apply Hp; by eexists). done.
    - by destruct (proj1 Hp eq_refl). }
  induction l as [|x l IH]; cbn; [split; [done|by intros (? & ? & ?)]|]. specialize (Hp x) as Hx. destruct (f x) as [y|] eqn:Ef.
  - rewrite (proj2 Hx) by (by eexists). split.
    + intros [= -> E]. exists x. by rewrite (proj1 (Hnil l) E).
    + intros (x' & [= <- E] & E'). rewrite (proj2 (Hnil l) E). congruence.
  - destruct (p x); [by destruct (proj1 Hx eq_refl)|]. exact IH.
Qed.

Section Sysfs.
Context (sys : Sysfs).

Definition has_receiver (iface : string) : bool := match GNSSDeviceFromInterface sys iface with inl _ => true | inr _ => false end.

Lemma filter_one_sorted (p : string -> bool) l x : List.filter p (sort_strings l) = [x] <-> List.filter p l = [x].
Proof.
  assert (List.filter p (sort_strings l) ≡ₚ List.filter p l) as Hp.
  { generalize (sort_strings_perm l). generalize (sort_strings l). intros l' Hl. induction Hl as [|y a b _ IH|y z a|a b c _ IH1 _ IH2]; cbn; [done| | |by etrans].
    - destruct (p y); [by rewrite IH|done].
    - destruct (p y), (p z); try done. apply Permutation_swap. }
  split; intros E; rewrite E in Hp.
  - by apply Permutation_length_1_inv in Hp.
  - symmetry in Hp. by apply Permutation_length_1_inv in Hp.
Qed.

(** The device of Ethernet interfaces is the device of the only one that has a receiver. *)
Lemma ethernet_unique interfaces d : gnssDeviceFromEthernetInterfaces sys interfaces = inl d <->
  exists iface, List.filter has_receiver interfaces = [iface] /\ GNSSDeviceFromInterface sys iface = inl d.
Proof.
  assert (forall c, omap (candidate sys) (sort_strings interfaces) = [c] <->
      exists x, List.filter has_receiver interfaces = [x] /\ candidate sys x = Some c) as H.
  { intros c. rewrite (omap_one _ has_receiver).
    - by setoid_rewrite filter_one_sorted.
    - intros x. unfold has_receiver, candidate. destruct (GNSSDeviceFromInterface sys x); split; done. }
  unfold gnssDeviceFromEthernetInterfaces. split.
  - destruct (omap _ _) as [|c [|c' l]] eqn:Eo; intros E; try done. injection E as <-. destruct (proj1 (H c) eq_refl) as (x & E & Ec).
    exists x. split; [done|]. unfold candidate in Ec. destruct (GNSSDeviceFromInterface sys x) as [dev|]; by simplify_eq/=.
  - intros (x & E & Ed). assert (exists c, candidate sys x = Some c /\ cdDevice c = d) as (c & Ec & <-) by (unfold candidate; rewrite Ed; by eexists).
    by rewrite (proj2 (H c)) by (exists x; done).
Qed.

Lemma rbind_inl {A B} (r : A + string) (k : A -> B + string) b : rbind r k = inl b <-> exists a, r = inl a /\ k a = inl b.
Proof. destruct r as [a|e]; cbn; split; [by eexists|by intros (? & [= ->] & ?)|done|by intros (? & ? & ?)]. Qed.

(** A matcher for an Ethernet device never picks one of several receivers: what it
    returns is the device of the named interface, or that of the only interface below
    /sys/class/net which agrees with every selector that is given, in its normal form, and has
    a receiver.  With none or with several of those the result is an error. *)
Theorem ethernet_device_unique name pci mac slot vendor device d :
  GNSSDeviceFromEthernetDevice sys name pci mac slot vendor device = inl d ->
  exists pci' mac' slot' vendor' device',
    normalized normalizePCIAddress (fun _ err => err) pci = inl pci' /\ normalized normalize_mac (fun _ err => err) mac = inl mac'
    /\ normalized normalizePCIPosition (invalid "PCI slot ID") slot = inl slot'
    /\ normalized normalizePCIID (invalid "PCI vendor ID") vendor = inl vendor'
    /\ normalized normalizePCIID (invalid "PCI device ID") device = inl device'
    /\ (if is_set name && negb (existsb is_set [pci'; mac'; slot'; vendor'; device']) then GNSSDeviceFromInterface sys name = inl d
        else exists entries iface, ReadDir sys netClassSysfsPath = inl entries
          /\ List.filter has_receiver (List.filter (fun i => ethernetInterfaceMatches sys i name pci' mac' slot' vendor' device') entries) = [iface]
          /\ GNSSDeviceFromInterface sys iface = inl d).
Proof.
  unfold GNSSDeviceFromEthernetDevice. destruct (existsb is_set [name; pci; mac; slot; vendor; device]); cbn [negb]; [|done].
  intros (pci' & Epci & (mac' & Emac & (slot' & Eslot & (vendor' & Evendor & (device' & Edevice & E)%rbind_inl)%rbind_inl)%rbind_inl)%rbind_inl)%rbind_inl.
  exists pci', mac', slot', vendor', device'. split_and!; [done..|]. destruct (_ && _); [done|].
  destruct (ReadDir sys netClassSysfsPath) as [entries|]; [|done]. apply ethernet_unique in E as (iface & Ef & Ed). by exists entries, iface.
Qed.

(** The ttys below a directory whose device satisfies a test. *)
Definition tty_matches {A} (matches : string -> option A) (ttyClassPath entry : string) : bool :=
  match tty_match sys matches ttyClassPath entry with Some _ => true | None => false end.

Lemma tty_one {A} (matches : string -> option A) ttyClassPath entries dev :
  (omap (tty_match sys matches ttyClassPath) entries).*1 = [dev] <->
  exists entry, List.filter (tty_matches matches ttyClassPath) entries = [entry] /\ dev = Join ["/dev"; entry]%string.
Proof.
  assert (forall e, tty_matches matches ttyClassPath e = true <-> is_Some (tty_match sys matches ttyClassPath e)) as Hm.
  { intros e. unfold tty_matches. by destruct (tty_match _ _ _ e); split. }
  split.
  - destruct (omap _ _) as [|[d a] [|]] eqn:E; intros Ed; try done. injection Ed as ->.
    apply (omap_one _ _ _ _ Hm) in E as (x & Ex & Et). exists x. split; [done|]. unfold tty_match in Et.
    destruct (evalSymlinks _ _); cbn in Et; [|done]. destruct (matches _); cbn in Et; by simplify_eq.
  - intros (x & Ex & ->). assert (tty_matches matches ttyClassPath x = true) as Hx.
    { assert (x ∈ List.filter (tty_matches matches ttyClassPath) entries) as Hi by (rewrite Ex; by apply list_elem_of_singleton).
      apply list_elem_of_In, List.filter_In in Hi. by destruct Hi. }
    apply Hm in Hx as [[d a] Et]. rewrite (proj2 (omap_one _ _ _ (d, a) Hm)) by (by exists x). unfold tty_match in Et.
    destruct (evalSymlinks _ _); cbn in Et; [|done]. destruct (matches _); cbn in Et; by simplify_eq.
Qed.

(** A serial device is found by its ACPI name exactly when a single tty has a device
    below it: a tty one of whose directories up to the root is called HID:UID, with any UID
    when none is given, in any case. *)
Theorem acpi_device_unique hid uid dev : Parser.TrimSpace hid <> ""%string ->
  GNSSDeviceFromACPIDevice sys hid uid = inl dev <->
  exists entries entry, ReadDir sys ttyClassSysfsPath = inl entries /\ dev = Join ["/dev"; entry]%string
    /\ List.filter (tty_matches (fun device => if acpiDeviceMatches device (Parser.TrimSpace hid) (Parser.TrimSpace uid) then Some tt else None)
                      ttyClassSysfsPath) entries = [entry].
Proof.
  intros Hh. unfold GNSSDeviceFromACPIDevice, findTTYFromACPIDevice. unfold str_eqb at 1. rewrite bool_decide_eq_false_2 by done.
  destruct (ReadDir sys ttyClassSysfsPath) as [entries|err]; [|split; [done|by intros (? & ? & ? & ?)]].
  rewrite only_inl, tty_one. split.
  - intros (entry & Ef & ->). by exists entries, entry.
  - intros (entries' & entry & [= <-] & -> & Ef). by exists entry.
Qed.

End Sysfs.

(** A tty and an Ethernet device below /sys. *)
Definition sample_sys : Sysfs := mkSysfs
  (fun path => if str_eqb path "/sys/class/net" then inl ["eno5"; "eno6"; "lo"]
               else if str_eqb path "/sys/class/net/eno5/device/gnss" then inl ["gnss0"]
               else if str_eqb path "/sys/class/tty" then inl ["ttyS0"; "ttyS2"]
               else inr "no such file")%string
  (fun path => if str_eqb path "/sys/devices/pci0000:00/0000:17:00.0/vendor" then Some "0x8086" else None)%string
  (fun path => if str_eqb path "/sys/class/net/eno5/device" then Some "/sys/devices/pci0000:00/0000:17:00.0"
               else if str_eqb path "/sys/class/tty/ttyS2/device" then Some "/sys/devices/platform/INTC10EE:00/serial0" else None)%string
  (fun _ _ => None).

Lemma ethernet_device_unique_witness : GNSSDeviceFromEthernetDevice sample_sys "" "" "" "" "0x8086" "" = inl "/dev/gnss0"%string.
Proof.
  assert (GNSSDeviceFromEthernetDevice sample_sys "" "" "" "" "0x8086" "" = inl "/dev/gnss0"%string) as H by (vm_compute; reflexivity).
  pose proof (ethernet_device_unique sample_sys "" "" "" "" "0x8086" "" "/dev/gnss0" H) as (pci & mac & slot & vendor & device & _). exact H.
Defined.

Lemma acpi_device_unique_witness : GNSSDeviceFromACPIDevice sample_sys " intc10ee" "" = inl "/dev/ttyS2"%string.
Proof.
  apply (acpi_device_unique sample_sys " intc10ee" "" "/dev/ttyS2"); [vm_compute; congruence|].
  exists ["ttyS0"; "ttyS2"]%string, "ttyS2"%string. split_and!; vm_compute; reflexivity.
Defined.

(** The prefix of an identifier is removed before the space around it: a space in front of
    "0x" is refused, one behind it is not. *)
Lemma space_before_prefix : normalizePCIID " 0x8086" = inr "must be one to four hexadecimal digits"%string /\ normalizePCIID "0x 8086 " = inl "8086"%string.
Proof. split; vm_compute; reflexivity. Qed.

End GnssDevice.
