(* ===== verification/ClockID.v ===== *)
(** * pkg/hardwareconfig: the clock of an interface

    The resolution of clock identifiers of utils.go: through the serial number that devlink
    shows, or through the parents of the DPLL pin of the interface.  The commands, the link
    layer and the DPLL subsystem are the fields of [Host]. *)

From S2P Require Import Prelude Strconv Event Regex Parser Conf Netlink HwTypes PinCmd HwVendor.
From Stdlib Require Import Ascii.

#[local] Open Scope Z_scope.
#[local] Open Scope outcome_scope.

Module ClockID.

Import Regex Netlink Hw PinCmd HwVendor.

(** What is outside: the output of a command (already trimmed), the pin of an interface
    ([None] is an error, [Some None] no pin), one pin of the DPLL subsystem, and the dump of
    all pins ([GetDpllPins]). *)
Record Host := mkHost {
  Execute : string -> list string -> option string;
  netdevDpllPin : string -> option (option Z);
  dpllPin : Z -> option PinInfo;
  GetDpllPins : option PinCache
}.

Definition ClockIDMethodDirect : string := "direct".
Definition ClockIDMethodEUI64 : string := "eui64".
Definition ClockIDMethodDevlinkPinChain : string := "devlinkPinChain".

(** ** From a serial number *)

Definition dash : Ascii.ascii := "-"%char.

Definition parse_hex (s : string) : option Z := let '(v, ok) := ParseUint s 16 64 in if ok then Some v else None.

Definition parseSerialNumberToClockIDDirect (serialNumber : string) : option Z :=
  let parts := Conf.split_on dash serialNumber in
  if (length parts =? 8)%nat then parse_hex (String.concat "" parts) else None.

Definition parseSerialNumberToClockIDEUI64 (serialNumber : string) : option Z :=
  let parts := Conf.split_on dash serialNumber in
  if (length parts <? 6)%nat then None
  else parse_hex (String.concat "" (take 3 parts ++ ["ff"; "fe"]%string ++ drop 5 parts)).

Section Resolve.
Context `{MapOrder}.
Variables (files : VendorFiles) (host : Host).

Definition transformation (hwDefPath : string) : option string :=
  match LoadHardwareDefaults files hwDefPath None with Ok (Some spec) => ClockIDTransformation spec | _ => None end.

Definition getClockIDTransformer (hwDefPath : string) : string -> option Z :=
  match transformation hwDefPath with
  | Some method => if str_eqb method "direct" then parseSerialNumberToClockIDDirect else parseSerialNumberToClockIDEUI64
  | None => parseSerialNumberToClockIDEUI64
  end.

(** The last field of the first line about the serial number that has two fields. *)
Fixpoint serial_in (lines : list string) : string :=
  match lines with
  | [] => ""
  | line :: lines' =>
      if Regex.contains "serial_number" line then
        match Conf.Fields line with _ :: (_ :: _) as rest => List.last rest ""%string | _ => serial_in lines' end
      else serial_in lines'
  end.

Definition resolveClockIDViaSerialNumber (busAddr hwDefPath : string) : option Z :=
  output ← Execute host "devlink" ["dev"; "info"; "pci/" +:+ busAddr]%string;
  let serialNumber := serial_in (Conf.split_on Conf.newline_char output) in
  if str_eqb serialNumber "" then None else getClockIDTransformer hwDefPath serialNumber.

(** ** From the parents of the pin *)

Fixpoint external_parent (nicPin : PinInfo) (parents : list PinParentPin) : option Z :=
  match parents with
  | [] => None
  | parent :: parents' =>
      match dpllPin host (pnParentID parent) with
      | Some parentPin =>
          if str_eqb (piModuleName parentPin) (piModuleName nicPin) then external_parent nicPin parents' else Some (piClockID parentPin)
      | None => external_parent nicPin parents'
      end
  end.

Definition getClockIDFromPinParentChain (ifname : string) : option Z :=
  found ← netdevDpllPin host ifname;
  pinID ← found;
  nicPin ← dpllPin host pinID;
  external_parent nicPin (piParentPin nicPin).

Definition is_zl3073x (e : string * PinInfo) : bool := str_eqb (piModuleName e.2) "zl3073x".

Definition zl3073x_clock (index : gmap Z (gmap string PinInfo)) : option Z :=
  fst <$> first_match (fun e => existsb is_zl3073x (range e.2)) (range index).

Definition getPERLAClockIDFromPinCache (cache : option PinCache) : option Z :=
  c ← (match cache with Some c => Some c | None => GetDpllPins host end);
  match zl3073x_clock (BoardLabelPins c) with Some id => Some id | None => zl3073x_clock (PackageLabelPins c) end.

Definition resolveClockIDViaPinChain (iface : string) (pinCache : option PinCache) : option Z :=
  match getClockIDFromPinParentChain iface with Some id => Some id | None => getPERLAClockIDFromPinCache pinCache end.

(** ** The choice *)

Definition getClockIDResolutionMethod (hwDefPath busAddr : string) : string :=
  let fallback :=
    match Execute host "lspci" ["-s"%string; busAddr] with
    | Some output => if Regex.contains "E825" output then ClockIDMethodDevlinkPinChain else ClockIDMethodDirect
    | None => ClockIDMethodDirect
    end in
  match transformation hwDefPath with Some method => if str_eqb method "" then fallback else method | None => fallback end.

(** The address of the last line that has one. *)
Definition bus_address (output : string) : string :=
  foldl (fun addr line => match drop_prefix "bus-info:" line with Some rest => Parser.TrimSpace rest | None => addr end) ""%string
    (Conf.split_on Conf.newline_char output).

Definition GetClockIDFromInterfaceWithCache (iface hwDefPath : string) (pinCache : option PinCache) : option Z :=
  output ← Execute host "ethtool" ["-i"%string; iface];
  let busAddr := bus_address output in
  if str_eqb busAddr "" then None
  else if str_eqb (getClockIDResolutionMethod hwDefPath busAddr) ClockIDMethodDevlinkPinChain
  then resolveClockIDViaPinChain iface pinCache
  else resolveClockIDViaSerialNumber busAddr hwDefPath.

Definition GetClockIDFromInterface (iface hwDefPath : string) : option Z := GetClockIDFromInterfaceWithCache iface hwDefPath None.

End Resolve.

(** ** Serial numbers *)

(** A byte in two digits, and a serial number as devlink prints it. *)
Definition hex2 (b : Z) : string := String (digit_char (b / 16)) (String (digit_char (b mod 16)) "").
Definition serial (bytes : list Z) : string := join "-" (map hex2 bytes).

Definition be_value (bytes : list Z) : Z := foldl (fun v b => 256 * v + b) 0 bytes.

Definition is_byte (b : Z) : Prop := 0 <= b < 256.

Lemma hex2_digits b : is_byte b -> 0 <= b / 16 < 16 /\ 0 <= b mod 16 < 16 /\ b = 16 * (b / 16) + b mod 16.
Proof. intros [? ?]. pose proof (Z.div_mod b 16 ltac:(lia)). pose proof (Z.mod_pos_bound b 16 ltac:(lia)). lia. Qed.

Lemma digit_not_dash d : 0 <= d < 16 -> in_set (Conf.without dash) (digit_char d) = true.
Proof.
  intros H. assert (forallb (fun d => in_set (Conf.without dash) (digit_char d)) (map Z.of_nat (seq 0 16)) = true) as Hc by reflexivity.
  rewrite forallb_forall in Hc. apply Hc, in_map_iff. exists (Z.to_nat d). split; [lia|]. apply in_seq. lia.
Qed.

Lemma hex2_no_dash b : is_byte b -> all_in (Conf.without dash) (hex2 b).
Proof. intros (? & ? & _)%hex2_digits. cbn -[Conf.without in_set]. split_and!; [by apply digit_not_dash|by apply digit_not_dash|done]. Qed.

Lemma split_serial b bytes : Forall is_byte (b :: bytes) -> Conf.split_on dash (serial (b :: bytes)) = map hex2 (b :: bytes).
Proof.
  revert b. induction bytes as [|b' bytes IH]; intros b H; apply Forall_cons in H as [Hb H].
  - apply Conf.split_on_none. by apply hex2_no_dash.
  - change (serial (b :: b' :: bytes)) with (hex2 b +:+ String dash (serial (b' :: bytes)))%string.
    rewrite Conf.split_on_hit by (by apply hex2_no_dash). by rewrite IH.
Qed.

Lemma parse_loop_bytes bytes : forall max n, Forall is_byte bytes -> 0 <= n -> (n + 1) * 256 ^ Z.of_nat (length bytes) <= max + 1 ->
  parse_loop 16 max n (String.concat "" (map hex2 bytes)) = (foldl (fun v b => 256 * v + b) n bytes, true).
Proof.
  induction bytes as [|b bytes IH]; intros max n H Hn Hm; [done|]. apply Forall_cons in H as [Hb H].
  assert (String.concat "" (map hex2 (b :: bytes)) = hex2 b +:+ String.concat "" (map hex2 bytes))%string as ->.
  { destruct bytes; cbn; [by rewrite str_app_empty|done]. }
  destruct (hex2_digits b Hb) as (H1 & H2 & Eb).
  assert (0 < 256 ^ Z.of_nat (length bytes)) as Hpow by (apply Z.pow_pos_nonneg; lia).
  replace (Z.of_nat (length (b :: bytes))) with (1 + Z.of_nat (length bytes)) in Hm by (cbn; lia). rewrite Z.pow_add_r, Z.pow_1_r in Hm by lia.
  assert ((n + 1) * 256 <= max + 1) as Hm' by nia.
  change (hex2 b +:+ ?s)%string with (String (digit_char (b / 16)) (String (digit_char (b mod 16)) s)). cbn [parse_loop]. rewrite !char_digit_char by done.
  repeat match goal with |- context [?x <=? ?y] => destruct (Z.leb_spec x y); [lia|] | |- context [?x <? ?y] => destruct (Z.ltb_spec x y); [lia|] end.
  rewrite IH; [|done|lia|].
  - cbn [foldl]. do 2 f_equal. lia.
  - replace ((n * 16 + b / 16) * 16 + b mod 16) with (256 * n + b) by lia. unfold is_byte in Hb. nia.
Qed.

Lemma parse_hex_bytes b bytes : Forall is_byte (b :: bytes) -> (length bytes <= 7)%nat ->
  parse_hex (String.concat "" (map hex2 (b :: bytes))) = Some (be_value (b :: bytes)).
Proof.
  intros H Hl. unfold parse_hex, ParseUint.
  assert (exists c s, String.concat "" (map hex2 (b :: bytes)) = String c s) as (c & s & E) by (destruct bytes; cbn; eauto).
  rewrite E, <- E, parse_loop_bytes; [done|done|lia|].
  replace (2 ^ 64 - 1 + 1) with (256 ^ 8) by reflexivity. rewrite Z.mul_1_l. apply Z.pow_le_mono_r; cbn; lia.
Qed.

Lemma hex2_ff_fe : hex2 255 = "ff"%string /\ hex2 254 = "fe"%string.
Proof. done. Qed.

(** Clock identifiers.  From a serial number of eight bytes the direct method makes the
    number those bytes spell, most significant first, and the EUI-64 method the number with
    ff fe in the place of the fourth and fifth byte. *)
Theorem clock_id_of_serial (b0 b1 b2 b3 b4 b5 b6 b7 : Z) (Hb : Forall is_byte [b0; b1; b2; b3; b4; b5; b6; b7]) :
  parseSerialNumberToClockIDDirect (serial [b0; b1; b2; b3; b4; b5; b6; b7]) = Some (be_value [b0; b1; b2; b3; b4; b5; b6; b7])
  /\ parseSerialNumberToClockIDEUI64 (serial [b0; b1; b2; b3; b4; b5; b6; b7]) = Some (be_value [b0; b1; b2; 255; 254; b5; b6; b7]).
Proof.
  unfold parseSerialNumberToClockIDDirect, parseSerialNumberToClockIDEUI64. rewrite split_serial by done.
  change (length (map hex2 [b0; b1; b2; b3; b4; b5; b6; b7])) with 8%nat. cbn [Nat.eqb Nat.ltb Nat.leb]. split; [by apply parse_hex_bytes; [|cbn; lia]|].
  change (take 3 (map hex2 [b0; b1; b2; b3; b4; b5; b6; b7]) ++ ["ff"%string; "fe"%string] ++ drop 5 (map hex2 [b0; b1; b2; b3; b4; b5; b6; b7]))
    with (map hex2 [b0; b1; b2; 255; 254; b5; b6; b7]).
  apply parse_hex_bytes; [|cbn; lia]. unfold is_byte in *. rewrite !Forall_cons in *. rewrite Forall_nil. intuition lia.
Qed.

Theorem clock_id_of_serial_witness :
  serial [80; 124; 111; 255; 255; 92; 74; 232] = "50-7c-6f-ff-ff-5c-4a-e8"%string
  /\ parseSerialNumberToClockIDDirect "50-7c-6f-ff-ff-5c-4a-e8" = Some 5799633565437938408.
Proof.
  split; [reflexivity|].
  assert (Forall is_byte [80; 124; 111; 255; 255; 92; 74; 232]) as H by (unfold is_byte; rewrite !Forall_cons, Forall_nil; lia).
  exact (proj1 (clock_id_of_serial 80 124 111 255 255 92 74 232 H)).
Defined.

(** A MAC address of six parts is accepted too, and loses two of its bytes. *)
Lemma six_parts_lose_bytes : parseSerialNumberToClockIDEUI64 "50-7c-6f-5c-4a-e8" = Some (be_value [80; 124; 111; 255; 254; 232]).
Proof. reflexivity. Qed.

(** Without a hardware definition the method that is chosen, and logged, is the direct one;
    the transformation that is applied is EUI-64. *)
Lemma chosen_method_not_used `{MapOrder} files host busAddr :
  Execute host "lspci" ["-s"%string; busAddr] = None ->
  getClockIDResolutionMethod files host "" busAddr = ClockIDMethodDirect
  /\ getClockIDTransformer files "" = parseSerialNumberToClockIDEUI64.
Proof. intros E. unfold getClockIDResolutionMethod, getClockIDTransformer, transformation. cbn. by rewrite E. Qed.

(** Through the pins, the clock is that of the first parent, among those that can be queried,
    of another module than the pin itself. *)
Lemma external_parent_spec host nicPin parents clock : external_parent host nicPin parents = Some clock ->
  exists before parent after pin, parents = before ++ parent :: after /\ dpllPin host (pnParentID parent) = Some pin /\ piClockID pin = clock
    /\ piModuleName pin <> piModuleName nicPin
    /\ Forall (fun p => match dpllPin host (pnParentID p) with Some q => piModuleName q = piModuleName nicPin | None => True end) before.
Proof.
  induction parents as [|p parents IH]; cbn; [done|]. destruct (dpllPin host (pnParentID p)) as [q|] eqn:Eq.
  - unfold str_eqb. case_bool_decide as Em.
    + intros (before & parent & after & pin & -> & H1 & H2 & H3 & H4)%IH. exists (p :: before), parent, after, pin. split_and!; [done..|].
      apply Forall_cons. by rewrite Eq.
    + intros [= <-]. exists [], p, parents, q. split_and!; done || constructor.
  - intros (before & parent & after & pin & -> & H1 & H2 & H3 & H4)%IH. exists (p :: before), parent, after, pin. split_and!; [done..|].
    apply Forall_cons. by rewrite Eq.
Qed.

End ClockID.
