(* ===== verification/HwState.v ===== *)
(** * pkg/hardwareconfig: the manager and its caches

    The state of HardwareConfigManager, what is outside of it, the monad its methods run in,
    the two caches, and the paths under /sys of utils.go.  A write to a pin or to a file is
    recorded; whether it succeeds is decided outside, knowing all that was written before. *)

From S2P Require Import Prelude Strconv Event Regex Parser Conf Paths PtpConfig Resolver Ublox Netlink HwTypes PinCmd HwVendor ClockID.
From Stdlib Require Import Ascii.

#[local] Open Scope Z_scope.

Module HwState.

Import Paths Netlink Hw PinCmd HwVendor ClockID.

(** ** State *)

Record SysFSCommand := mkSysFS { scPath : string; scValue : string }.

Record enrichedHardwareConfig := mkEnriched {
  ecConfig : HardwareConfig;
  dpllPinCommands : gmap string (list PinParentDeviceCtl);
  sysFSCommands : gmap string (list SysFSCommand);
  structurePinCommands : list PinParentDeviceCtl;
  structureSysFSCommands : list SysFSCommand;
  holdoverParams : gmap Z HoldoverParameters;
  dpllFlags : gmap Z Z
}.

#[export] Instance enriched_fields : Fields enrichedHardwareConfig := fun e =>
  mkEnriched (ecConfig e) (dpllPinCommands e) (sysFSCommands e) (structurePinCommands e) (structureSysFSCommands e) (holdoverParams e) (dpllFlags e).

Inductive Effect :=
| ApplyPins (commands : list PinParentDeviceCtl)
| WriteSysFS (path value : string)
| GnssStatusChanged.

(** [ptpConfig] is the list of its profiles; [gnssStatusChanged] is whether there is a handler. *)
Record Manager := mkManager {
  hardwareConfigs : list enrichedHardwareConfig;
  pinCache : option PinCache;
  hwDefaultsCache : gmap string (option HardwareDefaults);
  clockIDCache : gmap string Z;
  ptpConfig : option (list PtpConfig.PtpProfile);
  configMapLoader : option BoardLabelMapLoader;
  interfaceResolver : option Resolver.InterfaceResolver;
  gnssStatusChanged : bool;
  ready : bool;
  done_ : list Effect
}.

#[export] Instance Manager_fields : Fields Manager := fun m =>
  mkManager (hardwareConfigs m) (pinCache m) (hwDefaultsCache m) (clockIDCache m) (ptpConfig m) (configMapLoader m) (interfaceResolver m)
    (gnssStatusChanged m) (ready m) (done_ m).

Definition NewHardwareConfigManager (loader : option BoardLabelMapLoader) (resolver : option Resolver.InterfaceResolver) : Manager :=
  mkManager [] None ∅ ∅ None loader resolver false false [].

(** What is outside: the resolver of leading interfaces, the files under /sys/class/net, and
    whether a write succeeds. *)
Record LeadingInterfaceResolver := mkLeading {
  GetPhcID : string -> string;
  Readlink : string -> option string;
  ReadDir : string -> option (list string)
}.

Class Env := {
  env_host : Host;
  env_files : VendorFiles;
  env_leading : LeadingInterfaceResolver;
  env_ptp_devices : string -> option (list string);
  env_interfaces : option (list string);
  env_accepts : list Effect -> Effect -> bool
}.

(** ** The monad *)

Definition M (A : Type) : Type := Manager -> outcome A * Manager.

Definition ret {A} (a : A) : M A := fun m => (Ok a, m).
Definition fail {A} : M A := fun m => (Err, m).
Definition lift {A} (o : outcome A) : M A := fun m => (o, m).
Definition get : M Manager := fun m => (Ok m, m).
Definition modify (f : Manager -> Manager) : M unit := fun m => (Ok tt, f m).

Definition bind {A B} (x : M A) (k : A -> M B) : M B := fun m =>
  match x m with (Ok a, m') => k a m' | (Err, m') => (Err, m') | (Panic, m') => (Panic, m') end.

(** A call whose error is logged and ignored; a panic is not. *)
Definition try {A} (x : M A) : M (option A) := fun m =>
  match x m with (Ok a, m') => (Ok (Some a), m') | (Err, m') => (Ok None, m') | (Panic, m') => (Panic, m') end.

Declare Scope hw_scope.
Delimit Scope hw_scope with hw.
Notation "x <- e ;; k" := (bind e (fun x => k)) (at level 100, e at next level, k at level 200, right associativity) : hw_scope.
Notation "' p <- e ;; k" := (bind e (fun p => k)) (at level 100, p strict pattern, e at next level, k at level 200, right associativity) : hw_scope.
Notation "e ;; k" := (bind e (fun _ => k)) (at level 100, k at level 200, right associativity) : hw_scope.
#[local] Open Scope hw_scope.

Fixpoint mapM {A B} (f : A -> M B) (l : list A) : M (list B) :=
  match l with [] => ret [] | x :: l' => y <- f x;; ys <- mapM f l';; ret (y :: ys) end.

Fixpoint forM {A} (f : A -> M unit) (l : list A) : M unit := match l with [] => ret tt | x :: l' => f x;; forM f l' end.

(** Elements that are skipped leave nothing. *)
Definition concatM {A B} (f : A -> M (list B)) (l : list A) : M (list B) := ls <- mapM f l;; ret (concat ls).

(** ** Writes *)

Section Env.
Context `{MapOrder} `{Env}.

Definition perform (e : Effect) : M unit := fun m =>
  (if env_accepts (done_ m) e then Ok tt else Err, m <| done_ := done_ m ++ [e] |>).

Definition pinApplier (commands : list PinParentDeviceCtl) : M unit := perform (ApplyPins commands).
Definition writeSysFSValue (path value : string) : M unit := perform (WriteSysFS path value).

(** ** Caches *)

Definition getHardwareDefaults (hwDefPath : string) : M (option HardwareDefaults) :=
  if str_eqb hwDefPath "" then ret None
  else
    m <- get;;
    match hwDefaultsCache m !! hwDefPath with
    | Some spec => ret spec
    | None =>
        let labelMap := l ← configMapLoader m; LoadBoardLabelMap l hwDefPath in
        loaded <- lift (LoadHardwareDefaults env_files hwDefPath labelMap);;
        modify (fun m => m <| hwDefaultsCache := <[hwDefPath := loaded]> (hwDefaultsCache m) |>);;
        ret loaded
    end.

Definition cache_key (iface hwDefPath : string) : string := (iface +:+ ":" +:+ hwDefPath)%string.

Definition getClockIDCached (iface hwDefPath : string) : M Z :=
  m <- get;;
  match clockIDCache m !! cache_key iface hwDefPath with
  | Some clockID => ret clockID
  | None =>
      match GetClockIDFromInterfaceWithCache env_files env_host iface hwDefPath (pinCache m) with
      | Some clockID =>
          if clockID =? 0 then fail
          else modify (fun m => m <| clockIDCache := <[cache_key iface hwDefPath := clockID]> (clockIDCache m) |>);; ret clockID
      | None => fail
      end
  end.

(** The trimmed path of the definition of a subsystem. *)
Definition hw_def_path (s : Subsystem) : string := Parser.TrimSpace (HardwareSpecificDefinitions s).

(** [hcm.pinCache.GetPin]: the method reads the maps of a cache that may be nil. *)
Definition cached_pin (clockID : Z) (label : string) : M (option PinInfo) :=
  m <- get;; pc <- lift (deref (pinCache m));; ret (GetPin pc clockID label).

End Env.

(** ** utils.go: PTP devices

    [strings.Split(path, "ptp*")], then the devices of the directory whose file can be
    written to: [files] are the names in a directory with whether each is one itself, and
    [writable] is whether a path is a file that opens for writing. *)

Fixpoint split_text (fuel : nat) (sep s acc : string) : list string :=
  match fuel with
  | O => [acc]
  | S fuel' =>
      match drop_prefix sep s with
      | Some rest => acc :: split_text fuel' sep rest ""
      | None => match s with EmptyString => [acc] | String a s' => split_text fuel' sep s' (acc +:+ String a "")%string end
      end
  end.

Definition Split (sep s : string) : list string := split_text (S (String.length s)) sep s "".

Definition defaultResolveSysFSPtpDevice (files : string -> option (list (string * bool))) (writable : string -> bool) (interfacePath : string) :
    option (list string) :=
  if negb (Regex.contains "ptp*" interfacePath) then Some [interfacePath]
  else
    match Split "ptp*" interfacePath with
    | [before; filename] =>
        let ptpDir := Dir (before +:+ "ptp0")%string in
        entries ← files ptpDir;
        let paths := omap (fun e : string * bool =>
            let fullPath := (Join [ptpDir; e.1] +:+ filename)%string in
            if e.2 && bool_decide (is_Some (drop_prefix "ptp" e.1)) && writable fullPath then Some fullPath else None) entries in
        match paths with [] => None | _ => Some paths end
    | _ => None
    end.

End HwState.
