(* ===== verification/HwChain.v ===== *)
(** * pkg/hardwareconfig: resolution of a clock chain

    clockchain_resolution.go: from a minimal configuration, the PTP profile and the vendor
    templates to the full structure and behaviour of a clock chain. *)

From S2P Require Import Prelude Strconv Regex Parser Conf Paths PtpConfig Ublox Netlink HwTypes PinCmd HwVendor ClockID HwState.
From Stdlib Require Import Ascii.

#[local] Open Scope Z_scope.

Module HwChain.

Import Regex Paths Hw HwVendor HwState.
#[local] Open Scope hw_scope.

Definition ClockTypeTGM : string := "T-GM".

(** ** Ports of a profile *)

(** [strings.Trim(line, "[]")]. *)
Definition is_bracket (a : ascii) : bool := bool_decide (a = "["%char) || bool_decide (a = "]"%char).
Fixpoint trim_front (s : string) : string := match s with String a s' => if is_bracket a then trim_front s' else s | EmptyString => EmptyString end.
Fixpoint trim_back (s : string) : string :=
  match s with
  | EmptyString => EmptyString
  | String a s' => match trim_back s' with EmptyString => if is_bracket a then EmptyString else String a EmptyString | t => String a t end
  end.
Definition trim_brackets (s : string) : string := trim_back (trim_front s).

Fixpoint last_char (s : string) : option ascii :=
  match s with EmptyString => None | String a EmptyString => Some a | String _ s' => last_char s' end.

Definition is_header (line : string) : bool :=
  bool_decide (is_Some (drop_prefix "[" line)) && bool_decide (last_char line = Some "]"%char).

Definition not_an_interface (section : string) : bool := str_eqb section "global" || str_eqb section "nmea" || str_eqb section "unicast".

Definition upstream_line (st : list string * string) (line : string) : list string * string :=
  let '(ports, current) := st in
  let line := Parser.TrimSpace line in
  if str_eqb line "" || bool_decide (is_Some (drop_prefix "#" line)) then st
  else if is_header line then let section := trim_brackets line in (ports, if not_an_interface section then ""%string else section)
  else if str_eqb current "" then st
  else match Conf.Fields line with
       | a :: b :: _ => if str_eqb a "masterOnly" && str_eqb b "0" then (ports ++ [current], current) else st
       | _ => st
       end.

Definition extractUpstreamPortsFromPtpProfile (p : PtpConfig.PtpProfile) : list string :=
  match PtpConfig.Ptp4lConf p with
  | Some conf => (foldl upstream_line ([], ""%string) (Conf.split_on Conf.newline_char conf)).1
  | None => []
  end.

Definition interface_line (line : string) : option string :=
  let line := Parser.TrimSpace line in
  if is_header line then let section := trim_brackets line in if not_an_interface section then None else Some section else None.

Definition extractInterfacesFromPtpProfile (p : PtpConfig.PtpProfile) : list string :=
  match PtpConfig.Ptp4lConf p with Some conf => omap interface_line (Conf.split_on Conf.newline_char conf) | None => [] end.

(** ** The leading interface *)

Definition findLeadingInterfaceFromPortWithResolver (port : string) (r : LeadingInterfaceResolver) : option string :=
  if str_eqb port "" then None
  else
    let phcID := GetPhcID r port in
    phcIndex ← drop_prefix "/dev/ptp" phcID;
    pciPath ← Readlink r ("/sys/class/ptp/ptp" +:+ phcIndex +:+ "/device")%string;
    let pciAddress := Base pciPath in
    if str_eqb pciAddress "" || str_eqb pciAddress "." then None
    else entries ← ReadDir r ("/sys/bus/pci/devices/" +:+ pciAddress +:+ "/net")%string; head entries.

(** ** Profiles *)

(** What follows the first underscore. *)
Fixpoint after_underscore (s : string) : option string :=
  match s with EmptyString => None | String a s' => if ascii_dec a "_"%char then Some s' else after_underscore s' end.

Definition ProfileNamesMatch (stored requested : string) : bool :=
  if str_eqb (Parser.TrimSpace requested) "" then false
  else match after_underscore stored with Some rest => str_eqb rest requested | None => false end.

Definition named_profile (requested : string) (p : PtpConfig.PtpProfile) : bool :=
  match PtpConfig.Name p with Some name => ProfileNamesMatch name requested | None => false end.

(** ** Templates *)

Record templateVariables := mkVars { subsystem_ : string; ptpInputPin : string; gnssInputPin : string; interfaceName : string }.

Definition resolveTemplateString (s : string) (vars : templateVariables) : string :=
  let s := Regex.ReplaceAll s "{subsystem}" (subsystem_ vars) in
  let s := Regex.ReplaceAll s "{ptpInputPin}" (ptpInputPin vars) in
  let s := Regex.ReplaceAll s "{gnssInputPin}" (gnssInputPin vars) in
  Regex.ReplaceAll s "{interface}" (interfaceName vars).

Definition deepCopyAndResolveSourceConfig (src : SourceConfig) (vars : templateVariables) (upstreamPorts : list string) : SourceConfig :=
  let src := src <| srSubsystem := resolveTemplateString (srSubsystem src) vars |> <| srBoardLabel := resolveTemplateString (srBoardLabel src) vars |> in
  if str_eqb (srSourceType src) "ptpTimeReceiver" && (0 <? length upstreamPorts)%nat then src <| PTPTimeReceivers := upstreamPorts |> else src.

Definition resolve_desired (vars : templateVariables) (ds : DesiredState) : DesiredState :=
  match dsDPLL ds with
  | Some d => ds <| dsDPLL := Some (d <| ddSubsystem := resolveTemplateString (ddSubsystem d) vars |>
                                      <| ddBoardLabel := resolveTemplateString (ddBoardLabel d) vars |>) |>
  | None => ds
  end.

Definition deepCopyAndResolveCondition (cond : Condition) (vars : templateVariables) : Condition :=
  cond <| cdDesiredStates := map (resolve_desired vars) (cdDesiredStates cond) |>.

(** ** Merging what the user gave *)

Definition or_template (template user : string) : string := if str_eqb user "" then template else user.

Definition mergeEthernetDeviceSelectors (t u : EthernetDevice) : EthernetDevice :=
  mkEthernetDevice (or_template (edName t) (edName u)) (or_template (edPCIAddress t) (edPCIAddress u))
    (or_template (edPermanentMACAddress t) (edPermanentMACAddress u)) (or_template (edSlot t) (edSlot u))
    (or_template (edVendorID t) (edVendorID u)) (or_template (edDeviceID t) (edDeviceID u)).

Definition merge_gnss (tpl : option GNSSConfig) (user : GNSSConfig) : GNSSConfig :=
  match gcMatch user, tpl ≫= gcMatch with
  | None, Some m => user <| gcMatch := Some m |>
  | Some um, Some tm =>
      match gmEthernetDevice tm, gmEthernetDevice um with
      | Some te, Some ue => user <| gcMatch := Some (um <| gmEthernetDevice := Some (mergeEthernetDeviceSelectors te ue) |>) |>
      | _, _ => user
      end
  | _, None => user
  end.

Definition mergeSourceConfig (tpl user : SourceConfig) : SourceConfig :=
  mkSource (srName tpl) (or_template (srSubsystem tpl) (srSubsystem user)) (srSourceType tpl) (or_template (srBoardLabel tpl) (srBoardLabel user))
    (match PTPTimeReceivers user with [] => PTPTimeReceivers tpl | l => l end)
    (match srGNSSConfig user with Some g => Some (merge_gnss (srGNSSConfig tpl) g) | None => srGNSSConfig tpl end).

(** A user source goes to the template source of its name or, without a name, of its type. *)
Definition same_source (user tpl : SourceConfig) : bool :=
  (negb (str_eqb (srName user) "") && str_eqb (srName tpl) (srName user))
  || (str_eqb (srName user) "" && str_eqb (srSourceType tpl) (srSourceType user)).

(** The first element that matches is replaced; without one the new one is appended. *)
Fixpoint merge_or_append {A} (same : A -> bool) (merge : A -> A) (new : A) (l : list A) : list A :=
  match l with
  | [] => [new]
  | x :: l' => if same x then merge x :: l' else x :: merge_or_append same merge new l'
  end.

Definition merge_user_source (sources : list SourceConfig) (user : SourceConfig) : list SourceConfig :=
  merge_or_append (same_source user) (fun tpl => mergeSourceConfig tpl user) user sources.

Definition merge_user_condition (conditions : list Condition) (user : Condition) : list Condition :=
  merge_or_append (fun c => str_eqb (cdName c) (cdName user)) (fun _ => user) user conditions.

(** ** Structure and behaviour *)

Section Env.
Context `{MapOrder} `{Env}.

Definition role (t : BehaviorProfileTemplate) (name : string) : string := default ""%string (PinRoles t !! name).

Definition load_profile (hwDefPath clockType : string) : M (option BehaviorProfileTemplate) :=
  m <- get;; lift (LoadBehaviorProfile env_files hwDefPath clockType (configMapLoader m)).

Definition set_interface (i : string) (s : Subsystem) : Subsystem := s <| sbDPLL := (sbDPLL s) <| NetworkInterface := i |> |>.

(** The leading interface, unless one is configured. *)
Definition derive_interface (s : Subsystem) (port : string) : M Subsystem :=
  if str_eqb (NetworkInterface (sbDPLL s)) "" then
    i <- lift (or_err (findLeadingInterfaceFromPortWithResolver port env_leading));; ret (set_interface i s)
  else ret s.

Definition derived_input : PinConfig := mkPinConfig "" None (Some 1) "" "PTP time receiver input".

Definition deriveSubsystemStructure (s : Subsystem) (p : PtpConfig.PtpProfile) (clockType : string) : M Subsystem :=
  let hwDefPath := HardwareSpecificDefinitions s in
  if str_eqb hwDefPath "" then fail
  else
    let tgm := str_eqb clockType ClockTypeTGM in
    let upstreamPorts := extractUpstreamPortsFromPtpProfile p in
    s <- (if negb tgm then
            match upstreamPorts with [] => fail | port :: _ => derive_interface s port end
          else if str_eqb (NetworkInterface (sbDPLL s)) "" then
            match extractInterfacesFromPtpProfile p with [] => fail | port :: _ => derive_interface s port end
          else ret s);;
    template <- load_profile hwDefPath clockType;;
    template <- lift (or_err template);;
    if tgm then ret s
    else
      s <- (if (size (PhaseInputs (sbDPLL s)) =? 0)%nat then
              let pin := role template "ptpInputPin" in
              if str_eqb pin "" then fail
              else ret (s <| sbDPLL := (sbDPLL s) <| PhaseInputs := <[pin := derived_input]> (PhaseInputs (sbDPLL s)) |> |>)
            else ret s);;
      ret (match Ethernet s with [] => s <| Ethernet := [upstreamPorts] |> | _ => s end).

Definition add_missing (pin : string) (pins : gmap string PinConfig) : gmap string PinConfig :=
  match pins !! pin with Some _ => pins | None => <[pin := no_pin_config]> pins end.

Definition inject_pin (s : Subsystem) (c : Component) : Subsystem :=
  match cmCompensationPoint c with
  | Some p =>
      if str_eqb (cpType p) "dpll" && negb (str_eqb (cpName p) "") then
        let d := sbDPLL s in
        s <| sbDPLL := if Regex.contains "input" (Ublox.to_lower (cmID c))
                       then d <| PhaseInputs := add_missing (cpName p) (PhaseInputs d) |>
                       else d <| PhaseOutputs := add_missing (cpName p) (PhaseOutputs d) |> |>
      else s
  | None => s
  end.

Definition injectDelayCompensationPins (s : Subsystem) : M Subsystem :=
  hd <- getHardwareDefaults (hw_def_path s);;
  ret (match h ← hd; DelayCompensation h with Some model => foldl inject_pin s (Components model) | None => s end).

(** A DPLL with flags is not managed: nothing is derived for it. *)
Definition unmanaged (s : Subsystem) : M bool :=
  hd <- try (getHardwareDefaults (hw_def_path s));;
  ret (match hd with Some (Some h) => match ParseDPLLFlags h with Some flags => negb (flags =? 0) | None => false end | _ => false end).

Definition complete (s : Subsystem) : bool :=
  negb (str_eqb (NetworkInterface (sbDPLL s)) "") && negb (size (PhaseInputs (sbDPLL s)) =? 0)%nat && negb (length (Ethernet s) =? 0)%nat.

Definition resolve_subsystem (p : PtpConfig.PtpProfile) (clockType : string) (s : Subsystem) : M Subsystem :=
  skip <- unmanaged s;;
  if skip then ret s
  else
    s <- (if complete s then ret s else deriveSubsystemStructure s p clockType);;
    injected <- try (injectDelayCompensationPins s);;
    ret (default s injected).

Definition template_vars (s : Subsystem) (t : BehaviorProfileTemplate) : templateVariables :=
  mkVars (sbName s) (role t "ptpInputPin") (role t "gnssInputPin") (NetworkInterface (sbDPLL s)).

(** The behaviour a subsystem contributes: the sources and conditions of its template. *)
Definition subsystem_behavior (clockType : string) (s : Subsystem) : M (list SourceConfig * list Condition) :=
  let hwDefPath := HardwareSpecificDefinitions s in
  if str_eqb hwDefPath "" then ret ([], [])
  else
    template <- load_profile hwDefPath clockType;;
    ret (match template with
         | None => ([], [])
         | Some t =>
             let vars := template_vars s t in
             let ports := match Ethernet s with ports :: _ => ports | [] => [] end in
             (map (fun src => deepCopyAndResolveSourceConfig src vars ports) (tpSources t), map (fun c => deepCopyAndResolveCondition c vars) (tpConditions t))
         end).

Definition deriveBehavior (cc : ClockChain) (clockType : string) : M ClockChain :=
  parts <- mapM (subsystem_behavior clockType) (Structure_ cc);;
  let user := default (mkBehavior [] []) (ccBehavior cc) in
  ret (cc <| ccBehavior := Some (mkBehavior (foldl merge_user_source (concat parts.*1) (Sources user))
                                            (foldl merge_user_condition (concat parts.*2) (Conditions user))) |>).

(** The caller has found the type of the clock. *)
Definition ResolveClockChain (hw : HardwareConfig) (config : option (list PtpConfig.PtpProfile)) : M HardwareConfig :=
  clockType <- lift (or_err (ClockType (hwProfile hw)));;
  profiles <- lift (or_err config);;
  let related := RelatedPtpProfileName hw in
  if str_eqb related "" then fail
  else
    p <- lift (or_err (first_match (named_profile related) profiles));;
    cc <- lift (deref (hpClockChain (hwProfile hw)));;
    structure <- mapM (resolve_subsystem p clockType) (Structure_ cc);;
    cc <- deriveBehavior (cc <| Structure_ := structure |>) clockType;;
    ret (hw <| hwProfile := (hwProfile hw) <| hpClockChain := Some cc |> |>).

End Env.

(** ** Names of profiles *)

Lemma after_underscore_spec s rest : after_underscore s = Some rest <->
  exists prefix, s = (prefix +:+ String "_" rest)%string /\ all_in (Conf.without "_"%char) prefix.
Proof.
  induction s as [|a s IH]; cbn.
  - split; [done|]. intros ([|b p] & ? & _); done.
  - destruct (ascii_dec a "_"%char) as [->|Hne].
    + split; [intros [= ->]; exists ""%string; done|]. intros ([|b p] & E & Hp); cbn in E; [by injection E as ->|].
      injection E as <- E. destruct Hp as [Hp _]. by apply Conf.without_spec in Hp.
    + rewrite IH. split.
      * intros (p & -> & Hp). exists (String a p). split; [done|]. split; [by apply Conf.without_spec|done].
      * intros ([|b p] & E & Hp); cbn in E; [by injection E as -> _|]. injection E as <- ->. exists p. split; [done|]. by destruct Hp.
Qed.

(** A profile is meant by a name that is not blank exactly when it has that name behind its
    first underscore: the prefix of the PtpConfig is never part of the request. *)
Lemma profile_names_match stored requested : ProfileNamesMatch stored requested = true <->
  Parser.TrimSpace requested <> ""%string
  /\ exists prefix, stored = (prefix +:+ "_" +:+ requested)%string /\ all_in (Conf.without "_"%char) prefix.
Proof.
  unfold ProfileNamesMatch, str_eqb. case_bool_decide as Eb; [split; [done|by intros [? _]]|].
  destruct (after_underscore stored) as [rest|] eqn:E.
  - rewrite bool_decide_eq_true. apply after_underscore_spec in E as (p & -> & Hp). split.
    + intros <-. split; [done|]. by exists p.
    + intros [_ (p' & Ep & Hp')]. assert (after_underscore (p +:+ String "_" rest)%string = Some requested) as H1
        by (apply after_underscore_spec; exists p'; split; [by rewrite Ep|done]).
      assert (after_underscore (p +:+ String "_" rest)%string = Some rest) as H2 by (apply after_underscore_spec; by exists p).
      congruence.
  - split; [done|]. intros [_ (p & -> & Hp)]. assert (after_underscore (p +:+ "_" +:+ requested)%string = Some requested); [|congruence].
    apply after_underscore_spec. by exists p.
Qed.

(** ** Merging *)

Section MergeAll.
Context {A : Type} (key : A -> string) (merge : A -> A -> A).
Hypothesis merge_key : forall u x, key x = key u -> key (merge u x) = key x.

Definition merge_one (l : list A) (u : A) : list A := merge_or_append (fun x => str_eqb (key x) (key u)) (merge u) u l.

Definition of_key (users : list A) (k : string) : option A := first_match (fun u => str_eqb (key u) k) users.

(** Every element of the list with what a user gave for its key, then the users without one. *)
Definition merged_list (l users : list A) : list A :=
  map (fun x => match of_key users (key x) with Some u => merge u x | None => x end) l
  ++ List.filter (fun u => negb (existsb (fun x => str_eqb (key x) (key u)) l)) users.

Lemma of_key_merge users x : key (match of_key users (key x) with Some u => merge u x | None => x end) = key x.
Proof.
  destruct (of_key users (key x)) as [u|] eqn:E; [|done]. apply first_match_Some in E as [E _]. apply merge_key.
  symmetry. by apply bool_decide_eq_true in E.
Qed.

Lemma merge_one_miss l u : Forall (fun x => key x <> key u) l -> merge_one l u = l ++ [u].
Proof.
  unfold merge_one. induction 1 as [|x l Hx _ IH]; cbn; [done|]. unfold str_eqb at 1. rewrite bool_decide_false by done. by rewrite IH.
Qed.

Lemma merge_one_hit l u : NoDup (map key l) -> key u ∈ map key l ->
  merge_one l u = map (fun x => if str_eqb (key x) (key u) then merge u x else x) l.
Proof.
  unfold merge_one. induction l as [|x l IH]; cbn; [by intros _ ?%not_elem_of_nil|]. intros [Hx Hn]%NoDup_cons Hi.
  unfold str_eqb at 1 3. case_bool_decide as E.
  - f_equal. rewrite <- (map_id l) at 1. apply map_ext_in. intros y Hy%list_elem_of_In. unfold str_eqb. rewrite bool_decide_false; [done|].
    intros Ey. apply Hx. rewrite E, <- Ey. by apply (list_elem_of_fmap_2 key).
  - rewrite IH; [done|done|]. apply elem_of_cons in Hi as [?|?]; congruence || done.
Qed.

Lemma map_key_merge_one l u : NoDup (map key l) -> NoDup (map key (merge_one l u)).
Proof.
  intros Hn. destruct (decide (key u ∈ map key l)) as [Hi|Hi].
  - rewrite merge_one_hit by done. rewrite map_map. erewrite map_ext; [exact Hn|]. intros x. unfold str_eqb. case_bool_decide; [by apply merge_key|done].
  - rewrite merge_one_miss.
    + rewrite map_app. apply NoDup_app. split_and!; [done| |apply NoDup_singleton]. intros k Hk ->%list_elem_of_singleton. done.
    + apply Forall_forall. intros x Hx E. apply Hi. rewrite <- E. by apply (list_elem_of_fmap_2 key).
Qed.

Lemma existsb_key l k : existsb (fun x => str_eqb (key x) k) l = true <-> k ∈ map key l.
Proof.
  rewrite existsb_exists, list_elem_of_In, in_map_iff. unfold str_eqb. setoid_rewrite bool_decide_eq_true. naive_solver.
Qed.

Lemma merge_all users : forall l, NoDup (map key l) -> NoDup (map key users) -> foldl merge_one l users = merged_list l users.
Proof.
  induction users as [|u users IH] using rev_ind; intros l Hl Hu.
  - unfold merged_list. cbn. by rewrite map_id, app_nil_r.
  - rewrite map_app in Hu. apply NoDup_app in Hu as (Hu & Hd & _).
    assert (key u ∉ map key users) as Hnew by (intros Hi; by apply (Hd _ Hi), list_elem_of_singleton).
    rewrite foldl_snoc, IH by done. unfold merged_list.
    assert (forall k, of_key (users ++ [u]) k = match of_key users k with Some v => Some v | None => if str_eqb (key u) k then Some u else None end) as Eo.
    { intros k. unfold of_key. rewrite first_match_app. cbn. done. }
    assert (of_key users (key u) = None) as En.
    { apply first_match_None, Forall_forall. intros v Hv. unfold str_eqb. apply bool_decide_false. intros E. apply Hnew. rewrite <- E. by apply (list_elem_of_fmap_2 key). }
    set (l' := map (fun x => match of_key users (key x) with Some u => merge u x | None => x end) l).
    set (rest := List.filter (fun u => negb (existsb (fun x => str_eqb (key x) (key u)) l)) users).
    assert (map key l' = map key l) as Ek by (unfold l'; rewrite map_map; apply map_ext; intros x; by apply of_key_merge).
    assert (forall k, k ∈ map key rest -> k ∈ map key users /\ k ∉ map key l) as Hrest.
    { intros k. unfold rest. rewrite list_elem_of_In, in_map_iff. intros (v & <- & [Hv He]%filter_In). split.
      - apply (list_elem_of_fmap_2 key). by apply list_elem_of_In.
      - rewrite <- existsb_key. by destruct (existsb _ l). }
    assert (NoDup (map key (l' ++ rest))) as Hn.
    { rewrite map_app, Ek. apply NoDup_app. split_and!; [done|intros k Hk Hr; by apply (proj2 (Hrest k Hr))|].
      unfold rest. clear -Hu. induction users as [|v users IH]; cbn; [done|]. cbn in Hu. apply NoDup_cons in Hu as [Hv Hu].
      destruct (negb _); cbn; [|by apply IH]. apply NoDup_cons. split; [|by apply IH].
      rewrite list_elem_of_In, in_map_iff. intros (w & Ew & [Hw _]%filter_In). apply Hv. rewrite <- Ew. apply (list_elem_of_fmap_2 key). by apply list_elem_of_In. }
    rewrite List.filter_app. cbn [List.filter].
    destruct (existsb (fun x => str_eqb (key x) (key u)) l) eqn:El; cbn [negb].
    + pose proof (proj1 (existsb_key l (key u)) El) as Hin. rewrite app_nil_r.
      rewrite merge_one_hit by (done || (rewrite map_app, Ek, elem_of_app; by left)). rewrite map_app. f_equal.
      * unfold l'. rewrite map_map. apply map_ext. intros x. rewrite Eo. destruct (of_key users (key x)) as [v|] eqn:Ev.
        -- pose proof (of_key_merge users x) as Em. rewrite Ev in Em. rewrite Em. unfold str_eqb. rewrite bool_decide_false; [done|].
           intros E. rewrite E, En in Ev. done.
        -- unfold str_eqb. rewrite (bool_decide_ext (key x = key u) (key u = key x)) by (split; congruence). by destruct (bool_decide (key u = key x)).
      * fold rest. rewrite <- (map_id rest) at 2. apply map_ext_in. intros v Hv%list_elem_of_In. unfold str_eqb. rewrite bool_decide_false; [done|].
        intros E. apply Hnew. rewrite <- E. apply Hrest. by apply (list_elem_of_fmap_2 key).
    + assert (key u ∉ map key l) as Hout by (rewrite <- existsb_key, El; done). fold rest. rewrite merge_one_miss.
      * rewrite <- app_assoc. f_equal. unfold l'. apply map_ext_in. intros x Hx%list_elem_of_In. rewrite Eo. destruct (of_key users (key x)); [done|].
        unfold str_eqb. rewrite bool_decide_false; [done|]. intros E. apply Hout. rewrite E. by apply (list_elem_of_fmap_2 key).
      * apply Forall_forall. intros x Hx E. apply (list_elem_of_fmap_2 key) in Hx. change (key <$> ?l) with (map key l) in Hx. rewrite map_app, Ek, E in Hx. apply elem_of_app in Hx as [?|[? _]%Hrest]; done.
Qed.

End MergeAll.

Lemma merge_sources_eq users : Forall (fun u => srName u <> ""%string) users -> forall l,
  foldl merge_user_source l users = foldl (merge_one srName (fun u x => mergeSourceConfig x u)) l users.
Proof.
  induction 1 as [|u users Hu _ IH]; intros l; [done|]. cbn [foldl]. rewrite IH. f_equal. unfold merge_user_source, merge_one.
  assert (forall x, same_source u x = str_eqb (srName x) (srName u)) as E.
  { intros x. unfold same_source, str_eqb. rewrite (bool_decide_false (srName u = ""%string)) by done. cbn. by rewrite orb_false_r. }
  induction l as [|x l IHl]; cbn; [done|]. by rewrite E, IHl.
Qed.

(** C11. The behaviour of a resolved chain.  When the names of the sources and conditions of
    the templates are distinct, and those the user gave as well and not empty, deriving the
    behaviour gives every template source in order, with what the user gave for its name laid
    over it, then the other sources of the user; and every template condition, or the user's
    in its place, then the other conditions of the user. *)
Theorem behavior_merged `{MapOrder} `{Env} (cc : ClockChain) (clockType : string) (m m1 : Manager)
    (parts : list (list SourceConfig * list Condition)) (user : Behavior)
    (Hp : mapM (subsystem_behavior clockType) (Structure_ cc) m = (Ok parts, m1)) (Hu : ccBehavior cc = Some user)
    (Hs : NoDup (map srName (concat parts.*1)) /\ NoDup (map srName (Sources user)) /\ Forall (fun u => srName u <> ""%string) (Sources user))
    (Hc : NoDup (map cdName (concat parts.*2)) /\ NoDup (map cdName (Conditions user))) :
  deriveBehavior cc clockType m
  = (Ok (cc <| ccBehavior := Some (mkBehavior (merged_list srName (fun u x => mergeSourceConfig x u) (concat parts.*1) (Sources user))
                                             (merged_list cdName (fun u _ => u) (concat parts.*2) (Conditions user))) |>), m1).
Proof.
  destruct Hs as (Hs1 & Hs2 & Hs3), Hc as [Hc1 Hc2].
  unfold deriveBehavior, bind. rewrite Hp, Hu. cbn [default]. rewrite (merge_sources_eq _ Hs3), merge_all by done.
  rewrite <- (merge_all cdName (fun u _ => u)); [done| |done|done]. intros u x E. by rewrite E.
Qed.

(** ** The structure *)

(** What was configured stays: [s'] only adds to [s]. *)
Record extends (s s' : Subsystem) : Prop := {
  ext_name : sbName s' = sbName s;
  ext_def : HardwareSpecificDefinitions s' = HardwareSpecificDefinitions s;
  ext_interface : NetworkInterface (sbDPLL s) <> ""%string -> NetworkInterface (sbDPLL s') = NetworkInterface (sbDPLL s);
  ext_inputs : PhaseInputs (sbDPLL s) ⊆ PhaseInputs (sbDPLL s');
  ext_outputs : PhaseOutputs (sbDPLL s) ⊆ PhaseOutputs (sbDPLL s');
  ext_frequency : FrequencyInputs (sbDPLL s') = FrequencyInputs (sbDPLL s) /\ FrequencyOutputs (sbDPLL s') = FrequencyOutputs (sbDPLL s)
    /\ dpHoldoverParameters (sbDPLL s') = dpHoldoverParameters (sbDPLL s);
  ext_ethernet : Ethernet s <> [] -> Ethernet s' = Ethernet s
}.

#[export] Instance extends_preorder : PreOrder extends.
Proof.
  split; [intros s; by split|]. intros s s' s'' [] []. split; try congruence; try (by etrans).
  - intros Hi. rewrite ext_interface1; [auto|]. by rewrite ext_interface0.
  - naive_solver congruence.
  - intros He. rewrite ext_ethernet1; [auto|]. by rewrite ext_ethernet0.
Qed.

(** What a managed subsystem needs. *)
Definition equipped (clockType : string) (s : Subsystem) : Prop :=
  NetworkInterface (sbDPLL s) <> ""%string /\ (clockType <> ClockTypeTGM -> PhaseInputs (sbDPLL s) <> ∅ /\ Ethernet s <> []).

Lemma equipped_extends clockType s s' : extends s s' -> equipped clockType s -> equipped clockType s'.
Proof.
  intros [] [Hi Hr]. split; [by rewrite ext_interface0|]. intros Ht. destruct (Hr Ht) as [Hp He]. split; [|by rewrite ext_ethernet0].
  intros E. rewrite E in *. apply Hp. apply map_empty. intros k. destruct (PhaseInputs (sbDPLL s) !! k) as [x|] eqn:Ex; [|done].
  eapply lookup_weaken in Ex; [|done]. by rewrite lookup_empty in Ex.
Qed.

Lemma add_missing_subseteq pin pins : pins ⊆ add_missing pin pins.
Proof. unfold add_missing. destruct (pins !! pin) eqn:E; [done|]. by apply insert_subseteq. Qed.

Lemma inject_pin_extends s c : extends s (inject_pin s c).
Proof.
  unfold inject_pin. destruct (cmCompensationPoint c) as [p|]; [|done]. destruct (_ && _); [|done].
  destruct (Regex.contains _ _); split; cbn; try done; apply add_missing_subseteq.
Qed.

Lemma inject_pins_extend l s : extends s (foldl inject_pin s l).
Proof. revert s. induction l as [|c l IH]; intros s; cbn; [done|]. etrans; [apply inject_pin_extends|apply IH]. Qed.

Section Structure.
Context `{MapOrder} `{Env}.

(** *** Runs *)

Lemma bind_ok {A B} (x : M A) (k : A -> M B) m b m' : bind x k m = (Ok b, m') -> exists a m1, x m = (Ok a, m1) /\ k a m1 = (Ok b, m').
Proof. unfold bind. destruct (x m) as [[a| |] m1]; intros E; [eauto|done|done]. Qed.

Lemma lift_or_err_ok {A} (o : option A) m a m' : lift (or_err o) m = (Ok a, m') -> o = Some a /\ m' = m.
Proof. unfold lift. destruct o; cbn; intros [= -> ->] || intros [=]; done. Qed.

Lemma mapM_ok {A B} (f : A -> M B) (R : Manager -> A -> B -> Prop) l :
  (forall x m y m', f x m = (Ok y, m') -> R m' x y /\ hwDefaultsCache m ⊆ hwDefaultsCache m') ->
  (forall m m' x y, hwDefaultsCache m ⊆ hwDefaultsCache m' -> R m x y -> R m' x y) ->
  forall m ys m', mapM f l m = (Ok ys, m') -> Forall2 (R m') l ys /\ hwDefaultsCache m ⊆ hwDefaultsCache m'.
Proof.
  intros Hf HR. induction l as [|x l IH]; intros m ys m' E; cbn [mapM] in E.
  - injection E as <- <-. split; [constructor|done].
  - apply bind_ok in E as (y & m1 & E1 & E). apply bind_ok in E as (ys' & m2 & E2 & E). injection E as <- <-.
    apply Hf in E1 as [Hr Hm1]. apply IH in E2 as [Hr' Hm2]. split; [|by etrans]. constructor; [by eapply HR|done].
Qed.

Lemma getHardwareDefaults_ok path m hd m' : getHardwareDefaults path m = (Ok hd, m') ->
  hwDefaultsCache m ⊆ hwDefaultsCache m' /\ (path <> ""%string -> hwDefaultsCache m' !! path = Some hd) /\ (path = ""%string -> hd = None).
Proof.
  unfold getHardwareDefaults, str_eqb. case_bool_decide as Ep; [by intros [= <- <-]|].
  unfold bind, get, lift, modify, ret. destruct (hwDefaultsCache m !! path) as [spec|] eqn:Ec; [by intros [= <- <-]|].
  destruct (LoadHardwareDefaults _ _ _) as [loaded| |]; intros [= <- <-]. cbn. split_and!; [by apply insert_subseteq|intros _; by apply lookup_insert_eq|done].
Qed.

Lemma getHardwareDefaults_state path m r m' : getHardwareDefaults path m = (r, m') -> hwDefaultsCache m ⊆ hwDefaultsCache m' /\ r <> Panic.
Proof.
  unfold getHardwareDefaults, str_eqb. case_bool_decide as Ep; [by intros [= <- <-]|].
  unfold bind, get, lift, modify, ret. destruct (hwDefaultsCache m !! path) as [spec|] eqn:Ec; [by intros [= <- <-]|].
  unfold LoadHardwareDefaults, str_eqb. rewrite bool_decide_false by done. unfold obind, or_err.
  repeat (case_match; simplify_eq/=); intros [= <- <-]; cbn; (split; [done || by apply insert_subseteq|done]).
Qed.

Definition flagged (m : Manager) (s : Subsystem) : Prop :=
  exists h flags, hwDefaultsCache m !! hw_def_path s = Some (Some h) /\ ParseDPLLFlags h = Some flags /\ flags <> 0.

Lemma flagged_mono m m' s : hwDefaultsCache m ⊆ hwDefaultsCache m' -> flagged m s -> flagged m' s.
Proof. intros Hs (h & fl & Hl & ?). exists h, fl. split; [|done]. by eapply lookup_weaken. Qed.

Lemma unmanaged_ok s m b m' : unmanaged s m = (Ok b, m') -> hwDefaultsCache m ⊆ hwDefaultsCache m' /\ (b = true -> flagged m' s).
Proof.
  unfold unmanaged, bind, try. destruct (getHardwareDefaults (hw_def_path s) m) as [[hd| |] m1] eqn:E; intros [= <- <-].
  - apply getHardwareDefaults_ok in E as (Hs & Hn & Hz). split; [done|]. intros Hb. destruct hd as [h|]; [|done].
    destruct (ParseDPLLFlags h) as [fl|] eqn:Ef; [|done]. exists h, fl. split_and!; [|done|lia].
    apply Hn. intros E. by specialize (Hz E).
  - apply getHardwareDefaults_state in E as [Hs _]. split; [done|]. done.
Qed.

Hypothesis named_entries : forall path l, ReadDir env_leading path = Some l -> ""%string ∉ l.

Lemma leading_interface_named port i : findLeadingInterfaceFromPortWithResolver port env_leading = Some i -> i <> ""%string.
Proof.
  unfold findLeadingInterfaceFromPortWithResolver. destruct (str_eqb port ""); [done|]. intros E.
  repeat match type of E with (?o ≫= _) = _ => destruct o eqn:?; cbn in E; [|done] end.
  destruct (_ || _); [done|]. destruct (ReadDir _ _) as [l|] eqn:El; cbn in E; [|done]. intros ->.
  apply (named_entries _ _ El). destruct l as [|x l]; [done|]. injection E as ->. left.
Qed.

Lemma derive_interface_ok s port m s' m' : derive_interface s port m = (Ok s', m') ->
  m' = m /\ extends s s' /\ NetworkInterface (sbDPLL s') <> ""%string.
Proof.
  unfold derive_interface, str_eqb. case_bool_decide as E0.
  - intros E. apply bind_ok in E as (i & m1 & E1 & E). apply lift_or_err_ok in E1 as [E1 ->]. injection E as <- <-.
    split_and!; [done|by split|]. by apply leading_interface_named in E1.
  - intros [= <- <-]. done.
Qed.

Lemma derive_structure_ok s p clockType m s' m' : deriveSubsystemStructure s p clockType m = (Ok s', m') ->
  m' = m /\ extends s s' /\ equipped clockType s'.
Proof.
  unfold deriveSubsystemStructure. destruct (str_eqb (HardwareSpecificDefinitions s) ""); [done|]. intros E.
  apply bind_ok in E as (s1 & m1 & E1 & E).
  assert (m1 = m /\ extends s s1 /\ NetworkInterface (sbDPLL s1) <> ""%string
          /\ (str_eqb clockType ClockTypeTGM = false -> extractUpstreamPortsFromPtpProfile p <> [])) as (-> & Hx1 & Hi1 & Hup).
  { destruct (str_eqb clockType ClockTypeTGM); cbn [negb] in E1.
    - destruct (str_eqb (NetworkInterface (sbDPLL s)) "") eqn:E0.
      + destruct (extractInterfacesFromPtpProfile p); [done|]. by apply derive_interface_ok in E1 as (-> & ? & ?).
      + injection E1 as <- <-. apply bool_decide_eq_false in E0. done.
    - destruct (extractUpstreamPortsFromPtpProfile p); [done|]. by apply derive_interface_ok in E1 as (-> & ? & ?). }
  apply bind_ok in E as (t & m2 & E2 & E). unfold load_profile, bind, get, lift in E2.
  destruct (LoadBehaviorProfile _ _ _ _) as [t0| |]; [|done|done]. injection E2 as <- <-.
  apply bind_ok in E as (t & m3 & E3 & E). apply lift_or_err_ok in E3 as [_ ->].
  destruct (str_eqb clockType ClockTypeTGM) eqn:Etgm.
  - injection E as <- <-. split_and!; [done|done|]. split; [done|]. intros Hn. by apply bool_decide_eq_true in Etgm.
  - apply bind_ok in E as (s2 & m4 & E4 & E). injection E as <- <-.
    assert (m4 = m /\ extends s1 s2 /\ PhaseInputs (sbDPLL s2) <> ∅) as (-> & Hx2 & Hp2).
    { destruct (Nat.eqb_spec (size (PhaseInputs (sbDPLL s1))) 0) as [Ez|Ez].
      - destruct (str_eqb (role t "ptpInputPin") ""); [done|]. injection E4 as <- <-. split_and!; [done| |apply insert_non_empty].
        apply map_size_empty_iff in Ez. split; try done. cbn. rewrite Ez. apply map_empty_subseteq.
      - injection E4 as <- <-. split_and!; [done|done|]. intros E0. rewrite E0 in Ez. by rewrite map_size_empty in Ez. }
    assert (extends s2 (match Ethernet s2 with [] => s2 <| Ethernet := [extractUpstreamPortsFromPtpProfile p] |> | _ => s2 end)) as Hx3.
    { destruct (Ethernet s2) eqn:Ee; [|done]. by split. }
    split; [done|]. split; [etrans; [exact Hx1|]; etrans; [exact Hx2|exact Hx3]|].
    assert (NetworkInterface (sbDPLL s2) <> ""%string) as Hi2 by by rewrite (ext_interface _ _ Hx2).
    destruct (Ethernet s2) eqn:Ee; (split; [done|]); intros _; (split; [done|]); cbn; rewrite ?Ee; done.
Qed.

Lemma complete_equipped clockType s : complete s = true -> equipped clockType s.
Proof.
  unfold complete, str_eqb. rewrite !andb_true_iff, !negb_true_iff, bool_decide_eq_false, !Nat.eqb_neq. intros [[Hi Hp] He].
  split; [done|]. intros _. split; [intros E; rewrite E in Hp; by rewrite map_size_empty in Hp|by destruct (Ethernet s)].
Qed.

Lemma resolve_subsystem_ok p clockType s m s' m' : resolve_subsystem p clockType s m = (Ok s', m') ->
  (extends s s' /\ (s' = s /\ flagged m' s \/ equipped clockType s')) /\ hwDefaultsCache m ⊆ hwDefaultsCache m'.
Proof.
  unfold resolve_subsystem. intros E. apply bind_ok in E as (skip & m1 & E1 & E). apply unmanaged_ok in E1 as [Hs1 Hf].
  destruct skip; [injection E as <- <-; split; [split; [done|left; auto]|done]|].
  apply bind_ok in E as (s1 & m2 & E2 & E).
  assert (m2 = m1 /\ extends s s1 /\ equipped clockType s1) as (-> & Hx & He).
  { destruct (complete s) eqn:Ec; [injection E2 as <- <-; split_and!; [done|done|by apply complete_equipped]|by eapply derive_structure_ok]. }
  apply bind_ok in E as (inj & m3 & E3 & E). injection E as <- <-. unfold try, injectDelayCompensationPins, bind in E3.
  destruct (getHardwareDefaults (hw_def_path s1) m1) as [[hd| |] m4] eqn:Eg; simplify_eq/=;
    apply getHardwareDefaults_state in Eg as [Hs2 _]; (split; [|by etrans]).
  - assert (extends s1 (match h ← hd; DelayCompensation h with Some model => foldl inject_pin s1 (Components model) | None => s1 end)) as Hx2
      by (destruct (h ← hd; DelayCompensation h); [apply inject_pins_extend|done]).
    split; [by etrans|]. right. by eapply equipped_extends.
  - split; [done|by right].
Qed.

Lemma behavior_keeps cc clockType m cc' m' : deriveBehavior cc clockType m = (Ok cc', m') ->
  Structure_ cc' = Structure_ cc /\ CommonDefinitions cc' = CommonDefinitions cc /\ hwDefaultsCache m' = hwDefaultsCache m.
Proof.
  unfold deriveBehavior. intros E. apply bind_ok in E as (parts & m1 & E1 & E). injection E as <- <-. split_and!; [done|done|].
  revert m m1 parts E1. induction (Structure_ cc) as [|s l IH]; intros m m1 parts E1; cbn [mapM] in E1; [by injection E1 as _ <-|].
  apply bind_ok in E1 as (y & m2 & E2 & E1). apply bind_ok in E1 as (ys & m3 & E3 & E1). injection E1 as _ <-. rewrite (IH _ _ _ E3).
  unfold subsystem_behavior in E2. destruct (str_eqb _ _); [unfold ret in E2; by simplify_eq|].
  unfold load_profile, bind, get, lift, ret in E2. by destruct (LoadBehaviorProfile _ _ _ _); simplify_eq/=.
Qed.

(** The structure of a resolved chain.  When a configuration is resolved, its chain has the
    same subsystems, in order, and nothing that was configured for one is changed; a subsystem
    whose hardware has monitoring flags is left as it is, and every other one has an interface
    and, unless the clock is a T-GM, a phase input and Ethernet ports. *)
Theorem resolved_structure (hw hw' : HardwareConfig) (config : option (list PtpConfig.PtpProfile)) (m m' : Manager)
    (Hr : ResolveClockChain hw config m = (Ok hw', m')) :
  exists cc cc' clockType,
    hpClockChain (hwProfile hw) = Some cc /\ hpClockChain (hwProfile hw') = Some cc' /\ ClockType (hwProfile hw) = Some clockType
    /\ Forall2 (fun s s' => extends s s' /\ (s' = s /\ flagged m' s \/ equipped clockType s')) (Structure_ cc) (Structure_ cc').
Proof.
  unfold ResolveClockChain in Hr. apply bind_ok in Hr as (clockType & m1 & E1 & Hr). apply lift_or_err_ok in E1 as [Et ->].
  apply bind_ok in Hr as (profiles & m2 & E2 & Hr). apply lift_or_err_ok in E2 as [_ ->].
  destruct (str_eqb (RelatedPtpProfileName hw) ""); [done|].
  apply bind_ok in Hr as (p & m3 & E3 & Hr). apply lift_or_err_ok in E3 as [_ ->].
  apply bind_ok in Hr as (cc & m4 & E4 & Hr). unfold lift, deref in E4. destruct (hpClockChain (hwProfile hw)) as [cc0|] eqn:Ecc; [|done].
  injection E4 as -> <-. apply bind_ok in Hr as (structure & m5 & E5 & Hr).
  apply bind_ok in Hr as (cc' & m6 & E6 & Hr). injection Hr as <- <-. apply behavior_keeps in E6 as (Hs & _ & Hc).
  exists cc, cc', clockType. split_and!; [done|done|done|]. rewrite Hs. cbn.
  apply (mapM_ok _ (fun m s s' => extends s s' /\ (s' = s /\ flagged m s \/ equipped clockType s'))) in E5 as [H5 _].
  - eapply Forall2_impl; [exact H5|]. intros s s' [Hx [[? Hf]|?]]; (split; [done|]); [left|by right]. split; [done|].
    eapply flagged_mono; [|exact Hf]. by rewrite Hc.
  - intros s m7 s' m8. apply resolve_subsystem_ok.
  - intros m7 m8 s s' Hm [Hx [[? Hf]|?]]; (split; [done|]); [left|by right]. split; [done|]. by eapply flagged_mono.
Qed.

End Structure.

(** ** A T-BC on e825 *)

Definition tbc_template : BehaviorProfileTemplate :=
  mkTemplate {[ "gnssInputPin" := "GNSS_1PPS_IN"; "ptpInputPin" := "GNR-D_SDP0" ]}%string
    [mkSource "PTP" "{subsystem}" "ptpTimeReceiver" "{ptpInputPin}" [] None]%string
    [mkCondition "Initialize T-BC" [mkSourceState "PTP" "init"]
       [mkDesired (Some (mkDPLLDesired "{subsystem}" "{gnssInputPin}" (Some (mkPinState None "disconnected")) (Some (mkPinState None "disconnected")))) None None;
        mkDesired None (Some (mkPTPPin "SDP2" 0 0 "PTP")) None];
     mkCondition "PTP Source Locked" [mkSourceState "PTP" "locked"]
       [mkDesired None None (Some (mkPTPPeriod 1 None (Some (mkTimeSpec 1 0)) "PTP"));
        mkDesired (Some (mkDPLLDesired "{subsystem}" "{ptpInputPin}" (Some (mkPinState None "disconnected")) (Some (mkPinState None "selectable")))) None None];
     mkCondition "PTP Source Lost" [mkSourceState "PTP" "lost"] [mkDesired None (Some (mkPTPPin "SDP0" 0 0 "PTP")) None]]%string.

Definition e825_files : VendorFiles :=
  mkFiles (fun path => if str_eqb path "intel/e825" then Some (Some (no_defaults <| ClockIDTransformation := Some "direct"%string |>)) else None)
    (fun path => if str_eqb path "intel/e825" then Some (Some e825_model) else None)
    (fun path => if str_eqb path "intel/e825" then Some (Some {[ "t-bc"%string := tbc_template ]}) else None).

Definition eno5_leads : LeadingInterfaceResolver :=
  mkLeading (fun port => if str_eqb port "eno8703" then "/dev/ptp0" else "")%string
    (fun path => if str_eqb path "/sys/class/ptp/ptp0/device" then Some "../../../0000:13:00.0"%string else None)
    (fun path => if str_eqb path "/sys/bus/pci/devices/0000:13:00.0/net" then Some ["eno5"%string] else None).

Definition no_host : ClockID.Host := ClockID.mkHost (fun _ _ => None) (fun _ => None) (fun _ => None) None.

Definition sample_env : Env := Build_Env no_host e825_files eno5_leads (fun _ => None) None (fun _ _ => true).

Definition sample_manager : Manager := NewHardwareConfigManager (Some (mkLoader None (fun _ => None))) None.

Definition bare_dpll : DPLL := mkDPLL "" None ∅ ∅ ∅ ∅.
Definition leader : Subsystem := mkSubsystem "Leader" "intel/e825" bare_dpll [].

#[local] Existing Instance PtpConfig.PtpProfile_fields.

Definition tbc_profile : PtpConfig.PtpProfile :=
  PtpConfig.no_profile <| PtpConfig.Name := Some "cfg_tbc"%string |>
    <| PtpConfig.Ptp4lConf := Some (join newline ["[global]"; "domainNumber 24"; "[eno8703]"; "masterOnly 0"; "[eno8803]"; "masterOnly 1"])%string |>.

(** The user names the receiving port of the template source, and adds a condition. *)
Definition user_behavior : Behavior :=
  mkBehavior [mkSource "PTP" "" "" "" ["eno8703"] None; mkSource "GNSS" "Leader" "gnss" "GNSS_1PPS_IN" [] None]%string
    [mkCondition "PTP Source Lost" [mkSourceState "PTP" "lost"] []]%string.

Definition tbc_config : HardwareConfig :=
  mkConfig "tbc" (mkHwProfile (Some "tbc"%string) (Some "T-BC"%string) (Some (mkChain None [leader] (Some user_behavior)))) "tbc" [].

#[export] Existing Instance sample_env.

Lemma sample_named : forall path l, ReadDir env_leading path = Some l -> ""%string ∉ l.
Proof. cbn. intros path l. destruct (str_eqb _ _); [|done]. intros [= <-] Hi. apply list_elem_of_singleton in Hi. done. Qed.

Definition resolved (o : outcome HardwareConfig * Manager) : HardwareConfig := match o.1 with Ok h => h | _ => tbc_config end.

Theorem resolved_structure_witness :
  let r := ResolveClockChain tbc_config (Some [tbc_profile]) sample_manager in
  r.1 = Ok (resolved r)
  /\ exists cc cc' clockType,
    hpClockChain (hwProfile tbc_config) = Some cc /\ hpClockChain (hwProfile (resolved r)) = Some cc' /\ ClockType (hwProfile tbc_config) = Some clockType
    /\ Forall2 (fun s s' => extends s s' /\ (s' = s /\ flagged r.2 s \/ equipped clockType s')) (Structure_ cc) (Structure_ cc').
Proof.
  cbn zeta. assert ((ResolveClockChain tbc_config (Some [tbc_profile]) sample_manager).1 = Ok (resolved (ResolveClockChain tbc_config (Some [tbc_profile]) sample_manager))) as E
    by (vm_compute; reflexivity).
  split; [exact E|]. apply (resolved_structure sample_named tbc_config _ (Some [tbc_profile]) sample_manager).
  rewrite <- E. by destruct (ResolveClockChain _ _ _).
Defined.

Definition resolved_leader : Subsystem :=
  mkSubsystem "Leader" "intel/e825" (mkDPLL "eno5" None {[ "GNR-D_SDP0"%string := derived_input ]} ∅ ∅ ∅) [["eno8703"%string]].
Definition resolved_chain : ClockChain := mkChain None [resolved_leader] (Some user_behavior).

Definition tbc_parts : list (list SourceConfig * list Condition) :=
  match (mapM (subsystem_behavior "T-BC") (Structure_ resolved_chain) sample_manager).1 with Ok l => l | _ => [] end.

Theorem behavior_merged_witness :
  map srName (concat tbc_parts.*1) = ["PTP"%string]
  /\ deriveBehavior resolved_chain "T-BC" sample_manager
     = (Ok (resolved_chain <| ccBehavior := Some (mkBehavior
          (merged_list srName (fun u x => mergeSourceConfig x u) (concat tbc_parts.*1) (Sources user_behavior))
          (merged_list cdName (fun u _ => u) (concat tbc_parts.*2) (Conditions user_behavior))) |>), sample_manager).
Proof.
  split; [vm_compute; reflexivity|].
  apply (behavior_merged resolved_chain "T-BC" sample_manager sample_manager tbc_parts user_behavior).
  - vm_compute. reflexivity.
  - reflexivity.
  - split; [apply (bool_decide_unpack _); vm_compute; exact I|]. split; [apply (bool_decide_unpack _); vm_compute; exact I|].
    repeat constructor; discriminate.
  - split; apply (bool_decide_unpack _); vm_compute; exact I.
Defined.

(** The section of the unicast master table is taken for an interface: only a section named
    unicast is left out, which ptp4l does not have. *)
Lemma unicast_table_is_an_interface :
  extractInterfacesFromPtpProfile (PtpConfig.no_profile <| PtpConfig.Ptp4lConf := Some (join newline ["[global]"; "[unicast_master_table]"; "[eno5]"])%string |>)
  = ["unicast_master_table"; "eno5"]%string.
Proof. vm_compute. reflexivity. Qed.

(** The path of the definition is trimmed where defaults are loaded, but not where the
    behaviour profile is: with a blank around it the structure cannot be derived. *)
Lemma padded_path_not_found :
  hw_def_path (leader <| HardwareSpecificDefinitions := " intel/e825"%string |>) = "intel/e825"%string
  /\ (deriveSubsystemStructure (leader <| HardwareSpecificDefinitions := " intel/e825"%string |>) tbc_profile "T-BC" sample_manager).1 = Err.
Proof. split; vm_compute; reflexivity. Qed.

End HwChain.
