(* ===== verification/HwBuild.v ===== *)
(** * pkg/hardwareconfig: from a clock chain to commands

    The part of hardwareconfig.go that turns the structure and the behaviour of a chain into
    commands for pins and files: connectors, defaults, frequencies, phase adjustments, desired
    states and their paths. *)

From S2P Require Import Prelude Strconv Regex Parser Conf Ublox Netlink HwTypes PinCmd HwVendor ClockID HwState.

#[local] Open Scope Z_scope.

Module HwBuild.

Import Netlink Hw PinCmd HwVendor HwState.
#[local] Open Scope hw_scope.

(** ** Connectors *)

Definition connector_set : Type := gmap string unit.

Definition add_connector (e : string * PinConfig) (m : gmap string unit) : gmap string unit :=
  if str_eqb (Connector e.2) "" then m else <[Connector e.2 := tt]> m.

Definition connectors (pins : gmap string PinConfig) (m : gmap string unit) : gmap string unit := foldr add_connector m (map_to_list pins).

Definition collectConnectorUsage (s : Subsystem) : gmap string unit * gmap string unit :=
  (connectors (FrequencyInputs (sbDPLL s)) (connectors (PhaseInputs (sbDPLL s)) ∅),
   connectors (FrequencyOutputs (sbDPLL s)) (connectors (PhaseOutputs (sbDPLL s)) ∅)).

Section Env.
Context `{MapOrder} `{Env}.

(** The commands of an action, with every path resolved. *)
Definition render_command (iface : string) (c : ConnectorCommand) : outcome (list SysFSCommand) :=
  if negb (equal_fold (ccType c) "FSWrite") then Ok []
  else
    let path := Regex.ReplaceAll (ccPath c) "{interface}" iface in
    let paths := if Regex.contains "ptp*" path then env_ptp_devices path else Some [path] in
    match paths with Some l => Ok (map (fun p => mkSysFS p (ccValue c)) l) | None => Err end.

Definition render (iface : string) (cmds : list ConnectorCommand) : outcome (list SysFSCommand) :=
  obind (omapM (render_command iface) cmds) (fun l => Ok (concat l)).

Definition apply_connector (iface : string) (actions : option (gmap string (list ConnectorCommand))) (conn : string) : outcome (list SysFSCommand) :=
  match a ← actions; a !! conn with Some cmds => render iface cmds | None => Ok [] end.

Definition keys_of {A} (m : gmap string A) : list string := (range m).*1.

(** The connectors the vendor knows. *)
Definition defined_connectors (c : ConnectorCommands) : gmap string unit :=
  let keys (m : option (gmap string (list ConnectorCommand))) : gmap string unit := (fun _ => tt) <$> default ∅ m in
  keys (ccInputs c) ∪ keys (ccOutputs c) ∪ keys (ccDisable c).

Definition disable_connector (iface : string) (c : ConnectorCommands) (used : gmap string unit) (conn : string) : outcome (list SysFSCommand) :=
  match used !! conn with Some _ => Ok [] | None => apply_connector iface (ccDisable c) conn end.

Definition translateConnectorCommands (commands : option ConnectorCommands) (iface : string) (inputs outputs : gmap string unit) :
    outcome (list SysFSCommand) :=
  match commands with
  | None => Ok []
  | Some c =>
      if str_eqb iface "" then Ok []
      else
        obind (omapM (apply_connector iface (ccInputs c)) (keys_of inputs)) (fun l1 =>
        obind (omapM (apply_connector iface (ccOutputs c)) (keys_of outputs)) (fun l2 =>
        obind (match ccDisable c with
               | Some _ => omapM (disable_connector iface c (inputs ∪ outputs)) (keys_of (defined_connectors c))
               | None => Ok []
               end) (fun l3 => Ok (concat l1 ++ concat l2 ++ concat l3))))
  end.

(** ** The structure of a subsystem *)

(** The clock of a subsystem, when it has an interface and the clock is found. *)
Definition subsystem_clock (hwDefPath : string) (s : Subsystem) : M (option Z) :=
  if str_eqb (subsystem_interface s) "" then ret None else try (getClockIDCached (subsystem_interface s) hwDefPath).

Definition buildPinCommandFromDefaults (s : Subsystem) (hwDefPath label : string) (overrides : PinDefault) : M (option PinParentDeviceCtl) :=
  clock <- subsystem_clock hwDefPath s;;
  m <- get;;
  ret (id ← clock; command_from_defaults (pinCache m) id label overrides).

(** What [buildESyncPinCommands] and [buildPhaseAdjustmentCommands] begin with: an error
    without a cache or an interface, no commands without a clock. *)
Definition with_clock (s : Subsystem) (hwDefPath : string) (build : PinCache -> Z -> list PinParentDeviceCtl) : M (list PinParentDeviceCtl) :=
  m <- get;;
  _ <- lift (or_err (pinCache m));;
  if str_eqb (subsystem_interface s) "" then fail
  else
    clock <- try (getClockIDCached (subsystem_interface s) hwDefPath);;
    m <- get;;
    ret (match clock, pinCache m with Some id, Some pc => build pc id | _, _ => [] end).

Definition buildESyncPinCommands (s : Subsystem) (hwDefPath : string) (cc : ClockChain) (hwSpec : option HardwareDefaults) : M (list PinParentDeviceCtl) :=
  with_clock s hwDefPath (fun pc id => esync_commands pc id cc hwSpec s).

Definition buildPhaseAdjustmentCommands (s : Subsystem) (hwDefPath : string) : M (list PinParentDeviceCtl) :=
  with_clock s hwDefPath (fun pc id => adjustment_commands pc id s).

Definition resolveSubsystemStructure (hwDefPath : string) (s : Subsystem) (cc : ClockChain) : M (list PinParentDeviceCtl * list SysFSCommand) :=
  spec <- getHardwareDefaults hwDefPath;;
  match spec with
  | None => ret ([], [])
  | Some hd =>
      defaults <- mapM (fun e => buildPinCommandFromDefaults s hwDefPath e.1 e.2) (range (PinDefaults hd));;
      esync <- buildESyncPinCommands s hwDefPath cc (Some hd);;
      phase <- buildPhaseAdjustmentCommands s hwDefPath;;
      let '(inputs, outputs) := collectConnectorUsage s in
      sysfs <- lift (translateConnectorCommands (hdConnectorCommands hd) (first_port s) inputs outputs);;
      ret (omap id defaults ++ esync ++ phase, sysfs)
  end.

Definition subsystem_structure (cc : ClockChain) (s : Subsystem) : M (list PinParentDeviceCtl * list SysFSCommand) :=
  if str_eqb (hw_def_path s) "" then ret ([], []) else resolveSubsystemStructure (hw_def_path s) s cc.

Definition resolveClockChainStructure (cc : ClockChain) : M (list PinParentDeviceCtl * list SysFSCommand) :=
  parts <- mapM (subsystem_structure cc) (Structure_ cc);;
  ret (concat parts.*1, concat parts.*2).

(** ** Sources and paths *)

Definition find_source (b : Behavior) (sourceName : string) : option SourceConfig :=
  if str_eqb sourceName "" then
    first_match (fun s => str_eqb (srSourceType s) "ptpTimeReceiver" && (0 <? length (PTPTimeReceivers s))%nat) (Sources b)
  else first_match (fun s => str_eqb (srName s) sourceName) (Sources b).

Definition nonempty (s : string) : option string := if str_eqb s "" then None else Some s.

Definition has_port (s : Subsystem) (port : string) : bool :=
  existsb (fun ports => existsb (fun p => str_eqb p port) ports) (Ethernet s) || str_eqb (NetworkInterface (sbDPLL s)) port.

Definition getInterfaceNameFromSources (sourceName : string) (cc : ClockChain) : option string :=
  b ← ccBehavior cc;
  source ← find_source b sourceName;
  if str_eqb (srSourceType source) SourceTypeDPLL || str_eqb (srSourceType source) SourceTypeGNSS then
    name ← nonempty (srSubsystem source);
    s ← find_subsystem cc name;
    nonempty (subsystem_interface s)
  else
    upstreamPort ← head (PTPTimeReceivers source);
    name ← nonempty (srSubsystem source);
    s ← find_subsystem cc name;
    if has_port s upstreamPort then nonempty (subsystem_interface s) else None.

Definition serializePTPPinValue (p : PTPPinDesiredState) : string := (fmt_d (ppFunc p) +:+ " " +:+ fmt_d (ppChan p))%string.

Definition serializePTPPeriodValue (p : PTPPeriodDesiredState) : string :=
  let start := default (mkTimeSpec 0 0) (peStart p) in
  let period := default (mkTimeSpec 0 0) (pePeriod p) in
  join " " [fmt_d (peIndex p); fmt_d (Sec start); fmt_d (Nsec start); fmt_d (Sec period); fmt_d (Nsec period)].

Definition resolvePTPPinPath (p : PTPPinDesiredState) (cc : ClockChain) : option (list string) :=
  i ← getInterfaceNameFromSources (ppSourceName p) cc;
  env_ptp_devices ("/sys/class/net/" +:+ i +:+ "/device/ptp/ptp*/pins/" +:+ ppName p)%string.

Definition resolvePTPPeriodPath (p : PTPPeriodDesiredState) (cc : ClockChain) : option (list string) :=
  i ← getInterfaceNameFromSources (peSourceName p) cc;
  env_ptp_devices ("/sys/class/net/" +:+ i +:+ "/device/ptp/ptp*/period")%string.

Definition processPTPPinConfig (p : PTPPinDesiredState) (cc : ClockChain) : option (list SysFSCommand) :=
  paths ← resolvePTPPinPath p cc; Some (map (fun path => mkSysFS path (serializePTPPinValue p)) paths).

Definition processPTPPeriodConfig (p : PTPPeriodDesiredState) (cc : ClockChain) : option (list SysFSCommand) :=
  paths ← resolvePTPPeriodPath p cc; Some (map (fun path => mkSysFS path (serializePTPPeriodValue p)) paths).

(** ** Conditions *)

Definition getSubsystemHardwareDefinition (cc : ClockChain) (name : string) : option string := hw_def_path <$> find_subsystem cc name.

Definition createPinCommandForDPLLDesiredState (d : DPLLDesiredState) (cc : ClockChain) : M PinParentDeviceCtl :=
  if str_eqb (ddSubsystem d) "" then fail
  else
    iface <- lift (or_err (GetSubsystemNetworkInterface cc (ddSubsystem d)));;
    hwDefPath <- lift (or_err (getSubsystemHardwareDefinition cc (ddSubsystem d)));;
    clockID <- getClockIDCached iface hwDefPath;;
    m <- get;;
    pc <- lift (deref (pinCache m));;
    lift (or_err (desired_command pc clockID d)).

Definition resolveDpllPinCommands (cond : Condition) (cc : ClockChain) : M (list PinParentDeviceCtl) :=
  mapM (fun d => createPinCommandForDPLLDesiredState d cc) (omap dsDPLL (cdDesiredStates cond)).

Definition desired_sysfs (cc : ClockChain) (d : DesiredState) : option (list SysFSCommand) :=
  pin ← match dsPTPPin d with Some p => processPTPPinConfig p cc | None => Some [] end;
  period ← match dsPTPPeriod d with Some p => processPTPPeriodConfig p cc | None => Some [] end;
  Some (pin ++ period).

Definition resolveSysFSCommands (cond : Condition) (cc : ClockChain) : option (list SysFSCommand) :=
  l ← list.mapM (desired_sysfs cc) (cdDesiredStates cond); Some (concat l).

Definition put_nonempty {A} (name : string) (l : list A) (m : gmap string (list A)) : gmap string (list A) :=
  match l with [] => m | _ => <[name := l]> m end.

Definition behavior_maps : Type := gmap string (list PinParentDeviceCtl) * gmap string (list SysFSCommand).

Definition resolve_condition (cc : ClockChain) (maps : gmap string (list PinParentDeviceCtl) * gmap string (list SysFSCommand)) (cond : Condition) :
    M (gmap string (list PinParentDeviceCtl) * gmap string (list SysFSCommand)) :=
  match cdTriggers cond with
  | [] => ret maps
  | _ =>
      pins <- resolveDpllPinCommands cond cc;;
      sysfs <- lift (or_err (resolveSysFSCommands cond cc));;
      ret (put_nonempty (cdName cond) pins maps.1, put_nonempty (cdName cond) sysfs maps.2)
  end.

Fixpoint foldM {A B} (f : A -> B -> M A) (a : A) (l : list B) : M A := match l with [] => ret a | b :: l' => a' <- f a b;; foldM f a' l' end.

Definition resolveClockChainBehavior (cc : ClockChain) : M (gmap string (list PinParentDeviceCtl) * gmap string (list SysFSCommand)) :=
  match ccBehavior cc with
  | Some b => foldM (resolve_condition cc) (∅, ∅) (Conditions b)
  | None => ret (∅, ∅)
  end.

(** ** Phase adjustments, holdover and flags *)

(** One subsystem of [populatePhaseAdjustments]: the whole chain is adjusted for it. *)
Definition populate_for (cc : ClockChain) (s : Subsystem) : M ClockChain :=
  hd <- getHardwareDefaults (hw_def_path s);;
  ret (match hd with
       | Some h =>
           match DelayCompensation h with
           | Some _ => if str_eqb (subsystem_interface s) "" then cc else PopulatePhaseAdjustmentsFromDelays (Some h) (subsystem_interface s) cc
           | None => cc
           end
       | None => cc
       end).

(** The chain as it is left when an error ends the loop. *)
Fixpoint populate_loop (cc : ClockChain) (l : list Subsystem) : M ClockChain :=
  match l with
  | [] => ret cc
  | s :: l' => r <- try (populate_for cc s);; match r with Some cc' => populate_loop cc' l' | None => ret cc end
  end.

Definition populatePhaseAdjustments (cc : ClockChain) : M ClockChain := populate_loop cc (Structure_ cc).

Definition or_default (v dflt : Z) : Z := if v =? 0 then dflt else v.

Definition holdover_defaults (h : HoldoverParameters) : HoldoverParameters :=
  mkHoldover (or_default (MaxInSpecOffset h) 100) (or_default (LocalMaxHoldoverOffset h) 1500) (or_default (LocalHoldoverTimeout h) 14400).

Definition holdover_of (params : gmap Z HoldoverParameters) (s : Subsystem) : M (gmap Z HoldoverParameters) :=
  match dpHoldoverParameters (sbDPLL s) with
  | Some h =>
      clock <- subsystem_clock (hw_def_path s) s;;
      ret (match clock with Some id => <[id := holdover_defaults h]> params | None => params end)
  | None => ret params
  end.

Definition extractHoldoverParameters (cc : ClockChain) : M (gmap Z HoldoverParameters) := foldM holdover_of ∅ (Structure_ cc).

Definition flags_of (flags : gmap Z Z) (s : Subsystem) : M (gmap Z Z) :=
  hd <- try (getHardwareDefaults (hw_def_path s));;
  match h ← hd; h ← h; ParseDPLLFlags h with
  | Some f =>
      if f =? 0 then ret flags
      else
        clock <- subsystem_clock (hw_def_path s) s;;
        ret (match clock with Some id => <[id := f]> flags | None => flags end)
  | None => ret flags
  end.

Definition extractDPLLFlags (cc : ClockChain) : M (gmap Z Z) := foldM flags_of ∅ (Structure_ cc).

End Env.

End HwBuild.
