(* ===== verification/HwNames.v ===== *)
(** * pkg/network: the interfaces of hardware configurations

    ResolveHardwareConfigInterfaces of pkg/network/resolve.go: every interface a configuration
    names becomes the one that exists, subsystems first, then the ports of the sources. *)

From S2P Require Import Prelude Resolver HwTypes.

Module HwNames.

Import Resolver Hw.

#[local] Notation R := InterfaceResolver.

Fixpoint map_names {A} (f : A -> R -> A * R) (l : list A) (r : R) : list A * R :=
  match l with [] => ([], r) | x :: l' => let '(x', r) := f x r in let '(l', r) := map_names f l' r in (x' :: l', r) end.

(** [if resolved, remapped := r.Resolve(name); remapped { name = resolved }]. *)
Definition resolve_name (name : string) (r : R) : string * R :=
  let '(resolved, remapped, r) := Resolve name r in (if remapped then resolved else name, r).

Definition resolve_subsystem_names (s : Subsystem) (r : R) : Subsystem * R :=
  let d := sbDPLL s in
  let '(i, r) := if str_eqb (NetworkInterface d) "" then (NetworkInterface d, r) else resolve_name (NetworkInterface d) r in
  let '(ports, r) := map_names (map_names resolve_name) (Ethernet s) r in
  (s <| sbDPLL := d <| NetworkInterface := i |> |> <| Ethernet := ports |>, r).

Definition resolve_source_names (s : SourceConfig) (r : R) : SourceConfig * R :=
  let '(ports, r) := map_names resolve_name (PTPTimeReceivers s) r in (s <| PTPTimeReceivers := ports |>, r).

Definition resolve_chain_names (cc : ClockChain) (r : R) : ClockChain * R :=
  let '(structure, r) := map_names resolve_subsystem_names (Structure_ cc) r in
  let cc := cc <| Structure_ := structure |> in
  match ccBehavior cc with
  | Some b => let '(sources, r) := map_names resolve_source_names (Sources b) r in (cc <| ccBehavior := Some (b <| Sources := sources |>) |>, r)
  | None => (cc, r)
  end.

Definition resolve_config_names (h : HardwareConfig) (r : R) : HardwareConfig * R :=
  match hpClockChain (hwProfile h) with
  | Some cc => let '(cc, r) := resolve_chain_names cc r in (h <| hwProfile := (hwProfile h) <| hpClockChain := Some cc |> |>, r)
  | None => (h, r)
  end.

Definition ResolveHardwareConfigInterfaces (hwConfigs : list HardwareConfig) (r : R) : list HardwareConfig * R :=
  map_names resolve_config_names hwConfigs r.

(** * Properties *)

(** The same configuration with every interface given by a function of its name. *)
Section Rename.
Context (f : string -> string).

Definition subsystem_names (s : Subsystem) : Subsystem :=
  let d := sbDPLL s in s <| sbDPLL := d <| NetworkInterface := f (NetworkInterface d) |> |> <| Ethernet := map (map f) (Ethernet s) |>.
Definition source_names (s : SourceConfig) : SourceConfig := s <| PTPTimeReceivers := map f (PTPTimeReceivers s) |>.
Definition chain_names (cc : ClockChain) : ClockChain :=
  cc <| Structure_ := map subsystem_names (Structure_ cc) |>
     <| ccBehavior := (fun b => b <| Sources := map source_names (Sources b) |>) <$> ccBehavior cc |>.
Definition config_names (h : HardwareConfig) : HardwareConfig :=
  h <| hwProfile := (hwProfile h) <| hpClockChain := chain_names <$> hpClockChain (hwProfile h) |> |>.

End Rename.

(** A resolver that answers about given interfaces, and a step that maps as [f] does and
    leaves one. *)
Definition answers (known : list string) (r : R) : Prop := cache_ok r /\ knownInterfaces r = known.

Definition maps_as {A} (known : list string) (step : A -> R -> A * R) (f : A -> A) : Prop :=
  forall x r, answers known r -> exists r', step x r = (f x, r') /\ answers known r'.

Lemma map_names_as {A} known (step : A -> R -> A * R) f : maps_as known step f -> maps_as known (map_names step) (map f).
Proof.
  intros H l. induction l as [|x l IH]; intros r Hr; [by exists r|]. cbn.
  destruct (H x r Hr) as (r1 & -> & H1). destruct (IH r1 H1) as (r2 & -> & H2). by exists r2.
Qed.

Lemma resolve_name_as known : maps_as known resolve_name (resolution known).
Proof.
  intros name r [Hc Hk]. destruct (Resolve_resolution name r Hc) as (r' & E & Hk' & Hc'). rewrite Hk in E. exists r'.
  unfold resolve_name. rewrite E. split; [|split; [done|congruence]]. unfold str_eqb. case_bool_decide as He; cbn; congruence.
Qed.

#[local] Hint Resolve map_names_as resolve_name_as : core.

Lemma subsystem_names_as known : maps_as known resolve_subsystem_names (subsystem_names (resolution known)).
Proof.
  intros s r Hr. unfold resolve_subsystem_names, subsystem_names.
  assert (exists r1, (if str_eqb (NetworkInterface (sbDPLL s)) "" then (NetworkInterface (sbDPLL s), r) else resolve_name (NetworkInterface (sbDPLL s)) r)
      = (resolution known (NetworkInterface (sbDPLL s)), r1) /\ answers known r1) as (r1 & -> & H1).
  { destruct (str_eqb _ _) eqn:E; [|by apply resolve_name_as]. exists r. unfold resolution. by rewrite E. }
  destruct (map_names_as known (map_names resolve_name) (map (resolution known)) ltac:(auto) (Ethernet s) r1 H1) as (r2 & -> & H2). by exists r2.
Qed.

Lemma source_names_as known : maps_as known resolve_source_names (source_names (resolution known)).
Proof.
  intros s r Hr. unfold resolve_source_names, source_names.
  destruct (map_names_as known resolve_name (resolution known) ltac:(auto) (PTPTimeReceivers s) r Hr) as (r1 & -> & H1). by exists r1.
Qed.

Lemma chain_names_as known : maps_as known resolve_chain_names (chain_names (resolution known)).
Proof.
  intros cc r Hr. unfold resolve_chain_names, chain_names.
  destruct (map_names_as known _ _ (subsystem_names_as known) (Structure_ cc) r Hr) as (r1 & -> & H1). destruct cc as [common structure [b|]]; cbn.
  - destruct (map_names_as known _ _ (source_names_as known) (Sources b) r1 H1) as (r2 & -> & H2). by exists r2.
  - by exists r1.
Qed.

Lemma config_names_as known : maps_as known resolve_config_names (config_names (resolution known)).
Proof.
  intros h r Hr. unfold resolve_config_names, config_names. destruct h as [name [pname ct [cc|]] rel st]; cbn.
  - destruct (chain_names_as known cc r Hr) as (r1 & -> & H1). by exists r1.
  - by exists r.
Qed.

(** The interfaces of hardware configurations become exactly their resolutions among the
    interfaces of the node, in subsystems, Ethernet ports and time receivers alike, whatever
    was resolved before; all the rest stays, and the resolver goes on answering the same. *)
Theorem hardware_names_resolved known names hwConfigs :
  let r := used known names in
  (ResolveHardwareConfigInterfaces hwConfigs r).1 = map (config_names (resolution known)) hwConfigs
  /\ answers known (ResolveHardwareConfigInterfaces hwConfigs r).2.
Proof.
  cbn zeta. destruct (used_ok known names) as [Hk Hc].
  destruct (map_names_as known _ _ (config_names_as known) hwConfigs (used known names)) as (r' & E & Hr'); [by split|].
  unfold ResolveHardwareConfigInterfaces. by rewrite E.
Qed.

End HwNames.
