(* ===== verification/HwApply.v ===== *)
(** * pkg/hardwareconfig: applying commands

    The part of hardwareconfig.go that applies what was built: conditions and their order,
    the defaults of the structure, the settings of a profile, the notifications of the DPLL;
    BatchPinSet and formatDpllPinCommand of utils.go. *)

From S2P Require Import Prelude Strconv Parser PtpConfig Netlink HwTypes PinCmd PinMerge ClockID HwState HwChain HwBuild.

#[local] Open Scope Z_scope.

Module HwApply.

Import Netlink Hw PinCmd PinMerge HwState HwChain HwBuild.
#[local] Open Scope hw_scope.
#[local] Existing Instance PtpConfig.PtpProfile_fields.

Definition ConditionTypeDefault : string := "default".
Definition ConditionTypeInit : string := "init".
Definition ConditionTypeLocked : string := "locked".

(** ** utils.go: commands for pins *)

Definition format_parent (pc : PinControl) : string :=
  join " " (("id=" +:+ fmt_d (pcPinParentID pc))%string
    :: match pcDirection pc with Some d => [("dir=" +:+ GetPinDirection d)%string] | None => [] end
    ++ match pcState pc with Some s => [("state=" +:+ GetPinState s)%string] | None => [] end
    ++ match pcPrio pc with Some p => [("prio=" +:+ fmt_d p)%string] | None => [] end).

Definition format_field (name : string) (v : option Z) : list string := match v with Some n => [(name +:+ fmt_d n)%string] | None => [] end.

Definition formatDpllPinCommand (c : PinParentDeviceCtl) : string :=
  let id := ("id=" +:+ fmt_d (ctID c))%string in
  let parts := format_field "frequency=" (ctFrequency c) ++ format_field "esync=" (ctEsyncFrequency c) ++ format_field "phaseAdjust=" (ctPhaseAdjust c)
               ++ match parents_of c with [] => [] | ps => [("parents=[" +:+ join "; " (map format_parent ps) +:+ "]")%string] end in
  join " " (id :: match parts with [] => ["no-op"%string] | _ => parts end).

(** [BatchPinSet] on an open connection: [send] is whether a message is accepted, [readback]
    whether the pin can be read after it.  The commands sent, and whether the error is nil. *)
Fixpoint BatchPinSet (send : list Z -> bool) (readback : Z -> bool) (commands : list PinParentDeviceCtl) : list PinParentDeviceCtl * bool :=
  match commands with
  | [] => ([], true)
  | c :: commands' =>
      match EncodePinControl c with
      | None => ([], false)
      | Some b =>
          if negb (send b) then ([c], false)
          else if negb (readback (ctID c)) then ([c], true)
          else let '(sent, ok) := BatchPinSet send readback commands' in (c :: sent, ok)
      end
  end.

(** ** Conditions of a type *)

Definition triggered (conditionType : string) (sourceName : string) (c : Condition) : bool :=
  existsb (fun t => str_eqb (ssConditionType t) conditionType && str_eqb (ssSourceName t) sourceName) (cdTriggers c).

Definition seen (name : string) (l : list Condition) : bool := existsb (fun c => str_eqb (cdName c) name) l.

Definition collect (conditionType sourceName : string) (acc : list Condition) (c : Condition) : list Condition :=
  if triggered conditionType sourceName c && negb (seen (cdName c) acc) then acc ++ [c] else acc.

(** The conditions of a type that [applyDefaultAndInitConditions] applies, in their order. *)
Definition conditions_of (conditionType : string) (b : Behavior) : list Condition :=
  foldl (fun acc source => foldl (collect conditionType (srName source)) acc (Conditions b)) [] (Sources b).

Definition extractConditionsByType (conditions : list Condition) (conditionType : string) : list Condition :=
  List.filter (fun c => existsb (fun t => str_eqb (ssConditionType t) conditionType) (cdTriggers c)) conditions.

Definition extractConditionsByTypeAndSource (conditions : list Condition) (conditionType sourceName : string) : list Condition :=
  List.filter (triggered conditionType sourceName) conditions.

(** ** Settings derived from the hardware *)

Definition settings_map : Type := gmap string string.

Definition clock_key (iface : string) : string := ("clockId[" +:+ iface +:+ "]")%string.

Definition put_missing (key value : string) (settings : gmap string string) : gmap string string :=
  match settings !! key with Some _ => settings | None => <[key := value]> settings end.

Definition upstream_ports (b : Behavior) : list string :=
  match first_match (fun s => str_eqb (srSourceType s) "ptpTimeReceiver" && (0 <? length (PTPTimeReceivers s))%nat) (Sources b) with
  | Some s => PTPTimeReceivers s
  | None => []
  end.

Definition port_settings (cc : ClockChain) (settings : gmap string string) : gmap string string :=
  match ccBehavior cc with
  | Some b =>
      match upstream_ports b with
      | [] => settings
      | ports =>
          let settings := put_missing "upstreamPort" (join "," ports) settings in
          match getInterfaceNameFromSources "" cc with
          | Some i => if str_eqb i "" then settings else put_missing "leadingInterface" i settings
          | None => settings
          end
      end
  | None => settings
  end.

Section Env.
Context `{MapOrder} `{Env} `{Growth}.

Definition clock_setting (settings : gmap string string) (s : Subsystem) : M (gmap string string) :=
  let i := subsystem_interface s in
  if str_eqb i "" then ret settings
  else
    match settings !! clock_key i with
    | Some _ => ret settings
    | None =>
        clock <- try (getClockIDCached i (hw_def_path s));;
        ret (match clock with Some id => <[clock_key i := fmt_uint 10 id]> settings | None => settings end)
    end.

Definition populatePtpSettingsFromHardware (p : PtpConfig.PtpProfile) (profile : HardwareProfile) : M PtpConfig.PtpProfile :=
  let settings := default ∅ (PtpConfig.PtpSettings p) in
  match hpClockChain profile with
  | None => ret (p <| PtpConfig.PtpSettings := Some settings |>)
  | Some cc =>
      settings <- foldM clock_setting settings (Structure_ cc);;
      ret (p <| PtpConfig.PtpSettings := Some (port_settings cc settings) |>)
  end.

(** ** Writing *)

Definition applyCachedSysFSCommands (commands : list SysFSCommand) : M unit := forM (fun c => writeSysFSValue (scPath c) (scValue c)) commands.
Definition applyPTPCommands (commands : list SysFSCommand) : M unit := forM (fun c => writeSysFSValue (scPath c) (scValue c)) commands.

Definition applyDpllPinCommands (commands : list PinParentDeviceCtl) : M unit :=
  match commands with [] => ret tt | _ => pinApplier (mergePinCommandsByID commands) end.

Definition applyDesiredState (cc : ClockChain) (d : DesiredState) : M unit :=
  match dsPTPPin d with Some p => cmds <- lift (or_err (processPTPPinConfig p cc));; applyPTPCommands cmds | None => ret tt end;;
  match dsPTPPeriod d with Some p => cmds <- lift (or_err (processPTPPeriodConfig p cc));; applyPTPCommands cmds | None => ret tt end;;
  match dsDPLL d with Some p => cmd <- createPinCommandForDPLLDesiredState p cc;; pinApplier [cmd] | None => ret tt end.

Definition applyDesiredStatesInOrder (c : Condition) (cc : ClockChain) : M unit := forM (applyDesiredState cc) (cdDesiredStates c).

Definition applyDefaultAndInitConditions (cc : ClockChain) : M unit :=
  match ccBehavior cc with
  | None => ret tt
  | Some b =>
      forM (fun c => applyDesiredStatesInOrder c cc) (conditions_of ConditionTypeDefault b);;
      forM (fun c => applyDesiredStatesInOrder c cc) (conditions_of ConditionTypeInit b)
  end.

Definition applyBehaviorConditions (ec : enrichedHardwareConfig) : M unit :=
  cc <- lift (deref (hpClockChain (hwProfile (ecConfig ec))));; applyDefaultAndInitConditions cc.

(** The loop over the subsystems only logs, but reads the chain. *)
Definition applyStructureDefaults (ec : enrichedHardwareConfig) : M unit :=
  applyCachedSysFSCommands (structureSysFSCommands ec);;
  applyDpllPinCommands (structurePinCommands ec);;
  _ <- lift (deref (hpClockChain (hwProfile (ecConfig ec))));; ret tt.

(** ** For a profile *)

Definition relevantConfigs (name : string) (m : Manager) : list enrichedHardwareConfig :=
  List.filter (fun ec => ProfileNamesMatch name (RelatedPtpProfileName (ecConfig ec))) (hardwareConfigs m).

Definition HasHardwareConfigForProfile (p : PtpConfig.PtpProfile) (m : Manager) : bool :=
  match PtpConfig.Name p with
  | Some name => existsb (fun ec => ProfileNamesMatch name (RelatedPtpProfileName (ecConfig ec))) (hardwareConfigs m)
  | None => false
  end.

Definition GetHardwareConfigsForProfile (p : PtpConfig.PtpProfile) (m : Manager) : list HardwareProfile :=
  match PtpConfig.Name p with Some name => map (fun ec => hwProfile (ecConfig ec)) (relevantConfigs name m) | None => [] end.

(** The profile is returned as its settings are left; on an error they are untouched. *)
Definition ApplyHardwareConfigsForProfile (p : PtpConfig.PtpProfile) : M PtpConfig.PtpProfile :=
  name <- lift (or_err (PtpConfig.Name p));;
  m <- get;;
  forM (fun ec => applyStructureDefaults ec;; applyBehaviorConditions ec) (relevantConfigs name m);;
  foldM (fun p ec => populatePtpSettingsFromHardware p (hwProfile (ecConfig ec))) p (relevantConfigs name m).

(** The cached commands of a condition, files first; without any it is resolved again. *)
Definition apply_condition (ec : enrichedHardwareConfig) (cc : ClockChain) (c : Condition) : M unit :=
  match sysFSCommands ec !! cdName c, dpllPinCommands ec !! cdName c with
  | None, None => applyDesiredStatesInOrder c cc
  | sysfs, pins => applyCachedSysFSCommands (default [] sysfs);; applyDpllPinCommands (default [] pins)
  end.

Definition ApplyConditionForProfile (p : PtpConfig.PtpProfile) (conditionType : string) : M unit :=
  name <- lift (or_err (PtpConfig.Name p));;
  m <- get;;
  forM (fun ec =>
    cc <- lift (deref (hpClockChain (hwProfile (ecConfig ec))));;
    match ccBehavior cc with
    | Some b => forM (apply_condition ec cc) (extractConditionsByType (Conditions b) conditionType)
    | None => ret tt
    end) (relevantConfigs name m).

(** ** Notifications *)

Definition lockedSource (s : Subsystem) (source : SourceConfig) : bool :=
  str_eqb (srSourceType source) "dpllPhaseLocked" && str_eqb (srSubsystem source) (sbName s).

(** The conditions of a source; a failure is logged. *)
Definition trigger_source (h : HardwareConfig) (cc : ClockChain) (b : Behavior) (s : Subsystem) (source : SourceConfig) : M unit :=
  if negb (lockedSource s source) || str_eqb (RelatedPtpProfileName h) "" then ret tt
  else
    forM (fun c => try (applyDesiredStatesInOrder c cc);; ret tt)
      (extractConditionsByTypeAndSource (Conditions b) ConditionTypeLocked (srName source)).

Definition notify_subsystem (clockID : Z) (h : HardwareConfig) (cc : ClockChain) (s : Subsystem) : M unit :=
  if str_eqb (subsystem_interface s) "" then ret tt
  else
    clock <- try (getClockIDCached (subsystem_interface s) (hw_def_path s));;
    match clock, ccBehavior cc with
    | Some id, Some b => if id =? clockID then forM (trigger_source h cc b s) (Sources b) else ret tt
    | _, _ => ret tt
    end.

Definition notify_config (clockID : Z) (ec : enrichedHardwareConfig) : M unit :=
  cc <- lift (deref (hpClockChain (hwProfile (ecConfig ec))));;
  forM (notify_subsystem clockID (ecConfig ec) cc) (Structure_ cc).

Definition DPLL_LOCKED_HO_ACQ : Z := 3.

Definition notify_device (d : DoDeviceGetReply) : M unit :=
  if negb (rpLockStatus d =? DPLL_LOCKED_HO_ACQ) then ret tt
  else m <- get;; forM (notify_config (rpClockID d)) (hardwareConfigs m).

Definition ProcessDPLLDeviceNotifications (devices : list DoDeviceGetReply) : M unit := forM notify_device devices.

End Env.

(** * Properties *)

(** ** The batch *)

(** A batch that succeeds sent every command, or stopped, without an error, behind the first
    pin that could not be read back. *)
Lemma batch_sent send readback commands sent : BatchPinSet send readback commands = (sent, true) ->
  sent = commands \/ exists before c after, commands = before ++ c :: after /\ sent = before ++ [c] /\ readback (ctID c) = false
                                            /\ Forall (fun c => readback (ctID c) = true) before.
Proof.
  revert sent. induction commands as [|c commands IH]; intros sent; cbn; [intros [= <-]; by left|].
  destruct (EncodePinControl c) as [b|]; [|done]. destruct (send b); cbn [negb]; [|done].
  destruct (readback (ctID c)) eqn:Er; cbn [negb].
  - destruct (BatchPinSet send readback commands) as [s ok]. intros [= <- ->].
    destruct (IH s eq_refl) as [->|(before & d & after & -> & -> & Hr & Hb)]; [by left|right].
    exists (c :: before), d, after. split_and!; [done..|by constructor].
  - intros [= <-]. right. exists [], c, commands. split_and!; done || constructor.
Qed.

(** The commands behind it are lost although nil is returned. *)
Lemma unread_pins_left c c' : is_Some (EncodePinControl c) -> BatchPinSet (fun _ => true) (fun _ => false) [c; c'] = ([c], true).
Proof. intros [b E]. cbn. by rewrite E. Qed.

(** ** Conditions *)

Definition pairs (b : Behavior) : list (string * Condition) := concat (map (fun s => map (fun c => (srName s, c)) (Conditions b)) (Sources b)).

Lemma conditions_of_pairs t b : conditions_of t b = foldl (fun acc p => collect t p.1 acc p.2) [] (pairs b).
Proof.
  unfold conditions_of, pairs. generalize (@nil Condition) as acc. induction (Sources b) as [|s l IH]; intros acc; [done|].
  cbn [map concat foldl]. rewrite foldl_app, IH. f_equal. clear IH. revert acc. induction (Conditions b) as [|c cs IHc]; intros acc; [done|]. cbn. apply IHc.
Qed.

Lemma seen_names name l : seen name l = true <-> name ∈ map cdName l.
Proof.
  unfold seen. rewrite existsb_exists, list_elem_of_fmap. split.
  - intros (c & Hc & E%bool_decide_eq_true). exists c. split; [done|by apply list_elem_of_In].
  - intros (c & -> & Hc). exists c. split; [by apply list_elem_of_In|by apply bool_decide_eq_true].
Qed.

Definition collected (t : string) (l : list (string * Condition)) (acc : list Condition) : Prop :=
  NoDup (map cdName acc)
  /\ (forall c, c ∈ acc -> exists s, (s, c) ∈ l /\ triggered t s c = true)
  /\ (forall s c, (s, c) ∈ l -> triggered t s c = true -> cdName c ∈ map cdName acc).

Lemma collect_all t l : collected t l (foldl (fun acc p => collect t p.1 acc p.2) [] l).
Proof.
  induction l as [|[s c] l (Hn & Hin & Hall)] using rev_ind.
  - split_and!; [constructor|by intros c Hc%not_elem_of_nil|by intros s c Hc%not_elem_of_nil].
  - rewrite foldl_snoc. set (acc := foldl _ [] l) in *. clearbody acc. cbn [fst snd]. unfold collect.
    destruct (triggered t s c) eqn:Et; cbn [andb]; [destruct (seen (cdName c) acc) eqn:Es; cbn [negb]|].
    + split_and!; [done| |].
      * intros c' (s' & ? & ?)%Hin. exists s'. split; [by apply elem_of_app; left|done].
      * intros s' c' [?|[= -> ->]%list_elem_of_singleton]%elem_of_app ?; [by eapply Hall|by apply seen_names].
    + split_and!.
      * rewrite map_app. apply NoDup_app. split_and!; [done| |by apply NoDup_singleton].
        intros x Hx ->%list_elem_of_singleton. apply seen_names in Hx. congruence.
      * intros c' [(s' & ? & ?)%Hin| ->%list_elem_of_singleton]%elem_of_app; [exists s'|exists s]; (split; [|done]); apply elem_of_app; [by left|right].
        by apply list_elem_of_singleton.
      * intros s' c' [?|[= -> ->]%list_elem_of_singleton]%elem_of_app ?; rewrite map_app; apply elem_of_app; [left; by eapply Hall|right].
        by apply list_elem_of_singleton.
    + split_and!; [done| |].
      * intros c' (s' & ? & ?)%Hin. exists s'. split; [by apply elem_of_app; left|done].
      * intros s' c' [?|[= -> ->]%list_elem_of_singleton]%elem_of_app ?; [by eapply Hall|congruence].
Qed.

Lemma elem_of_pairs s c b : (s, c) ∈ pairs b <-> c ∈ Conditions b /\ exists source, source ∈ Sources b /\ srName source = s.
Proof.
  unfold pairs. rewrite list_elem_of_In, in_concat. setoid_rewrite in_map_iff. split.
  - intros (l & (source & <- & Hs) & Hc). apply in_map_iff in Hc as (c' & [= <- ->] & Hc).
    split; [by apply list_elem_of_In|]. exists source. split; [by apply list_elem_of_In|done].
  - intros (Hc & source & Hs & <-). apply list_elem_of_In in Hc, Hs. eexists. split; [by exists source|]. apply in_map_iff. by exists c.
Qed.

(** Every condition that is a default one of some source is applied once, however many
    sources and triggers call for it, and nothing else is applied as a default; the same for
    the initial ones.  Conditions are told apart by their names. *)
Theorem conditions_applied_once (conditionType : string) (b : Behavior) :
  NoDup (map cdName (conditions_of conditionType b))
  /\ (forall c, c ∈ conditions_of conditionType b ->
       c ∈ Conditions b /\ exists source, source ∈ Sources b /\ triggered conditionType (srName source) c = true)
  /\ (forall c source, c ∈ Conditions b -> source ∈ Sources b -> triggered conditionType (srName source) c = true ->
       cdName c ∈ map cdName (conditions_of conditionType b)).
Proof.
  rewrite conditions_of_pairs. destruct (collect_all conditionType (pairs b)) as (Hn & Hin & Hall). split_and!; [done| |].
  - intros c (s & (Hc & source & Hs & <-)%elem_of_pairs & Ht)%Hin. split; [done|]. by exists source.
  - intros c source Hc Hs Ht. eapply Hall; [|exact Ht]. apply elem_of_pairs. split; [done|]. by exists source.
Qed.

End HwApply.
