(* ===== verification/HwRun.v ===== *)
(** * pkg/hardwareconfig: what every run keeps

    A property of the manager that its two caches and its writes keep is kept by all that is
    built from them: resolving a chain, building commands and applying them. *)

From S2P Require Import Prelude PtpConfig Netlink HwTypes PinCmd PinMerge HwVendor HwState HwChain HwBuild HwApply.

Module HwRun.

Import Netlink Hw PinCmd PinMerge HwVendor HwState HwChain HwBuild HwApply.
#[local] Open Scope hw_scope.

Create HintDb run discriminated.

Definition Pres {A} (P : Manager -> Prop) (x : M A) : Prop := forall m, P m -> P (x m).2.

Section Closure.
Context (P : Manager -> Prop).

Lemma pres_ret {A} (a : A) : Pres P (ret a).
Proof. by intros m. Qed.

Lemma pres_fail {A} : Pres P (@fail A).
Proof. by intros m. Qed.

Lemma pres_lift {A} (o : outcome A) : Pres P (lift o).
Proof. by intros m. Qed.

Lemma pres_get : Pres P get.
Proof. by intros m. Qed.

Lemma pres_bind {A B} (x : M A) (k : A -> M B) : Pres P x -> (forall a, Pres P (k a)) -> Pres P (bind x k).
Proof. intros Hx Hk m Hm. specialize (Hx m Hm). unfold bind. destruct (x m) as [[a| |] m']; cbn in *; [by apply Hk|done|done]. Qed.

Lemma pres_try {A} (x : M A) : Pres P x -> Pres P (try x).
Proof. intros Hx m Hm. specialize (Hx m Hm). unfold try. by destruct (x m) as [[a| |] m']. Qed.

Lemma pres_mapM {A B} (f : A -> M B) l : (forall x, Pres P (f x)) -> Pres P (mapM f l).
Proof. intros Hf. induction l as [|x l IH]; [apply pres_ret|]. apply pres_bind; [done|]. intros y. apply pres_bind; [done|]. intros ys. apply pres_ret. Qed.

Lemma pres_forM {A} (f : A -> M unit) l : (forall x, Pres P (f x)) -> Pres P (forM f l).
Proof. intros Hf. induction l as [|x l IH]; [apply pres_ret|]. by apply pres_bind. Qed.

Lemma pres_foldM {A B} (f : A -> B -> M A) l : (forall a b, Pres P (f a b)) -> forall a, Pres P (foldM f a l).
Proof. intros Hf. induction l as [|x l IH]; intros a; [apply pres_ret|]. by apply pres_bind. Qed.

(** *** With what is returned *)

Definition Post {A} (x : M A) (Q : A -> Prop) : Prop := forall m, P m -> P (x m).2 /\ forall a, (x m).1 = Ok a -> Q a.

Lemma post_pres {A} (x : M A) : Pres P x -> Post x (fun _ => True).
Proof. intros Hx m Hm. split; [by apply Hx|done]. Qed.

Lemma post_ret {A} (a : A) (Q : A -> Prop) : Q a -> Post (ret a) Q.
Proof. intros Ha m Hm. split; [done|]. by intros a' [= <-]. Qed.

Lemma post_lift {A} (o : outcome A) (Q : A -> Prop) : (forall a, o = Ok a -> Q a) -> Post (lift o) Q.
Proof. intros Ho m Hm. split; [done|exact Ho]. Qed.

Lemma post_bind {A B} (x : M A) (k : A -> M B) Q R : Post x Q -> (forall a, Q a -> Post (k a) R) -> Post (bind x k) R.
Proof.
  intros Hx Hk m Hm. destruct (Hx m Hm) as [H1 H2]. unfold bind. destruct (x m) as [[a| |] m']; cbn in *; [|done..].
  apply (Hk a); [by apply H2|done].
Qed.

Lemma post_try {A} (x : M A) Q : Post x Q -> Post (try x) (fun o => forall a, o = Some a -> Q a).
Proof.
  intros Hx m Hm. destruct (Hx m Hm) as [H1 H2]. unfold try. destruct (x m) as [[a| |] m']; cbn in *; (split; [done|]); [|by intros ? [= <-]|done].
  intros o [= <-] a' [= <-]. by apply H2.
Qed.

Lemma post_weaken {A} (x : M A) (Q R : A -> Prop) : Post x Q -> (forall a, Q a -> R a) -> Post x R.
Proof. intros Hx HQ m Hm. destruct (Hx m Hm) as [H1 H2]. split; [done|]. intros a Ha. by apply HQ, H2. Qed.

Lemma post_foldM {A B} (f : A -> B -> M A) Q l : (forall a b, Q a -> Post (f a b) Q) -> forall a, Q a -> Post (foldM f a l) Q.
Proof. intros Hf. induction l as [|x l IH]; intros a Ha; [by apply post_ret|]. eapply post_bind; [by apply Hf|]. intros a' Ha'. by apply IH. Qed.

Lemma post_mapM {A B} (f : A -> M B) (R : A -> B -> Prop) l : (forall x, Post (f x) (R x)) -> Post (mapM f l) (Forall2 R l).
Proof.
  intros Hf. induction l as [|x l IH]; [by apply post_ret; constructor|]. eapply post_bind; [apply Hf|]. intros y Hy.
  eapply post_bind; [exact IH|]. intros ys Hys. apply post_ret. by constructor.
Qed.

End Closure.

#[export] Hint Resolve pres_ret pres_fail pres_lift pres_get pres_bind pres_try pres_mapM pres_forM pres_foldM : run.

(** Case analysis on what a run depends on, then the closure lemmas. *)
Ltac pres := intros; repeat first
  [ progress intros
  | solve [eauto 2 with run nocore]
  | apply pres_bind | apply pres_try | apply pres_mapM | apply pres_forM | apply pres_foldM
  | match goal with |- Pres _ (match ?x with _ => _ end) => destruct x end
  | progress cbn zeta ].

Section Stable.
Context `{MapOrder} `{Env} `{Growth}.

Class Stable (P : Manager -> Prop) := {
  stable_defaults path : Pres P (getHardwareDefaults path);
  stable_clock iface path : Pres P (getClockIDCached iface path);
  stable_perform e : Pres P (perform e)
}.

#[local] Hint Resolve stable_defaults stable_clock stable_perform : run.

Context (P : Manager -> Prop) {HP : Stable P}.

(** ** Resolving *)

Lemma pres_load_profile path clockType : Pres P (load_profile path clockType).
Proof. unfold load_profile. pres. Qed.
#[local] Hint Resolve pres_load_profile : run.

Lemma pres_derive_interface s port : Pres P (derive_interface s port).
Proof. unfold derive_interface. pres. Qed.
#[local] Hint Resolve pres_derive_interface : run.

Lemma pres_deriveSubsystemStructure s p clockType : Pres P (deriveSubsystemStructure s p clockType).
Proof. unfold deriveSubsystemStructure. pres. Qed.
#[local] Hint Resolve pres_deriveSubsystemStructure : run.

Lemma pres_resolve_subsystem p clockType s : Pres P (resolve_subsystem p clockType s).
Proof. unfold resolve_subsystem, unmanaged, injectDelayCompensationPins. pres. Qed.
#[local] Hint Resolve pres_resolve_subsystem : run.

Lemma pres_deriveBehavior cc clockType : Pres P (deriveBehavior cc clockType).
Proof. unfold deriveBehavior, subsystem_behavior. pres. Qed.
#[local] Hint Resolve pres_deriveBehavior : run.

Lemma pres_ResolveClockChain h config : Pres P (ResolveClockChain h config).
Proof. unfold ResolveClockChain. pres. Qed.

(** ** Building *)

Lemma pres_subsystem_clock path s : Pres P (subsystem_clock path s).
Proof. unfold subsystem_clock. pres. Qed.
#[local] Hint Resolve pres_subsystem_clock : run.

Lemma pres_with_clock s path build : Pres P (with_clock s path build).
Proof. unfold with_clock. pres. Qed.
#[local] Hint Resolve pres_with_clock : run.

Lemma pres_resolveSubsystemStructure path s cc : Pres P (resolveSubsystemStructure path s cc).
Proof. unfold resolveSubsystemStructure, buildPinCommandFromDefaults, buildESyncPinCommands, buildPhaseAdjustmentCommands. pres. Qed.
#[local] Hint Resolve pres_resolveSubsystemStructure : run.

Lemma pres_resolveClockChainStructure cc : Pres P (resolveClockChainStructure cc).
Proof. unfold resolveClockChainStructure, subsystem_structure. pres. Qed.

Lemma pres_createPinCommand d cc : Pres P (createPinCommandForDPLLDesiredState d cc).
Proof. unfold createPinCommandForDPLLDesiredState. pres. Qed.
#[local] Hint Resolve pres_createPinCommand : run.

Lemma pres_resolveClockChainBehavior cc : Pres P (resolveClockChainBehavior cc).
Proof. unfold resolveClockChainBehavior, resolve_condition, resolveDpllPinCommands. pres. Qed.

Lemma pres_populatePhaseAdjustments cc : Pres P (populatePhaseAdjustments cc).
Proof.
  unfold populatePhaseAdjustments. generalize (Structure_ cc) as l. intros l. revert cc. induction l as [|s l IH]; intros cc; cbn [populate_loop]; unfold populate_for; pres.
Qed.

Lemma pres_extractHoldoverParameters cc : Pres P (extractHoldoverParameters cc).
Proof. unfold extractHoldoverParameters, holdover_of. pres. Qed.

Lemma pres_extractDPLLFlags cc : Pres P (extractDPLLFlags cc).
Proof. unfold extractDPLLFlags, flags_of. pres. Qed.

(** ** Applying *)

Lemma pres_writes commands : Pres P (applyCachedSysFSCommands commands).
Proof. unfold applyCachedSysFSCommands, writeSysFSValue. pres. Qed.
#[local] Hint Resolve pres_writes : run.

Lemma pres_applyDpllPinCommands commands : Pres P (applyDpllPinCommands commands).
Proof. unfold applyDpllPinCommands, pinApplier. pres. Qed.
#[local] Hint Resolve pres_applyDpllPinCommands : run.

Lemma pres_applyDesiredStatesInOrder c cc : Pres P (applyDesiredStatesInOrder c cc).
Proof. unfold applyDesiredStatesInOrder, applyDesiredState, applyPTPCommands, writeSysFSValue, pinApplier. pres. Qed.
#[local] Hint Resolve pres_applyDesiredStatesInOrder : run.

Lemma pres_populatePtpSettings p profile : Pres P (populatePtpSettingsFromHardware p profile).
Proof. unfold populatePtpSettingsFromHardware, clock_setting. pres. Qed.
#[local] Hint Resolve pres_populatePtpSettings : run.

Lemma pres_ApplyHardwareConfigsForProfile p : Pres P (ApplyHardwareConfigsForProfile p).
Proof. unfold ApplyHardwareConfigsForProfile, applyStructureDefaults, applyBehaviorConditions, applyDefaultAndInitConditions. pres. Qed.

Lemma pres_ApplyConditionForProfile p t : Pres P (ApplyConditionForProfile p t).
Proof. unfold ApplyConditionForProfile, apply_condition. pres. Qed.

Lemma pres_ProcessDPLLDeviceNotifications devices : Pres P (ProcessDPLLDeviceNotifications devices).
Proof. unfold ProcessDPLLDeviceNotifications, notify_device, notify_config, notify_subsystem, trigger_source. pres. Qed.

End Stable.

#[export] Hint Resolve stable_defaults stable_clock stable_perform pres_ResolveClockChain pres_resolveSubsystemStructure pres_resolveClockChainStructure
  pres_resolveClockChainBehavior pres_populatePhaseAdjustments pres_extractHoldoverParameters pres_extractDPLLFlags pres_writes
  pres_applyDpllPinCommands : run.

(** * The settings of a profile *)

#[local] Existing Instance PtpConfig.PtpProfile_fields.

(** Settings that are only added to, with keys the hardware is known by: [clocks] are the
    interfaces of its subsystems. *)
Definition key_ok (clocks : string -> Prop) (key value : string) : Prop :=
  key = "upstreamPort"%string \/ key = "leadingInterface"%string
  \/ exists i id, key = clock_key i /\ clocks i /\ value = Strconv.fmt_uint 10 id.

Definition extended (clocks : string -> Prop) (s s' : gmap string string) : Prop :=
  s ⊆ s' /\ forall k v, s !! k = None -> s' !! k = Some v -> key_ok clocks k v.

Lemma extended_refl clocks s : extended clocks s s.
Proof. split; [done|]. intros k v E E'. congruence. Qed.

Lemma extended_trans clocks s1 s2 s3 : extended clocks s1 s2 -> extended clocks s2 s3 -> extended clocks s1 s3.
Proof.
  intros [H12 K12] [H23 K23]. split; [by etrans|]. intros k v E E'. destruct (s2 !! k) as [v'|] eqn:E2; [|by apply K23].
  rewrite map_subseteq_spec in H23. pose proof (H23 _ _ E2). apply K12; congruence.
Qed.

Lemma extended_weaken (clocks clocks' : string -> Prop) s s' : (forall i, clocks i -> clocks' i) -> extended clocks s s' -> extended clocks' s s'.
Proof. intros Hc [H K]. split; [done|]. intros k v E E'. destruct (K k v E E') as [?|[?|(i & id & ? & ? & ?)]]; [by left|by right; left|right; right; eauto 6]. Qed.

Lemma extended_insert clocks s k v : s !! k = None -> key_ok clocks k v -> extended clocks s (<[k := v]> s).
Proof. intros E Hk. split; [by apply insert_subseteq|]. intros k' v' E' [[<- <-]|[_ ?]]%lookup_insert_Some; [done|congruence]. Qed.

Lemma extended_put clocks s k v : key_ok clocks k v -> extended clocks s (put_missing k v s).
Proof. intros Hk. unfold put_missing. destruct (s !! k) eqn:E; [apply extended_refl|by apply extended_insert]. Qed.

Lemma port_settings_extended clocks cc s : extended clocks s (port_settings cc s).
Proof.
  unfold port_settings. destruct (ccBehavior cc) as [b|]; [|apply extended_refl]. destruct (upstream_ports b) as [|port ports]; [apply extended_refl|].
  assert (extended clocks s (put_missing "upstreamPort" (join "," (port :: ports)) s)) as Hu by (apply extended_put; by left).
  destruct (getInterfaceNameFromSources "" cc) as [i|]; [|done]. destruct (str_eqb i ""); [done|].
  eapply extended_trans; [exact Hu|]. apply extended_put. by right; left.
Qed.

(** A profile with settings in the place of its own: nothing else differs. *)
Definition enriched (clocks : string -> Prop) (p p' : PtpConfig.PtpProfile) : Prop :=
  (exists settings, p' = p <| PtpConfig.PtpSettings := settings |>)
  /\ extended clocks (default ∅ (PtpConfig.PtpSettings p)) (default ∅ (PtpConfig.PtpSettings p')).

Section Settings.
Context `{MapOrder} `{Env} `{Growth}.

#[local] Notation anything := (fun _ : Manager => True).

Lemma post_clock_setting clocks settings0 settings s : clocks (subsystem_interface s) -> extended clocks settings0 settings ->
  Post anything (clock_setting settings s) (extended clocks settings0).
Proof.
  intros Hs He. unfold clock_setting. destruct (str_eqb _ _); [by apply post_ret|]. destruct (settings !! clock_key _) eqn:E; [by apply post_ret|].
  eapply post_bind; [by apply post_pres; intros ? ?|]. intros [id|] _; apply post_ret; [|done].
  eapply extended_trans; [exact He|]. apply extended_insert; [done|]. right; right. by eexists _, id.
Qed.

Definition interface_of (l : list enrichedHardwareConfig) (i : string) : Prop :=
  exists ec cc s, ec ∈ l /\ hpClockChain (hwProfile (ecConfig ec)) = Some cc /\ s ∈ Structure_ cc /\ subsystem_interface s = i.

Lemma post_clock_settings clocks l : (forall s, s ∈ l -> clocks (subsystem_interface s)) -> forall settings0 settings, extended clocks settings0 settings ->
  Post anything (foldM clock_setting settings l) (extended clocks settings0).
Proof.
  induction l as [|s l IH]; intros Hl settings0 settings He; [by apply post_ret|].
  eapply post_bind; [apply post_clock_setting; [apply Hl; by left|exact He]|]. intros settings' He'. apply IH; [|done].
  intros s' Hs'. apply Hl. by right.
Qed.

Lemma post_populate l p ec : ec ∈ l -> Post anything (populatePtpSettingsFromHardware p (hwProfile (ecConfig ec))) (enriched (interface_of l) p).
Proof.
  intros Hec. unfold populatePtpSettingsFromHardware. destruct (hpClockChain _) as [cc|] eqn:Ec.
  - eapply post_bind; [apply (post_clock_settings (interface_of l)); [|apply extended_refl]|].
    { intros s Hs. by exists ec, cc, s. }
    intros settings He. apply post_ret. split; [by eexists|]. eapply extended_trans; [exact He|]. apply port_settings_extended.
  - apply post_ret. split; [by eexists|]. apply extended_refl.
Qed.

Lemma enriched_trans clocks p1 p2 p3 : enriched clocks p1 p2 -> enriched clocks p2 p3 -> enriched clocks p1 p3.
Proof.
  intros [[s ->] H12] [[s' ->] H23]. split; [|by eapply extended_trans]. by exists s'.
Qed.

Lemma post_populate_all l : forall l' p, (forall ec, ec ∈ l' -> ec ∈ l) ->
  Post anything (foldM (fun p ec => populatePtpSettingsFromHardware p (hwProfile (ecConfig ec))) p l') (enriched (interface_of l) p).
Proof.
  induction l' as [|ec l' IH]; intros p Hl.
  - apply post_ret. split; [exists (PtpConfig.PtpSettings p); by destruct p|apply extended_refl].
  - eapply post_bind; [apply post_populate, Hl; by left|]. intros p' Hp. eapply post_weaken; [apply IH; intros ec' ?; apply Hl; by right|].
    intros p'' Hp'. by eapply enriched_trans.
Qed.

Lemma setting_lookup q k : PtpConfig.setting k q = default ∅ (PtpConfig.PtpSettings q) !! k.
Proof. unfold PtpConfig.setting. destruct (PtpConfig.PtpSettings q); cbn; [done|by rewrite lookup_empty]. Qed.

(** Applying the hardware to a profile only adds settings to it: everything set
    explicitly, and every other field, stays as it was, and what is new are the upstream port,
    the leading interface and, in decimal, the clocks of interfaces of subsystems of the
    configurations of the profile. *)
Theorem settings_only_added (p p' : PtpConfig.PtpProfile) (m : Manager) :
  (ApplyHardwareConfigsForProfile p m).1 = Ok p' ->
  exists name, PtpConfig.Name p = Some name
    /\ p' <| PtpConfig.PtpSettings := PtpConfig.PtpSettings p |> = p
    /\ (forall k v, PtpConfig.setting k p = Some v -> PtpConfig.setting k p' = Some v)
    /\ (forall k v, PtpConfig.setting k p = None -> PtpConfig.setting k p' = Some v ->
          k = "upstreamPort"%string \/ k = "leadingInterface"%string
          \/ exists i id, k = clock_key i /\ v = Strconv.fmt_uint 10 id /\ interface_of (relevantConfigs name m) i).
Proof.
  intros E. destruct (ApplyHardwareConfigsForProfile p m) as [o m'] eqn:Er. cbn in E. subst o. unfold ApplyHardwareConfigsForProfile in Er.
  apply bind_ok in Er as (name & m1 & En & Er). apply lift_or_err_ok in En as [Hn ->].
  apply bind_ok in Er as (? & ? & [= <- <-] & Er). apply bind_ok in Er as (? & m2 & _ & Er).
  destruct (post_populate_all (relevantConfigs name m) (relevantConfigs name m) p ltac:(done) m2 I) as [_ Hp]. rewrite Er in Hp.
  destruct (Hp p' eq_refl) as [[settings Hf] [Hs Hk]]. exists name. split_and!; [done|rewrite Hf; by destruct p| |].
  - intros k v. rewrite !setting_lookup. rewrite map_subseteq_spec in Hs. apply Hs.
  - intros k v. rewrite !setting_lookup. intros E1 E2. destruct (Hk k v E1 E2) as [?|[?|(i & id & ? & ? & ?)]]; [by left|by right; left|right; right; by exists i, id].
Qed.

End Settings.

End HwRun.
