(* ===== verification/HwManager.v ===== *)
(** * pkg/hardwareconfig: the manager

    The operations of HardwareConfigManager in hardwareconfig.go that change or read the
    configurations: updates, what is removed, and the answers to the rest of the daemon. *)

From S2P Require Import Prelude Strconv Parser PtpConfig PtpInput Resolver Netlink HwTypes PinCmd PinMerge HwVendor ClockID HwState HwChain HwBuild HwNames HwApply HwRun.

#[local] Open Scope Z_scope.

Module HwManager.

Import Netlink Hw PinCmd PinMerge HwVendor HwState HwChain HwBuild HwNames HwApply HwRun.
#[local] Open Scope hw_scope.

Definition setHardwareConfigs (l : list enrichedHardwareConfig) (m : Manager) : Manager := m <| hardwareConfigs := l |> <| ready := true |>.
Definition ClearHardwareConfigs (m : Manager) : Manager := m <| hardwareConfigs := [] |>.
Definition SetPtpConfig (config : option (list PtpConfig.PtpProfile)) (m : Manager) : Manager := m <| ptpConfig := config |>.
Definition SetConfigMapLoader (loader : option BoardLabelMapLoader) (m : Manager) : Manager := m <| configMapLoader := loader |>.
Definition SetGNSSStatusChangedHandler (handler : bool) (m : Manager) : Manager := m <| gnssStatusChanged := handler |>.

Definition CloneHardwareConfigs (m : Manager) : list HardwareConfig := map ecConfig (hardwareConfigs m).
Definition GetHardwareConfigCount (m : Manager) : nat := length (hardwareConfigs m).
Definition HasReadyHardwareConfigs (m : Manager) : bool := ready m.
Definition HasHardwareConfigs (m : Manager) : bool := (0 <? length (hardwareConfigs m))%nat.

Definition of_profile (name : string) (ec : enrichedHardwareConfig) : bool := ProfileNamesMatch name (RelatedPtpProfileName (ecConfig ec)).

Definition ReadyHardwareConfigForProfile (name : string) (m : Manager) : bool := ready m && existsb (of_profile name) (hardwareConfigs m).

(** The first configuration of the profile that has something for the clock. *)
Definition for_clock {A} (field : enrichedHardwareConfig -> gmap Z A) (name : string) (clockID : Z) (m : Manager) : option A :=
  head (omap (fun ec => if of_profile name ec then field ec !! clockID else None) (hardwareConfigs m)).

Definition GetHoldoverParameters (name : string) (clockID : Z) (m : Manager) : option HoldoverParameters := for_clock holdoverParams name clockID m.
Definition GetDPLLFlags (name : string) (clockID : Z) (m : Manager) : option Z := for_clock dpllFlags name clockID m.

(** [GetPTPStateDetector]: the detector is built from the behaviour of each configuration. *)
Definition detector_behavior (ec : enrichedHardwareConfig) : option (PtpInput.Behavior Condition) :=
  cc ← hpClockChain (hwProfile (ecConfig ec));
  b ← ccBehavior cc;
  Some (PtpInput.mkBehavior (map (fun s => PtpInput.mkSource (srName s) (srSourceType s) (PTPTimeReceivers s)) (Sources b)) (Conditions b)).

Definition GetPTPStateDetector (m : Manager) : PtpInput.PTPStateDetector := PtpInput.buildCaches (map detector_behavior (hardwareConfigs m)).

(** [WaitForHardwareConfigs]: each look at the flag has a time, and whether it is set; the
    first is that of the call, the others follow a broadcast.  [None] is to wait on. *)
Fixpoint WaitForHardwareConfigs (deadline : Z) (looks : list (Z * bool)) : option bool :=
  match looks with
  | [] => None
  | (now, set) :: looks' => if set then Some true else if deadline - now <=? 0 then Some false else WaitForHardwareConfigs deadline looks'
  end.

Definition detectRemovedHardwareConfigs (newConfigs : list HardwareConfig) (m : Manager) : list enrichedHardwareConfig :=
  List.filter (fun ec => negb (existsb (fun h => str_eqb (hwName h) (hwName (ecConfig ec))) newConfigs)) (hardwareConfigs m).

Section Env.
Context `{MapOrder} `{Env} `{Growth}.

Definition GetDpllPins : M PinCache :=
  modify (fun m => m <| pinCache := ClockID.GetDpllPins env_host |>);; lift (or_err (ClockID.GetDpllPins env_host)).

(** The defaults of one subsystem: failures are logged. *)
Definition reset_subsystem (cc : ClockChain) (s : Subsystem) : M unit :=
  if str_eqb (hw_def_path s) "" then ret tt
  else
    commands <- try (resolveSubsystemStructure (hw_def_path s) s cc);;
    match commands with
    | Some (pins, sysfs) => try (applyDpllPinCommands pins);; try (applyCachedSysFSCommands sysfs);; ret tt
    | None => ret tt
    end.

Definition reset_config (ec : enrichedHardwareConfig) : M unit :=
  cc <- lift (deref (hpClockChain (hwProfile (ecConfig ec))));; forM (reset_subsystem cc) (Structure_ cc).

Definition applyVendorDefaultsForRemovedConfigs (removed : list enrichedHardwareConfig) : M unit :=
  m <- get;;
  match pinCache m with Some _ => ret tt | None => _ <- GetDpllPins;; ret tt end;;
  forM reset_config removed.

(** One configuration of an update. *)
Definition prepare (h : HardwareConfig) : M enrichedHardwareConfig :=
  m <- get;;
  resolved <- match ClockType (hwProfile h) with Some _ => ResolveClockChain h (ptpConfig m) | None => ret h end;;
  cc <- lift (deref (hpClockChain (hwProfile resolved)));;
  cc <- populatePhaseAdjustments cc;;
  '(dpllCommands, sysFS) <- resolveClockChainBehavior cc;;
  '(structPins, structSysfs) <- resolveClockChainStructure cc;;
  holdover <- extractHoldoverParameters cc;;
  flags <- extractDPLLFlags cc;;
  ret (mkEnriched (resolved <| hwProfile := (hwProfile resolved) <| hpClockChain := Some cc |> |>) dpllCommands sysFS structPins structSysfs holdover flags).

(** The names of the interfaces, when the manager has a resolver; a failed refresh is logged. *)
Definition resolve_names (hwConfigs : list HardwareConfig) : M (list HardwareConfig) :=
  m <- get;;
  match interfaceResolver m with
  | None => ret hwConfigs
  | Some r =>
      let '(hwConfigs, r) := ResolveHardwareConfigInterfaces hwConfigs (Resolver.Refresh env_interfaces r).2 in
      modify (fun m => m <| interfaceResolver := Some r |>);; ret hwConfigs
  end.

Definition reset_removed (hwConfigs : list HardwareConfig) : M unit :=
  m <- get;;
  match detectRemovedHardwareConfigs hwConfigs m with [] => ret tt | removed => try (applyVendorDefaultsForRemovedConfigs removed);; ret tt end.

Definition UpdateHardwareConfig (hwConfigs : list HardwareConfig) : M unit :=
  modify (fun m => m <| clockIDCache := ∅ |>);;
  hwConfigs <- resolve_names hwConfigs;;
  reset_removed hwConfigs;;
  match hwConfigs with
  | [] => modify (setHardwareConfigs [])
  | _ => _ <- GetDpllPins;; prepared <- mapM prepare hwConfigs;; modify (setHardwareConfigs prepared)
  end.

(** * Properties *)

(** ** Failed updates *)

#[export] Instance stable_configs l b : Stable (fun m => hardwareConfigs m = l /\ ready m = b).
Proof.
  split; intros.
  - intros m Hm. unfold getHardwareDefaults. case (str_eqb _ _); [done|]. unfold bind, get, lift, modify, ret.
    destruct (hwDefaultsCache m !! path); [done|]. by destruct (LoadHardwareDefaults _ _ _).
  - intros m Hm. unfold getClockIDCached, bind, get, modify, ret, fail. destruct (clockIDCache m !! _); [done|].
    destruct (ClockID.GetClockIDFromInterfaceWithCache _ _ _ _ _); [|done]. by destruct (_ =? 0).
  - by intros m Hm.
Qed.

#[local] Hint Resolve stable_configs : run.

Lemma pres_GetDpllPins l b : Pres (fun m => hardwareConfigs m = l /\ ready m = b) GetDpllPins.
Proof. unfold GetDpllPins. pres. Qed.
#[local] Hint Resolve pres_GetDpllPins : run.

Lemma pres_prepare P `{!Stable P} h : Pres P (prepare h).
Proof. unfold prepare. pres. Qed.

Lemma pres_resolve_names l b hwConfigs : Pres (fun m => hardwareConfigs m = l /\ ready m = b) (resolve_names hwConfigs).
Proof. unfold resolve_names. pres. Qed.

Lemma pres_reset_removed l b hwConfigs : Pres (fun m => hardwareConfigs m = l /\ ready m = b) (reset_removed hwConfigs).
Proof. unfold reset_removed, applyVendorDefaultsForRemovedConfigs, reset_config, reset_subsystem. pres. Qed.

(** ** Identities *)

(** What a configuration keeps from its resource. *)
Definition identity (h : HardwareConfig) : string * string * option string * option string :=
  (hwName h, RelatedPtpProfileName h, hpName (hwProfile h), ClockType (hwProfile h)).

Lemma map_names_identity hwConfigs : forall r, map identity (ResolveHardwareConfigInterfaces hwConfigs r).1 = map identity hwConfigs.
Proof.
  induction hwConfigs as [|h l IH]; intros r; [done|]. unfold ResolveHardwareConfigInterfaces in *. cbn [map_names].
  assert (identity (resolve_config_names h r).1 = identity h) as Hh.
  { unfold resolve_config_names. destruct (hpClockChain _) as [cc|]; [|done]. by destruct (resolve_chain_names cc r). }
  destruct (resolve_config_names h r) as [h' r1]. specialize (IH r1). destruct (map_names _ l r1) as [l' r2]. cbn in *. by rewrite Hh, IH.
Qed.

Section Keep.
Context (P : Manager -> Prop) `{!Stable P}.

Lemma post_resolve_chain h config : Post P (ResolveClockChain h config) (fun h' => identity h' = identity h).
Proof.
  intros m Hm. split; [by apply pres_ResolveClockChain|]. intros h' E. destruct (ResolveClockChain h config m) as [o m'] eqn:Er. cbn in E. subst o.
  unfold ResolveClockChain in Er. apply bind_ok in Er as (clockType & m1 & _ & Er). apply bind_ok in Er as (profiles & m2 & _ & Er).
  destruct (str_eqb _ _); [done|].
  do 4 (apply bind_ok in Er as (? & ? & _ & Er)). by injection Er as <- _.
Qed.

End Keep.

(** ** The state that is reached *)

(** The caches hold what loading a path gives, under the board labels, and in the
    order of iteration over maps, of the time of the load, and no clock of zero. *)
Definition coherent (files : VendorFiles) (m : Manager) : Prop :=
  (forall path hd, hwDefaultsCache m !! path = Some hd ->
     path <> ""%string /\ exists order labels, @LoadHardwareDefaults order files path labels = Ok hd)
  /\ forall key id, clockIDCache m !! key = Some id -> id <> 0.

Lemma getClockIDCached_run files iface path m :
  coherent files m -> coherent files (getClockIDCached iface path m).2 /\ forall id, (getClockIDCached iface path m).1 = Ok id -> id <> 0.
Proof.
  intros Hm. unfold getClockIDCached, bind, get, modify, ret, fail. destruct (clockIDCache m !! cache_key iface path) as [id|] eqn:Ec; cbn.
  { split; [done|]. intros id' [= <-]. by eapply Hm. }
  destruct (ClockID.GetClockIDFromInterfaceWithCache _ _ _ _ _) as [id|]; [|done]. destruct (Z.eqb_spec id 0); [done|]. cbn.
  split; [|by intros ? [= <-]]. split; [by apply Hm|]. cbn. intros key id' [[_ <-]|[_ Hk]]%lookup_insert_Some; [done|by eapply Hm].
Qed.

#[export] Instance stable_coherent : Stable (coherent env_files).
Proof.
  split; intros.
  - intros m Hm. unfold getHardwareDefaults, str_eqb. case_bool_decide as Hp; [done|]. unfold bind, get, lift, modify, ret.
    destruct (hwDefaultsCache m !! path); [done|]. destruct (LoadHardwareDefaults env_files path _) as [hd| |] eqn:El; [|done..].
    split; [|by apply Hm]. cbn. intros path' hd' [[<- <-]|[_ Hk]]%lookup_insert_Some; [split; [done|by eexists _, _]|by apply Hm].
  - intros m Hm. by apply getClockIDCached_run.
  - intros m Hm. exact Hm.
Qed.
#[local] Hint Resolve stable_coherent : run.

Definition full (h : HoldoverParameters) : Prop := MaxInSpecOffset h <> 0 /\ LocalMaxHoldoverOffset h <> 0 /\ LocalHoldoverTimeout h <> 0.

Definition parameters_ok (params : gmap Z HoldoverParameters) : Prop := map_Forall (fun id h => id <> 0 /\ full h) params.
Definition flags_ok (flags : gmap Z Z) : Prop := map_Forall (fun id f => id <> 0 /\ f <> 0) flags.

Lemma post_subsystem_clock path s : Post (coherent env_files) (subsystem_clock path s) (fun o => forall id, o = Some id -> id <> 0).
Proof.
  unfold subsystem_clock. destruct (str_eqb _ _); [by apply post_ret|]. apply (post_try _ _ (fun id => id <> 0)).
  intros m Hm. by apply getClockIDCached_run.
Qed.

Lemma holdover_defaults_full h : full (holdover_defaults h).
Proof.
  assert (forall v d, d <> 0 -> HwBuild.or_default v d <> 0) as Hd by (intros v d Hd; unfold HwBuild.or_default; destruct (Z.eqb_spec v 0); lia).
  split_and!; by apply Hd.
Qed.

Lemma post_holdover cc : Post (coherent env_files) (extractHoldoverParameters cc) parameters_ok.
Proof.
  apply post_foldM; [|by apply map_Forall_empty]. intros params s Hp. unfold holdover_of. destruct (dpHoldoverParameters _) as [h|]; [|by apply post_ret].
  eapply post_bind; [apply post_subsystem_clock|]. intros [id|] Hid; apply post_ret; [|done].
  apply map_Forall_insert_2; [|done]. split; [by apply Hid|apply holdover_defaults_full].
Qed.

Lemma post_flags cc : Post (coherent env_files) (extractDPLLFlags cc) flags_ok.
Proof.
  apply post_foldM; [|by apply map_Forall_empty]. intros flags s Hf. unfold flags_of.
  eapply post_bind; [apply post_pres; pres|]. intros hd _. destruct (h ← hd; h ← h; ParseDPLLFlags h) as [f|]; [|by apply post_ret].
  destruct (Z.eqb_spec f 0); [by apply post_ret|]. eapply post_bind; [apply post_subsystem_clock|]. intros [id|] Hid; apply post_ret; [|done].
  apply map_Forall_insert_2; [|done]. split; [by apply Hid|done].
Qed.

(** What the manager holds about one configuration. *)
Record enriched_ok (ec : enrichedHardwareConfig) : Prop := {
  ok_chain : is_Some (hpClockChain (hwProfile (ecConfig ec)));
  ok_holdover : parameters_ok (holdoverParams ec);
  ok_flags : flags_ok (dpllFlags ec)
}.

Lemma post_prepare h : Post (coherent env_files) (prepare h) (fun ec => enriched_ok ec /\ identity (ecConfig ec) = identity h).
Proof.
  unfold prepare. eapply post_bind; [apply post_pres, pres_get|]. intros m0 _.
  eapply (post_bind _ _ _ (fun h' => identity h' = identity h)).
  { destruct (ClockType _); [apply post_resolve_chain, stable_coherent|by apply post_ret]. }
  intros h' Hh. eapply post_bind; [apply post_pres, pres_lift|]. intros cc0 _. eapply post_bind; [apply post_pres; pres|]. intros cc _.
  eapply post_bind; [apply post_pres; pres|]. intros [dpllCommands sysFS] _. eapply post_bind; [apply post_pres; pres|]. intros [pins sysfs] _.
  eapply post_bind; [apply post_holdover|]. intros holdover Hho. eapply post_bind; [apply post_flags|]. intros flags Hfl.
  apply post_ret. split; [split; [by eexists|done|done]|]. exact Hh.
Qed.

(** ** Updates *)

(** A run that keeps [Q] until it succeeds, and then leaves [R]. *)
Definition Commits {A} (Q R : Manager -> Prop) (x : M A) : Prop := forall m, Q m -> match (x m).1 with Ok _ => R (x m).2 | _ => Q (x m).2 end.

Lemma commits_bind {A B} Q R (x : M A) (k : A -> M B) S : Post Q x S -> (forall a, S a -> Commits Q R (k a)) -> Commits Q R (bind x k).
Proof.
  intros Hx Hk m Hm. destruct (Hx m Hm) as [E1 E2]. unfold bind. destruct (x m) as [[a| |] m']; cbn in *; [|done..].
  apply Hk; [by apply E2|done].
Qed.

Lemma commits_modify (Q R : Manager -> Prop) f : (forall m, Q m -> R (f m)) -> Commits Q R (modify f).
Proof. intros Hf m Hm. by apply Hf. Qed.

Lemma post_prepare_identity P `{!Stable P} h : Post P (prepare h) (fun ec => identity (ecConfig ec) = identity h).
Proof.
  unfold prepare. eapply post_bind; [apply post_pres, pres_get|]. intros m0 _.
  eapply (post_bind _ _ _ (fun h' => identity h' = identity h)).
  { destruct (ClockType _); [by apply post_resolve_chain|by apply post_ret]. }
  intros h' Hh. do 2 (eapply post_bind; [apply post_pres; pres|]; intros ? _). eapply post_bind; [apply post_pres; pres|]. intros [? ?] _.
  eapply post_bind; [apply post_pres; pres|]. intros [? ?] _. do 2 (eapply post_bind; [apply post_pres; pres|]; intros ? _).
  by apply post_ret.
Qed.

Lemma post_resolve_names l b hwConfigs : Post (fun m => hardwareConfigs m = l /\ ready m = b) (resolve_names hwConfigs)
  (fun hwConfigs' => map identity hwConfigs' = map identity hwConfigs).
Proof.
  intros m Hm. split; [by apply pres_resolve_names|]. intros hwConfigs'. unfold resolve_names, bind, get, modify, ret.
  destruct (interfaceResolver m) as [r|]; [|by intros [= <-]]. pose proof (map_names_identity hwConfigs (Resolver.Refresh env_interfaces r).2) as Hi.
  destruct (ResolveHardwareConfigInterfaces _ _) as [l' r']. by intros [= <-].
Qed.

Lemma update_commits (hwConfigs : list HardwareConfig) (m : Manager) :
  let r := UpdateHardwareConfig hwConfigs m in
  match r.1 with
  | Ok _ => ready r.2 = true /\ map identity (CloneHardwareConfigs r.2) = map identity hwConfigs
  | _ => hardwareConfigs r.2 = hardwareConfigs m /\ ready r.2 = ready m
  end.
Proof.
  set (Q := fun m' => hardwareConfigs m' = hardwareConfigs m /\ ready m' = ready m).
  set (R := fun m' => ready m' = true /\ map identity (CloneHardwareConfigs m') = map identity hwConfigs).
  assert (Commits Q R (UpdateHardwareConfig hwConfigs)) as Hc; [|exact (Hc m (conj eq_refl eq_refl))].
  unfold UpdateHardwareConfig. apply (commits_bind _ _ _ _ (fun _ => True)); [by intros m' Hm'|]. intros _ _.
  eapply commits_bind; [apply post_resolve_names|]. intros hw Hhw. eapply commits_bind; [apply post_pres, pres_reset_removed|]. intros _ _.
  destruct hw as [|h hw].
  - apply commits_modify. intros m' _. split; [done|]. by rewrite <- Hhw.
  - eapply commits_bind; [apply post_pres, pres_GetDpllPins|]. intros _ _.
    eapply commits_bind; [apply (post_mapM _ _ (fun h ec => identity (ecConfig ec) = identity h)); intros x; apply post_prepare_identity, stable_configs|].
    intros prepared Hp. apply commits_modify. intros m' _. split; [done|]. rewrite <- Hhw. change (map identity (map ecConfig prepared) = map identity (h :: hw)).
    clear -Hp. revert Hp. generalize (h :: hw). intros l Hp. induction Hp as [|x y l l' E _ IH]; [done|]. cbn. by rewrite E, IH.
Qed.

(** C9. An update is all or nothing.  When it succeeds the manager is ready and holds exactly
    the configurations given, in their order, with their names, profiles and clock types; when
    it fails, or panics, it holds what it held before and is ready only if it was. *)
Theorem update_all_or_nothing (hwConfigs : list HardwareConfig) (m : Manager) :
  let r := UpdateHardwareConfig hwConfigs m in
  match r.1 with
  | Ok _ => ready r.2 = true /\ map identity (CloneHardwareConfigs r.2) = map identity hwConfigs
  | _ => hardwareConfigs r.2 = hardwareConfigs m /\ ready r.2 = ready m
  end.
Proof. apply update_commits. Qed.

(** ** What every operation keeps *)

Definition state_ok (m : Manager) : Prop := coherent env_files m /\ Forall enriched_ok (hardwareConfigs m).

#[export] Instance stable_state_ok : Stable state_ok.
Proof.
  split; intros; intros m [Hc He]; (split; [by apply stable_coherent|]).
  - by rewrite (proj1 (stable_defaults (Stable := stable_configs _ _) path m (conj eq_refl eq_refl))).
  - by rewrite (proj1 (stable_clock (Stable := stable_configs _ _) iface path m (conj eq_refl eq_refl))).
  - exact He.
Qed.
#[local] Hint Resolve stable_state_ok : run.

Lemma update_state_ok hwConfigs m : state_ok m -> state_ok (UpdateHardwareConfig hwConfigs m).2.
Proof.
  revert m. change (Pres state_ok (UpdateHardwareConfig hwConfigs)). unfold UpdateHardwareConfig.
  apply pres_bind; [by intros m [[? _] ?]|]. intros _.
  apply pres_bind; [unfold resolve_names; pres|]. intros hw. apply pres_bind; [|intros _].
  { unfold reset_removed, applyVendorDefaultsForRemovedConfigs, reset_config, reset_subsystem, GetDpllPins. pres. }
  destruct hw as [|h hw]; [by intros m [? ?]; split; [|constructor]|].
  intros m Hm. unfold bind at 1. assert (Pres state_ok GetDpllPins) as Hg by (unfold GetDpllPins; pres). specialize (Hg m Hm).
  destruct (GetDpllPins m) as [[pc| |] m1]; [|done..]. cbn in Hg. unfold bind.
  assert (Post state_ok (mapM prepare (h :: hw)) (Forall2 (fun _ ec => enriched_ok ec) (h :: hw))) as Hp.
  { apply post_mapM. intros x m2 Hm2. split; [exact (pres_prepare state_ok x m2 Hm2)|]. intros ec Hec. by apply (proj2 (post_prepare x m2 (proj1 Hm2)) ec). }
  destruct (Hp m1 Hg) as [Hs Hr]. destruct (mapM prepare (h :: hw) m1) as [[l| |] m2]; [|done..]. cbn in *. split; [exact (proj1 Hs)|].
  specialize (Hr l eq_refl). clear -Hr. cbn. revert Hr. generalize (h :: hw). intros hws Hr. by induction Hr; constructor.
Qed.

End Env.

(** ** A T-BC on e825 *)

Definition e825_host (pins : option PinCache) : ClockID.Host :=
  ClockID.mkHost (fun cmd _ => if str_eqb cmd "ethtool" then Some ("driver: ice" +:+ newline +:+ "bus-info: 0000:13:00.0")%string
                               else if str_eqb cmd "devlink" then Some "serial_number 00-00-00-00-00-00-00-07"%string else None)
    (fun _ => None) (fun _ => None) pins.

Definition e825_pins : PinCache :=
  buildPinCacheFromPins
    (map (fun label => PinCmd.sample_pin <| piBoardLabel := label |>) ["GNR-D_SDP0"; "GNSS_1PPS_IN"; "OCP1_CLK"]%string)
    [empty_reply <| rpID := 0 |> <| rpType := DpllTypeEEC |>; empty_reply <| rpID := 1 |> <| rpType := DpllTypePPS |>].

Definition e825_env (pins : option PinCache) : Env :=
  Build_Env (e825_host pins) e825_files eno5_leads (fun path => Some [path]) None (fun _ _ => true).

Definition e825_config : HardwareConfig :=
  tbc_config <| hwProfile := (hwProfile tbc_config) <| hpClockChain := Some (mkChain None [leader]
    (Some (mkBehavior [mkSource "PTP" "Leader" "" "" ["eno8703"] None; mkSource "DPLL" "Leader" "dpllPhaseLocked" "" [] None]
      [mkCondition "Holdover" [mkSourceState "DPLL" "locked"]
         [mkDesired (Some (mkDPLLDesired "Leader" "GNSS_1PPS_IN" None (Some (mkPinState None "disconnected")))) None None;
          mkDesired None (Some (mkPTPPin "SDP2" 0 0 "PTP")) None]])))%string |> |>.

Definition new_manager : Manager := SetPtpConfig (Some [tbc_profile]) sample_manager.

(** The manager after the configuration, and after an update at which the DPLL is gone. *)
Definition updated : outcome unit * Manager := UpdateHardwareConfig (H0 := e825_env (Some e825_pins)) [e825_config] new_manager.
Definition update_failed : outcome unit * Manager := UpdateHardwareConfig (H0 := e825_env None) [e825_config] updated.2.

Definition locked_device : DoDeviceGetReply := empty_reply <| rpClockID := 7 |> <| rpLockStatus := DPLL_LOCKED_HO_ACQ |>.

Definition applied_profile : PtpConfig.PtpProfile :=
  match (ApplyHardwareConfigsForProfile (H0 := e825_env (Some e825_pins)) tbc_profile updated.2).1 with Ok p => p | _ => tbc_profile end.

Theorem settings_only_added_witness :
  PtpConfig.PtpSettings applied_profile = Some {[ "clockId[eno5]" := "7"; "leadingInterface" := "eno5"; "upstreamPort" := "eno8703" ]}%string
  /\ exists name, PtpConfig.Name tbc_profile = Some name.
Proof.
  split; [vm_compute; reflexivity|].
  assert ((ApplyHardwareConfigsForProfile (H0 := e825_env (Some e825_pins)) tbc_profile updated.2).1 = Ok applied_profile) as E by (vm_compute; reflexivity).
  destruct (settings_only_added _ _ _ E) as (name & Hn & _). by exists name.
Defined.

(** A failed update keeps the configurations but not the pins: the next notification of a
    locked DPLL for one of them dereferences a nil cache. *)
Lemma notification_panics_after_failed_update :
  updated.1 = Ok tt /\ update_failed.1 = Err
  /\ (ProcessDPLLDeviceNotifications (H0 := e825_env None) [locked_device] update_failed.2).1 = Panic.
Proof. split_and!; vm_compute; reflexivity. Qed.

Definition holdover_pins : Effect :=
  ApplyPins [mkCtl 13 None None None (Some [mkControl 0 None None None; mkControl 1 None None (Some PinStateDisconnected)])].
Definition sdp2_off : Effect := WriteSysFS "/sys/class/net/eno5/device/ptp/ptp*/pins/SDP2" "0 0".

(** The condition "Holdover" sets a pin of the DPLL and then one of the clock.  A notification
    applies it in that order; applied for a profile, its cached commands come the other way
    round, although the comments call both strictly ordered. *)
Lemma cached_commands_reordered :
  let env := e825_env (Some e825_pins) in
  done_ (ProcessDPLLDeviceNotifications (H0 := env) [locked_device] updated.2).2 = done_ updated.2 ++ [holdover_pins; sdp2_off]
  /\ drop 2 (done_ (ApplyConditionForProfile (H0 := env) tbc_profile "locked" updated.2).2) = done_ updated.2 ++ [sdp2_off; holdover_pins].
Proof. split; vm_compute; reflexivity. Qed.

(** A subsystem is adjusted by every subsystem of its chain with a delay model: with two of
    the same hardware the internal delay of a pin, 37500 ps, is compensated twice. *)
Definition two_leaders : ClockChain :=
  let s := leader <| sbDPLL := bare_dpll <| NetworkInterface := "eno5"%string |> <| PhaseOutputs := {[ "OCP1_CLK"%string := no_pin_config ]} |> |> in
  mkChain None [s; s <| sbName := "Follower"%string |>] None.

Definition ocp1_adjustments (r : outcome ClockChain * Manager) : list (option Z) :=
  match r.1 with Ok cc => map (fun s => p ← PhaseOutputs (sbDPLL s) !! "OCP1_CLK"%string; PhaseAdjustment p) (Structure_ cc) | _ => [] end.

Lemma delay_added_per_subsystem :
  ocp1_adjustments (populatePhaseAdjustments (H0 := e825_env (Some e825_pins)) two_leaders new_manager) = [Some 75000; Some 75000].
Proof. vm_compute. reflexivity. Qed.

(** Without a broadcast the wait goes on whatever the deadline: nothing else wakes it. *)
Lemma wait_never_times_out deadline now : now < deadline -> WaitForHardwareConfigs deadline [(now, false)] = None.
Proof. intros Hd. cbn. destruct (Z.leb_spec (deadline - now) 0); [lia|done]. Qed.

End HwManager.
