(* ===== verification/HwGnss.v ===== *)
(** * pkg/hardwareconfig: GNSS sources

    pkg/hardwareconfig/gnss.go: the GNSS source of a profile, its serial port, the result of
    matching it as the status of the configuration, and the settings of its receiver. *)

From S2P Require Import Prelude Strconv PtpConfig UbloxCmd GnssDevice HwTypes HwState HwChain.

#[local] Open Scope Z_scope.

Module HwGnss.

Import Hw HwState HwChain.
#[local] Open Scope hw_scope.

(** ** The source *)

Definition gnss_source (b : Behavior) : option SourceConfig := first_match (fun s => str_eqb (srSourceType s) SourceTypeGNSS) (Sources b).

(** The source in a configuration of the profile. *)
Definition gnss_in (name : string) (ec : enrichedHardwareConfig) : option (option GNSSConfig * string * string) :=
  let h := ecConfig ec in
  if negb (ProfileNamesMatch name (RelatedPtpProfileName h)) then None
  else
    cc ← hpClockChain (hwProfile h);
    b ← ccBehavior cc;
    s ← gnss_source b;
    Some (srGNSSConfig s, hwName h, srName s).

Definition no_source : option GNSSConfig * string * string := (None, ""%string, ""%string).

(** The profile may be nil. *)
Definition findGNSSSource (nodeProfile : option PtpConfig.PtpProfile) (m : Manager) : option GNSSConfig * string * string :=
  match p ← nodeProfile; PtpConfig.Name p with
  | Some name => default no_source (head (omap (gnss_in name) (hardwareConfigs m)))
  | None => no_source
  end.

Definition HasExplicitGNSSMatcher (nodeProfile : option PtpConfig.PtpProfile) (m : Manager) : bool :=
  let '(config, _, sourceName) := findGNSSSource nodeProfile m in
  negb (str_eqb sourceName "") && match c ← config; gcMatch c with Some _ => true | None => false end.

(** ** The device *)

Definition findGNSSDevice (sys : GnssDevice.Sysfs) (matcher : option GNSSMatcher) : string + string :=
  match matcher with
  | None => inr "no GNSSMatcher is defined for this GNSS source"%string
  | Some g =>
      if negb (str_eqb (gmTTYDevice g) "") then inl (gmTTYDevice g)
      else
        match s ← gmSerialDevice g; s with
        | Some acpi => GnssDevice.GNSSDeviceFromACPIDevice sys (acHID acpi) (acUID acpi)
        | None =>
            match gmEthernetDevice g with
            | Some e => GnssDevice.GNSSDeviceFromEthernetDevice sys (edName e) (edPCIAddress e) (edPermanentMACAddress e) (edSlot e) (edVendorID e) (edDeviceID e)
            | None =>
                match gmUSBDevice g with
                | Some u => GnssDevice.GNSSDeviceFromUSB sys (usbVendor u) (usbProduct u) (usbPath u)
                | None => inr "GNSSMatcher has neither ttyDevice, serialDevice, ethernetDevice, nor usbDevice set"%string
                end
            end
        end
  end.

Definition selector_text (name value : string) : list string := if str_eqb value "" then [] else [(name +:+ "=" +:+ value)%string].

Definition describeGNSSMatch (matcher : option GNSSMatcher) : string :=
  match matcher with
  | None => "Matched GNSS tty without a configured matcher"
  | Some g =>
      if negb (str_eqb (gmTTYDevice g) "") then "Matched GNSS tty specified directly as " +:+ gmTTYDevice g
      else
        match s ← gmSerialDevice g; s with
        | Some acpi => "Matched GNSS tty exposed by ACPI serial device " +:+ acHID acpi +:+ (if str_eqb (acUID acpi) "" then "" else ":" +:+ acUID acpi)
        | None =>
            match gmEthernetDevice g with
            | Some e =>
                "Matched GNSS tty exposed by Ethernet device ("
                +:+ join ", " (selector_text "name" (edName e) ++ selector_text "pciAddress" (edPCIAddress e)
                               ++ selector_text "permanentMACAddress" (edPermanentMACAddress e) ++ selector_text "slot" (edSlot e)
                               ++ selector_text "vendorID" (edVendorID e) ++ selector_text "deviceID" (edDeviceID e)) +:+ ")"
            | None =>
                match gmUSBDevice g with
                | Some u =>
                    "Matched GNSS tty exposed by USB device " +:+ usbVendor u +:+ ":" +:+ usbProduct u
                    +:+ (if str_eqb (usbPath u) "" then "" else " at path " +:+ usbPath u)
                | None => "Matched GNSS tty"
                end
            end
        end
  end%string.

(** ** The status *)

Definition set_status (status : GNSSStatus) (s : SourceStatus) : SourceStatus := mkSourceStatus (ssName s) (Some status).

(** The statuses of a configuration, and whether they changed: the first of the source, or a
    new one behind the others. *)
Fixpoint put_status (sourceName : string) (status : GNSSStatus) (l : list SourceStatus) : list SourceStatus * bool :=
  match l with
  | [] => ([mkSourceStatus sourceName (Some status)], true)
  | s :: l' =>
      if str_eqb (ssName s) sourceName then
        if decide (ssGnss s = Some status) then (l, false) else (set_status status s :: l', true)
      else let '(l2, changed) := put_status sourceName status l' in (s :: l2, changed)
  end.

Definition with_statuses (l : list SourceStatus) (ec : enrichedHardwareConfig) : enrichedHardwareConfig :=
  ec <| ecConfig := (ecConfig ec) <| StatusSources := l |> |>.

(** The first configuration of the name; [None] when there is none. *)
Fixpoint update_config (configName sourceName : string) (status : GNSSStatus) (l : list enrichedHardwareConfig) : option (list enrichedHardwareConfig * bool) :=
  match l with
  | [] => None
  | ec :: l' =>
      if str_eqb (hwName (ecConfig ec)) configName then
        let '(statuses, changed) := put_status sourceName status (StatusSources (ecConfig ec)) in
        Some (with_statuses statuses ec :: l', changed)
      else match update_config configName sourceName status l' with Some (l2, changed) => Some (ec :: l2, changed) | None => None end
  end.

(** [updateGnssStatus]; true when the handler, which may be nil, is returned. *)
Definition updateGnssStatus (configName sourceName : string) (status : GNSSStatus) (m : Manager) : bool * Manager :=
  match update_config configName sourceName status (hardwareConfigs m) with
  | None => (false, m)
  | Some (l, changed) => (changed && gnssStatusChanged m, m <| hardwareConfigs := l |>)
  end.

Definition match_status (matcher : option GNSSMatcher) (r : string + string) : GNSSStatus :=
  match r with
  | inl tty => mkStatus tty (describeGNSSMatch matcher)
  | inr err => mkStatus "" ("GNSS device matching failed: " +:+ err)%string
  end.

Section Env.
Context `{Env} (sys : GnssDevice.Sysfs).

Definition recordGNSSMatchResult (configName sourceName : string) (matcher : option GNSSMatcher) (r : string + string) : M unit := fun m =>
  let '(call, m) := updateGnssStatus configName sourceName (match_status matcher r) m in
  (Ok tt, if call then m <| done_ := done_ m ++ [GnssStatusChanged] |> else m).

Definition GetGNSSSerialPort (nodeProfile : option PtpConfig.PtpProfile) : M string :=
  m <- get;;
  let '(config, hwConfigName, sourceName) := findGNSSSource nodeProfile m in
  if str_eqb sourceName "" then ret ""%string
  else
    let '(matcher, r) := match config with
                         | None => (None, inr "no GNSS configuration defined"%string)
                         | Some c => (gcMatch c, findGNSSDevice sys (gcMatch c))
                         end in
    recordGNSSMatchResult hwConfigName sourceName matcher r;;
    match r with inl tty => ret tty | inr _ => fail end.

End Env.

(** ** The receiver *)

Definition constellation (c : string) : list string :=
  if str_eqb c "GPS" then ["GPS"; "QZSS"]%string
  else if str_eqb c "Galileo" then ["GAL"%string]
  else if str_eqb c "GLONASS" then ["GLO"%string]
  else if str_eqb c "BeiDou" then ["BDS"%string]
  else if str_eqb c "SBAS" then ["SBAS"%string] else [].

Definition GetGNSSInitConfig (nodeProfile : option PtpConfig.PtpProfile) (m : Manager) : option UbloxCmd.InitConfig :=
  let '(config, _, _) := findGNSSSource nodeProfile m in
  c ← config;
  let i := gcInit c in
  Some (UbloxCmd.mkInit (giAntennaVoltage i) (flat_map constellation (giConstellations i))
          (if 0 <? giObservationTime i then Some (UbloxCmd.mkSurvey (giObservationTime i) (giAccuracy i)) else None)
          (map (fun e : list string * bool => UbloxCmd.mkCommand e.2 e.1) (giExtraCommands i))).

(** * Properties *)

Definition status_of (sourceName : string) (l : list SourceStatus) : option GNSSStatus :=
  s ← first_match (fun s => str_eqb (ssName s) sourceName) l; ssGnss s.

(** The status of a source of a configuration. *)
Definition gnss_status (configName sourceName : string) (m : Manager) : option GNSSStatus :=
  ec ← first_match (fun ec => str_eqb (hwName (ecConfig ec)) configName) (hardwareConfigs m); status_of sourceName (StatusSources (ecConfig ec)).

Definition has_config (configName : string) (m : Manager) : bool := existsb (fun ec => str_eqb (hwName (ecConfig ec)) configName) (hardwareConfigs m).

Lemma put_status_spec sourceName status l : let r := put_status sourceName status l in
  status_of sourceName r.1 = Some status
  /\ (forall other, other <> sourceName -> status_of other r.1 = status_of other l)
  /\ (r.2 = false <-> status_of sourceName l = Some status) /\ (r.2 = false -> r.1 = l).
Proof.
  unfold status_of. induction l as [|s l IH]; cbn zeta in *.
  - cbn. unfold str_eqb. rewrite bool_decide_true by done. split_and!; try done. intros other Hne. by rewrite bool_decide_false by congruence.
  - cbn [put_status]. destruct (str_eqb (ssName s) sourceName) eqn:Es; [apply bool_decide_eq_true in Es|apply bool_decide_eq_false in Es].
    + destruct (decide (ssGnss s = Some status)) as [E|E]; cbn; unfold str_eqb.
      * rewrite bool_decide_true by done. by split_and!.
      * rewrite bool_decide_true by done. split_and!; try done. intros other Hne. rewrite bool_decide_false; [done|congruence].
    + destruct (put_status sourceName status l) as [l' changed]. cbn in *. destruct IH as (H1 & H2 & H3 & H4). unfold str_eqb in *.
      rewrite bool_decide_false by done. split_and!; [done| |done|intros ->; by rewrite H4].
      intros other Hne. case_bool_decide; [done|by apply H2].
Qed.

Definition statuses_of (configName : string) (l : list enrichedHardwareConfig) : option (list SourceStatus) :=
  ec ← first_match (fun ec => str_eqb (hwName (ecConfig ec)) configName) l; Some (StatusSources (ecConfig ec)).

Lemma gnss_status_of configName sourceName m : gnss_status configName sourceName m = (l ← statuses_of configName (hardwareConfigs m); status_of sourceName l).
Proof. unfold gnss_status, statuses_of. by destruct (first_match _ _). Qed.

(** A configuration with other statuses. *)
Definition same_but_status (ec ec' : enrichedHardwareConfig) : Prop := ec' = with_statuses (StatusSources (ecConfig ec')) ec.

Lemma same_but_status_refl ec : same_but_status ec ec.
Proof. unfold same_but_status, with_statuses. by destruct ec as [[? ? ? ?] ? ? ? ? ? ?]. Qed.

Lemma update_config_spec configName sourceName status l :
  match update_config configName sourceName status l with
  | None => statuses_of configName l = None
  | Some (l', changed) =>
      (exists statuses, statuses_of configName l = Some statuses /\ statuses_of configName l' = Some (put_status sourceName status statuses).1
                        /\ changed = (put_status sourceName status statuses).2)
      /\ (forall other, other <> configName -> statuses_of other l' = statuses_of other l) /\ Forall2 same_but_status l l'
  end.
Proof.
  unfold statuses_of. induction l as [|ec l IH]; [done|]. cbn [update_config first_match].
  destruct (str_eqb (hwName (ecConfig ec)) configName) eqn:Ec; [apply bool_decide_eq_true in Ec|apply bool_decide_eq_false in Ec].
  - destruct (put_status sourceName status (StatusSources (ecConfig ec))) as [statuses changed] eqn:Ep. split_and!.
    + exists (StatusSources (ecConfig ec)). split; [done|]. rewrite Ep. split; [|done]. cbn. unfold str_eqb. by rewrite bool_decide_true.
    + intros other Hne. cbn. unfold str_eqb. by rewrite !bool_decide_false by congruence.
    + constructor; [done|]. apply Forall_Forall2_diag, Forall_forall. intros ec' _. apply same_but_status_refl.
  - destruct (update_config configName sourceName status l) as [[l' changed]|]; [|exact IH].
    destruct IH as ((statuses & E1 & E2 & E3) & Hother & Hsame). split_and!.
    + exists statuses. split; [done|]. split; [|done]. cbn. unfold str_eqb at 1. by rewrite bool_decide_false.
    + intros other Hne. cbn. destruct (str_eqb _ other); [done|]. by apply Hother.
    + constructor; [apply same_but_status_refl|done].
Qed.

(** The status of a GNSS source.  Recording the result of a match makes it the status of
    that source of that configuration, leaves those of all others as well as every other field
    of every configuration alone, and calls the handler exactly when the status was another
    one: a result that is found again changes nothing.  For a configuration that is gone
    nothing happens. *)
Theorem gnss_status_recorded `{Env} (configName sourceName : string) (matcher : option GNSSMatcher) (r : string + string) (m : Manager) :
  let status := match_status matcher r in
  let m' := (recordGNSSMatchResult configName sourceName matcher r m).2 in
  if has_config configName m then
    gnss_status configName sourceName m' = Some status
    /\ (forall c s, (c, s) <> (configName, sourceName) -> gnss_status c s m' = gnss_status c s m)
    /\ Forall2 same_but_status (hardwareConfigs m) (hardwareConfigs m')
    /\ done_ m' = done_ m ++ (if bool_decide (gnss_status configName sourceName m <> Some status) && gnssStatusChanged m then [GnssStatusChanged] else [])
  else m' = m.
Proof.
  cbn zeta. set (status := match_status matcher r). pose proof (update_config_spec configName sourceName status (hardwareConfigs m)) as Hu.
  assert (has_config configName m = match statuses_of configName (hardwareConfigs m) with Some _ => true | None => false end) as ->.
  { unfold has_config, statuses_of. clear. induction (hardwareConfigs m) as [|ec l IH]; [done|]. cbn. by destruct (str_eqb _ _). }
  unfold recordGNSSMatchResult, updateGnssStatus. fold status.
  destruct (update_config _ _ _ _) as [[l' changed]|]; [|by rewrite Hu]. destruct Hu as ((statuses & E1 & E2 & E3) & Hother & Hsame).
  rewrite E1. pose proof (put_status_spec sourceName status statuses) as Hp. cbn zeta in Hp. destruct Hp as (P1 & P2 & P3 & _). rewrite <- E3 in P3.
  set (m' := (_, _).2). assert (hardwareConfigs m' = l') as El by (unfold m'; by destruct (changed && gnssStatusChanged m)).
  split_and!.
  - by rewrite gnss_status_of, El, E2.
  - intros c s Hne. rewrite !gnss_status_of, El. destruct (decide (c = configName)) as [->|Hc]; [|by rewrite Hother].
    rewrite E1, E2. apply P2. congruence.
  - by rewrite El.
  - rewrite gnss_status_of, E1. cbn [mbind option_bind]. unfold m'. destruct changed; cbn [andb].
    + rewrite bool_decide_true; [cbn [andb]|intros E; by apply P3 in E]. destruct (gnssStatusChanged m); [done|by rewrite app_nil_r].
    + rewrite bool_decide_false by (intros Hn; by apply Hn, P3). cbn. by rewrite app_nil_r.
Qed.

(** A GNSS source without a name is not found. *)
Lemma nameless_source `{Env} sys p m : (let '(_, _, name) := findGNSSSource p m in name) = ""%string -> GetGNSSSerialPort sys p m = (Ok ""%string, m).
Proof.
  intros E. unfold GetGNSSSerialPort, bind, get. destruct (findGNSSSource p m) as [[config hw] name]. cbn in E. by subst.
Qed.

End HwGnss.
