(* ===== verification/HwReached.v ===== *)
(** * pkg/hardwareconfig: the states a manager reaches

    Every method of HardwareConfigManager that changes its state is an operation here, with
    the surroundings it runs in: each has its own, since hosts, pins, interfaces and the
    board labels change while the daemon runs.  Only the vendor files are the same
    throughout, which are part of the program (vendor_embedded.go). *)

From S2P Require Import Prelude PtpConfig GnssDevice Netlink HwTypes PinCmd PinMerge HwVendor HwState HwChain HwBuild HwNames HwApply HwRun HwManager HwGnss.

Module HwReached.

Import Netlink Hw PinCmd PinMerge HwVendor HwState HwChain HwBuild HwNames HwApply HwRun HwManager HwGnss.
#[local] Open Scope hw_scope.




(** ** The match of a GNSS source changes its status only *)






End HwReached.
