(* ===== verification/HwController.v ===== *)
(** * pkg/controller: the hardware configurations of the cluster

    hardwareconfig_controller.go: which of the HardwareConfig resources of the cluster
    concern this node, what changed since they were applied last, the update of the
    daemon, the restart of the PTP processes and the status that is written back; and the
    timer that gathers changes of the profiles.  The client of the API server and the
    profiles in force are arguments; the daemon is behind a class, which the manager of
    HwManager.v implements.  [reconcileMutex] makes a reconciliation one step.

    A resource is cluster-scoped, so its name is its key.  [reflect.DeepEqual] tells a nil
    map or list from an empty one; here, as in HwTypes.v, they are the same. *)

From S2P Require Import Prelude Strconv ClockMgr Paths HwTypes PinMerge HwState HwChain HwNames HwManager.
From stdpp Require Import sorting.

#[local] Open Scope Z_scope.

Module HwController.

Import Hw HwChain HwManager.

(** ** The specification of a resource, and its equality *)

#[export] Instance HoldoverParameters_dec : EqDecision HoldoverParameters.
Proof. solve_decision. Defined.
#[export] Instance PinConfig_dec : EqDecision PinConfig.
Proof. solve_decision. Defined.
#[export] Instance DPLL_dec : EqDecision DPLL.
Proof. solve_decision. Defined.
#[export] Instance Subsystem_dec : EqDecision Subsystem.
Proof. solve_decision. Defined.
#[export] Instance ESyncDefinition_dec : EqDecision ESyncDefinition.
Proof. solve_decision. Defined.
#[export] Instance PinState_dec : EqDecision PinState.
Proof. solve_decision. Defined.
#[export] Instance DPLLDesiredState_dec : EqDecision DPLLDesiredState.
Proof. solve_decision. Defined.
#[export] Instance PTPTimeSpec_dec : EqDecision PTPTimeSpec.
Proof. solve_decision. Defined.
#[export] Instance PTPPinDesiredState_dec : EqDecision PTPPinDesiredState.
Proof. solve_decision. Defined.
#[export] Instance PTPPeriodDesiredState_dec : EqDecision PTPPeriodDesiredState.
Proof. solve_decision. Defined.
#[export] Instance DesiredState_dec : EqDecision DesiredState.
Proof. solve_decision. Defined.
#[export] Instance SourceState_dec : EqDecision SourceState.
Proof. solve_decision. Defined.
#[export] Instance Condition_dec : EqDecision Condition.
Proof. solve_decision. Defined.
#[export] Instance EthernetDevice_dec : EqDecision EthernetDevice.
Proof. solve_decision. Defined.
#[export] Instance USBDevice_dec : EqDecision USBDevice.
Proof. solve_decision. Defined.
#[export] Instance ACPIDevice_dec : EqDecision ACPIDevice.
Proof. solve_decision. Defined.
#[export] Instance GNSSMatcher_dec : EqDecision GNSSMatcher.
Proof. solve_decision. Defined.
#[export] Instance GNSSInit_dec : EqDecision GNSSInit.
Proof. solve_decision. Defined.
#[export] Instance GNSSConfig_dec : EqDecision GNSSConfig.
Proof. solve_decision. Defined.
#[export] Instance SourceConfig_dec : EqDecision SourceConfig.
Proof. solve_decision. Defined.
#[export] Instance Behavior_dec : EqDecision Behavior.
Proof. solve_decision. Defined.
#[export] Instance ClockChain_dec : EqDecision ClockChain.
Proof. solve_decision. Defined.
#[export] Instance HardwareProfile_dec : EqDecision HardwareProfile.
Proof. solve_decision. Defined.
#[export] Instance SourceStatus_dec : EqDecision SourceStatus.
Proof. solve_decision. Defined.

(** [Spec]. *)
Definition spec (h : HardwareConfig) : HardwareProfile * string := (hwProfile h, RelatedPtpProfileName h).

(** ** Separation *)

(** What two configurations must not share: the key of a subsystem. *)
Definition subsystem_interface (s : Subsystem) : string :=
  if str_eqb (NetworkInterface (sbDPLL s)) "" then
    match Ethernet s with (port :: _) :: _ => port | _ => "" end
  else NetworkInterface (sbDPLL s).

Definition subsystemKey (s : Subsystem) : string := (sbName s +:+ ":" +:+ subsystem_interface s)%string.

Definition subsystems (h : HardwareConfig) : list Subsystem := match hpClockChain (hwProfile h) with Some cc => Structure_ cc | None => [] end.

Inductive conflict := SharedProfile (profile first second : string) | SharedSubsystem (name iface first second : string).

Fixpoint claim_subsystems (name : string) (l : list Subsystem) (seen : gmap string string) : conflict + gmap string string :=
  match l with
  | [] => inr seen
  | s :: l' =>
      match seen !! subsystemKey s with
      | Some other => inl (SharedSubsystem (sbName s) (subsystem_interface s) other name)
      | None => claim_subsystems name l' (<[subsystemKey s := name]> seen)
      end
  end.

Fixpoint claims (l : list HardwareConfig) (profiles seen : gmap string string) : option conflict :=
  match l with
  | [] => None
  | h :: l' =>
      let related := RelatedPtpProfileName h in
      match (if str_eqb related "" then None else profiles !! related) with
      | Some other => Some (SharedProfile related other (hwName h))
      | None =>
          let profiles := if str_eqb related "" then profiles else <[related := hwName h]> profiles in
          match claim_subsystems (hwName h) (subsystems h) seen with inl c => Some c | inr seen => claims l' profiles seen end
      end
  end.

Definition validateHardwareConfigSeparation (l : list HardwareConfig) : option conflict := claims l ∅ ∅.

(** ** Differences *)

Definition sliceToHardwareConfigMap (l : list HardwareConfig) : gmap string HardwareConfig := foldl (fun m h => <[hwName h := h]> m) ∅ l.

Record configDiff := mkDiff { Added : list HardwareConfig; Removed : list HardwareConfig; Modified : list HardwareConfig }.

Definition AllChanged (d : configDiff) : list HardwareConfig := Added d ++ Removed d ++ Modified d.
Definition HasChanges (d : configDiff) : bool := (0 <? length (Added d))%nat || (0 <? length (Removed d))%nat || (0 <? length (Modified d))%nat.

Section Controller.
Context `{MapOrder}.

Definition deepCopyHardwareConfigMap (m : gmap string HardwareConfig) : gmap string HardwareConfig := sliceToHardwareConfigMap (range m).*2.

Definition is_added (old : gmap string HardwareConfig) (h : HardwareConfig) : bool := bool_decide (old !! hwName h = None).

Definition is_modified (old : gmap string HardwareConfig) (h : HardwareConfig) : bool :=
  match old !! hwName h with Some o => negb (bool_decide (spec o = spec h)) | None => false end.

Definition diffHardwareConfigs (old : gmap string HardwareConfig) (new : list HardwareConfig) : configDiff :=
  mkDiff (List.filter (is_added old) new)
    (List.filter (fun o => bool_decide (sliceToHardwareConfigMap new !! hwName o = None)) (range old).*2)
    (List.filter (is_modified old) new).

(** ** The configurations of this node *)

Definition ptpProfileNameMatchesActive (related : string) (active : list string) : bool := existsb (fun a => ProfileNamesMatch a related) active.

Definition applicable (active : list string) (h : HardwareConfig) : bool :=
  negb (str_eqb (RelatedPtpProfileName h) "") && ptpProfileNameMatchesActive (RelatedPtpProfileName h) active.

Definition calculateNodeHardwareConfigs (active : list string) (l : list HardwareConfig) : list HardwareConfig := List.filter (applicable active) l.

Definition checkIfChangedConfigsAffectActiveProfiles (active : list string) (d : configDiff) : bool :=
  match active with [] => false | _ => HasChanges d && existsb (applicable active) (AllChanged d) end.

(** ** Reconciliation *)

(** [HardwareConfigUpdateHandler], and what its clients rely on: an update that succeeds
    leaves exactly the given configurations, one that does not leaves those there were. *)
Class HardwareConfigUpdateHandler (D : Type) := {
  UpdateHardwareConfig : list HardwareConfig -> D -> outcome unit * D;
  GetCurrentHardwareConfigs : D -> list HardwareConfig;
  update_spec l d :
    match (UpdateHardwareConfig l d).1 with
    | Ok _ => map identity (GetCurrentHardwareConfigs (UpdateHardwareConfig l d).2) = map identity l
    | _ => GetCurrentHardwareConfigs (UpdateHardwareConfig l d).2 = GetCurrentHardwareConfigs d
    end
}.

Context `{HardwareConfigUpdateHandler D}.

(** The answers from outside during one reconciliation: the resources of the cluster, the
    profiles in force when the configurations are chosen and when the restart is decided,
    the latest version of a resource, whether a status is accepted, and the recorder. *)
Record Env := mkEnv {
  listed : option (list HardwareConfig);
  active : list string;
  active_later : list string;
  latest : string -> option HardwareConfig;
  accepts : string -> list SourceStatus -> bool;
  has_recorder : bool
}.

Inductive effect :=
| Updated (l : list HardwareConfig)
| FailureEvent (name : string)
| TriggerRestart
| StatusUpdate (name : string) (sources : list SourceStatus) (accepted : bool).

Inductive result := Done | RequeueAfter (delay : Z) | Failed | Panicked.

Definition backoffTime : Z := 15 * 1000000000.

(** [HardwareConfigReconciler]: what it keeps, and the daemon behind it. *)
Record Reconciler := mkReconciler { HardwareConfigHandler : option D; lastAppliedConfigs : gmap string HardwareConfig }.

#[export] Instance Reconciler_fields : Fields Reconciler := fun r => mkReconciler (HardwareConfigHandler r) (lastAppliedConfigs r).

Definition recordUpdateFailure (env : Env) (l : list HardwareConfig) : list effect :=
  if has_recorder env then omap (fun h => _ ← latest env (hwName h); Some (FailureEvent (hwName h))) l else [].

Fixpoint sync_each (env : Env) (current : gmap string HardwareConfig) (l : list HardwareConfig) : list effect * bool :=
  match l with
  | [] => ([], true)
  | h :: l' =>
      match current !! hwName h with
      | None => sync_each env current l'
      | Some c =>
          match latest env (hwName h) with
          | None => ([], false)
          | Some now =>
              if bool_decide (StatusSources now = StatusSources c) then sync_each env current l'
              else
                let ok := accepts env (hwName h) (StatusSources c) in
                let update := StatusUpdate (hwName h) (StatusSources c) ok in
                if ok then let '(effs, r) := sync_each env current l' in (update :: effs, r) else ([update], false)
          end
      end
  end.

Definition syncHardwareConfigStatuses (env : Env) (r : Reconciler) (l : list HardwareConfig) : list effect * bool :=
  match HardwareConfigHandler r, l with
  | Some d, _ :: _ => sync_each env (sliceToHardwareConfigMap (GetCurrentHardwareConfigs d)) l
  | _, _ => ([], true)
  end.

(** The end of a reconciliation. *)
Definition synced (env : Env) (r : Reconciler) (l : list HardwareConfig) (before : list effect) : result * list effect * Reconciler :=
  let '(effs, ok) := syncHardwareConfigStatuses env r l in (if ok then Done else Failed, before ++ effs, r).

(** [UpdateHardwareConfig] of the handler, when there is one. *)
Definition update_handler (l : list HardwareConfig) (r : Reconciler) : outcome unit * Reconciler :=
  match HardwareConfigHandler r with
  | Some d => let '(o, d') := UpdateHardwareConfig l d in (o, r <| HardwareConfigHandler := Some d' |>)
  | None => (Ok tt, r)
  end.

Definition updated (l : list HardwareConfig) (r : Reconciler) : list effect :=
  match HardwareConfigHandler r with Some _ => [Updated l] | None => [] end.

Definition reconcileAllConfigs (env : Env) (r : Reconciler) : result * list effect * Reconciler :=
  match listed env with
  | None => (Failed, [], r)
  | Some items =>
      let applicableConfigs := calculateNodeHardwareConfigs (active env) items in
      let diff := diffHardwareConfigs (lastAppliedConfigs r) applicableConfigs in
      if negb (HasChanges diff) then synced env r applicableConfigs []
      else
        let old := deepCopyHardwareConfigMap (lastAppliedConfigs r) in
        let r := r <| lastAppliedConfigs := deepCopyHardwareConfigMap (sliceToHardwareConfigMap applicableConfigs) |> in
        let '(o, r) := update_handler applicableConfigs r in
        match applicableConfigs, o with
        | _, Panic => (Panicked, [], r)
        | _ :: _, Err =>
            (RequeueAfter backoffTime, recordUpdateFailure env applicableConfigs, r <| lastAppliedConfigs := deepCopyHardwareConfigMap old |>)
        | [], Err => (RequeueAfter backoffTime, recordUpdateFailure env [], r)
        | _ :: _, Ok _ =>
            synced env r applicableConfigs
              (updated applicableConfigs r ++
               if checkIfChangedConfigsAffectActiveProfiles (active_later env) diff then [TriggerRestart] else [])
        | [], Ok _ => synced env (r <| lastAppliedConfigs := ∅ |>) applicableConfigs (updated applicableConfigs r)
        end
  end.

(** [SetupWithManager] takes over what the daemon has. *)
Definition SetupWithManager (d : D) : Reconciler :=
  mkReconciler (Some d) (deepCopyHardwareConfigMap (sliceToHardwareConfigMap (GetCurrentHardwareConfigs d))).

(** * Properties *)

(** ** Maps of configurations *)

Lemma slice_app l l' : sliceToHardwareConfigMap (l ++ l') = foldl (fun m h => <[hwName h := h]> m) (sliceToHardwareConfigMap l) l'.
Proof. apply foldl_app. Qed.

Lemma slice_snoc l h : sliceToHardwareConfigMap (l ++ [h]) = <[hwName h := h]> (sliceToHardwareConfigMap l).
Proof. by rewrite slice_app. Qed.

Lemma slice_Some l n h : sliceToHardwareConfigMap l !! n = Some h -> h ∈ l /\ hwName h = n.
Proof.
  induction l as [|x l IH] using rev_ind; [done|]. rewrite slice_snoc, elem_of_app.
  intros [[<- <-]|[_ Hl]]%lookup_insert_Some; [by split; [right; apply list_elem_of_singleton|]|]. apply IH in Hl as [? ?]. by split; [left|].
Qed.

Lemma slice_in l h : NoDup (hwName <$> l) -> h ∈ l -> sliceToHardwareConfigMap l !! hwName h = Some h.
Proof.
  induction l as [|x l IH] using rev_ind; [by intros _ ?%elem_of_nil|]. rewrite slice_snoc, fmap_app, NoDup_app, elem_of_app.
  intros (Hl & Hx & _) [Hin| ->%list_elem_of_singleton]; [|apply lookup_insert_eq]. rewrite lookup_insert_ne; [by apply IH|]. intros E.
  apply (Hx (hwName h)); [by apply list_elem_of_fmap_2|]. rewrite <- E. by apply list_elem_of_singleton.
Qed.

Lemma slice_None l n : sliceToHardwareConfigMap l !! n = None <-> n ∉ hwName <$> l.
Proof.
  induction l as [|x l IH] using rev_ind; [split; [by intros _ ?%elem_of_nil|done]|].
  rewrite slice_snoc, lookup_insert_None, IH, fmap_app, elem_of_app. cbn. rewrite list_elem_of_singleton. naive_solver.
Qed.

Definition named (m : gmap string HardwareConfig) : Prop := forall n h, m !! n = Some h -> hwName h = n.

Lemma named_slice l : named (sliceToHardwareConfigMap l).
Proof. by intros n h [_ ?]%slice_Some. Qed.

Lemma range_names m : named m -> hwName <$> (range m).*2 = (range m).*1.
Proof.
  intros Hm. rewrite <- list_fmap_compose. apply list_fmap_ext. intros i [n h] Hi%list_elem_of_lookup_2%elem_of_range. by apply Hm.
Qed.

Lemma elem_of_values (m : gmap string HardwareConfig) h : h ∈ (range m).*2 <-> exists n, m !! n = Some h.
Proof.
  rewrite list_elem_of_fmap. split.
  - intros ([n h'] & -> & Hin%elem_of_range). by exists n.
  - intros [n Hn]. exists (n, h). by rewrite elem_of_range.
Qed.

(** A copy of a map from names is that map. *)
Lemma deepCopy_named m : named m -> deepCopyHardwareConfigMap m = m.
Proof.
  intros Hm. apply map_eq. intros n. unfold deepCopyHardwareConfigMap.
  assert (NoDup (hwName <$> (range m).*2)) as Hd by (rewrite range_names by done; apply NoDup_range).
  destruct (m !! n) as [h|] eqn:E.
  - rewrite <- (Hm n h E). apply slice_in; [done|]. apply elem_of_values. by exists n.
  - apply slice_None. rewrite range_names by done. intros ([n' h] & -> & Hin%elem_of_range)%list_elem_of_fmap. cbn in E. congruence.
Qed.

Lemma deepCopy_slice l : deepCopyHardwareConfigMap (sliceToHardwareConfigMap l) = sliceToHardwareConfigMap l.
Proof. apply deepCopy_named, named_slice. Qed.

(** ** What changed *)

(** The configuration [h], named [n], is new or has another specification, or is gone. *)
Definition changed (old new : gmap string HardwareConfig) (n : string) (h : HardwareConfig) : Prop :=
  match new !! n with Some h' => h' = h /\ spec <$> old !! n <> Some (spec h) | None => old !! n = Some h end.

Lemma changed_differs old new n h : changed old new n h -> spec <$> old !! n <> spec <$> new !! n.
Proof. unfold changed. destruct (new !! n); [by intros [<- ?]|by intros ->]. Qed.

Lemma differs_changed old new n : spec <$> old !! n <> spec <$> new !! n -> exists h, changed old new n h.
Proof.
  unfold changed. destruct (new !! n) as [h|]; [intros Hne; by exists h|]. destruct (old !! n) as [h|]; [intros _; by exists h|by cbn].
Qed.

Lemma AllChanged_spec old new h : named old -> NoDup (hwName <$> new) ->
  h ∈ AllChanged (diffHardwareConfigs old new) <-> exists n, changed old (sliceToHardwareConfigMap new) n h.
Proof.
  intros Ho Hn. unfold AllChanged, diffHardwareConfigs. cbn. rewrite !elem_of_app, !list_elem_of_In, !filter_In, <- !list_elem_of_In.
  unfold is_added, is_modified. rewrite elem_of_values. split.
  - intros [[Hin E]|[[[n Hin] E]|[Hin E]]].
    + apply bool_decide_eq_true in E. exists (hwName h). unfold changed. by rewrite slice_in, E.
    + apply bool_decide_eq_true in E. exists n. unfold changed. rewrite (Ho n h Hin) in E. by rewrite E.
    + exists (hwName h). unfold changed. rewrite slice_in by done. split; [done|]. destruct (old !! hwName h) as [o|]; [|done].
      apply negb_true_iff, bool_decide_eq_false in E. intros Es%(inj Some). done.
  - intros [n Hc]. unfold changed in Hc. destruct (sliceToHardwareConfigMap new !! n) as [h'|] eqn:E.
    + destruct Hc as [-> Hs]. apply slice_Some in E as [Hin <-]. destruct (old !! hwName h) as [o|] eqn:Eo.
      * right; right. split; [done|]. apply negb_true_iff, bool_decide_eq_false. intros Es. apply Hs. cbn. by rewrite Es.
      * left. split; [done|]. by apply bool_decide_eq_true.
    + right; left. split; [by exists n|]. apply bool_decide_eq_true. by rewrite (Ho n h Hc).
Qed.

Lemma HasChanges_spec d : HasChanges d = true <-> exists h, h ∈ AllChanged d.
Proof.
  unfold HasChanges, AllChanged. destruct d as [[|x a] [|y b] [|z c]]; cbn; split; intros He; try done; try (by eexists; left);
    try by destruct He as [? ?%elem_of_nil].
Qed.

Lemma unchanged old new : named old -> NoDup (hwName <$> new) ->
  HasChanges (diffHardwareConfigs old new) = false -> forall n, spec <$> old !! n = spec <$> sliceToHardwareConfigMap new !! n.
Proof.
  intros Ho Hn E n. destruct (decide (spec <$> old !! n = spec <$> sliceToHardwareConfigMap new !! n)) as [|Hne]; [done|].
  apply differs_changed in Hne as [h Hc]. assert (HasChanges (diffHardwareConfigs old new) = true); [|congruence].
  apply HasChanges_spec. exists h. apply AllChanged_spec; [done..|]. by exists n.
Qed.

Lemma has_changed old new : named old -> NoDup (hwName <$> new) ->
  HasChanges (diffHardwareConfigs old new) = true <-> exists n, spec <$> old !! n <> spec <$> sliceToHardwareConfigMap new !! n.
Proof.
  intros Ho Hn. rewrite HasChanges_spec. split.
  - intros [h (n & Hc)%AllChanged_spec]; [|done..]. exists n. by eapply changed_differs.
  - intros (n & [h Hc]%differs_changed). exists h. apply AllChanged_spec; [done..|]. by exists n.
Qed.

(** ** What is in force *)

(** The list of the last update that succeeded, among effects and before them. *)
Fixpoint last_given (effs : list effect) (given : list HardwareConfig) : list HardwareConfig :=
  match effs with [] => given | Updated l :: effs' => last_given effs' l | _ :: effs' => last_given effs' given end.

(** The daemon runs [given], and that is what the controller compares with. *)
Record in_force (r : Reconciler) (given : list HardwareConfig) : Prop := {
  if_names : NoDup (hwName <$> given);
  if_last : lastAppliedConfigs r = sliceToHardwareConfigMap given;
  if_daemon : exists d, HardwareConfigHandler r = Some d /\ map identity (GetCurrentHardwareConfigs d) = map identity given
}.

(** Two sets of configurations with the same specification under each name. *)
Definition same_specs (l l' : list HardwareConfig) : Prop :=
  forall n, spec <$> sliceToHardwareConfigMap l !! n = spec <$> sliceToHardwareConfigMap l' !! n.

Definition well_named (env : Env) : Prop := forall items, listed env = Some items -> NoDup (hwName <$> items).

(** The configurations of this node, as the cluster has them. *)
Definition wanted (env : Env) : list HardwareConfig := calculateNodeHardwareConfigs (active env) (default [] (listed env)).

Lemma sync_effects env current l given : last_given (sync_each env current l).1 given = given.
Proof.
  induction l as [|h l IH]; [done|]. cbn. destruct (current !! hwName h); [|done]. destruct (latest env (hwName h)); [|done].
  case_bool_decide; [done|]. destruct (accepts _ _ _); [|done]. destruct (sync_each env current l). done.
Qed.

Lemma sync_status env current l x : x ∈ (sync_each env current l).1 ->
  exists h c b, h ∈ l /\ current !! hwName h = Some c /\ x = StatusUpdate (hwName h) (StatusSources c) b.
Proof.
  induction l as [|h l IH]; [by intros ?%elem_of_nil|]. cbn.
  assert (x ∈ (sync_each env current l).1 -> exists h' c b, h' ∈ h :: l /\ current !! hwName h' = Some c /\ x = StatusUpdate (hwName h') (StatusSources c) b) as IH'.
  { intros (h' & c & b & ? & ?)%IH. exists h', c, b. split; [by right|done]. }
  destruct (current !! hwName h) as [c|] eqn:Ec; [|exact IH']. destruct (latest env (hwName h)); [|by intros ?%elem_of_nil].
  case_bool_decide; [exact IH'|]. destruct (accepts _ _ _).
  - destruct (sync_each env current l). intros [->|?]%elem_of_cons; [|by apply IH']. exists h, c, true. split; [left|done].
  - intros ->%list_elem_of_singleton. exists h, c, false. split; [left|done].
Qed.

(** Statuses that were written, or found as they are. *)
Lemma sync_complete env current l : (sync_each env current l).2 = true ->
  forall h c, h ∈ l -> current !! hwName h = Some c ->
  exists now, latest env (hwName h) = Some now /\
    (StatusSources now = StatusSources c \/ StatusUpdate (hwName h) (StatusSources c) true ∈ (sync_each env current l).1).
Proof.
  induction l as [|x l IH]; [by intros _ ? ? ?%elem_of_nil|]. cbn. intros Hok h c.
  destruct (current !! hwName x) as [cx|] eqn:Ex.
  - destruct (latest env (hwName x)) as [now|] eqn:El; [|done]. case_bool_decide as Es.
    + intros [->|Hin]%elem_of_cons Hc; [|by apply IH]. exists now. split; [done|]. left. congruence.
    + destruct (accepts _ _ _); [|done]. destruct (sync_each env current l) as [effs ok]. cbn in *.
      intros [->|Hin]%elem_of_cons Hc.
      * exists now. split; [done|]. right. rewrite Ex in Hc. injection Hc as <-. left.
      * destruct (IH Hok h c Hin Hc) as (n & ? & Hn). exists n. split; [done|]. destruct Hn; [by left|right; by right].
  - intros [->|Hin]%elem_of_cons Hc; [congruence|by apply IH].
Qed.

Lemma NoDup_wanted env : well_named env -> NoDup (hwName <$> wanted env).
Proof.
  intros Hw. unfold wanted. destruct (listed env) as [items|] eqn:E; [|constructor]. specialize (Hw items E). cbn. clear E.
  unfold calculateNodeHardwareConfigs. induction items as [|h l IH]; [constructor|]. cbn in *. apply NoDup_cons in Hw as [Hh Hl].
  destruct (applicable _ h); [|by apply IH]. cbn. apply NoDup_cons. split; [|by apply IH]. intros (x & E & Hx%list_elem_of_In%filter_In)%list_elem_of_fmap.
  apply Hh. rewrite E. apply list_elem_of_fmap_2, list_elem_of_In. apply Hx.
Qed.

(** The outcomes of a reconciliation that saw the resources. *)
Inductive outcome_of (env : Env) (r : Reconciler) (given : list HardwareConfig) : result * list effect * Reconciler -> Prop :=
| Unchanged res effs :
    same_specs given (wanted env) -> (effs, res) = syncHardwareConfigStatuses env r (wanted env) ->
    outcome_of env r given (if res then Done else Failed, effs, r)
| Applied r' before res effs :
    ~ same_specs given (wanted env) -> in_force r' (wanted env) -> (effs, res) = syncHardwareConfigStatuses env r' (wanted env) ->
    (before = [] \/ before = [TriggerRestart]) ->
    (before = [TriggerRestart] <-> wanted env <> [] /\
      checkIfChangedConfigsAffectActiveProfiles (active_later env) (diffHardwareConfigs (sliceToHardwareConfigMap given) (wanted env)) = true) ->
    outcome_of env r given (if res then Done else Failed, Updated (wanted env) :: before ++ effs, r')
| Rejected r' d d' :
    ~ same_specs given (wanted env) -> wanted env <> [] -> HardwareConfigHandler r = Some d ->
    GetCurrentHardwareConfigs d' = GetCurrentHardwareConfigs d -> r' = r <| HardwareConfigHandler := Some d' |> ->
    outcome_of env r given (RequeueAfter backoffTime, recordUpdateFailure env (wanted env), r')
| ClearRejected r' d d' :
    ~ same_specs given [] -> wanted env = [] -> HardwareConfigHandler r = Some d ->
    GetCurrentHardwareConfigs d' = GetCurrentHardwareConfigs d -> r' = mkReconciler (Some d') ∅ ->
    outcome_of env r given (RequeueAfter backoffTime, [], r')
| Crashed r' d d' :
    ~ same_specs given (wanted env) -> HardwareConfigHandler r = Some d ->
    GetCurrentHardwareConfigs d' = GetCurrentHardwareConfigs d -> r' = mkReconciler (Some d') (sliceToHardwareConfigMap (wanted env)) ->
    outcome_of env r given (Panicked, [], r').

Lemma reconcile_outcome env r given items :
  in_force r given -> well_named env -> listed env = Some items -> outcome_of env r given (reconcileAllConfigs env r).
Proof.
  intros Hf Hw El. pose proof (NoDup_wanted env Hw) as Hn. unfold reconcileAllConfigs. rewrite El.
  assert (calculateNodeHardwareConfigs (active env) items = wanted env) as -> by (unfold wanted; by rewrite El).
  destruct Hf as [Hnd Hlast (d & Hd & Hcur)]. rewrite Hlast, deepCopy_slice.
  destruct (HasChanges _) eqn:Ec; cbn [negb].
  - assert (~ same_specs given (wanted env)) as Hne.
    { apply has_changed in Ec as [n Hne]; [|apply named_slice|done]. intros Hs. by apply Hne. }
    unfold update_handler. cbn. rewrite Hd. pose proof (update_spec (wanted env) d) as Hu.
    destruct (UpdateHardwareConfig (wanted env) d) as [o d'] eqn:Eu. cbn in Hu |- *.
    assert (o = Panic -> outcome_of env r given (Panicked, [], mkReconciler (Some d') (sliceToHardwareConfigMap (wanted env)))) as Hp.
    { intros ->. by eapply (Crashed _ _ _ _ d d'). }
    destruct (wanted env) as [|h l] eqn:Ew.
    + destruct o as [[]| |]; [| |by apply Hp].
      * pose proof (Applied env r given (mkReconciler (Some d') ∅) [] true []) as Ha. rewrite Ew in Ha. apply Ha; [done| |done|by left|by split; [|intros [? _]]].
        split; [done|done|]. by exists d'.
      * assert (recordUpdateFailure env [] = []) as -> by (unfold recordUpdateFailure; by destruct (has_recorder env)).
        by eapply (ClearRejected _ _ _ _ d d').
    + rewrite <- Ew in *. destruct o as [[]| |]; [| |by apply Hp].
      * unfold synced. destruct (syncHardwareConfigStatuses _ _ _) as [effs res] eqn:Es. cbn [updated HardwareConfigHandler].
        cbn [app].
        eapply (Applied _ _ _ _ _ res effs); [done| |symmetry; exact Es| |].
        -- split; [done|done|]. by exists d'.
        -- destruct (checkIfChangedConfigsAffectActiveProfiles _ _); [by right|by left].
        -- assert (wanted env <> []) by by rewrite Ew. destruct (checkIfChangedConfigsAffectActiveProfiles _ _); naive_solver.
      * rewrite deepCopy_slice. eapply (Rejected _ _ _ _ d d'); try done; [by rewrite Ew|]. destruct r as [? ?]. cbn in *. subst. by rewrite !deepCopy_slice.
  - unfold synced. destruct (syncHardwareConfigStatuses env r (wanted env)) as [effs res] eqn:Es. cbn [app].
    apply Unchanged; [|done]. unfold same_specs. by apply unchanged; [apply named_slice|..].
Qed.

(** ** Reachable controllers *)

(** A clear that failed, and an update that panicked, are remembered as applied. *)
Definition spoils (env : Env) (r : Reconciler) : bool :=
  match (reconcileAllConfigs env r).1.1 with
  | Panicked => true
  | RequeueAfter _ => bool_decide (wanted env = [])
  | _ => false
  end.

(** From the start of the controller on; [given] is what the daemon was last updated with.
    In between the daemon does what it does with the same configurations. *)
Inductive reached : Reconciler -> list HardwareConfig -> Prop :=
| ReachSetup d : NoDup (hwName <$> GetCurrentHardwareConfigs d) -> reached (SetupWithManager d) (GetCurrentHardwareConfigs d)
| ReachReconcile env r given : reached r given -> well_named env -> spoils env r = false ->
    reached (reconcileAllConfigs env r).2 (last_given (reconcileAllConfigs env r).1.2 given)
| ReachDaemon r d d' given : reached r given -> HardwareConfigHandler r = Some d ->
    map identity (GetCurrentHardwareConfigs d') = map identity (GetCurrentHardwareConfigs d) ->
    reached (r <| HardwareConfigHandler := Some d' |>) given.

Lemma sync_given env r l given effs res : (effs, res) = syncHardwareConfigStatuses env r l -> last_given effs given = given.
Proof.
  unfold syncHardwareConfigStatuses. destruct (HardwareConfigHandler r); [|by intros [= -> _]]. destruct l as [|h l]; [by intros [= -> _]|].
  intros E. pose proof (sync_effects env (sliceToHardwareConfigMap (GetCurrentHardwareConfigs d)) (h :: l) given) as Hs.
  by rewrite <- E in Hs.
Qed.

Lemma sync_no_update env r l l' effs res : (effs, res) = syncHardwareConfigStatuses env r l -> Updated l' ∈ effs -> False.
Proof.
  unfold syncHardwareConfigStatuses. destruct (HardwareConfigHandler r) as [d|]; [|by intros [= -> _] ?%elem_of_nil].
  destruct l as [|h l]; [by intros [= -> _] ?%elem_of_nil|]. intros E Hin. replace effs with (sync_each env (sliceToHardwareConfigMap (GetCurrentHardwareConfigs d)) (h :: l)).1 in Hin by by rewrite <- E.
  apply sync_status in Hin as (? & ? & ? & _ & _ & ?). done.
Qed.

Lemma failure_given env l given : last_given (recordUpdateFailure env l) given = given.
Proof.
  unfold recordUpdateFailure. destruct (has_recorder env); [|done]. induction l as [|h l IH]; [done|]. cbn.
  by destruct (latest env (hwName h)).
Qed.

Lemma handler_in_force r given d d' : in_force r given -> HardwareConfigHandler r = Some d ->
  map identity (GetCurrentHardwareConfigs d') = map identity (GetCurrentHardwareConfigs d) -> in_force (r <| HardwareConfigHandler := Some d' |>) given.
Proof. intros [Hn Hl (d0 & E & Hc)] Hd Hi. split; [done|done|]. exists d'. split; [done|]. congruence. Qed.

Lemma reached_in_force r given : reached r given -> in_force r given.
Proof.
  induction 1 as [d Hn|env r given _ IH Hw Hs|r d d' given _ IH Hd Hi].
  - split; [done|apply deepCopy_slice|]. by exists d.
  - destruct (listed env) as [items|] eqn:El; [|by unfold reconcileAllConfigs; rewrite El].
    pose proof (reconcile_outcome env r given items IH Hw El) as Ho. unfold spoils in Hs. revert Hs Ho.
    generalize (reconcileAllConfigs env r). intros x Hs Ho.
    destruct Ho as [res effs _ Es|r' before res effs _ Hf Es Hb _|r' d d' _ _ Hd Hc ->|r' d d' _ Hwd _ _ _|r' d d' _ _ _ _]; cbn in *.
    + by rewrite (sync_given _ _ _ _ _ _ Es).
    + assert (last_given (before ++ effs) (wanted env) = wanted env) as ->; [|done].
      rewrite <- (sync_given _ _ _ (wanted env) _ _ Es) at 2. by destruct Hb as [-> | ->].
    + rewrite failure_given. eapply handler_in_force; [done..|]. by rewrite Hc.
    + rewrite Hwd in Hs. done.
    + done.
  - by eapply handler_in_force.
Qed.

(** C28. The daemon follows the cluster.  In every state that reconciliations reach from the
    start, whatever the API server and the daemon answered, as long as no clear failed and
    no update panicked: a reconciliation that ends leaves the daemon, and what the
    controller compares with, on configurations with the specifications that the resources
    for this node have, and the daemon was updated only if some specification differs; one
    that is to be repeated leaves both as they were, so that it sees the difference again. *)
Theorem cluster_followed env r given :
  reached r given -> well_named env -> is_Some (listed env) -> spoils env r = false ->
  let '(res, effs, r') := reconcileAllConfigs env r in
  let now := last_given effs given in
  in_force r' now /\
  match res with
  | Done | Failed => same_specs now (wanted env) /\ forall l, Updated l ∈ effs -> l = wanted env /\ ~ same_specs given l
  | _ => now = given /\ ~ same_specs now (wanted env) /\ lastAppliedConfigs r' = lastAppliedConfigs r
  end.
Proof.
  intros Hr Hw [items El] Hs. pose proof (reached_in_force _ _ Hr) as Hf.
  pose proof (reached_in_force _ _ (ReachReconcile env r given Hr Hw Hs)) as Hf'.
  pose proof (reconcile_outcome env r given items Hf Hw El) as Ho. unfold spoils in Hs.
  revert Hs Ho Hf'. generalize (reconcileAllConfigs env r). intros [[res effs] r'] Hs Ho Hf'. cbv zeta. split; [exact Hf'|]. cbn in Hs. clear Hf'.
  inversion Ho as [ok effs' Hsame Es|r1 before ok effs' Hne _ Es Hb _|r1 d d' Hne Hwd Hd Hc|r1 d d' _ Hwd|r1 d d']; subst; clear Ho.
  - rewrite (sync_given _ _ _ _ _ _ Es). assert (forall l, Updated l ∈ effs -> l = wanted env /\ ~ same_specs given l) as Hu.
    { intros l Hin. by apply (sync_no_update _ _ _ _ _ _ Es) in Hin. }
    by destruct ok.
  - assert (last_given (Updated (wanted env) :: before ++ effs') given = wanted env) as ->.
    { cbn. rewrite <- (sync_given _ _ _ (wanted env) _ _ Es) at 2. by destruct Hb as [-> | ->]. }
    assert (forall l, Updated l ∈ Updated (wanted env) :: before ++ effs' -> l = wanted env /\ ~ same_specs given l) as Hu.
    { intros l [[= ->]|[Hin|Hin]%elem_of_app]%elem_of_cons; [done| |by apply (sync_no_update _ _ _ _ _ _ Es) in Hin].
      destruct Hb as [-> | ->]; [by apply elem_of_nil in Hin|by apply list_elem_of_singleton in Hin]. }
    by destruct ok.
  - by rewrite failure_given.
  - apply bool_decide_eq_false in Hs. done.
  - done.
Qed.

Lemma affects_spec act old new : named old -> NoDup (hwName <$> new) ->
  checkIfChangedConfigsAffectActiveProfiles act (diffHardwareConfigs old new) = true <->
  exists n h, changed old (sliceToHardwareConfigMap new) n h /\ applicable act h = true.
Proof.
  intros Ho Hn. assert (existsb (applicable act) (AllChanged (diffHardwareConfigs old new)) = true <->
    exists n h, changed old (sliceToHardwareConfigMap new) n h /\ applicable act h = true) as He.
  { rewrite existsb_exists. split.
    - intros (h & Hin%list_elem_of_In & Ha). apply AllChanged_spec in Hin as [n Hc]; [|done..]. by exists n, h.
    - intros (n & h & Hc & Ha). exists h. split; [|done]. apply list_elem_of_In, AllChanged_spec; [done..|]. by exists n. }
  destruct act as [|a act]; cbn [checkIfChangedConfigsAffectActiveProfiles].
  - split; [done|]. intros (n & h & _ & Ha). unfold applicable in Ha. by rewrite andb_false_r in Ha.
  - rewrite andb_true_iff, He. split; [by intros [_ ?]|]. intros (n & h & Hc & Ha). split; [|by exists n, h].
    apply HasChanges_spec. exists h. apply AllChanged_spec; [done..|]. by exists n.
Qed.

Lemma sync_no_restart env r l effs res : (effs, res) = syncHardwareConfigStatuses env r l -> TriggerRestart ∉ effs.
Proof.
  unfold syncHardwareConfigStatuses. destruct (HardwareConfigHandler r) as [d|]; [|by intros [= -> _] ?%elem_of_nil].
  destruct l as [|h l]; [by intros [= -> _] ?%elem_of_nil|]. intros E Hin. replace effs with (sync_each env (sliceToHardwareConfigMap (GetCurrentHardwareConfigs d)) (h :: l)).1 in Hin by by rewrite <- E.
  apply sync_status in Hin as (? & ? & ? & _ & _ & ?). done.
Qed.

Lemma failure_no_restart env l : TriggerRestart ∉ recordUpdateFailure env l.
Proof.
  unfold recordUpdateFailure. destruct (has_recorder env); [|by apply not_elem_of_nil]. rewrite list_elem_of_omap.
  intros (h & _ & E). by destruct (latest env (hwName h)).
Qed.

(** The PTP processes are restarted exactly when they have to be: when the daemon was
    updated with configurations of this node, and one that is new, gone, or has another
    specification belongs to a profile in force. *)
Theorem restarted_when_affected env r given :
  reached r given -> well_named env -> is_Some (listed env) ->
  TriggerRestart ∈ (reconcileAllConfigs env r).1.2 <->
  Updated (wanted env) ∈ (reconcileAllConfigs env r).1.2 /\ wanted env <> [] /\
  exists n h, changed (sliceToHardwareConfigMap given) (sliceToHardwareConfigMap (wanted env)) n h /\ applicable (active_later env) h = true.
Proof.
  intros Hr Hw [items El]. pose proof (reached_in_force _ _ Hr) as Hf.
  pose proof (reconcile_outcome env r given items Hf Hw El) as Ho.
  rewrite <- affects_spec by (apply named_slice || by apply NoDup_wanted).
  destruct Ho as [ok effs _ Es|r1 before ok effs _ _ Es Hb Hi|r1 d d' _ _ _ _ _|r1 d d' _ _ _ _ _|r1 d d' _ _ _ _]; cbn.
  - split; [by intros ?%(sync_no_restart _ _ _ _ _ Es)|]. by intros [?%(sync_no_update _ _ _ _ _ _ Es) _].
  - rewrite elem_of_cons, elem_of_app. pose proof (sync_no_restart _ _ _ _ _ Es) as Hn. split.
    + intros [?|[Ht|?]]; [done| |done]. split; [left|]. apply Hi. destruct Hb as [-> | ->]; [by apply elem_of_nil in Ht|done].
    + intros [_ ->%Hi]. right; left. by apply list_elem_of_singleton.
  - split; [by intros ?%failure_no_restart|]. intros [Hu _]. exfalso. unfold recordUpdateFailure in Hu. destruct (has_recorder env); [|by apply elem_of_nil in Hu].
    apply list_elem_of_omap in Hu as (h & _ & E). by destruct (latest env (hwName h)).
  - split; [by intros ?%elem_of_nil|]. by intros [?%elem_of_nil _].
  - split; [by intros ?%elem_of_nil|]. by intros [?%elem_of_nil _].
Qed.

(** The status of a source reaches the cluster: when a reconciliation ends without an error,
    the resource of every configuration of this node that the daemon runs has the statuses
    the daemon holds, because it had them or because they were written. *)
Lemma statuses_written env r given :
  reached r given -> well_named env -> is_Some (listed env) -> (reconcileAllConfigs env r).1.1 = Done ->
  exists d, HardwareConfigHandler (reconcileAllConfigs env r).2 = Some d /\
  forall h c, h ∈ wanted env -> sliceToHardwareConfigMap (GetCurrentHardwareConfigs d) !! hwName h = Some c ->
  exists now, latest env (hwName h) = Some now /\
    (StatusSources now = StatusSources c \/ StatusUpdate (hwName h) (StatusSources c) true ∈ (reconcileAllConfigs env r).1.2).
Proof.
  intros Hr Hw [items El] Hd. pose proof (reached_in_force _ _ Hr) as Hf.
  assert (forall r1 l0 effs, in_force r1 l0 ->
    (effs, true) = syncHardwareConfigStatuses env r1 (wanted env) ->
    exists d, HardwareConfigHandler r1 = Some d /\ forall h c, h ∈ wanted env -> sliceToHardwareConfigMap (GetCurrentHardwareConfigs d) !! hwName h = Some c ->
    exists now, latest env (hwName h) = Some now /\ (StatusSources now = StatusSources c \/ StatusUpdate (hwName h) (StatusSources c) true ∈ effs)) as Hs.
  { intros r1 l0 effs [_ _ (d & Ed & _)] Es. exists d. split; [done|]. unfold syncHardwareConfigStatuses in Es. rewrite Ed in Es.
    destruct (wanted env) as [|h0 l]; [by intros h c ?%elem_of_nil|]. intros h c Hin Hc.
    destruct (sync_complete env (sliceToHardwareConfigMap (GetCurrentHardwareConfigs d)) (h0 :: l)) with (h := h) (c := c) as (now & ? & Hn);
      [by rewrite <- Es|done|done|]. rewrite <- Es in Hn. by exists now. }
  pose proof (reconcile_outcome env r given items Hf Hw El) as Ho. revert Hd Ho. generalize (reconcileAllConfigs env r). intros x Hd Ho.
  destruct Ho as [ok effs Hsame Es|r1 before ok effs Hne Hf1 Es Hb _|r1 d d' _ _ _ _ _|r1 d d' _ _ _ _ _|r1 d d' _ _ _ _]; cbn in *; try done.
  - destruct ok; [|done]. by eapply Hs.
  - destruct ok; [|done]. destruct (Hs r1 _ effs Hf1 Es) as (d & Ed & Hall). exists d. split; [done|].
    intros h c Hin Hc. destruct (Hall h c Hin Hc) as (now & ? & Hn). exists now. split; [done|].
    destruct Hn as [|Hn]; [by left|right]. apply elem_of_cons. right. apply elem_of_app. by right.
Qed.

End Controller.

(** ** Separation *)

Definition related_profiles (l : list HardwareConfig) : list string := List.filter (fun p => negb (str_eqb p "")) (RelatedPtpProfileName <$> l).
Definition subsystem_keys (l : list HardwareConfig) : list string := l ≫= (fun h => subsystemKey <$> subsystems h).

(** Keys that are new to a map, and the map with them. *)
Definition fresh_keys (ks : list string) (seen : gmap string string) : Prop := NoDup ks /\ forall k, k ∈ ks -> seen !! k = None.
Definition with_keys (ks : list string) (seen seen' : gmap string string) : Prop := forall k, seen' !! k = None <-> seen !! k = None /\ k ∉ ks.

Lemma fresh_cons k ks seen v : seen !! k = None -> fresh_keys (k :: ks) seen <-> fresh_keys ks (<[k := v]> seen).
Proof.
  intros Hk. unfold fresh_keys. rewrite NoDup_cons. split.
  - intros [[Hn Hd] Hf]. split; [done|]. intros k' Hk'. rewrite lookup_insert_ne; [by apply Hf; right|]. intros ->. done.
  - intros [Hd Hf]. split; [split; [|done]|].
    + intros Hin. specialize (Hf k Hin). by rewrite lookup_insert_eq in Hf.
    + intros k' [->|Hin]%elem_of_cons; [done|]. by apply Hf, lookup_insert_None in Hin as [? _].
Qed.

Lemma with_keys_cons k ks seen seen' v : with_keys ks (<[k := v]> seen) seen' -> with_keys (k :: ks) seen seen'.
Proof. intros Hw k'. rewrite (Hw k'), lookup_insert_None, not_elem_of_cons. naive_solver. Qed.

Lemma claim_subsystems_spec name l : forall seen,
  match claim_subsystems name l seen with
  | inl _ => ~ fresh_keys (subsystemKey <$> l) seen
  | inr seen' => fresh_keys (subsystemKey <$> l) seen /\ with_keys (subsystemKey <$> l) seen seen'
  end.
Proof.
  induction l as [|s l IH]; intros seen; cbn [claim_subsystems fmap list_fmap].
  - split; [split; [constructor|by intros ? ?%elem_of_nil]|]. intros k. split; [by intros ?; split; [|apply not_elem_of_nil]|by intros [? _]].
  - destruct (seen !! subsystemKey s) as [other|] eqn:E.
    + intros [_ Hf]. rewrite (Hf (subsystemKey s)) in E; [done|left].
    + specialize (IH (<[subsystemKey s := name]> seen)). destruct (claim_subsystems name l _); rewrite (fresh_cons _ _ _ name E); [done|].
      destruct IH as [? ?]. split; [done|]. by eapply with_keys_cons.
Qed.

Lemma fresh_app ks ks' seen seen' : fresh_keys ks seen -> with_keys ks seen seen' -> fresh_keys (ks ++ ks') seen <-> fresh_keys ks' seen'.
Proof.
  intros [Hd Hf] Hw. unfold fresh_keys. rewrite NoDup_app. split.
  - intros [(_ & Hx & Hd') Hall]. split; [done|]. intros k Hk. apply Hw. split; [apply Hall, elem_of_app; by right|]. intros Hin. by apply (Hx k).
  - intros [Hd' Hall]. split; [split; [done|split; [|done]]|].
    + intros k Hk Hk'. by apply Hall, Hw in Hk' as [_ ?].
    + intros k [Hk|Hk]%elem_of_app; [by apply Hf|]. by apply Hall, Hw in Hk as [? _].
Qed.

Lemma claims_spec l : forall profiles seen,
  claims l profiles seen = None <-> fresh_keys (related_profiles l) profiles /\ fresh_keys (subsystem_keys l) seen.
Proof.
  induction l as [|h l IH]; intros profiles seen; cbn [claims].
  { split; [|done]. intros _. by split; (split; [constructor|intros ? ?%elem_of_nil]). }
  unfold related_profiles, subsystem_keys. cbn [fmap list_fmap List.filter mbind list_bind].
  change (l ≫= (fun h => subsystemKey <$> subsystems h)) with (subsystem_keys l). fold (related_profiles l).
  pose proof (claim_subsystems_spec (hwName h) (subsystems h) seen) as Hc.
  assert (forall P : Prop, match claim_subsystems (hwName h) (subsystems h) seen with inl _ => False | inr seen' => P /\ fresh_keys (subsystem_keys l) seen' end <->
    P /\ fresh_keys ((subsystemKey <$> subsystems h) ++ subsystem_keys l) seen) as Hk.
  { intros P. destruct (claim_subsystems _ _ _) as [c|seen'].
    - split; [done|]. intros [_ [Hd Hf]]. apply Hc. apply NoDup_app in Hd as (? & _ & _). split; [done|]. intros k Hin. apply Hf, elem_of_app. by left.
    - destruct Hc as [Hf Hw]. by rewrite (fresh_app _ _ _ _ Hf Hw). }
  destruct (str_eqb (RelatedPtpProfileName h) "") eqn:Ee; cbn [negb].
  - rewrite <- Hk. destruct (claim_subsystems _ _ _) as [c|seen']; [done|apply IH].
  - destruct (profiles !! RelatedPtpProfileName h) as [other|] eqn:Ep.
    + split; [done|]. intros [[_ Hf] _]. rewrite (Hf (RelatedPtpProfileName h)) in Ep; [done|left].
    + rewrite (fresh_cons _ _ _ (hwName h) Ep), <- Hk. destruct (claim_subsystems _ _ _) as [c|seen']; [done|apply IH].
Qed.

(** Configurations are separate exactly when no profile and no subsystem is named twice. *)
Lemma separation_checked l :
  validateHardwareConfigSeparation l = None <-> NoDup (related_profiles l) /\ NoDup (subsystem_keys l).
Proof.
  unfold validateHardwareConfigSeparation. rewrite claims_spec. unfold fresh_keys. split; [by intros [[? _] [? _]]|].
  intros [? ?]. by split; split.
Qed.

(** ** The manager of the daemon *)

#[export, refine] Instance manager_handler `{MapOrder} `{HwState.Env} `{PinMerge.Growth} : HardwareConfigUpdateHandler HwState.Manager :=
  {| UpdateHardwareConfig := HwManager.UpdateHardwareConfig; GetCurrentHardwareConfigs := HwManager.CloneHardwareConfigs |}.
Proof.
  intros l d. pose proof (update_commits l d) as Hu. cbn zeta in Hu. destruct (HwManager.UpdateHardwareConfig l d) as [[[]| |] d']; cbn in *.
  - apply Hu.
  - unfold HwManager.CloneHardwareConfigs. by rewrite (proj1 Hu).
  - unfold HwManager.CloneHardwareConfigs. by rewrite (proj1 Hu).
Defined.

(** ** Changes of the profiles *)

Definition profileChangeDebounceInterval : Z := 500 * 1000000.

(** The event of the file watcher that loads the profiles and triggers a reconciliation. *)
Definition handleFileEvents (profileDir nodeName : string) (name : string) (written : bool) : bool :=
  Mgr.has_suffix nodeName name && written && str_eqb name (Paths.Join [profileDir; nodeName]).

(** The timers of [triggerReconciliationForProfileChangeInternal]: those that wait, those
    whose function runs, the one that is remembered, and whether a trigger is not followed
    by the start of a reconciliation yet.  The function of a timer forgets the remembered
    timer when it ends, without the lock. *)
Record Debounce := mkDebounce { pending : list nat; running : list nat; profileChangeTimer : option nat; next : nat; unserved : bool }.

#[export] Instance Debounce_fields : Fields Debounce := fun d => mkDebounce (pending d) (running d) (profileChangeTimer d) (next d) (unserved d).

Definition no_timers : Debounce := mkDebounce [] [] None 0 false.

Definition stopped (d : Debounce) : list nat :=
  match profileChangeTimer d with Some i => List.filter (fun j => negb (j =? i)%nat) (pending d) | None => pending d end.

Definition trigger (d : Debounce) : Debounce := mkDebounce (stopped d ++ [next d]) (running d) (Some (next d)) (S (next d)) true.

Definition fire (i : nat) (d : Debounce) : Debounce :=
  d <| pending := List.filter (fun j => negb (j =? i)%nat) (pending d) |> <| running := running d ++ [i] |> <| unserved := false |>.

Definition finish (i : nat) (d : Debounce) : Debounce :=
  d <| running := List.filter (fun j => negb (j =? i)%nat) (running d) |> <| profileChangeTimer := None |>.

Inductive debounce_step (d : Debounce) : Debounce -> Prop :=
| Trigger : debounce_step d (trigger d)
| Fire i : i ∈ pending d -> debounce_step d (fire i d)
| Finish i : i ∈ running d -> debounce_step d (finish i d).

Inductive debounced : Debounce -> Prop :=
| DebounceStart : debounced no_timers
| DebounceStep d d' : debounced d -> debounce_step d d' -> debounced d'.

(** No change is lost: after every trigger a timer waits until a reconciliation starts. *)
Lemma trigger_served d : debounced d -> unserved d = true -> pending d <> [].
Proof.
  induction 1 as [|d d' _ IH Hs]; [done|]. destruct Hs as [|i Hi|i Hi]; cbn; [|done|exact IH].
  intros _ E. by apply (f_equal length) in E; rewrite length_app, Nat.add_comm in E.
Qed.

(** When the timers that wait are the remembered one, a trigger leaves its own alone. *)
Lemma one_timer d : (forall i, i ∈ pending d -> profileChangeTimer d = Some i) -> forall i, i ∈ pending (trigger d) -> i = next d.
Proof.
  intros Ht i. cbn. unfold stopped. destruct (profileChangeTimer d) as [t|] eqn:E.
  - intros [[Hin Hne]%list_elem_of_In%filter_In|?%list_elem_of_singleton]%elem_of_app; [|done].
    apply list_elem_of_In, Ht in Hin as [= ->]. by rewrite Nat.eqb_refl in Hne.
  - intros [Hin|?%list_elem_of_singleton]%elem_of_app; [|done]. by apply Ht in Hin.
Qed.

(** A trigger during a reconciliation is forgotten by the end of it: the timer is not
    stopped by the next trigger, and both fire. *)
Lemma timer_forgotten : exists d, debounced d /\ running d = [] /\ length (pending d) = 2%nat.
Proof.
  exists (trigger (finish 0 (trigger (fire 0 (trigger no_timers))))). split; [|done].
  repeat (eapply DebounceStep; [|first [apply Trigger|apply Fire; left|apply Finish; left]]). constructor.
Qed.

(** ** Examples *)

#[local] Existing Instance some_order.

(** A daemon that gives the answers of a script. *)
Definition Script : Type := list (outcome unit) * list HardwareConfig.

#[export, refine] Instance scripted : HardwareConfigUpdateHandler Script :=
  {| UpdateHardwareConfig l d := match d.1 with Ok _ :: s => (Ok tt, (s, l)) | o :: s => (o, (s, d.2)) | [] => (Ok tt, ([], l)) end;
     GetCurrentHardwareConfigs := snd |}.
Proof. by intros l [[|[[]| |] s] cur]. Defined.

Definition config (name related clock : string) : HardwareConfig := mkConfig name (mkHwProfile None (Some clock) None) related [].

Definition cluster (l : list HardwareConfig) : Env := mkEnv (Some l) ["tbc_p1"%string] ["tbc_p1"%string] (fun n => Some (config n "" "")) (fun _ _ => true) true.

Definition ex_daemon (answers : list (outcome unit)) : Reconciler := SetupWithManager (D := Script) (answers, []).

Lemma ex_reached answers : reached (ex_daemon answers) [].
Proof. exact (ReachSetup (D := Script) (answers, []) (NoDup_nil_2)). Qed.

Lemma cluster_followed_witness :
  let env := cluster [config "a" "p1" "T-BC"; config "b" "p2" "T-BC"] in
  reconcileAllConfigs env (ex_daemon [Err]) = (RequeueAfter backoffTime, [FailureEvent "a"], ex_daemon []) /\
  (reconcileAllConfigs env (ex_daemon [])).1 = (Done, [Updated [config "a" "p1" "T-BC"]; TriggerRestart]) /\
  in_force (reconcileAllConfigs env (ex_daemon [])).2 [config "a" "p1" "T-BC"].
Proof.
  cbv zeta. split; [vm_compute; reflexivity|]. split; [vm_compute; reflexivity|].
  pose proof (cluster_followed (cluster [config "a" "p1" "T-BC"; config "b" "p2" "T-BC"]) (ex_daemon []) []) as Hc.
  destruct (reconcileAllConfigs _ (ex_daemon [])) as [[res effs] r'] eqn:E.
  assert (effs = [Updated [config "a" "p1" "T-BC"]; TriggerRestart]) as Ee by (vm_compute in E; by injection E).
  rewrite Ee in Hc. apply Hc; [apply ex_reached| |done|vm_compute; reflexivity].
  intros items [= <-]. by apply (bool_decide_unpack _).
Defined.

Lemma restarted_when_affected_witness :
  TriggerRestart ∈ (reconcileAllConfigs (cluster [config "a" "p1" "T-BC"]) (ex_daemon [])).1.2.
Proof.
  apply (restarted_when_affected (cluster [config "a" "p1" "T-BC"]) (ex_daemon []) []); [apply ex_reached| |done|].
  - intros items [= <-]. by apply (bool_decide_unpack _).
  - split; [vm_compute; left|]. split; [done|]. exists "a"%string, (config "a" "p1" "T-BC"). split; [by vm_compute|vm_compute; reflexivity].
Defined.

(** ** What goes wrong *)

Definition one : Env := cluster [config "a" "p1" "T-BC"].
Definition none : Env := cluster [].

(** A clear that fails is not tried again: the daemon keeps the configuration although the
    cluster has none, and the next reconciliation sees no difference. *)
Lemma failed_clear_forgotten :
  let r1 := (reconcileAllConfigs one (ex_daemon [Ok tt; Err])).2 in
  let '(res2, _, r2) := reconcileAllConfigs none r1 in
  let '(res3, effs3, r3) := reconcileAllConfigs none r2 in
  res2 = RequeueAfter backoffTime /\ res3 = Done /\ effs3 = [] /\ HardwareConfigHandler r3 = Some ([], [config "a" "p1" "T-BC"]).
Proof. vm_compute. done. Qed.

(** After a panic, which the controller survives, the configuration counts as applied. *)
Lemma panic_counts_as_applied :
  let '(res, _, r1) := reconcileAllConfigs one (ex_daemon [Panic]) in
  let '(res2, effs2, r2) := reconcileAllConfigs one r1 in
  res = Panicked /\ res2 = Done /\ effs2 = [] /\ HardwareConfigHandler r2 = Some ([], []).
Proof. vm_compute. done. Qed.

(** The last configuration of a profile in force is removed without a restart. *)
Lemma last_removed_without_restart :
  (reconcileAllConfigs none (reconcileAllConfigs one (ex_daemon [])).2).1 = (Done, [Updated []]).
Proof. vm_compute. done. Qed.

(** Configurations that validation rejects are applied all the same. *)
Lemma conflict_applied :
  let l := [config "a" "p1" "T-BC"; config "b" "p1" "T-GM"] in
  validateHardwareConfigSeparation l = Some (SharedProfile "p1" "a" "b") /\ Updated l ∈ (reconcileAllConfigs (cluster l) (ex_daemon [])).1.2.
Proof. split; [vm_compute; reflexivity|vm_compute; left]. Qed.

(** Profiles without a prefix, as the PtpConfig controller passes them on, match no
    configuration. *)
Lemma unprefixed_profile_ignored : calculateNodeHardwareConfigs ["p1"%string] [config "a" "p1" "T-BC"] = [].
Proof. vm_compute. done. Qed.

End HwController.
