(* ===== verification/PtpController.v ===== *)
(** * pkg/controller: the profiles of this node

    ptpconfig_controller.go: the profiles that the recommendations of all PtpConfig
    resources select for this node, and their way into the configuration of the daemon
    (Conf.v).  The resources and the labels of the node, as the API server gives them, are
    arguments; so is the JSON text of a list of profiles, of which is used that it is read
    back. *)

From S2P Require Import Prelude Conf PtpConfig HwTypes.
From Stdlib Require Import Ascii.

#[local] Open Scope Z_scope.

Module PtpController.

Import Hw.
#[local] Open Scope outcome_scope.

(** ** The resources *)

Record MatchRule := mkRule { NodeLabel : option string; NodeName : option string }.
Record PtpRecommend := mkRecommend { rProfile : option string; rPriority : option Z; rMatch : list MatchRule }.
Record PtpConfigResource := mkResource { cProfiles : list PtpConfig.PtpProfile; cRecommend : list PtpRecommend }.

(** ** The profiles of a node *)

Definition rule_matches (nodeName : string) (nodeLabels : gmap string string) (rule : MatchRule) : bool :=
  match NodeName rule with Some name => str_eqb name nodeName | None => false end
  || match NodeLabel rule with Some label => bool_decide (is_Some (nodeLabels !! label)) | None => false end.

Definition anyRuleMatchesNode (rules : list MatchRule) (nodeName : string) (nodeLabels : gmap string string) : bool :=
  match rules with [] => true | _ => existsb (rule_matches nodeName nodeLabels) rules end.

(** The first profile of that name; the name of every profile before it is dereferenced. *)
Fixpoint find_profile (name : string) (profiles : list PtpConfig.PtpProfile) : outcome (option PtpConfig.PtpProfile) :=
  match profiles with
  | [] => Ok None
  | p :: profiles' => n <-! deref (PtpConfig.Name p); if str_eqb n name then Ok (Some p) else find_profile name profiles'
  end.

Definition matchedRecommendation : Type := Z * PtpConfig.PtpProfile.

Definition match_recommend (nodeName : string) (labels : gmap string string) (c : PtpConfigResource) (r : PtpRecommend) :
    outcome (list matchedRecommendation) :=
  if anyRuleMatchesNode (rMatch r) nodeName labels then
    match rProfile r with
    | Some name => p <-! find_profile name (cProfiles c); Ok (match p with Some p => [(default 0 (rPriority r), p)] | None => [] end)
    | None => Ok []
    end
  else Ok [].

Definition all_matches (nodeName : string) (labels : gmap string string) (configs : list PtpConfigResource) : outcome (list matchedRecommendation) :=
  found <-! omapM (fun c => found <-! omapM (match_recommend nodeName labels c) (cRecommend c); Ok (concat found)) configs;
  Ok (concat found).

(** The profiles of the highest priority. *)
Definition select (matches : list matchedRecommendation) : list PtpConfig.PtpProfile :=
  match matches with
  | [] => []
  | first :: _ =>
      let maxPriority := foldl (fun top m => if top <? m.1 then m.1 else top) first.1 matches in
      (List.filter (fun m => m.1 =? maxPriority) matches).*2
  end.

(** [labels] is [None] when the node cannot be read. *)
Definition calculateNodeProfiles (nodeName : string) (labels : option (gmap string string)) (configs : list PtpConfigResource) :
    outcome (list PtpConfig.PtpProfile) :=
  l <-! or_err labels; matches <-! all_matches nodeName l configs; Ok (select matches).

(** *** What is selected *)

(** The first profile with a name. *)
Definition first_named (name : string) (profiles : list PtpConfig.PtpProfile) (p : PtpConfig.PtpProfile) : Prop :=
  exists before after, profiles = before ++ p :: after /\ PtpConfig.Name p = Some name /\ Forall (fun q => PtpConfig.Name q <> Some name) before.

(** A recommendation is for this node when it has no rules, or one of them gives the name of
    the node or the key of one of its labels. *)
Definition chosen_for (nodeName : string) (labels : gmap string string) (r : PtpRecommend) : Prop :=
  rMatch r = [] \/
  exists rule, rule ∈ rMatch r /\
    (NodeName rule = Some nodeName \/ exists key value, NodeLabel rule = Some key /\ labels !! key = Some value).

Lemma chosen_iff nodeName labels r : anyRuleMatchesNode (rMatch r) nodeName labels = true <-> chosen_for nodeName labels r.
Proof.
  assert (forall rule, rule_matches nodeName labels rule = true <->
    (NodeName rule = Some nodeName \/ exists key value, NodeLabel rule = Some key /\ labels !! key = Some value)) as Hone.
  { intros [[key|] [name|]]; unfold rule_matches; cbn [NodeName NodeLabel]; rewrite orb_true_iff; unfold str_eqb;
      rewrite ?bool_decide_eq_true; unfold is_Some; naive_solver congruence. }
  unfold anyRuleMatchesNode, chosen_for. destruct (rMatch r) as [|rule rules] eqn:E; [split; [by left|done]|].
  rewrite existsb_exists. setoid_rewrite Hone. split.
  - intros (x & Hx%list_elem_of_In & H). right. by exists x.
  - intros [[=]|(x & Hx%list_elem_of_In & H)]. by exists x.
Qed.

(** [p] is the profile that a recommendation for this node names. *)
Definition matched (nodeName : string) (labels : gmap string string) (configs : list PtpConfigResource) (priority : Z) (p : PtpConfig.PtpProfile) : Prop :=
  exists c r name, c ∈ configs /\ r ∈ cRecommend c /\ chosen_for nodeName labels r /\ rProfile r = Some name /\
    priority = default 0 (rPriority r) /\ first_named name (cProfiles c) p.

(** Every profile has a name, as the API demands. *)
Definition all_named (configs : list PtpConfigResource) : Prop :=
  Forall (fun c => Forall (fun p => is_Some (PtpConfig.Name p)) (cProfiles c)) configs.

Lemma find_profile_spec name profiles : Forall (fun p => is_Some (PtpConfig.Name p)) profiles ->
  exists o, find_profile name profiles = Ok o /\ forall p, o = Some p <-> first_named name profiles p.
Proof.
  induction 1 as [|q l [n Hn] _ IH]; cbn [find_profile].
  - exists None. split; [done|]. intros p. split; [done|]. by intros ([|] & ? & ? & _).
  - rewrite Hn. cbn [obind deref]. unfold str_eqb. case_bool_decide as E.
    + subst n. exists (Some q). split; [done|]. intros p. split; [intros [= <-]; by exists [], l|].
      intros ([|x b] & a & [= -> ->] & _ & Hb); [done|]. by apply Forall_cons in Hb as [? _].
    + destruct IH as (o & -> & Ho). exists o. split; [done|]. intros p. rewrite Ho. split.
      * intros (b & a & -> & Hp & Hb). exists (q :: b), a. split; [done|]. split; [done|]. apply Forall_cons. split; [|done]. rewrite Hn. congruence.
      * intros ([|x b] & a & [= -> ->] & Hp & Hb); [congruence|]. exists b, a. by apply Forall_cons in Hb as [_ ?].
Qed.

(** What a fallible map collects, when every element succeeds with what [R] describes. *)
Lemma omapM_collect {A B} (f : A -> outcome (list B)) (R : A -> B -> Prop) (l : list A) :
  Forall (fun x => exists y, f x = Ok y /\ forall b, b ∈ y <-> R x b) l ->
  exists ys, omapM f l = Ok ys /\ forall b, b ∈ concat ys <-> exists x, x ∈ l /\ R x b.
Proof.
  induction 1 as [|x l (y & Hy & Hb) _ (ys & IH & IH')].
  - exists []. split; [done|]. intros b. split; [by intros ?%elem_of_nil|by intros (? & ?%elem_of_nil & _)].
  - exists (y :: ys). cbn. rewrite Hy, IH. split; [done|]. intros b. rewrite elem_of_app, Hb, IH'. split.
    + intros [?|(x' & ? & ?)]; [exists x; by split; [left|]|exists x'; by split; [right|]].
    + intros (x' & [->|?]%elem_of_cons & ?); [by left|right; by exists x'].
Qed.

Lemma match_recommend_spec nodeName labels c r : Forall (fun p => is_Some (PtpConfig.Name p)) (cProfiles c) ->
  exists y, match_recommend nodeName labels c r = Ok y /\ forall m, m ∈ y <->
    chosen_for nodeName labels r /\ exists name, rProfile r = Some name /\ m.1 = default 0 (rPriority r) /\ first_named name (cProfiles c) m.2.
Proof.
  intros Hn. setoid_rewrite <- chosen_iff. unfold match_recommend. destruct (anyRuleMatchesNode _ _ _); [|exists []; split; [done|]; intros m; split; [by intros ?%elem_of_nil|by intros [? _]]].
  destruct (rProfile r) as [name|]; [|exists []; split; [done|]; intros m; split; [by intros ?%elem_of_nil|by intros (_ & ? & ? & _)]].
  destruct (find_profile_spec name _ Hn) as (o & -> & Ho). cbn [obind]. eexists. split; [done|]. intros [prio p]. cbn. destruct o as [q|].
  - rewrite list_elem_of_singleton. split.
    + intros [= -> ->]. split; [done|]. exists name. split; [done|]. split; [done|]. by apply Ho.
    + intros (_ & ? & [= <-] & -> & Hp). apply Ho in Hp as [= ->]. done.
  - split; [by intros ?%elem_of_nil|]. intros (_ & ? & [= <-] & _ & Hp). by apply Ho in Hp.
Qed.

Lemma all_matches_spec nodeName labels configs : all_named configs ->
  exists ms, all_matches nodeName labels configs = Ok ms /\ forall m, m ∈ ms <-> matched nodeName labels configs m.1 m.2.
Proof.
  intros Hn. unfold all_matches.
  destruct (omapM_collect (fun c => obind (omapM (match_recommend nodeName labels c) (cRecommend c)) (fun found => Ok (concat found)))
    (fun c m => exists r name, r ∈ cRecommend c /\ chosen_for nodeName labels r /\ rProfile r = Some name /\
      m.1 = default 0 (rPriority r) /\ first_named name (cProfiles c) m.2) configs) as (ys & -> & Hys).
  - eapply Forall_impl; [exact Hn|]. intros c Hc. destruct (omapM_collect (match_recommend nodeName labels c) (fun r m =>
      chosen_for nodeName labels r /\ exists name, rProfile r = Some name /\ m.1 = default 0 (rPriority r) /\ first_named name (cProfiles c) m.2)
      (cRecommend c)) as (rs & -> & Hrs).
    + apply Forall_forall. intros r _. by apply match_recommend_spec.
    + cbn [obind]. eexists. split; [done|]. intros m. rewrite Hrs. naive_solver.
  - exists (concat ys). split; [done|]. intros m. rewrite Hys. unfold matched. naive_solver.
Qed.

Lemma top_priority (l : list matchedRecommendation) top :
  let t := foldl (fun top m => if top <? m.1 then m.1 else top) top l in
  top <= t /\ (forall m, m ∈ l -> m.1 <= t) /\ (t = top \/ exists m, m ∈ l /\ m.1 = t).
Proof.
  revert top. induction l as [|m l IH]; intros top; cbn; [split; [lia|]; split; [by intros ? ?%elem_of_nil|by left]|].
  destruct (IH (if top <? m.1 then m.1 else top)) as (H1 & H2 & H3). cbv zeta in *.
  set (t := foldl _ _ _) in *. destruct (Z.ltb_spec top m.1).
  - split; [lia|]. split; [by intros x [->|?]%elem_of_cons; [|apply H2]|]. right. destruct H3 as [->|(x & ? & ?)]; [exists m; by split; [left|]|exists x; by split; [right|]].
  - split; [lia|]. split; [intros x [->|?]%elem_of_cons; [lia|by apply H2]|]. destruct H3 as [->|(x & ? & ?)]; [by left|right; exists x; by split; [right|]].
Qed.

Lemma select_spec ms p : p ∈ select ms <-> exists prio, (prio, p) ∈ ms /\ forall m, m ∈ ms -> m.1 <= prio.
Proof.
  unfold select. destruct ms as [|first ms]; [split; [by intros ?%elem_of_nil|by intros (? & ?%elem_of_nil & _)]|].
  pose proof (top_priority (first :: ms) first.1) as Ht. cbv zeta in Ht. set (t := foldl _ _ _) in *. destruct Ht as (_ & Hle & Hin).
  assert (exists m, m ∈ first :: ms /\ m.1 = t) as (top & Htop & Et) by (destruct Hin as [E|?]; [exists first; by split; [left|]|done]).
  rewrite list_elem_of_fmap. split.
  - intros ([prio q] & -> & [Hq E]%list_elem_of_In%filter_In). cbn in E. apply Z.eqb_eq in E. subst prio. exists t. split; [by apply list_elem_of_In|done].
  - intros (prio & Hp & Hmax). exists (prio, p). split; [done|]. apply list_elem_of_In, filter_In. split; [by apply list_elem_of_In|]. cbn.
    apply Z.eqb_eq. specialize (Hle _ Hp). specialize (Hmax _ Htop). cbn in *. lia.
Qed.

(** C29. The profiles of a node.  When every profile has a name, as the API demands, and the
    node can be read, the calculation succeeds, and the profiles are exactly those that a
    recommendation for this node names, the first of that name in its resource, with the
    highest priority of all such recommendations.  A recommendation is for this node when it
    has no rules, or one of them gives the node's name or the key of one of its labels. *)
Theorem profiles_selected nodeName labels configs : all_named configs ->
  exists l, calculateNodeProfiles nodeName (Some labels) configs = Ok l /\
  forall p, p ∈ l <-> exists prio, matched nodeName labels configs prio p /\ forall prio' p', matched nodeName labels configs prio' p' -> prio' <= prio.
Proof.
  intros Hn. destruct (all_matches_spec nodeName labels configs Hn) as (ms & E & Hms). exists (select ms).
  unfold calculateNodeProfiles. cbn [obind or_err]. rewrite E. split; [done|]. intros p. rewrite select_spec. split.
  - intros (prio & Hp%Hms & Hmax). exists prio. split; [done|]. intros prio' p' Hp'. by apply (Hmax (prio', p')), Hms.
  - intros (prio & Hp & Hmax). exists prio. split; [by apply Hms|]. intros [prio' p'] Hm%Hms. by eapply Hmax.
Qed.

(** ** Reconciliation *)

(** The JSON decoders of [UpdateConfig], and the printer of a list of profiles. *)
Section Reconcile.
Context (Marshal : list PtpConfig.PtpProfile -> option string).
Context (load : string -> option (list PtpConfig.PtpProfile)) (load_old : string -> option PtpConfig.PtpProfile).

Definition usable (p : PtpConfig.PtpProfile) : bool :=
  match PtpConfig.Name p, PtpConfig.Interface p with Some _, Some _ => true | _, _ => false end.

(** What the daemon has, and the flag that the security files changed. *)
Record State := mkState { confUpdate : Conf.LinuxPTPConfUpdate PtpConfig.PtpProfile; SecurityFilesChanged : bool; signals : nat }.

#[export] Instance State_fields : Fields State := fun s => mkState (confUpdate s) (SecurityFilesChanged s) (signals s).

Definition NewLinuxPTPConfUpdate : State := mkState (Conf.mkUpdate "" []) false 0.

(** [UpdateConfig], with the signal on [UpdateCh]; [false] is its error. *)
Definition update_config (text : string) (auth : bool) (s : State) : bool * State :=
  let '(res, l) := Conf.UpdateConfig load load_old usable text auth (confUpdate s) in
  (match res with Conf.LoadError => false | _ => true end,
   s <| confUpdate := l |> <| signals := match res with Conf.Signalled => S (signals s) | _ => signals s end |>).

Definition GetAndResetSecurityFilesChanged (s : State) : bool * State := (SecurityFilesChanged s, s <| SecurityFilesChanged := false |>).

Inductive result := Done | Failed | Panicked.

Definition reconcileAllConfigs (nodeName : string) (labels : option (gmap string string)) (configs : option (list PtpConfigResource)) (s : State) : result * State :=
  match configs with
  | None => (Failed, s)
  | Some configs =>
      match calculateNodeProfiles nodeName labels configs with
      | Panic => (Panicked, s)
      | Err => (Failed, s)
      | Ok [] => let '(ok, s) := update_config "[]" false s in (if ok then Done else Failed, s)
      | Ok matchingProfiles =>
          match Marshal matchingProfiles with
          | None => (Failed, s)
          | Some text =>
              let '(ptpAuthUpdated, s) := GetAndResetSecurityFilesChanged s in
              let '(ok, s) := update_config text ptpAuthUpdated s in (if ok then Done else Failed, s)
          end
      end
  end.

(** [got] is whether the resource is found, is not, or cannot be read. *)
Definition Reconcile (got : option bool) (nodeName : string) (labels : option (gmap string string)) (configs : option (list PtpConfigResource)) (s : State) :
    result * State :=
  match got with None => (Failed, s) | Some _ => reconcileAllConfigs nodeName labels configs s end.

(** ** The configuration of the daemon *)

(** What is printed is read back; an empty list is read, an empty text is not. *)
Hypothesis load_Marshal : forall l text, Marshal l = Some text -> load text = Some l.
Hypothesis load_none : load "[]" = Some [].
Hypothesis load_empty : load "" = None.

(** The profiles of the daemon are those of the text it remembers. *)
Definition coherent (s : State) : Prop :=
  if str_eqb (Conf.appliedNodeProfileJSON (confUpdate s)) "" then Conf.NodeProfiles (confUpdate s) = []
  else load (Conf.appliedNodeProfileJSON (confUpdate s)) = Some (Conf.NodeProfiles (confUpdate s)).

Lemma update_config_effect text auth s l : coherent s -> load text = Some l ->
  let r := update_config text auth s in
  r.1 = true /\ coherent r.2 /\ Conf.NodeProfiles (confUpdate r.2) = l /\ Conf.appliedNodeProfileJSON (confUpdate r.2) = text /\
  SecurityFilesChanged r.2 = SecurityFilesChanged s /\
  signals r.2 = (if auth || negb (str_eqb (Conf.appliedNodeProfileJSON (confUpdate s)) text) then S (signals s) else signals s).
Proof.
  intros Hs Hl. assert (text <> ""%string) as Hne by (intros ->; congruence). unfold update_config, Conf.UpdateConfig, coherent in *.
  assert (str_eqb text "" = false) as Ht by by apply bool_decide_eq_false.
  destruct (str_eqb (Conf.appliedNodeProfileJSON (confUpdate s)) text) eqn:E; cbn [andb negb].
  - apply bool_decide_eq_true in E. rewrite orb_false_r. destruct auth; cbn [negb].
    + rewrite Hl. cbn. by rewrite Ht.
    + cbn. rewrite E, Ht in *. split_and!; congruence.
  - rewrite Hl, orb_true_r. cbn. by rewrite Ht.
Qed.

(** From the start of the daemon on. *)
Inductive reached : State -> Prop :=
| ReachStart : reached NewLinuxPTPConfUpdate
| ReachFiles s : reached s -> reached (s <| SecurityFilesChanged := true |>)
| ReachReconcile s got nodeName labels configs : reached s -> reached (Reconcile got nodeName labels configs s).2.

Lemma reconcile_spec nodeName labels configs s : coherent s ->
  let r := reconcileAllConfigs nodeName labels configs s in
  coherent r.2 /\
  match r.1 with
  | Done => exists cs l, configs = Some cs /\ calculateNodeProfiles nodeName labels cs = Ok l /\ Conf.NodeProfiles (confUpdate r.2) = l /\
      let auth := SecurityFilesChanged s && (0 <? length l)%nat in
      SecurityFilesChanged r.2 = SecurityFilesChanged s && negb auth /\
      signals r.2 = (if auth || negb (str_eqb (Conf.appliedNodeProfileJSON (confUpdate s)) (Conf.appliedNodeProfileJSON (confUpdate r.2))) then S (signals s) else signals s)
  | _ => r.2 = s
  end.
Proof.
  intros Hs. unfold reconcileAllConfigs. destruct configs as [cs|]; [|done]. destruct (calculateNodeProfiles nodeName labels cs) as [l| |] eqn:El; [|done..].
  destruct l as [|p l].
  - destruct (update_config_effect "[]" false s [] Hs load_none) as (H1 & H2 & H3 & H4 & H5 & H6).
    destruct (update_config "[]" false s) as [ok s1]. cbn in *. subst ok. split; [done|]. exists cs, []. split_and!; try done.
    + by rewrite H5, andb_false_r, andb_true_r.
    + by rewrite andb_false_r, H4, H6.
  - destruct (Marshal (p :: l)) as [text|] eqn:Em; [|done]. apply load_Marshal in Em. unfold GetAndResetSecurityFilesChanged.
    assert (coherent (s <| SecurityFilesChanged := false |>)) as Hs' by done.
    destruct (update_config_effect text (SecurityFilesChanged s) _ (p :: l) Hs' Em) as (H1 & H2 & H3 & H4 & H5 & H6).
    destruct (update_config text _ _) as [ok s1]. cbn in *. subst ok. split; [done|]. exists cs, (p :: l). split_and!; try done; rewrite andb_true_r.
    + by rewrite H5, andb_negb_r.
    + by rewrite H4, H6.
Qed.

Lemma reached_coherent s : reached s -> coherent s.
Proof.
  induction 1 as [|s _ IH|s got nodeName labels configs _ IH]; [done|exact IH|]. unfold Reconcile. destruct got; [|exact IH].
  by apply reconcile_spec.
Qed.

(** The daemon follows the profiles.  Whatever reconciliations came before: one that ends
    without an error leaves the daemon with exactly the profiles calculated for this node,
    and signals it once when their text changed, or the security files did and there is a
    profile, and not at all otherwise; any other leaves everything as it was. *)
Theorem profiles_followed got nodeName labels configs s : reached s ->
  let '(res, s') := Reconcile got nodeName labels configs s in
  match res with
  | Done => exists cs l, configs = Some cs /\ calculateNodeProfiles nodeName labels cs = Ok l /\ Conf.NodeProfiles (confUpdate s') = l /\
      let auth := SecurityFilesChanged s && (0 <? length l)%nat in
      SecurityFilesChanged s' = SecurityFilesChanged s && negb auth /\
      signals s' = (if auth || negb (str_eqb (Conf.appliedNodeProfileJSON (confUpdate s)) (Conf.appliedNodeProfileJSON (confUpdate s'))) then S (signals s) else signals s)
  | _ => s' = s
  end.
Proof.
  intros Hr%reached_coherent. unfold Reconcile. destruct got; [|done]. pose proof (reconcile_spec nodeName labels configs s Hr) as [_ H].
  by destruct (reconcileAllConfigs nodeName labels configs s).
Qed.

End Reconcile.

(** ** Examples *)

Definition profile (name : string) : PtpConfig.PtpProfile :=
  PtpConfig.mkProfile (Some name) None None None None None None None None None None None None None None None None.

Definition recommend (name : string) (priority : Z) (rules : list MatchRule) : PtpRecommend := mkRecommend (Some name) (Some priority) rules.

Definition ex_configs : list PtpConfigResource :=
  [mkResource [profile "a"; profile "b"] [recommend "a" 5 []; recommend "b" 9 [mkRule (Some "worker") None]];
   mkResource [profile "c"] [recommend "c" 9 [mkRule None (Some "n1")]; recommend "c" 20 [mkRule None (Some "n2")]]]%string.

Lemma profiles_selected_witness :
  exists l, calculateNodeProfiles "n1" (Some {["worker" := ""]}) ex_configs = Ok l /\ l = [profile "b"; profile "c"] /\
    exists prio, matched "n1" {["worker" := ""]} ex_configs prio (profile "b").
Proof.
  destruct (profiles_selected "n1" {["worker" := ""]} ex_configs) as (l & E & Hl).
  - repeat (apply Forall_cons; split); try apply Forall_nil_2; repeat (apply Forall_cons; split); try apply Forall_nil_2; by eexists.
  - exists l. split; [exact E|]. assert (l = [profile "b"; profile "c"]) as -> by (vm_compute in E; by injection E). split; [done|].
    destruct (proj1 (Hl (profile "b"))) as (prio & Hm & _); [left|by exists prio].
Defined.

(** A rule that gives a label as "key=value" matches no node, since it is looked up as a
    key. *)
Lemma label_value_unmatched :
  anyRuleMatchesNode [mkRule (Some "worker=yes") None]%string "n1" {["worker" := "yes"]}%string = false /\
  anyRuleMatchesNode [mkRule (Some "worker") None]%string "n1" {["worker" := "no"]}%string = true.
Proof. split; vm_compute; reflexivity. Qed.

(** A printer of one profile that has a name only, and its reader. *)
Definition ex_marshal1 (p : PtpConfig.PtpProfile) : option string :=
  match p with
  | PtpConfig.mkProfile (Some n) None None None None None None None None None None None None None None None None => Some (String "!"%char n)
  | _ => None
  end.

Definition ex_marshal (l : list PtpConfig.PtpProfile) : option string := match l with [p] => ex_marshal1 p | _ => None end.

Definition ex_load (text : string) : option (list PtpConfig.PtpProfile) :=
  match text with String "!"%char n => Some [profile n] | "[]"%string => Some [] | _ => None end.

Definition ex_cluster : option (list PtpConfigResource) := Some [mkResource [profile "c"] [recommend "c" 9 [mkRule None (Some "n1")]]]%string.

Definition ex_reconcile (s : State) : result * State := Reconcile ex_marshal ex_load (fun _ => None) (Some true) "n1" (Some ∅) ex_cluster s.

Definition ex_s1 : State := (ex_reconcile NewLinuxPTPConfUpdate).2.
Definition ex_s2 : State := (ex_reconcile ex_s1).2.
Definition ex_s3 : State := ex_s2 <| SecurityFilesChanged := true |>.

Lemma profiles_followed_witness :
  Conf.NodeProfiles (confUpdate (ex_reconcile ex_s3).2) = [profile "c"] /\
  (signals ex_s1, signals ex_s2, signals (ex_reconcile ex_s3).2) = (1, 1, 2)%nat.
Proof.
  split; [|vm_compute; reflexivity].
  assert (forall l text, ex_marshal l = Some text -> ex_load text = Some l) as H1.
  { intros [|p [|]] text E; [done| |done]. unfold ex_marshal, ex_marshal1 in E. repeat (case_match; try discriminate). by injection E as <-. }
  pose proof (profiles_followed ex_marshal ex_load (fun _ => None) H1 eq_refl eq_refl (Some true) "n1"%string (Some ∅) ex_cluster ex_s3) as Hp.
  fold (ex_reconcile ex_s3) in Hp. destruct (ex_reconcile ex_s3) as [res s'] eqn:E.
  assert (res = Done) as -> by (vm_compute in E; by injection E). destruct Hp as (cs & l & Ec & El & Hl & _).
  - apply ReachFiles, ReachReconcile, ReachReconcile, ReachStart.
  - cbn [snd]. rewrite Hl. unfold ex_cluster in Ec. injection Ec as <-. vm_compute in El. by injection El as <-.
Defined.

End PtpController.
