(* ===== verification/Json.v ===== *)
(** * encoding/json: values, their text, and structs read from them

    The part of the Go standard library that pkg/ipc, pkg/cep and the plugins use: the
    values of JSON, the text [Marshal], [MarshalIndent] and [Encoder] print, the parser
    of [Unmarshal] and [Decoder], and how the members of an object set the fields of a
    struct.  A number is its literal.  Strings are sequences of bytes that are valid
    UTF-8 without U+2028 and U+2029; names of members are compared up to ASCII case.
    What is printed is parsed back ([parse_Marshal]). *)

From S2P Require Import Prelude Strconv Regex.
From Stdlib Require Import Ascii.

Module Json.

Import Regex (str_app_assoc, str_app_length, str_app_empty).

Inductive json :=
| JNull
| JBool (b : bool)
| JNum (lit : string)
| JStr (s : string)
| JArr (l : list json)
| JObj (l : list (string * json)).

(** Induction through the lists of elements and members. *)
Section Induction.
  Context (P : json -> Prop).
  Context (Pnull : P JNull) (Pbool : forall b, P (JBool b)) (Pnum : forall n, P (JNum n)) (Pstr : forall s, P (JStr s)).
  Context (Parr : forall l, Forall P l -> P (JArr l)) (Pobj : forall l, Forall (fun m => P m.2) l -> P (JObj l)).

Fixpoint json_induction (j : json) : P j :=
  match j with
  | JNull => Pnull
  | JBool b => Pbool b
  | JNum n => Pnum n
  | JStr s => Pstr s
  | JArr l =>
      Parr l ((fix go l : Forall P l :=
        match l with [] => Forall_nil_2 _ | x :: l' => Forall_cons_2 _ _ _ (json_induction x) (go l') end) l)
  | JObj l =>
      Pobj l ((fix go l : Forall (fun m => P m.2) l :=
        match l with [] => Forall_nil_2 _ | m :: l' => Forall_cons_2 (fun m => P m.2) _ _ (json_induction m.2) (go l') end) l)
  end.
End Induction.

(** ** Printing *)

Definition code (c : ascii) : N := N_of_ascii c.
Definition char (n : N) : string := String (ascii_of_N n) EmptyString.

Definition same_char (c d : ascii) : bool := if ascii_dec c d then true else false.

Definition quote_mark : ascii := ascii_of_N 34.
Definition backslash : ascii := ascii_of_N 92.

Definition hex_char (n : N) : ascii := digit_char (Z.of_N n).

(** [\u00xx]. *)
Definition escape_code (n : N) : string :=
  (String backslash "u00" +:+ String (hex_char (n / 16)) (String (hex_char (n mod 16)) EmptyString))%string.

Definition escape_char (c : ascii) : string :=
  let n := code c in
  if (n =? 34)%N || (n =? 92)%N then String backslash (String c EmptyString)
  else if (n =? 8)%N then String backslash "b"
  else if (n =? 12)%N then String backslash "f"
  else if (n =? 10)%N then String backslash "n"
  else if (n =? 13)%N then String backslash "r"
  else if (n =? 9)%N then String backslash "t"
  else if (n <? 32)%N || (n =? 60)%N || (n =? 62)%N || (n =? 38)%N then escape_code n
  else String c EmptyString.

Fixpoint escape (s : string) : string :=
  match s with EmptyString => EmptyString | String c s' => (escape_char c +:+ escape s')%string end.

Definition quote (s : string) : string := String quote_mark (escape s +:+ String quote_mark EmptyString)%string.

(** [nl d] is what stands before an element at depth [d], [colon] what stands after the
    name of a member. *)
Section Print.
  Context (nl : nat -> string) (colon : string).

Fixpoint print_at (d : nat) (j : json) : string :=
  match j with
  | JNull => "null"
  | JBool b => fmt_t b
  | JNum lit => lit
  | JStr s => quote s
  | JArr [] => "[]"
  | JArr l => "[" +:+ nl (S d) +:+ join ("," +:+ nl (S d)) (List.map (print_at (S d)) l) +:+ nl d +:+ "]"
  | JObj [] => "{}"
  | JObj l =>
      "{" +:+ nl (S d) +:+ join ("," +:+ nl (S d)) (List.map (fun m => quote m.1 +:+ colon +:+ print_at (S d) m.2) l)
      +:+ nl d +:+ "}"
  end%string.
End Print.

(** [json.Marshal]; [Encoder.Encode] adds a newline. *)
Definition Marshal (j : json) : string := print_at (fun _ => EmptyString) ":" 0 j.
Definition Encode (j : json) : string := (Marshal j +:+ newline)%string.

Fixpoint spaces (n : nat) : string := match n with O => EmptyString | S n' => String " " (spaces n') end.

(** [json.MarshalIndent(v, "", "  ")]. *)
Definition MarshalIndent (j : json) : string := print_at (fun d => newline +:+ spaces (2 * d))%string ": " 0 j.

(** ** Parsing *)

Definition is_ws (c : ascii) : bool := let n := code c in (n =? 32)%N || (n =? 9)%N || (n =? 10)%N || (n =? 13)%N.

Fixpoint skip_ws (s : string) : string :=
  match s with String c s' => if is_ws c then skip_ws s' else s | EmptyString => s end.

Definition is_digit (c : ascii) : bool := (48 <=? code c)%N && (code c <=? 57)%N.

Fixpoint take_digits (s : string) : string * string :=
  match s with
  | String c s' => if is_digit c then let r := take_digits s' in (String c r.1, r.2) else (EmptyString, s)
  | EmptyString => (EmptyString, s)
  end.

(** A digit sequence that must not be empty. *)
Definition digits1 (s : string) : option (string * string) :=
  match take_digits s with (EmptyString, _) => None | r => Some r end.

Definition int_part (s : string) : option (string * string) :=
  match s with
  | String c s' => if ascii_dec c "0" then Some (String c EmptyString, s') else digits1 s
  | EmptyString => None
  end.

Definition frac_part (s : string) : option (string * string) :=
  match s with
  | String c s' => if ascii_dec c "." then '(ds, r) ← digits1 s'; Some (String c ds, r) else Some (EmptyString, s)
  | EmptyString => Some (EmptyString, s)
  end.

Definition exp_part (s : string) : option (string * string) :=
  match s with
  | String c s' =>
      if same_char c "e" || same_char c "E" then
        match s' with
        | String g s'' =>
            if same_char g "+" || same_char g "-" then '(ds, r) ← digits1 s''; Some (String c (String g ds), r)
            else '(ds, r) ← digits1 s'; Some (String c ds, r)
        | EmptyString => None
        end
      else Some (EmptyString, s)
  | EmptyString => Some (EmptyString, s)
  end.

Definition unsigned_number (s : string) : option (string * string) :=
  '(i, r) ← int_part s; '(f, r) ← frac_part r; '(e, r) ← exp_part r; Some ((i +:+ f +:+ e)%string, r).

Definition number (s : string) : option (string * string) :=
  match s with
  | String c s' => if ascii_dec c "-" then '(n, r) ← unsigned_number s'; Some (String c n, r) else unsigned_number s
  | EmptyString => None
  end.

(** The value of a hexadecimal digit, and of four of them. *)
Definition hex_val (c : ascii) : option N := let d := char_digit c in if d <? 16 then Some (Z.to_N d) else None.

Definition hex4 (a b c d : ascii) : option N :=
  a ← hex_val a; b ← hex_val b; c ← hex_val c; d ← hex_val d; Some (((a * 16 + b) * 16 + c) * 16 + d)%N.

(** UTF-8. *)
Definition utf8 (n : N) : string :=
  (if n <? 128 then char n
   else if n <? 2048 then char (192 + n / 64) +:+ char (128 + n mod 64)
   else if n <? 65536 then char (224 + n / 4096) +:+ char (128 + n / 64 mod 64) +:+ char (128 + n mod 64)
   else char (240 + n / 262144) +:+ char (128 + n / 4096 mod 64) +:+ char (128 + n / 64 mod 64) +:+ char (128 + n mod 64))%N%string.

Definition high_surrogate (n : N) : bool := ((55296 <=? n) && (n <? 56320))%N.
Definition low_surrogate (n : N) : bool := ((56320 <=? n) && (n <? 57344))%N.
Definition surrogate (n : N) : bool := high_surrogate n || low_surrogate n.

Definition replacement : string := utf8 65533.

Definition short_escape (c : ascii) : option string :=
  let n := code c in
  if (n =? 34)%N || (n =? 92)%N || (n =? 47)%N then Some (String c EmptyString)
  else if (n =? 98)%N then Some (char 8)
  else if (n =? 102)%N then Some (char 12)
  else if (n =? 110)%N then Some (char 10)
  else if (n =? 114)%N then Some (char 13)
  else if (n =? 116)%N then Some (char 9)
  else None.

(** The text of a string literal after its opening quote: its value and the rest.
    [pending] is a high surrogate that waits for its low one. *)
Fixpoint str_lit (pending : option N) (s : string) : option (string * string) :=
  let flush := if pending then replacement else EmptyString in
  match s with
  | EmptyString => None
  | String c s1 =>
      if ascii_dec c quote_mark then Some (flush, s1)
      else if ascii_dec c backslash then
        match s1 with
        | EmptyString => None
        | String e s2 =>
            if ascii_dec e "u" then
              match s2 with
              | String a (String b (String c (String d s3))) =>
                  n ← hex4 a b c d;
                  if high_surrogate n then '(v, r) ← str_lit (Some n) s3; Some ((flush +:+ v)%string, r)
                  else if low_surrogate n then
                    '(v, r) ← str_lit None s3;
                    Some ((match pending with
                           | Some h => utf8 (65536 + (h - 55296) * 1024 + (n - 56320))
                           | None => replacement
                           end +:+ v)%string, r)
                  else '(v, r) ← str_lit None s3; Some ((flush +:+ utf8 n +:+ v)%string, r)
              | _ => None
              end
            else x ← short_escape e; '(v, r) ← str_lit None s2; Some ((flush +:+ x +:+ v)%string, r)
        end
      else if (code c <? 32)%N then None
      else '(v, r) ← str_lit None s1; Some ((flush +:+ String c v)%string, r)
  end.

Definition keyword (s : string) : option (json * string) :=
  match drop_prefix "null" s with
  | Some r => Some (JNull, r)
  | None =>
      match drop_prefix "true" s with
      | Some r => Some (JBool true, r)
      | None => r ← drop_prefix "false" s; Some (JBool false, r)
      end
  end.

(** A quoted name with its colon. *)
Definition member_name (s : string) : option (string * string) :=
  match skip_ws s with
  | String c s' =>
      if ascii_dec c quote_mark then
        '(k, r) ← str_lit None s';
        match skip_ws r with String c' r' => if ascii_dec c' ":" then Some (k, r') else None | EmptyString => None end
      else None
  | EmptyString => None
  end.

(** What follows an element: a comma ([true]) or the bracket [close] ([false]). *)
Definition separator (close : ascii) (s : string) : option (bool * string) :=
  match skip_ws s with
  | String c s' => if ascii_dec c "," then Some (true, s') else if ascii_dec c close then Some (false, s') else None
  | EmptyString => None
  end.

(** Whether the bracket closes at once. *)
Definition empty_body (close : ascii) (s : string) : option string :=
  match skip_ws s with String c s' => if ascii_dec c close then Some s' else None | EmptyString => None end.

Fixpoint value (fuel : nat) (s : string) : option (json * string) :=
  match fuel with
  | O => None
  | S fuel =>
      match skip_ws s with
      | EmptyString => None
      | String c s' =>
          if ascii_dec c quote_mark then '(v, r) ← str_lit None s'; Some (JStr v, r)
          else if ascii_dec c "[" then
            match empty_body "]" s' with
            | Some r => Some (JArr [], r)
            | None => '(l, r) ← elements fuel s'; Some (JArr l, r)
            end
          else if ascii_dec c "{" then
            match empty_body "}" s' with
            | Some r => Some (JObj [], r)
            | None => '(l, r) ← members fuel s'; Some (JObj l, r)
            end
          else if same_char c "-" || is_digit c then '(n, r) ← number (String c s'); Some (JNum n, r)
          else keyword (String c s')
      end
  end
with elements (fuel : nat) (s : string) : option (list json * string) :=
  match fuel with
  | O => None
  | S fuel =>
      '(v, r) ← value fuel s; '(more, r) ← separator "]" r;
      if (more : bool) then '(l, r) ← elements fuel r; Some (v :: l, r) else Some ([v], r)
  end
with members (fuel : nat) (s : string) : option (list (string * json) * string) :=
  match fuel with
  | O => None
  | S fuel =>
      '(k, r) ← member_name s; '(v, r) ← value fuel r; '(more, r) ← separator "}" r;
      if (more : bool) then '(l, r) ← members fuel r; Some ((k, v) :: l, r) else Some ([(k, v)], r)
  end.

(** Every second call takes a character, so the fuel is enough ([parse_print]). *)
Definition fuel_of (s : string) : nat := S (2 * String.length s).

(** [Decoder.Decode]: the first value. *)
Definition Decode (s : string) : option json := fst <$> value (fuel_of s) s.

(** [Unmarshal]: nothing but white space may follow. *)
Definition parse (s : string) : option json :=
  '(v, r) ← value (fuel_of s) s; if str_eqb (skip_ws r) "" then Some v else None.

(** ** Structs

    The members of the object are stored one after the other; [null] changes nothing; a
    value of a wrong type is an error. *)

Fixpoint lower (s : string) : string := match s with EmptyString => s | String c s' => String (Strconv.lower c) (lower s') end.

(** The name of a member stands for the field [name]. *)
Definition names (name key : string) : bool := str_eqb (lower key) (lower name).

Fixpoint set_members {T} (set : string -> json -> T -> option T) (l : list (string * json)) (t : T) : option T :=
  match l with [] => Some t | (k, v) :: l' => t' ← set k v t; set_members set l' t' end.

Definition into_struct {T} (set : string -> json -> T -> option T) (j : json) (t : T) : option T :=
  match j with JNull => Some t | JObj l => set_members set l t | _ => None end.

Definition into_string (j : json) (old : string) : option string :=
  match j with JNull => Some old | JStr s => Some s | _ => None end.

Definition into_bool (j : json) (old : bool) : option bool :=
  match j with JNull => Some old | JBool b => Some b | _ => None end.

(** A signed and an unsigned integer of [bits] bits. *)
Definition into_int (bits : Z) (j : json) (old : Z) : option Z :=
  match j with JNull => Some old | JNum lit => let '(n, ok) := ParseInt lit 10 bits in if ok then Some n else None | _ => None end.

Definition into_uint (bits : Z) (j : json) (old : Z) : option Z :=
  match j with JNull => Some old | JNum lit => let '(n, ok) := ParseUint lit 10 bits in if ok then Some n else None | _ => None end.

Definition of_int (z : Z) : json := JNum (fmt_d z).

(** A member that is left out when its value is the zero value. *)
Definition omitempty_str (name s : string) : list (string * json) := if str_eqb s "" then [] else [(name, JStr s)].
Definition omitempty_int (name : string) (z : Z) : list (string * json) := if z =? 0 then [] else [(name, of_int z)].

(** ** What is printed is parsed back *)

(** A literal that the scanner takes as a number, whole. *)
Fixpoint wf (j : json) : Prop :=
  match j with
  | JNum lit => number lit = Some (lit, EmptyString)
  | JArr l => foldr and True (List.map wf l)
  | JObj l => foldr and True (List.map (fun m => wf m.2) l)
  | _ => True
  end.

Definition blank (w : string) : Prop := skip_ws w = EmptyString.

(** Calls of [value] nest no deeper. *)
Fixpoint need (j : json) : nat :=
  match j with
  | JArr l => S (list_sum (List.map (fun x => S (need x)) l))
  | JObj l => S (list_sum (List.map (fun m => S (need m.2)) l))
  | _ => 1
  end.

Definition ends_number (c : ascii) : bool := is_ws c || same_char c "," || same_char c "]" || same_char c "}".

(** What may follow a value. *)
Definition delimited (rest : string) : Prop := match rest with EmptyString => True | String c _ => ends_number c = true end.

Lemma skip_blank w s : blank w -> skip_ws (w +:+ s) = skip_ws s.
Proof. unfold blank. induction w as [|c w IH]; [done|]. rewrite str_app_cons. cbn. destruct (is_ws c); [done|]. done. Qed.

Lemma skip_ws_char c s : is_ws c = false -> skip_ws (String c s) = String c s.
Proof. cbn. by intros ->. Qed.

Lemma blank_delimited w s : blank w -> delimited s -> delimited (w +:+ s).
Proof.
  intros Hb Hs. destruct w as [|c w]; [done|]. rewrite str_app_cons. unfold blank in Hb. cbn in Hb.
  unfold delimited, ends_number. by destruct (is_ws c).
Qed.

(** *** Strings *)

Lemma str_lit_escape_char c t :
  str_lit None (escape_char c +:+ t) = '(v, r) ← str_lit None t; Some (String c v, r).
Proof. destruct c as [[] [] [] [] [] [] [] []]; reflexivity. Qed.

Lemma str_lit_escape s r : str_lit None (escape s +:+ String quote_mark r) = Some (s, r).
Proof.
  induction s as [|c s IH]; [reflexivity|]. cbn [escape]. by rewrite str_app_assoc, str_lit_escape_char, IH.
Qed.

Lemma quote_app s r : (quote s +:+ r)%string = String quote_mark (escape s +:+ String quote_mark r).
Proof. unfold quote. by rewrite str_app_cons, str_app_assoc. Qed.

(** *** Numbers *)

Lemma not_digit_end c : ends_number c = true -> is_digit c = false /\ same_char c "." = false /\ same_char c "e" = false /\ same_char c "E" = false.
Proof. destruct c as [[] [] [] [] [] [] [] []]; vm_compute; intros; split_and?; congruence. Qed.

(** The scanner [p] stops at what cannot extend a number. *)
Definition extends (p : string -> option (string * string)) : Prop :=
  forall s a b rest, p s = Some (a, b) -> (b = EmptyString -> delimited rest) -> p (s +:+ rest)%string = Some (a, (b +:+ rest)%string).

Lemma take_digits_app s rest :
  ((take_digits s).2 = EmptyString -> delimited rest) ->
  take_digits (s +:+ rest) = ((take_digits s).1, ((take_digits s).2 +:+ rest)%string).
Proof.
  induction s as [|c s IH]; intros H.
  - rewrite str_app_nil. destruct rest as [|c rest]; [done|]. cbn. by rewrite (proj1 (not_digit_end c (H eq_refl))).
  - rewrite str_app_cons. cbn in H |- *. destruct (is_digit c); [|done]. cbn in *. by rewrite IH.
Qed.

Lemma digits1_app : extends digits1.
Proof.
  intros s a b rest. unfold digits1. destruct (take_digits s) as [x y] eqn:E. intros H Hd.
  rewrite take_digits_app; rewrite E; cbn.
  - destruct x; [done|]. by injection H as <- <-.
  - intros ->. apply Hd. destruct x; congruence.
Qed.

Lemma int_part_app : extends int_part.
Proof.
  intros [|c s] a b rest; [done|]. rewrite str_app_cons. unfold int_part. destruct (ascii_dec c "0").
  - by intros [= <- <-] _.
  - rewrite <- str_app_cons. apply digits1_app.
Qed.

Lemma frac_part_app : extends frac_part.
Proof.
  intros [|c s] a b rest; cbn [frac_part].
  - intros [= <- <-] H. rewrite !str_app_nil. specialize (H eq_refl). destruct rest as [|c rest]; [done|].
    apply not_digit_end in H as (_ & H & _). unfold same_char in H. cbn. by destruct (ascii_dec c ".").
  - rewrite str_app_cons. cbn [frac_part]. destruct (ascii_dec c ".").
    + destruct (digits1 s) as [[x y]|] eqn:E; [|done]. cbn. intros [= <- <-] H. by rewrite (digits1_app _ _ _ rest E H).
    + by intros [= <- <-] _.
Qed.

Lemma exp_part_app : extends exp_part.
Proof.
  intros [|c s] a b rest; cbn [exp_part].
  - intros [= <- <-] H. rewrite !str_app_nil. specialize (H eq_refl). destruct rest as [|c rest]; [done|].
    apply not_digit_end in H as (_ & _ & H1 & H2). cbn [exp_part]. by rewrite H1, H2.
  - rewrite str_app_cons. cbn [exp_part]. destruct (same_char c "e" || same_char c "E").
    + destruct s as [|g s]; [done|]. rewrite str_app_cons. cbv beta iota. destruct (same_char g "+" || same_char g "-").
      * destruct (digits1 s) as [[x y]|] eqn:E; [|done]. cbn. intros [= <- <-] H. by rewrite (digits1_app _ _ _ rest E H).
      * rewrite <- (str_app_cons g s rest).
        destruct (digits1 (String g s)) as [[x y]|] eqn:E; [|done]. cbn [mbind option_bind]. intros [= <- <-] H.
        by rewrite (digits1_app _ _ _ rest E H).
    + by intros [= <- <-] _.
Qed.

Lemma unsigned_app s a rest :
  unsigned_number s = Some (a, EmptyString) -> delimited rest -> unsigned_number (s +:+ rest) = Some (a, rest).
Proof.
  unfold unsigned_number. destruct (int_part s) as [[i r]|] eqn:E1; [|done]. cbn [mbind option_bind].
  destruct (frac_part r) as [[f r']|] eqn:E2; [|done]. cbn [mbind option_bind].
  destruct (exp_part r') as [[e r'']|] eqn:E3; [|done]. cbn [mbind option_bind]. intros [= <- ->] Hd.
  rewrite (int_part_app _ _ _ rest E1) by done. cbn [mbind option_bind].
  rewrite (frac_part_app _ _ _ rest E2) by done. cbn [mbind option_bind].
  by rewrite (exp_part_app _ _ _ rest E3).
Qed.

Lemma number_app lit rest : number lit = Some (lit, EmptyString) -> delimited rest -> number (lit +:+ rest) = Some (lit, rest).
Proof.
  destruct lit as [|c lit]; [done|]. rewrite str_app_cons. unfold number. destruct (ascii_dec c "-").
  - destruct (unsigned_number lit) as [[x y]|] eqn:E; [|done]. cbn [mbind option_bind]. intros [= -> ->] H.
    by rewrite (unsigned_app _ _ _ E H).
  - rewrite <- str_app_cons. apply unsigned_app.
Qed.

(** A number begins with a sign or a digit. *)
Lemma number_head lit r : number lit = Some r -> exists c t, lit = String c t /\ (same_char c "-" || is_digit c) = true.
Proof.
  destruct lit as [|c t]; [done|]. unfold number, same_char. intros H. exists c, t. split; [done|].
  destruct (ascii_dec c "-"); [done|]. unfold unsigned_number, int_part in H. destruct (ascii_dec c "0") as [->|]; [done|].
  unfold digits1 in H. cbn in H. by destruct (is_digit c).
Qed.

(** *** Values *)

Section RoundTrip.
  Context (nl : nat -> string) (sp : string).
  Context (nl_blank : forall d, blank (nl d)) (sp_blank : blank sp).

Local Abbreviation colon := (String ":" sp).
Local Abbreviation print := (print_at nl colon).

Definition member_text (d : nat) (m : string * json) : string := (quote m.1 +:+ colon +:+ print d m.2)%string.

(** The elements or members of a list with the separators between them. *)
Definition body {A} (d : nat) (text : A -> string) (l : list A) : string := join ("," +:+ nl d) (List.map text l).

Lemma print_arr d x l : print d (JArr (x :: l)) = ("[" +:+ nl (S d) +:+ body (S d) (print (S d)) (x :: l) +:+ nl d +:+ "]")%string.
Proof. done. Qed.

Lemma print_obj d m l : print d (JObj (m :: l)) = ("{" +:+ nl (S d) +:+ body (S d) (member_text (S d)) (m :: l) +:+ nl d +:+ "}")%string.
Proof. done. Qed.

Lemma body_cons {A} d (text : A -> string) x y l rest :
  (body d text (x :: y :: l) +:+ rest)%string = (text x +:+ String "," (nl d +:+ body d text (y :: l) +:+ rest))%string.
Proof. unfold body. cbn [List.map join]. by rewrite !str_app_assoc. Qed.

(** The first character of a value. *)
Definition starts_value (c : ascii) : bool := negb (is_ws c || same_char c "]" || same_char c "}").

Lemma print_head d j : wf j -> exists c t, print d j = String c t /\ starts_value c = true.
Proof.
  destruct j as [|[]|lit|s|[|x l]|[|m l]]; intros Hwf; try (eexists _, _; split; [reflexivity|reflexivity]).
  apply number_head in Hwf as (c & t & -> & Hc). exists c, t. split; [done|]. revert Hc.
  clear. destruct c as [[] [] [] [] [] [] [] []]; vm_compute; congruence.
Qed.

Lemma starts_value_no_close c : starts_value c = true -> is_ws c = false /\ same_char c "]" = false /\ same_char c "}" = false.
Proof. unfold starts_value. by destruct (is_ws c), (same_char c "]"), (same_char c "}"). Qed.

Lemma empty_body_text close w c t :
  blank w -> is_ws c = false -> same_char c close = false -> empty_body close (w +:+ String c t) = None.
Proof.
  intros Hb Hw Hc. unfold empty_body. rewrite skip_blank, skip_ws_char by done.
  unfold same_char in Hc. by destruct (ascii_dec c close).
Qed.

Lemma separator_comma close r : separator close (String "," r) = Some (true, r).
Proof. reflexivity. Qed.

Lemma separator_close w c r :
  blank w -> is_ws c = false -> same_char c "," = false -> separator c (w +:+ String c r) = Some (false, r).
Proof.
  intros Hb Hw Hc. unfold separator. rewrite skip_blank, skip_ws_char by done. unfold same_char in Hc.
  destruct (ascii_dec c ","); [done|]. by destruct (ascii_dec c c).
Qed.

Lemma member_name_text w k r : blank w -> member_name (w +:+ quote k +:+ String ":" r) = Some (k, r).
Proof.
  intros Hb. unfold member_name. rewrite skip_blank by done. rewrite quote_app, skip_ws_char by reflexivity.
  destruct (ascii_dec quote_mark quote_mark); [|done]. by rewrite str_lit_escape.
Qed.

(** What [value] does once the text of [j] is next. *)
Definition parsed (j : json) : Prop :=
  forall f d w rest, (need j <= f)%nat -> blank w -> delimited rest -> value f (w +:+ print d j +:+ rest) = Some (j, rest).

Lemma delimited_close w c rest : blank w -> ends_number c = true -> delimited (w +:+ String c rest).
Proof. intros. by apply blank_delimited. Qed.

Lemma elements_print l x f d w e rest :
  Forall parsed (x :: l) -> (list_sum (List.map (fun x => S (need x)) (x :: l)) <= f)%nat -> blank w -> blank e ->
  elements f (w +:+ body d (print d) (x :: l) +:+ e +:+ String "]" rest) = Some (x :: l, rest).
Proof.
  revert x f w. induction l as [|y l IH]; intros x f w Hall Hf Hw He.
  - destruct f as [|f]; [cbn in Hf; lia|]. cbn [elements]. inversion Hall as [|?? Hx _]; subst.
    unfold body. cbn [List.map join]. rewrite Hx; [|cbn in Hf; lia|done|by apply delimited_close].
    cbn [mbind option_bind]. by rewrite separator_close.
  - destruct f as [|f]; [cbn in Hf; lia|]. cbn [elements]. inversion Hall as [|?? Hx Hl]; subst.
    rewrite body_cons, Hx by (done || (cbn in Hf; lia)). cbn [mbind option_bind]. rewrite separator_comma. cbn [mbind option_bind].
    by rewrite IH by (done || (cbn in Hf |- *; lia)).
Qed.

Lemma members_print l m f d w e rest :
  Forall (fun m => parsed m.2) (m :: l) -> (list_sum (List.map (fun m => S (need m.2)) (m :: l)) <= f)%nat -> blank w -> blank e ->
  members f (w +:+ body d (member_text d) (m :: l) +:+ e +:+ String "}" rest) = Some (m :: l, rest).
Proof.
  revert m f w. induction l as [|n l IH]; intros [k v] f w Hall Hf Hw He.
  - destruct f as [|f]; [cbn in Hf; lia|]. cbn [members]. inversion Hall as [|?? Hx _]; subst. cbn [snd] in Hx.
    unfold body, member_text. cbn [List.map join fst snd]. rewrite !str_app_assoc.
    rewrite str_app_cons, member_name_text by done. cbn [mbind option_bind].
    rewrite Hx; [|cbn in Hf; lia|done|by apply delimited_close].
    cbn [mbind option_bind]. by rewrite separator_close.
  - destruct f as [|f]; [cbn in Hf; lia|]. cbn [members]. inversion Hall as [|?? Hx Hl]; subst. cbn [snd] in Hx.
    rewrite body_cons. unfold member_text at 1. cbn [fst snd]. rewrite !str_app_assoc.
    rewrite str_app_cons, member_name_text by done. cbn [mbind option_bind].
    rewrite Hx by (done || (cbn in Hf; lia)). cbn [mbind option_bind]. rewrite separator_comma. cbn [mbind option_bind].
    by rewrite IH by (done || (cbn in Hf |- *; lia)).
Qed.

Lemma foldr_and_Forall {A} (P : A -> Prop) l : foldr and True (List.map P l) -> Forall P l.
Proof. induction l as [|x l IH]; [constructor|]. cbn. intros [? ?]. constructor; auto. Qed.

Lemma Forall_mp {A} (P Q : A -> Prop) l : Forall (fun x => P x -> Q x) l -> Forall P l -> Forall Q l.
Proof. induction 1; inversion 1; constructor; auto. Qed.

Lemma value_step f w c t : blank w -> is_ws c = false -> value (S f) (w +:+ String c t) = value (S f) (String c t).
Proof. intros Hb Hc. cbn [value]. by rewrite skip_blank. Qed.

Lemma value_print j : wf j -> parsed j.
Proof.
  induction j as [|b|lit|s|l IH|l IH] using json_induction; intros Hwf f d w rest Hf Hw Hd; cbn [need] in Hf;
    (destruct f as [|f]; [lia|]).
  - change (print d JNull +:+ rest)%string with (String "n" ("ull" +:+ rest)). by rewrite value_step.
  - destruct b.
    + change (print d (JBool true) +:+ rest)%string with (String "t" ("rue" +:+ rest)). by rewrite value_step.
    + change (print d (JBool false) +:+ rest)%string with (String "f" ("alse" +:+ rest)). by rewrite value_step.
  - pose proof (number_app _ _ Hwf Hd) as Hn. cbn [print_at]. pose proof (number_head _ _ Hwf) as (c & t & -> & Hc).
    rewrite str_app_cons in *. rewrite value_step by (done || (revert Hc; clear; destruct c as [[] [] [] [] [] [] [] []]; vm_compute; congruence)).
    cbn [value]. rewrite skip_ws_char by (revert Hc; clear; destruct c as [[] [] [] [] [] [] [] []]; vm_compute; congruence).
    destruct (ascii_dec c quote_mark) as [->|_]; [done|]. destruct (ascii_dec c "[") as [->|_]; [done|].
    destruct (ascii_dec c "{") as [->|_]; [done|]. rewrite Hc. by rewrite Hn.
  - cbn [print_at]. rewrite quote_app, value_step by done. cbn [value]. rewrite skip_ws_char by done.
    destruct (ascii_dec quote_mark quote_mark); [|done]. by rewrite str_lit_escape.
  - destruct l as [|x l]; [change (print d (JArr []) +:+ rest)%string with (String "[" (String "]" rest)); by rewrite value_step|]. rewrite print_arr, !str_app_assoc.
    change ("[" +:+ ?t)%string with (String "[" t). rewrite value_step by done. cbn [value]. rewrite skip_ws_char by done.
    apply foldr_and_Forall in Hwf.
    replace (empty_body "]" _) with (@None string).
    + change ("]" +:+ rest)%string with (String "]" rest). change (if ascii_dec "[" quote_mark then ?a else ?b) with b.
      change (if ascii_dec "[" "[" then ?a else ?b) with a. cbn [need] in Hf.
      rewrite elements_print by (done || lia || by apply (Forall_mp _ _ _ IH)). done.
    + symmetry. inversion Hwf as [|?? Hx _]; subst. destruct (print_head (S d) x Hx) as (c & t & E & Hc).
      apply starts_value_no_close in Hc as (? & ? & ?). unfold body. cbn [List.map join]. destruct l; rewrite ?E, ?str_app_assoc, str_app_cons; by apply empty_body_text.
  - destruct l as [|[k v] l]; [change (print d (JObj []) +:+ rest)%string with (String "{" (String "}" rest)); by rewrite value_step|]. rewrite print_obj, !str_app_assoc.
    change ("{" +:+ ?t)%string with (String "{" t). rewrite value_step by done. cbn [value]. rewrite skip_ws_char by done.
    apply foldr_and_Forall in Hwf.
    replace (empty_body "}" _) with (@None string).
    + change ("}" +:+ rest)%string with (String "}" rest). change (if ascii_dec "{" quote_mark then ?a else ?b) with b.
      change (if ascii_dec "{" "[" then ?a else ?b) with b. change (if ascii_dec "{" "{" then ?a else ?b) with a.
      rewrite members_print by (done || lia || by apply (Forall_mp _ _ _ IH)). done.
    + symmetry. unfold body, member_text. cbn [List.map join fst snd].
      destruct l; rewrite ?str_app_assoc, quote_app; by apply empty_body_text.
Qed.

(** *** The fuel *)

(** Every element has the characters it needs. *)
Lemma length_body {A} d (text : A -> string) (n : A -> nat) l :
  Forall (fun x => S (n x) <= 2 * String.length (text x))%nat l ->
  (list_sum (List.map (fun x => S (n x)) l) <= 2 * String.length (body d text l))%nat.
Proof.
  unfold body. induction 1 as [|x l Hx Hl IH]; [done|]. cbn [List.map]. destruct l as [|y l].
  - cbn. lia.
  - cbn [List.map]. change (join ?s (?a :: ?b :: ?r)) with (a +:+ s +:+ join s (b :: r))%string. rewrite !str_app_length.
    change (list_sum (?a :: ?b)) with (a + list_sum b)%nat. cbn [List.map] in *. lia.
Qed.

Lemma need_print j d : wf j -> (S (need j) <= 2 * String.length (print d j))%nat.
Proof.
  revert d. induction j as [|b|lit|s|l IH|l IH] using json_induction; intros d Hwf.
  - cbn. lia.
  - destruct b; cbn; lia.
  - apply number_head in Hwf as (c & t & -> & _). cbn. lia.
  - cbn [print_at need]. unfold quote. cbn [String.length]. lia.
  - destruct l as [|x l]; [cbn; lia|]. rewrite print_arr, !str_app_length. apply foldr_and_Forall in Hwf.
    assert (Forall (fun x => S (need x) <= 2 * String.length (print (S d) x))%nat (x :: l)) as H.
    { apply (Forall_mp wf); [|done]. eapply Forall_impl; [exact IH|]. intros y Hy. apply Hy. }
    apply (length_body (S d)) in H. cbn [need String.length]. lia.
  - destruct l as [|x l]; [cbn; lia|]. rewrite print_obj, !str_app_length. apply foldr_and_Forall in Hwf.
    assert (Forall (fun m => S (need m.2) <= 2 * String.length (member_text (S d) m))%nat (x :: l)) as H.
    { apply (Forall_mp (fun m => wf m.2)); [|done]. eapply Forall_impl; [exact IH|]. intros m Hm Hw.
      specialize (Hm (S d) Hw). unfold member_text. rewrite !str_app_length. lia. }
    apply (length_body (S d)) in H. cbn [need String.length]. lia.
Qed.

Lemma value_of_print j rest : wf j -> delimited rest -> value (fuel_of (print 0 j +:+ rest)) (print 0 j +:+ rest) = Some (j, rest).
Proof.
  intros Hwf Hd. apply (value_print j Hwf _ 0%nat ""%string); [|done|done].
  pose proof (need_print j 0 Hwf). unfold fuel_of. rewrite str_app_length. lia.
Qed.

Lemma parse_print j : wf j -> parse (print 0 j) = Some j.
Proof.
  intros Hwf. unfold parse. rewrite <- (str_app_empty (print 0 j)). by rewrite value_of_print.
Qed.
End RoundTrip.

Lemma parse_Marshal j : wf j -> parse (Marshal j) = Some j.
Proof. intros. by apply parse_print. Qed.

Lemma parse_MarshalIndent j : wf j -> parse (MarshalIndent j) = Some j.
Proof.
  intros. apply parse_print; [|done|done]. intros d. change (blank (newline +:+ spaces (2 * d))) with (blank (spaces (2 * d))).
  induction (2 * d)%nat as [|n IH]; [done|exact IH].
Qed.

(** The newline an [Encoder] adds does not disturb. *)
Lemma Decode_Encode j : wf j -> Decode (Encode j) = Some j.
Proof. intros. unfold Decode, Encode. change (Marshal j) with (print_at (fun _ => ""%string) (String ":" "") 0 j). by rewrite value_of_print. Qed.

(** *** Integers as numbers *)

Lemma digit_is_digit d : 0 <= d < 10 -> is_digit (digit_char d) = true.
Proof. intros H. assert (d = 0 \/ d = 1 \/ d = 2 \/ d = 3 \/ d = 4 \/ d = 5 \/ d = 6 \/ d = 7 \/ d = 8 \/ d = 9) as Hd by lia. by destruct_or! Hd; subst. Qed.

Lemma take_digits_snoc s c : take_digits s = (s, EmptyString) -> is_digit c = true -> take_digits (s +:+ String c "") = ((s +:+ String c "")%string, EmptyString).
Proof.
  induction s as [|a s IH]; intros Hs Hc; [unfold take_digits; change ("" +:+ String c "")%string with (String c ""); cbv beta iota; by rewrite Hc|]. rewrite str_app_cons. cbn in Hs |- *.
  destruct (is_digit a); [|done]. destruct (take_digits s) as [x y]. injection Hs as -> ->. cbn in *. by rewrite IH.
Qed.

Lemma fmt_digits_digits fuel n : 0 <= n -> take_digits (fmt_digits 10 fuel n) = (fmt_digits 10 fuel n, EmptyString).
Proof.
  revert n. induction fuel as [|fuel IH]; intros n Hn; [done|]. cbn [fmt_digits]. destruct (Z.ltb_spec n 10).
  - cbn [take_digits]. by rewrite digit_is_digit by lia.
  - apply take_digits_snoc; [apply IH, Z.div_pos; lia|]. apply digit_is_digit, Z.mod_pos_bound. lia.
Qed.

(** The first digit of a positive number is not zero. *)
Lemma fmt_digits_first fuel n :
  0 < n -> n < 2 ^ Z.of_nat fuel -> exists d s, 0 < d < 10 /\ fmt_digits 10 fuel n = String (digit_char d) s.
Proof.
  revert n. induction fuel as [|fuel IH]; intros n Hn Hf; [cbn in Hf; lia|]. cbn [fmt_digits]. destruct (Z.ltb_spec n 10).
  - exists n, ""%string. split; [lia|done].
  - rewrite Nat2Z.inj_succ, Z.pow_succ_r in Hf by lia.
    assert (0 < n / 10) by (apply Z.div_str_pos; lia). assert (n / 10 < 2 ^ Z.of_nat fuel).
    { apply Z.div_lt_upper_bound; lia. }
    destruct (IH (n / 10)) as (d & s & Hd & ->); [done|done|]. exists d. by eexists.
Qed.

Lemma unsigned_fmt n : 0 <= n -> unsigned_number (fmt_uint 10 n) = Some (fmt_uint 10 n, EmptyString).
Proof.
  intros Hn. assert (int_part (fmt_uint 10 n) = Some (fmt_uint 10 n, EmptyString)) as E.
  { destruct (Z.eq_dec n 0) as [->|]; [reflexivity|]. unfold fmt_uint.
    destruct (fmt_digits_first (S (Z.to_nat (Z.log2 n))) n ltac:(lia) (log2_fuel n Hn)) as (d & s & Hd & E).
    pose proof (fmt_digits_digits (S (Z.to_nat (Z.log2 n))) n Hn) as Ht. rewrite E in *. unfold int_part.
    destruct (ascii_dec (digit_char d) "0") as [E0|_].
    - apply (f_equal char_digit) in E0. rewrite char_digit_char in E0 by lia. vm_compute in E0. lia.
    - unfold digits1. by rewrite Ht. }
  unfold unsigned_number. rewrite E. cbn. by rewrite str_app_empty.
Qed.

Lemma of_int_wf z : wf (of_int z).
Proof.
  unfold of_int. cbn. unfold fmt_d. destruct (Z.ltb_spec z 0).
  - unfold number. destruct (ascii_dec "-" "-"); [|done]. by rewrite unsigned_fmt by lia.
  - unfold number. pose proof (unsigned_fmt z ltac:(lia)) as Hu. destruct (fmt_uint 10 z) as [|c s] eqn:E; [done|].
    destruct (ascii_dec c "-") as [->|]; [|done]. exfalso. by revert Hu.
Qed.

Lemma into_int_of_int bits z old : 0 < bits -> - 2 ^ (bits - 1) <= z < 2 ^ (bits - 1) -> into_int bits (of_int z) old = Some z.
Proof. intros. unfold into_int, of_int. by rewrite ParseInt_fmt. Qed.

Lemma into_uint_of_int bits z old : 0 <= z < 2 ^ bits -> into_uint bits (of_int z) old = Some z.
Proof. intros. unfold into_uint, of_int, fmt_d. destruct (Z.ltb_spec z 0); [lia|]. by rewrite ParseUint_fmt by lia. Qed.

(** *** No newline in compact text *)

Fixpoint one_line (s : string) : bool := match s with EmptyString => true | String c s' => negb (code c =? 10)%N && one_line s' end.

Lemma one_line_app s u : one_line (s +:+ u) = one_line s && one_line u.
Proof. induction s as [|c s IH]; [done|]. rewrite str_app_cons. cbn. by rewrite IH, andb_assoc. Qed.

Lemma one_line_escape s : one_line (escape s) = true.
Proof.
  induction s as [|c s IH]; [done|]. cbn [escape]. rewrite one_line_app, IH.
  by destruct c as [[] [] [] [] [] [] [] []].
Qed.

Lemma one_line_quote s : one_line (quote s) = true.
Proof. unfold quote. change (one_line (escape s +:+ String quote_mark "") = true). by rewrite one_line_app, one_line_escape. Qed.

Lemma one_line_digits s r : take_digits s = (s, r) -> one_line s = true.
Proof.
  revert r. induction s as [|c s IH]; intros r; [done|]. cbn. destruct (is_digit c) eqn:Hc; [|done].
  destruct (take_digits s) as [x y]. intros [= -> ->]. rewrite (IH r) by done. rewrite andb_true_r.
  revert Hc. destruct c as [[] [] [] [] [] [] [] []]; vm_compute; congruence.
Qed.

Lemma one_line_join d l : Forall (fun s => one_line s = true) l -> one_line d = true -> one_line (join d l) = true.
Proof.
  induction 1 as [|s l Hs Hl IH]; intros Hd; [done|]. destruct l as [|u l]; [done|].
  change (join d (s :: u :: l)) with (s +:+ d +:+ join d (u :: l))%string. by rewrite !one_line_app, Hs, Hd, IH.
Qed.

(** The same for the numbers in it. *)
Fixpoint one_line_numbers (j : json) : Prop :=
  match j with
  | JNum lit => one_line lit = true
  | JArr l => foldr and True (List.map one_line_numbers l)
  | JObj l => foldr and True (List.map (fun m => one_line_numbers m.2) l)
  | _ => True
  end.

Lemma one_line_Marshal_at d j : one_line_numbers j -> one_line (print_at (fun _ => ""%string) ":" d j) = true.
Proof.
  revert d. induction j as [|[]|lit|s|l IH|l IH] using json_induction; intros d Hn; try done.
  - apply one_line_quote.
  - destruct l as [|x l]; [done|]. rewrite print_arr, !one_line_app, !andb_true_r, andb_true_l. apply one_line_join; [|done].
    apply foldr_and_Forall in Hn. rewrite Forall_map. apply (Forall_mp _ _ _ (Forall_impl _ _ _ IH (fun x Hx => Hx (S d)))) in Hn.
    exact Hn.
  - destruct l as [|x l]; [done|]. rewrite print_obj, !one_line_app, !andb_true_r, andb_true_l. apply one_line_join; [|done].
    apply foldr_and_Forall in Hn. rewrite Forall_map. eapply Forall_impl; [exact (Forall_mp _ _ _ (Forall_impl _ _ _ IH (fun x Hx => Hx (S d))) Hn)|].
    intros m Hm. unfold member_text. by rewrite !one_line_app, one_line_quote, Hm.
Qed.

Lemma one_line_Marshal j : one_line_numbers j -> one_line (Marshal j) = true.
Proof. apply one_line_Marshal_at. Qed.

Lemma one_line_fmt z : one_line (fmt_d z) = true.
Proof.
  unfold fmt_d, fmt_uint. destruct (Z.ltb_spec z 0).
  - change (one_line (fmt_digits 10 (S (Z.to_nat (Z.log2 (- z)))) (- z)) = true). eapply one_line_digits, fmt_digits_digits. lia.
  - eapply one_line_digits, fmt_digits_digits. lia.
Qed.

End Json.
