(* ===== verification/Wire.v ===== *)
(** * pkg/ipc: the messages on the socket

    The JSON text of a [Message] (the struct tags and [UnmarshalJSON] of pkg/ipc/ipc.go),
    [Transmit], and the lines the readers of pkg/ipc/link.go and pkg/cep/cep.go take from
    the stream with a [bufio.Scanner].  What is transmitted is received
    ([transmitted_received]). *)

From S2P Require Import Prelude Strconv Regex Conf Json Ipc.
From Stdlib Require Import Ascii.

Module Wire.

Import Json.

(** ** Encoding *)

Definition value_json (v : Value) : json :=
  JObj match v with
       | StateValue s o => [("state", JStr s)] ++ omitempty_int "offset" o
       | GNSSStateValue s | SyncStateValue s | SyncEStateValue s => [("state", JStr s)]
       | ClockClassValue c => [("clock_class", of_int c)]
       | SyncEClockQualityValue q e => [("ql", of_int q); ("extended_ql", of_int e)]
       end.

Definition message_json (m : Message) : json :=
  JObj ([("version", of_int (mVersion m)); ("type", JStr (mType m))]
        ++ omitempty_str "timestamp" (mTimestamp m)
        ++ omitempty_str "profile" (mProfile m)
        ++ omitempty_str "iface" (mIFace m)
        ++ match mValues m with Some v => [("values", value_json v)] | None => [] end).

(** What is written to a writer that does not fail. *)
Definition Transmit (msgs : list Message) : string := String.concat "" (map (fun m => Encode (message_json m)) msgs).

(** ** Decoding *)

(** The local struct of [UnmarshalJSON]; [rValues] is [None] while the raw text is empty. *)
Record raw := mkRaw { rMessage : Message; rValues : option json }.

#[export] Instance raw_fields : Fields raw := fun r => mkRaw (rMessage r) (rValues r).

Definition zero_message : Message := mkMessage 0 "" "" "" "" None.

Definition set_raw (k : string) (v : json) (r : raw) : option raw :=
  let m := rMessage r in
  if names "version" k then x ← into_int 64 v (mVersion m); Some (r <| rMessage := m <| mVersion := x |> |>)
  else if names "type" k then x ← into_string v (mType m); Some (r <| rMessage := m <| mType := x |> |>)
  else if names "timestamp" k then x ← into_string v (mTimestamp m); Some (r <| rMessage := m <| mTimestamp := x |> |>)
  else if names "profile" k then x ← into_string v (mProfile m); Some (r <| rMessage := m <| mProfile := x |> |>)
  else if names "iface" k then x ← into_string v (mIFace m); Some (r <| rMessage := m <| mIFace := x |> |>)
  else if names "values" k then Some (r <| rValues := Some v |>)
  else Some r.

Definition set_state (k : string) (v : json) (s : string) : option string :=
  if names "state" k then into_string v s else Some s.

Definition set_state_offset (k : string) (v : json) (x : string * Z) : option (string * Z) :=
  if names "state" k then s ← into_string v x.1; Some (s, x.2)
  else if names "offset" k then o ← into_int 64 v x.2; Some (x.1, o)
  else Some x.

Definition set_clock_class (k : string) (v : json) (c : Z) : option Z :=
  if names "clock_class" k then into_uint 8 v c else Some c.

Definition set_quality (k : string) (v : json) (x : Z * Z) : option (Z * Z) :=
  if names "ql" k then q ← into_int 64 v x.1; Some (q, x.2)
  else if names "extended_ql" k then e ← into_int 64 v x.2; Some (x.1, e)
  else Some x.

(** The type of the message selects the type of its values. *)
Definition read_values (type : string) (j : json) : option (option Value) :=
  if str_eqb type TypePTPState || str_eqb type TypeOSClockState then
    '(s, o) ← into_struct set_state_offset j (""%string, 0); Some (Some (StateValue s o))
  else if str_eqb type TypeGNSSState then s ← into_struct set_state j ""%string; Some (Some (GNSSStateValue s))
  else if str_eqb type TypeSyncState then s ← into_struct set_state j ""%string; Some (Some (SyncStateValue s))
  else if str_eqb type TypeSyncEState then s ← into_struct set_state j ""%string; Some (Some (SyncEStateValue s))
  else if str_eqb type TypeClockClass then c ← into_struct set_clock_class j 0; Some (Some (ClockClassValue c))
  else if str_eqb type TypeSyncEClockQuality then
    '(q, e) ← into_struct set_quality j (0, 0); Some (Some (SyncEClockQualityValue q e))
  else Some None.

(** [Message.UnmarshalJSON]; [None] is an error. *)
Definition UnmarshalJSON (j : json) : option Message :=
  r ← into_struct set_raw j (mkRaw zero_message None);
  match rValues r with
  | None => Some (rMessage r)
  | Some v => x ← read_values (mType (rMessage r)) v; Some ((rMessage r) <| mValues := x |>)
  end.

(** [json.Unmarshal(data, &msg)]. *)
Definition unmarshal (data : string) : option Message := j ← parse data; UnmarshalJSON j.

(** ** The lines of a stream: [bufio.Scanner]

    The whole input as it arrives until its end.  A line that does not fit the buffer
    ends the scan with an error; what came before it was delivered. *)

Definition MaxScanTokenSize : nat := 64 * 1024.

(** [dropCR]. *)
Fixpoint drop_cr (s : string) : string :=
  match s with
  | EmptyString => EmptyString
  | String c EmptyString => if ascii_dec c (ascii_of_N 13) then EmptyString else s
  | String c s' => String c (drop_cr s')
  end.

(** The text between newlines; what follows the last one only if it is not empty. *)
Fixpoint drop_last_empty (l : list string) : list string :=
  match l with
  | [] => []
  | [s] => if str_eqb s "" then [] else [s]
  | s :: l' => s :: drop_last_empty l'
  end.

Fixpoint take_fitting (l : list string) : list string :=
  match l with
  | s :: l' => if (String.length s <? MaxScanTokenSize)%nat then drop_cr s :: take_fitting l' else []
  | [] => []
  end.

Definition scan_lines (stream : string) : list string := take_fitting (drop_last_empty (Conf.split_on Conf.newline_char stream)).

(** [Link.scan]: the lines that are messages, in their order; the others are skipped. *)
Definition scan (stream : string) : list Message := omap unmarshal (scan_lines stream).

(** ** Round trip *)

Definition in_uint8 (z : Z) : Prop := 0 <= z < 256.

(** The fields are in the range of their types, and the values of the type of the message. *)
Definition well_typed (m : Message) : Prop :=
  in_int64 (mVersion m) /\
  match mValues m with
  | Some (StateValue _ o) => (mType m = TypePTPState \/ mType m = TypeOSClockState) /\ in_int64 o
  | Some (GNSSStateValue _) => mType m = TypeGNSSState
  | Some (SyncStateValue _) => mType m = TypeSyncState
  | Some (SyncEStateValue _) => mType m = TypeSyncEState
  | Some (ClockClassValue c) => mType m = TypeClockClass /\ in_uint8 c
  | Some (SyncEClockQualityValue q e) => mType m = TypeSyncEClockQuality /\ in_int64 q /\ in_int64 e
  | None => True
  end.

Lemma into_int64_of_int z old : in_int64 z -> into_int 64 (of_int z) old = Some z.
Proof. unfold in_int64. intros. by apply into_int_of_int. Qed.

(** The members of the fields before the values. *)
Lemma set_members_app {T} (set : string -> json -> T -> option T) l l' t :
  set_members set (l ++ l') t = t' ← set_members set l t; set_members set l' t'.
Proof. revert t. induction l as [|[k v] l IH]; intros t; [done|]. cbn. destruct (set k v t); [apply IH|done]. Qed.

Lemma set_raw_str name s (get : Message -> string) (put : string -> Message -> Message) r :
  (forall v r, set_raw name v r = x ← into_string v (get (rMessage r)); Some (r <| rMessage := put x (rMessage r) |>)) ->
  put (get (rMessage r)) (rMessage r) = rMessage r -> get (rMessage r) = ""%string ->
  set_members set_raw (omitempty_str name s) r = Some (r <| rMessage := put s (rMessage r) |>).
Proof.
  intros Hset Hid H0. unfold omitempty_str, str_eqb. case_bool_decide as E; cbn.
  - subst s. f_equal. destruct r as [m v]. cbn in *. by rewrite <- H0, Hid.
  - by rewrite Hset.
Qed.

Lemma read_values_json m v :
  well_typed m -> mValues m = Some v -> read_values (mType m) (value_json v) = Some (Some v).
Proof.
  intros [_ Hv] Em. rewrite Em in Hv. unfold value_json. destruct v as [s o|s|s|s|c|q e].
  - destruct Hv as [Ht Ho]. unfold omitempty_int. destruct (Z.eqb_spec o 0) as [->|]; destruct Ht as [-> | ->]; [done|done| |];
      lazy -[of_int into_int in_int64]; by rewrite into_int64_of_int.
  - by rewrite Hv.
  - by rewrite Hv.
  - by rewrite Hv.
  - destruct Hv as [-> Hc]. lazy -[of_int into_uint in_uint8].
    by rewrite (into_uint_of_int 8 c) by done.
  - destruct Hv as (-> & Hq & He). lazy -[of_int into_int in_int64]. rewrite into_int64_of_int by done.
    by rewrite into_int64_of_int.
Qed.

Lemma set_raw_version v r : set_raw "version" v r = x ← into_int 64 v (mVersion (rMessage r)); Some (r <| rMessage := (rMessage r) <| mVersion := x |> |>).
Proof. reflexivity. Qed.

Lemma set_raw_type v r : set_raw "type" v r = x ← into_string v (mType (rMessage r)); Some (r <| rMessage := (rMessage r) <| mType := x |> |>).
Proof. reflexivity. Qed.

Lemma set_raw_values v r : set_raw "values" v r = Some (r <| rValues := Some v |>).
Proof. reflexivity. Qed.

(** A message is read back from its JSON. *)
Lemma UnmarshalJSON_message m : well_typed m -> UnmarshalJSON (message_json m) = Some m.
Proof.
  intros Hw. unfold UnmarshalJSON, message_json. cbn [into_struct].
  rewrite set_members_app. cbn [set_members]. rewrite set_raw_version, into_int64_of_int by apply Hw. cbn [mbind option_bind].
  rewrite set_raw_type. cbn [into_string mbind option_bind].
  rewrite set_members_app.
  rewrite (set_raw_str "timestamp" (mTimestamp m) mTimestamp (fun x m => m <| mTimestamp := x |>)) by done. cbn [mbind option_bind].
  rewrite set_members_app.
  rewrite (set_raw_str "profile" (mProfile m) mProfile (fun x m => m <| mProfile := x |>)) by done. cbn [mbind option_bind].
  rewrite set_members_app.
  rewrite (set_raw_str "iface" (mIFace m) mIFace (fun x m => m <| mIFace := x |>)) by done. cbn [mbind option_bind].
  destruct (mValues m) as [v|] eqn:Ev; cbn [set_members].
  - rewrite set_raw_values. cbn -[value_json read_values]. rewrite (read_values_json m v Hw Ev). cbn. destruct m; cbn in *. by subst.
  - cbn. destruct m; cbn in *. by subst.
Qed.

Lemma message_json_wf m : wf (message_json m).
Proof.
  unfold message_json, omitempty_str, omitempty_int. cbn -[of_int]. split; [apply of_int_wf|]. split; [done|].
  destruct (str_eqb (mTimestamp m) ""), (str_eqb (mProfile m) ""), (str_eqb (mIFace m) ""), (mValues m) as [[s o| | | | |]|];
    cbn -[of_int]; unfold omitempty_int; repeat (case_match); cbn -[of_int]; split_and?; try done; apply of_int_wf.
Qed.

Lemma message_json_numbers m : one_line_numbers (message_json m).
Proof.
  unfold message_json, omitempty_str, omitempty_int. cbn -[of_int]. split; [apply one_line_fmt|]. split; [done|].
  destruct (str_eqb (mTimestamp m) ""), (str_eqb (mProfile m) ""), (str_eqb (mIFace m) ""), (mValues m) as [[s o| | | | |]|];
    cbn -[of_int]; unfold omitempty_int; repeat (case_match); cbn -[of_int]; split_and?; try done; apply one_line_fmt.
Qed.

Lemma unmarshal_message m : well_typed m -> unmarshal (Marshal (message_json m)) = Some m.
Proof. intros Hw. unfold unmarshal. rewrite parse_Marshal by apply message_json_wf. by apply UnmarshalJSON_message. Qed.

(** *** Lines *)

Lemma one_line_without s : one_line s = true -> Regex.all_in (Conf.without Conf.newline_char) s.
Proof.
  induction s as [|c s IH]; [done|]. cbn. rewrite andb_true_iff, negb_true_iff, N.eqb_neq. intros [Hc Hs]. split; [|by apply IH].
  apply Conf.without_spec. intros ->. by apply Hc.
Qed.

Lemma split_texts ls :
  Forall (fun l => one_line l = true) ls ->
  Conf.split_on Conf.newline_char (String.concat "" (map (fun l => l +:+ newline) ls))%string = ls ++ [""%string].
Proof.
  induction 1 as [|l ls Hl Hls IH]; [done|]. cbn [map]. rewrite Conf.concat_cons. unfold newline in *.
  rewrite Regex.str_app_assoc, str_app_cons, str_app_nil. rewrite Conf.split_on_hit by by apply one_line_without.
  cbn [app]. f_equal. exact IH.
Qed.

Lemma drop_last_empty_snoc ls : drop_last_empty (ls ++ [""%string]) = ls.
Proof. induction ls as [|l ls IH]; [done|]. cbn. rewrite IH. by destruct ls. Qed.

Lemma drop_cr_keeps s c : c <> ascii_of_N 13 -> drop_cr (s +:+ String c "") = (s +:+ String c "")%string.
Proof.
  intros Hc. induction s as [|d s IH]; [unfold drop_cr; rewrite str_app_nil; cbv beta iota; by destruct (ascii_dec c (ascii_of_N 13))|]. rewrite str_app_cons. cbn [drop_cr].
  rewrite IH. by destruct s.
Qed.

Lemma Marshal_ends m l : exists s, Marshal (JObj (m :: l)) = (s +:+ "}")%string.
Proof. unfold Marshal. rewrite print_obj. cbn [app]. rewrite <- !Regex.str_app_assoc. by eexists. Qed.

(** The text of a message is of ASCII characters and fits the buffer of the reader. *)
Fixpoint is_ascii (s : string) : bool := match s with EmptyString => true | String c s' => (code c <? 128)%N && is_ascii s' end.

Definition fits (m : Message) : Prop :=
  is_ascii (Marshal (message_json m)) = true /\ (String.length (Marshal (message_json m)) < MaxScanTokenSize)%nat.

Lemma take_fitting_messages msgs :
  Forall fits msgs -> take_fitting (map (fun m => Marshal (message_json m)) msgs) = map (fun m => Marshal (message_json m)) msgs.
Proof.
  induction 1 as [|m msgs [_ Hm] _ IH]; [done|]. cbn [map take_fitting]. rewrite (proj2 (Nat.ltb_lt _ _) Hm), IH. f_equal.
  unfold message_json. cbn [app]. edestruct Marshal_ends as [s ->]. by apply drop_cr_keeps.
Qed.

Lemma scan_lines_Transmit msgs : Forall fits msgs -> scan_lines (Transmit msgs) = map (fun m => Marshal (message_json m)) msgs.
Proof.
  intros Hf. unfold scan_lines, Transmit, Encode.
  rewrite <- (List.map_map (fun m => Marshal (message_json m)) (fun l => l +:+ newline)%string).
  rewrite split_texts, drop_last_empty_snoc; [by apply take_fitting_messages|].
  rewrite Forall_map. apply Forall_forall. intros m _. apply one_line_Marshal, message_json_numbers.
Qed.

(** ** Properties *)

(** C23. The daemon and cloud-event-proxy understand each other: whatever well-typed
    messages of ASCII text are transmitted one after the other, control characters,
    quotes and newlines in their fields included, the reader at the other end takes
    exactly these messages in this order from the stream. *)
Theorem transmitted_received msgs : Forall well_typed msgs -> Forall fits msgs -> scan (Transmit msgs) = msgs.
Proof.
  intros Hw Hf. unfold scan. rewrite scan_lines_Transmit by done. clear Hf.
  induction Hw as [|m msgs Hm _ IH]; [done|]. cbn [map omap list_omap]. by rewrite unmarshal_message, IH.
Qed.

(** A stream of three messages: one with a newline, quotes and angle brackets in its
    profile, one of a negative offset and one without values. *)
Lemma transmitted_received_witness :
  let msgs := [mkMessage 1 TypeGNSSState "t" ("ts2phc" +:+ newline +:+ String quote_mark "<0>") "" (Some (GNSSStateValue "SYNCHRONIZED"));
               mkMessage 1 TypePTPState "" "" "ens1f0" (Some (StateValue StateFreerun (-37)));
               mkMessage 1 TypeStatusRequest "" "" "" None] in
  scan (Transmit msgs) = msgs /\ length (scan_lines (Transmit msgs)) = 3%nat.
Proof.
  cbv zeta. split; [|vm_compute; reflexivity]. apply transmitted_received.
  - repeat (apply Forall_cons; split); [..|constructor]; vm_compute; try done; split_and?; try done; by left.
  - repeat (apply Forall_cons; split); [..|constructor]; (split; [|apply Nat.ltb_lt]); vm_compute; reflexivity.
Defined.

End Wire.
