(* ===== verification/Link.v ===== *)
(** * pkg/ipc/link.go and pkg/utils/reconnect.go: the connection to cloud-event-proxy

    [ReconnectWithBackoff] is a function of what the context and the dial function do at
    each attempt.  A [Link] serves one connection after the other: it forwards the
    messages of the cache's channel and answers a status request with a snapshot.  The
    step relation runs it against the clock manager, which fills the cache, and a peer
    that remembers the last values of each key; connections break at any time and writes
    fail.  Once the snapshot was written and all was delivered, the peer knows every
    value of the cache ([link_converges]), as long as the channel was never full. *)

From S2P Require Import Prelude Ipc.

(** ** pkg/utils/reconnect.go *)
Module Reconnect.

Definition millisecond : Z := 1000000.
Definition DefaultMaxReconnectAttempts : Z := 10.
Definition DefaultReconnectBackoffBase : Z := 100 * millisecond.
Definition DefaultMaxReconnectBackoff : Z := 5000 * millisecond.

Record ReconnectConfig := mkReconnect { MaxAttempts : Z; BackoffBase : Z; MaxBackoff : Z }.

Definition DefaultReconnectConfig : ReconnectConfig :=
  mkReconnect DefaultMaxReconnectAttempts DefaultReconnectBackoffBase DefaultMaxReconnectBackoff.

Section Attempts.
  Context {Conn Error : Type}.

(** What happens at an attempt: whether the context is done before it, what the dial
    function returns, whether the context ends during the wait that follows. *)
Record attempt_env := mkAttempt { done_before : bool; dialled : Conn + Error; done_waiting : bool }.

Inductive result :=
| Connected (c : Conn)
| Cancelled                    (* [ctx.Err()] *)
| Exhausted (last : option Error).

(** The result, the waits and the number of calls of the dial function. *)
Record outcome := mkOutcome { res : result; waits : list Z; dials : nat }.

Definition double (backoff max : Z) : Z := let b := int64 (2 * backoff) in if max <? b then max else b.

Fixpoint attempts (cfg : ReconnectConfig) (env : nat -> attempt_env) (remaining : nat) (attempt : nat) (backoff : Z)
    (lastErr : option Error) : outcome :=
  match remaining with
  | O => mkOutcome (Exhausted lastErr) [] 0
  | S remaining' =>
      let e := env attempt in
      if done_before e then mkOutcome Cancelled [] 0
      else
        match dialled e with
        | inl c => mkOutcome (Connected c) [] 1
        | inr err =>
            if Z.of_nat attempt <? MaxAttempts cfg then
              if done_waiting e then mkOutcome Cancelled [backoff] 1
              else
                let o := attempts cfg env remaining' (S attempt) (double backoff (MaxBackoff cfg)) (Some err) in
                mkOutcome (res o) (backoff :: waits o) (S (dials o))
            else
              let o := attempts cfg env remaining' (S attempt) backoff (Some err) in
              mkOutcome (res o) (waits o) (S (dials o))
        end
  end.

Definition ReconnectWithBackoff (cfg : ReconnectConfig) (env : nat -> attempt_env) : outcome :=
  attempts cfg env (Z.to_nat (MaxAttempts cfg)) 1 (BackoffBase cfg) None.

(** ** Reference: the wait after attempt [i] (from 0) of an exponential back-off *)
Fixpoint backoff_at (cfg : ReconnectConfig) (i : nat) : Z :=
  match i with O => BackoffBase cfg | S i' => Z.min (2 * backoff_at cfg i') (MaxBackoff cfg) end.

Definition sane (cfg : ReconnectConfig) : Prop := 0 <= BackoffBase cfg <= MaxBackoff cfg /\ MaxBackoff cfg < 2 ^ 62.

Lemma backoff_bounds cfg i : sane cfg -> 0 <= backoff_at cfg i <= MaxBackoff cfg.
Proof. intros [Hs Hm]. induction i as [|i IH]; cbn [backoff_at]; lia. Qed.

Lemma double_spec cfg i : sane cfg -> double (backoff_at cfg i) (MaxBackoff cfg) = backoff_at cfg (S i).
Proof.
  intros Hs. pose proof (backoff_bounds cfg i Hs). destruct Hs. unfold double. rewrite int64_id by (unfold in_int64; lia).
  cbn [backoff_at]. destruct (Z.ltb_spec (MaxBackoff cfg) (2 * backoff_at cfg i)); lia.
Qed.

(** A failed attempt after which the next one is made. *)
Definition failed (e : attempt_env) (err : Error) : Prop := done_before e = false /\ dialled e = inr err.

(** How the run from attempt [i+1] on ends. *)
Inductive ends (cfg : ReconnectConfig) (env : nat -> attempt_env) : nat -> outcome -> Prop :=
| EndConnected i c : done_before (env (S i)) = false -> dialled (env (S i)) = inl c ->
    Z.of_nat i < MaxAttempts cfg -> ends cfg env i (mkOutcome (Connected c) [] 1)
| EndDone i : done_before (env (S i)) = true -> Z.of_nat i < MaxAttempts cfg -> ends cfg env i (mkOutcome Cancelled [] 0)
| EndWaiting i err : failed (env (S i)) err -> done_waiting (env (S i)) = true -> Z.of_nat (S i) < MaxAttempts cfg ->
    ends cfg env i (mkOutcome Cancelled [backoff_at cfg i] 1)
| EndExhausted i err : failed (env (S i)) err -> MaxAttempts cfg = Z.of_nat (S i) ->
    ends cfg env i (mkOutcome (Exhausted (Some err)) [] 1)
| EndLater i err r ws n : failed (env (S i)) err -> done_waiting (env (S i)) = false -> Z.of_nat (S i) < MaxAttempts cfg ->
    ends cfg env (S i) (mkOutcome r ws n) -> ends cfg env i (mkOutcome r (backoff_at cfg i :: ws) (S n)).

Lemma attempts_end cfg env remaining i err :
  sane cfg -> MaxAttempts cfg = Z.of_nat i + Z.of_nat (S remaining) ->
  ends cfg env i (attempts cfg env (S remaining) (S i) (backoff_at cfg i) err).
Proof.
  intros Hs. revert i err. induction remaining as [|remaining IH]; intros i err Hi.
  - cbn [attempts]. destruct (done_before _) eqn:Hb; [by constructor; [|lia]|].
    destruct (dialled _) as [c|e] eqn:Hd; [constructor; [done|done|lia]|].
    destruct (Z.ltb_spec (Z.of_nat (S i)) (MaxAttempts cfg)); [lia|]. cbn. econstructor; [done|lia].
  - specialize (IH (S i)). remember (S remaining) as k. cbn [attempts].
    destruct (done_before _) eqn:Hb; [by constructor; [|lia]|].
    destruct (dialled _) as [c|e] eqn:Hd; [constructor; [done|done|lia]|].
    destruct (Z.ltb_spec (Z.of_nat (S i)) (MaxAttempts cfg)); [|lia].
    destruct (done_waiting _) eqn:Hw; [econstructor; [done|done|lia]|]. rewrite double_spec by done.
    specialize (IH (Some e) ltac:(lia)). destruct (attempts cfg env k _ _ _) as [r ws n]. by econstructor.
Qed.

Lemma ends_bounds cfg env i o :
  ends cfg env i o ->
  Z.of_nat i + Z.of_nat (dials o) <= MaxAttempts cfg /\ (length (waits o) <= dials o)%nat /\
  waits o = map (backoff_at cfg) (seq i (length (waits o))).
Proof.
  induction 1 as [i c ? ? ?|i ? ?|i err ? ? ?|i err ? ?|i err r ws n ? ? ? _ IH]; cbn; split_and?; try lia; try done.
  - destruct IH as (Hd & _ & _). cbn in Hd. lia.
  - destruct IH as (_ & Hl & _). cbn in Hl. lia.
  - destruct IH as (_ & _ & Hw). cbn in Hw. f_equal. exact Hw.
Qed.

(** Reconnection is bounded and backs off exponentially: whatever the context and the
    dial function do, there are no more dials than attempts, the waits between them are
    those of the doubling sequence capped at the maximum, in this order, and the run ends
    with the connection of the last dial, with the cancellation of the context, or with
    the error of the last of all attempts. *)
Theorem reconnect_bounded cfg env :
  sane cfg -> 0 < MaxAttempts cfg ->
  let o := ReconnectWithBackoff cfg env in
  ends cfg env 0 o /\
  Z.of_nat (dials o) <= MaxAttempts cfg /\
  waits o = map (backoff_at cfg) (seq 0 (length (waits o))) /\
  (length (waits o) <= dials o)%nat /\ Forall (fun w => 0 <= w <= MaxBackoff cfg) (waits o).
Proof.
  intros Hs Hm. cbv zeta. unfold ReconnectWithBackoff. destruct (Z.to_nat (MaxAttempts cfg)) as [|n] eqn:En; [lia|].
  pose proof (attempts_end cfg env n 0 None Hs ltac:(lia)) as He. cbn [backoff_at] in He. split; [done|].
  apply ends_bounds in He as (H1 & H2 & H3). split_and!; [lia|done|done|]. rewrite H3. apply Forall_map, Forall_forall.
  intros i _. by apply backoff_bounds.
Qed.
End Attempts.

Arguments mkAttempt {Conn Error}.

Lemma reconnect_bounded_witness :
  waits (ReconnectWithBackoff DefaultReconnectConfig (fun _ => mkAttempt (Conn := unit) false (inr "refused"%string) false))
  = [100; 200; 400; 800; 1600; 3200; 5000; 5000; 5000] ≫= (fun ms => [ms * millisecond]).
Proof.
  rewrite (proj1 (proj2 (proj2 (reconnect_bounded DefaultReconnectConfig
    (fun _ => mkAttempt (Conn := unit) false (inr "refused"%string) false)
    ltac:(split; [split|]; by vm_compute) ltac:(reflexivity))))).
  vm_compute. reflexivity.
Defined.

(** The first wait is not capped. *)
Lemma first_wait_uncapped :
  waits (ReconnectWithBackoff (mkReconnect 2 9 5) (fun _ => mkAttempt (Conn := unit) false (inr tt) false)) = [9].
Proof. reflexivity. Qed.

(** Without attempts the error wraps no error. *)
Lemma no_attempts_no_error :
  res (ReconnectWithBackoff (mkReconnect 0 1 1) (fun _ => mkAttempt (Conn := unit) (Error := unit) false (inl tt) false)) = Exhausted None.
Proof. reflexivity. Qed.

End Reconnect.

(** ** pkg/ipc/link.go *)
Module Link.

(** [dial]: rounds of reconnection until one connects or the context is done after one
    that failed.  [rounds i] is the outcome of the [i]-th call of [ReconnectWithBackoff];
    [done i] whether the context is done after it. *)
Fixpoint dial {Conn Error} (rounds : nat -> @Reconnect.result Conn Error) (done : nat -> bool) (fuel i : nat) : option (option Conn) :=
  match fuel with
  | O => None
  | S fuel' =>
      match rounds i with
      | Reconnect.Connected c => Some (Some c)
      | _ => if done i then Some None else dial rounds done fuel' (S i)
      end
  end.

(** What a write to the socket did: it succeeded, or it failed and the line arrived
    all the same or not. *)
Inductive write_result := Written | Failed (arrived : bool).

(** [transmit] of one message after the other until one fails: what arrived, and whether
    no error occurred. *)
Fixpoint transmits (rs : list write_result) (msgs : list Message) : list Message * bool :=
  match msgs with
  | [] => ([], true)
  | m :: msgs' =>
      match rs with
      | Failed arrived :: _ => ((if arrived then [m] else []), false)
      | Written :: rs' => let '(out, ok) := transmits rs' msgs' in (m :: out, ok)
      | [] => let '(out, ok) := transmits [] msgs' in (m :: out, ok)
      end
  end.

(** What [serve] takes from its three channels.  A status message comes with the order in
    which the snapshot ranges over the cache. *)
Inductive input :=
| CtxDone
| StatusClosed
| Status (msg : Message) (snapshot : list Message)
| CacheOut.

(** One round of the loop of [serve]: the cache, what arrived at the peer, and whether
    the loop goes on. *)
Definition serve (i : input) (rs : list write_result) (c : Cache) : Cache * (list Message * bool) :=
  match i with
  | CtxDone | StatusClosed => (c, ([], false))
  | Status msg snapshot => if str_eqb (mType msg) TypeStatusRequest then (c, transmits rs snapshot) else (c, ([], true))
  | CacheOut => match receive c with Some (m, c') => (c', transmits rs [m]) | None => (c, ([], true)) end
  end.

(** An input that is possible with this cache. *)
Definition possible (c : Cache) (i : input) : Prop :=
  match i with
  | Status _ snapshot => snapshot ≡ₚ Snapshot c
  | CacheOut => outCh c <> []
  | _ => True
  end.

(** ** The system *)

(** What a peer knows: the last values of each key since the last clear. *)
Abbreviation known := (gmap cacheKey (option Value)).

Definition learn (v : known) (m : Message) : known :=
  if str_eqb (mType m) TypeCacheClear then ∅ else <[key_of m := mValues m]> v.

Definition learn_all (v : known) (ms : list Message) : known := foldl learn v ms.

(** [wire]: what was written and not yet read; [told]: the status request of this
    connection was answered in full; [full]: a message was dropped since the start. *)
Record System := mkSystem {
  cache : Cache;
  up : bool;
  wire : list Message;
  told : bool;
  full : bool;
  peer : known
}.

#[export] Instance System_fields : Fields System := fun s => mkSystem (cache s) (up s) (wire s) (told s) (full s) (peer s).

Definition is_full (c : Cache) : bool := negb (Z.of_nat (length (outCh c)) <? bufSize c).

(** The completed status request. *)
Definition answers (i : input) : bool := match i with Status msg _ => str_eqb (mType msg) TypeStatusRequest | _ => false end.

Inductive step (s : System) : System -> Prop :=
(* the clock manager *)
| StepSend now m : mType m <> TypeCacheClear ->
    step s (s <| cache := (Send now m (cache s)).1 |> <| full := full s || ((Send now m (cache s)).2 && is_full (cache s)) |>)
| StepClear : step s (s <| cache := Clear (cache s) |> <| full := full s || is_full (cache s) |>)
(* the link *)
| StepConnect : up s = false -> step s (s <| up := true |> <| wire := [] |> <| told := false |>)
| StepServe i rs c out ok : up s = true -> possible (cache s) i -> serve i rs (cache s) = (c, (out, ok)) ->
    step s (s <| cache := c |> <| wire := wire s ++ out |> <| up := ok |> <| told := ok && (told s || answers i) |>)
(* the peer reads a message, also what was sent before the connection broke *)
| StepRead m rest : wire s = m :: rest -> step s (s <| wire := rest |> <| peer := learn (peer s) m |>)
| StepBreak : step s (s <| wire := [] |> <| up := false |> <| told := false |>).

Definition start (n : Z) (p : known) : System := mkSystem (NewCache n) false [] false false p.

Inductive reachable (n : Z) (p : known) : System -> Prop :=
| ReachStart : reachable n p (start n p)
| ReachStep s s' : reachable n p s -> step s s' -> reachable n p s'.

(** ** What a list of messages says about a key *)

(** [None]: nothing; [Some None]: it is cleared; [Some (Some v)]: its values are [v]. *)
Definition says1 (m : Message) (k : cacheKey) : option (option (option Value)) :=
  if str_eqb (mType m) TypeCacheClear then Some None else if decide (key_of m = k) then Some (Some (mValues m)) else None.

Fixpoint says (ms : list Message) (k : cacheKey) : option (option (option Value)) :=
  match ms with
  | [] => None
  | m :: ms' => match says ms' k with Some x => Some x | None => says1 m k end
  end.

Definition update {A} (x : option A) (old : A) : A := default old x.

Lemma learn_lookup v m k : learn v m !! k = update (says1 m k) (v !! k).
Proof.
  unfold learn, says1. destruct (str_eqb _ _); [by rewrite lookup_empty|]. case_decide as E.
  - subst k. by rewrite lookup_insert_eq.
  - by rewrite lookup_insert_ne.
Qed.

Lemma learn_all_lookup ms v k : learn_all v ms !! k = update (says ms k) (v !! k).
Proof.
  revert v. induction ms as [|m ms IH]; intros v; [done|]. change (learn_all v (m :: ms)) with (learn_all (learn v m) ms).
  rewrite IH, learn_lookup. cbn [says]. by destruct (says ms k).
Qed.

Lemma says_app ms ms' k : says (ms ++ ms') k = match says ms' k with Some x => Some x | None => says ms k end.
Proof. induction ms as [|m ms IH]; cbn [app says]; [by destruct (says ms' k)|]. rewrite IH. by destruct (says ms' k). Qed.

(** ** The invariant *)

Definition values_of (c : Cache) : known := mValues <$> store c.

(** Entries are stored under their key and are no clears. *)
Definition keyed (c : Cache) : Prop := forall k m, store c !! k = Some m -> key_of m = k /\ mType m <> TypeCacheClear.

(** What the channel says is what the cache holds. *)
Definition queued (c : Cache) : Prop := forall k x, says (outCh c) k = Some x -> values_of c !! k = x.

(** Once all was delivered the peer knows what the cache holds. *)
Definition agrees (s : System) : Prop :=
  forall k m, store (cache s) !! k = Some m -> learn_all (peer s) (wire s ++ outCh (cache s)) !! k = Some (mValues m).

Definition Inv (s : System) : Prop :=
  keyed (cache s) /\ (full s = false -> queued (cache s) /\ (told s = true -> agrees s)).

Lemma says1_key m k : mType m <> TypeCacheClear -> says1 m k = if decide (key_of m = k) then Some (Some (mValues m)) else None.
Proof. unfold says1, str_eqb. intros. by rewrite bool_decide_eq_false_2. Qed.

Lemma learn_all_app v ms ms' : learn_all v (ms ++ ms') = learn_all (learn_all v ms) ms'.
Proof. apply foldl_app. Qed.

(** A message says about its key what the cache stores, when it fits the channel. *)
Lemma try_send_fits m c : is_full c = false -> outCh (try_send m c) = outCh c ++ [m].
Proof. unfold is_full, try_send. by destruct (_ <? _). Qed.

Lemma complete_type now m : mType (complete now m) = mType m.
Proof. unfold complete. by repeat case_match. Qed.

Lemma keyed_Send now m c : keyed c -> mType m <> TypeCacheClear -> keyed (Send now m c).1.
Proof.
  intros Hk Hm. destruct (Send_cases now m c) as [(prev & _ & _ & _ & ->)|[_ ->]]; [done|]. intros k x. cbn [fst].
  rewrite try_send_store. cbn. destruct (decide (key_of m = k)) as [<-|].
  - rewrite lookup_insert_eq. intros [= <-]. by rewrite complete_key, complete_type.
  - rewrite lookup_insert_ne by done. apply Hk.
Qed.

(** [Send] either changes nothing or says its message. *)
Lemma Send_says now m c :
  (Send now m c).2 && is_full c = false -> mType m <> TypeCacheClear ->
  (Send now m c).1 = c \/
  (values_of (Send now m c).1 = <[key_of m := mValues m]> (values_of c) /\
   exists m', outCh (Send now m c).1 = outCh c ++ [m'] /\ forall k, says1 m' k = if decide (key_of m = k) then Some (Some (mValues m)) else None).
Proof.
  intros Hf Hm. pose proof (Send_store_values now m c) as Hv.
  destruct (Send_cases now m c) as [(prev & _ & _ & _ & E)|[_ E]]; rewrite E in *; [by left|right]. split; [done|].
  exists (complete now m). cbn [fst snd] in *. split; [by rewrite try_send_fits|].
  intros k. by rewrite says1_key, complete_key, complete_values by by rewrite complete_type.
Qed.

Lemma lookup_values c k x : values_of c !! k = Some x <-> exists m, store c !! k = Some m /\ mValues m = x.
Proof. unfold values_of. rewrite lookup_fmap, fmap_Some. split; intros (m & H1 & H2); exists m; by split. Qed.

Lemma agrees_values s : agrees s <-> (forall k x, values_of (cache s) !! k = Some x -> learn_all (peer s) (wire s ++ outCh (cache s)) !! k = Some x).
Proof.
  split.
  - intros H k x (m & Hm & <-)%lookup_values. by apply H.
  - intros H k m Hm. apply H, lookup_values. by eexists.
Qed.

Lemma Inv_Send s now m :
  Inv s -> mType m <> TypeCacheClear ->
  Inv (s <| cache := (Send now m (cache s)).1 |> <| full := full s || ((Send now m (cache s)).2 && is_full (cache s)) |>).
Proof.
  intros [Hk Hq] Hm. split; [by apply keyed_Send|]. cbn [full cache upd].
  intros [Hf Hd]%orb_false_iff. destruct (Hq Hf) as [Hqu Hag].
  destruct (Send_says now m (cache s) Hd Hm) as [E|(Hv & m' & Ho & Hs)].
  - rewrite agrees_values. cbn. rewrite E. split; [done|]. intros Ht. apply agrees_values. exact (Hag Ht).
  - split.
    + intros k x. cbn. rewrite Ho, says_app. cbn [says]. rewrite Hs, Hv. case_decide as E.
      * intros [= <-]. by rewrite <- E, lookup_insert_eq.
      * rewrite lookup_insert_ne by done. apply Hqu.
    + intros Ht. apply agrees_values. specialize (Hag Ht). rewrite agrees_values in Hag. cbn. intros k x.
      rewrite Hv, Ho, app_assoc, learn_all_app. change (learn_all ?v [m']) with (learn v m'). rewrite learn_lookup, Hs.
      case_decide as E; [by rewrite <- E, lookup_insert_eq|]. rewrite lookup_insert_ne by done. apply Hag.
Qed.

Lemma Inv_Clear s : Inv s -> Inv (s <| cache := Clear (cache s) |> <| full := full s || is_full (cache s) |>).
Proof.
  intros [Hk Hq]. assert (store (Clear (cache s)) = ∅) as Es by (unfold Clear; by rewrite try_send_store).
  split; [intros k m; cbn; by rewrite Es, lookup_empty|].
  cbn. intros [Hf Hd]%orb_false_iff. split.
  - intros k x. unfold values_of. rewrite Es. unfold Clear. rewrite try_send_fits by done. rewrite says_app. cbn.
    intros [= <-]. by rewrite fmap_empty, lookup_empty.
  - intros _ k m. cbn. by rewrite Es, lookup_empty.
Qed.

(** *** The link *)

Lemma transmits_ok rs ms out : transmits rs ms = (out, true) -> out = ms.
Proof.
  revert rs out. induction ms as [|m ms IH]; intros rs out; cbn; [by intros [= <-]|]. destruct rs as [|[|a] rs].
  - destruct (transmits [] ms) as [o ok] eqn:E. intros [= <- ->]. f_equal. by eapply IH.
  - destruct (transmits rs ms) as [o ok] eqn:E. intros [= <- ->]. f_equal. by eapply IH.
  - done.
Qed.

(** Messages that are no clears, with a single one for a key. *)
Lemma says_only l k m :
  (forall x, x ∈ l -> mType x <> TypeCacheClear) -> (forall x, x ∈ l -> key_of x = k -> x = m) ->
  m ∈ l -> key_of m = k -> says l k = Some (Some (mValues m)).
Proof.
  intros Hc Hu Hm Hk. assert (says l k = None -> m ∉ l) as Hn.
  { clear Hu Hm. induction l as [|y l IH]; [intros _; apply not_elem_of_nil|]. cbn [says].
    destruct (says l k); [done|]. rewrite says1_key by (apply Hc; left). case_decide as Ey; [done|]. intros _ [->|Hin]%elem_of_cons; [done|].
    apply IH; [|done|done]. intros x Hx. apply Hc. by right. }
  assert (forall x, says l k = Some x -> x = Some (mValues m)) as Hs.
  { clear Hm Hn. induction l as [|y l IH]; intros x; [done|]. cbn [says]. destruct (says l k) as [z|].
    - intros [= <-]. apply IH; [| |done]; intros u Hu'; [apply Hc|apply Hu]; by right.
    - rewrite says1_key by (apply Hc; left). case_decide as Ey; [|done]. intros [= <-]. by rewrite (Hu y) by (done || left). }
  destruct (says l k) as [x|]; [by rewrite (Hs x)|by destruct (Hn eq_refl)].
Qed.

(** A snapshot in any order says what the cache holds. *)
Lemma says_snapshot c l k m : keyed c -> l ≡ₚ Snapshot c -> store c !! k = Some m -> says l k = Some (Some (mValues m)).
Proof.
  intros Hk Hl Hm.
  assert (forall x, x ∈ l -> store c !! key_of x = Some x /\ mType x <> TypeCacheClear) as Hin.
  { intros x Hx. rewrite Hl in Hx. apply list_elem_of_fmap in Hx as ([k' x'] & -> & Hx). apply elem_of_map_to_list in Hx.
    cbn. by destruct (Hk _ _ Hx) as [-> ?]. }
  apply says_only.
  - intros x Hx. by apply Hin.
  - intros x Hx <-. apply Hin in Hx as [Hx _]. congruence.
  - rewrite Hl. apply list_elem_of_fmap. exists (k, m). split; [done|]. by apply elem_of_map_to_list.
  - by apply Hk.
Qed.

Lemma keyed_serve i rs c c' r : serve i rs c = (c', r) -> store c' = store c.
Proof.
  destruct i; cbn; try (by intros [= <- _]).
  - by destruct (str_eqb _ _); intros [= <- _].
  - destruct (receive c) as [[m c1]|] eqn:E; intros [= <- _]; [|done]. unfold receive in E. destruct (outCh c); [done|].
    by injection E as _ <-.
Qed.

Lemma queued_tail c m rest : queued c -> outCh c = m :: rest -> queued (c <| outCh := rest |>).
Proof. intros Hq E k x Hx. apply (Hq k x). rewrite E. cbn in Hx |- *. by rewrite Hx. Qed.

Lemma agrees_snapshot s l : keyed (cache s) -> queued (cache s) -> l ≡ₚ Snapshot (cache s) -> agrees (s <| wire := wire s ++ l |>).
Proof.
  intros Hk Hq Hl k m Hm. cbn in *. rewrite learn_all_lookup, says_app. destruct (says (outCh _) k) as [x|] eqn:E.
  - apply Hq in E. cbn. rewrite <- E. apply lookup_values. by eexists.
  - by rewrite says_app, (says_snapshot _ _ _ _ Hk Hl Hm).
Qed.

Lemma Inv_serve s i rs c out ok :
  Inv s -> possible (cache s) i -> serve i rs (cache s) = (c, (out, ok)) ->
  Inv (s <| cache := c |> <| wire := wire s ++ out |> <| up := ok |> <| told := ok && (told s || answers i) |>).
Proof.
  intros [Hk Hq] Hp Hs. pose proof (keyed_serve _ _ _ _ _ Hs) as Est. split; [intros k m; cbn; rewrite Est; apply Hk|].
  cbn. intros Hf. destruct (Hq Hf) as [Hqu Hag]. destruct i as [| |msg l|]; cbn in Hs.
  - injection Hs as <- <- <-. by split.
  - injection Hs as <- <- <-. by split.
  - destruct (str_eqb (mType msg) TypeStatusRequest) eqn:Et.
    + injection Hs as <- Ht. split; [done|]. intros [-> _]%andb_true_iff. apply transmits_ok in Ht as ->.
      by apply (agrees_snapshot s l).
    + injection Hs as <- <- <-. split; [done|]. cbn. rewrite Et, orb_false_r. intros Ht k m Hm. cbn. rewrite app_nil_r. by apply (Hag Ht).
  - unfold receive in Hs. destruct (outCh (cache s)) as [|m rest] eqn:Eo; [by destruct (Hp Eo)|]. injection Hs as <- Ht.
    split; [by apply queued_tail with m|]. intros [-> Hto]%andb_true_iff. apply (transmits_ok rs [m]) in Ht as ->. cbn in Hto. rewrite orb_false_r in Hto.
    specialize (Hag Hto). intros k x Hx. cbn in *. rewrite <- app_assoc. cbn. rewrite <- Eo. by apply Hag.
Qed.

Lemma Inv_step s s' : Inv s -> step s s' -> Inv s'.
Proof.
  intros HI. pose proof HI as [Hk Hq]. inversion 1 as [now m Hm| |Hu|i rs c out ok Hu Hp Hs|m rest Hw|]; subst.
  - by apply Inv_Send.
  - by apply Inv_Clear.
  - split; [done|]. cbn. intros Hf. split; [by apply Hq|done].
  - by eapply Inv_serve.
  - split; [done|]. cbn. intros Hf. destruct (Hq Hf) as [Hqu Hag]. split; [done|]. intros Ht k x Hx. cbn in *.
    specialize (Hag Ht k x Hx). rewrite Hw in Hag. exact Hag.
  - split; [done|]. cbn. intros Hf. split; [by apply Hq|done].
Qed.

Lemma Inv_reachable n p s : reachable n p s -> Inv s.
Proof. induction 1 as [|s s' _ IH Hs]; [done|by eapply Inv_step]. Qed.

(** C20. cloud-event-proxy converges to the state of the daemon.  Whatever was sent and
    cleared, however often the connection broke, whatever writes failed and whatever the
    peer knew before: once the status request of a connection was answered and everything
    was delivered, the peer knows the last values of every key in the cache, provided no
    message ever found the channel full. *)
Theorem link_converges n p s :
  reachable n p s -> full s = false -> told s = true -> wire s = [] -> outCh (cache s) = [] ->
  forall k m, store (cache s) !! k = Some m -> peer s !! k = Some (mValues m).
Proof.
  intros [_ Hq]%Inv_reachable Hf Ht Hw Ho k m Hm. destruct (Hq Hf) as [_ Hag]. specialize (Hag Ht k m Hm).
  by rewrite Hw, Ho in Hag.
Qed.

(** Runs given step by step. *)
Inductive action :=
| ASend (m : Message)
| AClear
| AConnect
| AServe (i : input) (rs : list write_result)
| ARead
| ABreak.

Definition run1 (s : System) (a : action) : option System :=
  match a with
  | ASend m =>
      if str_eqb (mType m) TypeCacheClear then None
      else Some (s <| cache := (Send "now" m (cache s)).1 |> <| full := full s || ((Send "now" m (cache s)).2 && is_full (cache s)) |>)
  | AClear => Some (s <| cache := Clear (cache s) |> <| full := full s || is_full (cache s) |>)
  | AConnect => if up s then None else Some (s <| up := true |> <| wire := [] |> <| told := false |>)
  | AServe i rs =>
      if up s then
        if match i with Status _ l => bool_decide (l = Snapshot (cache s)) | CacheOut => negb (bool_decide (outCh (cache s) = [])) | _ => true end then
          let '(c, (out, ok)) := serve i rs (cache s) in
          Some (s <| cache := c |> <| wire := wire s ++ out |> <| up := ok |> <| told := ok && (told s || answers i) |>)
        else None
      else None
  | ARead => match wire s with m :: rest => Some (s <| wire := rest |> <| peer := learn (peer s) m |>) | [] => None end
  | ABreak => Some (s <| wire := [] |> <| up := false |> <| told := false |>)
  end.

Fixpoint runs (s : System) (l : list action) : option System :=
  match l with [] => Some s | a :: l' => s' ← run1 s a; runs s' l' end.

Lemma run1_step s a s' : run1 s a = Some s' -> step s s'.
Proof.
  destruct a as [m| | |i rs| |]; cbn.
  - unfold str_eqb. case_bool_decide; [done|]. intros [= <-]. by constructor.
  - intros [= <-]. constructor.
  - destruct (up s) eqn:Hu; [done|]. intros [= <-]. by constructor.
  - destruct (up s) eqn:Hu; [|done]. destruct (match i with Status _ l => _ | CacheOut => _ | _ => _ end) eqn:Hi; [|done].
    destruct (serve i rs (cache s)) as [c [out ok]] eqn:Hs. intros [= <-]. eapply StepServe; [done| |done].
    destruct i; cbn; try done; [by apply bool_decide_eq_true in Hi as ->|].
    apply negb_true_iff, bool_decide_eq_false in Hi. exact Hi.
  - destruct (wire s) as [|m rest] eqn:Hw; [done|]. intros [= <-]. by constructor.
  - intros [= <-]. constructor.
Qed.

Lemma runs_reachable n p s l s' : reachable n p s -> runs s l = Some s' -> reachable n p s'.
Proof.
  revert s. induction l as [|a l IH]; intros s Hr; cbn; [by intros [= <-]|].
  destruct (run1 s a) as [s1|] eqn:E; [|done]. apply IH. eapply ReachStep; [done|]. by eapply run1_step.
Qed.

Definition some_state (st : string) : Message := mkMessage 1 TypeSyncState "t" "ptp4l.0.config" "" (Some (SyncStateValue st)).
Definition request : Message := mkMessage 1 TypeStatusRequest "" "" "" None.

Lemma link_converges_witness :
  let m := some_state StateFreerun in
  exists s, runs (start 2 ∅) [ASend (some_state StateLocked); ASend m; AConnect; AServe CacheOut [Failed false]; AConnect;
                              AServe (Status request [m]) []; AServe CacheOut []; ARead; ARead] = Some s /\
    peer s !! key_of m = Some (mValues m).
Proof.
  cbv zeta. eexists. split; [vm_compute; reflexivity|].
  apply (link_converges 2 ∅); try (vm_compute; reflexivity).
  eapply (runs_reachable 2 ∅ (start 2 ∅) [ASend (some_state StateLocked); ASend (some_state StateFreerun); AConnect;
    AServe CacheOut [Failed false]; AConnect; AServe (Status request [some_state StateFreerun]) []; AServe CacheOut []; ARead; ARead]);
    [constructor|vm_compute; reflexivity].
Defined.

(** Without the proviso it does not: a message that finds the channel full is cached and
    in the snapshot, but the older one of its key is still in the channel and is
    delivered after the snapshot; sending the value again is refused. *)
Lemma stale_after_full_channel :
  exists s, reachable 1 ∅ s /\ told s = true /\ wire s = [] /\ outCh (cache s) = [] /\
    values_of (cache s) !! key_of request = None /\
    values_of (cache s) !! key_of (some_state "") = Some (Some (SyncStateValue StateFreerun)) /\
    peer s !! key_of (some_state "") = Some (Some (SyncStateValue StateLocked)) /\
    (Send "later" (some_state StateFreerun) (cache s)).2 = false.
Proof.
  eexists. split.
  - eapply (runs_reachable 1 ∅ (start 1 ∅) [ASend (some_state StateLocked); ASend (some_state StateFreerun); AConnect;
      AServe (Status request [some_state StateFreerun]) []; AServe CacheOut []; ARead; ARead]); [constructor|vm_compute; reflexivity].
  - vm_compute. done.
Qed.

(** A snapshot does not tell what is gone: what the peer learnt from a daemon that was
    restarted stays. *)
Lemma gone_keys_stay p : exists s, reachable 1 p s /\ told s = true /\ wire s = [] /\ cache s = NewCache 1 /\ peer s = p.
Proof.
  eexists. split.
  - eapply (runs_reachable 1 p (start 1 p) [AConnect; AServe (Status request []) []]); [constructor|reflexivity].
  - done.
Qed.

End Link.
