(* ===== verification/PubSub.v ===== *)
(** * pkg/cep/pubsub.go: the subscriptions of cloud-event-proxy

    Subscriptions live in a slice whose unused slots are on a free list; an index maps a
    resource to the slots of its subscriptions; every change is saved to a store.  An
    index expression out of range panics: [None].  A writer is what the writer factory
    returns for an endpoint, [None] when nil.  [Store] is the interface of store.go with
    what its implementations promise (Store.v); ids come from the uuid package.  The
    mutex makes every operation one step. *)

From S2P Require Import Prelude.

Module PubSub.

Record subscriptionRecord := mkRecord { rID : string; rResource : string; rEndpoint : string }.

#[export] Instance record_eq_dec : EqDecision subscriptionRecord.
Proof. solve_decision. Defined.

Record Subscription {W : Type} := mkSub { sID : string; sResource : string; sEndpoint : string; sW : option W; active : bool }.
Arguments Subscription : clear implicits.

(** [Subscription{}]. *)
Definition no_sub {W} : Subscription W := mkSub W "" "" "" None false.

(** ** The interface [Store]

    [persisted] is what a restart would find.  A failed save may still have been
    carried out. *)
Class Store (St : Type) := {
  Save : list subscriptionRecord -> St -> St * option string;
  Load : St -> list subscriptionRecord + string;
  persisted : St -> list subscriptionRecord;
  Load_ok : forall s rs, Load s = inl rs -> rs = persisted s;
  Save_ok : forall rs s s', Save rs s = (s', None) -> persisted s' = rs;
  Save_failed : forall rs s s' e, Save rs s = (s', Some e) -> persisted s' = persisted s \/ persisted s' = rs
}.

Section Operations.
  Context {W St : Type} `{Store St}.
  (* The writer factory; [None] is the nil function. *)
  Context (writerFunc : option (string -> option W)).

Record PubSub := mkPubSub {
  subs : list (Subscription W);
  free : list nat;
  resourceIndex : gmap string (list nat);
  recordStorage : St
}.

Definition NewPubSub (storageBackend : St) : PubSub := mkPubSub [] [] ∅ storageBackend.

Definition indices (ps : PubSub) (resource : string) : list nat := default [] (resourceIndex ps !! resource).

Definition new_writer (endpoint : string) : option W :=
  if str_eqb endpoint "" then None else f ← writerFunc; f endpoint.

Definition record_of (s : Subscription W) : subscriptionRecord := mkRecord (sID s) (sResource s) (sEndpoint s).

(** The active subscriptions in the order of the slots. *)
Definition records (l : list (Subscription W)) : list subscriptionRecord := map record_of (filter (fun s => active s = true) l).

(** The error of the store is logged. *)
Definition save (ps : PubSub) : PubSub :=
  mkPubSub (subs ps) (free ps) (resourceIndex ps) (Save (records (subs ps)) (recordStorage ps)).1.

(** The loop of [Subscribe]. *)
Fixpoint existing (l : list (Subscription W)) (idxs : list nat) (endpoint : string) : option (option string) :=
  match idxs with
  | [] => Some None
  | idx :: idxs' =>
      sub ← l !! idx;
      if active sub && str_eqb (sEndpoint sub) endpoint then Some (Some (sID sub)) else existing l idxs' endpoint
  end.

Definition insertLocked (id resource endpoint : string) (ps : PubSub) : option PubSub :=
  let sub := mkSub W id resource endpoint (new_writer endpoint) true in
  let index idx := <[resource := indices ps resource ++ [idx]]> (resourceIndex ps) in
  match last (free ps) with
  | Some idx =>
      if (idx <? length (subs ps))%nat then
        Some (save (mkPubSub (<[idx := sub]> (subs ps)) (removelast (free ps)) (index idx) (recordStorage ps)))
      else None
  | None => Some (save (mkPubSub (subs ps ++ [sub]) (free ps) (index (length (subs ps))) (recordStorage ps)))
  end.

(** [id] is what [uuid.New] would return. *)
Definition Subscribe (id resource endpoint : string) (ps : PubSub) : option (PubSub * (string * bool)) :=
  found ← existing (subs ps) (indices ps resource) endpoint;
  match found with
  | Some old => Some (ps, (old, true))
  | None => ps' ← insertLocked id resource endpoint ps; Some (ps', (id, false))
  end.

(** The first active subscription with an id, and its slot. *)
Definition find_id (id : string) (l : list (Subscription W)) : option (nat * Subscription W) :=
  list_find (fun s => active s = true /\ sID s = id) l.

(** [indices[i] = indices[len-1]; indices = indices[:len-1]] at the first [i] with the value. *)
Definition swap_remove (idx : nat) (l : list nat) : list nat :=
  match list_find (eq idx) l with
  | Some (i, _) => removelast (<[i := List.last l 0%nat]> l)
  | None => l
  end.

Definition Unsubscribe (id : string) (ps : PubSub) : PubSub * bool :=
  match find_id id (subs ps) with
  | None => (ps, false)
  | Some (idx, sub) =>
      let rest := swap_remove idx (indices ps (sResource sub)) in
      let index := match rest with [] => delete (sResource sub) (resourceIndex ps) | _ => <[sResource sub := rest]> (resourceIndex ps) end in
      (save (mkPubSub (<[idx := no_sub]> (subs ps)) (free ps ++ [idx]) index (recordStorage ps)), true)
  end.

Definition UnsubscribeAll (ps : PubSub) : PubSub := save (mkPubSub [] [] ∅ (recordStorage ps)).

(** Where an event with this source goes: an id and a writer each. *)
Definition getTargets (source : string) (ps : PubSub) : option (list (string * W)) :=
  foldr (fun idx acc => sub ← subs ps !! idx; l ← acc; Some (match sW sub with Some w => (sID sub, w) :: l | None => l end))
    (Some []) (indices ps source).

(** [PublishToID]: the writer, if there is one. *)
Definition target_of (id : string) (ps : PubSub) : option W := p ← find_id id (subs ps); sW p.2.

Definition Get (id : string) (ps : PubSub) : option (Subscription W) := snd <$> find_id id (subs ps).

Definition List_ (ps : PubSub) : list (Subscription W) := filter (fun s => active s = true) (subs ps).

Definition loaded (r : subscriptionRecord) : Subscription W := mkSub W (rID r) (rResource r) (rEndpoint r) (new_writer (rEndpoint r)) true.

(** The loop of [LoadFromStore] appends the slot to the index of the resource. *)
Fixpoint load_index (i : nat) (rs : list subscriptionRecord) (m : gmap string (list nat)) : gmap string (list nat) :=
  match rs with
  | [] => m
  | r :: rs' => load_index (S i) rs' (<[rResource r := default [] (m !! rResource r) ++ [i]]> m)
  end.

(** With the error; on an error nothing changes. *)
Definition LoadFromStore (ps : PubSub) : PubSub * option string :=
  match Load (recordStorage ps) with
  | inl rs => (mkPubSub (map loaded rs) [] (load_index 0 rs ∅) (recordStorage ps), None)
  | inr e => (ps, Some e)
  end.

(** ** The invariant *)

(** No two records share their id, or both resource and endpoint. *)
Definition target (r : subscriptionRecord) : string * string := (rResource r, rEndpoint r).
Definition distinct (rs : list subscriptionRecord) : Prop := NoDup (map rID rs) /\ NoDup (map target rs).

(** The index lists exactly the active slots of each resource, once each. *)
Definition index_ok (l : list (Subscription W)) (m : gmap string (list nat)) : Prop :=
  forall r, NoDup (default [] (m !! r)) /\ m !! r <> Some [] /\
    forall i, i ∈ default [] (m !! r) <-> exists s, l !! i = Some s /\ active s = true /\ sResource s = r.

(** The free list holds exactly the inactive slots, once each. *)
Definition free_ok (l : list (Subscription W)) (f : list nat) : Prop :=
  NoDup f /\ forall i, i ∈ f <-> exists s, l !! i = Some s /\ active s = false.

Definition slot_ok (s : Subscription W) : Prop := if active s then sW s = new_writer (sEndpoint s) else s = no_sub.

Record Inv (ps : PubSub) : Prop := mkInv {
  inv_index : index_ok (subs ps) (resourceIndex ps);
  inv_free : free_ok (subs ps) (free ps);
  inv_slots : Forall slot_ok (subs ps);
  inv_distinct : distinct (records (subs ps));
  inv_store : distinct (persisted (recordStorage ps))
}.

#[export] Instance distinct_perm : Proper ((≡ₚ) ==> iff) distinct.
Proof. intros l l' Hl. unfold distinct. by rewrite Hl. Qed.

(** *** Records and slots *)

Lemma records_app l l' : records (l ++ l') = records l ++ records l'.
Proof. unfold records. by rewrite filter_app, map_app. Qed.

Lemma records_cons s l : records (s :: l) = if active s then record_of s :: records l else records l.
Proof. unfold records. rewrite filter_cons. by destruct (active s). Qed.

Lemma elem_of_records r l : r ∈ records l <-> exists i s, l !! i = Some s /\ active s = true /\ record_of s = r.
Proof.
  unfold records. rewrite list_elem_of_fmap. setoid_rewrite list_elem_of_filter. setoid_rewrite list_elem_of_lookup. naive_solver.
Qed.

Lemma split_slot {A} (l : list A) i s : l !! i = Some s -> exists l1 l2, l = l1 ++ s :: l2 /\ forall t, <[i := t]> l = l1 ++ t :: l2.
Proof.
  intros Hi. exists (take i l), (drop (S i) l). assert (i < length l)%nat by (by eapply lookup_lt_Some).
  split; [by rewrite take_drop_middle|]. intros t. by rewrite insert_take_drop.
Qed.

(** Storing an active subscription in a slot that is not, and the converse. *)
Lemma records_insert l i s t :
  l !! i = Some s -> active s = false -> active t = true -> records (<[i := t]> l) ≡ₚ record_of t :: records l.
Proof.
  intros Hi Hs Ht. destruct (split_slot l i s Hi) as (l1 & l2 & -> & E). rewrite E, !records_app, !records_cons, Hs, Ht.
  by rewrite Permutation_middle.
Qed.

Lemma records_remove l i s t :
  l !! i = Some s -> active s = true -> active t = false -> records l ≡ₚ record_of s :: records (<[i := t]> l).
Proof.
  intros Hi Hs Ht. destruct (split_slot l i s Hi) as (l1 & l2 & -> & E). rewrite E, !records_app, !records_cons, Hs, Ht.
  by rewrite Permutation_middle.
Qed.

Lemma distinct_cons r rs :
  distinct (r :: rs) <-> (forall r', r' ∈ rs -> rID r' <> rID r /\ target r' <> target r) /\ distinct rs.
Proof.
  unfold distinct. cbn. rewrite !NoDup_cons, !list_elem_of_fmap. split.
  - intros [[H1 H2] [H3 H4]]. split; [|done]. intros r' Hr. split; intros E; [apply H1|apply H3]; by exists r'.
  - intros [Hr [H2 H4]]. split; (split; [|done]); intros (r' & E & Hin); by destruct (Hr r' Hin).
Qed.

Lemma distinct_nil : distinct [].
Proof. split; constructor. Qed.

(** *** The store *)

Lemma save_store ps : persisted (recordStorage (save ps)) = records (subs ps) \/ persisted (recordStorage (save ps)) = persisted (recordStorage ps).
Proof.
  unfold save. cbn. destruct (Save _ _) as [s' [e|]] eqn:E; cbn.
  - destruct (Save_failed _ _ _ _ E); [by right|by left].
  - left. by eapply Save_ok.
Qed.

Lemma Inv_save ps :
  index_ok (subs ps) (resourceIndex ps) -> free_ok (subs ps) (free ps) -> Forall slot_ok (subs ps) -> distinct (records (subs ps)) ->
  distinct (persisted (recordStorage ps)) -> Inv (save ps).
Proof. intros. constructor; [done|done|done|done|]. destruct (save_store ps) as [-> | ->]; done. Qed.

(** *** The index *)

Lemma index_add l l' m idx sub :
  index_ok l m -> (forall s, l !! idx = Some s -> active s = false) ->
  l' !! idx = Some sub -> active sub = true -> (forall j, j <> idx -> l' !! j = l !! j) ->
  index_ok l' (<[sResource sub := default [] (m !! sResource sub) ++ [idx]]> m).
Proof.
  intros Hok Hfree Hidx Hact Hother r. destruct (Hok r) as (Hnd & Hne & Hin).
  assert (idx ∉ default [] (m !! r)) as Hni.
  { intros (s & Hs & Ha & _)%Hin. apply Hfree in Hs. congruence. }
  assert (forall i, i <> idx -> (exists s, l' !! i = Some s /\ active s = true /\ sResource s = r) <-> i ∈ default [] (m !! r)) as Hoth.
  { intros i Hi. rewrite Hin. by setoid_rewrite Hother. }
  destruct (decide (sResource sub = r)) as [<-|Hr].
  - rewrite lookup_insert_eq. cbn [from_option]; unfold id. split; [|split].
    + apply NoDup_app. split; [done|]. split; [|apply NoDup_singleton]. intros i Hi ->%list_elem_of_singleton. by apply Hni.
    + intros E. injection E as E. by apply app_eq_nil in E as [_ E].
    + intros i. rewrite elem_of_app, list_elem_of_singleton. destruct (decide (i = idx)) as [->|Hi].
      * split; [|by right]. intros _. by exists sub.
      * rewrite Hoth by done. naive_solver.
  - rewrite lookup_insert_ne by done. split; [done|]. split; [done|]. intros i. destruct (decide (i = idx)) as [->|Hi]; [|by symmetry; apply Hoth].
    split; [by intros ?%Hni|]. intros (s & Hs & _ & Hsr). congruence.
Qed.

Lemma removelast_app_one {A} (l : list A) x : removelast (l ++ [x]) = l.
Proof. rewrite removelast_app by done. cbn. by rewrite app_nil_r. Qed.

Lemma last_app_one {A} (l : list A) x d : List.last (l ++ [x]) d = x.
Proof. apply last_last. Qed.

(** The value goes and the rest stays. *)
Lemma swap_remove_perm idx l : idx ∈ l -> l ≡ₚ idx :: swap_remove idx l.
Proof.
  intros Hin. unfold swap_remove. destruct (list_find (eq idx) l) as [[i x]|] eqn:E.
  - apply list_find_Some in E as (Hi & <- & _). destruct (exists_last (l := l)) as (l' & y & ->); [intros ->; by apply elem_of_nil in Hin|].
    rewrite last_app_one. destruct (decide (i < length l')%nat) as [Hlt|Hge].
    + rewrite lookup_app_l in Hi by done. rewrite insert_app_l, removelast_app_one by done.
      destruct (split_slot l' i idx Hi) as (l1 & l2 & -> & ->). rewrite <- Permutation_cons_append, <- !Permutation_middle. apply perm_swap.
    + assert (i = length l') as ->.
      { apply lookup_lt_Some in Hi. rewrite length_app in Hi. cbn in Hi. lia. }
      rewrite lookup_app_r, Nat.sub_diag in Hi by done. injection Hi as ->. rewrite insert_app_r_alt, Nat.sub_diag by done. cbn.
      by rewrite removelast_app_one, <- Permutation_cons_append.
  - apply list_find_None in E. rewrite Forall_forall in E. by destruct (E idx Hin).
Qed.

Lemma index_remove l l' m idx sub t :
  index_ok l m -> l !! idx = Some sub -> active sub = true ->
  l' !! idx = Some t -> active t = false -> (forall j, j <> idx -> l' !! j = l !! j) ->
  let rest := swap_remove idx (default [] (m !! sResource sub)) in
  index_ok l' (match rest with [] => delete (sResource sub) m | _ => <[sResource sub := rest]> m end).
Proof.
  intros Hok Hidx Hact Hidx' Hina Hother rest r.
  assert (idx ∈ default [] (m !! sResource sub)) as Hin by (apply (Hok (sResource sub)); by exists sub).
  pose proof (swap_remove_perm idx _ Hin) as Hp. fold rest in Hp.
  assert (forall q i, (exists s, l' !! i = Some s /\ active s = true /\ sResource s = q) <-> i ∈ default [] (m !! q) /\ i <> idx) as Hnew.
  { intros q i. destruct (Hok q) as (_ & _ & Hq). rewrite Hq. destruct (decide (i = idx)) as [->|Hi].
    - split; [|tauto]. intros (s & Hs & Ha & _). congruence.
    - setoid_rewrite Hother; [|done]. tauto. }
  assert (default [] ((match rest with [] => delete (sResource sub) m | _ => <[sResource sub := rest]> m end) !! r)
    = if decide (sResource sub = r) then rest else default [] (m !! r)) as Hlook.
  { case_decide as E; [subst r|]; destruct rest eqn:Er.
    - by rewrite lookup_delete_eq.
    - by rewrite lookup_insert_eq.
    - by rewrite lookup_delete_ne.
    - by rewrite lookup_insert_ne. }
  destruct (Hok r) as (Hnd & Hne & _). rewrite Hlook. split; [|split].
  - case_decide as E; [|done]. subst r. rewrite Hp in Hnd. by apply NoDup_cons in Hnd as [_ ?].
  - destruct rest eqn:Er; destruct (decide (sResource sub = r)) as [E|E].
    + by rewrite E, lookup_delete_eq.
    + by rewrite lookup_delete_ne.
    + rewrite E, lookup_insert_eq. congruence.
    + by rewrite lookup_insert_ne.
  - intros i. rewrite Hnew. case_decide as E; [|split; [|tauto]].
    + subst r. rewrite Hp, elem_of_cons. rewrite Hp in Hnd. apply NoDup_cons in Hnd as [Hni _]. split; [|tauto].
      intros Hi. split; [by right|]. by intros ->.
    + intros Hi. split; [done|]. intros ->. destruct (Hok r) as (_ & _ & Hq). apply Hq in Hi as (s & Hs & _ & Hsr). congruence.
Qed.

(** *** The free list *)

Lemma last_removelast {A} (l : list A) x : last l = Some x -> l = removelast l ++ [x].
Proof. intros (l' & ->)%last_Some. by rewrite removelast_app_one. Qed.

Lemma last_None_nil {A} (l : list A) : last l = None -> l = [].
Proof. by rewrite last_None. Qed.

(** What [Subscribe] looks at. *)
Lemma existing_spec l idxs e :
  Forall (fun i => is_Some (l !! i)) idxs ->
  (exists i s, i ∈ idxs /\ l !! i = Some s /\ active s = true /\ sEndpoint s = e /\ existing l idxs e = Some (Some (sID s))) \/
  (existing l idxs e = Some None /\ forall i s, i ∈ idxs -> l !! i = Some s -> active s = true -> sEndpoint s <> e).
Proof.
  induction 1 as [|i idxs [s Hs] _ IH]; [right; split; [done|]; intros ? ? []%elem_of_nil|]. cbn [existing]. rewrite Hs. cbn.
  destruct (active s && str_eqb (sEndpoint s) e) eqn:E.
  - apply andb_true_iff in E as [Ha Ee%bool_decide_eq_true]. left. exists i, s. split_and!; try done. left.
  - destruct IH as [(j & s' & Hj & ? & ? & ? & ?)|[-> Hall]]; [left; exists j, s'; split_and!; try done; by right|right].
    split; [done|]. intros j s' [->|Hj]%elem_of_cons Hs' Ha; [|by eapply Hall].
    assert (s' = s) as -> by congruence. rewrite Ha in E. cbn in E. by apply bool_decide_eq_false in E.
Qed.

Lemma indices_valid l m r : index_ok l m -> Forall (fun i => is_Some (l !! i)) (default [] (m !! r)).
Proof. intros Hok. apply Forall_forall. intros i Hi. apply Hok in Hi as (s & -> & _). by eexists. Qed.

(** ** The operations keep the invariant *)

Lemma save_store_mk l f m st :
  persisted (recordStorage (save (mkPubSub l f m st))) = records l \/ persisted (recordStorage (save (mkPubSub l f m st))) = persisted st.
Proof. apply save_store. Qed.

(** The records after an operation, and that they were or were not saved. *)
Definition updated (ps ps' : PubSub) (rs : list subscriptionRecord) : Prop :=
  records (subs ps') ≡ₚ rs /\
  (persisted (recordStorage ps') = records (subs ps') \/ persisted (recordStorage ps') = persisted (recordStorage ps)).

Lemma slot_lookup l i s : Forall slot_ok l -> l !! i = Some s -> slot_ok s.
Proof. intros Hl Hi. by eapply Forall_lookup_1 in Hi. Qed.

Lemma insertLocked_ok id r e ps :
  Inv ps -> (forall x, x ∈ records (subs ps) -> rID x <> id /\ target x <> (r, e)) ->
  exists ps', insertLocked id r e ps = Some ps' /\ Inv ps' /\ updated ps ps' (mkRecord id r e :: records (subs ps)).
Proof.
  intros [Hi [Hnd Hf] Hs Hd Hst] Hnew.
  set (sub := mkSub W id r e (new_writer e) true).
  assert (forall l, records l ≡ₚ record_of sub :: records (subs ps) -> distinct (records l)) as Hdist.
  { intros l ->. by apply distinct_cons. }
  unfold insertLocked. fold sub. destruct (last (free ps)) as [idx|] eqn:El.
  - assert (free ps = removelast (free ps) ++ [idx]) as Efree by by apply last_removelast.
    destruct (proj1 (Hf idx)) as (s & Hidx & Hina); [rewrite Efree; apply elem_of_app; right; by apply list_elem_of_singleton|].
    assert (idx < length (subs ps))%nat as Hlt by by eapply lookup_lt_Some.
    rewrite (proj2 (Nat.ltb_lt _ _) Hlt).
    assert (records (<[idx := sub]> (subs ps)) ≡ₚ record_of sub :: records (subs ps)) as Hrec by by eapply records_insert.
    eexists. split; [done|]. split; [apply Inv_save; cbn|split; [done|]].
    + apply (index_add (subs ps) _ _ idx sub); [done|intros ?; congruence|by apply list_lookup_insert_eq|done|].
      intros j Hj. by apply list_lookup_insert_ne.
    + split; [rewrite Efree in Hnd; by apply NoDup_app in Hnd as (? & _)|]. intros j. destruct (decide (j = idx)) as [->|Hj].
      * rewrite list_lookup_insert_eq by done. split; [|by intros (? & [= <-] & ?)]. rewrite Efree in Hnd.
        apply NoDup_app in Hnd as (_ & Hn & _). intros Hin. destruct (Hn idx Hin). by apply list_elem_of_singleton.
      * rewrite list_lookup_insert_ne by done. rewrite <- Hf. rewrite Efree at 2. rewrite elem_of_app, list_elem_of_singleton. tauto.
    + by apply Forall_insert.
    + by apply Hdist.
    + done.
    + apply save_store_mk.
  - apply last_None_nil in El.
    assert (records (subs ps ++ [sub]) ≡ₚ record_of sub :: records (subs ps)) as Hrec.
    { rewrite records_app. change (records [sub]) with [record_of sub]. by rewrite <- Permutation_cons_append. }
    eexists. split; [done|]. split; [apply Inv_save; cbn|split; [done|]].
    + apply (index_add (subs ps) _ _ (length (subs ps)) sub); [done| | |done|].
      * intros s Hls. apply lookup_lt_Some in Hls. lia.
      * by rewrite lookup_app_r, Nat.sub_diag.
      * intros j Hj. destruct (decide (j < length (subs ps))%nat); [by rewrite lookup_app_l|].
        rewrite !lookup_ge_None_2; [done|lia|rewrite length_app; cbn; lia].
    + split; [done|]. intros j. rewrite El in *. split; [by intros ?%elem_of_nil|]. intros (s & [Hls|[_ Hls]]%lookup_app_Some & Ha).
      * apply Hf. by exists s.
      * destruct (j - _)%nat; [|done]. by injection Hls as <-.
    + apply Forall_app. split; [done|]. by apply Forall_singleton.
    + by apply Hdist.
    + done.
    + apply save_store_mk.
Qed.

(** [Subscribe] finds the subscription or adds it; it never panics. *)
Lemma Subscribe_ok id r e ps :
  Inv ps -> id ∉ map rID (records (subs ps)) ->
  exists ps' id' old, Subscribe id r e ps = Some (ps', (id', old)) /\ Inv ps' /\
    if old : bool then ps' = ps /\ mkRecord id' r e ∈ records (subs ps)
    else id' = id /\ (r, e) ∉ map target (records (subs ps)) /\ updated ps ps' (mkRecord id r e :: records (subs ps)).
Proof.
  intros HI Hid. pose proof (indices_valid _ _ r (inv_index ps HI)) as Hv. unfold Subscribe, indices.
  destruct (existing_spec _ _ e Hv) as [(i & s & Hi & Hs & Ha & He & ->)|[-> Hno]]; cbn.
  - eexists _, _, true. split; [done|]. split; [done|]. split; [done|]. apply elem_of_records. exists i, s. split_and!; try done.
    apply (inv_index ps HI) in Hi as (s' & Hs' & _ & Hr). unfold record_of. congruence.
  - assert ((r, e) ∉ map target (records (subs ps))) as Hne.
    { intros (x & Ex & (i & s & Hs & Ha & <-)%elem_of_records)%list_elem_of_fmap. cbn in Ex. injection Ex as Er Ee.
      eapply Hno; [|done|done|done]. apply (inv_index ps HI). by exists s. }
    destruct (insertLocked_ok id r e ps HI) as (ps' & -> & HI' & Hu).
    { intros x Hx. split; intros E; [apply Hid|apply Hne]; apply list_elem_of_fmap; by exists x. }
    by exists ps', id, false.
Qed.

Lemma find_id_spec id l :
  match find_id id l with
  | Some (i, s) => l !! i = Some s /\ active s = true /\ sID s = id
  | None => id ∉ map rID (records l)
  end.
Proof.
  unfold find_id. destruct (list_find _ l) as [[i s]|] eqn:E.
  - apply list_find_Some in E as (Hi & Hs & _). done.
  - apply list_find_None in E. intros (x & -> & (i & s & Hs & Ha & <-)%elem_of_records)%list_elem_of_fmap.
    eapply Forall_lookup_1 in E; [|done]. by apply E.
Qed.

(** [Unsubscribe] removes the subscription with the id, if there is one. *)
Lemma Unsubscribe_ok id ps :
  Inv ps ->
  let '(ps', found) := Unsubscribe id ps in
  Inv ps' /\
  if found : bool then exists x, rID x = id /\ x ∈ records (subs ps) /\ exists rs, records (subs ps) ≡ₚ x :: rs /\ updated ps ps' rs
  else ps' = ps /\ id ∉ map rID (records (subs ps)).
Proof.
  intros HI. pose proof HI as [Hi [Hnd Hf] Hs Hd Hst]. unfold Unsubscribe. pose proof (find_id_spec id (subs ps)) as Hspec.
  destruct (find_id id (subs ps)) as [[idx sub]|]; [|done]. destruct Hspec as (Hidx & Hact & Hid).
  assert (idx < length (subs ps))%nat as Hlt by by eapply lookup_lt_Some.
  assert (records (subs ps) ≡ₚ record_of sub :: records (<[idx := no_sub]> (subs ps))) as Hrec by by eapply records_remove.
  split.
  - apply Inv_save; cbn.
    + apply (index_remove (subs ps) _ _ idx sub no_sub); [done|done|done|by apply list_lookup_insert_eq|done|].
      intros j Hj. by apply list_lookup_insert_ne.
    + split.
      * apply NoDup_app. split; [done|]. split; [|apply NoDup_singleton]. intros j Hj ->%list_elem_of_singleton.
        apply Hf in Hj as (s & Hj & Ha). congruence.
      * intros j. rewrite elem_of_app, list_elem_of_singleton, Hf. destruct (decide (j = idx)) as [->|Hj].
        -- rewrite list_lookup_insert_eq by done. split; [|by right]. intros _. by exists no_sub.
        -- rewrite list_lookup_insert_ne by done. naive_solver.
    + by apply Forall_insert.
    + rewrite Hrec in Hd. by apply distinct_cons in Hd as [_ ?].
    + done.
  - exists (record_of sub). split; [done|]. split; [apply elem_of_records; by exists idx, sub|].
    eexists. split; [done|]. split; [done|]. apply save_store_mk.
Qed.

Lemma index_ok_nil : index_ok [] ∅.
Proof. intros r. rewrite lookup_empty. cbn. split; [constructor|]. split; [done|]. intros i. split; [by intros ?%elem_of_nil|by intros (? & ? & _)]. Qed.

Lemma free_ok_nil : free_ok [] [].
Proof. split; [constructor|]. intros i. split; [by intros ?%elem_of_nil|by intros (? & ? & _)]. Qed.

Lemma UnsubscribeAll_ok ps : Inv ps -> Inv (UnsubscribeAll ps) /\ updated ps (UnsubscribeAll ps) [].
Proof.
  intros HI. split.
  - apply Inv_save; [apply index_ok_nil|apply free_ok_nil|constructor|apply distinct_nil|apply (inv_store ps HI)].
  - split; [done|]. apply save_store_mk.
Qed.

Lemma NewPubSub_ok s : distinct (persisted s) -> Inv (NewPubSub s).
Proof. intros. constructor; [apply index_ok_nil|apply free_ok_nil|constructor|apply distinct_nil|done]. Qed.

(** *** Loading *)

Lemma load_index_ok rs l m :
  Forall (fun s => active s = true) l -> index_ok l m -> index_ok (l ++ map loaded rs) (load_index (length l) rs m).
Proof.
  revert l m. induction rs as [|r rs IH]; intros l m Ha Hok; [by rewrite app_nil_r|]. cbn [map load_index].
  rewrite cons_middle, app_assoc. replace (S (length l)) with (length (l ++ [loaded r])) by (rewrite length_app; cbn; lia).
  apply IH; [apply Forall_app; split; [done|by apply Forall_singleton]|].
  change (rResource r) with (sResource (loaded r)). apply (index_add l); [done| | |done|].
  - intros s Hs. apply lookup_lt_Some in Hs. lia.
  - by rewrite lookup_app_r, Nat.sub_diag.
  - intros j Hj. destruct (decide (j < length l)%nat); [by rewrite lookup_app_l|].
    rewrite !lookup_ge_None_2; [done|lia|rewrite length_app; cbn; lia].
Qed.

Lemma records_loaded rs : records (map loaded rs) = rs.
Proof. induction rs as [|[] rs IH]; [done|]. cbn [map]. rewrite records_cons. cbn. by rewrite IH. Qed.

(** [LoadFromStore] brings back what was persisted. *)
Lemma LoadFromStore_ok ps :
  Inv ps ->
  let '(ps', err) := LoadFromStore ps in
  Inv ps' /\ match err with
             | Some e => ps' = ps /\ Load (recordStorage ps) = inr e
             | None => records (subs ps') = persisted (recordStorage ps) /\ recordStorage ps' = recordStorage ps
             end.
Proof.
  intros HI. unfold LoadFromStore. destruct (Load (recordStorage ps)) as [rs|e] eqn:E; [|done].
  apply Load_ok in E. cbn [subs recordStorage]. rewrite records_loaded. split; [|done]. constructor; cbn [subs free resourceIndex recordStorage].
  - apply (load_index_ok rs [] ∅); [constructor|apply index_ok_nil].
  - split; [constructor|]. intros i. split; [by intros ?%elem_of_nil|]. intros (s & Hs & Ha).
    apply list_lookup_fmap_Some_1 in Hs as (r & -> & _). done.
  - apply Forall_map, Forall_forall. done.
  - rewrite records_loaded, E. apply (inv_store ps HI).
  - apply (inv_store ps HI).
Qed.

(** ** Specification: a map of subscriptions, and the one a restart would find *)

Abbreviation subscriptions := (gmap string (string * string)).

Record Spec := mkSpec { current : subscriptions; saved : subscriptions }.

Definition view (rs : list subscriptionRecord) : subscriptions := list_to_map (map (fun r => (rID r, target r)) rs).

Definition abs (ps : PubSub) : Spec := mkSpec (view (records (subs ps))) (view (persisted (recordStorage ps))).

Inductive op :=
| DoSubscribe (id resource endpoint : string)
| DoUnsubscribe (id : string)
| DoUnsubscribeAll
| DoLoad.

Inductive answer :=
| AnsId (id : string) (existed : bool)
| AnsFound (b : bool)
| AnsDone
| AnsLoaded (err : option string).

Definition exec (o : op) (ps : PubSub) : option (PubSub * answer) :=
  match o with
  | DoSubscribe id r e => '(ps', (id', old)) ← Subscribe id r e ps; Some (ps', AnsId id' old)
  | DoUnsubscribe id => Some (let '(ps', b) := Unsubscribe id ps in (ps', AnsFound b))
  | DoUnsubscribeAll => Some (UnsubscribeAll ps, AnsDone)
  | DoLoad => Some (let '(ps', err) := LoadFromStore ps in (ps', AnsLoaded err))
  end.

Definition saves (a a' : Spec) : Prop := saved a' = current a' \/ saved a' = saved a.

Definition spec_step (a : Spec) (o : op) (ans : answer) (a' : Spec) : Prop :=
  match o, ans with
  | DoSubscribe id r e, AnsId id' true => a' = a /\ current a !! id' = Some (r, e)
  | DoSubscribe id r e, AnsId id' false =>
      id' = id /\ (forall i, current a !! i <> Some (r, e)) /\ current a' = <[id := (r, e)]> (current a) /\ saves a a'
  | DoUnsubscribe id, AnsFound true => is_Some (current a !! id) /\ current a' = delete id (current a) /\ saves a a'
  | DoUnsubscribe id, AnsFound false => current a !! id = None /\ a' = a
  | DoUnsubscribeAll, AnsDone => current a' = ∅ /\ saves a a'
  | DoLoad, AnsLoaded None => current a' = saved a /\ saved a' = saved a
  | DoLoad, AnsLoaded (Some _) => a' = a
  | _, _ => False
  end.

(** A new id is not in use. *)
Definition fresh (o : op) (ps : PubSub) : Prop :=
  match o with DoSubscribe id _ _ => current (abs ps) !! id = None | _ => True end.

Inductive reached (s0 : St) : PubSub -> Prop :=
| ReachNew : reached s0 (NewPubSub s0)
| ReachOp ps o ps' ans : reached s0 ps -> fresh o ps -> exec o ps = Some (ps', ans) -> reached s0 ps'.

Lemma view_lookup rs id t : distinct rs -> view rs !! id = Some t <-> exists r, r ∈ rs /\ rID r = id /\ target r = t.
Proof.
  intros [Hd _]. unfold view. rewrite <- elem_of_list_to_map by (rewrite <- list_fmap_compose; exact Hd).
  rewrite list_elem_of_fmap. naive_solver.
Qed.

Lemma view_none rs id : view rs !! id = None <-> id ∉ map rID rs.
Proof.
  unfold view. rewrite <- not_elem_of_list_to_map, <- list_fmap_compose. done.
Qed.

Lemma view_perm rs rs' : distinct rs -> rs ≡ₚ rs' -> view rs = view rs'.
Proof.
  intros [Hd _] Hp. unfold view. apply list_to_map_proper; [by rewrite <- list_fmap_compose|]. by rewrite Hp.
Qed.

Lemma view_cons r rs : view (r :: rs) = <[rID r := target r]> (view rs).
Proof. done. Qed.

Lemma updated_saves ps ps' rs : Inv ps' -> updated ps ps' rs -> current (abs ps') = view rs /\ saves (abs ps) (abs ps').
Proof.
  intros HI [Hr Hs]. split; [by apply view_perm; [apply (inv_distinct ps' HI)|]|]. unfold saves, abs. cbn.
  destruct Hs as [-> | ->]; auto.
Qed.

Lemma exec_refines ps o :
  Inv ps -> fresh o ps -> exists ps' ans, exec o ps = Some (ps', ans) /\ Inv ps' /\ spec_step (abs ps) o ans (abs ps').
Proof.
  intros HI Hf. pose proof (inv_distinct ps HI) as Hd. destruct o as [id r e|id| |]; cbn in Hf |- *.
  - apply view_none in Hf. destruct (Subscribe_ok id r e ps HI Hf) as (ps' & id' & old & -> & HI' & Hr). cbn.
    exists ps', (AnsId id' old). split; [done|]. split; [done|]. destruct old.
    + destruct Hr as [-> Hin]. split; [done|]. apply view_lookup; [done|]. by exists (mkRecord id' r e).
    + destruct Hr as (-> & Hne & Hu). destruct (updated_saves _ _ _ HI' Hu) as [Hc Hs]. split_and!; [done| |exact Hc|done].
      intros i (x & Hx & _ & Ht)%view_lookup; [|done]. apply Hne, list_elem_of_fmap. by exists x.
  - pose proof (Unsubscribe_ok id ps HI) as Hu. destruct (Unsubscribe id ps) as [ps' [|]]; destruct Hu as [HI' Hu].
    + destruct Hu as (x & Hid & Hx & rs & Hp & Hu). exists ps', (AnsFound true). split; [done|]. split; [done|].
      destruct (updated_saves _ _ _ HI' Hu) as [Hc Hs]. split_and!; [|etransitivity; [exact Hc|]|done].
      * exists (target x). apply view_lookup; [done|]. by exists x.
      * cbn. rewrite (view_perm _ _ Hd Hp), view_cons, Hid. rewrite delete_insert_id; [done|]. apply view_none.
        rewrite Hp in Hd. destruct Hd as [[Hn _]%NoDup_cons _]. by rewrite <- Hid.
    + destruct Hu as [-> Hn]. exists ps, (AnsFound false). split; [done|]. split; [done|]. split; [by apply view_none|done].
  - destruct (UnsubscribeAll_ok ps HI) as [HI' Hu]. exists (UnsubscribeAll ps), AnsDone. split; [done|]. split; [done|].
    by destruct (updated_saves _ _ _ HI' Hu) as [Hc Hs].
  - pose proof (LoadFromStore_ok ps HI) as Hl. destruct (LoadFromStore ps) as [ps' [err|]]; destruct Hl as [HI' Hl].
    + destruct Hl as [-> _]. by exists ps, (AnsLoaded (Some err)).
    + destruct Hl as [Hr Hs]. exists ps', (AnsLoaded None). split; [done|]. split; [done|]. split; unfold abs; cbn; by rewrite ?Hr, ?Hs.
Qed.

Lemma reached_Inv s0 ps : distinct (persisted s0) -> reached s0 ps -> Inv ps.
Proof.
  intros Hd. induction 1 as [|ps o ps' ans _ IH Hf E]; [by apply NewPubSub_ok|].
  destruct (exec_refines ps o IH Hf) as (ps1 & ans1 & E1 & HI & _). congruence.
Qed.

(** C19. The subscriptions are a map.  From a store without duplicates, whatever is
    subscribed, unsubscribed and loaded and whatever the store does: no operation
    panics, and each of them acts on the slots, the free list and the index as the
    operation on a map from ids to resource and endpoint says.  A subscription that
    exists is found and not added again; a removed one is gone; and what a restart would
    load is the current map when the last save succeeded. *)
Theorem pubsub_refines s0 ps o :
  distinct (persisted s0) -> reached s0 ps -> fresh o ps ->
  exists ps' ans, exec o ps = Some (ps', ans) /\ spec_step (abs ps) o ans (abs ps').
Proof.
  intros Hd Hr Hf. destruct (exec_refines ps o (reached_Inv s0 ps Hd Hr) Hf) as (ps' & ans & E & _ & Hs). by exists ps', ans.
Qed.

(** *** Delivery *)

Lemma targets_spec (l : list (Subscription W)) idxs :
  Forall (fun i => is_Some (l !! i)) idxs ->
  exists ts, foldr (fun idx acc => sub ← l !! idx; r ← acc; Some (match sW sub with Some w => (sID sub, w) :: r | None => r end))
    (Some []) idxs = Some ts /\
    ts = omap (fun i => s ← l !! i; w ← sW s; Some (sID s, w)) idxs.
Proof.
  induction 1 as [|i idxs [s Hs] _ (ts & E & ->)]; [by exists []|]. cbn. rewrite E, Hs. cbn.
  destruct (sW s); by eexists.
Qed.

Lemma NoDup_omap_fst {A B C} (f : A -> option (B * C)) l :
  (forall i j x y, i ∈ l -> j ∈ l -> f i = Some x -> f j = Some y -> x.1 = y.1 -> i = j) -> NoDup l -> NoDup (omap f l).*1.
Proof.
  intros Hinj. induction 1 as [|i l Hi _ IH]; [constructor|]. cbn.
  assert (NoDup (omap f l).*1) as IH' by (apply IH; intros a b x y ? ?; apply Hinj; by right).
  destruct (f i) as [x|] eqn:E; [|done]. cbn. apply NoDup_cons. split; [|done].
  intros (y & Exy & (j & Hj & Ej)%list_elem_of_omap)%list_elem_of_fmap.
  apply Hi. by rewrite (Hinj i j x y) by (done || (left; done) || by right).
Qed.

(** Two active slots do not hold the same id. *)
Lemma slots_inj l i j s t :
  NoDup (map rID (records l)) -> l !! i = Some s -> l !! j = Some t -> active s = true -> active t = true -> sID s = sID t -> i = j.
Proof.
  revert i j. induction l as [|x l IH]; intros i j Hnd Hi Hj Hs Ht E; [done|].
  assert (forall k u, l !! k = Some u -> active u = true -> active x = true -> sID u <> sID x) as Hx.
  { intros k u Hk Hu Hax Eu. rewrite records_cons, Hax in Hnd. apply NoDup_cons in Hnd as [Hn _]. apply Hn.
    cbn. rewrite <- Eu. apply list_elem_of_fmap. exists (record_of u). split; [done|]. apply elem_of_records. by exists k, u. }
  assert (NoDup (map rID (records l))) as Hnd'.
  { rewrite records_cons in Hnd. destruct (active x); [by apply NoDup_cons in Hnd as [_ ?]|done]. }
  destruct i as [|i], j as [|j]; cbn in Hi, Hj; [done| | |f_equal; by eapply IH].
  - injection Hi as ->. by destruct (Hx j t).
  - injection Hj as ->. by destruct (Hx i s).
Qed.

Lemma delivery ps source :
  Inv ps ->
  (exists ts, getTargets source ps = Some ts /\ NoDup ts.*1 /\
    forall id w, (id, w) ∈ ts <-> exists e, current (abs ps) !! id = Some (source, e) /\ new_writer e = Some w) /\
  forall id, target_of id ps = t ← current (abs ps) !! id; new_writer t.2.
Proof.
  intros HI. pose proof (inv_distinct ps HI) as Hd.
  pose proof (indices_valid _ _ source (inv_index ps HI)) as Hv. destruct (inv_index ps HI source) as (Hnd & _ & Hin).
  assert (forall i s, subs ps !! i = Some s -> active s = true -> sW s = new_writer (sEndpoint s)) as Hw.
  { intros i s Hs Ha. pose proof (slot_lookup _ _ _ (inv_slots ps HI) Hs) as Hok. unfold slot_ok in Hok. by rewrite Ha in Hok. }
  assert (forall i s, subs ps !! i = Some s -> active s = true -> current (abs ps) !! sID s = Some (sResource s, sEndpoint s)) as Hcur.
  { intros i s Hs Ha. apply view_lookup; [done|]. exists (record_of s). split; [|done]. apply elem_of_records. by exists i, s. }
  split.
  - destruct (targets_spec _ _ Hv) as (ts & E & Ets). exists ts. split; [exact E|]. rewrite Ets. split.
    + apply NoDup_omap_fst; [|done]. intros i j x y (s & Hs & Ha & _)%Hin (t & Ht & Ha' & _)%Hin. rewrite Hs, Ht. cbn.
      destruct (sW s); [|done]. destruct (sW t); [|done]. cbn. intros [= <-] [= <-] Eid. eapply slots_inj; [apply Hd|done..].
    + intros id w. rewrite list_elem_of_omap. split.
      * intros (i & (s & Hs & Ha & Er)%Hin & Ei). rewrite Hs in Ei. cbn in Ei. destruct (sW s) as [w'|] eqn:Ew; [|done].
        cbn in Ei. injection Ei as <- <-. exists (sEndpoint s). rewrite (Hcur i s Hs Ha), Er. split; [done|]. by rewrite <- (Hw i s Hs Ha).
      * intros (e & (x & (i & s & Hs & Ha & <-)%elem_of_records & Hid & [= Er Ee])%view_lookup & Hwr); [|done]. exists i.
        split; [apply Hin; by exists s|]. rewrite Hs. cbn. rewrite (Hw i s Hs Ha). cbn in Ee. rewrite Ee, Hwr. cbn in *. by rewrite Hid.
  - intros id. unfold target_of. pose proof (find_id_spec id (subs ps)) as Hs. destruct (find_id id (subs ps)) as [[i s]|]; cbn [mbind option_bind].
    + destruct Hs as (Hs & Ha & <-). rewrite (Hcur i s Hs Ha). cbn. by eapply Hw.
    + apply view_none in Hs. change (current (abs ps)) with (view (records (subs ps))). by rewrite Hs.
Qed.

(** An event goes to the writers of exactly the subscriptions of its source, to each
    once; the initial notification goes to the writer of the subscription. *)
Theorem published_to_subscribers s0 ps source :
  distinct (persisted s0) -> reached s0 ps ->
  (exists ts, getTargets source ps = Some ts /\ NoDup ts.*1 /\
    forall id w, (id, w) ∈ ts <-> exists e, current (abs ps) !! id = Some (source, e) /\ new_writer e = Some w) /\
  forall id, target_of id ps = t ← current (abs ps) !! id; new_writer t.2.
Proof. intros Hd0 Hr. by apply delivery, (reached_Inv s0). Qed.

End Operations.

(** ** A store in memory, to run the definitions *)

#[export, refine] Instance memory : Store (list subscriptionRecord) :=
  {| Save rs _ := (rs, None); Load s := inl s; persisted s := s |}.
Proof.
  - by intros s rs [= ->].
  - by intros rs s s' [= ->].
  - done.
Defined.

Definition to_endpoint : option (string -> option string) := Some (fun e => Some e).

(** A subscription is added, added again, and removed. *)
Definition example_ps : PubSub :=
  default (NewPubSub (W := string) []) ('(ps, _) ← Subscribe to_endpoint "1" "/r" "http://a" (NewPubSub []); fst <$> Subscribe to_endpoint "2" "/r" "http://b" ps).

Lemma example_reached : reached to_endpoint [] example_ps.
Proof.
  eapply (ReachOp to_endpoint [] _ (DoSubscribe "2" "/r" "http://b")).
  - eapply (ReachOp to_endpoint [] _ (DoSubscribe "1" "/r" "http://a")); [constructor|vm_compute; reflexivity|vm_compute; reflexivity].
  - vm_compute. reflexivity.
  - vm_compute. reflexivity.
Defined.

Lemma pubsub_refines_witness :
  exists ps' ans, exec to_endpoint (DoUnsubscribe "1") example_ps = Some (ps', ans) /\
    spec_step (abs example_ps) (DoUnsubscribe "1") ans (abs ps').
Proof. apply (pubsub_refines to_endpoint []); [apply distinct_nil|apply example_reached|done]. Defined.

Lemma published_to_subscribers_witness :
  target_of "2" example_ps = Some "http://b"%string /\ exists ts, getTargets "/r" example_ps = Some ts /\ NoDup ts.*1.
Proof.
  assert (distinct (persisted ([] : list subscriptionRecord))) as Hd by apply distinct_nil.
  destruct (published_to_subscribers to_endpoint [] example_ps "/r" Hd example_reached) as [(ts & E & Hn & _) Ht].
  split; [rewrite Ht; vm_compute; reflexivity|]. by exists ts.
Defined.

(** Records that share an id, which a store edited by hand may have, survive the removal
    of that id. *)
Lemma duplicate_id_survives :
  let ps := (LoadFromStore to_endpoint (NewPubSub (W := string) [mkRecord "1" "/r" "http://a"; mkRecord "1" "/s" "http://b"])).1 in
  map rID (records (subs (Unsubscribe "1" ps).1)) = ["1"%string].
Proof. reflexivity. Qed.

End PubSub.
