(* ===== verification/CepStore.v ===== *)
(** * pkg/cep/store.go: where subscriptions are kept

    The file store and the ConfigMap store, each with the interface [Store] of PubSub.v,
    the JSON text of the records, and the migration of the ConfigMap of
    cloud-event-proxy v1.  A system call or an API call takes its outcome from the front
    of a list in the state; when the list is empty the call succeeds. *)

From S2P Require Import Prelude Strconv Regex Parser HwTypes Paths Json PubSub.
From Stdlib Require Import Ascii.

Module CepStore.

Import Json PubSub.

(** ** Records as JSON *)

Definition record_json (r : subscriptionRecord) : json :=
  JObj ([("id", JStr (rID r)); ("resource", JStr (rResource r))] ++ omitempty_str "endpoint" (rEndpoint r)).

Definition records_text (rs : list subscriptionRecord) : string := MarshalIndent (JArr (map record_json rs)).

Definition set_record (k : string) (v : json) (r : subscriptionRecord) : option subscriptionRecord :=
  if names "id" k then x ← into_string v (rID r); Some (mkRecord x (rResource r) (rEndpoint r))
  else if names "resource" k then x ← into_string v (rResource r); Some (mkRecord (rID r) x (rEndpoint r))
  else if names "endpoint" k then x ← into_string v (rEndpoint r); Some (mkRecord (rID r) (rResource r) x)
  else Some r.

(** [json.Unmarshal(data, &records)]. *)
Definition read_records (text : string) : option (list subscriptionRecord) :=
  j ← parse text;
  match j with
  | JNull => Some []
  | JArr l => mapM (fun x => into_struct set_record x (mkRecord "" "" "")) l
  | _ => None
  end.

(** ** Files *)

(** What a call on a file does: an error, with what a failed write left in the file. *)
Record fault := mkFault { ferror : string; left : string }.

Record FS := mkFS { files : gmap string string; faults : list (option fault) }.

#[export] Instance FS_fields : Fields FS := fun f => mkFS (files f) (faults f).

Definition next_fault (f : FS) : option fault * FS :=
  match faults f with [] => (None, f) | x :: rest => (x, f <| faults := rest |>) end.

Definition WriteFile (path data : string) (f : FS) : FS * option string :=
  match next_fault f with
  | (None, f) => (f <| files := <[path := data]> (files f) |>, None)
  | (Some e, f) => (f <| files := <[path := left e]> (files f) |>, Some (ferror e))
  end.

Definition Rename (old new : string) (f : FS) : FS * option string :=
  match next_fault f with
  | (None, f) =>
      match files f !! old with
      | Some data => (f <| files := <[new := data]> (delete old (files f)) |>, None)
      | None => (f, Some "no such file or directory"%string)
      end
  | (Some e, f) => (f, Some (ferror e))
  end.

Definition ReadFile (path : string) (f : FS) : string + string :=
  match (next_fault f).1 with
  | Some e => inr (ferror e)
  | None => match files f !! path with Some data => inl data | None => inr "no such file or directory"%string end
  end.

(** The directory is made; the file is made with an empty array only when there is none
    ([O_CREATE|O_EXCL]). *)
Definition NewDiskStore (path : string) (f : FS) : FS * option string :=
  match next_fault f with
  | (Some e, f) => (f, Some ("error creating directory " +:+ Paths.Dir path +:+ ": " +:+ ferror e)%string)
  | (None, f) =>
      match next_fault f with
      | (Some e, f) => (f, Some ("unable to open Store file: " +:+ ferror e)%string)
      | (None, f) =>
          match files f !! path with
          | Some _ => (f, None)
          | None =>
              let '(f, err) := WriteFile path "[]" f in
              (f, e ← err; Some ("unable to initialize Store file: " +:+ e)%string)
          end
      end
  end.

(** [diskStore.Save] and [diskStore.Load]. *)
Definition tmp_path (path : string) : string := (path +:+ ".tmp")%string.

Definition disk_Save (path : string) (records : list subscriptionRecord) (f : FS) : FS * option string :=
  let '(f, err) := WriteFile (tmp_path path) (records_text records) f in
  match err with Some e => (f, Some e) | None => Rename (tmp_path path) path f end.

(** No error is made of a file with nothing but white space. *)
Definition disk_records (data : string) : option (list subscriptionRecord) :=
  if str_eqb (Parser.TrimSpace data) "" then Some [] else read_records data.

Definition disk_Load (path : string) (f : FS) : list subscriptionRecord + string :=
  match ReadFile path f with
  | inr e => inr ("error loading records from disk: " +:+ e)%string
  | inl data =>
      match disk_records data with
      | Some rs => inl rs
      | None => inr "error unmarshalling saved records"%string
      end
  end.

Definition disk_persisted (path : string) (f : FS) : list subscriptionRecord :=
  default [] (data ← files f !! path; disk_records data).

(** ** The ConfigMap *)

Definition configMapStoreKey : string := "subscriptions.json".

(** What the API server replies; an update that reports an error may have been applied. *)
Inductive reply := ReplyOK | ReplyConflict | ReplyError (e : string) (applied : bool).

(** [cmData] is [None] while the ConfigMap does not exist. *)
Record API := mkAPI { cmData : option (gmap string string); replies : list reply }.

#[export] Instance API_fields : Fields API := fun a => mkAPI (cmData a) (replies a).

Inductive api_error := Conflict | AlreadyExists | OtherError (e : string).

Definition next_reply (a : API) : reply * API :=
  match replies a with [] => (ReplyOK, a) | x :: rest => (x, a <| replies := rest |>) end.

Definition api_get (a : API) : (gmap string string + api_error) * API :=
  let '(r, a) := next_reply a in
  match r, cmData a with
  | ReplyOK, Some d => (inl d, a)
  | ReplyOK, None => (inr (OtherError "not found"), a)
  | ReplyConflict, _ => (inr Conflict, a)
  | ReplyError e _, _ => (inr (OtherError e), a)
  end.

Definition api_update (d : gmap string string) (a : API) : option api_error * API :=
  let '(r, a) := next_reply a in
  match r with
  | ReplyOK => (None, a <| cmData := Some d |>)
  | ReplyConflict => (Some Conflict, a)
  | ReplyError e applied => (Some (OtherError e), if applied then a <| cmData := Some d |> else a)
  end.

Definition api_create (d : gmap string string) (a : API) : option api_error * API :=
  match cmData a with
  | Some _ => (Some AlreadyExists, a)
  | None => api_update d a
  end.

Definition error_text (e : api_error) : string :=
  match e with Conflict => "conflict" | AlreadyExists => "already exists" | OtherError e => e end.

Definition NewConfigMapStore (a : API) : API * option string :=
  let '(err, a) := api_create {[ configMapStoreKey := "[]"%string ]} a in
  match err with
  | None | Some AlreadyExists => (a, None)
  | Some e => (a, Some ("unable to create ConfigMap store: " +:+ error_text e)%string)
  end.

(** One call of the function that [Save] retries. *)
Definition save_once (data : string) (a : API) : option api_error * API :=
  match api_get a with
  | (inr e, a) => (Some e, a)
  | (inl _, a) => api_update {[ configMapStoreKey := data ]} a
  end.

(** [retry.RetryOnConflict(retry.DefaultRetry, fn)]: five calls at most. *)
Fixpoint retry_on_conflict (steps : nat) (fn : API -> option api_error * API) (lastErr : option api_error) (a : API)
    : option api_error * API :=
  match steps with
  | O => (lastErr, a)
  | S steps' =>
      match fn a with
      | (Some Conflict, a') => retry_on_conflict steps' fn (Some Conflict) a'
      | r => r
      end
  end.

Definition DefaultRetry_Steps : nat := 5.

(** [configMapStore.Save]. *)
Definition cm_Save (records : list subscriptionRecord) (a : API) : API * option string :=
  let '(err, a) := retry_on_conflict DefaultRetry_Steps (save_once (records_text records)) None a in
  (a, error_text <$> err).

(** *** The ConfigMap of cloud-event-proxy v1 *)

Record cepV1PubSub := mkV1 { v1ID : string; v1EndPointURI : string; v1Resource : string }.

(** [SubStore] is a pointer; its map is nil until a member sets it. *)
Record cepV1Subscriber := mkV1Sub { ClientID : string; EndPointURI : string; SubStore : option (gmap string cepV1PubSub) }.

Definition set_v1 (k : string) (v : json) (p : cepV1PubSub) : option cepV1PubSub :=
  if names "SubscriptionId" k then x ← into_string v (v1ID p); Some (mkV1 x (v1EndPointURI p) (v1Resource p))
  else if names "EndpointUri" k then x ← into_string v (v1EndPointURI p); Some (mkV1 (v1ID p) x (v1Resource p))
  else if names "ResourceAddress" k then x ← into_string v (v1Resource p); Some (mkV1 (v1ID p) (v1EndPointURI p) x)
  else Some p.

(** A member of a Go map: its value is read from the zero value. *)
Definition set_entry (k : string) (v : json) (m : gmap string cepV1PubSub) : option (gmap string cepV1PubSub) :=
  p ← into_struct set_v1 v (mkV1 "" "" ""); Some (<[k := p]> m).

Definition set_store (k : string) (v : json) (m : gmap string cepV1PubSub) : option (gmap string cepV1PubSub) :=
  if names "store" k then match v with JNull => Some ∅ | JObj l => set_members set_entry l m | _ => None end else Some m.

Definition set_subscriber (k : string) (v : json) (s : cepV1Subscriber) : option cepV1Subscriber :=
  if names "clientID" k then x ← into_string v (ClientID s); Some (mkV1Sub x (EndPointURI s) (SubStore s))
  else if names "EndpointUri" k then x ← into_string v (EndPointURI s); Some (mkV1Sub (ClientID s) x (SubStore s))
  else if names "subStore" k then
    match v with
    | JNull => Some (mkV1Sub (ClientID s) (EndPointURI s) None)
    | _ => m ← into_struct set_store v (default ∅ (SubStore s)); Some (mkV1Sub (ClientID s) (EndPointURI s) (Some m))
    end
  else Some s.

Definition read_subscriber (text : string) : option cepV1Subscriber :=
  j ← parse text; into_struct set_subscriber j (mkV1Sub "" "" None).

Section Legacy.
  Context `{Hw.MapOrder}.
  (* The id [uuid.New] draws for an entry of a subscriber that has none. *)
  Context (uuid : string -> string -> string).

Definition legacy_record (key : string) (sub : cepV1Subscriber) (e : string * cepV1PubSub) : option subscriptionRecord :=
  let '(k, ps) := e in
  if str_eqb (v1Resource ps) "" then None
  else
    let endpoint := if str_eqb (v1EndPointURI ps) "" then EndPointURI sub else v1EndPointURI ps in
    let id := if str_eqb (v1ID ps) "" then uuid key k else v1ID ps in
    Some (mkRecord id (v1Resource ps) endpoint).

Definition legacy_entry (kv : string * string) : list subscriptionRecord :=
  let '(key, value) := kv in
  if str_eqb key configMapStoreKey || str_eqb value "" then []
  else
    match read_subscriber value with
    | None => []                                   (* a warning *)
    | Some sub =>
        match SubStore sub with
        | None => []
        | Some store => omap (legacy_record key sub) (Hw.range store)
        end
    end.

Definition loadLegacyRecords (data : gmap string string) : list subscriptionRecord := Hw.range data ≫= legacy_entry.

Definition cm_records (data : gmap string string) : option (list subscriptionRecord) :=
  match data !! configMapStoreKey with
  | Some text => if str_eqb text "" then Some (loadLegacyRecords data) else read_records text
  | None => Some (loadLegacyRecords data)
  end.

(** [configMapStore.Load]. *)
Definition cm_Load (a : API) : list subscriptionRecord + string :=
  match api_get a with
  | (inr e, _) => inr ("error loading records from ConfigMap: " +:+ error_text e)%string
  | (inl data, _) =>
      match cm_records data with Some rs => inl rs | None => inr "error unmarshalling saved records"%string end
  end.

Definition cm_persisted (a : API) : list subscriptionRecord := default [] (data ← cmData a; cm_records data).
End Legacy.

(** ** Round trip of the records *)

Lemma record_wf r : wf (record_json r).
Proof. unfold record_json, omitempty_str. by destruct (str_eqb (rEndpoint r) ""). Qed.

Lemma set_record_id s r : set_record "id" (JStr s) r = Some (mkRecord s (rResource r) (rEndpoint r)).
Proof. reflexivity. Qed.

Lemma set_record_resource s r : set_record "resource" (JStr s) r = Some (mkRecord (rID r) s (rEndpoint r)).
Proof. reflexivity. Qed.

Lemma set_record_endpoint s r : set_record "endpoint" (JStr s) r = Some (mkRecord (rID r) (rResource r) s).
Proof. reflexivity. Qed.

Lemma read_record r : into_struct set_record (record_json r) (mkRecord "" "" "") = Some r.
Proof.
  destruct r as [i r e]. unfold record_json, omitempty_str. cbn [into_struct rID rResource rEndpoint app set_members].
  rewrite set_record_id. cbn [mbind option_bind]. rewrite set_record_resource. cbn [mbind option_bind rID rResource rEndpoint].
  unfold str_eqb. case_bool_decide as E; [by subst|]. cbn [set_members]. by rewrite set_record_endpoint.
Qed.

Lemma records_wf rs : wf (JArr (map record_json rs)).
Proof. cbn. induction rs as [|r rs IH]; [done|]. split; [apply record_wf|done]. Qed.

(** What was written is read back, whatever the strings. *)
Lemma read_records_text rs : read_records (records_text rs) = Some rs.
Proof.
  unfold read_records, records_text. rewrite parse_MarshalIndent by apply records_wf. cbn [mbind option_bind].
  induction rs as [|r rs IH]; [done|]. cbn [map mapM]. rewrite read_record. cbn. by rewrite IH.
Qed.

Lemma records_text_bracket rs : exists s, records_text rs = String "[" s.
Proof. unfold records_text, MarshalIndent. destruct rs; by eexists. Qed.

Lemma disk_records_text rs : disk_records (records_text rs) = Some rs.
Proof.
  unfold disk_records. rewrite read_records_text. destruct (records_text_bracket rs) as [s ->].
  unfold Parser.TrimSpace. change (Parser.trim_left (String "[" s)) with (String "[" s). cbn [Parser.trim_right].
  by destruct (Parser.trim_right s).
Qed.

(** ** The file store implements [Store] *)

Lemma next_fault_files f x f' : next_fault f = (x, f') -> files f' = files f.
Proof. unfold next_fault. destruct (faults f); by intros [= _ <-]. Qed.

Lemma WriteFile_spec path data f f' err :
  WriteFile path data f = (f', err) -> exists d, files f' = <[path := d]> (files f) /\ (err = None -> d = data).
Proof.
  unfold WriteFile. destruct (next_fault f) as [[e|] f1] eqn:E; intros [= <- <-]; cbn; apply next_fault_files in E as ->; by eexists.
Qed.

Lemma Rename_spec old new f f' err :
  Rename old new f = (f', err) ->
  match err with
  | None => exists d, files f !! old = Some d /\ files f' = <[new := d]> (delete old (files f))
  | Some _ => files f' = files f
  end.
Proof.
  unfold Rename. destruct (next_fault f) as [[e|] f1] eqn:E; apply next_fault_files in E.
  - by intros [= <- <-].
  - destruct (files f1 !! old) as [d|] eqn:Ed; intros [= <- <-]; [|done]. exists d. rewrite <- E. by split.
Qed.

Lemma tmp_path_ne path : tmp_path path <> path.
Proof.
  intros E. apply (f_equal String.length) in E. unfold tmp_path in E. rewrite Regex.str_app_length in E. cbn in E. lia.
Qed.

(** The file holds the old text or the new one, never a part. *)
Lemma disk_Save_spec path rs f f' err :
  disk_Save path rs f = (f', err) ->
  match err with
  | None => files f' !! path = Some (records_text rs)
  | Some _ => files f' !! path = files f !! path
  end.
Proof.
  unfold disk_Save. destruct (WriteFile (tmp_path path) (records_text rs) f) as [f1 e1] eqn:E1.
  apply WriteFile_spec in E1 as (d & Ed & Hd). pose proof (tmp_path_ne path). destruct e1 as [e1|].
  - intros [= <- <-]. by rewrite Ed, lookup_insert_ne.
  - intros E%Rename_spec. destruct err as [e|].
    + by rewrite E, Ed, lookup_insert_ne.
    + destruct E as (d' & Hd' & ->). rewrite Ed, lookup_insert_eq in Hd'. injection Hd' as <-. rewrite lookup_insert_eq. by rewrite Hd.
Qed.

#[export, refine] Instance diskStore (path : string) : Store FS :=
  {| Save := disk_Save path; Load := disk_Load path; persisted := disk_persisted path |}.
Proof.
  - intros f rs. unfold disk_Load, ReadFile, disk_persisted. destruct (next_fault f).1; [done|].
    destruct (files f !! path) as [data|]; [|done]. cbn. by destruct (disk_records data); [intros [= ->]|].
  - intros rs f f' H%disk_Save_spec. unfold disk_persisted. rewrite H. cbn [mbind option_bind]. by rewrite disk_records_text.
  - intros rs f f' e H%disk_Save_spec. left. unfold disk_persisted. by rewrite H.
Defined.

(** What a crash in the middle of [Save] can leave behind: the first write in any stage,
    with or without the rename. *)
Inductive crashed (path : string) (rs : list subscriptionRecord) (f : FS) : FS -> Prop :=
| CrashBefore : crashed path rs f f
| CrashWriting part : crashed path rs f (f <| files := <[tmp_path path := part]> (files f) |>)
| CrashRenamed f' : disk_Save path rs f = (f', None) -> crashed path rs f f'.

Lemma crash_safe path rs f f' : crashed path rs f f' -> disk_persisted path f' = disk_persisted path f \/ disk_persisted path f' = rs.
Proof.
  intros [|part|f1 H%disk_Save_spec]; [by left|left|right]; unfold disk_persisted; cbn.
  - by rewrite lookup_insert_ne by apply tmp_path_ne.
  - rewrite H. cbn [mbind option_bind]. by rewrite disk_records_text.
Qed.

(** ** The ConfigMap store implements [Store] *)

Definition only (text : string) : gmap string string := {[ configMapStoreKey := text ]}.

Lemma next_reply_data a x a' : next_reply a = (x, a') -> cmData a' = cmData a.
Proof. unfold next_reply. destruct (replies a); by intros [= _ <-]. Qed.

Lemma api_get_data a x a' : api_get a = (x, a') -> cmData a' = cmData a.
Proof.
  unfold api_get. destruct (next_reply a) as [r a1] eqn:E. apply next_reply_data in E. intros Hx.
  assert (a' = a1) as -> by (destruct r, (cmData a1); congruence). done.
Qed.

Lemma save_once_spec text a err a' :
  save_once text a = (err, a') ->
  match err with
  | None => cmData a' = Some (only text)
  | Some Conflict => cmData a' = cmData a
  | Some _ => cmData a' = cmData a \/ cmData a' = Some (only text)
  end.
Proof.
  unfold save_once. destruct (api_get a) as [[d|e] a1] eqn:E; apply api_get_data in E.
  - unfold api_update. destruct (next_reply a1) as [r a2] eqn:E2. apply next_reply_data in E2. rewrite E in E2.
    destruct r as [| |e [|]]; intros [= <- <-]; cbn; auto.
  - intros [= <- <-]. destruct e; auto.
Qed.

Lemma retry_spec text steps last a err a' :
  retry_on_conflict steps (save_once text) last a = (err, a') -> (steps = O -> last <> None) ->
  match err with
  | None => cmData a' = Some (only text)
  | Some _ => cmData a' = cmData a \/ cmData a' = Some (only text)
  end.
Proof.
  revert last a. induction steps as [|steps IH]; intros last a; cbn.
  - intros [= -> <-] Hl. destruct err; [by left|by destruct (Hl eq_refl)].
  - destruct (save_once text a) as [e a1] eqn:E. apply save_once_spec in E. destruct e as [[]|].
    + intros H _. rewrite <- E. by eapply IH.
    + intros [= <- <-] _. done.
    + intros [= <- <-] _. done.
    + by intros [= <- <-] _.
Qed.

Lemma cm_Save_spec rs a a' err :
  cm_Save rs a = (a', err) ->
  match err with
  | None => cmData a' = Some (only (records_text rs))
  | Some _ => cmData a' = cmData a \/ cmData a' = Some (only (records_text rs))
  end.
Proof.
  unfold cm_Save. destruct (retry_on_conflict _ _ _ a) as [e a1] eqn:E. apply retry_spec in E; [|done].
  intros [= <- <-]. by destruct e.
Qed.

Section Store.
  Context `{Hw.MapOrder} (uuid : string -> string -> string).

Lemma cm_records_only rs : cm_records uuid (only (records_text rs)) = Some rs.
Proof.
  unfold cm_records, only. rewrite lookup_singleton_eq. destruct (records_text_bracket rs) as [s E].
  rewrite <- (read_records_text rs). by rewrite E.
Qed.

#[export, refine] Instance configMapStore : Store API :=
  {| Save := cm_Save; Load := cm_Load uuid; persisted := cm_persisted uuid |}.
Proof.
  - intros a rs. unfold cm_Load, cm_persisted. destruct (api_get a) as [[d|e] a1] eqn:E; [|done].
    unfold api_get in E. destruct (next_reply a) as [r a2] eqn:E2. apply next_reply_data in E2. rewrite <- E2.
    destruct r; [|done|done]. destruct (cmData a2) as [d'|]; [|done]. injection E as -> _. cbn.
    by destruct (cm_records uuid d); [intros [= ->]|].
  - intros rs a a' E%cm_Save_spec. unfold cm_persisted. rewrite E. cbn [mbind option_bind]. by rewrite cm_records_only.
  - intros rs a a' e [E|E]%cm_Save_spec; [left|right]; unfold cm_persisted; rewrite E; [done|]. cbn [mbind option_bind]. by rewrite cm_records_only.
Defined.

(** ** Properties *)

(** C22. Subscriptions survive a restart.  What a store saved without an error is what it
    loads when its next call succeeds; a save that fails has left what was stored before
    or stored everything, also when it was cut short by a crash while the file was
    written; and saving into the ConfigMap leaves nothing else in it. *)
Theorem stores_keep_subscriptions rs path f f' a a' :
  (disk_Save path rs f = (f', None) -> (next_fault f').1 = None -> disk_Load path f' = inl rs) /\
  (crashed path rs f f' -> disk_persisted path f' = disk_persisted path f \/ disk_persisted path f' = rs) /\
  (cm_Save rs a = (a', None) -> (next_reply a').1 = ReplyOK -> cm_Load uuid a' = inl rs /\ cmData a' = Some (only (records_text rs))) /\
  (forall e, cm_Save rs a = (a', Some e) -> cmData a' = cmData a \/ cmData a' = Some (only (records_text rs))).
Proof.
  split_and!.
  - intros E%disk_Save_spec Hf. unfold disk_Load, ReadFile. rewrite Hf, E. by rewrite disk_records_text.
  - apply crash_safe.
  - intros E%cm_Save_spec Hr. split; [|done]. unfold cm_Load, api_get. destruct (next_reply a') as [r a1] eqn:E1. cbn in Hr. subst r.
    apply next_reply_data in E1. rewrite E1, E. by rewrite cm_records_only.
  - intros e E%cm_Save_spec. done.
Qed.

(** The subscriptions of version 1 are taken over: exactly the entries with a resource,
    of the subscribers that can be read, each with its own endpoint or else that of the
    subscriber, and its own id or else a new one; in any order of the two maps. *)
Theorem legacy_migrated data r :
  r ∈ loadLegacyRecords uuid data <->
  exists key value sub store k p,
    data !! key = Some value /\ key <> configMapStoreKey /\ read_subscriber value = Some sub /\ SubStore sub = Some store /\
    store !! k = Some p /\ v1Resource p <> ""%string /\
    r = mkRecord (if str_eqb (v1ID p) "" then uuid key k else v1ID p) (v1Resource p)
          (if str_eqb (v1EndPointURI p) "" then EndPointURI sub else v1EndPointURI p).
Proof.
  unfold loadLegacyRecords. rewrite list_elem_of_bind. split.
  - intros ([key value] & Hr & Hin%Hw.elem_of_range). unfold legacy_entry in Hr.
    destruct (str_eqb key configMapStoreKey) eqn:Ek; [by apply elem_of_nil in Hr|]. apply bool_decide_eq_false in Ek.
    destruct (str_eqb value ""); [by apply elem_of_nil in Hr|]. cbn [orb] in Hr.
    destruct (read_subscriber value) as [sub|] eqn:Es; [|by apply elem_of_nil in Hr].
    destruct (SubStore sub) as [store|] eqn:Est; [|by apply elem_of_nil in Hr].
    apply list_elem_of_omap in Hr as ([k p] & Hp%Hw.elem_of_range & E). unfold legacy_record in E.
    destruct (str_eqb (v1Resource p) "") eqn:Er; [done|]. apply bool_decide_eq_false in Er. injection E as <-.
    by exists key, value, sub, store, k, p.
  - intros (key & value & sub & store & k & p & Hd & Hk & Hs & Hst & Hp & Hr & ->). exists (key, value). split; [|by apply Hw.elem_of_range].
    unfold legacy_entry. destruct (str_eqb key configMapStoreKey) eqn:Ek; [by apply bool_decide_eq_true in Ek|].
    destruct (str_eqb value "") eqn:Ev; [apply bool_decide_eq_true in Ev as ->; by vm_compute in Hs|]. cbn [orb]. rewrite Hs, Hst.
    apply list_elem_of_omap. exists (k, p). split; [by apply Hw.elem_of_range|]. unfold legacy_record.
    destruct (str_eqb (v1Resource p) "") eqn:Er; [by apply bool_decide_eq_true in Er|]. done.
Qed.
End Store.

Lemma stores_keep_subscriptions_witness :
  let rs := [mkRecord "1" "/r" "http://a"; mkRecord "2" "/s" ""] in
  let f := mkFS ∅ [] in
  disk_Load "/store" (disk_Save "/store" rs f).1 = inl rs.
Proof.
  cbv zeta.
  assert (Hw.MapOrder) as Ho by exact Hw.some_order.
  destruct (stores_keep_subscriptions (fun _ _ => ""%string) [mkRecord "1" "/r" "http://a"; mkRecord "2" "/s" ""] "/store"
    (mkFS ∅ []) (disk_Save "/store" [mkRecord "1" "/r" "http://a"; mkRecord "2" "/s" ""] (mkFS ∅ [])).1 (mkAPI None []) (mkAPI None [])) as [Hd _].
  apply Hd; vm_compute; reflexivity.
Defined.

(** Five conflicts in a row make the save fail, and the ConfigMap keeps what it has. *)
Lemma five_conflicts d rs :
  cm_Save rs (mkAPI (Some d) (concat (replicate 5 [ReplyOK; ReplyConflict]))) = (mkAPI (Some d) [], Some "conflict"%string).
Proof. reflexivity. Qed.

End CepStore.
