(* ===== verification/CepEvents.v ===== *)
(** * pkg/cep/event_cache.go: the latest event of each kind

    The cloud events of cloud-event-proxy: what a message of the daemon becomes
    ([oranMapping], [buildDataValues], [setDataValue] of pkg/cep/cep.go), and the cache
    that keeps one event per type of message and reports changes.  The types of the
    vendored SDK are records; its time stamps and the ids of the uuid package are
    arguments.  Events are handed out as copies, so they are values. *)

From S2P Require Import Prelude Float64 Strconv Regex Conf HwTypes Paths Ipc.
From Stdlib Require Import Ascii.
From Stdlib Require Import SpecFloat.

Module CepEvents.

(** ** The vendored SDK: event types, resources, data *)

Definition PtpStateChange : string := "event.sync.ptp-status.ptp-state-change".
Definition OsClockSyncStateChange : string := "event.sync.sync-status.os-clock-sync-state-change".
Definition PtpClockClassChange : string := "event.sync.ptp-status.ptp-clock-class-change".
Definition GnssStateChange : string := "event.sync.gnss-status.gnss-state-change".
Definition SynceStateChange : string := "event.sync.synce-status.synce-state-change".
Definition SynceClockQualityChange : string := "event.sync.synce-status.synce-clock-quality-change".
Definition SyncStateChange : string := "event.sync.sync-status.synchronization-state-change".

Definition PtpLockState : string := "/sync/ptp-status/lock-state".
Definition OsClockSyncState : string := "/sync/sync-status/os-clock-sync-state".
Definition PtpClockClass : string := "/sync/ptp-status/clock-class".
Definition GnssSyncStatus : string := "/sync/gnss-status/gnss-sync-status".
Definition SynceLockState : string := "/sync/synce-status/lock-state".
Definition SynceClockQuality : string := "/sync/synce-status/clock-quality".
Definition SyncStatusState : string := "/sync/sync-status/sync-state".

Definition NOTIFICATION : string := "notification".
Definition METRIC : string := "metric".
Definition ENUMERATION : string := "enumeration".
Definition DECIMAL : string := "decimal64.3".
Definition APISchemaVersion : string := "1.0".

(** The dynamic types of the interface [Value] that occur. *)
Inductive any := AStr (s : string) | AInt (z : Z) | AFloat (f : f64).

(** [==] on interface values. *)
Definition any_eqb (a b : any) : bool :=
  match a, b with
  | AStr s, AStr t => str_eqb s t
  | AInt x, AInt y => x =? y
  | AFloat x, AFloat y => SFeqb x y
  | _, _ => false
  end.

Record DataValue := mkDV { dvResource : string; dvDataType : string; dvValueType : string; dvValue : any }.

Section Events.
  Context {Time : Type}.

(** The content type is always application/json; the data are never nil. *)
Record Event := mkEvent {
  eID : string;
  eType : string;
  eSource : string;
  eTime : option Time;
  eVersion : string;
  eValues : list DataValue
}.

#[export] Instance Event_fields : Fields Event := fun e => mkEvent (eID e) (eType e) (eSource e) (eTime e) (eVersion e) (eValues e).

(** ** From messages to data *)

Definition oranMapping (ipcType : string) : option (string * string) :=
  if str_eqb ipcType TypePTPState then Some (PtpStateChange, PtpLockState)
  else if str_eqb ipcType TypeOSClockState then Some (OsClockSyncStateChange, OsClockSyncState)
  else if str_eqb ipcType TypeClockClass then Some (PtpClockClassChange, PtpClockClass)
  else if str_eqb ipcType TypeGNSSState then Some (GnssStateChange, GnssSyncStatus)
  else if str_eqb ipcType TypeSyncEState then Some (SynceStateChange, SynceLockState)
  else if str_eqb ipcType TypeSyncEClockQuality then Some (SynceClockQualityChange, SynceClockQuality)
  else if str_eqb ipcType TypeSyncState then Some (SyncStateChange, SyncStatusState)
  else None.

Definition metricDV (resource : string) (value : any) : DataValue := mkDV resource METRIC DECIMAL value.
Definition notificationDV (resource : string) (state : string) : DataValue := mkDV resource NOTIFICATION ENUMERATION (AStr state).

Definition placeholderOffset : Z := 0.

Definition buildDataValues (resourceAddr : string) (v : option Value) : list DataValue :=
  match v with
  | Some (StateValue s o) => [notificationDV resourceAddr s; metricDV resourceAddr (AInt o)]
  | Some (GNSSStateValue s) =>
      [notificationDV resourceAddr s; metricDV resourceAddr (AInt placeholderOffset);
       metricDV (Paths.Join [resourceAddr; "gpsFix"%string]) (AInt placeholderOffset)]
  | Some (SyncStateValue s) => [notificationDV resourceAddr s]
  | Some (SyncEStateValue s) => [metricDV resourceAddr (AStr s)]
  | Some (ClockClassValue c) => [metricDV resourceAddr (AInt (int64 c))]
  | Some (SyncEClockQualityValue q e) =>
      [metricDV (Paths.Join [resourceAddr; "Ql"%string]) (AFloat (f64_of_Z q));
       metricDV (Paths.Join [resourceAddr; "extQl"%string]) (AFloat (f64_of_Z e))]
  | None => []
  end.

Definition same_key (a b : DataValue) : bool := str_eqb (dvResource a) (dvResource b) && str_eqb (dvDataType a) (dvDataType b).

Fixpoint dataValuesEqual (a b : list DataValue) : bool :=
  match a, b with
  | [], [] => true
  | x :: a', y :: b' => same_key x y && any_eqb (dvValue x) (dvValue y) && dataValuesEqual a' b'
  | _, _ => false
  end.

(** [setDataValue] on the values of the event: the new values, and whether they changed. *)
Fixpoint setDataValue (l : list DataValue) (dv : DataValue) : list DataValue * bool :=
  match l with
  | [] => ([dv], true)
  | x :: l' =>
      if same_key x dv then
        if any_eqb (dvValue x) (dvValue dv) then (l, false) else (dv :: l', true)
      else let '(r, changed) := setDataValue l' dv in (x :: r, changed)
  end.

(** The loop over the new values. *)
Fixpoint set_all (l dvs : list DataValue) : list DataValue * bool :=
  match dvs with
  | [] => (l, false)
  | dv :: dvs' =>
      let '(l1, c1) := setDataValue l dv in
      let '(l2, c2) := set_all l1 dvs' in (l2, c1 || c2)
  end.

(** ** The cache *)

Record EventCache := mkEventCache { nodeName : string; entries : gmap string Event }.

#[export] Instance EventCache_fields : Fields EventCache := fun c => mkEventCache (nodeName c) (entries c).

Definition NewEventCache (node : string) : EventCache := mkEventCache node ∅.

Definition source_path (node suffix : string) : string := Paths.Join ["/cluster/node"%string; node; suffix].

Definition buildResourceAddress (c : EventCache) (ipcType iface : string) : string :=
  let prefix := Paths.Join ["/cluster/node"%string; nodeName c] in
  if str_eqb ipcType TypePTPState || str_eqb ipcType TypeGNSSState then Paths.Join [prefix; iface; "master"%string]
  else if str_eqb ipcType TypeClockClass then Paths.Join [prefix; iface; "master"%string; "clock-class"%string]
  else if str_eqb ipcType TypeOSClockState then Paths.Join [prefix; "CLOCK_REALTIME"%string]
  else if str_eqb ipcType TypeSyncEState || str_eqb ipcType TypeSyncEClockQuality then Paths.Join [prefix; iface]
  else if str_eqb ipcType TypeSyncState then Paths.Join [prefix; SyncStatusState]
  else prefix.

  (* [types.ParseTimestamp] of the SDK; its error is dropped *)
  Context (ParseTimestamp : string -> option Time).

(** The event of the entry, or a new one. *)
Definition entry (c : EventCache) (ipcType oranType oranSource : string) : Event :=
  default (mkEvent "" oranType (source_path (nodeName c) oranSource) None APISchemaVersion []) (entries c !! ipcType).

(** The values after a message without and with an interface. *)
Definition merge_values (exists_ : bool) (iface : string) (old dvs : list DataValue) : list DataValue * bool :=
  if str_eqb iface "" then
    if negb exists_ || negb (dataValuesEqual old dvs) then (dvs, true) else (old, false)
  else set_all old dvs.

(** [Update]; [id] is what [uuid.New] returns. *)
Definition Update (id : string) (msg : Message) (c : EventCache) : EventCache * option Event :=
  match oranMapping (mType msg) with
  | None => (c, None)
  | Some (oranType, oranSource) =>
      let dvs := buildDataValues (buildResourceAddress c (mType msg) (mIFace msg)) (mValues msg) in
      match dvs with
      | [] => (c, None)
      | _ =>
          let e := entry c (mType msg) oranType oranSource in
          let '(values, changed) := merge_values (bool_decide (is_Some (entries c !! mType msg))) (mIFace msg) (eValues e) dvs in
          let e := e <| eValues := values |> in
          if changed then
            let e := e <| eID := id |> <| eTime := ParseTimestamp (mTimestamp msg) |> in
            (c <| entries := <[mType msg := e]> (entries c) |>, Some e)
          else (c <| entries := <[mType msg := e]> (entries c) |>, None)
      end
  end.

Definition Get (ipcType : string) (c : EventCache) : option Event := entries c !! ipcType.

Definition GetBySource `{Hw.MapOrder} (source : string) (c : EventCache) : option Event :=
  snd <$> first_match (fun kv => str_eqb (eSource kv.2) source) (Hw.range (entries c)).

Definition Clear (c : EventCache) : EventCache := c <| entries := ∅ |>.

(** ** Specification: the latest value of each data point *)

Abbreviation point := (string * string)%type.

Definition key (x : DataValue) : point := (dvResource x, dvDataType x).

Definition value_at (l : list DataValue) (k : point) : option any := dvValue <$> first_match (fun x => bool_decide (key x = k)) l.

(** A message without an interface replaces what was known, one with an interface adds
    to it. *)
Definition learn (iface : string) (dvs : list DataValue) (old : gmap point any) : gmap point any :=
  if str_eqb iface "" then list_to_map (map (fun x => (key x, dvValue x)) dvs)
  else foldl (fun m x => <[key x := dvValue x]> m) old dvs.

(** The cached value is the latest, or was found equal to it. *)
Definition agrees (a b : any) : Prop := a = b \/ any_eqb a b = true.

Definition related (l : list DataValue) (m : gmap point any) : Prop :=
  forall k, match value_at l k, m !! k with Some a, Some b => agrees a b | None, None => True | _, _ => False end.

Lemma same_key_spec x y : same_key x y = true <-> key x = key y.
Proof.
  unfold same_key, str_eqb, key. rewrite andb_true_iff, !bool_decide_eq_true. split; [by intros [-> ->]|by intros [= -> ->]].
Qed.

Lemma value_at_cons x l k : value_at (x :: l) k = if decide (key x = k) then Some (dvValue x) else value_at l k.
Proof. unfold value_at. cbn. case_bool_decide; by case_decide. Qed.

(** One value. *)
Lemma setDataValue_spec l dv :
  match setDataValue l dv with
  | (l', false) => l' = l /\ exists x, value_at l (key dv) = Some x /\ any_eqb x (dvValue dv) = true
  | (l', true) =>
      (forall x, value_at l (key dv) = Some x -> any_eqb x (dvValue dv) = false) /\
      forall k, value_at l' k = if decide (key dv = k) then Some (dvValue dv) else value_at l k
  end.
Proof.
  induction l as [|x l IH]; cbn [setDataValue]; [split; [done|]; intros k; by rewrite value_at_cons|].
  assert (value_at (x :: l) (key dv) = if same_key x dv then Some (dvValue x) else value_at l (key dv)) as Hat.
  { rewrite value_at_cons. case_decide as E; [apply same_key_spec in E as ->; done|].
    destruct (same_key x dv) eqn:E'; [by apply same_key_spec in E'|done]. }
  rewrite Hat. destruct (same_key x dv) eqn:Ek.
  - apply same_key_spec in Ek. destruct (any_eqb (dvValue x) (dvValue dv)) eqn:Ev.
    + split; [done|]. by eexists.
    + split; [by intros y [= <-]|]. intros k. rewrite !value_at_cons, Ek. by case_decide.
  - assert (key x <> key dv) as Hne by (intros E; apply same_key_spec in E; congruence).
    destruct (setDataValue l dv) as [l' [|]]; destruct IH as [H1 H2].
    + split; [done|]. intros k. rewrite !value_at_cons, H2. repeat case_decide; congruence.
    + split; [by rewrite H1|done].
Qed.

Definition said (l dvs : list DataValue) : Prop :=
  forall dv, dv ∈ dvs -> exists x, value_at l (key dv) = Some x /\ any_eqb x (dvValue dv) = true.

Lemma setDataValue_related l dv m : related l m -> related (setDataValue l dv).1 (<[key dv := dvValue dv]> m).
Proof.
  intros Hr k. pose proof (setDataValue_spec l dv) as Hs. specialize (Hr k).
  destruct (setDataValue l dv) as [l' [|]]; cbn [fst]; destruct Hs as [H1 H2].
  - rewrite H2. case_decide as E; [subst k; rewrite lookup_insert_eq; by left|]. by rewrite lookup_insert_ne.
  - subst l'. destruct H2 as (x & Hx & He). destruct (decide (key dv = k)) as [<-|].
    + rewrite Hx, lookup_insert_eq. by right.
    + by rewrite lookup_insert_ne.
Qed.

Lemma set_all_related l dvs m : related l m -> related (set_all l dvs).1 (foldl (fun m x => <[key x := dvValue x]> m) m dvs).
Proof.
  revert l m. induction dvs as [|dv dvs IH]; intros l m Hr; [done|]. cbn [set_all foldl].
  pose proof (setDataValue_related l dv m Hr) as Hr'. destruct (setDataValue l dv) as [l1 c1]. cbn in Hr'.
  specialize (IH l1 _ Hr'). by destruct (set_all l1 dvs).
Qed.

(** Nothing changes exactly when everything was said. *)
Lemma set_all_changed l dvs : match set_all l dvs with (l', false) => l' = l /\ said l dvs | (_, true) => ~ said l dvs end.
Proof.
  revert l. induction dvs as [|dv dvs IH]; intros l; [split; [done|]; by intros ? ?%elem_of_nil|]. cbn [set_all].
  pose proof (setDataValue_spec l dv) as Hs. specialize (IH (setDataValue l dv).1).
  destruct (setDataValue l dv) as [l1 [|]]; cbn [fst] in IH; destruct (set_all l1 dvs) as [l2 c2]; cbn [orb].
  - destruct Hs as [Hs _]. intros Hsaid. destruct (Hsaid dv) as (x & Hx & He); [left|]. apply Hs in Hx. congruence.
  - destruct Hs as [-> Hs]. destruct c2.
    + intros Hsaid. apply IH. intros d Hd. apply Hsaid. by right.
    + destruct IH as [-> IH]. split; [done|]. intros d [->|Hd]%elem_of_cons; auto.
Qed.

Lemma dataValuesEqual_related l dvs :
  dataValuesEqual l dvs = true -> related l (list_to_map (map (fun x => (key x, dvValue x)) dvs)).
Proof.
  revert dvs. induction l as [|x l IH]; intros [|y dvs]; cbn [dataValuesEqual map]; try (by intros ?).
  rewrite !andb_true_iff. intros [[Hk%same_key_spec Hv] Hl] k. rewrite value_at_cons. cbn [list_to_map foldr].
  specialize (IH dvs Hl k). cbn [fst snd]. rewrite <- Hk. case_decide as E; [subst k; rewrite lookup_insert_eq; by right|].
  by rewrite lookup_insert_ne.
Qed.

Lemma related_refl l : related l (list_to_map (map (fun x => (key x, dvValue x)) l)).
Proof.
  intros k. induction l as [|x l IH]; [cbn [map list_to_map foldr]; by rewrite lookup_empty|]. rewrite value_at_cons. cbn [map list_to_map foldr fst snd].
  case_decide as E; [subst k; rewrite lookup_insert_eq; by left|]. by rewrite lookup_insert_ne.
Qed.

Lemma merge_related b iface old dvs m :
  (b = true -> related old m) -> (b = false -> old = [] /\ m = ∅) -> related (merge_values b iface old dvs).1 (learn iface dvs m).
Proof.
  intros H1 H0. unfold merge_values, learn. destruct (str_eqb iface "").
  - destruct b; cbn [negb orb]; [|apply related_refl]. destruct (dataValuesEqual old dvs) eqn:E; cbn.
    + by apply dataValuesEqual_related.
    + apply related_refl.
  - apply set_all_related. destruct b; [auto|]. destruct (H0 eq_refl) as [-> ->]. intros k. by rewrite lookup_empty.
Qed.

(** *** The messages of a run *)

(** The data of a message of a known type; [None] when it is dropped. *)
Definition data_of (node : string) (m : Message) : option (list DataValue) :=
  _ ← oranMapping (mType m);
  match buildDataValues (buildResourceAddress (mkEventCache node ∅) (mType m) (mIFace m)) (mValues m) with
  | [] => None
  | dvs => Some dvs
  end.

Abbreviation knowledge := (gmap string (gmap point any)).

Definition learn_message (node : string) (K : knowledge) (m : Message) : knowledge :=
  match data_of node m with
  | Some dvs => <[mType m := learn (mIFace m) dvs (default ∅ (K !! mType m))]> K
  | None => K
  end.

Definition run (node : string) (hist : list (string * Message)) : EventCache :=
  foldl (fun c im => (Update im.1 im.2 c).1) (NewEventCache node) hist.

Definition latest (node : string) (hist : list (string * Message)) : knowledge :=
  foldl (fun K im => learn_message node K im.2) ∅ hist.

(** An entry has the type and the source of its messages, and the latest values. *)
Definition entry_ok (node t : string) (e : option Event) (m : option (gmap point any)) : Prop :=
  match e, m with
  | Some e, Some m => (exists s, oranMapping t = Some (eType e, s) /\ eSource e = source_path node s) /\ related (eValues e) m
  | None, None => True
  | _, _ => False
  end.

Definition cache_ok (node : string) (c : EventCache) (K : knowledge) : Prop :=
  nodeName c = node /\ forall t, entry_ok node t (entries c !! t) (K !! t).

Lemma Update_cases id m c :
  match data_of (nodeName c) m with
  | None => Update id m c = (c, None)
  | Some dvs =>
      exists oranType oranSource, oranMapping (mType m) = Some (oranType, oranSource) /\ dvs <> [] /\
        let e := entry c (mType m) oranType oranSource in
        let '(values, changed) := merge_values (bool_decide (is_Some (entries c !! mType m))) (mIFace m) (eValues e) dvs in
        let e' := e <| eValues := values |> in
        let e'' := e' <| eID := id |> <| eTime := ParseTimestamp (mTimestamp m) |> in
        Update id m c = (c <| entries := <[mType m := if changed then e'' else e']> (entries c) |>, if changed then Some e'' else None)
  end.
Proof.
  unfold data_of, Update. change (buildResourceAddress (mkEventCache (nodeName c) ∅)) with (buildResourceAddress c).
  destruct (oranMapping (mType m)) as [[ot os]|]; cbn [mbind option_bind]; [|done].
  destruct (buildDataValues _ _) as [|d l] eqn:Ed; [done|]. exists ot, os. split; [done|]. split; [done|].
  cbv zeta. destruct (merge_values _ _ _ _) as [v []]; done.
Qed.

Lemma Update_ok node id m c K : cache_ok node c K -> cache_ok node (Update id m c).1 (learn_message node K m).
Proof.
  intros [<- Hc]. pose proof (Update_cases id m c) as Hu. unfold learn_message.
  destruct (data_of (nodeName c) m) as [dvs|]; [|by rewrite Hu].
  destruct Hu as (ot & os & Hm & Hne & Hu). cbv zeta in Hu. specialize (Hc (mType m)) as Ht.
  destruct (merge_values _ _ _ _) as [v ch] eqn:Em. rewrite Hu. split; [done|]. intros t. cbn [fst entries upd].
  destruct (decide (mType m = t)) as [<-|Hn]; [|rewrite lookup_insert_ne by done; rewrite lookup_insert_ne by done; apply Hc].
  assert (related v (learn (mIFace m) dvs (default ∅ (K !! mType m)))) as Hrel.
  { change v with ((v, ch).1). rewrite <- Em. unfold entry, entry_ok in *.
    destruct (entries c !! mType m) as [e|], (K !! mType m) as [k|]; try done; apply merge_related.
    - intros _. by apply Ht.
    - intros Hb%bool_decide_eq_false. destruct Hb. by eexists.
    - intros [? ?]%bool_decide_eq_true. done.
    - done. }
  rewrite lookup_insert_eq. rewrite lookup_insert_eq. unfold entry_ok, entry in *.
  destruct ch; (split; [|done]); cbn [upd eType eSource];
    (destruct (entries c !! mType m) as [e|]; cbn [from_option]; unfold Datatypes.id; [by destruct (K !! mType m) as [?|]; [apply Ht|]|by exists os]).
Qed.

Lemma run_ok node hist : cache_ok node (run node hist) (latest node hist).
Proof.
  unfold run, latest. assert (cache_ok node (NewEventCache node) ∅) as Hc.
  { split; [done|]. intros t. cbn [entries NewEventCache]. by rewrite !lookup_empty. }
  revert Hc. generalize (NewEventCache node) (∅ : knowledge). induction hist as [|[id m] hist IH]; intros c K Hc; [done|].
  apply IH. by apply Update_ok.
Qed.

(** What the cache knows already. *)
Definition known (c : EventCache) (m : Message) (dvs : list DataValue) : Prop :=
  exists e, entries c !! mType m = Some e /\
    if str_eqb (mIFace m) "" then dataValuesEqual (eValues e) dvs = true else said (eValues e) dvs.

(** C21. The event cache follows the daemon.  After any messages it has one event per type of
    message, with the type and the source of that kind of event, and for every data point
    the value of the last message that had one.  A further message changes nothing and
    makes no event exactly when it has no data or nothing new; otherwise the event that
    is returned is the one in the cache, with the new id and the time of the message. *)
Theorem event_cache_latest node hist id m :
  let c := run node hist in
  (forall t, entry_ok node t (entries c !! t) (latest node hist !! t)) /\
  match data_of node m with
  | None => Update id m c = (c, None)
  | Some dvs =>
      (known c m dvs -> Update id m c = (c, None)) /\
      (~ known c m dvs -> exists e, (Update id m c).2 = Some e /\ entries (Update id m c).1 !! mType m = Some e /\
         eID e = id /\ eTime e = ParseTimestamp (mTimestamp m) /\ forall t, t <> mType m -> entries (Update id m c).1 !! t = entries c !! t)
  end.
Proof.
  cbv zeta. pose proof (run_ok node hist) as [Hn Hok]. split; [exact Hok|]. set (c := run node hist) in *.
  pose proof (Update_cases id m c) as Hu. rewrite Hn in Hu. destruct (data_of node m) as [dvs|]; [|exact Hu].
  destruct Hu as (ot & os & Hm & Hne & Hu). cbv zeta in Hu. unfold known, entry in *.
  assert (forall v ch, merge_values (bool_decide (is_Some (entries c !! mType m))) (mIFace m)
      (eValues (default (mkEvent "" ot (source_path (nodeName c) os) None APISchemaVersion []) (entries c !! mType m))) dvs = (v, ch) ->
    if ch then ~ known c m dvs else known c m dvs /\ exists e, entries c !! mType m = Some e /\ v = eValues e) as Hmerge.
  { intros v ch. unfold merge_values, known. destruct (entries c !! mType m) as [e|]; cbn [from_option]; unfold Datatypes.id.
    - rewrite bool_decide_eq_true_2 by by eexists. cbn [negb orb]. destruct (str_eqb (mIFace m) "").
      + destruct (dataValuesEqual (eValues e) dvs) eqn:E; intros [= <- <-]; [split; by exists e|]. intros (e' & [= <-] & H). congruence.
      + pose proof (set_all_changed (eValues e) dvs) as Hs. intros E. rewrite E in Hs. destruct ch.
        * intros (e' & [= <-] & H). by apply Hs.
        * destruct Hs as [-> Hs]. split; by exists e.
    - rewrite bool_decide_eq_false_2 by by intros [? ?]. cbn [negb orb eValues]. destruct (str_eqb (mIFace m) "").
      + intros [= <- <-]. by intros (? & ? & _).
      + pose proof (set_all_changed [] dvs) as Hs. intros E. rewrite E in Hs. destruct ch; [by intros (? & ? & _)|].
        destruct Hs as [_ Hs]. destruct dvs as [|d dvs]; [done|]. destruct (Hs d) as (x & Hx & _); [left|done]. }
  destruct (merge_values _ _ _ _) as [v ch] eqn:Em. specialize (Hmerge v ch eq_refl). fold (known c m dvs). rewrite Hu. destruct ch.
  - split; [by intros H%Hmerge|]. intros _. eexists. split; [done|]. cbn. split; [by rewrite lookup_insert_eq|].
    split; [done|]. split; [done|]. intros t Ht. by rewrite lookup_insert_ne.
  - destruct Hmerge as [Hk (e & He & ->)]. split; [|by intros H%(fun f => f Hk)]. intros _. f_equal. rewrite He.
    cbn [from_option]; unfold Datatypes.id. destruct c as [nd en]. cbn in *. f_equal. apply insert_id. rewrite He. by destruct e.
Qed.

End Events.
Arguments Event : clear implicits.
Arguments EventCache : clear implicits.

(** ** The resources of a node *)

Definition supportedResourceSuffixes : list string :=
  [PtpLockState; OsClockSyncState; PtpClockClass; GnssSyncStatus; SynceLockState; SynceClockQuality; SyncStatusState].

Definition publishableResources (node : string) : list string := map (source_path node) supportedResourceSuffixes.

Definition isPublishedResource (node resource : string) : bool := existsb (str_eqb resource) (publishableResources node).

Lemma split_on_slash a b : Conf.split_on Paths.slash (a +:+ String Paths.slash b) = Conf.split_on Paths.slash a ++ Conf.split_on Paths.slash b.
Proof.
  induction a as [|c a IH]; [done|]. rewrite str_app_cons. cbn [Conf.split_on]. destruct (ascii_dec c Paths.slash); [by rewrite IH|].
  rewrite IH. by destruct (Paths.split_cons Paths.slash a) as (e & l & ->).
Qed.

Lemma join_app l l' : l <> [] -> l' <> [] -> join "/" (l ++ l') = (join "/" l +:+ String Paths.slash (join "/" l'))%string.
Proof.
  intros Hl Hl'. induction l as [|e l IH]; [done|]. destruct l as [|e' l].
  - destruct l' as [|f l']; [done|]. done.
  - cbn [app]. rewrite !Paths.join_cons. cbn [app] in IH. by rewrite IH, Regex.str_app_assoc.
Qed.

(** What stands before the suffix. *)
Definition node_prefix (node : string) : string :=
  match rev (foldl (Paths.clean_step true) [] (Conf.split_on Paths.slash "/cluster/node" ++ Conf.split_on Paths.slash node)) with
  | [] => ""
  | l => String Paths.slash (join "/" l)
  end.

(** An absolute path without empty elements and dots. *)
Definition plain_path (s : string) : bool :=
  match s with
  | String c r => bool_decide (c = Paths.slash) && negb (str_eqb r "")
      && forallb (fun e => negb (str_eqb e "") && negb (str_eqb e ".") && negb (str_eqb e "..")) (Conf.split_on Paths.slash r)
  | EmptyString => false
  end.

Lemma join_split s : join "/" (Conf.split_on Paths.slash s) = s.
Proof.
  destruct (Paths.split_snoc s) as (l & e & -> & _ & ->). destruct l as [|x l]; [done|].
  by rewrite join_app.
Qed.

Lemma suffix_names s :
  plain_path s = true -> exists s1 names, s = String Paths.slash s1 /\ join "/" names = s1 /\ names <> [] /\
    forall acc, foldl (Paths.clean_step true) acc (Conf.split_on Paths.slash s) = rev names ++ acc.
Proof.
  destruct s as [|c r]; [done|]. cbn [plain_path]. rewrite !andb_true_iff. intros [[->%bool_decide_eq_true Hr] Hall].
  exists r, (Conf.split_on Paths.slash r). split; [done|]. split; [apply join_split|].
  split; [by destruct (Paths.split_cons Paths.slash r) as (e & l & ->)|]. intros acc.
  change (Conf.split_on Paths.slash (String Paths.slash r)) with (""%string :: Conf.split_on Paths.slash r). cbn [foldl].
  change (Paths.clean_step true acc "") with acc. clear Hr. revert acc Hall.
  induction (Conf.split_on Paths.slash r) as [|e l IH]; intros acc; [done|]. cbn [forallb foldl rev]. rewrite !andb_true_iff, !negb_true_iff.
  intros [[[H1 H2] H3] Hl]. rewrite <- app_assoc. cbn [app]. rewrite <- IH by done. f_equal. unfold Paths.clean_step. by rewrite H1, H2, H3.
Qed.

Lemma source_path_prefix node s : s ∈ supportedResourceSuffixes -> source_path node s = (node_prefix node +:+ s)%string.
Proof.
  intros Hs. unfold source_path.
  assert (exists s1 names, s = String Paths.slash s1 /\ join "/" names = s1 /\ names <> [] /\
    forall acc, foldl (Paths.clean_step true) acc (Conf.split_on Paths.slash s) = rev names ++ acc) as (s1 & names & -> & Hj & Hn & Hf).
  { unfold supportedResourceSuffixes in Hs. repeat (apply elem_of_cons in Hs as [->|Hs]; [apply suffix_names; vm_compute; reflexivity|]).
    by apply elem_of_nil in Hs. }
  change (Paths.Join ["/cluster/node"%string; node; String Paths.slash s1])
    with (Paths.Clean ("/cluster/node" +:+ String Paths.slash (node +:+ String Paths.slash (String Paths.slash s1)))).
  unfold Paths.Clean. change (Paths.is_rooted _) with true. cbv beta iota zeta.
  rewrite !split_on_slash, app_assoc, foldl_app. fold (Conf.split_on Paths.slash "/cluster/node").
  unfold node_prefix. set (acc := foldl (Paths.clean_step true) [] _).
  rewrite Hf, rev_app_distr, rev_involutive. destruct (rev acc) as [|x l] eqn:E.
  - cbn [app]. rewrite Hj. done.
  - rewrite join_app, Hj by done. reflexivity.
Qed.

Lemma append_inj_l (p s t : string) : (p +:+ s)%string = (p +:+ t)%string -> s = t.
Proof. induction p as [|c p IH]; [done|]. rewrite !str_app_cons. intros [= H]. auto. Qed.

(** Kinds of messages have sources of their own, which are published. *)
Lemma oranMapping_suffix t ot s : oranMapping t = Some (ot, s) -> s ∈ supportedResourceSuffixes.
Proof.
  unfold oranMapping. intros H. repeat (destruct (str_eqb t _); [injection H as _ <-; set_solver|]). done.
Qed.

Definition kind_of (s : string) : option string :=
  first_match (fun t => match oranMapping t with Some (_, s') => str_eqb s s' | None => false end)
    [TypePTPState; TypeOSClockState; TypeClockClass; TypeGNSSState; TypeSyncEState; TypeSyncEClockQuality; TypeSyncState].

Lemma oranMapping_kind t ot s : oranMapping t = Some (ot, s) -> kind_of s = Some t.
Proof.
  unfold oranMapping, str_eqb. intros H. repeat (case_bool_decide; [subst t; injection H as _ <-; vm_compute; reflexivity|]). done.
Qed.

Lemma oranMapping_inj t t' ot ot' s : oranMapping t = Some (ot, s) -> oranMapping t' = Some (ot', s) -> t = t'.
Proof. intros H%oranMapping_kind H'%oranMapping_kind. congruence. Qed.

Lemma source_path_inj node s s' :
  s ∈ supportedResourceSuffixes -> s' ∈ supportedResourceSuffixes -> source_path node s = source_path node s' -> s = s'.
Proof. intros Hs Hs'. rewrite !source_path_prefix by done. apply append_inj_l. Qed.

Lemma isPublished_iff node r : isPublishedResource node r = true <-> exists s, s ∈ supportedResourceSuffixes /\ r = source_path node s.
Proof.
  unfold isPublishedResource, publishableResources. rewrite existsb_exists. unfold str_eqb. setoid_rewrite bool_decide_eq_true.
  setoid_rewrite <- list_elem_of_In. setoid_rewrite list_elem_of_fmap. naive_solver.
Qed.

(** One event at most has a source, whatever the order of the map. *)
Lemma GetBySource_spec `{Hw.MapOrder} {Time} (P : string -> option Time) node hist t ot s :
  oranMapping t = Some (ot, s) ->
  GetBySource (source_path node s) (run P node hist) = entries (run P node hist) !! t.
Proof.
  intros Hm. pose proof (run_ok P node hist) as [_ Hok]. set (c := run P node hist) in *. unfold GetBySource.
  assert (forall t' e, entries c !! t' = Some e -> eSource e = source_path node s -> t' = t) as Hu.
  { intros t' e He Hs. specialize (Hok t'). unfold entry_ok in Hok. rewrite He in Hok. destruct (latest node hist !! t'); [|done].
    destruct Hok as [(s' & Hm' & Hs') _]. assert (s' = s) as ->; [|by eapply oranMapping_inj].
    apply (source_path_inj node); [by eapply oranMapping_suffix|by eapply oranMapping_suffix|congruence]. }
  destruct (first_match _ _) as [[t' e]|] eqn:E; cbn.
  - apply first_match_Some in E as [Hs%bool_decide_eq_true Hin%Hw.elem_of_range]. cbn in Hs. by rewrite <- (Hu t' e).
  - destruct (entries c !! t) as [e|] eqn:He; [|done]. exfalso. eapply first_match_miss in E; [|by apply Hw.elem_of_range].
    specialize (Hok t). unfold entry_ok in Hok. rewrite He in Hok. destruct (latest node hist !! t); [|done].
    destruct Hok as [(s' & Hm' & Hs') _]. rewrite Hm in Hm'. injection Hm' as _ ->. cbn in E. rewrite Hs' in E.
    by apply bool_decide_eq_false in E.
Qed.

End CepEvents.
