(* ===== verification/CepApi.v ===== *)
(** * pkg/cep/cep.go: cloud-event-proxy

    The proxy puts the event cache (CepEvents.v) and the subscriptions (PubSub.v)
    together: it reads the messages of the daemon from the socket, delivers the events
    that are new to the subscribers of their source, and answers the REST API.  A
    handler takes the state and the response written so far; a run-time panic is [None].
    The conversion to a CloudEvent, the parser of URLs and the ids of the uuid package
    are arguments.  Deliveries to the writers are recorded in their order; what a writer
    answers is only logged. *)

From S2P Require Import Prelude Strconv Regex Parser HwTypes Paths Json Ipc Wire PubSub CepEvents.
From Stdlib Require Import Ascii.

Module CepApi.

Import Json CepEvents.

Definition apiBase : string := "/api/ocloudNotifications/v2/".
Definition subscriptionsPath : string := "subscriptions".
Definition publishersPath : string := "publishers".

Definition MethodGet : string := "GET".
Definition MethodPost : string := "POST".
Definition MethodDelete : string := "DELETE".

(** ** net/http: responses *)

(** The status and the headers are those of the first [WriteHeader]. *)
Record Response := mkResponse { status : option Z; header : gmap string string; sent : gmap string string; body : string }.

#[export] Instance Response_fields : Fields Response := fun r => mkResponse (status r) (header r) (sent r) (body r).

Definition new_response : Response := mkResponse None ∅ ∅ "".

Definition set_header (k v : string) (r : Response) : Response := r <| header := <[k := v]> (header r) |>.

Definition WriteHeader (code : Z) (r : Response) : Response :=
  match status r with None => r <| status := Some code |> <| sent := header r |> | Some _ => r end.

Definition Write (b : string) (r : Response) : Response :=
  let r := WriteHeader 200 r in r <| body := (body r +:+ b)%string |>.

Definition StatusText (code : Z) : string :=
  match code with
  | 400 => "Bad Request" | 404 => "Not Found" | 405 => "Method Not Allowed" | 409 => "Conflict"
  | 500 => "Internal Server Error" | _ => ""
  end.

Definition problem_json (code : Z) (detail : string) : json :=
  JObj ([("type", JStr "about:blank"); ("title", JStr (StatusText code)); ("status", of_int code)] ++ omitempty_str "detail" detail).

Definition writeProblem (code : Z) (detail : string) (r : Response) : Response :=
  Write (Encode (problem_json code detail)) (WriteHeader code (set_header "Content-Type" "application/problem+json" r)).

Definition write_json (j : json) (r : Response) : Response := Write (Encode j) (set_header "Content-Type" "application/json" r).

(** ** Requests and answers as JSON *)

Record subscriptionRequest := mkReq { reqEndpointURI : string; reqResource : string }.

Definition set_request (k : string) (v : json) (q : subscriptionRequest) : option subscriptionRequest :=
  if names "EndpointUri" k then x ← into_string v (reqEndpointURI q); Some (mkReq x (reqResource q))
  else if names "ResourceAddress" k then x ← into_string v (reqResource q); Some (mkReq (reqEndpointURI q) x)
  else Some q.

Definition read_request (text : string) : option subscriptionRequest := j ← Decode text; into_struct set_request j (mkReq "" "").

Definition subscription_json (id endpoint resource uri : string) : json :=
  JObj [("SubscriptionId", JStr id); ("EndpointUri", JStr endpoint); ("ResourceAddress", JStr resource); ("UriLocation", JStr uri)].

Record Request := mkRequest { method : string; path : string; content : string }.

(** [httpWriter.Write]: [post] is the status of the answer to the POST, or an error. *)
Definition httpWriter_Write (endpoint : string) (post : string -> Z + string) (p : string) : Z * option string :=
  match post p with
  | inr err => (0, Some err)
  | inl code =>
      if (code <? 200) || (300 <=? code) then (0, Some ("subscriber " +:+ endpoint +:+ " returned status " +:+ fmt_d code)%string)
      else (Z.of_nat (String.length p), None)
  end.

(** ** Routing: the patterns of [Handler] in a [ServeMux]

    Of the patterns that match the longest one counts; a path that is not clean, or that
    lacks the slash of a subtree, is redirected. *)
Inductive route := Health | Subscriptions | Publishers | CurrentState | NotFound | Redirect.

Definition ends_with (suffix s : string) : bool :=
  let n := String.length s in let k := String.length suffix in
  (k <=? n)%nat && str_eqb (String.substring (n - k) k s) suffix.

Definition cleanPath (p : string) : string :=
  if str_eqb p "" then "/"
  else
    let p := if Paths.is_rooted p then p else ("/" +:+ p)%string in
    let np := Paths.Clean p in
    if ends_with "/" p && negb (str_eqb np "/") then (np +:+ "/")%string else np.

Definition has_prefix (p s : string) : bool := match drop_prefix p s with Some _ => true | None => false end.

Definition route_of (has_pubsub : bool) (p : string) : route :=
  if negb (str_eqb (cleanPath p) p) then Redirect
  else if str_eqb p (apiBase +:+ "health") then Health
  else if has_pubsub && (str_eqb p (apiBase +:+ subscriptionsPath) || has_prefix (apiBase +:+ subscriptionsPath +:+ "/") p) then Subscriptions
  else if str_eqb p (apiBase +:+ publishersPath) then Publishers
  else if has_prefix apiBase p then CurrentState
  else if str_eqb (p +:+ "/") apiBase then Redirect
  else NotFound.

(** [strings.TrimPrefix] and [strings.TrimSuffix]. *)
Definition TrimPrefix (s p : string) : string := default s (drop_prefix p s).
Definition TrimSuffix (s suffix : string) : string :=
  if ends_with suffix s then String.substring 0 (String.length s - String.length suffix) s else s.

Section Proxy.
  Context {Time W St : Type} `{PubSub.Store St} `{Hw.MapOrder}.
  Context (ParseTimestamp : string -> option Time).
  Context (writerFunc : option (string -> option W)).
  (* [Event.NewCloudEventV2] of the SDK and the JSON of its result *)
  Context (NewCloudEventV2 : Event Time -> option json).
  (* [url.ParseRequestURI] succeeds; [url.JoinPath] *)
  Context (ParseRequestURI : string -> bool).
  Context (JoinPath : string -> list string -> option string).
  (* the text of the error of the decoder *)
  Context (decode_error : string -> string).
  Context (uuid : nat -> string).
  (* the status of the redirects of a [ServeMux] *)
  Context (redirect_code : Z).

(** [uuids] counts the ids drawn. *)
Record Proxy := mkProxy {
  cache : EventCache Time;
  pubSub : option (@PubSub.PubSub W St);
  baseURL : string;
  pNodeName : string;
  uuids : nat;
  deliveries : list (string * W * string)
}.

#[export] Instance Proxy_fields : Fields Proxy := fun l =>
  mkProxy (cache l) (pubSub l) (baseURL l) (pNodeName l) (uuids l) (deliveries l).

Definition NewCloudEventProxy (c : EventCache Time) (ps : option (@PubSub.PubSub W St)) (node base : string) : Proxy :=
  mkProxy c ps base node 0 [].

(** ** Publishing *)

Definition marshalCloudEvent (e : Event Time) : option string := Encode <$> NewCloudEventV2 e.

(** An event that cannot be converted is logged and not sent. *)
Definition Publish (e : Event Time) (l : Proxy) : option Proxy :=
  ps ← pubSub l;
  match marshalCloudEvent e with
  | None => Some l
  | Some data =>
      ts ← PubSub.getTargets (eSource e) ps;
      Some (l <| deliveries := deliveries l ++ map (fun t => (t.1, t.2, data)) ts |>)
  end.

Definition PublishToID (id : string) (e : Event Time) (l : Proxy) : option Proxy :=
  ps ← pubSub l;
  match marshalCloudEvent e with
  | None => Some l
  | Some data =>
      match PubSub.target_of id ps with
      | Some w => Some (l <| deliveries := deliveries l ++ [(id, w, data)] |>)
      | None => Some l
      end
  end.

(** ** The messages of the daemon *)

(** The body of the loop for a message that was read. *)
Definition handle_message (msg : Message) (l : Proxy) : option Proxy :=
  if negb (mVersion msg =? Version) then Some l
  else if str_eqb (mType msg) TypeCacheClear then Some (l <| cache := Clear (cache l) |>)
  else if str_eqb (mType msg) TypeStatusRequest then Some l
  else
    match Update ParseTimestamp (uuid (uuids l)) msg (cache l) with
    | (c, None) => Some (l <| cache := c |>)
    | (c, Some e) =>
        let l := l <| cache := c |> <| uuids := S (uuids l) |> in
        match pubSub l with Some _ => Publish e l | None => Some l end
    end.

Definition handle_line (line : string) (l : Proxy) : option Proxy :=
  if str_eqb line "" then Some l
  else match Wire.unmarshal line with Some msg => handle_message msg l | None => Some l end.

Fixpoint handle_lines (lines : list string) (l : Proxy) : option Proxy :=
  match lines with [] => Some l | x :: rest => l' ← handle_line x l; handle_lines rest l' end.

(** [handleIncomingEvents] on everything the connection delivers. *)
Definition handleIncomingEvents (stream : string) (l : Proxy) : option Proxy := handle_lines (Wire.scan_lines stream) l.

(** ** Handlers *)

Abbreviation handler := (Proxy -> Response -> option (Proxy * Response)).

Definition answer (f : Response -> Response) : handler := fun l r => Some (l, f r).

Definition currentStateHandler (q : Request) : handler := fun l r =>
  if negb (str_eqb (method q) MethodGet) then answer (writeProblem 405 "method not allowed") l r
  else
    let p := TrimPrefix (path q) apiBase in
    if negb (ends_with "/CurrentState" p) then answer (writeProblem 404 "not found") l r
    else
      let resource := ("/" +:+ TrimSuffix p "/CurrentState")%string in
      match GetBySource resource (cache l) with
      | None => answer (writeProblem 404 "event notification resource is not available on this node") l r
      | Some e =>
          match NewCloudEventV2 e with
          | None => answer (writeProblem 500 "internal error") l r
          | Some ce => answer (write_json ce) l r
          end
      end.

Definition publishersHandler (q : Request) : handler := fun l r =>
  if negb (str_eqb (method q) MethodGet) then answer (writeProblem 405 "method not allowed") l r
  else answer (write_json (JArr (map (fun x => subscription_json "" "" x "") (publishableResources (pNodeName l))))) l r.

Definition subscriptionURILocation (l : Proxy) (id : string) : option string := JoinPath (baseURL l) [apiBase; subscriptionsPath; id].

Definition created (id : string) (q : subscriptionRequest) (l : Proxy) (r : Response) : Response :=
  let r := WriteHeader 201 (set_header "Content-Type" "application/json" r) in
  match subscriptionURILocation l id with
  | None => writeProblem 500 "error constructing subscription URI" r
  | Some uri => Write (Encode (subscription_json id (reqEndpointURI q) (reqResource q) uri)) r
  end.

Definition handleCreateSubscription (q : Request) : handler := fun l r =>
  match read_request (content q) with
  | None => answer (writeProblem 400 (decode_error (content q))) l r
  | Some req =>
      if str_eqb (reqEndpointURI req) "" || str_eqb (reqResource req) "" then
        answer (writeProblem 400 "EndpointUri and ResourceAddress are required") l r
      else if negb (ParseRequestURI (reqEndpointURI req)) then answer (writeProblem 400 "invalid EndpointUri") l r
      else if negb (isPublishedResource (pNodeName l) (reqResource req)) then
        answer (writeProblem 404 "ResourceAddress is not available on this node") l r
      else
        ps ← pubSub l;
        '(ps, (id, existed)) ← PubSub.Subscribe writerFunc (uuid (uuids l)) (reqResource req) (reqEndpointURI req) ps;
        if (existed : bool) then answer (writeProblem 409 "subscription resource already exists") l r
        else
          let l := l <| pubSub := Some ps |> <| uuids := S (uuids l) |> in
          l ← match GetBySource (reqResource req) (cache l) with Some e => PublishToID id e l | None => Some l end;
          Some (l, created id req l r)
  end.

(** The list of answers, until an address cannot be made. *)
Fixpoint subscription_list (l : Proxy) (subs : list (PubSub.Subscription W)) : option (list json) :=
  match subs with
  | [] => Some []
  | s :: rest =>
      uri ← subscriptionURILocation l (PubSub.sID s);
      js ← subscription_list l rest;
      Some (subscription_json (PubSub.sID s) (PubSub.sEndpoint s) (PubSub.sResource s) uri :: js)
  end.

Definition handleGetSubscriptions : handler := fun l r =>
  ps ← pubSub l;
  match subscription_list l (PubSub.List_ ps) with
  | None => answer (writeProblem 500 "error constructing subscription URI") l r
  | Some js => answer (write_json (JArr js)) l r
  end.

Definition handleGetSubscriptionByID (id : string) : handler := fun l r =>
  ps ← pubSub l;
  match PubSub.Get id ps with
  | None => answer (writeProblem 404 "subscription not found") l r
  | Some s =>
      let r := set_header "Content-Type" "application/json" r in
      match subscriptionURILocation l (PubSub.sID s) with
      | None => answer (writeProblem 500 "error constructing subscription URI") l r
      | Some uri => answer (Write (Encode (subscription_json (PubSub.sID s) (PubSub.sEndpoint s) (PubSub.sResource s) uri))) l r
      end
  end.

Definition handleDeleteSubscriptionByID (id : string) : handler := fun l r =>
  ps ← pubSub l;
  let '(ps, found) := PubSub.Unsubscribe id ps in
  let l := l <| pubSub := Some ps |> in
  if (found : bool) then answer (WriteHeader 204) l r else answer (writeProblem 404 "subscription not found") l r.

Definition handleDeleteSubscriptions : handler := fun l r =>
  ps ← pubSub l; answer (WriteHeader 204) (l <| pubSub := Some (PubSub.UnsubscribeAll ps) |>) r.

Definition handleSubscriptions (q : Request) : handler := fun l r =>
  if str_eqb (method q) MethodPost then handleCreateSubscription q l r
  else if str_eqb (method q) MethodGet then handleGetSubscriptions l r
  else if str_eqb (method q) MethodDelete then handleDeleteSubscriptions l r
  else answer (writeProblem 405 "method not allowed") l r.

Definition handleSubscriptionByID (q : Request) (id : string) : handler := fun l r =>
  if str_eqb (method q) MethodGet then handleGetSubscriptionByID id l r
  else if str_eqb (method q) MethodDelete then handleDeleteSubscriptionByID id l r
  else answer (writeProblem 405 "method not allowed") l r.

Definition subscriptionHandler (q : Request) : handler := fun l r =>
  let subPath := TrimPrefix (TrimPrefix (path q) (apiBase +:+ subscriptionsPath)%string) "/" in
  if str_eqb subPath "" then handleSubscriptions q l r else handleSubscriptionByID q subPath l r.

(** [Handler]: a request through the [ServeMux]. *)
Definition serve (q : Request) : handler := fun l r =>
  match route_of (match pubSub l with Some _ => true | None => false end) (path q) with
  | Health => answer (fun r => Write "OK" (WriteHeader 200 r)) l r
  | Subscriptions => subscriptionHandler q l r
  | Publishers => publishersHandler q l r
  | CurrentState => currentStateHandler q l r
  | NotFound => answer (fun r => Write ("404 page not found" +:+ newline) (WriteHeader 404 r)) l r
  | Redirect => answer (WriteHeader redirect_code) l r
  end.

(** ** Reachable states *)

Definition subscriptions (l : Proxy) : gmap string (string * string) :=
  match pubSub l with Some ps => PubSub.current (PubSub.abs ps) | None => ∅ end.

(** The next id is not in use. *)
Definition fresh (l : Proxy) : Prop := subscriptions l !! uuid (uuids l) = None.

(** As main starts it: an empty cache, the subscriptions that were stored. *)
Inductive reached (node base : string) (s0 : St) : Proxy -> Prop :=
| ReachStart : reached node base s0
    (NewCloudEventProxy (NewEventCache node) (Some (PubSub.LoadFromStore writerFunc (PubSub.NewPubSub s0)).1) node base)
| ReachMessage l m l' : reached node base s0 l -> handle_message m l = Some l' -> reached node base s0 l'
| ReachRequest l q l' r : reached node base s0 l -> fresh l -> serve q l new_response = Some (l', r) -> reached node base s0 l'.

Record Inv (node base : string) (l : Proxy) : Prop := mkInv {
  inv_cache : exists hist, cache l = run ParseTimestamp node hist;
  inv_pubsub : exists ps, pubSub l = Some ps /\ PubSub.Inv writerFunc ps;
  inv_node : pNodeName l = node;
  inv_base : baseURL l = base
}.

Lemma Inv_same node base l l' :
  Inv node base l -> cache l' = cache l -> pubSub l' = pubSub l -> pNodeName l' = pNodeName l -> baseURL l' = baseURL l -> Inv node base l'.
Proof. intros [Hc Hp Hn Hb] E1 E2 E3 E4. constructor; rewrite ?E1, ?E2, ?E3, ?E4; done. Qed.

(** *** Deliveries *)

(** The targets of an event: the subscriptions of its source that have a writer. *)
Definition targets_ok (l : Proxy) (source : string) (ts : list (string * W)) : Prop :=
  NoDup ts.*1 /\ forall id w, (id, w) ∈ ts <-> exists e, subscriptions l !! id = Some (source, e) /\ PubSub.new_writer writerFunc e = Some w.

Lemma getTargets_ok l ps source :
  pubSub l = Some ps -> PubSub.Inv writerFunc ps -> exists ts, PubSub.getTargets source ps = Some ts /\ targets_ok l source ts.
Proof.
  intros El HI. destruct (PubSub.delivery writerFunc ps source HI) as [(ts & E & Hn & Hs) _]. exists ts. split; [done|].
  split; [done|]. intros id w. unfold subscriptions. rewrite El. apply Hs.
Qed.

(** What [Publish] adds to the deliveries. *)
Definition published (l : Proxy) (e : Event Time) (new : list (string * W * string)) : Prop :=
  match marshalCloudEvent e with
  | None => new = []
  | Some data => exists ts, targets_ok l (eSource e) ts /\ new = map (fun t => (t.1, t.2, data)) ts
  end.

Lemma Publish_ok node base e l :
  Inv node base l -> exists new, Publish e l = Some (l <| deliveries := deliveries l ++ new |>) /\ published l e new.
Proof.
  intros [_ (ps & Ep & HI) _ _]. unfold Publish, published. rewrite Ep. cbn. destruct (marshalCloudEvent e) as [data|].
  - destruct (getTargets_ok l ps (eSource e) Ep HI) as (ts & -> & Hts). eexists. split; [done|]. by exists ts.
  - exists []. rewrite app_nil_r. split; [by destruct l|done].
Qed.

(** What a message adds. *)
Definition delivered (l : Proxy) (m : Message) (new : list (string * W * string)) : Prop :=
  if (mVersion m =? Version) && negb (str_eqb (mType m) TypeCacheClear) && negb (str_eqb (mType m) TypeStatusRequest) then
    match (Update ParseTimestamp (uuid (uuids l)) m (cache l)).2 with
    | Some e => published l e new
    | None => new = []
    end
  else new = [].

Lemma handle_message_ok node base m l :
  Inv node base l ->
  exists l' new, handle_message m l = Some l' /\ Inv node base l' /\ subscriptions l' = subscriptions l /\
    deliveries l' = deliveries l ++ new /\ delivered l m new.
Proof.
  intros HI. pose proof HI as [[hist Hc] (ps & Ep & HP) Hn Hb]. unfold handle_message, delivered.
  destruct (mVersion m =? Version); cbn [negb andb]; [|exists l, []; by rewrite app_nil_r].
  destruct (str_eqb (mType m) TypeCacheClear); cbn [negb andb].
  { eexists _, []. split; [done|]. split; [|by rewrite app_nil_r]. constructor; cbn; [|by exists ps|done|done].
    exists []. rewrite Hc. unfold Clear. pose proof (run_ok ParseTimestamp node hist) as [Hnode _]. cbn.
    destruct (run ParseTimestamp node hist). cbn in *. by subst. }
  destruct (str_eqb (mType m) TypeStatusRequest); cbn [negb]; [exists l, []; by rewrite app_nil_r|].
  assert (exists hist', (Update ParseTimestamp (uuid (uuids l)) m (cache l)).1 = run ParseTimestamp node hist') as (hist' & Hr).
  { exists (hist ++ [(uuid (uuids l), m)]). unfold run. rewrite foldl_app. cbn. by rewrite Hc. }
  destruct (Update ParseTimestamp (uuid (uuids l)) m (cache l)) as [c [e|]]; cbn [fst snd] in *.
  - set (l1 := l <| cache := c |> <| uuids := S (uuids l) |>). change (pubSub l1) with (pubSub l). rewrite Ep.
    assert (Inv node base l1) as HI1 by (constructor; cbn; [by exists hist'|by exists ps|done|done]).
    destruct (Publish_ok node base e l1 HI1) as (new & E & Hp). exists (l1 <| deliveries := deliveries l1 ++ new |>), new.
    split; [exact E|]. split; [by eapply Inv_same; [exact HI1|..]|]. done.
  - eexists _, []. split; [done|]. split; [constructor; cbn; [by exists hist'|by exists ps|done|done]|]. by rewrite app_nil_r.
Qed.

(** *** The REST API *)

Definition request_of (q : Request) : option subscriptionRequest := read_request (content q).

(** The subscription a request asks for can be made. *)
Definition acceptable (l : Proxy) (req : subscriptionRequest) : bool :=
  negb (str_eqb (reqEndpointURI req) "") && negb (str_eqb (reqResource req) "") && ParseRequestURI (reqEndpointURI req).

Definition subscribed (l : Proxy) (req : subscriptionRequest) : bool :=
  existsb (fun t => bool_decide (t.2 = (reqResource req, reqEndpointURI req))) (map_to_list (subscriptions l)).

Definition create_status (q : Request) (l : Proxy) : Z :=
  match request_of q with
  | None => 400
  | Some req =>
      if negb (acceptable l req) then 400
      else if negb (isPublishedResource (pNodeName l) (reqResource req)) then 404
      else if subscribed l req then 409
      else 201
  end.

(** The status of the answer, and the subscriptions after the request: a table. *)
Definition has_uri (l : Proxy) (id : string) : bool := bool_decide (is_Some (subscriptionURILocation l id)).

Definition subscriptions_table (q : Request) (l : Proxy) : Z * gmap string (string * string) :=
  let subs := subscriptions l in
  let subPath := TrimPrefix (TrimPrefix (path q) (apiBase +:+ subscriptionsPath)%string) "/" in
  if str_eqb subPath "" then
    if str_eqb (method q) MethodPost then
      (create_status q l,
       match request_of q with
       | Some req => if create_status q l =? 201 then <[uuid (uuids l) := (reqResource req, reqEndpointURI req)]> subs else subs
       | None => subs
       end)
    else if str_eqb (method q) MethodGet then (if forallb (fun t => has_uri l t.1) (map_to_list subs) then 200 else 500, subs)
    else if str_eqb (method q) MethodDelete then (204, ∅)
    else (405, subs)
  else
    if str_eqb (method q) MethodGet then
      (match subs !! subPath with None => 404 | Some _ => if has_uri l subPath then 200 else 500 end, subs)
    else if str_eqb (method q) MethodDelete then (match subs !! subPath with None => 404 | Some _ => 204 end, delete subPath subs)
    else (405, subs).

Definition state_status (q : Request) (l : Proxy) : Z :=
  let p := TrimPrefix (path q) apiBase in
  if negb (str_eqb (method q) MethodGet) then 405
  else if negb (ends_with "/CurrentState" p) then 404
  else
    match GetBySource ("/" +:+ TrimSuffix p "/CurrentState")%string (cache l) with
    | None => 404
    | Some e => match NewCloudEventV2 e with None => 500 | Some _ => 200 end
    end.

Definition api_table (q : Request) (l : Proxy) : Z * gmap string (string * string) :=
  match route_of true (path q) with
  | Health => (200, subscriptions l)
  | Subscriptions => subscriptions_table q l
  | Publishers => (if str_eqb (method q) MethodGet then 200 else 405, subscriptions l)
  | CurrentState => (state_status q l, subscriptions l)
  | NotFound => (404, subscriptions l)
  | Redirect => (redirect_code, subscriptions l)
  end.

(** The initial notification of a subscription that is made: the cached event of its
    resource, if there is one and the subscription has a writer. *)
Definition notification (l : Proxy) (req : subscriptionRequest) : list (string * W * string) :=
  match GetBySource (reqResource req) (cache l) with
  | Some e =>
      match marshalCloudEvent e, PubSub.new_writer writerFunc (reqEndpointURI req) with
      | Some data, Some w => [(uuid (uuids l), w, data)]
      | _, _ => []
      end
  | None => []
  end.

(** The request is a subscription that is made. *)
Definition creates (q : Request) (l : Proxy) : bool :=
  match route_of true (path q) with
  | Subscriptions =>
      str_eqb (TrimPrefix (TrimPrefix (path q) (apiBase +:+ subscriptionsPath)%string) "/") "" && str_eqb (method q) MethodPost
      && (create_status q l =? 201)
  | _ => false
  end.

Definition notified (q : Request) (l : Proxy) : list (string * W * string) :=
  match request_of q with Some req => if creates q l then notification l req else [] | None => [] end.

(** *** Statuses *)

Lemma status_WriteHeader code r : status (WriteHeader code r) = Some (default code (status r)).
Proof. unfold WriteHeader. destruct (status r) eqn:E; [by rewrite E|done]. Qed.

Lemma status_Write b r : status (Write b r) = Some (default 200 (status r)).
Proof. unfold Write. cbn. apply status_WriteHeader. Qed.

Lemma status_writeProblem code d r : status (writeProblem code d r) = Some (default code (status r)).
Proof. unfold writeProblem. by rewrite status_Write, status_WriteHeader. Qed.

Lemma status_write_json j r : status (write_json j r) = Some (default 200 (status r)).
Proof. unfold write_json. by rewrite status_Write. Qed.

Lemma status_created id req l : status (created id req l new_response) = Some 201.
Proof. unfold created. destruct (subscriptionURILocation l id); [by rewrite status_Write|by rewrite status_writeProblem]. Qed.

Lemma same_string x y : str_eqb x y = true <-> x = y.
Proof. unfold str_eqb. apply bool_decide_eq_true. Qed.

(** *** Making a subscription *)

Lemma subscribed_spec l req : subscribed l req = true <-> exists id, subscriptions l !! id = Some (reqResource req, reqEndpointURI req).
Proof.
  unfold subscribed. rewrite existsb_exists. setoid_rewrite <- list_elem_of_In. split.
  - intros ([id t] & Hin%elem_of_map_to_list & E%bool_decide_eq_true). cbn in E. subst t. by exists id.
  - intros (id & E). exists (id, (reqResource req, reqEndpointURI req)). split; [by apply elem_of_map_to_list|by apply bool_decide_eq_true].
Qed.

Lemma create_ok node base q l :
  Inv node base l -> fresh l ->
  exists l' r, handleCreateSubscription q l new_response = Some (l', r) /\ Inv node base l' /\
    status r = Some (create_status q l) /\
    match request_of q with
    | Some req =>
        if create_status q l =? 201 then
          subscriptions l' = <[uuid (uuids l) := (reqResource req, reqEndpointURI req)]> (subscriptions l) /\
          deliveries l' = deliveries l ++ notification l req
        else l' = l
    | None => l' = l
    end.
Proof.
  intros HI Hf. unfold handleCreateSubscription, create_status, request_of, acceptable.
  destruct (read_request (content q)) as [req|]; [|eexists l, _; by rewrite status_writeProblem].
  destruct (str_eqb (reqEndpointURI req) ""); cbn [orb negb andb]; [eexists l, _; by rewrite status_writeProblem|].
  destruct (str_eqb (reqResource req) ""); cbn [orb negb andb]; [eexists l, _; by rewrite status_writeProblem|].
  destruct (ParseRequestURI (reqEndpointURI req)); cbn [negb]; [|eexists l, _; by rewrite status_writeProblem].
  destruct (isPublishedResource (pNodeName l) (reqResource req)); cbn [negb]; [|eexists l, _; by rewrite status_writeProblem].
  pose proof HI as [Hc (ps & Ep & HP) Hn Hb]. pose proof (subscribed_spec l req) as Hsub. unfold fresh, subscriptions in *. rewrite Ep in *. cbn [mbind option_bind].
  destruct (PubSub.exec_refines writerFunc ps (PubSub.DoSubscribe (uuid (uuids l)) (reqResource req) (reqEndpointURI req)) HP Hf)
    as (ps' & ans & E & HP' & Hs). cbn in E.
  destruct (PubSub.Subscribe writerFunc _ _ _ ps) as [[ps1 [id old]]|]; [|done]. cbn in E. injection E as -> <-. cbn [mbind option_bind].
  destruct old; cbn in Hs.
  - destruct Hs as [_ Hs]. rewrite (proj2 Hsub) by by eexists. eexists l, _. by rewrite status_writeProblem.
  - destruct Hs as (-> & Hno & Hcur & _). destruct (subscribed l req); [by destruct (proj1 Hsub eq_refl) as (i & Hi); destruct (Hno i)|].
    change (201 =? 201) with true. cbv beta iota. set (l1 := l <| pubSub := Some ps' |> <| uuids := S (uuids l) |>).
    assert (Inv node base l1) as HI1 by (constructor; cbn; [done|by exists ps'|done|done]).
    assert (PubSub.target_of (uuid (uuids l)) ps' = PubSub.new_writer writerFunc (reqEndpointURI req)) as Ht.
    { destruct (PubSub.delivery writerFunc ps' "" HP') as [_ ->]. cbn. cbn in Hcur. by rewrite Hcur, lookup_insert_eq. }
    assert (exists l2, match GetBySource (reqResource req) (cache l1) with Some e => PublishToID (uuid (uuids l)) e l1 | None => Some l1 end = Some l2 /\
      Inv node base l2 /\ subscriptions l2 = subscriptions l1 /\ deliveries l2 = deliveries l ++ notification l req) as (l2 & -> & HI2 & Hs2 & Hd2).
    { unfold notification. change (cache l1) with (cache l). destruct (GetBySource _ _) as [e|]; [|exists l1; by rewrite app_nil_r].
      unfold PublishToID. change (pubSub l1) with (Some ps'). cbn [mbind option_bind].
      destruct (marshalCloudEvent e); [|exists l1; by rewrite app_nil_r]. rewrite Ht.
      destruct (PubSub.new_writer _ _); [|exists l1; by rewrite app_nil_r]. eexists. split; [done|].
      split; [by eapply Inv_same; [exact HI1|..]|]. done. }
    cbn [mbind option_bind]. eexists l2, _. split; [done|]. split; [done|]. split; [apply status_created|].
    split; [|done]. unfold subscriptions in Hs2. rewrite Hs2. exact Hcur.
Qed.

(** *** The other requests *)

Lemma subscription_list_spec l subs :
  subscription_list l subs = None <-> exists s, s ∈ subs /\ has_uri l (PubSub.sID s) = false.
Proof.
  unfold has_uri. induction subs as [|s subs IH]; cbn [subscription_list]; [split; [done|by intros (? & ?%elem_of_nil & _)]|].
  destruct (subscriptionURILocation l (PubSub.sID s)) as [uri|] eqn:E; cbn [mbind option_bind].
  - destruct (subscription_list l subs) as [js|]; cbn [mbind option_bind].
    + split; [done|]. intros (x & [->|Hx]%elem_of_cons & Hf); [rewrite E in Hf; by rewrite bool_decide_eq_true_2 in Hf|].
      assert (Some js = None) by (apply IH; by exists x). done.
    + split; [|done]. intros _. destruct (proj1 IH eq_refl) as (x & Hx & Hf). exists x. split; [by right|done].
  - split; [|done]. intros _. exists s. split; [left|]. rewrite E. by apply bool_decide_eq_false_2; intros [? ?].
Qed.

(** The active subscriptions are those of the map. *)
Lemma active_in_map ps id :
  PubSub.Inv writerFunc ps -> is_Some (PubSub.current (PubSub.abs ps) !! id) <-> exists s, s ∈ PubSub.List_ ps /\ PubSub.sID s = id.
Proof.
  intros HP. pose proof (PubSub.inv_distinct _ _ HP) as Hd. unfold PubSub.List_. split.
  - intros [t (r & (i & s & Hs & Ha & <-)%PubSub.elem_of_records & Hid & _)%PubSub.view_lookup]; [|done]. exists s. split; [|done].
    apply list_elem_of_filter. split; [done|]. by eapply list_elem_of_lookup_2.
  - intros (s & [Ha Hs]%list_elem_of_filter & <-). apply list_elem_of_lookup_1 in Hs as (i & Hs). eexists. apply PubSub.view_lookup; [done|].
    exists (PubSub.record_of s). split; [apply PubSub.elem_of_records; by exists i, s|done].
Qed.

Lemma list_status l ps :
  pubSub l = Some ps -> PubSub.Inv writerFunc ps ->
  subscription_list l (PubSub.List_ ps) = None <-> forallb (fun t => has_uri l t.1) (map_to_list (subscriptions l)) = false.
Proof.
  intros Ep HP. rewrite subscription_list_spec. rewrite <- not_true_iff_false, forallb_forall. setoid_rewrite <- list_elem_of_In. split.
  - intros (s & Hs & Hf) Hall. destruct (proj2 (active_in_map ps (PubSub.sID s) HP)) as [t Ht]; [by exists s|].
    specialize (Hall (PubSub.sID s, t)). cbn in Hall. rewrite Hall in Hf; [done|]. apply elem_of_map_to_list. unfold subscriptions. by rewrite Ep.
  - intros Hall. destruct (decide (Exists (fun s => has_uri l (PubSub.sID s) = false) (PubSub.List_ ps))) as [Hex|Hno].
    + by apply Exists_exists in Hex.
    + destruct Hall. intros [id t] Hin%elem_of_map_to_list. unfold subscriptions in Hin. rewrite Ep in Hin.
      destruct (proj1 (active_in_map ps id HP)) as (s & Hs & <-); [by eexists|]. cbn. destruct (has_uri l (PubSub.sID s)) eqn:E; [done|].
      destruct Hno. apply Exists_exists. by exists s.
Qed.

Lemma Get_spec ps id :
  PubSub.Inv writerFunc ps ->
  match PubSub.Get id ps with
  | Some s => PubSub.sID s = id /\ is_Some (PubSub.current (PubSub.abs ps) !! id)
  | None => PubSub.current (PubSub.abs ps) !! id = None
  end.
Proof.
  intros HP. unfold PubSub.Get. pose proof (PubSub.find_id_spec id (PubSub.subs ps)) as Hs.
  destruct (PubSub.find_id id (PubSub.subs ps)) as [[i s]|]; cbn.
  - destruct Hs as (Hs & Ha & Hid). split; [done|]. apply active_in_map; [done|]. exists s. split; [|done].
    apply list_elem_of_filter. split; [done|]. by eapply list_elem_of_lookup_2.
  - by apply PubSub.view_none.
Qed.

(** What a handler does with the state and the answer, of a request that is no creation. *)
Definition served (node base : string) (l : Proxy) (t : Z * gmap string (string * string)) (o : option (Proxy * Response)) : Prop :=
  exists l' r, o = Some (l', r) /\ Inv node base l' /\ status r = Some t.1 /\ subscriptions l' = t.2 /\ deliveries l' = deliveries l.

Lemma served_same node base l code f :
  Inv node base l -> status (f new_response) = Some code -> served node base l (code, subscriptions l) (answer f l new_response).
Proof. intros HI Hs. by exists l, (f new_response). Qed.

Lemma delete_ok node base id l :
  Inv node base l ->
  served node base l (match subscriptions l !! id with None => 404 | Some _ => 204 end, delete id (subscriptions l))
    (handleDeleteSubscriptionByID id l new_response).
Proof.
  intros HI. pose proof HI as [Hc (ps & Ep & HP) Hn Hb]. unfold handleDeleteSubscriptionByID, subscriptions. rewrite Ep. cbn [mbind option_bind].
  destruct (PubSub.exec_refines writerFunc ps (PubSub.DoUnsubscribe id) HP I) as (ps' & ans & E & HP' & Hs). cbn in E.
  destruct (PubSub.Unsubscribe id ps) as [ps1 found]. injection E as -> <-. set (l1 := l <| pubSub := Some ps' |>).
  assert (Inv node base l1) as HI1 by (constructor; cbn; [done|by exists ps'|done|done]).
  destruct found; unfold PubSub.spec_step in Hs.
  - destruct Hs as ([t Ht] & Hcur & _). eexists l1, _. split; [done|]. split; [done|]. rewrite Ht.
    split; [apply status_WriteHeader|]. split; [exact Hcur|done].
  - destruct Hs as [Hnone Habs]. eexists l1, _. split; [done|]. split; [done|]. rewrite Hnone.
    split; [apply status_writeProblem|]. split; [|done]. cbn [snd]. rewrite delete_id by done. exact (f_equal PubSub.current Habs).
Qed.

Lemma delete_all_ok node base l : Inv node base l -> served node base l (204, ∅) (handleDeleteSubscriptions l new_response).
Proof.
  intros HI. pose proof HI as [Hc (ps & Ep & HP) Hn Hb]. unfold handleDeleteSubscriptions. rewrite Ep. cbn [mbind option_bind].
  destruct (PubSub.exec_refines writerFunc ps PubSub.DoUnsubscribeAll HP I) as (ps' & ans & E & HP' & Hs). cbn in E.
  injection E as <- <-. cbn in Hs. destruct Hs as [Hcur _]. eexists (l <| pubSub := Some _ |>), _. split; [done|].
  split; [constructor; cbn; [done|by eexists|done|done]|]. split; [apply status_WriteHeader|]. split; [exact Hcur|done].
Qed.

Lemma list_ok node base l :
  Inv node base l ->
  served node base l (if forallb (fun t => has_uri l t.1) (map_to_list (subscriptions l)) then 200 else 500, subscriptions l)
    (handleGetSubscriptions l new_response).
Proof.
  intros HI. pose proof HI as [_ (ps & Ep & HP) _ _]. unfold handleGetSubscriptions. pose proof (list_status l ps Ep HP) as Hl.
  rewrite Ep. cbn [mbind option_bind]. destruct (subscription_list l (PubSub.List_ ps)) as [js|] eqn:El.
  - destruct (forallb _ _) eqn:Ef; [|discriminate (proj2 Hl eq_refl)]. apply served_same; [done|]. apply status_write_json.
  - rewrite (proj1 Hl eq_refl). apply served_same; [done|]. apply status_writeProblem.
Qed.

Lemma get_ok node base id l :
  Inv node base l ->
  served node base l (match subscriptions l !! id with None => 404 | Some _ => if has_uri l id then 200 else 500 end, subscriptions l)
    (handleGetSubscriptionByID id l new_response).
Proof.
  intros HI. pose proof HI as [_ (ps & Ep & HP) _ _]. unfold handleGetSubscriptionByID. pose proof (Get_spec ps id HP) as Hg.
  assert (subscriptions l = PubSub.current (PubSub.abs ps)) as Es by (unfold subscriptions; by rewrite Ep). rewrite <- Es in Hg.
  rewrite Ep. cbn [mbind option_bind]. destruct (PubSub.Get id ps) as [s|].
  - destruct Hg as [<- [t ->]]. unfold has_uri. destruct (subscriptionURILocation l (PubSub.sID s)) as [uri|].
    + rewrite bool_decide_eq_true_2 by by eexists. eexists l, _. split; [reflexivity|]. split; [done|]. split; [apply status_Write|done].
    + rewrite bool_decide_eq_false_2 by by intros [? ?]. eexists l, _. split; [reflexivity|]. split; [done|]. split; [apply status_writeProblem|done].
  - rewrite Hg. apply served_same; [done|]. apply status_writeProblem.
Qed.

Lemma state_ok node base q l : Inv node base l -> served node base l (state_status q l, subscriptions l) (currentStateHandler q l new_response).
Proof.
  intros HI. unfold currentStateHandler, state_status.
  destruct (str_eqb (method q) MethodGet); cbn [negb]; [|apply served_same; [done|apply status_writeProblem]].
  destruct (ends_with _ _); cbn [negb]; [|apply served_same; [done|apply status_writeProblem]].
  destruct (GetBySource _ _) as [e|]; [|apply served_same; [done|apply status_writeProblem]].
  destruct (NewCloudEventV2 e); apply served_same; (done || apply status_writeProblem || apply status_write_json).
Qed.

(** Everything a request does. *)
Lemma serve_ok node base q l :
  Inv node base l -> fresh l ->
  exists l' r, serve q l new_response = Some (l', r) /\ Inv node base l' /\ status r = Some (api_table q l).1 /\
    subscriptions l' = (api_table q l).2 /\ deliveries l' = deliveries l ++ notified q l.
Proof.
  intros HI Hf. pose proof HI as [_ (ps & Ep & HP) _ _].
  assert (notified q l = [] -> served node base l (api_table q l) (serve q l new_response) ->
    exists l' r, serve q l new_response = Some (l', r) /\ Inv node base l' /\ status r = Some (api_table q l).1 /\
      subscriptions l' = (api_table q l).2 /\ deliveries l' = deliveries l ++ notified q l) as Hserved.
  { intros -> (l' & r & E & HI' & Hs & Hsub & Hd). exists l', r. by rewrite app_nil_r. }
  assert (creates q l = false -> notified q l = []) as Hnc by (intros E; unfold notified; rewrite E; by destruct (request_of q)).
  unfold creates in Hnc. unfold serve, api_table in *. rewrite Ep in *. cbv iota in *. destruct (route_of true (path q)) eqn:Er.
  - apply Hserved; [by apply Hnc|]. apply served_same; [done|]. by rewrite status_Write, status_WriteHeader.
  - unfold subscriptionHandler, subscriptions_table in *. set (sub := TrimPrefix _ _) in *. destruct (str_eqb sub "") eqn:Esub.
    + unfold handleSubscriptions in *. destruct (str_eqb (method q) MethodPost) eqn:Em.
      * destruct (create_ok node base q l HI Hf) as (l' & r & E & HI' & Hs & Hr). exists l', r. split; [done|]. split; [done|]. split; [done|].
        assert (creates q l = (create_status q l =? 201)) as Ec.
        { unfold creates. rewrite Er. fold sub. by rewrite Esub, Em. }
        unfold notified. rewrite Ec. destruct (request_of q) as [req|]; [|subst l'; by rewrite app_nil_r].
        destruct (create_status q l =? 201); [done|]. subst l'. by rewrite app_nil_r.
      * apply Hserved; [by apply Hnc|]. destruct (str_eqb (method q) MethodGet); [by apply list_ok|].
        destruct (str_eqb (method q) MethodDelete); [by apply delete_all_ok|]. apply served_same; [done|apply status_writeProblem].
    + apply Hserved; [by apply Hnc|]. unfold handleSubscriptionByID. destruct (str_eqb (method q) MethodGet); [by apply get_ok|].
      destruct (str_eqb (method q) MethodDelete); [by apply delete_ok|]. apply served_same; [done|apply status_writeProblem].
  - apply Hserved; [by apply Hnc|]. unfold publishersHandler. destruct (str_eqb (method q) MethodGet);
      apply served_same; (done || apply status_writeProblem || apply status_write_json).
  - apply Hserved; [by apply Hnc|]. by apply state_ok.
  - apply Hserved; [by apply Hnc|]. apply served_same; [done|]. by rewrite status_Write, status_WriteHeader.
  - apply Hserved; [by apply Hnc|]. apply served_same; [done|]. apply status_WriteHeader.
Qed.

Lemma proxy_Inv node base s0 l : PubSub.distinct (PubSub.persisted s0) -> reached node base s0 l -> Inv node base l.
Proof.
  intros Hd. induction 1 as [|l m l' _ IH E|l q l' r _ IH Hf E].
  - constructor; cbn; [by exists []| |done|done]. eexists. split; [done|].
    pose proof (PubSub.LoadFromStore_ok writerFunc (PubSub.NewPubSub s0) (PubSub.NewPubSub_ok writerFunc s0 Hd)) as Hl.
    destruct (PubSub.LoadFromStore writerFunc (PubSub.NewPubSub s0)) as [ps err]. by destruct Hl as [? _].
  - destruct (handle_message_ok node base m l IH) as (l1 & new & E1 & HI & _). congruence.
  - destruct (serve_ok node base q l IH Hf) as (l1 & r1 & E1 & HI & _). congruence.
Qed.

(** ** Properties *)

(** C17. The REST API is its table.  In every state that messages and requests reach from the
    stored subscriptions, a request of any method, path and body is answered without a
    panic with the status of [api_table]; it changes the subscriptions as the table says
    (a subscription that can be made and does not exist is added, a deletion removes
    exactly what it names, nothing else changes anything), and it delivers exactly the
    initial notification of the subscription it makes. *)
Theorem requests_answered node base s0 q l :
  PubSub.distinct (PubSub.persisted s0) -> reached node base s0 l -> fresh l ->
  exists l' r, serve q l new_response = Some (l', r) /\ status r = Some (api_table q l).1 /\
    subscriptions l' = (api_table q l).2 /\ deliveries l' = deliveries l ++ notified q l.
Proof.
  intros Hd Hr Hf. destruct (serve_ok node base q l (proxy_Inv node base s0 l Hd Hr) Hf) as (l' & r & E & _ & H1 & H2 & H3).
  by exists l', r.
Qed.

Fixpoint handle_messages (msgs : list Message) (l : Proxy) : option Proxy :=
  match msgs with [] => Some l | m :: rest => l' ← handle_message m l; handle_messages rest l' end.

Lemma handle_line_message m l : Wire.well_typed m -> handle_line (Marshal (Wire.message_json m)) l = handle_message m l.
Proof.
  intros Hw. unfold handle_line. rewrite Wire.unmarshal_message by done.
  destruct (str_eqb (Marshal (Wire.message_json m)) "") eqn:E; [|done]. apply same_string in E. exfalso. revert E.
  unfold Wire.message_json, Marshal. cbn [app]. rewrite print_obj. done.
Qed.

(** C18. What the daemon transmits reaches the subscribers.  The proxy handles exactly the
    messages that were transmitted, in their order; each of them is handled without a
    panic, leaves the subscriptions alone, and, when it is new to the event cache, is
    delivered to the writer of every subscription of its source, to each once, and to
    nobody else. *)
Theorem events_delivered node base s0 l :
  PubSub.distinct (PubSub.persisted s0) -> reached node base s0 l ->
  (forall msgs, Forall Wire.well_typed msgs -> Forall Wire.fits msgs -> handleIncomingEvents (Wire.Transmit msgs) l = handle_messages msgs l) /\
  forall m, exists l' new, handle_message m l = Some l' /\ subscriptions l' = subscriptions l /\
    deliveries l' = deliveries l ++ new /\ delivered l m new.
Proof.
  intros Hd Hr. split.
  - intros msgs Hw Hf. unfold handleIncomingEvents. rewrite Wire.scan_lines_Transmit by done. clear Hd Hr Hf. revert l.
    induction Hw as [|m msgs Hm _ IH]; intros l; [done|]. cbn [map handle_lines handle_messages]. rewrite handle_line_message by done.
    destruct (handle_message m l); [apply IH|done].
  - intros m. destruct (handle_message_ok node base m l (proxy_Inv node base s0 l Hd Hr)) as (l' & new & E & _ & H1 & H2 & H3).
    by exists l', new.
Qed.

(** A subscription that was made without an address for it is answered by 201 with a
    problem of status 500 in its body. *)
Lemma created_with_problem id req l :
  subscriptionURILocation l id = None ->
  status (created id req l new_response) = Some 201 /\
  body (created id req l new_response) = Encode (problem_json 500 "error constructing subscription URI").
Proof. intros E. unfold created. by rewrite E. Qed.

End Proxy.
Arguments Proxy : clear implicits.

(** ** A run *)

#[local] Existing Instance Hw.some_order.
#[local] Existing Instance PubSub.memory.

Definition ex_event (e : Event string) : option json := Some (JStr (eSource e)).
Definition ex_join (base : string) (l : list string) : option string := Some (join "/" (base :: l)).
Definition ex_uuid (n : nat) : string := fmt_d (Z.of_nat n).

Definition ex_start : Proxy string string (list PubSub.subscriptionRecord) :=
  NewCloudEventProxy (NewEventCache "n") (Some (PubSub.LoadFromStore PubSub.to_endpoint (PubSub.NewPubSub [])).1) "n" "http://n:9043".

Definition ex_post : Request :=
  mkRequest "POST" "/api/ocloudNotifications/v2/subscriptions"
    (Encode (JObj [("ResourceAddress", JStr "/cluster/node/n/sync/sync-status/sync-state"); ("EndpointUri", JStr "http://a")])).

Lemma requests_answered_witness :
  exists l' r, serve PubSub.to_endpoint ex_event (fun _ => true) ex_join (fun s => s) ex_uuid 301 ex_post ex_start new_response = Some (l', r) /\
    status r = Some 201 /\ subscriptions l' !! "0"%string = Some ("/cluster/node/n/sync/sync-status/sync-state", "http://a")%string.
Proof.
  destruct (requests_answered (fun s => Some s) PubSub.to_endpoint ex_event (fun _ => true) ex_join (fun s => s) ex_uuid 301
    "n" "http://n:9043" [] ex_post ex_start) as (l' & r & E & Hs & Hsub & _); [apply PubSub.distinct_nil|constructor|vm_compute; reflexivity|].
  exists l', r. split; [exact E|]. split; [rewrite Hs; vm_compute; reflexivity|rewrite Hsub; vm_compute; reflexivity].
Defined.

Definition ex_message : Message := mkMessage 1 TypeSyncState "t" "ptp4l.0.config" "" (Some (SyncStateValue StateLocked)).

(** The state after a subscription was made; the message reaches the subscriber once,
    its repetition does not. *)
Definition ex_subscribed : Proxy string string (list PubSub.subscriptionRecord) :=
  default ex_start (fst <$> serve PubSub.to_endpoint ex_event (fun _ => true) ex_join (fun s => s) ex_uuid 301 ex_post ex_start new_response).

Lemma events_delivered_witness :
  exists l', handleIncomingEvents (fun s => Some s) ex_event ex_uuid (Wire.Transmit [ex_message; ex_message]) ex_subscribed = Some l' /\
    subscriptions l' = subscriptions ex_subscribed /\
    deliveries l' = [("0", "http://a", Encode (JStr "/cluster/node/n/sync/sync-status/sync-state"))]%string.
Proof.
  destruct (events_delivered (fun s => Some s) PubSub.to_endpoint ex_event (fun _ => true) ex_join (fun s => s) ex_uuid 301
    "n" "http://n:9043" [] ex_subscribed) as [Hs _]; [apply PubSub.distinct_nil| |].
  - eapply (@ReachRequest) with (l := ex_start) (q := ex_post); [constructor|by vm_compute|vm_compute; reflexivity].
  - rewrite Hs; [|by repeat (apply Forall_cons; split); [..|constructor]; vm_compute..
                 |repeat (apply Forall_cons; split); [..|constructor]; (split; [|apply Nat.ltb_lt]); vm_compute; reflexivity].
    eexists. split; [vm_compute; reflexivity|]. by vm_compute.
Defined.

End CepApi.
