(* ===== verification/SharedState.v ===== *)
(** * pkg/state/state.go: interfaces and sources by configuration

    Three maps from the name of a configuration, each behind a pointer with a mutex of
    its own; a nil pointer is [None].  A dereferenced nil pointer panics: the result is
    [None].  The alias of an interface is looked up in the store of Alias.v. *)

From S2P Require Import Prelude Regex Alias.

Module SharedState.

Record PtpInterface := mkIface { Name : string; IAlias : string }.

#[export] Instance PtpInterface_eq_dec : EqDecision PtpInterface.
Proof. solve_decision. Defined.

Definition no_interface : PtpInterface := mkIface "" "".

Record SharedState := mkShared {
  masterOffsetIface : option (gmap string PtpInterface);
  slaveIface : option (gmap string string);
  masterOffsetSource : option (gmap string string)
}.

#[export] Instance SharedState_fields : Fields SharedState := fun s =>
  mkShared (masterOffsetIface s) (slaveIface s) (masterOffsetSource s).

Definition NewSharedState : SharedState := mkShared (Some ∅) (Some ∅) (Some ∅).

Definition PTP4L : string := "ptp4l".

Definition DeleteMasterOffsetIface (configName : string) (s : SharedState) : SharedState :=
  s <| masterOffsetIface := delete configName <$> masterOffsetIface s |>.

Definition GetSlaveIface (configName : string) (s : SharedState) : string :=
  match slaveIface s with None => " " | Some m => default "" (m !! configName) end.

Definition DeleteSlaveIface (configName : string) (s : SharedState) : SharedState :=
  s <| slaveIface := delete configName <$> slaveIface s |>.

Definition GetMasterInterface (configName : string) (s : SharedState) : PtpInterface :=
  match masterOffsetIface s with None => no_interface | Some m => default no_interface (m !! configName) end.

(** With the error. *)
Definition GetMasterInterfaceByAlias (configName alias : string) (s : SharedState) : PtpInterface * option string :=
  match masterOffsetIface s with
  | None => (no_interface, Some "master interface is nil")
  | Some m =>
      match m !! configName with
      | Some i => if str_eqb (IAlias i) alias then (i, None) else
          (no_interface, Some ("master interface not found for config " +:+ configName +:+ " and alias " +:+ alias))
      | None => (no_interface, Some ("master interface not found for config " +:+ configName +:+ " and alias " +:+ alias))
      end
  end%string.

Definition GetAliasByName (configName name : string) (s : SharedState) : PtpInterface * option string :=
  if str_eqb name "CLOCK_REALTIME" || str_eqb name "master" then (mkIface name name, None)
  else
    match masterOffsetIface s with
    | None => (no_interface, Some "master interface is nil")
    | Some m =>
        match m !! configName with
        | Some i => if str_eqb (Name i) name then (i, None) else
            (no_interface, Some ("interface not found for config " +:+ configName +:+ " and name " +:+ name))
        | None => (no_interface, Some ("interface not found for config " +:+ configName +:+ " and name " +:+ name))
        end
    end%string.

(** The setters: the state and the error. *)
Definition SetMasterOffsetIface (aliases : Alias.store) (configName value : string) (s : SharedState) : SharedState * option string :=
  if str_eqb configName "" then (s, Some "config name cannot be empty"%string)
  else
    match masterOffsetIface s with
    | None => (s, Some "master interface is nil"%string)
    | Some m => (s <| masterOffsetIface := Some (<[configName := mkIface value (Alias.getAlias value aliases)]> m) |>, None)
    end.

Definition SetSlaveIface (configName value : string) (s : SharedState) : SharedState * option string :=
  if str_eqb configName "" then (s, Some "config name cannot be empty"%string)
  else
    match slaveIface s with
    | None => (s, Some "slave interface is nil"%string)
    | Some m => (s <| slaveIface := Some (<[configName := value]> m) |>, None)
    end.

Definition IsFaultySlaveIface (configName iface : string) (s : SharedState) : bool :=
  match slaveIface s with
  | None => false
  | Some m => match m !! configName with Some si => str_eqb si iface | None => false end
  end.

(** The code tests the pointer of the interfaces and uses the one of the sources. *)
Definition GetMasterOffsetSource (configName : string) (s : SharedState) : option string :=
  match masterOffsetIface s with
  | None => Some "uninitialized"%string
  | Some _ => m ← masterOffsetSource s; Some (default PTP4L (m !! configName))
  end.

Definition SetMasterOffsetSource (configName value : string) (s : SharedState) : option (SharedState * option string) :=
  if str_eqb configName "" then Some (s, Some "config name cannot be empty"%string)
  else
    match masterOffsetIface s with
    | None => Some (s, Some "master interface is nil"%string)
    | Some _ => m ← masterOffsetSource s; Some (s <| masterOffsetSource := Some (<[configName := value]> m) |>, None)
    end.

(** ** Properties *)

(** Every pointer is set, as by [NewSharedState]. *)
Definition initialised (s : SharedState) : Prop :=
  is_Some (masterOffsetIface s) /\ is_Some (slaveIface s) /\ is_Some (masterOffsetSource s).

Inductive op :=
| OpSetMaster (aliases : Alias.store) (c v : string)
| OpDeleteMaster (c : string)
| OpSetSlave (c v : string)
| OpDeleteSlave (c : string)
| OpSetSource (c v : string).

Definition exec (o : op) (s : SharedState) : option SharedState :=
  match o with
  | OpSetMaster al c v => Some (SetMasterOffsetIface al c v s).1
  | OpDeleteMaster c => Some (DeleteMasterOffsetIface c s)
  | OpSetSlave c v => Some (SetSlaveIface c v s).1
  | OpDeleteSlave c => Some (DeleteSlaveIface c s)
  | OpSetSource c v => '(s, _) ← SetMasterOffsetSource c v s; Some s
  end.

Fixpoint exec_all (ops : list op) (s : SharedState) : option SharedState :=
  match ops with [] => Some s | o :: rest => s' ← exec o s; exec_all rest s' end.

(** The last operation on a configuration decides, an empty name is refused. *)
Fixpoint last_op {A} (f : op -> option (string * option A)) (ops : list op) (c : string) (before : option A) : option A :=
  match ops with
  | [] => before
  | o :: rest =>
      last_op f rest c
        match f o with
        | Some (c', x) => if str_eqb c' c && negb (str_eqb c "" && match x with Some _ => true | None => false end) then x else before
        | None => before
        end
  end.

Definition slave_op (o : op) : option (string * option string) :=
  match o with OpSetSlave c v => Some (c, Some v) | OpDeleteSlave c => Some (c, None) | _ => None end.
Definition source_op (o : op) : option (string * option string) :=
  match o with OpSetSource c v => Some (c, Some v) | _ => None end.
Definition master_op (o : op) : option (string * option PtpInterface) :=
  match o with
  | OpSetMaster al c v => Some (c, Some (mkIface v (Alias.getAlias v al)))
  | OpDeleteMaster c => Some (c, None)
  | _ => None
  end.

(** The three maps of a state that is initialised. *)
Definition maps (s : SharedState) (mi : gmap string PtpInterface) (sl so : gmap string string) : Prop :=
  s = mkShared (Some mi) (Some sl) (Some so).

Lemma exec_maps o s mi sl so :
  maps s mi sl so -> exists s' mi' sl' so', exec o s = Some s' /\ maps s' mi' sl' so' /\
    (forall c, mi' !! c = last_op master_op [o] c (mi !! c)) /\ (forall c, sl' !! c = last_op slave_op [o] c (sl !! c)) /\
    (forall c, so' !! c = last_op source_op [o] c (so !! c)).
Proof.
  intros ->. destruct o as [al c v|c|c v|c|c v]; cbn [exec last_op master_op slave_op source_op];
    unfold SetMasterOffsetIface, SetSlaveIface, SetMasterOffsetSource, DeleteMasterOffsetIface, DeleteSlaveIface, str_eqb; cbn.
  all: repeat case_bool_decide; subst; cbn; eexists _, _, _, _; (split; [reflexivity|]); (split; [reflexivity|]); split_and!; intros c'; try done;
    repeat case_bool_decide; subst; cbn; rewrite ?lookup_insert_eq, ?lookup_delete_eq; try done;
    by rewrite ?lookup_insert_ne, ?lookup_delete_ne by done.
Qed.

(** The state is what was last set and not deleted: whatever is set and deleted from a
    new state, in any order, no operation panics and every query gives the value of the
    last operation on its configuration, or the default. *)
Theorem state_is_last_set ops c :
  exists s, exec_all ops NewSharedState = Some s /\
    GetSlaveIface c s = default "" (last_op slave_op ops c None) /\
    GetMasterInterface c s = default no_interface (last_op master_op ops c None) /\
    GetMasterOffsetSource c s = Some (default PTP4L (last_op source_op ops c None)) /\
    (forall i, IsFaultySlaveIface c i s = true <-> last_op slave_op ops c None = Some i) /\
    (forall a i, GetMasterInterfaceByAlias c a s = (i, None) <-> last_op master_op ops c None = Some i /\ IAlias i = a).
Proof.
  assert (forall ops s mi sl so, maps s mi sl so -> exists s' mi' sl' so', exec_all ops s = Some s' /\ maps s' mi' sl' so' /\
    mi' !! c = last_op master_op ops c (mi !! c) /\ sl' !! c = last_op slave_op ops c (sl !! c) /\ so' !! c = last_op source_op ops c (so !! c)) as Hall.
  { clear ops. intros ops. induction ops as [|o ops IH]; intros s mi sl so Hm; [by eexists _, _, _, _|].
    destruct (exec_maps o s mi sl so Hm) as (s1 & mi1 & sl1 & so1 & E1 & Hm1 & H1 & H2 & H3).
    destruct (IH s1 mi1 sl1 so1 Hm1) as (s2 & mi2 & sl2 & so2 & E2 & Hm2 & G1 & G2 & G3).
    exists s2, mi2, sl2, so2. cbn [exec_all]. rewrite E1. cbn [mbind option_bind]. rewrite G1, G2, G3, H1, H2, H3. done. }
  destruct (Hall ops NewSharedState ∅ ∅ ∅ eq_refl) as (s & mi & sl & so & E & -> & H1 & H2 & H3). rewrite !lookup_empty in *.
  exists (mkShared (Some mi) (Some sl) (Some so)). split; [done|].
  unfold GetSlaveIface, GetMasterInterface, GetMasterOffsetSource, IsFaultySlaveIface, GetMasterInterfaceByAlias. cbn.
  rewrite H1, H2, H3. split_and!; try done.
  - intros i. destruct (last_op slave_op ops c None); [|done]. unfold str_eqb. rewrite bool_decide_eq_true. naive_solver.
  - intros a i. destruct (last_op master_op ops c None) as [x|]; [|naive_solver]. unfold str_eqb. case_bool_decide; naive_solver.
Qed.

(** A state whose sources alone are missing panics where one without interfaces does not. *)
Lemma source_pointer_not_tested c :
  GetMasterOffsetSource c (mkShared (Some ∅) (Some ∅) None) = None /\
  GetMasterOffsetSource c (mkShared None (Some ∅) (Some ∅)) = Some "uninitialized"%string.
Proof. done. Qed.

End SharedState.
