(* ===== verification/Duration.v ===== *)
(** * time.ParseDuration

    The parser of durations of the Go standard library: decimal numbers with optional
    fractions, each with a unit, and a sign.  A duration is a number of nanoseconds in 64
    bits; [None] is any error.  Strings are read as characters: the micro signs of the
    unit table are their UTF-8 bytes. *)

From S2P Require Import Prelude Float64 Strconv.
From Stdlib Require Import Ascii.

Module Duration.

Definition is_digit (c : ascii) : bool := char_digit c <? 10.

(** [leadingInt]: an error beyond 2^63; [skip] digits once it overflowed is an error. *)
Fixpoint leadingInt (x : Z) (s : string) : option (Z * string) :=
  match s with
  | String c s' =>
      if is_digit c then
        if 2 ^ 63 / 10 <? x then None
        else
          let x := x * 10 + char_digit c in
          if 2 ^ 63 <? x then None else leadingInt x s'
      else Some (x, s)
  | EmptyString => Some (x, s)
  end.

(** [leadingFraction]: digits after an overflow are skipped; the scale is a float64. *)
Fixpoint leadingFraction (x : Z) (scale : f64) (overflow : bool) (s : string) : Z * f64 * string :=
  match s with
  | String c s' =>
      if is_digit c then
        if overflow then leadingFraction x scale true s'
        else if (2 ^ 63 - 1) / 10 <? x then leadingFraction x scale true s'
        else
          let y := x * 10 + char_digit c in
          if 2 ^ 63 <? y then leadingFraction x scale true s'
          else leadingFraction y (f64_mul scale (f64_of_Z 10)) false s'
      else (x, scale, s)
  | EmptyString => (x, scale, s)
  end.

Definition unit_of (u : string) : option Z :=
  match u with
  | "ns" => Some 1
  | "us" => Some 1000
  | "ms" => Some 1000000
  | "s" => Some 1000000000
  | "m" => Some 60000000000
  | "h" => Some 3600000000000
  | _ =>
      let micro a b := String (ascii_of_N a) (String (ascii_of_N b) "s") in
      if str_eqb u (micro 194 181)%N || str_eqb u (micro 206 188)%N then Some 1000 else None
  end%string.

(** The characters up to the next digit or point. *)
Fixpoint take_unit (s : string) : string * string :=
  match s with
  | String c s' => if is_digit c || (if ascii_dec c "." then true else false) then (EmptyString, s) else let '(u, r) := take_unit s' in (String c u, r)
  | EmptyString => (EmptyString, s)
  end.

(** One number with its unit: its nanoseconds and the rest. *)
Definition component (s : string) : option (Z * string) :=
  match s with
  | EmptyString => None
  | String c _ =>
      if negb (is_digit c || (if ascii_dec c "." then true else false)) then None
      else
        '(v, s1) ← leadingInt 0 s;
        let pre := negb (str_eqb s1 s) in
        let '(f, scale, s2, post) :=
          match s1 with
          | String d s' =>
              if ascii_dec d "." then
                let '(f, scale, r) := leadingFraction 0 (f64_of_Z 1) false s' in (f, scale, r, negb (str_eqb r s'))
              else (0, f64_of_Z 1, s1, false)
          | EmptyString => (0, f64_of_Z 1, s1, false)
          end in
        if negb (pre || post) then None
        else
          let '(u, s3) := take_unit s2 in
          if str_eqb u "" then None
          else
            unit ← unit_of u;
            if 2 ^ 63 / unit <? v then None
            else
              let v := v * unit in
              let frac := if 0 <? f then default 0 (f64_trunc (f64_mul (f64_of_Z f) (f64_div (f64_of_Z unit) scale))) else 0 in
              if 2 ^ 63 <? v + frac then None else Some (v + frac, s3)
  end.

(** Every component takes a character at least, so the length of the text is fuel enough. *)
Fixpoint components (fuel : nat) (d : Z) (s : string) : option Z :=
  match s with
  | EmptyString => Some d
  | _ =>
      match fuel with
      | O => None
      | S fuel' => '(v, r) ← component s; if 2 ^ 63 <? d + v then None else components fuel' (d + v) r
      end
  end.

Definition ParseDuration (s : string) : option Z :=
  let '(neg, s) :=
    match s with
    | String c r => if ascii_dec c "-" then (true, r) else if ascii_dec c "+" then (false, r) else (false, s)
    | EmptyString => (false, s)
    end in
  if str_eqb s "0" then Some 0
  else if str_eqb s "" then None
  else
    d ← components (String.length s) 0 s;
    if (neg : bool) then Some (- d) else if 2 ^ 63 - 1 <? d then None else Some d.

Lemma duration_examples :
  ParseDuration "30s" = Some 30000000000 /\ ParseDuration "1h15m30.5s" = Some 4530500000000 /\ ParseDuration "-1.5h" = Some (-5400000000000) /\
  ParseDuration "30" = None /\ ParseDuration "" = None /\ ParseDuration ".s" = None /\ ParseDuration "9223372036854775808ns" = None.
Proof. vm_compute. done. Qed.

(** The whole part stays in range. *)
Lemma leadingInt_bounds x s v r : 0 <= x <= 2 ^ 63 -> leadingInt x s = Some (v, r) -> 0 <= v <= 2 ^ 63.
Proof.
  revert x. induction s as [|c s IH]; intros x Hx; cbn [leadingInt]; [by intros [= <- <-]|].
  destruct (is_digit c) eqn:Hc; [|by intros [= <- <-]]. destruct (Z.ltb_spec (2 ^ 63 / 10) x); [done|].
  destruct (Z.ltb_spec (2 ^ 63) (x * 10 + char_digit c)); [done|]. apply IH. unfold is_digit in Hc.
  assert (0 <= char_digit c); [|lia]. unfold char_digit. repeat case_match; lia.
Qed.

End Duration.
