(* ===== verification/LogFilter.v ===== *)
(** * pkg/logfilter/logfilter.go: fewer lines in the log

    The filters a profile asks for and what they do to a line of a program: drop it, pass
    it, or collect its offset and print a summary when a batch is over.  A pattern is
    compiled by Regex.v; the statistics of gonum and the format of the summary are
    arguments, and so is the time. *)

From S2P Require Import Prelude Float64 Strconv Regex Parser Conf Duration.
From stdpp Require Import sorting.
From Stdlib Require Import Ascii.

#[local] Open Scope Z_scope.

Module LogFilter.

Import Regex.

Definition defaultEnhancedFilterTime : string := "30s".
Definition defaultOffsetFlushThreshold : string := "0".
Definition ptp4lProcessName : string := "ptp4l".
Definition phc2sysProcessName : string := "phc2sys".

Record LogFilter := mkFilter {
  logFilterEnabled : bool;
  logFilterRegexStr : string;
  logFilterRegex : option Regexp;
  logFilterReducerRegexes : list Regexp;
  batchLength : Z;
  expiryTime : Z;
  offsets : list f64;
  summaryText : string;
  summaryFields : list string;
  enhancedThreshold : Z
}.

#[export] Instance LogFilter_fields : Fields LogFilter := fun f =>
  mkFilter (logFilterEnabled f) (logFilterRegexStr f) (logFilterRegex f) (logFilterReducerRegexes f) (batchLength f) (expiryTime f)
    (offsets f) (summaryText f) (summaryFields f) (enhancedThreshold f).

(** ** Making filters *)

Definition second : Z := 1000000000.

Definition logFilterFromRegex (now : Z) (regex : string) (reducers : list string) (batchLengthStr summary : string)
    (fields : list string) (thresholdStr : string) : LogFilter :=
  let compiled := MustCompile regex in
  let batch :=
    match Duration.ParseDuration batchLengthStr with
    | Some d => d
    | None => if str_eqb batchLengthStr "" then 0 else second
    end in
  let threshold := let '(n, ok) := ParseInt thresholdStr 10 64 in if ok then n else 0 in
  mkFilter (match compiled with Some _ => true | None => false end) (match compiled with Some _ => regex | None => "" end) compiled
    (omap MustCompile reducers) batch (now + batch) [] summary fields threshold.

Definition getLogFiltersEnhanced (now : Z) (processName messageTag batch threshold : string) : list LogFilter :=
  let offsetString :=
    if str_eqb processName ptp4lProcessName then "master offset"
    else if str_eqb processName phc2sysProcessName then "phc offset" else ""%string in
  if str_eqb offsetString "" then []
  else
    [logFilterFromRegex now ("^.*" +:+ processName +:+ ".*" +:+ offsetString +:+ ".*$")%string
      [(offsetString +:+ " *[0-9-]* ")%string; "[-]*[0-9]+"%string] batch
      (processName +:+ "[%0.3f]: " +:+ messageTag +:+ " " +:+ offsetString +:+ " summary: cnt=%d, min=%d, max=%d, avg=%0.2f, SD=%0.2f")%string
      ["time"; "cnt"; "min"; "max"; "avg"; "SD"]%string threshold].

(** The mode, the length of a batch and the threshold of [logReduce]. *)
Definition reduce_settings (logReduce : string) : string * string * string :=
  let w := Conf.Fields logReduce in
  (default "false" (w !! 0%nat), default defaultEnhancedFilterTime (w !! 1%nat), default defaultOffsetFlushThreshold (w !! 2%nat))%string.

(** The enhanced filters replace the one for [stdoutFilter]. *)
Definition GetLogFilters (now : Z) (processName messageTag : string) (ptpSettings : gmap string string) : list LogFilter :=
  let messageTag := ReplaceAll messageTag "{level}" "6" in
  let fs :=
    match ptpSettings !! "stdoutFilter"%string with
    | Some filter => [logFilterFromRegex now filter [] "" "" [] defaultOffsetFlushThreshold]
    | None => []
    end in
  match ptpSettings !! "logReduce"%string with
  | None => fs
  | Some logReduce =>
      let '(mode, time, threshold) := reduce_settings logReduce in
      if str_eqb mode "true" || str_eqb mode "basic" then
        fs ++ [logFilterFromRegex now "^.*master offset.*$" [] "" "" [] defaultOffsetFlushThreshold]
      else if str_eqb mode "enhanced" then getLogFiltersEnhanced now processName messageTag time threshold
      else fs
  end.

(** ** Summaries *)

(** A value of the summary. *)
Inductive val := VFloat (f : f64) | VInt (z : Z) | VNil.

Definition f64_le (a b : f64) : Prop := f64_leb a b = true.
#[export] Instance f64_le_dec : RelDecision f64_le.
Proof. intros a b. unfold f64_le. apply _. Defined.

(** [FindString]: the first match, or the empty string. *)
Definition FindString (re : Regexp) (text : string) : string :=
  match FindStringSubmatch re text with Some (m :: _) => m | _ => "" end.

Section Filter.
  (* gonum: [stat.Mean], [stat.Quantile(0.5, ..)], [stat.Variance], [stat.StdDev] *)
  Context (Mean Median Variance StdDev : list f64 -> f64).
  Context (Sprintf : string -> list val -> string).

(** One field over the sorted offsets; an unknown field is nil. *)
Definition stat_field (now : Z) (sorted : list f64) (field : string) : val :=
  match field with
  | "time" => VFloat (f64_div (f64_of_Z (now / 1000000)) (f64_of_Z 1000))
  | "cnt" => VInt (Z.of_nat (length sorted))
  | "min" => VInt match sorted with x :: _ => f64_to_int64 x | [] => 0 end
  | "max" => VInt match last sorted with Some x => f64_to_int64 x | None => 0 end
  | "avg" => VFloat (Mean sorted)
  | "med" => VFloat (Median sorted)
  | "VAR" => VFloat (Variance sorted)
  | "SD" => VFloat (StdDev sorted)
  | _ => VNil
  end%string.

Definition parseOffsetStats (now : Z) (offs : list f64) (fields : list string) : list val :=
  map (stat_field now (merge_sort f64_le offs)) fields.

Definition FlushOutput (now : Z) (f : LogFilter) : LogFilter * string :=
  (f <| offsets := [] |> <| expiryTime := now + batchLength f |>,
   Sprintf (summaryText f) (parseOffsetStats now (offsets f) (summaryFields f))).

(** The offset of a line: what the reducers leave of it, 0 when they change nothing;
    [None] when that is not a number. *)
Definition filtered_value (f : LogFilter) (output : string) : option f64 :=
  let filteredOutput := foldl (fun s re => FindString re s) output (logFilterReducerRegexes f) in
  if str_eqb filteredOutput output then Some f64_zero else Parser.ParseFloat filteredOutput.

Definition matches (f : LogFilter) (output : string) : bool :=
  logFilterEnabled f && match logFilterRegex f with Some re => MatchString re output | None => false end.

(** The offset is beyond the threshold, if there is one. *)
Definition beyond (f : LogFilter) (v : f64) : bool :=
  (0 <? enhancedThreshold f) && (enhancedThreshold f <? f64_to_int64 (f64_abs v)).

(** What one filter does with a line: nothing, return at once, or go on with a new result
    or a mark to skip it. *)
Inductive verdict := VPass | VReturn (s : string) | VReplace (s : string) | VSkip.

Definition apply_filter (now : Z) (output : string) (f : LogFilter) : LogFilter * verdict :=
  if negb (matches f output) then (f, VPass)
  else
    match filtered_value f output with
    | None => (f, VPass)                          (* the error is logged *)
    | Some v =>
        if beyond f v then
          match offsets f with
          | [] => (f, VReturn output)
          | _ => let '(f, s) := FlushOutput now f in (f, VReturn (s +:+ newline +:+ output)%string)
          end
        else if str_eqb (summaryText f) "" then (f, VSkip)
        else if expiryTime f <? now then
          let '(f, s) := FlushOutput now (f <| offsets := offsets f ++ [v] |>) in (f, VReplace s)
        else (f <| offsets := offsets f ++ [v] |>, VSkip)
    end.

(** The loop over the filters. *)
Fixpoint filter_loop (now : Z) (output : string) (fs : list LogFilter) (skip : bool) (ret : string) : list LogFilter * string :=
  match fs with
  | [] => ([], if skip then "" else ret)
  | f :: rest =>
      match apply_filter now output f with
      | (f, VPass) => let '(rest, r) := filter_loop now output rest skip ret in (f :: rest, r)
      | (f, VReturn s) => (f :: rest, s)
      | (f, VReplace s) => let '(rest, r) := filter_loop now output rest skip s in (f :: rest, r)
      | (f, VSkip) => let '(rest, r) := filter_loop now output rest true ret in (f :: rest, r)
      end
  end.

Definition FilterOutput (now : Z) (fs : list LogFilter) (output : string) : list LogFilter * string := filter_loop now output fs false output.

(** ** Accounting *)

(** Lines with their times, one after the other. *)
Fixpoint run (fs : list LogFilter) (lines : list (Z * string)) : list LogFilter * list string :=
  match lines with
  | [] => (fs, [])
  | (now, line) :: rest =>
      let '(fs, out) := FilterOutput now fs line in
      let '(fs, outs) := run fs rest in (fs, out :: outs)
  end.

(** What happens to a line of a filter with a summary: it is printed as it is, after the
    summary of a batch or without; its offset is collected; it ends a batch, whose summary
    is printed in its place. *)
Inductive fate :=
| Passed
| PassedAfter (batch : list f64)
| Collected (v : f64)
| Ended (v : f64) (batch : list f64).

Definition batch_of (x : fate) : list f64 := match x with PassedAfter b => b | Ended _ b => b | _ => [] end.
Definition offset_of (x : fate) : list f64 := match x with Collected v => [v] | Ended v _ => [v] | _ => [] end.

Definition summary (now : Z) (f : LogFilter) (batch : list f64) : string :=
  Sprintf (summaryText f) (parseOffsetStats now batch (summaryFields f)).

Definition shown (f : LogFilter) (now : Z) (line : string) (x : fate) : string :=
  match x with
  | Passed => line
  | PassedAfter b => summary now f b +:+ newline +:+ line
  | Collected _ => ""
  | Ended _ b => summary now f b
  end%string.

(** A line is printed as it is unless it is an offset within the threshold. *)
Definition small (f : LogFilter) (line : string) : option f64 :=
  if matches f line then v ← filtered_value f line; if beyond f v then None else Some v else None.

(** The filters differ in what they collected only. *)
Definition same_settings (f g : LogFilter) : Prop :=
  f <| offsets := [] |> <| expiryTime := 0 |> = g <| offsets := [] |> <| expiryTime := 0 |>.

Lemma same_settings_spec f g line x now :
  same_settings f g -> summaryText f = summaryText g /\ small f line = small g line /\ shown f now line x = shown g now line x.
Proof.
  unfold same_settings, small, shown, summary, matches, filtered_value, beyond. destruct f, g. cbn. intros [= -> -> -> -> -> -> -> ->]. done.
Qed.

Lemma apply_fate now line f :
  summaryText f <> ""%string ->
  exists x f', FilterOutput now [f] line = ([f'], shown f now line x) /\ same_settings f f' /\
    offset_of x = match small f line with Some v => [v] | None => [] end /\
    offsets f ++ offset_of x = batch_of x ++ offsets f' /\ (batch_of x <> [] -> offsets f' = []) /\
    (small f line = None <-> match x with Passed | PassedAfter _ => True | _ => False end).
Proof.
  intros Hs. unfold FilterOutput, small. cbn [filter_loop]. unfold apply_filter. destruct (matches f line); cbn [negb].
  2: { exists Passed, f. split; [done|]. split_and!; cbn; rewrite ?app_nil_r; done. }
  destruct (filtered_value f line) as [v|]; cbn [mbind option_bind].
  2: { exists Passed, f. split; [done|]. split_and!; cbn; rewrite ?app_nil_r; done. }
  destruct (beyond f v).
  - destruct (offsets f) as [|o os] eqn:Eo.
    + exists Passed, f. split; [done|]. rewrite Eo. split_and!; cbn; done.
    + exists (PassedAfter (o :: os)). eexists. rewrite <- Eo. split; [reflexivity|]. split_and!; cbn; rewrite ?app_nil_r; done.
  - destruct (str_eqb (summaryText f) "") eqn:E; [by apply bool_decide_eq_true in E|]. destruct (expiryTime f <? now).
    + exists (Ended v (offsets f ++ [v])). eexists. split; [reflexivity|]. split_and!; cbn; rewrite ?app_nil_r; done.
    + exists (Collected v). eexists. split; [reflexivity|]. split_and!; cbn; done.
Qed.

(** Nothing is lost and nothing is counted twice.  A filter with a summary gives every
    line of any log its fate: a line that is no offset within the threshold is printed
    unchanged; the offsets of the others, in their order, are exactly those of the
    summaries that were printed and of the batch that is being collected. *)
Theorem offsets_accounted f lines :
  summaryText f <> ""%string ->
  exists xs f', (run [f] lines).1 = [f'] /\
    (run [f] lines).2 = zip_with (fun l x => shown f l.1 l.2 x) lines xs /\ length xs = length lines /\
    Forall2 (fun l x => small f l.2 = None <-> match x with Passed | PassedAfter _ => True | _ => False end) lines xs /\
    offsets f ++ omap (fun l => small f l.2) lines = concat (map batch_of xs) ++ offsets f'.
Proof.
  revert f. induction lines as [|[now line] lines IH]; intros f Hs.
  - exists [], f. cbn. rewrite app_nil_r. by split_and!.
  - cbn [run]. destruct (apply_fate now line f Hs) as (x & f1 & E & Hsame & Hoff & Hbatch & _ & Hfate). rewrite E.
    assert (summaryText f1 <> ""%string) as Hs1 by by rewrite <- (proj1 (same_settings_spec f f1 line x now Hsame)).
    destruct (IH f1 Hs1) as (xs & f' & E1 & E2 & Hlen & Hall & Hacc). destruct (run [f1] lines) as [fs outs]. cbn [fst snd] in *.
    exists (x :: xs), f'. split; [done|]. split.
    + cbn. f_equal. rewrite E2. clear -Hsame. revert xs. induction lines as [|l lines IHl]; intros [|y xs]; try done. cbn. f_equal; [|apply IHl].
      symmetry. apply same_settings_spec. done.
    + split; [cbn; by rewrite Hlen|]. split.
      * constructor; [done|]. eapply Forall2_impl; [exact Hall|]. intros l y. by rewrite (proj1 (proj2 (same_settings_spec f f1 l.2 y l.1 Hsame))).
      * assert (omap (fun l => small f l.2) lines = omap (fun l => small f1 l.2) lines) as Eo.
        { clear -Hsame Sprintf Mean Median Variance StdDev. induction lines as [|l lines IHl]; [done|]. cbn.
          by rewrite IHl, (proj1 (proj2 (same_settings_spec f f1 l.2 Passed l.1 Hsame))). }
        cbn [map concat]. rewrite <- (app_assoc (batch_of x)), <- Hacc, <- Eo, app_assoc, <- Hbatch, <- app_assoc, Hoff.
        cbn. by destruct (small f line).
Qed.

End Filter.

(** ** A filter of ptp4l *)

Definition ptp4l_filter : LogFilter :=
  default (logFilterFromRegex 0 "" [] "" "" [] "")
    (head (GetLogFilters 0 "ptp4l" "[ptp4l.0.config:{level}]" {[ "logReduce"%string := "enhanced 30s 100"%string ]})).

Definition ptp4l_lines : list (Z * string) :=
  [(1, "ptp4l[1.0]: [ptp4l.0.config:6] master offset        -10 s2 freq  -12461 path delay      1512");
   (2, "ptp4l[2.0]: [ptp4l.0.config:6] port 1 (ens1f0): UNCALIBRATED to SLAVE on MASTER_CLOCK_SELECTED");
   (3, "ptp4l[3.0]: [ptp4l.0.config:6] master offset        200 s2 freq  -12461 path delay      1512");
   (40 * second, "ptp4l[4.0]: [ptp4l.0.config:6] master offset          7 s2 freq  -12461 path delay      1512")]%string.

(** The number of offsets stands for the summary. *)
Definition count_only (_ : string) (vs : list val) : string :=
  match vs !! 1%nat with Some (VInt n) => ("cnt=" +:+ fmt_d n)%string | _ => "" end.

Lemma ptp4l_run :
  (run (fun _ => f64_zero) (fun _ => f64_zero) (fun _ => f64_zero) (fun _ => f64_zero) count_only [ptp4l_filter] ptp4l_lines).2
  = [""; ptp4l_lines.*2 !!! 1%nat; ("cnt=1" +:+ newline +:+ ptp4l_lines.*2 !!! 2%nat); "cnt=1"]%string.
Proof. vm_compute. reflexivity. Qed.

Lemma offsets_accounted_witness :
  omap (fun l => small ptp4l_filter l.2) ptp4l_lines = [f64_of_Z (-10); f64_of_Z 7] /\
  exists batches pending, omap (fun l => small ptp4l_filter l.2) ptp4l_lines = concat batches ++ pending.
Proof.
  split; [vm_compute; reflexivity|].
  destruct (offsets_accounted (fun _ => f64_zero) (fun _ => f64_zero) (fun _ => f64_zero) (fun _ => f64_zero) count_only
    ptp4l_filter ptp4l_lines ltac:(vm_compute; discriminate)) as (xs & f' & _ & _ & _ & _ & H).
  exists (map batch_of xs), (offsets f'). exact H.
Defined.

(** The filter for the standard output is lost when the enhanced ones are asked for too. *)
Lemma enhanced_replaces_stdout_filter :
  length (GetLogFilters 0 "ptp4l" "" {[ "stdoutFilter"%string := "^x"%string; "logReduce"%string := "enhanced"%string ]}) = 1%nat /\
  GetLogFilters 0 "ts2phc" "" {[ "stdoutFilter"%string := "^x"%string; "logReduce"%string := "enhanced"%string ]} = [].
Proof. vm_compute. done. Qed.

End LogFilter.
