(* ===== verification/PhcStep.v ===== *)
(** * addons/phcfirststep: the first step of a hardware clock

    Before a profile runs, ptp4l measures the offset of its time receiver ports in free
    running mode and the clock of the leading interface is stepped, twice at most.  The
    commands run and what they print are values; the temporary file, the processes and
    the clock itself are outside.  A time is its nanoseconds in 64 bits and is exchanged
    with phc_ctl as decimal seconds. *)

From S2P Require Import Prelude Strconv Regex Parser PtpConfig Conf Json Duration.
From Stdlib Require Import Ascii.

Module PhcStep.

Import Regex PtpConfig.

Definition pluginName : string := "phc-first-step".
Definition globalSectionName : string := "global".
Definition nmeaSectionName : string := "nmea".
Definition unicastMasterTableSectionName : string := "unicast_master_table".
Definition measurementSamples : nat := 1.
Definition nanosecondsPerSecond : Z := 1000000000.
Definition residualOffsetThreshold : Z := nanosecondsPerSecond.
Definition MinInt64 : Z := - 2 ^ 63.
Definition MaxInt64 : Z := 2 ^ 63 - 1.

Definition clockTimePattern : Regexp := Eval vm_compute in
  Parser.pattern "clock time is\s+([+-]?[0-9]+(?:\.[0-9]+)?)".
Definition masterOffsetRE : Regexp := Eval vm_compute in
  Parser.pattern "master offset\s+([+-]?\d+)\s+s\d+\s+freq\s+[+-]?\d+\s+path delay\s+[+-]?0*[1-9]\d*".

Inductive Err :=
| NoTimeReceiver (name : string)
| NoLeading (name : string)
| NoPHC (leading : string)
| BadOptions
| BadTimeout (text : string)
| NegativeTimeout (text : string)
| NoConfiguration
| NoSection (iface : string)
| TempFile
| TimedOut
| Ptp4lFailed
| Ptp4lExited
| CommandFailed
| BadOutput
| BadNumber
| Overflow.

Definition result (A : Type) : Type := (A + Err)%type.

(** ** Which interfaces, which clock *)

Definition profileName (p : PtpProfile) : string := default "unknown"%string (Name p).

Fixpoint ends_with (c : ascii) (s : string) : bool :=
  match s with EmptyString => false | String a EmptyString => bool_decide (a = c) | String _ s' => ends_with c s' end.

(** The name of the section a line opens. *)
Definition section_header (line : string) : option string :=
  if Conf.starts_with "[" line && ends_with "]" line then Some (String.substring 1 (String.length line - 2) line) else None.

Definition skipped (line : string) : bool := str_eqb line "" || Conf.starts_with "#" line.

Definition not_a_port (section : string) : bool :=
  str_eqb section globalSectionName || str_eqb section nmeaSectionName || str_eqb section unicastMasterTableSectionName.

Definition receiver_line (line : string) : bool :=
  match Conf.Fields line with k :: v :: _ => str_eqb k "masterOnly" && str_eqb v "0" | _ => false end.

(** One line: the section it is in and the interfaces found. *)
Definition receiver_step (st : string * list string) (rawLine : string) : string * list string :=
  let '(section, ifaces) := st in
  let line := Parser.TrimSpace rawLine in
  if skipped line then st
  else
    match section_header line with
    | Some s => (if not_a_port s then EmptyString else s, ifaces)
    | None =>
        if str_eqb section "" then st
        else if receiver_line line && negb (bool_decide (section ∈ ifaces)) then (section, ifaces ++ [section])
        else st
    end.

Definition timeReceiverInterfaces (p : PtpProfile) : list string :=
  match Ptp4lConf p with
  | None => []
  | Some conf => (foldl receiver_step (EmptyString, []) (Conf.split_on Conf.newline_char conf)).2
  end.

Fixpoint into_strings (l : list Json.json) : option (list string) :=
  match l with [] => Some [] | j :: l' => s ← Json.into_string j EmptyString; r ← into_strings l'; Some (s :: r) end.

Definition plugin_raw (name : string) (p : PtpProfile) : option string :=
  m ← Plugins p; raw ← m !! name; raw ← raw; if str_eqb raw "" then None else Some raw.

Definition set_devices (name : string) (v : Json.json) (devices : list string) : option (list string) :=
  if Json.names "devices" name then
    match v with Json.JNull => Some [] | Json.JArr l => into_strings l | _ => None end
  else Some devices.

Definition e825Devices (p : PtpProfile) : list string :=
  default [] (raw ← plugin_raw "e825" p; j ← Json.parse raw; Json.into_struct set_devices j []).

Definition leadingInterface (p : PtpProfile) : string :=
  let leading := setting_or_empty "leadingInterface" p in
  if negb (str_eqb leading "") then leading else match e825Devices p with d :: _ => d | [] => EmptyString end.

Definition leadingPHC (phcIDForIface : string -> string) (p : PtpProfile) : result string :=
  let leading := leadingInterface p in
  if str_eqb leading "" then inr (NoLeading (profileName p))
  else
    let phc := phcIDForIface leading in
    if str_eqb phc "" then inr (NoPHC leading) else inl phc.

Definition set_timeout (name : string) (v : Json.json) (old : string) : option string :=
  if Json.names "timeout" name then Json.into_string v old else Some old.

Definition measurementTimeout (p : PtpProfile) : result Z :=
  match plugin_raw pluginName p with
  | None => inl 0
  | Some raw =>
      match j ← Json.parse raw; Json.into_struct set_timeout j EmptyString with
      | None => inr BadOptions
      | Some text =>
          if str_eqb text "" then inl 0
          else
            match Duration.ParseDuration text with
            | None => inr (BadTimeout text)
            | Some d => if d <? 0 then inr (NegativeTimeout text) else inl d
            end
      end
  end.

(** ** The measurement *)

Definition parseSample (line : string) : option Z :=
  m ← FindStringSubmatch masterOffsetRE line;
  g ← m !! 1%nat;
  let '(n, ok) := ParseInt g 10 64 in if ok then Some n else None.

(** The first sample is the last one taken: ptp4l is stopped there. *)
Fixpoint sample_of (lines : list string) : option Z :=
  match lines with [] => None | l :: lines' => match parseSample l with Some v => Some v | None => sample_of lines' end end.

Record render_state := mkRender {
  r_section : string;
  r_found : list string;
  r_global : list string;
  r_options : gmap string (list string);
  r_domain : string
}.

#[export] Instance render_state_fields : Fields render_state := fun s => mkRender (r_section s) (r_found s) (r_global s) (r_options s) (r_domain s).

Definition render_start : render_state := mkRender EmptyString [] [] ∅ "0".

(** The options ptp4l must not get from the profile. *)
Definition dropped (section line : string) : bool :=
  match Conf.Fields line with
  | [] => false
  | k :: _ =>
      str_eqb k "free_running" || str_eqb k "slaveOnly" || str_eqb k "uds_address" || str_eqb k "uds_ro_address"
      || (str_eqb k "masterOnly" && str_eqb section globalSectionName) || str_eqb k "domainNumber"
  end.

Definition domain_of (section line old : string) : string :=
  match Conf.Fields line with
  | [k; v] => if str_eqb k "domainNumber" && str_eqb section globalSectionName then v else old
  | _ => old
  end.

Definition options_of (section : string) (st : render_state) : list string := default [] (r_options st !! section).

Definition render_step (wanted : list string) (st : render_state) (rawLine : string) : render_state :=
  let line := Parser.TrimSpace rawLine in
  match section_header line with
  | Some s =>
      if str_eqb s globalSectionName then st <| r_section := s |>
      else if str_eqb s nmeaSectionName || str_eqb s unicastMasterTableSectionName || negb (bool_decide (s ∈ wanted))
      then st <| r_section := EmptyString |>
      else st <| r_section := s |> <| r_found := r_found st ++ [s] |>
  | None =>
      let section := r_section st in
      if skipped line || str_eqb section "" then st
      else if dropped section line then st <| r_domain := domain_of section line (r_domain st) |>
      else if str_eqb section globalSectionName then st <| r_global := r_global st ++ [line] |>
      else st <| r_options := <[section := options_of section st ++ [line]]> (r_options st) |>
  end.

Definition scan (conf : string) (wanted : list string) : render_state :=
  foldl (render_step wanted) render_start (Conf.split_on Conf.newline_char conf).

Definition measurement_header (domain : string) (pid : Z) : list string :=
  [("[" +:+ globalSectionName +:+ "]")%string; "slaveOnly 1"%string; "free_running 1"%string; ("domainNumber " +:+ domain)%string;
   "summary_interval -4"%string; ("uds_address /tmp/phc-first-step-" +:+ fmt_d pid +:+ ".socket")%string].

Definition renderMeasurementConfig (p : PtpProfile) (interfaces : list string) (pid : Z) : result string :=
  match Ptp4lConf p with
  | None => inr NoConfiguration
  | Some conf =>
      let st := scan conf interfaces in
      match first_match (fun i => negb (bool_decide (i ∈ r_found st))) interfaces with
      | Some i => inr (NoSection i)
      | None =>
          let lines := measurement_header (r_domain st) pid ++ r_global st
            ++ flat_map (fun i => ("[" +:+ i +:+ "]")%string :: options_of i st) interfaces in
          inl (join newline lines +:+ newline)%string
      end
  end.

(** ** Times *)

Definition SplitN (value : string) : string * string := let r := Parser.cut_dot value in (r.1.1, r.1.2).

Definition phcSecondsToNS (value : string) : result Z :=
  let '(secondsText, frac) := SplitN value in
  let '(seconds, ok) := ParseInt secondsText 10 64 in
  if negb ok then inr BadNumber
  else
    let '(nanoseconds, ok) := ParseInt (String.substring 0 9 (frac +:+ "000000000")) 10 64 in
    if negb ok then inr BadNumber
    else
      let minSeconds := Z.quot MinInt64 nanosecondsPerSecond in
      let maxSeconds := Z.quot MaxInt64 nanosecondsPerSecond in
      if (seconds <? minSeconds - 1) || (maxSeconds <? seconds) then inr Overflow
      else if seconds =? minSeconds - 1 then
        let minNanoseconds := nanosecondsPerSecond + Z.rem MinInt64 nanosecondsPerSecond in
        if nanoseconds <? minNanoseconds then inr Overflow
        else inl (int64 (int64 (MinInt64 + nanoseconds) - minNanoseconds))
      else
        let base := int64 (seconds * nanosecondsPerSecond) in
        if int64 (MaxInt64 - nanoseconds) <? base then inr Overflow else inl (int64 (base + nanoseconds)).

(** [%09d] of a number that is not negative. *)
Definition fmt_09d (n : Z) : string := (Parser.zeros (9 - String.length (fmt_d n)) +:+ fmt_d n)%string.

Definition formatNS (value : Z) : string :=
  let seconds := Z.quot value nanosecondsPerSecond in
  let nanoseconds := Z.rem value nanosecondsPerSecond in
  let '(seconds, nanoseconds) :=
    if nanoseconds <? 0 then (int64 (seconds - 1), int64 (nanoseconds + nanosecondsPerSecond)) else (seconds, nanoseconds) in
  (fmt_d seconds +:+ "." +:+ fmt_09d nanoseconds)%string.

Definition correctedTime (phcTime offset : Z) : result Z :=
  if (0 <? offset) && (phcTime <? int64 (MinInt64 + offset)) || (offset <? 0) && (int64 (MaxInt64 + offset) <? phcTime)
  then inr Overflow
  else inl (int64 (phcTime - offset)).

(** ** The adjustments *)

(** What the environment answers in one adjustment: the temporary file, the lines ptp4l
    prints and how it ends, the output of [phc_ctl get], the end of [phc_ctl set]. *)
Record Answers := mkAnswers {
  a_create : bool;
  a_write : bool;
  a_close : bool;
  a_lines : list string;
  a_deadline : bool;
  a_run_ok : bool;
  a_get : option string;
  a_set : bool
}.

Inductive command :=
| Measure (content : string) (args : list string)
| GetTime (phc : string)
| SetTime (phc : string) (time : string).

Definition measure_args (interfaces : list string) : list string :=
  flat_map (fun i => ["-i"; i]%string) interfaces ++ ["-m"; "--free_running=1"; "--freq_est_interval=-4"; "--summary_interval=-4"]%string.

Definition measureOffset (p : PtpProfile) (interfaces : list string) (timeout pid : Z) (a : Answers) : list command * result Z :=
  if negb (a_create a) then ([], inr TempFile)
  else
    match renderMeasurementConfig p interfaces pid with
    | inr e => ([], inr e)
    | inl content =>
        if negb (a_write a) || negb (a_close a) then ([], inr TempFile)
        else
          ([Measure content (measure_args interfaces)],
           match sample_of (a_lines a) with
           | Some offset => inl offset
           | None => inr (if (0 <? timeout) && a_deadline a then TimedOut else if negb (a_run_ok a) then Ptp4lFailed else Ptp4lExited)
           end)
    end.

Definition readPHCTime (a : Answers) : result Z :=
  match a_get a with
  | None => inr CommandFailed
  | Some out =>
      match m ← FindStringSubmatch clockTimePattern out; m !! 1%nat with
      | None => inr BadOutput
      | Some text => phcSecondsToNS text
      end
  end.

(** [fuel] adjustments are left; the first of them has number [adjustment]. *)
Fixpoint adjust (p : PtpProfile) (interfaces : list string) (phc : string) (timeout pid : Z) (answers : nat -> Answers)
    (adjustment fuel : nat) : list command * result () :=
  match fuel with
  | O => ([], inl tt)
  | S fuel' =>
      let a := answers adjustment in
      match measureOffset p interfaces timeout pid a with
      | (done, inr e) => (done, inr e)
      | (done, inl offset) =>
          if (0 <? adjustment)%nat && (offset <=? residualOffsetThreshold) && (- residualOffsetThreshold <=? offset) then (done, inl tt)
          else
            match readPHCTime a with
            | inr e => (done ++ [GetTime phc], inr e)
            | inl phcTime =>
                match correctedTime phcTime offset with
                | inr e => (done ++ [GetTime phc], inr e)
                | inl corrected =>
                    let done := done ++ [GetTime phc; SetTime phc (formatNS corrected)] in
                    if negb (a_set a) then (done, inr CommandFailed)
                    else
                      let '(rest, r) := adjust p interfaces phc timeout pid answers (S adjustment) fuel' in
                      (done ++ rest, r)
                end
            end
      end
  end.

Definition updatePHC (p : PtpProfile) (interfaces : list string) (phc : string) (timeout pid : Z) (answers : nat -> Answers) :
    list command * result () :=
  adjust p interfaces phc timeout pid answers 0 2.

Definition onPTPConfigChange (phcIDForIface : string -> string) (pid : Z) (answers : nat -> Answers) (profile : option PtpProfile) :
    list command * result () :=
  match profile with
  | None => ([], inl tt)
  | Some p =>
      if bool_decide (is_Some (m ← Plugins p; m !! pluginName)) then
        let ifaces := timeReceiverInterfaces p in
        if bool_decide (ifaces = []) then ([], inr (NoTimeReceiver (profileName p)))
        else
          match measurementTimeout p with
          | inr e => ([], inr e)
          | inl timeout =>
              match leadingPHC phcIDForIface p with
              | inr e => ([], inr e)
              | inl phc => updatePHC p ifaces phc timeout pid answers
              end
          end
      else ([], inl tt)
  end.


(** ** Decimal seconds *)

Fixpoint digits_only (s : string) : bool :=
  match s with EmptyString => true | String c s' => (char_digit c <? 10) && digits_only s' end.

Lemma digits_only_app s t : digits_only (s +:+ t)%string = digits_only s && digits_only t.
Proof. induction s as [|c s IH]; [done|]. rewrite str_app_cons. cbn. by rewrite IH, andb_assoc. Qed.

Lemma fmt_digits_only fuel n : 0 <= n -> digits_only (fmt_digits 10 fuel n) = true.
Proof.
  revert n. induction fuel as [|fuel IH]; intros n Hn; cbn [fmt_digits]; [done|].
  pose proof (Z.mod_pos_bound n 10 ltac:(lia)). case_match.
  - cbn. rewrite char_digit_char by lia. lia.
  - rewrite digits_only_app, IH by (apply Z.div_pos; lia). cbn. rewrite char_digit_char by lia. lia.
Qed.

Lemma cut_digits s t : digits_only s = true -> Parser.cut_dot (s +:+ String "." t)%string = (s, t, true).
Proof.
  induction s as [|c s IH]; intros Hs; [done|]. cbn in Hs. apply andb_prop in Hs as [Hc Hs]. rewrite str_app_cons.
  assert (Parser.cut_dot (String c (s +:+ String "." t)) = let r := Parser.cut_dot (s +:+ String "." t)%string in (String c r.1.1, r.1.2, r.2)) as ->.
  { revert Hc. clear. destruct c as [[] [] [] [] [] [] [] []]; done. }
  by rewrite IH.
Qed.

Lemma cut_seconds z t : Parser.cut_dot (fmt_d z +:+ String "." t)%string = (fmt_d z, t, true).
Proof.
  unfold fmt_d, fmt_uint. case_match; [|apply cut_digits, fmt_digits_only; lia].
  rewrite str_app_cons. cbn [Parser.cut_dot]. by rewrite cut_digits by (apply fmt_digits_only; lia).
Qed.

Lemma fmt_digits_length k fuel n : 0 <= n < 10 ^ Z.of_nat (S k) -> (String.length (fmt_digits 10 fuel n) <= S k)%nat.
Proof.
  revert k n. induction fuel as [|fuel IH]; intros k n Hn; cbn [fmt_digits]; [cbn; lia|]. case_match; [cbn; lia|].
  rewrite str_app_length. cbn [String.length]. destruct k as [|k]; [cbn in Hn; lia|].
  assert (0 <= n / 10 < 10 ^ Z.of_nat (S k)) as Hd%(IH k).
  { split; [apply Z.div_pos; lia|]. apply Z.div_lt_upper_bound; [lia|]. rewrite (Nat2Z.inj_succ (S k)), Z.pow_succ_r in Hn by lia. lia. }
  lia.
Qed.

Lemma zeros_length k : String.length (Parser.zeros k) = k.
Proof. induction k; cbn; congruence. Qed.

Lemma fmt_09d_length n : 0 <= n < nanosecondsPerSecond -> String.length (fmt_09d n) = 9%nat.
Proof.
  intros Hn. unfold fmt_09d. rewrite str_app_length, zeros_length.
  assert (String.length (fmt_d n) <= 9)%nat; [|lia]. unfold fmt_d, fmt_uint. case_match; [lia|]. apply fmt_digits_length. by cbn.
Qed.

Lemma substring_all s t : String.substring 0 (String.length s) (s +:+ t)%string = s.
Proof. induction s as [|c s IH]; [by destruct t|]. rewrite str_app_cons. cbn. by rewrite IH. Qed.

Lemma parse_zeros k max s : 0 <= max -> parse_loop 10 max 0 (Parser.zeros k +:+ s)%string = parse_loop 10 max 0 s.
Proof.
  intros Hm. induction k as [|k IH]; [done|]. cbn [Parser.zeros]. rewrite str_app_cons. cbn [parse_loop].
  change (char_digit "0") with 0. change (0 * 10 + 0) with 0. case_match; [done|]. case_match; [lia|]. apply IH.
Qed.

(** The number of a text of digits. *)
Lemma ParseInt_digits s n :
  s <> ""%string -> digits_only s = true -> parse_loop 10 (2 ^ 64 - 1) 0 s = (n, true) -> 0 <= n < 2 ^ 63 -> ParseInt s 10 64 = (n, true).
Proof.
  intros Hne Hd Hp Hn. destruct s as [|c s]; [done|]. cbn in Hd. apply andb_prop in Hd as [Hc _]. unfold ParseInt.
  assert ((match String c s with String "-" r => (true, r) | String "+" r => (false, r) | _ => (false, String c s) end) = (false, String c s)) as ->.
  { revert Hc. clear. destruct c as [[] [] [] [] [] [] [] []]; done. }
  unfold ParseUint. rewrite Hp. cbn [negb andb]. case_match; [lia|done].
Qed.

Lemma ParseInt_09d n : 0 <= n < nanosecondsPerSecond -> ParseInt (fmt_09d n) 10 64 = (n, true).
Proof.
  intros Hn. unfold nanosecondsPerSecond in Hn. apply ParseInt_digits; [| | |lia].
  - intros E. apply (f_equal String.length) in E. rewrite fmt_09d_length in E by done. done.
  - unfold fmt_09d, fmt_d, fmt_uint. case_match; [lia|]. rewrite digits_only_app, fmt_digits_only, andb_true_r by lia.
    generalize (9 - String.length (fmt_digits 10 (S (Z.to_nat (Z.log2 n))) n))%nat as k. intros k. by induction k.
  - unfold fmt_09d. rewrite parse_zeros by lia. unfold fmt_d. case_match; [lia|]. apply fmt_digits_parse; [lia|lia|apply log2_fuel; lia].
Qed.

(** Reading decimal seconds is exact: for every 64-bit number of seconds and every
    nine-digit fraction, [phcSecondsToNS] returns seconds·10⁹ + nanoseconds when that is a
    64-bit integer and an overflow error otherwise, with no wrap-around in between. *)
Lemma phc_time_value sec ns :
  in_int64 sec -> 0 <= ns < nanosecondsPerSecond ->
  phcSecondsToNS (fmt_d sec +:+ "." +:+ fmt_09d ns)%string =
    if bool_decide (in_int64 (sec * nanosecondsPerSecond + ns)) then inl (sec * nanosecondsPerSecond + ns) else inr Overflow.
Proof.
  intros Hs Hn. unfold phcSecondsToNS, SplitN. change ("." +:+ fmt_09d ns)%string with (String "." (fmt_09d ns)).
  rewrite cut_seconds. cbn [fst snd]. rewrite ParseInt_fmt by (unfold in_int64 in Hs; lia). cbn [negb].
  rewrite <- (fmt_09d_length ns Hn), substring_all, ParseInt_09d by done. cbn [negb].
  change (Z.quot MinInt64 nanosecondsPerSecond) with (-9223372036). change (Z.quot MaxInt64 nanosecondsPerSecond) with 9223372036.
  change (Z.rem MinInt64 nanosecondsPerSecond) with (-854775808). unfold nanosecondsPerSecond, MaxInt64, MinInt64 in *. unfold in_int64 in *.
  destruct (Z.ltb_spec sec (-9223372036 - 1)); [cbn [orb]; rewrite bool_decide_false by lia; done|].
  destruct (Z.ltb_spec 9223372036 sec); [cbn [orb]; rewrite bool_decide_false by lia; done|]. cbn [orb].
  destruct (Z.eqb_spec sec (-9223372036 - 1)) as [->|Hne].
  - destruct (Z.ltb_spec ns (1000000000 + -854775808)); [by rewrite bool_decide_false by lia|]. rewrite bool_decide_true by lia.
    f_equal. rewrite (int64_id (- 2 ^ 63 + ns)), int64_id by (unfold in_int64; lia). lia.
  - rewrite !(int64_id (sec * _)), (int64_id (2 ^ 63 - 1 - ns)) by (unfold in_int64; lia).
    destruct (Z.ltb_spec (2 ^ 63 - 1 - ns) (sec * 1000000000)); [by rewrite bool_decide_false by lia|].
    rewrite bool_decide_true by lia. by rewrite int64_id by (unfold in_int64; lia).
Qed.

Lemma phc_time_bounds :
  phcSecondsToNS "-9223372037.145224192" = inl MinInt64 /\ phcSecondsToNS "9223372036.854775808" = inr Overflow.
Proof. split; vm_compute; reflexivity. Qed.

(** The two parts [formatNS] prints. *)
Lemma formatNS_parts v : in_int64 v -> exists sec ns, formatNS v = (fmt_d sec +:+ "." +:+ fmt_09d ns)%string /\
  in_int64 sec /\ 0 <= ns < nanosecondsPerSecond /\ sec * nanosecondsPerSecond + ns = v.
Proof.
  unfold in_int64. intros Hv. unfold formatNS, nanosecondsPerSecond.
  pose proof (Z.quot_rem' v 1000000000). pose proof (Z.rem_bound_abs v 1000000000 ltac:(lia)).
  destruct (Z.ltb_spec (Z.rem v 1000000000) 0).
  - exists (Z.quot v 1000000000 - 1), (Z.rem v 1000000000 + 1000000000). rewrite !int64_id by (unfold in_int64; lia). repeat split; lia.
  - exists (Z.quot v 1000000000), (Z.rem v 1000000000). repeat split; lia.
Qed.

(** ** Corrections *)

(** The correction is exact, and refused precisely when it leaves the 64 bits. *)
Lemma correctedTime_exact t o : in_int64 t -> in_int64 o ->
  correctedTime t o = if bool_decide (in_int64 (t - o)) then inl (t - o) else inr Overflow.
Proof.
  unfold in_int64. intros Ht Ho. unfold correctedTime, MinInt64, MaxInt64.
  destruct (Z.ltb_spec 0 o); cbn [andb].
  - rewrite (int64_id (- 2 ^ 63 + o)) by (unfold in_int64; lia). destruct (Z.ltb_spec o 0); [lia|]. cbn [andb]. rewrite orb_false_r.
    destruct (Z.ltb_spec t (- 2 ^ 63 + o)); [by rewrite bool_decide_false by lia|]. rewrite bool_decide_true by lia. by rewrite int64_id by (unfold in_int64; lia).
  - destruct (Z.ltb_spec o 0); cbn [andb orb].
    + rewrite (int64_id (2 ^ 63 - 1 + o)) by (unfold in_int64; lia).
      destruct (Z.ltb_spec (2 ^ 63 - 1 + o) t); [by rewrite bool_decide_false by lia|]. rewrite bool_decide_true by lia.
      by rewrite int64_id by (unfold in_int64; lia).
    + rewrite bool_decide_true by lia. by rewrite int64_id by (unfold in_int64; lia).
Qed.


(** What [phc_ctl set] is told is read back as the same time, for every 64-bit number
    of nanoseconds (negative times included). *)
Theorem phc_time_roundtrip v : in_int64 v -> phcSecondsToNS (formatNS v) = inl v.
Proof.
  intros Hv. destruct (formatNS_parts v Hv) as (sec & ns & -> & Hs & Hn & Hsum).
  rewrite phc_time_value by done. rewrite Hsum. by rewrite bool_decide_true.
Qed.

Lemma phc_time_roundtrip_witness : in_int64 (-1) /\ phcSecondsToNS (formatNS (-1)) = inl (-1) /\ formatNS (-1) = "-1.999999999"%string.
Proof. assert (in_int64 (-1)) as H by (unfold in_int64; lia). split; [done|]. split; [by apply (phc_time_roundtrip (-1))|reflexivity]. Defined.

(** ** The measurement configuration *)

(** Every line with the section it stands in. *)
Fixpoint annotated (section : string) (lines : list string) : list (string * string) :=
  match lines with
  | [] => []
  | raw :: lines' =>
      let line := Parser.TrimSpace raw in
      match section_header line with
      | Some s => annotated s lines'
      | None => (section, line) :: annotated section lines'
      end
  end.

Definition headers (lines : list string) : list string := omap (fun raw => section_header (Parser.TrimSpace raw)) lines.

Definition port (wanted : list string) (s : string) : bool :=
  negb (str_eqb s "") && negb (not_a_port s) && bool_decide (s ∈ wanted).

(** The options that are kept for a section. *)
Definition kept (section : string) (lines : list (string * string)) : list string :=
  map snd (filter (fun l => str_eqb l.1 section && negb (skipped l.2) && negb (dropped section l.2) = true) lines).

(** The last domain the global section gives. *)
Definition domain_in (lines : list (string * string)) (d : string) : string :=
  foldl (fun d l => if str_eqb l.1 globalSectionName && negb (skipped l.2) then domain_of globalSectionName l.2 d else d) d lines.

Definition live (wanted : list string) (s : string) : string :=
  if str_eqb s globalSectionName || port wanted s then s else EmptyString.

Lemma str_eqb_spec a b : reflect (a = b) (str_eqb a b).
Proof. unfold str_eqb. apply bool_decide_reflect. Qed.

Lemma render_header wanted s st raw : section_header (Parser.TrimSpace raw) = Some s ->
  render_step wanted st raw = mkRender (live wanted s)
    (r_found st ++ (if negb (not_a_port s) && bool_decide (s ∈ wanted) then [s] else []))
    (r_global st) (r_options st) (r_domain st).
Proof.
  intros Hh. unfold render_step. rewrite Hh. unfold live, port, not_a_port. destruct st as [sec f g o d]. cbn.
  destruct (str_eqb_spec s globalSectionName) as [->|H1]; cbn; [by rewrite app_nil_r|].
  destruct (str_eqb s nmeaSectionName), (str_eqb s unicastMasterTableSectionName), (bool_decide (s ∈ wanted)); cbn; rewrite ?app_nil_r, ?andb_false_r; try done.
  destruct (str_eqb_spec s "") as [->|]; done.
Qed.

Definition keeps (section sec line : string) : list string :=
  if str_eqb sec section && negb (skipped line) && negb (dropped section line) then [line] else [].

Lemma kept_cons section s l lines :
  kept section ((s, l) :: lines) =
    keeps section s l ++ kept section lines.
Proof. unfold kept, keeps. rewrite filter_cons. cbn [fst snd]. by destruct (str_eqb s section), (skipped l), (dropped section l). Qed.

Lemma domain_of_kept s line d : dropped s line = false -> domain_of s line d = d.
Proof.
  unfold dropped, domain_of. destruct (Conf.Fields line) as [|k [|v [|]]]; try done. intros Hd.
  destruct (str_eqb k "domainNumber"); [|done]. by rewrite orb_true_r in Hd.
Qed.

Lemma domain_of_elsewhere s line d : s <> globalSectionName -> domain_of s line d = d.
Proof.
  intros Hs. unfold domain_of. destruct (Conf.Fields line) as [|k [|v [|]]]; try done.
  destruct (str_eqb_spec s globalSectionName); [done|]. by rewrite andb_false_r.
Qed.

Lemma port_names wanted i : port wanted i = true -> i <> ""%string /\ i <> globalSectionName.
Proof. unfold port, not_a_port. destruct (str_eqb_spec i ""), (str_eqb_spec i globalSectionName); done. Qed.

Definition line_step (st : render_state) (line : string) : render_state :=
  if skipped line || str_eqb (r_section st) "" then st
  else if dropped (r_section st) line then st <| r_domain := domain_of (r_section st) line (r_domain st) |>
  else if str_eqb (r_section st) globalSectionName then st <| r_global := r_global st ++ [line] |>
  else st <| r_options := <[r_section st := options_of (r_section st) st ++ [line]]> (r_options st) |>.

Lemma render_plain wanted st raw : section_header (Parser.TrimSpace raw) = None ->
  render_step wanted st raw = line_step st (Parser.TrimSpace raw).
Proof. intros Hh. unfold render_step. by rewrite Hh. Qed.

(** The effect of one line that opens no section. *)
Lemma render_line wanted sec st line : r_section st = live wanted sec ->
  let st1 := line_step st line in
  r_section st1 = r_section st /\ r_found st1 = r_found st /\
  r_global st1 = r_global st ++ keeps globalSectionName sec line /\
  r_domain st1 = (if str_eqb sec globalSectionName && negb (skipped line) then domain_of globalSectionName line (r_domain st) else r_domain st) /\
  (forall i, port wanted i = true -> options_of i st1 = options_of i st ++ keeps i sec line).
Proof.
  intros Hsec. unfold line_step, keeps. rewrite Hsec. destruct (skipped line); cbn [orb negb].
  { rewrite !andb_false_r. cbn. rewrite !app_nil_r. split_and!; try done. intros i _. rewrite andb_false_r. cbn. by rewrite app_nil_r. }
  unfold live. rewrite !andb_true_r. destruct (str_eqb_spec sec globalSectionName) as [->|Hg]; cbn [orb].
  { change (str_eqb globalSectionName "") with false. change (str_eqb globalSectionName globalSectionName) with true.
    assert (forall i, port wanted i = true -> str_eqb globalSectionName i = false) as Hne.
    { intros i [_ Hi]%port_names. by destruct (str_eqb_spec globalSectionName i). }
    destruct (dropped globalSectionName line) eqn:Hd; cbn; rewrite ?app_nil_r; split_and!; try done;
      try (intros i Hi; rewrite Hne by done; cbn; by rewrite app_nil_r). by rewrite domain_of_kept. }
  destruct (port wanted sec) eqn:Hp.
  - destruct (port_names _ _ Hp) as [H1 _]. destruct (str_eqb_spec sec ""); [done|]. destruct (str_eqb_spec sec globalSectionName); [done|].
    assert (r_section st = sec) as Hs by (rewrite Hsec; unfold live; rewrite Hp, orb_true_r; done).
    destruct (dropped sec line) eqn:Hd; cbn; rewrite ?app_nil_r; split_and!; try done; [by apply domain_of_elsewhere| |]; intros i Hi;
      destruct (str_eqb_spec sec i) as [<-|Hne]; cbn; rewrite ?Hd, ?app_nil_r; try done; unfold options_of; cbn.
    + by rewrite lookup_insert_eq.
    + by rewrite lookup_insert_ne.
  - assert (r_section st = EmptyString) as Hs.
    { rewrite Hsec. unfold live. rewrite Hp. by destruct (str_eqb_spec sec globalSectionName). }
    change (str_eqb "" "") with true. cbn. rewrite app_nil_r. split_and!; try done. intros i Hi.
    destruct (str_eqb_spec sec i) as [->|]; [congruence|]. cbn. by rewrite app_nil_r.
Qed.

(** What the scan holds after some lines, from any state whose current section is the one
    of [sec] when that is of interest. *)
Lemma scan_spec wanted lines : forall sec st, r_section st = live wanted sec ->
  let st' := foldl (render_step wanted) st lines in
  r_found st' = r_found st ++ filter (fun s => negb (not_a_port s) && bool_decide (s ∈ wanted) = true) (headers lines) /\
  r_global st' = r_global st ++ kept globalSectionName (annotated sec lines) /\
  r_domain st' = domain_in (annotated sec lines) (r_domain st) /\
  (forall i, port wanted i = true -> options_of i st' = options_of i st ++ kept i (annotated sec lines)).
Proof.
  induction lines as [|raw lines IH]; intros sec st Hsec; cbn [foldl annotated].
  { unfold kept. cbn. rewrite !app_nil_r. repeat split. intros i _. by rewrite app_nil_r. }
  unfold headers. cbn [omap list_omap]. fold (headers lines). set (line := Parser.TrimSpace raw).
  destruct (section_header line) as [s|] eqn:Hh.
  - rewrite (render_header _ s) by done.
    destruct (IH s (mkRender (live wanted s) (r_found st ++ (if negb (not_a_port s) && bool_decide (s ∈ wanted) then [s] else []))
      (r_global st) (r_options st) (r_domain st)) eq_refl) as (Hf & Hg & Hd & Ho).
    split_and!; [|by rewrite Hg|by rewrite Hd|intros i Hi; by rewrite (Ho i Hi)].
    rewrite Hf. cbn [r_found]. rewrite filter_cons, <- app_assoc. f_equal. by destruct (negb (not_a_port s) && bool_decide (s ∈ wanted)).
  - rewrite (render_plain _ _ _ Hh). fold line.
    destruct (render_line wanted sec st line Hsec) as (Hs1 & Hf1 & Hg1 & Hd1 & Ho1).
    destruct (IH sec (line_step st line) ltac:(congruence)) as (Hf & Hg & Hd & Ho). split_and!.
    + by rewrite Hf, Hf1.
    + by rewrite Hg, Hg1, kept_cons, <- app_assoc.
    + rewrite Hd, Hd1. done.
    + intros i Hi. by rewrite (Ho i Hi), (Ho1 i Hi), kept_cons, <- app_assoc.
Qed.


Lemma scan_values conf wanted :
  let lines := Conf.split_on Conf.newline_char conf in
  let st := scan conf wanted in
  r_found st = filter (fun s => negb (not_a_port s) && bool_decide (s ∈ wanted) = true) (headers lines) /\
  r_global st = kept globalSectionName (annotated EmptyString lines) /\
  r_domain st = domain_in (annotated EmptyString lines) "0" /\
  (forall i, port wanted i = true -> options_of i st = kept i (annotated EmptyString lines)).
Proof.
  cbn zeta. destruct (scan_spec wanted (Conf.split_on Conf.newline_char conf) EmptyString render_start) as (Hf & Hg & Hd & Ho).
  - unfold live, port. by destruct (_ && _).
  - by repeat split.
Qed.

(** The configuration ptp4l measures with, stated without the scan: the fixed header with
    the profile's domain, the global options that are kept, then each interface with the
    options the profile gives it, in the order of [interfaces]. *)
Definition measurement_config (conf : string) (interfaces : list string) (pid : Z) : string :=
  let lines := annotated EmptyString (Conf.split_on Conf.newline_char conf) in
  (join newline (measurement_header (domain_in lines "0") pid ++ kept globalSectionName lines
    ++ flat_map (fun i => ("[" +:+ i +:+ "]")%string :: kept i lines) interfaces) +:+ newline)%string.

Lemma first_match_in {A} (p q : A -> bool) l : (forall x, x ∈ l -> p x = q x) -> first_match p l = first_match q l.
Proof.
  induction l as [|x l IH]; intros H; cbn; [done|]. rewrite (H x (list_elem_of_here _ _)). destruct (q x); [done|].
  apply IH. intros y Hy. apply H. by right.
Qed.

Lemma flat_map_in {A B} (f g : A -> list B) l : (forall x, x ∈ l -> f x = g x) -> flat_map f l = flat_map g l.
Proof.
  induction l as [|x l IH]; intros H; cbn; [done|]. rewrite (H x (list_elem_of_here _ _)). f_equal.
  apply IH. intros y Hy. apply H. by right.
Qed.

(** [renderMeasurementConfig] computes the reference configuration of
    [measurement_config], however the sections are spread over the file, and fails on the
    first interface that has no section. *)
Theorem measurement_rendered p conf interfaces pid :
  Ptp4lConf p = Some conf -> Forall (fun i => i <> ""%string /\ not_a_port i = false) interfaces ->
  renderMeasurementConfig p interfaces pid =
    match first_match (fun i => negb (bool_decide (i ∈ headers (Conf.split_on Conf.newline_char conf)))) interfaces with
    | Some i => inr (NoSection i)
    | None => inl (measurement_config conf interfaces pid)
    end.
Proof.
  intros Hc Hi. unfold renderMeasurementConfig. rewrite Hc. destruct (scan_values conf interfaces) as (Hf & Hg & Hd & Ho).
  assert (forall i, i ∈ interfaces -> port interfaces i = true) as Hp.
  { intros i Hin. rewrite Forall_forall in Hi. destruct (Hi i Hin) as [Hne Hport]. unfold port. rewrite Hport, bool_decide_true by done.
    by destruct (str_eqb_spec i ""). }
  assert (first_match (fun i => negb (bool_decide (i ∈ r_found (scan conf interfaces)))) interfaces =
          first_match (fun i => negb (bool_decide (i ∈ headers (Conf.split_on Conf.newline_char conf)))) interfaces) as ->.
  { apply first_match_in. intros i Hin. f_equal. apply bool_decide_ext. rewrite Hf, list_elem_of_filter.
    pose proof (Hp i Hin) as Hpi. unfold port in Hpi. apply andb_prop in Hpi as [[_ Hn]%andb_prop Hw]. rewrite Hn, Hw. cbn. tauto. }
  destruct (first_match _ _); [done|]. unfold measurement_config. rewrite Hg, Hd. do 5 f_equal.
  apply flat_map_in. intros i Hin. by rewrite Ho by auto.
Qed.

Lemma measurement_rendered_witness :
  let conf := join newline ["[global]"; "domainNumber 24"; "slaveOnly 0"; "logging 6"; "[ens1f0]"; "masterOnly 0"; "[ens1f1]"; "masterOnly 1"]%string in
  renderMeasurementConfig (no_profile <| Ptp4lConf := Some conf |>) ["ens1f0"%string] 7 =
  inl (join newline ["[global]"; "slaveOnly 1"; "free_running 1"; "domainNumber 24"; "summary_interval -4";
    "uds_address /tmp/phc-first-step-7.socket"; "logging 6"; "[ens1f0]"; "masterOnly 0"; ""]%string).
Proof.
  cbn zeta. etransitivity; [apply measurement_rendered; [reflexivity|by repeat constructor]|]. vm_compute. reflexivity.
Defined.

(** ** The adjustments *)

Definition stepped (phc : string) (cs : list command) : list string :=
  omap (fun c => match c with SetTime p t => if decide (p = phc) then Some t else None | _ => None end) cs.

(** A measurement that took a sample runs ptp4l and nothing else, unless the file fails. *)
Lemma measured p ifaces timeout pid a v : sample_of (a_lines a) = Some v ->
  (exists c, measureOffset p ifaces timeout pid a = ([Measure c (measure_args ifaces)], inl v)) \/
  (exists cs e, measureOffset p ifaces timeout pid a = (cs, inr e)).
Proof.
  intros Hs. unfold measureOffset. rewrite Hs. destruct (a_create a); [|right; by do 2 eexists]. cbn [negb].
  destruct (renderMeasurementConfig p ifaces pid); [|right; by do 2 eexists].
  destruct (negb (a_write a) || negb (a_close a)); [right; by do 2 eexists|left; by eexists].
Qed.

(** C26. What a successful update leaves behind.  Let [o k] be the true offset of the
    clock at measurement [k], [e k] the error of that measurement, [d k] the time between
    reading the clock and setting it.  The clock is set once or twice, to what [formatNS]
    prints of the reading less the measured offset; after the first step a measurement
    within a second ends the update, and otherwise the clock ends within the error and the
    delay of the second step. *)
Theorem phc_stepped p ifaces phc timeout pid answers cs (o e d t : nat -> Z) :
  updatePHC p ifaces phc timeout pid answers = (cs, inl tt) ->
  (forall k, in_int64 (t k) /\ in_int64 (o k + e k)) ->
  (forall k, (k < 2)%nat -> sample_of (a_lines (answers k)) = Some (o k + e k)) ->
  (forall k, (k < 2)%nat -> readPHCTime (answers k) = inl (t k)) ->
  (forall k, o (S k) = (t k - (o k + e k)) - (t k - o k + d k)) ->
  (stepped phc cs = [formatNS (t 0%nat - (o 0%nat + e 0%nat))] /\ Z.abs (o 1%nat) <= residualOffsetThreshold + Z.abs (e 1%nat)) \/
  (stepped phc cs = [formatNS (t 0%nat - (o 0%nat + e 0%nat)); formatNS (t 1%nat - (o 1%nat + e 1%nat))] /\
   Z.abs (o 2%nat) <= Z.abs (e 1%nat) + Z.abs (d 1%nat)).
Proof.
  intros Hu Hr Hm Ht Ho. unfold updatePHC in Hu. cbn [adjust] in Hu.
  destruct (measured p ifaces timeout pid (answers 0%nat) _ (Hm 0%nat ltac:(lia))) as [[c0 E0]|[x [er Hx]]]; [|rewrite Hx in Hu; done].
  rewrite E0 in Hu. cbn [Nat.ltb Nat.leb andb] in Hu. rewrite Ht in Hu by lia. rewrite correctedTime_exact in Hu by apply Hr.
  destruct (bool_decide_reflect (in_int64 (t 0%nat - (o 0%nat + e 0%nat)))) as [Hb0|]; [|done].
  destruct (a_set (answers 0%nat)); [|done]. cbn [negb] in Hu.
  destruct (measured p ifaces timeout pid (answers 1%nat) _ (Hm 1%nat ltac:(lia))) as [[c1 E1]|[x [er Hx]]]; [|rewrite Hx in Hu; done].
  rewrite E1 in Hu. cbn [Nat.ltb Nat.leb andb] in Hu. rewrite Ht in Hu by lia. rewrite correctedTime_exact in Hu by apply Hr.
  destruct ((o 1%nat + e 1%nat <=? residualOffsetThreshold) && (- residualOffsetThreshold <=? o 1%nat + e 1%nat)) eqn:Hth.
  - left. injection Hu as <-. unfold stepped. cbn. rewrite decide_True by done. split; [done|]. lia.
  - right. destruct (bool_decide_reflect (in_int64 (t 1%nat - (o 1%nat + e 1%nat)))); [|done].
    destruct (a_set (answers 1%nat)); [|done]. cbn [negb] in Hu. injection Hu as <-. unfold stepped. cbn.
    rewrite !decide_True by done. split; [done|]. pose proof (Ho 1%nat). lia.
Qed.

Definition example_answers (k : nat) : Answers :=
  mkAnswers true true true
    (match k with
     | 0%nat => ["ptp4l[1.0]: port 1: LISTENING"; "ptp4l[2.0]: master offset 2000000000 s0 freq +0 path delay 10"]
     | _ => ["ptp4l[3.0]: master offset -1000 s0 freq +0 path delay 10"]
     end)%string
    false true
    (Some (match k with 0%nat => "phc_ctl[9.1]: clock time is 5.000000000 or Thu Jan  1" | _ => "phc_ctl[9.2]: clock time is 7.000000000" end)%string)
    true.

Definition example_profile : PtpProfile :=
  no_profile <| Ptp4lConf := Some (join newline ["[global]"; "[ens1f0]"; "masterOnly 0"]%string) |>.

Lemma phc_stepped_witness :
  let cs := (updatePHC example_profile ["ens1f0"%string] "/dev/ptp0" 0 7 example_answers).1 in
  (stepped "/dev/ptp0" cs = ["3.000000000"%string] /\ Z.abs (-1000) <= residualOffsetThreshold + Z.abs 0) \/
  (stepped "/dev/ptp0" cs = ["3.000000000"; "7.000001000"]%string /\ Z.abs (-1000) <= Z.abs 0 + Z.abs 1000).
Proof.
  cbn zeta.
  apply (phc_stepped example_profile ["ens1f0"%string] "/dev/ptp0" 0 7 example_answers _
    (fun k => match k with 0%nat => 2000000000 | _ => -1000 end) (fun _ => 0) (fun _ => 1000)
    (fun k => match k with 0%nat => 5000000000 | _ => 7000000000 end)).
  - vm_compute. reflexivity.
  - intros k. split; destruct k; unfold in_int64; lia.
  - intros [|[|k]] Hk; [vm_compute; reflexivity..|lia].
  - intros [|[|k]] Hk; [vm_compute; reflexivity..|lia].
  - intros [|k]; lia.
Defined.

End PhcStep.
