(* ===== verification/Plugin.v ===== *)
(** * pkg/plugin, addons/generic and the registration of plug-ins

    The plug-in manager (pkg/plugin/plugin.go), how plug-ins are registered
    (addons/mapping.go, pkg/daemon/plugin.go), the plug-in [reference]
    (addons/generic/generic.go) and [ntpfailover] (addons/generic/ntpfailover.go), which
    tells when the GNSS source of ts2phc is lost by the time since its last locked offset.
    A manager is the list of its plug-ins with their data in the order of a range over the
    map; times and durations are nanoseconds. *)

From S2P Require Import Prelude Regex Parser PtpConfig Json Duration PhcStep.

Module Plugin.

Import PtpConfig.

(** ** The manager *)

Section Manager.
Context {D : Type}.

Record Plugin := mkPlugin {
  RunsWithHardwareConfig : bool;
  OnPTPConfigChange : option (D -> PtpProfile -> D * PtpProfile * bool);
  AfterRunPTPCommand : option (D -> PtpProfile -> string -> D);
  PopulateHwConfig : option (D -> list (string * string) -> list (string * string));
  ProcessLog : option (D -> string -> string -> D * string)
}.

Definition PluginManager : Type := list (string * (Plugin * D)).

(** The names of the plug-ins that failed are the errors; [true] of a handler is nil. *)
Fixpoint onPTPConfigChange (selected : Plugin -> bool) (pm : PluginManager) (p : PtpProfile) : PluginManager * PtpProfile * list string :=
  match pm with
  | [] => ([], p, [])
  | (name, (pl, d)) :: pm' =>
      match (if selected pl then OnPTPConfigChange pl else None) with
      | None =>
          let '(rest, p', errs) := onPTPConfigChange selected pm' p in
          ((name, (pl, d)) :: rest, p', errs)
      | Some f =>
          let '(d', p1, ok) := f d p in
          let '(rest, p', errs) := onPTPConfigChange selected pm' p1 in
          ((name, (pl, d')) :: rest, p', (if ok then [] else [name]) ++ errs)
      end
  end.

Definition OnPTPConfigChange_all (pm : PluginManager) (p : PtpProfile) := onPTPConfigChange (fun _ => true) pm p.
Definition OnPTPConfigChangeWithHardwareConfig (pm : PluginManager) (p : PtpProfile) := onPTPConfigChange RunsWithHardwareConfig pm p.
Definition OnPTPConfigChangeWithoutHardwareConfig (pm : PluginManager) (p : PtpProfile) :=
  onPTPConfigChange (fun pl => negb (RunsWithHardwareConfig pl)) pm p.

Definition AfterRun (pm : PluginManager) (p : option PtpProfile) (command : string) : PluginManager :=
  match p with
  | None => pm
  | Some p => map (fun '(name, (pl, d)) => (name, (pl, match AfterRunPTPCommand pl with Some f => f d p command | None => d end))) pm
  end.

Definition Populate (pm : PluginManager) (hwconfigs : list (string * string)) : list (string * string) :=
  foldl (fun l '(_, (pl, d)) => match PopulateHwConfig pl with Some f => f d l | None => l end) hwconfigs pm.

Fixpoint ProcessLog_all (pm : PluginManager) (pname log : string) : PluginManager * string :=
  match pm with
  | [] => ([], log)
  | (name, (pl, d)) :: pm' =>
      let '(d', log') := match ProcessLog pl with Some f => f d pname log | None => (d, log) end in
      let '(rest, out) := ProcessLog_all pm' pname log' in
      ((name, (pl, d')) :: rest, out)
  end.

(** ** Registration *)

(** The plug-ins of the mapping: each constructor accepts its own name only. *)
Context (construct : string -> option (Plugin * D)).

Definition PluginMapping : list string := ["reference"; "ntpfailover"; "phc-first-step"; "e810"; "e825"; "e830"]%string.

Definition registerPlugin (name : string) : option (Plugin * D) :=
  if bool_decide (name ∈ PluginMapping) then construct name else None.

Fixpoint set_plugin (name : string) (x : Plugin * D) (pm : PluginManager) : PluginManager :=
  match pm with [] => [(name, x)] | (n, y) :: pm' => if str_eqb n name then (n, x) :: pm' else (n, y) :: set_plugin name x pm' end.

Definition register_step (acc : PluginManager * list string) (name : string) : PluginManager * list string :=
  match registerPlugin name with
  | Some x => (set_plugin name x acc.1, acc.2)
  | None => (acc.1, acc.2 ++ [name])
  end.

Definition registerPlugins (plugins : list string) : PluginManager * list string := foldl register_step ([], []) plugins.
End Manager.

Arguments Plugin : clear implicits.
Arguments PluginManager : clear implicits.

(** ** The plug-in [reference] *)

(** The options as [json.Marshal] gives them; the inner [None] is text that is no JSON. *)
Definition options_of (name : string) (p : PtpProfile) : option (option Json.json) :=
  m ← Plugins p;
  raw ← m !! name;
  Some (match raw with None => Some Json.JNull | Some s => if str_eqb s "" then Some Json.JNull else Json.parse s end).

(** The options as a string, and whether they could be read. *)
Definition reference_options (p : PtpProfile) : string * bool :=
  match options_of "reference" p with
  | None => (EmptyString, true)
  | Some j => match j ← j; Json.into_string j EmptyString with Some s => (s, true) | None => (EmptyString, false) end
  end.

Definition OnPTPConfigChangeGeneric (referenceString : string) (p : PtpProfile) : string * PtpProfile * bool :=
  let '(opts, ok) := reference_options p in
  (if str_eqb opts "" then referenceString else opts, p, ok).

Definition PopulateHwConfigGeneric (referenceString : string) (l : list (string * string)) : list (string * string) :=
  l ++ [("reference"%string, referenceString)].

Definition AfterRunPTPCommandGeneric (p : option PtpProfile) : bool := match p with None => false | Some p => (reference_options p).2 end.

Definition Reference : Plugin string :=
  mkPlugin false (Some OnPTPConfigChangeGeneric) (Some (fun d _ _ => d)) (Some PopulateHwConfigGeneric) None.

(** ** The plug-in [ntpfailover] *)

Inductive pcfsm := StartupDefault | Active | OutOfSpec | Failover.

Inductive Event := GnssRecovered | GnssFailover.

(** [hasChannel] is whether there is a channel for events. *)
Record ntpFailoverPluginData := mkData {
  gnssFailover : bool;
  hasChannel : bool;
  pcfsmState : pcfsm;
  ts2phcTolerance : Z;
  startupDelay : Z;
  expiryTime : Z
}.
#[export] Instance ntpFailover_fields : Fields ntpFailoverPluginData := fun d =>
  mkData (gnssFailover d) (hasChannel d) (pcfsmState d) (ts2phcTolerance d) (startupDelay d) (expiryTime d).

Definition NtpFailover : ntpFailoverPluginData := mkData false false StartupDefault 0 0 0.

Record ntpFailoverOpts := mkOpts { oStartupDelay : string; oTs2phcTolerance : string; oGnssFailover : bool }.
#[export] Instance ntpFailoverOpts_fields : Fields ntpFailoverOpts := fun o => mkOpts (oStartupDelay o) (oTs2phcTolerance o) (oGnssFailover o).

(** A member of a wrong type is reported once all others are set. *)
Definition set_opt (o : ntpFailoverOpts) (m : string * Json.json) : ntpFailoverOpts :=
  if Json.names "startupDelay" m.1 then o <| oStartupDelay := default (oStartupDelay o) (Json.into_string m.2 (oStartupDelay o)) |>
  else if Json.names "ts2phcTolerance" m.1 then o <| oTs2phcTolerance := default (oTs2phcTolerance o) (Json.into_string m.2 (oTs2phcTolerance o)) |>
  else if Json.names "gnssFailover" m.1 then o <| oGnssFailover := default (oGnssFailover o) (Json.into_bool m.2 (oGnssFailover o)) |>
  else o.

Definition read_opts (p : PtpProfile) : ntpFailoverOpts :=
  let dflt := mkOpts "90s" "5s" false in
  match options_of "ntpfailover" p with Some (Some (Json.JObj l)) => foldl set_opt dflt l | _ => dflt end.

Definition second : Z := 1000000000.

Definition onPTPConfigChangeNtpFailover (now : Z) (d : ntpFailoverPluginData) (p : PtpProfile) : ntpFailoverPluginData :=
  let o := read_opts p in
  let delay := default (90 * second) (Duration.ParseDuration (oStartupDelay o)) in
  d <| gnssFailover := oGnssFailover o |> <| startupDelay := delay |> <| expiryTime := now + delay |>
    <| ts2phcTolerance := default (5 * second) (Duration.ParseDuration (oTs2phcTolerance o)) |>.

Definition setEventChannelNtpFailover (d : ntpFailoverPluginData) : ntpFailoverPluginData := d <| hasChannel := true |>.

Definition ts2phcOffsetRegex : Regex.Regexp := Eval vm_compute in Parser.pattern "offset .*s3 freq".
Definition ts2phcPname : string := "ts2phc".

(** One pass of the loop: the next state with the event, or the end.  [expiry] is what the
    pass reads, since other calls move it. *)
Definition fsm_pass (ts2phc : bool) (now expiry : Z) (s : pcfsm) : option (pcfsm * list Event) :=
  match s with
  | StartupDefault => Some (Active, [GnssRecovered])
  | Active => if ts2phc && (expiry <? now) then Some (OutOfSpec, []) else None
  | OutOfSpec => if ts2phc && (expiry <? now) then Some (Failover, [GnssFailover]) else None
  | Failover => if ts2phc && (now <? expiry) then Some (StartupDefault, [GnssRecovered]) else None
  end.

(** [expiry k] is what pass [k] reads; [None] when the passes do not suffice. *)
Fixpoint fsm_loop (fuel : nat) (k : nat) (ts2phc : bool) (now : Z) (expiry : nat -> Z) (s : pcfsm) : option (pcfsm * list Event) :=
  match fuel with
  | O => None
  | S fuel' =>
      match fsm_pass ts2phc now (expiry k) s with
      | None => Some (s, [])
      | Some (s', es) => '(s'', es') ← fsm_loop fuel' (S k) ts2phc now expiry s'; Some (s'', es ++ es')
      end
  end.

Definition fsm_fuel : nat := 6.

(** A call alone: the log line is returned as it is. *)
Definition processLogNtpFailover (now : Z) (d : ntpFailoverPluginData) (pname log : string) : ntpFailoverPluginData * list Event :=
  if gnssFailover d then
    let ts2phc := str_eqb pname ts2phcPname in
    let d := if ts2phc && Regex.MatchString ts2phcOffsetRegex log then d <| expiryTime := now + ts2phcTolerance d |> else d in
    match fsm_loop fsm_fuel 0 ts2phc now (fun _ => expiryTime d) (pcfsmState d) with
    | Some (s, es) => (d <| pcfsmState := s |>, if hasChannel d then es else [])
    | None => (d, [])
    end
  else (d, []).


(** * Properties *)

(** ** Termination *)

(** Once the expiry is not before the time of the call it stays there. *)
Definition grows (expiry : nat -> Z) : Prop := forall k, expiry k <= expiry (S k).

(** However other calls move the expiry forward while a call drives the machine, the
    loop of [processLogNtpFailover] ends, within six passes. *)
Theorem failover_loop_ends ts2phc now expiry s : grows expiry -> is_Some (fsm_loop fsm_fuel 0 ts2phc now expiry s).
Proof.
  intros Hg. pose proof (Hg 0%nat). pose proof (Hg 1%nat). pose proof (Hg 2%nat). pose proof (Hg 3%nat). pose proof (Hg 4%nat).
  unfold fsm_fuel. destruct ts2phc; [|destruct s; cbn; by eauto].
  destruct s; cbn -[Z.ltb];
    repeat (match goal with |- context [?a <? ?b] => destruct (Z.ltb_spec a b); cbn -[Z.ltb]; try lia end); by eauto.
Qed.

Lemma failover_loop_ends_witness : grows (fun k => Z.of_nat k) /\ is_Some (fsm_loop fsm_fuel 0 true 2 (fun k => Z.of_nat k) Active).
Proof.
  assert (grows (fun k => Z.of_nat k)) as Hg by (intros k; lia). split; [exact Hg|]. by apply (failover_loop_ends true 2 _ Active).
Defined.

(** ** What the plug-in tells *)

















(** A stale source is not confirmed by a second line: one line goes from [Active] to
    [Failover]. *)
Lemma failover_unconfirmed d now log :
  gnssFailover d = true -> hasChannel d = true -> pcfsmState d = Active -> expiryTime d < now ->
  Regex.MatchString ts2phcOffsetRegex log = false ->
  processLogNtpFailover now d ts2phcPname log = (d <| pcfsmState := Failover |>, [GnssFailover]).
Proof.
  intros Hg Hc Hs He Hr. unfold processLogNtpFailover. rewrite Hg, Hr. change (str_eqb ts2phcPname ts2phcPname) with true. cbn [andb].
  rewrite Hs. unfold fsm_fuel. cbn -[Z.ltb]. rewrite (proj2 (Z.ltb_lt _ _) He). cbn -[Z.ltb]. rewrite (proj2 (Z.ltb_lt _ _) He).
  cbn -[Z.ltb]. destruct (Z.ltb_spec now (expiryTime d)); [lia|]. cbn. by rewrite Hc.
Qed.

(** A recovery is told twice: once when [Failover] is left and once more by the first state,
    which the same call passes through. *)
Lemma recovery_told_twice d now log :
  gnssFailover d = true -> hasChannel d = true -> pcfsmState d = Failover -> now < expiryTime d ->
  Regex.MatchString ts2phcOffsetRegex log = false ->
  processLogNtpFailover now d ts2phcPname log = (d <| pcfsmState := Active |>, [GnssRecovered; GnssRecovered]).
Proof.
  intros Hg Hc Hs He Hr. unfold processLogNtpFailover. rewrite Hg, Hr. change (str_eqb ts2phcPname ts2phcPname) with true. cbn [andb].
  rewrite Hs. unfold fsm_fuel. cbn -[Z.ltb]. rewrite (proj2 (Z.ltb_lt _ _) He). cbn -[Z.ltb].
  destruct (Z.ltb_spec (expiryTime d) now); [lia|]. cbn. by rewrite Hc.
Qed.

(** The first line of any program tells that the source recovered, before ts2phc wrote one. *)
Lemma recovered_at_start now d log : gnssFailover d = true -> hasChannel d = true -> pcfsmState d = StartupDefault ->
  (processLogNtpFailover now d "ptp4l" log).2 = [GnssRecovered].
Proof. intros Hg Hc Hs. unfold processLogNtpFailover. rewrite Hg. change (str_eqb "ptp4l" ts2phcPname) with false. cbn [andb]. rewrite Hs. cbn. by rewrite Hc. Qed.

(** ** Registration *)

Section Registration.
Context {D : Type} (construct : string -> option (Plugin D * D)).

Lemma names_set name x (pm : PluginManager D) : map fst (set_plugin name x pm) = if bool_decide (name ∈ map fst pm) then map fst pm else map fst pm ++ [name].
Proof.
  induction pm as [|[n y] pm IH]; cbn; [done|]. destruct (PhcStep.str_eqb_spec n name) as [->|Hn]; cbn.
  - rewrite bool_decide_true by (by left). done.
  - rewrite IH. destruct (decide (name ∈ map fst pm)).
    + rewrite !bool_decide_true by (try right; done). done.
    + rewrite !bool_decide_false; [done| |done]. intros [->|?]%elem_of_cons; done.
Qed.

Definition known (name : string) : bool := bool_decide (is_Some (registerPlugin construct name)).

Lemma register_names names : forall acc,
  let r := foldl (register_step construct) acc names in
  (forall n, n ∈ map fst r.1 <-> n ∈ map fst acc.1 \/ (n ∈ names /\ known n = true)) /\
  r.2 = acc.2 ++ List.filter (fun n => negb (known n)) names.
Proof.
  induction names as [|name names IH]; intros acc; cbn [foldl].
  { split; [|by rewrite app_nil_r]. intros n. split; [by left|]. intros [?|[?%elem_of_nil _]]; done. }
  destruct (IH (register_step construct acc name)) as [H1 H2]. cbn zeta in *. split.
  - intros n. rewrite H1, elem_of_cons. unfold register_step. destruct (registerPlugin construct name) as [x|] eqn:E; cbn [fst].
    + assert (known name = true) as Hk by (unfold known; rewrite E; by apply bool_decide_true).
      rewrite names_set. case_bool_decide as Hin; rewrite ?elem_of_app, ?list_elem_of_singleton; naive_solver.
    + assert (known name = false) as Hk by (unfold known; rewrite E; apply bool_decide_false; by intros [? ?]). naive_solver congruence.
  - rewrite H2. unfold register_step. cbn [List.filter].
    destruct (registerPlugin construct name) as [x|] eqn:E; cbn [snd].
    + assert (known name = true) as -> by (unfold known; rewrite E; by apply bool_decide_true). done.
    + assert (known name = false) as -> by (unfold known; rewrite E; apply bool_decide_false; by intros [? ?]). cbn. by rewrite <- app_assoc.
Qed.
End Registration.

End Plugin.
