(* ===== verification/IntelPins.v ===== *)
(** * addons/intel: files, pins and clock identifiers

    The operations the plug-ins of Intel cards share: what they read and write below
    /sys/class/net (common.go, pinConfig.go), the cache of DPLL pins and the commands made
    for them (dpllPins.go, clock-chain.go) and the clock identifier of a card (clockID.go).
    Writes, commands and dumps are recorded in order; what they answer is decided outside,
    knowing what was done before.  The cache holds pointers: making a command writes the
    directions it asks for into the pin it was made for. *)

From S2P Require Import Prelude Strconv Parser PtpConfig Conf Paths Json UbloxCmd Leap Netlink HwTypes.
From Stdlib Require Import Ascii.

Module IntelPins.

Import Netlink Hw.
#[local] Existing Instance PtpConfig.PtpProfile_fields.

(** ** The world of a plug-in *)

Inductive ClockChainType := ClockTypeUnset | ClockTypeTGM | ClockTypeTBC.

Record CardInfo := mkCard { cardName : string; DpllClockID : Z; UpstreamPort : string }.
#[export] Instance CardInfo_fields : Fields CardInfo := fun c => mkCard (cardName c) (DpllClockID c) (UpstreamPort c).

Record ClockChain := mkChain { chType : ClockChainType; LeadingNIC : CardInfo; OtherNICs : list CardInfo }.
#[export] Instance ClockChain_fields : Fields ClockChain := fun c => mkChain (chType c) (LeadingNIC c) (OtherNICs c).

Definition no_card : CardInfo := mkCard "" 0 "".
Definition no_chain : ClockChain := mkChain ClockTypeUnset no_card [].

Inductive Effect :=
| Wrote (path value : string)
| BatchPinSet (commands : list PinParentDeviceCtl)
| FetchPins
| DialDpll
| PinPhaseAdjust (id delay : Z)
| DumpDevices
| DumpPins
| SetAllowedLeapSources (ids : list Z)
| RunUblxCmds (commands : list UbloxCmd.Command).

(** [dpllPins] is the cache [DpllPins], [chain] the variable [clockChain], [profile] what
    the plug-in was given and changes; the last three are the data of a plug-in. *)
Record World := mkWorld {
  dpllPins : list PinInfo;
  chain : ClockChain;
  profile : PtpConfig.PtpProfile;
  log : list Effect;
  hwplugins : list string;
  inventory_pins : option (list PinInfo);
  inventory_devices : option (list DoDeviceGetReply)
}.

#[export] Instance World_fields : Fields World := fun w =>
  mkWorld (dpllPins w) (chain w) (profile w) (log w) (hwplugins w) (inventory_pins w) (inventory_devices w).

(** A parsed configuration of package configparser; [conf_get] is the empty string when the
    option is missing. *)
Record ConfigParser := mkConfig { HasSection : string -> bool; conf_get : string -> string -> string; Sections : list string }.

(** What is outside: the files, whether an effect succeeds after the ones before it, what
    a dump returns ([None] is a nil slice), the commands that are run, the GNSS device of an
    interface (modelled in GnssDevice.v) and the parser of configurations. *)
Class Env := {
  ReadDir : string -> option (list string);
  ReadFile : string -> option (list Z);
  Readlink : string -> option string;
  accepts : list Effect -> Effect -> bool;
  pins_dumped : list Effect -> option (list PinInfo);
  devices_dumped : list Effect -> option (list DoDeviceGetReply);
  devlink_info : string -> option string;
  ublx_results : list Effect -> list string;
  has_leap_manager : bool;
  gnss_device : string -> option string;
  parse_config : string -> option ConfigParser
}.

(** ** The monad *)

Definition M (A : Type) : Type := World -> outcome A * World.

Definition ret {A} (a : A) : M A := fun w => (Ok a, w).
Definition fail {A} : M A := fun w => (Err, w).
Definition panic {A} : M A := fun w => (Panic, w).
Definition get {A} (f : World -> A) : M A := fun w => (Ok (f w), w).
Definition modify (f : World -> World) : M unit := fun w => (Ok tt, f w).

Definition bind {A B} (x : M A) (k : A -> M B) : M B := fun w =>
  match x w with (Ok a, w') => k a w' | (Err, w') => (Err, w') | (Panic, w') => (Panic, w') end.

(** Whether a call returned an error, which is kept, joined or logged. *)
Definition failed (x : M unit) : M bool := fun w =>
  match x w with (Ok _, w') => (Ok false, w') | (Err, w') => (Ok true, w') | (Panic, w') => (Panic, w') end.

Declare Scope intel_scope.
Delimit Scope intel_scope with intel.
Notation "x <- e ;; k" := (bind e (fun x => k)) (at level 100, e at next level, k at level 200, right associativity) : intel_scope.
Notation "e ;; k" := (bind e (fun _ => k)) (at level 100, k at level 200, right associativity) : intel_scope.
#[local] Open Scope intel_scope.

Fixpoint forM {A} (f : A -> M unit) (l : list A) : M unit := match l with [] => ret tt | x :: l' => f x;; forM f l' end.

(** A loop that keeps the errors of its rounds: whether there was one. *)
Fixpoint anyM {A} (f : A -> M bool) (l : list A) : M bool :=
  match l with [] => ret false | x :: l' => b <- f x;; r <- anyM f l';; ret (b || r) end.

Fixpoint concatM {A B} (f : A -> M (list B)) (l : list A) : M (list B) :=
  match l with [] => ret [] | x :: l' => b <- f x;; r <- concatM f l';; ret (b ++ r) end.

Definition errors_if (b : bool) : M unit := if b then fail else ret tt.
Definition ignore (x : M unit) : M unit := failed x;; ret tt.

Section Env.
Context `{Env}.

Definition perform (e : Effect) : M unit := fun w =>
  (if accepts (log w) e then Ok tt else Err, w <| log := log w ++ [e] |>).

(** ** pinConfig.go

    A [pinSet] is the list of its entries in the order of the range. *)

Definition pinSet : Type := list (string * string).
Definition frqSet : Type := list string.

Definition device_dir (device : string) : string := ("/sys/class/net/" +:+ device +:+ "/device/ptp/")%string.
Definition pin_path (device phc pin : string) : string := (device_dir device +:+ phc +:+ "/pins/" +:+ pin)%string.

Definition WriteFile (path value : string) : M unit := perform (Wrote path value).

Definition applyPinSet (device : string) (pins : pinSet) : M unit :=
  match ReadDir (device_dir device) with
  | None => fail
  | Some phcs =>
      bad <- anyM (fun phc => anyM (fun '(pin, value) => failed (WriteFile (pin_path device phc pin) value)) pins) phcs;;
      errors_if bad
  end.

Definition period_path (device phc : string) : string := (device_dir device +:+ phc +:+ "/period")%string.

Definition applyPinFrq (device : string) (values : frqSet) : M unit :=
  match ReadDir (device_dir device) with
  | None => fail
  | Some phcs =>
      bad <- anyM (fun phc => anyM (fun value => failed (WriteFile (period_path device phc) value)) values) phcs;;
      errors_if bad
  end.

Definition hasSysfsSMAPins (device : string) : bool :=
  match ReadDir (device_dir device) with
  | Some (phc :: _) => bool_decide (is_Some (ReadFile (pin_path device phc "SMA1")))
  | _ => false
  end.

(** ** clock-chain.go: the commands for one pin *)

Definition PriorityEnabled : Z := 0.
Definition PriorityDisabled : Z := 255.

Record PinParentControl := mkPPC {
  EecPriority : Z; PpsPriority : Z; EecOutputState : Z; PpsOutputState : Z; EecDirection : option Z; PpsDirection : option Z
}.
#[export] Instance PinParentControl_fields : Fields PinParentControl := fun c =>
  mkPPC (EecPriority c) (PpsPriority c) (EecOutputState c) (PpsOutputState c) (EecDirection c) (PpsDirection c).

Definition no_control : PinParentControl := mkPPC 0 0 0 0 None None.

Definition can (pin : PinInfo) (capability : Z) : bool := negb (Z.land (piCapabilities pin) capability =? 0).

(** What a control says for the parent at an index. *)
Definition direction_for (c : PinParentControl) (i : nat) : option Z :=
  match i with 0%nat => EecDirection c | 1%nat => PpsDirection c | _ => None end.
Definition priority_for (c : PinParentControl) (i : nat) : Z :=
  match i with 0%nat => EecPriority c | 1%nat => PpsPriority c | _ => 0 end.
Definition state_for (c : PinParentControl) (i : nat) : Z :=
  match i with 0%nat => EecOutputState c | 1%nat => PpsOutputState c | _ => 0 end.

(** The direction a parent is turned to, if it is turned. *)
Definition turned (pin : PinInfo) (c : PinParentControl) (i : nat) (parent : PinParentDevice) : option Z :=
  match direction_for c i with
  | Some d => if negb (d =? ppDirection parent) && can pin PinCapDir then Some d else None
  | None => None
  end.

(** The controls of the direction command, and the parents as they are left. *)
Fixpoint turn (pin : PinInfo) (c : PinParentControl) (i : nat) (parents : list PinParentDevice) : list PinControl * list PinParentDevice :=
  match parents with
  | [] => ([], [])
  | p :: ps =>
      let '(ctls, ps') := turn pin c (S i) ps in
      match turned pin c i p with
      | Some d => (mkControl (ppParentID p) (Some d) None None :: ctls, p <| ppDirection := d |> :: ps')
      | None => (ctls, p :: ps')
      end
  end.

Definition buildDirectionCmd (pin : PinInfo) (c : PinParentControl) : option PinParentDeviceCtl * PinInfo :=
  let '(ctls, parents) := turn pin c 0 (piParentDevice pin) in
  (match ctls with [] => None | _ => Some (mkCtl (piID pin) None None None (Some ctls)) end, pin <| piParentDevice := parents |>).

Definition parent_control (pin : PinInfo) (c : PinParentControl) (i : nat) (parent : PinParentDevice) : PinControl :=
  if ppDirection parent =? PinDirectionInput then
    mkControl (ppParentID parent) None
      (match ppPrio parent with Some _ => if can pin PinCapPrio then Some (priority_for c i) else None | None => None end)
      (if can pin PinCapState then Some PinStateSelectable else None)
  else mkControl (ppParentID parent) None None (if can pin PinCapState then Some (state_for c i) else None).

Definition nil_if_empty {A} (l : list A) : option (list A) := match l with [] => None | _ => Some l end.

(** The commands, and the pin behind the pointer afterwards. *)
Definition SetPinControlData (pin : PinInfo) (c : PinParentControl) : list PinParentDeviceCtl * PinInfo :=
  let '(dirCmd, pin) := buildDirectionCmd pin c in
  let cmd := mkCtl (piID pin) None None None (nil_if_empty (imap (parent_control pin c) (piParentDevice pin))) in
  (match dirCmd with Some d => [d; cmd] | None => [cmd] end, pin).

(** ** dpllPins.go *)

(** A pin of the cache is its index. *)
Definition labelled (label : string) (clockID : Z) (pin : PinInfo) : bool := str_eqb (piBoardLabel pin) label && (piClockID pin =? clockID).

Fixpoint find_index {A} (p : A -> bool) (i : nat) (l : list A) : option nat :=
  match l with [] => None | x :: l' => if p x then Some i else find_index p (S i) l' end.

Definition GetByLabel (label : string) (clockID : Z) (pins : list PinInfo) : option nat := find_index (labelled label clockID) 0 pins.

Fixpoint indices {A} (p : A -> bool) (i : nat) (l : list A) : list nat :=
  match l with [] => [] | x :: l' => (if p x then [i] else []) ++ indices p (S i) l' end.

Definition GetAllPinsByLabel (label : string) (pins : list PinInfo) : list nat := indices (fun pin => str_eqb (piBoardLabel pin) label) 0 pins.

(** The commands for the pin at an index of the cache, which is changed. *)
Definition control_pin (i : nat) (c : PinParentControl) : M (list PinParentDeviceCtl) := fun w =>
  match dpllPins w !! i with
  | None => (Ok [], w)
  | Some pin => let '(cmds, pin') := SetPinControlData pin c in (Ok cmds, w <| dpllPins := <[i := pin']> (dpllPins w) |>)
  end.

(** [FetchPins]: one effect for dialling and the dump; the cache keeps its pins on an error. *)
Definition fetch : M unit :=
  before <- get log;;
  perform FetchPins;;
  modify (fun w => w <| dpllPins := default [] (pins_dumped before) |>).

Definition value_control (value : string) (parent : PinParentDevice) : option (Z * Z * option Z) :=
  if str_eqb value "0" then
    Some (if ppDirection parent =? PinDirectionInput then PinStateSelectable else PinStateDisconnected, PriorityDisabled, None)
  else if str_eqb value "1" then Some (PinStateConnected, PriorityEnabled, Some PinDirectionInput)
  else if str_eqb value "2" then Some (PinStateConnected, PriorityEnabled, Some PinDirectionOutput)
  else None.

Definition set_control (i : nat) (v : Z * Z * option Z) (c : PinParentControl) : PinParentControl :=
  let '(state, priority, direction) := v in
  match i with
  | 0%nat => c <| EecOutputState := state |> <| EecDirection := direction |> <| EecPriority := priority |>
  | 1%nat => c <| PpsOutputState := state |> <| PpsDirection := direction |> <| PpsPriority := priority |>
  | _ => c
  end.

Fixpoint plugin_control (value : string) (i : nat) (parents : list PinParentDevice) (c : PinParentControl) : PinParentControl :=
  match parents with
  | [] => c
  | p :: ps => plugin_control value (S i) ps (match value_control value p with Some v => set_control i v c | None => c end)
  end.

Definition GetCommandsForPluginPinSet (clockID : Z) (pinset : pinSet) : M (list PinParentDeviceCtl) :=
  concatM (fun '(label, valueStr) =>
    match Conf.Fields (Parser.TrimSpace valueStr) with
    | [v; _] =>
        pins <- get dpllPins;;
        match GetByLabel label clockID pins with
        | None => ret []
        | Some i =>
            match pins !! i with
            | Some pin =>
                match piParentDevice pin with
                | [] => ret []
                | parents => control_pin i (plugin_control v 0 parents no_control)
                end
            | None => ret []
            end
        end
    | _ => ret []
    end) pinset.

(** The cache is refreshed whether the commands were accepted or not. *)
Definition batch_and_fetch (commands : list PinParentDeviceCtl) : M unit :=
  bad <- failed (perform (BatchPinSet commands));;
  bad' <- failed fetch;;
  errors_if (bad || bad').

Definition ApplyPinCommands (commands : list PinParentDeviceCtl) : M unit := batch_and_fetch commands.

(** ** clockID.go *)

Definition pciConfigSpaceSize : Z := 256.
Definition pciExtendedCapabilityDsnID : Z := 3.

Definition byte_at (b : list Z) (i : Z) : Z := default 0 (b !! Z.to_nat i).
Definition le_at (b : list Z) (i : Z) (n : nat) : Z := foldr (fun k acc => byte_at b (i + Z.of_nat k) + 256 * acc) 0 (seq 0 n).

(** Where the list of capabilities goes on from an offset. *)
Inductive pci_step := PciId (id : Z) | PciNone | PciPanic | PciNext (offset : Z).

Definition pci_at (b : list Z) (offset : Z) : pci_step :=
  let len := Z.of_nat (length b) in
  if len <? offset + 4 then PciNone
  else
    let id := le_at b offset 2 in
    if id =? pciExtendedCapabilityDsnID then
      if len <? offset + 4 + 8 then PciPanic else PciId (le_at b (offset + 4) 8)
    else if id =? 0 then PciNone
    else PciNext (Z.shiftr (le_at b (offset + 2) 2) 4).

Fixpoint pci_walk (b : list Z) (fuel : nat) (offset : Z) : option (outcome Z) :=
  match fuel with
  | O => None
  | S fuel' =>
      match pci_at b offset with
      | PciId id => Some (Ok id)
      | PciNone => Some (Ok 0)
      | PciPanic => Some Panic
      | PciNext offset' => pci_walk b fuel' offset'
      end
  end.

(** An offset has 12 bits: a walk that visits more of them never ends, which counts as a
    panic here. *)
Definition pci_fuel : nat := 4098.

Definition config_path (device : string) : string := ("/sys/class/net/" +:+ device +:+ "/device/config")%string.

Definition getPCIClockID (device : string) : outcome Z :=
  match ReadFile (config_path device) with
  | None => Ok 0
  | Some b => default Panic (pci_walk b pci_fuel pciConfigSpaceSize)
  end.

Fixpoint without_dashes (s : string) : string :=
  match s with EmptyString => s | String c s' => if ascii_dec c "-" then without_dashes s' else String c (without_dashes s') end.

(** The first line with a serial number counts, also when it cannot be read. *)
Fixpoint serial_number (lines : list string) : Z :=
  match lines with
  | [] => 0
  | line :: lines' =>
      match Conf.Fields (Parser.TrimSpace line) with
      | [k; v] =>
          if str_eqb k "serial_number" then let '(n, ok) := ParseUint (without_dashes v) 16 64 in if ok then n else 0
          else serial_number lines'
      | _ => serial_number lines'
      end
  end.

Definition getDevlinkClockID (device : string) : Z :=
  match Readlink ("/sys/class/net/" +:+ device +:+ "/device") with
  | None => 0
  | Some path =>
      match devlink_info (Paths.Base path) with
      | None => 0
      | Some out => serial_number (Conf.split_on Conf.newline_char out)
      end
  end.

Definition getClockID (device : string) : outcome Z :=
  match getPCIClockID device with
  | Ok id => Ok (if negb (id =? 0) then id else getDevlinkClockID device)
  | o => o
  end.

Definition EqualFold (a b : string) : bool := str_eqb (Json.lower a) (Json.lower b).

(** [anyID] is the last identifier seen. *)
Fixpoint clock_id_by_module (module : string) (anyID : Z) (devices : list DoDeviceGetReply) : option Z :=
  match devices with
  | [] => if negb (anyID =? 0) then Some anyID else None
  | d :: devices' =>
      if EqualFold (rpModuleName d) module then
        if rpType d =? DpllTypePPS then Some (rpClockID d) else clock_id_by_module module (rpClockID d) devices'
      else clock_id_by_module module anyID devices'
  end.

Definition getClockIDByModule (module : string) (devices : list DoDeviceGetReply) : option Z := clock_id_by_module module 0 devices.

(** ** common.go *)

Definition LeapSourceSBAS : Z := 3.
Definition LeapSourceBeiDou : Z := 4.
Definition LeapSourceGalileo : Z := 5.
Definition LeapSourceGLONASS : Z := 6.
Definition LeapSourceNavIC : Z := 7.

Record LeapSourceOptions := mkLeapSources { oGPS : bool; oGLONASS : bool; oBeiDou : bool; oGalileo : bool; oSBAS : bool; oNavIC : bool }.
#[export] Instance LeapSourceOptions_fields : Fields LeapSourceOptions := fun o =>
  mkLeapSources (oGPS o) (oGLONASS o) (oBeiDou o) (oGalileo o) (oSBAS o) (oNavIC o).

Definition AllowedLeapSources (o : LeapSourceOptions) : list Z :=
  map snd (List.filter fst [(oGPS o, Leap.LeapSourceGPS); (oGLONASS o, LeapSourceGLONASS); (oBeiDou o, LeapSourceBeiDou);
    (oGalileo o, LeapSourceGalileo); (oSBAS o, LeapSourceSBAS); (oNavIC o, LeapSourceNavIC)]).

Definition defaultLeapSourceOptions : LeapSourceOptions := mkLeapSources true true true true true true.

Definition updateLeapManagerSources (o : LeapSourceOptions) : M unit :=
  if has_leap_manager then ignore (perform (SetAllowedLeapSources (AllowedLeapSources o))) else ret tt.

Definition extendWithKeys {V} (s : list string) (m : list (string * V)) : list string :=
  foldl (fun s k => if bool_decide (k ∈ s) then s else s ++ [k]) s (map fst m).

Definition PopulateHwConfig (name : string) (w : World) (hwconfigs : list (string * string)) : list (string * string) :=
  hwconfigs ++ map (fun status => (name, status)) (hwplugins w).

End Env.

(** * Properties *)

(** ** Commands for a pin *)

(** The kernel refuses a command that changes a direction and a priority or a state, be it
    for the same parent or for two: a command has no direction at all, or nothing else. *)
Definition no_direction (pc : PinControl) : Prop := pcDirection pc = None.
Definition only_direction (pc : PinControl) : Prop := pcPrio pc = None /\ pcState pc = None.
Definition separate (c : PinParentDeviceCtl) : Prop := Forall no_direction (parents_of c) \/ Forall only_direction (parents_of c).

(** A control asks for nothing the pin cannot do. *)
Definition permitted (pin : PinInfo) (pc : PinControl) : Prop :=
  (is_Some (pcDirection pc) -> can pin PinCapDir = true) /\
  (is_Some (pcPrio pc) -> can pin PinCapPrio = true) /\
  (is_Some (pcState pc) -> can pin PinCapState = true).

Definition sound_for (pin : PinInfo) (c : PinParentDeviceCtl) : Prop :=
  ctID c = piID pin /\ separate c /\
  Forall (fun pc => permitted pin pc /\ pcPinParentID pc ∈ map ppParentID (piParentDevice pin)) (parents_of c).

Lemma turn_spec pin c i parents :
  Forall (fun pc => only_direction pc /\ permitted pin pc /\ pcPinParentID pc ∈ map ppParentID parents) (turn pin c i parents).1 /\
  (turn pin c i parents).2 = imap (fun k p => match turned pin c (i + k) p with Some d => p <| ppDirection := d |> | None => p end) parents.
Proof.
  revert i. induction parents as [|p ps IH]; intros i; cbn [turn]; [by split|].
  destruct (IH (S i)) as [Hc Hp]. destruct (turn pin c (S i) ps) as [ctls ps']. cbn [fst snd] in *. cbn [imap]. rewrite Nat.add_0_r.
  assert (imap ((fun k p0 => match turned pin c (i + k) p0 with Some d => p0 <| ppDirection := d |> | None => p0 end) ∘ S) ps = ps') as E.
  { rewrite Hp. apply imap_ext. intros k p0 _. unfold compose. by rewrite Nat.add_succ_r. }
  rewrite E. assert (Forall (fun pc => only_direction pc /\ permitted pin pc /\ pcPinParentID pc ∈ map ppParentID (p :: ps)) ctls) as Hc'.
  { eapply Forall_impl; [exact Hc|]. intros pc (? & ? & ?). split_and!; [done..|by right]. }
  destruct (turned pin c i p) as [d|] eqn:Ht; (split; [|done]); [|done]. constructor; [|done]. split_and!; cbn; [done| |left].
  unfold turned in Ht. destruct (direction_for c i); [|done]. destruct (negb (z =? ppDirection p)); [|done]. destruct (can pin PinCapDir) eqn:Hd; [|done].
  split_and!; [done|by intros [? ?]..].
Qed.

Lemma parent_control_ok pin c i p : no_direction (parent_control pin c i p) /\ permitted pin (parent_control pin c i p) /\
  pcPinParentID (parent_control pin c i p) = ppParentID p.
Proof.
  unfold parent_control, no_direction, permitted.
  destruct (ppDirection p =? PinDirectionInput), (ppPrio p), (can pin PinCapPrio), (can pin PinCapState); cbn;
    split_and!; try done; by intros [? ?].
Qed.

Lemma buildDirectionCmd_pin pin c d pin' : buildDirectionCmd pin c = (d, pin') ->
  piID pin' = piID pin /\ piCapabilities pin' = piCapabilities pin /\ map ppParentID (piParentDevice pin') = map ppParentID (piParentDevice pin).
Proof.
  unfold buildDirectionCmd. pose proof (turn_spec pin c 0 (piParentDevice pin)) as [_ Hp].
  destruct (turn pin c 0 (piParentDevice pin)) as [ctls ps]. cbn in Hp. intros [= _ <-]. cbn. split_and!; [done..|].
  rewrite Hp. apply list_eq. intros i. change (map ppParentID) with (fmap (M := list) ppParentID).
  rewrite !list_lookup_fmap, list_lookup_imap. destruct (piParentDevice pin !! i) as [p|]; cbn; [|done].
  by destruct (turned pin c i p).
Qed.

Lemma nil_if_empty_list {A} (l : list A) : default [] (nil_if_empty l) = l.
Proof. by destruct l. Qed.

(** The commands made for a pin, and the pin afterwards. *)
Lemma pin_commands_spec pin c : let '(cmds, pin') := SetPinControlData pin c in
  Forall (sound_for pin) cmds /\ (1 <= length cmds <= 2)%nat /\
  (forall i p, piParentDevice pin !! i = Some p ->
    exists p', piParentDevice pin' !! i = Some p' /\ ppDirection p' = default (ppDirection p) (turned pin c i p)).
Proof.
  unfold SetPinControlData. destruct (buildDirectionCmd pin c) as [d pin'] eqn:Hb.
  pose proof (buildDirectionCmd_pin _ _ _ _ Hb) as (Hid & Hcap & Hpar). unfold buildDirectionCmd in Hb.
  pose proof (turn_spec pin c 0 (piParentDevice pin)) as [Hc Hp]. destruct (turn pin c 0 (piParentDevice pin)) as [ctls ps] eqn:Et.
  cbn [fst snd] in Hc, Hp. injection Hb as <- <-.
  assert (sound_for pin (mkCtl (piID pin) None None None (nil_if_empty (imap (parent_control (pin <| piParentDevice := ps |>) c) ps)))) as Hs.
  { split; [done|]. unfold separate, parents_of. cbn. rewrite nil_if_empty_list.
    match goal with |- (Forall _ ?l \/ _) /\ _ => assert (Forall (fun pc => no_direction pc /\ permitted pin pc /\ pcPinParentID pc ∈ map ppParentID (piParentDevice pin)) l) as HF end.
    2: { split; [left|]; (eapply Forall_impl; [exact HF|]); by intros pc (? & ? & ?). }
    apply Forall_lookup_2. intros i pc Hi.
    rewrite list_lookup_imap in Hi. destruct (ps !! i) as [p|] eqn:Hl; [|done]. injection Hi as <-.
    destruct (parent_control_ok (pin <| piParentDevice := ps |>) c i p) as (H1 & H2 & H3). split_and!; [done..|].
    refine (eq_ind_r (fun x => x ∈ _) _ H3). cbn in Hpar. rewrite <- Hpar. apply list_elem_of_fmap_2. by eapply list_elem_of_lookup_2. }
  split; [|split].
  - destruct ctls as [|x l]; cbn [piParentDevice piID upd PinInfo_fields]; (constructor; [|try constructor]); try exact Hs; try done.
    split; [done|]. unfold separate, parents_of. cbn. split; [right|]; (eapply Forall_impl; [exact Hc|]); by intros pc (? & ? & ?).
  - destruct ctls; cbn; lia.
  - intros i p Hi. cbn. rewrite Hp, list_lookup_imap, Hi. eexists. split; [done|]. cbn. by destruct (turned pin c i p).
Qed.

Lemma pin_commands_separate pin c : Forall separate (SetPinControlData pin c).1.
Proof.
  pose proof (pin_commands_spec pin c) as Hp. destruct (SetPinControlData pin c) as [cmds pin']. destruct Hp as [Hc _].
  eapply Forall_impl; [exact Hc|]. by intros cmd (_ & ? & _).
Qed.

(** ** The walk through the PCI capabilities *)

(** The walk from an offset ends after exactly that many steps. *)
Inductive ends (b : list Z) : Z -> nat -> outcome Z -> Prop :=
| ends_id o id : pci_at b o = PciId id -> ends b o 1 (Ok id)
| ends_none o : pci_at b o = PciNone -> ends b o 1 (Ok 0)
| ends_panic o : pci_at b o = PciPanic -> ends b o 1 Panic
| ends_next o o' n r : pci_at b o = PciNext o' -> ends b o' n r -> ends b o (S n) r.

Lemma ends_fun b o n r m r' : ends b o n r -> ends b o m r' -> n = m /\ r = r'.
Proof.
  intros He. revert m r'. induction He as [| | |o o' n r Ho He IH]; intros m r' Hm; inversion Hm; subst; try congruence; try (split; congruence).
  rewrite Ho in H. injection H as ->. apply IH in H0 as [-> ->]. done.
Qed.

Lemma pci_walk_ends b fuel o r : pci_walk b fuel o = Some r -> exists n, ends b o n r /\ (n <= fuel)%nat.
Proof.
  revert o. induction fuel as [|fuel IH]; intros o; cbn [pci_walk]; [done|]. destruct (pci_at b o) eqn:E.
  - intros [= <-]. exists 1%nat. split; [by constructor|lia].
  - intros [= <-]. exists 1%nat. split; [by constructor|lia].
  - intros [= <-]. exists 1%nat. split; [by constructor|lia].
  - intros (n & Hn & ?)%IH. exists (S n). split; [by econstructor|lia].
Qed.

Lemma ends_walk b o n r fuel : ends b o n r -> (n <= fuel)%nat -> pci_walk b fuel o = Some r.
Proof.
  intros He. revert fuel. induction He as [o id Ho|o Ho|o Ho|o o' n r Ho He IH]; intros [|fuel] Hf; try lia; cbn [pci_walk]; rewrite Ho; try done.
  apply IH. lia.
Qed.

Definition is_byte (z : Z) : Prop := 0 <= z < 256.

Lemma byte_at_range b i : Forall is_byte b -> 0 <= byte_at b i < 256.
Proof.
  intros Hb. unfold byte_at. destruct (b !! Z.to_nat i) as [x|] eqn:E; cbn; [|lia]. by eapply Forall_lookup_1 in Hb.
Qed.

(** Every offset the walk goes on to has 12 bits. *)
Lemma next_range b o o' : Forall is_byte b -> pci_at b o = PciNext o' -> 0 <= o' < 4096.
Proof.
  intros Hb. unfold pci_at. destruct (_ <? _); [done|]. destruct (_ =? _); [by destruct (_ <? _)|]. destruct (_ =? _); [done|]. intros [= <-].
  unfold le_at. cbn [seq foldr]. rewrite Z.shiftr_div_pow2 by lia. change (2 ^ 4) with 16.
  pose proof (byte_at_range b (o + 2 + Z.of_nat 0) Hb). pose proof (byte_at_range b (o + 2 + Z.of_nat 1) Hb).
  split; [apply Z.div_pos; lia|apply Z.div_lt_upper_bound; lia].
Qed.

(** The offsets of a walk that ends, with no repetition. *)
Lemma orbit b o n r : Forall is_byte b -> ends b o n r -> exists l, length l = n /\ NoDup l /\ o ∈ l /\
  Forall (fun x => x = o \/ 0 <= x < 4096) l /\ Forall (fun x => exists m r', ends b x m r' /\ (m <= n)%nat) l.
Proof.
  intros Hb He. induction He as [o id Ho|o Ho|o Ho|o o' n r Ho He (l & Hl & Hn & Ho' & Hr & Hm)].
  1-3: exists [o]; split_and!; [done|apply NoDup_singleton|by left|by repeat constructor; left|]; constructor; [|done]; do 2 eexists; split; [by econstructor|lia].
  exists (o :: l). split_and!; [by cbn; rewrite Hl| |by left| |].
  - constructor; [|done]. intros Hin. rewrite Forall_forall in Hm. destruct (Hm o Hin) as (m & r' & He' & Hle).
    destruct (ends_fun _ _ _ _ _ _ He' (ends_next _ _ _ _ _ Ho He)) as [-> _]. lia.
  - constructor; [by left|]. eapply Forall_impl; [exact Hr|]. intros x [->|Hx]; right; [by eapply next_range|done].
  - constructor; [by do 2 eexists; split; [by econstructor|]|]. eapply Forall_impl; [exact Hm|]. intros x (m & r' & ? & ?). do 2 eexists. split; [done|lia].
Qed.

Lemma walk_short b n r : Forall is_byte b -> ends b pciConfigSpaceSize n r -> (n <= 4096)%nat.
Proof.
  intros Hb He. destruct (orbit b _ _ _ Hb He) as (l & <- & Hn & _ & Hr & _).
  assert (l ⊆+ seqZ 0 4096) as Hs.
  { apply NoDup_submseteq; [done|]. intros x Hx. rewrite Forall_forall in Hr. apply elem_of_seqZ. unfold pciConfigSpaceSize in Hr.
    destruct (Hr x Hx); lia. }
  apply submseteq_length in Hs. rewrite length_seqZ in Hs. lia.
Qed.

(** The walk through the extended capabilities of a card is decided by its fuel: when the
    loop of [getPCIClockID] ends at all, whatever the bytes are, it ends within the fuel
    and the function returns what the loop returns. *)
Theorem pci_walk_decided `{Env} device b fuel r :
  ReadFile (config_path device) = Some b -> Forall is_byte b -> pci_walk b fuel pciConfigSpaceSize = Some r -> getPCIClockID device = r.
Proof.
  intros Hf Hb (n & He & _)%pci_walk_ends. unfold getPCIClockID. rewrite Hf.
  rewrite (ends_walk _ _ _ _ pci_fuel He); [done|]. pose proof (walk_short _ _ _ Hb He). unfold pci_fuel. lia.
Qed.

(** The end of the list of capabilities is a next offset of 0, but the loop goes on at
    offset 0, with the identifiers of vendor and device: here it comes back to 256. *)
Definition endless : list Z := [134; 128; 0; 16] ++ replicate 252 0 ++ [1; 0; 1; 0] ++ replicate 252 0.

Lemma capabilities_never_end fuel : pci_walk endless fuel pciConfigSpaceSize = None /\ le_at endless 258 2 / 16 = 0.
Proof.
  split; [|done]. assert (pci_at endless 256 = PciNext 0) as H1 by reflexivity. assert (pci_at endless 0 = PciNext 256) as H2 by reflexivity.
  unfold pciConfigSpaceSize. enough (pci_walk endless fuel 256 = None /\ pci_walk endless fuel 0 = None) by tauto.
  induction fuel as [|fuel [IH1 IH2]]; [done|]. cbn [pci_walk]. by rewrite H1, H2.
Qed.

(** A file that ends behind the first word of the serial number. *)
Definition cut_short : list Z := replicate 256 0 ++ [3; 0; 1; 0].

Lemma serial_number_cut_panics : pci_walk cut_short pci_fuel pciConfigSpaceSize = Some Panic.
Proof. reflexivity. Qed.

(** ** Examples *)

Definition example_config : list Z := replicate 256 0 ++ [1; 0; 1; 17] ++ replicate 12 0 ++ [3; 0; 1; 0; 128; 181; 31; 255; 255; 111; 124; 80].

Definition quiet_env : Env := {|
  ReadDir := fun _ => None;
  ReadFile := fun path => if str_eqb path (config_path "ens1f0") then Some example_config else None;
  Readlink := fun _ => None;
  accepts := fun _ _ => true;
  pins_dumped := fun _ => None;
  devices_dumped := fun _ => None;
  devlink_info := fun _ => None;
  ublx_results := fun _ => [];
  has_leap_manager := false;
  gnss_device := fun _ => None;
  parse_config := fun _ => None
|}.

Lemma pci_walk_decided_witness :
  ReadFile (Env := quiet_env) (config_path "ens1f0") = Some example_config /\ getPCIClockID (H := quiet_env) "ens1f0" = Ok 5799633565433968000.
Proof.
  split; [reflexivity|]. apply (@pci_walk_decided quiet_env "ens1f0" example_config 3).
  - reflexivity.
  - unfold example_config, is_byte. repeat constructor; lia.
  - vm_compute. reflexivity.
Defined.

Definition example_pin (capabilities : Z) (parents : list PinParentDevice) (label : string) (id : Z) : PinInfo :=
  empty_pin <| piID := id |> <| piBoardLabel := label |> <| piClockID := 1 |> <| piCapabilities := capabilities |> <| piParentDevice := parents |>.

Definition parent (id direction : Z) : PinParentDevice := mkParent id direction (Some 15) 0 0 0 0 0.

(** An error between making a command and sending it loses the change of direction: the
    cached pin already has it, and the next command leaves it out. *)
Lemma direction_asked_once :
  let pin := example_pin 7 [parent 1 PinDirectionOutput; parent 2 PinDirectionOutput] "SMA1" 4 in
  let control := no_control <| EecDirection := Some PinDirectionInput |> <| PpsDirection := Some PinDirectionInput |> in
  let '(first, cached) := SetPinControlData pin control in
  length first = 2%nat /\ length (SetPinControlData cached control).1 = 1%nat.
Proof. vm_compute. done. Qed.

(** A value that is none of 0, 1 and 2 is logged as invalid and enables the input with the
    highest priority. *)
Lemma invalid_value_enables :
  let pin := example_pin 6 [parent 1 PinDirectionInput] "SMA1" 4 in
  (SetPinControlData pin (plugin_control "3" 0 (piParentDevice pin) no_control)).1 =
  [mkCtl 4 None None None (Some [mkControl 1 None (Some PriorityEnabled) (Some PinStateSelectable)])].
Proof. reflexivity. Qed.

(** ** What every run keeps

    [keeps m Q]: whatever the environment answers, the commands [m] sends are all separate,
    and what it returns satisfies [Q]. *)

Definition sent_separately (e : Effect) : Prop := match e with BatchPinSet cmds => Forall separate cmds | _ => True end.

Definition keeps {A} (m : M A) (Q : A -> Prop) : Prop := forall w, Forall sent_separately (log w) ->
  match m w with (Ok a, w') => Q a /\ Forall sent_separately (log w') | (_, w') => Forall sent_separately (log w') end.

Definition any {A} (_ : A) : Prop := True.

Lemma keeps_ret {A} (a : A) (Q : A -> Prop) : Q a -> keeps (ret a) Q.
Proof. intros HQ w Hw. by split. Qed.

Lemma keeps_fail {A} (Q : A -> Prop) : keeps fail Q.
Proof. by intros w Hw. Qed.

Lemma keeps_panic {A} (Q : A -> Prop) : keeps panic Q.
Proof. by intros w Hw. Qed.

Lemma keeps_get {A} (f : World -> A) : keeps (get f) any.
Proof. by intros w Hw. Qed.

Lemma keeps_modify f : (forall w, log (f w) = log w) -> keeps (modify f) any.
Proof. intros Hf w Hw. cbn. by rewrite Hf. Qed.

Lemma keeps_weaken {A} (m : M A) (Q Q' : A -> Prop) : keeps m Q -> (forall a, Q a -> Q' a) -> keeps m Q'.
Proof. intros Hm HQ w Hw. specialize (Hm w Hw). destruct (m w) as [[a| |] w']; [|done..]. destruct Hm. split; [by apply HQ|done]. Qed.

Lemma keeps_any {A} (m : M A) (Q : A -> Prop) : keeps m Q -> keeps m any.
Proof. intros Hm. by eapply keeps_weaken. Qed.

Lemma keeps_bind {A B} (m : M A) (k : A -> M B) (Q : A -> Prop) (R : B -> Prop) :
  keeps m Q -> (forall a, Q a -> keeps (k a) R) -> keeps (bind m k) R.
Proof.
  intros Hm Hk w Hw. specialize (Hm w Hw). unfold bind. destruct (m w) as [[a| |] w']; [|done..].
  destruct Hm as [HQ Hw']. by apply (Hk a HQ w').
Qed.

Lemma keeps_failed (m : M unit) : keeps m any -> keeps (failed m) any.
Proof. intros Hm w Hw. specialize (Hm w Hw). unfold failed. destruct (m w) as [[a| |] w']; [|done..]. by destruct Hm. Qed.

Lemma keeps_ignore (m : M unit) : keeps m any -> keeps (ignore m) any.
Proof. intros Hm. eapply keeps_bind; [by apply keeps_failed|]. intros b _. by apply keeps_ret. Qed.

Lemma keeps_errors b : keeps (errors_if b) any.
Proof. destruct b; [apply keeps_fail|by apply keeps_ret]. Qed.

Lemma keeps_forM {A} (f : A -> M unit) l : (forall x, keeps (f x) any) -> keeps (forM f l) any.
Proof. intros Hf. induction l as [|x l IH]; cbn [forM]; [by apply keeps_ret|]. by eapply keeps_bind. Qed.

Lemma keeps_anyM {A} (f : A -> M bool) l : (forall x, keeps (f x) any) -> keeps (anyM f l) any.
Proof.
  intros Hf. induction l as [|x l IH]; cbn [anyM]; [by apply keeps_ret|].
  eapply keeps_bind; [apply Hf|]. intros b _. eapply keeps_bind; [apply IH|]. intros r _. by apply keeps_ret.
Qed.

Lemma keeps_concatM {A B} (f : A -> M (list B)) (P : B -> Prop) l : (forall x, keeps (f x) (Forall P)) -> keeps (concatM f l) (Forall P).
Proof.
  intros Hf. induction l as [|x l IH]; cbn [concatM]; [by apply keeps_ret|].
  eapply keeps_bind; [apply Hf|]. intros b Hb. eapply keeps_bind; [apply IH|]. intros r Hr. apply keeps_ret. by apply Forall_app.
Qed.

Section Keeps.
Context `{Env}.

Lemma keeps_perform e : sent_separately e -> keeps (perform e) any.
Proof.
  intros He w Hw. unfold perform. assert (Forall sent_separately (log w ++ [e])) as Hw' by (apply Forall_app; split; [done|by constructor]).
  by destruct (accepts (log w) e).
Qed.

Lemma keeps_fetch : keeps fetch any.
Proof.
  eapply keeps_bind; [apply keeps_get|]. intros before _. eapply keeps_bind; [by apply keeps_perform|]. intros _ _. by apply keeps_modify.
Qed.

Lemma keeps_control_pin i c : keeps (control_pin i c) (Forall separate).
Proof.
  intros w Hw. unfold control_pin. destruct (dpllPins w !! i) as [pin|]; [|by split].
  pose proof (pin_commands_separate pin c) as Hp. destruct (SetPinControlData pin c) as [cmds pin']. by split.
Qed.

Lemma keeps_batch cmds : Forall separate cmds -> keeps (batch_and_fetch cmds) any.
Proof.
  intros Hc. eapply keeps_bind; [apply keeps_failed, keeps_perform, Hc|]. intros bad _.
  eapply keeps_bind; [apply keeps_failed, keeps_fetch|]. intros bad' _. apply keeps_errors.
Qed.

Lemma keeps_plugin_pins clock pins : keeps (GetCommandsForPluginPinSet clock pins) (Forall separate).
Proof.
  apply keeps_concatM. intros [label value].
  destruct (Conf.Fields (Parser.TrimSpace value)) as [|v [|u [|]]]; try by apply keeps_ret.
  eapply keeps_bind; [apply keeps_get|]. intros cached _. destruct (GetByLabel label clock cached) as [i|]; [|by apply keeps_ret].
  destruct (cached !! i) as [pin|]; [|by apply keeps_ret]. destruct (piParentDevice pin); [by apply keeps_ret|]. apply keeps_control_pin.
Qed.

Lemma keeps_WriteFile path value : keeps (WriteFile path value) any.
Proof. by apply keeps_perform. Qed.

Lemma keeps_applyPinSet device pins : keeps (applyPinSet device pins) any.
Proof.
  unfold applyPinSet. destruct (ReadDir _) as [phcs|]; [|apply keeps_fail]. eapply keeps_bind; [|intros; apply keeps_errors].
  apply keeps_anyM. intros phc. apply keeps_anyM. intros [pin value]. apply keeps_failed, keeps_WriteFile.
Qed.

Lemma keeps_applyPinFrq device values : keeps (applyPinFrq device values) any.
Proof.
  unfold applyPinFrq. destruct (ReadDir _) as [phcs|]; [|apply keeps_fail]. eapply keeps_bind; [|intros; apply keeps_errors].
  apply keeps_anyM. intros phc. apply keeps_anyM. intros value. apply keeps_failed, keeps_WriteFile.
Qed.

Lemma keeps_leap o : keeps (updateLeapManagerSources o) any.
Proof. unfold updateLeapManagerSources. destruct has_leap_manager; [|by apply keeps_ret]. by apply keeps_ignore, keeps_perform. Qed.
End Keeps.

End IntelPins.
