(* ===== verification/IntelChain.v ===== *)
(** * addons/intel: clock chains of E810 cards

    The delays inside the cards and their compensation (phaseAdjust.go), the clock chain
    with its pins in a grandmaster, in a boundary clock and in its holdover
    (clock-chain.go).  The text of the table of parts is its value here; the chain a
    function works on is its argument, since it is not yet, or already, the variable
    [clockChain]. *)

From S2P Require Import Prelude Strconv Parser PtpConfig Conf Netlink HwTypes IntelPins.

Module IntelChain.

Import Netlink Hw IntelPins.
#[local] Existing Instance PtpConfig.PtpProfile_fields.
#[local] Open Scope intel_scope.

(** ** phaseAdjust.go *)

Record InputConnector := mkInput { Connector : string; DelayPs : Z }.
#[export] Instance InputConnector_fields : Fields InputConnector := fun c => mkInput (Connector c) (DelayPs c).

Record PhaseInputs := mkPhase {
  ID : string; Part : string; Input : InputConnector; GnssInput : bool; PhaseOutputConnectors : list string; phUpstreamPort : string
}.
#[export] Instance PhaseInputs_fields : Fields PhaseInputs := fun p =>
  mkPhase (ID p) (Part p) (Input p) (GnssInput p) (PhaseOutputConnectors p) (phUpstreamPort p).

Record InternalLink := mkLink { lkConnector : string; lkPin : string; lkDelayPs : Z }.

Record InternalDelays := mkDelays {
  PartType : string; ExternalInputs : list InternalLink; ExternalOutputs : list InternalLink; idGnssInput : InternalLink
}.

Inductive direction := DirInput | DirOutput.

Record delayCompensation := mkComp { dcDelayPs : Z; pinLabel : string; iface : string; dcDirection : direction; clockID : Z }.

Definition hardware : list InternalDelays :=
  [mkDelays "E810-XXVDA4T"
     [mkLink "SMA1" "SMA1" 7658; mkLink "SMA2" "SMA2/U.FL2" 7385; mkLink "u.FL2" "SMA2/U.FL2" 9795]
     [mkLink "u.FL1" "REF-SMA1" 1274; mkLink "SMA1" "REF-SMA1" 1376; mkLink "SMA2" "REF-SMA2/U.FL2" 2908]
     (mkLink "GNSS" "GNSS-1PPS" 6999)].

Definition InitInternalDelays (part : string) : option InternalDelays := first_match (fun d => str_eqb (PartType d) part) hardware.

Definition findInternalLink (links : list InternalLink) (connector : string) : option InternalLink :=
  first_match (fun l => EqualFold (lkConnector l) connector) links.

(** The value of a failed parse is assigned too. *)
Definition addClockID (i : string) (p : PtpConfig.PtpProfile) : Z * bool :=
  match PtpConfig.setting ("clockId[" +:+ i +:+ "]") p with
  | None => (0, false)
  | Some s => ParseUint s 10 64
  end.

Section Env.
Context `{Env}.

Fixpoint send_compensations (comps : list delayCompensation) : M unit :=
  match comps with
  | [] => ret tt
  | dc :: comps' =>
      pins <- get dpllPins;;
      match GetByLabel (pinLabel dc) (clockID dc) pins with
      | None => send_compensations comps'
      | Some i =>
          perform (PinPhaseAdjust (default 0 (piID <$> pins !! i)) (dcDelayPs dc));;
          send_compensations comps'
      end
  end.

Definition sendDelayCompensation (comps : list delayCompensation) : M unit := perform DialDpll;; send_compensations comps.

(** ** clock-chain.go: the chain *)

Definition sdp20 : string := "CVL-SDP20".
Definition sdp21 : string := "CVL-SDP21".
Definition sdp22 : string := "CVL-SDP22".
Definition sdp23 : string := "CVL-SDP23".
Definition gnss : string := "GNSS-1PPS".
Definition sma1Input : string := "SMA1".
Definition sma2Input : string := "SMA2/U.FL2".
Definition sma2 : string := "SMA2".
Definition c8270Rclka : string := "C827_0-RCLKA".
Definition c8270Rclkb : string := "C827_0-RCLKB".
Definition sdp22PpsEnable : string := "2 0 0 1 0".

(** The compensations of the output connectors of a card; [None] is an error. *)
Fixpoint output_compensations (p : PtpConfig.PtpProfile) (d : InternalDelays) (card : string) (conns : list string) : option (list delayCompensation) :=
  match conns with
  | [] => Some []
  | conn :: conns' =>
      link ← findInternalLink (ExternalOutputs d) conn;
      let '(id, ok) := addClockID card p in
      if negb ok then None
      else rest ← output_compensations p d card conns'; Some (mkComp (lkDelayPs link) (lkPin link) card DirOutput id :: rest)
  end.

(** A card fed by another one; the chain is changed once nothing can fail. *)
Definition follower (p : PtpConfig.PtpProfile) (d : InternalDelays) (card : PhaseInputs) (c : ClockChain) : ClockChain * option (list delayCompensation) :=
  match findInternalLink (ExternalInputs d) (Connector (Input card)) with
  | None => (c, None)
  | Some link =>
      let '(id, ok) := addClockID (ID card) p in
      if negb ok then (c, None)
      else
        (c <| OtherNICs := OtherNICs c ++ [mkCard (ID card) id (phUpstreamPort card)] |>,
         Some [mkComp (int32 (int32 (DelayPs (Input card)) + lkDelayPs link)) (lkPin link) (ID card) DirInput id])
  end.

(** The card with the receiver or the upstream port; its name is kept when its clock is not
    known. *)
Definition leader (p : PtpConfig.PtpProfile) (d : InternalDelays) (card : PhaseInputs) (c : ClockChain) : ClockChain * option (list delayCompensation) :=
  let '(id, ok) := addClockID (ID card) p in
  let c := c <| LeadingNIC := mkCard (ID card) id (phUpstreamPort card) |> in
  if negb ok then (c, None)
  else if GnssInput card then
    (c <| chType := ClockTypeTGM |>, Some [mkComp (lkDelayPs (idGnssInput d)) (lkPin (idGnssInput d)) (ID card) DirInput id])
  else (c <| chType := ClockTypeTBC |>, Some []).

Definition follows (card : PhaseInputs) : bool := negb (GnssInput card) && str_eqb (phUpstreamPort card) "".

Fixpoint resolveInterconnections (p : PtpConfig.PtpProfile) (cards : list PhaseInputs) (c : ClockChain) : ClockChain * option (list delayCompensation) :=
  match cards with
  | [] => (c, Some [])
  | card :: cards' =>
      match InitInternalDelays (Part card) with
      | None => (c, None)
      | Some d =>
          let '(c, inputs) := if follows card then follower p d card c else leader p d card c in
          match inputs with
          | None => (c, None)
          | Some inputs =>
              match output_compensations p d (ID card) (PhaseOutputConnectors card) with
              | None => (c, None)
              | Some outputs =>
                  let '(c, rest) := resolveInterconnections p cards' c in
                  (c, rest ≫= fun rest => Some (inputs ++ outputs ++ rest))
              end
          end
      end
  end.

(** ** clock-chain.go: pins *)

Record PinControl := mkPinControl { Label : string; ParentControl : PinParentControl }.

Definition SetPinsControl (c : ClockChain) (pins : list PinControl) : M (list PinParentDeviceCtl) :=
  concatM (fun p =>
    cached <- get dpllPins;;
    match GetByLabel (Label p) (DpllClockID (LeadingNIC c)) cached with
    | None => ret []
    | Some i => control_pin i (ParentControl p)
    end) pins.

(** The pins a label stands for on all cards. *)
Definition found_pins (label : string) (cached : list PinInfo) : list nat :=
  match GetAllPinsByLabel label cached with
  | [] => if str_eqb label sma2Input then GetAllPinsByLabel sma2 cached else []
  | l => l
  end.

(** The commands, and whether every label was found. *)
Fixpoint SetPinsControlForAllNICs (pins : list PinControl) : M (list PinParentDeviceCtl * bool) :=
  match pins with
  | [] => ret ([], true)
  | p :: pins' =>
      cached <- get dpllPins;;
      let found := found_pins (Label p) cached in
      cmds <- concatM (fun i => control_pin i (ParentControl p)) found;;
      rest <- SetPinsControlForAllNICs pins';;
      ret (cmds ++ fst rest, negb (bool_decide (found = [])) && snd rest)
  end.

Definition priorities (eec pps : Z) : PinParentControl := no_control <| EecPriority := eec |> <| PpsPriority := pps |>.
Definition outputs (eec pps : Z) : PinParentControl := no_control <| EecOutputState := eec |> <| PpsOutputState := pps |>.
Definition as_input (c : PinParentControl) : PinParentControl := c <| EecDirection := Some PinDirectionInput |> <| PpsDirection := Some PinDirectionInput |>.

Definition pin_defaults : list PinControl :=
  [mkPinControl gnss (priorities 0 0);
   mkPinControl sma1Input (as_input (priorities 3 3));
   mkPinControl sma2Input (as_input (priorities 2 2));
   mkPinControl sdp20 (priorities PriorityDisabled 4);
   mkPinControl sdp22 (priorities PriorityDisabled 5);
   mkPinControl sdp21 (outputs PinStateDisconnected PinStateConnected);
   mkPinControl sdp23 (outputs PinStateDisconnected PinStateConnected);
   mkPinControl c8270Rclka (priorities 8 8);
   mkPinControl c8270Rclkb (priorities 9 9)].

Definition SetPinDefaults : M unit :=
  r <- SetPinsControlForAllNICs pin_defaults;;
  if negb (snd r) then fail else batch_and_fetch (fst r).

Definition EnableE810Outputs (c : ClockChain) : M unit :=
  let name := cardName (LeadingNIC c) in
  match ReadDir (device_dir name) with
  | None | Some [] => fail
  | Some (phc :: _) =>
      (if hasSysfsSMAPins name then ignore (applyPinSet name [("SMA2", "2 2")]%string)
       else
         ignore (applyPinSet name [("SDP22", "2 2")]%string);;
         cmds <- GetCommandsForPluginPinSet (DpllClockID (LeadingNIC c)) [("SMA2", "2 2")]%string;;
         ignore (ApplyPinCommands cmds));;
      ignore (WriteFile (period_path name phc) sdp22PpsEnable)
  end.

Definition gnss_disabled : list PinControl := [mkPinControl gnss (priorities PriorityDisabled PriorityDisabled)].

Definition tbc_initial : list PinControl :=
  [mkPinControl sdp22 (priorities PriorityDisabled PriorityDisabled);
   mkPinControl sdp20 (priorities PriorityDisabled PriorityDisabled);
   mkPinControl sdp21 (outputs PinStateDisconnected PinStateDisconnected);
   mkPinControl sdp23 (outputs PinStateDisconnected PinStateDisconnected)].

Definition InitPinsTBC (c : ClockChain) : M unit :=
  EnableE810Outputs c;;
  g <- SetPinsControlForAllNICs gnss_disabled;;
  cmds <- SetPinsControl c tbc_initial;;
  batch_and_fetch (cmds ++ fst g).

Definition tbc_holdover : list PinControl :=
  [mkPinControl sdp22 (priorities PriorityDisabled PriorityDisabled); mkPinControl sdp23 (outputs PinStateConnected PinStateConnected)].

Definition tbc_normal : list PinControl :=
  [mkPinControl sdp22 (priorities PriorityDisabled PriorityEnabled); mkPinControl sdp23 (outputs PinStateDisconnected PinStateDisconnected)].

Definition EnterHoldoverTBC (c : ClockChain) : M unit := cmds <- SetPinsControl c tbc_holdover;; batch_and_fetch cmds.
Definition EnterNormalTBC (c : ClockChain) : M unit := cmds <- SetPinsControl c tbc_normal;; batch_and_fetch cmds.

(** Writing to a nil map panics. *)
Definition set_setting (key value : string) : M unit := fun w =>
  match PtpConfig.PtpSettings (profile w) with
  | None => (Panic, w)
  | Some m => (Ok tt, w <| profile := (profile w) <| PtpConfig.PtpSettings := Some (<[key := value]> m) |> |>)
  end.

(** The chain is returned with or without an error. *)
Definition InitClockChain (cards : list PhaseInputs) : M (ClockChain * bool) :=
  bad <- failed fetch;;
  if bad : bool then ret (no_chain, false)
  else
    p <- get profile;;
    let '(c, comps) := resolveInterconnections p cards no_chain in
    match comps with
    | None => ret (c, false)
    | Some comps =>
        ignore (sendDelayCompensation comps);;
        bad <- failed SetPinDefaults;;
        if bad : bool then ret (c, false)
        else
          match chType c with
          | ClockTypeTBC =>
              set_setting "clockType" "T-BC";;
              bad <- failed (InitPinsTBC c);;
              ret (c, negb bad)
          | _ => ret (c, true)
          end
    end.

End Env.

(** * Properties *)

(** ** Interconnections *)

(** What one card contributes, as its entry reads. *)
Definition card_compensations (p : PtpConfig.PtpProfile) (card : PhaseInputs) : option (list delayCompensation) :=
  d ← InitInternalDelays (Part card);
  let '(id, ok) := addClockID (ID card) p in
  inputs ← (if follows card then
              link ← findInternalLink (ExternalInputs d) (Connector (Input card));
              if ok : bool then Some [mkComp (int32 (int32 (DelayPs (Input card)) + lkDelayPs link)) (lkPin link) (ID card) DirInput id] else None
            else if negb ok then None
            else Some (if GnssInput card then [mkComp (lkDelayPs (idGnssInput d)) (lkPin (idGnssInput d)) (ID card) DirInput id] else []));
  outs ← output_compensations p d (ID card) (PhaseOutputConnectors card);
  Some (inputs ++ outs).

Definition card_info (p : PtpConfig.PtpProfile) (card : PhaseInputs) : CardInfo := mkCard (ID card) (addClockID (ID card) p).1 (phUpstreamPort card).

(** The last card that does not follow leads, and its input is the type of the chain. *)
Definition add_card (p : PtpConfig.PtpProfile) (c : ClockChain) (card : PhaseInputs) : ClockChain :=
  if follows card then c <| OtherNICs := OtherNICs c ++ [card_info p card] |>
  else c <| LeadingNIC := card_info p card |> <| chType := if GnssInput card then ClockTypeTGM else ClockTypeTBC |>.

Fixpoint all_cards (p : PtpConfig.PtpProfile) (cards : list PhaseInputs) : option (list delayCompensation) :=
  match cards with [] => Some [] | card :: cards' => a ← card_compensations p card; r ← all_cards p cards'; Some (a ++ r) end.

Lemma card_step p card c : InitInternalDelays (Part card) ≫= (fun d =>
    let '(c, inputs) := if follows card then follower p d card c else leader p d card c in
    inputs ≫= fun inputs => outs ← output_compensations p d (ID card) (PhaseOutputConnectors card); Some (c, inputs ++ outs)) =
  (fun comps => (add_card p c card, comps)) <$> card_compensations p card.
Proof.
  unfold card_compensations, add_card, card_info, follower, leader. destruct (InitInternalDelays (Part card)) as [d|]; [|done]. cbn.
  destruct (addClockID (ID card) p) as [id ok]. destruct (follows card).
  - destruct (findInternalLink _ _) as [link|]; [|done]. cbn. destruct ok; [|done]. cbn. by destruct (output_compensations _ _ _ _).
  - destruct ok; [|done]. destruct (GnssInput card); cbn; by destruct (output_compensations _ _ _ _).
Qed.

Lemma resolve_step p card cards c : resolveInterconnections p (card :: cards) c =
  match card_compensations p card with
  | Some comps => let '(c', rest) := resolveInterconnections p cards (add_card p c card) in (c', rest ≫= fun rest => Some (comps ++ rest))
  | None => ((resolveInterconnections p (card :: cards) c).1, None)
  end.
Proof.
  pose proof (card_step p card c) as Hs. cbn [resolveInterconnections]. unfold mbind, option_bind in Hs.
  generalize dependent (card_compensations p card). intros comp Hs.
  destruct (InitInternalDelays (Part card)) as [d|]; [|by destruct comp].
  destruct (if follows card then follower p d card c else leader p d card c) as [c1 inputs].
  destruct inputs as [inputs|]; [|by destruct comp].
  destruct (output_compensations p d (ID card) (PhaseOutputConnectors card)) as [outs|]; [|by destruct comp].
  destruct comp as [comps|]; [|done]. injection Hs as -> <-.
  destruct (resolveInterconnections p cards (add_card p c card)) as [c2 rest]. f_equal. destruct rest; cbn; [by rewrite app_assoc|done].
Qed.

(** Resolving the interconnections of a profile yields the compensations of its cards,
    card by card and in order, and fails exactly when one of the cards has no known part,
    connector or clock; the chain then lists the cards that follow, led by the last card
    that has a receiver or an upstream port, which decides between T-GM and T-BC. *)
Theorem interconnections_resolved p cards c :
  (resolveInterconnections p cards c).2 = all_cards p cards /\
  (is_Some (all_cards p cards) -> (resolveInterconnections p cards c).1 = foldl (add_card p) c cards).
Proof.
  revert c. induction cards as [|card cards IH]; intros c; [by split|]. rewrite resolve_step. cbn [all_cards foldl].
  destruct (card_compensations p card) as [comps|]; cbn; [|split; [done|by intros [? ?]]].
  destruct (IH (add_card p c card)) as [H1 H2]. destruct (resolveInterconnections p cards (add_card p c card)) as [c' rest]. cbn in *. subst rest.
  split; [done|]. destruct (all_cards p cards); [|by intros [? ?]]. intros _. by apply H2.
Qed.

Lemma interconnections_resolved_witness :
  let p := PtpConfig.no_profile <| PtpConfig.PtpSettings := Some {["clockId[ens4f0]" := "7"; "clockId[ens5f0]" := "8"]}%string |> in
  let cards := [mkPhase "ens4f0" "E810-XXVDA4T" (mkInput "" 0) true ["SMA1"] ""; mkPhase "ens5f0" "E810-XXVDA4T" (mkInput "SMA1" 920) false [] ""]%string in
  let c := (resolveInterconnections p cards no_chain).1 in
  all_cards p cards = Some [mkComp 6999 "GNSS-1PPS" "ens4f0" DirInput 7; mkComp 1376 "REF-SMA1" "ens4f0" DirOutput 7; mkComp 8578 "SMA1" "ens5f0" DirInput 8] /\
  c = mkChain ClockTypeTGM (mkCard "ens4f0" 7 "") [mkCard "ens5f0" 8 ""].
Proof.
  cbn zeta. split; [vm_compute; reflexivity|].
  etransitivity; [refine (proj2 (interconnections_resolved _ _ _) _); vm_compute; by eexists|]. vm_compute. reflexivity.
Defined.

(** ** Pins of all cards *)

(** The labels a control may stand for. *)
Definition stands_for (p : PinControl) : list string := Label p :: (if str_eqb (Label p) sma2Input then [sma2] else []).

(** The commands for the pins of a cache, each made from the pin as it is there. *)
Definition commands_at (cached : list PinInfo) (c : PinParentControl) (idx : list nat) : list PinParentDeviceCtl :=
  flat_map (fun i => match cached !! i with Some pin => (SetPinControlData pin c).1 | None => [] end) idx.

Definition all_commands (cached : list PinInfo) (pins : list PinControl) : list PinParentDeviceCtl :=
  flat_map (fun p => commands_at cached (ParentControl p) (found_pins (Label p) cached)) pins.

Definition all_found (cached : list PinInfo) (pins : list PinControl) : bool :=
  forallb (fun p => negb (bool_decide (found_pins (Label p) cached = []))) pins.

Definition same_labels (a b : list PinInfo) : Prop := map piBoardLabel a = map piBoardLabel b.

Lemma SetPinControlData_label pin c : piBoardLabel (SetPinControlData pin c).2 = piBoardLabel pin.
Proof.
  unfold SetPinControlData. destruct (buildDirectionCmd pin c) as [d pin'] eqn:E. cbn. unfold buildDirectionCmd in E.
  destruct (turn _ _ _ _). by injection E as _ <-.
Qed.

Lemma indices_lookup {A} (p : A -> bool) l i k : k ∈ indices p i l <-> exists x, l !! (k - i)%nat = Some x /\ p x = true /\ (i <= k)%nat.
Proof.
  revert i. induction l as [|y l IH]; intros i; cbn [indices].
  { split; [by intros ?%elem_of_nil|by intros (? & ? & _)]. }
  rewrite elem_of_app, IH. split.
  - intros [Hk|(x & Hx & Hp & Hk)].
    + destruct (p y) eqn:E; [|by apply elem_of_nil in Hk]. apply list_elem_of_singleton in Hk as ->. exists y. by rewrite Nat.sub_diag.
    + exists x. replace (k - i)%nat with (S (k - S i)) by lia. split_and!; [done..|lia].
  - intros (x & Hx & Hp & Hk). destruct (k - i)%nat as [|m] eqn:E.
    + left. injection Hx as ->. rewrite Hp. apply list_elem_of_singleton. lia.
    + right. exists x. replace (k - S i)%nat with m by lia. split_and!; [done..|lia].
Qed.

Lemma indices_NoDup {A} (p : A -> bool) l i : NoDup (indices p i l).
Proof.
  revert i. induction l as [|y l IH]; intros i; cbn [indices]; [constructor|]. destruct (p y); [|apply IH]. constructor; [|apply IH].
  intros (x & _ & _ & ?)%indices_lookup. lia.
Qed.

Lemma indices_labels (a b : list PinInfo) label i : same_labels a b ->
  indices (fun pin => str_eqb (piBoardLabel pin) label) i a = indices (fun pin => str_eqb (piBoardLabel pin) label) i b.
Proof.
  unfold same_labels. revert b i. induction a as [|x a IH]; intros [|y b] i; cbn; try done. intros [= H1 H2]. by rewrite H1, (IH b).
Qed.

Lemma found_labels a b label : same_labels a b -> found_pins label a = found_pins label b.
Proof. intros Hs. unfold found_pins, GetAllPinsByLabel. by rewrite !(indices_labels a b) by done. Qed.

Lemma found_label cached p i : i ∈ found_pins (Label p) cached -> exists pin, cached !! i = Some pin /\ piBoardLabel pin ∈ stands_for p.
Proof.
  assert (forall label, i ∈ GetAllPinsByLabel label cached -> exists pin, cached !! i = Some pin /\ piBoardLabel pin = label) as Hg.
  { intros label (pin & Hl & Hp & _)%indices_lookup. rewrite Nat.sub_0_r in Hl. exists pin. split; [done|].
    unfold str_eqb in Hp. by apply bool_decide_eq_true in Hp. }
  unfold found_pins, stands_for. intros Hi. destruct (GetAllPinsByLabel (Label p) cached) eqn:E.
  - destruct (str_eqb (Label p) sma2Input); [|by apply elem_of_nil in Hi]. destruct (Hg _ Hi) as (pin & ? & Hlab). exists pin.
    split; [done|]. rewrite Hlab. right. left.
  - rewrite <- E in Hi. destruct (Hg _ Hi) as (pin & ? & Hlab). exists pin. split; [done|]. rewrite Hlab. left.
Qed.

Lemma found_NoDup label cached : NoDup (found_pins label cached).
Proof.
  unfold found_pins. destruct (GetAllPinsByLabel label cached) eqn:E.
  - destruct (str_eqb label sma2Input); [apply indices_NoDup|constructor].
  - rewrite <- E. apply indices_NoDup.
Qed.

(** The commands for distinct pins are those of the cache the loop began with. *)
Lemma control_pins c idx : forall w cached, NoDup idx -> (forall i, i ∈ idx -> dpllPins w !! i = cached !! i) ->
  exists w', concatM (fun i => control_pin i c) idx w = (Ok (commands_at cached c idx), w') /\ log w' = log w /\
    same_labels (dpllPins w') (dpllPins w) /\ (forall i, i ∉ idx -> dpllPins w' !! i = dpllPins w !! i).
Proof.
  induction idx as [|i idx IH]; intros w cached Hn Hc; cbn [concatM commands_at flat_map]; [by exists w|].
  apply NoDup_cons in Hn as [Hi Hn]. rewrite <- (Hc i) by left. unfold bind at 1, control_pin at 1.
  destruct (dpllPins w !! i) as [pin|] eqn:E.
  - destruct (SetPinControlData pin c) as [cmds pin'] eqn:Es.
    destruct (IH (w <| dpllPins := <[i := pin']> (dpllPins w) |>) cached Hn) as (w' & Hr & Hl & Hs & Hk).
    { intros j Hj. cbn. rewrite list_lookup_insert_ne by (by intros ->). apply Hc. by right. }
    exists w'. unfold bind. rewrite Hr. cbn [ret fst]. split_and!; [done|by rewrite Hl| |].
    + unfold same_labels in *. rewrite Hs. cbn. rewrite list_fmap_insert. apply list_insert_id. rewrite list_lookup_fmap, E.
      pose proof (SetPinControlData_label pin c) as Hlab. rewrite Es in Hlab. cbn in *. congruence.
    + intros j Hj. rewrite Hk by (intros ?; apply Hj; by right). cbn. apply list_lookup_insert_ne. intros ->. apply Hj. left.
  - destruct (IH w cached Hn ltac:(intros j Hj; apply Hc; by right)) as (w' & Hr & Hl & Hs & Hk).
    exists w'. unfold bind. rewrite Hr. cbn [ret]. split_and!; [done..|]. intros j Hj. apply Hk. intros ?. apply Hj. by right.
Qed.

(** Controls for disjoint labels do not see each other's changes. *)
Lemma all_nics pins : forall w cached, NoDup (flat_map stands_for pins) -> same_labels (dpllPins w) cached ->
  (forall i pin, cached !! i = Some pin -> piBoardLabel pin ∈ flat_map stands_for pins -> dpllPins w !! i = Some pin) ->
  exists w', SetPinsControlForAllNICs pins w = (Ok (all_commands cached pins, all_found cached pins), w') /\ log w' = log w.
Proof.
  induction pins as [|p pins IH]; intros w cached Hn Hs Hc; [by exists w|]. cbn [flat_map] in Hn. apply NoDup_app in Hn as (Hn1 & Hd & Hn2).
  cbn [SetPinsControlForAllNICs]. unfold bind at 1, get. rewrite (found_labels _ cached) by done.
  destruct (control_pins (ParentControl p) (found_pins (Label p) cached) w cached) as (w1 & Hr & Hl & Hs1 & Hk).
  { apply found_NoDup. }
  { intros i (pin & Hp & Hin)%found_label. rewrite Hp. apply Hc; [done|]. apply elem_of_app. by left. }
  unfold bind at 1. rewrite Hr. destruct (IH w1 cached Hn2) as (w2 & Hr2 & Hl2).
  { unfold same_labels in *. congruence. }
  { intros i pin Hp Hin. rewrite Hk.
    - apply Hc; [done|]. apply elem_of_app. by right.
    - intros (pin' & Hp' & Hin')%found_label. assert (pin' = pin) as -> by congruence. by apply (Hd (piBoardLabel pin)). }
  unfold bind. rewrite Hr2. exists w2. cbn [ret fst snd]. split; [done|congruence].
Qed.

(** The end of a round of commands: sent, and the cache read again. *)
Lemma batch_log `{Env} cmds w : exists r w', batch_and_fetch cmds w = (r, w') /\ log w' = log w ++ [BatchPinSet cmds; FetchPins] /\ r <> Panic.
Proof.
  unfold batch_and_fetch, bind, failed, perform, fetch, bind, get, perform, modify, errors_if, ret, fail.
  destruct (accepts (log w) (BatchPinSet cmds)); cbn;
    (destruct (accepts (log w ++ [BatchPinSet cmds]) FetchPins); do 2 eexists; (split; [reflexivity|]); cbn; by rewrite <- app_assoc).
Qed.

(** C25. Resetting the pins is all or nothing: when every label of the table is on some card,
    one batch with the commands of all those pins is sent and the cache is read again;
    when one is missing, the reset fails and nothing is sent. *)
Theorem defaults_all_or_nothing `{Env} w : exists r w', SetPinDefaults w = (r, w') /\ r <> Panic /\
  if all_found (dpllPins w) pin_defaults
  then log w' = log w ++ [BatchPinSet (all_commands (dpllPins w) pin_defaults); FetchPins]
  else r = Err /\ log w' = log w.
Proof.
  destruct (all_nics pin_defaults w (dpllPins w)) as (w1 & Hr & Hl); [apply (bool_decide_unpack _); vm_compute; exact I|done|done|].
  unfold SetPinDefaults, bind. rewrite Hr. cbn [snd fst]. destruct (all_found (dpllPins w) pin_defaults); cbn [negb].
  - destruct (batch_log (all_commands (dpllPins w) pin_defaults) w1) as (r & w' & Hb & Hlog & Hp). exists r, w'. split_and!; [done..|congruence].
  - exists Err, w1. by split_and!.
Qed.


(** ** A boundary clock and its holdover *)

(** An input parent takes its priority, an output parent its state. *)
Definition input_parent (p : PinParentDevice) : Prop := ppDirection p = PinDirectionInput /\ is_Some (ppPrio p).
Definition output_parent (p : PinParentDevice) : Prop := ppDirection p <> PinDirectionInput.

Lemma steady pin c : EecDirection c = None -> PpsDirection c = None ->
  SetPinControlData pin c = ([mkCtl (piID pin) None None None (nil_if_empty (imap (parent_control pin c) (piParentDevice pin)))], pin).
Proof.
  intros H1 H2. unfold SetPinControlData, buildDirectionCmd.
  assert (forall parents i, turn pin c i parents = ([], parents)) as Ht.
  { induction parents as [|p ps IH]; intros i; cbn [turn]; [done|]. rewrite IH. unfold turned, direction_for.
    destruct i as [|[|i]]; rewrite ?H1, ?H2; done. }
  rewrite Ht. cbn. by destruct pin.
Qed.

Definition steady_command (pin : PinInfo) (c : PinParentControl) : PinParentDeviceCtl :=
  mkCtl (piID pin) None None None (nil_if_empty (imap (parent_control pin c) (piParentDevice pin))).

Lemma control_steady i c w pin : dpllPins w !! i = Some pin -> EecDirection c = None -> PpsDirection c = None ->
  control_pin i c w = (Ok [steady_command pin c], w).
Proof.
  intros Hi H1 H2. unfold control_pin. rewrite Hi, steady by done. f_equal. destruct w. cbn in *. f_equal. by apply list_insert_id.
Qed.

Lemma two_pins `{Env} c w i j p q a b (label label' : string) :
  GetByLabel label (DpllClockID (LeadingNIC c)) (dpllPins w) = Some i -> dpllPins w !! i = Some p ->
  GetByLabel label' (DpllClockID (LeadingNIC c)) (dpllPins w) = Some j -> dpllPins w !! j = Some q ->
  EecDirection a = None -> PpsDirection a = None -> EecDirection b = None -> PpsDirection b = None ->
  SetPinsControl c [mkPinControl label a; mkPinControl label' b] w = (Ok [steady_command p a; steady_command q b], w).
Proof.
  intros Hi Hp Hj Hq H1 H2 H3 H4. unfold SetPinsControl. cbn [concatM Label ParentControl]. unfold bind, get. rewrite Hi.
  rewrite (control_steady _ _ _ _ Hp) by done. rewrite Hj, (control_steady _ _ _ _ Hq) by done. done.
Qed.

Definition steers (pin : PinInfo) : Prop := can pin PinCapState = true /\ can pin PinCapPrio = true.

Definition input_command (pin : PinInfo) (eec pps : PinParentDevice) (prio : Z) : PinParentDeviceCtl :=
  mkCtl (piID pin) None None None
    (Some [mkControl (ppParentID eec) None (Some PriorityDisabled) (Some PinStateSelectable);
           mkControl (ppParentID pps) None (Some prio) (Some PinStateSelectable)]).

Definition output_command (pin : PinInfo) (eec pps : PinParentDevice) (state : Z) : PinParentDeviceCtl :=
  mkCtl (piID pin) None None None
    (Some [mkControl (ppParentID eec) None None (Some state); mkControl (ppParentID pps) None None (Some state)]).

(** Entering holdover takes the 1PPS of the PHC (SDP22) away from both DPLLs of the
    leading card and gives the card their output (SDP23); leaving it does the reverse.
    Nothing else is commanded, the commands are one batch, and the cache is read again
    whether it was accepted or not. *)
Theorem tbc_switched `{Env} c w (holdover : bool) i j p q pe pp qe qp :
  let clock := DpllClockID (LeadingNIC c) in
  GetByLabel sdp22 clock (dpllPins w) = Some i -> dpllPins w !! i = Some p -> piParentDevice p = [pe; pp] ->
  GetByLabel sdp23 clock (dpllPins w) = Some j -> dpllPins w !! j = Some q -> piParentDevice q = [qe; qp] ->
  steers p -> input_parent pe -> input_parent pp -> can q PinCapState = true -> output_parent qe -> output_parent qp ->
  exists r w', (if holdover then EnterHoldoverTBC c else EnterNormalTBC c) w = (r, w') /\ r <> Panic /\
    log w' = log w ++ [BatchPinSet [input_command p pe pp (if holdover then PriorityDisabled else PriorityEnabled);
                                    output_command q qe qp (if holdover then PinStateConnected else PinStateDisconnected)]; FetchPins].
Proof.
  cbn zeta. intros Hi Hp Hpp Hj Hq Hqq [Hps Hpr] [He1 [v1 He2]] [Hf1 [v2 Hf2]] Hqs Ho1 Ho2.
  assert (forall prio, steady_command p (priorities PriorityDisabled prio) = input_command p pe pp prio) as Hin.
  { intros prio. unfold steady_command, input_command. rewrite Hpp. cbn [imap]. unfold compose, parent_control.
    rewrite He1, Hf1, He2, Hf2, Hps, Hpr. done. }
  assert (forall state, steady_command q (outputs state state) = output_command q qe qp state) as Hout.
  { intros state. unfold steady_command, output_command. rewrite Hqq. cbn [imap]. unfold compose, parent_control.
    rewrite Hqs. destruct (Z.eqb_spec (ppDirection qe) PinDirectionInput); [done|]. by destruct (Z.eqb_spec (ppDirection qp) PinDirectionInput). }
  assert (forall prio state, SetPinsControl c [mkPinControl sdp22 (priorities PriorityDisabled prio); mkPinControl sdp23 (outputs state state)] w =
    (Ok [input_command p pe pp prio; output_command q qe qp state], w)) as Hset.
  { intros prio state. rewrite <- Hin, <- Hout. by apply two_pins with (i := i) (j := j). }
  destruct holdover; unfold EnterHoldoverTBC, EnterNormalTBC, tbc_holdover, tbc_normal, bind; rewrite Hset.
  - destruct (batch_log [input_command p pe pp PriorityDisabled; output_command q qe qp PinStateConnected] w) as (r & w' & ? & ? & ?). by exists r, w'.
  - destruct (batch_log [input_command p pe pp PriorityEnabled; output_command q qe qp PinStateDisconnected] w) as (r & w' & ? & ? & ?). by exists r, w'.
Qed.

Definition example_chain : ClockChain := mkChain ClockTypeTBC (mkCard "ens4f0" 1 "ens4f1") [].

Definition example_world : World :=
  mkWorld [example_pin 6 [parent 1 PinDirectionInput; parent 2 PinDirectionInput] sdp22 10;
           example_pin 4 [parent 1 PinDirectionOutput; parent 2 PinDirectionOutput] sdp23 11] example_chain PtpConfig.no_profile [] [] None None.

Lemma tbc_switched_witness : exists r w', EnterHoldoverTBC (H := quiet_env) example_chain example_world = (r, w') /\ r <> Panic /\
  log w' = [BatchPinSet [mkCtl 10 None None None (Some [mkControl 1 None (Some 255) (Some 3); mkControl 2 None (Some 255) (Some 3)]);
                         mkCtl 11 None None None (Some [mkControl 1 None None (Some 1); mkControl 2 None None (Some 1)])]; FetchPins].
Proof.
  apply (@tbc_switched quiet_env example_chain example_world true 0 1 (example_pin 6 [parent 1 PinDirectionInput; parent 2 PinDirectionInput] sdp22 10)
    (example_pin 4 [parent 1 PinDirectionOutput; parent 2 PinDirectionOutput] sdp23 11)
    (parent 1 PinDirectionInput) (parent 2 PinDirectionInput) (parent 1 PinDirectionOutput) (parent 2 PinDirectionOutput)).
  all: try (vm_compute; reflexivity).
  all: try (split; vm_compute; [reflexivity|]); try reflexivity; try (by eexists); done.
Defined.

(** ** What every run keeps *)

Section Keeps.
Context `{Env}.

Lemma keeps_send comps : keeps (send_compensations comps) any.
Proof.
  induction comps as [|dc comps IH]; cbn [send_compensations]; [by apply keeps_ret|].
  eapply keeps_bind; [apply keeps_get|]. intros pins _. destruct (GetByLabel _ _ _); [|done].
  eapply keeps_bind; [by apply keeps_perform|done].
Qed.

Lemma keeps_SetPinsControl c pins : keeps (SetPinsControl c pins) (Forall separate).
Proof.
  apply keeps_concatM. intros p. eapply keeps_bind; [apply keeps_get|]. intros cached _.
  destruct (GetByLabel _ _ _); [apply keeps_control_pin|by apply keeps_ret].
Qed.

Lemma keeps_all_nics pins : keeps (SetPinsControlForAllNICs pins) (fun r => Forall separate r.1).
Proof.
  induction pins as [|p pins IH]; cbn [SetPinsControlForAllNICs]; [by apply keeps_ret|].
  eapply keeps_bind; [apply keeps_get|]. intros cached _.
  eapply keeps_bind; [apply keeps_concatM; intros i; apply keeps_control_pin|]. intros cmds Hc.
  eapply keeps_bind; [exact IH|]. intros rest Hr. apply keeps_ret. cbn. by apply Forall_app.
Qed.

Lemma keeps_SetPinDefaults : keeps SetPinDefaults any.
Proof.
  eapply keeps_bind; [apply keeps_all_nics|]. intros [cmds ok] Hc. destruct ok; cbn; [by apply keeps_batch|apply keeps_fail].
Qed.

Lemma keeps_outputs c : keeps (EnableE810Outputs c) any.
Proof.
  unfold EnableE810Outputs. destruct (ReadDir _) as [[|phc phcs]|]; try apply keeps_fail.
  eapply keeps_bind; [|intros _ _; apply keeps_ignore, keeps_WriteFile].
  destruct (hasSysfsSMAPins _); [apply keeps_ignore, keeps_applyPinSet|].
  eapply keeps_bind; [apply keeps_ignore, keeps_applyPinSet|]. intros _ _.
  eapply keeps_bind; [apply keeps_plugin_pins|]. intros cmds Hc. by apply keeps_ignore, keeps_batch.
Qed.

Lemma keeps_InitPinsTBC c : keeps (InitPinsTBC c) any.
Proof.
  eapply keeps_bind; [apply keeps_outputs|]. intros _ _. eapply keeps_bind; [apply keeps_all_nics|]. intros g Hg.
  eapply keeps_bind; [apply keeps_SetPinsControl|]. intros cmds Hc. apply keeps_batch. by apply Forall_app.
Qed.

Lemma keeps_tbc c pins : keeps (cmds <- SetPinsControl c pins;; batch_and_fetch cmds) any.
Proof. eapply keeps_bind; [apply keeps_SetPinsControl|]. intros cmds Hc. by apply keeps_batch. Qed.

Lemma keeps_set_setting key value : keeps (set_setting key value) any.
Proof. intros w Hw. unfold set_setting. by destruct (PtpConfig.PtpSettings (profile w)). Qed.

Lemma keeps_InitClockChain cards : keeps (InitClockChain cards) any.
Proof.
  eapply keeps_bind; [apply keeps_failed, keeps_fetch|]. intros [] _; [by apply keeps_ret|].
  eapply keeps_bind; [apply keeps_get|]. intros p _. destruct (resolveInterconnections _ _ _) as [c [comps|]]; [|by apply keeps_ret].
  eapply keeps_bind; [apply keeps_ignore; eapply keeps_bind; [by apply keeps_perform|intros _ _; apply keeps_send]|]. intros _ _.
  eapply keeps_bind; [apply keeps_failed, keeps_SetPinDefaults|]. intros [] _; [by apply keeps_ret|].
  destruct (chType c); try by apply keeps_ret.
  eapply keeps_bind; [apply keeps_set_setting|]. intros _ _.
  eapply keeps_bind; [apply keeps_failed, keeps_InitPinsTBC|]. intros bad _. by apply keeps_ret.
Qed.
End Keeps.

(** ** What the code leaves behind *)

(** One label that no card has: the reset fails without a command, and the direction it
    meant to change is in the cache all the same. *)
Lemma failed_reset_turns_cached_pin :
  let w := mkWorld [example_pin 7 [parent 1 PinDirectionOutput; parent 2 PinDirectionOutput] sma1Input 4] no_chain PtpConfig.no_profile [] [] None None in
  let '(r, w') := SetPinDefaults (H := quiet_env) w in
  r = Err /\ log w' = [] /\ map (fun pin => map ppDirection (piParentDevice pin)) (dpllPins w') = [[PinDirectionInput; PinDirectionInput]].
Proof. vm_compute. done. Qed.

End IntelChain.
