(* ===== verification/IntelPlugins.v ===== *)
(** * addons/intel: the plug-ins e810, e825 and e830

    Their options and what is checked of them (validate.go), the serial port of the receiver
    (gnss_detect.go), and what each plug-in does when a profile is applied and after a
    command of the daemon (e810.go, e825.go, e830.go).  The maps of the options are the lists
    of their entries in the order of the ranges over them. *)

From S2P Require Import Prelude Strconv Regex Parser PtpConfig Conf Paths Json UbloxCmd Netlink HwTypes Apply IntelPins IntelChain PhcStep.
From Stdlib Require Import Ascii.

Module IntelPlugins.

Import Netlink Hw IntelPins IntelChain.
#[local] Existing Instance PtpConfig.PtpProfile_fields.
#[local] Open Scope intel_scope.

(** ** Options *)

Record Opts := mkOpts {
  Devices : list string;
  DevicePins : list (string * pinSet);
  DeviceFreqencies : list (string * frqSet);
  DpllSettings : list (string * Z);
  PhaseOffsetPins : list (string * list (string * string));
  EnableDefaultConfig : bool;
  UblxCmds : list UbloxCmd.Command;
  Interconnections : option (list PhaseInputs);
  GnssDisabled : bool;
  LeapSources : LeapSourceOptions
}.
#[export] Instance Opts_fields : Fields Opts := fun o =>
  mkOpts (Devices o) (DevicePins o) (DeviceFreqencies o) (DpllSettings o) (PhaseOffsetPins o) (EnableDefaultConfig o) (UblxCmds o)
    (Interconnections o) (GnssDisabled o) (LeapSources o).

Definition default_opts : Opts := mkOpts [] [] [] [] [] false [] None false defaultLeapSourceOptions.

Inductive plugin := E810 | E825 | E830.

Definition plugin_name (pl : plugin) : string := match pl with E810 => "e810" | E825 => "e825" | E830 => "e830" end.

(** Decoding of slices and maps: [null] is nil. *)
Fixpoint elements {A} (elem : Json.json -> option A) (l : list Json.json) : option (list A) :=
  match l with [] => Some [] | j :: l' => a ← elem j; r ← elements elem l'; Some (a :: r) end.

Definition into_slice {A} (elem : Json.json -> option A) (j : Json.json) : option (option (list A)) :=
  match j with Json.JNull => Some None | Json.JArr l => Some <$> elements elem l | _ => None end.

Definition list_of {A} (elem : Json.json -> option A) (j : Json.json) : option (list A) := default [] <$> into_slice elem j.

Fixpoint put {V} (k : string) (v : V) (m : list (string * V)) : list (string * V) :=
  match m with [] => [(k, v)] | (k', v') :: m' => if str_eqb k k' then (k, v) :: m' else (k', v') :: put k v m' end.

Fixpoint entries {V} (elem : Json.json -> option V) (l : list (string * Json.json)) (m : list (string * V)) : option (list (string * V)) :=
  match l with [] => Some m | (k, j) :: l' => v ← elem j; entries elem l' (put k v m) end.

Definition into_map {V} (elem : Json.json -> option V) (j : Json.json) (old : list (string * V)) : option (list (string * V)) :=
  match j with Json.JNull => Some [] | Json.JObj l => entries elem l old | _ => None end.

Definition str (j : Json.json) : option string := Json.into_string j EmptyString.

(** [strict] is [DisallowUnknownFields]. *)
Section Decode.
Context (strict : bool).

Definition unknown {T} (t : T) : option T := if strict then None else Some t.

Definition set_command (k : string) (v : Json.json) (c : UbloxCmd.Command) : option UbloxCmd.Command :=
  if Json.names "reportOutput" k then b ← Json.into_bool v (UbloxCmd.ReportOutput c); Some (UbloxCmd.mkCommand b (UbloxCmd.Args c))
  else if Json.names "args" k then a ← list_of str v; Some (UbloxCmd.mkCommand (UbloxCmd.ReportOutput c) a)
  else unknown c.

Definition set_input (k : string) (v : Json.json) (c : InputConnector) : option InputConnector :=
  if Json.names "connector" k then s ← Json.into_string v (Connector c); Some (c <| Connector := s |>)
  else if Json.names "delayPs" k then d ← Json.into_int 64 v (DelayPs c); Some (c <| DelayPs := d |>)
  else unknown c.

Definition set_phase (k : string) (v : Json.json) (p : PhaseInputs) : option PhaseInputs :=
  if Json.names "id" k then s ← Json.into_string v (ID p); Some (p <| ID := s |>)
  else if Json.names "Part" k then s ← Json.into_string v (Part p); Some (p <| Part := s |>)
  else if Json.names "inputConnector" k then c ← Json.into_struct set_input v (Input p); Some (p <| Input := c |>)
  else if Json.names "gnssInput" k then b ← Json.into_bool v (GnssInput p); Some (p <| GnssInput := b |>)
  else if Json.names "phaseOutputConnectors" k then l ← list_of str v; Some (p <| PhaseOutputConnectors := l |>)
  else if Json.names "upstreamPort" k then s ← Json.into_string v (phUpstreamPort p); Some (p <| phUpstreamPort := s |>)
  else unknown p.

Definition set_leap (k : string) (v : Json.json) (o : LeapSourceOptions) : option LeapSourceOptions :=
  if Json.names "gps" k then b ← Json.into_bool v (oGPS o); Some (o <| oGPS := b |>)
  else if Json.names "glonass" k then b ← Json.into_bool v (oGLONASS o); Some (o <| oGLONASS := b |>)
  else if Json.names "beidou" k then b ← Json.into_bool v (oBeiDou o); Some (o <| oBeiDou := b |>)
  else if Json.names "galileo" k then b ← Json.into_bool v (oGalileo o); Some (o <| oGalileo := b |>)
  else if Json.names "sbas" k then b ← Json.into_bool v (oSBAS o); Some (o <| oSBAS := b |>)
  else if Json.names "navic" k then b ← Json.into_bool v (oNavIC o); Some (o <| oNavIC := b |>)
  else unknown o.

Definition set_gnss (k : string) (v : Json.json) (o : Opts) : option Opts :=
  if Json.names "disabled" k then b ← Json.into_bool v (GnssDisabled o); Some (o <| GnssDisabled := b |>)
  else if Json.names "leapSources" k then l ← Json.into_struct set_leap v (LeapSources o); Some (o <| LeapSources := l |>)
  else unknown o.

Definition no_command : UbloxCmd.Command := UbloxCmd.mkCommand false [].
Definition no_phase : PhaseInputs := mkPhase "" "" (mkInput "" 0) false [] "".

Definition set_option (pl : plugin) (k : string) (v : Json.json) (o : Opts) : option Opts :=
  if Json.names "devices" k then l ← list_of str v; Some (o <| Devices := l |>)
  else if Json.names "pins" k then m ← into_map (fun j => into_map str j []) v (DevicePins o); Some (o <| DevicePins := m |>)
  else if Json.names "frequencies" k then m ← into_map (list_of str) v (DeviceFreqencies o); Some (o <| DeviceFreqencies := m |>)
  else if Json.names "settings" k then m ← into_map (fun j => Json.into_uint 64 j 0) v (DpllSettings o); Some (o <| DpllSettings := m |>)
  else if Json.names "phaseOffsetPins" k then m ← into_map (fun j => into_map str j []) v (PhaseOffsetPins o); Some (o <| PhaseOffsetPins := m |>)
  else
    match pl with
    | E830 => unknown o
    | _ =>
        if Json.names "enableDefaultConfig" k then b ← Json.into_bool v (EnableDefaultConfig o); Some (o <| EnableDefaultConfig := b |>)
        else if Json.names "ublxCmds" k then
          l ← list_of (fun j => Json.into_struct set_command j no_command) v; Some (o <| UblxCmds := l |>)
        else if Json.names "gnss" k then Json.into_struct set_gnss v o
        else if match pl with E810 => Json.names "interconnections" k | _ => false end then
          l ← into_slice (fun j => Json.into_struct set_phase j no_phase) v; Some (o <| Interconnections := l |>)
        else unknown o
    end.
End Decode.

Definition decode (strict : bool) (pl : plugin) (j : option Json.json) (o : Opts) : option Opts :=
  j ← j; Json.into_struct (set_option strict pl) j o.

(** What the profile holds for the plug-in, after [json.Marshal]; the inner [None] is text
    that is not JSON. *)
Definition raw_options (pl : plugin) (p : PtpConfig.PtpProfile) : option (option Json.json) :=
  m ← PtpConfig.Plugins p;
  raw ← m !! plugin_name pl;
  Some (match raw with None => Some Json.JNull | Some s => if str_eqb s "" then Some Json.JNull else Json.parse s end).

Definition allDevices (o : Opts) : list string :=
  extendWithKeys (extendWithKeys (extendWithKeys (Devices o) (DevicePins o)) (DeviceFreqencies o)) (PhaseOffsetPins o).

(** ** validate.go *)

Inductive Issue :=
| UnknownField
| ParseError
| NoPins (device : string)
| UnknownPin (device pin : string)
| BadValue (device pin value : string)
| BadDirection (device pin direction : string)
| BadChannel (device pin channel : string)
| NoId (i : nat)
| NoPart (i : nat)
| UnknownPart (i : nat)
| UnknownInput (i : nat) (connector : string)
| NoSource (i : nat)
| UnknownOutput (i j : nat) (connector : string).

Definition connectorNamesForPart (part : string) : list string :=
  match InitInternalDelays part with
  | None => []
  | Some d =>
      map (fun l => Json.lower (lkConnector l)) (ExternalInputs d ++ ExternalOutputs d)
      ++ (if str_eqb (lkConnector (idGnssInput d)) "" then [] else [Json.lower (lkConnector (idGnssInput d))])
  end.

Definition isValidPart (part : string) : bool := existsb (fun d => str_eqb (PartType d) part) hardware.

Definition isValidConnector (name : string) (valid : list string) : bool := existsb (str_eqb (Json.lower name)) valid.

Definition validate_card (i : nat) (card : PhaseInputs) : list Issue :=
  (if str_eqb (ID card) "" then [NoId i] else [])
  ++ (if str_eqb (Part card) "" then [NoPart i]
      else if negb (isValidPart (Part card)) then [UnknownPart i]
      else
        let conns := connectorNamesForPart (Part card) in
        let input := Connector (Input card) in
        (if follows card && negb (str_eqb input "") && negb (isValidConnector input conns) then [UnknownInput i input] else [])
        ++ (if follows card && str_eqb input "" then [NoSource i] else [])
        ++ concat (imap (fun j conn => if isValidConnector conn conns then [] else [UnknownOutput i j conn]) (PhaseOutputConnectors card))).

Definition validateInterconnections (cards : list PhaseInputs) : list Issue := concat (imap validate_card cards).

(** [strconv.Atoi] within bounds. *)
Definition number_in (lo : Z) (hi : option Z) (s : string) : bool :=
  match Parser.Atoi s with Some n => (lo <=? n) && match hi with Some h => n <=? h | None => true end | None => false end.

Definition validate_value (device pin value : string) : list Issue :=
  match Conf.Fields value with
  | [d; c] => (if number_in 0 (Some 2) d then [] else [BadDirection device pin d]) ++ (if number_in 0 None c then [] else [BadChannel device pin c])
  | _ => [BadValue device pin value]
  end.

Section Env.
Context `{Env}.

(** The pins are those below /sys, but on an E810 without them the ones of the DPLL. *)
Definition validate_device (pl : plugin) (cached : list PinInfo) (device : string) (pins : pinSet) : list Issue :=
  if match pl with E810 => hasSysfsSMAPins device | _ => true end then
    match ReadDir (device_dir device) with
    | None | Some [] => [NoPins device]
    | Some (phc :: _) =>
        flat_map (fun '(pin, value) =>
          (match ReadFile (pin_path device phc pin) with Some _ => [] | None => [UnknownPin device pin] end) ++ validate_value device pin value) pins
    end
  else
    flat_map (fun '(pin, value) =>
      (match GetAllPinsByLabel pin cached with [] => [UnknownPin device pin] | _ => [] end) ++ validate_value device pin value) pins.

Definition validateDevicePins (pl : plugin) (cached : list PinInfo) (devicePins : list (string * pinSet)) : list Issue :=
  flat_map (fun '(device, pins) => validate_device pl cached device pins) devicePins.

(** An unknown member and a wrong value fail the strict decoder alike. *)
Definition Validate (pl : plugin) (cached : list PinInfo) (j : option Json.json) : list Issue :=
  let zero := default_opts <| LeapSources := mkLeapSources false false false false false false |> in
  (match decode true pl j zero with
   | Some _ => []
   | None => [match decode false pl j zero with Some _ => UnknownField | None => ParseError end]
   end)
  ++ match decode false pl j zero with
     | None => [ParseError]
     | Some o =>
         validateDevicePins pl cached (DevicePins o)
         ++ match Interconnections o with Some cards => validateInterconnections cards | None => [] end
     end.

(** Every answer, or none. *)
Fixpoint collect {A B} (f : A -> option B) (l : list A) : option (list B) :=
  match l with [] => Some [] | x :: l' => y ← f x; r ← collect f l'; Some (y :: r) end.

(** The names of all pins of a device, each once. *)
Definition discoverPHCPins (device : string) : option (list string) :=
  phcs ← ReadDir (device_dir device);
  names ← collect (fun phc => ReadDir (device_dir device +:+ phc +:+ "/pins/")%string) phcs;
  match foldl (fun seen n => if bool_decide (n ∈ seen) then seen else seen ++ [n]) [] (concat names) with [] => None | l => Some l end.

(** ** gnss_detect.go *)

Definition nmeaSerialPortKey : string := "ts2phc.nmea_serialport".
Definition ts2phcMasterKey : string := "ts2phc.master".

Definition findLeadingInterface (ts2phcConf : string) : option string :=
  conf ← parse_config ts2phcConf;
  if negb (HasSection conf "nmea") then None
  else if negb (str_eqb (conf_get conf "global" nmeaSerialPortKey) "") then None
  else first_match (fun s => negb (str_eqb s "global") && negb (str_eqb s "nmea") && negb (str_eqb (conf_get conf s ts2phcMasterKey) "0")) (Sections conf).

(** A line after the first [global] header. *)
Fixpoint after_global (setting : string) (lines : list string) : list string :=
  match lines with
  | [] => []
  | l :: lines' => if str_eqb (Parser.TrimSpace l) "[global]" then l :: setting :: lines' else l :: after_global setting lines'
  end.

Definition autoDetectGNSSSerialPort (p : PtpConfig.PtpProfile) : PtpConfig.PtpProfile :=
  match conf ← PtpConfig.Ts2PhcConf p; i ← findLeadingInterface conf; path ← gnss_device i; Some (conf, path) with
  | None => p
  | Some (conf, path) =>
      p <| PtpConfig.Ts2PhcConf :=
        Some (join newline (after_global (nmeaSerialPortKey +:+ " " +:+ path) (Conf.split_on Conf.newline_char conf))) |>
  end.

(** ** e810.go: the pin index of ts2phc *)

Fixpoint trim_left_char (c : ascii) (s : string) : string :=
  match s with String a s' => if ascii_dec a c then trim_left_char c s' else s | EmptyString => s end.

Fixpoint trim_right_char (c : ascii) (s : string) : string :=
  match s with
  | EmptyString => EmptyString
  | String a s' =>
      let r := trim_right_char c s' in
      if ascii_dec a c then match r with EmptyString => EmptyString | _ => String a r end else String a r
  end.

Definition is_header (line : string) : bool := Conf.starts_with "[" line && PhcStep.ends_with "]" line.

Definition header_name (line : string) : string := Parser.TrimSpace (trim_right_char "]" (trim_left_char "[" line)).

Definition pin_index_line : string := "ts2phc.pin_index 1".

Definition starts (prefix s : string) : bool := bool_decide (is_Some (drop_prefix prefix s)).

Definition needs_index (name : string) : bool := negb (str_eqb name "global") && negb (str_eqb name "nmea") && negb (hasSysfsSMAPins name).

Fixpoint pin_index_lines (should : bool) (lines : list string) : list string :=
  match lines with
  | [] => if should then [pin_index_line] else []
  | line :: lines' =>
      let trimmed := Parser.TrimSpace line in
      let header := is_header trimmed in
      let added := if header && should then [pin_index_line] else [] in
      let should := if header then needs_index (header_name trimmed) else should in
      let should := should && negb (starts "ts2phc.pin_index" trimmed || starts "ts2phc.pin_name" trimmed) in
      added ++ line :: pin_index_lines should lines'
  end.

Definition checkPinIndex (p : PtpConfig.PtpProfile) : PtpConfig.PtpProfile :=
  match PtpConfig.Ts2PhcConf p with
  | None => p
  | Some conf => p <| PtpConfig.Ts2PhcConf := Some (join newline (pin_index_lines false (Conf.split_on Conf.newline_char conf))) |>
  end.

(** ** What the three plug-ins share *)

Definition clock_id_key (device : string) : string := ("clockId[" +:+ device +:+ "]")%string.

Definition lift {A} (o : outcome A) : M A := fun w => (o, w).

Definition update_profile (f : PtpConfig.PtpProfile -> PtpConfig.PtpProfile) : M unit := modify (fun w => w <| profile := f (profile w) |>).

Definition make_settings : M unit :=
  update_profile (fun p => p <| PtpConfig.PtpSettings := Some (default ∅ (PtpConfig.PtpSettings p)) |>).

(** [*nodeProfile.Name] of a profile without a name. *)
Definition named : M unit := p <- get profile;; match PtpConfig.Name p with None => panic | Some _ => ret tt end.

Definition copy_settings (o : Opts) : M unit :=
  forM (fun '(k, v) =>
    p <- get profile;;
    match PtpConfig.setting k p with Some _ => ret tt | None => set_setting k (fmt_d v) end) (DpllSettings o).

Definition offset_key (device clock property : string) : string := join "." [device; "phaseOffsetFilter"%string; clock; property].

Definition tbcConfigured (p : PtpConfig.PtpProfile) : bool := str_eqb (PtpConfig.setting_or_empty "clockType" p) "T-BC".

Definition command_options (pl : plugin) (p : PtpConfig.PtpProfile) : option (option Opts) :=
  j ← raw_options pl p; Some (decode false pl j (default_opts <| LeapSources := mkLeapSources false false false false false false |>)).

Definition run_ublx (o : Opts) : M unit :=
  before <- get log;;
  ignore (perform (RunUblxCmds (UblxCmds o)));;
  modify (fun w => w <| hwplugins := hwplugins w ++ ublx_results before |>).

(** ** e810.go *)

Definition defaultE810PinConfig : pinSet := [("SMA1", "0 1"); ("SMA2", "0 2"); ("U.FL1", "0 1"); ("U.FL2", "0 2")]%string.

Definition pinSetHasSMAInput (pins : pinSet) : bool :=
  existsb (fun '(label, value) => (str_eqb label "SMA1" || str_eqb label "SMA2") && starts "1" (Parser.TrimSpace value)) pins.

Definition clock_of (ids : list (string * Z)) (device : string) : Z := default 0 (snd <$> first_match (fun e => str_eqb e.1 device) ids).

(** The clock identifiers of the devices, written to the settings as well. *)
Fixpoint device_clocks (devices : list string) : M (list (string * Z)) :=
  match devices with
  | [] => ret []
  | d :: ds =>
      id <- lift (getClockID d);;
      set_setting (clock_id_key d) (fmt_d id);;
      rest <- device_clocks ds;;
      ret ((d, id) :: rest)
  end.

Definition e810_chain (o : Opts) : M unit :=
  match Interconnections o with
  | Some cards =>
      r <- InitClockChain cards;;
      modify (fun w => w <| chain := fst r |>);;
      errors_if (negb (snd r));;
      set_setting "leadingInterface" (cardName (LeadingNIC (fst r)));;
      set_setting "upstreamPort" (UpstreamPort (LeadingNIC (fst r)))
  | None =>
      SetPinDefaults;;
      modify (fun w => w <| chain := no_chain |>);;
      ignore fetch
  end.

Definition e810_device_pins (ids : list (string * Z)) (device : string) (pins : pinSet) : M unit :=
  if hasSysfsSMAPins device then applyPinSet device pins
  else
    cmds <- GetCommandsForPluginPinSet (clock_of ids device) pins;;
    if pinSetHasSMAInput pins then
      cached <- get dpllPins;;
      match GetByLabel gnss (clock_of ids device) cached with
      | Some i => more <- control_pin i (priorities 4 4);; ApplyPinCommands (cmds ++ more)
      | None => ApplyPinCommands cmds
      end
    else ApplyPinCommands cmds.

Definition e810_default_pins (ids : list (string * Z)) (device : string) : M unit :=
  if hasSysfsSMAPins device then applyPinSet device defaultE810PinConfig
  else cmds <- GetCommandsForPluginPinSet (clock_of ids device) defaultE810PinConfig;; ApplyPinCommands cmds.

Definition e810_apply (o : Opts) : M unit :=
  make_settings;;
  named;;
  ids <- device_clocks (allDevices o);;
  forM (fun '(device, frequencies) => applyPinFrq device frequencies) (DeviceFreqencies o);;
  copy_settings o;;
  forM (fun '(device, properties) => forM (fun '(k, v) =>
    id <- lift (getClockID device);; set_setting (offset_key device (fmt_d id) k) v) properties) (PhaseOffsetPins o);;
  e810_chain o;;
  (if EnableDefaultConfig o then forM (fun device => ignore (e810_default_pins ids device)) (allDevices o) else ret tt);;
  forM (fun '(device, pins) => ignore (e810_device_pins ids device pins)) (DevicePins o);;
  updateLeapManagerSources (LeapSources o).

Definition validated (pl : plugin) (j : option Json.json) (zero : Opts) : M Opts :=
  cached <- get dpllPins;;
  match Validate pl cached j with
  | [] => match decode false pl j zero with Some o => ret o | None => fail end
  | _ => fail
  end.

Definition OnPTPConfigChangeE810 : M unit :=
  update_profile autoDetectGNSSSerialPort;;
  update_profile checkPinIndex;;
  fetch;;
  p <- get profile;;
  match raw_options E810 p with
  | None => ret tt
  | Some j => o <- validated E810 j default_opts;; e810_apply o
  end.

(** [None] is a nil profile. *)
Definition AfterRunPTPCommandE810 (has_profile : bool) (command : string) : M unit :=
  if negb has_profile then fail
  else
    p <- get profile;;
    match command_options E810 p with
    | None => ret tt
    | Some None => fail
    | Some (Some o) =>
        c <- get chain;;
        if str_eqb command "gpspipe" then run_ublx o
        else if str_eqb command "tbc-ho-exit" then EnterNormalTBC c
        else if str_eqb command "tbc-ho-entry" then EnterHoldoverTBC c
        else if str_eqb command "reset-to-default" then SetPinDefaults
        else ret tt
    end.

(** ** e825.go *)

Definition bcDpllPinReset : pinSet := [("SDP0", "0 0"); ("SDP2", "0 0")]%string.
Definition bcDpllPinSetup : pinSet := [("SDP0", "2 1"); ("SDP2", "2 2")]%string.
Definition bcDpllPeriods : frqSet := ["1 0 0 1 0"; "2 0 0 0 1000000"]%string.
Definition bcDpllInputPins : list string := ["REF0P"; "REF0N"]%string.
Definition PinTypeGNSS : Z := 5.

Definition leadingInterfaceForPinReset (p : PtpConfig.PtpProfile) (devices : list string) : string :=
  let leading := PtpConfig.setting_or_empty "leadingInterface" p in
  if negb (str_eqb leading "") then leading else match devices with d :: _ => d | [] => EmptyString end.

Definition applyNicPinReset (device : string) : M unit :=
  if str_eqb device "" then ret tt else ignore (applyPinSet device bcDpllPinReset).

(** A dump that returns no slice at all is an error. *)
Definition populateDpllPins : M unit :=
  before <- get log;;
  perform DumpPins;;
  match pins_dumped before with None => fail | Some l => modify (fun w => w <| inventory_pins := Some l |>) end.

Definition populateDpllDevices : M unit :=
  before <- get log;;
  perform DumpDevices;;
  match devices_dumped before with None => fail | Some l => modify (fun w => w <| inventory_devices := Some l |>) end.

Definition state_control (state : Z) (parent : PinParentDevice) : Netlink.PinControl := mkControl (ppParentID parent) None None (Some state).

Definition pinCmdSetState (pin : PinInfo) (connectable : bool) : PinParentDeviceCtl :=
  mkCtl (piID pin) None None None
    (Some (map (state_control (if connectable then PinStateSelectable else PinStateDisconnected)) (piParentDevice pin))).

(** The type of the DPLL a parent stands for, the first that matches. *)
Definition parent_type (pin : PinInfo) (devices : list DoDeviceGetReply) (parent : PinParentDevice) : option Z :=
  if negb (ppDirection parent =? PinDirectionInput) then None
  else rpType <$> first_match (fun d => (rpID d =? ppParentID parent) && (rpClockID d =? piClockID pin)) devices.

Definition input_state (type : Z) : option Z :=
  if type =? DpllTypeEEC then Some PinStateDisconnected else if type =? DpllTypePPS then Some PinStateSelectable else None.

Definition pinCmdSetInputStates (pin : PinInfo) (devices : list DoDeviceGetReply) : PinParentDeviceCtl * bool :=
  let types := map (parent_type pin devices) (piParentDevice pin) in
  (mkCtl (piID pin) None None None
     (nil_if_empty (omap (fun parent => t ← parent_type pin devices parent; s ← input_state t; Some (state_control s parent)) (piParentDevice pin))),
   bool_decide (Some DpllTypeEEC ∈ types) && bool_decide (Some DpllTypePPS ∈ types)).

Definition gnss_input (pin : PinInfo) : outcome bool :=
  if (piType pin =? PinTypeGNSS) && can pin PinCapState then
    match piParentDevice pin with [] => Panic | p :: _ => Ok (ppDirection p =? PinDirectionInput) end
  else Ok false.

Fixpoint gnss_pins (pins : list PinInfo) : outcome (list PinInfo) :=
  match pins with
  | [] => Ok []
  | pin :: pins' => obind (gnss_input pin) (fun b => obind (gnss_pins pins') (fun rest => Ok (if b then pin :: rest else rest)))
  end.

Definition setupGnss (disabled : bool) : M unit :=
  inv <- get inventory_pins;;
  match inv with
  | None => fail
  | Some pins =>
      found <- lift (gnss_pins pins);;
      match found with [] => fail | _ => perform (BatchPinSet (map (fun pin => pinCmdSetState pin (negb disabled)) found)) end
  end.

Definition input_pins (pins : list PinInfo) (devices : list DoDeviceGetReply) : list PinParentDeviceCtl :=
  flat_map (fun label => omap (fun pin =>
    if str_eqb (piPackageLabel pin) label && can pin PinCapState then
      let '(cmd, ok) := pinCmdSetInputStates pin devices in if (ok : bool) then Some cmd else None
    else None) pins) bcDpllInputPins.

Definition setupDpllInputPins : M unit :=
  inv <- get inventory_pins;;
  devs <- get inventory_devices;;
  match inv, devs with
  | Some pins, Some devices => match input_pins pins devices with [] => ret tt | cmds => perform (BatchPinSet cmds) end
  | _, _ => fail
  end.

(** The identifier of a device: the one of the ZL3073x when there is one. *)
Definition e825_clock (zl : option Z) (device : string) : M Z := match zl with Some id => ret id | None => lift (getClockID device) end.

Definition is_set (key : string) (p : PtpConfig.PtpProfile) : bool := bool_decide (is_Some (PtpConfig.setting key p)).

Definition e825_pins (isTBC : bool) (devices : list string) : M unit :=
  p <- get profile;;
  if isTBC then
    if negb (is_set "upstreamPort" p) then fail
    else if negb (is_set "leadingInterface" p) then fail
    else
      applyNicPinReset (PtpConfig.setting_or_empty "leadingInterface" p);;
      ignore setupDpllInputPins
  else applyNicPinReset (leadingInterfaceForPinReset p devices).

Definition e825_apply (isTBC : bool) (o : Opts) : M unit :=
  populateDpllDevices;;
  populateDpllPins;;
  devs <- get inventory_devices;;
  let zl := getClockIDByModule "zl3073x" (default [] devs) in
  forM (fun d => id <- e825_clock zl d;; set_setting (clock_id_key d) (fmt_d id)) (allDevices o);;
  forM (fun '(device, pins) => ignore (applyPinSet device pins)) (DevicePins o);;
  forM (fun '(device, frequencies) => ignore (applyPinFrq device frequencies)) (DeviceFreqencies o);;
  copy_settings o;;
  forM (fun '(device, properties) => forM (fun '(k, v) =>
    id <- e825_clock zl device;; set_setting (offset_key device (fmt_d id) k) v) properties) (PhaseOffsetPins o);;
  ignore (setupGnss (GnssDisabled o));;
  updateLeapManagerSources (LeapSources o);;
  e825_pins isTBC (allDevices o).

Definition OnPTPConfigChangeE825 : M unit :=
  named;;
  make_settings;;
  p <- get profile;;
  let isTBC := tbcConfigured p in
  match raw_options E825 p with
  | None => ret tt
  | Some j => o <- validated E825 j (default_opts <| GnssDisabled := isTBC |>);; e825_apply isTBC o
  end.

Definition AfterRunPTPCommandE825 (has_profile : bool) (command : string) : M unit :=
  if negb has_profile then fail
  else
    p <- get profile;;
    match command_options E825 p with
    | None => ret tt
    | Some None => fail
    | Some (Some o) =>
        if str_eqb command "gpspipe" then run_ublx o
        else
          match if tbcConfigured p then PtpConfig.setting "leadingInterface" p else None with
          | None => ret tt
          | Some device =>
              if str_eqb command "tbc-ho-exit" then
                ignore (applyPinSet device bcDpllPinSetup);; ignore (applyPinFrq device bcDpllPeriods)
              else if str_eqb command "tbc-ho-entry" then ignore (applyPinSet device bcDpllPinReset)
              else ret tt
          end
    end.

(** ** e830.go *)

Definition hasDpllForClockID (clockID : Z) : M bool :=
  if clockID =? 0 then ret false
  else
    before <- get log;;
    bad <- failed (perform DumpDevices);;
    ret (negb bad && match devices_dumped before with Some l => existsb (fun d => rpClockID d =? clockID) l | None => false end).

Definition e830_flags (ids : list (string * Z)) (device : string) : M unit :=
  found <- hasDpllForClockID (clock_of ids device);;
  if found : bool then set_setting (Apply.PtpSettingsDpllFlagsKey device) (fmt_d Apply.FlagOnlyPhaseStatus)
  else set_setting (Apply.PtpSettingsDpllIgnoreKey device) "true".

Definition e830_apply (o : Opts) : M unit :=
  ids <- device_clocks (allDevices o);;
  forM (fun '(device, pins) => ignore (applyPinSet device pins)) (DevicePins o);;
  forM (fun '(device, frequencies) => ignore (applyPinFrq device frequencies)) (DeviceFreqencies o);;
  copy_settings o;;
  forM (fun '(device, properties) => forM (fun '(k, v) =>
    p <- get profile;; set_setting (offset_key device (PtpConfig.setting_or_empty (clock_id_key device) p) k) v) properties) (PhaseOffsetPins o);;
  p <- get profile;;
  errors_if (tbcConfigured p && (negb (is_set "upstreamPort" p) || negb (is_set "leadingInterface" p)));;
  forM (e830_flags ids) (allDevices o).

Definition OnPTPConfigChangeE830 : M unit :=
  named;;
  make_settings;;
  p <- get profile;;
  match raw_options E830 p with
  | None => ret tt
  | Some j => o <- validated E830 j default_opts;; e830_apply o
  end.

End Env.

(** * Properties *)

(** ** What validation promises *)

Definition value_ok (value : string) : Prop := exists d c n m,
  Conf.Fields value = [d; c] /\ Parser.Atoi d = Some n /\ 0 <= n <= 2 /\ Parser.Atoi c = Some m /\ 0 <= m.

Lemma validate_value_ok device pin value : validate_value device pin value = [] -> value_ok value.
Proof.
  unfold validate_value, value_ok, number_in. destruct (Conf.Fields value) as [|d [|c [|]]]; try done.
  destruct (Parser.Atoi d) as [n|] eqn:Hd; [|done]. destruct (Parser.Atoi c) as [m|] eqn:Hc; [|by destruct (_ && _)].
  intros E. exists d, c, n, m. cbv beta iota in E. destruct (Z.leb_spec 0 n), (Z.leb_spec n 2), (Z.leb_spec 0 m); cbn in E; try done; split_and!; try done; lia.
Qed.

Lemma flat_map_nil {A B} (f : A -> list B) l x : flat_map f l = [] -> x ∈ l -> f x = [].
Proof.
  induction l as [|y l IH]; cbn; intros E Hx; [by apply elem_of_nil in Hx|]. apply app_eq_nil in E as [E1 E2].
  apply elem_of_cons in Hx as [->|Hx]; [done|by apply IH].
Qed.

Lemma concat_imap_nil {A B} (f : nat -> A -> list B) l : concat (imap f l) = [] -> forall i x, l !! i = Some x -> f i x = [].
Proof.
  revert f. induction l as [|y l IH]; intros f; cbn; [done|]. intros [E1 E2]%app_eq_nil [|i] x; cbn; [by intros [= ->]|].
  by apply (IH (f ∘ S)).
Qed.

Definition card_ok (card : PhaseInputs) : Prop :=
  ID card <> ""%string /\ is_Some (InitInternalDelays (Part card)) /\
  (follows card = true -> isValidConnector (Connector (Input card)) (connectorNamesForPart (Part card)) = true) /\
  Forall (fun conn => isValidConnector conn (connectorNamesForPart (Part card)) = true) (PhaseOutputConnectors card).

Lemma valid_part part : isValidPart part = true -> is_Some (InitInternalDelays part).
Proof. unfold isValidPart, InitInternalDelays, hardware. cbn. destruct (str_eqb _ part); [by eexists|done]. Qed.

Lemma validate_card_ok i card : validate_card i card = [] -> card_ok card.
Proof.
  unfold validate_card, card_ok. intros [E1 E2]%app_eq_nil. destruct (PhcStep.str_eqb_spec (ID card) ""); [done|].
  destruct (str_eqb (Part card) ""); [done|]. destruct (isValidPart (Part card)) eqn:Hp; [|done]. cbn [negb] in E2.
  apply app_eq_nil in E2 as [E3 E4]. apply app_eq_nil in E4 as [E4 E5]. split_and!; [done|by apply valid_part| |].
  - intros Hf. rewrite Hf in E3, E4. cbn in E3, E4. destruct (str_eqb (Connector (Input card)) ""); [done|]. cbn in E3.
    by destruct (isValidConnector _ _).
  - apply Forall_lookup_2. intros j conn Hj. pose proof (concat_imap_nil _ _ E5 j conn Hj) as Hc. cbv beta in Hc.
    by destruct (isValidConnector conn (connectorNamesForPart (Part card))).
Qed.

(** The pin a value is for is below /sys, or a label of the DPLL. *)
Definition pin_known `{Env} (pl : plugin) (cached : list PinInfo) (device pin : string) : Prop :=
  if match pl with E810 => hasSysfsSMAPins device | _ => true end
  then exists phc phcs, ReadDir (device_dir device) = Some (phc :: phcs) /\ is_Some (ReadFile (pin_path device phc pin))
  else GetAllPinsByLabel pin cached <> [].

Lemma validate_device_ok `{Env} pl cached device pins pin value :
  validate_device pl cached device pins = [] -> (pin, value) ∈ pins -> pin_known pl cached device pin /\ value_ok value.
Proof.
  unfold validate_device, pin_known. destruct (match pl with E810 => hasSysfsSMAPins device | _ => true end).
  - destruct (ReadDir (device_dir device)) as [[|phc phcs]|]; [done| |done]. intros E Hin. pose proof (flat_map_nil _ _ _ E Hin) as Hx.
    cbn beta iota in Hx. apply app_eq_nil in Hx as [H1 H2]. split; [|by eapply validate_value_ok]. exists phc, phcs. split; [done|].
    by destruct (ReadFile _).
  - intros E Hin. pose proof (flat_map_nil _ _ _ E Hin) as Hx. cbn beta iota in Hx. apply app_eq_nil in Hx as [H1 H2].
    split; [|by eapply validate_value_ok]. by destruct (GetAllPinsByLabel pin cached).
Qed.

Definition no_options : Opts := default_opts <| LeapSources := mkLeapSources false false false false false false |>.

(** Options without an issue decode with no unknown member; each pin they set exists and
    has a direction from 0 to 2 and a channel that is not negative; each card has a name, a
    known part and connectors that part has. *)
Theorem accepted_options `{Env} pl cached j : Validate pl cached j = [] ->
  exists o, decode false pl j no_options = Some o /\ is_Some (decode true pl j no_options) /\
    (forall device pins pin value, (device, pins) ∈ DevicePins o -> (pin, value) ∈ pins -> pin_known pl cached device pin /\ value_ok value) /\
    (forall cards card, Interconnections o = Some cards -> card ∈ cards -> card_ok card).
Proof.
  unfold Validate. fold no_options. intros [E1 E2]%app_eq_nil. destruct (decode true pl j no_options) as [o'|]; [|done].
  destruct (decode false pl j no_options) as [o|]; [|done]. apply app_eq_nil in E2 as [E2 E3]. exists o.
  split; [done|]. split; [by eexists|]. split.
  - intros device pins pin value Hd Hp. eapply validate_device_ok; [|done]. exact (flat_map_nil _ _ _ E2 Hd).
  - intros cards card Hc [i Hi]%list_elem_of_lookup. rewrite Hc in E3. eapply validate_card_ok. exact (concat_imap_nil _ _ E3 i card Hi).
Qed.

(** A card fed through the connector [SMA1]. *)
Definition example_json (connector : string) : Json.json :=
  Json.JObj [("devices", Json.JArr [Json.JStr "ens4f0"; Json.JStr "ens5f0"]);
    ("interconnections", Json.JArr
      [Json.JObj [("id", Json.JStr "ens4f0"); ("Part", Json.JStr "E810-XXVDA4T"); ("gnssInput", Json.JBool true)];
       Json.JObj [("id", Json.JStr "ens5f0"); ("Part", Json.JStr "E810-XXVDA4T");
         ("inputConnector", Json.JObj [("connector", Json.JStr connector); ("delayPs", Json.of_int 920)])]])]%string.

Lemma accepted_options_witness : Validate (H := quiet_env) E810 [] (Some (example_json "SMA1")) = [] /\
  exists o, decode false E810 (Some (example_json "SMA1")) no_options = Some o /\ Devices o = ["ens4f0"; "ens5f0"]%string /\
    (forall cards card, Interconnections o = Some cards -> card ∈ cards -> card_ok card).
Proof.
  assert (Validate (H := quiet_env) E810 [] (Some (example_json "SMA1")) = []) as E by (vm_compute; reflexivity).
  split; [exact E|]. destruct (@accepted_options quiet_env E810 [] (Some (example_json "SMA1")) E) as (o & Ho & _ & _ & Hc).
  exists o. split; [exact Ho|]. split; [|exact Hc]. vm_compute in Ho. injection Ho as <-. reflexivity.
Defined.

(** Any connector of the part passes for an input; one that is an output only is refused
    when the chain is initialised, after the profile was changed. *)
Lemma validated_not_resolved :
  Validate (H := quiet_env) E810 [] (Some (example_json "u.FL1")) = [] /\
  match decode false E810 (Some (example_json "u.FL1")) no_options with
  | Some o =>
      let p := PtpConfig.no_profile <| PtpConfig.PtpSettings := Some {["clockId[ens4f0]" := "7"; "clockId[ens5f0]" := "8"]}%string |> in
      all_cards p (default [] (Interconnections o)) = None
  | None => False
  end.
Proof. vm_compute. done. Qed.

(** A direction [Atoi] reads but that is not spelled 0, 1 or 2 passes, and is then the value
    that enables an input with the highest priority. *)
Lemma validated_not_understood (cap : Z) :
  validate_value "ens4f0" "SMA1" "00 1" = [] /\ plugin_control "00" 0 [parent 1 PinDirectionInput] no_control = no_control /\
  EecPriority no_control = PriorityEnabled.
Proof. vm_compute. done. Qed.

(** ** What every sequence of calls keeps *)

Inductive call :=
| ChangeE810
| AfterE810 (has_profile : bool) (command : string)
| ChangeE825
| AfterE825 (has_profile : bool) (command : string)
| ChangeE830.

Section Keeps.
Context `{Env}.

Definition run (c : call) : M unit :=
  match c with
  | ChangeE810 => OnPTPConfigChangeE810
  | AfterE810 b s => AfterRunPTPCommandE810 b s
  | ChangeE825 => OnPTPConfigChangeE825
  | AfterE825 b s => AfterRunPTPCommandE825 b s
  | ChangeE830 => OnPTPConfigChangeE830
  end.

(** Calls one after the other, each for a profile; their errors are logged. *)
Fixpoint serve (calls : list (PtpConfig.PtpProfile * call)) (w : World) : World :=
  match calls with [] => w | (p, c) :: calls' => serve calls' (run c (w <| profile := p |>)).2 end.

Lemma keeps_profile f : keeps (update_profile f) any.
Proof. by apply keeps_modify. Qed.

Lemma keeps_lift {A} (o : outcome A) : keeps (lift o) any.
Proof. intros w Hw. unfold lift. by destruct o. Qed.

Lemma keeps_named : keeps named any.
Proof. eapply keeps_bind; [apply keeps_get|]. intros p _. destruct (PtpConfig.Name p); [by apply keeps_ret|apply keeps_panic]. Qed.

Lemma keeps_copy o : keeps (copy_settings o) any.
Proof.
  apply keeps_forM. intros [k v]. eapply keeps_bind; [apply keeps_get|]. intros p _.
  destruct (PtpConfig.setting k p); [by apply keeps_ret|apply keeps_set_setting].
Qed.

Lemma keeps_clocks devices : keeps (device_clocks devices) any.
Proof.
  induction devices as [|d ds IH]; cbn [device_clocks]; [by apply keeps_ret|].
  eapply keeps_bind; [apply keeps_lift|]. intros id _. eapply keeps_bind; [apply keeps_set_setting|]. intros _ _.
  eapply keeps_bind; [exact IH|]. intros rest _. by apply keeps_ret.
Qed.

Lemma keeps_validated pl j zero : keeps (validated pl j zero) any.
Proof.
  eapply keeps_bind; [apply keeps_get|]. intros cached _. destruct (Validate pl cached j); [|apply keeps_fail].
  destruct (decode false pl j zero); [by apply keeps_ret|apply keeps_fail].
Qed.

Lemma keeps_ublx o : keeps (run_ublx o) any.
Proof.
  eapply keeps_bind; [apply keeps_get|]. intros before _. eapply keeps_bind; [by apply keeps_ignore, keeps_perform|]. intros _ _.
  by apply keeps_modify.
Qed.

Lemma keeps_files (pins : list (string * pinSet)) : keeps (forM (fun '(device, pins) => ignore (applyPinSet device pins)) pins) any.
Proof. apply keeps_forM. intros [device ps]. apply keeps_ignore, keeps_applyPinSet. Qed.

Lemma keeps_periods (frqs : list (string * frqSet)) : keeps (forM (fun '(device, f) => ignore (applyPinFrq device f)) frqs) any.
Proof. apply keeps_forM. intros [device fs]. apply keeps_ignore, keeps_applyPinFrq. Qed.

Lemma keeps_e810_chain o : keeps (e810_chain o) any.
Proof.
  unfold e810_chain. destruct (Interconnections o) as [cards|].
  - eapply keeps_bind; [apply keeps_InitClockChain|]. intros r _. eapply keeps_bind; [by apply keeps_modify|]. intros _ _.
    eapply keeps_bind; [apply keeps_errors|]. intros _ _. eapply keeps_bind; [apply keeps_set_setting|]. intros _ _. apply keeps_set_setting.
  - eapply keeps_bind; [apply keeps_SetPinDefaults|]. intros _ _. eapply keeps_bind; [by apply keeps_modify|]. intros _ _.
    apply keeps_ignore, keeps_fetch.
Qed.

Lemma keeps_e810_defaults ids device : keeps (e810_default_pins ids device) any.
Proof.
  unfold e810_default_pins. destruct (hasSysfsSMAPins device); [apply keeps_applyPinSet|].
  eapply keeps_bind; [apply keeps_plugin_pins|]. intros cmds Hc. by apply keeps_batch.
Qed.

Lemma keeps_e810_pins ids device pins : keeps (e810_device_pins ids device pins) any.
Proof.
  unfold e810_device_pins. destruct (hasSysfsSMAPins device); [apply keeps_applyPinSet|].
  eapply keeps_bind; [apply keeps_plugin_pins|]. intros cmds Hc. destruct (pinSetHasSMAInput pins); [|by apply keeps_batch].
  eapply keeps_bind; [apply keeps_get|]. intros cached _. destruct (GetByLabel _ _ _); [|by apply keeps_batch].
  eapply keeps_bind; [apply keeps_control_pin|]. intros more Hm. apply keeps_batch. by apply Forall_app.
Qed.

Lemma keeps_e810 o : keeps (e810_apply o) any.
Proof.
  eapply keeps_bind; [apply keeps_profile|]. intros _ _. eapply keeps_bind; [apply keeps_named|]. intros _ _.
  eapply keeps_bind; [apply keeps_clocks|]. intros ids _.
  eapply keeps_bind; [apply keeps_forM; intros [? ?]; apply keeps_applyPinFrq|]. intros _ _.
  eapply keeps_bind; [apply keeps_copy|]. intros _ _.
  eapply keeps_bind.
  { apply keeps_forM. intros [device ps]. apply keeps_forM. intros [k v]. eapply keeps_bind; [apply keeps_lift|]. intros id _. apply keeps_set_setting. }
  intros _ _. eapply keeps_bind; [apply keeps_e810_chain|]. intros _ _.
  eapply (keeps_bind _ _ any).
  { destruct (EnableDefaultConfig o); [|by apply keeps_ret]. apply keeps_forM. intros device. apply keeps_ignore, keeps_e810_defaults. }
  intros _ _. eapply keeps_bind; [|intros _ _; apply keeps_leap].
  apply keeps_forM. intros [device pins]. apply keeps_ignore, keeps_e810_pins.
Qed.

Lemma states_separate state parents id : separate (mkCtl id None None None (Some (map (state_control state) parents))).
Proof. left. unfold parents_of. cbn. by apply Forall_fmap, Forall_true. Qed.

Lemma keeps_gnss disabled : keeps (setupGnss disabled) any.
Proof.
  eapply keeps_bind; [apply keeps_get|]. intros [pins|] _; [|apply keeps_fail]. eapply keeps_bind; [apply keeps_lift|].
  intros [|pin found] _; [apply keeps_fail|]. apply keeps_perform. apply Forall_fmap, Forall_true. intros x. apply states_separate.
Qed.

Lemma input_pins_separate pins devices : Forall separate (input_pins pins devices).
Proof.
  apply Forall_flat_map, Forall_true. intros label. apply Forall_forall. intros cmd (pin & _ & Hc)%list_elem_of_omap.
  destruct (_ && _); [|done]. unfold pinCmdSetInputStates in Hc. destruct (_ && _); [|done]. injection Hc as <-.
  left. unfold parents_of. cbn. rewrite nil_if_empty_list. apply Forall_forall. intros pc (p & _ & Hp)%list_elem_of_omap.
  destruct (parent_type pin devices p) as [t|]; [|done]. cbn in Hp. destruct (input_state t); [|done]. by injection Hp as <-.
Qed.

Lemma keeps_inputs : keeps setupDpllInputPins any.
Proof.
  eapply keeps_bind; [apply keeps_get|]. intros [pins|] _; (eapply keeps_bind; [apply keeps_get|]; intros [devices|] _); try apply keeps_fail.
  pose proof (input_pins_separate pins devices) as Hs. destruct (input_pins pins devices); [by apply keeps_ret|]. by apply keeps_perform.
Qed.

Lemma keeps_reset device : keeps (applyNicPinReset device) any.
Proof. unfold applyNicPinReset. destruct (str_eqb device ""); [by apply keeps_ret|apply keeps_ignore, keeps_applyPinSet]. Qed.

Lemma keeps_e825_pins isTBC devices : keeps (e825_pins isTBC devices) any.
Proof.
  eapply keeps_bind; [apply keeps_get|]. intros p _. destruct isTBC; [|apply keeps_reset].
  destruct (negb _); [apply keeps_fail|]. destruct (negb _); [apply keeps_fail|].
  eapply keeps_bind; [apply keeps_reset|]. intros _ _. apply keeps_ignore, keeps_inputs.
Qed.

Lemma keeps_clock zl device : keeps (e825_clock zl device) any.
Proof. destruct zl; [by apply keeps_ret|apply keeps_lift]. Qed.

Lemma keeps_e825 isTBC o : keeps (e825_apply isTBC o) any.
Proof.
  eapply keeps_bind; [|intros _ _; eapply keeps_bind].
  { eapply keeps_bind; [apply keeps_get|]. intros before _. eapply keeps_bind; [by apply keeps_perform|]. intros _ _.
    destruct (devices_dumped before); [by apply keeps_modify|apply keeps_fail]. }
  { eapply keeps_bind; [apply keeps_get|]. intros before _. eapply keeps_bind; [by apply keeps_perform|]. intros _ _.
    destruct (pins_dumped before); [by apply keeps_modify|apply keeps_fail]. }
  intros _ _. eapply keeps_bind; [apply keeps_get|]. intros devs _.
  eapply keeps_bind; [apply keeps_forM; intros d; eapply keeps_bind; [apply keeps_clock|intros id _; apply keeps_set_setting]|]. intros _ _.
  eapply keeps_bind; [apply keeps_files|]. intros _ _. eapply keeps_bind; [apply keeps_periods|]. intros _ _.
  eapply keeps_bind; [apply keeps_copy|]. intros _ _.
  eapply keeps_bind.
  { apply keeps_forM. intros [device ps]. apply keeps_forM. intros [k v]. eapply keeps_bind; [apply keeps_clock|]. intros id _. apply keeps_set_setting. }
  intros _ _. eapply keeps_bind; [apply keeps_ignore, keeps_gnss|]. intros _ _. eapply keeps_bind; [apply keeps_leap|]. intros _ _.
  apply keeps_e825_pins.
Qed.

Lemma keeps_has_dpll id : keeps (hasDpllForClockID id) any.
Proof.
  unfold hasDpllForClockID. destruct (id =? 0); [by apply keeps_ret|]. eapply keeps_bind; [apply keeps_get|]. intros before _.
  eapply keeps_bind; [by apply keeps_failed, keeps_perform|]. intros bad _. by apply keeps_ret.
Qed.

Lemma keeps_e830 o : keeps (e830_apply o) any.
Proof.
  eapply keeps_bind; [apply keeps_clocks|]. intros ids _. eapply keeps_bind; [apply keeps_files|]. intros _ _.
  eapply keeps_bind; [apply keeps_periods|]. intros _ _. eapply keeps_bind; [apply keeps_copy|]. intros _ _.
  eapply keeps_bind.
  { apply keeps_forM. intros [device ps]. apply keeps_forM. intros [k v]. eapply keeps_bind; [apply keeps_get|]. intros p _. apply keeps_set_setting. }
  intros _ _. eapply keeps_bind; [apply keeps_get|]. intros p _. eapply keeps_bind; [apply keeps_errors|]. intros _ _.
  apply keeps_forM. intros device. eapply keeps_bind; [apply keeps_has_dpll|]. intros [] _; apply keeps_set_setting.
Qed.

Lemma keeps_options (pl : plugin) (zero : PtpConfig.PtpProfile -> Opts) (f : PtpConfig.PtpProfile -> Opts -> M unit) :
  (forall p o, keeps (f p o) any) ->
  keeps (p <- get profile;; match raw_options pl p with None => ret tt | Some j => o <- validated pl j (zero p);; f p o end) any.
Proof.
  intros Hf. eapply keeps_bind; [apply keeps_get|]. intros p _. destruct (raw_options pl p) as [j|]; [|by apply keeps_ret].
  eapply keeps_bind; [apply keeps_validated|]. intros o _. apply Hf.
Qed.

Lemma keeps_after810 b s : keeps (AfterRunPTPCommandE810 b s) any.
Proof.
  unfold AfterRunPTPCommandE810. destruct b; [|apply keeps_fail]. cbn [negb]. eapply keeps_bind; [apply keeps_get|]. intros p _.
  destruct (command_options E810 p) as [[o|]|]; [|apply keeps_fail|by apply keeps_ret]. eapply keeps_bind; [apply keeps_get|]. intros c _.
  destruct (str_eqb s "gpspipe"); [apply keeps_ublx|]. destruct (str_eqb s "tbc-ho-exit"); [apply keeps_tbc|].
  destruct (str_eqb s "tbc-ho-entry"); [apply keeps_tbc|]. destruct (str_eqb s "reset-to-default"); [apply keeps_SetPinDefaults|by apply keeps_ret].
Qed.

Lemma keeps_after825 b s : keeps (AfterRunPTPCommandE825 b s) any.
Proof.
  unfold AfterRunPTPCommandE825. destruct b; [|apply keeps_fail]. cbn [negb]. eapply keeps_bind; [apply keeps_get|]. intros p _.
  destruct (command_options E825 p) as [[o|]|]; [|apply keeps_fail|by apply keeps_ret].
  destruct (str_eqb s "gpspipe"); [apply keeps_ublx|]. destruct (if tbcConfigured p then _ else None); [|by apply keeps_ret].
  destruct (str_eqb s "tbc-ho-exit").
  - eapply keeps_bind; [apply keeps_ignore, keeps_applyPinSet|]. intros _ _. apply keeps_ignore, keeps_applyPinFrq.
  - destruct (str_eqb s "tbc-ho-entry"); [apply keeps_ignore, keeps_applyPinSet|by apply keeps_ret].
Qed.

Lemma keeps_run c : keeps (run c) any.
Proof.
  destruct c; cbn [run]; [|apply keeps_after810| |apply keeps_after825|].
  - eapply keeps_bind; [apply keeps_profile|]. intros _ _. eapply keeps_bind; [apply keeps_profile|]. intros _ _.
    eapply keeps_bind; [apply keeps_fetch|]. intros _ _. apply (keeps_options E810 (fun _ => default_opts) (fun _ => e810_apply)).
    intros _. apply keeps_e810.
  - eapply keeps_bind; [apply keeps_named|]. intros _ _. eapply keeps_bind; [apply keeps_profile|]. intros _ _.
    apply (keeps_options E825 (fun p => default_opts <| GnssDisabled := tbcConfigured p |>) (fun p => e825_apply (tbcConfigured p))).
    intros p. apply keeps_e825.
  - eapply keeps_bind; [apply keeps_named|]. intros _ _. eapply keeps_bind; [apply keeps_profile|]. intros _ _.
    apply (keeps_options E830 (fun _ => default_opts) (fun _ => e830_apply)). intros _. apply keeps_e830.
Qed.
End Keeps.

Lemma keeps_log {A} (m : M A) w : keeps m any -> Forall sent_separately (log w) -> Forall sent_separately (log (m w).2).
Proof. intros Hm Hw. specialize (Hm w Hw). destruct (m w) as [[a| |] w']; [by destruct Hm|done..]. Qed.

(** C24. Whatever profiles the three plug-ins are given, in whatever order they and the
    commands of the daemon are called, and whatever files, dumps and the kernel answer, no
    command they send to the DPLL combines a change of direction with a priority or a state,
    which the kernel would refuse: a command that turns a parent of a pin carries neither
    for any of its parents. *)
Theorem directions_sent_alone `{Env} calls w : log w = [] -> Forall sent_separately (log (serve calls w)).
Proof.
  intros Hw. assert (Forall sent_separately (log w)) as Hs by by rewrite Hw. clear Hw. revert w Hs.
  induction calls as [|[p c] calls IH]; intros w Hs; cbn [serve]; [done|]. apply IH.
  apply keeps_log; [apply keeps_run|exact Hs].
Qed.

(** A card with the pins of the table, SMA1 an output until it is told otherwise. *)
Definition card_pins : list PinInfo :=
  imap (fun i '(label, d) => example_pin 7 [parent 1 d; parent 2 d] label (Z.of_nat i + 10))
    [(gnss, PinDirectionInput); (sma1Input, PinDirectionOutput); (sma2, PinDirectionInput); (sdp20, PinDirectionInput); (sdp22, PinDirectionInput);
     (sdp21, PinDirectionOutput); (sdp23, PinDirectionOutput); (c8270Rclka, PinDirectionInput); (c8270Rclkb, PinDirectionInput)].

Definition card_env : Env := {|
  ReadDir := fun _ => None;
  ReadFile := fun path => if str_eqb path (config_path "ens4f0") then Some example_config else None;
  Readlink := fun _ => None;
  accepts := fun _ _ => true;
  pins_dumped := fun _ => Some card_pins;
  devices_dumped := fun _ => None;
  devlink_info := fun _ => None;
  ublx_results := fun _ => [];
  has_leap_manager := false;
  gnss_device := fun _ => None;
  parse_config := fun _ => None
|}.

Definition example_profile : PtpConfig.PtpProfile :=
  PtpConfig.no_profile <| PtpConfig.Name := Some "grandmaster"%string |>
    <| PtpConfig.Plugins := Some {["e810"%string := Some (Json.Marshal (Json.JObj [("devices"%string, Json.JArr [Json.JStr "ens4f0"])]))]} |>.

Definition batches (es : list Effect) : list (list PinParentDeviceCtl) := omap (fun e => match e with BatchPinSet l => Some l | _ => None end) es.

Definition start_world : World := mkWorld card_pins no_chain PtpConfig.no_profile [] [] None None.

(** Each time a command for every one of the nine pins, and the one that turns SMA1. *)
Lemma directions_sent_alone_witness :
  let es := log (serve (H := card_env) [(example_profile, ChangeE810); (example_profile, AfterE810 true "reset-to-default")] start_world) in
  map length (batches es) = [10; 10]%nat /\ Forall sent_separately es.
Proof. cbn zeta. split; [vm_compute; reflexivity|]. apply (@directions_sent_alone card_env). reflexivity. Defined.

End IntelPlugins.
