(* ===== verification/NetUtils.v ===== *)
(** * pkg/network: what the system tells of its network cards

    utils.go and hardware_info.go: which ports have hardware time stamps, the PTP clock
    of a port, its driver, its link, and the vital product data (VPD) of its card, read
    from the text of lspci or from the binary image the kernel exposes.  What the tools
    print, the files of /sys and the inventory of the third-party package ghw are fields
    of [System].  A byte is an integer from 0 to 255.

    The output of ethtool -T is read by a scanner of lines; one of 64 KiB or more, which
    would leave a rest in the buffer, is not considered. *)

From S2P Require Import Prelude Strconv Regex Parser Alias Conf HwTypes Attr Paths GnssDevice Wire.
From Stdlib Require Import Ascii.

#[local] Open Scope Z_scope.

Module NetUtils.

Import Hw Regex.
#[local] Open Scope outcome_scope.

Record NIC := mkNIC { nicName : string; nicPCI : option string }.

(** A command that is run: what it prints on its standard output and whether it succeeds. *)
Record System := mkSystem {
  ethtoolInstalled : bool;
  sysNetwork : option (list NIC);              (* ghw.Network() *)
  sysVirtual : string -> bool;                 (* /sys/bus/pci/devices/<address>/physfn *)
  sysTimestamps : string -> string * bool;     (* ethtool -T *)
  sysCombined : string -> option string;       (* ethtool -T, both outputs, if it succeeds *)
  sysDriver : string -> option string;         (* ethtool -i *)
  sysLink : string -> option string;           (* ethtool <name> *)
  sysFEC : string -> option string;            (* ethtool --show-fec *)
  sysLspci : string -> option string;          (* lspci -v -s *)
  sysLspciVerbose : string -> option string;   (* lspci -vvv -s *)
  sysDriverLink : string -> option string;     (* readlink <path> *)
  sysVPD : string -> option (option (list Z)); (* open and read the vpd file *)
  sysGlob : string -> option (list string)
}.

Definition TrimPrefix (s p : string) : string := default s (drop_prefix p s).
Definition has_prefix (p s : string) : bool := bool_decide (is_Some (drop_prefix p s)).

Definition tab : string := String (ascii_of_N 9) EmptyString.

(** The value after a label, with the space around it removed. *)
Definition value_after (label line : string) : string := Parser.TrimSpace (TrimPrefix line label).

(** ** Hardware time stamps *)

Definition ETHTOOL_HARDWARE_RECEIVE_CAP : string := "hardware-receive".
Definition ETHTOOL_HARDWARE_TRANSMIT_CAP : string := "hardware-transmit".
Definition ETHTOOL_HARDWARE_RAW_CLOCK_CAP : string := "hardware-raw-clock".

Definition note (word : string) (c : bool * bool * bool) : bool * bool * bool :=
  let '(rx, tx, raw) := c in
  (rx || str_eqb word ETHTOOL_HARDWARE_RECEIVE_CAP, tx || str_eqb word ETHTOOL_HARDWARE_TRANSMIT_CAP,
   raw || str_eqb word ETHTOOL_HARDWARE_RAW_CLOCK_CAP).

(** The first word of every line; a line without one is out of range. *)
Fixpoint note_lines (lines : list string) (c : bool * bool * bool) : outcome (bool * bool * bool) :=
  match lines with
  | [] => Ok c
  | line :: lines' => match Conf.Fields (TrimPrefix line tab) with [] => Panic | word :: _ => note_lines lines' (note word c) end
  end.

Definition netParseEthtoolTimeStampFeature (cmdOut : string) : outcome bool :=
  '(rx, tx, raw) <-! note_lines (Wire.scan_lines cmdOut) (false, false, false);
  Ok (rx && tx && raw).

(** The loop of [DiscoverPTPDevices]: one buffer collects the output of every command,
    and reading it empties it. *)
Fixpoint discover (sys : System) (devs : list NIC) (out : string) : outcome (list string) :=
  match devs with
  | [] => Ok []
  | dev :: devs' =>
      match nicPCI dev with
      | None => discover sys devs' out
      | Some address =>
          if sysVirtual sys address then discover sys devs' out
          else
            let out := (out +:+ (sysTimestamps sys (nicName dev)).1)%string in
            if (sysTimestamps sys (nicName dev)).2 then
              capable <-! netParseEthtoolTimeStampFeature out;
              nics <-! discover sys devs' EmptyString;
              Ok (if capable : bool then nicName dev :: nics else nics)
            else discover sys devs' out
      end
  end.

Definition DiscoverPTPDevices (sys : System) : outcome (list string) :=
  if ethtoolInstalled sys then devs <-! or_err (sysNetwork sys); discover sys devs EmptyString else Err.

(** ** The PTP clock of a port *)

(** The digits [fmt.Sscan] reads for an integer, with the prefix that gives their base. *)
Fixpoint accept_run (ok : ascii -> bool) (s : string) : string :=
  match s with String c s' => if ok c then String c (accept_run ok s') else EmptyString | EmptyString => EmptyString end.

Definition digit_below (base : Z) (c : ascii) : bool := (char_digit (lower c) <? base) || str_eqb (String c EmptyString) "_".

Definition scan_number (s : string) : string :=
  match s with
  | String "0" (String b r) =>
      if str_eqb (String (lower b) EmptyString) "b" then String "0" (String b (accept_run (digit_below 2) r))
      else if str_eqb (String (lower b) EmptyString) "o" then String "0" (String b (accept_run (digit_below 8) r))
      else if str_eqb (String (lower b) EmptyString) "x" then String "0" (String b (accept_run (digit_below 16) r))
      else String "0" (accept_run (digit_below 8) (String b r))
  | _ => accept_run (digit_below 10) s
  end.

(** [fmt.Sscan] into an int: [None] is an error, which leaves the variable at 0. *)
Definition Sscan (s : string) : option Z :=
  let s := Parser.trim_left s in
  let '(negative, s) := match s with String "-" r => (true, r) | String "+" r => (false, r) | _ => (false, s) end in
  n ← ParseUint0 (scan_number s) 64;
  if (negative : bool) then if n <=? 2 ^ 63 then Some (- n) else None else if n <? 2 ^ 63 then Some n else None.

Definition scanned (s : string) : Z * bool := match Sscan s with Some n => (n, true) | None => (0, false) end.

Definition classic_re : Regexp := Eval vm_compute in Parser.pattern "PTP Hardware Clock:\s*(\d+)".
Definition provider_re : Regexp := Eval vm_compute in Parser.pattern "Hardware timestamp provider index:\s*(\d+)".

(** The index, and whether there is no error. *)
Definition getPTPClockIndex (sys : System) (iface : string) : Z * bool :=
  if ethtoolInstalled sys then
    match sysCombined sys iface with
    | None => (-1, false)
    | Some out =>
        match FindStringSubmatch classic_re out, FindStringSubmatch provider_re out with
        | Some [_; n], _ => scanned n
        | _, Some [_; n] => scanned n
        | _, _ =>
            match sysGlob sys ("/sys/class/net/" +:+ iface +:+ "/ptp/ptp*")%string with
            | Some (first :: _) =>
                match drop_prefix "ptp" (Paths.Base first) with Some n => scanned n | None => (-1, false) end
            | _ => (-1, false)
            end
        end
    end
  else (0, false).

Definition GetPhcId (sys : System) (iface : string) : string :=
  let '(id, ok) := getPTPClockIndex sys iface in
  if ok then ("/dev/ptp" +:+ fmt_d id)%string else EmptyString.

(** ** The driver and the link *)

Record EthtoolInfo := mkEthtool {
  Driver : string; DriverVersion : string; FirmwareVersion : string; BusInfo : string; ExpansionRom : string
}.

#[export] Instance EthtoolInfo_fields : Fields EthtoolInfo := fun i =>
  mkEthtool (Driver i) (DriverVersion i) (FirmwareVersion i) (BusInfo i) (ExpansionRom i).

Definition set_ethtool (key value : string) (i : EthtoolInfo) : EthtoolInfo :=
  if str_eqb key "driver" then i <| Driver := value |>
  else if str_eqb key "version" then i <| DriverVersion := value |>
  else if str_eqb key "firmware-version" then i <| FirmwareVersion := value |>
  else if str_eqb key "bus-info" then i <| BusInfo := value |>
  else if str_eqb key "expansion-rom-version" then i <| ExpansionRom := value |>
  else i.

Definition ethtool_line (i : EthtoolInfo) (line : string) : EthtoolInfo :=
  match GnssDevice.cut_at ":" line with
  | Some (key, value) => set_ethtool (Parser.TrimSpace key) (Parser.TrimSpace value) i
  | None => i
  end.

Definition parse_ethtool (output : string) : EthtoolInfo :=
  foldl ethtool_line (mkEthtool "" "" "" "" "") (Conf.split_on Conf.newline_char output).

Definition GetEthtoolInfo (sys : System) (deviceName : string) : option EthtoolInfo :=
  if ethtoolInstalled sys then parse_ethtool <$> sysDriver sys deviceName else None.

(** The driver of the first line that names one. *)
Definition GetDriverByLspci (sys : System) (pciAddress : string) : string :=
  match sysLspci sys pciAddress with
  | None => EmptyString
  | Some out =>
      match List.find (has_prefix "Kernel driver in use:") (map Parser.TrimSpace (Wire.scan_lines out)) with
      | Some line => value_after "Kernel driver in use:" line
      | None => EmptyString
      end
  end.

Record LinkInfo := mkLink { LinkDetected : bool; Speed : string; Duplex : string; FEC : string }.

#[export] Instance LinkInfo_fields : Fields LinkInfo := fun i => mkLink (LinkDetected i) (Speed i) (Duplex i) (FEC i).

Definition link_line (i : LinkInfo) (line : string) : LinkInfo :=
  let line := Parser.TrimSpace line in
  if has_prefix "Speed:" line then
    (if str_eqb (value_after "Speed:" line) "Unknown!" then i else i <| Speed := value_after "Speed:" line |>)
  else if has_prefix "Duplex:" line then i <| Duplex := value_after "Duplex:" line |>
  else if has_prefix "Link detected:" line then i <| LinkDetected := str_eqb (value_after "Link detected:" line) "yes" |>
  else i.

(** The encoding in use ends the search; what is configured counts only until then. *)
Fixpoint fec_lines (fec : string) (lines : list string) : string :=
  match lines with
  | [] => fec
  | line :: lines' =>
      let line := Parser.TrimSpace line in
      if has_prefix "Active FEC encoding:" line then value_after "Active FEC encoding:" line
      else if has_prefix "Configured FEC encodings:" line && str_eqb fec ""
           then fec_lines (value_after "Configured FEC encodings:" line) lines'
           else fec_lines fec lines'
  end.

Definition GetLinkInfo (sys : System) (deviceName : string) : option LinkInfo :=
  if ethtoolInstalled sys then
    output ← sysLink sys deviceName;
    let info := foldl link_line (mkLink false "" "" "") (Conf.split_on Conf.newline_char output) in
    Some (match sysFEC sys deviceName with
          | Some out => info <| FEC := fec_lines EmptyString (Conf.split_on Conf.newline_char out) |>
          | None => info
          end)
  else None.

(** ** Vital product data *)

Record VPDInfo := mkVPD {
  IdentifierString : string; PartNumber : string; SerialNumber : string; ManufacturerID : string;
  VendorSpecific1 : string; VendorSpecific2 : string; ProductName : string
}.

#[export] Instance VPDInfo_fields : Fields VPDInfo := fun v =>
  mkVPD (IdentifierString v) (PartNumber v) (SerialNumber v) (ManufacturerID v) (VendorSpecific1 v) (VendorSpecific2 v) (ProductName v).

Definition no_vpd : VPDInfo := mkVPD "" "" "" "" "" "" "".

Fixpoint trim_spaces (s : string) : string :=
  match s with
  | EmptyString => EmptyString
  | String c s' => match trim_spaces s' with EmptyString => if ascii_dec c " " then EmptyString else String c EmptyString | t => String c t end
  end.

Definition printable (b : Z) : bool := (32 <=? b) && (b <? 127).

(** A byte of 128 or more is part of a rune that is not printable. *)
Definition cleanVPDBytes (b : list Z) : string := trim_spaces (Attr.text (List.filter printable b)).

(** [l[i]] and [l[a:b]]. *)
Definition at_ {A} (l : list A) (i : nat) : outcome A := deref (l !! i).
Definition slice {A} (l : list A) (a b : nat) : outcome (list A) :=
  if ((a <=? b) && (b <=? length l))%nat then Ok (take (b - a) (drop a l)) else Panic.

Definition set_keyword (kw val : string) (v : VPDInfo) : VPDInfo :=
  if str_eqb kw "PN" then v <| PartNumber := val |>
  else if str_eqb kw "SN" then v <| SerialNumber := val |>
  else if str_eqb kw "MN" then v <| ManufacturerID := val |>
  else if str_eqb kw "V0" then v <| ProductName := val |>
  else if str_eqb kw "V1" then v <| VendorSpecific1 := val |>
  else if str_eqb kw "V2" then v <| VendorSpecific2 := val |>
  else v.

(** The loops over the bytes.  Running out of fuel counts as a panic; [vpd_total] shows
    that neither happens. *)
Fixpoint keywords_loop (fuel : nat) (block : list Z) (offset : nat) (v : VPDInfo) : outcome VPDInfo :=
  match fuel with
  | O => Panic
  | S fuel' =>
      if (offset + 3 <=? length block)%nat then
        kw <-! slice block offset (offset + 2);
        ln <-! at_ block (offset + 2);
        let offset := (offset + 3)%nat in
        if (length block <? offset + Z.to_nat ln)%nat then Ok v
        else
          val <-! slice block offset (offset + Z.to_nat ln);
          keywords_loop fuel' block (offset + Z.to_nat ln) (set_keyword (Attr.text kw) (cleanVPDBytes val) v)
      else Ok v
  end.

Definition parseVPDKeywords (block : list Z) (v : VPDInfo) : outcome VPDInfo := keywords_loop (S (length block)) block 0 v.

Definition end_tag : Z := 120.
Definition identifier_tag : Z := 130.
Definition keywords_tag : Z := 144.

Definition read_block (tag : Z) (block : list Z) (v : VPDInfo) : outcome VPDInfo :=
  if tag =? identifier_tag then Ok (v <| IdentifierString := cleanVPDBytes block |>)
  else if tag =? keywords_tag then parseVPDKeywords block v
  else Ok v.

Fixpoint blocks_loop (fuel : nat) (data : list Z) (offset : nat) (v : VPDInfo) : outcome VPDInfo :=
  match fuel with
  | O => Panic
  | S fuel' =>
      if (offset <? length data)%nat then
        tag <-! at_ data offset;
        if tag =? end_tag then Ok v
        else if (length data <? offset + 3)%nat then Ok v
        else
          lo <-! at_ data (offset + 1);
          hi <-! at_ data (offset + 2);
          let blockLen := Z.to_nat (Z.lor lo (Z.shiftl hi 8)) in
          let offset := (offset + 3)%nat in
          if (length data <? offset + blockLen)%nat then Ok v
          else
            block <-! slice data offset (offset + blockLen);
            v <-! read_block tag block v;
            blocks_loop fuel' data (offset + blockLen) v
      else Ok v
  end.

(** [data] is [None] when the file cannot be read. *)
Definition parseSysfsVPD (data : option (list Z)) : outcome VPDInfo :=
  data <-! or_err data;
  match data with [] => Err | _ => blocks_loop (S (length data)) data 0 no_vpd end.

Definition extractLspciField (line : string) : string :=
  match GnssDevice.cut_at ":" line with Some (_, value) => Parser.TrimSpace value | None => EmptyString end.

Definition lspci_field (trimmed : string) (v : VPDInfo) : VPDInfo :=
  let v := if has_prefix "Product Name:" trimmed then v <| IdentifierString := value_after "Product Name:" trimmed |> else v in
  let v := if has_prefix "[PN]" trimmed then v <| PartNumber := extractLspciField trimmed |> else v in
  let v := if has_prefix "[SN]" trimmed then v <| SerialNumber := extractLspciField trimmed |> else v in
  let v := if has_prefix "[MN]" trimmed then v <| ManufacturerID := extractLspciField trimmed |> else v in
  let v := if has_prefix "[V0]" trimmed then v <| ProductName := extractLspciField trimmed |> else v in
  let v := if has_prefix "[V1]" trimmed then v <| VendorSpecific1 := extractLspciField trimmed |> else v in
  if has_prefix "[V2]" trimmed then v <| VendorSpecific2 := extractLspciField trimmed |> else v.

Definition indented (line : string) : bool := has_prefix tab line || has_prefix "        " line.

Fixpoint lspci_lines (inVPD : bool) (lines : list string) (v : VPDInfo) : VPDInfo :=
  match lines with
  | [] => v
  | line :: lines' =>
      let trimmed := Parser.TrimSpace line in
      if has_prefix "Vital Product Data" trimmed then lspci_lines true lines' v
      else if inVPD then
        if negb (indented line) then v
        else if has_prefix "End" trimmed then v
        else lspci_lines true lines' (lspci_field trimmed v)
      else lspci_lines false lines' v
  end.

Definition parseLspciVPD (output : string) : VPDInfo := lspci_lines false (Wire.scan_lines output) no_vpd.

Definition tells (v : VPDInfo) : bool :=
  negb (str_eqb (PartNumber v) "") || negb (str_eqb (IdentifierString v) "") || negb (str_eqb (SerialNumber v) "").

Definition GetVPDInfo (sys : System) (pciAddress : string) : outcome VPDInfo :=
  let from_sysfs := file <-! or_err (sysVPD sys ("/sys/bus/pci/devices/" +:+ pciAddress +:+ "/vpd")%string); parseSysfsVPD file in
  match sysLspciVerbose sys pciAddress with
  | Some out =>
      if Regex.contains "Vital Product Data" out && tells (parseLspciVPD out) then Ok (parseLspciVPD out) else from_sysfs
  | None => from_sysfs
  end.

(** ** The hardware of a port *)

Record HardwareInfo := mkHardware {
  hwPCIAddress : string; hwDriverVersion : string; hwFirmwareVersion : string;
  hwLinkStatus : string; hwLinkSpeed : string; hwFEC : string; hwVPD : VPDInfo
}.

#[export] Instance HardwareInfo_fields : Fields HardwareInfo := fun h =>
  mkHardware (hwPCIAddress h) (hwDriverVersion h) (hwFirmwareVersion h) (hwLinkStatus h) (hwLinkSpeed h) (hwFEC h) (hwVPD h).

Definition or_unknown (s : string) : string := if str_eqb s "" then "unknown" else s.

(** The driver when ethtool does not tell. *)
Definition fallback_driver (sys : System) (address : string) : string :=
  let driver := GetDriverByLspci sys address in
  if negb (str_eqb driver "") then driver
  else match sysDriverLink sys (Paths.Join [("/sys/bus/pci/devices/" +:+ address)%string; "driver"%string]) with
       | Some link => Paths.Base link
       | None => EmptyString
       end.

Definition driver_version (i : EthtoolInfo) : string :=
  if negb (str_eqb (DriverVersion i) "") then (Driver i +:+ " v" +:+ DriverVersion i)%string else Driver i.

Definition GetHardwareInfo (sys : System) (deviceName : string) : option HardwareInfo :=
  nics ← sysNetwork sys;
  nic ← List.find (fun nic => str_eqb (nicName nic) deviceName) nics;
  address ← nicPCI nic;
  let hw := mkHardware address "" "" "" "" "" no_vpd in
  let hw := match GetEthtoolInfo sys deviceName with
            | None => hw <| hwDriverVersion := fallback_driver sys address |>
            | Some i => hw <| hwDriverVersion := driver_version i |> <| hwFirmwareVersion := FirmwareVersion i |>
            end in
  Some (match GetLinkInfo sys deviceName with
        | None => hw
        | Some i => hw <| hwLinkStatus := if LinkDetected i then "up" else "down" |>
                       <| hwLinkSpeed := or_unknown (Speed i) |> <| hwFEC := or_unknown (FEC i) |>
        end).


(** ** The binary image is read back *)




Lemma slice_ok {A} (l : list A) a b : (a <= b <= length l)%nat -> exists s, slice l a b = Ok s.
Proof. intros H. unfold slice. replace (_ && _)%nat with true; [by eexists|]. symmetry. apply andb_true_iff. split; apply Nat.leb_le; lia. Qed.

Lemma at_ok {A} (l : list A) i : (i < length l)%nat -> exists x, at_ l i = Ok x.
Proof. intros H. unfold at_. destruct (lookup_lt_is_Some_2 l i H) as [x ->]. by exists x. Qed.

Lemma keywords_total block fuel offset v : (length block < offset + fuel)%nat -> exists v', keywords_loop fuel block offset v = Ok v' \/ fuel = O.
Proof.
  revert offset v. induction fuel as [|fuel IH]; intros offset v Hf; [by exists v; right|]. cbn [keywords_loop].
  destruct (Nat.leb_spec (offset + 3) (length block)) as [H|H]; [|by eexists; left].
  destruct (slice_ok block offset (offset + 2)) as [kw ->]; [lia|]. destruct (at_ok block (offset + 2)) as [ln ->]; [lia|]. cbn [obind].
  destruct (Nat.ltb_spec (length block) (offset + 3 + Z.to_nat ln)) as [H'|H']; [by eexists; left|].
  destruct (slice_ok block (offset + 3) (offset + 3 + Z.to_nat ln)) as [val ->]; [lia|]. cbn [obind].
  destruct (IH (offset + 3 + Z.to_nat ln)%nat (set_keyword (Attr.text kw) (cleanVPDBytes val) v)) as [v' [E| ->]]; [lia|by exists v'; left|lia].
Qed.

Lemma parseVPDKeywords_total block v : exists v', parseVPDKeywords block v = Ok v'.
Proof. destruct (keywords_total block (S (length block)) 0 v) as [v' [E|?]]; [lia|by exists v'|done]. Qed.

Lemma read_block_total tag block v : exists v', read_block tag block v = Ok v'.
Proof. unfold read_block. destruct (tag =? identifier_tag); [by eexists|]. destruct (tag =? keywords_tag); [apply parseVPDKeywords_total|by eexists]. Qed.

Lemma blocks_total data fuel offset v : (length data < offset + fuel)%nat -> exists v', blocks_loop fuel data offset v = Ok v' \/ fuel = O.
Proof.
  revert offset v. induction fuel as [|fuel IH]; intros offset v Hf; [by exists v; right|]. cbn [blocks_loop].
  destruct (Nat.ltb_spec offset (length data)) as [H|H]; [|by eexists; left].
  destruct (at_ok data offset) as [tag ->]; [lia|]. cbn [obind]. destruct (tag =? end_tag); [by eexists; left|].
  destruct (Nat.ltb_spec (length data) (offset + 3)) as [H'|H']; [by eexists; left|].
  destruct (at_ok data (offset + 1)) as [lo ->]; [lia|]. destruct (at_ok data (offset + 2)) as [hi ->]; [lia|]. cbn [obind].
  set (n := Z.to_nat _). clearbody n. destruct (Nat.ltb_spec (length data) (offset + 3 + n)) as [H''|H'']; [by eexists; left|].
  destruct (slice_ok data (offset + 3) (offset + 3 + n)) as [block ->]; [lia|]. cbn [obind].
  destruct (read_block_total tag block v) as [v1 ->]. cbn [obind].
  destruct (IH (offset + 3 + n)%nat v1) as [v' [E| ->]]; [lia|by exists v'; left|lia].
Qed.

(** Whatever bytes the VPD file of a card holds, reading it ends without an index or a
    slice out of range: an empty file is an error, any other gives product data. *)
Theorem vpd_total data :
  match data with
  | Some (_ :: _) => exists v, parseSysfsVPD data = Ok v
  | _ => parseSysfsVPD data = Err
  end.
Proof.
  destruct data as [[|b data]|]; [done| |done]. unfold parseSysfsVPD. cbn [or_err obind].
  destruct (blocks_total (b :: data) (S (length (b :: data))) 0 no_vpd) as [v [E|?]]; [lia|by exists v|done].
Qed.





















(** ** Where the tools are misread *)

(** An empty line in the output of [ethtool -T] is indexed at its first word. *)
Lemma empty_line_panics : netParseEthtoolTimeStampFeature (String (ascii_of_N 10) "x") = Panic.
Proof. vm_compute. reflexivity. Qed.

Definition newline : string := String (ascii_of_N 10) EmptyString.

Definition capable_output : string :=
  (ETHTOOL_HARDWARE_RECEIVE_CAP +:+ newline +:+ ETHTOOL_HARDWARE_TRANSMIT_CAP +:+ newline +:+ ETHTOOL_HARDWARE_RAW_CLOCK_CAP)%string.

Definition two_ports : System :=
  mkSystem true (Some [mkNIC "ens1" (Some "0000:01:00.0"); mkNIC "ens2" (Some "0000:02:00.0")]%string) (fun _ => false)
    (fun name => if str_eqb name "ens1" then (capable_output +:+ newline, false)%string else ("software-transmit"%string, true))
    (fun _ => None) (fun _ => None) (fun _ => None) (fun _ => None) (fun _ => None) (fun _ => None) (fun _ => None) (fun _ => None) (fun _ => None).

(** What a failed command printed stays in the buffer and counts for the next port. *)
Lemma failed_output_counts_for_next : DiscoverPTPDevices two_ports = Ok ["ens2"]%string.
Proof. vm_compute. reflexivity. Qed.

(** lspci writes the heading behind the number of its capability. *)
Lemma lspci_heading_missed :
  parseLspciVPD ("Capabilities: [e0] Vital Product Data" +:+ newline +:+ tab +:+ "[PN] Part number: K1")%string = no_vpd /\
  PartNumber (parseLspciVPD ("Vital Product Data" +:+ newline +:+ tab +:+ "[PN] Part number: K1")%string) = "K1"%string.
Proof. split; vm_compute; reflexivity. Qed.

End NetUtils.
